(* ===== verification/_CoqProject ===== *)
-Q . S2P
Prelude.v
Platform.v
RawData.v
Encoder.v
Decoder.v
Params.v
EventHeader.v
Text.v
FloatText.v
DecodedEvent.v
DecodeSafety.v
Builder.v
BuilderFacts.v
BuilderOps.v
Rebuild.v
JsonPrint.v
JsonParse.v
JsonRoundTrip.v
EventJson.v
Disk.v
DbFile.v
Backup.v
Sequence.v
LocalDb.v
LruCache.v
RepeatGuard.v
Query.v
DocStore.v
DocFacts.v
DocRebuild.v
DocClaims.v
Database.v
QueryControl.v
EventExport.v
EventLoop.v
FdWatch.v
Pipeline.v
Json.v
Dispatch.v
PluginPlatform.v
TraceManager.v
TraceFacts.v
TraceClaims.v
TraceFlow.v
TraceStrategy.v
SysEvent.v
SysEventFacts.v
EventDef.v
Privacy.v
DailyControl.v
DailyFacts.v
EventValidator.v
ValidatorFacts.v
EventServer.v
EventServerFacts.v
FoldUsage.v
FoldFacts.v
LogStore.v
FreezeRules.v
Freeze.v
FreezeValidator.v
FreezeVendor.v
FreezeFacts.v
FreezeTrust.v
FreezeJson.v
Binder.v
BinderFacts.v
ProcFs.v
NativeLeak.v
LeakFacts.v
EventPublish.v
PublishFacts.v
FaultLog.v
FaultFacts.v
