(* ===== verification/Prelude.v ===== *)
(** * A verification library of hiview

    Hiview is the device's service for system events.  A native daemon receives
    events as binary blocks, checks and completes them in a pipeline of plugins,
    stores them in documents of its own format, and hands them on: to listeners, to
    applications, to exporters and to detectors that look for frozen and leaking
    processes.  This library models its core in the shallow style: a C++ function is
    the Rocq function of the same name, members and files are passed as state, calls
    into other systems are parameters or recorded effects, and what C++ leaves
    undefined or lets throw is a result of its own ([outcome] with [Undefined] in
    DecodedEvent, [option], or a constructor of the result).  Paths below are relative
    to src/ and mostly to src/base and src/plugins.

    ** How the parts interact

    A block travels like this.  [EventServer] receives datagrams and makes a
    [SysEvent] of each; the event source publishes it ([Pipeline]) and its work loop
    runs the plugins ([EventLoop], [PluginPlatform], [Dispatch]).  [EventValidator]
    asks the definitions ([EventDef]) and the daily counts ([DailyControl]),
    [Privacy] hides what may not leave, [Sequence] numbers the event and [DocStore]
    writes it; [Database] queries and cleans the documents, [QueryControl] admits
    queries, [EventExport] exports ranges, [RepeatGuard] and [Backup] keep faults
    apart and safe.  [EventPublish] copies events and logs into the sandboxes of
    applications.  The detectors ([Freeze], [NativeLeak], [Binder], [FoldUsage]) read
    events and kernel files and make reports, whose logs [LogStore] and [FaultLog]
    keep.  Apart from this, [TraceManager] decides who may record the system trace.

    ** Files and what they model

    - Shared: Prelude (this file: integers at their width, byte strings, list lemmas,
      the tactics and hints), Platform (allocation and securec as classes with a
      reference instance), Text and FloatText (numbers printed and read), Disk (file
      operations as programs cut by crashes), Json (values of jsoncpp).
    - Raw events, base/event_raw: RawData, Encoder, Decoder, Params, EventHeader,
      DecodedEvent, Builder, JsonPrint, JsonParse; theorems in DecodeSafety,
      BuilderFacts, BuilderOps, Rebuild, JsonRoundTrip, EventJson.
    - Event store, base/event_store: DbFile (names of documents), DocStore with
      DocFacts, DocRebuild, DocClaims (the binary format), Query, Database, LruCache,
      QueryControl, Sequence, LocalDb, Backup, RepeatGuard; plugins/event_store:
      EventExport.
    - Platform, base and core: EventLoop, FdWatch, Pipeline, Dispatch, PluginPlatform.
    - Events in the pipeline: SysEvent with SysEventFacts (base/sys_event.cpp),
      EventDef, Privacy, DailyControl with DailyFacts, EventValidator with
      ValidatorFacts, EventServer with EventServerFacts (plugins of these names).
    - Trace, framework/native/unified_collection: TraceManager, TraceFacts,
      TraceClaims, TraceFlow, TraceStrategy.
    - Freezes, plugins/freeze_detector and what it works with: FreezeRules, Freeze,
      FreezeValidator, FreezeVendor, theorems in FreezeFacts and FreezeTrust;
      FreezeJson (the hand-over file read by plugins/faultlogger); Binder with
      BinderFacts (plugins/eventlogger).
    - Leaks, plugins/reliability/leak_detectors: ProcFs, NativeLeak, LeakFacts.
    - Use of applications, plugins/usage_event_report/fold: FoldUsage, FoldFacts.
    - Logs: LogStore (base/logstore), FaultLog with FaultFacts (plugins/faultlogger).
    - Delivery to applications, base/event_publish: EventPublish, PublishFacts.

    ** What the theorems show

    - Round trips: blocks built decode to what was built, JSON text of plain events is
      parsed back, documents give back what was written, messages sent arrive, the
      freeze hand-over and the sections of a fault log read back.
    - Safety on any input: the decoders stay within any block; publishing and freeze
      reports do not depend on files outside their folders; an application's event
      speaks only of the application; what does go wrong in the code is proved as such
      (undefined conversions, an event loop that oversleeps, a front of an empty list).
    - Refinement: the builder and [SysEvent] are finite maps, the definition cache and
      the daily counts are the plain ones, the document cache is a list.
    - Invariants of interleavings, by induction on steps: each queued event is run
      once and does not starve, each published event reaches its processors in order,
      the leak detector's tables agree, sequence numbers increase through crashes, the
      backup survives them, the trace is opened and closed in turn.
    - Exactness: queries and exports return what is stored, a day's report is the time
      spent, quotas and numbers of files are kept as far as the code keeps them.

    The limits of each are in the comment of the theorem; where the code does less than
    one would expect, a lemma next to it shows the case.

    ** Bounds and fuel

    Recursion that is not structural has fuel.  The page loop of the document reader
    ends within two rounds for every content and one more (C3), [OnContinue] within the
    number of processors and one more ([pipeline_terminates_in_order]),
    [ParseBinderCallChain] within the number of processes with calls and one more (C14),
    [split_ranges] within the length of its range ([split_ranges_ok]); [SplitLoop],
    [ReplaceLoop] and [count_loop] take the length of the text, of which each round
    drops some, and [digs] the binary logarithm of the number and one more.  A leak task
    ends within six runs (C19).  Integers keep their width through [u32], [u64], [s32]
    and [s64]; doubles are their 64-bit patterns, rounded as IEEE prescribes (Query).

    ** Parameters

    Code outside the repository, and the state of the system, is an argument: memory
    and securec (Platform), [std::priority_queue] and [std::sort] (the classes
    [PriorityQueue] and [Sorter], promised to order, not how ties fall), the relational
    store, jsoncpp's and cJSON's values, libxml2's tree, the hitrace library, the bundle
    manager, system parameters, answers of [recvmsg], [read], [open] and [epoll_ctl],
    directory listings, real paths, file attributes, texts under /proc, clocks and
    calendars, and the virtual methods of plugins.  Where a component uses another
    through an interface, its law is stated there: [query_law] of Freeze and EventExport
    is what [query_returns_every_match] proves of [Database.Execute] below its limit.
    Every class has an instance, and every theorem with hypotheses a witness that meets
    them.

    ** What is not modelled

    IPC stubs, bindings and the service's adapters; collectors of /proc and hidumper
    data and the trace file handlers; the performance, unified-collector and statistics
    plugins; loading of libraries, dispatch queues of ffrt, mutexes that only serialise
    whole methods; logging; the texts of reports that come from other services.  They
    are input and output or glue around what is modelled.  Removal and creation of files
    succeed unless a component's definitions say otherwise. *)

(** ** Prelude: machine integers, byte strings, shared lemmas and automation *)

From Stdlib Require Import ZArith Lia.
From stdpp Require Import base list numbers strings sorting.

Local Open Scope Z_scope.

(** ** Notations and automation of the development *)

Declare Scope hv_scope.
Delimit Scope hv_scope with hv.

Create HintDb hv discriminated.
Create Rewrite HintDb zlen.

(** A byte string: [std::string] contents, a [uint8_t] block.  Each element is
    the unsigned value of one byte. *)
Abbreviation bytes := (list Z).

(** Length as a [size_t]-like integer. *)
Definition Zlen {A} (l : list A) : Z := Z.of_nat (length l).

(** ** Sums over lists *)

Definition sum_of {A} (f : A → Z) (l : list A) : Z := foldr (λ x n, f x + n) 0 l.
#[global] Arguments sum_of : simpl never.

Lemma sum_of_nil {A} (f : A → Z) : sum_of f [] = 0.
Proof. done. Qed.

Lemma sum_of_cons {A} (f : A → Z) x l : sum_of f (x :: l) = f x + sum_of f l.
Proof. done. Qed.

Lemma sum_of_app {A} (f : A → Z) l l' : sum_of f (l ++ l') = sum_of f l + sum_of f l'.
Proof. induction l as [|x l IH]; cbn [app]; rewrite ?sum_of_cons, ?IH; [done|lia]. Qed.

Lemma sum_of_nonneg {A} (f : A → Z) l : (∀ x, x ∈ l → 0 <= f x) → 0 <= sum_of f l.
Proof.
  intros H. induction l as [|x l IH]; [done|]. rewrite sum_of_cons.
  pose proof (H x ltac:(left)). specialize (IH ltac:(intros; apply H; by right)). lia.
Qed.

Lemma sum_of_ext {A} (f g : A → Z) l : (∀ x, x ∈ l → f x = g x) → sum_of f l = sum_of g l.
Proof.
  intros H. induction l as [|x l IH]; [done|]. rewrite !sum_of_cons, (H x ltac:(left)), IH; [done|].
  intros; apply H; by right.
Qed.

Lemma sum_of_zero {A} (f : A → Z) l : (∀ x, x ∈ l → f x = 0) → sum_of f l = 0.
Proof.
  intros H. induction l as [|x l IH]; [done|]. rewrite sum_of_cons, (H x ltac:(left)), IH; [done|].
  intros; apply H; by right.
Qed.

Lemma sum_of_perm {A} (f : A → Z) l l' : l ≡ₚ l' → sum_of f l = sum_of f l'.
Proof. induction 1; rewrite ?sum_of_cons; lia. Qed.

Lemma sum_of_fmap {A B} (g : A → B) (f : B → Z) l : sum_of f (g <$> l) = sum_of (λ x, f (g x)) l.
Proof. induction l as [|x l IH]; [done|]. by rewrite fmap_cons, !sum_of_cons, IH. Qed.

(** ** Fixed-width integers *)

Definition u8 (z : Z) : Z := z mod 2 ^ 8.
Definition u32 (z : Z) : Z := z mod 2 ^ 32.
Definition u64 (z : Z) : Z := z mod 2 ^ 64.
Definition sgn (w : Z) (z : Z) : Z :=
  let m := z mod 2 ^ w in if m <? 2 ^ (w - 1) then m else m - 2 ^ w.
Definition s32 (z : Z) : Z := sgn 32 z.
Definition s64 (z : Z) : Z := sgn 64 z.

Definition is_u (w : Z) (z : Z) : Prop := 0 <= z < 2 ^ w.
Definition is_s (w : Z) (z : Z) : Prop := - 2 ^ (w - 1) <= z < 2 ^ (w - 1).
Definition is_byte (b : Z) : Prop := is_u 8 b.
Definition bytes_ok (bs : bytes) : Prop := Forall is_byte bs.

#[global] Instance is_u_dec w z : Decision (is_u w z).
Proof. unfold is_u. apply _. Defined.
#[global] Instance is_s_dec w z : Decision (is_s w z).
Proof. unfold is_s. apply _. Defined.
#[global] Instance is_byte_dec b : Decision (is_byte b).
Proof. unfold is_byte. apply _. Defined.

(** Case analysis on the boolean integer comparisons of the goal and context. *)
Ltac zbool :=
  repeat match goal with
  | H : (_ =? _) = true |- _ => apply Z.eqb_eq in H
  | H : (_ =? _) = false |- _ => apply Z.eqb_neq in H
  | H : (_ <? _) = true |- _ => apply Z.ltb_lt in H
  | H : (_ <? _) = false |- _ => apply Z.ltb_ge in H
  | H : (_ <=? _) = true |- _ => apply Z.leb_le in H
  | H : (_ <=? _) = false |- _ => apply Z.leb_gt in H
  | H : (_ >? _) = true |- _ => rewrite Z.gtb_ltb in H
  | H : (_ >? _) = false |- _ => rewrite Z.gtb_ltb in H
  | H : (_ >=? _) = true |- _ => rewrite Z.geb_leb in H
  | H : (_ >=? _) = false |- _ => rewrite Z.geb_leb in H
  end.

Ltac zcase :=
  match goal with
  | |- context [?a =? ?b] => destruct (Z.eqb_spec a b)
  | |- context [?a <? ?b] => destruct (Z.ltb_spec a b)
  | |- context [?a <=? ?b] => destruct (Z.leb_spec a b)
  | |- context [?a >? ?b] => rewrite (Z.gtb_ltb a b); destruct (Z.ltb_spec b a)
  | |- context [?a >=? ?b] => rewrite (Z.geb_leb a b); destruct (Z.leb_spec b a)
  end.

Lemma gtb_false a b : a <= b → (a >? b) = false.
Proof. rewrite Z.gtb_ltb, Z.ltb_ge. done. Qed.

Lemma gtb_true a b : b < a → (a >? b) = true.
Proof. rewrite Z.gtb_ltb, Z.ltb_lt. done. Qed.

Section Words.

Lemma u64_small z : is_u 64 z → u64 z = z.
Proof. apply Z.mod_small. Qed.

Lemma u32_small z : is_u 32 z → u32 z = z.
Proof. apply Z.mod_small. Qed.

Lemma u8_small z : is_u 8 z → u8 z = z.
Proof. apply Z.mod_small. Qed.

Lemma sgn_small w z : 0 < w → is_s w z → sgn w z = z.
Proof.
  intros Hw [Hlo Hhi]. unfold sgn.
  assert (2 ^ w = 2 * 2 ^ (w - 1)) as Hpow
    by (rewrite <- Z.pow_succ_r by lia; f_equal; lia).
  destruct (Z.le_gt_cases 0 z) as [Hz | Hz].
  - rewrite Z.mod_small by lia. zcase; lia.
  - replace (z mod 2 ^ w) with (z + 2 ^ w)
      by (rewrite <- (Z.mod_add z 1 (2 ^ w)) by lia; rewrite Z.mod_small; lia).
    zcase; lia.
Qed.

Lemma sgn_mod w z : 0 < w → sgn w (z mod 2 ^ w) = sgn w z.
Proof. intros Hw. unfold sgn. by rewrite Z.mod_mod by lia. Qed.

Lemma is_u_mod w z : 0 <= w → is_u w (z mod 2 ^ w).
Proof. intros Hw. apply Z.mod_pos_bound. lia. Qed.

Lemma is_s_sgn w z : 0 < w → is_s w (sgn w z).
Proof.
  intros Hw. unfold sgn, is_s. pose proof (Z.mod_pos_bound z (2 ^ w)) as Hm.
  assert (2 ^ w = 2 * 2 ^ (w - 1)) as Hpow
    by (rewrite <- Z.pow_succ_r by lia; f_equal; lia).
  specialize (Hm ltac:(lia)). zcase; lia.
Qed.

(** Bits above a width are clear. *)
Lemma testbit_high k b n : 0 <= b < 2 ^ k → k <= n → Z.testbit b n = false.
Proof.
  intros Hb Hn. destruct (Z.le_gt_cases 0 k) as [Hk | Hk].
  - rewrite <- (Z.mod_small b (2 ^ k)) by done. by apply Z.mod_pow2_bits_high.
  - rewrite Z.pow_neg_r in Hb by lia. lia.
Qed.

(** [lor] of a multiple of [2^k] with something below [2^k] is addition. *)
Lemma lor_low k a b : 0 <= k → 0 <= b < 2 ^ k → Z.lor (a * 2 ^ k) b = a * 2 ^ k + b.
Proof.
  intros Hk Hb. rewrite <- Z.lxor_lor, <- Z.add_nocarry_lxor; [done| |];
    apply Z.bits_inj'; intros n Hn; rewrite Z.land_spec, Z.bits_0;
    (destruct (Z.lt_ge_cases n k);
     [rewrite Z.mul_pow2_bits_low by lia; done|
      rewrite (testbit_high k b) by lia; apply andb_false_r]).
Qed.

Lemma lor_high k a b : 0 <= k → 0 <= b < 2 ^ k → Z.lor b (a * 2 ^ k) = a * 2 ^ k + b.
Proof. intros. rewrite Z.lor_comm. by apply lor_low. Qed.

(** Deciding a boolean property of small integers by evaluation. *)
Lemma forall_small (P : Z → bool) n :
  forallb P (seqZ 0 n) = true → ∀ x, 0 <= x < n → P x = true.
Proof.
  intros HP x Hx. rewrite forallb_forall in HP. apply HP.
  apply list_elem_of_In, elem_of_seqZ. lia.
Qed.

(** Exclusive or with all ones is the complement. *)
Lemma lxor_ones n a : 0 <= n → 0 <= a < 2 ^ n → Z.lxor a (Z.ones n) = 2 ^ n - 1 - a.
Proof.
  intros Hn Ha. enough (a + Z.lxor a (Z.ones n) = Z.ones n) as E
    by (rewrite Z.ones_equiv in E at 2; lia).
  rewrite Z.add_nocarry_lxor.
  - by rewrite <- Z.lxor_assoc, Z.lxor_nilpotent, Z.lxor_0_l.
  - apply Z.bits_inj'. intros i Hi. rewrite Z.land_spec, Z.lxor_spec, Z.bits_0.
    destruct (Z.lt_ge_cases i n).
    + rewrite Z.ones_spec_low by lia. by destruct (Z.testbit a i).
    + by rewrite (testbit_high n a) by lia.
Qed.

End Words.

(** ** Lists indexed by [Z] *)

Section ZLists.
Context {A : Type}.
Implicit Types l k : list A.

Lemma Zlen_nonneg l : 0 <= Zlen l.
Proof. unfold Zlen. lia. Qed.

Lemma Zlen_nil : Zlen (@nil A) = 0.
Proof. done. Qed.

Lemma Zlen_cons x l : Zlen (x :: l) = 1 + Zlen l.
Proof. unfold Zlen. simpl. lia. Qed.

Lemma Zlen_app l k : Zlen (l ++ k) = Zlen l + Zlen k.
Proof. unfold Zlen. rewrite length_app. lia. Qed.

Lemma Zlen_take n l : 0 <= n <= Zlen l → Zlen (take (Z.to_nat n) l) = n.
Proof. unfold Zlen. rewrite length_take. lia. Qed.

Lemma Zlen_drop n l : 0 <= n <= Zlen l → Zlen (drop (Z.to_nat n) l) = Zlen l - n.
Proof. unfold Zlen. rewrite length_drop. lia. Qed.

Lemma Zlen_replicate n (x : A) : 0 <= n → Zlen (replicate (Z.to_nat n) x) = n.
Proof. unfold Zlen. rewrite length_replicate. lia. Qed.

Lemma take_Zlen l k : take (Z.to_nat (Zlen l)) (l ++ k) = l.
Proof. unfold Zlen. rewrite Nat2Z.id. apply take_app_length. Qed.

Lemma drop_Zlen l k : drop (Z.to_nat (Zlen l)) (l ++ k) = k.
Proof. unfold Zlen. rewrite Nat2Z.id. apply drop_app_length. Qed.

Lemma take_Zlen_id l : take (Z.to_nat (Zlen l)) l = l.
Proof. unfold Zlen. rewrite Nat2Z.id. apply firstn_all. Qed.

(** Reading at an offset of a concatenation. *)
Lemma lookup_Zlen_app l x k : (l ++ x :: k) !! Z.to_nat (Zlen l) = Some x.
Proof. unfold Zlen. rewrite Nat2Z.id. by apply list_lookup_middle. Qed.

End ZLists.

(** Elements told apart by a key. *)
Lemma nodup_map_inj {A B} (f : A → B) (l : list A) x y :
  NoDup (f <$> l) → x ∈ l → y ∈ l → f x = f y → x = y.
Proof.
  induction l as [|z l IH]; cbn; intros Hnd Hx Hy E; [by apply not_elem_of_nil in Hx|].
  apply NoDup_cons in Hnd as [Hz Hnd]. apply elem_of_cons in Hx as [->|Hx], Hy as [->|Hy]; [done|..|by apply IH].
  - exfalso. apply Hz. rewrite E. by apply list_elem_of_fmap_2.
  - exfalso. apply Hz. rewrite <- E. by apply list_elem_of_fmap_2.
Qed.

(** Filtering by what all elements satisfy. *)
Lemma filter_all {A} (P : A → Prop) `{∀ x, Decision (P x)} (l : list A) : (∀ x, x ∈ l → P x) → filter P l = l.
Proof.
  intros HP. induction l as [|x l IH]; [done|]. rewrite filter_cons_True by (apply HP; by left).
  rewrite IH; [done|]. intros y Hy. apply HP. by right.
Qed.

Lemma filter_none {A} (P : A → Prop) `{!∀ x, Decision (P x)} (l : list A) : (∀ x, x ∈ l → ¬ P x) → filter P l = [].
Proof.
  induction l as [|x l IH]; [done|]. intros HP. rewrite filter_cons_False by (apply HP; left). apply IH. intros y Hy. apply HP. by right.
Qed.

Lemma filter_same {A} (P Q : A → Prop) `{!∀ x, Decision (P x)} `{!∀ x, Decision (Q x)} (l : list A) :
  (∀ x, x ∈ l → P x ↔ Q x) → filter P l = filter Q l.
Proof.
  induction l as [|x l IH]; [done|]. intros HP. pose proof (HP x ltac:(left)) as Hx.
  assert (filter P l = filter Q l) as E by (apply IH; intros y Hy; apply HP; by right).
  destruct (decide (P x)).
  - rewrite !filter_cons_True by naive_solver. by rewrite E.
  - rewrite !filter_cons_False by naive_solver. done.
Qed.

(** A sorted list is sorted by every weaker order. *)
Lemma sorted_weaken {A} (R S : A → A → Prop) (l : list A) :
  (∀ x y, R x y → S x y) → StronglySorted R l → StronglySorted S l.
Proof.
  intros HRS. induction 1 as [|x l _ IH Hx]; constructor; [done|].
  eapply Forall_impl; [exact Hx|]. intros y. apply HRS.
Qed.

#[export] Hint Rewrite @Zlen_nil @Zlen_cons @Zlen_app : zlen.
#[export] Hint Resolve Zlen_nonneg : hv.

(** Normalise lengths of explicit lists and close the arithmetic goal. *)
Ltac zlen := autorewrite with zlen in *; try lia.

(** ** Little-endian object representations *)

Section LittleEndian.

Fixpoint le_bytes (n : nat) (z : Z) : bytes :=
  match n with
  | O => []
  | S n => z mod 256 :: le_bytes n (z / 256)
  end.

Fixpoint le_value (bs : bytes) : Z :=
  match bs with
  | [] => 0
  | b :: bs => b + 256 * le_value bs
  end.

Lemma length_le_bytes n z : length (le_bytes n z) = n.
Proof. revert z. induction n; intros; simpl; auto. Qed.

Lemma Zlen_le_bytes n z : Zlen (le_bytes n z) = Z.of_nat n.
Proof. unfold Zlen. by rewrite length_le_bytes. Qed.

Lemma le_bytes_ok n z : bytes_ok (le_bytes n z).
Proof.
  revert z. induction n as [|n IH]; intros z; simpl; constructor; [|apply IH].
  split; [apply Z.mod_pos_bound; lia|]. change (2 ^ 8) with 256.
  apply Z.mod_pos_bound; lia.
Qed.

Lemma le_value_bytes n z : le_value (le_bytes n z) = z mod 2 ^ (8 * Z.of_nat n).
Proof.
  revert z. induction n as [|n IH]; intros z; simpl le_bytes; simpl le_value.
  { by rewrite Z.mod_1_r. }
  rewrite IH. replace (8 * Z.of_nat (S n)) with (8 + 8 * Z.of_nat n) by lia.
  rewrite Z.pow_add_r by lia. change (2 ^ 8) with 256.
  rewrite Z.rem_mul_r by lia. done.
Qed.

Lemma le_value_bound bs : bytes_ok bs → 0 <= le_value bs < 2 ^ (8 * Zlen bs).
Proof.
  induction 1 as [|b bs [Hb0 Hb] _ IH]; [by vm_compute|].
  rewrite Zlen_cons. simpl. change (2 ^ 8) with 256 in Hb.
  replace (8 * (1 + Zlen bs)) with (8 + 8 * Zlen bs) by lia.
  rewrite Z.pow_add_r by (pose proof (Zlen_nonneg bs); lia).
  change (2 ^ 8) with 256. lia.
Qed.

Lemma le_value_bytes_small n z :
  0 <= z < 2 ^ (8 * Z.of_nat n) → le_value (le_bytes n z) = z.
Proof. intros Hz. rewrite le_value_bytes. by apply Z.mod_small. Qed.

Lemma le_bytes_value bs : bytes_ok bs → le_bytes (length bs) (le_value bs) = bs.
Proof.
  induction 1 as [|b bs [Hb0 Hb] _ IH]; [done|]. simpl.
  change (2 ^ 8) with 256 in Hb.
  replace (b + 256 * le_value bs) with (le_value bs * 256 + b) by lia.
  rewrite Z.add_comm, Z.mod_add, Z.mod_small by lia.
  rewrite Z.div_add by lia. rewrite (Z.div_small b), Z.add_0_l by lia.
  by rewrite IH.
Qed.

End LittleEndian.

#[export] Hint Rewrite Zlen_le_bytes : zlen.
#[export] Hint Resolve le_bytes_ok : hv.

(** ** Text *)

(** The bytes of a string literal of the source. *)
Definition str (s : string) : bytes :=
  (λ a, Z.of_nat (Ascii.nat_of_ascii a)) <$> String.list_ascii_of_string s.
