(* ===== verification/Platform.v ===== *)
(** * Platform: the memory services the event code relies on

    [new(std::nothrow) uint8_t[n]] and securec's [memcpy_s] are not part of the
    repository.  They are the fields of two classes, with what their
    documentation promises as laws; every component that allocates or copies
    takes them as parameters.  [ref_heap] and [ref_securec] are instances, so
    the laws are satisfiable and every definition evaluates. *)

From S2P Require Import Prelude.
From stdpp Require Import base list numbers.

Local Open Scope Z_scope.

(** The largest [destMax] securec accepts (SECUREC_MEM_MAX_LEN). *)
Definition MEM_MAX : Z := 2 ^ 31 - 1.

(** [new_bytes n] is the answer of [new(std::nothrow) uint8_t[n]]: [None] for a
    null pointer, otherwise the block with its indeterminate contents. *)
Class Heap := {
  new_bytes : Z → option bytes;
  new_bytes_len n b : new_bytes n = Some b → Zlen b = n
}.

(** The allocator does not fail for sizes the copies can address. *)
Class HeapTotal (H : Heap) :=
  new_bytes_total n : 0 <= n <= MEM_MAX → is_Some (new_bytes n).

(** [memcpy_s dest destMax src count]: [dest] is the memory from the
    destination pointer to the end of its object, [src] is [None] for a null
    pointer.  The result is whether it returned [EOK], and [dest] afterwards. *)
Class Securec := {
  memcpy_s : bytes → Z → option bytes → Z → bool * bytes;
  memcpy_s_len dest destMax src count :
    Zlen (memcpy_s dest destMax src count).2 = Zlen dest;
  memcpy_s_copies dest destMax src count :
    0 < destMax <= MEM_MAX → destMax <= Zlen dest →
    0 <= count <= destMax → count <= Zlen src →
    memcpy_s dest destMax (Some src) count =
      (true, take (Z.to_nat count) src ++ drop (Z.to_nat count) dest);
  memcpy_s_resets dest destMax src count :
    0 < destMax <= MEM_MAX → destMax <= Zlen dest → destMax < count →
    memcpy_s dest destMax (Some src) count =
      (false, replicate (Z.to_nat destMax) 0 ++ drop (Z.to_nat destMax) dest);
  memcpy_s_bad_range dest destMax src count :
    destMax <= 0 ∨ MEM_MAX < destMax →
    memcpy_s dest destMax src count = (false, dest);
  memcpy_s_null dest destMax count :
    (memcpy_s dest destMax None count).1 = false
}.

(** ** Instances *)

(** An allocator that never fails and hands out zeroed blocks. *)
Definition ref_new_bytes (n : Z) : option bytes :=
  if 0 <=? n then Some (replicate (Z.to_nat n) 0) else None.

#[global, refine] Instance ref_heap : Heap := {| new_bytes := ref_new_bytes |}.
Proof.
  intros n b. unfold ref_new_bytes. zcase; [|done]. intros [= <-].
  by apply Zlen_replicate.
Defined.

#[global] Instance ref_heap_total : HeapTotal ref_heap.
Proof. intros n Hn. cbn. unfold ref_new_bytes. zcase; [eauto|lia]. Defined.

(** An allocator that always fails. *)
#[refine] Definition oom_heap : Heap := {| new_bytes := λ _, None |}.
Proof. done. Defined.

Definition ref_memcpy_s (dest : bytes) (destMax : Z) (src : option bytes)
    (count : Z) : bool * bytes :=
  if (destMax <=? 0) || (MEM_MAX <? destMax) || (Zlen dest <? destMax) then (false, dest)
  else match src with
  | None => (false, dest)
  | Some s =>
      if destMax <? count then
        (false, replicate (Z.to_nat destMax) 0 ++ drop (Z.to_nat destMax) dest)
      else if Zlen s <? count then (false, dest)
      else (true, take (Z.to_nat count) s ++ drop (Z.to_nat count) dest)
  end.

#[global, refine] Instance ref_securec : Securec := {| memcpy_s := ref_memcpy_s |}.
Proof.
  - intros dest m [s|] c; unfold ref_memcpy_s; repeat (zcase; simpl; try done);
      rewrite Zlen_app; unfold Zlen in *; rewrite ?length_replicate, ?length_take, ?length_drop;
      lia.
  - intros dest m s c ????. unfold ref_memcpy_s. repeat (zcase; simpl; try lia; try done).
  - intros dest m s c ???. unfold ref_memcpy_s. repeat (zcase; simpl; try lia; try done).
  - intros dest m s c [?|?]; unfold ref_memcpy_s; repeat (zcase; simpl; try lia; try done).
  - intros dest m c. unfold ref_memcpy_s. repeat (zcase; simpl; try done).
Defined.
