(* ===== verification/RawData.v ===== *)
(** * RawData: the growable byte buffer of base/event_raw

    Models base/event_raw/base/raw_data.cpp.  A buffer is the block [data_]
    points at (all of it, [None] for a null pointer), the used length [len_] and
    the tracked [capacity_].  Every method is the function of the same name; the
    methods that lock are atomic. *)

From S2P Require Import Prelude Platform.
From stdpp Require Import base list numbers.

Local Open Scope Z_scope.

Record RawData := mkRawData {
  data_ : option bytes;
  len_ : Z;
  capacity_ : Z
}.

Definition EXPAND_BUF_SIZE : Z := 128.

(** The members' default initialisers. *)
Definition RawData_init : RawData := mkRawData None 0 0.

Section Methods.
Context `{HP : Heap} `{SC : Securec}.

(** [RawData()] *)
Definition RawData_new : RawData :=
  match new_bytes EXPAND_BUF_SIZE with
  | None => RawData_init
  | Some d => mkRawData (Some d) 0 EXPAND_BUF_SIZE
  end.

(** [RawData(size_t)] *)
Definition RawData_new_len (dataLen : Z) : RawData :=
  match new_bytes dataLen with
  | None => RawData_init
  | Some d => mkRawData (Some d) 0 dataLen
  end.

(** [RawData(uint8_t*, size_t)] *)
Definition RawData_new_from (data : option bytes) (dataLen : Z) : RawData :=
  match data with
  | None => RawData_new
  | Some _ =>
      if dataLen =? 0 then RawData_new else
      match new_bytes dataLen with
      | None => RawData_init
      | Some d =>
          let '(ok, d') := memcpy_s d dataLen data dataLen in
          if ok then mkRawData (Some d') dataLen dataLen
          else mkRawData (Some d') 0 0
      end
  end.

Definition GetData (r : RawData) : option bytes := data_ r.
Definition GetDataLength (r : RawData) : Z := len_ r.

(** [RawData(const RawData&)] *)
Definition RawData_copy (data : RawData) : RawData :=
  let dataLen := GetDataLength data in
  if dataLen =? 0 then RawData_init else
  match new_bytes dataLen with
  | None => RawData_init
  | Some d =>
      let '(ok, d') := memcpy_s d dataLen (GetData data) dataLen in
      if ok then mkRawData (Some d') dataLen dataLen
      else mkRawData (Some d') 0 0
  end.

(** [operator=]; [same] is [this == &data]. *)
Definition RawData_assign (this : RawData) (same : bool) (data : RawData) : RawData :=
  if same then this else
  let dataLen := GetDataLength data in
  if dataLen =? 0 then this else
  match new_bytes dataLen with
  | None => this
  | Some tmpData =>
      let '(ok, tmpData') := memcpy_s tmpData dataLen (GetData data) dataLen in
      if ok then mkRawData (Some tmpData') dataLen dataLen else this
  end.

(** [Reset]: when the allocation fails, [len_] and [capacity_] keep their values. *)
Definition Reset (r : RawData) : RawData :=
  match new_bytes EXPAND_BUF_SIZE with
  | None => mkRawData None (len_ r) (capacity_ r)
  | Some d => mkRawData (Some d) 0 EXPAND_BUF_SIZE
  end.

Definition IsEmpty (r : RawData) : bool :=
  (len_ r =? 0) || (match data_ r with None => true | Some _ => false end).

(** The expansion inside [Update]: [None] when it returns false, otherwise the
    block and the capacity to write into. *)
Definition Expand (r : RawData) (d : bytes) (len pos : Z) : option (bytes * Z) :=
  if u64 (pos + len) >? capacity_ r then
    let expandedSize := if len >? EXPAND_BUF_SIZE then len else EXPAND_BUF_SIZE in
    let expandedCapacity := u64 (capacity_ r + expandedSize) in
    match new_bytes expandedCapacity with
    | None => None
    | Some resizedData =>
        let '(ok, resizedData') := memcpy_s resizedData expandedCapacity (Some d) (len_ r) in
        if ok then Some (resizedData', u64 (capacity_ r + expandedSize)) else None
    end
  else Some (d, capacity_ r).

Definition Update (r : RawData) (data : option bytes) (len pos : Z) : bool * RawData :=
  match data with
  | None => (false, r)
  | Some _ =>
      if pos >? len_ r then (false, r) else
      match data_ r with
      | None => (false, r)
      | Some d =>
          match Expand r d len pos with
          | None => (false, r)
          | Some (d', capacity) =>
              let '(ok, tail) :=
                memcpy_s (drop (Z.to_nat pos) d') (u64 (capacity - pos)) data len in
              let d'' := take (Z.to_nat pos) d' ++ tail in
              if ok then
                (true, mkRawData (Some d'')
                         (if u64 (pos + len) >? len_ r then u64 (pos + len) else len_ r)
                         capacity)
              else (false, mkRawData (Some d'') (len_ r) capacity)
          end
      end
  end.

Definition Append (r : RawData) (data : option bytes) (len : Z) : bool * RawData :=
  if len =? 0 then (true, r) else Update r data len (len_ r).

End Methods.

(** ** The invariant *)

(** The used length never exceeds the capacity, nor the capacity the block. *)
Definition rd_wf (r : RawData) : Prop :=
  0 <= len_ r <= capacity_ r ∧
  match data_ r with Some d => capacity_ r <= Zlen d | None => True end.

(** What the buffer holds. *)
Definition contents (r : RawData) : bytes :=
  match data_ r with Some d => take (Z.to_nat (len_ r)) d | None => [] end.

(** A buffer the event code can append to: it has a block, and stays below the
    sizes at which [memcpy_s] refuses. *)
Definition usable (r : RawData) : Prop :=
  rd_wf r ∧ is_Some (data_ r) ∧ capacity_ r <= 2 ^ 22.

(** The largest buffer the theorems cover; the decoder accepts blocks of at
    most 384 KiB, see [DecodedEvent.MAX_BLOCK_SIZE]. *)
Definition LEN_MAX : Z := 2 ^ 20.

Section Facts.
Context `{HP : Heap} `{SC : Securec}.

Lemma rd_wf_init : rd_wf RawData_init.
Proof. by vm_compute. Qed.

Lemma rd_wf_alloc n d : new_bytes n = Some d → 0 <= n → rd_wf (mkRawData (Some d) 0 n).
Proof. intros Hd%new_bytes_len Hn. unfold rd_wf; simpl. lia. Qed.

Lemma Zlen_memcpy_s dest m src c ok dest' :
  memcpy_s dest m src c = (ok, dest') → Zlen dest' = Zlen dest.
Proof. intros E. by rewrite <- (memcpy_s_len dest m src c), E. Qed.

Lemma rd_wf_copied n d m src c ok d' :
  new_bytes n = Some d → memcpy_s d m src c = (ok, d') → 0 <= n →
  rd_wf (mkRawData (Some d') n n) ∧ rd_wf (mkRawData (Some d') 0 0).
Proof.
  intros Hd%new_bytes_len Hm%Zlen_memcpy_s Hn. unfold rd_wf; simpl. lia.
Qed.

Lemma Expand_cases r d len pos d' c :
  rd_wf r → data_ r = Some d → 0 <= len → 0 <= pos <= len_ r →
  capacity_ r + len + EXPAND_BUF_SIZE < 2 ^ 64 →
  Expand r d len pos = Some (d', c) →
  c <= Zlen d' ∧ pos + len <= c ∧ capacity_ r <= c.
Proof.
  intros [Hlen Hd] Hr Hl Hp Hbig. rewrite Hr in Hd. unfold Expand, EXPAND_BUF_SIZE in *.
  rewrite !(u64_small (pos + len)) by (split; lia).
  zcase; [|intros [= <- <-]; lia].
  destruct (new_bytes _) as [b|] eqn:Hb; [|done]. apply new_bytes_len in Hb.
  destruct (memcpy_s _ _ _ _) as [ok b'] eqn:Hm. apply Zlen_memcpy_s in Hm.
  destruct ok; [|done]. intros [= <- <-].
  rewrite u64_small in * by (split; zcase; lia).
  rewrite Hm, Hb. split; [done|]. zcase; lia.
Qed.

Lemma rd_wf_Update r data len pos :
  rd_wf r → 0 <= len → 0 <= pos →
  capacity_ r + len + EXPAND_BUF_SIZE < 2 ^ 64 →
  rd_wf (Update r data len pos).2.
Proof.
  intros Hwf Hl Hp Hbig. unfold Update. destruct data as [src|]; [|done].
  zcase; [done|]. destruct (data_ r) as [d|] eqn:Hd; [|done].
  destruct (Expand r d len pos) as [[d' c]|] eqn:HE; [|done].
  eapply Expand_cases in HE as (Hc & Hfit & Hmono); try done.
  destruct (memcpy_s _ _ _ _) as [ok tail] eqn:Hm. apply Zlen_memcpy_s in Hm.
  destruct Hwf as [Hlen _].
  assert (Zlen (take (Z.to_nat pos) d' ++ tail) = Zlen d') as Hz.
  { rewrite Zlen_app, Hm, Zlen_take, Zlen_drop; lia. }
  unfold EXPAND_BUF_SIZE in *. rewrite (u64_small (pos + len)) by (split; lia).
  destruct ok; unfold rd_wf; simpl; rewrite Hz; [zcase; lia|lia].
Qed.

Lemma rd_wf_Append r data len :
  rd_wf r → 0 <= len → capacity_ r + len + EXPAND_BUF_SIZE < 2 ^ 64 →
  rd_wf (Append r data len).2.
Proof.
  intros Hwf Hl Hb. unfold Append. zcase; [done|].
  apply rd_wf_Update; auto. destruct Hwf; lia.
Qed.

Lemma Zlen_contents r : rd_wf r → is_Some (data_ r) → Zlen (contents r) = len_ r.
Proof.
  intros [Hl Hd] [d E]. unfold contents. rewrite E in *. apply Zlen_take. lia.
Qed.

(** ** Functional behaviour when memory is available *)

Context `{!HeapTotal HP}.

Lemma usable_new : usable RawData_new.
Proof.
  unfold RawData_new. destruct (new_bytes_total EXPAND_BUF_SIZE) as [d Hd]; [done|].
  rewrite Hd. split; [|split]; [by apply rd_wf_alloc|simpl; eauto|done].
Qed.

Lemma contents_new : contents RawData_new = [].
Proof. unfold RawData_new, contents. by destruct (new_bytes _). Qed.

Lemma Expand_spec r d len pos :
  usable r → data_ r = Some d → 0 < len → 0 <= pos <= len_ r → pos + len <= LEN_MAX →
  ∃ d' c, Expand r d len pos = Some (d', c) ∧ pos + len <= c <= Zlen d' ∧ c <= 2 ^ 22 ∧
    capacity_ r <= c ∧ take (Z.to_nat (len_ r)) d' = contents r.
Proof.
  intros [[Hlen Hd] [_ Hcap]] Hr Hl Hp HL.
  unfold contents. rewrite Hr in Hd |- *. unfold Expand, LEN_MAX, EXPAND_BUF_SIZE in *.
  rewrite (u64_small (pos + len)) by (split; lia).
  zcase; [|eexists _, _; split_and!; [done|lia..|done]].
  set (e := if len >? 128 then len else 128).
  assert (len <= e <= 2 ^ 20 ∧ 128 <= e) as He by (unfold e; zcase; lia).
  rewrite (u64_small (capacity_ r + e)) by (split; lia).
  destruct (new_bytes_total (capacity_ r + e)) as [b Hb].
  { unfold MEM_MAX. lia. }
  rewrite Hb. apply new_bytes_len in Hb.
  rewrite memcpy_s_copies by (unfold MEM_MAX; lia).
  eexists _, _. split_and!; [done|lia| |lia|lia|].
  - rewrite Zlen_app, Zlen_take, Zlen_drop; lia.
  - rewrite take_app_le; [by rewrite take_take, Nat.min_id|].
    rewrite length_take. unfold Zlen in *. lia.
Qed.

Lemma Update_spec r src pos :
  usable r → src ≠ [] → 0 <= pos <= len_ r → pos + Zlen src <= LEN_MAX →
  ∃ r', Update r (Some src) (Zlen src) pos = (true, r') ∧ usable r' ∧
    len_ r' = Z.max (len_ r) (pos + Zlen src) ∧
    contents r' = take (Z.to_nat pos) (contents r) ++ src ++
                  drop (Z.to_nat (pos + Zlen src)) (contents r).
Proof.
  intros Hu Hne Hp HL. assert (0 < Zlen src) as Hs by (destruct src; [done|zlen; pose proof (Zlen_nonneg src); lia]).
  pose proof Hu as [[Hlen _] [[d Hd] Hcap]].
  destruct (Expand_spec r d (Zlen src) pos) as (d' & c & HE & Hc & Hc22 & Hge & Hpre); auto.
  unfold Update. zcase; [lia|]. rewrite Hd, HE. unfold LEN_MAX in *.
  rewrite (u64_small (c - pos)), (u64_small (pos + Zlen src)) by (split; lia).
  rewrite memcpy_s_copies by (unfold MEM_MAX; rewrite ?Zlen_drop; lia).
  rewrite take_Zlen_id. eexists; split; [done|].
  rewrite drop_drop, <- Z2Nat.inj_add by lia.
  set (d'' := take _ d' ++ src ++ _).
  assert (Zlen d'' = Zlen d') as Hz.
  { unfold d''. rewrite !Zlen_app, Zlen_take, Zlen_drop; lia. }
  assert ((if pos + Zlen src >? len_ r then pos + Zlen src else len_ r)
          = Z.max (len_ r) (pos + Zlen src)) as -> by (zcase; lia).
  split_and!; [|done|].
  { unfold usable, rd_wf; simpl; rewrite Hz. split_and!; [lia..|eauto|lia]. }
  unfold contents at 1; cbn [data_ len_]. rewrite <- Hpre. unfold d''.
  rewrite take_take, Nat.min_l by lia.
  rewrite take_app_ge by (rewrite length_take; unfold Zlen in *; lia).
  f_equal. rewrite take_app_ge by (rewrite length_take; unfold Zlen in *; lia).
  f_equal. rewrite length_take, skipn_firstn_comm. f_equal.
  unfold Zlen in *. lia.
Qed.

Lemma Append_spec r src :
  usable r → len_ r + Zlen src <= LEN_MAX →
  ∃ r', Append r (Some src) (Zlen src) = (true, r') ∧ usable r' ∧
    contents r' = contents r ++ src.
Proof.
  intros Hu HL. unfold Append. destruct src as [|b bs].
  { rewrite app_nil_r. eauto. }
  rewrite (proj2 (Z.eqb_neq _ _)) by (zlen; pose proof (Zlen_nonneg bs); lia).
  pose proof Hu as [Hwf [Hd _]].
  destruct (Update_spec r (b :: bs) (len_ r)) as (r' & E & Hu' & _ & Hc); auto.
  { destruct Hwf. lia. }
  exists r'. split_and!; auto. rewrite Hc.
  rewrite <- (Zlen_contents r) at 1 by done. rewrite take_Zlen_id.
  rewrite drop_ge, app_nil_r; [done|].
  rewrite <- (Zlen_contents r) by done. unfold Zlen. lia.
Qed.

End Facts.

(** ** What the buffer guarantees *)

Section Claims.
Context `{HP : Heap} `{SC : Securec}.

(** whether or not memory can be allocated, every method leaves the buffer
    consistent: the used length within the capacity, the capacity within the
    block, so [memcpy_s] always gets a true bound. *)
Theorem raw_data_stays_consistent r other data len pos same :
  rd_wf r → rd_wf other → 0 <= len → 0 <= pos →
  capacity_ r + len + EXPAND_BUF_SIZE < 2 ^ 64 →
  rd_wf (Append r data len).2 ∧ rd_wf (Update r data len pos).2 ∧ rd_wf (Reset r) ∧
  rd_wf (RawData_assign r same other) ∧ rd_wf (RawData_copy other) ∧
  rd_wf (RawData_new_from data len) ∧ rd_wf (RawData_new_len len) ∧ rd_wf RawData_new.
Proof.
  intros Hr Ho Hl Hp Hb. pose proof Ho as [Hlo _].
  assert (rd_wf RawData_new) as Hnew.
  { unfold RawData_new. destruct (new_bytes _) eqn:E; [by eapply rd_wf_alloc|apply rd_wf_init]. }
  split_and!; [by apply rd_wf_Append|by apply rd_wf_Update| | | | | |done].
  - unfold Reset. destruct (new_bytes _) eqn:E; [by eapply rd_wf_alloc|]. by destruct Hr.
  - unfold RawData_assign, GetDataLength. destruct same; [done|]. zcase; [done|].
    destruct (new_bytes _) eqn:E; [|done]. destruct (memcpy_s _ _ _ _) as [[] ?] eqn:Em; [|done].
    eapply rd_wf_copied; [done..|lia].
  - unfold RawData_copy, GetDataLength. zcase; [apply rd_wf_init|].
    destruct (new_bytes _) eqn:E; [|apply rd_wf_init].
    destruct (memcpy_s _ _ _ _) as [[] ?] eqn:Em; eapply rd_wf_copied; (done || lia).
  - unfold RawData_new_from. destruct data; [|done]. zcase; [done|].
    destruct (new_bytes _) eqn:E; [|apply rd_wf_init].
    destruct (memcpy_s _ _ _ _) as [[] ?] eqn:Em; eapply rd_wf_copied; (done || lia).
  - unfold RawData_new_len. destruct (new_bytes _) eqn:E; [by eapply rd_wf_alloc|apply rd_wf_init].
Qed.

(** While memory is available, appending any number of chunks, growing the
    block as needed, leaves the concatenation of the chunks behind what was
    there. *)
Theorem raw_data_append_all `{!HeapTotal HP} chunks r :
  usable r → len_ r + Zlen (concat chunks) <= LEN_MAX →
  let r' := foldl (λ r c, (Append r (Some c) (Zlen c)).2) r chunks in
  usable r' ∧ contents r' = contents r ++ concat chunks.
Proof.
  revert r. induction chunks as [|c chunks IH]; intros r Hu HL; [by rewrite app_nil_r|].
  cbn [foldl concat] in *. rewrite Zlen_app in HL. pose proof (Zlen_nonneg (concat chunks)).
  destruct (Append_spec r c Hu) as (r1 & E & Hu1 & Hc1); [lia|]. rewrite E. cbn [snd].
  destruct (IH r1 Hu1) as [Hu2 Hc2]; [|by rewrite Hc2, Hc1, <- app_assoc].
  rewrite <- (Zlen_contents r1), Hc1, Zlen_app, Zlen_contents; try lia;
    first [by destruct Hu | by destruct Hu as [? [? _]] | by destruct Hu1 as [? [? _]]].
Qed.

End Claims.

(** The buffer of a fresh object after three appends, the second one larger
    than the initial capacity. *)
Lemma raw_data_append_all_witness :
  contents (foldl (λ r c, (Append r (Some c) (Zlen c)).2) RawData_new
    [[1; 2]; replicate 200 7; [3]]) = [1; 2] ++ replicate 200 7 ++ [3].
Proof.
  destruct (raw_data_append_all [[1; 2]; replicate 200 7; [3]] RawData_new) as [_ ->];
    [apply usable_new|by vm_compute|by vm_compute].
Defined.

Lemma raw_data_stays_consistent_witness :
  rd_wf (Append RawData_init (Some [1]) 1).2.
Proof.
  apply (raw_data_stays_consistent RawData_init RawData_init (Some [1]) 1 0 false); by vm_compute.
Defined.
