(* ===== verification/Encoder.v ===== *)
(** * Encoder: varint encoding of event parameters

    Models base/event_raw/include/encoded/raw_data_encoder.h and
    base/event_raw/encoded/raw_data_encoder.cpp.  An encoder is a function from
    the buffer to the returned [bool] and the buffer afterwards. *)

From S2P Require Import Prelude Platform RawData.
From stdpp Require Import base list numbers.

Local Open Scope Z_scope.

(** [enum EncodeType] *)
Inductive EncodeType := VARINT | LENGTH_DELIMITED | INVALID.

Definition EncodeType_code (t : EncodeType) : Z :=
  match t with VARINT => 0 | LENGTH_DELIMITED => 1 | INVALID => 4 end.

(** [enum ValueType] *)
Inductive ValueType :=
  | UNKNOWN | BOOL | INT8 | UINT8 | INT16 | UINT16 | INT32 | UINT32 | INT64
  | UINT64 | FLOAT | DOUBLE | STRING.

Definition ValueType_code (t : ValueType) : Z :=
  match t with
  | UNKNOWN => 0 | BOOL => 1 | INT8 => 2 | UINT8 => 3 | INT16 => 4 | UINT16 => 5
  | INT32 => 6 | UINT32 => 7 | INT64 => 8 | UINT64 => 9 | FLOAT => 10
  | DOUBLE => 11 | STRING => 12
  end.

Definition TAG_BYTE_OFFSET : Z := 5.
Definition TAG_BYTE_BOUND : Z := Z.shiftl 1 TAG_BYTE_OFFSET.
Definition TAG_BYTE_MASK : Z := TAG_BYTE_BOUND - 1.
Definition NON_TAG_BYTE_OFFSET : Z := 7.
Definition NON_TAG_BYTE_BOUND : Z := Z.shiftl 1 NON_TAG_BYTE_OFFSET.
Definition NON_TAG_BYTE_MASK : Z := NON_TAG_BYTE_BOUND - 1.

(** [struct ParamValueType]: three bit fields of one byte, lowest bits first. *)
Record ParamValueType := mkParamValueType {
  isArray : Z;
  valueType : Z;
  valueByteCnt : Z
}.

Definition ParamValueType_byte (v : ParamValueType) : Z :=
  isArray v mod 2 + 2 * (valueType v mod 16) + 32 * (valueByteCnt v mod 8).

Definition ParamValueType_of_byte (b : Z) : ParamValueType :=
  mkParamValueType (b mod 2) ((b / 2) mod 16) ((b / 32) mod 8).

(** A step that appends to a buffer, and short-circuit conjunction of steps. *)
Abbreviation Writer := (RawData → bool * RawData).

Definition andthen (f g : Writer) : Writer := λ r,
  let '(ok, r') := f r in if ok then g r' else (false, r').

Notation "f >&& g" := (andthen f g) (at level 41, right associativity) : hv_scope.
Local Open Scope hv_scope.

Section Encoders.
Context `{HP : Heap} `{SC : Securec}.

Definition AppendBytes (bs : bytes) : Writer := λ r, Append r (Some bs) (Zlen bs).

Definition EncodedTag (type : Z) : Z := u8 (Z.shiftl type (TAG_BYTE_OFFSET + 1)).

(** [while (val > 0)] of [UnsignedVarintEncoded]; running out of [fuel]
    answers false, which [varint_encoded] excludes for 64-bit values. *)
Fixpoint VarintLoop (fuel : nat) (val : Z) : Writer := λ r,
  if val >? 0 then
    match fuel with
    | O => (false, r)
    | S fuel =>
        (AppendBytes
           [u8 (Z.lor (if val <? NON_TAG_BYTE_BOUND then 0 else NON_TAG_BYTE_BOUND)
                      (u8 (Z.land val NON_TAG_BYTE_MASK)))]
         >&& VarintLoop fuel (Z.shiftr val NON_TAG_BYTE_OFFSET)) r
    end
  else (true, r).

Definition VARINT_FUEL : nat := 10.

Definition UnsignedVarintEncoded (type : EncodeType) (val : Z) : Writer :=
  AppendBytes
    [u8 (Z.lor (Z.lor (EncodedTag (u8 (EncodeType_code type)))
                      (if val <? TAG_BYTE_BOUND then 0 else TAG_BYTE_BOUND))
               (u8 (Z.land val TAG_BYTE_MASK)))]
  >&& VarintLoop VARINT_FUEL (Z.shiftr val TAG_BYTE_OFFSET).

(** The zigzag step of [SignedVarintEncoded]. *)
Definition zigzag (val : Z) : Z :=
  let valInt64 := s64 val in
  let signMask := if val >=? 0 then 0 else 2 ^ 64 - 1 in
  Z.lxor (u64 (Z.shiftl (u64 valInt64) 1)) signMask.

Definition SignedVarintEncoded (type : EncodeType) (val : Z) : Writer :=
  UnsignedVarintEncoded type (zigzag val).

(** [FloatingNumberEncoded<T>]: [size] is [sizeof(T)], [val] the value's object
    representation as an integer. *)
Definition FloatingNumberEncoded (size : nat) (val : Z) : Writer :=
  UnsignedVarintEncoded LENGTH_DELIMITED (Z.of_nat size)
  >&& AppendBytes (le_bytes size val).

Definition StringValueEncoded (val : bytes) : Writer :=
  UnsignedVarintEncoded LENGTH_DELIMITED (Zlen val) >&& AppendBytes val.

Definition ValueTypeEncoded (array : bool) (type : ValueType) (count : Z) : Writer :=
  AppendBytes
    [ParamValueType_byte
       (mkParamValueType (if array then 1 else 0) (ValueType_code type) count)].

End Encoders.

(** ** The encoding as a byte string *)

Fixpoint varint_tail (fuel : nat) (v : Z) : bytes :=
  match fuel with
  | O => []
  | S fuel =>
      if v >? 0 then
        (if v <? 128 then v else 128 + v mod 128) :: varint_tail fuel (v / 128)
      else []
  end.

Definition uvarint (type : EncodeType) (v : Z) : bytes :=
  (64 * (EncodeType_code type mod 4) + (if v <? 32 then v else 32 + v mod 32))
    :: varint_tail VARINT_FUEL (v / 32).

Arguments uvarint : simpl never.

Definition zz (v : Z) : Z := if v >=? 0 then 2 * v else - 2 * v - 1.
Definition svarint (type : EncodeType) (v : Z) : bytes := uvarint type (zz v).
Definition floating (size : nat) (v : Z) : bytes :=
  uvarint LENGTH_DELIMITED (Z.of_nat size) ++ le_bytes size v.
Definition lstring (s : bytes) : bytes := uvarint LENGTH_DELIMITED (Zlen s) ++ s.
Definition value_type (array : bool) (t : ValueType) : bytes :=
  [(if array then 1 else 0) + 2 * ValueType_code t].

(** [f] appends exactly [bs], on every buffer with room for it. *)
Definition appends (f : Writer) (bs : bytes) : Prop :=
  ∀ r, usable r → len_ r + Zlen bs <= LEN_MAX →
    ∃ r', f r = (true, r') ∧ usable r' ∧ contents r' = contents r ++ bs.

(** ** Arithmetic of the encoding *)

Section Arithmetic.

Lemma tag_byte type x :
  0 <= x < 64 →
  u8 (Z.lor (EncodedTag (u8 (EncodeType_code type))) x) = 64 * (EncodeType_code type mod 4) + x.
Proof.
  intros Hx.
  assert (EncodedTag (u8 (EncodeType_code type)) = (EncodeType_code type mod 4) * 2 ^ 6) as ->
    by (by destruct type).
  rewrite lor_low by lia.
  assert (0 <= EncodeType_code type mod 4 < 4) by (by apply Z.mod_pos_bound).
  rewrite u8_small by (split; lia). lia.
Qed.

Lemma low_bits v k : 0 <= k <= 8 → u8 (Z.land v (Z.ones k)) = v mod 2 ^ k.
Proof.
  intros Hk. rewrite Z.land_ones by lia. apply u8_small.
  pose proof (Z.mod_pos_bound v (2 ^ k)) as Hb.
  pose proof (Z.pow_le_mono_r 2 k 8). split; lia.
Qed.

Lemma first_byte type v :
  0 <= v →
  u8 (Z.lor (Z.lor (EncodedTag (u8 (EncodeType_code type)))
                   (if v <? TAG_BYTE_BOUND then 0 else TAG_BYTE_BOUND))
            (u8 (Z.land v TAG_BYTE_MASK)))
  = 64 * (EncodeType_code type mod 4) + (if v <? 32 then v else 32 + v mod 32).
Proof.
  intros Hv. change TAG_BYTE_MASK with (Z.ones 5). change TAG_BYTE_BOUND with 32.
  rewrite low_bits, <- Z.lor_assoc by lia. change (2 ^ 5) with 32.
  pose proof (Z.mod_pos_bound v 32). zcase.
  - rewrite (Z.mod_small v) by lia. rewrite Z.lor_0_l. apply tag_byte. lia.
  - pose proof (lor_low 5 1 (v mod 32)) as E. change (1 * 2 ^ 5) with 32 in E.
    rewrite E by lia. apply tag_byte. lia.
Qed.

Lemma next_byte v :
  0 <= v →
  u8 (Z.lor (if v <? NON_TAG_BYTE_BOUND then 0 else NON_TAG_BYTE_BOUND)
            (u8 (Z.land v NON_TAG_BYTE_MASK)))
  = (if v <? 128 then v else 128 + v mod 128).
Proof.
  intros Hv. change NON_TAG_BYTE_MASK with (Z.ones 7). change NON_TAG_BYTE_BOUND with 128.
  rewrite low_bits by lia. change (2 ^ 7) with 128.
  pose proof (Z.mod_pos_bound v 128). zcase.
  - rewrite (Z.mod_small v), Z.lor_0_l by lia. apply u8_small. split; lia.
  - pose proof (lor_low 7 1 (v mod 128)) as E. change (1 * 2 ^ 7) with 128 in E.
    rewrite E by lia. apply u8_small. split; lia.
Qed.

Lemma zigzag_zz v : is_s 64 v → zigzag v = zz v.
Proof.
  intros Hv. unfold zigzag, zz, s64. rewrite sgn_small by (done || lia).
  rewrite Z.shiftl_mul_pow2 by lia. change (2 ^ 1) with 2.
  unfold is_s in Hv. change (2 ^ (64 - 1)) with (2 ^ 63) in Hv.
  rewrite Z.geb_leb. destruct (Z.leb_spec 0 v) as [Hp|Hn].
  - rewrite Z.lxor_0_r, (u64_small v), (u64_small (v * 2)) by (split; lia). lia.
  - unfold u64 at 2. replace (v mod 2 ^ 64) with (v + 2 ^ 64)
      by (rewrite <- (Z.mod_add v 1 (2 ^ 64)) by lia; rewrite Z.mod_small; lia).
    unfold u64. replace ((v + 2 ^ 64) * 2) with (2 * v + 2 ^ 64 + 1 * 2 ^ 64) by lia.
    rewrite Z.mod_add, Z.mod_small by lia.
    change (2 ^ 64 - 1) with (Z.ones 64). rewrite lxor_ones by lia. lia.
Qed.

Lemma zz_bound v : is_s 64 v → is_u 64 (zz v).
Proof.
  unfold is_s, is_u, zz. change (2 ^ (64 - 1)) with (2 ^ 63). intros. zcase; lia.
Qed.

Lemma EncodeType_code_mod t : 0 <= EncodeType_code t mod 4 <= 1.
Proof. by destruct t. Qed.

Lemma varint_tail_ok n v : 0 <= v → bytes_ok (varint_tail n v).
Proof.
  revert v. induction n as [|n IH]; intros v Hv; simpl; [constructor|].
  rewrite Z.gtb_ltb. destruct (Z.ltb_spec 0 v); [|constructor]. constructor.
  - pose proof (Z.mod_pos_bound v 128). unfold is_byte, is_u. change (2 ^ 8) with 256.
    zcase; lia.
  - apply IH. apply Z.div_pos; lia.
Qed.

Lemma uvarint_ok t v : 0 <= v → bytes_ok (uvarint t v).
Proof.
  intros Hv. constructor.
  - pose proof (Z.mod_pos_bound v 32). pose proof (EncodeType_code_mod t).
    unfold is_byte, is_u. change (2 ^ 8) with 256. zcase; lia.
  - apply varint_tail_ok, Z.div_pos; lia.
Qed.

(** Ten further bytes are enough for 64 bits. *)
Lemma varint_tail_len n v : Zlen (varint_tail n v) <= Z.of_nat n.
Proof.
  revert v. induction n as [|n IH]; intros v; simpl varint_tail; [done|].
  rewrite Z.gtb_ltb. destruct (Z.ltb_spec 0 v); [|unfold Zlen; simpl; lia].
  rewrite Zlen_cons. specialize (IH (v / 128)). lia.
Qed.

Lemma uvarint_len t v : 1 <= Zlen (uvarint t v) <= 11.
Proof.
  unfold uvarint. rewrite Zlen_cons. pose proof (varint_tail_len VARINT_FUEL (v / 32)).
  pose proof (Zlen_nonneg (varint_tail VARINT_FUEL (v / 32))).
  change (Z.of_nat VARINT_FUEL) with 10 in *. lia.
Qed.

End Arithmetic.

#[export] Hint Resolve uvarint_ok zz_bound : hv.

(** ** The encoders append their encoding *)

Section Spec.
Context `{HP : Heap} `{SC : Securec} `{!HeapTotal HP}.

Lemma appends_nil : appends (λ r, (true, r)) [].
Proof. intros r Hr _. exists r. by rewrite app_nil_r. Qed.

Lemma appends_bytes bs : appends (AppendBytes bs) bs.
Proof. intros r Hr HL. by apply Append_spec. Qed.

Lemma appends_then f g b1 b2 :
  appends f b1 → appends g b2 → appends (f >&& g) (b1 ++ b2).
Proof.
  intros Hf Hg r Hr HL. rewrite Zlen_app in HL. pose proof (Zlen_nonneg b2).
  destruct (Hf r) as (r1 & E1 & Hr1 & Hc1); [done|lia|].
  pose proof Hr as [Hw [Hd _]]. pose proof Hr1 as [Hw1 [Hd1 _]].
  destruct (Hg r1) as (r2 & E2 & Hr2 & Hc2); [done| |].
  { rewrite <- (Zlen_contents r1), Hc1, Zlen_app, Zlen_contents by done. lia. }
  exists r2. unfold andthen. rewrite E1, E2. split_and!; auto.
  by rewrite Hc2, Hc1, app_assoc.
Qed.

Lemma appends_loop n v :
  0 <= v < 2 ^ (7 * Z.of_nat n) → appends (VarintLoop n v) (varint_tail n v).
Proof.
  revert v. induction n as [|n IH]; intros v Hv.
  { replace v with 0 by (simpl in Hv; lia). apply appends_nil. }
  intros r. cbn [VarintLoop varint_tail]. rewrite Z.gtb_ltb.
  destruct (Z.ltb_spec 0 v); [|apply appends_nil].
  rewrite next_byte, Z.shiftr_div_pow2 by (done || lia).
  change (2 ^ NON_TAG_BYTE_OFFSET) with 128.
  refine (appends_then _ _ [_] _ (appends_bytes _) (IH _ _) r). split; [apply Z.div_pos; lia|].
  apply Z.div_lt_upper_bound; [lia|]. change 128 with (2 ^ 7). rewrite <- Z.pow_add_r by lia.
  replace (7 + 7 * Z.of_nat n) with (7 * Z.of_nat (S n)) by lia. lia.
Qed.

Lemma appends_uvarint t v : is_u 64 v → appends (UnsignedVarintEncoded t v) (uvarint t v).
Proof.
  intros [Hv0 Hv]. unfold UnsignedVarintEncoded, uvarint.
  rewrite first_byte, Z.shiftr_div_pow2 by (done || lia).
  change (2 ^ TAG_BYTE_OFFSET) with 32.
  refine (appends_then _ _ [_] _ (appends_bytes _) (appends_loop _ _ _)). split; [apply Z.div_pos; lia|].
  apply Z.div_lt_upper_bound; [lia|]. etrans; [exact Hv|]. by vm_compute.
Qed.

Lemma appends_svarint t v : is_s 64 v → appends (SignedVarintEncoded t v) (svarint t v).
Proof.
  intros Hv. unfold SignedVarintEncoded, svarint. rewrite zigzag_zz by done.
  by apply appends_uvarint, zz_bound.
Qed.

Lemma appends_floating n v : Z.of_nat n < 2 ^ 64 → appends (FloatingNumberEncoded n v) (floating n v).
Proof.
  intros Hn. apply appends_then; [|apply appends_bytes]. apply appends_uvarint. split; lia.
Qed.

Lemma appends_lstring s : appends (StringValueEncoded s) (lstring s).
Proof.
  intros r Hr HL. revert r Hr HL. destruct (decide (Zlen s < 2 ^ 64)) as [Hs|Hs].
  - apply appends_then; [|apply appends_bytes]. apply appends_uvarint.
    split; [apply Zlen_nonneg|done].
  - intros r [[Hl _] _] HL. unfold lstring in HL. rewrite Zlen_app in HL.
    pose proof (Zlen_nonneg (uvarint LENGTH_DELIMITED (Zlen s))). unfold LEN_MAX in HL. lia.
Qed.

Lemma appends_value_type b t : appends (ValueTypeEncoded b t 0) (value_type b t).
Proof.
  unfold ValueTypeEncoded, value_type.
  replace (ParamValueType_byte _) with ((if b then 1 else 0) + 2 * ValueType_code t)
    by (by destruct b, t).
  apply appends_bytes.
Qed.

End Spec.

#[export] Hint Resolve appends_nil appends_bytes appends_then appends_uvarint
  appends_svarint appends_lstring appends_value_type : hv.
