(* ===== verification/Decoder.v ===== *)
(** * Decoder: reading event parameters back

    Models base/event_raw/decoded/raw_data_decoder.cpp.  A decoder gets the
    block (or a null pointer), the limit [maxLen] and the position, and returns
    the new position with the value, or the position it failed at.  What C++
    leaves undefined is a result of its own: a shift by 64 or more bits, or a
    read outside the block. *)

From S2P Require Import Prelude Platform Encoder.
From stdpp Require Import base list numbers.

Local Open Scope Z_scope.

Inductive undefined := UB_Shift | UB_OutOfBounds | UB_DivByZero | UB_Conversion | UB_Overflow.

Inductive decoded (A : Type) :=
  | DOk (pos : Z) (dest : A)
  | DFail (pos : Z)
  | DUndef (u : undefined).
Arguments DOk {A} _ _.
Arguments DFail {A} _.
Arguments DUndef {A} _.

Definition dbind {A B} (m : decoded A) (k : Z → A → decoded B) : decoded B :=
  match m with
  | DOk pos a => k pos a
  | DFail pos => DFail pos
  | DUndef u => DUndef u
  end.

Notation "'let!' ( p , a ) := m 'in' k" := (dbind m (λ p a, k))
  (at level 10, p name, a name, m at level 100, k at level 200) : hv_scope.
Local Open Scope hv_scope.

(** Exact widening of a binary32 to a binary64, both as bit patterns. *)
Definition float_to_double (b : Z) : Z :=
  let s := Z.shiftr b 31 in
  let e := Z.land (Z.shiftr b 23) 255 in
  let m := Z.land b (Z.ones 23) in
  let sign := Z.shiftl s 63 in
  if e =? 255 then
    Z.lor sign (Z.lor (Z.shiftl 2047 52)
      (if m =? 0 then 0 else Z.lor (Z.shiftl 1 51) (Z.shiftl m 29)))
  else if e =? 0 then
    if m =? 0 then sign
    else let k := Z.log2 m in
         Z.lor sign (Z.lor (Z.shiftl (k + 874) 52)
           (Z.land (Z.shiftl m (52 - k)) (Z.ones 52)))
  else Z.lor sign (Z.lor (Z.shiftl (e + 896) 52) (Z.shiftl m 29)).

(** The [do .. while] loop; [rest] is the block from [pos] on. *)
Fixpoint VarintDecLoop (rest : bytes) (maxLen pos val offset : Z) : decoded Z :=
  if pos >=? maxLen then DFail pos else
  match rest with
  | [] => DUndef UB_OutOfBounds
  | b :: rest =>
      if offset >=? 64 then DUndef UB_Shift else
      let val := Z.lor val (u64 (Z.shiftl (Z.land b NON_TAG_BYTE_MASK) offset)) in
      let offset := u32 (offset + NON_TAG_BYTE_OFFSET) in
      if Z.land b NON_TAG_BYTE_BOUND =? 0 then DOk (u64 (pos + 1)) val
      else VarintDecLoop rest maxLen (u64 (pos + 1)) val offset
  end.

Definition UnsignedVarintDecoded (rawData : option bytes) (maxLen pos : Z) : decoded Z :=
  match rawData with
  | None => DFail pos
  | Some d =>
      if pos >=? maxLen then DFail pos else
      match drop (Z.to_nat pos) d with
      | [] => DUndef UB_OutOfBounds
      | b :: rest =>
          let val := Z.land b TAG_BYTE_MASK in
          let offset := TAG_BYTE_OFFSET in
          if u64 (pos + 1) >? maxLen then DFail pos else
          if Z.land b TAG_BYTE_BOUND =? 0 then DOk (u64 (pos + 1)) val
          else VarintDecLoop rest maxLen (u64 (pos + 1)) val offset
      end
  end.

(** [(uval >> 1) ^ -static_cast<int64_t>(uval & 1)] *)
Definition unzigzag (uval : Z) : Z :=
  s64 (Z.lxor (Z.shiftr uval 1) (u64 (- s64 (Z.land uval 1)))).

Definition SignedVarintDecoded (rawData : option bytes) (maxLen pos : Z) : decoded Z :=
  match rawData with
  | None => DFail pos
  | Some _ =>
      if pos >=? maxLen then DFail pos else
      let! (pos, uval) := UnsignedVarintDecoded rawData maxLen pos in
      DOk pos (unzigzag uval)
  end.

(** [dest] is the string passed by reference: left as it is for an empty value. *)
Definition StringValueDecoded (rawData : option bytes) (maxLen pos : Z) (dest : bytes)
    : decoded bytes :=
  match rawData with
  | None => DFail pos
  | Some d =>
      if pos >=? maxLen then DFail pos else
      let! (pos, valByteCnt) := UnsignedVarintDecoded rawData maxLen pos in
      if (valByteCnt >? maxLen) || (u64 (pos + valByteCnt) >? maxLen) then DFail pos else
      if valByteCnt =? 0 then DOk pos dest else
      if Zlen (drop (Z.to_nat pos) d) <? valByteCnt then DUndef UB_OutOfBounds else
      DOk (u64 (pos + valByteCnt)) (take (Z.to_nat valByteCnt) (drop (Z.to_nat pos) d))
  end.

Section Floating.
Context `{SC : Securec}.

(** [memcpy_s(&tmp, n, rawData + pos, n)] into an [n]-byte local. *)
Definition CopyOut (d : bytes) (pos n : Z) (conv : Z → Z) : decoded Z :=
  if Zlen (drop (Z.to_nat pos) d) <? n then DUndef UB_OutOfBounds else
  let '(ok, tmp) := memcpy_s (replicate (Z.to_nat n) 0) n (Some (drop (Z.to_nat pos) d)) n in
  if ok then DOk (u64 (pos + n)) (conv (le_value tmp)) else DFail pos.

Definition FloatingNumberDecoded (rawData : option bytes) (maxLen pos : Z) : decoded Z :=
  match rawData with
  | None => DFail pos
  | Some d =>
      if pos >=? maxLen then DFail pos else
      let! (pos, valByteCnt) := UnsignedVarintDecoded rawData maxLen pos in
      if u64 (pos + valByteCnt) >? maxLen then DFail pos else
      if valByteCnt =? 4 then CopyOut d pos 4 float_to_double
      else if valByteCnt =? 8 then CopyOut d pos 8 (λ tmpd, tmpd)
      else DFail pos
  end.

End Floating.

Definition ValueTypeDecoded (rawData : option bytes) (maxLen pos : Z)
    : decoded ParamValueType :=
  match rawData with
  | None => DFail pos
  | Some d =>
      if pos >=? maxLen then DFail pos else
      if u64 (pos + 1) >? maxLen then DFail pos else
      match drop (Z.to_nat pos) d with
      | [] => DUndef UB_OutOfBounds
      | b :: _ => DOk (u64 (pos + 1)) (ParamValueType_of_byte b)
      end
  end.

(** ** Reading what the encoders wrote *)

Abbreviation Reader A := (option bytes → Z → Z → decoded A).

(** [dec] reads [a] off [bs] wherever [bs] lies below the limit. *)
Definition reads {A} (dec : Reader A) (bs : bytes) (a : A) : Prop :=
  ∀ pre post maxLen, Zlen pre + Zlen bs <= maxLen < 2 ^ 63 →
    dec (Some (pre ++ bs ++ post)) maxLen (Zlen pre) = DOk (Zlen pre + Zlen bs) a.

Section Reading.

Lemma reads_bind {A B} (f : Reader A) (g : A → Reader B) b1 b2 a c :
  reads f b1 a → reads (g a) b2 c →
  reads (λ d m p, let! (p, a) := f d m p in g a d m p) (b1 ++ b2) c.
Proof.
  intros Hf Hg pre post m Hm. rewrite Zlen_app in Hm. pose proof (Zlen_nonneg b2).
  rewrite <- app_assoc, Hf by lia. simpl. rewrite (app_assoc pre b1).
  rewrite <- Zlen_app, Hg by (rewrite Zlen_app; lia). by rewrite !Zlen_app, Z.add_assoc.
Qed.

Lemma reads_ret {A} (a : A) : reads (λ _ _ p, DOk p a) [] a.
Proof. intros pre post m _. f_equal. zlen. Qed.

(** The continuation flag of the two byte forms. *)
Lemma flag128 x :
  0 <= x < 128 → (Z.land x 128 =? 0) && negb (Z.land (128 + x) 128 =? 0) = true.
Proof. revert x. apply forall_small. by vm_compute. Qed.

Lemma flag32 t x :
  0 <= t <= 1 → 0 <= x < 32 →
  (Z.land (64 * t + x) 32 =? 0) && negb (Z.land (64 * t + (32 + x)) 32 =? 0) = true.
Proof.
  intros Ht. assert (t = 0 ∨ t = 1) as [-> | ->] by lia; revert x;
    apply forall_small; by vm_compute.
Qed.

Lemma varint_loop_reads n v :
  0 < v < 2 ^ (7 * Z.of_nat n) →
  ∀ post maxLen pos acc off,
    0 <= pos → pos + Zlen (varint_tail n v) <= maxLen < 2 ^ 63 →
    0 <= off < 2 ^ 31 → 0 <= acc < 2 ^ off → acc + v * 2 ^ off < 2 ^ 64 →
    VarintDecLoop (varint_tail n v ++ post) maxLen pos acc off =
      DOk (pos + Zlen (varint_tail n v)) (acc + v * 2 ^ off).
Proof.
  revert v. induction n as [|n IH]; intros v Hv post maxLen pos acc off Hp Hm Hoff Hacc Hsum.
  { simpl in Hv. lia. }
  assert (off < 64) as H64 by (apply (Z.pow_lt_mono_r_iff 2); nia).
  cbn [varint_tail] in *. rewrite Z.gtb_ltb in *. destruct (Z.ltb_spec 0 v); [|lia].
  rewrite Zlen_cons in *. pose proof (Zlen_nonneg (varint_tail n (v / 128))).
  cbn [app VarintDecLoop]. rewrite !Z.geb_leb.
  destruct (Z.leb_spec maxLen pos); [lia|]. destruct (Z.leb_spec 64 off); [lia|].
  change NON_TAG_BYTE_MASK with (Z.ones 7). change NON_TAG_BYTE_BOUND with 128.
  rewrite Z.land_ones, Z.shiftl_mul_pow2 by lia. change (2 ^ 7) with 128.
  rewrite (u64_small (pos + 1)) by (split; lia).
  pose proof (Z.mod_pos_bound v 128). pose proof (Z.div_mod v 128).
  destruct (Z.ltb_spec v 128) as [Hlt|Hge].
  - pose proof (flag128 v) as F. apply andb_true_iff in F as [-> _]; [|lia].
    rewrite (Z.mod_small v 128) by lia. rewrite u64_small by (split; nia).
    rewrite lor_high by lia. rewrite Z.div_small by lia.
    replace (varint_tail n 0) with (@nil Z) by (by destruct n).
    f_equal; zlen.
  - pose proof (flag128 (v mod 128)) as F. apply andb_true_iff in F as [_ F]; [|lia].
    rewrite (negb_true_iff _) in F. rewrite F.
    replace (128 + v mod 128) with (v mod 128 + 1 * 128) by lia.
    rewrite Z.mod_add, Z.mod_mod by lia.
    rewrite (u64_small (_ * _)) by (split; nia). rewrite lor_high by lia.
    unfold u32, NON_TAG_BYTE_OFFSET. rewrite (Z.mod_small (off + 7)) by lia.
    assert (2 ^ (off + 7) = 128 * 2 ^ off) as Hpow
      by (rewrite Z.pow_add_r by lia; change (2 ^ 7) with 128; lia).
    rewrite IH; try lia; try nia.
    + f_equal; [lia|]. rewrite Hpow. nia.
    + split; [apply Z.div_str_pos; lia|]. apply Z.div_lt_upper_bound; [lia|].
      change 128 with (2 ^ 7) at 1. rewrite <- Z.pow_add_r by lia.
      replace (7 + 7 * Z.of_nat n) with (7 * Z.of_nat (S n)) by lia. lia.
Qed.

Lemma reads_uvarint t v : is_u 64 v → reads UnsignedVarintDecoded (uvarint t v) v.
Proof.
  intros [Hv0 Hv] pre post m Hm. unfold UnsignedVarintDecoded, uvarint in *.
  rewrite Zlen_cons in *. pose proof (Zlen_nonneg (varint_tail VARINT_FUEL (v / 32))).
  pose proof (Zlen_nonneg pre). rewrite Z.geb_leb, Z.gtb_ltb.
  destruct (Z.leb_spec m (Zlen pre)); [lia|]. rewrite drop_Zlen. cbn [app].
  rewrite (u64_small (Zlen pre + 1)) by (split; lia).
  destruct (Z.ltb_spec m (Zlen pre + 1)); [lia|].
  change TAG_BYTE_MASK with (Z.ones 5). change TAG_BYTE_BOUND with 32.
  rewrite Z.land_ones by lia. change (2 ^ 5) with 32.
  pose proof (EncodeType_code_mod t) as Ht. set (c := EncodeType_code t mod 4) in *.
  pose proof (Z.mod_pos_bound v 32). pose proof (Z.div_mod v 32).
  destruct (Z.ltb_spec v 32) as [Hlt|Hge].
  - pose proof (flag32 c v) as F. apply andb_true_iff in F as [-> _]; [|lia..].
    rewrite Z.div_small by lia. replace (varint_tail VARINT_FUEL 0) with (@nil Z) by done.
    replace (64 * c + v) with (v + (2 * c) * 32) by lia.
    rewrite Z.mod_add, Z.mod_small by lia. f_equal; zlen.
  - pose proof (flag32 c (v mod 32)) as F. apply andb_true_iff in F as [_ F]; [|lia..].
    rewrite (negb_true_iff _) in F. rewrite F.
    replace (64 * c + (32 + v mod 32)) with (v mod 32 + (2 * c + 1) * 32) by lia.
    rewrite Z.mod_add, Z.mod_mod by lia. unfold TAG_BYTE_OFFSET.
    rewrite varint_loop_reads; try lia.
    + f_equal; lia.
    + split; [apply Z.div_str_pos; lia|]. apply Z.div_lt_upper_bound; [lia|].
      change (Z.of_nat VARINT_FUEL) with 10. lia.
Qed.

End Reading.

Section ReadingMore.

Lemma unzigzag_zz v : is_s 64 v → unzigzag (zz v) = v.
Proof.
  intros Hv. pose proof Hv as [Hlo Hhi]. change (2 ^ (64 - 1)) with (2 ^ 63) in *.
  assert (∀ x, Z.land x 1 = x mod 2) as Hland by (intros x; by apply (Z.land_ones x 1)).
  unfold unzigzag, zz. rewrite Hland.
  rewrite Z.shiftr_div_pow2 by lia. change (2 ^ 1) with 2.
  rewrite Z.geb_leb. destruct (Z.leb_spec 0 v).
  - replace (2 * v) with (0 + v * 2) by lia. rewrite Z.mod_add, Z.div_add by lia.
    change (0 / 2 + v) with (0 + v). rewrite Z.add_0_l. change (u64 (- s64 (0 mod 2))) with 0.
    rewrite Z.lxor_0_r. apply sgn_small; [lia|done].
  - replace (- 2 * v - 1) with (1 + (- v - 1) * 2) by lia. rewrite Z.mod_add, Z.div_add by lia.
    change (1 / 2 + (- v - 1)) with (0 + (- v - 1)). rewrite Z.add_0_l.
    change (u64 (- s64 (1 mod 2))) with (Z.ones 64). rewrite lxor_ones by lia.
    unfold s64. rewrite <- sgn_mod by lia.
    replace (2 ^ 64 - 1 - (- v - 1)) with (v + 1 * 2 ^ 64) by lia.
    rewrite Z.mod_add, sgn_mod by lia. apply sgn_small; [lia|done].
Qed.

Lemma reads_svarint t v : is_s 64 v → reads SignedVarintDecoded (svarint t v) v.
Proof.
  intros Hv pre post m Hm. unfold SignedVarintDecoded.
  pose proof (uvarint_len t (zz v)). unfold svarint in *.
  rewrite Z.geb_leb. destruct (Z.leb_spec m (Zlen pre)); [lia|].
  rewrite reads_uvarint by auto using zz_bound. simpl. by rewrite unzigzag_zz.
Qed.

Lemma reads_lstring s : reads (λ d m p, StringValueDecoded d m p []) (lstring s) s.
Proof.
  intros pre post m Hm. unfold StringValueDecoded, lstring in *.
  pose proof (uvarint_len LENGTH_DELIMITED (Zlen s)). pose proof (Zlen_nonneg s).
  pose proof (Zlen_nonneg pre). rewrite Zlen_app in *.
  rewrite Z.geb_leb. destruct (Z.leb_spec m (Zlen pre)); [lia|].
  rewrite <- app_assoc, reads_uvarint by (split; lia). cbn [dbind].
  set (u := uvarint _ _) in *. rewrite u64_small, !Z.gtb_ltb by (split; lia).
  destruct (Z.ltb_spec m (Zlen s)); [lia|].
  destruct (Z.ltb_spec m (Zlen pre + Zlen u + Zlen s)); [lia|]. cbn [orb].
  destruct (Z.eqb_spec (Zlen s) 0) as [E|E].
  { destruct s; [f_equal; zlen|]. rewrite Zlen_cons in E. pose proof (Zlen_nonneg s). lia. }
  rewrite (app_assoc pre), <- Zlen_app, drop_Zlen.
  destruct (Z.ltb_spec (Zlen (s ++ post)) (Zlen s)) as [Hbad|_].
  { rewrite Zlen_app in Hbad. pose proof (Zlen_nonneg post). lia. }
  rewrite take_Zlen, Zlen_app. f_equal. lia.
Qed.

Lemma reads_value_type b t :
  reads ValueTypeDecoded (value_type b t)
    (mkParamValueType (if b then 1 else 0) (ValueType_code t) 0).
Proof.
  intros pre post m Hm. unfold ValueTypeDecoded, value_type in *. zlen.
  pose proof (Zlen_nonneg pre). rewrite Z.geb_leb, Z.gtb_ltb, u64_small by (split; lia).
  destruct (Z.leb_spec m (Zlen pre)); [lia|].
  destruct (Z.ltb_spec m (Zlen pre + 1)); [lia|].
  rewrite drop_Zlen. cbn [app]. f_equal; solve [lia | by destruct b, t].
Qed.

Context `{SC : Securec}.

Lemma reads_double v : is_u 64 v → reads FloatingNumberDecoded (floating 8 v) v.
Proof.
  intros Hv pre post m Hm. unfold FloatingNumberDecoded, floating in *.
  pose proof (uvarint_len LENGTH_DELIMITED (Z.of_nat 8)). pose proof (Zlen_nonneg pre).
  rewrite Zlen_app, Zlen_le_bytes in Hm. change (Z.of_nat 8) with 8 in *.
  rewrite Z.geb_leb. destruct (Z.leb_spec m (Zlen pre)); [lia|].
  rewrite <- app_assoc, reads_uvarint by (done || lia). cbn [dbind].
  set (u := uvarint _ _) in *. rewrite u64_small, !Z.gtb_ltb by (split; lia).
  destruct (Z.ltb_spec m (Zlen pre + Zlen u + 8)); [lia|].
  destruct (Z.eqb_spec 8 4); [done|]. destruct (Z.eqb_spec 8 8); [|done]. unfold CopyOut.
  rewrite (app_assoc pre), <- Zlen_app, drop_Zlen.
  destruct (Z.ltb_spec (Zlen (le_bytes 8 v ++ post)) 8) as [Hbad|_].
  { rewrite Zlen_app, Zlen_le_bytes in Hbad. pose proof (Zlen_nonneg post). lia. }
  rewrite memcpy_s_copies; try done; try lia.
  2: { rewrite Zlen_app, Zlen_le_bytes. pose proof (Zlen_nonneg post). lia. }
  rewrite u64_small by (rewrite Zlen_app; split; lia).
  rewrite take_app_le by (rewrite length_le_bytes; lia).
  rewrite take_ge by (rewrite length_le_bytes; lia).
  rewrite drop_ge by (rewrite length_replicate; lia).
  rewrite app_nil_r, le_value_bytes_small by done.
  rewrite !Zlen_app, Zlen_le_bytes. f_equal. lia.
Qed.

End ReadingMore.

#[export] Hint Resolve reads_uvarint reads_svarint reads_lstring reads_value_type
  reads_double reads_ret : hv.

(** ** Memory safety *)

(** The position stays between where it was and the limit, and no byte outside
    the block is read. *)
Definition in_bounds {A} (pos maxLen : Z) (r : decoded A) : Prop :=
  match r with
  | DOk p _ | DFail p => pos <= p <= maxLen
  | DUndef UB_Shift => True
  | DUndef _ => False
  end.

Section Safety.

Lemma in_bounds_bind {A B} (m : decoded A) (k : Z → A → decoded B) pos maxLen :
  in_bounds pos maxLen m →
  (∀ p a, m = DOk p a → pos <= p <= maxLen → in_bounds pos maxLen (k p a)) →
  in_bounds pos maxLen (dbind m k).
Proof. destruct m; simpl; auto. Qed.

Lemma in_bounds_weaken {A} (m : decoded A) pos pos' maxLen :
  pos' <= pos → in_bounds pos maxLen m → in_bounds pos' maxLen m.
Proof. destruct m as [| |[]]; simpl; lia || auto. Qed.

Lemma drop_cons_bound {A} (d : list A) pos :
  0 <= pos < Zlen d → ∃ b, drop (Z.to_nat pos) d = b :: drop (Z.to_nat (pos + 1)) d.
Proof.
  intros Hp. destruct (lookup_lt_is_Some_2 d (Z.to_nat pos)) as [b Hb]; [unfold Zlen in *; lia|].
  exists b. rewrite (drop_S _ _ _ Hb). do 2 f_equal. lia.
Qed.

Lemma VarintDecLoop_safe d maxLen pos val off :
  0 <= pos <= maxLen → maxLen <= Zlen d → maxLen < 2 ^ 63 →
  in_bounds pos maxLen (VarintDecLoop (drop (Z.to_nat pos) d) maxLen pos val off).
Proof.
  intros Hp Hd Hm. remember (Z.to_nat (maxLen - pos)) as n eqn:Hn.
  revert pos val off Hp Hn. induction n as [|n IH]; intros pos val off Hp Hn.
  { replace pos with maxLen by lia. destruct (drop _ d); simpl; rewrite Z.geb_leb, Z.leb_refl;
      simpl; lia. }
  destruct (drop_cons_bound d pos) as [b ->]; [lia|]. simpl. rewrite !Z.geb_leb.
  destruct (Z.leb_spec maxLen pos); [simpl; lia|].
  destruct (Z.leb_spec 64 off); [done|]. rewrite (u64_small (pos + 1)) by (split; lia).
  zcase; [simpl; lia|]. apply (in_bounds_weaken _ (pos + 1)); [lia|]. apply IH; lia.
Qed.

Lemma UnsignedVarintDecoded_safe d maxLen pos :
  0 <= pos <= maxLen → maxLen <= Zlen d → maxLen < 2 ^ 63 →
  in_bounds pos maxLen (UnsignedVarintDecoded (Some d) maxLen pos).
Proof.
  intros Hp Hd Hm. unfold UnsignedVarintDecoded. rewrite Z.geb_leb, Z.gtb_ltb.
  destruct (Z.leb_spec maxLen pos); [simpl; lia|].
  destruct (drop_cons_bound d pos) as [b ->]; [lia|].
  rewrite (u64_small (pos + 1)) by (split; lia).
  destruct (Z.ltb_spec maxLen (pos + 1)); [simpl; lia|]. zcase; [simpl; lia|].
  apply (in_bounds_weaken _ (pos + 1)); [lia|]. apply VarintDecLoop_safe; lia.
Qed.

End Safety.
