(* ===== verification/Params.v ===== *)
(** * Params: encoded and decoded event parameters

    Models base/event_raw/include/base/value_param.h,
    base/event_raw/include/encoded/encoded_param.h with
    base/event_raw/encoded/encoded_param.cpp, and
    base/event_raw/decoded/decoded_param.cpp.  The class hierarchies are one
    inductive type of values; the template argument of an integer parameter only
    bounds its value, that of a floating one is [FloatTy].  A floating value is
    its IEEE bit pattern. *)

From S2P Require Import Prelude Platform RawData Encoder Decoder.
From stdpp Require Import base list numbers.

Local Open Scope Z_scope.
Local Open Scope hv_scope.

Definition MAX_ARRAY_SIZE : Z := 100.

(** [enum DataCodedType] *)
Inductive DataCodedType :=
  | UNSIGNED_VARINT | UNSIGNED_VARINT_ARRAY | SIGNED_VARINT | SIGNED_VARINT_ARRAY
  | FLOATING | FLOATING_ARRAY | DSTRING | DSTRING_ARRAY.

#[global] Instance DataCodedType_eq_dec : EqDecision DataCodedType.
Proof. solve_decision. Defined.

Inductive FloatTy := TFloat | TDouble.

#[global] Instance FloatTy_eq_dec : EqDecision FloatTy.
Proof. solve_decision. Defined.

Definition FloatTy_size (T : FloatTy) : nat := match T with TFloat => 4 | TDouble => 8 end.
Definition FloatTy_value (T : FloatTy) : ValueType :=
  match T with TFloat => FLOAT | TDouble => DOUBLE end.

Inductive PValue :=
  | PUnsigned (val_ : Z)
  | PUnsignedArray (vals_ : list Z)
  | PSigned (val_ : Z)
  | PSignedArray (vals_ : list Z)
  | PFloating (T : FloatTy) (val_ : Z)
  | PFloatingArray (T : FloatTy) (vals_ : list Z)
  | PString (val_ : bytes)
  | PStringArray (vals_ : list bytes).

#[global] Instance PValue_eq_dec : EqDecision PValue.
Proof. solve_decision. Defined.

Definition GetDataCodedType (v : PValue) : DataCodedType :=
  match v with
  | PUnsigned _ => UNSIGNED_VARINT
  | PUnsignedArray _ => UNSIGNED_VARINT_ARRAY
  | PSigned _ => SIGNED_VARINT
  | PSignedArray _ => SIGNED_VARINT_ARRAY
  | PFloating _ _ => FLOATING
  | PFloatingArray _ _ => FLOATING_ARRAY
  | PString _ => DSTRING
  | PStringArray _ => DSTRING_ARRAY
  end.

(** The copy loop of the array constructors. *)
Fixpoint CopyLimited {A} (index : Z) (vals : list A) : list A :=
  match vals with
  | [] => []
  | item :: vals =>
      let index := u32 (index + 1) in
      if index >? MAX_ARRAY_SIZE then [] else item :: CopyLimited index vals
  end.

Record EncodedParam := mkEncodedParam {
  key_ : bytes;
  pval_ : PValue;
  rawData_ : RawData;
  hasEncoded_ : bool
}.

Section Encoded.
Context `{HP : Heap} `{SC : Securec}.

Definition EncodedParam_new (key : bytes) (v : PValue) : EncodedParam :=
  mkEncodedParam key v RawData_new false.

Definition UnsignedVarintEncodedParam (key : bytes) (val : Z) := EncodedParam_new key (PUnsigned val).
Definition UnsignedVarintEncodedArrayParam (key : bytes) (vals : list Z) :=
  EncodedParam_new key (PUnsignedArray (CopyLimited 0 vals)).
Definition SignedVarintEncodedParam (key : bytes) (val : Z) := EncodedParam_new key (PSigned val).
Definition SignedVarintEncodedArrayParam (key : bytes) (vals : list Z) :=
  EncodedParam_new key (PSignedArray (CopyLimited 0 vals)).
Definition FloatingNumberEncodedParam (T : FloatTy) (key : bytes) (val : Z) :=
  EncodedParam_new key (PFloating T val).
Definition FloatingNumberEncodedArrayParam (T : FloatTy) (key : bytes) (vals : list Z) :=
  EncodedParam_new key (PFloatingArray T (CopyLimited 0 vals)).
Definition StringEncodedParam (key val : bytes) := EncodedParam_new key (PString val).
Definition StringEncodedArrayParam (key : bytes) (vals : list bytes) :=
  EncodedParam_new key (PStringArray (CopyLimited 0 vals)).

Definition EncodeKey (key : bytes) : Writer := StringValueEncoded key.

(** [for (auto item : vals_) ret = ret && enc(item);] *)
Definition EncodeItems {A} (enc : A → Writer) (vals : list A) : Writer :=
  foldr (λ item w, enc item >&& w) (λ r, (true, r)) vals.

Definition EncodeArray {A} (enc : A → Writer) (vals : list A) : Writer :=
  UnsignedVarintEncoded LENGTH_DELIMITED (Zlen vals) >&& EncodeItems enc vals.

(** What the subclasses of [EncodedParam] override, one definition per class. *)
Record EncodedClass := mkClass { EncodeValueType_ : Writer; EncodeValue_ : Writer }.

Definition UnsignedVarintEncodedParam_class (val : Z) : EncodedClass :=
  mkClass (ValueTypeEncoded false UINT64 0) (UnsignedVarintEncoded VARINT val).
Definition UnsignedVarintEncodedArrayParam_class (vals : list Z) : EncodedClass :=
  mkClass (ValueTypeEncoded true UINT64 0) (EncodeArray (UnsignedVarintEncoded VARINT) vals).
Definition SignedVarintEncodedParam_class (val : Z) : EncodedClass :=
  mkClass (ValueTypeEncoded false INT64 0) (SignedVarintEncoded VARINT val).
Definition SignedVarintEncodedArrayParam_class (vals : list Z) : EncodedClass :=
  mkClass (ValueTypeEncoded true INT64 0) (EncodeArray (SignedVarintEncoded VARINT) vals).
Definition FloatingNumberEncodedParam_class (T : FloatTy) (val : Z) : EncodedClass :=
  mkClass (ValueTypeEncoded false (FloatTy_value T) 0) (FloatingNumberEncoded (FloatTy_size T) val).
Definition FloatingNumberEncodedArrayParam_class (T : FloatTy) (vals : list Z) : EncodedClass :=
  mkClass (ValueTypeEncoded true (FloatTy_value T) 0)
    (EncodeArray (FloatingNumberEncoded (FloatTy_size T)) vals).
Definition StringEncodedParam_class (val : bytes) : EncodedClass :=
  mkClass (ValueTypeEncoded false STRING 0) (StringValueEncoded val).
Definition StringEncodedArrayParam_class (vals : list bytes) : EncodedClass :=
  mkClass (ValueTypeEncoded true STRING 0) (EncodeArray StringValueEncoded vals).

(** The class of a parameter with this value. *)
Definition EncodedClass_of (v : PValue) : EncodedClass :=
  match v with
  | PUnsigned val => UnsignedVarintEncodedParam_class val
  | PUnsignedArray vals => UnsignedVarintEncodedArrayParam_class vals
  | PSigned val => SignedVarintEncodedParam_class val
  | PSignedArray vals => SignedVarintEncodedArrayParam_class vals
  | PFloating T val => FloatingNumberEncodedParam_class T val
  | PFloatingArray T vals => FloatingNumberEncodedArrayParam_class T vals
  | PString val => StringEncodedParam_class val
  | PStringArray vals => StringEncodedArrayParam_class vals
  end.

Definition EncodeValueType (v : PValue) : Writer := EncodeValueType_ (EncodedClass_of v).
Definition EncodeValue (v : PValue) : Writer := EncodeValue_ (EncodedClass_of v).

Definition Encode (p : EncodedParam) : bool * EncodedParam :=
  let '(ok, r) :=
    (EncodeKey (key_ p) >&& EncodeValueType (pval_ p) >&& EncodeValue (pval_ p)) (rawData_ p) in
  (ok, mkEncodedParam (key_ p) (pval_ p) r ok).

Definition GetKey (p : EncodedParam) : bytes := key_ p.

Definition GetRawData (p : EncodedParam) : RawData * EncodedParam :=
  let p := if hasEncoded_ p then p else (Encode p).2 in (rawData_ p, p).

End Encoded.

(** The [AsXxx] accessors, for encoded and decoded parameters alike:
    [None] is the base class's [return false]. *)
Definition AsUint64 (v : PValue) : option Z :=
  match v with PUnsigned x => Some (u64 x) | _ => None end.
Definition AsInt64 (v : PValue) : option Z :=
  match v with PSigned x => Some (s64 x) | _ => None end.
Definition AsDouble (v : PValue) : option Z :=
  match v with
  | PFloating TFloat x => Some (float_to_double x)
  | PFloating TDouble x => Some x
  | _ => None
  end.
Definition AsUint64Vec (v : PValue) : option (list Z) :=
  match v with PUnsignedArray xs => Some (u64 <$> xs) | _ => None end.
Definition AsInt64Vec (v : PValue) : option (list Z) :=
  match v with PSignedArray xs => Some (s64 <$> xs) | _ => None end.
Definition AsDoubleVec (v : PValue) : option (list Z) :=
  match v with
  | PFloatingArray TFloat xs => Some (float_to_double <$> xs)
  | PFloatingArray TDouble xs => Some xs
  | _ => None
  end.
Definition AsStringVec (v : PValue) : option (list bytes) :=
  match v with PStringArray xs => Some xs | _ => None end.

(** ** Decoded parameters *)

(** The [while (size > 0)] loop over the items. *)
Fixpoint DecodeItems {A} (item : Reader A) (size : nat) (vals_ : list A) : Reader (list A) :=
  λ d maxLen pos,
  match size with
  | O => DOk pos vals_
  | S size =>
      let! (pos, val) := item d maxLen pos in
      DecodeItems item size (vals_ ++ [val]) d maxLen pos
  end.

Definition DecodeArray {A} (item : Reader A) : Reader (list A) := λ d maxLen pos,
  let! (pos, size) := UnsignedVarintDecoded d maxLen pos in
  if size >? MAX_ARRAY_SIZE then DFail pos
  else DecodeItems item (Z.to_nat size) [] d maxLen pos.

Definition dmap {A B} (f : A → B) (r : Reader A) : Reader B := λ d maxLen pos,
  let! (pos, a) := r d maxLen pos in DOk pos (f a).

Definition ReadString : Reader bytes := λ d maxLen pos, StringValueDecoded d maxLen pos [].

Section Decoded.
Context `{SC : Securec}.

(** [DecodeValue] of the decoded-parameter class with this coded type; the
    members [val_] and [vals_] start out empty. *)
Definition DecodeValue (t : DataCodedType) : Reader PValue :=
  match t with
  | UNSIGNED_VARINT => dmap PUnsigned UnsignedVarintDecoded
  | UNSIGNED_VARINT_ARRAY => dmap PUnsignedArray (DecodeArray UnsignedVarintDecoded)
  | SIGNED_VARINT => dmap PSigned SignedVarintDecoded
  | SIGNED_VARINT_ARRAY => dmap PSignedArray (DecodeArray SignedVarintDecoded)
  | FLOATING => dmap (PFloating TDouble) FloatingNumberDecoded
  | FLOATING_ARRAY => dmap (PFloatingArray TDouble) (DecodeArray FloatingNumberDecoded)
  | DSTRING => dmap PString ReadString
  | DSTRING_ARRAY => dmap PStringArray (DecodeArray ReadString)
  end.

End Decoded.

(** ** The encoding of a parameter as a byte string *)

Definition array_bytes {A} (item : A → bytes) (vals : list A) : bytes :=
  uvarint LENGTH_DELIMITED (Zlen vals) ++ concat (item <$> vals).

Definition wire_array (v : PValue) : bool :=
  match v with
  | PUnsigned _ | PSigned _ | PFloating _ _ | PString _ => false
  | _ => true
  end.

Definition wire_type (v : PValue) : ValueType :=
  match v with
  | PUnsigned _ | PUnsignedArray _ => UINT64
  | PSigned _ | PSignedArray _ => INT64
  | PFloating T _ | PFloatingArray T _ => FloatTy_value T
  | PString _ | PStringArray _ => STRING
  end.

Definition type_bytes (v : PValue) : bytes := value_type (wire_array v) (wire_type v).

Definition value_bytes (v : PValue) : bytes :=
  match v with
  | PUnsigned x => uvarint VARINT x
  | PUnsignedArray xs => array_bytes (uvarint VARINT) xs
  | PSigned x => svarint VARINT x
  | PSignedArray xs => array_bytes (svarint VARINT) xs
  | PFloating T x => floating (FloatTy_size T) x
  | PFloatingArray T xs => array_bytes (floating (FloatTy_size T)) xs
  | PString s => lstring s
  | PStringArray ss => array_bytes lstring ss
  end.

Definition param_bytes (key : bytes) (v : PValue) : bytes :=
  lstring key ++ type_bytes v ++ value_bytes v.

(** A value of a parameter: integers in the range of their type, arrays at
    most as long as the constructors keep them. *)
Definition value_ok (v : PValue) : Prop :=
  match v with
  | PUnsigned x => is_u 64 x
  | PUnsignedArray xs => Forall (is_u 64) xs ∧ Zlen xs <= MAX_ARRAY_SIZE
  | PSigned x => is_s 64 x
  | PSignedArray xs => Forall (is_s 64) xs ∧ Zlen xs <= MAX_ARRAY_SIZE
  | PFloating T x => T = TDouble ∧ is_u 64 x
  | PFloatingArray T xs => T = TDouble ∧ Forall (is_u 64) xs ∧ Zlen xs <= MAX_ARRAY_SIZE
  | PString _ => True
  | PStringArray ss => Zlen ss <= MAX_ARRAY_SIZE
  end.

(** ** Encoding a parameter *)

Lemma CopyLimited_take {A} (vals : list A) :
  CopyLimited 0 vals = take (Z.to_nat MAX_ARRAY_SIZE) vals.
Proof.
  enough (∀ i, 0 <= i <= MAX_ARRAY_SIZE →
    CopyLimited i vals = take (Z.to_nat (MAX_ARRAY_SIZE - i)) vals) as E.
  { by rewrite E. }
  unfold MAX_ARRAY_SIZE. induction vals as [|x vals IH]; intros i Hi; simpl.
  { by rewrite take_nil. }
  unfold MAX_ARRAY_SIZE. rewrite u32_small by (split; lia). zcase.
  - by replace (Z.to_nat (100 - i)) with 0%nat by lia.
  - rewrite IH by lia. replace (Z.to_nat (100 - i)) with (S (Z.to_nat (100 - (i + 1)))) by lia.
    done.
Qed.

Section EncodeSpec.
Context `{HP : Heap} `{SC : Securec} `{!HeapTotal HP}.

Lemma appends_items {A} (enc : A → Writer) (item : A → bytes) (vals : list A) :
  Forall (λ x, appends (enc x) (item x)) vals →
  appends (EncodeItems enc vals) (concat (item <$> vals)).
Proof. induction 1; simpl; auto with hv. Qed.

Lemma appends_array {A} (enc : A → Writer) (item : A → bytes) (vals : list A) :
  Zlen vals < 2 ^ 64 → Forall (λ x, appends (enc x) (item x)) vals →
  appends (EncodeArray enc vals) (array_bytes item vals).
Proof.
  intros Hl HF. apply appends_then; [|by apply appends_items].
  apply appends_uvarint. split; [apply Zlen_nonneg|done].
Qed.

Lemma appends_value v : value_ok v → appends (EncodeValue v) (value_bytes v).
Proof.
  unfold EncodeValue.
  destruct v as [x|xs|x|xs|T x|T xs|s|ss]; simpl; unfold MAX_ARRAY_SIZE; auto with hv.
  - intros [HF Hl]. apply appends_array; [lia|]. eapply Forall_impl; [|exact HF]. auto with hv.
  - intros [HF Hl]. apply appends_array; [lia|]. eapply Forall_impl; [|exact HF]. auto with hv.
  - intros _. apply appends_floating. by destruct T.
  - intros (_ & HF & Hl). apply appends_array; [lia|].
    eapply Forall_impl; [|exact HF]. intros. apply appends_floating. by destruct T.
  - intros Hl. apply appends_array; [lia|].
    apply Forall_forall. auto with hv.
Qed.

Lemma appends_type v : appends (EncodeValueType v) (type_bytes v).
Proof. destruct v; apply appends_value_type. Qed.

Lemma appends_param key v :
  value_ok v →
  appends (EncodeKey key >&& EncodeValueType v >&& EncodeValue v) (param_bytes key v).
Proof.
  intros Hv. apply appends_then; [apply appends_lstring|].
  apply appends_then; [apply appends_type|by apply appends_value].
Qed.

(** The parameter holds exactly its encoding. *)
Definition encoded (p : EncodedParam) : Prop :=
  hasEncoded_ p = true ∧ usable (rawData_ p) ∧
  contents (rawData_ p) = param_bytes (key_ p) (pval_ p).

Lemma Encode_new key v :
  value_ok v → Zlen (param_bytes key v) <= LEN_MAX →
  ∃ p, Encode (EncodedParam_new key v) = (true, p) ∧ key_ p = key ∧ pval_ p = v ∧ encoded p.
Proof.
  intros Hv HL. unfold Encode, EncodedParam_new. cbn [key_ pval_ rawData_].
  destruct (appends_param key v Hv RawData_new) as (r & E & Hr & Hc).
  { apply usable_new. }
  { rewrite <- (Zlen_contents RawData_new), contents_new by apply usable_new. done. }
  rewrite E. eexists. split_and!; [done..|]. split_and!; [done..|].
  simpl. by rewrite Hc, contents_new.
Qed.

End EncodeSpec.

(** ** Decoding it back *)

Section DecodeSpec.

Lemma reads_items {A} (dec : Reader A) (item : A → bytes) (vals acc : list A) :
  Forall (λ x, reads dec (item x) x) vals →
  reads (DecodeItems dec (length vals) acc) (concat (item <$> vals)) (acc ++ vals).
Proof.
  intros HF. revert acc. induction HF as [|x xs Hx _ IH]; intros acc.
  { rewrite app_nil_r. apply reads_ret. }
  cbn [length fmap list_fmap concat DecodeItems].
  apply (reads_bind dec (λ val, DecodeItems dec (length xs) (acc ++ [val])) _ _ x); [done|].
  specialize (IH (acc ++ [x])). by rewrite <- app_assoc in IH.
Qed.

Lemma reads_array {A} (dec : Reader A) (item : A → bytes) (vals : list A) :
  Zlen vals <= MAX_ARRAY_SIZE → Forall (λ x, reads dec (item x) x) vals →
  reads (DecodeArray dec) (array_bytes item vals) vals.
Proof.
  intros Hl HF. unfold MAX_ARRAY_SIZE in Hl.
  apply (reads_bind UnsignedVarintDecoded
    (λ size d m p, if size >? MAX_ARRAY_SIZE then DFail p
                   else DecodeItems dec (Z.to_nat size) [] d m p) _ _ (Zlen vals)).
  { apply reads_uvarint. split; [apply Zlen_nonneg|lia]. }
  intros pre post m Hm. unfold MAX_ARRAY_SIZE. zcase; [lia|].
  replace (Z.to_nat (Zlen vals)) with (length vals) by (unfold Zlen; lia).
  by apply (reads_items dec item vals []).
Qed.

Lemma reads_dmap {A B} (f : A → B) dec bs a : reads dec bs a → reads (dmap f dec) bs (f a).
Proof.
  intros Hd. rewrite <- (app_nil_r bs).
  apply (reads_bind dec (λ a _ _ p, DOk p (f a)) _ _ a); [done|apply reads_ret].
Qed.

Context `{SC : Securec}.

Lemma reads_value v :
  value_ok v → reads (DecodeValue (GetDataCodedType v)) (value_bytes v) v.
Proof.
  destruct v as [x|xs|x|xs|T x|T xs|s|ss]; simpl; intros Hv.
  - apply reads_dmap. auto with hv.
  - destruct Hv as [HF Hl]. apply reads_dmap, reads_array; [done|].
    eapply Forall_impl; [|exact HF]. auto with hv.
  - apply reads_dmap. auto with hv.
  - destruct Hv as [HF Hl]. apply reads_dmap, reads_array; [done|].
    eapply Forall_impl; [|exact HF]. auto with hv.
  - destruct Hv as [-> Hx]. apply reads_dmap. by apply reads_double.
  - destruct Hv as (-> & HF & Hl). apply reads_dmap, reads_array; [done|].
    eapply Forall_impl; [|exact HF]. by apply reads_double.
  - apply reads_dmap. apply reads_lstring.
  - apply reads_dmap, reads_array; [done|]. apply Forall_forall. intros s _. apply reads_lstring.
Qed.

End DecodeSpec.

(** ** Encoding and decoding a parameter *)

Section Claims.
Context `{HP : Heap} `{SC : Securec} `{!HeapTotal HP}.

(** a parameter encodes to its key, its type byte and its value, and those
    bytes, wherever they lie in a block, decode to the same key and the same
    value and leave the position right behind them. *)
Theorem param_codec_roundtrip key v pre post maxLen :
  value_ok v → Zlen (param_bytes key v) <= LEN_MAX →
  Zlen pre + Zlen (param_bytes key v) <= maxLen < 2 ^ 63 →
  ∃ p, Encode (EncodedParam_new key v) = (true, p) ∧
    let d := Some (pre ++ contents (rawData_ p) ++ post) in
    ∃ pos1 pos2 vt,
      StringValueDecoded d maxLen (Zlen pre) [] = DOk pos1 key ∧
      ValueTypeDecoded d maxLen pos1 = DOk pos2 vt ∧
      valueType vt = ValueType_code (wire_type v) ∧
      isArray vt = (if wire_array v then 1 else 0) ∧
      DecodeValue (GetDataCodedType v) d maxLen pos2 =
        DOk (Zlen pre + Zlen (param_bytes key v)) v.
Proof.
  intros Hv HL Hm. destruct (Encode_new key v Hv HL) as (p & E & Hk & Hp & _ & _ & Hc).
  exists p. split; [done|]. rewrite Hc, Hk, Hp. cbn zeta. unfold param_bytes, type_bytes in *.
  rewrite !Zlen_app in *. pose proof (Zlen_nonneg (value_bytes v)).
  pose proof (Zlen_nonneg (value_type (wire_array v) (wire_type v))).
  eexists _, _, _. split_and!.
  - rewrite <- app_assoc. apply (reads_lstring key). lia.
  - rewrite <- !app_assoc, (app_assoc pre), <- Zlen_app. apply reads_value_type.
    rewrite Zlen_app. lia.
  - done.
  - done.
  - rewrite <- !app_assoc, (app_assoc pre), (app_assoc _ (value_type _ _)), <- !Zlen_app.
    rewrite (reads_value v Hv) by (rewrite !Zlen_app; lia). f_equal. rewrite !Zlen_app. lia.
Qed.

(** Encoding is not idempotent: a second [Encode] on the same object puts
    the encoding behind the first one, so the buffer holds it twice. *)
Theorem encode_twice_duplicates key v :
  value_ok v → 2 * Zlen (param_bytes key v) <= LEN_MAX →
  ∃ p q, Encode (EncodedParam_new key v) = (true, p) ∧ Encode p = (true, q) ∧
    contents (rawData_ q) = param_bytes key v ++ param_bytes key v.
Proof.
  intros Hv HL. pose proof (Zlen_nonneg (param_bytes key v)).
  destruct (Encode_new key v Hv) as (p & E & Hk & Hp & _ & Hu & Hc); [lia|].
  assert (len_ (rawData_ p) = Zlen (param_bytes key v)) as Hl.
  { rewrite <- Hk, <- Hp, <- Hc. symmetry. apply Zlen_contents; apply Hu. }
  destruct (appends_param key v Hv (rawData_ p) Hu) as (r & Er & Hr & Hcr); [lia|].
  exists p. eexists. split; [done|]. unfold Encode at 1. rewrite Hk, Hp, Er. split; [done|].
  cbn [rawData_]. by rewrite Hcr, Hc, Hk, Hp.
Qed.

End Claims.

Lemma param_codec_roundtrip_witness :
  ∃ p, Encode (EncodedParam_new [75] (PSignedArray [-1; 300])) = (true, p).
Proof.
  destruct (param_codec_roundtrip [75] (PSignedArray [-1; 300]) [9; 9] [] 4096) as (p & E & _);
    [|by vm_compute|by vm_compute|by exists p].
  split; [repeat constructor; by vm_compute|by vm_compute].
Defined.

Lemma encode_twice_duplicates_witness :
  ∃ p q, Encode (EncodedParam_new [75] (PUnsigned 3)) = (true, p) ∧ Encode p = (true, q) ∧
    contents (rawData_ q) = param_bytes [75] (PUnsigned 3) ++ param_bytes [75] (PUnsigned 3).
Proof. apply (encode_twice_duplicates [75] (PUnsigned 3)); [by split|by vm_compute]. Defined.
