(* ===== verification/EventHeader.v ===== *)
(** * EventHeader: the packed event header and time zones

    Models base/event_raw/include/base/raw_data_base_def.h and
    base/event_raw/base/raw_data_base_def.cpp: the packed structs with their
    little-endian object representation, and [ParseTimeZone]. *)

From S2P Require Import Prelude.
From stdpp Require Import base list numbers strings.

Local Open Scope Z_scope.

Definition MAX_DOMAIN_LENGTH : Z := 16.
Definition MAX_EVENT_NAME_LENGTH : Z := 32.

Definition BASE_INFO_KEY_DOMAIN := str "domain_".
Definition BASE_INFO_KEY_NAME := str "name_".
Definition BASE_INFO_KEY_TYPE := str "type_".
Definition BASE_INFO_KEY_TIME_STAMP := str "time_".
Definition BASE_INFO_KEY_TIME_ZONE := str "tz_".
Definition BASE_INFO_KEY_ID := str "id_".
Definition BASE_INFO_KEY_PID := str "pid_".
Definition BASE_INFO_KEY_TID := str "tid_".
Definition BASE_INFO_KEY_UID := str "uid_".
Definition BASE_INFO_KEY_LOG := str "log_".
Definition BASE_INFO_KEY_TRACE_ID := str "traceid_".
Definition BASE_INFO_KEY_SPAN_ID := str "spanid_".
Definition BASE_INFO_KEY_PARENT_SPAN_ID := str "pspanid_".
Definition BASE_INFO_KEY_TRACE_FLAG := str "trace_flag_".

(** [struct HiSysEventHeader]; [type] has two bits, [isTraceOpened] one. *)
Record HiSysEventHeader := mkHeader {
  domain : bytes;
  name : bytes;
  timestamp : Z;
  timeZone : Z;
  uid : Z;
  pid : Z;
  tid : Z;
  id : Z;
  type : Z;
  isTraceOpened : Z;
  log : Z
}.

Record TraceInfo := mkTraceInfo {
  traceFlag : Z;
  traceId : Z;
  spanId : Z;
  pSpanId : Z
}.

Definition header_init : HiSysEventHeader :=
  mkHeader (replicate 17 0) (replicate 33 0) 0 0 0 0 0 0 0 0 0.
Definition traceInfo_init : TraceInfo := mkTraceInfo 0 0 0 0.

Definition SIZEOF_HEADER : Z := 81.
Definition SIZEOF_TRACE_INFO : Z := 17.
Definition SIZEOF_INT32 : Z := 4.

(** [GetValidDataMinimumByteCount] *)
Definition GetValidDataMinimumByteCount : Z := SIZEOF_INT32 + SIZEOF_HEADER.

Definition header_bytes (h : HiSysEventHeader) : bytes :=
  domain h ++ name h ++ le_bytes 8 (timestamp h) ++ le_bytes 1 (timeZone h) ++
  le_bytes 4 (uid h) ++ le_bytes 4 (pid h) ++ le_bytes 4 (tid h) ++ le_bytes 8 (id h) ++
  [type h mod 4 + 4 * (isTraceOpened h mod 2)] ++ le_bytes 1 (log h).

Definition trace_bytes (t : TraceInfo) : bytes :=
  le_bytes 1 (traceFlag t) ++ le_bytes 8 (traceId t) ++ le_bytes 4 (spanId t) ++
  le_bytes 4 (pSpanId t).

(** [split_at n bs]: the first [n] bytes and the rest. *)
Definition split_at (n : nat) (bs : bytes) : bytes * bytes := (take n bs, drop n bs).

Definition header_of_bytes (bs : bytes) : HiSysEventHeader :=
  let '(d, bs) := split_at 17 bs in
  let '(n, bs) := split_at 33 bs in
  let '(ts, bs) := split_at 8 bs in
  let '(tz, bs) := split_at 1 bs in
  let '(u, bs) := split_at 4 bs in
  let '(p, bs) := split_at 4 bs in
  let '(t, bs) := split_at 4 bs in
  let '(i, bs) := split_at 8 bs in
  let '(bits, bs) := split_at 1 bs in
  let '(l, _) := split_at 1 bs in
  mkHeader d n (le_value ts) (le_value tz) (le_value u) (le_value p) (le_value t) (le_value i)
    (le_value bits mod 4) (le_value bits / 4 mod 2) (le_value l).

Definition trace_of_bytes (bs : bytes) : TraceInfo :=
  let '(f, bs) := split_at 1 bs in
  let '(t, bs) := split_at 8 bs in
  let '(s, bs) := split_at 4 bs in
  let '(p, _) := split_at 4 bs in
  mkTraceInfo (le_value f) (le_value t) (le_value s) (le_value p).

(** ** Time zones *)

Definition DEFAULT_TZ_POS : Z := 14.

Definition ALL_TIME_ZONES : list bytes := str <$> [
  "-0100"; "-0200"; "-0300"; "-0330"; "-0400"; "-0500"; "-0600";
  "-0700"; "-0800"; "-0900"; "-0930"; "-1000"; "-1100"; "-1200";
  "+0000"; "+0100"; "+0200"; "+0300"; "+0330"; "+0400"; "+0430";
  "+0500"; "+0530"; "+0545"; "+0600"; "+0630"; "+0700"; "+0800";
  "+0845"; "+0900"; "+0930"; "+1000"; "+1030"; "+1100"; "+1200";
  "+1245"; "+1300"; "+1400"]%string.

(** [ParseTimeZone(const std::string&)] *)
Fixpoint find_index (x : bytes) (l : list bytes) (i : Z) : option Z :=
  match l with
  | [] => None
  | y :: l => if bool_decide (y = x) then Some i else find_index x l (i + 1)
  end.

Definition ParseTimeZone (tzStr : bytes) : Z :=
  match find_index tzStr ALL_TIME_ZONES 0 with Some i => i | None => DEFAULT_TZ_POS end.

(** [ParseTimeZone(const uint8_t)] *)
Definition ParseTimeZone_val (tzVal : Z) : bytes :=
  let tzVal := u8 tzVal in
  if tzVal >=? Zlen ALL_TIME_ZONES then ALL_TIME_ZONES !!! Z.to_nat DEFAULT_TZ_POS
  else ALL_TIME_ZONES !!! Z.to_nat tzVal.

Lemma find_index_None x l i : x ∉ l → find_index x l i = None.
Proof.
  revert i. induction l as [|y l IH]; intros i Hx; [done|]. apply not_elem_of_cons in Hx as [Hy Hx].
  cbn. rewrite bool_decide_false by congruence. by apply IH.
Qed.

(** ** Well-formed headers and the layout round trip *)

Definition header_ok (h : HiSysEventHeader) : Prop :=
  length (domain h) = 17%nat ∧ length (name h) = 33%nat ∧ is_u 64 (timestamp h) ∧
  is_u 8 (timeZone h) ∧ is_u 32 (uid h) ∧ is_u 32 (pid h) ∧ is_u 32 (tid h) ∧ is_u 64 (id h) ∧
  is_u 2 (type h) ∧ is_u 1 (isTraceOpened h) ∧ is_u 8 (log h).

Definition trace_ok (t : TraceInfo) : Prop :=
  is_u 8 (traceFlag t) ∧ is_u 64 (traceId t) ∧ is_u 32 (spanId t) ∧ is_u 32 (pSpanId t).

Section Layout.

Lemma split_at_app n a b : length a = n → split_at n (a ++ b) = (a, b).
Proof. intros <-. unfold split_at. by rewrite take_app_length, drop_app_length. Qed.

Lemma split_at_le n z b : split_at n (le_bytes n z ++ b) = (le_bytes n z, b).
Proof. apply split_at_app, length_le_bytes. Qed.

Lemma header_bytes_len h :
  length (domain h) = 17%nat → length (name h) = 33%nat →
  Zlen (header_bytes h) = SIZEOF_HEADER.
Proof.
  intros Hd Hn. unfold header_bytes. rewrite !Zlen_app, !Zlen_le_bytes. unfold Zlen.
  by rewrite Hd, Hn.
Qed.

Lemma trace_bytes_len t : Zlen (trace_bytes t) = SIZEOF_TRACE_INFO.
Proof. unfold trace_bytes. by rewrite !Zlen_app, !Zlen_le_bytes. Qed.

Lemma header_of_header_bytes h rest :
  header_ok h → header_of_bytes (header_bytes h ++ rest) = h.
Proof.
  intros (Hd & Hn & Hts & Htz & Hu & Hp & Ht & Hi & Hty & Htr & Hl).
  unfold header_of_bytes, header_bytes. rewrite <- !app_assoc.
  rewrite (split_at_app 17), (split_at_app 33) by done.
  do 6 rewrite split_at_le. rewrite (split_at_app 1) by done. rewrite split_at_le.
  rewrite !le_value_bytes_small by done.
  unfold is_u in Hty, Htr. change (2 ^ 2) with 4 in Hty. change (2 ^ 1) with 2 in Htr.
  rewrite (Z.mod_small (type h)), (Z.mod_small (isTraceOpened h)) by lia.
  simpl le_value. destruct h as [d n ts tz u p t i ty tr l]; simpl in *.
  rewrite Z.add_0_r. replace (ty + 4 * tr) with (ty + tr * 4) by lia.
  rewrite Z.mod_add, Z.div_add, (Z.mod_small ty), (Z.div_small ty) by lia.
  rewrite Z.add_0_l, Z.mod_small by lia. done.
Qed.

Lemma trace_of_trace_bytes t rest : trace_ok t → trace_of_bytes (trace_bytes t ++ rest) = t.
Proof.
  intros (Hf & Ht & Hs & Hp). unfold trace_of_bytes, trace_bytes. rewrite <- !app_assoc.
  do 4 rewrite split_at_le. rewrite !le_value_bytes_small by done. by destruct t.
Qed.

Lemma header_of_bytes_id h : header_ok h → header_of_bytes (header_bytes h) = h.
Proof. intros Hh. rewrite <- (app_nil_r (header_bytes h)). by apply header_of_header_bytes. Qed.

Lemma trace_of_bytes_id t : trace_ok t → trace_of_bytes (trace_bytes t) = t.
Proof. intros Ht. rewrite <- (app_nil_r (trace_bytes t)). by apply trace_of_trace_bytes. Qed.

Lemma header_init_ok : header_ok header_init.
Proof. repeat split; vm_compute; done. Qed.

Lemma traceInfo_init_ok : trace_ok traceInfo_init.
Proof. repeat split; vm_compute; done. Qed.

End Layout.
