(* ===== verification/Text.v ===== *)
(** * Text: numbers as text

    What the event code uses of the C++ standard library to print and to read
    numbers: [std::to_string] and [operator<<] for integers, [std::hex], and
    [std::stringstream >> n] for unsigned and signed integers. *)

From S2P Require Import Prelude.
From stdpp Require Import base list numbers strings.

Local Open Scope Z_scope.

(** ** C strings *)

(** [std::string] from a C string: up to the first NUL. *)
Fixpoint c_str (bs : bytes) : bytes :=
  match bs with
  | [] => []
  | c :: bs => if c =? 0 then [] else c :: c_str bs
  end.

(** Whether the array holds a terminator: reading a C string from one that
    does not runs past its end. *)
Definition terminated (bs : bytes) : bool := bool_decide (0 ∈ bs).

(** ** Printing *)

(** The digits of [n], most significant first. *)
Fixpoint digs (base : Z) (fuel : nat) (n : Z) : list Z :=
  match fuel with
  | O => []
  | S fuel => if n <? base then [n] else digs base fuel (n / base) ++ [n mod base]
  end.

Definition digit_char (d : Z) : Z := if d <? 10 then 48 + d else 87 + d.

Definition print_base (base n : Z) : bytes :=
  digit_char <$> digs base (S (Z.to_nat (Z.log2 n))) n.

(** [std::to_string] and [<<] of an integer. *)
Definition to_string (n : Z) : bytes :=
  if n <? 0 then 45 :: print_base 10 (- n) else print_base 10 n.

(** [TransNumToHexStr]: [ss << std::hex << num]. *)
Definition TransNumToHexStr (n : Z) : bytes := print_base 16 n.

(** ** Reading *)

Definition is_space (c : Z) : bool := (c =? 32) || ((9 <=? c) && (c <=? 13)).

Definition digit_val (base c : Z) : option Z :=
  let d := if (48 <=? c) && (c <=? 57) then c - 48
           else if (97 <=? c) && (c <=? 102) then c - 87
           else if (65 <=? c) && (c <=? 70) then c - 55
           else base in
  if d <? base then Some d else None.

(** The digits at the front of the input. *)
Fixpoint take_digits (base : Z) (bs : bytes) : list Z :=
  match bs with
  | [] => []
  | c :: bs =>
      match digit_val base c with
      | Some d => d :: take_digits base bs
      | None => []
      end
  end.

Definition value_of (base : Z) (ds : list Z) : Z := foldl (λ a d, a * base + d) 0 ds.

Fixpoint skip_space (bs : bytes) : bytes :=
  match bs with
  | c :: rest => if is_space c then skip_space rest else bs
  | [] => []
  end.

Definition take_sign (bs : bytes) : bool * bytes :=
  match bs with
  | c :: rest => if c =? 45 then (true, rest) else if c =? 43 then (false, rest) else (false, bs)
  | [] => (false, bs)
  end.

Definition skip_hex_prefix (base : Z) (bs : bytes) : bytes :=
  match bs with
  | 48 :: x :: rest =>
      if (base =? 16) && ((x =? 120) || (x =? 88)) then rest else bs
  | _ => bs
  end.

(** [ss >> n] for an unsigned [w]-bit [n] that starts at 0. *)
Definition stream_unsigned (w base : Z) (bs : bytes) : Z :=
  let '(neg, bs) := take_sign (skip_space bs) in
  let v := value_of base (take_digits base (skip_hex_prefix base bs)) in
  if 2 ^ w - 1 <? v then 2 ^ w - 1
  else if neg then (- v) mod 2 ^ w else v.

(** [ss >> n] for a signed 64-bit [n] that starts at 0. *)
Definition stream_signed (bs : bytes) : Z :=
  let '(neg, bs) := take_sign (skip_space bs) in
  let v := value_of 10 (take_digits 10 bs) in
  if neg then (if 2 ^ 63 <? v then - 2 ^ 63 else - v)
  else (if 2 ^ 63 - 1 <? v then 2 ^ 63 - 1 else v).

Section CStrings.

Lemma c_str_terminated s r : 0 ∉ s → c_str (s ++ 0 :: r) = s.
Proof.
  induction s as [|c s IH]; intros Hs; [done|]. cbn. apply not_elem_of_cons in Hs as [Hc Hs].
  zcase; [congruence|]. by rewrite IH.
Qed.

Lemma c_str_len bs : 0 ∈ bs → Zlen (c_str bs) < Zlen bs.
Proof.
  induction bs as [|c bs IH]; intros Hin; [by apply not_elem_of_nil in Hin|].
  cbn. rewrite Zlen_cons. pose proof (Zlen_nonneg bs). zcase; [change (Zlen (@nil Z)) with 0; lia|].
  rewrite Zlen_cons. apply elem_of_cons in Hin as [?|Hin]; [congruence|]. specialize (IH Hin). lia.
Qed.

Lemma c_str_no_nul bs : 0 ∉ c_str bs.
Proof.
  induction bs as [|c bs IH]; cbn; [apply not_elem_of_nil|]. zcase; [apply not_elem_of_nil|].
  apply not_elem_of_cons. split; [congruence|done].
Qed.

End CStrings.

(** ** Reading back what was printed *)

Section RoundTrip.
Context (base : Z) (Hbase : 2 <= base <= 16).

Lemma digs_range fuel n : 0 <= n → Forall (λ d, 0 <= d < base) (digs base fuel n).
Proof.
  revert n. induction fuel as [|fuel IH]; intros n Hn; simpl; [constructor|].
  zcase; [repeat constructor; lia|]. apply Forall_app. split.
  - apply IH. apply Z.div_pos; lia.
  - repeat constructor; apply Z.mod_pos_bound; lia.
Qed.

Lemma value_digs fuel n :
  0 <= n < 2 ^ Z.of_nat fuel → value_of base (digs base fuel n) = n.
Proof.
  revert n. induction fuel as [|fuel IH]; intros n Hn; simpl digs.
  { simpl in Hn. unfold value_of; simpl. lia. }
  zcase; [by unfold value_of|]. unfold value_of in *. rewrite foldl_app. simpl.
  rewrite IH; [pose proof (Z.div_mod n base); lia|].
  split; [apply Z.div_pos; lia|]. apply Z.div_lt_upper_bound; [lia|].
  rewrite Nat2Z.inj_succ, Z.pow_succ_r in Hn by lia. nia.
Qed.

Lemma digit_val_char d : 0 <= d < base → digit_val base (digit_char d) = Some d.
Proof.
  intros Hd. unfold digit_val, digit_char.
  destruct (Z.ltb_spec d 10).
  - rewrite (proj2 (Z.leb_le 48 _)), (proj2 (Z.leb_le (48 + d) 57)) by lia. cbn [andb].
    replace (48 + d - 48) with d by lia. zcase; [done|lia].
  - rewrite (proj2 (Z.leb_le 48 _)), (proj2 (Z.leb_gt (87 + d) 57)) by lia. cbn [andb].
    rewrite (proj2 (Z.leb_le 97 _)), (proj2 (Z.leb_le (87 + d) 102)) by lia. cbn [andb].
    replace (87 + d - 87) with d by lia. zcase; [done|lia].
Qed.

Definition no_digit (rest : bytes) : Prop :=
  match rest with [] => True | c :: _ => digit_val base c = None end.

Lemma take_digits_chars ds rest :
  Forall (λ d, 0 <= d < base) ds → no_digit rest →
  take_digits base ((digit_char <$> ds) ++ rest) = ds.
Proof.
  induction 1 as [|d ds Hd _ IH]; intros Hr; simpl.
  - destruct rest as [|c rest]; simpl in *; [done|]. by rewrite Hr.
  - rewrite digit_val_char by done. f_equal. by apply IH.
Qed.

Lemma log2_fuel n : 0 <= n → n < 2 ^ Z.of_nat (S (Z.to_nat (Z.log2 n))).
Proof.
  intros Hn. rewrite Nat2Z.inj_succ, Z2Nat.id by apply Z.log2_nonneg.
  destruct (decide (n = 0)) as [->|]; [done|]. apply Z.log2_spec. lia.
Qed.

Lemma read_print_base n rest :
  0 <= n → no_digit rest →
  value_of base (take_digits base (print_base base n ++ rest)) = n.
Proof.
  intros Hn Hr. unfold print_base. rewrite take_digits_chars; auto using digs_range.
  apply value_digs. auto using log2_fuel.
Qed.

Lemma print_base_cons n : 0 <= n → ∃ d ds, print_base base n = digit_char d :: ds ∧ 0 <= d < base.
Proof.
  intros Hn. unfold print_base. pose proof (digs_range (S (Z.to_nat (Z.log2 n))) n Hn) as HF.
  assert (digs base (S (Z.to_nat (Z.log2 n))) n ≠ []) as Hne.
  { cbn [digs]. zcase; [done|]. intros [_ [=]]%app_eq_nil. }
  destruct (digs _ _ _) as [|d ds]; [done|]. inversion HF; subst. by eexists d, _.
Qed.

End RoundTrip.

Section Streams.

(** A digit is neither white space nor a sign. *)
Lemma digit_char_front base d rest :
  2 <= base <= 16 → 0 <= d < base →
  take_sign (skip_space (digit_char d :: rest)) = (false, digit_char d :: rest).
Proof.
  intros Hb Hd. unfold skip_space, is_space, take_sign, digit_char.
  repeat (zcase; simpl; try lia); done.
Qed.

Lemma take_sign_minus l : take_sign (skip_space (45 :: l)) = (true, l).
Proof. done. Qed.

Lemma stream_decimal w n rest :
  0 <= n < 2 ^ w → no_digit 10 rest → stream_unsigned w 10 (to_string n ++ rest) = n.
Proof.
  intros Hn Hr. unfold stream_unsigned, to_string.
  destruct (Z.ltb_spec n 0); [lia|].
  destruct (print_base_cons 10 ltac:(lia) n) as (d & ds & E & Hd); [lia|].
  pose proof (read_print_base 10 ltac:(lia) n rest ltac:(lia) Hr) as HV. rewrite E in *.
  cbn [app] in *. rewrite (digit_char_front 10) by lia.
  assert (∀ l, skip_hex_prefix 10 l = l) as Hsk.
  { intros [|c [|x l]]; unfold skip_hex_prefix; by repeat case_match. }
  rewrite Hsk, HV. zcase; [lia|done].
Qed.

Lemma stream_signed_decimal n rest :
  is_s 64 n → no_digit 10 rest → stream_signed (to_string n ++ rest) = n.
Proof.
  intros [Hlo Hhi] Hr. change (2 ^ (64 - 1)) with (2 ^ 63) in *.
  unfold stream_signed, to_string. destruct (Z.ltb_spec n 0).
  - cbn [app]. rewrite take_sign_minus.
    pose proof (read_print_base 10 ltac:(lia) (- n) rest ltac:(lia) Hr) as HV.
    rewrite HV. zcase; lia.
  - destruct (print_base_cons 10 ltac:(lia) n) as (d & ds & E & Hd); [lia|].
    pose proof (read_print_base 10 ltac:(lia) n rest ltac:(lia) Hr) as HV. rewrite E in *.
    cbn [app] in *. rewrite (digit_char_front 10) by lia. rewrite HV. zcase; lia.
Qed.

Lemma skip_hex_digits base ds :
  2 <= base <= 16 → Forall (λ d, 0 <= d < base) ds →
  skip_hex_prefix base (digit_char <$> ds) = digit_char <$> ds.
Proof.
  intros Hb HF. destruct ds as [|d0 [|d1 ds]]; simpl; [done| |].
  { by repeat case_match. }
  inversion HF as [|? ? H0 HF']; subst. inversion HF' as [|? ? H1 _]; subst.
  assert ((digit_char d1 =? 120) = false ∧ (digit_char d1 =? 88) = false) as [-> ->].
  { unfold digit_char. split; apply Z.eqb_neq; zcase; lia. }
  rewrite andb_false_r. by repeat case_match.
Qed.

Lemma stream_hex w n : 0 <= n < 2 ^ w → stream_unsigned w 16 (TransNumToHexStr n) = n.
Proof.
  intros Hn. unfold stream_unsigned, TransNumToHexStr.
  destruct (print_base_cons 16 ltac:(lia) n) as (d & ds & E & Hd); [lia|].
  pose proof (read_print_base 16 ltac:(lia) n [] ltac:(lia) I) as HV.
  rewrite app_nil_r in HV. rewrite E, (digit_char_front 16), <- E by lia.
  unfold print_base in *. rewrite skip_hex_digits by (lia || apply digs_range; lia).
  rewrite HV. zcase; lia.
Qed.

End Streams.

(** A decimal number is a word of digits. *)
Lemma to_string_chars n c : 0 <= n → c ∈ to_string n → 48 <= c <= 57.
Proof.
  intros Hn. unfold to_string. destruct (Z.ltb_spec n 0); [lia|]. unfold print_base.
  intros (d & -> & Hd)%list_elem_of_fmap.
  eapply Forall_forall in Hd; [|by apply (digs_range 10 ltac:(lia))].
  cbn in Hd. unfold digit_char. zcase; lia.
Qed.
