(* ===== verification/FloatText.v ===== *)
(** * FloatText: floating-point numbers as text

    [operator<<] of a [double] with the default format (six significant
    digits, as [printf("%g")]), and [operator>>] into a [double].  A double is
    its 64-bit pattern. *)

From S2P Require Import Prelude Text.
From stdpp Require Import base list numbers strings.

Local Open Scope Z_scope.

(** [n / d] rounded to the nearest integer, ties to even. *)
Definition round_half_even (n d : Z) : Z :=
  let q := n / d in
  let r := n mod d in
  if 2 * r <? d then q else if d <? 2 * r then q + 1 else if Z.even q then q else q + 1.

(** ** Printing *)

(** The least [k] in [k0, k0 + fuel) with [n * 10^k >= d]. *)
Fixpoint scale_up (fuel : nat) (k n d : Z) : Z :=
  match fuel with
  | O => k
  | S fuel => if d <=? n * 10 ^ k then k else scale_up fuel (k + 1) n d
  end.

(** [X] with [10^X <= n/d < 10^(X+1)]. *)
Definition dec_exponent (n d : Z) : Z :=
  if d <=? n then Zlen (print_base 10 (n / d)) - 1 else - scale_up 400 1 n d.

(** The positive rational [n/d] as six digits and a decimal exponent. *)
Definition six_digits (n d : Z) : Z * Z :=
  let x := dec_exponent n d in
  let D := if x <=? 5 then round_half_even (n * 10 ^ (5 - x)) d
           else round_half_even n (d * 10 ^ (x - 5)) in
  if D =? 10 ^ 6 then (10 ^ 5, x + 1) else (D, x).

(** Trailing zeros removed. *)
Fixpoint strip_zeros (l : bytes) : bytes :=
  match l with
  | [] => []
  | c :: l => match strip_zeros l with
              | [] => if c =? 48 then [] else [c]
              | l => c :: l
              end
  end.

Definition with_fraction (i f : bytes) : bytes :=
  match strip_zeros f with [] => i | f => i ++ 46 :: f end.

Definition print_positive (n d : Z) : bytes :=
  let '(D, x) := six_digits n d in
  let ds := print_base 10 D in
  if (x <? -4) || (6 <=? x) then
    let ax := print_base 10 (Z.abs x) in
    with_fraction (take 1 ds) (drop 1 ds) ++ [101; if x <? 0 then 45 else 43] ++
    (if Zlen ax <? 2 then 48 :: ax else ax)
  else if 0 <=? x then with_fraction (take (Z.to_nat (x + 1)) ds) (drop (Z.to_nat (x + 1)) ds)
  else with_fraction [48] (replicate (Z.to_nat (- x - 1)) 48 ++ ds).

(** [ss << d] *)
Definition print_double (b : Z) : bytes :=
  let e := Z.land (Z.shiftr b 52) 2047 in
  let m := Z.land b (Z.ones 52) in
  (if Z.testbit b 63 then [45] else []) ++
  (if e =? 2047 then (if m =? 0 then str "inf" else str "nan")
   else if (e =? 0) && (m =? 0) then [48]
   else let m' := if e =? 0 then m else m + 2 ^ 52 in
        let p := Z.max e 1 - 1075 in
        if 0 <=? p then print_positive (m' * 2 ^ p) 1 else print_positive m' (2 ^ (- p))).

(** ** Reading *)

Definition DBL_MAX : Z := 2047 * 2 ^ 52 - 1.

(** The positive rational [n/d] rounded to a double; too large gives the
    largest finite value. *)
Definition round_double (n d : Z) : Z :=
  let e0 := Z.log2 n - Z.log2 d in
  let below := if 0 <=? e0 then n <? d * 2 ^ e0 else n * 2 ^ (- e0) <? d in
  let e := Z.max (if below then e0 - 1 else e0) (-1022) in
  let s := e - 52 in
  let M := if 0 <=? s then round_half_even n (d * 2 ^ s) else round_half_even (n * 2 ^ (- s)) d in
  Z.min ((e + 1022) * 2 ^ 52 + M) DBL_MAX.

Definition decimal_double (D x : Z) : Z :=
  if D =? 0 then 0 else if 0 <=? x then round_double (D * 10 ^ x) 1 else round_double D (10 ^ (- x)).

(** [ss >> d]: the value read, 0 if the text is not a number. *)
Definition stream_double (bs : bytes) : Z :=
  let '(neg, bs) := take_sign (skip_space bs) in
  let i := take_digits 10 bs in
  let bs := drop (length i) bs in
  let '(f, bs) := match bs with
                  | 46 :: bs => let f := take_digits 10 bs in (f, drop (length f) bs)
                  | _ => ([], bs)
                  end in
  let '(x, ok) := match bs with
                  | c :: bs =>
                      if (c =? 101) || (c =? 69) then
                        let '(xneg, bs) := take_sign bs in
                        let xs := take_digits 10 bs in
                        (if xneg then - value_of 10 xs else value_of 10 xs, negb (Zlen xs =? 0))
                      else (0, true)
                  | [] => (0, true)
                  end in
  if (Zlen (i ++ f) =? 0) || negb ok then 0 else
  let v := decimal_double (value_of 10 (i ++ f)) (x - Zlen f) in
  if neg then v + 2 ^ 63 else v.

(** Reference values. *)
Example print_double_one : print_double 4607182418800017408 = str "1".
Proof. by vm_compute. Qed.
Example print_double_pi : print_double 4614256656552045848 = str "3.14159".
Proof. by vm_compute. Qed.
Example print_double_million : print_double 4696837146684686336 = str "1e+06".
Proof. by vm_compute. Qed.
Example print_double_small : print_double 4532020583610935537 = str "1e-05".
Proof. by vm_compute. Qed.
Example stream_double_pi : stream_double (str "3.141592653589793") = 4614256656552045848.
Proof. by vm_compute. Qed.
Example stream_double_small : stream_double (str "-1e-05") = 2 ^ 63 + 4532020583610935537.
Proof. by vm_compute. Qed.
