(* ===== verification/DecodedEvent.v ===== *)
(** * DecodedEvent: parsing a raw event block

    Models base/event_raw/decoded/decoded_event.cpp, the constructor and the
    parsing methods.  A method that runs into undefined behaviour of the
    decoders answers [Undefined]. *)

From S2P Require Import Prelude Platform RawData Encoder Decoder Params EventHeader.
From stdpp Require Import base list numbers.

Local Open Scope Z_scope.

Definition MAX_BLOCK_SIZE : Z := 384 * 1024.
Definition MAX_PARAM_CNT : Z := 128 + 10.

Record DecodedParam := mkDecodedParam { dkey_ : bytes; dval_ : PValue }.

#[global] Instance DecodedParam_eq_dec : EqDecision DecodedParam.
Proof. solve_decision. Defined.

Record DecodedEvent := mkDecodedEvent {
  rawData_ : option bytes;
  pos_ : Z;
  header_ : HiSysEventHeader;
  traceInfo_ : TraceInfo;
  isValid_ : bool;
  allParams_ : list DecodedParam
}.

Definition DecodedEvent_init : DecodedEvent :=
  mkDecodedEvent None 0 header_init traceInfo_init false [].

Inductive outcome (A : Type) := Done (a : A) | Undefined (u : undefined).
Arguments Done {A} _.
Arguments Undefined {A} _.

Definition obind {A B} (m : outcome A) (k : A → outcome B) : outcome B :=
  match m with Done a => k a | Undefined u => Undefined u end.

Notation "'let*' x := m 'in' k" := (obind m (λ x, k))
  (at level 10, x name, m at level 100, k at level 200) : hv_scope.
Local Open Scope hv_scope.

Definition set_pos (e : DecodedEvent) (p : Z) : DecodedEvent :=
  mkDecodedEvent (rawData_ e) p (header_ e) (traceInfo_ e) (isValid_ e) (allParams_ e).
Definition set_valid (e : DecodedEvent) (v : bool) : DecodedEvent :=
  mkDecodedEvent (rawData_ e) (pos_ e) (header_ e) (traceInfo_ e) v (allParams_ e).
Definition set_header (e : DecodedEvent) (h : HiSysEventHeader) : DecodedEvent :=
  mkDecodedEvent (rawData_ e) (pos_ e) h (traceInfo_ e) (isValid_ e) (allParams_ e).
Definition set_trace (e : DecodedEvent) (t : TraceInfo) : DecodedEvent :=
  mkDecodedEvent (rawData_ e) (pos_ e) (header_ e) t (isValid_ e) (allParams_ e).
Definition add_param (e : DecodedEvent) (p : DecodedParam) : DecodedEvent :=
  mkDecodedEvent (rawData_ e) (pos_ e) (header_ e) (traceInfo_ e) (isValid_ e)
    (allParams_ e ++ [p]).

(** Reduce the projections of updated events. *)
Ltac ev_simpl :=
  cbn [set_pos set_valid set_header set_trace add_param
       rawData_ pos_ header_ traceInfo_ isValid_ allParams_].

(** Reading [n] bytes at [pos] through a [reinterpret_cast]; a position that is not
    aligned reads the bytes there, as the supported machines do. *)
Definition ReadAt (d : bytes) (pos n : Z) : outcome bytes :=
  let s := take (Z.to_nat n) (drop (Z.to_nat pos) d) in
  if Zlen s <? n then Undefined UB_OutOfBounds else Done s.

(** [*(reinterpret_cast<int32_t*>(data + pos))] *)
Definition ReadInt32 (d : bytes) (pos : Z) : outcome Z :=
  let* s := ReadAt d pos SIZEOF_INT32 in Done (s32 (le_value s)).

Definition ParseHeader (e : DecodedEvent) (d : bytes) (maxLen : Z) : outcome DecodedEvent :=
  if u64 (pos_ e + SIZEOF_HEADER) >? maxLen then Done (set_valid e false) else
  let* hb := ReadAt d (pos_ e) SIZEOF_HEADER in
  let e := set_pos (set_header e (header_of_bytes hb)) (u64 (pos_ e + SIZEOF_HEADER)) in
  if isTraceOpened (header_ e) =? 1 then
    if u64 (pos_ e + SIZEOF_TRACE_INFO) >? maxLen then Done (set_valid e false) else
    let* tb := ReadAt d (pos_ e) SIZEOF_TRACE_INFO in
    Done (set_pos (set_trace e (trace_of_bytes tb)) (u64 (pos_ e + SIZEOF_TRACE_INFO)))
  else Done e.

(** The class [ParseCustomizedParam] picks for a value type; [None] is the
    null pointer of the default case. *)
Definition CreateDecodedParam (valueType : Z) (array : bool) : option DataCodedType :=
  if valueType =? ValueType_code STRING then
    Some (if array then DSTRING_ARRAY else DSTRING)
  else if (valueType =? ValueType_code FLOAT) || (valueType =? ValueType_code DOUBLE) then
    Some (if array then FLOATING_ARRAY else FLOATING)
  else if (valueType =? ValueType_code UINT8) || (valueType =? ValueType_code UINT16) ||
          (valueType =? ValueType_code UINT32) || (valueType =? ValueType_code UINT64) then
    Some (if array then UNSIGNED_VARINT_ARRAY else UNSIGNED_VARINT)
  else if (valueType =? ValueType_code BOOL) || (valueType =? ValueType_code INT8) ||
          (valueType =? ValueType_code INT16) || (valueType =? ValueType_code INT32) ||
          (valueType =? ValueType_code INT64) then
    Some (if array then SIGNED_VARINT_ARRAY else SIGNED_VARINT)
  else None.

Section Parsing.
Context `{SC : Securec}.

(** [ParseCustomizedParam]: the event afterwards, and the parameter's key and
    class, or [None] for a null pointer. *)
Definition ParseCustomizedParam (e : DecodedEvent) (maxLen : Z)
    : outcome (DecodedEvent * option (bytes * DataCodedType)) :=
  match StringValueDecoded (rawData_ e) maxLen (pos_ e) [] with
  | DUndef u => Undefined u
  | DFail p => Done (set_valid (set_pos e p) false, None)
  | DOk p key =>
      let e := set_pos e p in
      match ValueTypeDecoded (rawData_ e) maxLen (pos_ e) with
      | DUndef u => Undefined u
      | DFail p => Done (set_valid (set_pos e p) false, None)
      | DOk p vt =>
          let e := set_pos e p in
          Done (e, (λ t, (key, t)) <$> CreateDecodedParam (valueType vt) (isArray vt =? 1))
      end
  end.

(** [while (paramCnt > 0)] *)
Fixpoint ParseParamLoop (paramCnt : nat) (e : DecodedEvent) (maxLen : Z) : outcome DecodedEvent :=
  match paramCnt with
  | O => Done e
  | S paramCnt =>
      let* ep := ParseCustomizedParam e maxLen in
      let '(e, param) := ep in
      match param with
      | None => Done (set_valid e false)
      | Some (key, t) =>
          match DecodeValue t (rawData_ e) maxLen (pos_ e) with
          | DUndef u => Undefined u
          | DFail _ => Done (set_valid e false)
          | DOk p v =>
              ParseParamLoop paramCnt (add_param (set_pos e p) (mkDecodedParam key v)) maxLen
          end
      end
  end.

Definition ParseCustomizedParams (e : DecodedEvent) (d : bytes) (maxLen : Z)
    : outcome DecodedEvent :=
  if u64 (pos_ e + SIZEOF_INT32) >? maxLen then Done (set_valid e false) else
  let* cnt := ReadInt32 d (pos_ e) in
  let paramCnt := u64 cnt in
  if paramCnt >? MAX_PARAM_CNT then Done (set_valid e false) else
  ParseParamLoop (Z.to_nat paramCnt) (set_pos e (u64 (pos_ e + SIZEOF_INT32))) maxLen.

Definition Parse (e : DecodedEvent) : outcome DecodedEvent :=
  let e := set_valid e true in
  match rawData_ e with
  | None => Done (set_valid e false)
  | Some d =>
      let e := set_pos e 0 in
      let* size := ReadInt32 d 0 in
      let blockSize := u64 size in
      let e := set_pos e (u64 (pos_ e + SIZEOF_INT32)) in
      let* e := ParseHeader e d blockSize in
      ParseCustomizedParams e d blockSize
  end.

Context `{HP : Heap}.

(** The constructor [DecodedEvent(uint8_t* data, size_t len)]. *)
Definition DecodedEvent_new (data : option bytes) (len : Z) : outcome DecodedEvent :=
  match data with
  | None => Done DecodedEvent_init
  | Some d =>
      if len <? SIZEOF_INT32 then Done DecodedEvent_init else
      let* size := ReadInt32 d 0 in
      let blockSize := u64 size in
      if negb (blockSize =? len) || (blockSize <? GetValidDataMinimumByteCount) ||
         (blockSize >? MAX_BLOCK_SIZE) then Done DecodedEvent_init else
      match new_bytes blockSize with
      | None => Done DecodedEvent_init
      | Some b =>
          let '(ok, b') := memcpy_s b blockSize data blockSize in
          if ok then
            Parse (mkDecodedEvent (Some b') 0 header_init traceInfo_init false [])
          else Done DecodedEvent_init
      end
  end.

(** [GetRawData]: a fresh buffer with the bytes parsed so far. *)
Definition DecodedEvent_GetRawData (e : DecodedEvent) : RawData :=
  RawData_new_from (rawData_ e) (pos_ e).

End Parsing.

(** ** The block an event is laid out as *)

Definition params_bytes (ps : list DecodedParam) : bytes :=
  concat ((λ p, param_bytes (dkey_ p) (dval_ p)) <$> ps).

Definition opened_trace (h : HiSysEventHeader) (t : TraceInfo) : TraceInfo :=
  if isTraceOpened h =? 1 then t else traceInfo_init.

Definition event_body (h : HiSysEventHeader) (t : TraceInfo) (ps : list DecodedParam) : bytes :=
  header_bytes h ++ (if isTraceOpened h =? 1 then trace_bytes t else []) ++
  le_bytes 4 (Zlen ps) ++ params_bytes ps.

Definition event_block (h : HiSysEventHeader) (t : TraceInfo) (ps : list DecodedParam) : bytes :=
  le_bytes 4 (4 + Zlen (event_body h t ps)) ++ event_body h t ps.

Definition params_ok (ps : list DecodedParam) : Prop :=
  Forall (λ p, value_ok (dval_ p)) ps ∧ Zlen ps <= MAX_PARAM_CNT.

Section ParseSpec.

Lemma ReadAt_app pre s post n :
  Zlen s = n → ReadAt (pre ++ s ++ post) (Zlen pre) n = Done s.
Proof.
  intros <-. unfold ReadAt. rewrite drop_Zlen, take_Zlen. zcase; [lia|done].
Qed.

Lemma ReadInt32_app pre z post :
  0 <= z < 2 ^ 31 → ReadInt32 (pre ++ le_bytes 4 z ++ post) (Zlen pre) = Done z.
Proof.
  intros Hz. unfold ReadInt32. rewrite ReadAt_app by apply Zlen_le_bytes. cbn [obind].
  rewrite le_value_bytes_small by (change (8 * Z.of_nat 4) with 32; lia).
  f_equal. apply sgn_small; [lia|]. unfold is_s. change (32 - 1) with 31. lia.
Qed.

Lemma set_pos_set_pos e p q : set_pos (set_pos e p) q = set_pos e q.
Proof. done. Qed.

Lemma CreateDecodedParam_wire v :
  CreateDecodedParam (ValueType_code (wire_type v)) ((if wire_array v then 1 else 0) =? 1)
  = Some (GetDataCodedType v).
Proof. by destruct v as [| | | |[]|[]| |]. Qed.

Context `{SC : Securec}.

Lemma ParseCustomizedParam_spec e pre k v post maxLen :
  rawData_ e = Some (pre ++ param_bytes k v ++ post) → pos_ e = Zlen pre →
  Zlen pre + Zlen (param_bytes k v) <= maxLen < 2 ^ 63 →
  ParseCustomizedParam e maxLen =
    Done (set_pos e (Zlen (pre ++ lstring k ++ type_bytes v)), Some (k, GetDataCodedType v)).
Proof.
  intros Hd Hp Hm. unfold ParseCustomizedParam, param_bytes, type_bytes in *.
  rewrite Hd, Hp.
  rewrite !Zlen_app in Hm. pose proof (Zlen_nonneg (value_bytes v)).
  pose proof (Zlen_nonneg (value_type (wire_array v) (wire_type v))).
  rewrite <- app_assoc, (reads_lstring k) by lia.
  cbn [set_pos rawData_ pos_]. rewrite Hd, <- !app_assoc, (app_assoc pre), <- Zlen_app.
  rewrite reads_value_type by (rewrite Zlen_app; lia).
  cbn [valueType isArray]. rewrite CreateDecodedParam_wire.
  cbn [fmap option_fmap option_map]. rewrite set_pos_set_pos. do 3 f_equal.
  rewrite !Zlen_app. lia.
Qed.

Lemma ParseParamLoop_spec ps : ∀ e pre post maxLen,
  Forall (λ p, value_ok (dval_ p)) ps →
  rawData_ e = Some (pre ++ params_bytes ps ++ post) → pos_ e = Zlen pre →
  Zlen pre + Zlen (params_bytes ps) <= maxLen < 2 ^ 63 →
  ParseParamLoop (length ps) e maxLen =
    Done (mkDecodedEvent (rawData_ e) (Zlen pre + Zlen (params_bytes ps)) (header_ e)
            (traceInfo_ e) (isValid_ e) (allParams_ e ++ ps)).
Proof.
  induction ps as [|[k v] ps IH]; intros e pre post maxLen HF Hd Hp Hm.
  { cbn [length ParseParamLoop]. change (Zlen (params_bytes [])) with 0.
    rewrite app_nil_r, Z.add_0_r, <- Hp. by destruct e. }
  inversion HF as [|? ? Hv HF']; subst. simpl in Hv.
  assert (params_bytes (mkDecodedParam k v :: ps) = param_bytes k v ++ params_bytes ps) as HE
    by done.
  rewrite HE in *. rewrite Zlen_app in *. pose proof (Zlen_nonneg (params_bytes ps)).
  rewrite <- app_assoc in Hd.
  cbn [length ParseParamLoop]. rewrite (ParseCustomizedParam_spec e pre k v _ _ Hd Hp) by lia.
  cbn [obind set_pos rawData_ pos_]. rewrite Hd. unfold param_bytes in Hm |- *.
  rewrite !Zlen_app in Hm.
  replace (pre ++ (lstring k ++ type_bytes v ++ value_bytes v) ++ params_bytes ps ++ post)
    with ((pre ++ lstring k ++ type_bytes v) ++ value_bytes v ++ params_bytes ps ++ post)
    by (by rewrite <- !app_assoc).
  rewrite reads_value by (done || rewrite !Zlen_app; lia).
  rewrite (IH _ (pre ++ param_bytes k v) post maxLen HF').
  - cbn [add_param set_pos rawData_ header_ traceInfo_ isValid_ allParams_].
    rewrite <- app_assoc. unfold param_bytes. rewrite !Zlen_app. rewrite Hd.
    f_equal. f_equal; solve [lia | unfold param_bytes; by rewrite <- !app_assoc].
  - cbn [add_param set_pos rawData_]. by rewrite Hd, <- app_assoc.
  - cbn [add_param set_pos pos_]. unfold param_bytes. rewrite !Zlen_app. lia.
  - unfold param_bytes. rewrite !Zlen_app. lia.
Qed.

Lemma ParseHeader_spec e pre h t rest maxLen :
  header_ok h → trace_ok t → traceInfo_ e = traceInfo_init →
  let body := header_bytes h ++ (if isTraceOpened h =? 1 then trace_bytes t else []) in
  pos_ e = Zlen pre → Zlen pre + Zlen body <= maxLen < 2 ^ 63 →
  ParseHeader e (pre ++ body ++ rest) maxLen =
    Done (mkDecodedEvent (rawData_ e) (Zlen pre + Zlen body) h (opened_trace h t)
            (isValid_ e) (allParams_ e)).
Proof.
  intros Hh Ht Htr body Hp Hm. pose proof (Zlen_nonneg pre). subst body.
  pose proof Hh as (Hd & Hn & _). pose proof (header_bytes_len h Hd Hn) as Hlen.
  pose proof (Zlen_nonneg (if isTraceOpened h =? 1 then trace_bytes t else [])).
  rewrite Zlen_app, Hlen in *. unfold ParseHeader, opened_trace. rewrite Hp.
  unfold SIZEOF_HEADER in *. rewrite u64_small by (split; lia).
  rewrite gtb_false by lia.
  rewrite <- app_assoc, ReadAt_app by done. cbn [obind set_pos set_header header_ pos_].
  rewrite !header_of_bytes_id by done.
  destruct (isTraceOpened h =? 1) eqn:Ho.
  - rewrite trace_bytes_len in *. unfold SIZEOF_TRACE_INFO in *.
    rewrite u64_small by (split; lia). rewrite gtb_false by lia.
    rewrite (app_assoc pre), <- Hlen, <- Zlen_app, ReadAt_app by apply trace_bytes_len.
    cbn [obind set_pos set_header set_trace header_ pos_ traceInfo_ rawData_ isValid_ allParams_].
    rewrite trace_of_bytes_id by done. unfold set_pos, set_trace, set_header; cbn.
    do 2 f_equal. rewrite Zlen_app. lia.
  - unfold set_pos, set_header; cbn. rewrite Htr. done.
Qed.

Lemma ParseCustomizedParams_spec e pre ps maxLen :
  params_ok ps → pos_ e = Zlen pre →
  rawData_ e = Some (pre ++ le_bytes 4 (Zlen ps) ++ params_bytes ps) →
  Zlen pre + Zlen (le_bytes 4 (Zlen ps) ++ params_bytes ps) <= maxLen < 2 ^ 63 →
  ParseCustomizedParams e (pre ++ le_bytes 4 (Zlen ps) ++ params_bytes ps) maxLen =
    Done (mkDecodedEvent (rawData_ e)
            (Zlen pre + Zlen (le_bytes 4 (Zlen ps) ++ params_bytes ps)) (header_ e)
            (traceInfo_ e) (isValid_ e) (allParams_ e ++ ps)).
Proof.
  intros [HF Hcnt] Hp Hd Hm. unfold ParseCustomizedParams, MAX_PARAM_CNT in *. rewrite Hp.
  pose proof (Zlen_nonneg pre). pose proof (Zlen_nonneg ps).
  pose proof (Zlen_nonneg (params_bytes ps)).
  rewrite Zlen_app, Zlen_le_bytes in *. change (Z.of_nat 4) with 4 in *. unfold SIZEOF_INT32.
  rewrite (u64_small (Zlen pre + 4)) by (split; lia). zcase; [lia|].
  rewrite ReadInt32_app by lia. cbn [obind].
  rewrite u64_small by (split; lia). zcase; [lia|].
  replace (Z.to_nat (Zlen ps)) with (length ps) by (unfold Zlen; lia).
  rewrite (ParseParamLoop_spec ps _ (pre ++ le_bytes 4 (Zlen ps)) []);
    ev_simpl; auto.
  - do 2 f_equal. rewrite !Zlen_app, Zlen_le_bytes. lia.
  - by rewrite Hd, app_nil_r, <- !app_assoc.
  - by rewrite Zlen_app, Zlen_le_bytes.
  - rewrite Zlen_app, Zlen_le_bytes. lia.
Qed.

Lemma Parse_spec h t ps :
  header_ok h → trace_ok t → params_ok ps →
  Zlen (event_block h t ps) <= MAX_BLOCK_SIZE →
  Parse (mkDecodedEvent (Some (event_block h t ps)) 0 header_init traceInfo_init false []) =
    Done (mkDecodedEvent (Some (event_block h t ps)) (Zlen (event_block h t ps)) h
            (opened_trace h t) true ps).
Proof.
  intros Hh Ht Hps Hsize. unfold Parse, MAX_BLOCK_SIZE in *.
  cbn [set_valid set_pos rawData_ pos_ header_ traceInfo_ isValid_ allParams_].
  unfold event_block in *. set (b := event_body h t ps) in *.
  rewrite Zlen_app, Zlen_le_bytes in *. change (Z.of_nat 4) with 4 in *.
  pose proof (Zlen_nonneg b).
  pose proof (ReadInt32_app [] (4 + Zlen b) b) as HR. cbn [app] in HR.
  change (Zlen []) with 0 in HR. rewrite HR by lia. cbn [obind].
  unfold SIZEOF_INT32. rewrite !u64_small by (split; lia).
  set (sz := le_bytes 4 (4 + Zlen b)).
  set (hb := header_bytes h ++ (if isTraceOpened h =? 1 then trace_bytes t else [])).
  assert (b = hb ++ le_bytes 4 (Zlen ps) ++ params_bytes ps) as Hb
    by (unfold b, hb, event_body; by rewrite <- app_assoc).
  assert (Zlen b = Zlen hb + Zlen (le_bytes 4 (Zlen ps) ++ params_bytes ps)) as HL
    by (by rewrite Hb, Zlen_app).
  pose proof (Zlen_nonneg (le_bytes 4 (Zlen ps) ++ params_bytes ps)).
  assert (sz ++ b = sz ++ hb ++ (le_bytes 4 (Zlen ps) ++ params_bytes ps)) as E by (by rewrite Hb).
  rewrite E. rewrite (ParseHeader_spec _ sz h t) by (done || (fold hb; unfold sz; rewrite Zlen_le_bytes; lia)).
  fold hb. cbn [obind]. rewrite (app_assoc sz hb).
  rewrite (ParseCustomizedParams_spec _ (sz ++ hb) ps); ev_simpl.
  - do 2 f_equal. unfold sz. rewrite Zlen_app, Zlen_le_bytes. lia.
  - done.
  - by rewrite Zlen_app.
  - done.
  - unfold sz. rewrite Zlen_app, Zlen_le_bytes. lia.
Qed.

Context `{HP : Heap} `{!HeapTotal HP}.

Lemma DecodedEvent_new_spec h t ps junk :
  header_ok h → trace_ok t → params_ok ps →
  Zlen (event_block h t ps) <= MAX_BLOCK_SIZE →
  DecodedEvent_new (Some (event_block h t ps ++ junk)) (Zlen (event_block h t ps)) =
    Done (mkDecodedEvent (Some (event_block h t ps)) (Zlen (event_block h t ps)) h
            (opened_trace h t) true ps).
Proof.
  intros Hh Ht Hps Hsize. unfold DecodedEvent_new.
  assert (GetValidDataMinimumByteCount <= Zlen (event_block h t ps)) as Hmin.
  { unfold event_block, event_body. rewrite !Zlen_app, !Zlen_le_bytes.
    pose proof Hh as (Hd & Hn & _). rewrite header_bytes_len by done.
    pose proof (Zlen_nonneg (if isTraceOpened h =? 1 then trace_bytes t else [])).
    pose proof (Zlen_nonneg (params_bytes ps)). unfold GetValidDataMinimumByteCount,
      SIZEOF_INT32, SIZEOF_HEADER. lia. }
  unfold GetValidDataMinimumByteCount, SIZEOF_INT32, SIZEOF_HEADER, MAX_BLOCK_SIZE in *.
  zcase; [lia|].
  assert (ReadInt32 (event_block h t ps ++ junk) 0 = Done (Zlen (event_block h t ps))) as HR.
  { unfold event_block in *. rewrite Zlen_app, Zlen_le_bytes in *.
    pose proof (ReadInt32_app [] (4 + Zlen (event_body h t ps)) (event_body h t ps ++ junk)) as E.
    cbn [app] in E. change (Zlen []) with 0 in E. rewrite <- app_assoc. apply E. lia. }
  rewrite HR. cbn [obind]. rewrite u64_small by (split; lia).
  rewrite Z.eqb_refl. cbn [negb orb].
  zcase; [lia|]. zcase; [lia|]. cbn [orb].
  destruct (new_bytes_total (Zlen (event_block h t ps))) as [b Hb]; [unfold MEM_MAX; lia|].
  rewrite Hb. apply new_bytes_len in Hb.
  rewrite memcpy_s_copies by (unfold MEM_MAX; rewrite ?Zlen_app; pose proof (Zlen_nonneg junk); lia).
  rewrite take_Zlen, drop_ge, app_nil_r by (unfold Zlen in *; lia).
  by apply Parse_spec.
Qed.

End ParseSpec.
