(* ===== verification/DecodeSafety.v ===== *)
(** * DecodeSafety: decoding arbitrary bytes

    Blocks arrive over a socket.  Whatever their content, [DecodedEvent] reads
    inside the block only, its position never passes the block's end, and it
    reports itself valid only if every announced parameter was decoded. *)

From S2P Require Import Prelude Platform RawData Encoder Decoder Params EventHeader DecodedEvent.
From stdpp Require Import base list numbers.

Local Open Scope Z_scope.
Local Open Scope hv_scope.

(** A reader that stays inside any block at least as long as its limit. *)
Definition safe_reader {A} (r : Reader A) : Prop :=
  ∀ d maxLen pos, 0 <= pos <= maxLen → maxLen <= Zlen d → maxLen < 2 ^ 63 →
    in_bounds pos maxLen (r (Some d) maxLen pos).

Section Readers.

Lemma safe_unsigned : safe_reader UnsignedVarintDecoded.
Proof. intros d maxLen pos ???. by apply UnsignedVarintDecoded_safe. Qed.

Lemma safe_signed : safe_reader SignedVarintDecoded.
Proof.
  intros d maxLen pos Hp Hd Hm. unfold SignedVarintDecoded. zcase; [simpl; lia|].
  apply in_bounds_bind; [by apply safe_unsigned|]. intros p a _ Hpa. done.
Qed.

Lemma drop_Zlen_pos {A} (d : list A) p : 0 <= p <= Zlen d → Zlen (drop (Z.to_nat p) d) = Zlen d - p.
Proof. intros Hp. unfold Zlen in *. rewrite length_drop. lia. Qed.

Lemma UnsignedVarintDecoded_nonneg_loop rest maxLen pos val off p v :
  bytes_ok rest → 0 <= val →
  VarintDecLoop rest maxLen pos val off = DOk p v → 0 <= v.
Proof.
  intros Hb. revert pos val off. induction Hb as [|b rest Hb0 _ IH]; intros pos val off Hv; simpl.
  { zcase; done. }
  repeat zcase; try done.
  - intros [= <- <-]. apply Z.lor_nonneg. split; [done|]. apply Z.mod_pos_bound. lia.
  - apply IH. apply Z.lor_nonneg. split; [done|]. apply Z.mod_pos_bound. lia.
Qed.

Lemma UnsignedVarintDecoded_nonneg d maxLen pos p v :
  bytes_ok d → UnsignedVarintDecoded (Some d) maxLen pos = DOk p v → 0 <= v.
Proof.
  intros Hb. unfold UnsignedVarintDecoded. rewrite Z.geb_leb; destruct (Z.leb_spec maxLen pos); [done|].
  destruct (drop (Z.to_nat pos) d) as [|b rest] eqn:E; [done|].
  assert (bytes_ok (b :: rest)) as Hbr by (rewrite <- E; by apply Forall_drop).
  inversion Hbr as [|? ? Hb0 Hrest]; subst.
  assert (0 <= Z.land b TAG_BYTE_MASK) as Hland by (apply Z.land_nonneg; right; by vm_compute).
  repeat zcase; try done.
  - by intros [= <- <-].
  - by apply UnsignedVarintDecoded_nonneg_loop.
Qed.

End Readers.

Section MoreReaders.

(** Safety on blocks of bytes: enough for the readers whose bound check relies
    on lengths being unsigned. *)
Definition safe_bytes_reader {A} (r : Reader A) : Prop :=
  ∀ d maxLen pos, bytes_ok d → 0 <= pos <= maxLen → maxLen <= Zlen d → maxLen < 2 ^ 63 →
    in_bounds pos maxLen (r (Some d) maxLen pos).

Lemma safe_any {A} (r : Reader A) : safe_reader r → safe_bytes_reader r.
Proof. intros Hr d maxLen pos _. apply Hr. Qed.

Lemma safe_string : safe_bytes_reader ReadString.
Proof.
  intros d maxLen pos Hb Hp Hd Hm. unfold ReadString, StringValueDecoded. zcase; [simpl; lia|].
  apply in_bounds_bind; [by apply safe_unsigned|]. intros p n Hn Hpn.
  apply UnsignedVarintDecoded_nonneg in Hn; [|done].
  destruct (Z.leb_spec n maxLen) as [Hle|Hgt]; [|rewrite gtb_true by done; simpl; lia].
  rewrite gtb_false by done. cbn [orb]. rewrite u64_small by (split; lia).
  destruct (Z.leb_spec (p + n) maxLen); [|rewrite gtb_true by done; simpl; lia].
  rewrite gtb_false by done. zcase; [simpl; lia|].
  rewrite drop_Zlen_pos by lia. destruct (Z.ltb_spec (Zlen d - p) n); [lia|]. simpl. lia.
Qed.

Context `{SC : Securec}.

Lemma safe_copy_out d maxLen pos p n conv :
  0 <= pos <= p → p + n <= maxLen → maxLen <= Zlen d → 0 < n <= MEM_MAX → maxLen < 2 ^ 63 →
  in_bounds pos maxLen (CopyOut d p n conv).
Proof.
  intros Hp Hn Hd Hn0 Hm. unfold CopyOut. rewrite drop_Zlen_pos by lia.
  destruct (Z.ltb_spec (Zlen d - p) n); [lia|].
  destruct (memcpy_s _ _ _ _) as [[] tmp]; [|simpl; lia]. rewrite u64_small by (split; lia).
  simpl. lia.
Qed.

Lemma safe_floating : safe_bytes_reader FloatingNumberDecoded.
Proof.
  intros d maxLen pos Hb Hp Hd Hm. unfold FloatingNumberDecoded.
  rewrite Z.geb_leb. destruct (Z.leb_spec maxLen pos); [simpl; lia|].
  apply in_bounds_bind; [by apply safe_unsigned|]. intros p n Hn Hpn.
  destruct (Z.gtb_spec (u64 (p + n)) maxLen) as [|Hle]; [simpl; lia|].
  zcase; [subst n|zcase; [subst n|simpl; lia]]; rewrite u64_small in Hle by (split; lia);
    apply safe_copy_out; unfold MEM_MAX; lia.
Qed.

Lemma safe_value_type : safe_reader ValueTypeDecoded.
Proof.
  intros d maxLen pos Hp Hd Hm. unfold ValueTypeDecoded.
  rewrite Z.geb_leb. destruct (Z.leb_spec maxLen pos); [simpl; lia|].
  rewrite u64_small by (split; lia). rewrite gtb_false by lia.
  destruct (drop_cons_bound d pos) as [b ->]; [lia|]. simpl. lia.
Qed.

Lemma safe_items {A} (item : Reader A) n vals :
  safe_bytes_reader item → safe_bytes_reader (DecodeItems item n vals).
Proof.
  intros Hi. revert vals. induction n as [|n IH]; intros vals d maxLen pos Hb Hp Hd Hm.
  { simpl. lia. }
  cbn [DecodeItems]. apply in_bounds_bind; [by apply Hi|]. intros p a _ Hpa.
  apply (in_bounds_weaken _ p); [lia|]. apply IH; [done|lia..].
Qed.

Lemma safe_array {A} (item : Reader A) : safe_bytes_reader item → safe_bytes_reader (DecodeArray item).
Proof.
  intros Hi d maxLen pos Hb Hp Hd Hm. unfold DecodeArray.
  apply in_bounds_bind; [by apply safe_unsigned|]. intros p n _ Hpn.
  destruct (n >? MAX_ARRAY_SIZE); [simpl; lia|].
  apply (in_bounds_weaken _ p); [lia|]. apply safe_items; [done|done|lia..].
Qed.

Lemma safe_dmap {A B} (f : A → B) r : safe_bytes_reader r → safe_bytes_reader (dmap f r).
Proof.
  intros Hr d maxLen pos Hb Hp Hd Hm. apply in_bounds_bind; [by apply Hr|].
  intros p a _ Hpa. done.
Qed.

Lemma safe_value t : safe_bytes_reader (DecodeValue t).
Proof.
  destruct t; cbn [DecodeValue]; apply safe_dmap; try apply safe_array;
    auto using safe_any, safe_unsigned, safe_signed, safe_floating, safe_string.
Qed.

End MoreReaders.

(** ** The event *)

(** The outcome satisfies [P], or is the over-long shift of a varint; it never
    reads out of bounds. *)
Definition safe_outcome {A} (P : A → Prop) (o : outcome A) : Prop :=
  match o with
  | Done a => P a
  | Undefined UB_Shift => True
  | Undefined _ => False
  end.

Definition event_in (d : bytes) (maxLen : Z) (e : DecodedEvent) : Prop :=
  rawData_ e = Some d ∧ 0 <= pos_ e <= maxLen.

Ltac ev_solve :=
  cbn [obind safe_outcome fst]; unfold event_in; ev_simpl; split_and!; solve [done | auto | lia].

(** The bytes of trace info behind a header. *)
Definition trace_size (h : HiSysEventHeader) : Z :=
  if isTraceOpened h =? 1 then SIZEOF_TRACE_INFO else 0.

(** The parameter count a block announces, given its header. *)
Definition announced (d : bytes) (h : HiSysEventHeader) : Z :=
  s32 (le_value (take 4 (drop (Z.to_nat (SIZEOF_INT32 + SIZEOF_HEADER + trace_size h)) d))).

Section Event.
Context `{SC : Securec}.

Lemma safe_outcome_bind {A B} (P : A → Prop) (Q : B → Prop) m (k : A → outcome B) :
  safe_outcome P m → (∀ a, P a → safe_outcome Q (k a)) → safe_outcome Q (obind m k).
Proof. destruct m as [a|[]]; simpl; auto. Qed.

Lemma safe_outcome_impl {A} (P Q : A → Prop) o :
  (∀ a, P a → Q a) → safe_outcome P o → safe_outcome Q o.
Proof. destruct o as [a|[]]; simpl; auto. Qed.

Lemma ReadAt_safe d pos n :
  0 <= pos → 0 <= n → pos + n <= Zlen d →
  ReadAt d pos n = Done (take (Z.to_nat n) (drop (Z.to_nat pos) d)).
Proof.
  intros Hp Hn Hd. unfold ReadAt. destruct (Z.ltb_spec (Zlen (take (Z.to_nat n)
    (drop (Z.to_nat pos) d))) n) as [H|]; [|done].
  unfold Zlen in *. rewrite length_take, length_drop in H. lia.
Qed.

Variables (d : bytes) (maxLen : Z).
Hypothesis Hbytes : bytes_ok d.
Hypothesis Hlen : 0 <= maxLen <= Zlen d.
Hypothesis Hmax : maxLen < 2 ^ 63.

Lemma ParseHeader_safe e :
  event_in d maxLen e →
  safe_outcome (λ e', event_in d maxLen e' ∧ allParams_ e' = allParams_ e ∧
      (isValid_ e' = true → pos_ e' = pos_ e + SIZEOF_HEADER + trace_size (header_ e')))
    (ParseHeader e d maxLen).
Proof.
  intros [Hr Hp]. unfold ParseHeader, SIZEOF_HEADER, SIZEOF_TRACE_INFO.
  rewrite (u64_small (pos_ e + 81)) by (split; lia).
  destruct (Z.gtb_spec (pos_ e + 81) maxLen); [ev_solve|].
  rewrite ReadAt_safe by lia. cbn [obind]. ev_simpl. unfold trace_size, SIZEOF_TRACE_INFO.
  destruct (isTraceOpened _ =? 1) eqn:Ho; ev_simpl.
  - rewrite (u64_small (pos_ e + 81 + 17)) by (split; lia).
    destruct (Z.gtb_spec (pos_ e + 81 + 17) maxLen);
      [ev_solve|].
    rewrite ReadAt_safe by lia. cbn [obind safe_outcome]. unfold event_in. ev_simpl. rewrite Ho.
    split_and!; solve [done | lia].
  - cbn [safe_outcome]. unfold event_in. ev_simpl. rewrite Ho. split_and!; solve [done | lia].
Qed.

Lemma ParseCustomizedParam_safe e :
  event_in d maxLen e →
  safe_outcome (λ r, event_in d maxLen r.1 ∧ allParams_ r.1 = allParams_ e ∧
                     header_ r.1 = header_ e ∧
                     (isValid_ r.1 = true → isValid_ e = true))
    (ParseCustomizedParam e maxLen).
Proof.
  intros [Hr Hp]. unfold ParseCustomizedParam. rewrite Hr.
  pose proof (safe_string d maxLen (pos_ e) Hbytes Hp ltac:(lia) Hmax) as Hs. unfold ReadString in Hs.
  destruct (StringValueDecoded _ _ _ _) as [p key|p|[]]; simpl in Hs; try done.
  2: { ev_solve. }
  ev_simpl. rewrite Hr.
  pose proof (safe_value_type d maxLen p ltac:(lia) ltac:(lia) Hmax) as Hv.
  destruct (ValueTypeDecoded _ _ _) as [p' vt|p'|[]]; simpl in Hv; try done;
    ev_solve.
Qed.

Lemma ParseParamLoop_safe n e :
  event_in d maxLen e →
  safe_outcome (λ e', event_in d maxLen e' ∧
      (isValid_ e' = true → isValid_ e = true ∧
         length (allParams_ e') = (length (allParams_ e) + n)%nat) ∧
      (length (allParams_ e') <= length (allParams_ e) + n)%nat ∧ header_ e' = header_ e)
    (ParseParamLoop n e maxLen).
Proof.
  revert e. induction n as [|n IH]; intros e He; cbn [ParseParamLoop].
  { simpl. split_and!; try apply He; try lia; [|done]. intros; split; [done|lia]. }
  eapply safe_outcome_bind; [by apply ParseCustomizedParam_safe|].
  intros [e1 [[key t]|]] (He1 & Hps & Hh & Hvalid); cbn [fst] in *.
  2: { simpl. split_and!; ev_simpl; try apply He1; try done. rewrite Hps. lia. }
  destruct He1 as [Hr1 Hp1]. rewrite Hr1.
  pose proof (safe_value t d maxLen (pos_ e1) Hbytes Hp1 ltac:(lia) Hmax) as Hv.
  destruct (DecodeValue t (Some d) maxLen (pos_ e1)) as [p v|p|[]]; simpl in Hv; try done.
  2: { simpl. split_and!; ev_simpl; try done; [lia..|]. rewrite Hps. lia. }
  eapply safe_outcome_impl; [|apply IH; split; ev_simpl; [done|lia]].
  intros e' (He' & Hval & Hcnt & Hhd).
  cbn [add_param set_pos allParams_ isValid_ header_] in *. rewrite length_app, Hps in *. cbn [length] in *.
  split_and!; [apply He'..| |lia|congruence]. intros Hv'. destruct (Hval Hv') as [??]. split; [auto|lia].
Qed.

Lemma ReadInt32_safe pos :
  0 <= pos → pos + 4 <= maxLen →
  ReadInt32 d pos = Done (s32 (le_value (take 4 (drop (Z.to_nat pos) d)))).
Proof. intros Hp Hm. unfold ReadInt32, SIZEOF_INT32. by rewrite ReadAt_safe by lia. Qed.

Lemma ParseCustomizedParams_safe e :
  event_in d maxLen e → allParams_ e = [] →
  (isValid_ e = true → pos_ e = SIZEOF_INT32 + SIZEOF_HEADER + trace_size (header_ e)) →
  safe_outcome (λ e', event_in d maxLen e' ∧ Zlen (allParams_ e') <= MAX_PARAM_CNT ∧
      (isValid_ e' = true → Zlen (allParams_ e') = announced d (header_ e')))
    (ParseCustomizedParams e d maxLen).
Proof.
  intros [Hr Hp] Hnil Hpos. unfold ParseCustomizedParams, SIZEOF_INT32.
  rewrite u64_small by (split; lia).
  assert (Zlen (allParams_ e) <= MAX_PARAM_CNT) as Hz by (by rewrite Hnil).
  destruct (Z.gtb_spec (pos_ e + 4) maxLen); [ev_solve|].
  rewrite ReadInt32_safe by lia. cbn [obind].
  set (cnt := s32 _). destruct (Z.gtb_spec (u64 cnt) MAX_PARAM_CNT) as [|Hcnt]; [ev_solve|].
  eapply safe_outcome_impl; [|apply ParseParamLoop_safe; split; ev_simpl; [done|lia]].
  intros e' (He' & Hval & Hle & Hh). cbn [set_pos allParams_ isValid_ header_] in *.
  rewrite Hnil in *. cbn [length] in *.
  pose proof (Z.mod_pos_bound cnt (2 ^ 64) ltac:(lia)) as Hb. fold (u64 cnt) in Hb.
  split_and!; [apply He'..|unfold Zlen; lia|].
  intros Hv. destruct (Hval Hv) as [Hv0 Hl]. rewrite Hh. unfold announced.
  rewrite <- (Hpos Hv0). fold cnt. unfold Zlen. rewrite Hl.
  assert (is_s 32 cnt) as Hc by by apply is_s_sgn.
  unfold MAX_PARAM_CNT, u64, is_s in *. change (2 ^ (32 - 1)) with (2 ^ 31) in Hc.
  destruct (Z.le_gt_cases 0 cnt).
  - rewrite Z.mod_small in * by lia. lia.
  - replace (cnt mod 2 ^ 64) with (cnt + 2 ^ 64) in *
      by (rewrite <- (Z.mod_add cnt 1), Z.mod_small by lia; lia). lia.
Qed.

End Event.

(** A 32-bit length field that reads as a small size is that size. *)
Lemma le_word_small bs :
  bytes_ok bs → Zlen bs <= 4 → u64 (s32 (le_value bs)) < 2 ^ 31 →
  u64 (s32 (le_value bs)) = le_value bs.
Proof.
  intros Hb Hl. pose proof (le_value_bound bs Hb) as [Hlo Hhi].
  assert (2 ^ (8 * Zlen bs) <= 2 ^ 32) as Hp by (apply Z.pow_le_mono_r; lia).
  unfold s32, sgn. rewrite Z.mod_small by lia. change (2 ^ (32 - 1)) with (2 ^ 31). zcase.
  - intros _. apply Z.mod_small. lia.
  - unfold u64. rewrite <- (Z.mod_add _ 1), Z.mod_small by lia. lia.
Qed.

(** What a decoded event may claim about the block [d] it was given. *)
Definition decoded_safely (d : bytes) (len : Z) (e : DecodedEvent) : Prop :=
  0 <= pos_ e <= len ∧ Zlen (allParams_ e) <= MAX_PARAM_CNT ∧
  (isValid_ e = true →
     GetValidDataMinimumByteCount <= len <= MAX_BLOCK_SIZE ∧ le_value (take 4 d) = len ∧
     Zlen (allParams_ e) = announced (take (Z.to_nat len) d) (header_ e)).

Section Claims.
Context `{HP : Heap} `{SC : Securec}.

Lemma Parse_safe d len :
  bytes_ok d → Zlen d = len → GetValidDataMinimumByteCount <= len <= MAX_BLOCK_SIZE →
  u64 (s32 (le_value (take 4 d))) = len →
  safe_outcome (λ e, event_in d len e ∧ Zlen (allParams_ e) <= MAX_PARAM_CNT ∧
      (isValid_ e = true → Zlen (allParams_ e) = announced d (header_ e)))
    (Parse (mkDecodedEvent (Some d) 0 header_init traceInfo_init false [])).
Proof.
  intros Hb Hl Hmin Hsize. unfold GetValidDataMinimumByteCount, MAX_BLOCK_SIZE, SIZEOF_INT32,
    SIZEOF_HEADER in Hmin. unfold Parse. ev_simpl.
  rewrite (ReadInt32_safe d len) by (try split; lia). cbn [obind].
  change (drop (Z.to_nat 0) d) with d. rewrite Hsize.
  change (u64 (0 + SIZEOF_INT32)) with 4.
  eapply safe_outcome_bind.
  { apply ParseHeader_safe; [lia|lia|]. split; ev_simpl; [done|lia]. }
  intros e (He & Hps & Hpos). cbn [set_pos set_valid allParams_ pos_] in Hps, Hpos.
  apply ParseCustomizedParams_safe; [done|lia|lia|done|done|]. intros Hv. by apply Hpos.
Qed.

(** C2: decoding any byte block, however malformed, never reads outside it:
    the only undefined behaviour left is the shift of an over-long varint.  The
    event's position stays within the block, it never holds more than 138
    parameters, and it calls itself valid only if the block states its own
    length and as many parameters were decoded as the block announces. *)
Theorem decoded_event_safe d len :
  bytes_ok d → 0 <= len <= Zlen d →
  safe_outcome (decoded_safely d len) (DecodedEvent_new (Some d) len).
Proof.
  intros Hb Hl. unfold DecodedEvent_new.
  assert (safe_outcome (decoded_safely d len) (Done DecodedEvent_init)) as Hinit
    by (unfold decoded_safely; cbn; split_and!; done || lia).
  destruct (Z.ltb_spec len SIZEOF_INT32) as [|H4]; [exact Hinit|]. unfold SIZEOF_INT32 in H4.
  unfold ReadInt32, SIZEOF_INT32. rewrite ReadAt_safe by lia. cbn [obind].
  change (take (Z.to_nat 4) (drop (Z.to_nat 0) d)) with (take 4 d).
  destruct (Z.eqb_spec (u64 (s32 (le_value (take 4 d)))) len) as [Hs|]; [|exact Hinit].
  rewrite Hs. destruct (Z.ltb_spec len GetValidDataMinimumByteCount); [exact Hinit|].
  destruct (Z.gtb_spec len MAX_BLOCK_SIZE) as [|Hmax]; [exact Hinit|]. cbn [negb orb].
  unfold MAX_BLOCK_SIZE in Hmax.
  destruct (new_bytes len) as [blk|] eqn:Hnew; [|exact Hinit]. apply new_bytes_len in Hnew.
  rewrite memcpy_s_copies by (unfold MEM_MAX; lia). rewrite (drop_ge blk), app_nil_r
    by (unfold Zlen in *; lia).
  set (d' := take (Z.to_nat len) d).
  assert (take 4 d' = take 4 d) as E4 by (unfold d'; rewrite take_take; f_equal; lia).
  eapply safe_outcome_impl; [|apply (Parse_safe d' len)].
  - intros e ([_ Hp] & Hcnt & Hv). split_and!; try done; [lia..|]. intros Hval.
    split_and!; [done..| |by apply Hv].
    rewrite <- Hs. symmetry. apply le_word_small; [by apply Forall_take| |rewrite Hs; lia].
    unfold Zlen. rewrite length_take. lia.
  - by apply Forall_take.
  - unfold d', Zlen in *. rewrite length_take. lia.
  - done.
  - by rewrite E4.
Qed.

End Claims.

(** A block that stops inside its parameter count. *)
Lemma decoded_event_safe_witness :
  safe_outcome (decoded_safely (le_bytes 4 87 ++ replicate 83 0) 87)
    (DecodedEvent_new (Some (le_bytes 4 87 ++ replicate 83 0)) 87).
Proof.
  apply (decoded_event_safe (le_bytes 4 87 ++ replicate 83 0) 87);
    [by apply (bool_decide_unpack _)|by vm_compute].
Defined.

(** A well-formed frame whose one parameter has a key length of eleven
    continuation bytes. *)
Definition overlong_block : bytes :=
  le_bytes 4 100 ++ replicate 81 0 ++ le_bytes 4 1 ++ replicate 11 255.

(** a varint with more continuation bytes than a 64-bit value needs makes
    the decoder shift by 64 or more, which is undefined. *)
Theorem overlong_varint_undefined :
  DecodedEvent_new (Some overlong_block) 100 = Undefined UB_Shift.
Proof. by vm_compute. Qed.
