(* ===== verification/Builder.v ===== *)
(** * Builder: assembling raw events

    Models base/event_raw/include/encoded/raw_data_builder.h and
    base/event_raw/encoded/raw_data_builder.cpp.  A builder is its header, its
    trace info and the list of parameters; each [AppendXxx] is the function of
    the same name on that state. *)

From S2P Require Import Prelude Platform RawData Encoder Decoder Params EventHeader Text.
From S2P Require DecodedEvent.
From stdpp Require Import base list numbers strings.

Local Open Scope Z_scope.
Local Open Scope hv_scope.

Record RawDataBuilder := mkBuilder {
  header_ : HiSysEventHeader;
  traceInfo_ : TraceInfo;
  allParams_ : list EncodedParam
}.

Definition RawDataBuilder_new : RawDataBuilder := mkBuilder header_init traceInfo_init [].

Definition upd_header (b : RawDataBuilder) (h : HiSysEventHeader) : RawDataBuilder :=
  mkBuilder h (traceInfo_ b) (allParams_ b).
Definition upd_trace (b : RawDataBuilder) (t : TraceInfo) : RawDataBuilder :=
  mkBuilder (header_ b) t (allParams_ b).
Definition upd_params (b : RawDataBuilder) (ps : list EncodedParam) : RawDataBuilder :=
  mkBuilder (header_ b) (traceInfo_ b) ps.

(** ** Header fields *)

Section HeaderFields.
Context `{SC : Securec}.

(** Copy [s] into the [max + 1] bytes of [field] and terminate it. *)
Definition CopyField (field : bytes) (max : Z) (s : bytes) : bytes :=
  let '(_, field') := memcpy_s field (max + 1) (Some s) (Zlen s) in
  let resetPos := Z.min (Zlen s) max in
  <[Z.to_nat resetPos := 0]> field'.

Definition AppendDomain (b : RawDataBuilder) (d : bytes) : RawDataBuilder :=
  let h := header_ b in
  upd_header b (mkHeader (CopyField (domain h) MAX_DOMAIN_LENGTH d) (name h) (timestamp h)
    (timeZone h) (uid h) (pid h) (tid h) (id h) (type h) (isTraceOpened h) (log h)).

Definition AppendName (b : RawDataBuilder) (n : bytes) : RawDataBuilder :=
  let h := header_ b in
  upd_header b (mkHeader (domain h) (CopyField (name h) MAX_EVENT_NAME_LENGTH n) (timestamp h)
    (timeZone h) (uid h) (pid h) (tid h) (id h) (type h) (isTraceOpened h) (log h)).

End HeaderFields.

(** [header_.type] has two bits. *)
Definition AppendType (b : RawDataBuilder) (eventType : Z) : RawDataBuilder :=
  let h := header_ b in
  upd_header b (mkHeader (domain h) (name h) (timestamp h) (timeZone h) (uid h) (pid h) (tid h)
    (id h) (u8 (eventType - 1) mod 4) (isTraceOpened h) (log h)).

Definition AppendTimeStamp (b : RawDataBuilder) (ts : Z) : RawDataBuilder :=
  let h := header_ b in
  upd_header b (mkHeader (domain h) (name h) (u64 ts) (timeZone h) (uid h) (pid h) (tid h)
    (id h) (type h) (isTraceOpened h) (log h)).

(** [AppendTimeZone(const uint8_t)] *)
Definition AppendTimeZone_val (b : RawDataBuilder) (tz : Z) : RawDataBuilder :=
  let h := header_ b in
  upd_header b (mkHeader (domain h) (name h) (timestamp h) (u8 tz) (uid h) (pid h) (tid h)
    (id h) (type h) (isTraceOpened h) (log h)).

(** [AppendTimeZone(const std::string&)] *)
Definition AppendTimeZone (b : RawDataBuilder) (tz : bytes) : RawDataBuilder :=
  AppendTimeZone_val b (ParseTimeZone tz).

Definition AppendUid (b : RawDataBuilder) (v : Z) : RawDataBuilder :=
  let h := header_ b in
  upd_header b (mkHeader (domain h) (name h) (timestamp h) (timeZone h) (u32 v) (pid h) (tid h)
    (id h) (type h) (isTraceOpened h) (log h)).

Definition AppendPid (b : RawDataBuilder) (v : Z) : RawDataBuilder :=
  let h := header_ b in
  upd_header b (mkHeader (domain h) (name h) (timestamp h) (timeZone h) (uid h) (u32 v) (tid h)
    (id h) (type h) (isTraceOpened h) (log h)).

Definition AppendTid (b : RawDataBuilder) (v : Z) : RawDataBuilder :=
  let h := header_ b in
  upd_header b (mkHeader (domain h) (name h) (timestamp h) (timeZone h) (uid h) (pid h) (u32 v)
    (id h) (type h) (isTraceOpened h) (log h)).

Definition AppendLog (b : RawDataBuilder) (v : Z) : RawDataBuilder :=
  let h := header_ b in
  upd_header b (mkHeader (domain h) (name h) (timestamp h) (timeZone h) (uid h) (pid h) (tid h)
    (id h) (type h) (isTraceOpened h) (u8 v)).

Definition AppendId (b : RawDataBuilder) (v : Z) : RawDataBuilder :=
  let h := header_ b in
  upd_header b (mkHeader (domain h) (name h) (timestamp h) (timeZone h) (uid h) (pid h) (tid h)
    (u64 v) (type h) (isTraceOpened h) (log h)).

(** [AppendId(const std::string&)] *)
Definition AppendId_str (b : RawDataBuilder) (s : bytes) : RawDataBuilder :=
  AppendId b (stream_unsigned 64 10 s).

Definition OpenTraceFlag (b : RawDataBuilder) : RawDataBuilder :=
  let h := header_ b in
  upd_header b (mkHeader (domain h) (name h) (timestamp h) (timeZone h) (uid h) (pid h) (tid h)
    (id h) (type h) 1 (log h)).

Definition AppendTraceId (b : RawDataBuilder) (v : Z) : RawDataBuilder :=
  let t := traceInfo_ b in
  upd_trace (OpenTraceFlag b) (mkTraceInfo (traceFlag t) (u64 v) (spanId t) (pSpanId t)).
Definition AppendSpanId (b : RawDataBuilder) (v : Z) : RawDataBuilder :=
  let t := traceInfo_ b in
  upd_trace (OpenTraceFlag b) (mkTraceInfo (traceFlag t) (traceId t) (u32 v) (pSpanId t)).
Definition AppendPSpanId (b : RawDataBuilder) (v : Z) : RawDataBuilder :=
  let t := traceInfo_ b in
  upd_trace (OpenTraceFlag b) (mkTraceInfo (traceFlag t) (traceId t) (spanId t) (u32 v)).
Definition AppendTraceFlag (b : RawDataBuilder) (v : Z) : RawDataBuilder :=
  let t := traceInfo_ b in
  upd_trace (OpenTraceFlag b) (mkTraceInfo (u8 v) (traceId t) (spanId t) (pSpanId t)).
Definition AppendTraceInfo (b : RawDataBuilder) (tid sid psid flag : Z) : RawDataBuilder :=
  upd_trace (OpenTraceFlag b) (mkTraceInfo (u8 flag) (u64 tid) (u32 sid) (u32 psid)).

Definition GetDomain (b : RawDataBuilder) : bytes := c_str (domain (header_ b)).
Definition GetName (b : RawDataBuilder) : bytes := c_str (name (header_ b)).
Definition GetEventType (b : RawDataBuilder) : Z := type (header_ b) + 1.
Definition GetParamCnt (b : RawDataBuilder) : Z := Zlen (allParams_ b).

Definition AllBaseInfoKeys : list bytes := [
  BASE_INFO_KEY_DOMAIN; BASE_INFO_KEY_NAME; BASE_INFO_KEY_TYPE; BASE_INFO_KEY_TIME_STAMP;
  BASE_INFO_KEY_LOG; BASE_INFO_KEY_TIME_ZONE; BASE_INFO_KEY_ID; BASE_INFO_KEY_PID;
  BASE_INFO_KEY_TID; BASE_INFO_KEY_UID; BASE_INFO_KEY_TRACE_ID; BASE_INFO_KEY_SPAN_ID;
  BASE_INFO_KEY_PARENT_SPAN_ID; BASE_INFO_KEY_TRACE_FLAG].

Definition IsBaseInfo (key : bytes) : bool := bool_decide (key ∈ AllBaseInfoKeys).

(** ** Parameters *)

(** The search of [AppendValue]: replace the first entry with that key, or add
    at the end. *)
Fixpoint ReplaceOrAdd (param : EncodedParam) (ps : list EncodedParam) : list EncodedParam :=
  match ps with
  | [] => [param]
  | p :: ps =>
      if bool_decide (GetKey p = GetKey param) then param :: ps
      else p :: ReplaceOrAdd param ps
  end.

Fixpoint EraseFirst (paramName : bytes) (ps : list EncodedParam) : list EncodedParam :=
  match ps with
  | [] => []
  | p :: ps => if bool_decide (GetKey p = paramName) then ps else p :: EraseFirst paramName ps
  end.

Definition RemoveParam (b : RawDataBuilder) (paramName : bytes) : RawDataBuilder :=
  upd_params b (EraseFirst paramName (allParams_ b)).

Fixpoint FindParam (key : bytes) (ps : list EncodedParam) : option EncodedParam :=
  match ps with
  | [] => None
  | p :: ps => if bool_decide (GetKey p = key) then Some p else FindParam key ps
  end.

Definition GetValue (b : RawDataBuilder) (key : bytes) : option EncodedParam :=
  FindParam key (allParams_ b).

(** An argument of [AppendValue<T>]: the C++ type and the value. *)
Inductive CppVal :=
  | CString (s : bytes)
  | CBool (b : bool)
  | CInt (w v : Z)
  | CUint (w v : Z)
  | CFloat (T : FloatTy) (v : Z)
  | CStringVec (ss : list bytes)
  | CBoolVec (bs : list bool)
  | CIntVec (w : Z) (vs : list Z)
  | CUintVec (w : Z) (vs : list Z)
  | CFloatVec (T : FloatTy) (vs : list Z).

Definition to_double (T : FloatTy) (v : Z) : Z :=
  match T with TFloat => float_to_double v | TDouble => v end.

Section Params.
Context `{HP : Heap} `{SC : Securec}.

(** [AppendValue(std::shared_ptr<EncodedParam>)]; [None] is a null pointer. *)
Definition AppendParam (b : RawDataBuilder) (param : option EncodedParam) : RawDataBuilder :=
  match param with
  | None => b
  | Some p =>
      let '(ok, p') := Encode p in
      if ok then upd_params b (ReplaceOrAdd p' (allParams_ b)) else b
  end.

Definition AppendArrayValue (b : RawDataBuilder) (key : bytes) (v : CppVal) : RawDataBuilder :=
  match v with
  | CStringVec ss => AppendParam b (Some (StringEncodedArrayParam key ss))
  | CFloatVec T vs =>
      AppendParam b (Some (FloatingNumberEncodedArrayParam TDouble key (to_double T <$> vs)))
  | CBoolVec bs =>
      AppendParam b (Some (SignedVarintEncodedArrayParam key ((λ x : bool, Z.b2z x) <$> bs)))
  | CIntVec _ vs => AppendParam b (Some (SignedVarintEncodedArrayParam key (s64 <$> vs)))
  | CUintVec _ vs => AppendParam b (Some (UnsignedVarintEncodedArrayParam key (u64 <$> vs)))
  | _ => b
  end.

(** [UpdateTraceId] and its siblings: text is hexadecimal. *)
Definition UpdateTrace (b : RawDataBuilder) (w : Z) (append : RawDataBuilder → Z → RawDataBuilder)
    (v : CppVal) : RawDataBuilder :=
  match v with
  | CString s => append b (stream_unsigned w 16 s)
  | CUint _ x => append b (x mod 2 ^ w)
  | _ => b
  end.

Definition UpdateUnsigned (b : RawDataBuilder) (w : Z)
    (append : RawDataBuilder → Z → RawDataBuilder) (v : CppVal) : RawDataBuilder :=
  match v with CUint _ x => append b (x mod 2 ^ w) | _ => b end.

Definition UpdateId (b : RawDataBuilder) (v : CppVal) : RawDataBuilder :=
  match v with
  | CString s => AppendId_str b s
  | CUint _ x => AppendId b (u64 x)
  | _ => b
  end.

(** [AppendBaseInfoValue]: the handler of each reserved key. *)
Definition AppendBaseInfoValue (b : RawDataBuilder) (key : bytes) (v : CppVal) : RawDataBuilder :=
  if bool_decide (key = BASE_INFO_KEY_DOMAIN) then
    match v with CString s => AppendDomain b s | _ => b end
  else if bool_decide (key = BASE_INFO_KEY_NAME) then
    match v with CString s => AppendName b s | _ => b end
  else if bool_decide (key = BASE_INFO_KEY_TYPE) then
    match v with CUint _ x => AppendType b (s32 x) | _ => b end
  else if bool_decide (key = BASE_INFO_KEY_TIME_STAMP) then
    match v with CUint 64 x => AppendTimeStamp b x | _ => b end
  else if bool_decide (key = BASE_INFO_KEY_TIME_ZONE) then
    match v with CString s => AppendTimeZone b s | _ => b end
  else if bool_decide (key = BASE_INFO_KEY_ID) then UpdateId b v
  else if bool_decide (key = BASE_INFO_KEY_PID) then UpdateUnsigned b 32 AppendPid v
  else if bool_decide (key = BASE_INFO_KEY_TID) then UpdateUnsigned b 32 AppendTid v
  else if bool_decide (key = BASE_INFO_KEY_UID) then UpdateUnsigned b 32 AppendUid v
  else if bool_decide (key = BASE_INFO_KEY_LOG) then UpdateUnsigned b 8 AppendLog v
  else if bool_decide (key = BASE_INFO_KEY_TRACE_ID) then UpdateTrace b 64 AppendTraceId v
  else if bool_decide (key = BASE_INFO_KEY_SPAN_ID) then UpdateTrace b 32 AppendSpanId v
  else if bool_decide (key = BASE_INFO_KEY_PARENT_SPAN_ID) then UpdateTrace b 32 AppendPSpanId v
  else if bool_decide (key = BASE_INFO_KEY_TRACE_FLAG) then UpdateUnsigned b 8 AppendTraceFlag v
  else b.

(** [AppendValue<T>] *)
Definition AppendValue (b : RawDataBuilder) (key : bytes) (v : CppVal) : RawDataBuilder :=
  if IsBaseInfo key then AppendBaseInfoValue b key v else
  match v with
  | CString s => AppendParam b (Some (StringEncodedParam key s))
  | CFloat T x => AppendParam b (Some (FloatingNumberEncodedParam TDouble key (to_double T x)))
  | CBool x => AppendParam b (Some (SignedVarintEncodedParam key (Z.b2z x)))
  | CInt _ x => AppendParam b (Some (SignedVarintEncodedParam key (s64 x)))
  | CUint _ x => AppendParam b (Some (UnsignedVarintEncodedParam key (u64 x)))
  | _ => AppendArrayValue b key v
  end.

End Params.

(** ** Building the block *)

Section Building.
Context `{HP : Heap} `{SC : Securec}.

Definition BuildHeader (b : RawDataBuilder) : Writer :=
  AppendBytes (header_bytes (header_ b)) >&&
  (if isTraceOpened (header_ b) =? 1 then AppendBytes (trace_bytes (traceInfo_ b))
   else λ r, (true, r)).

(** [any_of] over the parameters: stops at the first copy that fails.  The
    parameters are returned because [GetRawData] may encode one. *)
Fixpoint BuildCustomizedParams (ps : list EncodedParam) (dest : RawData)
    : bool * RawData * list EncodedParam :=
  match ps with
  | [] => (true, dest, [])
  | p :: ps =>
      let '(r, p') := GetRawData p in
      let rawData := RawData_copy r in
      let '(ok, dest') := Append dest (GetData rawData) (GetDataLength rawData) in
      if ok then
        let '(ok, dest'', ps') := BuildCustomizedParams ps dest' in (ok, dest'', p' :: ps')
      else (false, dest', p' :: ps)
  end.

(** [Build]: [None] is the null pointer; a failure past the header still
    returns the buffer, with the block size left at 0. *)
Definition Build (b : RawDataBuilder) : option RawData * RawDataBuilder :=
  let '(ok, r) := AppendBytes (le_bytes 4 0) RawData_new in
  if negb ok then (None, b) else
  let '(ok, r) := BuildHeader b r in
  if negb ok then (None, b) else
  let paramCnt := GetParamCnt b in
  let '(ok, r) := AppendBytes (le_bytes 4 (u32 paramCnt)) r in
  if negb ok then (Some r, b) else
  let '(ok, r, ps) := BuildCustomizedParams (allParams_ b) r in
  let b := upd_params b ps in
  if negb ok then (Some r, b) else
  let blockSize := GetDataLength r in
  let '(_, r) := Update r (Some (le_bytes 4 (u32 blockSize))) SIZEOF_INT32 0 in
  (Some r, b).

(** ** Rebuilding from a decoded block *)

(** [InitValueParams]: the scalars in order; [InitArrayValueParams]: then the
    arrays. *)
Definition InitScalar (b : RawDataBuilder) (p : DecodedEvent.DecodedParam) : RawDataBuilder :=
  let key := DecodedEvent.dkey_ p in
  match GetDataCodedType (DecodedEvent.dval_ p) with
  | UNSIGNED_VARINT =>
      match AsUint64 (DecodedEvent.dval_ p) with
      | Some v => AppendParam b (Some (UnsignedVarintEncodedParam key v))
      | None => b
      end
  | SIGNED_VARINT =>
      match AsInt64 (DecodedEvent.dval_ p) with
      | Some v => AppendParam b (Some (SignedVarintEncodedParam key v))
      | None => b
      end
  | FLOATING =>
      match AsDouble (DecodedEvent.dval_ p) with
      | Some v => AppendParam b (Some (FloatingNumberEncodedParam TDouble key v))
      | None => b
      end
  | DSTRING =>
      match DecodedEvent.dval_ p with
      | PString v => AppendParam b (Some (StringEncodedParam key v))
      | _ => b
      end
  | _ => b
  end.

Definition InitArray (b : RawDataBuilder) (p : DecodedEvent.DecodedParam) : RawDataBuilder :=
  let key := DecodedEvent.dkey_ p in
  match GetDataCodedType (DecodedEvent.dval_ p) with
  | UNSIGNED_VARINT_ARRAY =>
      match AsUint64Vec (DecodedEvent.dval_ p) with
      | Some v => AppendParam b (Some (UnsignedVarintEncodedArrayParam key v))
      | None => b
      end
  | SIGNED_VARINT_ARRAY =>
      match AsInt64Vec (DecodedEvent.dval_ p) with
      | Some v => AppendParam b (Some (SignedVarintEncodedArrayParam key v))
      | None => b
      end
  | FLOATING_ARRAY =>
      match AsDoubleVec (DecodedEvent.dval_ p) with
      | Some v => AppendParam b (Some (FloatingNumberEncodedArrayParam TDouble key v))
      | None => b
      end
  | DSTRING_ARRAY =>
      match AsStringVec (DecodedEvent.dval_ p) with
      | Some v => AppendParam b (Some (StringEncodedArrayParam key v))
      | None => b
      end
  | _ => b
  end.

Definition InitArrayValueParams (b : RawDataBuilder) (ps : list DecodedEvent.DecodedParam)
    : RawDataBuilder := foldl InitArray b ps.

Definition InitValueParams (b : RawDataBuilder) (ps : list DecodedEvent.DecodedParam)
    : RawDataBuilder := InitArrayValueParams (foldl InitScalar b ps) ps.

(** The body of [RawDataBuilder(std::shared_ptr<RawData>)] once the event is
    decoded. *)
Definition FromDecoded (e : DecodedEvent.DecodedEvent) : RawDataBuilder :=
  let header := DecodedEvent.header_ e in
  let traceInfo := DecodedEvent.traceInfo_ e in
  let b := AppendDomain RawDataBuilder_new (c_str (domain header)) in
  let b := AppendName b (c_str (name header)) in
  let b := AppendType b (type header + 1) in
  let b := AppendTimeStamp b (timestamp header) in
  let b := AppendTimeZone_val b (timeZone header) in
  let b := AppendLog b (log header) in
  let b := AppendUid b (uid header) in
  let b := AppendPid b (pid header) in
  let b := AppendTid b (tid header) in
  let b := AppendId b (id header) in
  let b := if isTraceOpened header =? 1 then
             AppendTraceInfo b (traceId traceInfo) (spanId traceInfo) (pSpanId traceInfo)
               (traceFlag traceInfo)
           else b in
  InitValueParams b (DecodedEvent.allParams_ e).

(** [RawDataBuilder(std::shared_ptr<RawData>)] *)
Definition RawDataBuilder_from (rawData : option RawData) : DecodedEvent.outcome RawDataBuilder :=
  match rawData with
  | None => DecodedEvent.Done RawDataBuilder_new
  | Some r =>
      DecodedEvent.obind (DecodedEvent.DecodedEvent_new (GetData r) (GetDataLength r)) (λ e,
        let header := DecodedEvent.header_ e in
        if terminated (domain header) && terminated (name header)
        then DecodedEvent.Done (FromDecoded e)
        else DecodedEvent.Undefined UB_OutOfBounds)
  end.

(** [RawDataBuilder(domain, name, eventType)] *)
Definition RawDataBuilder_named (d n : bytes) (eventType : Z) : RawDataBuilder :=
  AppendType (AppendName (AppendDomain RawDataBuilder_new d) n) eventType.

End Building.

(** ** Reading a builder *)

(** The type [T] a caller asks [ParseValueByKey<T>] for. *)
Inductive CppTy :=
  | TyString | TyInt (w : Z) | TyUint (w : Z) | TyDouble
  | TyStringVec | TyIntVec | TyUintVec | TyDoubleVec.

(** [ParseValue<T, V>] for an unsigned field, the [int] event type, text. *)
Definition ParseUnsigned (T : CppTy) (from : Z) : option CppVal :=
  match T with TyUint w => Some (CUint w (from mod 2 ^ w)) | _ => None end.
Definition ParseInt (T : CppTy) (from : Z) : option CppVal :=
  match T with TyInt w => Some (CInt w (sgn w from)) | _ => None end.
Definition ParseText (T : CppTy) (from : bytes) : option CppVal :=
  match T with TyString => Some (CString from) | _ => None end.

Definition ParseTimeZoneFromHeader (T : CppTy) (tz : Z) : option CppVal :=
  match T with
  | TyUint w => Some (CUint w (tz mod 2 ^ w))
  | TyString => Some (CString (ParseTimeZone_val tz))
  | _ => None
  end.

Definition ParseAndSetTraceInfo (T : CppTy) (from : Z) : option CppVal :=
  match T with
  | TyString => Some (CString (TransNumToHexStr from))
  | _ => ParseUnsigned T from
  end.

Definition GetBaseInfoValueByKey (b : RawDataBuilder) (key : bytes) (T : CppTy) : option CppVal :=
  let h := header_ b in
  let t := traceInfo_ b in
  if bool_decide (key = BASE_INFO_KEY_DOMAIN) then ParseText T (c_str (domain h))
  else if bool_decide (key = BASE_INFO_KEY_NAME) then ParseText T (c_str (name h))
  else if bool_decide (key = BASE_INFO_KEY_TYPE) then ParseInt T (type h + 1)
  else if bool_decide (key = BASE_INFO_KEY_TIME_STAMP) then ParseUnsigned T (timestamp h)
  else if bool_decide (key = BASE_INFO_KEY_TIME_ZONE) then ParseTimeZoneFromHeader T (timeZone h)
  else if bool_decide (key = BASE_INFO_KEY_ID) then ParseUnsigned T (id h)
  else if bool_decide (key = BASE_INFO_KEY_PID) then ParseUnsigned T (pid h)
  else if bool_decide (key = BASE_INFO_KEY_TID) then ParseUnsigned T (tid h)
  else if bool_decide (key = BASE_INFO_KEY_UID) then ParseUnsigned T (uid h)
  else if bool_decide (key = BASE_INFO_KEY_LOG) then ParseUnsigned T (log h)
  else if bool_decide (key = BASE_INFO_KEY_TRACE_ID) then ParseAndSetTraceInfo T (traceId t)
  else if bool_decide (key = BASE_INFO_KEY_SPAN_ID) then ParseAndSetTraceInfo T (spanId t)
  else if bool_decide (key = BASE_INFO_KEY_PARENT_SPAN_ID) then ParseAndSetTraceInfo T (pSpanId t)
  else if bool_decide (key = BASE_INFO_KEY_TRACE_FLAG) then ParseUnsigned T (traceFlag t)
  else None.

(** The requested type must be the one of the stored kind. *)
Definition GetArrayValueByKey (v : PValue) (T : CppTy) : option CppVal :=
  match GetDataCodedType v, T with
  | UNSIGNED_VARINT_ARRAY, TyUintVec => CUintVec 64 <$> AsUint64Vec v
  | SIGNED_VARINT_ARRAY, TyIntVec => CIntVec 64 <$> AsInt64Vec v
  | FLOATING_ARRAY, TyDoubleVec => CFloatVec TDouble <$> AsDoubleVec v
  | DSTRING_ARRAY, TyStringVec => CStringVec <$> AsStringVec v
  | _, _ => None
  end.

Definition GetValueByKey (b : RawDataBuilder) (key : bytes) (T : CppTy) : option CppVal :=
  p ← GetValue b key;
  let v := pval_ p in
  match GetDataCodedType v with
  | UNSIGNED_VARINT =>
      match T with TyUint 64 => CUint 64 <$> AsUint64 v | _ => None end
  | SIGNED_VARINT =>
      match T with TyInt 64 => CInt 64 <$> AsInt64 v | _ => None end
  | FLOATING =>
      match T with TyDouble => CFloat TDouble <$> AsDouble v | _ => None end
  | DSTRING =>
      match T, v with TyString, PString s => Some (CString s) | _, _ => None end
  | _ => GetArrayValueByKey v T
  end.

Definition ParseValueByKey (b : RawDataBuilder) (key : bytes) (T : CppTy) : option CppVal :=
  if IsBaseInfo key then GetBaseInfoValueByKey b key T else GetValueByKey b key T.
