(* ===== verification/BuilderFacts.v ===== *)
(** * BuilderFacts: what [RawDataBuilder] guarantees

    The builder's invariant, the block [Build] produces, the round trip through
    [DecodedEvent], and rebuilding a builder from a block. *)

From S2P Require Import Prelude Platform RawData Encoder Decoder Params EventHeader Text.
From S2P Require Import Builder.
From S2P Require DecodedEvent.
From stdpp Require Import base list numbers strings.

Local Open Scope Z_scope.
Local Open Scope hv_scope.

(** The key and value a parameter carries. *)
Definition carried (p : EncodedParam) : DecodedEvent.DecodedParam :=
  DecodedEvent.mkDecodedParam (key_ p) (pval_ p).

Definition builder_params (b : RawDataBuilder) : list DecodedEvent.DecodedParam :=
  carried <$> allParams_ b.

(** The builder's invariant: fields in range, domain and name terminated, every
    parameter encoded, keys distinct. *)
Definition builder_ok (b : RawDataBuilder) : Prop :=
  (header_ok (header_ b) ∧ 0 ∈ domain (header_ b) ∧ 0 ∈ name (header_ b)) ∧
  trace_ok (traceInfo_ b) ∧
  Forall (λ p, encoded p ∧ value_ok (pval_ p)) (allParams_ b) ∧
  NoDup (key_ <$> allParams_ b).

(** The block of a builder. *)
Definition builder_block (b : RawDataBuilder) : bytes :=
  DecodedEvent.event_block (header_ b) (traceInfo_ b) (builder_params b).

Section BuildSpec.
Context `{HP : Heap} `{SC : Securec} `{!HeapTotal HP}.

Lemma param_bytes_pos key v : 1 <= Zlen (param_bytes key v).
Proof.
  unfold param_bytes, lstring. rewrite !Zlen_app.
  pose proof (uvarint_len LENGTH_DELIMITED (Zlen key)). pose proof (Zlen_nonneg key).
  pose proof (Zlen_nonneg (type_bytes v)). pose proof (Zlen_nonneg (value_bytes v)). lia.
Qed.

Lemma RawData_copy_spec r :
  usable r → 0 < len_ r →
  RawData_copy r = mkRawData (Some (contents r)) (len_ r) (len_ r).
Proof.
  intros Hu Hl. pose proof Hu as [[Hlen Hd] [[d E] Hcap]]. rewrite E in Hd.
  unfold RawData_copy, GetDataLength, GetData. zcase; [lia|].
  destruct (new_bytes_total (len_ r)) as [blk Hn]; [unfold MEM_MAX; lia|]. rewrite Hn.
  apply new_bytes_len in Hn. rewrite E, memcpy_s_copies by (unfold MEM_MAX; lia).
  unfold contents. rewrite E. rewrite (drop_ge blk), app_nil_r by (unfold Zlen in *; lia). done.
Qed.

Lemma encoded_len p : encoded p → len_ (rawData_ p) = Zlen (param_bytes (key_ p) (pval_ p)).
Proof.
  intros (_ & Hu & Hc). rewrite <- Hc. symmetry. apply Zlen_contents; by destruct Hu as [? [? _]].
Qed.

Lemma BuildCustomizedParams_spec ps : ∀ dest,
  Forall encoded ps → usable dest →
  len_ dest + Zlen (DecodedEvent.params_bytes (carried <$> ps)) <= LEN_MAX →
  ∃ dest', BuildCustomizedParams ps dest = (true, dest', ps) ∧ usable dest' ∧
    contents dest' = contents dest ++ DecodedEvent.params_bytes (carried <$> ps).
Proof.
  induction ps as [|p ps IH]; intros dest HF Hu HL.
  { exists dest. split_and!; [done..|]. by rewrite app_nil_r. }
  inversion HF as [|? ? Hp HF']; subst.
  pose proof Hp as (He & Hup & Hcp). pose proof (encoded_len p Hp) as Hl.
  pose proof (param_bytes_pos (key_ p) (pval_ p)).
  set (rest := DecodedEvent.params_bytes (carried <$> ps)) in *.
  assert (DecodedEvent.params_bytes (carried <$> p :: ps)
          = param_bytes (key_ p) (pval_ p) ++ rest) as HE by done.
  rewrite HE, Zlen_app in *. pose proof (Zlen_nonneg rest).
  cbn [BuildCustomizedParams]. unfold GetRawData. rewrite He.
  rewrite RawData_copy_spec by (done || lia). unfold GetData, GetDataLength; cbn [data_ len_].
  rewrite Hl, Hcp. destruct (Append_spec dest (param_bytes (key_ p) (pval_ p)))
    as (d1 & E1 & Hu1 & Hc1); [done|lia|].
  rewrite E1. destruct (IH d1) as (d2 & E2 & Hu2 & Hc2); [done..| |].
  { rewrite <- (Zlen_contents d1), Hc1, Zlen_app, Zlen_contents; try lia;
      first [by destruct Hu | by destruct Hu as [? [? _]] | by destruct Hu1 as [? [? _]]]. }
  rewrite E2. exists d2. split_and!; [done..|]. rewrite Hc2, Hc1. by rewrite <- app_assoc.
Qed.

Lemma Build_header_spec b :
  appends (BuildHeader b)
    (header_bytes (header_ b) ++
     (if isTraceOpened (header_ b) =? 1 then trace_bytes (traceInfo_ b) else [])).
Proof.
  apply appends_then; [apply appends_bytes|]. zcase; [apply appends_bytes|apply appends_nil].
Qed.

Lemma usable_len r : usable r → len_ r = Zlen (contents r).
Proof. intros [Hw [Hd _]]. by rewrite Zlen_contents. Qed.

Lemma andthen_true (f g : Writer) r r' :
  (f >&& g) r = (true, r') → ∃ r1, f r = (true, r1) ∧ g r1 = (true, r').
Proof. unfold andthen. destruct (f r) as [[] r1]; [eauto|done]. Qed.

(** Everything in front of the parameters, with the block size left open. *)
Definition prefix_bytes (size : Z) (b : RawDataBuilder) : bytes :=
  le_bytes 4 size ++
  (header_bytes (header_ b) ++
   (if isTraceOpened (header_ b) =? 1 then trace_bytes (traceInfo_ b) else [])) ++
  le_bytes 4 (u32 (GetParamCnt b)).

Lemma Build_prefix b :
  appends (AppendBytes (le_bytes 4 0) >&& BuildHeader b >&&
           AppendBytes (le_bytes 4 (u32 (GetParamCnt b)))) (prefix_bytes 0 b).
Proof.
  apply appends_then; [apply appends_bytes|].
  apply appends_then; [apply Build_header_spec|apply appends_bytes].
Qed.

Lemma params_count_le ps : Zlen ps <= Zlen (DecodedEvent.params_bytes ps).
Proof.
  induction ps as [|p ps IH]; [done|].
  unfold DecodedEvent.params_bytes in *. cbn [fmap list_fmap concat].
  rewrite Zlen_cons, Zlen_app.
  pose proof (param_bytes_pos (DecodedEvent.dkey_ p) (DecodedEvent.dval_ p)). lia.
Qed.

Lemma builder_block_prefix b :
  Zlen (builder_params b) < 2 ^ 32 →
  builder_block b =
    prefix_bytes (Zlen (builder_block b)) b ++ DecodedEvent.params_bytes (builder_params b).
Proof.
  intros Hc. assert (u32 (GetParamCnt b) = Zlen (builder_params b)) as E.
  { unfold GetParamCnt, builder_params, Zlen in *. rewrite length_fmap in *.
    apply u32_small. split; lia. }
  unfold prefix_bytes. rewrite E.
  unfold builder_block, DecodedEvent.event_block, DecodedEvent.event_body.
  rewrite (Zlen_app (le_bytes _ _)), Zlen_le_bytes, <- !app_assoc. done.
Qed.

(** What [Build] returns: a buffer that holds exactly the block. *)
Lemma Build_spec b :
  builder_ok b → Zlen (builder_block b) <= LEN_MAX →
  ∃ r, Build b = (Some r, b) ∧ usable r ∧ contents r = builder_block b.
Proof.
  intros (_ & _ & HF & _) HL.
  set (ps := builder_params b). set (pb := DecodedEvent.params_bytes ps).
  assert (Zlen ps < 2 ^ 32 ∧ Zlen (builder_block b) = Zlen (prefix_bytes 0 b) + Zlen pb)
    as [Hcnt Hlen].
  { pose proof (params_count_le ps). pose proof (Zlen_nonneg (header_bytes (header_ b))).
    pose proof (Zlen_nonneg (trace_bytes (traceInfo_ b))).
    unfold LEN_MAX, builder_block, DecodedEvent.event_block, DecodedEvent.event_body,
      prefix_bytes in *. fold ps pb in HL |- *.
    rewrite !Zlen_app, !Zlen_le_bytes in *. fold pb in H.
    destruct (isTraceOpened (header_ b) =? 1); change (Zlen []) with 0 in *; lia. }
  pose proof (Zlen_nonneg pb). pose proof (Zlen_nonneg (builder_block b)). unfold LEN_MAX in HL.
  destruct (Build_prefix b RawData_new) as (r3 & E3 & Hu3 & Hc3).
  { apply usable_new. }
  { rewrite (usable_len RawData_new), contents_new by apply usable_new.
    change (Zlen []) with 0. unfold LEN_MAX. lia. }
  apply andthen_true in E3 as (r1 & E1 & E3). apply andthen_true in E3 as (r2 & E2 & E3).
  rewrite contents_new in Hc3. cbn [app] in Hc3.
  destruct (BuildCustomizedParams_spec (allParams_ b) r3) as (r4 & E4 & Hu4 & Hc4); [|done| |].
  { eapply Forall_impl; [exact HF|]. by intros ? []. }
  { rewrite (usable_len r3), Hc3 by done. fold (builder_params b) ps pb. unfold LEN_MAX. lia. }
  fold (builder_params b) ps pb in Hc4. rewrite Hc3 in Hc4.
  assert (len_ r4 = Zlen (builder_block b)) as Hl4.
  { rewrite (usable_len r4), Hc4, Zlen_app by done. lia. }
  destruct (Update_spec r4 (le_bytes 4 (Zlen (builder_block b))) 0)
    as (r5 & E5 & Hu5 & _ & Hc5);
    [done|done|lia|
     rewrite Zlen_le_bytes; unfold LEN_MAX; lia|].
  rewrite Zlen_le_bytes in E5, Hc5. exists r5. split_and!; [|done|].
  - unfold Build. rewrite E1. cbn [negb]. rewrite E2. cbn [negb]. rewrite E3. cbn [negb].
    rewrite E4. cbn [negb]. unfold GetDataLength.
    rewrite Hl4, u32_small by (unfold is_u; lia).
    change SIZEOF_INT32 with (Z.of_nat 4). rewrite E5. by destruct b.
  - rewrite Hc5, Hc4. etrans; [|symmetry; by apply builder_block_prefix].
    unfold prefix_bytes. rewrite <- !app_assoc. done.
Qed.

(** Decoding a buffer that holds a builder's block. *)
Lemma block_decode b r :
  builder_ok b → GetParamCnt b <= DecodedEvent.MAX_PARAM_CNT →
  Zlen (builder_block b) <= DecodedEvent.MAX_BLOCK_SIZE →
  usable r → contents r = builder_block b →
  DecodedEvent.DecodedEvent_new (GetData r) (GetDataLength r) =
    DecodedEvent.Done (DecodedEvent.mkDecodedEvent (Some (builder_block b))
      (Zlen (builder_block b)) (header_ b)
      (DecodedEvent.opened_trace (header_ b) (traceInfo_ b)) true (builder_params b)).
Proof.
  intros Hok Hcnt Hsize Hu Hc.
  pose proof (usable_len r Hu) as Hl. rewrite Hc in Hl. unfold GetDataLength, GetData. rewrite Hl.
  destruct Hu as [[Hlen Hd] [[d Ed] _]]. unfold contents in Hc. rewrite Ed in *.
  rewrite <- (take_drop (Z.to_nat (len_ r)) d), Hc.
  destruct Hok as ((Hh & _) & Ht & HF & _).
  apply DecodedEvent.DecodedEvent_new_spec; auto.
  split; [|unfold builder_params, Zlen in *; rewrite length_fmap; done].
  unfold builder_params. apply Forall_fmap. eapply Forall_impl; [exact HF|]. by intros ? [].
Qed.

Lemma Build_block b r :
  builder_ok b → Zlen (builder_block b) <= DecodedEvent.MAX_BLOCK_SIZE →
  Build b = (Some r, b) → usable r ∧ contents r = builder_block b.
Proof.
  intros Hok Hsize HB. unfold DecodedEvent.MAX_BLOCK_SIZE in Hsize.
  destruct (Build_spec b Hok) as (r' & HB' & Hu & Hc); [unfold LEN_MAX; lia|].
  rewrite HB in HB'. injection HB' as <-. done.
Qed.

(** Decoding what was built. *)
Lemma Build_decode b r :
  builder_ok b → GetParamCnt b <= DecodedEvent.MAX_PARAM_CNT →
  Zlen (builder_block b) <= DecodedEvent.MAX_BLOCK_SIZE →
  Build b = (Some r, b) →
  DecodedEvent.DecodedEvent_new (GetData r) (GetDataLength r) =
    DecodedEvent.Done (DecodedEvent.mkDecodedEvent (Some (builder_block b))
      (Zlen (builder_block b)) (header_ b)
      (DecodedEvent.opened_trace (header_ b) (traceInfo_ b)) true (builder_params b)).
Proof.
  intros Hok Hcnt Hsize HB. destruct (Build_block b r Hok Hsize HB). by apply block_decode.
Qed.

End BuildSpec.
