(* ===== verification/BuilderOps.v ===== *)
(** * BuilderOps: the builder as a dictionary of typed parameters

    The builder's invariant is kept by every public operation; seen through
    [dict], its parameters are a finite map that [AppendValue] inserts into and
    [RemoveParam] deletes from; header fields read back as they were set. *)

From S2P Require Import Prelude Platform RawData Encoder Decoder Params EventHeader Text.
From S2P Require Import Builder BuilderFacts.
From S2P Require DecodedEvent.
From stdpp Require Import base list numbers strings gmap.

Local Open Scope Z_scope.
Local Open Scope hv_scope.

(** ** Stored values *)

(** The value a parameter of this C++ argument holds: integers widened to 64
    bits, floating-point numbers to double, arrays cut at 100 items. *)
Definition stored_value (v : CppVal) : PValue :=
  let cut {A} (l : list A) := take (Z.to_nat MAX_ARRAY_SIZE) l in
  match v with
  | CString s => PString s
  | CBool x => PSigned (Z.b2z x)
  | CInt _ x => PSigned (s64 x)
  | CUint _ x => PUnsigned (u64 x)
  | CFloat T x => PFloating TDouble (to_double T x)
  | CStringVec ss => PStringArray (cut ss)
  | CBoolVec xs => PSignedArray (cut ((λ x : bool, Z.b2z x) <$> xs))
  | CIntVec _ xs => PSignedArray (cut (s64 <$> xs))
  | CUintVec _ xs => PUnsignedArray (cut (u64 <$> xs))
  | CFloatVec T xs => PFloatingArray TDouble (cut (to_double T <$> xs))
  end.

(** An argument of a C++ type: floating-point images are 64-bit patterns. *)
Definition cpp_ok (v : CppVal) : Prop :=
  match v with
  | CFloat T x => is_u 64 (to_double T x)
  | CFloatVec T xs => Forall (λ x, is_u 64 (to_double T x)) xs
  | _ => True
  end.

#[global] Instance cpp_ok_dec v : Decision (cpp_ok v).
Proof. destruct v; simpl; apply _. Defined.

(** Small enough for one buffer. *)
Definition fits (key : bytes) (v : CppVal) : Prop :=
  Zlen (param_bytes key (stored_value v)) <= LEN_MAX.

Section Stored.

Lemma is_u_one : is_u 1 1.
Proof. done. Qed.

Lemma is_s_b2z (x : bool) : is_s 64 (Z.b2z x).
Proof. by destruct x. Qed.

Lemma Zlen_cut {A} n (l : list A) : 0 <= n → Zlen (take (Z.to_nat n) l) <= n.
Proof. intros. unfold Zlen. rewrite length_take. lia. Qed.

Lemma Forall_cut {A B} (P : B → Prop) (f : A → B) n l :
  Forall (λ x, P (f x)) l → Forall P (take n (f <$> l)).
Proof. intros HF. apply Forall_take, Forall_fmap. exact HF. Qed.

Lemma stored_value_ok v : cpp_ok v → value_ok (stored_value v).
Proof.
  assert (∀ {A} (l : list A), Zlen (take (Z.to_nat MAX_ARRAY_SIZE) l) <= MAX_ARRAY_SIZE)
    as Hcut by (intros; by apply Zlen_cut).
  destruct v as [s|x|w x|w x|T x|ss|xs|w xs|w xs|T xs]; cbn [cpp_ok stored_value value_ok];
    intros Hv; try done; split_and?; try done; try apply Hcut.
  - apply is_s_b2z.
  - by apply is_s_sgn.
  - by apply is_u_mod.
  - apply Forall_cut, Forall_forall. intros x _. apply is_s_b2z.
  - apply Forall_cut, Forall_forall. intros x _. by apply is_s_sgn.
  - apply Forall_cut, Forall_forall. intros x _. by apply is_u_mod.
  - by apply Forall_cut.
Qed.

End Stored.

(** ** The parameters as a finite map *)

(** Keys to values, the first entry of a key. *)
Definition dict (b : RawDataBuilder) : gmap bytes PValue :=
  list_to_map ((λ p, (key_ p, pval_ p)) <$> allParams_ b).

Section Dict.
Implicit Types ps : list EncodedParam.

Definition entries (ps : list EncodedParam) : list (bytes * PValue) :=
  (λ p, (key_ p, pval_ p)) <$> ps.

Lemma entries_fst ps : (entries ps).*1 = key_ <$> ps.
Proof. unfold entries. by rewrite <- list_fmap_compose. Qed.

Lemma ReplaceOrAdd_map p ps :
  (list_to_map (entries (ReplaceOrAdd p ps)) : gmap bytes PValue) =
    <[key_ p := pval_ p]> (list_to_map (entries ps)).
Proof.
  induction ps as [|q ps IH]; [done|]. cbn [ReplaceOrAdd]. unfold GetKey.
  destruct (bool_decide_reflect (key_ q = key_ p)) as [E|E]; cbn.
  - by rewrite E, insert_insert_eq.
  - unfold entries in *. rewrite IH. by apply insert_insert_ne.
Qed.

Lemma ReplaceOrAdd_keys p ps :
  key_ <$> ReplaceOrAdd p ps =
    if bool_decide (key_ p ∈ key_ <$> ps) then key_ <$> ps else (key_ <$> ps) ++ [key_ p].
Proof.
  induction ps as [|q ps IH]; [done|]. cbn [ReplaceOrAdd]. unfold GetKey.
  destruct (bool_decide_reflect (key_ q = key_ p)) as [E|E]; cbn [fmap list_fmap].
  - rewrite bool_decide_true by (rewrite E; left). by rewrite E.
  - rewrite IH. clear IH. change (list_fmap EncodedParam bytes key_ ps) with (key_ <$> ps).
    rewrite (bool_decide_ext (key_ p ∈ key_ q :: (key_ <$> ps)) (key_ p ∈ key_ <$> ps))
      by (rewrite elem_of_cons; split; [intros [?|?]; congruence|auto]).
    by case_bool_decide.
Qed.

Lemma ReplaceOrAdd_NoDup p ps : NoDup (key_ <$> ps) → NoDup (key_ <$> ReplaceOrAdd p ps).
Proof.
  intros Hn. rewrite ReplaceOrAdd_keys. case_bool_decide; [done|].
  apply NoDup_app. split_and!; [done| |apply NoDup_singleton].
  intros x Hx ->%list_elem_of_singleton. done.
Qed.

Lemma ReplaceOrAdd_Forall (P : EncodedParam → Prop) p ps :
  P p → Forall P ps → Forall P (ReplaceOrAdd p ps).
Proof. intros Hp. induction 1; simpl; [by constructor|]. case_bool_decide; by constructor. Qed.

Lemma EraseFirst_sublist k ps : EraseFirst k ps `sublist_of` ps.
Proof.
  induction ps as [|q ps IH]; simpl; [done|]. case_bool_decide; [by apply sublist_cons|].
  by apply sublist_skip.
Qed.

Lemma EraseFirst_map k ps :
  NoDup (key_ <$> ps) →
  (list_to_map (entries (EraseFirst k ps)) : gmap bytes PValue) =
    delete k (list_to_map (entries ps)).
Proof.
  induction ps as [|q ps IH]; intros Hn; [cbn; by rewrite delete_empty|].
  cbn [fmap list_fmap] in Hn. apply NoDup_cons in Hn as [Hq Hn]. cbn [EraseFirst]. unfold GetKey.
  destruct (bool_decide_reflect (key_ q = k)) as [E|E]; cbn.
  - subst k. rewrite delete_insert_id; [done|].
    apply not_elem_of_list_to_map_1. fold (entries ps). by rewrite entries_fst.
  - unfold entries in *. rewrite IH by done. by rewrite delete_insert_ne.
Qed.

Lemma FindParam_map k ps :
  pval_ <$> FindParam k ps = (list_to_map (entries ps) : gmap bytes PValue) !! k.
Proof.
  induction ps as [|q ps IH]; [done|]. cbn [FindParam]. unfold GetKey.
  destruct (bool_decide_reflect (key_ q = k)) as [E|E]; cbn.
  - subst k. by rewrite lookup_insert_eq.
  - unfold entries in IH. by rewrite IH, lookup_insert_ne.
Qed.

End Dict.

(** ** Text fields *)

Section TextFields.
Context `{SC : Securec}.

Lemma CopyField_len f max s : Zlen (CopyField f max s) = Zlen f.
Proof.
  unfold CopyField. pose proof (memcpy_s_len f (max + 1) (Some s) (Zlen s)) as Hl.
  destruct (memcpy_s _ _ _ _) as [ok f']. unfold Zlen in *. by rewrite length_insert.
Qed.

Lemma CopyField_terminated f max s :
  0 <= max → Zlen f = max + 1 → 0 ∈ CopyField f max s.
Proof.
  intros Hm Hf. unfold CopyField. pose proof (memcpy_s_len f (max + 1) (Some s) (Zlen s)) as Hl.
  destruct (memcpy_s _ _ _ _) as [ok f']. cbn [snd] in Hl.
  apply list_elem_of_lookup. eexists. apply list_lookup_insert_eq.
  pose proof (Zlen_nonneg s). unfold Zlen in *. lia.
Qed.

(** What the field reads back as, by the length of the text. *)
Lemma CopyField_c_str f max s :
  0 <= max < MEM_MAX → Zlen f = max + 1 → 0 ∉ s →
  c_str (CopyField f max s) =
    if Zlen s <=? max then s
    else if Zlen s =? max + 1 then take (Z.to_nat max) s else [].
Proof.
  intros Hm Hf Hs. pose proof (Zlen_nonneg s). unfold CopyField.
  destruct (Z.leb_spec (Zlen s) (max + 1)) as [Hle|Hgt].
  - rewrite memcpy_s_copies by lia. rewrite take_Zlen_id.
    assert (∃ c r, s ++ drop (Z.to_nat (Zlen s)) f =
      take (Z.to_nat (Z.min (Zlen s) max)) s ++ c :: r) as (c & r & ->).
    { destruct (Z.leb_spec (Zlen s) max).
      - rewrite Z.min_l, take_Zlen_id by lia.
        destruct (drop (Z.to_nat (Zlen s)) f) as [|c r] eqn:E; [|eauto].
        apply (f_equal length) in E. rewrite length_drop in E. unfold Zlen in *. cbn in E. lia.
      - rewrite Z.min_r by lia. rewrite (drop_ge f) by (unfold Zlen in *; lia). rewrite app_nil_r.
        destruct (drop (Z.to_nat max) s) as [|c r] eqn:E.
        + apply (f_equal length) in E. rewrite length_drop in E. unfold Zlen in *. cbn in E. lia.
        + exists c, r. by rewrite <- E, take_drop. }
    rewrite insert_app_r_alt, length_take by (rewrite length_take; unfold Zlen; lia).
    replace (Z.to_nat (Z.min (Zlen s) max) - Z.to_nat (Z.min (Zlen s) max) `min` length s)%nat
      with 0%nat by (unfold Zlen in *; lia).
    cbn [insert list_insert]. rewrite c_str_terminated.
    2:{ intros Hin. apply Hs. revert Hin. apply subseteq_take. }
    repeat zcase; try lia.
    + by rewrite Z.min_r by lia.
    + by rewrite Z.min_l, take_Zlen_id by lia.
  - rewrite memcpy_s_resets by lia. rewrite (drop_ge f), app_nil_r by (unfold Zlen in *; lia).
    rewrite Z.min_r by lia. repeat zcase; try lia.
    replace (Z.to_nat (max + 1)) with (S (Z.to_nat max)) by lia. cbn [replicate].
    destruct (Z.to_nat max); done.
Qed.

End TextFields.

(** ** The invariant *)

Section Invariant.
Context `{HP : Heap} `{SC : Securec} `{!HeapTotal HP}.
Implicit Types b : RawDataBuilder.

Definition header_inv (h : HiSysEventHeader) : Prop :=
  header_ok h ∧ 0 ∈ domain h ∧ 0 ∈ name h.

Lemma builder_new_ok : builder_ok RawDataBuilder_new.
Proof.
  split_and!; [apply header_init_ok|left|left|apply traceInfo_init_ok|constructor|constructor].
Qed.

Lemma upd_header_ok b h : builder_ok b → header_inv h → builder_ok (upd_header b h).
Proof. intros (_ & Ht & HF & Hn) Hh. done. Qed.

Lemma upd_trace_ok b t : builder_ok b → trace_ok t → builder_ok (upd_trace b t).
Proof. intros (Hh & _ & HF & Hn) Ht. done. Qed.

(** Setting numeric header and trace fields keeps every range. *)
Ltac in_range :=
  first [ assumption | apply (is_u_mod 64); lia | apply (is_u_mod 32); lia
        | apply (is_u_mod 8); lia | apply (is_u_mod 2); lia | exact is_u_one ].

Ltac field_ok :=
  intros b; intros;
  match goal with
  | Hb : builder_ok b |- _ =>
      destruct b as [[] [] ps];
      destruct Hb as (((? & ? & ? & ? & ? & ? & ? & ? & ? & ? & ?) & ? & ?) & (? & ? & ? & ?) & ? & ?)
  end;
  unfold builder_ok, header_ok, trace_ok;
  cbn [header_ traceInfo_ allParams_ domain name timestamp timeZone uid pid tid id type
       isTraceOpened log traceFlag traceId spanId pSpanId] in *;
  split_and!; in_range.

Lemma AppendType_ok : ∀ b v, builder_ok b → builder_ok (AppendType b v).
Proof. field_ok. Qed.
Lemma AppendTimeStamp_ok : ∀ b v, builder_ok b → builder_ok (AppendTimeStamp b v).
Proof. field_ok. Qed.
Lemma AppendTimeZone_val_ok : ∀ b v, builder_ok b → builder_ok (AppendTimeZone_val b v).
Proof. field_ok. Qed.
Lemma AppendUid_ok : ∀ b v, builder_ok b → builder_ok (AppendUid b v).
Proof. field_ok. Qed.
Lemma AppendPid_ok : ∀ b v, builder_ok b → builder_ok (AppendPid b v).
Proof. field_ok. Qed.
Lemma AppendTid_ok : ∀ b v, builder_ok b → builder_ok (AppendTid b v).
Proof. field_ok. Qed.
Lemma AppendLog_ok : ∀ b v, builder_ok b → builder_ok (AppendLog b v).
Proof. field_ok. Qed.
Lemma AppendId_ok : ∀ b v, builder_ok b → builder_ok (AppendId b v).
Proof. field_ok. Qed.
Lemma AppendTraceInfo_ok : ∀ b t s p f, builder_ok b → builder_ok (AppendTraceInfo b t s p f).
Proof. field_ok. Qed.
Lemma AppendTraceId_ok : ∀ b v, builder_ok b → builder_ok (AppendTraceId b v).
Proof. field_ok. Qed.
Lemma AppendSpanId_ok : ∀ b v, builder_ok b → builder_ok (AppendSpanId b v).
Proof. field_ok. Qed.
Lemma AppendPSpanId_ok : ∀ b v, builder_ok b → builder_ok (AppendPSpanId b v).
Proof. field_ok. Qed.
Lemma AppendTraceFlag_ok : ∀ b v, builder_ok b → builder_ok (AppendTraceFlag b v).
Proof. field_ok. Qed.

Lemma CopyField_length f n s : length f = n → length (CopyField f (Z.of_nat n - 1) s) = n.
Proof. intros Hf. pose proof (CopyField_len f (Z.of_nat n - 1) s). unfold Zlen in *. lia. Qed.

Lemma AppendDomain_ok b s : builder_ok b → builder_ok (AppendDomain b s).
Proof.
  destruct b as [[] ? ?]. intros (((Hd & Hrest) & _ & Hn) & ?).
  split; [split_and!; [split| |]|done]; cbn in *; try done.
  - by apply (CopyField_length _ 17).
  - apply CopyField_terminated; [done|]. unfold Zlen. by rewrite Hd.
Qed.

Lemma AppendName_ok b s : builder_ok b → builder_ok (AppendName b s).
Proof.
  destruct b as [[] ? ?]. intros (((Hd & Hn & Hrest) & H0 & _) & ?).
  split; [split_and!; [split; [|split]| |]|done]; cbn in *; try done.
  - by apply (CopyField_length _ 33).
  - apply CopyField_terminated; [done|]. unfold Zlen. by rewrite Hn.
Qed.

Lemma RemoveParam_ok b k : builder_ok b → builder_ok (RemoveParam b k).
Proof.
  intros (Hh & Ht & HF & Hn). pose proof (EraseFirst_sublist k (allParams_ b)) as Hsub.
  split_and!; [apply Hh..|done| |]; cbn.
  - rewrite Forall_forall in *. intros p Hp. apply HF. by eapply elem_of_sublist.
  - eapply sublist_NoDup; [exact Hn|]. by apply fmap_sublist.
Qed.

Lemma AppendParam_new b key pv :
  value_ok pv → Zlen (param_bytes key pv) <= LEN_MAX →
  ∃ p, AppendParam b (Some (EncodedParam_new key pv)) =
         upd_params b (ReplaceOrAdd p (allParams_ b)) ∧
    key_ p = key ∧ pval_ p = pv ∧ encoded p.
Proof.
  intros Hv HL. destruct (Encode_new key pv Hv HL) as (p & E & Hk & Hp & He).
  exists p. unfold AppendParam. by rewrite E.
Qed.

Lemma upd_params_ok b p :
  builder_ok b → encoded p → value_ok (pval_ p) →
  builder_ok (upd_params b (ReplaceOrAdd p (allParams_ b))).
Proof.
  intros (Hh & Ht & HF & Hn) He Hv. split_and!; [apply Hh..|done| |]; cbn.
  - by apply ReplaceOrAdd_Forall.
  - by apply ReplaceOrAdd_NoDup.
Qed.

Lemma AppendValue_new b key v :
  IsBaseInfo key = false → AppendValue b key v =
    AppendParam b (Some (EncodedParam_new key (stored_value v))).
Proof.
  intros Hk. unfold AppendValue. rewrite Hk.
  destruct v; cbn [AppendArrayValue stored_value];
    unfold StringEncodedArrayParam, SignedVarintEncodedArrayParam, UnsignedVarintEncodedArrayParam,
      FloatingNumberEncodedArrayParam; rewrite ?CopyLimited_take; done.
Qed.

Lemma AppendValue_param b key v :
  IsBaseInfo key = false → cpp_ok v → fits key v →
  ∃ p, AppendValue b key v = upd_params b (ReplaceOrAdd p (allParams_ b)) ∧
    key_ p = key ∧ pval_ p = stored_value v ∧ encoded p.
Proof.
  intros Hk Hv HL. rewrite AppendValue_new by done.
  apply AppendParam_new; [by apply stored_value_ok|done].
Qed.

End Invariant.

#[export] Hint Resolve AppendType_ok AppendTimeStamp_ok AppendTimeZone_val_ok AppendUid_ok
  AppendPid_ok AppendTid_ok AppendLog_ok AppendId_ok AppendTraceInfo_ok AppendTraceId_ok
  AppendSpanId_ok AppendPSpanId_ok AppendTraceFlag_ok AppendDomain_ok AppendName_ok
  RemoveParam_ok : hv.

Section Calls.
Context `{HP : Heap} `{SC : Securec} `{!HeapTotal HP}.
Implicit Types b : RawDataBuilder.

Lemma AppendBaseInfoValue_ok b key v : builder_ok b → builder_ok (AppendBaseInfoValue b key v).
Proof.
  intros Hb. unfold AppendBaseInfoValue, UpdateId, UpdateUnsigned, UpdateTrace, AppendId_str,
    AppendTimeZone.
  repeat (case_bool_decide; [destruct v as [| | |w| | | | | |]; auto with hv|]); auto.
  destruct w as [|w|w]; auto. repeat (destruct w as [w|w|]; auto with hv).
Qed.

Lemma AppendValue_ok b key v :
  builder_ok b → cpp_ok v → (IsBaseInfo key = false → fits key v) →
  builder_ok (AppendValue b key v).
Proof.
  intros Hb Hv HL. destruct (IsBaseInfo key) eqn:Hk.
  - unfold AppendValue. rewrite Hk. by apply AppendBaseInfoValue_ok.
  - destruct (AppendValue_param b key v Hk Hv (HL eq_refl)) as (p & -> & _ & Hp & He).
    apply upd_params_ok; [done..|]. rewrite Hp. by apply stored_value_ok.
Qed.

(** A call of the builder's public interface. *)
Inductive BuilderCall :=
  | CallDomain (s : bytes) | CallName (s : bytes) | CallType (v : Z) | CallTimeStamp (v : Z)
  | CallTimeZone (s : bytes) | CallTimeZoneVal (v : Z) | CallUid (v : Z) | CallPid (v : Z)
  | CallTid (v : Z) | CallLog (v : Z) | CallId (v : Z) | CallIdStr (s : bytes)
  | CallTraceId (v : Z) | CallSpanId (v : Z) | CallPSpanId (v : Z) | CallTraceFlag (v : Z)
  | CallTraceInfo (t s p f : Z) | CallValue (key : bytes) (v : CppVal) | CallRemove (key : bytes).

Definition run_call (b : RawDataBuilder) (c : BuilderCall) : RawDataBuilder :=
  match c with
  | CallDomain s => AppendDomain b s
  | CallName s => AppendName b s
  | CallType v => AppendType b v
  | CallTimeStamp v => AppendTimeStamp b v
  | CallTimeZone s => AppendTimeZone b s
  | CallTimeZoneVal v => AppendTimeZone_val b v
  | CallUid v => AppendUid b v
  | CallPid v => AppendPid b v
  | CallTid v => AppendTid b v
  | CallLog v => AppendLog b v
  | CallId v => AppendId b v
  | CallIdStr s => AppendId_str b s
  | CallTraceId v => AppendTraceId b v
  | CallSpanId v => AppendSpanId b v
  | CallPSpanId v => AppendPSpanId b v
  | CallTraceFlag v => AppendTraceFlag b v
  | CallTraceInfo t s p f => AppendTraceInfo b t s p f
  | CallValue key v => AppendValue b key v
  | CallRemove key => RemoveParam b key
  end.

Definition call_ok (c : BuilderCall) : Prop :=
  match c with
  | CallValue key v => cpp_ok v ∧ (IsBaseInfo key = false → fits key v)
  | _ => True
  end.

Lemma run_call_ok b c : builder_ok b → call_ok c → builder_ok (run_call b c).
Proof.
  intros Hb. destruct c; cbn; intros Hc; unfold AppendId_str, AppendTimeZone; auto with hv.
  destruct Hc. by apply AppendValue_ok.
Qed.

Lemma run_calls_ok cs b : builder_ok b → Forall call_ok cs → builder_ok (foldl run_call b cs).
Proof.
  intros Hb HF. revert b Hb. induction HF as [|c cs Hc _ IH]; intros b Hb; [done|].
  by apply IH, run_call_ok.
Qed.

(** What each call does to the dictionary. *)
Definition dict_call (c : BuilderCall) (m : gmap bytes PValue) : gmap bytes PValue :=
  match c with
  | CallValue key v => if IsBaseInfo key then m else <[key := stored_value v]> m
  | CallRemove key => delete key m
  | _ => m
  end.

Lemma AppendBaseInfoValue_params b key v :
  allParams_ (AppendBaseInfoValue b key v) = allParams_ b.
Proof.
  unfold AppendBaseInfoValue, UpdateId, UpdateUnsigned, UpdateTrace.
  repeat (case_bool_decide; [destruct v as [| | |w| | | | | |]; auto|]); auto.
  destruct w as [|w|w]; auto. repeat (destruct w as [w|w|]; auto).
Qed.

Lemma dict_call_spec b c :
  builder_ok b → call_ok c → dict (run_call b c) = dict_call c (dict b).
Proof.
  intros Hb Hc. destruct c as [| | | | | | | | | | | | | | | | |key v|key]; try done; cbn.
  - destruct Hc as [Hv HL]. destruct (IsBaseInfo key) eqn:Hk.
    + unfold AppendValue, dict. by rewrite Hk, AppendBaseInfoValue_params.
    + destruct (AppendValue_param b key v Hk Hv (HL eq_refl)) as (p & -> & <- & <- & _).
      unfold dict. cbn [allParams_ upd_params]. apply ReplaceOrAdd_map.
  - apply EraseFirst_map. by destruct Hb as (_ & _ & _ & Hn).
Qed.

End Calls.

(** ** Reading back *)

(** The type a caller reads a stored argument with, and what it gets. *)
Definition read_type (v : CppVal) : CppTy :=
  match v with
  | CString _ => TyString
  | CBool _ | CInt _ _ => TyInt 64
  | CUint _ _ => TyUint 64
  | CFloat _ _ => TyDouble
  | CStringVec _ => TyStringVec
  | CBoolVec _ | CIntVec _ _ => TyIntVec
  | CUintVec _ _ => TyUintVec
  | CFloatVec _ _ => TyDoubleVec
  end.

Definition read_value (v : CppVal) : CppVal :=
  match stored_value v with
  | PUnsigned x => CUint 64 x
  | PSigned x => CInt 64 x
  | PFloating _ x => CFloat TDouble x
  | PString s => CString s
  | PUnsignedArray xs => CUintVec 64 xs
  | PSignedArray xs => CIntVec 64 xs
  | PFloatingArray _ xs => CFloatVec TDouble xs
  | PStringArray ss => CStringVec ss
  end.

(** [GetValueByKey] on the stored value alone. *)
Definition read_stored (v : PValue) (T : CppTy) : option CppVal :=
  match v, T with
  | PUnsigned v, TyUint 64 => Some (CUint 64 (u64 v))
  | PSigned v, TyInt 64 => Some (CInt 64 (s64 v))
  | PFloating _ _ as v, TyDouble => CFloat TDouble <$> AsDouble v
  | PString s, TyString => Some (CString s)
  | PUnsignedArray vs, TyUintVec => Some (CUintVec 64 (u64 <$> vs))
  | PSignedArray vs, TyIntVec => Some (CIntVec 64 (s64 <$> vs))
  | PFloatingArray _ _ as v, TyDoubleVec => CFloatVec TDouble <$> AsDoubleVec v
  | PStringArray ss, TyStringVec => Some (CStringVec ss)
  | _, _ => None
  end.

Section ReadBack.

Lemma u64_u64 x : u64 (u64 x) = u64 x.
Proof. apply u64_small. by apply is_u_mod. Qed.

Lemma s64_s64 x : s64 (s64 x) = s64 x.
Proof. apply sgn_small; [done|]. by apply is_s_sgn. Qed.

Lemma s64_b2z (x : bool) : s64 (Z.b2z x) = Z.b2z x.
Proof. by destruct x. Qed.

Lemma cut_fmap {A} (f : Z → Z) (g : A → Z) n (xs : list A) :
  (∀ x, f (g x) = g x) → f <$> take n (g <$> xs) = take n (g <$> xs).
Proof.
  intros Hf. rewrite <- fmap_take, <- list_fmap_compose.
  apply list_fmap_ext. intros ? x _. apply Hf.
Qed.

Lemma read_stored_value v : read_stored (stored_value v) (read_type v) = Some (read_value v).
Proof.
  destruct v; cbn [stored_value read_type read_stored read_value AsDouble AsDoubleVec];
    rewrite ?u64_u64, ?s64_s64, ?s64_b2z, ?cut_fmap by auto using u64_u64, s64_s64, s64_b2z;
    done.
Qed.

Lemma GetValueByKey_dict b key T : GetValueByKey b key T = dict b !! key ≫= λ v, read_stored v T.
Proof.
  unfold GetValueByKey, GetValue, dict. fold (entries (allParams_ b)).
  rewrite <- FindParam_map. by destruct (FindParam key (allParams_ b)) as [[? []]|].
Qed.

Lemma upd_params_base b ps key T :
  GetBaseInfoValueByKey (upd_params b ps) key T = GetBaseInfoValueByKey b key T.
Proof. done. Qed.

Context `{HP : Heap} `{SC : Securec} `{!HeapTotal HP}.

(** whatever sequence of calls a builder receives, it keeps its invariant:
    header and trace fields stay in the range of their bit widths, domain and
    name stay NUL-terminated, each parameter holds exactly its encoding and no
    two parameters share a key. *)
Theorem builder_invariant cs :
  Forall call_ok cs → builder_ok (foldl run_call RawDataBuilder_new cs).
Proof. apply run_calls_ok, builder_new_ok. Qed.

(** C27: seen as a finite map from keys to typed values, the builder refines the
    map operations: [AppendValue] on a customized key is insertion of the value
    widened to 64 bits (arrays cut at 100 items), [RemoveParam] is deletion, and
    no other call touches it. *)
Theorem builder_refines_map cs :
  Forall call_ok cs →
  dict (foldl run_call RawDataBuilder_new cs) = foldl (λ m c, dict_call c m) ∅ cs.
Proof.
  intros HF. change (∅ : gmap bytes PValue) with (dict RawDataBuilder_new).
  generalize builder_new_ok. generalize RawDataBuilder_new as b.
  induction HF as [|c cs Hc _ IH]; intros b Hb; [done|]. cbn [foldl].
  rewrite IH by by apply run_call_ok. by rewrite dict_call_spec.
Qed.

(** a value appended under a customized key reads back as the same value
    widened to 64 bits when asked for at its kind, and every other key reads as
    before. *)
Theorem append_value_read_back b key v :
  builder_ok b → IsBaseInfo key = false → cpp_ok v → fits key v →
  ParseValueByKey (AppendValue b key v) key (read_type v) = Some (read_value v) ∧
  ∀ key' T, key' ≠ key →
    ParseValueByKey (AppendValue b key v) key' T = ParseValueByKey b key' T.
Proof.
  intros Hb Hk Hv HL. pose proof (dict_call_spec b (CallValue key v) Hb (conj Hv (λ _, HL))) as Hd.
  cbn [run_call dict_call] in Hd. rewrite Hk in Hd. unfold ParseValueByKey. split.
  - rewrite Hk, GetValueByKey_dict, Hd, lookup_insert_eq. apply read_stored_value.
  - intros key' T Hne. destruct (IsBaseInfo key').
    + destruct (AppendValue_param b key v Hk Hv HL) as (p & -> & _). apply upd_params_base.
    + by rewrite !GetValueByKey_dict, Hd, lookup_insert_ne.
Qed.

(** After [RemoveParam] the key is gone, and every other key reads as
    before. *)
Theorem remove_param_read_back b key :
  builder_ok b →
  GetValue (RemoveParam b key) key = None ∧
  ∀ key' T, key' ≠ key → ParseValueByKey (RemoveParam b key) key' T = ParseValueByKey b key' T.
Proof.
  intros Hb. pose proof (dict_call_spec b (CallRemove key) Hb I) as Hd.
  cbn [run_call dict_call] in Hd. split.
  - apply (fmap_None pval_). unfold GetValue. rewrite FindParam_map.
    change (dict (RemoveParam b key) !! key = None). by rewrite Hd, lookup_delete_eq.
  - intros key' T Hne. unfold ParseValueByKey. destruct (IsBaseInfo key'); [done|].
    by rewrite !GetValueByKey_dict, Hd, lookup_delete_ne.
Qed.

(** A domain or name reads back unchanged up to its maximum length (16 and
    32); a text one byte longer is truncated; anything longer leaves the field
    empty, since [memcpy_s] resets the destination. *)
Theorem text_field_read_back b s :
  builder_ok b → 0 ∉ s →
  GetDomain (AppendDomain b s) =
    (if Zlen s <=? 16 then s else if Zlen s =? 17 then take 16 s else []) ∧
  GetName (AppendName b s) =
    (if Zlen s <=? 32 then s else if Zlen s =? 33 then take 32 s else []).
Proof.
  intros (((Hd & Hn & _) & _) & _) Hs.
  unfold GetDomain, GetName, AppendDomain, AppendName. cbn [header_ upd_header domain name].
  split; (rewrite CopyField_c_str; [done|done|by unfold Zlen; rewrite ?Hd, ?Hn|done]).
Qed.

(** Event types 1 to 4 and the listed time zones read back as they were
    set; an unknown time zone reads back as UTC. *)
Theorem type_and_zone_read_back b t tz :
  1 <= t <= 4 →
  GetEventType (AppendType b t) = t ∧
  ParseValueByKey (AppendTimeZone b tz) BASE_INFO_KEY_TIME_ZONE TyString =
    Some (CString (if bool_decide (tz ∈ ALL_TIME_ZONES) then tz else str "+0000")).
Proof.
  intros Ht. split.
  - unfold GetEventType, AppendType. cbn [header_ upd_header type].
    rewrite u8_small, Z.mod_small by (try split; lia). lia.
  - change (Some (CString (ParseTimeZone_val (u8 (ParseTimeZone tz)))) =
      Some (CString (if bool_decide (tz ∈ ALL_TIME_ZONES) then tz else str "+0000"))).
    do 2 f_equal. case_bool_decide as Hin.
    + assert (Forall (λ z, ParseTimeZone_val (u8 (ParseTimeZone z)) = z) ALL_TIME_ZONES) as HF
        by (repeat constructor).
      rewrite Forall_forall in HF. by apply HF.
    + unfold ParseTimeZone. by rewrite find_index_None.
Qed.

(** A trace id given in hexadecimal text switches tracing on, is stored as
    its number and reads back as the same text. *)
Theorem trace_id_read_back b n :
  is_u 64 n →
  let b' := AppendValue b BASE_INFO_KEY_TRACE_ID (CString (TransNumToHexStr n)) in
  isTraceOpened (header_ b') = 1 ∧ traceId (traceInfo_ b') = n ∧
  ParseValueByKey b' BASE_INFO_KEY_TRACE_ID TyString = Some (CString (TransNumToHexStr n)).
Proof.
  intros Hn b'. assert (b' = AppendTraceId b n) as ->.
  { transitivity (AppendTraceId b (stream_unsigned 64 16 (TransNumToHexStr n))); [done|].
    by rewrite stream_hex. }
  split_and!; [done| |].
  - by apply u64_small.
  - change (Some (CString (TransNumToHexStr (u64 n))) = Some (CString (TransNumToHexStr n))).
    by rewrite u64_small.
Qed.

End ReadBack.

(** ** A sample event *)

(** A builder with a text, a number and an array. *)
Definition sample_calls : list BuilderCall := [
  CallDomain (str "HIVIEW"); CallName (str "SAMPLE"); CallType 1; CallTimeStamp 1700000000;
  CallTraceId 255; CallValue (str "LIST") (CUintVec 32 [1; 2; 3]);
  CallValue (str "TEXT") (CString (str "hello")); CallValue (str "NUM") (CInt 32 (-7))].

Definition sample_builder : RawDataBuilder := foldl run_call RawDataBuilder_new sample_calls.

Lemma sample_calls_ok : Forall call_ok sample_calls.
Proof. repeat constructor; vm_compute; congruence. Qed.

Lemma sample_builder_ok : builder_ok sample_builder.
Proof. apply run_calls_ok; [apply builder_new_ok|apply sample_calls_ok]. Qed.

Lemma builder_invariant_witness : builder_ok (foldl run_call RawDataBuilder_new sample_calls).
Proof. apply (builder_invariant sample_calls). apply sample_calls_ok. Defined.

Lemma builder_refines_map_witness :
  dict (foldl run_call RawDataBuilder_new sample_calls) !! str "NUM" = Some (PSigned (-7)).
Proof. rewrite (builder_refines_map sample_calls sample_calls_ok). by vm_compute. Defined.

Lemma append_value_read_back_witness :
  ParseValueByKey (AppendValue sample_builder (str "TEXT") (CUint 32 5)) (str "TEXT") (TyUint 64) =
    Some (CUint 64 5).
Proof.
  apply (append_value_read_back sample_builder (str "TEXT") (CUint 32 5));
    [apply sample_builder_ok|by vm_compute|done|by vm_compute].
Defined.

Lemma remove_param_read_back_witness :
  GetValue (RemoveParam sample_builder (str "TEXT")) (str "TEXT") = None.
Proof. apply (remove_param_read_back sample_builder (str "TEXT")), sample_builder_ok. Defined.

Lemma text_field_read_back_witness :
  GetDomain (AppendDomain sample_builder (replicate 17 65)) = replicate 16 65 ∧
  GetDomain (AppendDomain sample_builder (replicate 18 65)) = [].
Proof.
  split.
  - rewrite (proj1 (text_field_read_back sample_builder (replicate 17 65) sample_builder_ok
      ltac:(by apply (bool_decide_unpack _)))). by vm_compute.
  - rewrite (proj1 (text_field_read_back sample_builder (replicate 18 65) sample_builder_ok
      ltac:(by apply (bool_decide_unpack _)))). by vm_compute.
Defined.

Lemma type_and_zone_read_back_witness :
  GetEventType (AppendType sample_builder 4) = 4.
Proof. apply (type_and_zone_read_back sample_builder 4 (str "+0800")). lia. Defined.

Lemma trace_id_read_back_witness :
  traceId (traceInfo_ (AppendValue sample_builder BASE_INFO_KEY_TRACE_ID
    (CString (TransNumToHexStr 48879)))) = 48879.
Proof. apply (trace_id_read_back sample_builder 48879). by vm_compute. Defined.
