(* ===== verification/Rebuild.v ===== *)
(** * Rebuild: a builder recovered from the block it built

    [RawDataBuilder(std::shared_ptr<RawData>)] decodes a block and appends what
    it finds.  On a block another builder made, it recovers the header, the
    trace info and the same dictionary; parameters come back with the scalars
    in front of the arrays. *)

From S2P Require Import Prelude Platform RawData Encoder Decoder Params EventHeader Text.
From S2P Require Import Builder BuilderFacts BuilderOps.
From S2P Require DecodedEvent.
From stdpp Require Import base list numbers strings gmap.

Local Open Scope Z_scope.
Local Open Scope hv_scope.

Abbreviation DParam := DecodedEvent.DecodedParam.

Definition is_array (p : DParam) : bool := wire_array (DecodedEvent.dval_ p).

(** Scalars in order, then arrays in order. *)
Definition scalars_first (ps : list DParam) : list DParam :=
  filter (λ p, is_array p = false) ps ++ filter (λ p, is_array p = true) ps.

(** A text field after it was read as a C string and copied to a zeroed field. *)
Definition padded (n : nat) (s : bytes) : bytes := s ++ replicate (n - length s) 0.

Definition padded_header (h : HiSysEventHeader) : HiSysEventHeader :=
  mkHeader (padded 17 (c_str (domain h))) (padded 33 (c_str (name h))) (timestamp h) (timeZone h)
    (uid h) (pid h) (tid h) (id h) (type h) (isTraceOpened h) (log h).

Section Rebuild.
Context `{HP : Heap} `{SC : Securec} `{!HeapTotal HP}.
Implicit Types (b : RawDataBuilder) (ps : list DParam).

Definition param_fits (p : DParam) : Prop :=
  value_ok (DecodedEvent.dval_ p) ∧
  Zlen (param_bytes (DecodedEvent.dkey_ p) (DecodedEvent.dval_ p)) <= LEN_MAX.

Definition append_decoded b (p : DParam) : RawDataBuilder :=
  AppendParam b (Some (EncodedParam_new (DecodedEvent.dkey_ p) (DecodedEvent.dval_ p))).

Lemma fmap_small (f : Z → Z) (P : Z → Prop) xs :
  (∀ x, P x → f x = x) → Forall P xs → f <$> xs = xs.
Proof. intros Hf. induction 1; [done|]. cbn. rewrite Hf by done. by f_equal. Qed.

Lemma CopyLimited_id {A} (xs : list A) : Zlen xs <= MAX_ARRAY_SIZE → CopyLimited 0 xs = xs.
Proof. intros Hl. rewrite CopyLimited_take. apply take_ge. unfold Zlen in Hl. lia. Qed.

Lemma s64_small z : is_s 64 z → s64 z = z.
Proof. by apply sgn_small. Qed.

Lemma InitScalar_eq b p :
  value_ok (DecodedEvent.dval_ p) →
  InitScalar b p = if is_array p then b else append_decoded b p.
Proof.
  destruct p as [k [x|xs|x|xs|T x|T xs|s|ss]]; cbn; intros Hv; try done.
  - by rewrite u64_small.
  - by rewrite s64_small.
  - destruct Hv as [-> _]. done.
Qed.

Lemma InitArray_eq b p :
  value_ok (DecodedEvent.dval_ p) →
  InitArray b p = if is_array p then append_decoded b p else b.
Proof.
  destruct p as [k [x|xs|x|xs|T x|T xs|s|ss]]; cbn; intros Hv; try done.
  - destruct Hv as [HF Hl]. unfold append_decoded, UnsignedVarintEncodedArrayParam.
    by rewrite (fmap_small u64 (is_u 64)), CopyLimited_id by (done || apply u64_small).
  - destruct Hv as [HF Hl]. unfold append_decoded, SignedVarintEncodedArrayParam.
    by rewrite (fmap_small s64 (is_s 64)), CopyLimited_id by (done || apply s64_small).
  - destruct Hv as (-> & HF & Hl). unfold append_decoded, FloatingNumberEncodedArrayParam.
    by rewrite CopyLimited_id.
  - unfold append_decoded, StringEncodedArrayParam. by rewrite CopyLimited_id.
Qed.

Definition keys ps : list bytes := DecodedEvent.dkey_ <$> ps.

Lemma builder_params_keys b : keys (builder_params b) = key_ <$> allParams_ b.
Proof. unfold keys, builder_params. by rewrite <- list_fmap_compose. Qed.

Lemma ReplaceOrAdd_fresh p qs : key_ p ∉ key_ <$> qs → ReplaceOrAdd p qs = qs ++ [p].
Proof.
  induction qs as [|q qs IH]; [done|]. cbn. intros Hk. apply not_elem_of_cons in Hk as [Hq Hk].
  unfold GetKey. rewrite bool_decide_false by congruence. f_equal. by apply IH.
Qed.

(** Appending a parameter whose key is new. *)
Lemma append_decoded_fresh b p :
  builder_ok b → param_fits p → DecodedEvent.dkey_ p ∉ keys (builder_params b) →
  ∃ qs, append_decoded b p = upd_params b qs ∧ builder_ok (upd_params b qs) ∧
    carried <$> qs = builder_params b ++ [p].
Proof.
  intros Hb [Hv HL] Hk. rewrite builder_params_keys in Hk.
  destruct (AppendParam_new b _ _ Hv HL) as (q & E & Hq & Hp & He).
  exists (allParams_ b ++ [q]). unfold append_decoded. rewrite E, ReplaceOrAdd_fresh by congruence.
  split_and!; [done| |].
  - rewrite <- (ReplaceOrAdd_fresh q) by congruence. apply upd_params_ok; [done..|congruence].
  - rewrite fmap_app. cbn. unfold carried at 2. rewrite Hq, Hp. by destruct p.
Qed.

(** One pass over the decoded parameters that keeps the selected ones. *)
Lemma init_pass (sel : DParam → bool) (step : RawDataBuilder → DParam → RawDataBuilder) ps b :
  (∀ b p, p ∈ ps → step b p = if sel p then append_decoded b p else b) →
  builder_ok b → Forall param_fits ps →
  NoDup (keys (builder_params b ++ filter (λ p, sel p = true) ps)) →
  ∃ qs, foldl step b ps = upd_params b qs ∧ builder_ok (upd_params b qs) ∧
    carried <$> qs = builder_params b ++ filter (λ p, sel p = true) ps.
Proof.
  revert b. induction ps as [|p ps IH]; intros b Hstep Hb HF Hn.
  { exists (allParams_ b). rewrite app_nil_r. by destruct b. }
  cbn [foldl]. rewrite Hstep by left. inversion HF as [|? ? Hp HF']; subst.
  assert (∀ b p, p ∈ ps → step b p = if sel p then append_decoded b p else b) as Hstep'.
  { intros b' p' Hin. apply Hstep. by right. }
  rewrite filter_cons in *. destruct (sel p) eqn:Hsel; cbn [decide] in *.
  - rewrite decide_True in * by done.
    assert (keys (builder_params b ++ p :: filter (λ q, sel q = true) ps) =
      keys (builder_params b) ++ DecodedEvent.dkey_ p :: keys (filter (λ q, sel q = true) ps))
      as Hkeys by (unfold keys; by rewrite fmap_app).
    assert (DecodedEvent.dkey_ p ∉ keys (builder_params b)) as Hfresh.
    { rewrite Hkeys in Hn. apply NoDup_app in Hn as (_ & Hd & _). intros Hin.
      apply (Hd _ Hin). left. }
    destruct (append_decoded_fresh b p Hb Hp Hfresh) as (qs & -> & Hb1 & Hqs).
    destruct (IH (upd_params b qs)) as (qs2 & E2 & Hb2 & Hqs2); [done..| |].
    { unfold builder_params at 1. cbn [allParams_ upd_params]. by rewrite Hqs, <- app_assoc. }
    exists qs2. split_and!; [done..|]. rewrite Hqs2. unfold builder_params at 1.
    cbn [allParams_ upd_params]. by rewrite Hqs, <- app_assoc.
  - rewrite decide_False in * by congruence. by apply IH.
Qed.

(** Copying a short text over a zeroed field. *)
Lemma CopyField_zero n s :
  (length s <= n)%nat → Z.of_nat n < MEM_MAX →
  CopyField (replicate (S n) 0) (Z.of_nat n) s = padded (S n) s.
Proof.
  intros Hl Hn. unfold CopyField. rewrite memcpy_s_copies;
    [|unfold Zlen; rewrite ?length_replicate; lia..].
  rewrite take_Zlen_id, Z.min_l by (unfold Zlen; lia). unfold Zlen, padded. rewrite Nat2Z.id.
  rewrite drop_replicate, insert_app_r_alt, Nat.sub_diag by lia.
  replace (S n - length s)%nat with (S (n - length s)) by lia. done.
Qed.

Lemma c_str_padded n s : 0 ∉ s → (length s < n)%nat → c_str (padded n s) = s.
Proof.
  intros Hs Hl. unfold padded. replace (n - length s)%nat with (S (n - S (length s))) by lia.
  by apply c_str_terminated.
Qed.

Lemma c_str_short n bs : length bs = S n → 0 ∈ bs → (length (c_str bs) <= n)%nat.
Proof. intros Hl Hin. pose proof (c_str_len bs Hin). unfold Zlen in *. lia. Qed.

(** The header and trace info a rebuilt builder starts from. *)
Definition rebuilt_base (h : HiSysEventHeader) (t : TraceInfo) : RawDataBuilder :=
  mkBuilder (padded_header h) (DecodedEvent.opened_trace h t) [].

Lemma type_round z : is_u 2 z → u8 (z + 1 - 1) mod 4 = z.
Proof.
  intros [Hlo Hhi]. change (2 ^ 2) with 4 in Hhi. rewrite Z.add_simpl_r, u8_small by (split; lia).
  by apply Z.mod_small.
Qed.

Lemma rebuilt_base_ok h t : header_inv h → trace_ok t → builder_ok (rebuilt_base h t).
Proof.
  intros [(Hd & Hn & Hrest) [Hd0 Hn0]] Ht.
  pose proof (c_str_short 16 _ Hd Hd0). pose proof (c_str_short 32 _ Hn Hn0).
  assert (∀ n s, (length s <= n)%nat → length (padded (S n) s) = S n ∧ 0 ∈ padded (S n) s) as Hpad.
  { intros n s Hl. unfold padded. split; [rewrite length_app, length_replicate; lia|].
    apply elem_of_app. right. replace (S n - length s)%nat with (S (n - length s)) by lia. left. }
  destruct (Hpad 16%nat (c_str (domain h))), (Hpad 32%nat (c_str (name h))); [done..|].
  split_and!; [|done|done| |constructor|constructor].
  - by split_and!; cbn; try apply Hrest.
  - cbn. unfold DecodedEvent.opened_trace. zcase; [done|apply traceInfo_init_ok].
Qed.

Lemma FromDecoded_base e :
  header_inv (DecodedEvent.header_ e) → trace_ok (DecodedEvent.traceInfo_ e) →
  FromDecoded e =
    InitValueParams (rebuilt_base (DecodedEvent.header_ e) (DecodedEvent.traceInfo_ e))
      (DecodedEvent.allParams_ e).
Proof.
  intros [(Hd & Hn & Hts & Htz & Hu & Hp & Ht & Hi & Hty & Htr & Hl) [Hd0 Hn0]] (Hf & Hti & Hs & Hps).
  unfold FromDecoded. f_equal.
  pose proof (c_str_short 16 _ Hd Hd0) as Hds. pose proof (c_str_short 32 _ Hn Hn0) as Hns.
  destruct e as [raw pos [d n ts tz u p t i ty tr l] [f ti sp ps] valid params].
  unfold rebuilt_base, padded_header, DecodedEvent.opened_trace.
  cbn [DecodedEvent.header_ DecodedEvent.traceInfo_ DecodedEvent.allParams_ domain name timestamp
    timeZone uid pid tid id type isTraceOpened log traceFlag traceId spanId pSpanId] in *.
  cbv beta iota zeta delta [AppendTraceInfo AppendId AppendTid AppendPid AppendUid AppendLog
    AppendTimeZone_val AppendTimeStamp AppendType AppendName AppendDomain RawDataBuilder_new
    header_init OpenTraceFlag upd_header upd_trace header_ traceInfo_ allParams_ domain name
    timestamp timeZone uid pid tid id type isTraceOpened log].
  rewrite (CopyField_zero 16), (CopyField_zero 32) by (done || (unfold MEM_MAX; lia)).
  rewrite type_round, !(u64_small ts), !(u64_small i), !(u8_small tz), !(u8_small l),
    !(u32_small u), !(u32_small p), !(u32_small t) by done.
  zcase.
  - subst tr. by rewrite (u64_small ti), (u8_small f), (u32_small sp), (u32_small ps) by done.
  - assert (tr = 0) as -> by (unfold is_u in Htr; lia). done.
Qed.

Lemma scalars_first_perm ps : scalars_first ps ≡ₚ ps.
Proof.
  unfold scalars_first. induction ps as [|p ps IH]; [done|]. rewrite !filter_cons.
  destruct (is_array p) eqn:Hp; repeat case_decide; try done.
  - rewrite <- Permutation_middle. by rewrite IH.
  - cbn. by rewrite IH.
Qed.

Lemma InitValueParams_spec b ps :
  builder_ok b → allParams_ b = [] → Forall param_fits ps → NoDup (keys ps) →
  ∃ qs, InitValueParams b ps = upd_params b qs ∧ builder_ok (upd_params b qs) ∧
    carried <$> qs = scalars_first ps.
Proof.
  intros Hb He HF Hn. unfold InitValueParams, InitArrayValueParams.
  assert (builder_params b = []) as Hbp by (unfold builder_params; by rewrite He).
  assert (NoDup (keys (scalars_first ps))) as Hn'.
  { unfold keys. rewrite scalars_first_perm. done. }
  unfold scalars_first in *.
  assert (filter (λ p, is_array p = false) ps = filter (λ p, negb (is_array p) = true) ps) as Ef.
  { apply list_filter_iff. intros p. by destruct (is_array p). }
  rewrite Ef in *. rewrite Forall_forall in HF.
  destruct (init_pass (λ p, negb (is_array p)) InitScalar ps b) as (qs & -> & Hb1 & Hqs).
  { intros b' p Hin. rewrite InitScalar_eq by apply HF, Hin. by destruct (is_array p). }
  { done. } { by apply Forall_forall. }
  { rewrite Hbp. unfold keys in *. rewrite fmap_app in Hn'. by apply NoDup_app in Hn' as [? _]. }
  rewrite Hbp in Hqs. cbn [app] in Hqs.
  destruct (init_pass is_array InitArray ps (upd_params b qs)) as (qs2 & -> & Hb2 & Hqs2).
  { intros b' p Hin. apply InitArray_eq, HF, Hin. }
  { done. } { by apply Forall_forall. }
  { unfold builder_params. cbn [allParams_ upd_params]. by rewrite Hqs. }
  exists qs2. split_and!; [done..|]. rewrite Hqs2. unfold builder_params.
  cbn [allParams_ upd_params]. by rewrite Hqs.
Qed.

Lemma param_bytes_le p ps :
  p ∈ ps → Zlen (param_bytes (DecodedEvent.dkey_ p) (DecodedEvent.dval_ p)) <=
           Zlen (DecodedEvent.params_bytes ps).
Proof.
  unfold DecodedEvent.params_bytes.
  induction 1 as [p ps|p q ps _ IH]; cbn [fmap list_fmap concat]; rewrite Zlen_app.
  - pose proof (Zlen_nonneg (concat ((λ p, param_bytes (DecodedEvent.dkey_ p)
      (DecodedEvent.dval_ p)) <$> ps))). unfold fmap in *. lia.
  - pose proof (Zlen_nonneg (param_bytes (DecodedEvent.dkey_ q) (DecodedEvent.dval_ q))).
    unfold fmap in *. lia.
Qed.

Lemma builder_params_fit b :
  builder_ok b → Zlen (builder_block b) <= DecodedEvent.MAX_BLOCK_SIZE →
  Forall param_fits (builder_params b).
Proof.
  intros (_ & _ & HF & _) Hsize. apply Forall_forall. intros p Hin. split.
  - unfold builder_params in Hin. apply list_elem_of_fmap in Hin as (q & -> & Hq).
    rewrite Forall_forall in HF. by apply HF.
  - apply param_bytes_le in Hin. unfold builder_block, DecodedEvent.event_block,
      DecodedEvent.event_body, DecodedEvent.MAX_BLOCK_SIZE in Hsize.
    rewrite !Zlen_app, !Zlen_le_bytes in Hsize. unfold LEN_MAX.
    pose proof (Zlen_nonneg (header_bytes (header_ b))).
    destruct (isTraceOpened (header_ b) =? 1);
      [pose proof (Zlen_nonneg (trace_bytes (traceInfo_ b)))|]; change (Zlen []) with 0 in *; lia.
Qed.

Lemma dict_of_params b :
  dict b = list_to_map ((λ p, (DecodedEvent.dkey_ p, DecodedEvent.dval_ p)) <$> builder_params b).
Proof. unfold dict, builder_params. by rewrite <- list_fmap_compose. Qed.

Lemma dict_perm b1 b2 :
  NoDup (keys (builder_params b1)) → builder_params b2 ≡ₚ builder_params b1 → dict b2 = dict b1.
Proof.
  intros Hn HP0. rewrite !dict_of_params. symmetry. apply list_to_map_proper.
  - unfold keys in Hn. by rewrite <- list_fmap_compose.
  - by rewrite HP0.
Qed.

End Rebuild.

Section Claims.
Context `{HP : Heap} `{SC : Securec} `{!HeapTotal HP}.

(** The same from any buffer that holds the block. *)
Lemma rebuild_from_block b r :
  builder_ok b → GetParamCnt b <= DecodedEvent.MAX_PARAM_CNT →
  Zlen (builder_block b) <= DecodedEvent.MAX_BLOCK_SIZE →
  usable r → contents r = builder_block b →
  ∃ b', RawDataBuilder_from (Some r) = DecodedEvent.Done b' ∧ builder_ok b' ∧
    header_ b' = padded_header (header_ b) ∧
    traceInfo_ b' = DecodedEvent.opened_trace (header_ b) (traceInfo_ b) ∧
    builder_params b' = scalars_first (builder_params b) ∧ dict b' = dict b.
Proof.
  intros Hb Hcnt Hsize Hu Hc. pose proof Hb as (Hh & Ht & HF & Hn).
  rewrite <- builder_params_keys in Hn. unfold RawDataBuilder_from.
  rewrite (block_decode b r Hb Hcnt Hsize Hu Hc).
  set (t := DecodedEvent.opened_trace (header_ b) (traceInfo_ b)). cbn [DecodedEvent.obind].
  cbn [DecodedEvent.header_]. destruct Hh as [Hh Hterm].
  unfold terminated. rewrite !bool_decide_true by apply Hterm. cbn [andb].
  assert (trace_ok t) as Ht' by (unfold t, DecodedEvent.opened_trace; zcase;
    [done|apply traceInfo_init_ok]).
  rewrite FromDecoded_base by (cbn; done || by split).
  cbn [DecodedEvent.header_ DecodedEvent.traceInfo_ DecodedEvent.allParams_].
  destruct (InitValueParams_spec (rebuilt_base (header_ b) t) (builder_params b))
    as (qs & -> & Hok & Hqs); [by apply rebuilt_base_ok|done|by apply builder_params_fit|done|].
  eexists. split_and!; [done|done|done| |done|].
  - cbn. unfold t, DecodedEvent.opened_trace. by destruct (isTraceOpened (header_ b) =? 1).
  - apply dict_perm; [done|]. unfold builder_params at 1. cbn [allParams_ upd_params].
    rewrite Hqs. apply scalars_first_perm.
Qed.

(** constructing a [RawDataBuilder] from the raw data another builder
    built recovers that builder: the same header (text fields zero-padded), the
    trace info when tracing was on, the same dictionary of parameters, and the
    parameters themselves in their order with scalars moved before arrays. *)
Theorem rebuild_from_built b r :
  builder_ok b → GetParamCnt b <= DecodedEvent.MAX_PARAM_CNT →
  Zlen (builder_block b) <= DecodedEvent.MAX_BLOCK_SIZE →
  Build b = (Some r, b) →
  ∃ b', RawDataBuilder_from (Some r) = DecodedEvent.Done b' ∧ builder_ok b' ∧
    header_ b' = padded_header (header_ b) ∧
    traceInfo_ b' = DecodedEvent.opened_trace (header_ b) (traceInfo_ b) ∧
    builder_params b' = scalars_first (builder_params b) ∧ dict b' = dict b.
Proof.
  intros Hb Hcnt Hsize HB. destruct (Build_block b r Hb Hsize HB). by apply rebuild_from_block.
Qed.

(** C1: an event assembled by any sequence of builder calls, of at most 138
    parameters and 384 KiB, is built, and [DecodedEvent] decodes the built bytes
    to a valid event with exactly the header, the trace info (if tracing is on)
    and the parameters, in order. *)
Theorem build_decode_roundtrip cs b :
  Forall call_ok cs → b = foldl run_call RawDataBuilder_new cs →
  GetParamCnt b <= DecodedEvent.MAX_PARAM_CNT →
  Zlen (builder_block b) <= DecodedEvent.MAX_BLOCK_SIZE →
  ∃ r, Build b = (Some r, b) ∧
    DecodedEvent.DecodedEvent_new (GetData r) (GetDataLength r) =
      DecodedEvent.Done (DecodedEvent.mkDecodedEvent (Some (builder_block b))
        (Zlen (builder_block b)) (header_ b)
        (DecodedEvent.opened_trace (header_ b) (traceInfo_ b)) true (builder_params b)).
Proof.
  intros Hcs -> Hcnt Hsize. pose proof (run_calls_ok cs _ builder_new_ok Hcs) as Hok.
  destruct (Build_spec _ Hok) as (r & HB & _).
  { unfold LEN_MAX, DecodedEvent.MAX_BLOCK_SIZE in *. lia. }
  exists r. split; [exact HB|]. by apply Build_decode.
Qed.

End Claims.

Lemma build_decode_roundtrip_witness :
  ∃ r e, Build sample_builder = (Some r, sample_builder) ∧
    DecodedEvent.DecodedEvent_new (GetData r) (GetDataLength r) = DecodedEvent.Done e ∧
    DecodedEvent.isValid_ e = true ∧ length (DecodedEvent.allParams_ e) = 3%nat.
Proof.
  destruct (build_decode_roundtrip sample_calls sample_builder sample_calls_ok eq_refl)
    as (r & HB & HD); [by vm_compute|by vm_compute|].
  exists r. eexists. split; [exact HB|]. split; [exact HD|]. split; [reflexivity|]. cbn [DecodedEvent.allParams_]. unfold builder_params. rewrite length_fmap. by vm_compute.
Defined.

(** An event with 139 one-byte parameters. *)
Definition crowded_builder : RawDataBuilder :=
  foldl (λ b i, AppendValue b (str "K" ++ to_string i) (CUint 64 i)) RawDataBuilder_new (seqZ 0 139).

(** [Build] does not bound the number of parameters, [DecodedEvent] does:
    an event of 139 parameters is built, but the block is rejected. *)
Theorem crowded_event_rejected :
  match (Build crowded_builder).1 with
  | Some r =>
      match DecodedEvent.DecodedEvent_new (GetData r) (GetDataLength r) with
      | DecodedEvent.Done e =>
          DecodedEvent.isValid_ e = false ∧ DecodedEvent.allParams_ e = [] ∧
          GetDataLength r = Zlen (builder_block crowded_builder)
      | _ => False
      end
  | None => False
  end.
Proof. by vm_compute. Qed.

Lemma rebuild_from_built_witness :
  ∃ r b', Build sample_builder = (Some r, sample_builder) ∧
    RawDataBuilder_from (Some r) = DecodedEvent.Done b' ∧ dict b' = dict sample_builder.
Proof.
  destruct (Build_spec sample_builder sample_builder_ok) as (r & E & _); [by vm_compute|].
  destruct (rebuild_from_built sample_builder r sample_builder_ok) as (b' & Hb' & _ & _ & _ & _ & Hd);
    [by vm_compute|by vm_compute|exact E|].
  exists r, b'. exact (conj E (conj Hb' Hd)).
Defined.
