(* ===== verification/JsonPrint.v ===== *)
(** * JsonPrint: an event as JSON text

    Models [DecodedEvent::AsJsonStr] of decoded_event.cpp and the stream
    helpers of decoded_event.h: a [std::stringstream] with its put position,
    which the code moves back over trailing commas. *)

From S2P Require Import Prelude Platform RawData Encoder Decoder Params EventHeader Text FloatText.
From S2P Require Import DecodedEvent.
From stdpp Require Import base list numbers strings.

Local Open Scope Z_scope.

(** ** [std::stringstream] as an output stream *)

Record sstream := mkStream { sbuf : bytes; sput : Z }.

Definition sempty : sstream := mkStream [] 0.

(** [ss << s]: write at the put position, over what is there. *)
Definition sprint (ss : sstream) (s : bytes) : sstream :=
  mkStream (take (Z.to_nat (sput ss)) (sbuf ss) ++ s ++
            drop (Z.to_nat (sput ss + Zlen s)) (sbuf ss))
           (sput ss + Zlen s).

Definition tellp (ss : sstream) : Z := sput ss.

(** [ss.seekp(off, std::ios_base::end)]; a target before the start fails. *)
Definition seekp_end (ss : sstream) (off : Z) : sstream :=
  if Zlen (sbuf ss) + off <? 0 then ss else mkStream (sbuf ss) (Zlen (sbuf ss) + off).

Definition QUOTE : Z := 34.
Definition COMMA : Z := 44.
Definition COLON : Z := 58.
Definition LEFT_BRACKET : Z := 91.
Definition RIGHT_BRACKET : Z := 93.
Definition LEFT_BRACE : Z := 123.
Definition RIGHT_BRACE : Z := 125.

(** ** The fields *)

(** [AppendValue<std::string>] *)
Definition AppendString (ss : sstream) (key val : bytes) : sstream :=
  foldl sprint ss [[QUOTE]; key; [QUOTE; COLON; QUOTE]; val; [QUOTE; COMMA]].

(** [AppendValue<T>] for a number, given what [<<] prints for it. *)
Definition AppendNumber (ss : sstream) (key text : bytes) : sstream :=
  foldl sprint ss [[QUOTE]; key; [QUOTE; COLON]; text; [COMMA]].

(** [AppendArrayValue]: [items] is what is printed for each element in front of
    its comma. *)
Definition AppendArray (ss : sstream) (key : bytes) (items : list bytes) : sstream :=
  let ss := foldl sprint ss [[QUOTE]; key; [QUOTE; COLON]] in
  let ss := sprint ss [LEFT_BRACKET] in
  let ss := foldl (λ ss item, sprint ss (item ++ [COMMA])) ss items in
  let ss := if negb (tellp ss =? 0) && (0 <? Zlen items) then seekp_end ss (-1) else ss in
  sprint ss [RIGHT_BRACKET; COMMA].

Definition quoted (s : bytes) : bytes := [QUOTE] ++ s ++ [QUOTE].

Definition TransUInt64ToFixedLengthStr (src : Z) : bytes :=
  let maxIdLen := 20 in
  let uint64Str := to_string src in
  if Zlen uint64Str >=? maxIdLen then uint64Str
  else
    let dest := replicate (Z.to_nat maxIdLen) 48 in
    let pos := Z.to_nat (maxIdLen - Zlen uint64Str) in
    take pos dest ++ uint64Str ++ drop (pos + length uint64Str) dest.

Section Printing.
Context `{HP : Heap} `{SC : Securec}.

(** A header text copied to a fresh, terminated buffer; [None] if the buffer or
    the copy fails. *)
Definition FixedText (field : bytes) (max : Z) : option bytes :=
  match new_bytes (max + 1) with
  | None => None
  | Some b =>
      let '(ok, b') := memcpy_s b (max + 1) (Some field) max in
      if ok then Some (c_str (<[Z.to_nat max := 0]> b')) else None
  end.

Definition AppendTraceFields (e : DecodedEvent) (ss : sstream) : sstream :=
  let t := traceInfo_ e in
  if isTraceOpened (header_ e) =? 1 then
    let ss := AppendNumber ss BASE_INFO_KEY_TRACE_FLAG (to_string (traceFlag t)) in
    let ss := AppendString ss BASE_INFO_KEY_TRACE_ID (TransNumToHexStr (traceId t)) in
    let ss := AppendString ss BASE_INFO_KEY_SPAN_ID (TransNumToHexStr (spanId t)) in
    AppendString ss BASE_INFO_KEY_PARENT_SPAN_ID (TransNumToHexStr (pSpanId t))
  else ss.

Definition AppendBaseInfo (e : DecodedEvent) (ss : sstream) : sstream :=
  let h := header_ e in
  match FixedText (domain h) MAX_DOMAIN_LENGTH with
  | None => ss
  | Some eventDomain =>
      let ss := AppendString ss BASE_INFO_KEY_DOMAIN eventDomain in
      match FixedText (name h) MAX_EVENT_NAME_LENGTH with
      | None => ss
      | Some eventName =>
          let ss := AppendString ss BASE_INFO_KEY_NAME eventName in
          let ss := AppendNumber ss BASE_INFO_KEY_TYPE (to_string (type h + 1)) in
          let ss := AppendNumber ss BASE_INFO_KEY_TIME_STAMP (to_string (timestamp h)) in
          let ss := AppendString ss BASE_INFO_KEY_TIME_ZONE (ParseTimeZone_val (timeZone h)) in
          let ss := AppendNumber ss BASE_INFO_KEY_PID (to_string (pid h)) in
          let ss := AppendNumber ss BASE_INFO_KEY_TID (to_string (tid h)) in
          let ss := AppendNumber ss BASE_INFO_KEY_UID (to_string (uid h)) in
          let ss := AppendNumber ss BASE_INFO_KEY_LOG (to_string (log h)) in
          let ss := AppendString ss BASE_INFO_KEY_ID (TransUInt64ToFixedLengthStr (id h)) in
          AppendTraceFields e ss
      end
  end.

Definition AppendCustomizedArrayParam (ss : sstream) (p : DecodedParam) : sstream :=
  match GetDataCodedType (dval_ p) with
  | UNSIGNED_VARINT_ARRAY =>
      match AsUint64Vec (dval_ p) with
      | Some v => AppendArray ss (dkey_ p) (to_string <$> v)
      | None => ss
      end
  | SIGNED_VARINT_ARRAY =>
      match AsInt64Vec (dval_ p) with
      | Some v => AppendArray ss (dkey_ p) (to_string <$> v)
      | None => ss
      end
  | FLOATING_ARRAY =>
      match AsDoubleVec (dval_ p) with
      | Some v => AppendArray ss (dkey_ p) (print_double <$> v)
      | None => ss
      end
  | DSTRING_ARRAY =>
      match AsStringVec (dval_ p) with
      | Some v => AppendArray ss (dkey_ p) (quoted <$> v)
      | None => ss
      end
  | _ => ss
  end.

Definition AppendCustomizedParam (ss : sstream) (p : DecodedParam) : sstream :=
  match GetDataCodedType (dval_ p) with
  | UNSIGNED_VARINT =>
      match AsUint64 (dval_ p) with
      | Some v => AppendNumber ss (dkey_ p) (to_string v)
      | None => ss
      end
  | SIGNED_VARINT =>
      match AsInt64 (dval_ p) with
      | Some v => AppendNumber ss (dkey_ p) (to_string v)
      | None => ss
      end
  | FLOATING =>
      match AsDouble (dval_ p) with
      | Some v => AppendNumber ss (dkey_ p) (print_double v)
      | None => ss
      end
  | DSTRING =>
      match dval_ p with
      | PString v => AppendString ss (dkey_ p) v
      | _ => ss
      end
  | _ => ss
  end.

Definition noArrayEncodedTypes : list DataCodedType :=
  [UNSIGNED_VARINT; SIGNED_VARINT; FLOATING; DSTRING].

(** The body of the loop over the parameters. *)
Definition AppendOneParam (ss : sstream) (p : DecodedParam) : sstream :=
  if bool_decide (GetDataCodedType (dval_ p) ∈ noArrayEncodedTypes)
  then AppendCustomizedParam ss p else AppendCustomizedArrayParam ss p.

Definition AppendCustomizedParams (e : DecodedEvent) (ss : sstream) : sstream :=
  foldl AppendOneParam ss (allParams_ e).

Definition AsJsonStr (e : DecodedEvent) : bytes :=
  let ss := sprint sempty [LEFT_BRACE] in
  let ss := AppendBaseInfo e ss in
  let ss := AppendCustomizedParams e ss in
  let ss := if negb (tellp ss =? 0) then seekp_end ss (-1) else ss in
  sbuf (sprint ss [RIGHT_BRACE]).

End Printing.

(** ** The text as a JSON object *)

Inductive jval := JText (s : bytes) | JNumber (s : bytes) | JArray (items : list bytes).

(** Texts separated by commas. *)
Fixpoint comma_join (ts : list bytes) : bytes :=
  match ts with
  | [] => []
  | [t] => t
  | t :: ts => t ++ COMMA :: comma_join ts
  end.

Definition jval_text (v : jval) : bytes :=
  match v with
  | JText s => quoted s
  | JNumber s => s
  | JArray items => LEFT_BRACKET :: comma_join items ++ [RIGHT_BRACKET]
  end.

Definition field_text (f : bytes * jval) : bytes := quoted f.1 ++ COLON :: jval_text f.2.

Definition json_object (fs : list (bytes * jval)) : bytes :=
  LEFT_BRACE :: comma_join (field_text <$> fs) ++ [RIGHT_BRACE].

Definition trace_fields (h : HiSysEventHeader) (t : TraceInfo) : list (bytes * jval) :=
  if isTraceOpened h =? 1 then
    [(BASE_INFO_KEY_TRACE_FLAG, JNumber (to_string (traceFlag t)));
     (BASE_INFO_KEY_TRACE_ID, JText (TransNumToHexStr (traceId t)));
     (BASE_INFO_KEY_SPAN_ID, JText (TransNumToHexStr (spanId t)));
     (BASE_INFO_KEY_PARENT_SPAN_ID, JText (TransNumToHexStr (pSpanId t)))]
  else [].

Definition base_fields (h : HiSysEventHeader) (t : TraceInfo) : list (bytes * jval) :=
  [(BASE_INFO_KEY_DOMAIN, JText (c_str (take 16 (domain h))));
   (BASE_INFO_KEY_NAME, JText (c_str (take 32 (name h))));
   (BASE_INFO_KEY_TYPE, JNumber (to_string (type h + 1)));
   (BASE_INFO_KEY_TIME_STAMP, JNumber (to_string (timestamp h)));
   (BASE_INFO_KEY_TIME_ZONE, JText (ParseTimeZone_val (timeZone h)));
   (BASE_INFO_KEY_PID, JNumber (to_string (pid h)));
   (BASE_INFO_KEY_TID, JNumber (to_string (tid h)));
   (BASE_INFO_KEY_UID, JNumber (to_string (uid h)));
   (BASE_INFO_KEY_LOG, JNumber (to_string (log h)));
   (BASE_INFO_KEY_ID, JText (TransUInt64ToFixedLengthStr (id h)))] ++ trace_fields h t.

Definition param_jval (v : PValue) : jval :=
  match v with
  | PUnsigned x => JNumber (to_string (u64 x))
  | PSigned x => JNumber (to_string (s64 x))
  | PFloating T x => JNumber (print_double (match T with TFloat => float_to_double x | _ => x end))
  | PString s => JText s
  | PUnsignedArray xs => JArray ((λ x, to_string (u64 x)) <$> xs)
  | PSignedArray xs => JArray ((λ x, to_string (s64 x)) <$> xs)
  | PFloatingArray T xs =>
      JArray ((λ x, print_double (match T with TFloat => float_to_double x | _ => x end)) <$> xs)
  | PStringArray ss => JArray (quoted <$> ss)
  end.

Definition param_field (p : DecodedParam) : bytes * jval := (dkey_ p, param_jval (dval_ p)).

(** ** The printed text is that object *)

(** A stream whose put position is at its end. *)
Definition ended (b : bytes) : sstream := mkStream b (Zlen b).

Section PrintSpec.

Lemma sprint_ended b s : sprint (ended b) s = ended (b ++ s).
Proof.
  unfold sprint, ended. cbn [sput sbuf]. pose proof (Zlen_nonneg s).
  rewrite take_Zlen_id, drop_ge, app_nil_r by (unfold Zlen; lia). by rewrite Zlen_app.
Qed.

Lemma sprint_back b c x s : sprint (seekp_end (ended (b ++ [c])) (-1)) (x :: s) = ended (b ++ x :: s).
Proof.
  unfold seekp_end, ended. cbn [sbuf sput]. rewrite Zlen_app. change (Zlen [c]) with 1.
  pose proof (Zlen_nonneg b). pose proof (Zlen_nonneg s). zcase; [lia|].
  replace (Zlen b + 1 + -1) with (Zlen b) by lia. unfold sprint. cbn [sbuf sput].
  rewrite take_Zlen, drop_ge, app_nil_r by (rewrite length_app, Zlen_cons; unfold Zlen in *; cbn; lia).
  by rewrite Zlen_app.
Qed.

Lemma sprints_ended b ts : foldl sprint (ended b) ts = ended (b ++ concat ts).
Proof.
  revert b. induction ts as [|t ts IH]; intros b; cbn; [by rewrite app_nil_r|].
  by rewrite sprint_ended, IH, <- app_assoc.
Qed.

Lemma comma_concat ts : ts ≠ [] → concat ((λ t, t ++ [COMMA]) <$> ts) = comma_join ts ++ [COMMA].
Proof.
  induction ts as [|t [|t2 ts] IH]; intros Hne; [done|cbn; by rewrite app_nil_r|].
  change (concat ((λ t, t ++ [COMMA]) <$> t :: t2 :: ts))
    with ((t ++ [COMMA]) ++ concat ((λ t, t ++ [COMMA]) <$> t2 :: ts)).
  rewrite IH by done. change (comma_join (t :: t2 :: ts)) with (t ++ COMMA :: comma_join (t2 :: ts)).
  by rewrite <- !app_assoc.
Qed.

Lemma AppendString_ended b k v :
  AppendString (ended b) k v = ended (b ++ field_text (k, JText v) ++ [COMMA]).
Proof.
  unfold AppendString. rewrite sprints_ended. f_equal. unfold field_text, quoted.
  by list_simplifier.
Qed.

Lemma AppendNumber_ended b k v :
  AppendNumber (ended b) k v = ended (b ++ field_text (k, JNumber v) ++ [COMMA]).
Proof.
  unfold AppendNumber. rewrite sprints_ended. f_equal. unfold field_text, quoted.
  by list_simplifier.
Qed.

Lemma tellp_ended b c : (tellp (ended (b ++ [c])) =? 0) = false.
Proof. cbn. rewrite Zlen_app. pose proof (Zlen_nonneg b). apply Z.eqb_neq. change (Zlen [c]) with 1. lia. Qed.

Lemma sprint_items b items :
  foldl (λ ss item, sprint ss (item ++ [COMMA])) (ended b) items =
    ended (b ++ concat ((λ t, t ++ [COMMA]) <$> items)).
Proof.
  revert b. induction items as [|t ts IH]; intros b; cbn; [by rewrite app_nil_r|].
  by rewrite sprint_ended, IH, <- !app_assoc.
Qed.

Lemma AppendArray_ended b k items :
  AppendArray (ended b) k items = ended (b ++ field_text (k, JArray items) ++ [COMMA]).
Proof.
  unfold AppendArray. rewrite sprints_ended, sprint_ended, sprint_items.
  unfold field_text, quoted. cbn [fst snd jval_text].
  destruct (decide (items = [])) as [->|Hne].
  - cbn [fmap list_fmap concat]. rewrite andb_false_r, sprint_ended. f_equal.
    by list_simplifier.
  - rewrite comma_concat by done. rewrite app_assoc.
    assert (0 < Zlen items) as Hlen by (destruct items; [done|]; rewrite Zlen_cons;
      pose proof (Zlen_nonneg items); lia).
    rewrite tellp_ended. apply Z.ltb_lt in Hlen as ->. cbn [negb andb]. rewrite sprint_back.
    f_equal. by list_simplifier.
Qed.

(** Fields printed one after the other, each with its comma. *)
Definition fields_text (fs : list (bytes * jval)) : bytes :=
  concat ((λ t, t ++ [COMMA]) <$> (field_text <$> fs)).

Lemma fields_text_cons f fs : fields_text (f :: fs) = (field_text f ++ [COMMA]) ++ fields_text fs.
Proof. done. Qed.

Lemma fields_text_app fs gs : fields_text (fs ++ gs) = fields_text fs ++ fields_text gs.
Proof. unfold fields_text. by rewrite !fmap_app, concat_app. Qed.

Lemma scalar_types v :
  bool_decide (GetDataCodedType v ∈ noArrayEncodedTypes) = negb (wire_array v).
Proof. by destruct v. Qed.

Lemma AppendOneParam_ended p b :
  AppendOneParam (ended b) p = ended (b ++ field_text (param_field p) ++ [COMMA]).
Proof.
  unfold AppendOneParam. rewrite scalar_types.
  unfold AppendCustomizedParam, AppendCustomizedArrayParam.
  destruct p as [k [x|xs|x|xs|[] x|[] xs|s|ss]];
    cbn [dkey_ dval_ wire_array negb GetDataCodedType AsUint64 AsInt64 AsDouble AsUint64Vec
         AsInt64Vec AsDoubleVec AsStringVec];
    rewrite ?AppendString_ended, ?AppendNumber_ended, ?AppendArray_ended, <- ?list_fmap_compose;
    done.
Qed.

Lemma AppendCustomizedParams_ended e b :
  AppendCustomizedParams e (ended b) = ended (b ++ fields_text (param_field <$> allParams_ e)).
Proof.
  unfold AppendCustomizedParams. generalize (allParams_ e) as ps. intros ps. revert b.
  induction ps as [|p ps IH]; intros b; cbn [foldl]; [by rewrite app_nil_r|].
  by rewrite fmap_cons, fields_text_cons, AppendOneParam_ended, IH, <- !app_assoc.
Qed.

Context `{HP : Heap} `{SC : Securec} `{!HeapTotal HP}.

Lemma FixedText_spec field n :
  length field = S n → Z.of_nat n + 1 < MEM_MAX → (0 < n)%nat →
  FixedText field (Z.of_nat n) = Some (c_str (take n field)).
Proof.
  intros Hl Hn Hpos. unfold FixedText.
  destruct (new_bytes_total (Z.of_nat n + 1)) as [b E]; [lia|]. rewrite E.
  apply new_bytes_len in E. rewrite memcpy_s_copies by (unfold Zlen in *; lia). rewrite Nat2Z.id.
  assert (length (take n field) = n) as Ht by (rewrite length_take; lia).
  destruct (drop n b) as [|c r] eqn:Ed.
  { apply (f_equal length) in Ed. rewrite length_drop in Ed. unfold Zlen in E. cbn in Ed. lia. }
  rewrite insert_app_r_alt, Ht, Nat.sub_diag by lia. f_equal. cbn [insert list_insert].
  generalize (take n field) as s. clear. induction s as [|c0 s IH]; [done|]. cbn.
  zcase; [done|]. by rewrite IH.
Qed.

Lemma AppendBaseInfo_ended e b :
  length (domain (header_ e)) = 17%nat → length (name (header_ e)) = 33%nat →
  AppendBaseInfo e (ended b) = ended (b ++ fields_text (base_fields (header_ e) (traceInfo_ e))).
Proof.
  intros Hd Hn. unfold AppendBaseInfo.
  rewrite (FixedText_spec _ 16), (FixedText_spec _ 32) by (done || (unfold MEM_MAX; lia)).
  unfold base_fields, AppendTraceFields, trace_fields. rewrite fields_text_app.
  destruct (isTraceOpened (header_ e) =? 1);
    rewrite ?AppendString_ended, ?AppendNumber_ended, ?AppendString_ended;
    repeat (rewrite ?AppendNumber_ended, ?AppendString_ended);
    rewrite !fields_text_cons; f_equal; rewrite <- !app_assoc; cbn [fields_text fmap list_fmap concat];
    rewrite ?app_nil_r; done.
Qed.

Lemma AsJsonStr_object e :
  length (domain (header_ e)) = 17%nat → length (name (header_ e)) = 33%nat →
  AsJsonStr e =
    json_object (base_fields (header_ e) (traceInfo_ e) ++ (param_field <$> allParams_ e)).
Proof.
  intros Hd Hn. unfold AsJsonStr, json_object. change sempty with (ended []).
  rewrite sprint_ended, AppendBaseInfo_ended, AppendCustomizedParams_ended by done.
  rewrite <- app_assoc, <- fields_text_app. unfold fields_text. rewrite comma_concat by done.
  rewrite app_assoc, tellp_ended. cbn [negb]. rewrite sprint_back. cbn [sbuf ended].
  by rewrite <- app_assoc.
Qed.

End PrintSpec.
