(* ===== verification/JsonParse.v ===== *)
(** * JsonParse: the JSON parser that fills a builder

    Models base/event_raw/encoded/raw_data_builder_json_parser.cpp: a table
    driven state machine over the characters, whose handlers collect a key and
    its value and append them to a [RawDataBuilder]. *)

From S2P Require Import Prelude Platform RawData Encoder Decoder Params EventHeader Text FloatText.
From S2P Require Import DecodedEvent Builder JsonPrint.
From stdpp Require Import base list numbers strings.

Local Open Scope Z_scope.

Module JsonParser.

Definition CHAR_RANGE : Z := 256.

Definition STATUS_NONE : Z := 0.
Definition STATUS_RUN : Z := 1.
Definition STATUS_KEY_PARSE : Z := 2.
Definition STATUS_VALUE_PARSE : Z := 3.
Definition STATUS_STRING_PARSE : Z := 4.
Definition STATUS_DOUBLE_PARSE : Z := 5.
Definition STATUS_INT_PARSE : Z := 6.
Definition STATUS_ARRAY_PARSE : Z := 7.
Definition STATUS_STRING_ITEM_PARSE : Z := 8.
Definition STATUS_DOUBLE_ITEM_PARSE : Z := 9.
Definition STATUS_INT_ITEM_PARSE : Z := 10.
Definition STATUS_ESCAPE_CHAR_PARSE : Z := 11.
Definition STATUS_ESCAPE_CHAR_ITEM_PARSE : Z := 12.

Definition DOUBLE_QUOTA_CHAR : Z := 34.
Definition POSITIVE_CHAR : Z := 43.
Definition COMMA_CHAR : Z := 44.
Definition MINUS_CHAR : Z := 45.
Definition POINT_CHAR : Z := 46.
Definition NUM_MIN_CHAR : Z := 48.
Definition NUM_MAX_CHAR : Z := 57.
Definition COLON_CHAR : Z := 58.
Definition LEFT_BRACKET_CHAR : Z := 91.
Definition ESCAPE_CHAR : Z := 92.
Definition RIGHT_BRACKET_CHAR : Z := 93.
Definition SICENTIFIC_NOTAITION_CHAR : Z := 101.
Definition LEFT_BRACE_CHAR : Z := 123.
Definition RIGHT_BRACE_CHAR : Z := 125.

(** ** The status table *)

Definition is_num (i : Z) : bool := (i >=? NUM_MIN_CHAR) && (i <=? NUM_MAX_CHAR).

(** [for (int i = 0; i < CHAR_RANGE; ++i) row[i] = f(i);] then single entries. *)
Definition row (f : Z → Z) (entries : list (Z * Z)) : list Z :=
  foldl (λ r e, <[Z.to_nat e.1 := e.2]> r) (f <$> seqZ 0 CHAR_RANGE) entries.

Definition InitNoneStatus : list Z :=
  row (λ _, STATUS_NONE) [(LEFT_BRACE_CHAR, STATUS_RUN)].

Definition InitRunStatus : list Z :=
  row (λ _, STATUS_RUN)
    [(DOUBLE_QUOTA_CHAR, STATUS_KEY_PARSE); (COLON_CHAR, STATUS_VALUE_PARSE);
     (RIGHT_BRACE_CHAR, STATUS_NONE)].

Definition InitKeyParseStatus : list Z :=
  row (λ _, STATUS_KEY_PARSE) [(DOUBLE_QUOTA_CHAR, STATUS_RUN)].

Definition InitValueParseStatus : list Z :=
  row (λ i, if is_num i || (i =? MINUS_CHAR) then STATUS_INT_PARSE else STATUS_VALUE_PARSE)
    [(DOUBLE_QUOTA_CHAR, STATUS_STRING_PARSE); (POINT_CHAR, STATUS_DOUBLE_PARSE);
     (LEFT_BRACKET_CHAR, STATUS_ARRAY_PARSE)].

Definition InitStringParseStatus : list Z :=
  row (λ _, STATUS_STRING_PARSE)
    [(DOUBLE_QUOTA_CHAR, STATUS_RUN); (ESCAPE_CHAR, STATUS_ESCAPE_CHAR_PARSE)].

Definition InitDoubleParseStatus : list Z :=
  row (λ i, if is_num i then STATUS_DOUBLE_PARSE else STATUS_NONE)
    [(POSITIVE_CHAR, STATUS_DOUBLE_PARSE); (SICENTIFIC_NOTAITION_CHAR, STATUS_DOUBLE_PARSE);
     (COMMA_CHAR, STATUS_RUN)].

Definition InitIntParseStatus : list Z :=
  row (λ i, if is_num i then STATUS_INT_PARSE else STATUS_NONE)
    [(POINT_CHAR, STATUS_DOUBLE_PARSE); (COMMA_CHAR, STATUS_RUN)].

Definition InitArrayParseSatus : list Z :=
  row (λ i, if is_num i || (i =? MINUS_CHAR) then STATUS_INT_ITEM_PARSE else STATUS_ARRAY_PARSE)
    [(DOUBLE_QUOTA_CHAR, STATUS_STRING_ITEM_PARSE); (POINT_CHAR, STATUS_DOUBLE_ITEM_PARSE);
     (RIGHT_BRACKET_CHAR, STATUS_RUN); (COMMA_CHAR, STATUS_ARRAY_PARSE)].

Definition InitStringItemParseStatus : list Z :=
  row (λ _, STATUS_STRING_ITEM_PARSE)
    [(DOUBLE_QUOTA_CHAR, STATUS_ARRAY_PARSE); (COMMA_CHAR, STATUS_ARRAY_PARSE);
     (ESCAPE_CHAR, STATUS_ESCAPE_CHAR_ITEM_PARSE)].

Definition InitDoubleItemParseStatus : list Z :=
  row (λ i, if is_num i then STATUS_DOUBLE_ITEM_PARSE else STATUS_NONE)
    [(POSITIVE_CHAR, STATUS_DOUBLE_ITEM_PARSE);
     (SICENTIFIC_NOTAITION_CHAR, STATUS_DOUBLE_ITEM_PARSE);
     (COMMA_CHAR, STATUS_ARRAY_PARSE); (RIGHT_BRACKET_CHAR, STATUS_RUN)].

Definition InitIntItemParseStatus : list Z :=
  row (λ i, if is_num i then STATUS_INT_ITEM_PARSE else STATUS_NONE)
    [(COMMA_CHAR, STATUS_ARRAY_PARSE); (RIGHT_BRACKET_CHAR, STATUS_RUN);
     (POINT_CHAR, STATUS_DOUBLE_ITEM_PARSE)].

Definition InitEscapeCharParseStatus : list Z :=
  row (λ _, STATUS_STRING_PARSE) [(ESCAPE_CHAR, STATUS_ESCAPE_CHAR_PARSE)].

Definition InitEscapeCharItemParseStatus : list Z :=
  row (λ _, STATUS_STRING_ITEM_PARSE) [(ESCAPE_CHAR, STATUS_ESCAPE_CHAR_ITEM_PARSE)].

Definition statusTabs_ : list (list Z) := [
  InitNoneStatus; InitRunStatus; InitKeyParseStatus; InitValueParseStatus; InitStringParseStatus;
  InitDoubleParseStatus; InitIntParseStatus; InitArrayParseSatus; InitStringItemParseStatus;
  InitDoubleItemParseStatus; InitIntItemParseStatus; InitEscapeCharParseStatus;
  InitEscapeCharItemParseStatus].

(** [statusTabs_[status_][charactor_]]; a negative index is outside the table. *)
Definition table_at (status charactor : Z) : outcome Z :=
  if charactor <? 0 then Undefined UB_OutOfBounds else
  match statusTabs_ !! Z.to_nat status ≫= λ r, r !! Z.to_nat charactor with
  | Some s => Done s
  | None => Undefined UB_OutOfBounds
  end.

(** ** Parser state and handlers *)

Record Parser := mkParser {
  builder_ : RawDataBuilder;
  status_ : Z;
  lastStatus_ : Z;
  lastValueParseStatus_ : Z;
  jkey_ : bytes;
  value_ : bytes;
  values_ : list bytes
}.

Definition Parser_init : Parser :=
  mkParser RawDataBuilder_new STATUS_NONE STATUS_NONE STATUS_NONE [] [] [].

(** [TransStrToType]: nothing is read from blank text, the value stays. *)
Definition TransStrToType (read : bytes → Z) (s : bytes) (val : Z) : Z :=
  match skip_space s with [] => val | _ => read s end.

(** The loop that converts the items of an array; the local carries its value
    from one item to the next. *)
Fixpoint ConvertItems (read : bytes → Z) (skipEmpty : bool) (val : Z) (values : list bytes) : list Z :=
  match values with
  | [] => []
  | value :: values =>
      if skipEmpty && (Zlen value =? 0) then ConvertItems read skipEmpty val values
      else let val := TransStrToType read value val in
           val :: ConvertItems read skipEmpty val values
  end.

Definition has_char (c : Z) (s : bytes) : bool := bool_decide (c ∈ s).

Section Handlers.
Context `{HP : Heap} `{SC : Securec}.

Definition BuilderAppendStringValue (b : RawDataBuilder) (key value : bytes) : RawDataBuilder :=
  AppendValue b key (CString value).

Definition BuilderAppendIntValue (b : RawDataBuilder) (key value : bytes) : RawDataBuilder :=
  if Zlen value =? 0 then b
  else if has_char MINUS_CHAR value then
    AppendValue b key (CInt 64 (TransStrToType stream_signed value 0))
  else AppendValue b key (CUint 64 (TransStrToType (stream_unsigned 64 10) value 0)).

Definition BuilderAppendFloatingValue (b : RawDataBuilder) (key value : bytes) : RawDataBuilder :=
  AppendValue b key (CFloat TDouble (TransStrToType stream_double value 0)).

Definition BuilderAppendStringArrayValue (b : RawDataBuilder) (key : bytes) (values : list bytes)
    : RawDataBuilder := AppendValue b key (CStringVec values).

Definition BuilderAppendFloatingArrayValue (b : RawDataBuilder) (key : bytes) (values : list bytes)
    : RawDataBuilder :=
  AppendValue b key (CFloatVec TDouble (ConvertItems stream_double false 0 values)).

Definition BuilderAppendIntArrayValue (b : RawDataBuilder) (key : bytes) (values : list bytes)
    : RawDataBuilder :=
  if existsb (has_char POINT_CHAR) values then BuilderAppendFloatingArrayValue b key values
  else if existsb (has_char MINUS_CHAR) values then
    AppendValue b key (CIntVec 64 (ConvertItems stream_signed true 0 values))
  else AppendValue b key (CUintVec 64 (ConvertItems (stream_unsigned 64 10) false 0 values)).

(** [AppendValueToBuilder], as the builder afterwards. *)
Definition AppendValueToBuilder (p : Parser) : RawDataBuilder :=
  let b := builder_ p in
  let last := lastValueParseStatus_ p in
  if Zlen (jkey_ p) =? 0 then b
  else if last =? STATUS_STRING_PARSE then BuilderAppendStringValue b (jkey_ p) (value_ p)
  else if last =? STATUS_INT_PARSE then BuilderAppendIntValue b (jkey_ p) (value_ p)
  else if last =? STATUS_DOUBLE_PARSE then BuilderAppendFloatingValue b (jkey_ p) (value_ p)
  else if last =? STATUS_STRING_ITEM_PARSE then
    BuilderAppendStringArrayValue b (jkey_ p) (values_ p)
  else if last =? STATUS_INT_ITEM_PARSE then BuilderAppendIntArrayValue b (jkey_ p) (values_ p)
  else if last =? STATUS_DOUBLE_ITEM_PARSE then
    BuilderAppendFloatingArrayValue b (jkey_ p) (values_ p)
  else b.

Definition set_builder (p : Parser) (b : RawDataBuilder) : Parser :=
  mkParser b (status_ p) (lastStatus_ p) (lastValueParseStatus_ p) (jkey_ p) (value_ p) (values_ p).
Definition set_key (p : Parser) (k : bytes) : Parser :=
  mkParser (builder_ p) (status_ p) (lastStatus_ p) (lastValueParseStatus_ p) k (value_ p) (values_ p).
Definition set_value (p : Parser) (v : bytes) : Parser :=
  mkParser (builder_ p) (status_ p) (lastStatus_ p) (lastValueParseStatus_ p) (jkey_ p) v (values_ p).
Definition set_values (p : Parser) (vs : list bytes) : Parser :=
  mkParser (builder_ p) (status_ p) (lastStatus_ p) (lastValueParseStatus_ p) (jkey_ p) (value_ p) vs.
Definition set_lastValue (p : Parser) (s : Z) : Parser :=
  mkParser (builder_ p) (status_ p) (lastStatus_ p) s (jkey_ p) (value_ p) (values_ p).
Definition set_status (p : Parser) (s : Z) : Parser :=
  mkParser (builder_ p) s (lastStatus_ p) (lastValueParseStatus_ p) (jkey_ p) (value_ p) (values_ p).
Definition set_lastStatus (p : Parser) (s : Z) : Parser :=
  mkParser (builder_ p) (status_ p) s (lastValueParseStatus_ p) (jkey_ p) (value_ p) (values_ p).

Definition from_item (p : Parser) : bool :=
  (lastStatus_ p =? STATUS_STRING_ITEM_PARSE) || (lastStatus_ p =? STATUS_DOUBLE_ITEM_PARSE) ||
  (lastStatus_ p =? STATUS_INT_ITEM_PARSE).

(** [values_.emplace_back(value_); value_.clear();] after an item. *)
Definition close_item (p : Parser) : Parser :=
  if from_item p then set_value (set_values p (values_ p ++ [value_ p])) [] else p.

Definition HandleStatusNone (p : Parser) : Parser := set_builder p (AppendValueToBuilder p).

Definition HandleStatusKeyParse (p : Parser) (charactor : Z) : Parser :=
  if lastStatus_ p =? STATUS_KEY_PARSE then set_key p (jkey_ p ++ [u8 charactor])
  else set_key (set_builder p (AppendValueToBuilder p)) [].

Definition HandleStatusRun (p : Parser) : Parser :=
  let p := close_item p in
  let p := if lastStatus_ p =? STATUS_STRING_PARSE then set_lastValue p (lastStatus_ p) else p in
  if (lastStatus_ p =? STATUS_ARRAY_PARSE) &&
     negb (lastValueParseStatus_ p =? STATUS_STRING_ITEM_PARSE)
  then set_lastValue p STATUS_INT_ITEM_PARSE else p.

Definition HandleStatusValueParse (p : Parser) : Parser :=
  let p := set_value p [] in
  let p := if lastStatus_ p =? STATUS_RUN then set_values p [] else p in
  close_item p.

Definition HandleStatusArrayParse (p : Parser) : Parser :=
  let p := if lastStatus_ p =? STATUS_RUN then set_values p [] else p in
  close_item p.

Definition HandleStatusStringParse (p : Parser) (charactor : Z) : Parser :=
  let p := set_lastValue p (status_ p) in
  if negb (lastStatus_ p =? STATUS_STRING_PARSE) && negb (lastStatus_ p =? STATUS_ESCAPE_CHAR_PARSE)
  then set_value p [] else set_value p (value_ p ++ [u8 charactor]).

Definition HandleStatusStringItemParse (p : Parser) (charactor : Z) : Parser :=
  let p := set_lastValue p (status_ p) in
  if negb (lastStatus_ p =? STATUS_STRING_ITEM_PARSE) &&
     negb (lastStatus_ p =? STATUS_ESCAPE_CHAR_ITEM_PARSE)
  then set_value p [] else set_value p (value_ p ++ [u8 charactor]).

Definition HandleStatusValueAppend (p : Parser) (charactor : Z) : Parser :=
  set_lastValue (set_value p (value_ p ++ [u8 charactor])) (status_ p).

(** The handler [InitParamHandlers] registers for a status. *)
Definition handler (p : Parser) (charactor : Z) : Parser :=
  let s := status_ p in
  if s =? STATUS_NONE then HandleStatusNone p
  else if s =? STATUS_KEY_PARSE then HandleStatusKeyParse p charactor
  else if s =? STATUS_RUN then HandleStatusRun p
  else if s =? STATUS_VALUE_PARSE then HandleStatusValueParse p
  else if s =? STATUS_ARRAY_PARSE then HandleStatusArrayParse p
  else if s =? STATUS_STRING_PARSE then HandleStatusStringParse p charactor
  else if s =? STATUS_STRING_ITEM_PARSE then HandleStatusStringItemParse p charactor
  else if (s =? STATUS_DOUBLE_PARSE) || (s =? STATUS_INT_PARSE) ||
          (s =? STATUS_DOUBLE_ITEM_PARSE) || (s =? STATUS_INT_ITEM_PARSE) ||
          (s =? STATUS_ESCAPE_CHAR_PARSE) || (s =? STATUS_ESCAPE_CHAR_ITEM_PARSE)
  then HandleStatusValueAppend p charactor
  else p.

(** Whether [char] is signed on the platform. *)
Context (char_signed : bool).

Definition char_value (c : Z) : Z := if char_signed && (128 <=? c) then c - 256 else c.

(** The loop of [Parse], and [Parse]: the builder, or the read outside the table. *)
Fixpoint ParseLoop (p : Parser) (s : bytes) : outcome Parser :=
  match s with
  | [] => Done p
  | c :: s =>
      let charactor := char_value c in
      obind (table_at (status_ p) charactor) (λ st,
        let p := handler (set_status p st) charactor in
        ParseLoop (set_lastStatus p (status_ p)) s)
  end.

Definition Parse (jsonStr : bytes) : outcome RawDataBuilder :=
  if Zlen jsonStr =? 0 then Done (builder_ Parser_init)
  else obind (ParseLoop Parser_init jsonStr) (λ p, Done (builder_ p)).

End Handlers.

End JsonParser.
