(* ===== verification/JsonRoundTrip.v ===== *)
(** * JsonRoundTrip: parsing the JSON text of an event

    The parser recovers the fields of every JSON object in the shape the event
    printer gives: texts without quotes, commas and backslashes, integers, and
    non-empty arrays of either. *)

From S2P Require Import Prelude Platform RawData Encoder Decoder Params EventHeader Text FloatText.
From S2P Require Import DecodedEvent Builder JsonPrint JsonParse.
From stdpp Require Import base list numbers strings.
Import JsonParser.

Local Open Scope Z_scope.

(** ** The table *)

Definition goes (s c t : Z) : bool :=
  match table_at s c with Done x => x =? t | Undefined _ => false end.

Section Table.

Lemma goes_spec s c t : goes s c t = true → table_at s c = Done t.
Proof. unfold goes. destruct (table_at s c); [|done]. by intros ->%Z.eqb_eq. Qed.

(** A whole class of characters, checked by evaluation. *)
Lemma goes_class s t (excluded : Z → bool) :
  forallb (λ c, excluded c || goes s c t) (seqZ 0 256) = true →
  ∀ c, 0 <= c < 256 → excluded c = false → table_at s c = Done t.
Proof.
  intros HF c Hc He. apply goes_spec.
  pose proof (forall_small (λ c, excluded c || goes s c t) 256 HF c Hc) as E. cbn in E.
  by rewrite He in E.
Qed.

Lemma key_char c : 0 <= c < 256 → c ≠ QUOTE → table_at STATUS_KEY_PARSE c = Done STATUS_KEY_PARSE.
Proof.
  intros Hc Hq. apply (goes_class _ _ (λ c, c =? QUOTE)); [by vm_compute|done|].
  by apply Z.eqb_neq.
Qed.

Definition text_special (c : Z) : bool := (c =? QUOTE) || (c =? ESCAPE_CHAR).
Definition item_special (c : Z) : bool := text_special c || (c =? COMMA).

Lemma text_char c :
  0 <= c < 256 → text_special c = false →
  table_at STATUS_STRING_PARSE c = Done STATUS_STRING_PARSE.
Proof. apply (goes_class _ _ text_special). by vm_compute. Qed.

Lemma item_char c :
  0 <= c < 256 → item_special c = false →
  table_at STATUS_STRING_ITEM_PARSE c = Done STATUS_STRING_ITEM_PARSE.
Proof. apply (goes_class _ _ item_special). by vm_compute. Qed.

Definition not_num (c : Z) : bool := negb (is_num c).
Definition not_start (c : Z) : bool := negb (is_num c || (c =? MINUS_CHAR)).

Lemma num_char c :
  0 <= c < 256 → not_num c = false → table_at STATUS_INT_PARSE c = Done STATUS_INT_PARSE.
Proof. apply (goes_class _ _ not_num). by vm_compute. Qed.

Lemma num_item_char c :
  0 <= c < 256 → not_num c = false → table_at STATUS_INT_ITEM_PARSE c = Done STATUS_INT_ITEM_PARSE.
Proof. apply (goes_class _ _ not_num). by vm_compute. Qed.

Lemma num_start c :
  0 <= c < 256 → not_start c = false → table_at STATUS_VALUE_PARSE c = Done STATUS_INT_PARSE.
Proof. apply (goes_class _ _ not_start). by vm_compute. Qed.

Lemma num_item_start c :
  0 <= c < 256 → not_start c = false → table_at STATUS_ARRAY_PARSE c = Done STATUS_INT_ITEM_PARSE.
Proof. apply (goes_class _ _ not_start). by vm_compute. Qed.

End Table.

(** ** Runs of characters *)

Abbreviation PS b s l lv k v vs := (mkParser b s l lv k v vs).

Lemma u8_char c : 0 <= c < 256 → u8 c = c.
Proof. intros Hc. by apply u8_small. Qed.

(** One iteration of the loop, once the table gave the next status. *)
Definition advance `{HP : Heap} `{SC : Securec} (p : Parser) (c t : Z) : Parser :=
  let p := handler (set_status p t) c in set_lastStatus p (status_ p).

(** The step that adds one character to a collected text. *)
Ltac collect Hc :=
  unfold advance; cbn; unfold HandleStatusValueAppend; cbn; by rewrite u8_char by apply Hc.

Section Runs.
Context `{HP : Heap} `{SC : Securec} (char_signed : bool).

(** Characters whose index is inside the table on this platform. *)
Definition plain (c : Z) : Prop := 0 <= c < 256 ∧ (char_signed = false ∨ c < 128).

Lemma char_value_plain c : plain c → char_value char_signed c = c.
Proof.
  intros [_ [->|Hc]]; unfold char_value; [done|]. destruct (Z.leb_spec 128 c); [lia|].
  by rewrite andb_false_r.
Qed.

Lemma ParseLoop_step p c t s :
  plain c → table_at (status_ p) c = Done t →
  ParseLoop char_signed p (c :: s) = ParseLoop char_signed (advance p c t) s.
Proof. intros Hc Ht. cbn [ParseLoop]. rewrite char_value_plain by done. by rewrite Ht. Qed.

Definition key_ok (k : bytes) : Prop := k ≠ [] ∧ Forall (λ c, plain c ∧ c ≠ QUOTE) k.
Definition text_ok (s : bytes) : Prop := Forall (λ c, plain c ∧ text_special c = false) s.
Definition item_ok (s : bytes) : Prop := Forall (λ c, plain c ∧ item_special c = false) s.
Definition digits_ok (s : bytes) : Prop := Forall (λ c, plain c ∧ not_num c = false) s.

Lemma plain_ascii c : 0 <= c < 128 → plain c.
Proof. intros Hc. split; [lia|right; lia]. Qed.

Lemma step_to p q c t s :
  plain c → table_at (status_ p) c = Done t → advance p c t = q →
  ParseLoop char_signed p (c :: s) = ParseLoop char_signed q s.
Proof. intros Hc Ht <-. by apply ParseLoop_step. Qed.

(** A run of characters that stay in one status and collect. *)
Lemma run_chars (P : Z → Prop) (st : bytes → Parser) s rest :
  (∀ c v s, P c → ParseLoop char_signed (st v) (c :: s) = ParseLoop char_signed (st (v ++ [c])) s) →
  Forall P s → ∀ v,
  ParseLoop char_signed (st v) (s ++ rest) = ParseLoop char_signed (st (v ++ s)) rest.
Proof.
  intros Hstep HF. induction HF as [|c s Hc _ IH]; intros v; [by rewrite app_nil_r|].
  cbn [app]. rewrite Hstep by done. rewrite IH. by rewrite <- app_assoc.
Qed.

Lemma run_key b lv k v vs s rest :
  Forall (λ c, plain c ∧ c ≠ QUOTE) s →
  ParseLoop char_signed (PS b STATUS_KEY_PARSE STATUS_KEY_PARSE lv k v vs) (s ++ rest) =
  ParseLoop char_signed (PS b STATUS_KEY_PARSE STATUS_KEY_PARSE lv (k ++ s) v vs) rest.
Proof.
  intros HF. apply (run_chars (λ c, plain c ∧ c ≠ QUOTE)
    (λ k, PS b STATUS_KEY_PARSE STATUS_KEY_PARSE lv k v vs)); [|done].
  intros c k' s' [Hc Hq]. eapply step_to; [done|by apply key_char; [apply Hc|]|].
  collect Hc.
Qed.

Lemma run_text b k v vs s rest :
  text_ok s →
  ParseLoop char_signed (PS b STATUS_STRING_PARSE STATUS_STRING_PARSE STATUS_STRING_PARSE k v vs)
    (s ++ rest) =
  ParseLoop char_signed
    (PS b STATUS_STRING_PARSE STATUS_STRING_PARSE STATUS_STRING_PARSE k (v ++ s) vs) rest.
Proof.
  intros HF. apply (run_chars (λ c, plain c ∧ text_special c = false)
    (λ v, PS b STATUS_STRING_PARSE STATUS_STRING_PARSE STATUS_STRING_PARSE k v vs)); [|done].
  intros c k' s' [Hc Hq]. eapply step_to; [done|by apply text_char; [apply Hc|]|].
  collect Hc.
Qed.

Lemma run_item b k v vs s rest :
  item_ok s →
  ParseLoop char_signed (PS b STATUS_STRING_ITEM_PARSE STATUS_STRING_ITEM_PARSE
    STATUS_STRING_ITEM_PARSE k v vs) (s ++ rest) =
  ParseLoop char_signed (PS b STATUS_STRING_ITEM_PARSE STATUS_STRING_ITEM_PARSE
    STATUS_STRING_ITEM_PARSE k (v ++ s) vs) rest.
Proof.
  intros HF. apply (run_chars (λ c, plain c ∧ item_special c = false)
    (λ v, PS b STATUS_STRING_ITEM_PARSE STATUS_STRING_ITEM_PARSE STATUS_STRING_ITEM_PARSE k v vs));
    [|done].
  intros c k' s' [Hc Hq]. eapply step_to; [done|by apply item_char; [apply Hc|]|].
  collect Hc.
Qed.

Lemma run_digits b k v vs s rest :
  digits_ok s →
  ParseLoop char_signed (PS b STATUS_INT_PARSE STATUS_INT_PARSE STATUS_INT_PARSE k v vs) (s ++ rest) =
  ParseLoop char_signed (PS b STATUS_INT_PARSE STATUS_INT_PARSE STATUS_INT_PARSE k (v ++ s) vs) rest.
Proof.
  intros HF. apply (run_chars (λ c, plain c ∧ not_num c = false)
    (λ v, PS b STATUS_INT_PARSE STATUS_INT_PARSE STATUS_INT_PARSE k v vs)); [|done].
  intros c k' s' [Hc Hq]. eapply step_to; [done|by apply num_char; [apply Hc|]|].
  collect Hc.
Qed.

Lemma run_item_digits b k v vs s rest :
  digits_ok s →
  ParseLoop char_signed (PS b STATUS_INT_ITEM_PARSE STATUS_INT_ITEM_PARSE STATUS_INT_ITEM_PARSE
    k v vs) (s ++ rest) =
  ParseLoop char_signed (PS b STATUS_INT_ITEM_PARSE STATUS_INT_ITEM_PARSE STATUS_INT_ITEM_PARSE
    k (v ++ s) vs) rest.
Proof.
  intros HF. apply (run_chars (λ c, plain c ∧ not_num c = false)
    (λ v, PS b STATUS_INT_ITEM_PARSE STATUS_INT_ITEM_PARSE STATUS_INT_ITEM_PARSE k v vs)); [|done].
  intros c k' s' [Hc Hq]. eapply step_to; [done|by apply num_item_char; [apply Hc|]|].
  collect Hc.
Qed.

End Runs.

(** ** Printed integers *)

Section Numbers.
Context (char_signed : bool).

(** An integer that fits one of the two 64-bit types. *)
Definition json_int (z : Z) : Prop := is_s 64 z ∨ is_u 64 z.

Lemma print_base_digits n :
  0 <= n → Forall (λ c, 48 <= c <= 57) (print_base 10 n).
Proof.
  intros Hn. unfold print_base. apply Forall_fmap.
  eapply Forall_impl; [apply (digs_range 10); [lia|done]|].
  intros d Hd. cbn in *. unfold digit_char. zcase; lia.
Qed.

Lemma digit_class c : 48 <= c <= 57 → plain char_signed c ∧ not_num c = false.
Proof.
  intros Hc. split; [apply plain_ascii; lia|]. unfold not_num, is_num, NUM_MIN_CHAR, NUM_MAX_CHAR.
  rewrite Z.geb_leb. repeat zcase; done || lia.
Qed.

Lemma digits_print n : 0 <= n → digits_ok char_signed (print_base 10 n).
Proof.
  intros Hn. eapply Forall_impl; [by apply print_base_digits|]. intros c. apply digit_class.
Qed.

(** A printed integer is a sign or digit followed by digits. *)
Lemma to_string_shape z :
  ∃ c cs, to_string z = c :: cs ∧ plain char_signed c ∧ not_start c = false ∧
    digits_ok char_signed cs.
Proof.
  unfold to_string. zcase.
  - exists 45, (print_base 10 (- z)). split_and!; [done|by apply plain_ascii|done|].
    apply digits_print. lia.
  - destruct (print_base_cons 10 ltac:(lia) z) as (d & ds & E & Hd); [lia|].
    pose proof (digits_print z) as HF. rewrite E in *.
    specialize (HF ltac:(lia)). inversion HF as [|? ? [Hp Hn] HF']; subst.
    exists (digit_char d), ds. split_and!; [done|apply Hp| |done].
    unfold not_start, not_num in *. apply negb_false_iff in Hn. by rewrite Hn.
Qed.

Lemma has_char_digits c n : 0 <= n → ¬ 48 <= c <= 57 → c ∉ print_base 10 n.
Proof.
  intros Hn Hc Hin. pose proof (print_base_digits n Hn) as HF. rewrite Forall_forall in HF.
  by apply Hc, HF.
Qed.

Lemma has_minus z : has_char MINUS_CHAR (to_string z) = (z <? 0).
Proof.
  unfold has_char, to_string. zcase.
  - apply bool_decide_true. left.
  - apply bool_decide_false. apply has_char_digits; [lia|]. unfold MINUS_CHAR. lia.
Qed.

Lemma has_point z : has_char POINT_CHAR (to_string z) = false.
Proof.
  unfold has_char, to_string. apply bool_decide_false. unfold POINT_CHAR. zcase.
  - apply not_elem_of_cons. split; [lia|]. apply has_char_digits; lia.
  - apply has_char_digits; lia.
Qed.

Lemma to_string_nonblank z : skip_space (to_string z) ≠ [] ∧ 0 < Zlen (to_string z).
Proof.
  destruct (to_string_shape z) as (c & cs & -> & [Hc _] & Hs & _).
  assert (is_space c = false) as Hsp.
  { pose proof (forall_small (λ c, not_start c || negb (is_space c)) 256 ltac:(by vm_compute) c Hc)
      as E. cbn in E. rewrite Hs in E. by destruct (is_space c). }
  cbn [skip_space]. rewrite Hsp. split; [done|]. rewrite Zlen_cons.
  pose proof (Zlen_nonneg cs). lia.
Qed.

Lemma TransStrToType_string read z v : TransStrToType read (to_string z) v = read (to_string z).
Proof.
  unfold TransStrToType. destruct (to_string_nonblank z) as [Hs _].
  by destruct (skip_space (to_string z)).
Qed.

Lemma read_unsigned z : is_u 64 z → stream_unsigned 64 10 (to_string z) = z.
Proof. intros Hz. rewrite <- (app_nil_r (to_string z)). by apply stream_decimal. Qed.

Lemma read_signed z : is_s 64 z → stream_signed (to_string z) = z.
Proof. intros Hz. rewrite <- (app_nil_r (to_string z)). by apply stream_signed_decimal. Qed.

(** The texts of an array of integers, read back. *)
Lemma ConvertItems_strings read skip zs v :
  Forall (λ z, read (to_string z) = z) zs → ConvertItems read skip v (to_string <$> zs) = zs.
Proof.
  intros HF. revert v. induction HF as [|z zs Hz _ IH]; intros v; [done|].
  cbn [fmap list_fmap ConvertItems]. destruct (to_string_nonblank z) as [_ Hl].
  destruct (Z.eqb_spec (Zlen (to_string z)) 0); [lia|]. rewrite andb_false_r.
  rewrite TransStrToType_string, Hz. f_equal. apply IH.
Qed.

Lemma any_minus zs : existsb (has_char MINUS_CHAR) (to_string <$> zs) = existsb (λ z, z <? 0) zs.
Proof. induction zs as [|z zs IH]; [done|]. cbn. by rewrite has_minus, <- IH. Qed.

Lemma any_point zs : existsb (has_char POINT_CHAR) (to_string <$> zs) = false.
Proof. induction zs as [|z zs IH]; [done|]. cbn. by rewrite has_point, IH. Qed.

End Numbers.

(** ** Fields *)

(** A value in the shape the parser handles. *)
Inductive jitem :=
  | ItemText (s : bytes) | ItemInt (z : Z) | ItemTexts (ss : list bytes) | ItemInts (zs : list Z).

Definition item_jval (j : jitem) : jval :=
  match j with
  | ItemText s => JText s
  | ItemInt z => JNumber (to_string z)
  | ItemTexts ss => JArray (quoted <$> ss)
  | ItemInts zs => JArray (to_string <$> zs)
  end.

(** The argument the builder receives for it: integers are unsigned unless a
    minus sign appears. *)
Definition item_cpp (j : jitem) : CppVal :=
  match j with
  | ItemText s => CString s
  | ItemInt z => if z <? 0 then CInt 64 z else CUint 64 z
  | ItemTexts ss => CStringVec ss
  | ItemInts zs => if existsb (λ z, z <? 0) zs then CIntVec 64 zs else CUintVec 64 zs
  end.

Section Fields.
Context `{HP : Heap} `{SC : Securec} (char_signed : bool).

Definition jitem_ok (j : jitem) : Prop :=
  match j with
  | ItemText s => text_ok char_signed s
  | ItemInt z => json_int z
  | ItemTexts ss => ss ≠ [] ∧ Forall (item_ok char_signed) ss
  | ItemInts zs =>
      zs ≠ [] ∧ if existsb (λ z, z <? 0) zs then Forall (is_s 64) zs else Forall (is_u 64) zs
  end.

(** [AppendValueToBuilder] on the collected key and value. *)
Definition flush b lv k v vs : RawDataBuilder :=
  AppendValueToBuilder (PS b STATUS_RUN STATUS_RUN lv k v vs).

(** One character, to the given state. *)
Ltac step_as q :=
  etrans;
  [ apply (step_to char_signed _ q _ (status_ q));
    [ apply plain_ascii; unfold QUOTE, COLON, COMMA, LEFT_BRACKET, RIGHT_BRACKET, LEFT_BRACE,
        RIGHT_BRACE; lia
    | by vm_compute | reflexivity ]
  | ].

(** From one key's opening quote to its value. *)
Lemma run_name b lv k v vs key rest :
  key_ok char_signed key →
  ParseLoop char_signed (PS b STATUS_RUN STATUS_RUN lv k v vs) (quoted key ++ COLON :: rest) =
  ParseLoop char_signed (PS (flush b lv k v vs) STATUS_VALUE_PARSE STATUS_VALUE_PARSE lv key [] [])
    rest.
Proof.
  intros [_ HF]. unfold quoted. rewrite <- !app_assoc. cbn [app].
  step_as (PS (flush b lv k v vs) STATUS_KEY_PARSE STATUS_KEY_PARSE lv [] v vs).
  rewrite run_key by done. cbn [app].
  step_as (PS (flush b lv k v vs) STATUS_RUN STATUS_RUN lv key v vs).
  by step_as (PS (flush b lv k v vs) STATUS_VALUE_PARSE STATUS_VALUE_PARSE lv key [] []).
Qed.

(** The character behind a field: a comma, or the closing brace. *)
Definition closed b lv k v vs (last : bool) : Parser :=
  if last then PS (flush b lv k v vs) STATUS_NONE STATUS_NONE lv k v vs
  else PS b STATUS_RUN STATUS_RUN lv k v vs.
Definition close_char (last : bool) : Z := if last then RIGHT_BRACE else COMMA.

Lemma close_run b lv k v vs last rest :
  ParseLoop char_signed (PS b STATUS_RUN STATUS_RUN lv k v vs) (close_char last :: rest) =
  ParseLoop char_signed (closed b lv k v vs last) rest.
Proof.
  destruct last; cbn [close_char].
  - by step_as (closed b lv k v vs true).
  - by step_as (closed b lv k v vs false).
Qed.

Lemma close_int b k v last rest :
  ParseLoop char_signed (PS b STATUS_INT_PARSE STATUS_INT_PARSE STATUS_INT_PARSE k v [])
    (close_char last :: rest) =
  ParseLoop char_signed (closed b STATUS_INT_PARSE k v [] last) rest.
Proof.
  destruct last; cbn [close_char].
  - by step_as (closed b STATUS_INT_PARSE k v [] true).
  - by step_as (closed b STATUS_INT_PARSE k v [] false).
Qed.

Lemma run_texts b lv k vs ss rest :
  ss ≠ [] → Forall (item_ok char_signed) ss →
  ParseLoop char_signed (PS b STATUS_ARRAY_PARSE STATUS_ARRAY_PARSE lv k [] vs)
    (comma_join (quoted <$> ss) ++ RIGHT_BRACKET :: rest) =
  ParseLoop char_signed (PS b STATUS_RUN STATUS_RUN STATUS_STRING_ITEM_PARSE k [] (vs ++ ss)) rest.
Proof.
  intros Hne HF. revert lv vs. induction HF as [|s ss Hs HF IH]; intros lv vs; [done|].
  assert (∀ rest, ParseLoop char_signed (PS b STATUS_ARRAY_PARSE STATUS_ARRAY_PARSE lv k [] vs)
      (quoted s ++ rest) =
    ParseLoop char_signed (PS b STATUS_ARRAY_PARSE STATUS_ARRAY_PARSE STATUS_STRING_ITEM_PARSE k []
      (vs ++ [s])) rest) as Hone.
  { intros r. unfold quoted. rewrite <- !app_assoc. cbn [app].
    step_as (PS b STATUS_STRING_ITEM_PARSE STATUS_STRING_ITEM_PARSE STATUS_STRING_ITEM_PARSE k [] vs).
    rewrite run_item by done. cbn [app].
    by step_as (PS b STATUS_ARRAY_PARSE STATUS_ARRAY_PARSE STATUS_STRING_ITEM_PARSE k [] (vs ++ [s])). }
  destruct ss as [|s2 ss].
  - cbn [fmap list_fmap comma_join]. rewrite Hone.
    by step_as (PS b STATUS_RUN STATUS_RUN STATUS_STRING_ITEM_PARSE k [] (vs ++ [s])).
  - change (comma_join (quoted <$> s :: s2 :: ss))
      with (quoted s ++ COMMA :: comma_join (quoted <$> s2 :: ss)).
    rewrite <- app_assoc, Hone. cbn [app].
    step_as (PS b STATUS_ARRAY_PARSE STATUS_ARRAY_PARSE STATUS_STRING_ITEM_PARSE k [] (vs ++ [s])).
    rewrite IH by done. by rewrite <- app_assoc.
Qed.

Lemma run_ints b lv k vs zs rest :
  zs ≠ [] →
  ParseLoop char_signed (PS b STATUS_ARRAY_PARSE STATUS_ARRAY_PARSE lv k [] vs)
    (comma_join (to_string <$> zs) ++ RIGHT_BRACKET :: rest) =
  ParseLoop char_signed
    (PS b STATUS_RUN STATUS_RUN STATUS_INT_ITEM_PARSE k [] (vs ++ (to_string <$> zs))) rest.
Proof.
  intros Hne. revert lv vs. induction zs as [|z zs IH]; intros lv vs; [done|].
  assert (∀ rest, ParseLoop char_signed (PS b STATUS_ARRAY_PARSE STATUS_ARRAY_PARSE lv k [] vs)
      (to_string z ++ rest) =
    ParseLoop char_signed (PS b STATUS_INT_ITEM_PARSE STATUS_INT_ITEM_PARSE STATUS_INT_ITEM_PARSE k
      (to_string z) vs) rest) as Hone.
  { intros r. destruct (to_string_shape char_signed z) as (c & cs & -> & Hc & Hst & Hds).
    cbn [app]. etrans; [apply (step_to char_signed _ (PS b STATUS_INT_ITEM_PARSE
      STATUS_INT_ITEM_PARSE STATUS_INT_ITEM_PARSE k [c] vs) _ STATUS_INT_ITEM_PARSE);
      [done|by apply num_item_start; [apply Hc|]|collect Hc]|].
    by rewrite run_item_digits. }
  destruct zs as [|z2 zs].
  - cbn [fmap list_fmap comma_join]. rewrite Hone.
    by step_as (PS b STATUS_RUN STATUS_RUN STATUS_INT_ITEM_PARSE k [] (vs ++ [to_string z])).
  - change (comma_join (to_string <$> z :: z2 :: zs))
      with (to_string z ++ COMMA :: comma_join (to_string <$> z2 :: zs)).
    rewrite <- app_assoc, Hone. cbn [app].
    step_as (PS b STATUS_ARRAY_PARSE STATUS_ARRAY_PARSE STATUS_INT_ITEM_PARSE k []
      (vs ++ [to_string z])).
    rewrite IH by done. by rewrite <- app_assoc.
Qed.

Lemma flush_text b key v vs :
  key ≠ [] → flush b STATUS_STRING_PARSE key v vs = AppendValue b key (CString v).
Proof. destruct key; done. Qed.

Lemma flush_int b key z vs :
  key ≠ [] → json_int z →
  flush b STATUS_INT_PARSE key (to_string z) vs = AppendValue b key (item_cpp (ItemInt z)).
Proof.
  intros Hk Hz. transitivity (BuilderAppendIntValue b key (to_string z)); [by destruct key|].
  unfold BuilderAppendIntValue. destruct (to_string_nonblank char_signed z) as [_ Hl].
  destruct (Z.eqb_spec (Zlen (to_string z)) 0); [lia|].
  rewrite has_minus, !(TransStrToType_string char_signed). cbn [item_cpp].
  destruct (Z.ltb_spec z 0); unfold json_int, is_s, is_u in Hz.
  - rewrite read_signed; [done|]. unfold is_s. lia.
  - rewrite read_unsigned; [done|]. change (2 ^ (64 - 1)) with (2 ^ 63) in Hz. unfold is_u. lia.
Qed.

Lemma flush_texts b key v ss :
  key ≠ [] → flush b STATUS_STRING_ITEM_PARSE key v ss = AppendValue b key (CStringVec ss).
Proof. destruct key; done. Qed.

Lemma flush_ints b key v zs :
  key ≠ [] → jitem_ok (ItemInts zs) →
  flush b STATUS_INT_ITEM_PARSE key v (to_string <$> zs) = AppendValue b key (item_cpp (ItemInts zs)).
Proof.
  intros Hk [_ Hz]. transitivity (BuilderAppendIntArrayValue b key (to_string <$> zs));
    [by destruct key|].
  unfold BuilderAppendIntArrayValue. rewrite any_point, any_minus. cbn [item_cpp].
  destruct (existsb (λ z, z <? 0) zs).
  - rewrite (ConvertItems_strings char_signed); [done|]. eapply Forall_impl; [exact Hz|]. apply read_signed.
  - rewrite (ConvertItems_strings char_signed); [done|]. eapply Forall_impl; [exact Hz|]. apply read_unsigned.
Qed.

(** From the colon to the character behind the value. *)
Lemma run_value b lv0 key j :
  key_ok char_signed key → jitem_ok j →
  ∃ lv v vs, flush b lv key v vs = AppendValue b key (item_cpp j) ∧
    ∀ last rest,
      ParseLoop char_signed (PS b STATUS_VALUE_PARSE STATUS_VALUE_PARSE lv0 key [] [])
        (jval_text (item_jval j) ++ close_char last :: rest) =
      ParseLoop char_signed (closed b lv key v vs last) rest.
Proof.
  intros [Hk _] Hj. destruct j as [s|z|ss|zs]; cbn [item_jval jval_text].
  - exists STATUS_STRING_PARSE, s, []. split; [by apply flush_text|]. intros last rest.
    unfold quoted. rewrite <- !app_assoc. cbn [app].
    step_as (PS b STATUS_STRING_PARSE STATUS_STRING_PARSE STATUS_STRING_PARSE key [] []).
    rewrite run_text by done. cbn [app].
    step_as (PS b STATUS_RUN STATUS_RUN STATUS_STRING_PARSE key s []). apply close_run.
  - exists STATUS_INT_PARSE, (to_string z), []. split; [by apply flush_int|]. intros last rest.
    destruct (to_string_shape char_signed z) as (c & cs & -> & Hc & Hst & Hds). cbn [app].
    etrans; [apply (step_to char_signed _ (PS b STATUS_INT_PARSE STATUS_INT_PARSE STATUS_INT_PARSE
      key [c] []) _ STATUS_INT_PARSE); [done|by apply num_start; [apply Hc|]|collect Hc]|].
    rewrite run_digits by done. apply close_int.
  - exists STATUS_STRING_ITEM_PARSE, [], ss. split; [by apply flush_texts|]. intros last rest.
    destruct Hj as [Hne HF]. cbn [app]. rewrite <- app_assoc. cbn [app].
    step_as (PS b STATUS_ARRAY_PARSE STATUS_ARRAY_PARSE lv0 key [] []).
    rewrite run_texts by done. apply close_run.
  - exists STATUS_INT_ITEM_PARSE, [], (to_string <$> zs). split; [by apply flush_ints|].
    intros last rest. destruct Hj as [Hne _]. cbn [app]. rewrite <- app_assoc. cbn [app].
    step_as (PS b STATUS_ARRAY_PARSE STATUS_ARRAY_PARSE lv0 key [] []).
    rewrite run_ints by done. apply close_run.
Qed.

(** ** Objects *)

Definition json_field (f : bytes * jitem) : bytes * jval := (f.1, item_jval f.2).

Definition fields_ok (fs : list (bytes * jitem)) : Prop :=
  fs ≠ [] ∧ Forall (λ f, key_ok char_signed f.1 ∧ jitem_ok f.2) fs.

(** What the fields mean: one [AppendValue] each, in order. *)
Definition append_fields (b : RawDataBuilder) (fs : list (bytes * jitem)) : RawDataBuilder :=
  foldl (λ b f, AppendValue b f.1 (item_cpp f.2)) b fs.

Lemma run_fields fs : ∀ b lv k v vs,
  fields_ok fs →
  ∃ p, ParseLoop char_signed (PS b STATUS_RUN STATUS_RUN lv k v vs)
         (comma_join (field_text <$> (json_field <$> fs)) ++ [RIGHT_BRACE]) = Done p ∧
    builder_ p = append_fields (flush b lv k v vs) fs.
Proof.
  induction fs as [|[key j] fs IH]; intros b lv k v vs [Hne HF]; [done|].
  inversion HF as [|? ? [Hk Hj] HF']; subst. cbn [fst snd] in *.
  set (b1 := flush b lv k v vs).
  destruct (run_value b1 lv key j Hk Hj) as (lv' & v' & vs' & Hf & Hrun).
  destruct fs as [|f2 fs].
  - cbn [fmap list_fmap comma_join]. unfold field_text, json_field. cbn [fst snd].
    rewrite <- app_assoc. cbn [app]. rewrite run_name by done. fold b1.
    pose proof (Hrun true []) as Hlast. cbn [close_char] in Hlast. rewrite Hlast.
    cbn [ParseLoop closed]. eexists. split; [done|]. cbn. by rewrite Hf.
  - change (comma_join (field_text <$> (json_field <$> (key, j) :: f2 :: fs))) with
      (field_text (json_field (key, j)) ++ COMMA ::
       comma_join (field_text <$> (json_field <$> f2 :: fs))).
    unfold field_text at 1, json_field at 1. cbn [fst snd]. rewrite <- !app_assoc. cbn [app].
    rewrite run_name by done. fold b1. 
    pose proof (Hrun false) as Hnext. cbn [close_char] in Hnext. rewrite Hnext. cbn [closed].
    destruct (IH b1 lv' key v' vs') as (p & Hp & Hb); [by split|].
    exists p. split; [exact Hp|]. rewrite Hb, Hf. done.
Qed.

Lemma Parse_object fs :
  fields_ok fs →
  Parse char_signed (json_object (json_field <$> fs)) = Done (append_fields RawDataBuilder_new fs).
Proof.
  intros Hfs. unfold Parse, json_object. rewrite Zlen_cons.
  pose proof (Zlen_nonneg (comma_join (field_text <$> (json_field <$> fs)) ++ [RIGHT_BRACE])).
  destruct (Z.eqb_spec (1 + Zlen (comma_join (field_text <$> (json_field <$> fs)) ++ [RIGHT_BRACE])) 0);
    [lia|].
  destruct (run_fields fs RawDataBuilder_new STATUS_NONE [] [] [] Hfs) as (p & Hp & Hb).
  assert (ParseLoop char_signed Parser_init
    (LEFT_BRACE :: comma_join (field_text <$> (json_field <$> fs)) ++ [RIGHT_BRACE]) = Done p) as ->.
  { step_as (PS RawDataBuilder_new STATUS_RUN STATUS_RUN STATUS_NONE [] [] []). exact Hp. }
  cbn [obind]. by rewrite Hb.
Qed.

End Fields.
