(* ===== verification/EventJson.v ===== *)
(** * EventJson: from a decoded event to JSON and back to a builder

    [AsJsonStr] followed by the JSON parser recovers the event, for values the
    parser reads whole; numbers without a minus sign come back unsigned. *)

From S2P Require Import Prelude Platform RawData Encoder Decoder Params EventHeader Text FloatText.
From S2P Require Import Builder BuilderFacts BuilderOps Rebuild JsonPrint JsonParse JsonRoundTrip.
From S2P Require DecodedEvent.
From stdpp Require Import base list numbers strings gmap.
Import JsonParser.

Local Open Scope Z_scope.

(** ** Texts of the header *)

Section HeaderTexts.

Lemma c_str_take n d : length d = S n → 0 ∈ d → c_str (take n d) = c_str d.
Proof.
  revert n. induction d as [|c d IH]; intros n Hl Hin; [done|]. destruct n as [|n].
  - cbn in *. destruct d; [|done]. apply list_elem_of_singleton in Hin as <-. done.
  - cbn in *. zcase; [done|]. apply elem_of_cons in Hin as [?|Hin]; [congruence|].
    rewrite IH by (done || lia). done.
Qed.

Lemma value_of_zeros n ds : value_of 10 (replicate n 0 ++ ds) = value_of 10 ds.
Proof. unfold value_of. induction n; [done|]. cbn. done. Qed.

Lemma skip_hex_prefix_dec s : skip_hex_prefix 10 s = s.
Proof.
  unfold skip_hex_prefix. destruct s as [|c s]; [done|]. destruct c as [|p|p]; try done.
  repeat (destruct p as [p|p|]; try done). by destruct s.
Qed.

(** The fixed-length id reads back as the id. *)
Lemma id_text_read z : is_u 64 z → stream_unsigned 64 10 (TransUInt64ToFixedLengthStr z) = z.
Proof.
  intros Hz. unfold TransUInt64ToFixedLengthStr. rewrite Z.geb_leb.
  destruct (Z.leb_spec 20 (Zlen (to_string z))); [by apply read_unsigned|].
  pose proof (read_unsigned z Hz) as Hr. unfold Zlen in *. set (n := length (to_string z)) in *.
  rewrite drop_ge, app_nil_r by (rewrite length_replicate; lia).
  rewrite take_replicate, Nat.min_l by lia.
  destruct (Z.to_nat (20 - Z.of_nat n)) as [|k] eqn:Ek; [lia|].
  unfold stream_unsigned in *. unfold to_string in *.
  destruct (Z.ltb_spec z 0); [unfold is_u in Hz; lia|].
  assert (skip_space (replicate (S k) 48 ++ print_base 10 z) = replicate (S k) 48 ++ print_base 10 z)
    as -> by done.
  assert (take_sign (replicate (S k) 48 ++ print_base 10 z) =
    (false, replicate (S k) 48 ++ print_base 10 z)) as -> by done.
  rewrite skip_hex_prefix_dec.
  assert (take_digits 10 (replicate (S k) 48 ++ print_base 10 z) =
    replicate (S k) 0 ++ take_digits 10 (print_base 10 z)) as ->.
  { clear. induction (S k) as [|m IH]; [done|].
    cbn [replicate app take_digits]. change (digit_val 10 48) with (Some 0). cbn iota beta.
    by rewrite IH. }
  rewrite value_of_zeros.
  pose proof (read_print_base 10 ltac:(lia) z [] ltac:(lia) I) as HV. rewrite app_nil_r in HV.
  rewrite HV. unfold is_u in Hz. zcase; [lia|done].
Qed.

Lemma id_text_digits cs z : is_u 64 z → digits_ok cs (TransUInt64ToFixedLengthStr z).
Proof.
  intros [Hz _]. unfold TransUInt64ToFixedLengthStr.
  assert (digits_ok cs (to_string z)) as Hd.
  { unfold to_string. destruct (Z.ltb_spec z 0); [lia|]. by apply digits_print. }
  destruct (Zlen (to_string z) >=? 20); [done|].
  assert (∀ n, digits_ok cs (replicate n 48)) as Hrep.
  { intros n. apply Forall_replicate. by apply digit_class. }
  apply Forall_app. split; [apply Forall_take, Hrep|].
  apply Forall_app. split; [done|apply Forall_drop, Hrep].
Qed.

Lemma digits_text cs s : digits_ok cs s → text_ok cs s.
Proof.
  intros HF. eapply Forall_impl; [exact HF|]. intros c [Hc Hn]. split; [done|].
  destruct Hc as [Hc _].
  pose proof (forall_small (λ c, not_num c || negb (text_special c)) 256 ltac:(by vm_compute) c Hc)
    as E. cbn in E. rewrite Hn in E. by destruct (text_special c).
Qed.

Lemma hex_text cs n : 0 <= n → text_ok cs (TransNumToHexStr n).
Proof.
  intros Hn. unfold TransNumToHexStr, print_base. apply Forall_fmap.
  eapply Forall_impl; [apply (digs_range 16); [lia|done]|]. intros d Hd. cbn in *.
  assert (0 <= digit_char d < 128 ∧ text_special (digit_char d) = false) as [Hr Hs].
  { pose proof (forall_small (λ d, (0 <=? digit_char d) && (digit_char d <? 128) &&
      negb (text_special (digit_char d))) 16 ltac:(by vm_compute) d Hd) as E. cbn in E.
    apply andb_true_iff in E as [[E1%Z.leb_le E2%Z.ltb_lt]%andb_true_iff E3%negb_true_iff]. done. }
  split; [by apply plain_ascii|done].
Qed.

Lemma zone_text cs z : 0 <= z < 38 →
  text_ok cs (ParseTimeZone_val z) ∧ ParseTimeZone (ParseTimeZone_val z) = z.
Proof.
  intros Hz.
  pose proof (forall_small (λ z, (ParseTimeZone (ParseTimeZone_val z) =? z) &&
    forallb (λ c, (0 <=? c) && (c <? 128) && negb (text_special c)) (ParseTimeZone_val z)) 38
    ltac:(by vm_compute) z Hz) as E. cbn in E.
  apply andb_true_iff in E as [E1%Z.eqb_eq E2]. split; [|done].
  rewrite forallb_forall in E2. apply Forall_forall. intros c Hin%list_elem_of_In.
  apply E2 in Hin. apply andb_true_iff in Hin as [[H1%Z.leb_le H2%Z.ltb_lt]%andb_true_iff H3%negb_true_iff].
  split; [by apply plain_ascii|done].
Qed.

End HeaderTexts.

(** ** The event *)

Section EventRoundTrip.
Context `{HP : Heap} `{SC : Securec} `{!HeapTotal HP} (char_signed : bool).

(** The fields of the header as parser items. *)
Definition trace_items (h : HiSysEventHeader) (t : TraceInfo) : list (bytes * jitem) :=
  if isTraceOpened h =? 1 then
    [(BASE_INFO_KEY_TRACE_FLAG, ItemInt (traceFlag t));
     (BASE_INFO_KEY_TRACE_ID, ItemText (TransNumToHexStr (traceId t)));
     (BASE_INFO_KEY_SPAN_ID, ItemText (TransNumToHexStr (spanId t)));
     (BASE_INFO_KEY_PARENT_SPAN_ID, ItemText (TransNumToHexStr (pSpanId t)))]
  else [].

Definition base_items (h : HiSysEventHeader) (t : TraceInfo) : list (bytes * jitem) :=
  [(BASE_INFO_KEY_DOMAIN, ItemText (c_str (take 16 (domain h))));
   (BASE_INFO_KEY_NAME, ItemText (c_str (take 32 (name h))));
   (BASE_INFO_KEY_TYPE, ItemInt (type h + 1));
   (BASE_INFO_KEY_TIME_STAMP, ItemInt (timestamp h));
   (BASE_INFO_KEY_TIME_ZONE, ItemText (ParseTimeZone_val (timeZone h)));
   (BASE_INFO_KEY_PID, ItemInt (pid h));
   (BASE_INFO_KEY_TID, ItemInt (tid h));
   (BASE_INFO_KEY_UID, ItemInt (uid h));
   (BASE_INFO_KEY_LOG, ItemInt (log h));
   (BASE_INFO_KEY_ID, ItemText (TransUInt64ToFixedLengthStr (id h)))] ++ trace_items h t.

Lemma base_items_fields h t : json_field <$> base_items h t = base_fields h t.
Proof.
  unfold base_items, base_fields, trace_items, trace_fields. rewrite fmap_app.
  by destruct (isTraceOpened h =? 1).
Qed.

(** Values whose JSON text determines them: negative signed numbers, unsigned
    numbers, plain texts and non-empty arrays of these. *)
Definition param_item (v : PValue) : jitem :=
  match v with
  | PUnsigned x | PSigned x => ItemInt x
  | PString s => ItemText s
  | PUnsignedArray xs | PSignedArray xs => ItemInts xs
  | PStringArray ss => ItemTexts ss
  | PFloating _ _ | PFloatingArray _ _ => ItemText []
  end.

Definition json_stable (v : PValue) : Prop :=
  value_ok v ∧ jitem_ok char_signed (param_item v) ∧
  match v with
  | PSigned x => x < 0
  | PSignedArray xs => existsb (λ x, x <? 0) xs = true
  | PUnsignedArray xs => existsb (λ x, x <? 0) xs = false
  | PFloating _ _ | PFloatingArray _ _ => False
  | _ => True
  end.

Lemma param_item_field p :
  json_stable (DecodedEvent.dval_ p) →
  json_field (DecodedEvent.dkey_ p, param_item (DecodedEvent.dval_ p)) = param_field p.
Proof.
  destruct p as [k [x|xs|x|xs|T x|T xs|s|ss]]; unfold json_field, param_field;
    cbn [DecodedEvent.dkey_ DecodedEvent.dval_ param_item item_jval param_jval fst snd];
    intros (Hv & Hj & Hs); cbn [value_ok] in Hv; try done.
  - by rewrite u64_small.
  - destruct Hv as [HF _]. do 2 f_equal. rewrite (list_fmap_compose u64 to_string).
    by rewrite (fmap_small u64 (is_u 64)) by (done || apply u64_small).
  - by rewrite s64_small.
  - destruct Hv as [HF _]. do 2 f_equal. rewrite (list_fmap_compose s64 to_string).
    by rewrite (fmap_small s64 (is_s 64)) by (done || apply s64_small).
Qed.

Lemma stored_param_item v : json_stable v → stored_value (item_cpp (param_item v)) = v.
Proof.
  assert (∀ {A} (l : list A), Zlen l <= MAX_ARRAY_SIZE → take (Z.to_nat MAX_ARRAY_SIZE) l = l) as Hcut.
  { intros A l Hl. apply take_ge. unfold Zlen in Hl. lia. }
  destruct v as [x|xs|x|xs|T x|T xs|s|ss]; cbn [param_item item_cpp]; intros (Hv & Hj & Hs);
    cbn [value_ok] in Hv; try done.
  - destruct (Z.ltb_spec x 0); [unfold is_u in Hv; lia|]. cbn. by rewrite u64_small.
  - rewrite Hs. destruct Hv as [HF Hl]. cbn.
    by rewrite (fmap_small u64 (is_u 64)), Hcut by (done || apply u64_small).
  - destruct (Z.ltb_spec x 0); [|lia]. cbn. by rewrite s64_small.
  - rewrite Hs. destruct Hv as [HF Hl]. cbn.
    by rewrite (fmap_small s64 (is_s 64)), Hcut by (done || apply s64_small).
  - cbn. by rewrite Hcut.
Qed.

(** An event that survives the trip through JSON. *)
Definition event_stable (e : DecodedEvent.DecodedEvent) : Prop :=
  let h := DecodedEvent.header_ e in
  header_inv h ∧ trace_ok (DecodedEvent.traceInfo_ e) ∧ timeZone h < 38 ∧
  text_ok char_signed (c_str (domain h)) ∧ text_ok char_signed (c_str (name h)) ∧
  Forall (λ p, key_ok char_signed (DecodedEvent.dkey_ p) ∧
               IsBaseInfo (DecodedEvent.dkey_ p) = false ∧
               json_stable (DecodedEvent.dval_ p) ∧ param_fits p) (DecodedEvent.allParams_ e) ∧
  NoDup (keys (DecodedEvent.allParams_ e)).

Definition event_items (e : DecodedEvent.DecodedEvent) : list (bytes * jitem) :=
  base_items (DecodedEvent.header_ e) (DecodedEvent.traceInfo_ e) ++
  ((λ p, (DecodedEvent.dkey_ p, param_item (DecodedEvent.dval_ p))) <$> DecodedEvent.allParams_ e).

Lemma base_key_ok key : key ∈ AllBaseInfoKeys → key_ok char_signed key.
Proof.
  intros Hin. assert (forallb (λ k, negb (Zlen k =? 0) &&
    forallb (λ c, (0 <=? c) && (c <? 128) && negb (c =? QUOTE)) k) AllBaseInfoKeys = true) as HF
    by (by vm_compute).
  rewrite forallb_forall in HF. apply list_elem_of_In, HF in Hin.
  apply andb_true_iff in Hin as [Hne HF2]. split; [by destruct key|].
  rewrite forallb_forall in HF2. apply Forall_forall. intros c Hc%list_elem_of_In.
  apply HF2 in Hc. apply andb_true_iff in Hc as [[H1%Z.leb_le H2%Z.ltb_lt]%andb_true_iff H3%negb_true_iff].
  split; [by apply plain_ascii|]. by apply Z.eqb_neq.
Qed.

Lemma is_u_json w z : w <= 64 → is_u w z → json_int z.
Proof.
  intros Hw [Hlo Hhi]. right. split; [done|]. assert (2 ^ w <= 2 ^ 64); [|lia].
  apply Z.pow_le_mono_r; lia.
Qed.

Lemma event_items_ok e : event_stable e → fields_ok char_signed (event_items e).
Proof.
  intros (Hh & Ht & Hz & Htd & Htn & Hps & _). split; [done|].
  destruct Hh as [(Hd & Hn & Hts & Htz & Hu & Hp & Htid & Hi & Hty & Htr & Hl) [Hd0 Hn0]].
  destruct Ht as (Hf & Hti & Hs & Hps2).
  assert (∀ k j, k ∈ AllBaseInfoKeys → jitem_ok char_signed j →
    key_ok char_signed (k, j).1 ∧ jitem_ok char_signed (k, j).2) as Hb
    by (intros; split; [by apply base_key_ok|done]).
  apply Forall_app. split; [apply Forall_app; split|].
  - repeat (apply Forall_cons; split; [apply Hb; [by apply (bool_decide_unpack _)|]; cbn [jitem_ok]|]);
      [..|done].
    + by rewrite c_str_take.
    + by rewrite c_str_take.
    + apply (is_u_json 3); [lia|]. unfold is_u in *. lia.
    + by apply (is_u_json 64).
    + apply zone_text. unfold is_u in *. lia.
    + by apply (is_u_json 32).
    + by apply (is_u_json 32).
    + by apply (is_u_json 32).
    + by apply (is_u_json 8).
    + by apply digits_text, id_text_digits.
  - unfold trace_items. destruct (isTraceOpened _ =? 1); [|done].
    repeat (apply Forall_cons; split; [apply Hb; [by apply (bool_decide_unpack _)|]; cbn [jitem_ok]|]);
      [..|done].
    + by apply (is_u_json 8).
    + apply hex_text. apply Hti.
    + apply hex_text. apply Hs.
    + apply hex_text. apply Hps2.
  - apply Forall_fmap. eapply Forall_impl; [exact Hps|]. intros p (Hk & _ & (_ & Hj & _) & _). done.
Qed.

Lemma event_items_fields e :
  event_stable e →
  json_field <$> event_items e =
    base_fields (DecodedEvent.header_ e) (DecodedEvent.traceInfo_ e) ++
    (param_field <$> DecodedEvent.allParams_ e).
Proof.
  intros (_ & _ & _ & _ & _ & Hps & _). unfold event_items. rewrite fmap_app, base_items_fields.
  f_equal. rewrite <- list_fmap_compose. apply list_fmap_ext. intros i p Hp%list_elem_of_lookup_2.
  rewrite Forall_forall in Hps. apply param_item_field. by apply Hps.
Qed.

(** What [AppendValue] does on each reserved key. *)
Lemma append_domain b s : AppendValue b BASE_INFO_KEY_DOMAIN (CString s) = AppendDomain b s.
Proof. done. Qed.
Lemma append_name b s : AppendValue b BASE_INFO_KEY_NAME (CString s) = AppendName b s.
Proof. done. Qed.
Lemma append_type b z : AppendValue b BASE_INFO_KEY_TYPE (CUint 64 z) = AppendType b (s32 z).
Proof. done. Qed.
Lemma append_time b z : AppendValue b BASE_INFO_KEY_TIME_STAMP (CUint 64 z) = AppendTimeStamp b z.
Proof. done. Qed.
Lemma append_zone b s :
  AppendValue b BASE_INFO_KEY_TIME_ZONE (CString s) = AppendTimeZone_val b (ParseTimeZone s).
Proof. done. Qed.
Lemma append_pid b z : AppendValue b BASE_INFO_KEY_PID (CUint 64 z) = AppendPid b (z mod 2 ^ 32).
Proof. done. Qed.
Lemma append_tid b z : AppendValue b BASE_INFO_KEY_TID (CUint 64 z) = AppendTid b (z mod 2 ^ 32).
Proof. done. Qed.
Lemma append_uid b z : AppendValue b BASE_INFO_KEY_UID (CUint 64 z) = AppendUid b (z mod 2 ^ 32).
Proof. done. Qed.
Lemma append_log b z : AppendValue b BASE_INFO_KEY_LOG (CUint 64 z) = AppendLog b (z mod 2 ^ 8).
Proof. done. Qed.
Lemma append_id b s :
  AppendValue b BASE_INFO_KEY_ID (CString s) = AppendId b (stream_unsigned 64 10 s).
Proof. done. Qed.
Lemma append_flag b z :
  AppendValue b BASE_INFO_KEY_TRACE_FLAG (CUint 64 z) = AppendTraceFlag b (z mod 2 ^ 8).
Proof. done. Qed.
Lemma append_trace b s :
  AppendValue b BASE_INFO_KEY_TRACE_ID (CString s) = AppendTraceId b (stream_unsigned 64 16 s).
Proof. done. Qed.
Lemma append_span b s :
  AppendValue b BASE_INFO_KEY_SPAN_ID (CString s) = AppendSpanId b (stream_unsigned 32 16 s).
Proof. done. Qed.
Lemma append_pspan b s :
  AppendValue b BASE_INFO_KEY_PARENT_SPAN_ID (CString s) = AppendPSpanId b (stream_unsigned 32 16 s).
Proof. done. Qed.

Lemma item_uint w z : is_u w z → item_cpp (ItemInt z) = CUint 64 z.
Proof. intros [Hz _]. cbn. by destruct (Z.ltb_spec z 0); [lia|]. Qed.

Lemma type_text z : is_u 2 z → s32 (z + 1) = z + 1.
Proof. intros [Hlo Hhi]. apply sgn_small; [done|]. change (2 ^ 2) with 4 in Hhi. split; lia. Qed.

Lemma append_base_items h t :
  header_inv h → trace_ok t → timeZone h < 38 →
  append_fields RawDataBuilder_new (base_items h t) = rebuilt_base h t.
Proof.
  intros [(Hd & Hn & Hts & Htz & Hu & Hp & Htid & Hi & Hty & Htr & Hl) [Hd0 Hn0]]
    (Hf & Hti & Hs & Hps) Hz.
  pose proof (c_str_short 16 _ Hd Hd0) as Hds. pose proof (c_str_short 32 _ Hn Hn0) as Hns.
  assert (is_u 3 (type h + 1)) as Hty1 by (unfold is_u in *; lia).
  unfold append_fields, base_items. rewrite foldl_app. cbn [foldl fst snd].
  rewrite (item_uint 3 (type h + 1)), (item_uint 64 (timestamp h)), (item_uint 32 (pid h)),
    (item_uint 32 (tid h)), (item_uint 32 (uid h)), (item_uint 8 (log h)) by done. cbn [item_cpp].
  rewrite append_domain, append_name, append_type, append_time, append_zone, append_pid, append_tid,
    append_uid, append_log, append_id.
  rewrite !c_str_take, type_text, id_text_read, !(Z.mod_small (pid h)), !(Z.mod_small (tid h)),
    !(Z.mod_small (uid h)), !(Z.mod_small (log h)) by done.
  rewrite (proj2 (zone_text true (timeZone h) ltac:(unfold is_u in *; lia))).
  unfold trace_items, rebuilt_base, padded_header, DecodedEvent.opened_trace.
  destruct h as [d n ts tz u p tt i ty tr l], t as [f ti sp ps].
  cbn [domain name timestamp timeZone uid pid tid id type isTraceOpened log
    traceFlag traceId spanId pSpanId] in *.
  zcase.
  - subst tr. cbn [foldl fst snd]. rewrite (item_uint 8 f) by done. cbn [item_cpp].
    rewrite append_flag, append_trace, append_span, append_pspan.
    rewrite !stream_hex, (Z.mod_small f) by done.
    cbv beta iota zeta delta [AppendTraceFlag AppendTraceId AppendSpanId AppendPSpanId
      AppendId AppendTid AppendPid AppendUid AppendLog AppendTimeZone_val AppendTimeStamp AppendType
      AppendName AppendDomain RawDataBuilder_new header_init traceInfo_init OpenTraceFlag upd_header
      upd_trace header_ traceInfo_ allParams_ domain name timestamp timeZone uid pid tid id type
      isTraceOpened log traceFlag traceId spanId pSpanId].
    rewrite (CopyField_zero 16), (CopyField_zero 32) by (done || (unfold MEM_MAX; lia)).
    by rewrite type_round, !u64_small, !u8_small, !u32_small by done.
  - assert (tr = 0) as -> by (unfold is_u in Htr; lia). cbn [foldl].
    cbv beta iota zeta delta [AppendId AppendTid AppendPid AppendUid AppendLog AppendTimeZone_val
      AppendTimeStamp AppendType AppendName AppendDomain RawDataBuilder_new header_init upd_header
      header_ traceInfo_ allParams_ domain name timestamp timeZone uid pid tid id type
      isTraceOpened log].
    rewrite (CopyField_zero 16), (CopyField_zero 32) by (done || (unfold MEM_MAX; lia)).
    by rewrite type_round, !u64_small, !u8_small, !u32_small by done.
Qed.

Lemma filter_always (ps : list DParam) : filter (λ _ : DParam, true = true) ps = ps.
Proof. induction ps as [|p ps IH]; [done|]. rewrite filter_cons_True by done. by rewrite IH. Qed.

Lemma append_params e b :
  event_stable e → builder_ok b → allParams_ b = [] →
  ∃ qs, append_fields b ((λ p, (DecodedEvent.dkey_ p, param_item (DecodedEvent.dval_ p))) <$>
          DecodedEvent.allParams_ e) = upd_params b qs ∧
    builder_ok (upd_params b qs) ∧ carried <$> qs = DecodedEvent.allParams_ e.
Proof.
  intros (_ & _ & _ & _ & _ & Hps & Hn) Hb Hnil. unfold append_fields.
  rewrite foldl_fmap. cbn [fst snd]. rewrite Forall_forall in Hps.
  assert (filter (λ _ : DParam, true = true) (DecodedEvent.allParams_ e) = DecodedEvent.allParams_ e)
    as Hall by apply filter_always.
  destruct (init_pass (λ _, true) (λ b p, AppendValue b (DecodedEvent.dkey_ p)
    (item_cpp (param_item (DecodedEvent.dval_ p)))) (DecodedEvent.allParams_ e) b)
    as (qs & E & Hok & Hqs); [|done| | |].
  - intros b' p Hin. destruct (Hps p Hin) as (_ & Hbase & Hst & _).
    rewrite AppendValue_new by done. by rewrite stored_param_item.
  - apply Forall_forall. intros p Hin. by apply Hps.
  - unfold builder_params. rewrite Hnil, Hall. done.
  - exists qs. split_and!; [done..|]. rewrite Hqs, Hall. unfold builder_params. by rewrite Hnil.
Qed.

End EventRoundTrip.

Section Claims.
Context `{HP : Heap} `{SC : Securec} `{!HeapTotal HP} (char_signed : bool).

(** [AsJsonStr] prints one JSON object: the base fields, the trace fields
    when tracing is on, then the parameters in order, separated by single
    commas with none left at the end, although the code writes a comma after
    each and seeks back over the last. *)
Theorem json_text_is_object e :
  header_ok (DecodedEvent.header_ e) →
  AsJsonStr e =
    json_object (base_fields (DecodedEvent.header_ e) (DecodedEvent.traceInfo_ e) ++
                 (param_field <$> DecodedEvent.allParams_ e)).
Proof. intros (Hd & Hn & _). by apply AsJsonStr_object. Qed.

(** the table-driven parser turns every JSON object of texts, integers and
    non-empty arrays of these into exactly one [AppendValue] per field, in
    order, with the C++ type the number's sign selects. *)
Theorem json_parse_object fs :
  fields_ok char_signed fs →
  Parse char_signed (json_object (json_field <$> fs)) =
    DecodedEvent.Done (append_fields RawDataBuilder_new fs).
Proof. apply Parse_object. Qed.

Lemma stable_event_roundtrip e :
  event_stable char_signed e →
  ∃ b, Parse char_signed (AsJsonStr e) = DecodedEvent.Done b ∧ builder_ok b ∧
    header_ b = padded_header (DecodedEvent.header_ e) ∧
    traceInfo_ b = DecodedEvent.opened_trace (DecodedEvent.header_ e) (DecodedEvent.traceInfo_ e) ∧
    builder_params b = DecodedEvent.allParams_ e.
Proof.
  intros He. pose proof He as (Hh & Ht & Hz & _). pose proof Hh as [(Hd & Hn & _) _].
  rewrite AsJsonStr_object, <- (event_items_fields char_signed) by done.
  rewrite Parse_object by by apply event_items_ok.
  unfold append_fields, event_items. rewrite foldl_app.
  pose proof (append_base_items _ _ Hh Ht Hz) as Hbase. unfold append_fields in Hbase.
  rewrite Hbase. destruct (append_params char_signed e (rebuilt_base (DecodedEvent.header_ e)
    (DecodedEvent.traceInfo_ e)) He) as (qs & Hqs & Hok & Hps); [by apply rebuilt_base_ok|done|].
  unfold append_fields in Hqs. rewrite Hqs. eexists. split_and!; [done|apply Hok..|done|done|].
  unfold builder_params. done.
Qed.

(** What the parser makes of a value's text: a number without a minus sign is
    an unsigned one. *)
Definition read_back (v : PValue) : PValue :=
  match v with
  | PSigned x => if x <? 0 then v else PUnsigned x
  | PSignedArray xs => if existsb (λ x, x <? 0) xs then v else PUnsignedArray xs
  | _ => v
  end.

Definition read_back_param (p : DecodedEvent.DecodedParam) : DecodedEvent.DecodedParam :=
  DecodedEvent.mkDecodedParam (DecodedEvent.dkey_ p) (read_back (DecodedEvent.dval_ p)).

(** Values whose text the parser reads whole: integers, texts without quotes
    and backslashes, non-empty arrays of these whose texts hold no comma
    either; no floating-point numbers. *)
Definition json_plain (v : PValue) : Prop :=
  value_ok v ∧ jitem_ok char_signed (param_item v) ∧
  match v with PFloating _ _ | PFloatingArray _ _ => False | _ => True end.

Definition event_plain (e : DecodedEvent.DecodedEvent) : Prop :=
  let h := DecodedEvent.header_ e in
  header_inv h ∧ trace_ok (DecodedEvent.traceInfo_ e) ∧ timeZone h < 38 ∧
  text_ok char_signed (c_str (domain h)) ∧ text_ok char_signed (c_str (name h)) ∧
  Forall (λ p, key_ok char_signed (DecodedEvent.dkey_ p) ∧
               IsBaseInfo (DecodedEvent.dkey_ p) = false ∧
               json_plain (DecodedEvent.dval_ p) ∧ param_fits (read_back_param p))
    (DecodedEvent.allParams_ e) ∧
  NoDup (keys (DecodedEvent.allParams_ e)).

Definition read_back_event (e : DecodedEvent.DecodedEvent) : DecodedEvent.DecodedEvent :=
  DecodedEvent.mkDecodedEvent (DecodedEvent.rawData_ e) (DecodedEvent.pos_ e) (DecodedEvent.header_ e)
    (DecodedEvent.traceInfo_ e) (DecodedEvent.isValid_ e) (read_back_param <$> DecodedEvent.allParams_ e).

Lemma read_back_item v : param_item (read_back v) = param_item v.
Proof. by destruct v; cbn; try case_match. Qed.

Lemma no_sign xs : Forall (is_u 64) xs → existsb (λ x, x <? 0) xs = false.
Proof.
  intros HF. induction HF as [|x xs [Hx _] _ IH]; [done|]. cbn. rewrite IH.
  by destruct (Z.ltb_spec x 0); [lia|].
Qed.

Lemma unsigned_range x : is_s 64 x → 0 <= x → is_u 64 x.
Proof. intros [H1 H2] Hx. split; [done|]. change (2 ^ (64 - 1)) with 9223372036854775808 in H2. change (2 ^ 64) with 18446744073709551616. lia. Qed.

Lemma existsb_sign xs : existsb (λ x, x <? 0) xs = false → Forall (λ x, 0 <= x) xs.
Proof.
  induction xs as [|x xs IH]; [constructor|]. cbn. intros [Hx Hs]%orb_false_iff. constructor; [|by apply IH].
  by apply Z.ltb_ge in Hx.
Qed.

Lemma read_back_stable v : json_plain v → json_stable char_signed (read_back v).
Proof.
  intros (Hv & Hj & Hs). unfold json_stable. rewrite read_back_item.
  destruct v as [x|xs|x|xs|T x|T xs|s|ss]; cbn [read_back value_ok] in *; try done.
  - split; [done|]. split; [done|]. apply no_sign, Hv.
  - destruct (Z.ltb_spec x 0); (split; [|by split]); [done|by apply unsigned_range].
  - destruct Hv as [HF Hl]. destruct (existsb _ xs) eqn:E; (split; [|by split]); [done|]. cbn [value_ok].
    split; [|done]. apply existsb_sign in E. rewrite Forall_forall in HF, E |- *.
    intros x Hx. apply unsigned_range; auto.
Qed.

Lemma read_back_text v : json_plain v → param_jval (read_back v) = param_jval v.
Proof.
  intros (Hv & _ & Hs).
  destruct v as [x|xs|x|xs|T x|T xs|s|ss]; cbn [read_back value_ok param_jval] in *; try done.
  - destruct (Z.ltb_spec x 0); [done|]. cbn [param_jval].
    by rewrite u64_small, s64_small by (done || by apply unsigned_range).
  - destruct Hv as [HF Hl]. destruct (existsb _ xs) eqn:E; [done|]. cbn [param_jval].
    apply existsb_sign in E. f_equal. apply list_fmap_ext. intros i x Hx%list_elem_of_lookup_2.
    rewrite Forall_forall in HF, E. by rewrite u64_small, s64_small by (auto using unsigned_range).
Qed.

Lemma read_back_event_stable e : event_plain e → event_stable char_signed (read_back_event e).
Proof.
  intros (Hh & Ht & Hz & Hd & Hn & Hps & Hk). unfold event_stable. cbn [DecodedEvent.header_ DecodedEvent.traceInfo_
    DecodedEvent.allParams_ read_back_event]. split_and!; [done..| |].
  - apply Forall_fmap. eapply Forall_impl; [exact Hps|]. intros p (H1 & H2 & H3 & H4).
    split_and!; [done..| |done]. by apply read_back_stable.
  - unfold keys in *. by rewrite <- list_fmap_compose.
Qed.

Lemma read_back_event_text e : event_plain e → AsJsonStr (read_back_event e) = AsJsonStr e.
Proof.
  intros ((Hd & Hn & _) & Ht & _ & _ & _ & Hps & _). rewrite !AsJsonStr_object by apply Hd.
  cbn [DecodedEvent.header_ DecodedEvent.traceInfo_ DecodedEvent.allParams_ read_back_event].
  do 2 f_equal. rewrite <- list_fmap_compose. apply list_fmap_ext.
  intros i p Hp%list_elem_of_lookup_2. rewrite Forall_forall in Hps. destruct (Hps p Hp) as (_ & _ & Hj & _).
  cbn. unfold param_field. cbn. by rewrite read_back_text.
Qed.

(** C4: a decoded event with a plain text form is printed as JSON; parsing the
    text back gives a builder with the event's header, its trace information
    when tracing is on, and its parameters in order, a signed number or array
    without a negative number read back as an unsigned one. [event_plain]: no
    parameter is a floating-point number ([json_exponent_drops_params]), no text
    holds a quote, a backslash or, where [char] is signed, a byte of 128 or
    more ([json_signed_char_out_of_table]), no array is empty, no text of an
    array holds a comma, the names of the parameters differ and are none of the
    header's, each parameter fits a builder, the time zone is one of the
    table. *)
Theorem event_json_roundtrip e :
  event_plain e →
  ∃ b, Parse char_signed (AsJsonStr e) = DecodedEvent.Done b ∧ builder_ok b ∧
    header_ b = padded_header (DecodedEvent.header_ e) ∧
    traceInfo_ b = DecodedEvent.opened_trace (DecodedEvent.header_ e) (DecodedEvent.traceInfo_ e) ∧
    builder_params b = read_back_param <$> DecodedEvent.allParams_ e.
Proof.
  intros Hp. pose proof (read_back_event_stable e Hp) as He.
  destruct (stable_event_roundtrip _ He) as (b & Hb & R). rewrite read_back_event_text in Hb by done.
  by exists b.
Qed.

End Claims.

(** ** Concrete events *)

Definition sample_event : DecodedEvent.DecodedEvent :=
  DecodedEvent.mkDecodedEvent None 0
    (mkHeader (padded 17 (str "HIVIEW")) (padded 33 (str "SAMPLE")) 1700000000 27 1000 12 13
       77 0 1 0)
    (mkTraceInfo 1 255 16 17) true
    [DecodedEvent.mkDecodedParam (str "NUM") (PUnsigned 12);
     DecodedEvent.mkDecodedParam (str "TEXT") (PString (str "hi there"));
     DecodedEvent.mkDecodedParam (str "SIGNED") (PSigned 7);
     DecodedEvent.mkDecodedParam (str "INTS") (PSignedArray [-1; 5]);
     DecodedEvent.mkDecodedParam (str "TEXTS") (PStringArray [str "a"; []])].

Lemma text_ok_dec cs s :
  forallb (λ c, (0 <=? c) && (c <? 128) && negb (text_special c)) s = true → text_ok cs s.
Proof.
  rewrite forallb_forall. intros HF. apply Forall_forall. intros c Hc%list_elem_of_In.
  apply HF in Hc. apply andb_true_iff in Hc as [[H1%Z.leb_le H2%Z.ltb_lt]%andb_true_iff H3%negb_true_iff].
  split; [by apply plain_ascii|done].
Qed.

Lemma key_ok_dec cs s :
  negb (Zlen s =? 0) && forallb (λ c, (0 <=? c) && (c <? 128) && negb (c =? QUOTE)) s = true →
  key_ok cs s.
Proof.
  intros [Hne HF]%andb_true_iff. split; [by destruct s|]. rewrite forallb_forall in HF.
  apply Forall_forall. intros c Hc%list_elem_of_In. apply HF in Hc.
  apply andb_true_iff in Hc as [[H1%Z.leb_le H2%Z.ltb_lt]%andb_true_iff H3%negb_true_iff].
  split; [by apply plain_ascii|by apply Z.eqb_neq].
Qed.

Lemma item_ok_dec cs s :
  forallb (λ c, (0 <=? c) && (c <? 128) && negb (item_special c)) s = true → item_ok cs s.
Proof.
  rewrite forallb_forall. intros HF. apply Forall_forall. intros c Hc%list_elem_of_In.
  apply HF in Hc. apply andb_true_iff in Hc as [[H1%Z.leb_le H2%Z.ltb_lt]%andb_true_iff H3%negb_true_iff].
  split; [by apply plain_ascii|done].
Qed.

Lemma sample_params_plain :
  Forall (λ p, key_ok true (DecodedEvent.dkey_ p) ∧ IsBaseInfo (DecodedEvent.dkey_ p) = false ∧
               json_plain true (DecodedEvent.dval_ p) ∧ param_fits (read_back_param p))
    (DecodedEvent.allParams_ sample_event).
Proof.
  assert (∀ p, value_ok (DecodedEvent.dval_ p) →
    Zlen (param_bytes (DecodedEvent.dkey_ p) (DecodedEvent.dval_ p)) <= LEN_MAX → param_fits p)
    as Hfits by (by split).
  repeat apply Forall_cons_2; [..|apply Forall_nil_2];
    (split; [apply key_ok_dec; by vm_compute|split; [by vm_compute|]]).
  - assert (value_ok (PUnsigned 12)) by (split; by vm_compute).
    split; [split_and!; [done|by right|done]|apply Hfits; [done|by vm_compute]].
  - split; [split_and!; [done|by apply text_ok_dec|done]|apply Hfits; [done|by vm_compute]].
  - assert (value_ok (PSigned 7)) by (split; by vm_compute).
    split; [split_and!; [done|by right|done]|apply Hfits; [by split; vm_compute|by vm_compute]].
  - assert (Forall (is_s 64) [-1; 5]) as HF by (repeat constructor; by vm_compute).
    assert (value_ok (PSignedArray [-1; 5])) by (by split).
    split; [split_and!; [done|by split|done]|apply Hfits; [done|by vm_compute]].
  - split; [split_and!; [by vm_compute| |done]|apply Hfits; by vm_compute].
    split; [done|]. apply Forall_cons_2; [by apply item_ok_dec|].
    apply Forall_cons_2; [by apply item_ok_dec|apply Forall_nil_2].
Qed.

Lemma sample_event_plain : event_plain true sample_event.
Proof.
  split; [|split; [|split; [by vm_compute|split; [|split; [|split]]]]].
  - split; [repeat split; vm_compute; done|].
    split; by apply (bool_decide_unpack _).
  - repeat split; vm_compute; done.
  - apply text_ok_dec. by vm_compute.
  - apply text_ok_dec. by vm_compute.
  - apply sample_params_plain.
  - by apply (bool_decide_unpack _).
Qed.

Lemma json_text_is_object_witness :
  AsJsonStr sample_event =
    json_object (base_fields (DecodedEvent.header_ sample_event) (DecodedEvent.traceInfo_ sample_event)
      ++ (param_field <$> DecodedEvent.allParams_ sample_event)).
Proof. apply (json_text_is_object sample_event). apply sample_event_plain. Defined.

Lemma json_parse_object_witness :
  Parse true (json_object (json_field <$> [(str "A", ItemInt (-3)); (str "B", ItemText [])])) =
    DecodedEvent.Done (append_fields RawDataBuilder_new
      [(str "A", ItemInt (-3)); (str "B", ItemText [])]).
Proof.
  apply (json_parse_object true [(str "A", ItemInt (-3)); (str "B", ItemText [])]).
  split; [done|]. apply Forall_cons_2; [|apply Forall_cons_2; [|apply Forall_nil_2]].
  - split; [by apply key_ok_dec|]. left. split; by vm_compute.
  - split; [by apply key_ok_dec|by apply text_ok_dec].
Defined.

Lemma event_json_roundtrip_witness :
  ∃ b, Parse true (AsJsonStr sample_event) = DecodedEvent.Done b ∧
    builder_params b = read_back_param <$> DecodedEvent.allParams_ sample_event.
Proof.
  destruct (event_json_roundtrip true sample_event sample_event_plain)
    as (b & Hb & _ & _ & _ & Hps).
  exists b. exact (conj Hb Hps).
Defined.

(** An event with the double 1e+06, printed without a point, before another
    parameter. *)
Definition exponent_event : DecodedEvent.DecodedEvent :=
  DecodedEvent.mkDecodedEvent None 0 header_init traceInfo_init true
    [DecodedEvent.mkDecodedParam (str "D") (PFloating TDouble 4696837146684686336);
     DecodedEvent.mkDecodedParam (str "N") (PUnsigned 5)].

(** A double whose shortest form has an exponent and no point ends the
    parse: after [AsJsonStr] prints 1e+06 the parser keeps the integer 1 and
    drops every later parameter of the event. *)
Theorem json_exponent_drops_params :
  match Parse true (AsJsonStr exponent_event) with
  | DecodedEvent.Done b => builder_params b = [DecodedEvent.mkDecodedParam (str "D") (PUnsigned 1)]
  | _ => False
  end.
Proof. by vm_compute. Qed.

(** With signed [char], a byte of 128 or more indexes the status table
    below zero. *)
Theorem json_signed_char_out_of_table :
  Parse true (str "{" ++ [QUOTE; 228]) = DecodedEvent.Undefined UB_OutOfBounds ∧
  ∃ b, Parse false (str "{" ++ [QUOTE; 228]) = DecodedEvent.Done b.
Proof. split; [by vm_compute|]. eexists. vm_compute. reflexivity. Qed.
