(* ===== verification/Disk.v ===== *)
(** * Disk: programs that change files, and what a crash leaves behind

    The event store keeps numbers and archives in files and has to survive a
    restart at any moment.  Code that does is modelled as a program over file
    operations; an operation may fail, and the process may stop between any two
    of them.  [FileSystem] models the functions of base/utility/file_util.cpp the
    store uses; [crash_wp] is the condition under which a program ends well and
    leaves a given condition true whenever it is cut short. *)

From S2P Require Import Prelude.
From stdpp Require Import base gmap list strings.

Local Open Scope Z_scope.

(** ** Programs over operations *)

Inductive prog (Op : Type → Type) (A : Type) : Type :=
  | Ret (a : A)
  | Do {B : Type} (o : Op B) (k : B → prog Op A).
Arguments Ret {Op A} a.
Arguments Do {Op A B} o k.

Fixpoint pbind {Op A B} (p : prog Op A) (f : A → prog Op B) : prog Op B :=
  match p with
  | Ret a => f a
  | Do o k => Do o (λ b, pbind (k b) f)
  end.

Definition perform {Op B} (o : Op B) : prog Op B := Do o Ret.

Declare Scope disk_scope.
Delimit Scope disk_scope with disk.
Notation "x <- p ;; q" := (pbind p (λ x, q))
  (at level 100, p at next level, right associativity) : disk_scope.
Notation "p ;; q" := (pbind p (λ _, q)) (at level 100, right associativity) : disk_scope.

Section Semantics.
Context {Op : Type → Type} {W : Type}.
Context (step : ∀ B, Op B → W → B → W → Prop).

(** A run to the end, and a run cut short. *)
Inductive runs {A} : prog Op A → W → A → W → Prop :=
  | run_ret a w : runs (Ret a) w a w
  | run_do B (o : Op B) k w b w' a w'' :
      step B o w b w' → runs (k b) w' a w'' → runs (Do o k) w a w''.

Inductive stops {A} : prog Op A → W → W → Prop :=
  | stop_here p w : stops p w w
  | stop_later B (o : Op B) k w b w' w'' :
      step B o w b w' → stops (k b) w' w'' → stops (Do o k) w w''.

(** The condition on the start: [Q] holds at the end, [C] at every moment. *)
Fixpoint crash_wp {A} (p : prog Op A) (Q : A → W → Prop) (C : W → Prop) (w : W) : Prop :=
  C w ∧
  match p with
  | Ret a => Q a w
  | @Do _ _ B o k => ∀ b w', step B o w b w' → crash_wp (k b) Q C w'
  end.

Lemma crash_wp_here {A} (p : prog Op A) Q C w : crash_wp p Q C w → C w.
Proof. destruct p; by intros [HC _]. Qed.

Lemma crash_wp_runs {A} (p : prog Op A) Q C w a w' :
  crash_wp p Q C w → runs p w a w' → Q a w'.
Proof.
  intros Hp Hr. induction Hr as [a w|B o k w b w' a w'' Hs _ IH]; destruct Hp as [_ Hp]; [done|].
  apply IH, (Hp _ _ Hs).
Qed.

Lemma crash_wp_stops {A} (p : prog Op A) Q C w w' :
  crash_wp p Q C w → stops p w w' → C w'.
Proof.
  intros Hp Hr. induction Hr as [p w|B o k w b w' w'' Hs _ IH]; [by eapply crash_wp_here|].
  apply IH. destruct Hp as [_ Hp]. apply (Hp _ _ Hs).
Qed.

Lemma crash_wp_bind {A B} (p : prog Op A) (f : A → prog Op B) Q C w :
  crash_wp p (λ a w, crash_wp (f a) Q C w) C w → crash_wp (pbind p f) Q C w.
Proof.
  revert w. induction p as [a|X o k IH]; intros w [HC Hp]; [done|].
  split; [done|]. intros b w' Hs. apply IH, Hp, Hs.
Qed.

Lemma crash_wp_ret {A} (a : A) (Q : A → W → Prop) (C : W → Prop) w :
  C w → Q a w → crash_wp (Ret a) Q C w.
Proof. done. Qed.

Lemma crash_wp_call {A B} (o : Op B) (f : B → prog Op A) Q (C : W → Prop) w :
  C w → (∀ b w', step B o w b w' → crash_wp (f b) Q C w') → crash_wp (pbind (perform o) f) Q C w.
Proof. done. Qed.

Lemma crash_wp_mono {A} (p : prog Op A) (Q Q' : A → W → Prop) (C C' : W → Prop) w :
  (∀ a w, Q a w → Q' a w) → (∀ w, C w → C' w) → crash_wp p Q C w → crash_wp p Q' C' w.
Proof.
  intros HQ HC. revert w. induction p as [a|X o k IH]; intros w [Hc Hp]; split; eauto.
Qed.

Lemma runs_stops {A} (p : prog Op A) w a w' : runs p w a w' → stops p w w'.
Proof. induction 1; econstructor; eauto. Qed.

End Semantics.

Arguments crash_wp : simpl never.
Arguments pbind : simpl never.
Arguments perform : simpl never.

(** ** Files *)

Module FileSystem.

(** A file: bytes, or an archive with the entries added so far and whether it
    was closed (only then is it readable). *)
Inductive File := Plain (content : bytes) | Zip (entries : list bytes) (closed : bool).

#[global] Instance File_eq_dec : EqDecision File.
Proof. solve_decision. Defined.

Abbreviation Files := (gmap bytes File).

(** What the store's code does with files. *)
Inductive FileOp : Type → Type :=
  | FileExists (path : bytes) : FileOp bool
  | RemoveFile (path : bytes) : FileOp bool
  | RenameFile (src dest : bytes) : FileOp bool
  | LoadString (path : bytes) : FileOp (option bytes)
  | Overwrite (path content : bytes) : FileOp bool
  | DirExists (path : bytes) : FileOp bool
  | ForceCreateDirectory (path : bytes) : FileOp bool
  | OpenZip (zip : bytes) : FileOp bool
  | AddFileInZip (zip file : bytes) : FileOp bool
  | CloseZip (zip : bytes) : FileOp unit.

(** Writing over a file from its start, without truncating it. *)
Definition written_over (old : option File) (content : bytes) : File :=
  match old with
  | Some (Plain bs) => Plain (content ++ drop (length content) bs)
  | _ => Plain content
  end.

Definition zip_entries (f : option File) : list bytes :=
  match f with Some (Zip es _) => es | _ => [] end.

(** [remove] also succeeds on a file that is not there.  A failed operation
    changes nothing, except that entries of an open archive may be damaged.
    Opening an archive for writing starts it afresh, only closing it makes it
    readable. *)
Definition file_step (B : Type) (o : FileOp B) (w : Files) : B → Files → Prop :=
  match o in FileOp B return B → Files → Prop with
  | FileExists p => λ b w', b = bool_decide (is_Some (w !! p)) ∧ w' = w
  | RemoveFile p => λ b w', (b = true ∧ w' = delete p w) ∨ (b = false ∧ is_Some (w !! p) ∧ w' = w)
  | RenameFile src dest => λ b w',
      (b = true ∧ ∃ f, w !! src = Some f ∧ w' = <[dest := f]> (delete src w)) ∨ (b = false ∧ w' = w)
  | LoadString p => λ r w', w' = w ∧ (r = None ∨ ∃ bs, r = Some bs ∧ w !! p = Some (Plain bs))
  | Overwrite p c => λ b w',
      (b = true ∧ w' = <[p := written_over (w !! p) c]> w) ∨ (b = false ∧ w' = w)
  | DirExists p | ForceCreateDirectory p => λ _ w', w' = w
  | OpenZip z => λ b w', (b = true ∧ w' = <[z := Zip [] false]> w) ∨ (b = false ∧ w' = w)
  | AddFileInZip z f => λ b w',
      (b = true ∧ w' = <[z := Zip (zip_entries (w !! z) ++ [f]) false]> w) ∨
      (b = false ∧ ∃ es, w' = <[z := Zip es false]> w)
  | CloseZip z => λ _ w', w' = <[z := Zip (zip_entries (w !! z)) true]> w
  end.

(** The outcome of an operation that succeeds, and the first [n] steps of a
    program when all of them do. *)
Definition ok_step {B : Type} (o : FileOp B) (w : Files) : B * Files :=
  match o in FileOp B return B * Files with
  | FileExists p => (bool_decide (is_Some (w !! p)), w)
  | RemoveFile p => (true, delete p w)
  | RenameFile src dest =>
      match w !! src with Some f => (true, <[dest := f]> (delete src w)) | None => (false, w) end
  | LoadString p => (match w !! p with Some (Plain bs) => Some bs | _ => None end, w)
  | Overwrite p c => (true, <[p := written_over (w !! p) c]> w)
  | DirExists p | ForceCreateDirectory p => (true, w)
  | OpenZip z => (true, <[z := Zip [] false]> w)
  | AddFileInZip z f => (true, <[z := Zip (zip_entries (w !! z) ++ [f]) false]> w)
  | CloseZip z => (tt, <[z := Zip (zip_entries (w !! z)) true]> w)
  end.

Fixpoint run_n {A} (n : nat) (p : prog FileOp A) (w : Files) : Files :=
  match n, p with
  | S n, Do o k => let '(b, w') := ok_step o w in run_n n (k b) w'
  | _, _ => w
  end.

Fixpoint run_all {A} (p : prog FileOp A) (w : Files) : A * Files :=
  match p with
  | Ret a => (a, w)
  | Do o k => let '(b, w') := ok_step o w in run_all (k b) w'
  end.

Lemma ok_step_step {B} (o : FileOp B) w : file_step B o w (ok_step o w).1 (ok_step o w).2.
Proof.
  destruct o; cbn; auto.
  - destruct (w !! src) as [f|] eqn:E; cbn; [left; eauto|by right].
  - split; [done|]. destruct (w !! path) as [[bs|]|] eqn:E; eauto.
Qed.

Lemma run_n_stops {A} n (p : prog FileOp A) w : stops file_step p w (run_n n p w).
Proof.
  revert p w. induction n as [|n IH]; intros p w; [constructor|]. destruct p as [a|B o k]; [constructor|].
  cbn. pose proof (ok_step_step o w) as Hs. destruct (ok_step o w) as [b w']. econstructor; [exact Hs|]. apply IH.
Qed.

Lemma run_all_runs {A} (p : prog FileOp A) w : runs file_step p w (run_all p w).1 (run_all p w).2.
Proof.
  revert w. induction p as [a|B o k IH]; intros w; [constructor|]. cbn.
  pose proof (ok_step_step o w) as Hs. destruct (ok_step o w) as [b w']. econstructor; [exact Hs|]. apply IH.
Qed.

End FileSystem.
