(* ===== verification/DbFile.v ===== *)
(** * DbFile: the names of the event documents

    Models base/event_store/utility/base/event_db_file_util.cpp, the string
    helpers of base/utility/string_util.cpp it uses, and the parts of
    base/event_store/store/sys_event_doc.cpp that name a document and choose the
    current one: a document is NAME-TYPE-LEVEL-SEQ-INTERVAL.db in the directory
    of its domain. *)

From S2P Require Import Prelude Text.
From stdpp Require Import base list numbers strings.

Local Open Scope Z_scope.

Module DbFile.

(** ** Strings *)

(** [std::string::find]: the first position where [sub] occurs. *)
Fixpoint find_sub (sub s : bytes) : option nat :=
  if bool_decide (sub `prefix_of` s) then Some O
  else match s with
       | [] => None
       | _ :: s => S <$> find_sub sub s
       end.

Fixpoint trim_front (c : Z) (s : bytes) : bytes :=
  match s with
  | x :: rest => if x =? c then trim_front c rest else s
  | [] => []
  end.

(** [TrimStr] with the default character, a space. *)
Definition TrimStr (s : bytes) : bytes :=
  reverse (trim_front 32 (reverse (trim_front 32 s))).

(** [SplitStr(str, sep, strs)] with its defaults: parts are trimmed, empty
    parts dropped.  Each round removes a separator, so the length is enough. *)
Fixpoint SplitLoop (fuel : nat) (sep strTmp : bytes) : list bytes :=
  match fuel with
  | O => []
  | S fuel =>
      match (if bool_decide (sep = []) then None else find_sub sep strTmp) with
      | None => let strPart := TrimStr strTmp in
                if bool_decide (strPart = []) then [] else [strPart]
      | Some pos =>
          let strPart := TrimStr (take pos strTmp) in
          (if bool_decide (strPart = []) then [] else [strPart]) ++
          SplitLoop fuel sep (drop (length sep + pos) strTmp)
      end
  end.

Definition SplitStr (s sep : bytes) : list bytes := SplitLoop (S (length (TrimStr s))) sep (TrimStr s).

(** [ConvertStringTo<T>] for a signed [w]-bit integer: blank text leaves the
    value alone, a value out of range is the nearest bound. *)
Definition ConvertStringTo (w : Z) (s : bytes) (out : Z) : Z :=
  match skip_space s with
  | [] => out
  | _ => Z.max (- 2 ^ (w - 1)) (Z.min (2 ^ (w - 1) - 1) (stream_signed s))
  end.

(** ** Names *)

Definition MAX_DOMAIN_LEN : Z := 17.
Definition MAX_EVENT_NAME_LEN : Z := 33.

Definition is_alpha (c : Z) : bool := ((65 <=? c) && (c <=? 90)) || ((97 <=? c) && (c <=? 122)).
Definition is_digit (c : Z) : bool := (48 <=? c) && (c <=? 57).

Definition IsValidDomainName (content : bytes) (lenLimit : Z) : bool :=
  if Zlen content >=? lenLimit then false
  else forallb (λ c, is_digit c || is_alpha c || (c =? 95)) content.

Definition FAULT : Z := 1.
Definition STATISTIC : Z := 2.
Definition SECURITY : Z := 3.
Definition BEHAVIOR : Z := 4.

Definition IsValidType (type : Z) : bool :=
  (type =? FAULT) || (type =? STATISTIC) || (type =? SECURITY) || (type =? BEHAVIOR).

Definition NAME_ONLY : Z := 1.
Definition TYPE_ONLY : Z := 2.
Definition LEVEL_ONLY : Z := 4.
Definition SEQ_ONLY : Z := 8.
Definition REPORT_INTERVAL_ONLY : Z := 16.
Definition ALL_INFO : Z := 255.
Definition NOT_CFG_REPORT_INTERVAL : Z := -1.

Record SplitedEventInfo := mkInfo {
  i_name : bytes;
  i_type : Z;
  i_level : bytes;
  i_seq : Z;
  i_reportInterval : Z
}.

Definition SplitedEventInfo_new : SplitedEventInfo := mkInfo [] 0 [] 0 NOT_CFG_REPORT_INTERVAL.

Definition asks (parseType flag : Z) : bool := negb (Z.land parseType flag =? 0).

(** The parsers return whether they succeeded and the information as far as it
    was filled in. *)
Definition parse_step (cond : bool) (step : SplitedEventInfo → bool * SplitedEventInfo)
    (k : SplitedEventInfo → bool * SplitedEventInfo) (info : SplitedEventInfo)
    : bool * SplitedEventInfo :=
  if cond then let '(ok, info) := step info in if ok then k info else (false, info) else k info.

Definition part (l : list bytes) (i : nat) : bytes := default [] (l !! i).

Definition ParseVer1DbFileName (l : list bytes) (info : SplitedEventInfo) (parseType : Z)
    : bool * SplitedEventInfo :=
  parse_step (asks parseType NAME_ONLY) (λ info,
    let name := part l 0 in
    if negb (IsValidDomainName name MAX_EVENT_NAME_LEN) then (false, info)
    else (true, mkInfo name (i_type info) (i_level info) (i_seq info) (i_reportInterval info)))
  (parse_step (asks parseType TYPE_ONLY) (λ info,
    let type := ConvertStringTo 32 (part l 1) 0 in
    if negb (IsValidType type) then (false, info)
    else (true, mkInfo (i_name info) (u8 type) (i_level info) (i_seq info) (i_reportInterval info)))
  (parse_step (asks parseType LEVEL_ONLY) (λ info,
    let level := part l 2 in
    if bool_decide (level ≠ str "CRITICAL") && bool_decide (level ≠ str "MINOR") then (false, info)
    else (true, mkInfo (i_name info) (i_type info) level (i_seq info) (i_reportInterval info)))
  (parse_step (asks parseType SEQ_ONLY) (λ info,
    let seq := ConvertStringTo 64 (part l 3) (i_seq info) in
    (negb (seq <=? 0),
     mkInfo (i_name info) (i_type info) (i_level info) seq (i_reportInterval info)))
  (λ info, (true, info))))) info.

Definition ParseCurVersionDbFileName (l : list bytes) (info : SplitedEventInfo) (parseType : Z)
    : bool * SplitedEventInfo :=
  let '(ok, info) := ParseVer1DbFileName l info parseType in
  if negb ok then (false, info) else
  parse_step (asks parseType REPORT_INTERVAL_ONLY) (λ info,
    let interval := ConvertStringTo 16 (part l 4) (i_reportInterval info) in
    (negb (interval <? 0), mkInfo (i_name info) (i_type info) (i_level info) (i_seq info) interval))
  (λ info, (true, info)) info.

(** [GetEventDbFileNameParser]: by the number of parts. *)
Definition ParseEventInfoFromDbFileName (fileName : bytes) (info : SplitedEventInfo) (parseType : Z)
    : bool * SplitedEventInfo :=
  let l := SplitStr fileName (str "-") in
  match length l with
  | 4%nat => ParseVer1DbFileName l info parseType
  | 5%nat => ParseCurVersionDbFileName l info parseType
  | _ => (false, info)
  end.

Section Paths.

(** [OHOS::ExtractFileName] of the c_utils library. *)
Context (ExtractFileName : bytes → bytes).

Definition IsValidDbDir (dir : bytes) : bool := IsValidDomainName (ExtractFileName dir) MAX_DOMAIN_LEN.

Definition IsValidDbFilePath (filePath : bytes) : bool :=
  (ParseEventInfoFromDbFileName (ExtractFileName filePath) SplitedEventInfo_new ALL_INFO).1.

(** [IsMatchedDbFilePath] for an event with this report interval. *)
Definition IsMatchedDbFilePath (filePath : bytes) (eventInterval : Z) : bool :=
  let l := SplitStr (ExtractFileName filePath) (str "-") in
  if negb (Nat.eqb (length l) 5) then false
  else ConvertStringTo 16 (part l 4) NOT_CFG_REPORT_INTERVAL =? eventInterval.

End Paths.

(** ** Documents of a name *)

(** The path [CreateCurFile] builds. *)
Definition db_file_name (name : bytes) (type : Z) (level : bytes) (seq reportInterval : Z) : bytes :=
  name ++ str "-" ++ to_string type ++ str "-" ++ level ++ str "-" ++ to_string seq ++ str "-" ++
  to_string reportInterval ++ str ".db".

Definition db_file_path (dir name : bytes) (type : Z) (level : bytes) (seq reportInterval : Z) : bytes :=
  dir ++ str "/" ++ db_file_name name type level seq reportInterval.

(** Lexicographic order of [std::string]. *)
Fixpoint bytes_lt (a b : bytes) : bool :=
  match a, b with
  | _, [] => false
  | [], _ :: _ => true
  | x :: a, y :: b => (x <? y) || ((x =? y) && bytes_lt a b)
  end.

(** [SysEventDoc::GetCurFile]: of the files of this name, the longest path, and
    the greatest of those. *)
Definition better (file curFile : bytes) : bool :=
  ((Zlen file =? Zlen curFile) && bytes_lt curFile file) || (Zlen curFile <? Zlen file).

Definition GetCurFile (name : bytes) (files : list bytes) : bytes :=
  foldl (λ curFile file,
    match find_sub (str "/" ++ name ++ str "-") file with
    | None => curFile
    | Some _ => if better file curFile then file else curFile
    end) [] files.

(** [SysEventDoc::UpdateCurFile]: reuse the current file, or [None] to create
    one. *)
Definition UpdateCurFile (ExtractFileName : bytes → bytes) (name : bytes) (files : list bytes) (eventInterval : Z)
    (isFileFull : bytes → bool) : option bytes :=
  let filePath := GetCurFile name files in
  if bool_decide (filePath = []) || negb (IsMatchedDbFilePath ExtractFileName filePath eventInterval) ||
     isFileFull filePath
  then None else Some filePath.

(** ** Splitting what was joined *)

(** A part of a name: not empty, without separator and space. *)
Definition word (s : bytes) : Prop := s ≠ [] ∧ (45 ∉ s) ∧ (32 ∉ s).

Lemma find_dash a b : 45 ∉ a → find_sub (str "-") (a ++ 45 :: b) = Some (length a).
Proof.
  change (str "-") with [45]. induction a as [|c a IH]; intros Ha; cbn [app find_sub].
  - rewrite bool_decide_true; [done|]. by exists b.
  - apply not_elem_of_cons in Ha as [Hc Ha]. rewrite bool_decide_false, IH by
      (done || intros [k E]; cbn in E; congruence). done.
Qed.

Lemma find_no_dash a : 45 ∉ a → find_sub (str "-") a = None.
Proof.
  change (str "-") with [45]. induction a as [|c a IH]; intros Ha; cbn [find_sub].
  - rewrite bool_decide_false; [done|]. by intros [k E].
  - apply not_elem_of_cons in Ha as [Hc Ha]. rewrite bool_decide_false, IH by
      (done || intros [k E]; cbn in E; congruence). done.
Qed.

Lemma trim_front_id s : 32 ∉ s → trim_front 32 s = s.
Proof.
  destruct s as [|c s]; [done|]. intros [Hc _]%not_elem_of_cons. cbn. zcase; [congruence|done].
Qed.

Lemma TrimStr_id s : 32 ∉ s → TrimStr s = s.
Proof.
  intros Hs. unfold TrimStr. rewrite (trim_front_id s), trim_front_id by
    (done || by rewrite elem_of_reverse). by rewrite reverse_involutive.
Qed.

Lemma sep_ne : bool_decide (str "-" = []) = false.
Proof. done. Qed.

Lemma Split_word fuel a : word a → SplitLoop (S fuel) (str "-") a = [a].
Proof.
  intros (Hne & Hd & Hs). unfold SplitLoop. rewrite sep_ne, find_no_dash, TrimStr_id by done.
  by rewrite bool_decide_false.
Qed.

Lemma Split_next fuel a b :
  word a → SplitLoop (S fuel) (str "-") (a ++ str "-" ++ b) = a :: SplitLoop fuel (str "-") b.
Proof.
  intros (Hne & Hd & Hs). change (str "-" ++ b) with (45 :: b).
  unfold SplitLoop; fold SplitLoop. rewrite sep_ne, find_dash by done.
  rewrite take_app_length, TrimStr_id by done. rewrite bool_decide_false by done. cbn [app].
  change (length (str "-")) with 1%nat.
  do 2 f_equal. rewrite (app_assoc a [45] b : a ++ 45 :: b = _).
  by rewrite drop_app_length' by (rewrite length_app; cbn; lia).
Qed.

Lemma to_string_cons n : 0 <= n → ∃ c l, to_string n = c :: l ∧ 48 <= c <= 57.
Proof.
  intros Hn. destruct (to_string n) as [|c l] eqn:E.
  - unfold to_string in E. destruct (Z.ltb_spec n 0); [lia|].
    destruct (print_base_cons 10 ltac:(lia) n Hn) as (d & ds & E' & _). congruence.
  - exists c, l. split; [done|]. apply (to_string_chars n); [done|]. rewrite E. by left.
Qed.

Lemma word_number n rest : 0 <= n → (45 ∉ rest) → (32 ∉ rest) → word (to_string n ++ rest).
Proof.
  intros Hn Hd Hs. destruct (to_string_cons n Hn) as (c & l & E & Hc). split.
  - rewrite E. done.
  - rewrite !not_elem_of_app. split_and!; try done; intros Hin%to_string_chars; lia.
Qed.

Lemma word_to_string n : 0 <= n → word (to_string n).
Proof.
  intros Hn. rewrite <- (app_nil_r (to_string n)). apply word_number; [done|..];
    apply not_elem_of_nil.
Qed.

Lemma ConvertStringTo_number w n rest out :
  0 < w <= 64 → 0 <= n < 2 ^ (w - 1) → no_digit 10 rest →
  ConvertStringTo w (to_string n ++ rest) out = n.
Proof.
  intros Hw Hn Hr. unfold ConvertStringTo.
  assert (2 ^ (w - 1) <= 2 ^ (64 - 1)) by (apply Z.pow_le_mono_r; lia).
  rewrite stream_signed_decimal by (done || split; lia).
  destruct (to_string_cons n) as (c & l & -> & Hc); [lia|]. cbn [app skip_space].
  unfold is_space. repeat (zcase; cbn; try lia).
Qed.

Lemma ConvertStringTo_plain w n out :
  0 < w <= 64 → 0 <= n < 2 ^ (w - 1) → ConvertStringTo w (to_string n) out = n.
Proof.
  intros Hw Hn. rewrite <- (app_nil_r (to_string n)). by apply ConvertStringTo_number.
Qed.

(** The parts of a current name. *)
Definition name_ok (name : bytes) : Prop := name ≠ [] ∧ IsValidDomainName name MAX_EVENT_NAME_LEN = true.
Definition level_ok (level : bytes) : Prop := level = str "CRITICAL" ∨ level = str "MINOR".

Lemma word_name name : name_ok name → word name.
Proof.
  intros [Hne Hv]. unfold IsValidDomainName in Hv. destruct (Zlen name >=? MAX_EVENT_NAME_LEN); [done|].
  rewrite forallb_forall in Hv.
  split; [done|]. split; intros Hin%list_elem_of_In%Hv; done.
Qed.

Lemma word_level level : level_ok level → word level.
Proof. intros [->| ->]; (split; [done|]); split; by apply (bool_decide_unpack _). Qed.

Lemma word_no_space a b : word a → (32 ∉ b) → 32 ∉ a ++ str "-" ++ b.
Proof.
  intros (_ & _ & Ha) Hb. rewrite !not_elem_of_app. split_and!; [done|by apply (bool_decide_unpack _)|done].
Qed.

Lemma split_db_file_name name type level seq interval :
  name_ok name → level_ok level → 0 <= type → 0 <= seq → 0 <= interval →
  SplitStr (db_file_name name type level seq interval) (str "-") =
    [name; to_string type; level; to_string seq; to_string interval ++ str ".db"].
Proof.
  intros Hn Hl Ht Hs Hi. apply word_name in Hn. apply word_level in Hl.
  assert (word (to_string interval ++ str ".db")) as Hw.
  { apply word_number; [done|..]; by apply (bool_decide_unpack _). }
  pose proof (word_to_string type Ht) as Hwt. pose proof (word_to_string seq Hs) as Hws.
  unfold SplitStr, db_file_name. rewrite TrimStr_id.
  2:{ repeat apply word_no_space; try done. apply Hw. }
  rewrite !length_app. change (length (str "-")) with 1%nat.
  replace (S _) with (S (S (S (S (S (length name + (length (to_string type) + (length level +
    (length (to_string seq) + (length (to_string interval) + length (str ".db")))))))))))%nat by lia.
  by rewrite !Split_next, Split_word.
Qed.

(** the name a document is created with parses back to the event name,
    type, level, sequence number and report interval it was built from. *)
Theorem db_file_name_roundtrip name type level seq interval :
  name_ok name → IsValidType type = true → level_ok level → 0 < seq < 2 ^ 63 →
  0 <= interval < 2 ^ 15 →
  ParseEventInfoFromDbFileName (db_file_name name type level seq interval) SplitedEventInfo_new
    ALL_INFO = (true, mkInfo name type level seq interval).
Proof.
  intros Hn Ht Hl Hs Hi.
  assert (1 <= type <= 4) as Ht4.
  { revert Ht. unfold IsValidType, FAULT, STATISTIC, SECURITY, BEHAVIOR.
    repeat (zcase; cbn; try lia). }
  unfold ParseEventInfoFromDbFileName. rewrite split_db_file_name by (done || lia).
  cbn [length]. unfold ParseCurVersionDbFileName, ParseVer1DbFileName, parse_step, part.
  change (asks ALL_INFO _) with true. cbv iota.
  cbn [lookup list_lookup default from_option id]. unfold id.
  rewrite (proj2 Hn). cbn [negb].
  rewrite ConvertStringTo_plain, Ht, u8_small by (try done; unfold is_u; lia). cbn [negb].
  replace (bool_decide (level ≠ str "CRITICAL") && bool_decide (level ≠ str "MINOR")) with false
    by (destruct Hl as [->| ->]; done).
  rewrite ConvertStringTo_plain, (proj2 (Z.leb_gt seq 0)) by (try done; lia). cbn [negb].
  rewrite ConvertStringTo_number, (proj2 (Z.ltb_ge interval 0)) by (try done; lia). done.
Qed.

Lemma db_file_name_roundtrip_witness :
  ParseEventInfoFromDbFileName (str "APP_CRASH-1-CRITICAL-42-5.db") SplitedEventInfo_new ALL_INFO =
    (true, mkInfo (str "APP_CRASH") 1 (str "CRITICAL") 42 5).
Proof.
  refine (db_file_name_roundtrip (str "APP_CRASH") 1 (str "CRITICAL") 42 5 _ _ _ _ _);
    [by split|done|by left|lia|lia].
Defined.

(** ** The current document is the newest *)

(** Longer first, then lexicographic: the order [GetCurFile] uses, on digits. *)
Definition shorter_or_less (a b : list Z) : Prop :=
  (length a < length b)%nat ∨ (length a = length b ∧ bytes_lt a b = true).

Lemma bytes_lt_app a b s t :
  length a = length b → bytes_lt a b = true → bytes_lt (a ++ s) (b ++ t) = true.
Proof.
  revert b. induction a as [|x a IH]; intros [|y b] Hl Hlt; try done. cbn in *.
  destruct (x <? y); [done|]. cbn in *. apply andb_true_iff in Hlt as [-> Hlt]. cbn.
  apply IH; [lia|done].
Qed.

Lemma bytes_lt_prefix p a b : bytes_lt (p ++ a) (p ++ b) = bytes_lt a b.
Proof. induction p as [|x p IH]; [done|]. cbn. by rewrite Z.ltb_irrefl, Z.eqb_refl, IH. Qed.

(** The digits do not depend on the fuel, once it suffices. *)
Lemma digs_fuel f f' n :
  (f <= f')%nat → 0 <= n < 2 ^ Z.of_nat (S f) → digs 10 (S f) n = digs 10 (S f') n.
Proof.
  revert f' n. induction f as [|f IH]; intros f' n Hf Hn.
  - change (2 ^ Z.of_nat 1) with 2 in Hn. cbn. by rewrite (proj2 (Z.ltb_lt n 10)) by lia.
  - destruct f' as [|f']; [lia|]. rewrite Nat2Z.inj_succ, Z.pow_succ_r in Hn by lia.
    cbn [digs]. destruct (Z.ltb_spec n 10); [done|]. f_equal. apply IH; [lia|].
    split; [apply Z.div_pos; lia|]. apply Z.div_lt_upper_bound; lia.
Qed.

Lemma digs_order f n m :
  0 <= n < m → m < 2 ^ Z.of_nat (S f) → shorter_or_less (digs 10 (S f) n) (digs 10 (S f) m).
Proof.
  revert n m. induction f as [|f IH]; intros n m Hn Hm.
  - change (2 ^ Z.of_nat 1) with 2 in Hm. right. cbn.
    rewrite (proj2 (Z.ltb_lt n 10)), (proj2 (Z.ltb_lt m 10)) by lia. cbn.
    by rewrite (proj2 (Z.ltb_lt n m)) by lia.
  - rewrite Nat2Z.inj_succ, Z.pow_succ_r in Hm by lia.
    change (digs 10 (S (S f)) ?x) with (if x <? 10 then [x] else digs 10 (S f) (x / 10) ++ [x mod 10]).
    destruct (Z.ltb_spec m 10), (Z.ltb_spec n 10); try lia.
    + right. cbn. by rewrite (proj2 (Z.ltb_lt n m)) by lia.
    + left. rewrite length_app. cbn [length].
      assert (digs 10 (S f) (m / 10) ≠ []) as Hne; [|destruct (digs _ _ _); [done|cbn; lia]].
      cbn [digs]. destruct (_ <? _); [done|]. by intros [_ [=]]%app_eq_nil.
    + pose proof (Z.div_mod n 10). pose proof (Z.div_mod m 10).
      pose proof (Z.mod_pos_bound n 10). pose proof (Z.mod_pos_bound m 10).
      destruct (Z.lt_ge_cases (n / 10) (m / 10)) as [Hlt|Hge].
      * destruct (IH (n / 10) (m / 10)) as [Hl|[Hl Hb]]; [split; [apply Z.div_pos; lia|done]|
          apply Z.div_lt_upper_bound; lia|left|right]; rewrite !length_app; [cbn [length]; lia|].
        split; [cbn [length]; lia|by apply bytes_lt_app].
      * assert (n / 10 = m / 10) as -> by lia. right. rewrite !length_app, bytes_lt_prefix.
        split; [done|]. cbn. by rewrite (proj2 (Z.ltb_lt _ _)) by lia.
Qed.

Lemma bytes_lt_digits a b :
  Forall (λ d, 0 <= d < 10) a → Forall (λ d, 0 <= d < 10) b →
  bytes_lt (digit_char <$> a) (digit_char <$> b) = bytes_lt a b.
Proof.
  intros Ha. revert b. induction Ha as [|x a Hx Ha IH]; intros [|y b] Hb; try done.
  inversion Hb; subst. cbn. rewrite IH by done. unfold digit_char.
  rewrite (proj2 (Z.ltb_lt x 10)), (proj2 (Z.ltb_lt y 10)) by lia.
  destruct (Z.ltb_spec x y), (Z.ltb_spec (48 + x) (48 + y)),
    (Z.eqb_spec x y), (Z.eqb_spec (48 + x) (48 + y)); try done; lia.
Qed.

(** Decimal texts sort by length, then lexicographically, as their numbers. *)
Lemma to_string_order n m : 0 <= n < m → shorter_or_less (to_string n) (to_string m).
Proof.
  intros Hnm. unfold to_string.
  rewrite (proj2 (Z.ltb_ge n 0)), (proj2 (Z.ltb_ge m 0)) by lia. unfold print_base.
  set (fn := Z.to_nat (Z.log2 n)). set (fm := Z.to_nat (Z.log2 m)).
  assert (fn <= fm)%nat by (pose proof (Z.log2_le_mono n m); subst fn fm; lia).
  rewrite (digs_fuel fn fm) by first [done|split; [lia|apply log2_fuel; lia]].
  pose proof (digs_range 10 ltac:(lia) (S fm) n ltac:(lia)) as Fn.
  pose proof (digs_range 10 ltac:(lia) (S fm) m ltac:(lia)) as Fm.
  destruct (digs_order fm n m) as [Hl|[Hl Hb]]; [done|apply log2_fuel; lia|left|right];
    rewrite !length_fmap; [done|]. split; [done|]. by rewrite bytes_lt_digits.
Qed.

Lemma find_sub_occurs sub a b : is_Some (find_sub sub (a ++ sub ++ b)).
Proof.
  induction a as [|c a IH]; cbn [app].
  - destruct (sub ++ b) eqn:E; cbn [find_sub]; rewrite bool_decide_true; eauto;
      rewrite <- E; by exists b.
  - cbn [find_sub]. destruct (bool_decide _); [eauto|]. destruct IH as [k ->]. cbn. eauto.
Qed.

Section Newest.
Context (dir name : bytes) (type : Z) (level : bytes) (interval : Z).

Definition path (seq : Z) : bytes := db_file_path dir name type level seq interval.

Lemma path_shape : ∃ pre post, ∀ seq, path seq = pre ++ to_string seq ++ post.
Proof.
  exists (dir ++ str "/" ++ name ++ str "-" ++ to_string type ++ str "-" ++ level ++ str "-"),
    (str "-" ++ to_string interval ++ str ".db").
  intros s. unfold path, db_file_path, db_file_name. by rewrite <- !app_assoc.
Qed.

Lemma path_better n m : 0 <= n → 0 <= m → better (path m) (path n) = (n <? m).
Proof.
  intros Hn Hm. destruct path_shape as (pre & post & E). rewrite !E. unfold better.
  rewrite !Zlen_app.
  assert (∀ x y, 0 <= x < y →
    Zlen (to_string x) < Zlen (to_string y) ∨
    (Zlen (to_string x) = Zlen (to_string y) ∧
     bytes_lt (pre ++ to_string x ++ post) (pre ++ to_string y ++ post) = true)) as Ho.
  { intros x y Hxy. destruct (to_string_order x y Hxy) as [Hl|[Hl Hb]]; unfold Zlen; [lia|right].
    split; [lia|]. rewrite bytes_lt_prefix. by apply bytes_lt_app. }
  assert (∀ a b, bytes_lt a b = true → bytes_lt b a = false) as Hasym.
  { induction a as [|x a IH]; intros [|y b]; cbn; try done.
    destruct (Z.ltb_spec x y), (Z.ltb_spec y x), (Z.eqb_spec x y), (Z.eqb_spec y x); cbn; try done;
      try lia. apply IH. }
  assert (∀ a, bytes_lt a a = false) as Hirr.
  { induction a as [|x a IH]; [done|]. cbn. by rewrite Z.ltb_irrefl, Z.eqb_refl, IH. }
  destruct (Z.ltb_spec n m) as [Hlt|Hge].
  - destruct (Ho n m) as [Hl|[Hl Hb]]; [lia| |].
    + rewrite (proj2 (Z.ltb_lt (_ + _) (_ + _))) by lia. apply orb_true_r.
    + by rewrite Hl, Z.eqb_refl, Hb.
  - destruct (Z.eq_dec n m) as [->|]; [by rewrite Z.eqb_refl, Hirr, Z.ltb_irrefl|].
    destruct (Ho m n) as [Hl|[Hl Hb]]; [lia| |].
    + rewrite (proj2 (Z.eqb_neq _ _)), (proj2 (Z.ltb_ge _ _)) by lia. done.
    + by rewrite Hl, Z.eqb_refl, (Hasym _ _ Hb), Z.ltb_irrefl.
Qed.

Lemma path_better_empty seq : better (path seq) [] = true.
Proof.
  unfold better. apply orb_true_iff. right. apply Z.ltb_lt. unfold path, db_file_path.
  rewrite !Zlen_app. change (Zlen (str "/")) with 1. change (Zlen (@nil Z)) with 0.
  pose proof (Zlen_nonneg dir).
  pose proof (Zlen_nonneg (db_file_name name type level seq interval)). lia.
Qed.

Lemma path_found seq : is_Some (find_sub (str "/" ++ name ++ str "-") (path seq)).
Proof.
  unfold path, db_file_path, db_file_name.
  pose proof (find_sub_occurs (str "/" ++ name ++ str "-") dir (to_string type ++ str "-" ++ level ++
    str "-" ++ to_string seq ++ str "-" ++ to_string interval ++ str ".db")) as H.
  by rewrite <- !app_assoc in H.
Qed.

Lemma path_inj n m : 0 <= n → 0 <= m → path n = path m → n = m.
Proof.
  intros Hn Hm E. pose proof (path_better n m Hn Hm) as H1. pose proof (path_better m n Hm Hn) as H2.
  pose proof (path_better n n Hn Hn) as H0. rewrite Z.ltb_irrefl in H0. rewrite <- E in *.
  rewrite H0 in *. symmetry in H1, H2. apply Z.ltb_ge in H1, H2. lia.
Qed.

(** A directory entry: of another event, or a document of this one. *)
Definition entry (f : bytes) : Prop :=
  find_sub (str "/" ++ name ++ str "-") f = None ∨ ∃ seq, 0 <= seq ∧ f = path seq.

Definition pick (curFile file : bytes) : bytes :=
  match find_sub (str "/" ++ name ++ str "-") file with
  | None => curFile
  | Some _ => if better file curFile then file else curFile
  end.

Lemma pick_path c q : 0 <= c → 0 <= q → pick (path c) (path q) = path (Z.max c q).
Proof.
  intros Hc Hq. unfold pick. destruct (path_found q) as [k ->]. rewrite path_better by done.
  destruct (Z.ltb_spec c q); f_equal; lia.
Qed.

(** Folding from a document of this event keeps the greatest number seen. *)
Lemma pick_max files c :
  Forall entry files → 0 <= c →
  ∃ top, foldl pick (path c) files = path top ∧ c <= top ∧
    (top = c ∨ path top ∈ files) ∧ ∀ s, 0 <= s → path s ∈ files → s <= top.
Proof.
  intros HF. revert c. induction HF as [|f files Hf HF IH]; intros c Hc; cbn [foldl].
  - exists c. split_and!; [done|lia|by left|]. by intros s _ Hs%not_elem_of_nil.
  - destruct Hf as [Hf|(q & Hq & ->)].
    + replace (pick (path c) f) with (path c) by (unfold pick; by rewrite Hf).
      destruct (IH c Hc) as (top & E & Hle & Hin & Hall). exists top.
      split_and!; [done|done|rewrite elem_of_cons; tauto|].
      intros s Hs [E'|Hs']%elem_of_cons; [|by apply Hall].
      destruct (path_found s) as [k Hk]. rewrite E' in Hk. congruence.
    + rewrite pick_path by done. destruct (IH (Z.max c q)) as (top & E & Hle & Hin & Hall); [lia|].
      exists top. split_and!; [done|lia| |].
      * rewrite elem_of_cons. destruct Hin as [->|Hin]; [|tauto].
        destruct (Z.max_spec c q) as [[_ ->]|[_ ->]]; tauto.
      * intros s Hs [E'%path_inj|Hs']%elem_of_cons; [lia|done|done|by apply Hall].
Qed.

(** among the documents of an event that differ only in their sequence
    number, whatever other events' documents the directory holds and in
    whatever order it lists them, [GetCurFile] chooses the one with the
    greatest sequence number. *)
Theorem current_file_is_newest files seq :
  Forall entry files → 0 <= seq → path seq ∈ files →
  ∃ top, GetCurFile name files = path top ∧ path top ∈ files ∧
    ∀ s, 0 <= s → path s ∈ files → s <= top.
Proof.
  intros HF Hs Hin. change (GetCurFile name files) with (foldl pick [] files).
  induction HF as [|f files Hf HF IH]; [by apply not_elem_of_nil in Hin|].
  destruct Hf as [Hf|(q & Hq & ->)]; cbn [foldl].
  - replace (pick [] f) with (@nil Z) by (unfold pick; by rewrite Hf).
    assert (∀ s, path s ≠ f) as Hne.
    { intros s E. destruct (path_found s) as [k Hk]. rewrite E in Hk. congruence. }
    apply elem_of_cons in Hin as [Hin|Hin]; [by destruct (Hne seq)|].
    destruct (IH Hin) as (top & E & Htop & Hall). exists top. rewrite elem_of_cons.
    split_and!; [done|tauto|]. intros s Hs0 [E'|Hin']%elem_of_cons; [by destruct (Hne s)|auto].
  - replace (pick [] (path q)) with (path q).
    2:{ unfold pick. destruct (path_found q) as [k ->]. by rewrite path_better_empty. }
    destruct (pick_max files q HF Hq) as (top & E & Hle & Htop & Hall). exists top.
    rewrite elem_of_cons. split_and!; [done|destruct Htop as [->|]; tauto|].
    intros s Hs0 [E'%path_inj|Hin']%elem_of_cons; [lia|done|done|auto].
Qed.

End Newest.

Lemma current_file_is_newest_witness :
  ∃ top, GetCurFile (str "N") [path (str "/d") (str "N") 1 (str "MINOR") 5 100; str "/d/M-1";
      path (str "/d") (str "N") 1 (str "MINOR") 5 99] =
    path (str "/d") (str "N") 1 (str "MINOR") 5 top ∧
    path (str "/d") (str "N") 1 (str "MINOR") 5 top ∈
      [path (str "/d") (str "N") 1 (str "MINOR") 5 100; str "/d/M-1";
       path (str "/d") (str "N") 1 (str "MINOR") 5 99] ∧
    ∀ s, 0 <= s → path (str "/d") (str "N") 1 (str "MINOR") 5 s ∈
      [path (str "/d") (str "N") 1 (str "MINOR") 5 100; str "/d/M-1";
       path (str "/d") (str "N") 1 (str "MINOR") 5 99] → s <= top.
Proof.
  refine (current_file_is_newest (str "/d") (str "N") 1 (str "MINOR") 5 _ 99 _ _ _);
    [|lia|by right; right; left].
  rewrite !Forall_cons. split_and!; [right; exists 100; split; [lia|done]|left; done|
    right; exists 99; split; [lia|done]|constructor].
Defined.

(** When the report interval of an event gets a shorter text, the choice is
    stale: the older document has the longer path and is chosen again, it does
    not match the event's interval, and so a new document is created although
    one with that interval exists. *)
Theorem stale_current_file (ExtractFileName : bytes → bytes) isFileFull :
  (∀ dir f, 47 ∉ f → ExtractFileName (dir ++ str "/" ++ f) = f) →
  let old := path (str "/d") (str "N") 1 (str "MINOR") 100 10 in
  let new := path (str "/d") (str "N") 1 (str "MINOR") 5 20 in
  GetCurFile (str "N") [old; new] = old ∧
  IsMatchedDbFilePath ExtractFileName new 5 = true ∧
  UpdateCurFile ExtractFileName (str "N") [old; new] 5 isFileFull = None.
Proof.
  intros HE old new. subst old new. unfold UpdateCurFile, path, db_file_path, IsMatchedDbFilePath.
  split; [by vm_compute|].
  assert (GetCurFile (str "N") [db_file_path (str "/d") (str "N") 1 (str "MINOR") 10 100;
    db_file_path (str "/d") (str "N") 1 (str "MINOR") 20 5] =
    str "/d" ++ str "/" ++ db_file_name (str "N") 1 (str "MINOR") 10 100) as HG by by vm_compute.
  unfold db_file_path in HG. rewrite HG.
  rewrite !HE by by apply (bool_decide_unpack _). by split; vm_compute.
Qed.

(** The file name of the library, as its documentation has it. *)
Definition last_part (path : bytes) : bytes :=
  foldl (λ name c, if c =? 47 then [] else name ++ [c]) [] path.

Lemma last_part_fold f acc :
  47 ∉ f → foldl (λ name c, if c =? 47 then [] else name ++ [c]) acc f = acc ++ f.
Proof.
  revert acc. induction f as [|c f IH]; intros acc Hf; cbn [foldl]; [by rewrite app_nil_r|].
  apply not_elem_of_cons in Hf as [Hc Hf]. rewrite (proj2 (Z.eqb_neq c 47)) by congruence.
  rewrite IH by done. by rewrite <- app_assoc.
Qed.

Lemma last_part_spec dir f : 47 ∉ f → last_part (dir ++ str "/" ++ f) = f.
Proof.
  intros Hf. unfold last_part. rewrite foldl_app. change (str "/" ++ f) with (47 :: f).
  cbn [foldl]. change (47 =? 47) with true. cbv iota. by rewrite last_part_fold.
Qed.

Lemma stale_current_file_witness :
  UpdateCurFile last_part (str "N")
    [path (str "/d") (str "N") 1 (str "MINOR") 100 10; path (str "/d") (str "N") 1 (str "MINOR") 5 20]
    5 (λ _, false) = None.
Proof. exact (proj2 (proj2 (stale_current_file last_part (λ _, false) last_part_spec))). Defined.

End DbFile.
