(* ===== verification/Backup.v ===== *)
(** * Backup: the archive of fault events survives interruptions

    Models base/event_store/store/sys_event_backup.cpp and
    [SysEventDatabase::Backup] / [Restore] (sys_event_database.cpp) over the file
    operations of Disk.  The archive is written under a temporary name, the old
    one is kept under a third name while the new one takes its place. *)

From S2P Require Import Prelude Disk DbFile.
From stdpp Require Import base gmap list strings.

Local Open Scope Z_scope.

Module Backup.
Import FileSystem.
Local Open Scope disk_scope.

Abbreviation M := (prog FileOp).
Abbreviation call o := (perform (o : FileOp _)).

(** One call: the condition at every moment holds here, then each outcome. *)
Ltac step := apply crash_wp_call; [auto|].
Ltac finish := apply crash_wp_ret; [auto|].

Definition negate (p : M bool) : M bool := b <- p;; Ret (negb b).

(** [a && b] and [a || b] on calls: the second is made only if needed. *)
Definition both (p q : M bool) : M bool := b <- p;; if b : bool then q else Ret false.
Definition either (p q : M bool) : M bool := b <- p;; if b : bool then Ret true else q.

(** [FileExists(a) && !call]. *)
Lemma wp_exists_and_not {A} (a : bytes) (o : FileOp bool) (f : bool → M A)
    (Q : A → Files → Prop) (C : Files → Prop) (w : Files) :
  C w → (w !! a = None → crash_wp file_step (f false) Q C w) →
  (is_Some (w !! a) → ∀ b w', file_step bool o w b w' → C w' → crash_wp file_step (f (negb b)) Q C w') →
  (∀ b w', is_Some (w !! a) → file_step bool o w b w' → C w') →
  crash_wp file_step (failed <- both (call (FileExists a)) (negate (call o));; f failed) Q C w.
Proof.
  intros HC Hno Hyes HC'. apply crash_wp_bind. unfold both. step. intros b w' [-> ->].
  case_bool_decide as He.
  - unfold negate. step. intros b w' Hs. finish; [by eapply HC'|]. apply Hyes; eauto.
  - finish. apply Hno. by apply eq_None_not_Some.
Qed.

Section Backup.

(** The backup directory, the database directory with its domain directories
    and files, and c_utils' [ExtractFileName]. *)
Context (backupDir_ dbDir : bytes).
Context (domainDirs : list bytes) (eventFiles : bytes → list bytes).
Context (ExtractFileName : bytes → bytes).

Definition GetEventTypeFromFileName (fileName : bytes) : Z :=
  let '(ok, info) := DbFile.ParseEventInfoFromDbFileName fileName DbFile.SplitedEventInfo_new
                       DbFile.TYPE_ONLY in
  if ok then DbFile.i_type info else 0.

Definition backupFile_ : bytes := backupDir_ ++ str "sysevent.zip".
Definition backupTmpFile_ : bytes := backupDir_ ++ str "sysevent_tmp.zip".
Definition backupBakFile_ : bytes := backupDir_ ++ str "sysevent.zip.bak".
Definition seqFilePath : bytes := dbDir ++ str "event_sequence".
Definition seqBackupFilePath : bytes := dbDir ++ str "event_sequence_backup".

(** The files [SysEventDatabase::Backup] adds: both sequence files and the
    documents of fault events. *)
Definition faultFiles : list bytes :=
  filter (λ f, GetEventTypeFromFileName (ExtractFileName f) = DbFile.FAULT) (concat (eventFiles <$> domainDirs)).

Fixpoint AddFiles (zip : bytes) (files : list bytes) : M bool :=
  match files with
  | [] => Ret true
  | f :: files => ok <- call (AddFileInZip zip f);; if ok : bool then AddFiles zip files else Ret false
  end.

(** [SysEventDatabase::Backup]; the archive is closed when its object dies, if
    it could be opened at all. *)
Definition DatabaseBackup (zipFilePath : bytes) : M bool :=
  match domainDirs with
  | [] => Ret false
  | _ =>
      e <- call (FileExists seqFilePath);;
      if negb e then Ret false else
      opened <- call (OpenZip zipFilePath);;
      if negb opened then Ret false else
      ok <- AddFiles zipFilePath (seqFilePath :: seqBackupFilePath :: faultFiles);;
      call (CloseZip zipFilePath);; Ret ok
  end.

(** The end of [SysEventBackup::Backup], once the new archive is written: the
    old one steps aside, the new one takes its name. *)
Definition SwapFiles : M bool :=
  call (RemoveFile backupBakFile_);;
  failed <- both (call (FileExists backupFile_)) (negate (call (RenameFile backupFile_ backupBakFile_)));;
  if failed : bool then (call (RemoveFile backupTmpFile_);; Ret false) else
  renamed <- call (RenameFile backupTmpFile_ backupFile_);;
  if negb renamed then
    (call (RemoveFile backupTmpFile_);; call (RenameFile backupBakFile_ backupFile_);; Ret false)
  else (call (RemoveFile backupBakFile_);; Ret true).

(** Its middle: a fresh temporary archive. *)
Definition WriteAndSwap : M bool :=
  stuck <- both (call (FileExists backupTmpFile_)) (negate (call (RemoveFile backupTmpFile_)));;
  if stuck : bool then Ret false else
  ok <- DatabaseBackup backupTmpFile_;;
  if negb ok then (call (RemoveFile backupTmpFile_);; Ret false) else SwapFiles.

(** [SysEventBackup::Backup] *)
Definition DoBackup : M bool :=
  nodir <- both (negate (call (DirExists backupDir_))) (negate (call (ForceCreateDirectory backupDir_)));;
  if nodir : bool then Ret false else WriteAndSwap.

(** [SysEventBackup::CheckBackupFile] *)
Definition CheckBackupFile : M bool :=
  onlyBak <- both (call (FileExists backupBakFile_)) (negate (call (FileExists backupFile_)));;
  lost <- (if onlyBak : bool then negate (call (RenameFile backupBakFile_ backupFile_)) else Ret false);;
  if lost : bool then Ret false else
  e <- call (FileExists backupFile_);;
  if negb e then Ret false else
  call (RemoveFile backupTmpFile_);; call (RemoveFile backupBakFile_);;
  s <- call (FileExists seqFilePath);; Ret (negb s).

(** ** What interruptions leave *)

Definition complete (f : option File) : Prop := ∃ es, f = Some (Zip es true).

(** A readable archive under its own name. *)
Definition has_backup (w : Files) : Prop := complete (w !! backupFile_).

(** Or, with nothing under its own name, under the name of the old one: the
    state [CheckBackupFile] repairs. *)
Definition recoverable (w : Files) : Prop :=
  has_backup w ∨ (w !! backupFile_ = None ∧ complete (w !! backupBakFile_)).

Lemma names_distinct :
  backupFile_ ≠ backupTmpFile_ ∧ backupFile_ ≠ backupBakFile_ ∧ backupTmpFile_ ≠ backupBakFile_.
Proof.
  unfold backupFile_, backupTmpFile_, backupBakFile_.
  split_and!; intros E%(inj (app backupDir_)); vm_compute in E; discriminate E.
Qed.

(** Everything but the temporary file is as in [w]. *)
Definition same_but_tmp (w w' : Files) : Prop := ∀ p, p ≠ backupTmpFile_ → w' !! p = w !! p.

Lemma same_insert w w' f : same_but_tmp w w' → same_but_tmp w (<[backupTmpFile_ := f]> w').
Proof. intros E p Hp. rewrite lookup_insert_ne by done. by apply E. Qed.

Lemma same_delete w w' : same_but_tmp w w' → same_but_tmp w (delete backupTmpFile_ w').
Proof. intros E p Hp. rewrite lookup_delete_ne by done. by apply E. Qed.

Lemma recoverable_tmp w w' : same_but_tmp w w' → recoverable w → recoverable w'.
Proof.
  destruct names_distinct as (H1 & H2 & H3). unfold recoverable, has_backup. intros E.
  by rewrite !E by congruence.
Qed.

Lemma has_backup_tmp w w' : same_but_tmp w w' → has_backup w → has_backup w'.
Proof. destruct names_distinct as (H1 & _). unfold has_backup. intros E. by rewrite E. Qed.

Lemma same_refl w : same_but_tmp w w.
Proof. done. Qed.

Hint Resolve same_insert same_delete same_refl : core.

Lemma AddFiles_tmp w0 files : ∀ w,
  same_but_tmp w0 w →
  crash_wp file_step (AddFiles backupTmpFile_ files) (λ _ w', same_but_tmp w0 w') (same_but_tmp w0) w.
Proof.
  induction files as [|f files IH]; intros w Hw; [by finish|].
  step. intros b w' [[-> ->]|[-> [es ->]]]; [apply IH; auto|]. finish. auto.
Qed.

Lemma DatabaseBackup_tmp w :
  crash_wp file_step (DatabaseBackup backupTmpFile_)
    (λ ok w', same_but_tmp w w' ∧ (ok = true → complete (w' !! backupTmpFile_))) (same_but_tmp w) w.
Proof.
  assert (same_but_tmp w w) as Hw by done. unfold DatabaseBackup.
  destruct domainDirs as [|d ds]; [by finish|].
  step. intros b w' [-> ->]. destruct (bool_decide _); cbn [negb]; [|by finish].
  step. intros b w' [[-> ->]|[-> ->]]; cbn [negb]; [|by finish].
  apply crash_wp_bind. eapply crash_wp_mono; [|done|apply AddFiles_tmp; auto].
  intros ok w' Hw'. step. intros [] w'' ->. finish.
  split; [auto|]. intros _. rewrite lookup_insert_eq. by eexists.
Qed.

Lemma SwapFiles_safe w :
  has_backup w → complete (w !! backupTmpFile_) →
  crash_wp file_step SwapFiles
    (λ ok w', recoverable w' ∧ (ok = true → w' !! backupFile_ = w !! backupTmpFile_)) recoverable w.
Proof.
  destruct names_distinct as (H1 & H2 & H3). intros [ez Hz] [es Ht]. unfold SwapFiles.
  assert (recoverable w) as Hr by (left; by eexists).
  step. intros b w' Hs.
  assert (w' !! backupFile_ = Some (Zip ez true) ∧ w' !! backupTmpFile_ = Some (Zip es true)) as [Hz' Ht'].
  { destruct Hs as [[_ ->]|(_ & _ & ->)]; [|done]. by rewrite !lookup_delete_ne by done. }
  clear Hs. assert (recoverable w') as Hr' by (left; by eexists).
  apply wp_exists_and_not; [done|by rewrite Hz'| |].
  2: { intros b' w'' _ [(_ & f & Ef & ->)|[_ ->]]; [|done]. right. simplify_map_eq. split; [done|by eexists]. }
  intros _ b' w'' [(-> & f & Ef & ->)|[-> ->]] Hr''; cbn [negb].
  - simplify_map_eq. step. intros b' w1 [(-> & f & Ef & ->)|[-> ->]]; cbn [negb].
    + simplify_map_eq. assert (∀ w', w' !! backupFile_ = Some (Zip es true) → recoverable w') as Hrec
        by (intros; left; by eexists).
      assert (backupFile_ ≠ backupBakFile_) by done.
      step; [apply Hrec; by simplify_map_eq|]. intros b' w2 Hs.
      assert (w2 !! backupFile_ = Some (Zip es true)) as E2
        by (destruct Hs as [[_ ->]|(_ & _ & ->)]; by simplify_map_eq).
      apply crash_wp_ret; auto.
    + step. intros b' w2 Hs.
      assert (same_but_tmp (<[backupBakFile_:=Zip ez true]> (delete backupFile_ w')) w2) as Hs2
        by (destruct Hs as [[_ ->]|(_ & _ & ->)]; auto).
      pose proof (recoverable_tmp _ _ Hs2 Hr'') as Hr2. step.
      assert (w2 !! backupBakFile_ = Some (Zip ez true)) as Hb2
        by (rewrite Hs2 by congruence; by simplify_map_eq).
      intros c w3 Hs3. assert (recoverable w3) as Hr3.
      { destruct Hs3 as [(_ & f & Ef & ->)|[_ ->]]; [|done]. left. rewrite Ef in Hb2. simplify_eq.
        exists ez. by simplify_map_eq. }
      by apply crash_wp_ret.
  - step. intros c w1 Hs. assert (recoverable w1) as Hr1
      by (apply (recoverable_tmp w'); [destruct Hs as [[_ ->]|(_ & _ & ->)]; auto|done]).
    by apply crash_wp_ret.
Qed.





(** Ending without an answer: the temporary file may be gone. *)
Lemma give_up_safe w :
  recoverable w →
  crash_wp file_step (call (RemoveFile backupTmpFile_);; Ret false)
    (λ ok w', recoverable w' ∧ (ok = true → has_backup w')) recoverable w.
Proof.
  intros Hr. step. intros b w' Hs. assert (recoverable w').
  { apply (recoverable_tmp w); [destruct Hs as [[_ ->]|(_ & _ & ->)]; auto|done]. }
  by apply crash_wp_ret.
Qed.

Lemma WriteAndSwap_safe w :
  has_backup w →
  crash_wp file_step WriteAndSwap (λ ok w', recoverable w' ∧ (ok = true → has_backup w')) recoverable w.
Proof.
  intros Hz. assert (recoverable w) as Hr by (by left). unfold WriteAndSwap.
  assert (∀ w', has_backup w' → recoverable w' → crash_wp file_step
    (ok <- DatabaseBackup backupTmpFile_;;
     if negb ok then (call (RemoveFile backupTmpFile_);; Ret false) else SwapFiles)
    (λ ok w', recoverable w' ∧ (ok = true → has_backup w')) recoverable w') as Hrest.
  { intros w' Hz' Hr'. apply crash_wp_bind. eapply crash_wp_mono; [| |apply DatabaseBackup_tmp].
    - intros ok w1 [Hs Hok]. pose proof (recoverable_tmp _ _ Hs Hr'). pose proof (has_backup_tmp _ _ Hs Hz').
      destruct ok; cbn [negb]; [|by apply give_up_safe].
      eapply crash_wp_mono; [|done|apply SwapFiles_safe; auto]. cbn. intros ok w2 [Hr2 E]. split; [done|].
      intros ->. destruct (Hok eq_refl) as [es Ees]. exists es. by rewrite E.
    - intros w1 Hs. by eapply recoverable_tmp. }
  assert (same_but_tmp w (delete backupTmpFile_ w)) as Hd by auto.
  apply wp_exists_and_not; [done|intros _; by apply Hrest| |].
  - intros _ b w' Hs Hr'. destruct Hs as [[-> ->]|(-> & _ & ->)]; cbn [negb]; [|by finish].
    apply Hrest; [by eapply has_backup_tmp|done].
  - intros b w' _ [[_ ->]|(_ & _ & ->)]; [by eapply recoverable_tmp|done].
Qed.

Lemma DoBackup_safe w :
  has_backup w →
  crash_wp file_step DoBackup (λ ok w', recoverable w' ∧ (ok = true → has_backup w')) recoverable w.
Proof.
  intros Hz. assert (recoverable w) as Hr by (by left). unfold DoBackup. apply crash_wp_bind.
  unfold both, negate. apply crash_wp_bind. step. intros b w' ->. finish.
  destruct b; cbn [negb]; [finish; by apply WriteAndSwap_safe|].
  step. intros b w' ->. finish. destruct b; cbn [negb]; [by apply WriteAndSwap_safe|by finish].
Qed.


(** [CheckBackupFile] never destroys the backup, and answers yes only with it
    in place. *)
Lemma CheckBackupFile_safe w :
  recoverable w →
  crash_wp file_step CheckBackupFile (λ ok w', recoverable w' ∧ (ok = true → has_backup w')) recoverable w.
Proof.
  destruct names_distinct as (H1 & H2 & H3). intros Hr. unfold CheckBackupFile.
  set (rest := e <- call (FileExists backupFile_);; _).
  assert (∀ w, recoverable w → (w !! backupFile_ = None → w !! backupBakFile_ = None) → crash_wp file_step rest
    (λ ok w', recoverable w' ∧ (ok = true → has_backup w')) recoverable w) as Hrest.
  { clear w Hr. intros w Hr Hno. subst rest. step. intros b w' [-> ->].
    case_bool_decide as He; cbn [negb]; [|by apply crash_wp_ret].
    assert (has_backup w) as Hz by (destruct Hr as [Hz|[E _]]; [done|by rewrite E in He; destruct He]).
    step. intros b w' Hs. assert (has_backup w') as Hz'
      by (apply (has_backup_tmp w); [destruct Hs as [[_ ->]|(_ & _ & ->)]; auto|done]). clear Hs.
    step; [by left|]. intros b' w1 Hs. assert (has_backup w1) as Hz1.
    { destruct Hs as [[_ ->]|(_ & _ & ->)]; [|done]. unfold has_backup. by rewrite lookup_delete_ne by done. }
    step; [by left|]. intros c w2 [-> ->]. apply crash_wp_ret; [by left|]. split; [by left|done]. }
  apply crash_wp_bind. unfold both, negate at 1. step. intros b w' [-> ->].
  case_bool_decide as Hb; [|finish; apply crash_wp_bind; finish; apply Hrest; [done|]].
  2: { intros _. by apply eq_None_not_Some. }
  step. intros b w' [-> ->]. finish. case_bool_decide as Hz; cbn [negb].
  - apply crash_wp_bind. finish. apply Hrest; [done|]. intros E. rewrite E in Hz. by destruct Hz.
  - apply crash_wp_bind. unfold negate. step. intros b w' Hs.
    assert (recoverable w' ∧ (b = true → has_backup w')) as [Hr' Hb'].
    { destruct Hs as [(-> & f & Ef & ->)|[-> ->]]; [|done].
      assert (has_backup (<[backupFile_:=f]> (delete backupBakFile_ w))) as Hnew; [|by split; [left|]].
      destruct Hr as [[es E]|[_ [es E]]]; [rewrite E in Hz; by destruct Hz|].
      exists es. simplify_map_eq. done. }
    finish. destruct b; cbn [negb]; [|by apply crash_wp_ret].
    apply Hrest; [done|]. intros E. destruct (Hb' eq_refl) as [es E']. by rewrite E in E'.
Qed.

(** C39: once there is a readable backup, an interruption of [Backup] at any
    moment, whatever operations of it fail, leaves either it or the new one in
    a place where [CheckBackupFile] finds it at the next start; a run of
    [CheckBackupFile] after that, failing or interrupted, still leaves it, and
    when it answers yes the archive is back under its own name.  [Backup]
    itself answers yes only with a readable archive in place. *)
Theorem backup_survives_interruption w w1 w2 :
  has_backup w → stops file_step DoBackup w w1 → stops file_step CheckBackupFile w1 w2 →
  recoverable w2 ∧
  (∀ w', runs file_step DoBackup w true w' → has_backup w') ∧
  (∀ w', runs file_step CheckBackupFile w1 true w' → has_backup w').
Proof.
  intros Hz Hs1 Hs2. pose proof (DoBackup_safe w Hz) as Hb.
  pose proof (crash_wp_stops _ _ _ _ _ _ Hb Hs1) as Hr1. pose proof (CheckBackupFile_safe w1 Hr1) as Hc.
  split_and!.
  - by eapply crash_wp_stops.
  - intros w' Hr. by apply (crash_wp_runs _ _ _ _ _ _ _ Hb Hr).
  - intros w' Hr. by apply (crash_wp_runs _ _ _ _ _ _ _ Hc Hr).
Qed.

End Backup.

(** ** A concrete store *)

Definition sample_disk : Files :=
  <[str "/b/sysevent.zip" := Zip [str "old"] true]>
  (<[str "/db/event_sequence" := Plain (str "100")]> ∅).

Abbreviation sample_backup := (DoBackup (str "/b/") (str "/db/") [str "/db/D"] (λ _, []) (λ p, p)).

Lemma backup_survives_interruption_witness :
  recoverable (str "/b/") (run_n 10 sample_backup sample_disk).
Proof.
  apply (backup_survives_interruption (str "/b/") (str "/db/") [str "/db/D"] (λ _, []) (λ p, p)
    sample_disk (run_n 10 sample_backup sample_disk) _).
  - exists [str "old"]. by vm_compute.
  - apply run_n_stops.
  - constructor.
Defined.

(** two interruptions in a row can lose the backup: the first leaves only
    the file with the name of the old archive, which the next [Backup] removes
    before the new archive has its name.  Nothing repairs the first state in
    between, since [CheckBackupFile] only runs when the sequence file is gone. *)
Theorem backup_lost_by_second_interruption :
  ∃ w1 w2, has_backup (str "/b/") sample_disk ∧
    stops file_step sample_backup sample_disk w1 ∧ recoverable (str "/b/") w1 ∧
    stops file_step sample_backup w1 w2 ∧ ¬ recoverable (str "/b/") w2.
Proof.
  exists (run_n 10 sample_backup sample_disk), (run_n 9 sample_backup (run_n 10 sample_backup sample_disk)).
  split_and!; [exists [str "old"]; by vm_compute|apply run_n_stops| |apply run_n_stops|].
  - right. split; [by vm_compute|]. exists [str "old"]. by vm_compute.
  - intros [[es E]|[_ [es E]]]; vm_compute in E; discriminate E.
Qed.

End Backup.
