(* ===== verification/Sequence.v ===== *)
(** * Sequence: event numbers that never repeat

    Models base/event_store/sequence/sys_event_sequence_mgr.cpp and the part of
    [SysEventStore::OnEvent] (plugins/event_store/sys_event_store.cpp) that
    numbers events.  The last number is kept in two files that are rewritten
    every hundred events; after a restart numbering goes on a hundred above what
    the files say. *)

From S2P Require Import Prelude Text Disk.
From stdpp Require Import base gmap list strings sorting.

Local Open Scope Z_scope.

Module Sequence.
Import FileSystem.
Local Open Scope disk_scope.

Definition SEQ_INCREMENT : Z := 100.

(** [strtoll] with base 0 on a C string. *)
Definition strtoll (s : bytes) : Z :=
  let '(neg, bs) := take_sign (skip_space (c_str s)) in
  let '(base, bs) :=
    match bs with
    | 48 :: x :: rest => if (x =? 120) || (x =? 88) then (16, rest) else (8, bs)
    | 48 :: _ => (8, bs)
    | _ => (10, bs)
    end in
  let v := value_of base (take_digits base bs) in
  if neg then (if 2 ^ 63 <? v then - 2 ^ 63 else - v)
  else (if 2 ^ 63 - 1 <? v then 2 ^ 63 - 1 else v).

(** ** Operations: files, the store, and the numbers found in the documents *)

Record World := mkWorld { disk : Files; stored : list Z }.

Inductive SeqOp : Type → Type :=
  | File {B} (o : FileOp B) : SeqOp B
  | SaveToStore (seq : Z) : SeqOp unit
  | GetEventMaxSeqFromLocalDbFiles : SeqOp Z.

(** File operations succeed; the search through the documents answers the
    largest number stored, or 0: it looks at the last document of every name, which
    holds the largest number of that name. *)
Definition seq_step (B : Type) (o : SeqOp B) (w : World) : B → World → Prop :=
  match o in SeqOp B return B → World → Prop with
  | File o => λ b w', (b, disk w') = ok_step o (disk w) ∧ stored w' = stored w
  | SaveToStore seq => λ _ w', w' = mkWorld (disk w) (stored w ++ [seq])
  | GetEventMaxSeqFromLocalDbFiles => λ m w', w' = w ∧ m = foldr Z.max 0 (stored w)
  end.

Abbreviation M := (prog SeqOp).
Abbreviation file o := (perform (File o)).

Section Manager.
Context (dbDir : bytes).

Definition GetSequenceFile : bytes := dbDir ++ str "event_sequence".
Definition GetSequenceBackupFile : bytes := dbDir ++ str "event_sequence_backup".

Definition WriteEventSeqToFile (seq : Z) (path : bytes) : M bool :=
  file (Overwrite path (to_string seq ++ [0])).

Definition ReadEventSeqFromFile (path : bytes) : M Z :=
  content <- file (LoadString path);; Ret (strtoll (default [] content)).

Definition CheckFileExistThenReadSeq (path : bytes) (seq : Z) : M (bool * Z) :=
  isFileExist <- file (FileExists path);;
  if negb isFileExist then Ret (false, seq) else
  seq <- ReadEventSeqFromFile path;; Ret (true, seq).

Definition WriteSeqToFile (seq : Z) : M bool :=
  WriteEventSeqToFile seq GetSequenceFile;; WriteEventSeqToFile seq GetSequenceBackupFile.

Definition ReadSeqFromFile : M Z :=
  r <- CheckFileExistThenReadSeq GetSequenceFile 0;;
  let '(isSeqFileExist, seq) := r in
  r <- CheckFileExistThenReadSeq GetSequenceBackupFile 0;;
  let '(_, seqBackup) := r in
  if (seq =? seqBackup) && (negb isSeqFileExist || negb (seq =? 0)) then Ret seq else
  seq <- (if s64 (seq - seqBackup) =? SEQ_INCREMENT then Ret seq else
          seq <- perform GetEventMaxSeqFromLocalDbFiles;;
          WriteEventSeqToFile seq GetSequenceFile;; Ret seq);;
  WriteEventSeqToFile seq GetSequenceBackupFile;; Ret seq.

(** [SysEventSequenceManager]; [setCount] is the static counter of
    [SetSequence]. *)
Record Manager := mkManager { startSeq_ : Z; curSeq_ : Z; setCount : Z }.

(** The constructor, without restoring a backup. *)
Definition Manager_new : M Manager :=
  seq <- ReadSeqFromFile;;
  let startSeq := s64 (seq + SEQ_INCREMENT) in
  WriteSeqToFile startSeq;; Ret (mkManager startSeq startSeq 0).

Definition SetSequence (m : Manager) (seq : Z) : M Manager :=
  let m := mkManager (startSeq_ m) seq (s64 (setCount m + 1)) in
  if Z.rem (setCount m) SEQ_INCREMENT =? 0 then (WriteSeqToFile seq;; Ret m) else Ret m.

Definition GetSequence (m : Manager) : Z := curSeq_ m.

(** [SysEventStore::OnEvent] on a preserved event: number it, store it. *)
Definition OnEvent (m : Manager) : M Manager :=
  let eventSeq := GetSequence m in
  m <- SetSequence m (s64 (eventSeq + 1));;
  perform (SaveToStore eventSeq);; Ret m.

(** ** The life of the device: boots, events, and crashes at any moment *)

Definition State : Type := option Manager * World.

Inductive step : State → State → Prop :=
  | step_boot w m w' : runs seq_step Manager_new w m w' → step (None, w) (Some m, w')
  | step_boot_cut w w' : stops seq_step Manager_new w w' → step (None, w) (None, w')
  | step_event m w m' w' : runs seq_step (OnEvent m) w m' w' → step (Some m, w) (Some m', w')
  | step_event_cut m w w' : stops seq_step (OnEvent m) w w' → step (Some m, w) (None, w').

Definition init : State := (None, mkWorld ∅ []).

End Manager.

(** ** Reading back the numbers *)

Definition file_seq (f : option FileSystem.File) : Z :=
  match f with Some (Plain bs) => strtoll bs | _ => 0 end.

Lemma digs_head fuel n : 0 < n < 2 ^ Z.of_nat fuel → ∃ d ds, digs 10 fuel n = d :: ds ∧ 0 < d < 10.
Proof.
  revert n. induction fuel as [|fuel IH]; intros n Hn; [simpl in Hn; lia|]. cbn [digs].
  zcase; [exists n, []; split; [done|lia]|].
  destruct (IH (n / 10)) as (d & ds & -> & Hd).
  { split; [apply Z.div_str_pos; lia|]. apply Z.div_lt_upper_bound; [lia|].
    rewrite Nat2Z.inj_succ, Z.pow_succ_r in Hn by lia. lia. }
  eexists d, _. split; [done|lia].
Qed.

Lemma to_string_no_nul n : 0 <= n → 0 ∉ to_string n.
Proof. intros Hn Hin%to_string_chars; lia. Qed.

Lemma strtoll_to_string n rest : 0 <= n < 2 ^ 63 → strtoll (to_string n ++ 0 :: rest) = n.
Proof.
  intros Hn. unfold strtoll. rewrite c_str_terminated by (apply to_string_no_nul; lia).
  destruct (decide (n = 0)) as [->|]; [done|].
  unfold to_string. destruct (Z.ltb_spec n 0); [lia|].
  pose proof (read_print_base 10 ltac:(lia) n [] ltac:(lia) I) as HV. rewrite app_nil_r in HV.
  destruct (digs_head (S (Z.to_nat (Z.log2 n))) n) as (d & ds & E & Hd); [split; [lia|apply log2_fuel; lia]|].
  unfold print_base in *. rewrite E in *. cbn [fmap list_fmap] in *.
  rewrite (digit_char_front 10) by lia.
  assert (digit_char d = 48 + d) as Hc by (unfold digit_char; destruct (Z.ltb_spec d 10); lia).
  assert (48 + d = 49 ∨ 48 + d = 50 ∨ 48 + d = 51 ∨ 48 + d = 52 ∨ 48 + d = 53 ∨ 48 + d = 54 ∨
    48 + d = 55 ∨ 48 + d = 56 ∨ 48 + d = 57) as Hin by lia. rewrite <- Hc in Hin. clear Hc.
  destruct_or! Hin; rewrite Hin in *; rewrite HV; destruct (Z.ltb_spec (2 ^ 63 - 1) n); lia.
Qed.

Lemma file_seq_written f n :
  0 <= n < 2 ^ 63 → file_seq (Some (written_over f (to_string n ++ [0]))) = n.
Proof.
  intros Hn. destruct f as [[bs|]|]; cbn; [rewrite <- app_assoc| |]; by apply strtoll_to_string.
Qed.

(** ** The numbers stored never repeat *)

Section Increasing.
Context (dbDir : bytes).
Abbreviation seqFile := (GetSequenceFile dbDir).
Abbreviation backupFile := (GetSequenceBackupFile dbDir).

Definition seq_of (w : World) : Z := file_seq (disk w !! seqFile).
Definition backup_of (w : World) : Z := file_seq (disk w !! backupFile).

Lemma files_differ : seqFile ≠ backupFile.
Proof. unfold GetSequenceFile, GetSequenceBackupFile. by intros ?%app_inv_head. Qed.

(** The pairs of files from which [ReadSeqFromFile] takes the number. *)
Definition accepted (w : World) : Prop :=
  (seq_of w = backup_of w ∧ (disk w !! seqFile = None ∨ seq_of w ≠ 0)) ∨
  seq_of w - backup_of w = SEQ_INCREMENT.

(** What holds of the disk at every moment: [B] bounds every number. *)
Record disk_ok (B : Z) (w : World) : Prop := {
  ok_seq : 0 <= seq_of w <= B;
  ok_backup : 0 <= backup_of w <= B;
  ok_stored : Forall (λ s, 0 <= s <= B) (stored w);
  ok_increasing : StronglySorted Z.lt (stored w);
  ok_ahead : accepted w → Forall (λ s, s < seq_of w + SEQ_INCREMENT) (stored w)
}.

(** What holds while the store is up. *)
Record up_ok (B : Z) (m : Manager) (w : World) : Prop := {
  up_seq : 0 < seq_of w;
  up_same : seq_of w = backup_of w;
  up_cur : curSeq_ m = seq_of w + setCount m mod SEQ_INCREMENT;
  up_count : 0 <= setCount m <= B;
  up_range : curSeq_ m <= B;
  up_increasing : StronglySorted Z.lt (stored w);
  up_stored : Forall (λ s, 0 <= s < curSeq_ m) (stored w)
}.

(** A world in which one file was written over with a number. *)
Definition put_seq (path : bytes) (n : Z) (w : World) : World :=
  mkWorld (<[path := written_over (disk w !! path) (to_string n ++ [0])]> (disk w)) (stored w).

Lemma seq_of_put n w : 0 <= n < 2 ^ 63 → seq_of (put_seq seqFile n w) = n.
Proof. intros. unfold seq_of, put_seq. cbn [disk]. rewrite lookup_insert_eq. by apply file_seq_written. Qed.
Lemma backup_of_put n w : 0 <= n < 2 ^ 63 → backup_of (put_seq backupFile n w) = n.
Proof. intros. unfold backup_of, put_seq. cbn [disk]. rewrite lookup_insert_eq. by apply file_seq_written. Qed.
Lemma seq_of_put_backup n w : seq_of (put_seq backupFile n w) = seq_of w.
Proof. unfold seq_of, put_seq. cbn [disk]. rewrite lookup_insert_ne; [done|]. apply not_eq_sym, files_differ. Qed.
Lemma backup_of_put_seq n w : backup_of (put_seq seqFile n w) = backup_of w.
Proof. unfold backup_of, put_seq. cbn [disk]. rewrite lookup_insert_ne; [done|]. apply files_differ. Qed.

Lemma wp_write {A} path n (f : bool → M A) Q (C : World → Prop) w :
  C w → (∀ b, crash_wp seq_step (f b) Q C (put_seq path n w)) →
  crash_wp seq_step (pbind (WriteEventSeqToFile n path) f) Q C w.
Proof.
  intros HC Hf. apply crash_wp_call; [done|]. intros b [d st] [E Es]. cbn in *.
  injection E as -> ->. subst st. apply Hf.
Qed.

Lemma wp_read {A} path (f : bool * Z → M A) Q (C : World → Prop) w :
  C w → (crash_wp seq_step (f (bool_decide (is_Some (disk w !! path)), file_seq (disk w !! path))) Q C w) →
  crash_wp seq_step (pbind (CheckFileExistThenReadSeq path 0) f) Q C w.
Proof.
  intros HC Hf. unfold CheckFileExistThenReadSeq. apply crash_wp_bind, crash_wp_call; [done|].
  intros b [d st] [E Es]. cbn in *. injection E as -> ->. subst st. destruct w as [d st]. cbn in *.
  destruct (d !! path) as [fl|] eqn:El; cbn.
  - apply crash_wp_bind, crash_wp_call; [done|]. intros c [d' st'] [E' Es]. cbn in *.
    rewrite El in E'. injection E' as -> ->. subst st'. apply crash_wp_ret; [done|].
    apply crash_wp_ret; [done|]. by destruct fl.
  - apply crash_wp_ret; done.
Qed.

Ltac incr := unfold s64, SEQ_INCREMENT in *; rewrite ?sgn_small by (split; lia || done); lia.

Abbreviation below n := (Forall (λ s, s < n + SEQ_INCREMENT)).

Lemma disk_ok_mono B B' w : B <= B' → disk_ok B w → disk_ok B' w.
Proof. intros HB []. split; try done; try lia. eapply Forall_impl; [done|]. cbn. lia. Qed.

Lemma disk_ok_put_seq B n w :
  0 <= n <= B → B < 2 ^ 63 → below n (stored w) → disk_ok B w → disk_ok B (put_seq seqFile n w).
Proof.
  intros Hn HB Hb []. split; try done; rewrite ?seq_of_put, ?backup_of_put_seq by lia; auto; lia.
Qed.

Lemma disk_ok_put_backup B n w :
  0 <= n <= B → B < 2 ^ 63 → below (seq_of w) (stored w) → disk_ok B w →
  disk_ok B (put_seq backupFile n w).
Proof.
  intros Hn HB Hb []. split; try done; rewrite ?seq_of_put_backup, ?backup_of_put by lia; auto; lia.
Qed.

Lemma max_bound l B : 0 <= B → Forall (λ s, 0 <= s <= B) l → 0 <= foldr Z.max 0 l <= B.
Proof. intros HB. induction 1; cbn; lia. Qed.

Lemma max_below l : below (foldr Z.max 0 l) l.
Proof.
  apply Forall_forall. intros x Hx. induction Hx as [x l|x y l _ IH]; cbn; unfold SEQ_INCREMENT in *; lia.
Qed.

(** What [ReadSeqFromFile] leaves: both files hold its answer, which is less
    than a hundred below every number stored. *)
Definition settled (B : Z) (seq : Z) (w : World) : Prop :=
  disk_ok B w ∧ 0 <= seq <= B ∧ seq_of w = seq ∧ backup_of w = seq ∧ below seq (stored w).

Lemma ReadSeqFromFile_wp B w :
  B + SEQ_INCREMENT < 2 ^ 63 → disk_ok B w →
  crash_wp seq_step (ReadSeqFromFile dbDir) (settled B) (disk_ok B) w.
Proof.
  intros HB Hok. pose proof Hok as []. unfold ReadSeqFromFile.
  do 2 (apply wp_read; [done|]; cbn beta iota).
  change (file_seq (disk w !! seqFile)) with (seq_of w).
  change (file_seq (disk w !! backupFile)) with (backup_of w).
  destruct ((seq_of w =? backup_of w) && _) eqn:E.
  { apply andb_true_iff in E as [E1%Z.eqb_eq E2].
    assert (accepted w) as Ha.
    { left. split; [done|]. destruct (disk w !! seqFile) eqn:El; [|by left]. cbn in E2.
      right. intros E0. by rewrite E0 in E2. }
    apply crash_wp_ret; [done|]. repeat split; auto; lia. }
  clear E. replace (s64 (seq_of w - backup_of w)) with (seq_of w - backup_of w) by incr.
  destruct (Z.eqb_spec (seq_of w - backup_of w) SEQ_INCREMENT) as [Ed|_].
  - assert (below (seq_of w) (stored w)) by (apply ok_ahead0; by right).
    apply crash_wp_bind, crash_wp_ret; [done|]. apply wp_write; [done|]. intros b.
    assert (disk_ok B (put_seq backupFile (seq_of w) w)) by (apply disk_ok_put_backup; auto; incr).
    apply crash_wp_ret; [done|]. unfold settled. rewrite seq_of_put_backup, backup_of_put by incr. done.
  - apply crash_wp_bind, crash_wp_call; [done|]. intros n ? [-> ->].
    pose proof (max_bound (stored w) B ltac:(lia) ok_stored0). pose proof (max_below (stored w)) as Hm.
    set (n := foldr Z.max 0 (stored w)) in *. apply wp_write; [done|]. intros b.
    assert (disk_ok B (put_seq seqFile n w)) by (apply disk_ok_put_seq; auto; incr).
    apply crash_wp_ret; [done|]. apply wp_write; [done|]. intros b'.
    assert (seq_of (put_seq seqFile n w) = n) as E by (apply seq_of_put; incr).
    assert (disk_ok B (put_seq backupFile n (put_seq seqFile n w))).
    { apply disk_ok_put_backup; auto; [incr|]. by rewrite E. }
    apply crash_wp_ret; [done|]. unfold settled. rewrite seq_of_put_backup, backup_of_put, E by incr. done.
Qed.

(** Both files rewritten: a hundred ahead of every number stored at each moment. *)
Lemma WriteSeqToFile_wp {A} B n (f : bool → M A) Q w :
  0 <= n <= B → B < 2 ^ 63 → below n (stored w) → disk_ok B w →
  (∀ b w', disk_ok B w' → seq_of w' = n → backup_of w' = n → stored w' = stored w →
     crash_wp seq_step (f b) Q (disk_ok B) w') →
  crash_wp seq_step (pbind (WriteSeqToFile dbDir n) f) Q (disk_ok B) w.
Proof.
  intros Hn HB Hb Hok Hf. unfold WriteSeqToFile. apply crash_wp_bind, wp_write; [done|]. intros b.
  assert (disk_ok B (put_seq seqFile n w)) by by apply disk_ok_put_seq.
  assert (seq_of (put_seq seqFile n w) = n) as E by (apply seq_of_put; lia).
  apply crash_wp_call; [done|]. intros b' [d st] [E1 E2]. injection E1 as -> ->. cbn in E2. subst st.
  change (mkWorld _ _) with (put_seq backupFile n (put_seq seqFile n w)).
  assert (disk_ok B (put_seq backupFile n (put_seq seqFile n w))).
  { apply disk_ok_put_backup; auto. by rewrite E. }
  apply crash_wp_ret; [done|].
  apply Hf; rewrite ?seq_of_put_backup, ?backup_of_put by lia; done.
Qed.

Lemma Manager_new_wp B w :
  B + 2 * SEQ_INCREMENT < 2 ^ 63 → disk_ok B w →
  crash_wp seq_step (Manager_new dbDir) (up_ok (B + SEQ_INCREMENT)) (disk_ok (B + SEQ_INCREMENT)) w.
Proof.
  intros HB Hok. unfold Manager_new. apply crash_wp_bind.
  eapply crash_wp_mono; [| |apply (ReadSeqFromFile_wp B); [incr|done]].
  2: { intros. eapply disk_ok_mono; [|done]. incr. }
  intros seq w' (Hok' & Hs & E1 & E2 & Hb).
  replace (s64 (seq + SEQ_INCREMENT)) with (seq + SEQ_INCREMENT) by incr.
  apply WriteSeqToFile_wp; [incr|incr|eapply Forall_impl; [done|]; incr|eapply disk_ok_mono; [|done]; incr|].
  intros b w'' Hok'' E3 E4 E5. apply crash_wp_ret; [done|]. destruct Hok''.
  split; cbn; try done; try incr.
  - rewrite E3. change (0 mod SEQ_INCREMENT) with 0. lia.
  - rewrite E5. apply Forall_and. split; [|done]. rewrite <- E5. eapply Forall_impl; [done|]. cbn; lia.
Qed.

Lemma up_disk_ok B m w : up_ok B m w → disk_ok B w.
Proof.
  intros []. assert (0 <= setCount m mod SEQ_INCREMENT < SEQ_INCREMENT) by by apply Z.mod_pos_bound.
  split; try done; try lia; [|intros _]; (eapply Forall_impl; [done|]; cbn; lia).
Qed.

Lemma snoc_increasing l n : StronglySorted Z.lt l → Forall (λ s, 0 <= s < n) l → StronglySorted Z.lt (l ++ [n]).
Proof.
  intros Hs Hl. apply StronglySorted_app_2; [|done|by repeat constructor].
  intros x y Hx ->%list_elem_of_singleton. rewrite Forall_forall in Hl. apply Hl in Hx. lia.
Qed.

Lemma SaveToStore_wp B m n w :
  0 <= n → curSeq_ m = n + 1 →
  up_ok B m w → Forall (λ s, 0 <= s < n) (stored w) →
  crash_wp seq_step (perform (SaveToStore n);; Ret m) (up_ok B) (disk_ok B) w.
Proof.
  intros Hn Hc Hup Hst. apply crash_wp_call; [by eapply up_disk_ok|]. intros _ w' ->.
  assert (up_ok B m (mkWorld (disk w) (stored w ++ [n]))) as Hup'.
  { destruct Hup. split; try done; [by apply snoc_increasing|].
    apply Forall_app. split; [eapply Forall_impl; [done|]; cbn; lia|]. constructor; [lia|done]. }
  apply crash_wp_ret; [|done]. by eapply up_disk_ok.
Qed.

Lemma OnEvent_wp B m w :
  B + 2 * SEQ_INCREMENT < 2 ^ 63 → up_ok B m w →
  crash_wp seq_step (OnEvent dbDir m) (up_ok (B + SEQ_INCREMENT)) (disk_ok (B + SEQ_INCREMENT)) w.
Proof.
  intros HB Hup. pose proof (up_disk_ok _ _ _ Hup) as Hok. destruct Hup.
  assert (0 <= setCount m mod SEQ_INCREMENT < SEQ_INCREMENT) by by apply Z.mod_pos_bound.
  unfold OnEvent, SetSequence, GetSequence. cbn [setCount curSeq_ startSeq_].
  replace (s64 (curSeq_ m + 1)) with (curSeq_ m + 1) by incr.
  replace (s64 (setCount m + 1)) with (setCount m + 1) by incr.
  rewrite Z.rem_mod_nonneg by incr. apply crash_wp_bind.
  destruct (Z.eqb_spec ((setCount m + 1) mod SEQ_INCREMENT) 0) as [Ec|Ec].
  - apply WriteSeqToFile_wp; [incr|incr| |eapply disk_ok_mono; [|done]; incr|].
    { eapply Forall_impl; [done|]. incr. }
    intros b w' Hok' E1 E2 E3. apply crash_wp_ret; [done|]. apply SaveToStore_wp; [lia|done| |by rewrite E3].
    split; cbn; try done; try incr; rewrite ?E3; try done.
    eapply Forall_impl; [done|]; cbn; lia.
  - apply crash_wp_ret; [eapply disk_ok_mono; [|done]; incr|]. apply SaveToStore_wp; [lia|done| |done].
    split; cbn; try done; try incr; [|eapply Forall_impl; [done|]; incr].
    unfold SEQ_INCREMENT in *. Z.to_euclidean_division_equations. lia.
Qed.

(** ** Every reachable state *)

Definition state_ok (B : Z) (s : State) : Prop :=
  match s.1 with None => disk_ok B s.2 | Some m => up_ok B m s.2 end.

Lemma init_ok : state_ok 0 init.
Proof. split; cbn; try constructor; try done. Qed.

Lemma step_ok B s s' :
  B + 2 * SEQ_INCREMENT < 2 ^ 63 → step dbDir s s' → state_ok B s → state_ok (B + SEQ_INCREMENT) s'.
Proof.
  intros HB Hs Hok. destruct Hs as [w m w' Hr|w w' Hr|m w m' w' Hr|m w w' Hr]; cbn in *.
  - by eapply crash_wp_runs; [apply Manager_new_wp|].
  - by eapply crash_wp_stops; [apply Manager_new_wp|].
  - by eapply crash_wp_runs; [apply OnEvent_wp|].
  - by eapply crash_wp_stops; [apply OnEvent_wp|].
Qed.

Lemma reachable_ok B n s s' :
  B + SEQ_INCREMENT * Z.of_nat n + SEQ_INCREMENT < 2 ^ 63 → state_ok B s → nsteps (step dbDir) n s s' →
  state_ok (B + SEQ_INCREMENT * Z.of_nat n) s'.
Proof.
  intros HB Hok Hn. revert B HB Hok. induction Hn as [s|n s s1 s' Hs _ IH]; intros B HB Hok.
  - by replace (B + SEQ_INCREMENT * Z.of_nat 0) with B by lia.
  - replace (B + SEQ_INCREMENT * Z.of_nat (S n)) with (B + SEQ_INCREMENT + SEQ_INCREMENT * Z.of_nat n) by lia.
    apply IH; [incr|]. eapply step_ok; [incr|done..].
Qed.

(** C28: The numbers of the stored events strictly increase, in particular none
    is ever used twice, through every sequence of boots, events and crashes at
    any moment between two file operations, including crashes that leave the two
    number files different (the bound on the number of steps only excludes 64-bit
    overflow). *)
Theorem sequence_numbers_increase n s :
  SEQ_INCREMENT * Z.of_nat n < 2 ^ 62 → nsteps (step dbDir) n init s → StronglySorted Z.lt (stored s.2).
Proof.
  intros Hn Hs. assert (state_ok (0 + SEQ_INCREMENT * Z.of_nat n) s) as Hok.
  { eapply reachable_ok; [incr|apply init_ok|done]. }
  destruct s as [[m|] w]; [by apply up_increasing in Hok|by apply ok_increasing in Hok].
Qed.

End Increasing.

(** ** A concrete life *)

Definition seq_ok_step {B} (o : SeqOp B) (w : World) : B * World :=
  match o in SeqOp B return B * World with
  | File o => let '(b, d) := ok_step o (disk w) in (b, mkWorld d (stored w))
  | SaveToStore seq => (tt, mkWorld (disk w) (stored w ++ [seq]))
  | GetEventMaxSeqFromLocalDbFiles => (foldr Z.max 0 (stored w), w)
  end.

(** At most [n] operations; the answer, if the program ends within them. *)
Fixpoint seq_run {A} (n : nat) (p : M A) (w : World) : option A * World :=
  match p, n with
  | Ret a, _ => (Some a, w)
  | Do o k, S n => let '(b, w') := seq_ok_step o w in seq_run n (k b) w'
  | Do _ _, O => (None, w)
  end.

Lemma seq_ok_step_step {B} (o : SeqOp B) w : seq_step B o w (seq_ok_step o w).1 (seq_ok_step o w).2.
Proof. destruct o; cbn; try done. by destruct (ok_step o (disk w)). Qed.

Lemma seq_run_spec {A} n (p : M A) w :
  match (seq_run n p w).1 with
  | Some a => runs seq_step p w a (seq_run n p w).2
  | None => stops seq_step p w (seq_run n p w).2
  end.
Proof.
  revert p w. induction n as [|n IH]; intros [a|B o k] w; cbn; try constructor.
  pose proof (seq_ok_step_step o w) as Hs. destruct (seq_ok_step o w) as [b w'].
  specialize (IH (k b) w'). destruct (seq_run n (k b) w') as [[a|] w'']; cbn in *; econstructor; done.
Qed.

(** Boot or handle an event, cut after [n] operations. *)
Definition live (dbDir : bytes) (n : nat) (s : State) : State :=
  match s with
  | (None, w) => seq_run n (Manager_new dbDir) w
  | (Some m, w) => seq_run n (OnEvent dbDir m) w
  end.

Lemma live_step dbDir n s : step dbDir s (live dbDir n s).
Proof.
  destruct s as [[m|] w]; cbn.
  - pose proof (seq_run_spec n (OnEvent dbDir m) w) as H.
    destruct (seq_run n (OnEvent dbDir m) w) as [[]]; by constructor.
  - pose proof (seq_run_spec n (Manager_new dbDir) w) as H.
    destruct (seq_run n (Manager_new dbDir) w) as [[]]; by constructor.
Qed.

Lemma live_nsteps dbDir cuts s :
  nsteps (step dbDir) (length cuts) s (foldl (λ s n, live dbDir n s) s cuts).
Proof. revert s. induction cuts as [|n cuts IH]; intros s; [constructor|]. econstructor; [apply live_step|apply IH]. Qed.

(** Two events, a crash, a boot cut between the two files, and two more. *)
Example sequence_life :
  stored (foldl (λ s n, live [] n s) init [9; 9; 9; 0; 5; 9; 9; 9])%nat.2 = [100; 101; 300; 301].
Proof. vm_compute. reflexivity. Qed.

Lemma sequence_numbers_increase_witness : StronglySorted Z.lt [100; 101; 300; 301].
Proof.
  rewrite <- sequence_life.
  apply (sequence_numbers_increase [] 8); [unfold SEQ_INCREMENT; lia|apply (live_nsteps [] [9; 9; 9; 0; 5; 9; 9; 9]%nat)].
Defined.


End Sequence.
