(* ===== verification/LocalDb.v ===== *)
(** * LocalDb: the largest event number in the documents

    Models the search of base/event_store/sequence/sys_event_sequence_mgr.cpp
    ([UpdateFileInfos], [GetEventMaxSeqFileWithSameDomain],
    [GetEventMaxSeqFileList], [GetEventMaxSeqFromLocalDbFiles]): of the documents
    of one event name only the one with the largest number in its file name is
    opened. *)

From S2P Require Import Prelude Text DbFile.
From stdpp Require Import base gmap list strings.

Local Open Scope Z_scope.

Module LocalDb.
Import DbFile.

Section Search.
Context (ExtractFileName : bytes → bytes).

(** The directories below the database and the files in each. *)
Context (domainDirs : list bytes) (dirFiles : bytes → list bytes).

(** [SysEventDocReader::ReadMaxEventSequence] of the document at a path. *)
Context (ReadMaxEventSequence : bytes → Z).

Definition UpdateFileInfos (dbFileInfos : gmap bytes (Z * bytes)) (eventFile eventName : bytes) (eventSeq : Z)
    : gmap bytes (Z * bytes) :=
  match dbFileInfos !! eventName with
  | None => <[eventName := (eventSeq, eventFile)]> dbFileInfos
  | Some (first, _) =>
      if first >? eventSeq then dbFileInfos else <[eventName := (eventSeq, eventFile)]> dbFileInfos
  end.

(** The name and number [GetEventMaxSeqFileWithSameDomain] takes from a path, if
    it does not skip the file. *)
Definition file_info (eventFile : bytes) : option (bytes * Z) :=
  if negb (IsValidDbFilePath ExtractFileName eventFile) then None else
  let '(ok, eventInfo) := ParseEventInfoFromDbFileName (ExtractFileName eventFile) SplitedEventInfo_new
    (Z.lor NAME_ONLY SEQ_ONLY) in
  if negb ok then None else Some (i_name eventInfo, i_seq eventInfo).

Definition note_file (dbFileInfos : gmap bytes (Z * bytes)) (eventFile : bytes) : gmap bytes (Z * bytes) :=
  match file_info eventFile with
  | None => dbFileInfos
  | Some (name, seq) => UpdateFileInfos dbFileInfos eventFile name seq
  end.

Definition GetEventMaxSeqFileWithSameDomain (domainDir : bytes) (eventDbFiles : list bytes) : list bytes :=
  let eventFiles := dirFiles domainDir in
  match eventFiles with
  | [] => eventDbFiles
  | _ => eventDbFiles ++ ((λ kv, kv.2.2) <$> map_to_list (foldl note_file ∅ eventFiles))
  end.

Definition GetEventMaxSeqFileList : list bytes :=
  foldl (λ eventDbFiles domainDir,
    if negb (IsValidDbDir ExtractFileName domainDir) then eventDbFiles
    else GetEventMaxSeqFileWithSameDomain domainDir eventDbFiles) [] domainDirs.

Definition GetEventMaxSeqFromLocalDbFiles : Z :=
  foldl (λ seq eventDbFile,
    let curSeq := ReadMaxEventSequence eventDbFile in if seq <? curSeq then curSeq else seq)
    0 GetEventMaxSeqFileList.

(** ** Which documents are opened *)

Definition newest (files : list bytes) (name : bytes) (seq : Z) (f : bytes) : Prop :=
  f ∈ files ∧ file_info f = Some (name, seq) ∧
  ∀ g s, g ∈ files → file_info g = Some (name, s) → s <= seq.

Definition infos_ok (files : list bytes) (m : gmap bytes (Z * bytes)) : Prop :=
  (∀ name seq f, m !! name = Some (seq, f) → newest files name seq f) ∧
  (∀ g name s, g ∈ files → file_info g = Some (name, s) → is_Some (m !! name)).

Lemma newest_snoc files name seq f g :
  newest files name seq f → (∀ s, file_info g = Some (name, s) → s <= seq) →
  newest (files ++ [g]) name seq f.
Proof.
  intros (Hf & Hi & Hmax) Hg. split; [apply elem_of_app; by left|]. split; [done|].
  intros h s [Hh| ->%list_elem_of_singleton]%elem_of_app; eauto.
Qed.

Lemma note_file_ok files m f : infos_ok files m → infos_ok (files ++ [f]) (note_file m f).
Proof.
  intros [Hsound Hcompl]. unfold note_file. destruct (file_info f) as [[name seq]|] eqn:Ef.
  2: { split.
    - intros n s g Hg. apply newest_snoc; [eauto|congruence].
    - intros g n s [Hg| ->%list_elem_of_singleton]%elem_of_app; [eauto|congruence]. }
  assert (∀ n s g, n ≠ name → m !! n = Some (s, g) → newest (files ++ [f]) n s g) as Hother.
  { intros n s g Hn Hg. apply newest_snoc; [eauto|]. congruence. }
  assert (∀ m' : gmap bytes (Z * bytes), is_Some (m' !! name) → (∀ n, is_Some (m !! n) → is_Some (m' !! n)) →
    ∀ g n s, g ∈ files ++ [f] → file_info g = Some (n, s) → is_Some (m' !! n)) as Hall.
  { intros m' H1 H2 g n s [Hg| ->%list_elem_of_singleton]%elem_of_app Hi; [eauto|]. congruence. }
  assert (∀ s0, (∀ g s, g ∈ files → file_info g = Some (name, s) → s <= s0) → s0 <= seq →
    infos_ok (files ++ [f]) (<[name := (seq, f)]> m)) as Hput.
  { intros s0 Hmax Hs. split.
    - intros n s g [[<- [= <- <-]]|[Hn Hg]]%lookup_insert_Some; [|eauto].
      split; [apply elem_of_app; right; by apply list_elem_of_singleton|]. split; [done|].
      intros g s [Hg| ->%list_elem_of_singleton]%elem_of_app Hi; [|rewrite Ef in Hi; injection Hi; lia].
      specialize (Hmax g s Hg Hi). lia.
    - apply Hall; [rewrite lookup_insert_eq; eauto|].
      intros n Hn. destruct (decide (n = name)) as [->|]; [rewrite lookup_insert_eq; eauto|].
      by rewrite lookup_insert_ne. }
  unfold UpdateFileInfos. destruct (m !! name) as [[s0 f0]|] eqn:Em.
  - pose proof (Hsound _ _ _ Em) as (Hin0 & Hi0 & Hmax0).
    rewrite Z.gtb_ltb. destruct (Z.ltb_spec seq s0) as [Hlt|Hge]; [|by eapply Hput].
    split; [|by apply Hall; eauto]. intros n s g Hg.
    destruct (decide (n = name)) as [->|]; [|eauto]. rewrite Em in Hg. injection Hg as <- <-.
    apply newest_snoc; [done|]. intros s Hs. rewrite Ef in Hs. injection Hs. lia.
  - apply (Hput seq); [|lia]. intros g s Hg Hi. destruct (Hcompl g name s Hg Hi). congruence.
Qed.

Lemma notes_ok files : infos_ok files (foldl note_file ∅ files).
Proof.
  induction files as [|f files IH] using rev_ind.
  { split; cbn [foldl]; [intros ? ? ? H; by rewrite lookup_empty in H|intros ? ? ? []%not_elem_of_nil]. }
  rewrite foldl_app. by apply note_file_ok.
Qed.

(** A document of a valid domain directory has a newest one of its name opened. *)
Lemma opened_newest dir f name s :
  dir ∈ domainDirs → IsValidDbDir ExtractFileName dir = true → f ∈ dirFiles dir →
  file_info f = Some (name, s) →
  ∃ g t, g ∈ GetEventMaxSeqFileList ∧ newest (dirFiles dir) name t g.
Proof.
  intros Hd Hv Hf Hi. destruct (notes_ok (dirFiles dir)) as [Hsound Hcompl].
  destruct (Hcompl f name s Hf Hi) as [[t g] Hm]. exists g, t. split; [|eauto].
  assert (g ∈ GetEventMaxSeqFileWithSameDomain dir []) as Hg.
  { unfold GetEventMaxSeqFileWithSameDomain. destruct (dirFiles dir) as [|x l]; [by apply not_elem_of_nil in Hf|].
    apply elem_of_app. right. apply list_elem_of_fmap. exists (name, (t, g)). split; [done|].
    by apply elem_of_map_to_list. }
  assert (∀ d acc, GetEventMaxSeqFileWithSameDomain d acc = acc ++ GetEventMaxSeqFileWithSameDomain d []) as Happ.
  { intros d acc. unfold GetEventMaxSeqFileWithSameDomain. destruct (dirFiles d); [by rewrite app_nil_r|done]. }
  assert (∀ ds acc x, x ∈ acc → x ∈ foldl (λ acc d, if negb (IsValidDbDir ExtractFileName d) then acc
    else GetEventMaxSeqFileWithSameDomain d acc) acc ds) as Hkeep.
  { induction ds as [|d ds IH]; intros acc x Hx; [done|]. cbn. apply IH. destruct (negb _); [done|].
    rewrite Happ. apply elem_of_app. by left. }
  unfold GetEventMaxSeqFileList. generalize (@nil bytes) as acc.
  induction Hd as [d ds|d e ds _ IH]; intros acc; cbn; [|eauto]. rewrite Hv. cbn.
  apply Hkeep. rewrite Happ. apply elem_of_app. by right.
Qed.

Lemma search_max l seq f : f ∈ l →
  ReadMaxEventSequence f <= foldl (λ seq eventDbFile,
    let curSeq := ReadMaxEventSequence eventDbFile in if seq <? curSeq then curSeq else seq) seq l.
Proof.
  assert (∀ k s, s <= foldl (λ seq eventDbFile,
    let curSeq := ReadMaxEventSequence eventDbFile in if seq <? curSeq then curSeq else seq) s k) as Hge.
  { induction k as [|g k IH]; intros s; cbn; [lia|]. etrans; [|apply IH]. zcase; lia. }
  intros Hf. revert seq. induction Hf as [f l|f g l _ IH]; intros seq; cbn; [|apply IH].
  etrans; [|apply Hge]. zcase; lia.
Qed.

(** The search finds a number at least as large as every event number in
    every document of every domain, although it opens one document per event name
    only, if events are stored in the document with the largest number in its
    name (so that the largest event number of a document grows with its name). *)
Theorem local_search_covers_documents dir f name s :
  (∀ d g h n i j, d ∈ domainDirs → g ∈ dirFiles d → h ∈ dirFiles d →
     file_info g = Some (n, i) → file_info h = Some (n, j) → i <= j →
     ReadMaxEventSequence g <= ReadMaxEventSequence h) →
  dir ∈ domainDirs → IsValidDbDir ExtractFileName dir = true → f ∈ dirFiles dir →
  file_info f = Some (name, s) →
  ReadMaxEventSequence f <= GetEventMaxSeqFromLocalDbFiles.
Proof.
  intros Hmono Hd Hv Hf Hi. destruct (opened_newest dir f name s Hd Hv Hf Hi) as (g & t & Hg & Hin & Hgi & Hmax).
  etrans; [|by apply (search_max _ 0 g)]. eapply Hmono; eauto.
Qed.

End Search.

(** ** A concrete database *)

Definition sample_dirFiles (d : bytes) : list bytes :=
  [db_file_path d (str "BOOT") 4 (str "MINOR") 7 0; db_file_path d (str "APP_CRASH") 1 (str "CRITICAL") 120 0;
   db_file_path d (str "BOOT") 4 (str "MINOR") 90 0].

Definition sample_max (f : bytes) : Z :=
  default 0 (snd <$> file_info last_part f) + 5.

Lemma local_search_covers_documents_witness :
  sample_max (db_file_path (str "/d/AAFWK") (str "BOOT") 4 (str "MINOR") 7 0) <=
    GetEventMaxSeqFromLocalDbFiles last_part [str "/d/AAFWK"] sample_dirFiles sample_max.
Proof.
  apply (local_search_covers_documents last_part [str "/d/AAFWK"] sample_dirFiles sample_max (str "/d/AAFWK") _ (str "BOOT") 7).
  - intros d g h n i j _ _ _ Hg Hh Hij. unfold sample_max. rewrite Hg, Hh. cbn. lia.
  - by apply list_elem_of_singleton.
  - by vm_compute.
  - by left.
  - by vm_compute.
Defined.

End LocalDb.
