(* ===== verification/LruCache.v ===== *)
(** * LruCache: the cache of open documents

    Models base/event_store/store/sys_event_doc_lru_cache.cpp and its use by
    [SysEventDatabase::Insert] (sys_event_database.cpp): a list of keys, most
    recently used first, and a hash map from keys to list iterators and documents.
    An iterator is the identity of a list node.  The cache refines a plain list of
    key and document pairs. *)

From S2P Require Import Prelude.
From stdpp Require Import base gmap list strings.

Local Open Scope Z_scope.

Module LruCache.

Definition LruCacheKey : Type := bytes * bytes.

Section Cache.
Context {V : Type}.

Record Cache := mkCache {
  capacity_ : nat;
  lruList_ : list (Z * LruCacheKey);
  lruCache_ : gmap LruCacheKey (Z * V);
  nextNode : Z
}.

Definition Cache_new (capacity : nat) : Cache := mkCache capacity [] ∅ 0.

Definition Contain (key : LruCacheKey) (c : Cache) : bool := bool_decide (is_Some (lruCache_ c !! key)).

(** [lruList_.erase(it)] *)
Definition erase (it : Z) (l : list (Z * LruCacheKey)) : list (Z * LruCacheKey) := filter (λ x, x.1 ≠ it) l.

Definition Get (key : LruCacheKey) (c : Cache) : option V * Cache :=
  match lruCache_ c !! key with
  | None => (None, c)
  | Some (it, value) =>
      let l := (nextNode c, key) :: erase it (lruList_ c) in
      (Some value, mkCache (capacity_ c) l (<[key := (nextNode c, value)]> (lruCache_ c)) (nextNode c + 1))
  end.

Definition Remove (key : LruCacheKey) (c : Cache) : bool * Cache :=
  match lruCache_ c !! key with
  | None => (false, c)
  | Some (it, _) =>
      (true, mkCache (capacity_ c) (erase it (lruList_ c)) (delete key (lruCache_ c)) (nextNode c))
  end.

Definition Add (key : LruCacheKey) (value : V) (c : Cache) : bool * Cache :=
  if Contain key c then (false, c) else
  let c := mkCache (capacity_ c) ((nextNode c, key) :: lruList_ c)
    (<[key := (nextNode c, value)]> (lruCache_ c)) (nextNode c + 1) in
  if bool_decide (capacity_ c < length (lruList_ c))%nat then
    match last (lruList_ c) with
    | Some (_, back) => Remove back c
    | None => (true, c)
    end
  else (true, c).

Definition Clear (c : Cache) : Cache := mkCache (capacity_ c) [] ∅ (nextNode c).

(** The document [SysEventDatabase::Insert] stores an event with: the cached one,
    or a new one that is cached. *)
Definition GetDoc (create : LruCacheKey → V) (key : LruCacheKey) (c : Cache) : V * Cache :=
  match Get key c with
  | (Some v, c) => (v, c)
  | (None, c) => let v := create key in (v, (Add key v c).2)
  end.

(** ** What it promises: a list of pairs, most recently used first *)

Abbreviation Spec := (list (LruCacheKey * V)).

Definition find (key : LruCacheKey) (l : Spec) : option V :=
  snd <$> (snd <$> list_find (λ x, x.1 = key) l).

Definition without (key : LruCacheKey) (l : Spec) : Spec := filter (λ x, x.1 ≠ key) l.

Definition spec_get (key : LruCacheKey) (l : Spec) : option V * Spec :=
  match find key l with
  | Some v => (Some v, (key, v) :: without key l)
  | None => (None, l)
  end.

Definition spec_remove (key : LruCacheKey) (l : Spec) : bool * Spec :=
  match find key l with Some _ => (true, without key l) | None => (false, l) end.

Definition spec_add (capacity : nat) (key : LruCacheKey) (v : V) (l : Spec) : bool * Spec :=
  match find key l with
  | Some _ => (false, l)
  | None => (true, take capacity ((key, v) :: l))
  end.

(** ** Refinement *)

(** The cache holds exactly these pairs in this order. *)
Record refines (c : Cache) (l : Spec) : Prop := {
  re_keys : (lruList_ c).*2 = l.*1;
  re_nodup : NoDup l.*1;
  re_ids : NoDup (lruList_ c).*1;
  re_fresh : Forall (λ x, x.1 < nextNode c) (lruList_ c);
  re_map : ∀ key it v, lruCache_ c !! key = Some (it, v) ↔ (it, key) ∈ lruList_ c ∧ (key, v) ∈ l
}.

Lemma find_Some key l v : NoDup l.*1 → find key l = Some v ↔ (key, v) ∈ l.
Proof.
  intros Hnd. unfold find. induction l as [|[k w] l IH]; cbn; [set_solver|].
  apply NoDup_cons in Hnd as [Hk Hnd]. destruct (decide (k = key)) as [->|Hne]; cbn.
  - rewrite elem_of_cons. split; [intros [= <-]; by left|].
    intros [[= ->]|Hin]; [done|]. exfalso. apply Hk. apply list_elem_of_fmap. by exists (key, v).
  - rewrite elem_of_cons. specialize (IH Hnd). destruct (list_find (λ x, x.1 = key) l) as [[i x]|]; cbn in *; rewrite IH; naive_solver.
Qed.

Lemma find_map c l key :
  refines c l → find key l = snd <$> lruCache_ c !! key.
Proof.
  intros [K ND _ _ Hm]. destruct (lruCache_ c !! key) as [[it v]|] eqn:E; cbn.
  - apply find_Some; [done|]. by apply Hm in E as [_ ?].
  - destruct (find key l) as [v|] eqn:F; [|done]. apply find_Some in F; [|done].
    assert (key ∈ (lruList_ c).*2) as Hin by (rewrite K; apply list_elem_of_fmap; by exists (key, v)).
    apply list_elem_of_fmap in Hin as ([it k] & -> & Hin). cbn in *.
    assert (lruCache_ c !! k = Some (it, v)) by by apply Hm. congruence.
Qed.

(** In a list with one node per identity and one identity per key, erasing the
    node of a key is erasing the key. *)
Lemma erase_key it key (l : list (Z * LruCacheKey)) :
  NoDup l.*1 → NoDup l.*2 → (it, key) ∈ l → (erase it l).*2 = filter (λ k, k ≠ key) l.*2.
Proof.
  unfold erase. induction l as [|[i k] l IH]; intros H1 H2 Hin; [set_solver|]. cbn in H1, H2.
  apply NoDup_cons in H1 as [Hi H1]. apply NoDup_cons in H2 as [Hk H2].
  apply elem_of_cons in Hin as [[= <- <-]|Hin].
  - cbn [fmap list_fmap snd]. rewrite filter_cons_False by naive_solver. rewrite filter_cons_False by naive_solver.
    rewrite (filter_all (λ k, k ≠ key)) by (intros x Hx ->; done).
    rewrite (filter_all (λ x : Z * LruCacheKey, x.1 ≠ it)); [done|].
    intros x Hx E. apply Hi. rewrite <- E. by apply list_elem_of_fmap_2.
  - cbn [fmap list_fmap snd]. rewrite filter_cons_True.
    2: { cbn. intros ->. apply Hi. apply list_elem_of_fmap. by exists (it, key). }
    cbn [fmap list_fmap snd]. rewrite filter_cons_True.
    2: { intros ->. apply Hk. apply list_elem_of_fmap. by exists (it, key). }
    by rewrite IH.
Qed.

Lemma rev_case {A} (l : list A) : l = [] ∨ ∃ l' x, l = l' ++ [x].
Proof. destruct l as [|x l] using rev_ind; [by left|right; eauto]. Qed.

Lemma without_keys key (l : Spec) : (without key l).*1 = filter (λ k, k ≠ key) l.*1.
Proof.
  unfold without. induction l as [|[k v] l IH]; [done|]. cbn [fmap list_fmap fst].
  destruct (decide (k = key)) as [->|Hne].
  - by rewrite !filter_cons_False by naive_solver.
  - rewrite !filter_cons_True by done. cbn [fmap list_fmap fst]. by rewrite IH.
Qed.

Lemma erase_sublist it l : erase it l ⊆ l.
Proof. unfold erase. intros x Hx. by apply list_elem_of_filter in Hx as [_ ?]. Qed.

Lemma NoDup_erase it l : NoDup l.*1 → NoDup (erase it l).*1.
Proof.
  intros Hnd. unfold erase. induction l as [|[i k] l IH]; [done|]. cbn in Hnd. apply NoDup_cons in Hnd as [Hi Hnd].
  destruct (decide (i = it)); [rewrite filter_cons_False by naive_solver; auto|].
  rewrite filter_cons_True by done. cbn. constructor; [|auto].
  intros ([j x] & -> & Hx)%list_elem_of_fmap. apply list_elem_of_filter in Hx as [_ Hx].
  apply Hi. apply list_elem_of_fmap. by exists (j, x).
Qed.

(** What remains after the entry of a key is taken out. *)
Lemma taken_out c l key it v :
  refines c l → lruCache_ c !! key = Some (it, v) →
  refines (mkCache (capacity_ c) (erase it (lruList_ c)) (delete key (lruCache_ c)) (nextNode c)) (without key l).
Proof.
  intros [K ND I F Hm] E. apply Hm in E as [Hit Hv].
  assert (NoDup (lruList_ c).*2) as ND2 by by rewrite K.
  split; cbn.
  - rewrite (erase_key it key) by done. by rewrite K, without_keys.
  - rewrite without_keys. by apply NoDup_filter.
  - by apply NoDup_erase.
  - rewrite Forall_forall in *. intros x Hx. by apply F, (erase_sublist it).
  - intros k i w. unfold erase, without. rewrite lookup_delete_Some, Hm, !list_elem_of_filter. cbn. split.
    + intros (Hne & H1 & H2). split_and!; try done. intros ->. apply Hne.
      by injection (nodup_map_inj fst (lruList_ c) (it, key) (it, k) I Hit H1 eq_refl).
    + intros ((Hi & H1) & Hk & H2). by split_and!.
Qed.

(** A new entry in front. *)
Lemma pushed c l key v :
  refines c l → find key l = None →
  refines (mkCache (capacity_ c) ((nextNode c, key) :: lruList_ c) (<[key := (nextNode c, v)]> (lruCache_ c))
    (nextNode c + 1)) ((key, v) :: l).
Proof.
  intros Hr Hf. pose proof Hr as [K ND I F Hm].
  assert (key ∉ l.*1) as Hkey.
  { intros ([k w] & -> & Hw)%list_elem_of_fmap. apply find_Some in Hw; [|done]. cbn in Hf. congruence. }
  assert (nextNode c ∉ (lruList_ c).*1) as Hid.
  { intros ([i k] & E & Hi)%list_elem_of_fmap. rewrite Forall_forall in F. specialize (F _ Hi). cbn in *. lia. }
  split; cbn.
  - by rewrite K.
  - by constructor.
  - by constructor.
  - constructor; [cbn; lia|]. eapply Forall_impl; [exact F|]. cbn. lia.
  - intros k i w. rewrite lookup_insert_Some, Hm, !elem_of_cons. split.
    + intros [[<- [= <- <-]]|(Hne & H1 & H2)]; [by split; left|]. split; by right.
    + intros [[E1|H1] [E2|H2]]; simplify_eq; [by left|..].
      * exfalso. apply Hkey. apply list_elem_of_fmap. by exists (key, w).
      * exfalso. apply Hkey. rewrite <- K. apply list_elem_of_fmap. by exists (i, key).
      * right. split; [|done]. intros ->. apply Hkey. apply list_elem_of_fmap. by exists (k, w).
Qed.

Lemma Get_refines key c l :
  refines c l → (Get key c).1 = (spec_get key l).1 ∧ refines (Get key c).2 (spec_get key l).2.
Proof.
  intros Hr. unfold Get, spec_get. rewrite (find_map c l key Hr).
  destruct (lruCache_ c !! key) as [[it v]|] eqn:E; cbn; [|done]. split; [done|].
  pose proof (taken_out c l key it v Hr E) as Ht. apply (pushed _ _ key v) in Ht.
  - cbn in Ht. by rewrite insert_delete_eq in Ht.
  - destruct (find key (without key l)) as [w|] eqn:Ef; [|done]. apply find_Some in Ef; [|by apply re_nodup in Ht].
    apply list_elem_of_filter in Ef as [? _]. done.
Qed.

Lemma Remove_refines key c l :
  refines c l → (Remove key c).1 = (spec_remove key l).1 ∧ refines (Remove key c).2 (spec_remove key l).2.
Proof.
  intros Hr. unfold Remove, spec_remove. rewrite (find_map c l key Hr).
  destruct (lruCache_ c !! key) as [[it v]|] eqn:E; cbn; [|done]. split; [done|]. by eapply taken_out.
Qed.

Lemma without_last (l : Spec) k v : NoDup (l ++ [(k, v)]).*1 → without k (l ++ [(k, v)]) = l.
Proof.
  rewrite fmap_app. intros Hnd. unfold without. rewrite filter_app, filter_cons_False by naive_solver.
  rewrite filter_nil, app_nil_r. apply filter_all. intros x Hx E. apply NoDup_app in Hnd as (_ & Hd & _).
  apply (Hd x.1); [by apply list_elem_of_fmap_2|]. rewrite E. by left.
Qed.

Lemma Add_refines key v c l :
  refines c l → (length l <= capacity_ c)%nat →
  (Add key v c).1 = (spec_add (capacity_ c) key v l).1 ∧ refines (Add key v c).2 (spec_add (capacity_ c) key v l).2.
Proof.
  intros Hr Hlen. unfold Add, Contain, spec_add. rewrite (find_map c l key Hr).
  destruct (lruCache_ c !! key) as [[it w]|] eqn:E; cbn; [done|].
  assert (find key l = None) as Hf by by rewrite (find_map c l key Hr), E.
  pose proof (pushed c l key v Hr Hf) as Hp. set (c1 := mkCache _ _ _ _) in *.
  assert (length (lruList_ c1) = S (length l)) as El.
  { cbn. by rewrite <- (length_fmap snd (lruList_ c)), (re_keys c l Hr), length_fmap. }
  change (mkCache _ _ _ _) with c1. change (S (length (lruList_ c))) with (length (lruList_ c1)). rewrite El.
  case_bool_decide as Hc.
  2: { split; [done|]. cbn [snd]. rewrite firstn_all2; [done|]. cbn. lia. }
  destruct (rev_case ((key, v) :: l)) as [Es|(l' & [bk bv] & Es)]; [done|].
  assert (last (lruList_ c1).*2 = Some bk) as Hlast.
  { rewrite (re_keys c1 _ Hp), Es, fmap_app. cbn [fmap list_fmap fst]. by rewrite last_snoc. }
  change ((nextNode c, key) :: lruList_ c) with (lruList_ c1).
  rewrite fmap_last in Hlast. destruct (last (lruList_ c1)) as [[i back]|]; [|done]. injection Hlast as ->.
  destruct (Remove_refines bk c1 _ Hp) as [H1 H2]. unfold spec_remove in *.
  assert (find bk ((key, v) :: l) = Some bv) as Hfind.
  { apply find_Some; [by apply re_nodup in Hp|]. rewrite Es. apply elem_of_app. right. by left. }
  rewrite Hfind in H1, H2. split; [exact H1|]. cbn [snd] in *.
  assert (without bk ((key, v) :: l) = take (capacity_ c) ((key, v) :: l)) as <-; [|done].
  assert (length l' = capacity_ c) as Ec.
  { apply (f_equal length) in Es. rewrite length_app in Es. cbn in Es. cbn in Hc. lia. }
  rewrite Es, without_last, <- Ec, take_app_length; [done|]. rewrite <- Es. by apply re_nodup in Hp.
Qed.

(** ** Every sequence of calls *)

Inductive Call := CGet (k : LruCacheKey) | CAdd (k : LruCacheKey) (v : V) | CRemove (k : LruCacheKey) | CClear
  | CContain (k : LruCacheKey).

Inductive Answer := ADoc (o : option V) | ABool (b : bool) | AVoid.

Definition run_call (c : Cache) (x : Call) : Answer * Cache :=
  match x with
  | CGet k => let '(o, c) := Get k c in (ADoc o, c)
  | CAdd k v => let '(b, c) := Add k v c in (ABool b, c)
  | CRemove k => let '(b, c) := Remove k c in (ABool b, c)
  | CClear => (AVoid, Clear c)
  | CContain k => (ABool (Contain k c), c)
  end.

Definition run_spec (capacity : nat) (l : Spec) (x : Call) : Answer * Spec :=
  match x with
  | CGet k => let '(o, l) := spec_get k l in (ADoc o, l)
  | CAdd k v => let '(b, l) := spec_add capacity k v l in (ABool b, l)
  | CRemove k => let '(b, l) := spec_remove k l in (ABool b, l)
  | CClear => (AVoid, [])
  | CContain k => (ABool (bool_decide (is_Some (find k l))), l)
  end.

Fixpoint run_all {S} (f : S → Call → Answer * S) (s : S) (xs : list Call) : list Answer * S :=
  match xs with
  | [] => ([], s)
  | x :: xs => let '(a, s) := f s x in let '(r, s) := run_all f s xs in (a :: r, s)
  end.

Lemma spec_length capacity l x :
  (length l <= capacity)%nat → (length (run_spec capacity l x).2 <= capacity)%nat.
Proof.
  intros Hl. assert (∀ k, length (without k l) <= length l)%nat as Hw by (intros k; apply length_filter).
  destruct x as [k|k v|k| |k]; cbn; unfold spec_get, spec_add, spec_remove.
  - destruct (find k l) as [v|] eqn:E; cbn; [|done].
    assert (length (without k l) < length l)%nat; [|lia].
    unfold without, find in *. destruct (list_find (λ x, x.1 = k) l) as [[i [k' v']]|] eqn:Ef; [|done].
    apply list_find_Some in Ef as (Ei & Ek & _). apply list_elem_of_lookup_2 in Ei.
    apply list_elem_of_split in Ei as (l1 & l2 & ->). rewrite filter_app, filter_cons_False by (cbn in *; naive_solver).
    rewrite !length_app. cbn. pose proof (length_filter (λ x : LruCacheKey * V, x.1 ≠ k) l1).
    pose proof (length_filter (λ x : LruCacheKey * V, x.1 ≠ k) l2). lia.
  - destruct (find k l); cbn; [done|]. rewrite length_take. cbn. lia.
  - destruct (find k l); cbn; [|done]. specialize (Hw k). lia.
  - lia.
  - done.
Qed.

Lemma step_refines x c l :
  refines c l → (length l <= capacity_ c)%nat →
  (run_call c x).1 = (run_spec (capacity_ c) l x).1 ∧ refines (run_call c x).2 (run_spec (capacity_ c) l x).2 ∧
  capacity_ (run_call c x).2 = capacity_ c.
Proof.
  intros Hr Hl. destruct x as [k|k v|k| |k]; cbn.
  - destruct (Get_refines k c l Hr) as [H1 H2]. assert (capacity_ (Get k c).2 = capacity_ c) by
      (unfold Get; by destruct (lruCache_ c !! k) as [[]|]).
    destruct (Get k c), (spec_get k l). cbn in *. by subst.
  - destruct (Add_refines k v c l Hr Hl) as [H1 H2]. assert (capacity_ (Add k v c).2 = capacity_ c) as Ec.
    { unfold Add. destruct (Contain k c); [done|]. case_bool_decide; [|done]. destruct (last _) as [[i b]|]; [|done].
      unfold Remove. by destruct (_ !! b) as [[]|]. }
    destruct (Add k v c), (spec_add (capacity_ c) k v l). cbn in *. by subst.
  - destruct (Remove_refines k c l Hr) as [H1 H2]. assert (capacity_ (Remove k c).2 = capacity_ c) by
      (unfold Remove; by destruct (lruCache_ c !! k) as [[]|]).
    destruct (Remove k c), (spec_remove k l). cbn in *. by subst.
  - split_and!; try done. split; cbn; [done|constructor|constructor|constructor|].
    intros k it w. rewrite lookup_empty. set_solver.
  - split_and!; try done. unfold Contain. rewrite (find_map c l k Hr). f_equal. apply bool_decide_ext.
    by rewrite fmap_is_Some.
Qed.

(** The cache of open documents behaves as a list of pairs, most recently used
    first, in every sequence of calls: a key found is moved to the front, adding to
    a full cache drops the least recently used entry, and there are never more
    entries than the capacity. *)
Theorem lru_cache_refines_list capacity xs :
  (run_all run_call (Cache_new capacity) xs).1 = (run_all (run_spec capacity) [] xs).1 ∧
  refines (run_all run_call (Cache_new capacity) xs).2 (run_all (run_spec capacity) [] xs).2 ∧
  (length (run_all (run_spec capacity) [] xs).2 <= capacity)%nat.
Proof.
  assert (refines (Cache_new capacity) []) as Hr.
  { split; cbn; [done|constructor|constructor|constructor|]. intros key it v. rewrite lookup_empty. set_solver. }
  assert (capacity_ (Cache_new capacity) = capacity) as Ec by done.
  assert (length ([] : Spec) <= capacity)%nat as Hl by (cbn; lia).
  revert Hr Ec Hl. generalize (Cache_new capacity), ([] : Spec). induction xs as [|x xs IH]; intros c l Hr Ec Hl; [done|].
  cbn. destruct (step_refines x c l Hr ltac:(lia)) as (H1 & H2 & H3). pose proof (spec_length capacity l x Hl) as H4.
  rewrite Ec in *. destruct (run_call c x) as [a c'], (run_spec capacity l x) as [a' l']. cbn in *. subst a'.
  destruct (IH c' l' H2 H3 H4) as (E & R & L).
  destruct (run_all run_call c' xs), (run_all (run_spec capacity) l' xs). cbn in *. by subst.
Qed.

End Cache.

End LruCache.
