(* ===== verification/RepeatGuard.v ===== *)
(** * RepeatGuard: packing the logs of a fault once per period

    Models base/event_store/store/sys_event_repeat_guard.cpp and
    sys_event_repeat_db.cpp.  The relational store (NativeRdb) is a parameter: a
    class of the operations used, with what its documentation promises as laws;
    every operation may fail, and one that reports a corrupt file makes the code
    delete it. *)

From S2P Require Import Prelude.
From stdpp Require Import base list strings sorting.

Local Open Scope Z_scope.

Module RepeatGuard.

(** ** The store *)

Definition Key : Type := bytes * bytes * bytes.

(** A row: domain, name and hash, and the time. *)
Record Row := mkRow { row_key : Key; row_time : Z }.

Inductive Code := E_OK | E_SQLITE_CORRUPT | E_ERROR.

#[global] Instance Code_eq_dec : EqDecision Code.
Proof. solve_decision. Defined.

Class RepeatStore := {
  store : Type;
  rows : store → list Row;
  GetRdbStore : store → Code * store;
  DeleteRdbStore : store → store;
  db_insert : Row → store → Code * store;
  db_update : Key → Z → store → Code * store;
  db_delete_before : Z → store → Code * store;
  db_count : store → Code * Z;
  db_query : Key → store → Code * Z;

  open_rows s : rows (GetRdbStore s).2 = rows s;
  insert_rows r s : (db_insert r s).1 = E_OK → rows (db_insert r s).2 ≡ₚ r :: rows s;
  update_rows k t s : (db_update k t s).1 = E_OK →
    rows (db_update k t s).2 ≡ₚ (λ r, if bool_decide (row_key r = k) then mkRow k t else r) <$> rows s;
  delete_rows t s : (db_delete_before t s).1 = E_OK →
    rows (db_delete_before t s).2 ≡ₚ filter (λ r, ¬ row_time r < t) (rows s);
  query_rows k s : (db_query k s).1 = E_OK → ∃ r, r ∈ rows s ∧ row_key r = k ∧ row_time r = (db_query k s).2;
  query_found k s : (db_query k s).1 ≠ E_OK → (∀ r, r ∈ rows s → row_key r ≠ k) ∨ (db_query k s).1 = E_SQLITE_CORRUPT
}.

(** A store that does not fail: a query errs only for want of a row. *)
Class Reliable (S : RepeatStore) := {
  open_ok s : (GetRdbStore s).1 = E_OK;
  insert_ok r s : (db_insert r s).1 = E_OK;
  update_ok k t s : (db_update k t s).1 = E_OK;
  delete_ok t s : (db_delete_before t s).1 = E_OK;
  count_ok s : (db_count s).1 = E_OK;
  query_ok k s : (db_query k s).1 ≠ E_SQLITE_CORRUPT
}.

Section Guard.
Context `{RS : RepeatStore}.

Definition MAX_DB_COUNT : Z := 10000.

(** [SysEventRepeatDb]: the database file, whether [dbStore_] is set, and
    [dbCount_]. *)
Record Db := mkDb { file : store; opened : bool; dbCount_ : Z }.

Definition CheckAndRepairDbFile (errCode : Code) (d : Db) : Db :=
  if bool_decide (errCode = E_SQLITE_CORRUPT) then mkDb (DeleteRdbStore (file d)) false (dbCount_ d) else d.

Definition InitDbStore (d : Db) : Db :=
  let '(code, f) := GetRdbStore (file d) in
  if bool_decide (code = E_OK) then mkDb f true (dbCount_ d)
  else CheckAndRepairDbFile code (mkDb f false (dbCount_ d)).

Definition RefreshDbCount (d : Db) : Db :=
  if negb (opened d) then d else
  let '(code, n) := db_count (file d) in
  if bool_decide (code = E_OK) then mkDb (file d) (opened d) n else CheckAndRepairDbFile code d.

Definition CheckDbStoreValid (d : Db) : bool * Db :=
  if opened d then (true, d) else
  let d := RefreshDbCount (InitDbStore d) in (opened d, d).

Definition Release (d : Db) : Db := mkDb (file d) false (dbCount_ d).

Definition ClearHistory (happentime : Z) (d : Db) : Db :=
  let '(ok, d) := CheckDbStoreValid d in
  if negb ok then d else
  let '(code, f) := db_delete_before happentime (file d) in
  let d := mkDb f (opened d) (dbCount_ d) in
  if bool_decide (code = E_OK) then d else CheckAndRepairDbFile code d.

Definition CheckAndClearDb (happentime : Z) (d : Db) : Db :=
  if dbCount_ d <=? MAX_DB_COUNT then d else RefreshDbCount (ClearHistory happentime d).

Definition Clear (happentime : Z) (d : Db) : Db := RefreshDbCount (ClearHistory happentime d).

Definition Insert (r : Row) (d : Db) : bool * Db :=
  let '(ok, d) := CheckDbStoreValid d in
  if negb ok then (false, d) else
  let '(code, f) := db_insert r (file d) in
  let d := mkDb f (opened d) (dbCount_ d) in
  if bool_decide (code = E_OK) then (true, mkDb f (opened d) (dbCount_ d + 1))
  else (false, CheckAndRepairDbFile code d).

Definition Update (r : Row) (d : Db) : bool * Db :=
  let '(ok, d) := CheckDbStoreValid d in
  if negb ok then (false, d) else
  let '(code, f) := db_update (row_key r) (row_time r) (file d) in
  let d := mkDb f (opened d) (dbCount_ d) in
  if bool_decide (code = E_OK) then (true, d) else (false, CheckAndRepairDbFile code d).

Definition QueryHappentime (k : Key) (d : Db) : Z * Db :=
  let '(ok, d) := CheckDbStoreValid d in
  if negb ok then (0, d) else
  let '(code, t) := db_query k (file d) in
  if bool_decide (code = E_OK) then (t, d) else (0, CheckAndRepairDbFile code d).

(** ** The guard *)

Context (timeRange : Z).

Definition GetMinValidTime (timeNow : Z) : Z := if timeNow >? timeRange then timeNow - timeRange else 0.

(** [IsEventRepeat]; the identity of the event, [None] when it has none, and the
    two readings of the clock. *)
Definition IsEventRepeat (uniqueId : option Key) (now now' : Z) (d : Db) : bool * Db :=
  match uniqueId with
  | None => (false, d)
  | Some k =>
      let '(happentime, d) := QueryHappentime k d in
      let minValidTime := GetMinValidTime now in
      if happentime >? minValidTime then (true, Release d) else
      let r := mkRow k now' in
      let d :=
        if happentime >? 0 then (Update r d).2
        else CheckAndClearDb minValidTime (Insert r d).2 in
      (false, Release d)
  end.

Definition LOG_ALLOW_PACK : Z := Z.shiftl 0 5.
Definition LOG_NOT_ALLOW_PACK : Z := Z.shiftl 1 5.
Definition LOG_PACKED : Z := 1.
Definition LOG_REPEAT : Z := 1.

(** The log field [Check] gives the event, [None] when it leaves it alone. *)
Definition Check (isFault : bool) (uniqueId : option Key) (now now' : Z) (d : Db) : option Z * Db :=
  if negb isFault then (None, d) else
  let '(rep, d) := IsEventRepeat uniqueId now now' d in
  (Some (if rep : bool then Z.lor LOG_NOT_ALLOW_PACK LOG_REPEAT else Z.lor LOG_ALLOW_PACK LOG_PACKED), d).

(** ** Once per period *)

Context `{RL : !Reliable RS}.

Definition db_rows (d : Db) : list Row := rows (file d).

Lemma open_reliable d : (CheckDbStoreValid d).1 = true ∧ db_rows (CheckDbStoreValid d).2 = db_rows d.
Proof.
  unfold CheckDbStoreValid, db_rows. destruct (opened d) eqn:E; [done|]. unfold InitDbStore.
  pose proof (open_ok (file d)) as Ho. pose proof (open_rows (file d)) as Hr.
  destruct (GetRdbStore (file d)) as [code f]. cbn in Ho, Hr. subst code. rewrite bool_decide_true by done.
  unfold RefreshDbCount. cbn. pose proof (count_ok f) as Hc. destruct (db_count f) as [code n]. cbn in Hc. subst code.
  rewrite bool_decide_true by done. done.
Qed.

Ltac open_db d := let H1 := fresh in let H2 := fresh "Hrows" in
  destruct (open_reliable d) as [H1 H2]; destruct (CheckDbStoreValid d) as [? ?]; cbn [fst snd] in H1, H2; subst; cbn [negb].

Lemma Insert_rows r d : db_rows (Insert r d).2 ≡ₚ r :: db_rows d.
Proof.
  unfold Insert. open_db d. rewrite <- Hrows. pose proof (insert_ok r (file d0)) as Ho. pose proof (insert_rows r (file d0) Ho) as Hr.
  destruct (db_insert r (file d0)) as [code f]. cbn in *. subst code. rewrite bool_decide_true by done. done.
Qed.

Lemma Update_rows r d :
  db_rows (Update r d).2 ≡ₚ (λ x, if bool_decide (row_key x = row_key r) then mkRow (row_key r) (row_time r) else x) <$> db_rows d.
Proof.
  unfold Update. open_db d. rewrite <- Hrows. pose proof (update_ok (row_key r) (row_time r) (file d0)) as Ho.
  pose proof (update_rows _ _ _ Ho) as Hr. destruct (db_update _ _ (file d0)) as [code f]. cbn in *. subst code.
  rewrite bool_decide_true by done. done.
Qed.

Lemma Refresh_rows d : db_rows (RefreshDbCount d) = db_rows d.
Proof.
  unfold RefreshDbCount. destruct (opened d); [|done]. cbn. pose proof (count_ok (file d)) as Hc.
  destruct (db_count (file d)) as [code n]. cbn in Hc. subst code. by rewrite bool_decide_true.
Qed.

Lemma Clear_rows t d : db_rows (Clear t d) ≡ₚ filter (λ r, ¬ row_time r < t) (db_rows d).
Proof.
  unfold Clear. rewrite Refresh_rows. unfold ClearHistory. open_db d. rewrite <- Hrows.
  pose proof (delete_ok t (file d0)) as Ho. pose proof (delete_rows t _ Ho) as Hr.
  destruct (db_delete_before t (file d0)) as [code f]. cbn in *. subst code. rewrite bool_decide_true by done. done.
Qed.

Lemma CheckAndClearDb_rows t d :
  db_rows (CheckAndClearDb t d) ≡ₚ db_rows d ∨ db_rows (CheckAndClearDb t d) ≡ₚ filter (λ r, ¬ row_time r < t) (db_rows d).
Proof. unfold CheckAndClearDb. destruct (_ <=? _); [by left|right]. apply Clear_rows. Qed.

Lemma Query_rows k d :
  db_rows (QueryHappentime k d).2 = db_rows d ∧
  ((∃ r, r ∈ db_rows d ∧ row_key r = k ∧ row_time r = (QueryHappentime k d).1) ∨
   (QueryHappentime k d).1 = 0 ∧ ∀ r, r ∈ db_rows d → row_key r ≠ k).
Proof.
  unfold QueryHappentime. open_db d. rewrite <- Hrows. pose proof (query_ok k (file d0)) as Ho.
  pose proof (query_rows k (file d0)) as Hr. pose proof (query_found k (file d0)) as Hf.
  destruct (db_query k (file d0)) as [code t]. cbn in *. case_bool_decide as Hc.
  - subst code. split; [done|]. left. by apply Hr.
  - unfold CheckAndRepairDbFile. rewrite bool_decide_false by done. split; [done|]. right. split; [done|].
    destruct (Hf Hc); done.
Qed.

Definition entry (r : Row) : Key * Z := (row_key r, row_time r).

(** Checks of events and the switch that forgets the past; with the times at which
    events were packed, since the switch. *)
Inductive Action := DoCheck (k : Key) (now now' : Z) | SwitchOn (cur : Z).

Definition act (s : Db * list (Key * Z)) (a : Action) : Db * list (Key * Z) :=
  let '(d, packed) := s in
  match a with
  | DoCheck k now now' =>
      let '(rep, d) := IsEventRepeat (Some k) now now' d in
      (d, if rep : bool then packed else (k, now') :: packed)
  | SwitchOn cur => (Release (Clear cur d), filter (λ h, ¬ h.2 < cur) packed)
  end.

Fixpoint run (s : Db * list (Key * Z)) (l : list Action) : Db * list (Key * Z) :=
  match l with [] => s | a :: l => run (act s a) l end.

(** The clock does not go back; [t] is the last reading. *)
Fixpoint clock_ok (t : Z) (l : list Action) (t' : Z) : Prop :=
  match l with
  | [] => t = t'
  | DoCheck _ now now' :: l => t <= now ∧ now <= now' ∧ clock_ok now' l t'
  | SwitchOn cur :: l => t <= cur ∧ clock_ok cur l t'
  end.

Context (Hrange : 0 <= timeRange).

Lemma min_mono t t' : t <= t' → GetMinValidTime t <= GetMinValidTime t'.
Proof. intros H. unfold GetMinValidTime. rewrite !Z.gtb_ltb. destruct (Z.ltb_spec timeRange t), (Z.ltb_spec timeRange t'); lia. Qed.

Lemma min_nonneg t : 0 <= GetMinValidTime t.
Proof. unfold GetMinValidTime. rewrite Z.gtb_ltb. destruct (Z.ltb_spec timeRange t); lia. Qed.

Lemma min_le t : 0 <= t → GetMinValidTime t <= t.
Proof. intros H. unfold GetMinValidTime. rewrite Z.gtb_ltb. destruct (Z.ltb_spec timeRange t); lia. Qed.

Record inv (t : Z) (d : Db) (packed : list (Key * Z)) : Prop := {
  inv_time : 0 < t;
  inv_unique : NoDup (row_key <$> db_rows d);
  inv_rows : ∀ r, r ∈ db_rows d → 0 < row_time r ∧ entry r ∈ packed;
  inv_packed : ∀ k h, (k, h) ∈ packed →
    (∃ r, r ∈ db_rows d ∧ row_key r = k ∧ h <= row_time r) ∨ h < GetMinValidTime t
}.

Lemma inv_later t t' d packed : t <= t' → inv t d packed → inv t' d packed.
Proof.
  intros Ht []. split; try done; [lia|]. intros k h H. destruct (inv_packed0 k h H); [by left|right].
  pose proof (min_mono t t' Ht). lia.
Qed.

Lemma inv_perm t d d' packed : db_rows d' ≡ₚ db_rows d → inv t d packed → inv t d' packed.
Proof.
  intros HP []. split; try done.
  - by rewrite HP.
  - intros r. rewrite HP. auto.
  - intros k h H. destruct (inv_packed0 k h H) as [(r & Hr & ?)|?]; [left|by right]. exists r. by rewrite HP.
Qed.

(** The answer, from the past. *)
Lemma query_past t d packed k now :
  inv t d packed → t <= now →
  GetMinValidTime now < (QueryHappentime k d).1 ↔ ∃ h, (k, h) ∈ packed ∧ GetMinValidTime now < h.
Proof.
  intros [] Ht. destruct (Query_rows k d) as [_ [(r & Hr & Ek & Et)|[E0 Hno]]].
  - rewrite <- Et. split.
    + intros Hlt. exists (row_time r). split; [|done]. subst k. by apply inv_rows0.
    + intros (h & Hh & Hlt). destruct (inv_packed0 k h Hh) as [(r' & Hr' & Ek' & Hle)|Hold].
      * assert (r' = r) as ->; [|lia]. eapply (nodup_map_inj row_key); eauto. congruence.
      * pose proof (min_mono t now Ht). lia.
  - rewrite E0. split; [pose proof (min_nonneg now); lia|].
    intros (h & Hh & Hlt). destruct (inv_packed0 k h Hh) as [(r' & Hr' & Ek' & Hle)|Hold].
    + by destruct (Hno r' Hr').
    + pose proof (min_mono t now Ht). lia.
Qed.

(** The effect of the store operations on the invariant. *)
Lemma updated_inv t t' d packed k :
  inv t d packed → t <= t' → (∀ h, (k, h) ∈ packed → h <= t') → (∃ r, r ∈ db_rows d ∧ row_key r = k) →
  inv t' (Update (mkRow k t') d).2 ((k, t') :: packed).
Proof.
  intros [H1 H2 H3 H4] Ht Hold (r0 & Hr0 & Ek0). set (up := λ x, if bool_decide (row_key x = k) then mkRow k t' else x).
  pose proof (Update_rows (mkRow k t') d : _ ≡ₚ up <$> db_rows d) as HU.
  assert (∀ x, row_key (up x) = row_key x) as Hkey by (intros x; unfold up; by case_bool_decide).
  split; [lia|..].
  - rewrite HU, <- list_fmap_compose. by rewrite (list_fmap_ext (row_key ∘ up) row_key) by (intros; apply Hkey).
  - intros r. rewrite HU, list_elem_of_fmap. intros (x & -> & Hx). destruct (H3 x Hx) as [Hp He]. unfold up.
    case_bool_decide; cbn; [split; [lia|apply list_elem_of_here]|split; [lia|by apply list_elem_of_further]].
  - intros k' h. rewrite elem_of_cons. intros [[= -> ->]|Hh].
    + left. exists (up r0). rewrite HU, Hkey. split; [by apply list_elem_of_fmap_2|]. split; [done|].
      unfold up. by rewrite bool_decide_true.
    + destruct (H4 k' h Hh) as [(r & Hr & Ek & Hle)|?]; [left|right; pose proof (min_mono t t' Ht); lia].
      exists (up r). rewrite HU, Hkey. split; [by apply list_elem_of_fmap_2|]. split; [done|].
      unfold up. case_bool_decide as E; [|done]. cbn. apply Hold. congruence.
Qed.

Lemma inserted_inv t t' d packed k :
  inv t d packed → t <= t' → (∀ r, r ∈ db_rows d → row_key r ≠ k) →
  inv t' (Insert (mkRow k t') d).2 ((k, t') :: packed).
Proof.
  intros [H1 H2 H3 H4] Ht Hno. pose proof (Insert_rows (mkRow k t') d) as HI. split; [lia|..].
  - rewrite HI. cbn. constructor; [|done]. rewrite list_elem_of_fmap. intros (r & E & Hr). by destruct (Hno r Hr).
  - intros r. rewrite HI, elem_of_cons. intros [->|Hr]; [split; [cbn; lia|apply list_elem_of_here]|].
    destruct (H3 r Hr). split; [done|by apply list_elem_of_further].
  - intros k' h. rewrite elem_of_cons. intros [[= -> ->]|Hh].
    + left. exists (mkRow k t'). rewrite HI. split; [apply list_elem_of_here|done].
    + destruct (H4 k' h Hh) as [(r & Hr & ?)|?]; [left|right; pose proof (min_mono t t' Ht); lia].
      exists r. rewrite HI. split; [by apply list_elem_of_further|done].
Qed.

Lemma cleared_inv t m d d' packed :
  db_rows d' ≡ₚ db_rows d ∨ db_rows d' ≡ₚ filter (λ r, ¬ row_time r < m) (db_rows d) →
  m <= GetMinValidTime t → inv t d packed → inv t d' packed.
Proof.
  intros [HP|HP] Hm Hi; [by eapply inv_perm|]. destruct Hi as [H1 H2 H3 H4]. split; [done|..].
  - rewrite HP. eapply sublist_NoDup; [exact H2|]. apply fmap_sublist, sublist_filter.
  - intros r. rewrite HP, list_elem_of_filter. intros [_ Hr]. auto.
  - intros k h Hh. destruct (H4 k h Hh) as [(r & Hr & Ek & Hle)|?]; [|by right].
    destruct (Z.lt_ge_cases (row_time r) m); [right; lia|left]. exists r. rewrite HP, list_elem_of_filter.
    split_and!; [lia|done..].
Qed.

Lemma switched_inv t cur d packed :
  inv t d packed → t <= cur → inv cur (Release (Clear cur d)) (filter (λ h, ¬ h.2 < cur) packed).
Proof.
  intros Hi Ht. apply (inv_later t cur) in Hi as [H1 H2 H3 H4]; [|done].
  pose proof (Clear_rows cur d : db_rows (Release (Clear cur d)) ≡ₚ _) as HP. split; [done|..].
  - rewrite HP. eapply sublist_NoDup; [exact H2|]. apply fmap_sublist, sublist_filter.
  - intros r. rewrite HP, !list_elem_of_filter. intros [Hc Hr]. destruct (H3 r Hr). by split_and!.
  - intros k h. rewrite list_elem_of_filter. cbn. intros [Hc Hh].
    destruct (H4 k h Hh) as [(r & Hr & Ek & Hle)|?]; [left|by right]. exists r. rewrite HP, list_elem_of_filter.
    split_and!; [lia|done..].
Qed.

Lemma IsEventRepeat_inv t d packed k now now' :
  inv t d packed → t <= now → now <= now' →
  let '(rep, d') := IsEventRepeat (Some k) now now' d in
  (rep = true ↔ ∃ h, (k, h) ∈ packed ∧ GetMinValidTime now < h) ∧
  inv now' d' (if rep then packed else (k, now') :: packed).
Proof.
  intros Hi Ht Ht'. pose proof (query_past t d packed k now Hi Ht) as Hq. destruct (Query_rows k d) as [Er Hcase].
  unfold IsEventRepeat. destruct (QueryHappentime k d) as [hap d1]. cbn [fst snd] in *.
  assert (inv now d1 packed) as Hi1 by (eapply inv_perm; [by rewrite Er|by eapply inv_later]).
  clear Hi. pose proof (min_nonneg now) as Hmin. rewrite !Z.gtb_ltb.
  destruct (Z.ltb_spec (GetMinValidTime now) hap) as [Hlt|Hle].
  { split; [by rewrite <- Hq|]. eapply inv_perm, inv_later; [|exact Ht'|exact Hi1]. done. }
  assert (¬ ∃ h, (k, h) ∈ packed ∧ GetMinValidTime now < h) as Hnone by (rewrite <- Hq; lia).
  assert (∀ d', inv now' d' ((k, now') :: packed) → (false = true ↔ ∃ h, (k, h) ∈ packed ∧ GetMinValidTime now < h) ∧
    inv now' (Release d') ((k, now') :: packed)) as Hfin.
  { intros d' H'. split; [by split|]. by eapply inv_perm; [|exact H']. }
  clear Hq. destruct Hi1 as [H1 H2 H3 H4]. rewrite <- Er in Hcase.
  assert (∀ h, (k, h) ∈ packed → h <= GetMinValidTime now) as Hold.
  { intros h Hh. destruct (Z.le_gt_cases h (GetMinValidTime now)); [done|]. exfalso. apply Hnone. by exists h. }
  pose proof (min_mono now now' Ht') as Hmm.
  destruct (Z.ltb_spec 0 hap) as [Hpos|Hz]; apply Hfin.
  - apply (updated_inv now); [by split|done|..].
    + intros h Hh. pose proof (Hold h Hh). pose proof (min_le now ltac:(lia)). lia.
    + destruct Hcase as [(r & Hr & Ek & _)|[-> _]]; [by exists r|lia].
  - destruct Hcase as [(r & Hr & Ek & Et)|[_ Hno]]; [destruct (H3 r Hr); lia|].
    eapply cleared_inv; [apply CheckAndClearDb_rows|done|]. by apply (inserted_inv now); [split| |].
Qed.

Lemma run_inv l : ∀ t t' d packed,
  inv t d packed → clock_ok t l t' → inv t' (run (d, packed) l).1 (run (d, packed) l).2.
Proof.
  induction l as [|[k now now'|cur] l IH]; intros t t' d packed Hi Hc; cbn [run act clock_ok] in Hc |- *; [by subst|..].
  - destruct Hc as (Ht & Ht' & Hc). pose proof (IsEventRepeat_inv t d packed k now now' Hi Ht Ht') as H.
    destruct (IsEventRepeat (Some k) now now' d) as [rep d']. destruct H as [_ H]. by eapply IH.
  - destruct Hc as [Ht Hc]. eapply IH; [|exact Hc]. by eapply switched_inv.
Qed.

(** C34: On a store that does not fail, from an empty database and whatever was
    checked since, the fault [k] is reported as a repeat exactly when the same
    fault was packed, not before the user-experience switch was last turned on,
    later than the start of the period that ends now; a fault that is not a repeat
    is recorded.  So a fault is packed once per period, and forgotten rows never
    lead to packing one early. *)
Theorem fault_packed_once_per_period d t0 l t k now now' :
  0 < t0 → db_rows d = [] → clock_ok t0 l t → t <= now → now <= now' →
  let '(d', packed) := run (d, []) l in
  ((IsEventRepeat (Some k) now now' d').1 = true ↔ ∃ h, (k, h) ∈ packed ∧ GetMinValidTime now < h) ∧
  ((IsEventRepeat (Some k) now now' d').1 = false →
    ∃ r, r ∈ db_rows (IsEventRepeat (Some k) now now' d').2 ∧ row_key r = k ∧ now' <= row_time r).
Proof.
  intros H0 Hd Hc Ht Ht'. assert (inv t0 d []) as Hi.
  { split; [done|rewrite Hd; constructor|rewrite Hd; by intros ? ?%elem_of_nil|by intros ? ? ?%elem_of_nil]. }
  pose proof (run_inv l t0 t d [] Hi Hc) as Hr. destruct (run (d, []) l) as [d' packed]. cbn [fst snd] in Hr.
  pose proof (IsEventRepeat_inv t d' packed k now now' Hr Ht Ht') as H.
  destruct (IsEventRepeat (Some k) now now' d') as [rep d'']. destruct H as [H1 H2]. split; [done|].
  cbn. intros ->. destruct H2 as [_ _ _ H4]. destruct (H4 k now' ltac:(apply list_elem_of_here)) as [(r & ?)|?].
  - by exists r.
  - pose proof (min_le now' ltac:(destruct Hr; lia)). lia.
Qed.

End Guard.

(** ** A store *)

(** A table that is a list. *)
#[local] Instance list_store : RepeatStore.
Proof.
  refine {|
    store := list Row; rows := id;
    GetRdbStore s := (E_OK, s); DeleteRdbStore _ := [];
    db_insert r s := (E_OK, r :: s);
    db_update k t s := (E_OK, (λ r, if bool_decide (row_key r = k) then mkRow k t else r) <$> s);
    db_delete_before t s := (E_OK, filter (λ r, ¬ row_time r < t) s);
    db_count s := (E_OK, Z.of_nat (length s));
    db_query k s := match list_find (λ r, row_key r = k) s with Some (_, r) => (E_OK, row_time r) | None => (E_ERROR, 0) end
  |}; try done.
  - intros k s. destruct (list_find _ s) as [[i r]|] eqn:E; [|done]. intros _.
    apply list_find_Some in E as (Hi & Hk & _). exists r. split_and!; [by eapply list_elem_of_lookup_2|done..].
  - intros k s. destruct (list_find _ s) as [[i r]|] eqn:E; [done|]. intros _. left. apply list_find_None in E.
    by rewrite Forall_forall in E.
Defined.

#[local] Instance list_store_reliable : Reliable list_store.
Proof. split; try done. intros k s. cbn. by destruct (list_find _ s) as [[]|]. Qed.

Definition crash : Key := ([65], [66], [67]).

Definition history : list Action := [DoCheck crash 100 100; DoCheck crash 200 200; DoCheck crash 4000 4001].

(** One hour: the second report of the fault is a repeat, the third is not. *)
Lemma fault_packed_once_per_period_witness :
  (run 3600 (mkDb (RS:=list_store) [] false 0, []) history).2 = [(crash, 4001); (crash, 100)] ∧
  (IsEventRepeat 3600 (Some crash) 4500 4500 (run 3600 (mkDb (RS:=list_store) [] false 0, []) history).1).1 = true.
Proof.
  split; [by vm_compute|].
  refine (proj2 (proj1 (fault_packed_once_per_period (RS:=list_store) 3600 ltac:(lia) (mkDb [] false 0) 1 history 4001 crash 4500 4500
    _ _ _ _ _)) _); [lia|done|cbn; lia|lia..|].
  exists 4001. split; [vm_compute; apply list_elem_of_here|by vm_compute].
Defined.

End RepeatGuard.
