(* ===== verification/Query.v ===== *)
(** * Query: conditions on stored events

    Models base/event_store/dao/doc_query.cpp and the values and conditions of
    dao/sys_event_query.cpp (include/sys_event_query.h): typed comparison of
    field values, condition trees, and the query that filters one document.
    A [double] is its 64-bit pattern, an integer a [Z] in its range. *)

From S2P Require Import Prelude Text FloatText Platform RawData.
From S2P Require Import Encoder Decoder Params EventHeader DecodedEvent.
From stdpp Require Import base list numbers strings.

Local Open Scope Z_scope.

Module Query.

(** ** Comparing doubles *)

Definition dexp (b : Z) : Z := Z.land (Z.shiftr b 52) 2047.
Definition dman (b : Z) : Z := Z.land b (Z.ones 52).
Definition is_nan (b : Z) : bool := (dexp b =? 2047) && negb (dman b =? 0).
Definition is_inf (b : Z) : bool := (dexp b =? 2047) && (dman b =? 0).

(** The value in units of 2^-1074; infinities count as 2^2098 units, more than
    any finite value. *)
Definition dnum (b : Z) : Z :=
  let m := if dexp b =? 0 then dman b else dman b + 2 ^ 52 in
  let v := m * 2 ^ (Z.max (dexp b) 1 - 1) in
  if Z.testbit b 63 then - v else v.

Definition dlt (a b : Z) : bool := negb (is_nan a) && negb (is_nan b) && (dnum a <? dnum b).

(** [abs(a - b)], [None] for NaN; [inf] stands for every overflow. *)
Definition INF : Z := 2047 * 2 ^ 52.
Definition dist (a b : Z) : option Z :=
  if is_nan a || is_nan b then None
  else if is_inf a || is_inf b then
    (if is_inf a && is_inf b && bool_decide (Z.testbit a 63 = Z.testbit b 63) then None else Some INF)
  else let n := Z.abs (dnum a - dnum b) in
       Some (if n =? 0 then 0 else round_double n (2 ^ 1074)).

(** The constant 0.0000001. *)
Definition ESP : Z := decimal_double 1 (-7).

Definition near (a b : Z) : bool :=
  match dist a b with Some d => dnum d <=? dnum ESP | None => false end.
Definition far (a b : Z) : bool :=
  match dist a b with Some d => dnum ESP <? dnum d | None => false end.

(** [static_cast<double>] of an integer. *)
Definition int_to_double (v : Z) : Z :=
  if v =? 0 then 0 else if v <? 0 then round_double (- v) 1 + 2 ^ 63 else round_double v 1.

(** ** Numbers *)

Inductive FieldNumber := FDouble (b : Z) | FUint (v : Z) | FInt (v : Z).

Definition GetNumber_double (f : FieldNumber) : Z :=
  match f with FDouble b => b | FUint v | FInt v => int_to_double v end.
Definition GetNumber_uint64 (f : FieldNumber) : Z :=
  match f with FDouble b => 0 | FUint v => v | FInt v => u64 v end.
Definition GetNumber_int64 (f : FieldNumber) : Z :=
  match f with FDouble b => 0 | FUint v => s64 v | FInt v => v end.

(** The six operators share their shape: a comparison of doubles when either
    side is one, of equal kinds by value, of mixed kinds by sign first. *)
Definition compare_as (dcmp : Z → Z → bool) (icmp : Z → Z → bool) (negL negR : bool)
    (a b : FieldNumber) : bool :=
  match a, b with
  | FDouble _, _ | _, FDouble _ => dcmp (GetNumber_double a) (GetNumber_double b)
  | FInt x, FInt y => icmp x y
  | FUint x, FUint y => icmp x y
  | FInt x, FUint y =>
      if negL then (x <? 0) || icmp (GetNumber_uint64 a) y else (x >=? 0) && icmp (GetNumber_uint64 a) y
  | FUint x, FInt y =>
      if negR then (y <? 0) || icmp x (GetNumber_uint64 b) else (y >=? 0) && icmp x (GetNumber_uint64 b)
  end.

Definition num_eq := compare_as near Z.eqb false false.
Definition num_ne := compare_as far (λ x y, negb (x =? y)) true true.
Definition num_lt := compare_as (λ x y, far x y && dlt x y) Z.ltb true false.
Definition num_le := compare_as (λ x y, near x y || dlt x y) Z.leb true false.
Definition num_gt := compare_as (λ x y, far x y && dlt y x) Z.gtb false true.
Definition num_ge := compare_as (λ x y, near x y || dlt y x) Z.geb false true.

(** ** Values *)

Inductive FieldValue := VString (s : bytes) | VNumber (n : FieldNumber).

(** [std::string] comparison: bytes, unsigned, lexicographic. *)
Fixpoint str_lt (a b : bytes) : bool :=
  match a, b with
  | _, [] => false
  | [], _ :: _ => true
  | x :: a, y :: b => (x <? y) || ((x =? y) && str_lt a b)
  end.

Definition str_eq (a b : bytes) : bool := bool_decide (a = b).

(** Values of different kinds never compare, under any operator. *)
Definition compare_values (ncmp : FieldNumber → FieldNumber → bool) (scmp : bytes → bytes → bool)
    (a b : FieldValue) : bool :=
  match a, b with
  | VNumber x, VNumber y => ncmp x y
  | VString x, VString y => scmp x y
  | _, _ => false
  end.

Definition value_eq := compare_values num_eq str_eq.
Definition value_ne := compare_values num_ne (λ x y, negb (str_eq x y)).
Definition value_lt := compare_values num_lt str_lt.
Definition value_le := compare_values num_le (λ x y, negb (str_lt y x)).
Definition value_gt := compare_values num_gt (λ x y, str_lt y x).
Definition value_ge := compare_values num_ge (λ x y, negb (str_lt x y)).

(** [find(s) == 0] *)
Definition starts_with (v s : bytes) : bool := bool_decide (s `prefix_of` v).
Definition IsStartWith := compare_values (λ _ _, false) starts_with.
Definition IsNotStartWith := compare_values (λ _ _, false) (λ v s, negb (starts_with v s)).

(** ** Conditions *)

Inductive Op := NONE | EQ | NE | LT | LE | GT | GE | SW | NSW.

Inductive Cond := mkCond (col : bytes) (op : Op) (fieldValue : FieldValue) (andConds : list Cond).

Definition col_ (c : Cond) : bytes := let '(mkCond col _ _ _) := c in col.
Definition op_ (c : Cond) : Op := let '(mkCond _ op _ _) := c in op.
Definition fieldValue_ (c : Cond) : FieldValue := let '(mkCond _ _ v _) := c in v.
Definition andConds_ (c : Cond) : list Cond := let '(mkCond _ _ _ l) := c in l.

(** [Cond::And] *)
Definition Cond_And (c d : Cond) : Cond :=
  mkCond (col_ c) (op_ c) (fieldValue_ c) (andConds_ c ++ [d]).

Definition EventCol_SEQ := str "seq_".
Definition EventCol_TS := str "time_".
Definition EventCol_TZ := str "tz_".
Definition EventCol_PID := str "pid_".
Definition EventCol_TID := str "tid_".
Definition EventCol_UID := str "uid_".
Definition EventCol_DOMAIN := str "domain_".
Definition EventCol_NAME := str "name_".
Definition EventCol_LEVEL := str "level_".
Definition EventCol_TAG := str "tag_".

Record DocQuery := mkDocQuery { innerConds_ : list Cond; extraConds_ : list Cond }.

Definition DocQuery_new : DocQuery := mkDocQuery [] [].

Definition IsInnerCond (cond : Cond) : bool :=
  bool_decide (col_ cond ∈ [EventCol_SEQ; EventCol_TS; EventCol_TZ; EventCol_PID; EventCol_TID;
                            EventCol_UID]).

(** [DocQuery::And] *)
Definition DocQuery_And (q : DocQuery) (cond : Cond) : DocQuery :=
  if bool_decide (col_ cond = EventCol_DOMAIN) || bool_decide (col_ cond = EventCol_NAME) then q
  else if IsInnerCond cond then mkDocQuery (innerConds_ q ++ [cond]) (extraConds_ q)
  else mkDocQuery (innerConds_ q) (extraConds_ q ++ [cond]).

Definition IsSimpleCond (c : Cond) : bool :=
  negb (bool_decide (col_ c = [])) && (match andConds_ c with [] => true | _ => false end).

(** [Cond::Traval] *)
Fixpoint Traval (docQuery : DocQuery) (cond : Cond) : DocQuery :=
  let '(mkCond col _ _ andConds) := cond in
  let docQuery := if negb (bool_decide (col = [])) then DocQuery_And docQuery cond else docQuery in
  foldl (λ q andCond, if IsSimpleCond andCond then DocQuery_And q andCond else Traval q andCond)
    docQuery andConds.

Definition IsContainCond (cond : Cond) (value : FieldValue) : bool :=
  match op_ cond with
  | EQ => value_eq value (fieldValue_ cond)
  | NE => value_ne value (fieldValue_ cond)
  | GT => value_gt value (fieldValue_ cond)
  | GE => value_ge value (fieldValue_ cond)
  | LT => value_lt value (fieldValue_ cond)
  | LE => value_le value (fieldValue_ cond)
  | SW => IsStartWith value (fieldValue_ cond)
  | NSW => IsNotStartWith value (fieldValue_ cond)
  | NONE => false
  end.

(** [InnerFieldStruct]: the fields at the start of a stored content. *)
Record InnerField := mkInner { if_seq : Z; if_ts : Z; if_tz : Z; if_uid : Z; if_pid : Z; if_tid : Z }.

Definition field_at (content : bytes) (off n : nat) : Z := le_value (take n (drop off content)).

(** [*(InnerFieldStruct* )(content + HIVIEW_BLOCK_SIZE)] *)
Definition InnerField_of (content : bytes) : InnerField :=
  mkInner (s64 (field_at content 4 8)) (field_at content 12 8) (field_at content 20 1)
    (field_at content 21 4) (field_at content 25 4) (field_at content 29 4).

Definition IsContainInnerCond (innerField : InnerField) (cond : Cond) : bool :=
  if bool_decide (col_ cond = EventCol_SEQ) then
    IsContainCond cond (VNumber (FInt (if_seq innerField)))
  else if bool_decide (col_ cond = EventCol_TS) then
    IsContainCond cond (VNumber (FInt (s64 (if_ts innerField))))
  else if bool_decide (col_ cond = EventCol_TZ) then
    IsContainCond cond (VNumber (FInt (if_tz innerField)))
  else if bool_decide (col_ cond = EventCol_UID) then
    IsContainCond cond (VNumber (FInt (if_uid innerField)))
  else if bool_decide (col_ cond = EventCol_PID) then
    IsContainCond cond (VNumber (FInt (if_pid innerField)))
  else if bool_decide (col_ cond = EventCol_TID) then
    IsContainCond cond (VNumber (FInt (if_tid innerField)))
  else false.

Definition IsContainInnerConds (q : DocQuery) (content : bytes) : bool :=
  match innerConds_ q with
  | [] => true
  | _ => forallb (IsContainInnerCond (InnerField_of content)) (innerConds_ q)
  end.

(** The value of a decoded parameter as the query sees it; arrays have none. *)
Definition param_value (p : DecodedParam) : option FieldValue :=
  match AsInt64 (dval_ p), AsUint64 (dval_ p), AsDouble (dval_ p), dval_ p with
  | Some v, _, _, _ => Some (VNumber (FInt v))
  | None, Some v, _, _ => Some (VNumber (FUint v))
  | None, None, Some v, _ => Some (VNumber (FDouble v))
  | None, None, None, PString s => Some (VString s)
  | _, _, _, _ => None
  end.

(** The first parameter with the condition's key decides. *)
Fixpoint IsContainExtraCond (params : list DecodedParam) (cond : Cond) : bool :=
  match params with
  | [] => false
  | p :: params =>
      if bool_decide (col_ cond ≠ dkey_ p) then IsContainExtraCond params cond
      else match param_value p with
           | Some v => IsContainCond cond v
           | None => false
           end
  end.

Section Extra.
Context `{SC : Securec} `{HP : Heap}.

Definition IsContainExtraConds (q : DocQuery) (content : option bytes) (len : Z) : outcome bool :=
  match extraConds_ q with
  | [] => Done true
  | _ => obind (DecodedEvent_new content len) (λ e,
           Done (forallb (IsContainExtraCond (DecodedEvent.allParams_ e)) (extraConds_ q)))
  end.

End Extra.

(** ** Comparison is exact on integers *)

Definition int_ok (f : FieldNumber) : Prop :=
  match f with FDouble _ => False | FUint v => is_u 64 v | FInt v => is_s 64 v end.

Definition int_value (f : FieldNumber) : Z := match f with FDouble _ => 0 | FUint v | FInt v => v end.

(** The bytes of a signed value, read unsigned, exceed every smaller value's. *)
Lemma u64_signed v : is_s 64 v → u64 v = if v <? 0 then v + 2 ^ 64 else v.
Proof.
  intros Hv. unfold u64, is_s in *. destruct (Z.ltb_spec v 0).
  - rewrite <- (Z.mod_small (v + 2 ^ 64) (2 ^ 64)) by lia. rewrite Z.add_mod, Z.mod_same by lia.
    by rewrite Z.add_0_r, Z.mod_mod.
  - apply Z.mod_small. lia.
Qed.

Lemma geb0 x : (x >=? 0) = negb (x <? 0).
Proof. by rewrite Z.geb_leb, Z.leb_antisym. Qed.

(** A comparison against a number of the other signedness, by sign then value. *)
Lemma compare_as_exact dcmp icmp (negL negR : bool) a b :
  int_ok a → int_ok b →
  (∀ x y, x < 0 → 0 <= y → icmp x y = negL) → (∀ x y, 0 <= x → y < 0 → icmp x y = negR) →
  compare_as dcmp icmp negL negR a b = icmp (int_value a) (int_value b).
Proof.
  intros Ha Hb HL HR. destruct a as [|x|x], b as [|y|y]; try done; cbn in *.
  - unfold is_u in Ha. rewrite (u64_signed y Hb), geb0.
    destruct (Z.ltb_spec y 0) as [Hy|Hy]; destruct negR; cbn; rewrite ?HR by lia; done.
  - unfold is_u in Hb. rewrite (u64_signed x Ha), geb0.
    destruct (Z.ltb_spec x 0) as [Hx|Hx]; destruct negL; cbn; rewrite ?HL by lia; done.
Qed.

(** on integers, signed or unsigned in any combination, each of the six
    operators of [FieldNumber] is the comparison of the two numbers' values: no
    conversion to the other signedness ever changes the answer. *)
Theorem field_number_compares_integers a b :
  int_ok a → int_ok b →
  num_eq a b = (int_value a =? int_value b) ∧ num_ne a b = negb (int_value a =? int_value b) ∧
  num_lt a b = (int_value a <? int_value b) ∧ num_le a b = (int_value a <=? int_value b) ∧
  num_gt a b = (int_value a >? int_value b) ∧ num_ge a b = (int_value a >=? int_value b).
Proof.
  intros Ha Hb.
  split_and!; unfold num_eq, num_ne, num_lt, num_le, num_gt, num_ge;
    (rewrite compare_as_exact; [done|done|done|..]); intros x y ??;
    rewrite ?Z.gtb_ltb, ?Z.geb_leb;
    repeat match goal with
    | |- context [?x =? ?y] => destruct (Z.eqb_spec x y); try lia
    | |- context [?x <? ?y] => destruct (Z.ltb_spec x y); try lia
    | |- context [?x <=? ?y] => destruct (Z.leb_spec x y); try lia
    end; done.
Qed.

Lemma field_number_compares_integers_witness :
  num_lt (FInt (-1)) (FUint (2 ^ 64 - 1)) = true ∧ num_eq (FInt (-1)) (FUint (2 ^ 64 - 1)) = false.
Proof.
  destruct (field_number_compares_integers (FInt (-1)) (FUint (2 ^ 64 - 1)))
    as (He & _ & Hl & _); [split; lia|split; lia|]. split; [exact Hl|exact He].
Defined.

(** ** Doubles compare up to a tolerance *)

Definition finite (f : FieldNumber) : Prop :=
  is_nan (GetNumber_double f) = false ∧ is_inf (GetNumber_double f) = false.

Lemma near_far a b :
  is_nan a = false → is_inf a = false → is_nan b = false → is_inf b = false →
  far a b = negb (near a b) ∧ (dnum a = dnum b → near a b = true).
Proof.
  intros Ha Ha' Hb Hb'. unfold far, near, dist. rewrite Ha, Ha', Hb, Hb'. cbn [orb].
  split.
  - by rewrite Z.ltb_antisym.
  - intros ->. by rewrite Z.sub_diag.
Qed.

(** Comparing two numbers of which one is a double, exactly one of equal,
    less and greater holds unless a NaN or an infinity is involved, and the
    other three operators are their complements: numbers closer than the
    tolerance count as equal, and as neither less nor greater. *)
Theorem field_number_trichotomy x b :
  finite (FDouble x) → finite b →
  let a := FDouble x in
  (Z.b2z (num_eq a b) + Z.b2z (num_lt a b) + Z.b2z (num_gt a b) = 1) ∧
  num_ne a b = negb (num_eq a b) ∧ num_le a b = negb (num_gt a b) ∧ num_ge a b = negb (num_lt a b).
Proof.
  intros [Ha Ha'] [Hb Hb']. cbv zeta. cbn [GetNumber_double] in Ha, Ha'.
  destruct (near_far x (GetNumber_double b)) as [Hf Hn]; try done.
  unfold num_eq, num_ne, num_lt, num_le, num_gt, num_ge, compare_as. cbn [GetNumber_double].
  rewrite Hf. unfold dlt. rewrite Ha, Hb. cbn [negb andb].
  destruct (near x (GetNumber_double b)); cbn; [done|].
  destruct (Z.ltb_spec (dnum x) (dnum (GetNumber_double b))),
    (Z.ltb_spec (dnum (GetNumber_double b)) (dnum x)); cbn; try done; try lia.
Qed.

(** 1.5 against the integer 2, and 1.5 against 1.5 + 2^-52. *)
Lemma field_number_trichotomy_witness :
  num_lt (FDouble 4609434218613702656) (FInt 2) = true ∧
  num_eq (FDouble 4609434218613702656) (FDouble 4609434218613702657) = true ∧
  num_ne (FDouble 4609434218613702656) (FInt 2) =
    negb (num_eq (FDouble 4609434218613702656) (FInt 2)).
Proof.
  destruct (field_number_trichotomy 4609434218613702656 (FInt 2)) as (_ & Hn & _);
    [by split; vm_compute|by split; vm_compute|].
  split; [by vm_compute|]. split; [by vm_compute|exact Hn].
Defined.

(** ** What a condition tree asks for *)

(** The conditions of a tree, parents before children. *)
Fixpoint conjuncts (c : Cond) : list Cond :=
  let '(mkCond col _ _ andConds) := c in
  (if bool_decide (col = []) then [] else [c]) ++ concat (conjuncts <$> andConds).

(** The nested induction on condition trees. *)
Lemma Cond_ind' (P : Cond → Prop) :
  (∀ col op v l, Forall P l → P (mkCond col op v l)) → ∀ c, P c.
Proof.
  intros H. fix IH 1. intros [col op v l]. apply H. induction l; constructor; auto.
Qed.

Lemma Traval_conjuncts c q : Traval q c = foldl DocQuery_And q (conjuncts c).
Proof.
  revert q. induction c as [col op v l IH] using Cond_ind'. intros q.
  cbn [Traval conjuncts].
  assert (∀ q, foldl (λ q a, if IsSimpleCond a then DocQuery_And q a else Traval q a) q l =
               foldl DocQuery_And q (concat (conjuncts <$> l))) as HL.
  { clear -IH. induction IH as [|a l Ha _ IH]; intros q; [done|]. cbn [foldl fmap list_fmap concat].
    rewrite foldl_app, <- Ha, <- IH. f_equal. destruct (IsSimpleCond a) eqn:E; [|done].
    destruct a as [c o w [|]]; unfold IsSimpleCond in E; cbn in *;
      [|by rewrite andb_false_r in E]. by destruct (bool_decide (c = [])). }
  rewrite HL, foldl_app. by destruct (bool_decide (col = [])).
Qed.

(** The conditions a query keeps of a list: all but those on domain and name. *)
Definition kept (c : Cond) : bool :=
  negb (bool_decide (col_ c = EventCol_DOMAIN) || bool_decide (col_ c = EventCol_NAME)).

Lemma foldl_And cs q :
  innerConds_ (foldl DocQuery_And q cs) =
    innerConds_ q ++ List.filter (λ c, kept c && IsInnerCond c) cs ∧
  extraConds_ (foldl DocQuery_And q cs) =
    extraConds_ q ++ List.filter (λ c, kept c && negb (IsInnerCond c)) cs.
Proof.
  revert q. induction cs as [|c cs IH]; intros q; [by rewrite !app_nil_r|].
  cbn [foldl List.filter]. destruct (IH (DocQuery_And q c)) as [-> ->].
  unfold DocQuery_And. fold (kept c).
  destruct (bool_decide (col_ c = EventCol_DOMAIN) || bool_decide (col_ c = EventCol_NAME)) eqn:E;
    unfold kept; rewrite E; cbn [negb andb]; [done|].
  destruct (IsInnerCond c); cbn [negb innerConds_ extraConds_]; by rewrite <- ?app_assoc.
Qed.

Lemma forallb_split {A} (f g : A → bool) (k i : A → bool) l :
  forallb f (List.filter (λ c, k c && i c) l) && forallb g (List.filter (λ c, k c && negb (i c)) l) =
  forallb (λ c, negb (k c) || (if i c then f c else g c)) l.
Proof.
  induction l as [|c l IH]; [done|]. cbn. rewrite <- IH.
  destruct (k c), (i c); cbn; try done; [by rewrite andb_assoc|].
  destruct (g c); [done|]. by rewrite andb_false_r.
Qed.

(** Does the stored event, as content and as decoded parameters, satisfy one
    condition? *)
Definition holds (content : bytes) (params : list DecodedParam) (c : Cond) : bool :=
  negb (kept c) ||
  (if IsInnerCond c then IsContainInnerCond (InnerField_of content) c
   else IsContainExtraCond params c).

Section Filter.
Context `{SC : Securec} `{HP : Heap}.

(** the query built from a condition tree accepts a stored event exactly if
    every condition in the tree holds of it; conditions on domain and name are
    ignored, conditions on the fixed fields are decided on the stored content,
    all others on the decoded parameters. *)
Theorem query_accepts_conjunction c content data len e :
  DecodedEvent_new data len = Done e →
  let q := Traval DocQuery_new c in
  ∃ b, IsContainExtraConds q data len = Done b ∧
    IsContainInnerConds q content && b = forallb (holds content (DecodedEvent.allParams_ e)) (conjuncts c).
Proof.
  intros He q. subst q. rewrite Traval_conjuncts.
  destruct (foldl_And (conjuncts c) DocQuery_new) as [Hi Hx]. set (q := foldl _ _ _) in *.
  cbn [DocQuery_new innerConds_ extraConds_ app] in Hi, Hx.
  assert (IsContainInnerConds q content =
    forallb (IsContainInnerCond (InnerField_of content)) (innerConds_ q)) as HI.
  { unfold IsContainInnerConds. by destruct (innerConds_ q). }
  assert (IsContainExtraConds q data len =
    Done (forallb (IsContainExtraCond (DecodedEvent.allParams_ e)) (extraConds_ q))) as HX.
  { unfold IsContainExtraConds. rewrite He. by destruct (extraConds_ q). }
  eexists. split; [exact HX|]. rewrite HI, Hi, Hx. apply forallb_split.
Qed.

End Filter.

(** The condition tree [(pid_ >= 100) and (MSG starts with "ab")], and an event
    it accepts. *)
Definition sample_cond : Cond :=
  mkCond [] NONE (VNumber (FInt 0))
    [mkCond EventCol_PID GE (VNumber (FInt 100)) [];
     mkCond (str "MSG") SW (VString (str "ab")) []].

Definition sample_block : bytes :=
  event_block header_init traceInfo_init [mkDecodedParam (str "MSG") (PString (str "abc"))].

Definition sample_content : bytes := replicate 25 0 ++ le_bytes 4 120 ++ replicate 20 0.

Lemma query_accepts_conjunction_witness :
  ∃ b, IsContainExtraConds (Traval DocQuery_new sample_cond) (Some sample_block) (Zlen sample_block)
         = Done b ∧
    IsContainInnerConds (Traval DocQuery_new sample_cond) sample_content && b = true.
Proof.
  refine (query_accepts_conjunction sample_cond sample_content (Some sample_block) (Zlen sample_block)
    (mkDecodedEvent (Some sample_block) (Zlen sample_block) header_init traceInfo_init true
       [mkDecodedParam (str "MSG") (PString (str "abc"))]) _).
  vm_compute. reflexivity.
Defined.

End Query.
