(* ===== verification/DocStore.v ===== *)
(** * DocStore: the binary documents events are stored in

    Models base/event_store/utility: the writer (writer/sys_event_doc_writer.cpp),
    the reader (reader/sys_event_doc_reader.cpp) and the four versions of the
    content format (reader/content_reader*.cpp), over the layout of
    include/base_def.h.  A document is a list of bytes; an input stream is the
    file, a position and the two state bits [std::ifstream] has. *)

From S2P Require Import Prelude Text Platform RawData Encoder.
From S2P Require Import Decoder Params EventHeader DecodedEvent Query DbFile.
From stdpp Require Import base list numbers strings.

Local Open Scope Z_scope.

Module DocStore.
Import Query.
Local Open Scope hv_scope.


Definition NUM_OF_BYTES_IN_KB : Z := 1024.
Definition CRC_SIZE : Z := 4.
Definition HIVIEW_BLOCK_SIZE : Z := 4.
Definition SEQ_SIZE : Z := 8.
Definition MAX_TAG_LEN : Z := 17.
Definition MAX_NEW_SIZE : Z := 386 * 1024.
Definition MAX_VERSION_LENG : Z := 1000.
Definition MAGIC_NUM : Z := Z.land 0x894556454E541a0a (Z.lnot 1).
Definition RAW_DATA_OFFSET : Z :=
  HIVIEW_BLOCK_SIZE + DbFile.MAX_DOMAIN_LEN + DbFile.MAX_EVENT_NAME_LEN.

Inductive DocRet :=
  | DOC_STORE_SUCCESS | DOC_STORE_NEW_FILE | DOC_STORE_READ_EMPTY | DOC_STORE_ERROR_NULL
  | DOC_STORE_ERROR_IO | DOC_STORE_ERROR_MEMORY | DOC_STORE_ERROR_INVALID.

(** [EVENT_DATA_FORMATE_VERSION] *)
Definition VERSION_INVALID : Z := 0.
Definition VERSION1 : Z := 1.
Definition VERSION2 : Z := 2.
Definition VERSION3 : Z := 3.
Definition VERSION4 : Z := 4.
Definition CURRENT : Z := VERSION4.

(** ** Layout *)

Record DocHeader := mkDocHeader {
  magicNum : Z;
  blockSize : Z;
  pageSize : Z;
  version : Z;
  tag : bytes
}.

Definition SIZEOF_DOC_HEADER : Z := 31.
Definition SIZEOF_CONTENT_HEADER : Z := 39.

Definition DocHeader_new : DocHeader := mkDocHeader 0 0 0 0 (replicate 17 0).

Definition DocHeader_bytes (h : DocHeader) : bytes :=
  le_bytes 8 (magicNum h) ++ le_bytes 4 (blockSize h) ++ le_bytes 1 (pageSize h) ++
  le_bytes 1 (version h) ++ tag h.

Definition DocHeader_of_bytes (bs : bytes) : DocHeader :=
  mkDocHeader (field_at bs 0 8) (field_at bs 8 4) (field_at bs 12 1) (field_at bs 13 1)
    (take 17 (drop 14 bs)).

Record HeadExtraInfo := mkHeadExtra { sysVersion : bytes; patchVersion : bytes }.

Record EventInfo := mkEventInfo {
  ei_domain : bytes;
  ei_name : bytes;
  ei_level : bytes;
  ei_tag : bytes;
  ei_seq : Z;
  ei_timestamp : Z
}.

Definition EventInfo_new : EventInfo := mkEventInfo (replicate 17 0) (replicate 33 0) [] [] 0 0.

(** ** Input streams *)

Record istream := mkIn { is_open : bool; ifile : bytes; ipos : Z; eofbit : bool; failbit : bool }.

Definition good (s : istream) : bool := negb (eofbit s) && negb (failbit s).

Definition set_fail (s : istream) : istream :=
  mkIn (is_open s) (ifile s) (ipos s) (eofbit s) true.

(** [read(buf, n)]: the bytes stored, fewer at the end of the file. *)
Definition sread (n : Z) (s : istream) : bytes * istream :=
  if good s then
    let got := take (Z.to_nat n) (drop (Z.to_nat (ipos s)) (ifile s)) in
    (got, mkIn (is_open s) (ifile s) (ipos s + Zlen got) (Zlen got <? n) (Zlen got <? n))
  else ([], set_fail s).

(** [tellg()]: -1 on a stream that is not good, which then fails. *)
Definition tellg (s : istream) : Z * istream := if good s then (ipos s, s) else (-1, set_fail s).

(** [seekg]: clears the end-of-file bit, does nothing on a failed stream. *)
Definition seekg (pos : Z) (s : istream) : istream :=
  if failbit s then mkIn (is_open s) (ifile s) (ipos s) false true
  else mkIn (is_open s) (ifile s) pos false false.

Definition set_eof (s : istream) : istream :=
  mkIn (is_open s) (ifile s) (ipos s) true (failbit s).

Definition open_stream (file : option bytes) : istream :=
  match file with
  | Some f => mkIn true f 0 false false
  | None => mkIn false [] 0 false true
  end.

(** The bytes read, over what the buffer held. *)
Definition overlay (got init : bytes) : bytes := got ++ drop (length got) init.

(** [ReadValueAndReset] into a 32-bit value that starts at 0. *)
Definition ReadValueAndReset (s : istream) : Z * istream :=
  let '(got, s) := sread 4 s in
  (le_value (overlay got [0; 0; 0; 0]), seekg (ipos s - 4) s).

(** ** Content formats *)

Section Store.
Context `{HP : Heap} `{SC : Securec}.

(** Uninitialised automatic storage of this size, and the system's versions. *)
Context (uninit : Z → bytes).
Context (sysVersionStr patchVersionStr : bytes).

(** [ContentReader::ReadFmtVersion] *)
Definition ReadFmtVersion (s : istream) : Z * istream :=
  if negb (is_open s) then (VERSION_INVALID, s) else
  let '(curPos, s) := tellg s in
  let s := seekg 13 s in
  let '(got, s) := sread 1 s in
  (le_value (overlay got [VERSION_INVALID]), seekg curPos s).

(** [ContentReader::GetDataString]; [None] is [return false]. *)
Definition GetDataString (s : istream) : outcome (option bytes * istream) :=
  let '(got, s) := sread 4 s in
  let valueSize := le_value (overlay got [0; 0; 0; 0]) in
  if (valueSize >? MAX_VERSION_LENG + 1) || (valueSize =? 0) then Done (None, s) else
  let '(got, s) := sread valueSize s in
  let valueStr := overlay got (uninit valueSize) in
  if terminated valueStr then Done (Some (c_str valueStr), s) else Undefined UB_OutOfBounds.

(** What [ReadDocDetails] leaves behind. *)
Record DocDetails := mkDetails {
  d_ret : DocRet;
  d_in : istream;
  d_header : DocHeader;
  d_headerSize : Z;
  d_extra : HeadExtraInfo
}.

(** The virtual functions of a content reader. *)
Record ContentReader := mkContentReader {
  ReadDocDetails : istream → DocHeader → Z → HeadExtraInfo → outcome DocDetails;
  IsValidMagicNum : Z → bool;
  GetContentHeader : bytes → bytes;
  GetContentHeaderSize : Z
}.

(** Versions 1 and 2: a header with a checksum, no versions. *)
Definition ReadDocDetails_crc (s : istream) (h : DocHeader) (size : Z) (extra : HeadExtraInfo)
    : outcome DocDetails :=
  if negb (is_open s) then Done (mkDetails DOC_STORE_ERROR_IO s h size extra) else
  let s := seekg 0 s in
  let size := SIZEOF_DOC_HEADER + CRC_SIZE in
  let '(got, s) := sread size s in
  let v := DocHeader_of_bytes (overlay got (replicate 35 0)) in
  let '(ok, t) := memcpy_s (tag h) MAX_TAG_LEN (Some (tag v)) MAX_TAG_LEN in
  let h := mkDocHeader (magicNum v) (blockSize v) (pageSize v) (version v) t in
  if negb ok then Done (mkDetails DOC_STORE_ERROR_MEMORY s h size extra)
  else Done (mkDetails DOC_STORE_SUCCESS s h size (mkHeadExtra [] (patchVersion extra))).

Definition ReadDocDetails_v3 (s : istream) (h : DocHeader) (size : Z) (extra : HeadExtraInfo)
    : outcome DocDetails :=
  if negb (is_open s) then Done (mkDetails DOC_STORE_ERROR_IO s h size extra) else
  let s := seekg 0 s in
  let '(got, s) := sread SIZEOF_DOC_HEADER s in
  let h := DocHeader_of_bytes (overlay got (DocHeader_bytes h)) in
  obind (GetDataString s) (λ '(v, s),
    match v with
    | None => Done (mkDetails DOC_STORE_ERROR_INVALID s h size extra)
    | Some sysVersion =>
        Done (mkDetails DOC_STORE_SUCCESS s h (blockSize h + 8)
                (mkHeadExtra sysVersion (patchVersion extra)))
    end).

Definition ReadDocDetails_v4 (s : istream) (h : DocHeader) (size : Z) (extra : HeadExtraInfo)
    : outcome DocDetails :=
  if negb (is_open s) then Done (mkDetails DOC_STORE_ERROR_IO s h size extra) else
  let s := seekg 0 s in
  let '(got, s) := sread SIZEOF_DOC_HEADER s in
  let h := DocHeader_of_bytes (overlay got (DocHeader_bytes h)) in
  obind (GetDataString s) (λ '(v, s),
    match v with
    | None => Done (mkDetails DOC_STORE_ERROR_INVALID s h size extra)
    | Some sysVersion =>
        obind (GetDataString s) (λ '(v, s),
          match v with
          | None => Done (mkDetails DOC_STORE_ERROR_INVALID s h size
                            (mkHeadExtra sysVersion (patchVersion extra)))
          | Some patchVersion =>
              Done (mkDetails DOC_STORE_SUCCESS s h (blockSize h + 8)
                      (mkHeadExtra sysVersion patchVersion))
          end)
    end).

(** The header of a content, as the bytes of a [ContentHeader] that starts out
    uninitialised.  Versions 1 and 2 assign the fields one by one; version 1 has
    no log field. *)
Definition ContentHeader_fields (content : bytes) (log : bytes) : bytes :=
  let u := uninit SIZEOF_CONTENT_HEADER in
  take 8 u ++ take 29 (drop 12 content) ++
  [Z.lor (Z.land (default 0 (u !! 37%nat)) 248) (Z.land (default 0 (content !! 41%nat)) 7)] ++ log.

Definition ContentReaderVersion1 : ContentReader :=
  mkContentReader ReadDocDetails_crc (Z.eqb 0x894556454E541a0a)
    (λ content, ContentHeader_fields content (drop 38 (uninit SIZEOF_CONTENT_HEADER))) 38.
Definition ContentReaderVersion2 : ContentReader :=
  mkContentReader ReadDocDetails_crc (Z.eqb 0x894556454E541a0a)
    (λ content, ContentHeader_fields content (take 1 (drop 42 content))) SIZEOF_CONTENT_HEADER.
Definition ContentReaderVersion3 : ContentReader :=
  mkContentReader ReadDocDetails_v3 (Z.eqb MAGIC_NUM)
    (λ content, take 39 (drop 4 content)) SIZEOF_CONTENT_HEADER.
Definition ContentReaderVersion4 : ContentReader :=
  mkContentReader ReadDocDetails_v4 (IsValidMagicNum ContentReaderVersion3)
    (GetContentHeader ContentReaderVersion3) (GetContentHeaderSize ContentReaderVersion3).

(** [ContentReaderFactory::Get] *)
Definition GetReader (version : Z) : option ContentReader :=
  let v := sgn 8 version in
  if v =? VERSION1 then Some ContentReaderVersion1
  else if v =? VERSION2 then Some ContentReaderVersion2
  else if v =? VERSION3 then Some ContentReaderVersion3
  else if v =? VERSION4 then Some ContentReaderVersion4
  else None.

(** ** Rebuilding the event *)

(** A parameter's encoding, appended. *)
Definition AppendEncoded (p : EncodedParam) : Writer := λ r,
  let d := (GetRawData p).1 in Append r (GetData d) (GetDataLength d).

Definition AppendTag (t : bytes) : Writer := λ r,
  if bool_decide (t = []) then (false, r)
  else AppendEncoded (StringEncodedParam EventCol_TAG t) r.
Definition AppendLevel (level : bytes) : Writer :=
  AppendEncoded (StringEncodedParam EventCol_LEVEL level).
Definition AppendSeq (seq : Z) : Writer :=
  AppendEncoded (SignedVarintEncodedParam EventCol_SEQ seq).

(** [UpdateParamCnt]: the counter follows the header and, if tracing is on, the
    trace information. *)
Definition UpdateParamCnt (addParamCnt : Z) : Writer := λ r,
  let d := default [] (GetData r) in
  let h := header_of_bytes (take (Z.to_nat SIZEOF_HEADER) (drop 4 d)) in
  let pos := HIVIEW_BLOCK_SIZE + SIZEOF_HEADER +
             (if isTraceOpened h =? 1 then SIZEOF_TRACE_INFO else 0) in
  let paramCnt := s32 (s32 (le_value (take 4 (drop (Z.to_nat pos) d))) + addParamCnt) in
  Update r (Some (le_bytes 4 (u32 paramCnt))) 4 pos.

Definition UpdateRealSize : Writer := λ r,
  Update r (Some (le_bytes 4 (u32 (GetDataLength r)))) HIVIEW_BLOCK_SIZE 0.

Definition AppendExtraInfo (info : EventInfo) : Writer := λ r,
  let '(tagged, r) := AppendTag (ei_tag info) r in
  (AppendLevel (ei_level info) >&& AppendSeq (ei_seq info) >&&
   UpdateParamCnt (if tagged then 3 else 2) >&& UpdateRealSize) r.

Definition AppendDomainAndName (info : EventInfo) : Writer :=
  (λ r, Append r (Some (ei_domain info)) DbFile.MAX_DOMAIN_LEN) >&&
  (λ r, Append r (Some (ei_name info)) DbFile.MAX_EVENT_NAME_LEN).

Definition AppendContentData (cr : ContentReader) (content : bytes) (contentSize : Z) : Writer :=
  let contentPos := HIVIEW_BLOCK_SIZE + GetContentHeaderSize cr in
  (λ r, Append r (Some (drop 8 (GetContentHeader cr content))) (SIZEOF_CONTENT_HEADER - SEQ_SIZE)) >&&
  (λ r, Append r (Some (drop (Z.to_nat contentPos) content)) (u64 (contentSize - contentPos - CRC_SIZE))).

(** [ContentReader::ReadRawData]; [None] is the null pointer. *)
Definition ReadRawData (cr : ContentReader) (info : EventInfo) (content : bytes) (contentSize : Z)
    : option RawData :=
  let eventSize := u32 (contentSize - GetContentHeaderSize cr + SIZEOF_CONTENT_HEADER - SEQ_SIZE +
                        DbFile.MAX_DOMAIN_LEN + DbFile.MAX_EVENT_NAME_LEN + 128) in
  if eventSize >? MAX_NEW_SIZE then None else
  let '(ok, r) :=
    ((λ r, Append r (Some (le_bytes 4 eventSize)) HIVIEW_BLOCK_SIZE) >&&
     AppendDomainAndName info >&& AppendContentData cr content contentSize >&&
     AppendExtraInfo info) (RawData_new_len eventSize) in
  if ok then Some r else None.

(** ** The reader *)

Record DocReader := mkDocReader {
  in_ : istream;
  fileSize_ : Z;
  pageSize_ : Z;
  dataFmtVersion_ : Z;
  docHeaderSize_ : Z;
  headExtra_ : HeadExtraInfo;
  info_ : EventInfo
}.

(** [InitEventInfo]: domain, name and level from the path. *)
Definition InitEventInfo (path : bytes) : EventInfo :=
  let dirNames := DbFile.SplitStr path (str "/") in
  let n := length dirNames in
  if (n <? 2)%nat then EventInfo_new else
  let domainStr := DbFile.part dirNames (n - 2) in
  let '(ok, d) := memcpy_s (replicate 17 0) DbFile.MAX_DOMAIN_LEN (Some domainStr) (Zlen domainStr) in
  let info := mkEventInfo d (replicate 33 0) [] [] 0 0 in
  if negb ok then info else
  let '(ok, e) := DbFile.ParseEventInfoFromDbFileName (DbFile.part dirNames (n - 1))
                    DbFile.SplitedEventInfo_new (Z.lor DbFile.NAME_ONLY DbFile.LEVEL_ONLY) in
  if negb ok then info else
  let '(ok, nm) := memcpy_s (replicate 33 0) DbFile.MAX_EVENT_NAME_LEN (Some (DbFile.i_name e))
                     (Zlen (DbFile.i_name e)) in
  mkEventInfo d nm (if ok then DbFile.i_level e else []) [] 0 0.

(** [SysEventDocReader(path)]: [file] is what is at the path, if anything. *)
Definition DocReader_new (path : bytes) (file : option bytes) : DocReader :=
  let s := open_stream file in
  let info := InitEventInfo path in
  let extra := mkHeadExtra [] [] in
  if is_open s then
    let '(v, s') := ReadFmtVersion s in
    mkDocReader s' (s32 (Zlen (ifile s))) 0 v 0 extra info
  else mkDocReader s 0 0 VERSION_INVALID 0 extra info.

Definition ReadHeader (rd : DocReader) (h : DocHeader) : outcome (DocRet * DocHeader * DocReader) :=
  match GetReader (dataFmtVersion_ rd) with
  | None => Done (DOC_STORE_ERROR_IO, h, rd)
  | Some cr =>
      obind (ReadDocDetails cr (in_ rd) h (docHeaderSize_ rd) (headExtra_ rd)) (λ d,
        Done (d_ret d, d_header d,
              mkDocReader (d_in d) (fileSize_ rd) (pageSize_ rd) (dataFmtVersion_ rd)
                (d_headerSize d) (d_extra d) (info_ rd)))
  end.

Definition ReadPageSize (rd : DocReader) : outcome (DocRet * Z * DocReader) :=
  obind (ReadHeader rd DocHeader_new) (λ '(ret, h, rd),
    match ret with
    | DOC_STORE_SUCCESS => Done (ret, pageSize h * NUM_OF_BYTES_IN_KB, rd)
    | _ => Done (ret, 0, rd)
    end).

Definition IsValidHeader (rd : DocReader) (h : DocHeader) : bool :=
  match GetReader (dataFmtVersion_ rd) with
  | None => false
  | Some cr => IsValidMagicNum cr (magicNum h)
  end.

Definition HasReadFileEnd (s : istream) : bool * istream :=
  if negb (is_open s) then (true, s) else
  let '(pos, s) := tellg s in ((s32 pos <? 0) || eofbit s, s).

(** The page loop runs with the header size, page size and file size fixed. *)
Section Pages.
Context (headerSize pgSize fSize : Z).

Definition HasReadPageEnd (pageIndex : Z) (s : istream) : outcome (bool * istream) :=
  let '(ended, s) := HasReadFileEnd s in
  if ended then Done (true, s) else
  let curPos := u32 (tellg s).1 in
  if curPos <=? headerSize then Done (false, s)
  else if curPos =? u64 (headerSize + u32 (pgSize * u32 (pageIndex + 1))) then Done (true, s)
  else if pgSize =? 0 then Undefined UB_DivByZero
  else Done (pgSize <=? (curPos - headerSize) mod pgSize + HIVIEW_BLOCK_SIZE, s).

Definition MIN_CONTENT_SIZE : Z := HIVIEW_BLOCK_SIZE + SIZEOF_CONTENT_HEADER + CRC_SIZE.

(** [ReadContent]: the status, and the block read when it is a success. *)
Definition ReadContent (pageIndex : Z) (s : istream) : outcome (DocRet * bytes * istream) :=
  obind (HasReadPageEnd pageIndex s) (λ '(ended, s), Done (
  if ended : bool then (DOC_STORE_READ_EMPTY, [], s) else
  let '(contentSize, s) := ReadValueAndReset s in
  if contentSize <? MIN_CONTENT_SIZE then (DOC_STORE_READ_EMPTY, [], s)
  else if contentSize >? MAX_NEW_SIZE then (DOC_STORE_ERROR_MEMORY, [], s) else
  match new_bytes contentSize with
  | None => (DOC_STORE_ERROR_MEMORY, [], s)
  | Some content =>
      let '(got, s) := sread contentSize s in (DOC_STORE_SUCCESS, overlay got content, s)
  end)).

Definition SeekgPage (pageIndex : Z) (s : istream) : DocRet * istream :=
  let '(ended, s) := HasReadFileEnd s in
  if ended then (DOC_STORE_ERROR_IO, s) else
  let seekSize := u64 (headerSize + u32 (pgSize * pageIndex)) in
  if s32 seekSize <? fSize then (DOC_STORE_SUCCESS, seekg seekSize s)
  else (DOC_STORE_ERROR_IO, set_eof s).

(** [ReadPages]: the callback sees every content; [None] is out of fuel. *)
Fixpoint ReadPages {S} (fuel : nat) (callback : bytes → S → outcome S) (pageIndex : Z)
    (s : istream) (st : S) : outcome (option S) :=
  match fuel with
  | O => Done None
  | Datatypes.S fuel =>
      let '(ended, s) := HasReadFileEnd s in
      if ended then Done (Some st) else
      obind (ReadContent pageIndex s) (λ '(ret, content, s),
      match ret with
      | DOC_STORE_SUCCESS =>
          obind (callback content st) (λ st, ReadPages fuel callback pageIndex s st)
      | _ =>
          let pageIndex := u32 (pageIndex + 1) in
          let '(ret, s) := SeekgPage pageIndex s in
          match ret with
          | DOC_STORE_SUCCESS => ReadPages fuel callback pageIndex s st
          | _ => Done (Some st)
          end
      end)
  end.

End Pages.

(** [SysEventDocReader::Read(ReadCallback)]; the callback also sees the event
    information of the reader. *)
Definition Read {S} (fuel : nat) (rd : DocReader)
    (callback : bytes → EventInfo * HeadExtraInfo * S → outcome (EventInfo * HeadExtraInfo * S)) (st : S)
    : outcome (option (DocRet * S)) :=
  obind (ReadHeader rd DocHeader_new) (λ '(ret, h, rd),
    match ret with
    | DOC_STORE_SUCCESS =>
        if negb (IsValidHeader rd h) then Done (Some (DOC_STORE_ERROR_INVALID, st)) else
        if bool_decide (ei_tag (info_ rd) = []) && negb (terminated (tag h))
        then Undefined UB_OutOfBounds else
        let i := info_ rd in
        let t := if bool_decide (ei_tag i = []) then c_str (tag h) else ei_tag i in
        let info := mkEventInfo (ei_domain i) (ei_name i) (ei_level i) t (ei_seq i) (ei_timestamp i) in
        let pgSize := pageSize h * NUM_OF_BYTES_IN_KB in
        if pgSize =? 0 then
          obind (ReadContent (docHeaderSize_ rd) pgSize 0 (in_ rd)) (λ '(ret, content, _),
          match ret with
          | DOC_STORE_SUCCESS =>
              obind (callback content (info, headExtra_ rd, st)) (λ '(_, _, st), Done (Some (ret, st)))
          | _ => Done (Some (ret, st))
          end)
        else
          obind (ReadPages (docHeaderSize_ rd) pgSize (fileSize_ rd) fuel callback 0 (in_ rd)
                   (info, headExtra_ rd, st)) (λ r,
            Done (option_map (λ '(_, _, st), (DOC_STORE_SUCCESS, st)) r))
    | _ => Done (Some (ret, st))
    end).

(** An entry of a query's result. *)
Record Entry := mkEntry { en_id : Z; en_ts : Z; en_data : RawData; en_sys : bytes; en_patch : bytes }.

(** [CheckEventInfo]: whether the content is accepted, and the information with
    its sequence number and time. *)
Definition CheckEventInfo (info : EventInfo) (content : bytes) : outcome (bool * EventInfo) :=
  if negb (terminated (ei_domain info)) then Undefined UB_OutOfBounds else
  if negb (terminated (ei_name info)) then Undefined UB_OutOfBounds else
  if bool_decide (c_str (ei_domain info) = []) || bool_decide (c_str (ei_name info) = []) ||
     bool_decide (ei_level info = []) then Done (false, info) else
  let seq := s64 (field_at content 4 8) in
  if seq <? 0 then Done (false, info) else
  let with_ts := mkEventInfo (ei_domain info) (ei_name info) (ei_level info) (ei_tag info) seq in
  let ts := s64 (field_at content 12 8) in
  if ts <? 0 then Done (false, with_ts (ei_timestamp info)) else Done (true, with_ts ts).

(** [TryToAddEntry] with the content reader of the document. *)
Definition TryToAddEntry (cr : ContentReader) (query : DocQuery) (content : bytes)
    (st : EventInfo * HeadExtraInfo * list Entry) : outcome (EventInfo * HeadExtraInfo * list Entry) :=
  let '(info, extra, entries) := st in
  obind (CheckEventInfo info content) (λ '(ok, info),
    if negb ok || negb (IsContainInnerConds query content) then Done (info, extra, entries) else
    match ReadRawData cr info content (Zlen content) with
    | None => Done (info, extra, entries)
    | Some rawData =>
        obind (IsContainExtraConds query (GetData rawData) (GetDataLength rawData)) (λ b,
          Done (info, extra,
                if b : bool then
                  entries ++ [mkEntry (ei_seq info) (ei_timestamp info) rawData
                                (sysVersion extra) (patchVersion extra)]
                else entries))
    end).

(** [Read(query, entries, num)]: the entries found. *)
Definition ReadQuery (fuel : nat) (rd : DocReader) (query : DocQuery)
    : outcome (option (DocRet * list Entry)) :=
  match GetReader (dataFmtVersion_ rd) with
  | None => Done (Some (DOC_STORE_ERROR_IO, []))
  | Some cr => Read fuel rd (TryToAddEntry cr query) []
  end.

(** [ReadMaxEventSequence] *)
Definition MaxSeqCallback (content : bytes) (st : EventInfo * HeadExtraInfo * Z)
    : outcome (EventInfo * HeadExtraInfo * Z) :=
  let '(info, extra, maxSeq) := st in
  if Zlen content <? HIVIEW_BLOCK_SIZE + 8 then Done st else
  let seq := s64 (field_at content 4 8) in
  Done (info, extra, if maxSeq <? seq then seq else maxSeq).

Definition ReadMaxEventSequence (fuel : nat) (rd : DocReader) : outcome (option Z) :=
  obind (Read fuel rd MaxSeqCallback 0) (λ r, Done (snd <$> r)).

(** ** The writer *)

(** What the writer needs of an event. *)
Record StoredEvent := mkStored {
  se_raw : option bytes;
  se_seq : Z;
  se_tag : bytes;
  se_type : Z
}.

(** securec's [strcpy_s] and the configured page size, in KB, of a type. *)
Context (strcpy_s : bytes → Z → bytes → bool * bytes).
Context (GetPageSize : Z → Z).

Definition GetContentSize (e : StoredEvent) : outcome (DocRet * Z) :=
  match se_raw e with
  | None => Done (DOC_STORE_ERROR_NULL, 0)
  | Some d =>
      if Zlen d <? 4 then Undefined UB_OutOfBounds else
      let dataSize := le_value (take 4 d) in
      if (dataSize <? RAW_DATA_OFFSET) || (dataSize >? MAX_NEW_SIZE)
      then Done (DOC_STORE_ERROR_INVALID, 0)
      else Done (DOC_STORE_SUCCESS,
                 u32 (dataSize - RAW_DATA_OFFSET + HIVIEW_BLOCK_SIZE + SEQ_SIZE + CRC_SIZE))
  end.

(** The bytes [WriteHeader] writes. *)
Definition WriteHeader (e : StoredEvent) (contentSize : Z) : DocRet * bytes :=
  let pgSize := GetPageSize (se_type e) in
  if pgSize =? 0 then (DOC_STORE_ERROR_IO, []) else
  let pgSize := if contentSize >? u32 (pgSize * NUM_OF_BYTES_IN_KB) then 0 else pgSize in
  let sysVersionSize := u32 (Zlen sysVersionStr + 1) in
  let patchVersionSize := u32 (Zlen patchVersionStr + 1) in
  let t := if bool_decide (se_tag e = []) then replicate 17 0
           else (strcpy_s (replicate 17 0) MAX_TAG_LEN (se_tag e)).2 in
  let blockSize := u32 (SIZEOF_DOC_HEADER - 8 + 4 + sysVersionSize + 4 + patchVersionSize) in
  (DOC_STORE_SUCCESS,
   DocHeader_bytes (mkDocHeader MAGIC_NUM blockSize (u8 pgSize) CURRENT t) ++
   le_bytes 4 sysVersionSize ++ sysVersionStr ++ [0] ++
   le_bytes 4 patchVersionSize ++ patchVersionStr ++ [0]).

(** The bytes [WriteContent] writes. *)
Definition WriteContent (e : StoredEvent) (contentSize : Z) : outcome (DocRet * bytes) :=
  let front := le_bytes 4 contentSize ++ le_bytes 8 (u64 (se_seq e)) in
  match se_raw e with
  | None => Done (DOC_STORE_ERROR_NULL, front)
  | Some d =>
      let dataSize := u32 (le_value (take 4 d) - RAW_DATA_OFFSET) in
      if Zlen d <? RAW_DATA_OFFSET + dataSize then Undefined UB_OutOfBounds else
      Done (DOC_STORE_SUCCESS,
            front ++ take (Z.to_nat dataSize) (drop (Z.to_nat RAW_DATA_OFFSET) d) ++ le_bytes 4 0)
  end.

Definition GetCurrPageRemainSize (fileSize pgSize headerSize : Z) : Z :=
  u32 (pgSize - u32 (u32 fileSize - headerSize) mod pgSize).

Definition FillCurrPageWithZero (remainSize : Z) : DocRet * bytes :=
  if remainSize =? 0 then (DOC_STORE_SUCCESS, [])
  else if remainSize >? MAX_NEW_SIZE then (DOC_STORE_ERROR_MEMORY, [])
  else match new_bytes remainSize with
       | None => (DOC_STORE_ERROR_MEMORY, [])
       | Some _ => (DOC_STORE_SUCCESS, replicate (Z.to_nat remainSize) 0)
       end.

(** [Write] on an open stream: the status and the document afterwards; [path] is
    only used for the reader the writer opens on its own document. *)
Definition WriteOpened (path : bytes) (e : StoredEvent) (file : bytes) : outcome (DocRet * bytes) :=
  obind (GetContentSize e) (λ '(ret, contentSize),
    match ret with
    | DOC_STORE_SUCCESS =>
        let rd := DocReader_new path (Some file) in
        let fileSize := fileSize_ rd in
        if fileSize <? 0 then Done (DOC_STORE_ERROR_IO, file)
        else if fileSize =? 0 then
          let '(ret, header) := WriteHeader e contentSize in
          match ret with
          | DOC_STORE_SUCCESS =>
              obind (WriteContent e contentSize) (λ '(ret, c), Done (ret, file ++ header ++ c))
          | _ => Done (ret, file)
          end
        else
          obind (ReadHeader rd DocHeader_new) (λ '(_, h, rd),
          let headerSize := u32 (blockSize h + 8) in
          if negb (version h =? CURRENT) || bool_decide (sysVersion (headExtra_ rd) ≠ sysVersionStr) ||
             bool_decide (patchVersion (headExtra_ rd) ≠ patchVersionStr)
          then Done (DOC_STORE_NEW_FILE, file) else
          obind (ReadPageSize rd) (λ '(ret, pgSize, _),
          match ret with
          | DOC_STORE_SUCCESS =>
              if (pgSize =? 0) || (pgSize <? contentSize) then Done (DOC_STORE_NEW_FILE, file) else
              let remainSize := GetCurrPageRemainSize fileSize pgSize headerSize in
              let '(ret, fill) := if remainSize <? contentSize then FillCurrPageWithZero remainSize
                                  else (DOC_STORE_SUCCESS, []) in
              match ret with
              | DOC_STORE_SUCCESS =>
                  obind (WriteContent e contentSize) (λ '(ret, c), Done (ret, file ++ fill ++ c))
              | _ => Done (ret, file)
              end
          | _ => Done (ret, file)
          end))
    | _ => Done (ret, file)
    end).

(** [Write]; [opened] is whether the output stream is open. *)
Definition Write (path : bytes) (opened : bool) (sysEvent : option StoredEvent) (file : bytes)
    : outcome (DocRet * bytes) :=
  match sysEvent with
  | None => Done (DOC_STORE_ERROR_NULL, file)
  | Some e => if negb opened then Done (DOC_STORE_ERROR_IO, file) else WriteOpened path e file
  end.

End Store.

End DocStore.
