(* ===== verification/DocFacts.v ===== *)
(** * DocFacts: how documents are laid out and read back

    The layout a sequence of writes produces (contents in order, a page never
    split, its rest filled with zeros), and that the page loop of the reader
    visits exactly those contents. *)

From S2P Require Import Prelude Text Platform RawData Encoder Decoder.
From S2P Require Import Params EventHeader DecodedEvent Query DbFile DocStore.
From stdpp Require Import base list numbers strings.

Import Query DocStore.
Local Open Scope Z_scope.
Local Open Scope hv_scope.

(** ** Layout *)

(** The padding before a content of [n] bytes when [len] bytes are used. *)
Definition padding (ps len n : Z) : bytes :=
  if ps - len mod ps <? n then replicate (Z.to_nat (ps - len mod ps)) 0 else [].

Definition layout (ps : Z) (cs : list bytes) : bytes :=
  foldl (λ acc c, acc ++ padding ps (Zlen acc) (Zlen c) ++ c) [] cs.

Lemma layout_snoc ps cs c :
  layout ps (cs ++ [c]) =
    layout ps cs ++ padding ps (Zlen (layout ps cs)) (Zlen c) ++ c.
Proof. unfold layout. by rewrite foldl_app. Qed.

(** What follows the contents already laid out. *)
Fixpoint laid_after (ps len : Z) (cs : list bytes) : bytes :=
  match cs with
  | [] => []
  | c :: cs =>
      let p := padding ps len (Zlen c) in
      p ++ c ++ laid_after ps (len + Zlen p + Zlen c) cs
  end.

Lemma layout_app ps cs1 cs2 :
  layout ps (cs1 ++ cs2) = layout ps cs1 ++ laid_after ps (Zlen (layout ps cs1)) cs2.
Proof.
  revert cs1. induction cs2 as [|c cs2 IH]; intros cs1; [by rewrite !app_nil_r|].
  change (c :: cs2) with ([c] ++ cs2). rewrite app_assoc, IH, layout_snoc. cbn [laid_after app].
  rewrite <- !app_assoc. do 3 f_equal. rewrite !Zlen_app. f_equal. lia.
Qed.

(** ** Outcomes *)

Lemma obind_assoc {A B C} (m : outcome A) (k : A → outcome B) (l : B → outcome C) :
  obind (obind m k) l = obind m (λ a, obind (k a) l).
Proof. by destruct m. Qed.

Lemma obind_ext {A B} (m : outcome A) (k l : A → outcome B) :
  (∀ a, k a = l a) → obind m k = obind m l.
Proof. intros E. destruct m; cbn; [apply E|done..]. Qed.

(** ** Streams that are good *)

Abbreviation at_pos f p := (mkIn true f p false false).

Lemma s32_small z : 0 <= z < 2 ^ 31 → s32 z = z.
Proof. intros Hz. apply sgn_small; [done|]. unfold is_s. lia. Qed.

Lemma HasReadFileEnd_good f p : 0 <= p < 2 ^ 31 → HasReadFileEnd (at_pos f p) = (false, at_pos f p).
Proof. intros Hp. unfold HasReadFileEnd. cbn. rewrite s32_small by done. by zcase; [lia|]. Qed.

Lemma sread_within f p n :
  0 <= p → 0 <= n → p + n <= Zlen f →
  sread n (at_pos f p) = (take (Z.to_nat n) (drop (Z.to_nat p) f), at_pos f (p + n)).
Proof.
  intros Hp Hn Hf. unfold sread. cbn [good eofbit failbit negb andb ipos ifile is_open].
  rewrite Zlen_take by (rewrite Zlen_drop; lia). by rewrite Z.ltb_irrefl.
Qed.

(** Reading exactly the middle part of a file. *)
Lemma sread_app pre x post :
  sread (Zlen x) (at_pos (pre ++ x ++ post) (Zlen pre)) =
    (x, at_pos (pre ++ x ++ post) (Zlen pre + Zlen x)).
Proof.
  rewrite sread_within by (zlen; auto using Zlen_nonneg; pose proof (Zlen_nonneg pre);
    pose proof (Zlen_nonneg x); pose proof (Zlen_nonneg post); lia).
  by rewrite drop_Zlen, take_Zlen.
Qed.

Lemma overlay_full got init : Zlen got = Zlen init → overlay got init = got.
Proof.
  intros Hl. unfold overlay. rewrite drop_ge; [apply app_nil_r|]. unfold Zlen in Hl. lia.
Qed.

Lemma ReadValueAndReset_at pre v post :
  0 <= v < 2 ^ 32 →
  ReadValueAndReset (at_pos (pre ++ le_bytes 4 v ++ post) (Zlen pre)) =
    (v, at_pos (pre ++ le_bytes 4 v ++ post) (Zlen pre)).
Proof.
  intros Hv. unfold ReadValueAndReset.
  pose proof (sread_app pre (le_bytes 4 v) post) as E. rewrite Zlen_le_bytes in E.
  change (Z.of_nat 4) with 4 in E. rewrite E. rewrite overlay_full by done.
  rewrite le_value_bytes_small by (change (8 * Z.of_nat 4) with 32; lia).
  f_equal. unfold seekg. cbn [failbit ipos is_open ifile]. f_equal. lia.
Qed.

(** At the end of the file the value stays 0 and the stream has failed. *)
Lemma ReadValueAndReset_end f :
  ReadValueAndReset (at_pos f (Zlen f)) = (0, mkIn true f (Zlen f) false true).
Proof.
  unfold ReadValueAndReset, sread. cbn [good eofbit failbit negb andb ipos ifile is_open].
  rewrite drop_ge by (unfold Zlen; lia). rewrite take_nil. change (Zlen (@nil Z)) with 0.
  rewrite Z.add_0_r. done.
Qed.

(** ** The page loop *)

Section Pages.
Context `{HP : Heap} `{!HeapTotal HP}.
Context (H : bytes) (ps : Z).
Hypothesis page_range : 1024 <= ps <= 255 * 1024.

Abbreviation hs := (Zlen H).

(** A content that fits a page. *)
Definition content_ok (c : bytes) : Prop :=
  MIN_CONTENT_SIZE <= Zlen c <= ps ∧ ∃ rest, c = le_bytes 4 (Zlen c) ++ rest.

Context {St : Type} (cb : bytes → St → outcome St).

Fixpoint run_callback (cs : list bytes) (st : St) : outcome St :=
  match cs with [] => Done st | c :: cs => obind (cb c st) (run_callback cs) end.

(** The reader is inside page [pi], at [L] bytes after the header. *)
Definition in_page (pi L : Z) : Prop := 0 <= pi ∧ pi * ps <= L <= (pi + 1) * ps.

Lemma in_page_mod pi L : in_page pi L → L < (pi + 1) * ps → L mod ps = L - pi * ps.
Proof. intros [Hpi HL] Hlt. symmetry. apply Z.mod_unique_pos with pi; lia. Qed.

Lemma page_bounds pi L :
  in_page pi L → L < 2 ^ 31 → 0 <= pi < 2 ^ 31 - 1 ∧ 0 <= ps * (pi + 1) < 2 ^ 31 + 2 ^ 20.
Proof. intros [Hpi HL] Hlt. nia. Qed.

(** [HasReadPageEnd] by the position in the page. *)
Lemma HasReadPageEnd_at f pi L :
  in_page pi L → hs + L <= Zlen f < 2 ^ 31 →
  HasReadPageEnd hs ps pi (at_pos f (hs + L)) =
    Done ((0 <? L) && ((pi + 1) * ps <=? L + 4), at_pos f (hs + L)).
Proof.
  intros Hp Hf. pose proof (Zlen_nonneg H). destruct (Hp) as [Hpi HL].
  destruct (page_bounds pi L Hp) as [Hb1 Hb2]; [lia|]. unfold HasReadPageEnd.
  rewrite HasReadFileEnd_good by lia. cbn [tellg good eofbit failbit negb andb ipos fst].
  rewrite (u32_small (hs + L)) by (unfold is_u; lia). rewrite (u32_small (pi + 1)) by (unfold is_u; lia).
  rewrite (u32_small (ps * _)) by (unfold is_u; lia). rewrite u64_small by (unfold is_u; lia).
  destruct (Z.leb_spec (hs + L) hs), (Z.ltb_spec 0 L); try lia; [done|]. cbn [andb].
  destruct (Z.eqb_spec (hs + L) (hs + ps * (pi + 1))).
  - by rewrite (proj2 (Z.leb_le _ _)) by lia.
  - rewrite (proj2 (Z.eqb_neq ps 0)) by lia. replace (hs + L - hs) with L by lia.
    rewrite (in_page_mod pi L) by (done || lia). do 2 f_equal. unfold HIVIEW_BLOCK_SIZE.
    destruct (Z.leb_spec ps (L - pi * ps + 4)), (Z.leb_spec ((pi + 1) * ps) (L + 4)); done || lia.
Qed.

(** Reading a content that starts here. *)
Lemma read_here pre c post pi fuel st :
  let f := H ++ pre ++ c ++ post in
  content_ok c → Zlen f < 2 ^ 31 → in_page pi (Zlen pre) → Zlen pre + Zlen c <= (pi + 1) * ps →
  ReadPages hs ps (Zlen f) (S fuel) cb pi (at_pos f (hs + Zlen pre)) st =
    obind (cb c st) (λ st,
      ReadPages hs ps (Zlen f) fuel cb pi (at_pos f (hs + Zlen (pre ++ c))) st).
Proof.
  intros f [Hc (rest & Ec)] Hf Hp Hfit. pose proof (Zlen_nonneg H). pose proof (Zlen_nonneg pre).
  pose proof (Zlen_nonneg post). unfold MIN_CONTENT_SIZE, HIVIEW_BLOCK_SIZE, SIZEOF_CONTENT_HEADER,
    CRC_SIZE in Hc.
  assert (hs + Zlen pre + Zlen c <= Zlen f) as Hlen by (subst f; rewrite !Zlen_app; lia).
  cbn [ReadPages]. rewrite HasReadFileEnd_good by lia. unfold ReadContent.
  rewrite HasReadPageEnd_at by (done || lia). cbn [obind].
  rewrite (proj2 (Z.leb_gt ((pi + 1) * ps) (Zlen pre + 4))) by lia. rewrite andb_false_r.
  assert (f = (H ++ pre) ++ le_bytes 4 (Zlen c) ++ (rest ++ post)) as Ef.
  { subst f. rewrite Ec at 1. by rewrite <- !app_assoc. }
  rewrite <- Zlen_app. pose proof (ReadValueAndReset_at (H ++ pre) (Zlen c) (rest ++ post)) as E.
  rewrite <- Ef in E. rewrite E by (unfold MIN_CONTENT_SIZE in *; lia). clear E.
  rewrite (proj2 (Z.ltb_ge (Zlen c) _)) by (unfold MIN_CONTENT_SIZE, HIVIEW_BLOCK_SIZE,
    SIZEOF_CONTENT_HEADER, CRC_SIZE; lia).
  rewrite gtb_false by (unfold MAX_NEW_SIZE; lia).
  destruct (new_bytes_total (Zlen c)) as [init Hi]; [unfold MEM_MAX; lia|]. rewrite Hi.
  assert (sread (Zlen c) (at_pos f (Zlen (H ++ pre))) = (c, at_pos f (Zlen (H ++ pre) + Zlen c))) as ->.
  { replace f with ((H ++ pre) ++ c ++ post) by (subst f; by rewrite <- !app_assoc).
    apply sread_app. }
  rewrite overlay_full by (by rewrite (new_bytes_len _ _ Hi)).
  by rewrite !Zlen_app, Z.add_assoc.
Qed.

(** Going on to the next page: the rest of this one is zeros. *)
Lemma read_next_page pre pad post pi fuel st :
  let f := H ++ pre ++ pad ++ post in
  Forall (eq 0) pad → post ≠ [] → Zlen f < 2 ^ 31 → in_page pi (Zlen pre) → 0 < Zlen pre →
  Zlen pre + Zlen pad = (pi + 1) * ps →
  ReadPages hs ps (Zlen f) (S fuel) cb pi (at_pos f (hs + Zlen pre)) st =
    ReadPages hs ps (Zlen f) fuel cb (pi + 1) (at_pos f (hs + Zlen (pre ++ pad))) st.
Proof.
  intros f Hz Hne Hf Hp Hpos Hend. pose proof (Zlen_nonneg H). pose proof (Zlen_nonneg pad).
  assert (0 < Zlen post) by (destruct post; [done|rewrite Zlen_cons; pose proof (Zlen_nonneg post); lia]).
  assert (hs + (pi + 1) * ps < Zlen f) as Hlen by (subst f; rewrite !Zlen_app; lia).
  destruct (page_bounds pi (Zlen pre) Hp) as [Hb1 Hb2]; [lia|]. destruct Hp as [Hpi HL].
  cbn [ReadPages]. rewrite HasReadFileEnd_good by lia. unfold ReadContent.
  rewrite HasReadPageEnd_at by (split; lia || lia). cbn [obind].
  rewrite (proj2 (Z.ltb_lt 0 _)) by done. cbn [andb].
  assert (∃ r, (if (pi + 1) * ps <=? Zlen pre + 4 then (DOC_STORE_READ_EMPTY, [], at_pos f (hs + Zlen pre))
    else let '(contentSize, s) := ReadValueAndReset (at_pos f (hs + Zlen pre)) in
      if contentSize <? MIN_CONTENT_SIZE then (DOC_STORE_READ_EMPTY, [], s)
      else if contentSize >? MAX_NEW_SIZE then (DOC_STORE_ERROR_MEMORY, [], s)
      else match new_bytes contentSize with
           | Some content => let '(got, s) := sread contentSize s in
                             (DOC_STORE_SUCCESS, overlay got content, s)
           | None => (DOC_STORE_ERROR_MEMORY, [], s) end) =
    (DOC_STORE_READ_EMPTY, r, at_pos f (hs + Zlen pre))) as [r Er].
  { exists []. destruct (Z.leb_spec ((pi + 1) * ps) (Zlen pre + 4)); [done|].
    destruct pad as [|a [|b [|c [|d pad]]]]; autorewrite with zlen in Hend; try lia.
    rewrite !Forall_cons in Hz. destruct Hz as (<- & <- & <- & <- & _).
    pose proof (ReadValueAndReset_at (H ++ pre) 0 (pad ++ post)) as E.
    rewrite <- app_assoc in E. change (le_bytes 4 0) with [0; 0; 0; 0] in E. cbn [app] in E.
    subst f. cbn [app]. rewrite <- Zlen_app, E by lia. done. }
  rewrite Er. rewrite u32_small by (unfold is_u; lia). unfold SeekgPage.
  rewrite HasReadFileEnd_good by lia. rewrite (u32_small (ps * _)) by (unfold is_u; lia).
  rewrite u64_small by (unfold is_u; lia). rewrite s32_small by lia.
  rewrite (proj2 (Z.ltb_lt _ _)) by lia. unfold seekg. cbn [failbit is_open ifile].
  do 2 f_equal. rewrite Zlen_app. lia.
Qed.

(** The end of the document. *)
Lemma read_end pre pi fuel st :
  let f := H ++ pre in
  Zlen f < 2 ^ 30 → in_page pi (Zlen pre) →
  ReadPages hs ps (Zlen f) (S fuel) cb pi (at_pos f (hs + Zlen pre)) st = Done (Some st).
Proof.
  intros f Hf Hp. pose proof (Zlen_nonneg H). pose proof (Zlen_nonneg pre).
  assert (Zlen f = hs + Zlen pre) as Hlen by (subst f; by rewrite Zlen_app).
  destruct (page_bounds pi (Zlen pre) Hp) as [Hb1 Hb2]; [lia|]. destruct (Hp) as [Hpi HL].
  cbn [ReadPages]. rewrite HasReadFileEnd_good by lia. unfold ReadContent.
  rewrite HasReadPageEnd_at by (done || lia). cbn [obind].
  destruct ((0 <? Zlen pre) && ((pi + 1) * ps <=? Zlen pre + 4)).
  - rewrite u32_small by (unfold is_u; lia). unfold SeekgPage.
    rewrite HasReadFileEnd_good by lia. rewrite (u32_small (ps * _)) by (unfold is_u; lia).
    rewrite u64_small by (unfold is_u; lia). rewrite s32_small by lia.
    by rewrite (proj2 (Z.ltb_ge _ _)) by lia.
  - rewrite <- Hlen, ReadValueAndReset_end. done.
Qed.

(** Where the next content starts: here, or at the start of the next page. *)
Lemma padding_cases c pi L :
  content_ok c → in_page pi L → 0 <= L →
  (padding ps L (Zlen c) = [] ∧ L + Zlen c <= (pi + 1) * ps) ∨
  (Forall (eq 0) (padding ps L (Zlen c)) ∧ L + Zlen (padding ps L (Zlen c)) = (pi + 1) * ps ∧ 0 < L).
Proof.
  intros [Hc _] Hp HL0. destruct (Hp) as [Hpi HL]. unfold padding.
  destruct (Z.eq_dec L ((pi + 1) * ps)) as [->|Hne].
  - right. rewrite Z.mod_mul by lia. rewrite (proj2 (Z.ltb_ge _ _)) by lia.
    split; [done|]. rewrite Zlen_nil. nia.
  - rewrite (in_page_mod pi L) by (done || lia). destruct (Z.ltb_spec (ps - (L - pi * ps)) (Zlen c)).
    + right. rewrite Zlen_replicate by lia. split; [by apply Forall_replicate|]. nia.
    + left. split; [done|]. lia.
Qed.

(** From any point of a layout the loop visits the contents that follow. *)
Lemma read_layout cs : ∀ pre pi fuel st,
  let f := H ++ pre ++ laid_after ps (Zlen pre) cs in
  Forall content_ok cs → Zlen f < 2 ^ 30 → in_page pi (Zlen pre) → (2 * length cs < fuel)%nat →
  ReadPages hs ps (Zlen f) fuel cb pi (at_pos f (hs + Zlen pre)) st =
    obind (run_callback cs st) (λ st, Done (Some st)).
Proof.
  induction cs as [|c cs IH]; intros pre pi fuel st f Hcs Hf Hp Hfuel;
    (destruct fuel as [|fuel]; [cbn in Hfuel; lia|]).
  { subst f. cbn [laid_after] in *. rewrite app_nil_r in *. by rewrite read_end by done. }
  apply Forall_cons in Hcs as [Hc Hcs]. cbn [laid_after] in f.
  set (pad := padding ps (Zlen pre) (Zlen c)) in f. cbn [length] in Hfuel.
  set (rest := laid_after ps (Zlen pre + Zlen pad + Zlen c) cs) in f.
  assert (f = H ++ (pre ++ pad ++ c) ++ laid_after ps (Zlen (pre ++ pad ++ c)) cs) as Ef.
  { subst f rest. rewrite !Zlen_app, Z.add_assoc. by rewrite <- !app_assoc. }
  pose proof (Zlen_nonneg c).
  assert (∀ pi' fuel st, (S fuel > 2 * length cs + 1)%nat → in_page pi' (Zlen (pre ++ pad)) →
    Zlen (pre ++ pad) + Zlen c <= (pi' + 1) * ps →
    ReadPages hs ps (Zlen f) (S fuel) cb pi' (at_pos f (hs + Zlen (pre ++ pad))) st =
    obind (run_callback (c :: cs) st) (λ st, Done (Some st))) as Hhere.
  { intros pi' fuel' st' Hfuel' [Hp1 Hp2] Hfit.
    pose proof (read_here (pre ++ pad) c rest pi' fuel' st') as Eh. cbn zeta in Eh.
    replace (H ++ (pre ++ pad) ++ c ++ rest) with f in Eh by (subst f; by rewrite <- !app_assoc).
    rewrite Eh by (first [done | lia | split; lia]). cbn [run_callback]. rewrite obind_assoc.
    apply obind_ext. intros st''. specialize (IH (pre ++ pad ++ c) pi' fuel' st''). cbn zeta in IH.
    rewrite <- Ef in IH. rewrite <- app_assoc. apply IH; [done|done| |lia].
    rewrite app_assoc, Zlen_app. split; lia. }
  destruct (padding_cases c pi (Zlen pre) Hc Hp (Zlen_nonneg _)) as [[Ep Hfit]|(Hz & Hend & Hpos)];
    fold pad in Ep || fold pad in Hz, Hend.
  - rewrite Ep, app_nil_r in Hhere. apply Hhere; [lia|done|done].
  - pose proof (read_next_page pre pad (c ++ rest) pi fuel st) as En. cbn zeta in En.
    change (H ++ pre ++ pad ++ c ++ rest) with f in En.
    destruct fuel as [|fuel]; [lia|].
    destruct Hc as [Hc1 Hc2]. destruct Hp as [Hpi HL]. change MIN_CONTENT_SIZE with 47 in Hc1.
    rewrite En; [apply Hhere; [lia| |]; rewrite Zlen_app; [split|]; lia|done| |lia|done|done|done].
    intros [Ec _]%app_nil. rewrite Ec, Zlen_nil in Hc1. lia.
Qed.

End Pages.
