(* ===== verification/DocRebuild.v ===== *)
(** * DocRebuild: the event a content gives back

    [ReadRawData] puts the event's block together again: domain and name from
    the path, the rest of the header, the trace and the parameters from the
    content, and the tag, level and sequence number as further parameters. *)

From S2P Require Import Prelude Text Platform RawData Encoder Decoder Params.
From S2P Require Import EventHeader DecodedEvent BuilderFacts Query DbFile DocStore DocFacts.
From stdpp Require Import base list numbers strings.

Import Query DocStore.
Local Open Scope Z_scope.
Local Open Scope hv_scope.

Section Rebuild.
Context `{HP : Heap} `{SC : Securec} `{!HeapTotal HP}.

(** Appending the front of a longer source. *)
Lemma Append_front r x y :
  usable r → len_ r + Zlen x <= LEN_MAX →
  Append r (Some (x ++ y)) (Zlen x) = Append r (Some x) (Zlen x).
Proof.
  intros Hu HL. unfold Append. destruct (Z.eqb_spec (Zlen x) 0) as [|Hne]; [done|].
  pose proof (Zlen_nonneg x). pose proof (Zlen_nonneg y). pose proof Hu as [[Hlen _] [[d Hd] Hcap]].
  unfold Update. rewrite gtb_false by lia. rewrite Hd.
  destruct (Expand_spec r d (Zlen x) (len_ r)) as (d' & c & HE & Hc & Hc22 & _); [done|done|lia..|].
  rewrite HE. unfold LEN_MAX in *. rewrite u64_small by (split; lia).
  rewrite !memcpy_s_copies by (unfold MEM_MAX; rewrite ?Zlen_drop, ?Zlen_app; lia).
  by rewrite take_Zlen, take_Zlen_id.
Qed.

Lemma appends_front x y : appends (λ r, Append r (Some (x ++ y)) (Zlen x)) x.
Proof. intros r Hu HL. rewrite Append_front by done. by apply Append_spec. Qed.

Lemma appends_exact x n : Zlen x = n → appends (λ r, Append r (Some x) n) x.
Proof. intros <- r Hu HL. by apply Append_spec. Qed.

Lemma appends_encoded key v :
  value_ok v → Zlen (param_bytes key v) <= LEN_MAX →
  appends (AppendEncoded (EncodedParam_new key v)) (param_bytes key v).
Proof.
  intros Hv HL r Hu Hr. destruct (Encode_new key v Hv HL) as (p & Ep & Hk & Hpv & He).
  pose proof (encoded_len p He) as Hl. pose proof He as (Hh & Hup & Hc).
  pose proof (param_bytes_pos (key_ p) (pval_ p)). rewrite Hk, Hpv in *.
  unfold AppendEncoded, GetRawData. change (hasEncoded_ (EncodedParam_new key v)) with false.
  cbn iota. rewrite Ep. cbn [fst snd].
  destruct Hup as [Hw [[d Hd] _]]. unfold contents, GetData, GetDataLength in *. rewrite Hd in *.
  rewrite <- (take_drop (Z.to_nat (len_ (Params.rawData_ p))) d), Hc, Hl. by apply appends_front.
Qed.

Lemma new_len_usable n : 0 < n <= 2 ^ 22 → usable (RawData_new_len n) ∧ contents (RawData_new_len n) = [].
Proof.
  intros Hn. unfold RawData_new_len. destruct (new_bytes_total n) as [d Hd]; [unfold MEM_MAX; lia|].
  rewrite Hd. split; [|done]. split; [|split]; [apply rd_wf_alloc; [done|lia]|by eexists|cbn; lia].
Qed.

(** The bytes of a usable buffer: its contents, then free space. *)
Lemma data_contents r : usable r → ∃ junk, GetData r = Some (contents r ++ junk).
Proof.
  intros [[Hl Hd] [[d Ed] _]]. unfold GetData, contents. rewrite Ed in *.
  exists (drop (Z.to_nat (len_ r)) d). by rewrite take_drop.
Qed.

(** ** The layout of a block *)

(** The fields of the header after domain and name. *)
Definition header_tail (h : HiSysEventHeader) : bytes :=
  le_bytes 8 (timestamp h) ++ le_bytes 1 (timeZone h) ++ le_bytes 4 (uid h) ++ le_bytes 4 (pid h) ++
  le_bytes 4 (tid h) ++ le_bytes 8 (id h) ++ [type h mod 4 + 4 * (isTraceOpened h mod 2)] ++
  le_bytes 1 (log h).

Definition trace_part (h : HiSysEventHeader) (t : TraceInfo) : bytes :=
  if isTraceOpened h =? 1 then trace_bytes t else [].

Lemma header_bytes_tail h : header_bytes h = domain h ++ name h ++ header_tail h.
Proof. done. Qed.

Lemma header_tail_len h : Zlen (header_tail h) = 31.
Proof. unfold header_tail. by rewrite !Zlen_app, !Zlen_le_bytes. Qed.

Lemma trace_part_len h t :
  Zlen (trace_part h t) = if isTraceOpened h =? 1 then SIZEOF_TRACE_INFO else 0.
Proof. unfold trace_part. destruct (_ =? 1); [apply trace_bytes_len|done]. Qed.

(** A block with any size and counter in front of its parameters. *)
Definition raw_block (size cnt : Z) (h : HiSysEventHeader) (t : TraceInfo) (ps : bytes) : bytes :=
  le_bytes 4 size ++ header_bytes h ++ trace_part h t ++ le_bytes 4 cnt ++ ps.

Lemma event_block_raw h t ps :
  event_block h t ps = raw_block (Zlen (event_block h t ps)) (Zlen ps) h t (params_bytes ps).
Proof. unfold event_block, raw_block. by rewrite (Zlen_app (le_bytes 4 _)), Zlen_le_bytes. Qed.

Lemma raw_block_len size cnt h t ps :
  header_ok h →
  Zlen (raw_block size cnt h t ps) = 89 + Zlen (trace_part h t) + Zlen ps.
Proof.
  intros (Hd & Hn & _). unfold raw_block. rewrite !Zlen_app, !Zlen_le_bytes, header_bytes_len by done.
  unfold SIZEOF_HEADER. lia.
Qed.

(** ** Updating the counter and the size *)

Lemma UpdateParamCnt_spec r size cnt add h t ps :
  usable r → contents r = raw_block size cnt h t ps → header_ok h →
  0 <= cnt < 2 ^ 30 → 0 <= add < 2 ^ 30 → len_ r <= LEN_MAX →
  ∃ r', UpdateParamCnt add r = (true, r') ∧ usable r' ∧ contents r' = raw_block size (cnt + add) h t ps.
Proof.
  intros Hu Hc Hh Hcnt Hadd HL. destruct (data_contents r Hu) as [junk Ed].
  pose proof (usable_len r Hu) as Hlen. rewrite Hc, raw_block_len in Hlen by done.
  pose proof (trace_part_len h t) as Ht. pose proof (Zlen_nonneg ps). pose proof (Zlen_nonneg (trace_part h t)).
  pose proof Hh as (Hd & Hn & _). pose proof (header_bytes_len h Hd Hn) as Hhb.
  set (pre := le_bytes 4 size ++ header_bytes h ++ trace_part h t).
  assert (∀ c, raw_block size c h t ps = pre ++ le_bytes 4 c ++ ps) as Eb
    by (intros; unfold raw_block, pre; by rewrite <- !app_assoc).
  assert (Zlen pre = 85 + Zlen (trace_part h t)) as Hpre
    by (unfold pre; rewrite !Zlen_app, Zlen_le_bytes, Hhb; unfold SIZEOF_HEADER; lia).
  unfold UpdateParamCnt. rewrite Ed, Hc. cbv beta zeta iota delta [from_option Datatypes.id].
  assert (header_of_bytes (take (Z.to_nat SIZEOF_HEADER) (drop 4 (raw_block size cnt h t ps ++ junk))) = h) as ->.
  { unfold raw_block. rewrite <- !app_assoc, drop_app_length' by (by rewrite length_le_bytes).
    rewrite <- Hhb, take_Zlen. by apply header_of_bytes_id. }
  replace (HIVIEW_BLOCK_SIZE + SIZEOF_HEADER + _) with (Zlen pre)
    by (rewrite Hpre, Ht; unfold HIVIEW_BLOCK_SIZE, SIZEOF_HEADER; lia).
  assert (le_value (take 4 (drop (Z.to_nat (Zlen pre)) (raw_block size cnt h t ps ++ junk))) = cnt) as ->.
  { rewrite Eb, <- !app_assoc, drop_Zlen, take_app_length' by (by rewrite length_le_bytes).
    apply le_value_bytes_small. change (8 * Z.of_nat 4) with 32. lia. }
  rewrite (s32_small cnt), (s32_small (cnt + add)) by lia. rewrite u32_small by (unfold is_u; lia).
  destruct (Update_spec r (le_bytes 4 (cnt + add)) (Zlen pre)) as (r' & E & Hu' & _ & Hc');
    [done|done|rewrite Hlen, Hpre; lia|rewrite Zlen_le_bytes; unfold LEN_MAX in *; lia|].
  rewrite Zlen_le_bytes in E, Hc'. exists r'. split_and!; [exact E|done|].
  rewrite Hc', Hc, !Eb, take_Zlen. f_equal. f_equal.
  rewrite app_assoc, drop_app_length'; [done|]. rewrite length_app, length_le_bytes.
  unfold Zlen. lia.
Qed.

Lemma UpdateRealSize_spec r size cnt h t ps :
  usable r → contents r = raw_block size cnt h t ps → header_ok h → len_ r <= LEN_MAX →
  ∃ r', UpdateRealSize r = (true, r') ∧ usable r' ∧
    contents r' = raw_block (Zlen (raw_block size cnt h t ps)) cnt h t ps.
Proof.
  intros Hu Hc Hh HL. pose proof (usable_len r Hu) as Hlen. rewrite Hc in Hlen.
  pose proof (Zlen_nonneg (raw_block size cnt h t ps)). unfold UpdateRealSize, GetDataLength.
  rewrite Hlen. rewrite u32_small by (unfold is_u, LEN_MAX in *; lia).
  destruct (Update_spec r (le_bytes 4 (Zlen (raw_block size cnt h t ps))) 0) as (r' & E & Hu' & _ & Hc');
    [done|done|lia|rewrite Zlen_le_bytes; unfold LEN_MAX; lia|].
  rewrite Zlen_le_bytes in E, Hc'. exists r'. split_and!; [exact E|done|]. rewrite Hc', Hc. done.
Qed.

(** ** The whole event *)

(** The parameters the reader adds. *)
Definition extras (t level : bytes) (seq : Z) : list DecodedParam :=
  (if bool_decide (t = []) then [] else [mkDecodedParam EventCol_TAG (PString t)]) ++
  [mkDecodedParam EventCol_LEVEL (PString level); mkDecodedParam EventCol_SEQ (PSigned seq)].

Lemma params_bytes_app ps1 ps2 : params_bytes (ps1 ++ ps2) = params_bytes ps1 ++ params_bytes ps2.
Proof. unfold params_bytes. by rewrite fmap_app, concat_app. Qed.

Lemma AppendExtraInfo_spec info r size cnt h t ps :
  let xs := extras (ei_tag info) (ei_level info) (ei_seq info) in
  usable r → contents r = raw_block size cnt h t ps → header_ok h → 0 <= cnt < 2 ^ 20 →
  value_ok (PString (ei_tag info)) → value_ok (PString (ei_level info)) → is_s 64 (ei_seq info) →
  Zlen (raw_block size cnt h t ps) + Zlen (params_bytes xs) <= LEN_MAX →
  ∃ r', AppendExtraInfo info r = (true, r') ∧ usable r' ∧
    contents r' = raw_block (Zlen (raw_block size cnt h t ps) + Zlen (params_bytes xs))
                    (cnt + Zlen xs) h t (ps ++ params_bytes xs).
Proof.
  intros xs Hu Hc Hh Hcnt Htag Hlevel Hseq HL.
  set (B := raw_block size cnt h t ps) in *.
  set (bt := if bool_decide (ei_tag info = []) then [] else param_bytes EventCol_TAG (PString (ei_tag info))).
  set (bl := param_bytes EventCol_LEVEL (PString (ei_level info))).
  set (bq := param_bytes EventCol_SEQ (PSigned (ei_seq info))).
  assert (params_bytes xs = bt ++ bl ++ bq) as Hxs.
  { subst xs bt bl bq. unfold extras, params_bytes. case_bool_decide; cbn; by rewrite ?app_nil_r. }
  rewrite Hxs, !Zlen_app in *. pose proof (Zlen_nonneg bt). pose proof (Zlen_nonneg bl).
  pose proof (Zlen_nonneg bq). pose proof (Zlen_nonneg B). pose proof (usable_len r Hu) as Hlr. rewrite Hc in Hlr.
  set (tagged := negb (bool_decide (ei_tag info = []))).
  assert (∃ r1, AppendTag (ei_tag info) r = (tagged, r1) ∧ usable r1 ∧ contents r1 = B ++ bt) as (r1 & E1 & Hu1 & Hc1).
  { unfold AppendTag, tagged. destruct (bool_decide (ei_tag info = [])) eqn:Et; cbn [negb].
    - exists r. subst bt. by rewrite app_nil_r.
    - assert (Zlen bt = Zlen (param_bytes EventCol_TAG (PString (ei_tag info)))) by done.
      destruct (appends_encoded EventCol_TAG (PString (ei_tag info)) Htag) with (r := r) as (r1 & E & Hu1 & Hc1);
        [lia|done|lia|].
      exists r1. by rewrite Hc1, Hc. }
  pose proof (usable_len r1 Hu1) as Hl1. rewrite Hc1, Zlen_app in Hl1.
  destruct (appends_then (AppendLevel (ei_level info)) (AppendSeq (ei_seq info)) bl bq) with (r := r1)
    as (r2 & E2 & Hu2 & Hc2).
  { apply appends_encoded; [done|fold bl; lia]. }
  { apply appends_encoded; [done|fold bq; lia]. }
  { done. }
  { rewrite Zlen_app. lia. }
  assert (contents r2 = raw_block size cnt h t (ps ++ params_bytes xs)) as Hc2'.
  { rewrite Hc2, Hc1, Hxs. subst B. unfold raw_block. by rewrite <- !app_assoc. }
  pose proof (usable_len r2 Hu2) as Hl2. rewrite Hc2, Hc1, !Zlen_app in Hl2.
  assert (Zlen xs = if tagged then 3 else 2) as Hx.
  { subst xs tagged. unfold extras. by case_bool_decide. }
  destruct (UpdateParamCnt_spec r2 size cnt (Zlen xs) h t (ps ++ params_bytes xs)) as (r3 & E3 & Hu3 & Hc3);
    [done|done|done|lia|rewrite Hx; by destruct tagged|lia|].
  assert (len_ r3 = len_ r2) as Hl3.
  { rewrite (usable_len r3), (usable_len r2), Hc3, Hc2', !raw_block_len by done. done. }
  destruct (UpdateRealSize_spec r3 size (cnt + Zlen xs) h t (ps ++ params_bytes xs)) as (r4 & E4 & Hu4 & Hc4);
    [done|done|done|lia|].
  exists r4. split_and!; [|done|].
  - unfold AppendExtraInfo. rewrite E1. apply andthen_true in E2 as (r' & Ea & Eb).
    unfold andthen. rewrite Ea, Eb, <- Hx, E3, E4. done.
  - rewrite Hc4, Hxs. f_equal. subst B. rewrite !raw_block_len by done. rewrite !Zlen_app. lia.
Qed.

(** What the writer keeps of a block: everything after domain and name. *)
Definition kept_part (h : HiSysEventHeader) (t : TraceInfo) (ps : list DecodedParam) : bytes :=
  header_tail h ++ trace_part h t ++ le_bytes 4 (Zlen ps) ++ params_bytes ps.

Lemma ReadRawData_spec uninit info front crc h t ps :
  let content := front ++ kept_part h t ps ++ crc in
  let xs := extras (ei_tag info) (ei_level info) (ei_seq info) in
  Zlen front = 12 → Zlen crc = CRC_SIZE →
  ei_domain info = domain h → ei_name info = name h → header_ok h → Zlen ps < 2 ^ 20 →
  value_ok (PString (ei_tag info)) → value_ok (PString (ei_level info)) → is_s 64 (ei_seq info) →
  Zlen (event_block h t (ps ++ xs)) <= MAX_BLOCK_SIZE →
  ∃ r, ReadRawData (ContentReaderVersion4 uninit) info content (Zlen content) = Some r ∧ usable r ∧
    contents r = event_block h t (ps ++ xs).
Proof.
  intros content xs Hfr Hcrc Hd Hn Hh Hps Htag Hlevel Hseq HL. pose proof Hh as (Hd' & Hn' & _).
  set (body := trace_part h t ++ le_bytes 4 (Zlen ps) ++ params_bytes ps).
  assert (content = front ++ header_tail h ++ body ++ crc) as Ec
    by (subst content; unfold kept_part, body; by rewrite <- !app_assoc).
  rewrite event_block_raw, raw_block_len, params_bytes_app, Zlen_app in HL by done.
  unfold MAX_BLOCK_SIZE, CRC_SIZE in *. pose proof (Zlen_nonneg (params_bytes ps)).
  pose proof (Zlen_nonneg (params_bytes xs)). pose proof (Zlen_nonneg (trace_part h t)).
  assert (Zlen body = Zlen (trace_part h t) + 4 + Zlen (params_bytes ps)) as Hbody
    by (unfold body; rewrite !Zlen_app, Zlen_le_bytes; lia).
  assert (Zlen content = 47 + Zlen body) as Hlen
    by (rewrite Ec, !Zlen_app, header_tail_len, Hfr, Hcrc; lia).
  unfold ReadRawData. change (GetContentHeaderSize (ContentReaderVersion4 uninit)) with 39.
  change SIZEOF_CONTENT_HEADER with 39. unfold SEQ_SIZE, DbFile.MAX_DOMAIN_LEN, DbFile.MAX_EVENT_NAME_LEN.
  rewrite u32_small by (unfold is_u; lia). set (es := Zlen content - 39 + 39 - 8 + 17 + 33 + 128).
  rewrite gtb_false by (unfold MAX_NEW_SIZE; lia).
  destruct (new_len_usable es) as [Hu0 Hc0]; [subst es; lia|].
  assert (appends ((λ r, Append r (Some (le_bytes 4 es)) HIVIEW_BLOCK_SIZE) >&&
     AppendDomainAndName info >&& AppendContentData (ContentReaderVersion4 uninit) content (Zlen content))
     (le_bytes 4 es ++ (domain h ++ name h) ++ header_tail h ++ body)) as Ha.
  { apply appends_then; [by apply appends_exact|]. apply appends_then.
    - unfold AppendDomainAndName. rewrite Hd, Hn.
      apply appends_then; apply appends_exact; unfold Zlen; by rewrite ?Hd', ?Hn'.
    - unfold AppendContentData. apply appends_then.
      + assert (drop 8 (GetContentHeader (ContentReaderVersion4 uninit) content) = header_tail h) as ->.
        { change (GetContentHeader (ContentReaderVersion4 uninit) content) with (take 39 (drop 4 content)).
          rewrite skipn_firstn_comm, drop_drop, Ec, drop_app_length' by (unfold Zlen in Hfr; lia).
          apply take_app_length'. pose proof (header_tail_len h) as E. unfold Zlen in E. lia. }
        apply appends_exact. apply header_tail_len.
      + change (GetContentHeaderSize (ContentReaderVersion4 uninit)) with 39.
        unfold HIVIEW_BLOCK_SIZE, CRC_SIZE. rewrite u64_small by (unfold is_u; lia).
        assert (drop (Z.to_nat (4 + 39)) content = body ++ crc) as ->.
        { rewrite Ec, app_assoc. apply drop_app_length'. rewrite length_app.
          pose proof (header_tail_len h) as E. unfold Zlen in E, Hfr. lia. }
        replace (Zlen content - (4 + 39) - 4) with (Zlen body) by lia. apply appends_front. }
  destruct (Ha _ Hu0) as (r1 & E1 & Hu1 & Hc1).
  { rewrite (usable_len _ Hu0), Hc0, !Zlen_app, Zlen_le_bytes, header_tail_len. unfold LEN_MAX.
    change (Zlen []) with 0. unfold Zlen at 1 2. rewrite Hd', Hn'. lia. }
  assert (contents r1 = raw_block es (Zlen ps) h t (params_bytes ps)) as Hc1'.
  { rewrite Hc1, Hc0. unfold raw_block. rewrite header_bytes_tail. subst body. by rewrite <- !app_assoc. }
  destruct (AppendExtraInfo_spec info r1 es (Zlen ps) h t (params_bytes ps)) as (r2 & E2 & Hu2 & Hc2);
    [done|done|done|pose proof (Zlen_nonneg ps); lia|done|done|done| |].
  { rewrite raw_block_len by done. fold xs. unfold LEN_MAX. lia. }
  fold xs in Hc2. exists r2. split_and!; [|done|].
  - apply andthen_true in E1 as (ra & Ea & E1). apply andthen_true in E1 as (rb & Eb & Ec').
    unfold andthen at 1. rewrite Ea. unfold andthen at 1. rewrite Eb. unfold andthen at 1.
    by rewrite Ec', E2.
  - rewrite Hc2, event_block_raw. f_equal; [|by rewrite Zlen_app|by rewrite params_bytes_app].
    rewrite event_block_raw, !raw_block_len, params_bytes_app, Zlen_app by done. lia.
Qed.

End Rebuild.
