(* ===== verification/DocClaims.v ===== *)
(** * DocClaims: events written to a document are read back

    The writer's steps produce the layout of DocFacts, the reader finds the
    events again in order, and what it rebuilds decodes to the event written,
    with the tag, level and sequence number as extra parameters. *)

From S2P Require Import Prelude Text Platform RawData Encoder Decoder Params.
From S2P Require Import EventHeader DecodedEvent BuilderFacts Query DbFile DocStore DocFacts DocRebuild.
From stdpp Require Import base list numbers strings.

Import Query DocStore.
Local Open Scope Z_scope.
Local Open Scope hv_scope.

(** A field at its offset. *)
Lemma field_at_app pre n z post off :
  length pre = off → 0 <= z < 2 ^ (8 * Z.of_nat n) →
  field_at (pre ++ le_bytes n z ++ post) off n = z.
Proof.
  intros <- Hz. unfold field_at. rewrite drop_app_length.
  rewrite take_app_le, take_ge by (rewrite length_le_bytes; lia). by apply le_value_bytes_small.
Qed.

Section Header.
Context `{HP : Heap} `{SC : Securec} `{!HeapTotal HP}.
Context (uninit : Z → bytes) (sysV patchV : bytes).
Hypothesis uninit_len : ∀ n, 0 <= n → Zlen (uninit n) = n.
Hypothesis sys_ok : (0 ∉ sysV) ∧ Zlen sysV <= MAX_VERSION_LENG.
Hypothesis patch_ok : (0 ∉ patchV) ∧ Zlen patchV <= MAX_VERSION_LENG.

(** A version as the header holds it: its size, the text and the terminator. *)
Definition version_bytes (v : bytes) : bytes := le_bytes 4 (Zlen v + 1) ++ v ++ [0].

Lemma GetDataString_at pre v post :
  0 ∉ v → Zlen v <= MAX_VERSION_LENG →
  GetDataString uninit (at_pos (pre ++ version_bytes v ++ post) (Zlen pre)) =
    Done (Some v, at_pos (pre ++ version_bytes v ++ post) (Zlen (pre ++ version_bytes v))).
Proof.
  intros Hv Hl. pose proof (Zlen_nonneg v). unfold GetDataString, version_bytes, MAX_VERSION_LENG in *.
  pose proof (sread_app pre (le_bytes 4 (Zlen v + 1)) ((v ++ [0]) ++ post)) as E1.
  rewrite Zlen_le_bytes in E1. change (Z.of_nat 4) with 4 in E1.
  rewrite <- app_assoc. rewrite E1. rewrite overlay_full by (by rewrite Zlen_le_bytes).
  rewrite le_value_bytes_small by (change (8 * Z.of_nat 4) with 32; unfold is_u; lia).
  rewrite gtb_false by lia. rewrite (proj2 (Z.eqb_neq _ 0)) by lia. cbn [orb].
  pose proof (sread_app (pre ++ le_bytes 4 (Zlen v + 1)) (v ++ [0]) post) as E2.
  rewrite !Zlen_app, Zlen_le_bytes in E2. change (Zlen [0]) with 1 in E2.
  change (Z.of_nat 4) with 4 in E2. rewrite <- app_assoc in E2. rewrite E2.
  rewrite overlay_full by (rewrite Zlen_app, uninit_len by lia; done).
  unfold terminated. rewrite bool_decide_true by (apply elem_of_app; right; apply list_elem_of_here). rewrite c_str_terminated by done.
  do 3 f_equal. rewrite !Zlen_app, Zlen_le_bytes. change (Zlen [0]) with 1. lia.
Qed.

(** A written header: page size in KB and tag. *)
Definition HEADER_BLOCK : Z := SIZEOF_DOC_HEADER - 8 + 4 + (Zlen sysV + 1) + 4 + (Zlen patchV + 1).
Definition header_record (kb : Z) (t : bytes) : DocHeader :=
  mkDocHeader MAGIC_NUM HEADER_BLOCK kb CURRENT t.
Definition doc_header (kb : Z) (t : bytes) : bytes :=
  DocHeader_bytes (header_record kb t) ++ version_bytes sysV ++ version_bytes patchV.

Lemma DocHeader_bytes_len h : length (tag h) = 17%nat → Zlen (DocHeader_bytes h) = SIZEOF_DOC_HEADER.
Proof. intros Ht. unfold DocHeader_bytes. rewrite !Zlen_app, !Zlen_le_bytes. unfold Zlen. by rewrite Ht. Qed.

Lemma doc_header_len kb t : length t = 17%nat → Zlen (doc_header kb t) = HEADER_BLOCK + 8.
Proof.
  intros Ht. unfold doc_header, version_bytes. rewrite !Zlen_app, DocHeader_bytes_len, !Zlen_le_bytes by done.
  change (Zlen [0]) with 1. change (Z.of_nat 4) with 4. unfold HEADER_BLOCK. lia.
Qed.

Lemma header_block_range : 33 <= HEADER_BLOCK <= 2100.
Proof.
  pose proof (Zlen_nonneg sysV). pose proof (Zlen_nonneg patchV). destruct sys_ok, patch_ok.
  unfold HEADER_BLOCK, SIZEOF_DOC_HEADER, MAX_VERSION_LENG in *. lia.
Qed.

Lemma DocHeader_of_written kb t :
  length t = 17%nat → 0 <= kb < 256 →
  DocHeader_of_bytes (DocHeader_bytes (header_record kb t)) = header_record kb t.
Proof.
  intros Ht Hkb. pose proof header_block_range.
  unfold DocHeader_of_bytes, DocHeader_bytes. cbn [header_record magicNum blockSize pageSize version tag].
  set (m := le_bytes 8 MAGIC_NUM). set (b := le_bytes 4 HEADER_BLOCK). set (k := le_bytes 1 kb).
  set (v := le_bytes 1 CURRENT). unfold header_record. f_equal.
  - apply (field_at_app m 4); [done|]. change (8 * Z.of_nat 4) with 32. lia.
  - rewrite (app_assoc m). by apply (field_at_app (m ++ b) 1).
  - rewrite (app_assoc m), (app_assoc (m ++ b)), (app_assoc ((m ++ b) ++ k)), drop_app_length' by done.
    by rewrite take_ge by lia.
Qed.

Lemma ReadHeader_doc rd kb t rest p h0 :
  let f := doc_header kb t ++ rest in
  length t = 17%nat → 0 <= kb < 256 → length (tag h0) = 17%nat →
  in_ rd = at_pos f p → dataFmtVersion_ rd = CURRENT →
  ReadHeader uninit rd h0 =
    Done (DOC_STORE_SUCCESS, header_record kb t,
          mkDocReader (at_pos f (Zlen (doc_header kb t))) (fileSize_ rd) (pageSize_ rd)
            CURRENT (Zlen (doc_header kb t)) (mkHeadExtra sysV patchV) (info_ rd)).
Proof.
  intros f Ht Hkb Ht0 Hin Hv. unfold ReadHeader. rewrite Hv. cbn [GetReader ReadDocDetails].
  change (GetReader uninit CURRENT) with (Some (ContentReaderVersion4 uninit)).
  cbn [ReadDocDetails ContentReaderVersion4]. unfold ReadDocDetails_v4. rewrite Hin.
  cbn [is_open negb]. unfold seekg. cbn [failbit is_open ifile].
  subst f. unfold doc_header at 1 2 3 4. set (hb := DocHeader_bytes (header_record kb t)).
  assert (Zlen hb = SIZEOF_DOC_HEADER) as Hlb by (by apply DocHeader_bytes_len).
  pose proof (sread_app [] hb (version_bytes sysV ++ version_bytes patchV ++ rest)) as E.
  change (Zlen []) with 0 in E. cbn [app] in E. rewrite Hlb, Z.add_0_l in E.
  rewrite <- !app_assoc, E. rewrite overlay_full by (by rewrite DocHeader_bytes_len).
  pose proof (DocHeader_of_written kb t Ht Hkb) as Ew. fold hb in Ew. rewrite Ew.
  destruct sys_ok as [Hs1 Hs2], patch_ok as [Hp1 Hp2].
  pose proof (GetDataString_at hb sysV (version_bytes patchV ++ rest) Hs1 Hs2) as E1.
  pose proof (GetDataString_at (hb ++ version_bytes sysV) patchV rest Hp1 Hp2) as E2.
  rewrite Hlb in E1. rewrite <- app_assoc in E2. rewrite E1. cbn [obind]. rewrite E2. cbn [obind].
  rewrite <- app_assoc. replace (blockSize (header_record kb t) + 8) with (Zlen (doc_header kb t)); [done|].
  by rewrite doc_header_len.
Qed.

Lemma DocReader_new_doc path kb t rest :
  let f := doc_header kb t ++ rest in
  Zlen f < 2 ^ 31 →
  DocReader_new path (Some f) =
    mkDocReader (at_pos f 0) (Zlen f) 0 CURRENT 0 (mkHeadExtra [] []) (InitEventInfo path).
Proof.
  intros f Hf. unfold DocReader_new, open_stream, ReadFmtVersion. cbn [is_open negb ifile tellg good
    eofbit failbit andb ipos seekg].
  set (pre := le_bytes 8 MAGIC_NUM ++ le_bytes 4 HEADER_BLOCK ++ le_bytes 1 kb).
  assert (f = pre ++ le_bytes 1 CURRENT ++ (t ++ (version_bytes sysV ++ version_bytes patchV) ++ rest)) as Ef.
  { subst f pre. unfold doc_header, DocHeader_bytes. cbn [header_record magicNum blockSize pageSize version tag].
    by rewrite <- !app_assoc. }
  pose proof (sread_app pre (le_bytes 1 CURRENT) (t ++ (version_bytes sysV ++ version_bytes patchV) ++ rest)) as E.
  rewrite <- Ef in E. change (Zlen pre) with 13 in E. change (Zlen (le_bytes 1 CURRENT)) with 1 in E.
  unfold tellg, seekg. cbn [is_open negb ifile good eofbit failbit andb ipos].
  rewrite E. cbn [failbit is_open ifile]. rewrite s32_small by (pose proof (Zlen_nonneg f); lia). done.
Qed.

(** ** The writer's steps *)

Context (strcpy_s : bytes → Z → bytes → bool * bytes) (GetPageSize : Z → Z).
Hypothesis strcpy_s_len : ∀ d n s, length (strcpy_s d n s).2 = length d.

(** The size the block of an event announces, and the content written for it. *)
Definition block_size (d : bytes) : Z := le_value (take 4 d).
Definition content_of (d : bytes) (seq : Z) : bytes :=
  le_bytes 4 (block_size d - RAW_DATA_OFFSET + 16) ++ le_bytes 8 (u64 seq) ++
  take (Z.to_nat (block_size d - RAW_DATA_OFFSET)) (drop (Z.to_nat RAW_DATA_OFFSET) d) ++ le_bytes 4 0.

(** An event the writer can put on a page of [ps] bytes: its block is at least a
    header, is as long as it says and fits. *)
Definition storable (ps : Z) (e : StoredEvent) : Prop :=
  match se_raw e with
  | None => False
  | Some d => 85 <= block_size d <= Zlen d ∧ block_size d - RAW_DATA_OFFSET + 16 <= ps
  end.

Definition content (e : StoredEvent) : bytes := content_of (default [] (se_raw e)) (se_seq e).

Lemma content_of_len d seq :
  85 <= block_size d <= Zlen d → Zlen (content_of d seq) = block_size d - RAW_DATA_OFFSET + 16.
Proof.
  intros Hd. unfold content_of. change RAW_DATA_OFFSET with 54. rewrite !Zlen_app, !Zlen_le_bytes, Zlen_take by
    (rewrite Zlen_drop; lia). lia.
Qed.

Lemma content_is_ok ps e : ps <= 255 * 1024 → storable ps e → content_ok ps (content e).
Proof.
  unfold storable, content. destruct (se_raw e) as [d|]; [|done]. intros Hps [Hd Hfit]. change (default [] (Some d)) with d.
  unfold content_ok. rewrite content_of_len by done. change MIN_CONTENT_SIZE with 47.
  change RAW_DATA_OFFSET with 54 in *. split; [lia|]. by eexists.
Qed.

Lemma GetContentSize_storable ps e :
  ps <= 255 * 1024 → storable ps e → GetContentSize e = Done (DOC_STORE_SUCCESS, Zlen (content e)).
Proof.
  intros Hps Hs. unfold storable, GetContentSize, content in *. destruct (se_raw e) as [d|]; [|done].
  destruct Hs as [Hd Hfit]. change (default [] (Some d)) with d. rewrite content_of_len by done. unfold block_size in *.
  change RAW_DATA_OFFSET with 54 in *. unfold HIVIEW_BLOCK_SIZE, SEQ_SIZE, CRC_SIZE, MAX_NEW_SIZE.
  rewrite !(proj2 (Z.ltb_ge _ _)) by lia. rewrite gtb_false by lia. cbn [orb].
  rewrite u32_small by (unfold is_u; lia). f_equal. f_equal. lia.
Qed.

Lemma WriteContent_storable ps e :
  ps <= 255 * 1024 → storable ps e →
  WriteContent e (Zlen (content e)) = Done (DOC_STORE_SUCCESS, content e).
Proof.
  intros Hps Hs. unfold storable, WriteContent, content in *. destruct (se_raw e) as [d|]; [|done].
  destruct Hs as [Hd Hfit]. change (default [] (Some d)) with d. rewrite content_of_len by done. fold (block_size d).
  change RAW_DATA_OFFSET with 54 in *. rewrite u32_small by (unfold is_u; lia).
  rewrite (proj2 (Z.ltb_ge _ _)) by lia. unfold content_of. change RAW_DATA_OFFSET with 54.
  by rewrite <- app_assoc.
Qed.

(** The tag field the first event gives the document. *)
Definition tag_field (e : StoredEvent) : bytes :=
  if bool_decide (se_tag e = []) then replicate 17 0
  else (strcpy_s (replicate 17 0) MAX_TAG_LEN (se_tag e)).2.

Lemma tag_field_len e : length (tag_field e) = 17%nat.
Proof. unfold tag_field. case_bool_decide; [done|]. by rewrite strcpy_s_len. Qed.

Abbreviation write path e := (Write uninit sysV patchV strcpy_s GetPageSize path true (Some e)).
Abbreviation header_of e := (doc_header (GetPageSize (se_type e)) (tag_field e)).

Lemma layout_one ps c : Zlen c <= ps → 0 < ps → layout ps [c] = c.
Proof.
  intros Hc Hps. unfold layout, padding. cbn [foldl app]. change (Zlen (@nil Z)) with 0. rewrite Z.mod_0_l by lia.
  by rewrite (proj2 (Z.ltb_ge _ _)) by lia.
Qed.

Lemma Write_first path e :
  1 <= GetPageSize (se_type e) <= 255 → storable (GetPageSize (se_type e) * 1024) e →
  write path e [] = Done (DOC_STORE_SUCCESS, header_of e ++ layout (GetPageSize (se_type e) * 1024) [content e]).
Proof.
  intros Hkb Hs. set (kb := GetPageSize (se_type e)) in *. unfold Write, WriteOpened. cbn [negb].
  destruct (content_is_ok (kb * 1024) e ltac:(lia) Hs) as [Hc _]. change MIN_CONTENT_SIZE with 47 in Hc.
  rewrite (GetContentSize_storable (kb * 1024)) by (done || lia). cbn [obind].
  change (fileSize_ (DocReader_new path (Some []))) with 0. cbn [Z.ltb Z.eqb Z.compare].
  unfold WriteHeader. fold kb. rewrite (proj2 (Z.eqb_neq kb 0)) by lia.
  unfold NUM_OF_BYTES_IN_KB. rewrite (u32_small (kb * 1024)) by (unfold is_u; lia).
  rewrite gtb_false by lia. rewrite (WriteContent_storable (kb * 1024)) by (done || lia). cbn [obind app].
  rewrite layout_one by lia. do 3 f_equal. pose proof header_block_range as Hb.
  pose proof (Zlen_nonneg sysV). pose proof (Zlen_nonneg patchV).
  assert (Zlen sysV <= 1000 ∧ Zlen patchV <= 1000) as [Hs1 Hs2] by (split; [apply sys_ok|apply patch_ok]).
  rewrite !(u32_small (_ + 1)) by (unfold is_u; lia). unfold HEADER_BLOCK in Hb.
  rewrite u32_small by (unfold is_u; lia). rewrite u8_small by (unfold is_u; lia).
  unfold doc_header, version_bytes. rewrite <- !app_assoc. done.
Qed.

Lemma Write_next path e kb t cs :
  let ps := kb * 1024 in let f := doc_header kb t ++ layout ps cs in
  length t = 17%nat → 1 <= kb <= 255 → storable ps e → Zlen f < 2 ^ 31 →
  write path e f = Done (DOC_STORE_SUCCESS, doc_header kb t ++ layout ps (cs ++ [content e])).
Proof.
  intros ps f Ht Hkb Hs Hf. unfold Write, WriteOpened. cbn [negb]. pose proof header_block_range as Hb.
  destruct (content_is_ok ps e ltac:(lia) Hs) as [Hc _]. change MIN_CONTENT_SIZE with 47 in Hc.
  pose proof (Zlen_nonneg (layout ps cs)) as Hl.
  assert (Zlen f = HEADER_BLOCK + 8 + Zlen (layout ps cs)) as Hlen
    by (subst f; by rewrite Zlen_app, doc_header_len).
  rewrite (GetContentSize_storable ps) by (done || lia). cbn [obind].
  pose proof (DocReader_new_doc path kb t (layout ps cs) Hf) as En. fold f in En. rewrite En. cbn [fileSize_].
  rewrite (proj2 (Z.ltb_ge _ 0)) by lia. rewrite (proj2 (Z.eqb_neq _ 0)) by lia.
  rewrite (ReadHeader_doc _ kb t (layout ps cs) 0 DocHeader_new) by (done || lia). cbn [obind].
  cbn [header_record blockSize version headExtra_ sysVersion patchVersion fileSize_ pageSize_ info_].
  rewrite (bool_decide_false (sysV ≠ sysV)), (bool_decide_false (patchV ≠ patchV)) by (by intros []).
  change (negb (CURRENT =? CURRENT) || false || false) with false. cbn iota.
  unfold ReadPageSize. rewrite (ReadHeader_doc _ kb t (layout ps cs) (Zlen (doc_header kb t)) DocHeader_new)
    by (done || lia). cbn [obind header_record pageSize].
  change (kb * NUM_OF_BYTES_IN_KB) with ps. rewrite (proj2 (Z.eqb_neq ps 0)) by lia.
  rewrite (proj2 (Z.ltb_ge ps _)) by lia. cbn [orb].
  assert (GetCurrPageRemainSize (Zlen f) ps (u32 (HEADER_BLOCK + 8)) = ps - Zlen (layout ps cs) mod ps) as ->.
  { unfold GetCurrPageRemainSize. pose proof (Z.mod_pos_bound (Zlen (layout ps cs)) ps ltac:(lia)).
    rewrite (u32_small (Zlen f)), (u32_small (HEADER_BLOCK + 8)) by (unfold is_u; lia).
    replace (Zlen f - (HEADER_BLOCK + 8)) with (Zlen (layout ps cs)) by lia.
    rewrite (u32_small (Zlen _)) by (unfold is_u; lia). apply u32_small. unfold is_u. lia. }
  rewrite layout_snoc. fold f. unfold padding.
  pose proof (Z.mod_pos_bound (Zlen (layout ps cs)) ps ltac:(lia)) as Hm.
  destruct (ps - Zlen (layout ps cs) mod ps <? Zlen (content e)).
  - unfold FillCurrPageWithZero. rewrite (proj2 (Z.eqb_neq _ 0)) by lia.
    rewrite gtb_false by (unfold MAX_NEW_SIZE; lia).
    destruct (new_bytes_total (ps - Zlen (layout ps cs) mod ps)) as [b Eb]; [unfold MEM_MAX; lia|].
    rewrite Eb, (WriteContent_storable ps) by (done || lia). cbn [obind]. subst f. by rewrite <- !app_assoc.
  - rewrite (WriteContent_storable ps) by (done || lia). cbn [obind app]. subst f. by rewrite <- !app_assoc.
Qed.

(** One call of the writer per event; the statuses and the document. *)
Fixpoint write_all (path : bytes) (es : list StoredEvent) (f : bytes) : outcome (list DocRet * bytes) :=
  match es with
  | [] => Done ([], f)
  | e :: es =>
      obind (write path e f) (λ '(ret, f),
        obind (write_all path es f) (λ '(rets, f), Done (ret :: rets, f)))
  end.

Lemma layout_le ps cs1 cs2 : Zlen (layout ps cs1) <= Zlen (layout ps (cs1 ++ cs2)).
Proof. rewrite layout_app, Zlen_app. pose proof (Zlen_nonneg (laid_after ps (Zlen (layout ps cs1)) cs2)). lia. Qed.

Lemma write_all_next path kb t es : ∀ cs,
  let ps := kb * 1024 in
  length t = 17%nat → 1 <= kb <= 255 → Forall (storable ps) es →
  Zlen (doc_header kb t ++ layout ps (cs ++ (content <$> es))) < 2 ^ 31 →
  write_all path es (doc_header kb t ++ layout ps cs) =
    Done (replicate (length es) DOC_STORE_SUCCESS, doc_header kb t ++ layout ps (cs ++ (content <$> es))).
Proof.
  induction es as [|e es IH]; intros cs ps Ht Hkb Hes Hf; cbn [fmap list_fmap] in *.
  { cbn. by rewrite app_nil_r. }
  apply Forall_cons in Hes as [He Hes]. pose proof (layout_le ps cs (content e :: (content <$> es))) as Hle.
  rewrite Zlen_app in Hf. cbn [write_all].
  pose proof (Write_next path e kb t cs Ht Hkb He ltac:(fold ps; rewrite Zlen_app; lia)) as Ew.
  cbn zeta in Ew. fold ps in Ew. rewrite Ew.
  cbn [obind]. specialize (IH (cs ++ [content e])). cbn zeta in IH. fold ps in IH.
  rewrite <- app_assoc in IH. cbn [app] in IH.
  rewrite IH by (done || by rewrite Zlen_app). done.
Qed.

(** The document a sequence of events makes, by the first event's page size and tag. *)
Definition document (es : list StoredEvent) : bytes :=
  match es with
  | [] => []
  | e :: _ => header_of e ++ layout (GetPageSize (se_type e) * 1024) (content <$> es)
  end.

Lemma write_all_document path e es :
  let kb := GetPageSize (se_type e) in
  1 <= kb <= 255 → Forall (storable (kb * 1024)) (e :: es) → Zlen (document (e :: es)) < 2 ^ 31 →
  write_all path (e :: es) [] =
    Done (replicate (length (e :: es)) DOC_STORE_SUCCESS, document (e :: es)).
Proof.
  intros kb Hkb [He Hes]%Forall_cons Hf. cbn [write_all]. rewrite Write_first by done. cbn [obind]. fold kb.
  rewrite (write_all_next path kb (tag_field e) es [content e]); [done|apply tag_field_len|done|done|done].
Qed.

(** ** Reading it *)

Lemma InitEventInfo_tag path : ei_tag (InitEventInfo path) = [].
Proof.
  unfold InitEventInfo. repeat (case_match; try done).
Qed.

Definition with_tag (i : EventInfo) (t : bytes) : EventInfo :=
  mkEventInfo (ei_domain i) (ei_name i) (ei_level i) t (ei_seq i) (ei_timestamp i).

Lemma Read_document {S} path e es (cb : bytes → EventInfo * HeadExtraInfo * S → outcome (EventInfo * HeadExtraInfo * S))
    st fuel :
  let kb := GetPageSize (se_type e) in
  1 <= kb <= 255 → Forall (storable (kb * 1024)) (e :: es) → Zlen (document (e :: es)) < 2 ^ 30 →
  0 ∈ tag_field e → (2 * length (e :: es) < fuel)%nat →
  Read uninit fuel (DocReader_new path (Some (document (e :: es)))) cb st =
    obind (run_callback cb (content <$> e :: es)
             (with_tag (InitEventInfo path) (c_str (tag_field e)), mkHeadExtra sysV patchV, st))
      (λ '(_, _, st), Done (Some (DOC_STORE_SUCCESS, st))).
Proof.
  intros kb Hkb Hes Hf Hterm Hfuel. set (f := document (e :: es)) in *. pose proof (tag_field_len e) as Ht.
  set (cs := content <$> e :: es) in *. set (H := doc_header kb (tag_field e)).
  assert (Zlen f < 2 ^ 31) as Hf' by lia.
  pose proof (DocReader_new_doc path kb (tag_field e) (layout (kb * 1024) cs) Hf') as En.
  change (doc_header kb (tag_field e) ++ layout (kb * 1024) cs) with f in En.
  rewrite En. unfold Read. pose proof (ReadHeader_doc
    (mkDocReader (at_pos f 0) (Zlen f) 0 CURRENT 0 (mkHeadExtra [] []) (InitEventInfo path))
    kb (tag_field e) (layout (kb * 1024) cs) 0 DocHeader_new Ht ltac:(lia) eq_refl eq_refl eq_refl) as Eh.
  cbn zeta in Eh. rewrite Eh. clear Eh En. cbn [obind]. fold H.
  change (IsValidHeader uninit _ _) with true. cbn [negb info_ tag header_record pageSize headExtra_ docHeaderSize_
    fileSize_ in_]. rewrite InitEventInfo_tag. unfold terminated. rewrite !bool_decide_true by done. cbn [andb negb].
  change (kb * NUM_OF_BYTES_IN_KB) with (kb * 1024). rewrite (proj2 (Z.eqb_neq _ 0)) by lia.
  assert (f = H ++ [] ++ laid_after (kb * 1024) (Zlen (@nil Z)) cs) as Ef.
  { cbn [app]. pose proof (layout_app (kb * 1024) [] cs) as El. cbn [app] in El. subst f. unfold document.
    fold kb H cs. by rewrite El. }
  pose proof (read_layout H (kb * 1024) ltac:(lia) cb cs [] 0 fuel
    (with_tag (InitEventInfo path) (c_str (tag_field e)), mkHeadExtra sysV patchV, st)) as El.
  cbn zeta in El. rewrite <- Ef in El. change (Zlen (@nil Z)) with 0 in El. rewrite Z.add_0_r in El.
  change (H ++ layout (kb * 1024) cs) with f.
  unfold with_tag in El |- *. rewrite El.
  - rewrite obind_assoc. apply obind_ext. by intros [[? ?] ?].
  - subst cs. apply Forall_fmap. eapply Forall_impl; [exact Hes|]. intros x Hx. by apply content_is_ok; [lia|].
  - done.
  - split; lia.
  - subst cs. by rewrite length_fmap.
Qed.

(** ** Events and what a query gives back *)

(** An event as it is handed to the store. *)
Record Event := mkEvent {
  ev_header : HiSysEventHeader;
  ev_trace : TraceInfo;
  ev_params : list DecodedParam;
  ev_seq : Z
}.

Definition ev_block (v : Event) : bytes := event_block (ev_header v) (ev_trace v) (ev_params v).

(** The events share the tag, the type and what the path says. *)
Context (path evTag : bytes) (evType : Z) (D N level : bytes).
Hypothesis page_kb : 1 <= GetPageSize evType <= 255.
Hypothesis path_info : InitEventInfo path = mkEventInfo D N level [] 0 0.
Hypothesis names_ok : (0 ∈ D) ∧ (0 ∈ N) ∧ c_str D ≠ [] ∧ c_str N ≠ [] ∧ level ≠ [].
Hypothesis tag_ok : (0 ∉ evTag) ∧ Zlen evTag < MAX_TAG_LEN.
Hypothesis strcpy_s_copies : ∀ d n s,
  0 ∉ s → Zlen s < n <= Zlen d → strcpy_s d n s = (true, s ++ 0 :: drop (S (length s)) d).

Definition to_store (v : Event) : StoredEvent := mkStored (Some (ev_block v)) (ev_seq v) evTag evType.

Definition ev_extras (v : Event) : list DecodedParam := extras evTag level (ev_seq v).

(** An event this document can hold. *)
Definition event_ok (v : Event) : Prop :=
  let h := ev_header v in
  header_ok h ∧ trace_ok (ev_trace v) ∧ domain h = D ∧ name h = N ∧ timestamp h < 2 ^ 63 ∧
  0 <= ev_seq v < 2 ^ 63 ∧ params_ok (ev_params v ++ ev_extras v) ∧
  Zlen (event_block h (ev_trace v) (ev_params v ++ ev_extras v)) <= MAX_BLOCK_SIZE ∧
  Zlen (ev_block v) <= GetPageSize evType * 1024.

(** Whether a query is meant to accept the event: every condition holds of its
    own fields and parameters. *)
Definition accepts (q : DocQuery) (v : Event) : bool :=
  let h := ev_header v in
  forallb (IsContainInnerCond (mkInner (ev_seq v) (timestamp h) (timeZone h) (uid h) (pid h) (tid h)))
    (innerConds_ q) &&
  forallb (IsContainExtraCond (ev_params v ++ ev_extras v)) (extraConds_ q).

(** The entry carries the event: its number and time, the versions, and a block
    that decodes to it with the extra parameters. *)
Definition gives_back (v : Event) (en : Entry) : Prop :=
  en_id en = ev_seq v ∧ en_ts en = timestamp (ev_header v) ∧ en_sys en = sysV ∧ en_patch en = patchV ∧
  ∃ block, DecodedEvent_new (GetData (en_data en)) (GetDataLength (en_data en)) =
    Done (mkDecodedEvent (Some block) (Zlen block) (ev_header v)
            (opened_trace (ev_header v) (ev_trace v)) true (ev_params v ++ ev_extras v)).

Lemma block_size_of_block v : event_ok v → block_size (ev_block v) = Zlen (ev_block v) ∧ 89 <= Zlen (ev_block v).
Proof.
  intros (Hh & _ & _ & _ & _ & _ & _ & _ & Hfit). pose proof (Zlen_nonneg (params_bytes (ev_params v))).
  pose proof (Zlen_nonneg (trace_part (ev_header v) (ev_trace v))).
  unfold ev_block in *. assert (89 <= Zlen (event_block (ev_header v) (ev_trace v) (ev_params v))) as Hmin
    by (rewrite event_block_raw, raw_block_len by done; lia).
  split; [|done]. rewrite event_block_raw at 1. unfold block_size, raw_block.
  rewrite take_app_length' by (by rewrite length_le_bytes). apply le_value_bytes_small.
  change (8 * Z.of_nat 4) with 32. lia.
Qed.

Lemma event_storable v : event_ok v → storable (GetPageSize evType * 1024) (to_store v).
Proof.
  intros Hv. destruct (block_size_of_block v Hv) as [Hb Hm]. destruct Hv as (_ & _ & _ & _ & _ & _ & _ & _ & Hfit).
  unfold storable. cbn [to_store se_raw]. rewrite Hb. change RAW_DATA_OFFSET with 54. lia.
Qed.

(** The content of an event: size, number, and the block after domain and name. *)
Lemma content_kept v : event_ok v →
  ∃ front : bytes, content (to_store v) = front ++ kept_part (ev_header v) (ev_trace v) (ev_params v) ++ le_bytes 4 0 ∧
    front = le_bytes 4 (Zlen (content (to_store v))) ++ le_bytes 8 (ev_seq v).
Proof.
  intros Hv. destruct (block_size_of_block v Hv) as [Hb Hm]. pose proof Hv as ((Hd & Hn & _) & _ & _ & _ & _ & Hs & _ & _ & Hfit).
  pose proof (event_storable v Hv) as Hst. unfold content. cbn [to_store se_raw se_seq].
  change (default [] (Some (ev_block v))) with (ev_block v).
  assert (drop (Z.to_nat RAW_DATA_OFFSET) (ev_block v) = kept_part (ev_header v) (ev_trace v) (ev_params v)) as Ek.
  { unfold ev_block. rewrite event_block_raw. unfold raw_block, kept_part. rewrite header_bytes_tail, <- !app_assoc.
    rewrite (app_assoc (le_bytes 4 _)), (app_assoc (_ ++ domain _)). apply drop_app_length'.
    rewrite !length_app, length_le_bytes, Hd, Hn. done. }
  eexists; split; [|done]. rewrite content_of_len by lia. unfold content_of. rewrite Hb, Ek, <- app_assoc.
  rewrite u64_small by (unfold is_u; lia). do 2 f_equal. rewrite take_ge; [done|].
  rewrite <- Ek, length_drop. unfold Zlen. lia.
Qed.

Definition inner_of (v : Event) : InnerField :=
  let h := ev_header v in
  mkInner (ev_seq v) (timestamp h) (timeZone h) (uid h) (pid h) (tid h).

Lemma s64_of_seq z : 0 <= z < 2 ^ 63 → s64 z = z.
Proof. intros Hz. apply sgn_small; [done|]. unfold is_s. lia. Qed.

Lemma content_fields v : event_ok v → InnerField_of (content (to_store v)) = inner_of v.
Proof.
  intros Hv. destruct (content_kept v Hv) as (front & Ec & Ef).
  pose proof Hv as (Hh & _ & _ & _ & _ & Hs & _). destruct Hh as (_ & _ & Hts & Htz & Hu & Hp & Ht & _).
  unfold InnerField_of, inner_of. rewrite Ec, Ef. unfold kept_part, header_tail. rewrite <- !app_assoc.
  set (a := le_bytes 4 (Zlen _)). set (b := le_bytes 8 (ev_seq v)). set (c := le_bytes 8 (timestamp _)).
  set (d := le_bytes 1 (timeZone _)). set (e := le_bytes 4 (uid _)). set (g := le_bytes 4 (pid _)).
  f_equal.
  - rewrite (field_at_app a 8 (ev_seq v)) by (done || (change (8 * Z.of_nat 8) with 64; lia)).
    by apply s64_of_seq.
  - rewrite (app_assoc a). by apply (field_at_app (a ++ b) 8).
  - rewrite (app_assoc a), (app_assoc (a ++ b)). by apply (field_at_app ((a ++ b) ++ c) 1).
  - rewrite (app_assoc a), (app_assoc (a ++ b)), (app_assoc ((a ++ b) ++ c)).
    by apply (field_at_app (((a ++ b) ++ c) ++ d) 4).
  - rewrite (app_assoc a), (app_assoc (a ++ b)), (app_assoc ((a ++ b) ++ c)), (app_assoc (((a ++ b) ++ c) ++ d)).
    by apply (field_at_app ((((a ++ b) ++ c) ++ d) ++ e) 4).
  - rewrite (app_assoc a), (app_assoc (a ++ b)), (app_assoc ((a ++ b) ++ c)), (app_assoc (((a ++ b) ++ c) ++ d)),
      (app_assoc ((((a ++ b) ++ c) ++ d) ++ e)).
    by apply (field_at_app (((((a ++ b) ++ c) ++ d) ++ e) ++ g) 4).
Qed.

(** The reader's information about the document, whatever event came last. *)
Definition doc_info (i : EventInfo) : Prop :=
  ei_domain i = D ∧ ei_name i = N ∧ ei_level i = level ∧ ei_tag i = evTag.

Lemma CheckEventInfo_ok i v :
  doc_info i → event_ok v →
  CheckEventInfo i (content (to_store v)) =
    Done (true, mkEventInfo D N level evTag (ev_seq v) (timestamp (ev_header v))).
Proof.
  intros (Hd & Hn & Hl & Ht) Hv. pose proof (content_fields v Hv) as Ef.
  injection Ef as Eseq Ets _ _ _ _. pose proof Hv as (Hh & _ & _ & _ & Hts & Hs & _).
  destruct Hh as (_ & _ & [Hts0 _] & _). destruct names_ok as (H1 & H2 & H3 & H4 & H5).
  unfold CheckEventInfo, terminated. rewrite Hd, Hn, Hl, Ht.
  rewrite (bool_decide_true (0 ∈ D)), (bool_decide_true (0 ∈ N)) by done. cbn [negb].
  rewrite !bool_decide_false by done. cbn [orb]. rewrite Eseq, Ets.
  rewrite s64_of_seq by lia. by rewrite !(proj2 (Z.ltb_ge _ 0)) by lia.
Qed.

(** The block rebuilt for an event decodes to it. *)
Lemma rebuilt_block i v :
  doc_info i → event_ok v → ei_seq i = ev_seq v →
  ∃ r, ReadRawData (ContentReaderVersion4 uninit) i (content (to_store v)) (Zlen (content (to_store v))) = Some r ∧
    DecodedEvent_new (GetData r) (GetDataLength r) =
      Done (mkDecodedEvent (Some (contents r)) (Zlen (contents r)) (ev_header v)
        (opened_trace (ev_header v) (ev_trace v)) true (ev_params v ++ ev_extras v)).
Proof.
  intros (Hd & Hn & Hl & Ht) Hv Hseq. destruct (content_kept v Hv) as (front & Ec & Ef).
  pose proof Hv as (Hh & Htr & Edom & Ename & _ & Hs & Hps & Hsize & _). destruct (Hps) as [_ Hcnt].
  rewrite Zlen_app in Hcnt. pose proof (Zlen_nonneg (ev_extras v)).
  destruct (ReadRawData_spec uninit i front (le_bytes 4 0) (ev_header v) (ev_trace v) (ev_params v))
    as (r & Er & Hu & Hc); [by rewrite Ef, Zlen_app, !Zlen_le_bytes|done|congruence|congruence|done
      |unfold MAX_PARAM_CNT in *; lia|done|done|rewrite Hseq; unfold is_s; lia|by rewrite Hl, Ht, Hseq|].
  rewrite <- Ec in Er. rewrite Hl, Ht, Hseq in Hc. fold (ev_extras v) in Hc.
  exists r. split; [done|]. destruct (data_contents r Hu) as [junk Ej]. rewrite Ej.
  unfold GetDataLength. rewrite (usable_len r Hu), Hc. by apply DecodedEvent_new_spec.
Qed.

Lemma TryToAddEntry_ok q i v es :
  doc_info i → event_ok v →
  ∃ en i', gives_back v en ∧ doc_info i' ∧
    TryToAddEntry (ContentReaderVersion4 uninit) q (content (to_store v)) (i, mkHeadExtra sysV patchV, es) =
      Done (i', mkHeadExtra sysV patchV, es ++ (if accepts q v then [en] else [])).
Proof.
  intros Hi Hv. set (i' := mkEventInfo D N level evTag (ev_seq v) (timestamp (ev_header v))).
  assert (doc_info i') as Hi' by done.
  destruct (rebuilt_block i' v Hi' Hv eq_refl) as (r & Er & Ed).
  exists (mkEntry (ev_seq v) (timestamp (ev_header v)) r sysV patchV), i'.
  split_and!; [|done|]. { unfold gives_back. cbn. split_and!; eauto. }
  unfold TryToAddEntry. rewrite CheckEventInfo_ok by done. cbn [obind negb orb]. fold i'.
  unfold IsContainInnerConds. rewrite content_fields by done. unfold inner_of, accepts.
  set (inner := forallb _ (innerConds_ q)).
  replace (match innerConds_ q with [] => true | _ => inner end) with inner
    by (subst inner; by destruct (innerConds_ q)).
  destruct inner; cbn [negb andb]; [|by rewrite app_nil_r].
  rewrite Er. unfold IsContainExtraConds. rewrite Ed.
  destruct (extraConds_ q) as [|c cs]; [done|]. cbn [obind DecodedEvent.allParams_].
  destruct (forallb _ (c :: cs)); [done|by rewrite app_nil_r].
Qed.

Lemma visit_entries q vs : ∀ i es,
  doc_info i → Forall event_ok vs →
  ∃ i' ens, run_callback (TryToAddEntry (ContentReaderVersion4 uninit) q) (content <$> (to_store <$> vs))
      (i, mkHeadExtra sysV patchV, es) = Done (i', mkHeadExtra sysV patchV, es ++ ens) ∧
    Forall2 gives_back (filter (λ v, accepts q v) vs) ens.
Proof.
  induction vs as [|v vs IH]; intros i es Hi Hvs.
  { exists i, []. rewrite app_nil_r. split; [done|constructor]. }
  apply Forall_cons in Hvs as [Hv Hvs]. cbn [fmap list_fmap run_callback].
  destruct (TryToAddEntry_ok q i v es Hi Hv) as (en & i1 & Hg & Hi1 & ->). cbn [obind].
  destruct (IH i1 (es ++ if accepts q v then [en] else []) Hi1 Hvs) as (i2 & ens & E & HF). rewrite E.
  exists i2, ((if accepts q v then [en] else []) ++ ens). rewrite app_assoc. split; [done|].
  rewrite filter_cons. destruct (accepts q v); cbn; [by constructor|done].
Qed.

Lemma tag_field_event v : 0 ∈ tag_field (to_store v) ∧ c_str (tag_field (to_store v)) = evTag.
Proof.
  destruct tag_ok as [Hn Hl]. unfold tag_field. cbn [to_store se_tag]. case_bool_decide as Et.
  { rewrite Et. split; [|done]. apply list_elem_of_here. }
  rewrite strcpy_s_copies by (done || (split; [done|by vm_compute])). cbn [snd]. split.
  - apply elem_of_app. right. apply list_elem_of_here.
  - by apply c_str_terminated.
Qed.

(** The document the events make stays below a gigabyte. *)
Definition small_document (vs : list Event) : Prop := Zlen (document (to_store <$> vs)) < 2 ^ 30.

Lemma written_and_read {S} v vs (cb : bytes → EventInfo * HeadExtraInfo * S → outcome (EventInfo * HeadExtraInfo * S))
    st fuel :
  Forall event_ok (v :: vs) → small_document (v :: vs) → (2 * length (v :: vs) < fuel)%nat →
  ∃ f, write_all path (to_store <$> v :: vs) [] = Done (replicate (length (v :: vs)) DOC_STORE_SUCCESS, f) ∧
    dataFmtVersion_ (DocReader_new path (Some f)) = CURRENT ∧
    Read uninit fuel (DocReader_new path (Some f)) cb st =
      obind (run_callback cb (content <$> (to_store <$> v :: vs))
               (mkEventInfo D N level evTag 0 0, mkHeadExtra sysV patchV, st))
        (λ '(_, _, st), Done (Some (DOC_STORE_SUCCESS, st))).
Proof.
  intros Hvs Hf Hfuel. exists (document (to_store <$> v :: vs)).
  assert (Forall (storable (GetPageSize evType * 1024)) (to_store <$> v :: vs)) as Hst
    by (apply Forall_fmap; eapply Forall_impl; [exact Hvs|]; apply event_storable).
  unfold small_document in Hf. cbn [fmap list_fmap] in *. split_and!.
  - rewrite write_all_document by (done || lia). cbn [length]. by rewrite length_fmap.
  - unfold document in *. by rewrite DocReader_new_doc by lia.
  - destruct (tag_field_event v) as [Ht1 Ht2].
    rewrite Read_document by (done || (cbn [length] in *; rewrite length_fmap; lia)).
    rewrite path_info, Ht2. done.
Qed.

(** C3: events written one after the other to an empty document are all accepted
    by [Write], padding and page boundaries included, and reading the document
    with any query returns exactly the events every condition of the query holds
    of, in the order they were written: each entry carries the event's sequence
    number and time, the versions of the header, and a block that decodes to the
    event's header, trace and parameters followed by tag, level and sequence. *)
Theorem written_events_read_back q v vs fuel :
  Forall event_ok (v :: vs) → small_document (v :: vs) → (2 * length (v :: vs) < fuel)%nat →
  ∃ f ens,
    write_all path (to_store <$> v :: vs) [] = Done (replicate (length (v :: vs)) DOC_STORE_SUCCESS, f) ∧
    ReadQuery uninit fuel (DocReader_new path (Some f)) q = Done (Some (DOC_STORE_SUCCESS, ens)) ∧
    Forall2 gives_back (filter (λ v, accepts q v) (v :: vs)) ens.
Proof.
  intros Hvs Hf Hfuel.
  destruct (written_and_read v vs (TryToAddEntry (ContentReaderVersion4 uninit) q) [] fuel Hvs Hf Hfuel)
    as (f & Ew & Ev & Er).
  destruct (visit_entries q (v :: vs) (mkEventInfo D N level evTag 0 0) []) as (i' & ens & Ei & HF); [done|done|].
  exists f, ens. split_and!; [done| |done]. unfold ReadQuery. rewrite Ev.
  change (GetReader uninit CURRENT) with (Some (ContentReaderVersion4 uninit)). cbn iota.
  rewrite Er, Ei. done.
Qed.

Lemma visit_max vs : ∀ i x m,
  Forall event_ok vs →
  ∃ i', run_callback MaxSeqCallback (content <$> (to_store <$> vs)) (i, x, m) =
    Done (i', x, foldl Z.max m (ev_seq <$> vs)).
Proof.
  induction vs as [|v vs IH]; intros i x m Hvs; [by eexists|].
  apply Forall_cons in Hvs as [Hv Hvs]. cbn [fmap list_fmap run_callback foldl].
  pose proof (content_fields v Hv) as Ef. injection Ef as Eseq _ _ _ _ _.
  destruct (content_is_ok (GetPageSize evType * 1024) (to_store v) ltac:(lia) (event_storable v Hv)) as [Hc _]. change MIN_CONTENT_SIZE with 47 in Hc.
  unfold MaxSeqCallback at 1. rewrite (proj2 (Z.ltb_ge _ _)) by (unfold HIVIEW_BLOCK_SIZE; lia).
  rewrite Eseq. cbn [obind]. destruct (IH i x (if m <? ev_seq v then ev_seq v else m) Hvs) as [i' E].
  rewrite E. exists i'. do 3 f_equal. destruct (Z.ltb_spec m (ev_seq v)); lia.
Qed.

(** the largest sequence number [ReadMaxEventSequence] finds in a document is
    the largest of the events written to it, so numbering can go on from there
    after a restart. *)
Theorem max_sequence_found v vs fuel :
  Forall event_ok (v :: vs) → small_document (v :: vs) → (2 * length (v :: vs) < fuel)%nat →
  ∃ f, write_all path (to_store <$> v :: vs) [] = Done (replicate (length (v :: vs)) DOC_STORE_SUCCESS, f) ∧
    ReadMaxEventSequence uninit fuel (DocReader_new path (Some f)) =
      Done (Some (foldl Z.max 0 (ev_seq <$> v :: vs))).
Proof.
  intros Hvs Hf Hfuel. destruct (written_and_read v vs MaxSeqCallback 0 fuel Hvs Hf Hfuel) as (f & Ew & _ & Er).
  destruct (visit_max (v :: vs) (mkEventInfo D N level evTag 0 0) (mkHeadExtra sysV patchV) 0 Hvs) as [i' Ei].
  exists f. split; [done|]. unfold ReadMaxEventSequence. by rewrite Er, Ei.
Qed.

End Header.

(** ** Concrete documents *)

Definition sample_uninit (n : Z) : bytes := replicate (Z.to_nat n) 170.

Lemma sample_uninit_len n : 0 <= n → Zlen (sample_uninit n) = n.
Proof. apply Zlen_replicate. Qed.

(** A [strcpy_s] that copies when the text and its terminator fit. *)
Definition ref_strcpy_s (d : bytes) (n : Z) (s : bytes) : bool * bytes :=
  if (Zlen s <? n) && (n <=? Zlen d) then (true, s ++ 0 :: drop (S (length s)) d) else (false, d).

Lemma ref_strcpy_s_len d n s : length (ref_strcpy_s d n s).2 = length d.
Proof.
  unfold ref_strcpy_s. destruct (Z.ltb_spec (Zlen s) n), (Z.leb_spec n (Zlen d)); cbn [andb snd]; try done.
  rewrite length_app. cbn [length]. rewrite length_drop. unfold Zlen in *. lia.
Qed.

Lemma ref_strcpy_s_copies d n s :
  0 ∉ s → Zlen s < n <= Zlen d → ref_strcpy_s d n s = (true, s ++ 0 :: drop (S (length s)) d).
Proof.
  intros _ Hn. unfold ref_strcpy_s. rewrite (proj2 (Z.ltb_lt _ _)), (proj2 (Z.leb_le _ _)) by lia. done.
Qed.

Definition sample_domain : bytes := str "DOM" ++ replicate 14 0.
Definition sample_name : bytes := str "NAME" ++ replicate 29 0.
Definition sample_path : bytes := str "/data/DOM/NAME-1-MINOR-1-0.db".

Definition sample_event (size : nat) (seq uid : Z) : Event :=
  mkEvent (mkHeader sample_domain sample_name 1234 3 uid 8 9 10 1 0 5) traceInfo_init
    [mkDecodedParam (str "MSG") (PString (replicate size 65))] seq.

Abbreviation sample_ok :=
  (event_ok (λ _, 1) (str "mytag") 1 sample_domain sample_name (str "MINOR")).

Definition sample_events : list Event :=
  [sample_event 300 4 1000; sample_event 400 7 2000; sample_event 500 9 1000; sample_event 10 12 1000].

Lemma sample_header_ok u : is_u 32 u → header_ok (mkHeader sample_domain sample_name 1234 3 u 8 9 10 1 0 5).
Proof. intros Hu. unfold header_ok. cbn. split_and!; try done; by vm_compute. Qed.

Lemma sample_event_ok size seq u :
  (size <= 512)%nat → 0 <= seq < 2 ^ 63 → is_u 32 u →
  Zlen (event_block (ev_header (sample_event size seq u)) traceInfo_init
    (ev_params (sample_event size seq u) ++ ev_extras (str "mytag") (str "MINOR") (sample_event size seq u))) <= 1024 →
  Zlen (ev_block (sample_event size seq u)) <= 1024 →
  sample_ok (sample_event size seq u).
Proof.
  intros Hs Hq Hu Hlen Hb. unfold event_ok. split.
  { by apply sample_header_ok. }
  split; [apply traceInfo_init_ok|]. split; [done|]. split; [done|]. split; [done|]. split; [done|]. split.
  { split; [|done]. repeat apply Forall_cons_2; [done..| |constructor]. cbn. unfold is_s. lia. }
  split; [|exact Hb]. etrans; [exact Hlen|done].
Qed.

Lemma sample_events_ok : Forall sample_ok sample_events.
Proof.
  repeat apply Forall_cons_2; [apply sample_event_ok; [lia|lia|by vm_compute..]..|constructor].
Qed.

Definition sample_query : DocQuery :=
  DocQuery_And DocQuery_new (mkCond EventCol_UID EQ (VNumber (FInt 1000)) []).

Lemma written_events_read_back_witness :
  ∃ f ens, ReadQuery sample_uninit 100 (DocReader_new sample_path (Some f)) sample_query =
      Done (Some (DOC_STORE_SUCCESS, ens)) ∧ (en_id <$> ens) = [4; 9; 12].
Proof.
  destruct (written_events_read_back sample_uninit (str "5.0") (str "p1") sample_uninit_len
    ltac:(split; [by apply (bool_decide_unpack _); vm_compute|by vm_compute])
    ltac:(split; [by apply (bool_decide_unpack _); vm_compute|by vm_compute])
    ref_strcpy_s (λ _, 1) ref_strcpy_s_len sample_path (str "mytag") 1 sample_domain sample_name (str "MINOR")
    ltac:(lia) ltac:(by vm_compute)
    ltac:(split_and!; try done; apply (bool_decide_unpack _); by vm_compute)
    ltac:(split; [by apply (bool_decide_unpack _); vm_compute|by vm_compute])
    ref_strcpy_s_copies sample_query _ _ 100%nat sample_events_ok ltac:(by vm_compute) ltac:(cbn; lia))
    as (f & ens & _ & Er & HF).
  exists f, ens. split; [exact Er|].
  assert (filter (λ v, accepts (str "mytag") (str "MINOR") sample_query v) sample_events =
    [sample_event 300 4 1000; sample_event 500 9 1000; sample_event 10 12 1000]) as Ef by (by vm_compute).
  unfold sample_events in Ef. rewrite Ef in HF.
  inversion HF as [|? e1 ? ? [H1 _] HF1]; subst. inversion HF1 as [|? e2 ? ? [H2 _] HF2]; subst.
  inversion HF2 as [|? e3 ? ? [H3 _] HF3]; subst. inversion HF3; subst. cbn. by rewrite H1, H2, H3.
Defined.

Lemma max_sequence_found_witness :
  ∃ f, ReadMaxEventSequence sample_uninit 100 (DocReader_new sample_path (Some f)) = Done (Some 12).
Proof.
  destruct (max_sequence_found sample_uninit (str "5.0") (str "p1") sample_uninit_len
    ltac:(split; [by apply (bool_decide_unpack _); vm_compute|by vm_compute])
    ltac:(split; [by apply (bool_decide_unpack _); vm_compute|by vm_compute])
    ref_strcpy_s (λ _, 1) ref_strcpy_s_len sample_path (str "mytag") 1 sample_domain sample_name (str "MINOR")
    ltac:(lia) ltac:(by vm_compute)
    ltac:(split; [by apply (bool_decide_unpack _); vm_compute|by vm_compute])
    ref_strcpy_s_copies _ _ 100%nat sample_events_ok ltac:(by vm_compute) ltac:(cbn; lia))
    as (f & _ & Er).
  exists f. exact Er.
Defined.

(** ** A header that contradicts itself *)

(** A document whose header says "no pages" and gives a block size smaller than
    the versions that follow it take, then a content. *)
Definition short_block_document : bytes :=
  DocHeader_bytes (mkDocHeader MAGIC_NUM 23 0 CURRENT (replicate 17 0)) ++
  version_bytes (str "5.0") ++ version_bytes (str "p1") ++ le_bytes 4 60 ++ replicate 56 1.

(** A document with page size 0 whose block size is smaller than its header
    makes the reader divide by zero: [HasReadPageEnd] takes the position modulo
    the page size without looking at it. *)
Theorem short_block_divides_by_zero q :
  ReadQuery sample_uninit 10 (DocReader_new sample_path (Some short_block_document)) q =
    Undefined UB_DivByZero.
Proof. unfold ReadQuery. by vm_compute. Qed.
