(* ===== verification/Database.v ===== *)
(** * Database: queries over the documents and their clean-up

    Models base/event_store/store/sys_event_database.cpp ([Query], [Clear] and what
    they call), [SysEventQuery::Execute] of base/event_store/dao/sys_event_query.cpp
    and the getters of base/event_store/config/src/event_store_config.cpp.  A
    document is read with the reader of [DocStore]; directories, file contents,
    sizes and the outcome of a removal are parameters. *)

From S2P Require Import Prelude Text FloatText Platform RawData Encoder.
From S2P Require Import Decoder Params EventHeader DecodedEvent Query DbFile DocStore DocClaims.
From stdpp Require Import base gmap list numbers strings sorting.

Local Open Scope Z_scope.

Module Database.
Import Query DbFile DocStore.

(** ** Sorting *)

(** [std::sort], and the order in which a filled [std::priority_queue] is emptied:
    the greatest element under the comparison first.  Elements neither of which is
    before the other come in any order. *)
Definition key_order {A} (less : A → A → bool) : Prop := ∃ key : A → Z, ∀ x y, less x y = (key x <? key y).

Class Sorter := {
  std_sort {A} : (A → A → bool) → list A → list A;
  drain {A} : (A → A → bool) → list A → list A;
  sort_perm {A} (less : A → A → bool) l : std_sort less l ≡ₚ l;
  drain_perm {A} (less : A → A → bool) l : drain less l ≡ₚ l;
  sort_sorted {A} (less : A → A → bool) l : key_order less → StronglySorted (λ x y, less y x = false) (std_sort less l);
  drain_sorted {A} (less : A → A → bool) l : key_order less → StronglySorted (λ x y, less x y = false) (drain less l)
}.

(** ** Store configuration *)

Record StoreConfig := mkConfig { storeDay : Z; pageSize : Z; maxFileSize : Z; maxFileNum : Z; maxSize : Z }.

Section Config.
Context (configMap_ : gmap Z StoreConfig).

Definition Contain (eventType : Z) : bool := bool_decide (is_Some (configMap_ !! eventType)).
Definition GetStoreDay (eventType : Z) : Z := default 0 (storeDay <$> configMap_ !! eventType).
Definition Config_GetMaxSize (eventType : Z) : Z := default 0 (maxSize <$> configMap_ !! eventType).
Definition Config_GetMaxFileNum (eventType : Z) : Z := default 0 (maxFileNum <$> configMap_ !! eventType).
Definition Config_GetPageSize (eventType : Z) : Z := default 0 (pageSize <$> configMap_ !! eventType).
Definition GetMaxFileSize (eventType : Z) : Z := default 0 (maxFileSize <$> configMap_ !! eventType).

End Config.

Section Db.
Context `{HP : Heap} `{SC : Securec} `{SO : Sorter}.
Context (uninit : Z → bytes).
Context (ExtractFileName : bytes → bytes).

(** The database directory, the directories in it, the files of a directory, their
    contents and sizes. *)
Context (databaseDir : bytes) (GetDirDirs : list bytes) (IsDirectory : bytes → bool).
Context (GetDirFiles : bytes → list bytes) (contents : bytes → option bytes).

(** ** Which documents a query opens *)

Definition INVALID_VALUE_INT : Z := -1.
Definition DEFAULT_REPORT_INTERVAL : Z := -1.

Record SysEventQueryArg := mkArg {
  a_domain : bytes;
  a_names : list bytes;
  a_type : Z;
  a_toSeq : Z;
  a_fromSeq : Z;
  a_reportInterval : Z
}.

Definition SysEventQueryArg_new : SysEventQueryArg :=
  mkArg [] [] 0 INVALID_VALUE_INT INVALID_VALUE_INT DEFAULT_REPORT_INTERVAL.

Definition GetFileSeq (file : bytes) : Z :=
  let '(ok, eventInfo) := ParseEventInfoFromDbFileName (ExtractFileName file) SplitedEventInfo_new SEQ_ONLY in
  if ok then i_seq eventInfo else 0.

Definition GetFileDomain (file : bytes) : bytes :=
  let dirNames := SplitStr file (str "/") in
  if bool_decide (length dirNames < 2)%nat then [] else default [] (dirNames !! (length dirNames - 2)%nat).

Definition CompareFileLessFunc (fileA fileB : bytes) : bool := GetFileSeq fileA <? GetFileSeq fileB.
Definition CompareFileGreaterFunc (fileA fileB : bytes) : bool := GetFileSeq fileA >? GetFileSeq fileB.

Definition QUERY_PARTS : Z := Z.lor NAME_ONLY (Z.lor TYPE_ONLY (Z.lor SEQ_ONLY REPORT_INTERVAL_ONLY)).

(** The answer, and [nameSeqMap]. *)
Definition IsContainQueryArg (file : bytes) (queryArg : SysEventQueryArg) (nameSeqMap : gmap bytes Z)
    : bool * gmap bytes Z :=
  if bool_decide (a_names queryArg = []) && (a_type queryArg =? 0) && (a_toSeq queryArg =? INVALID_VALUE_INT)
  then (true, nameSeqMap) else
  let '(ok, eventInfo) := ParseEventInfoFromDbFileName (last_part file) SplitedEventInfo_new QUERY_PARTS in
  if negb ok then (false, nameSeqMap) else
  let eventName := i_name eventInfo in
  if match nameSeqMap !! eventName with Some seq => seq <=? a_fromSeq queryArg | None => false end
  then (false, nameSeqMap) else
  let nameSeqMap := <[eventName := i_seq eventInfo]> nameSeqMap in
  (if bool_decide (a_names queryArg ≠ []) && negb (existsb (λ item, bool_decide (item = eventName)) (a_names queryArg))
   then false
   else if negb (a_type queryArg =? 0) && negb (i_type eventInfo =? a_type queryArg) then false
   else if negb (a_toSeq queryArg =? INVALID_VALUE_INT) && (i_seq eventInfo >=? a_toSeq queryArg) then false
   else if negb (a_reportInterval queryArg =? DEFAULT_REPORT_INTERVAL) &&
           negb (i_reportInterval eventInfo =? NOT_CFG_REPORT_INTERVAL) &&
           negb (a_reportInterval queryArg =? i_reportInterval eventInfo) then false
   else true, nameSeqMap).

Definition GetQueryDirsByDomain (domain : bytes) : list bytes :=
  if bool_decide (domain = []) then GetDirDirs
  else let domainDir := databaseDir ++ domain in
       if IsDirectory domainDir then [domainDir ++ str "/"] else [].

Fixpoint query_dir_files (queryArg : SysEventQueryArg) (files : list bytes) (nameSeqMap : gmap bytes Z) : list bytes :=
  match files with
  | [] => []
  | file :: files =>
      let '(ok, nameSeqMap) := IsContainQueryArg file queryArg nameSeqMap in
      (if ok : bool then [file] else []) ++ query_dir_files queryArg files nameSeqMap
  end.

(** The files put in the queue. *)
Definition GetQueryFiles (queryArg : SysEventQueryArg) : list bytes :=
  concat ((λ queryDir, query_dir_files queryArg (std_sort CompareFileGreaterFunc (GetDirFiles queryDir)) ∅) <$>
          GetQueryDirsByDomain (a_domain queryArg)).

(** ** Reading them *)

(** [SysEventDoc::Query] of a document of this path, on the reader's fuel. *)
Definition doc_Query (fuel : nat) (file : bytes) (query : DocQuery) : outcome (option (DocRet * list Entry)) :=
  match contents file with
  | None => Done (Some (DOC_STORE_ERROR_IO, []))
  | Some data =>
      if bool_decide (file = []) then Done (Some (DOC_STORE_ERROR_IO, []))
      else ReadQuery uninit fuel (DocReader_new file (Some data)) query
  end.

Record SysEventQuery := mkQuery {
  limit_ : Z;
  orderCol_ : bytes * bool;
  cond_ : Cond;
  queryArg_ : SysEventQueryArg
}.

Definition BuildDocQuery (q : SysEventQuery) : DocQuery := Traval DocQuery_new (cond_ q).

Definition set_toSeq (seq : Z) (q : SysEventQuery) : SysEventQuery :=
  let a := queryArg_ q in
  mkQuery (limit_ q) (orderCol_ q) (cond_ q)
    (mkArg (a_domain a) (a_names a) (a_type a) seq (a_fromSeq a) (a_reportInterval a)).

(** The loop of [QueryByFiles] over the files in the order they leave the queue;
    [None] is out of fuel. *)
Fixpoint QueryByFiles (fuel : nat) (docQuery : DocQuery) (q : SysEventQuery) (files : list bytes)
    (entries : list Entry) (totalNum : Z) : outcome (option (list Entry * SysEventQuery)) :=
  match files with
  | [] => Done (Some (entries, q))
  | file :: files =>
      obind (doc_Query fuel file docQuery) (λ r,
      match r with
      | None => Done None
      | Some (res, found) =>
          let entries := entries ++ found in
          let totalNum := totalNum + Zlen found in
          match res with
          | DOC_STORE_SUCCESS =>
              if totalNum >=? limit_ q then Done (Some (entries, set_toSeq (GetFileSeq file) q))
              else QueryByFiles fuel docQuery q files entries totalNum
          | _ => QueryByFiles fuel docQuery q files entries totalNum
          end
      end)
  end.

Definition Query (fuel : nat) (q : SysEventQuery) : outcome (option (list Entry * SysEventQuery)) :=
  match drain CompareFileLessFunc (GetQueryFiles (queryArg_ q)) with
  | [] => Done (Some ([], q))
  | files => QueryByFiles fuel (BuildDocQuery q) q files [] 0
  end.

Definition CreateCompareFunc (q : SysEventQuery) : Entry → Entry → bool :=
  if bool_decide ((orderCol_ q).1 = EventCol_TS) then
    if (orderCol_ q).2 then λ a b, en_ts a >? en_ts b else λ a b, en_ts a <? en_ts b
  else
    if (orderCol_ q).2 then λ a b, en_id a >? en_id b else λ a b, en_id a <? en_id b.

(** The loop that empties the queue into the result: [resultNum] counts down and
    the loop runs while it is not negative. *)
Fixpoint take_entries (entries : list Entry) (resultNum : Z) : list Entry :=
  match entries with
  | [] => []
  | entry :: entries => if resultNum >=? 0 then entry :: take_entries entries (resultNum - 1) else []
  end.

(** [Execute]: the records of the result set, whether it has one, and the query. *)
Definition Execute (fuel : nat) (limit : Z) (isInnerQuery : bool) (q : SysEventQuery)
    : outcome (option (list Entry * bool * SysEventQuery)) :=
  let q := mkQuery limit (orderCol_ q) (cond_ q) (queryArg_ q) in
  obind (Query fuel q) (λ r,
  match r with
  | None => Done None
  | Some ([], q) => Done (Some ([], false, q))
  | Some (entries, q) =>
      let resultNum := s32 (Zlen entries) in
      let resultNum := if (resultNum >? limit) && isInnerQuery then limit else resultNum in
      Done (Some (take_entries (drain (CreateCompareFunc q) entries) resultNum, true, q))
  end).

(** ** Completeness of a query *)

Definition file_info (file : bytes) : option SplitedEventInfo :=
  let '(ok, info) := ParseEventInfoFromDbFileName (last_part file) SplitedEventInfo_new QUERY_PARTS in
  if ok then Some info else None.

(** The number by which files are sorted is the one the query sees. *)
Lemma file_info_seq file info :
  file_info file = Some info → ExtractFileName file = last_part file → GetFileSeq file = i_seq info ∧ 0 < i_seq info.
Proof.
  unfold file_info, GetFileSeq. intros H ->. revert H. unfold ParseEventInfoFromDbFileName.
  set (l := SplitStr (last_part file) (str "-")). clearbody l.
  assert (∀ b, ParseVer1DbFileName l SplitedEventInfo_new QUERY_PARTS = (true, b) →
    ParseVer1DbFileName l SplitedEventInfo_new SEQ_ONLY = (true, mkInfo [] 0 [] (i_seq b) NOT_CFG_REPORT_INTERVAL) ∧
    0 < i_seq b) as HV.
  { intros b. unfold ParseVer1DbFileName, parse_step.
    change (asks QUERY_PARTS NAME_ONLY) with true. change (asks QUERY_PARTS TYPE_ONLY) with true.
    change (asks QUERY_PARTS LEVEL_ONLY) with false. change (asks QUERY_PARTS SEQ_ONLY) with true.
    change (asks SEQ_ONLY NAME_ONLY) with false. change (asks SEQ_ONLY TYPE_ONLY) with false.
    change (asks SEQ_ONLY LEVEL_ONLY) with false. change (asks SEQ_ONLY SEQ_ONLY) with true. cbv beta iota zeta.
    destruct (IsValidDomainName _ _); cbn [negb]; [|done]. destruct (IsValidType _); cbn [negb]; [|done].
    cbn [i_seq SplitedEventInfo_new i_name i_type i_level i_reportInterval].
    destruct (Z.leb_spec (ConvertStringTo 64 (part l 3) 0) 0); cbn [negb]; [done|]. intros [= <-]. done. }
  destruct (length l) as [|[|[|[|[|[|]]]]]]; try done.
  - destruct (ParseVer1DbFileName l SplitedEventInfo_new QUERY_PARTS) as [[] b]; [|done].
    destruct (HV b eq_refl) as [-> ?]. by intros [= ->].
  - unfold ParseCurVersionDbFileName, parse_step.
    destruct (ParseVer1DbFileName l SplitedEventInfo_new QUERY_PARTS) as [[] b]; [|done].
    destruct (HV b eq_refl) as [-> ?]. cbn [negb]. change (asks QUERY_PARTS REPORT_INTERVAL_ONLY) with true.
    change (asks SEQ_ONLY REPORT_INTERVAL_ONLY) with false. cbv beta iota zeta.
    destruct (_ <? 0); cbn [negb]; [done|]. intros [= <-]. done.
Qed.

(** What the query asks of a file's name. *)
Definition selects (a : SysEventQueryArg) (info : SplitedEventInfo) : Prop :=
  (a_names a = [] ∨ i_name info ∈ a_names a) ∧ (a_type a = 0 ∨ i_type info = a_type a) ∧
  (a_toSeq a = INVALID_VALUE_INT ∨ i_seq info < a_toSeq a) ∧
  (a_reportInterval a = DEFAULT_REPORT_INTERVAL ∨ i_reportInterval info = NOT_CFG_REPORT_INTERVAL ∨
   i_reportInterval info = a_reportInterval a).

Lemma existsb_names (name : bytes) l : existsb (λ item, bool_decide (item = name)) l = bool_decide (name ∈ l).
Proof.
  apply Bool.eq_iff_eq_true. rewrite existsb_exists, bool_decide_eq_true.
  setoid_rewrite bool_decide_eq_true. setoid_rewrite <- list_elem_of_In. split; [by intros (x & ? & ->)|by exists name].
Qed.

Lemma contain_selected a file info m :
  file_info file = Some info → selects a info →
  (∀ seq, m !! i_name info = Some seq → a_fromSeq a < seq) → (IsContainQueryArg file a m).1 = true.
Proof.
  intros Hf (Hn & Ht & Hs & Hi) Hm. unfold IsContainQueryArg. destruct (_ && _ && _); [done|].
  unfold file_info in Hf. destruct (ParseEventInfoFromDbFileName _ _ _) as [[] ?]; [|done]. simplify_eq. cbn [negb].
  assert ((match m !! i_name info with Some seq => seq <=? a_fromSeq a | None => false end) = false) as ->.
  { destruct (m !! i_name info) as [seq|] eqn:E; [|done]. apply Z.leb_gt. eauto. }
  rewrite existsb_names. cbn [fst]. rewrite Z.geb_leb.
  assert (bool_decide (a_names a ≠ []) && negb (bool_decide (i_name info ∈ a_names a)) = false) as ->.
  { destruct Hn as [E|]; [rewrite bool_decide_false; [done|by intros []]|]. by rewrite (bool_decide_true (_ ∈ _)), andb_false_r by done. }
  assert (negb (a_type a =? 0) && negb (i_type info =? a_type a) = false) as ->.
  { destruct (Z.eqb_spec (a_type a) 0), (Z.eqb_spec (i_type info) (a_type a)); (done || (exfalso; tauto)). }
  assert (negb (a_toSeq a =? INVALID_VALUE_INT) && (a_toSeq a <=? i_seq info) = false) as ->.
  { destruct (Z.eqb_spec (a_toSeq a) INVALID_VALUE_INT), (Z.leb_spec (a_toSeq a) (i_seq info)); try done. lia. }
  destruct (Z.eqb_spec (a_reportInterval a) DEFAULT_REPORT_INTERVAL),
    (Z.eqb_spec (i_reportInterval info) NOT_CFG_REPORT_INTERVAL),
    (Z.eqb_spec (a_reportInterval a) (i_reportInterval info)); cbn; (done || (exfalso; intuition congruence)).
Qed.

(** An entry of [nameSeqMap] is the number of a file seen before. *)
Lemma contain_map a file m name seq :
  (IsContainQueryArg file a m).2 !! name = Some seq →
  m !! name = Some seq ∨ ∃ info, file_info file = Some info ∧ i_name info = name ∧ i_seq info = seq.
Proof.
  unfold IsContainQueryArg, file_info. destruct (_ && _ && _); [by left|].
  destruct (ParseEventInfoFromDbFileName _ _ _) as [[] info]; cbn [negb]; [|by left].
  destruct (match m !! i_name info with Some seq => seq <=? a_fromSeq a | None => false end); [by left|].
  cbn [snd]. rewrite lookup_insert_Some. intros [[? ?]|[? ?]]; [right; eauto|by left].
Qed.

Lemma dir_selected a file info files : ∀ m,
  file ∈ files → file_info file = Some info → selects a info →
  (∀ seq, m !! i_name info = Some seq → a_fromSeq a < seq) →
  (∀ l1 l2 g ginfo, files = l1 ++ file :: l2 → g ∈ l1 → g ≠ file → file_info g = Some ginfo → i_name ginfo = i_name info →
    a_fromSeq a < i_seq ginfo) →
  file ∈ query_dir_files a files m.
Proof.
  induction files as [|f files IH]; intros m Hin Hf Hs Hm Hg; [by apply elem_of_nil in Hin|]. cbn [query_dir_files].
  destruct (decide (f = file)) as [->|Hne].
  - pose proof (contain_selected a file info m Hf Hs Hm) as H.
    destruct (IsContainQueryArg file a m) as [b m']. cbn in H. subst b. apply list_elem_of_here.
  - apply elem_of_cons in Hin as [?|Hin]; [done|]. pose proof (contain_map a f m) as HM.
    destruct (IsContainQueryArg f a m) as [b m']. cbn [snd] in HM. rewrite elem_of_app. right.
    apply IH; [done..| |].
    + intros seq Hseq. destruct (HM _ _ Hseq) as [|(ginfo & Hgi & Hgn & <-)]; [by apply Hm|].
      apply list_elem_of_split in Hin as (l1 & l2 & ->). eapply (Hg (f :: l1) l2 f); eauto. apply list_elem_of_here.
    + intros l1 l2 g ginfo -> Hg1. apply (Hg (f :: l1) l2); [done|]. by apply list_elem_of_further.
Qed.

Lemma greater_order : key_order CompareFileGreaterFunc.
Proof.
  exists (λ f, - GetFileSeq f). intros x y. unfold CompareFileGreaterFunc. rewrite Z.gtb_ltb.
  destruct (Z.ltb_spec (GetFileSeq y) (GetFileSeq x)), (Z.ltb_spec (- GetFileSeq x) (- GetFileSeq y)); lia || done.
Qed.

(** [file] may hold the event numbered [e]: the documents of its name hold
    successive ranges, the number in a name the first of its range. *)
Definition may_hold (files : list bytes) (file : bytes) (info : SplitedEventInfo) (e : Z) : Prop :=
  file ∈ files ∧ file_info file = Some info ∧ i_seq info <= e ∧
  ∀ g ginfo, g ∈ files → g ≠ file → file_info g = Some ginfo → i_name ginfo = i_name info →
    i_seq ginfo < i_seq info ∨ e < i_seq ginfo.

Lemma query_files_cover a dir file info e :
  dir ∈ GetQueryDirsByDomain (a_domain a) → may_hold (GetDirFiles dir) file info e →
  (∀ g, g ∈ GetDirFiles dir → ExtractFileName g = last_part g) →
  selects a info → a_fromSeq a <= e → file ∈ GetQueryFiles a.
Proof.
  intros Hd (Hin & Hf & Hle & Hg) HE Hs He. unfold GetQueryFiles. apply list_elem_of_In, in_concat.
  exists (query_dir_files a (std_sort CompareFileGreaterFunc (GetDirFiles dir)) ∅).
  split; [apply list_elem_of_In, list_elem_of_fmap; eauto|]. apply list_elem_of_In.
  pose proof (sort_perm CompareFileGreaterFunc (GetDirFiles dir)) as Hperm.
  pose proof (sort_sorted CompareFileGreaterFunc (GetDirFiles dir) greater_order) as HS.
  eapply dir_selected; [by rewrite Hperm|done|done|done|]. intros l1 l2 g ginfo El Hg1 Hne Hgi Hgn.
  assert (g ∈ GetDirFiles dir) as Hgd by (rewrite <- Hperm, El, elem_of_app; by left).
  assert (GetFileSeq file <= GetFileSeq g) as Hseq.
  { rewrite El in HS. apply StronglySorted_app in HS as (HS & _). specialize (HS g file Hg1 ltac:(apply list_elem_of_here)).
    unfold CompareFileGreaterFunc in HS. rewrite Z.gtb_ltb, Z.ltb_ge in HS. done. }
  destruct (file_info_seq file info Hf (HE _ Hin)) as [E1 _], (file_info_seq g ginfo Hgi (HE _ Hgd)) as [E2 _].
  destruct (Hg g ginfo Hgd Hne Hgi Hgn); lia.
Qed.

#[local] Instance Zlen_perm {A} : Proper (Permutation ==> eq) (@Zlen A).
Proof. intros l l' H. unfold Zlen. by rewrite H. Qed.

Lemma less_order : key_order CompareFileLessFunc.
Proof. by exists GetFileSeq. Qed.

Lemma compare_order q : key_order (CreateCompareFunc q).
Proof.
  unfold CreateCompareFunc. destruct (bool_decide _), (orderCol_ q).2;
    [exists (λ x, - en_ts x)|exists en_ts|exists (λ x, - en_id x)|exists en_id]; intros x y; try done;
    rewrite Z.gtb_ltb; apply Bool.eq_iff_eq_true; rewrite !Z.ltb_lt; lia.
Qed.

(** Reading the files [l] for [dq] succeeds or fails as [found] says. *)
Definition reads (fuel : nat) (dq : DocQuery) (found : bytes → DocRet * list Entry) (l : list bytes) : Prop :=
  ∀ f, f ∈ l → doc_Query fuel f dq = Done (Some (found f)).

Definition all_found (found : bytes → DocRet * list Entry) (l : list bytes) : list Entry :=
  concat ((λ f, (found f).2) <$> l).

Lemma QueryByFiles_all fuel dq q found : ∀ l entries total,
  reads fuel dq found l → total + Zlen (all_found found l) < limit_ q →
  QueryByFiles fuel dq q l entries total = Done (Some (entries ++ all_found found l, q)).
Proof.
  induction l as [|f l IH]; intros entries total Hr Hl; cbn [QueryByFiles].
  { unfold all_found. cbn. by rewrite app_nil_r. }
  rewrite (Hr f) by apply list_elem_of_here. cbn [obind]. unfold all_found in *. cbn [fmap list_fmap concat] in *.
  rewrite app_assoc. destruct (found f) as [res en]. cbn [snd] in *. unfold Zlen in *. rewrite length_app in Hl.
  assert (QueryByFiles fuel dq q l (entries ++ en) (total + Zlen en) =
    Done (Some ((entries ++ en) ++ concat ((λ f, (found f).2) <$> l), q))) as E.
  { apply IH; [|unfold Zlen; lia]. intros g Hg. apply Hr. by apply list_elem_of_further. }
  unfold Zlen in E. destruct res; try exact E. rewrite Z.geb_leb.
  destruct (Z.leb_spec (limit_ q) (total + Z.of_nat (length en))) as [Hle|]; [lia|exact E].
Qed.

Lemma take_entries_all : ∀ l n, Zlen l <= n + 1 → take_entries l n = l.
Proof.
  induction l as [|e l IH]; intros n Hn; [done|]. cbn. rewrite Z.geb_leb. unfold Zlen in *. cbn [length] in Hn.
  rewrite (proj2 (Z.leb_le 0 n)) by lia. f_equal. apply IH. lia.
Qed.

Lemma take_entries_take : ∀ l n, -1 <= n → take_entries l n = take (Z.to_nat (n + 1)) l.
Proof.
  induction l as [|e l IH]; intros n Hn; [by rewrite take_nil|]. cbn [take_entries]. rewrite Z.geb_leb.
  destruct (Z.leb_spec 0 n) as [H|H]; [|by replace n with (-1) by lia].
  replace (Z.to_nat (n + 1)) with (S (Z.to_nat (n - 1 + 1))) by lia. cbn. f_equal. apply IH. lia.
Qed.

Lemma all_found_perm found l l' : l ≡ₚ l' → all_found found l ≡ₚ all_found found l'.
Proof. intros H. unfold all_found. by rewrite H. Qed.

Lemma s32_count n : 0 <= n < 2 ^ 31 → s32 n = n.
Proof. intros H. unfold s32. apply sgn_small; [lia|]. unfold is_s. lia. Qed.

Definition with_limit (limit : Z) (q : SysEventQuery) : SysEventQuery :=
  mkQuery limit (orderCol_ q) (cond_ q) (queryArg_ q).

(** When the documents hold fewer entries than the limit, all of them come, in the
    order asked for. *)
Lemma Execute_all fuel limit inner q found :
  reads fuel (BuildDocQuery q) found (GetQueryFiles (queryArg_ q)) →
  0 < Zlen (all_found found (GetQueryFiles (queryArg_ q))) < limit → limit < 2 ^ 31 →
  ∃ records, Execute fuel limit inner q = Done (Some (records, true, with_limit limit q)) ∧
    records ≡ₚ all_found found (GetQueryFiles (queryArg_ q)) ∧
    StronglySorted (λ x y, CreateCompareFunc q x y = false) records.
Proof.
  intros Hr Hn Hl. pose proof (drain_perm CompareFileLessFunc (GetQueryFiles (queryArg_ q))) as HD.
  pose proof (all_found_perm found _ _ HD) as HP'.
  assert (Query fuel (with_limit limit q) =
    Done (Some (all_found found (drain CompareFileLessFunc (GetQueryFiles (queryArg_ q))), with_limit limit q))) as EQ.
  { unfold Query, with_limit. cbn [queryArg_]. change (BuildDocQuery (mkQuery _ _ _ _)) with (BuildDocQuery q).
    rewrite <- HP' in Hn. pose proof (QueryByFiles_all fuel (BuildDocQuery q) (with_limit limit q) found
      (drain CompareFileLessFunc (GetQueryFiles (queryArg_ q))) [] 0) as H.
    destruct (drain CompareFileLessFunc (GetQueryFiles (queryArg_ q))) as [|f l]; [exfalso; unfold all_found, Zlen in Hn; cbn in Hn; lia|].
    apply H; [|cbn [limit_ with_limit]; lia]. intros g Hg. apply Hr. by rewrite <- HD. }
  unfold Execute. fold (with_limit limit q). rewrite EQ. cbn [obind].
  set (en := all_found found (drain _ _)) in *. rewrite <- HP' in Hn.
  exists (drain (CreateCompareFunc q) en). split_and!.
  - destruct en as [|e en'] eqn:E; [exfalso; unfold all_found, Zlen in Hn; cbn in Hn; lia|]. rewrite <- E in *. unfold Zlen in *.
    rewrite s32_count by lia. rewrite Z.gtb_ltb, (proj2 (Z.ltb_ge limit _)) by lia. cbn [andb].
    change (CreateCompareFunc (with_limit limit q)) with (CreateCompareFunc q).
    rewrite take_entries_all; [done|]. unfold Zlen. rewrite drain_perm. lia.
  - by rewrite drain_perm.
  - apply drain_sorted, compare_order.
Qed.

(** C26: a query finds every event: when the file that may hold the event numbered
    [e] has a name the query selects, [e] is in the range asked for, and the reader
    finds an entry in that file, then the entry is among the records, whatever
    files were passed over because of their names, as long as the limit is not
    reached; and the records are exactly what was found, in the order asked for. *)
Theorem query_returns_every_match fuel limit inner q found dir file info e en :
  dir ∈ GetQueryDirsByDomain (a_domain (queryArg_ q)) → may_hold (GetDirFiles dir) file info e →
  (∀ g, g ∈ GetDirFiles dir → ExtractFileName g = last_part g) →
  selects (queryArg_ q) info → a_fromSeq (queryArg_ q) <= e →
  reads fuel (BuildDocQuery q) found (GetQueryFiles (queryArg_ q)) →
  en ∈ (found file).2 → Zlen (all_found found (GetQueryFiles (queryArg_ q))) < limit → limit < 2 ^ 31 →
  ∃ records, Execute fuel limit inner q = Done (Some (records, true, with_limit limit q)) ∧
    en ∈ records ∧ records ≡ₚ all_found found (GetQueryFiles (queryArg_ q)) ∧
    StronglySorted (λ x y, CreateCompareFunc q x y = false) records.
Proof.
  intros Hd Hm HE Hs He Hr Hen Hn Hl.
  pose proof (query_files_cover (queryArg_ q) dir file info e Hd Hm HE Hs He) as Hf.
  assert (en ∈ all_found found (GetQueryFiles (queryArg_ q))) as Hin.
  { unfold all_found. apply list_elem_of_In, in_concat. exists (found file).2.
    split; [apply list_elem_of_In, list_elem_of_fmap; eauto|by apply list_elem_of_In]. }
  destruct (Execute_all fuel limit inner q found) as (records & E1 & E2 & E3); [done|split; [|done]|done|].
  { destruct (all_found found _); [by apply elem_of_nil in Hin|]. unfold Zlen. cbn [length]. lia. }
  exists records. split_and!; [done|by rewrite E2|done..].
Qed.

(** an inner query that finds more entries than its limit returns one record
    more than the limit: the loop that empties the queue runs while the count is
    not negative. *)
Theorem inner_query_exceeds_limit fuel limit q entries q' :
  Query fuel (with_limit limit q) = Done (Some (entries, q')) → 0 <= limit < Zlen entries → Zlen entries < 2 ^ 31 →
  ∃ records, Execute fuel limit true q = Done (Some (records, true, q')) ∧ Zlen records = limit + 1.
Proof.
  intros EQ Hl Hn. unfold Execute. fold (with_limit limit q). rewrite EQ. cbn [obind].
  destruct entries as [|e l] eqn:E; [exfalso; unfold Zlen in Hl; cbn in Hl; lia|]. rewrite <- E in *.
  rewrite s32_count by (unfold Zlen in *; lia). rewrite Z.gtb_ltb, (proj2 (Z.ltb_lt _ _)) by lia. cbn [andb].
  eexists. split; [done|]. rewrite take_entries_take by lia. unfold Zlen in *. rewrite length_take, drain_perm. lia.
Qed.

End Db.

(** ** Clean-up *)

Section Cleaning.
Context `{SO : Sorter}.
Context (ExtractFileName : bytes → bytes) (configMap_ : gmap Z StoreConfig).
Context (databaseDir : bytes) (GetDirDirs : list bytes) (IsDirectory : bytes → bool).
Context (GetDirFiles : bytes → list bytes).

#[local] Abbreviation GetFileSeq := (GetFileSeq ExtractFileName).
#[local] Abbreviation CompareFileLessFunc := (CompareFileLessFunc ExtractFileName).
#[local] Abbreviation CompareFileGreaterFunc := (CompareFileGreaterFunc ExtractFileName).
#[local] Abbreviation GetQueryFiles := (GetQueryFiles ExtractFileName databaseDir GetDirDirs IsDirectory GetDirFiles).

Definition NUM_OF_BYTES_IN_MB : Z := 1024 * 1024.

(** The product is a 32-bit one. *)
Definition GetMaxSize (type : Z) : Z := u32 (Config_GetMaxSize configMap_ type * NUM_OF_BYTES_IN_MB).
Definition GetMaxFileNum (type : Z) : Z := Config_GetMaxFileNum configMap_ type.

Context (GetFileSize : bytes → Z).

(** By type: the total size, the normal files and those beyond the number a name
    may have. *)
Abbreviation ClearFilesMap := (gmap Z (Z * list bytes * list bytes)).

Definition note_clear (st : gmap bytes Z * ClearFilesMap) (file : bytes) : gmap bytes Z * ClearFilesMap :=
  let '(nameLimitMap, clearMap) := st in
  let '(ok, eventInfo) :=
    ParseEventInfoFromDbFileName (last_part file) SplitedEventInfo_new (Z.lor NAME_ONLY TYPE_ONLY) in
  if negb ok then (nameLimitMap, clearMap) else
  let domainNameStr := GetFileDomain file ++ i_name eventInfo in
  let type := i_type eventInfo in
  let count := u32 (default 0 (nameLimitMap !! domainNameStr) + 1) in
  let nameLimitMap := <[domainNameStr := count]> nameLimitMap in
  let fileSize := GetFileSize file in
  (nameLimitMap,
   match clearMap !! type with
   | None => <[type := (fileSize, [file], [])]> clearMap
   | Some (total, normal, limit) =>
       let total := u64 (total + fileSize) in
       if count >? GetMaxFileNum type then <[type := (total, normal, limit ++ [file])]> clearMap
       else <[type := (total, normal ++ [file], limit)]> clearMap
   end).

Definition GetClearMap : ClearFilesMap :=
  (foldl note_clear (∅, ∅) (drain CompareFileLessFunc (GetQueryFiles SysEventQueryArg_new))).2.

(** [totalFileSize < (maxSize + maxSize * delPct)] in doubles. *)
Definition dmul (a b : Z) : Z :=
  let n := dnum a * dnum b in if n =? 0 then 0 else round_double n (2 ^ 2148).
Definition dadd (a b : Z) : Z :=
  let n := dnum a + dnum b in if n =? 0 then 0 else round_double n (2 ^ 1074).
Definition below_quota (totalFileSize maxSize : Z) : bool :=
  dlt (int_to_double totalFileSize)
      (dadd (int_to_double maxSize) (dmul (int_to_double maxSize) (decimal_double 1 (-1)))).

(** The loop over the victims, in the order they leave the queues; [removable] is
    whether [RemoveFile] succeeds.  The files removed, and the size that is left. *)
Context (removable : bytes → bool).

Fixpoint clear_files (maxSize totalFileSize : Z) (victims : list bytes) : list bytes * Z :=
  if totalFileSize >=? maxSize then
    match victims with
    | [] => ([], totalFileSize)
    | delFile :: victims =>
        let fileSize := GetFileSize delFile in
        if negb (removable delFile) then clear_files maxSize totalFileSize victims
        else let '(removed, total) :=
               clear_files maxSize (if totalFileSize >=? fileSize then totalFileSize - fileSize else 0) victims in
             (delFile :: removed, total)
    end
  else ([], totalFileSize).

(** One type: over its quota, the files beyond the number of their name go first,
    then the others, each oldest first. *)
Definition clear_type (type : Z) (entry : Z * list bytes * list bytes) : list bytes :=
  let '(totalFileSize, normalQueue, limitQueue) := entry in
  if below_quota totalFileSize (GetMaxSize type) then []
  else (clear_files (GetMaxSize type) totalFileSize
          (drain CompareFileGreaterFunc limitQueue ++ drain CompareFileGreaterFunc normalQueue)).1.

Definition Clear : list bytes :=
  concat ((λ kv, clear_type kv.1 kv.2) <$> map_to_list GetClearMap).

(** ** What clean-up removes *)

Definition sum_sizes (l : list bytes) : Z := foldr (λ f n, GetFileSize f + n) 0 l.

Lemma sum_sizes_app l l' : sum_sizes (l ++ l') = sum_sizes l + sum_sizes l'.
Proof. induction l as [|f l IH]; cbn [sum_sizes foldr app]; [done|]. unfold sum_sizes in IH. rewrite IH. unfold sum_sizes. lia. Qed.

#[local] Instance sum_sizes_perm : Proper (Permutation ==> eq) sum_sizes.
Proof. intros l l' H. induction H; unfold sum_sizes in *; cbn; lia. Qed.

Context (sizes_ok : ∀ f, 0 <= GetFileSize f < 2 ^ 64).

Lemma sum_sizes_nonneg l : 0 <= sum_sizes l.
Proof. induction l as [|f l IH]; [done|]. unfold sum_sizes in *. cbn. pose proof (sizes_ok f). lia. Qed.

(** The loop removes the first victims that can be removed, no more than it must. *)
Lemma clear_files_spec maxSize : ∀ victims total,
  sum_sizes victims <= total →
  let '(removed, rem) := clear_files maxSize total victims in
  ∃ seen rest, victims = seen ++ rest ∧ removed = filter (λ f, removable f = true) seen ∧
    rem = total - sum_sizes removed ∧ (rem < maxSize ∨ rest = []) ∧
    ∀ r1 f r2, removed = r1 ++ f :: r2 → maxSize <= total - sum_sizes r1.
Proof.
  induction victims as [|f victims IH]; intros total Hs; cbn [clear_files]; rewrite Z.geb_leb;
    destruct (Z.leb_spec maxSize total) as [Hm|Hm].
  - exists [], []. split_and!; [done|done|cbn; lia|by right|by intros []].
  - exists [], []. split_and!; [done|done|cbn; lia|by left|by intros []].
  - cbn [sum_sizes foldr] in Hs. fold (sum_sizes victims) in Hs. pose proof (sizes_ok f) as Hf.
    pose proof (sum_sizes_nonneg victims) as Hnn. rewrite Z.geb_leb, (proj2 (Z.leb_le (GetFileSize f) total)) by lia.
    destruct (removable f) eqn:Ef; cbn [negb].
    + specialize (IH (total - GetFileSize f) ltac:(lia)).
      destruct (clear_files maxSize _ victims) as [removed rem]. destruct IH as (seen & rest & -> & -> & -> & Hend & Hmin).
      exists (f :: seen), rest. rewrite filter_cons_True by done.
      split_and!; [done|done|cbn [sum_sizes foldr]; fold (sum_sizes (filter (λ f, removable f = true) seen)); lia|exact Hend|].
      intros [|g r1] f' r2 [= <- E]; [cbn; lia|]. cbn [sum_sizes foldr]. fold (sum_sizes r1).
      specialize (Hmin r1 f' r2 E). lia.
    + specialize (IH total ltac:(lia)).
      destruct (clear_files maxSize _ victims) as [removed rem]. destruct IH as (seen & rest & -> & -> & -> & Hend & Hmin).
      exists (f :: seen), rest. rewrite filter_cons_False by by rewrite Ef. done.
  - exists [], (f :: victims). split_and!; [done|done|cbn; lia|by left|by intros []].
Qed.

(** The type in a file's name, and the text names are counted by. *)
Definition clear_info (file : bytes) : option (Z * bytes) :=
  let '(ok, info) := ParseEventInfoFromDbFileName (last_part file) SplitedEventInfo_new (Z.lor NAME_ONLY TYPE_ONLY) in
  if ok then Some (i_type info, GetFileDomain file ++ i_name info) else None.

Definition of_type (type : Z) (files : list bytes) : list bytes := filter (λ f, fst <$> clear_info f = Some type) files.
Definition of_name (key : bytes) (files : list bytes) : list bytes := filter (λ f, snd <$> clear_info f = Some key) files.

(** [file] is beyond the number of files of its name: more than that many are as
    new as it is, itself included. *)
Definition surplus (type : Z) (files : list bytes) (file : bytes) : Prop :=
  ∃ key newer, snd <$> clear_info file = Some key ∧ newer `prefix_of` files ∧ file ∈ newer ∧
    GetMaxFileNum type < Zlen (of_name key newer) ∧ ∀ g, g ∈ newer → GetFileSeq file <= GetFileSeq g.

Record clear_ok (files : list bytes) (st : gmap bytes Z * ClearFilesMap) : Prop := {
  ok_count : ∀ key, default 0 (st.1 !! key) = Zlen (of_name key files);
  ok_none : ∀ t, st.2 !! t = None → of_type t files = [];
  ok_some : ∀ t total normal limit, st.2 !! t = Some (total, normal, limit) →
    normal ++ limit ≡ₚ of_type t files ∧ total = u64 (sum_sizes (of_type t files)) ∧
    (∀ f, f ∈ limit → ∃ key newer, snd <$> clear_info f = Some key ∧ newer `prefix_of` files ∧ last newer = Some f ∧
       GetMaxFileNum t < Zlen (of_name key newer))
}.

Lemma of_type_snoc t files f :
  of_type t (files ++ [f]) = of_type t files ++ if decide (fst <$> clear_info f = Some t) then [f] else [].
Proof. unfold of_type. rewrite filter_app. f_equal; by rewrite filter_cons, filter_nil. Qed.

Lemma of_name_snoc key files f :
  of_name key (files ++ [f]) = of_name key files ++ if decide (snd <$> clear_info f = Some key) then [f] else [].
Proof. unfold of_name. rewrite filter_app. f_equal; by rewrite filter_cons, filter_nil. Qed.

Lemma note_clear_ok files f st :
  Zlen (files ++ [f]) < 2 ^ 32 → clear_ok files st → clear_ok (files ++ [f]) (note_clear st f).
Proof.
  intros Hlen [H1 H2 H3]. destruct st as [names m]. cbn [fst snd] in *. unfold note_clear.
  assert (clear_info f = let '(ok, info) := ParseEventInfoFromDbFileName (last_part f) SplitedEventInfo_new
    (Z.lor NAME_ONLY TYPE_ONLY) in if ok then Some (i_type info, GetFileDomain f ++ i_name info) else None) as Ei by done.
  destruct (ParseEventInfoFromDbFileName _ _ _) as [[] info]; cbn [negb] in *.
  2:{ split; cbn [fst snd]; intros; setoid_rewrite of_type_snoc || setoid_rewrite of_name_snoc; rewrite ?Ei; cbn; rewrite ?app_nil_r; auto.
      destruct (H3 _ _ _ _ H) as (? & ? & H'). split_and!; [done..|]. intros g Hg.
      destruct (H' g Hg) as (key & newer & ? & [w ->] & ? & ?). exists key, newer. split_and!; try done.
      exists (w ++ [f]). by rewrite app_assoc. }
  set (key := GetFileDomain f ++ i_name info) in *.
  assert (Zlen (of_name key (files ++ [f])) = Zlen (of_name key files) + 1) as Hcnt.
  { rewrite of_name_snoc, Ei. cbn. rewrite decide_True by done. unfold Zlen. rewrite length_app. cbn. lia. }
  assert (u32 (default 0 (names !! key) + 1) = Zlen (of_name key files) + 1) as ->.
  { rewrite H1. apply u32_small. unfold is_u, Zlen in *. rewrite length_app in Hlen. cbn in Hlen.
    unfold of_name. pose proof (sublist_length _ _ (sublist_filter (λ f, snd <$> clear_info f = Some key) files)). lia. }
  split; cbn [fst snd].
  - intros k. destruct (decide (k = key)) as [->|Hne].
    + rewrite lookup_insert_eq. cbn. lia.
    + rewrite lookup_insert_ne by done. rewrite H1, of_name_snoc, Ei. cbn. rewrite decide_False by congruence. by rewrite app_nil_r.
  - intros t Ht. rewrite of_type_snoc, Ei. cbn.
    destruct (decide (t = i_type info)) as [->|Hne].
    + destruct (m !! i_type info) as [[[? ?] ?]|]; [destruct (_ >? _)|]; by rewrite lookup_insert_eq in Ht.
    + rewrite decide_False by congruence. rewrite app_nil_r. apply H2.
      destruct (m !! i_type info) as [[[? ?] ?]|]; [destruct (_ >? _)|]; by rewrite lookup_insert_ne in Ht.
  - intros t total normal limit Ht. rewrite !of_type_snoc, Ei. cbn.
    assert (∀ limit0 : list bytes, (∀ g, g ∈ limit0 → ∃ key newer, snd <$> clear_info g = Some key ∧ newer `prefix_of` files ∧
      last newer = Some g ∧ GetMaxFileNum t < Zlen (of_name key newer)) → ∀ g, g ∈ limit0 →
      ∃ key newer, snd <$> clear_info g = Some key ∧ newer `prefix_of` files ++ [f] ∧
      last newer = Some g ∧ GetMaxFileNum t < Zlen (of_name key newer)) as Hext.
    { intros l0 H' g Hg. destruct (H' g Hg) as (k & newer & ? & [w ->] & ? & ?). exists k, newer. split_and!; try done.
      exists (w ++ [f]). by rewrite app_assoc. }
    destruct (decide (t = i_type info)) as [->|Hne].
    + rewrite decide_True by done. rewrite sum_sizes_app. cbn [sum_sizes foldr]. rewrite Z.add_0_r.
      destruct (m !! i_type info) as [[[tot nm] lm]|] eqn:Em.
      * destruct (H3 _ _ _ _ Em) as (HP3 & -> & Hlim).
        destruct (Z.gtb_spec (Zlen (of_name key files) + 1) (GetMaxFileNum (i_type info))) as [Hgt|Hgt];
          rewrite lookup_insert_eq in Ht; simplify_eq.
        -- split_and!; [by rewrite <- HP3, app_assoc|unfold u64; by rewrite Zplus_mod_idemp_l|].
           intros g. rewrite elem_of_app, list_elem_of_singleton. intros [Hg| ->]; [by eapply Hext|].
           exists key, (files ++ [f]). rewrite Ei, last_snoc. split_and!; [done..|lia].
        -- split_and!; [|unfold u64; by rewrite Zplus_mod_idemp_l|by eapply Hext].
           rewrite <- HP3, <- !app_assoc. apply Permutation_app_head, Permutation_app_comm.
      * rewrite lookup_insert_eq in Ht. simplify_eq. rewrite (H2 _ Em). cbn. split_and!; [done| |by intros ? ?%elem_of_nil].
        unfold u64. rewrite Z.mod_small; [done|]. apply sizes_ok.
    + rewrite decide_False by congruence. rewrite app_nil_r.
      assert (m !! t = Some (total, normal, limit)) as Em.
      { destruct (m !! i_type info) as [[[? ?] ?]|]; [destruct (_ >? _)|]; by rewrite lookup_insert_ne in Ht. }
      destruct (H3 _ _ _ _ Em) as (? & ? & ?). split_and!; [done..|]. by apply Hext.
Qed.

Lemma clear_map_ok files : Zlen files < 2 ^ 32 → clear_ok files (foldl note_clear (∅, ∅) files).
Proof.
  induction files as [|f files IH] using rev_ind; intros Hlen.
  - split; cbn; [intros key; by rewrite lookup_empty|done|intros *; by rewrite lookup_empty].
  - rewrite foldl_app. apply note_clear_ok; [done|]. apply IH. unfold Zlen in *. rewrite length_app in Hlen. cbn in Hlen. lia.
Qed.

(** All documents, the newest first. *)
Definition clear_order : list bytes := drain CompareFileLessFunc (GetQueryFiles SysEventQueryArg_new).

Lemma clear_order_sorted newer f rest :
  clear_order = newer ++ rest → last newer = Some f → ∀ g, g ∈ newer → GetFileSeq f <= GetFileSeq g.
Proof.
  intros E Hl g Hg. pose proof (drain_sorted CompareFileLessFunc (GetQueryFiles SysEventQueryArg_new) (less_order ExtractFileName)) as HS.
  fold clear_order in HS. rewrite E in HS. apply StronglySorted_app in HS as (_ & HS & _).
  apply last_Some in Hl as [l ->]. apply elem_of_app in Hg as [Hg| ->%list_elem_of_singleton]; [|lia].
  apply StronglySorted_app in HS as (HS & _ & _). specialize (HS g f Hg ltac:(apply list_elem_of_here)).
  unfold Database.CompareFileLessFunc in HS. apply Z.ltb_ge in HS. done.
Qed.

(** In a queue emptied oldest first, what left it is older than what is left. *)
Lemma drained_older l l1 l2 r k : drain CompareFileGreaterFunc l = l1 ++ l2 → r ∈ l1 → k ∈ l2 → GetFileSeq r <= GetFileSeq k.
Proof.
  intros E Hr Hk. pose proof (drain_sorted CompareFileGreaterFunc l (greater_order ExtractFileName)) as HS. rewrite E in HS.
  apply StronglySorted_app in HS as (HS & _). specialize (HS r k Hr Hk).
  unfold Database.CompareFileGreaterFunc in HS. rewrite Z.gtb_ltb in HS. by apply Z.ltb_ge in HS.
Qed.

(** C32: clean-up and the quota of a type.  A type whose files together are below the
    quota and a tenth more ([below_quota], in doubles) loses nothing, although it may
    be over the quota; any other loses files until the rest is smaller than the quota,
    or only files that cannot be removed are left, and no file more (without the last
    file removed the rest was not smaller); a file that is kept and can be removed is
    no older than a removed one, unless the removed one is beyond the number of files
    its name may have.  What [Clear] removes is what it removes for each type. *)
Theorem clear_enforces_quota t :
  Zlen clear_order < 2 ^ 32 → sum_sizes clear_order < 2 ^ 64 →
  match GetClearMap !! t with
  | None => of_type t clear_order = []
  | Some entry =>
      ∃ kept, of_type t clear_order ≡ₚ clear_type t entry ++ kept ∧
      (if below_quota (sum_sizes (of_type t clear_order)) (GetMaxSize t) then clear_type t entry = []
       else sum_sizes kept < GetMaxSize t ∨ ∀ k, k ∈ kept → removable k = false) ∧
      (∀ r, r ∈ clear_type t entry → removable r = true) ∧
      (∀ removed f, clear_type t entry = removed ++ [f] → GetMaxSize t <= sum_sizes kept + GetFileSize f) ∧
      (∀ r k, r ∈ clear_type t entry → k ∈ kept → removable k = true →
         GetFileSeq r <= GetFileSeq k ∨ surplus t clear_order r)
  end.
Proof.
  intros Hlen Hsum. pose proof (clear_map_ok clear_order Hlen) as [_ H2 H3]. fold clear_order in H2, H3.
  unfold GetClearMap. fold clear_order. specialize (H2 t). specialize (H3 t).
  destruct ((foldl note_clear (∅, ∅) clear_order).2 !! t) as [[[total normal] limit]|]; [|by apply H2].
  destruct (H3 _ _ _ eq_refl) as (HP3 & -> & Hlim). clear H2 H3.
  assert (u64 (sum_sizes (of_type t clear_order)) = sum_sizes (of_type t clear_order)) as Eu.
  { unfold u64. apply Z.mod_small. split; [apply sum_sizes_nonneg|]. eapply Z.le_lt_trans; [|exact Hsum].
    pose proof (filter_app_complement (λ f, fst <$> clear_info f = Some t) clear_order) as HPc.
    apply sum_sizes_perm in HPc. rewrite sum_sizes_app in HPc. unfold of_type.
    pose proof (sum_sizes_nonneg (filter (λ x, ¬ fst <$> clear_info x = Some t) clear_order)). lia. }
  unfold clear_type. rewrite Eu. set (victims := drain CompareFileGreaterFunc limit ++ drain CompareFileGreaterFunc normal).
  assert (victims ≡ₚ of_type t clear_order) as HV.
  { unfold victims. rewrite !drain_perm, <- HP3. apply Permutation_app_comm. }
  destruct (below_quota _ _) eqn:Eq.
  { exists (of_type t clear_order). split_and!; [done|done|by intros r ?%elem_of_nil|by intros []|by intros r k ?%elem_of_nil]. }
  pose proof (clear_files_spec (GetMaxSize t) victims (sum_sizes (of_type t clear_order))) as HC.
  destruct (clear_files _ _ victims) as [removed rem] eqn:Ec.
  destruct HC as (seen & rest & Ev & -> & -> & Hend & Hmin); [by rewrite HV|]. cbn [fst].
  set (removed := filter (λ f, removable f = true) seen) in *.
  set (stuck := filter (λ f, ¬ removable f = true) seen).
  assert (seen ≡ₚ removed ++ stuck) as Hseen by (symmetry; apply filter_app_complement).
  assert (of_type t clear_order ≡ₚ removed ++ stuck ++ rest) as Hall by by rewrite <- HV, Ev, Hseen, app_assoc.
  assert (sum_sizes (of_type t clear_order) = sum_sizes removed + sum_sizes (stuck ++ rest)) as Es by by rewrite Hall, sum_sizes_app.
  exists (stuck ++ rest). split_and!; [done| |by intros r [? _]%list_elem_of_filter| |].
  - destruct Hend as [Hend| ->]; [left; lia|right]. rewrite app_nil_r. intros k [Hk _]%list_elem_of_filter. by destruct (removable k).
  - intros r1 f E. specialize (Hmin r1 f [] E). rewrite E, sum_sizes_app in Es. cbn [sum_sizes foldr] in Es. lia.
  - intros r k [_ Hr]%list_elem_of_filter Hk Hrk. apply elem_of_app in Hk as [[? _]%list_elem_of_filter|Hk]; [done|].
    assert (r ∈ limit → surplus t clear_order r) as Hsur.
    { intros Hl. destruct (Hlim r Hl) as (key & newer & ? & [w Ew] & Hlast & ?). exists key, newer. split_and!; [done|by exists w| |done|].
      - apply last_Some in Hlast as [l ->]. rewrite elem_of_app. right. apply list_elem_of_here.
      - by eapply clear_order_sorted. }
    unfold victims in Ev. apply app_eq_app in Ev as (mid & [[E1 E2]|[E1 E2]]).
    + right. apply Hsur. rewrite <- (drain_perm CompareFileGreaterFunc limit), E1, elem_of_app. by left.
    + rewrite E1, elem_of_app in Hr. destruct Hr as [Hr|Hr]; [right; apply Hsur; by rewrite <- (drain_perm CompareFileGreaterFunc limit)|].
      left. by eapply drained_older.
Qed.

End Cleaning.

(** ** A sorter, and concrete directories *)

Section Merge.
Context {A : Type} (less : A → A → bool).

(** Not before. *)
Definition upto (x y : A) : Prop := less y x = false.

#[local] Instance upto_dec : RelDecision upto := λ x y, decide (less y x = false).

Definition sort_up (l : list A) : list A := merge_sort upto l.

Lemma sort_up_sorted l : key_order less → StronglySorted upto (sort_up l).
Proof.
  intros [key Hk]. apply StronglySorted_merge_sort.
  - intros x y z. unfold upto. rewrite !Hk, !Z.ltb_ge. lia.
  - intros x y. unfold upto. rewrite !Hk, !Z.ltb_ge. lia.
Qed.

End Merge.

#[local, refine] Instance merge_sorter : Sorter := {|
  std_sort A less := sort_up less;
  drain A less := sort_up (λ x y, less y x)
|}.
Proof.
  - intros. apply merge_sort_Permutation.
  - intros. apply merge_sort_Permutation.
  - intros A less l H. by apply (sort_up_sorted less).
  - intros A less l [key Hk]. apply (sort_up_sorted (λ x y, less y x)). exists (λ x, - key x).
    intros x y. rewrite Hk. apply Bool.eq_iff_eq_true. rewrite !Z.ltb_lt. lia.
Defined.

(** The document of [sample_events], at [sample_path]. *)
Definition sample_document : bytes :=
  match write_all sample_uninit (str "5.0") (str "p1") ref_strcpy_s (λ _, 1) sample_path
          (to_store (str "mytag") 1 <$> sample_events) [] with
  | Done (_, f) => f
  | Undefined _ => []
  end.

Definition sample_other : bytes := str "/data/DOM/NAME-1-MINOR-20-0.db".

Definition sample_files (dir : bytes) : list bytes := [sample_path; sample_other].

Definition sample_contents (f : bytes) : option bytes :=
  if bool_decide (f = sample_path) then Some sample_document else None.

(** Events of NAME numbered from 5 to 19, of user 1000, by time. *)
Definition sample_sysquery : SysEventQuery :=
  mkQuery 0 (EventCol_TS, true) (mkCond EventCol_UID EQ (VNumber (FInt 1000)) [])
    (mkArg (str "DOM") [str "NAME"] 0 20 5 DEFAULT_REPORT_INTERVAL).

Definition sample_found (f : bytes) : DocRet * list Entry :=
  match doc_Query sample_uninit sample_contents 100 f (BuildDocQuery sample_sysquery) with
  | Done (Some r) => r
  | _ => (DOC_STORE_ERROR_IO, [])
  end.

Lemma ids3 l a b c : en_id <$> l = [a; b; c] → ∃ e1 e2 e3, l = [e1; e2; e3] ∧ en_id e2 = b.
Proof. destruct l as [|e1 [|e2 [|e3 [|]]]]; intros [=]. by exists e1, e2, e3. Qed.

(** The event numbered 9 is found, and the later document is not opened. *)
Lemma query_returns_every_match_witness :
  ∃ records, Execute sample_uninit last_part (str "/data/") [] (λ _, true) sample_files sample_contents 100 10 true sample_sysquery =
      Done (Some (records, true, with_limit 10 sample_sysquery)) ∧ 9 ∈ (en_id <$> records) ∧ length records = 3%nat.
Proof.
  assert (GetQueryFiles last_part (str "/data/") [] (λ _, true) sample_files (queryArg_ sample_sysquery) = [sample_path]) as Ef
    by by vm_compute.
  assert ((en_id <$> (sample_found sample_path).2) = [4; 9; 12]) as Ei by by vm_compute.
  destruct (ids3 _ _ _ _ Ei) as (e1 & e2 & e3 & Es & E2).
  destruct (query_returns_every_match sample_uninit last_part (str "/data/") [] (λ _, true) sample_files sample_contents
    100 10 true sample_sysquery sample_found (str "/data/DOM/") sample_path (mkInfo (str "NAME") 1 [] 1 0) 9 e2)
    as (records & E & Hin & HPr & _).
  - apply list_elem_of_here.
  - split; [apply list_elem_of_here|]. split; [by vm_compute|]. split; [cbn; lia|].
    intros g ginfo Hg Hne Hgi _. right. unfold sample_files in Hg.
    apply elem_of_cons in Hg as [Hg|Hg]; [contradiction|]. apply list_elem_of_singleton in Hg. rewrite Hg in Hgi.
    assert (file_info sample_other = Some (mkInfo (str "NAME") 1 [] 20 0)) as Eo by by vm_compute.
    rewrite Eo in Hgi. injection Hgi as <-. cbn. lia.
  - done.
  - split; [right; apply list_elem_of_here|]. split; [by left|]. split; [right; by vm_compute|by left].
  - by vm_compute.
  - rewrite Ef. intros f ->%list_elem_of_singleton. by vm_compute.
  - rewrite Es. apply list_elem_of_further, list_elem_of_here.
  - rewrite Ef. unfold all_found. cbn [fmap list_fmap concat]. rewrite Es. by vm_compute.
  - lia.
  - exists records. split; [exact E|]. split; [apply list_elem_of_fmap; exists e2; split; [symmetry; exact E2|exact Hin]|].
    rewrite HPr, Ef. unfold all_found. cbn [fmap list_fmap concat]. by rewrite Es.
Defined.

Lemma inner_query_exceeds_limit_witness :
  ∃ records q', Execute sample_uninit last_part (str "/data/") [] (λ _, true) sample_files sample_contents 100 2 true sample_sysquery =
      Done (Some (records, true, q')) ∧ Zlen records = 3.
Proof.
  destruct (Query sample_uninit last_part (str "/data/") [] (λ _, true) sample_files sample_contents 100 (with_limit 2 sample_sysquery))
    as [[[entries q']|]|] eqn:EQ; [|by vm_compute in EQ..].
  assert (Zlen entries = 3) as Hn.
  { assert (match Query sample_uninit last_part (str "/data/") [] (λ _, true) sample_files sample_contents 100 (with_limit 2 sample_sysquery)
      with Done (Some (en, _)) => Zlen en | _ => 0 end = 3) as E by by vm_compute. by rewrite EQ in E. }
  destruct (inner_query_exceeds_limit sample_uninit last_part (str "/data/") [] (λ _, true) sample_files sample_contents
    100 2 sample_sysquery entries q' EQ ltac:(lia) ltac:(lia)) as (records & E & Hr).
  exists records, q'. split; [exact E|rewrite Hr; reflexivity].
Defined.

(** Three documents of 600 KB of a type with a quota of 1 MB, all of one name. *)
Definition sample_dir (dir : bytes) : list bytes :=
  [str "/data/DOM/NAME-1-MINOR-20-0.db"; str "/data/DOM/NAME-1-MINOR-5-0.db"; str "/data/DOM/NAME-1-MINOR-90-0.db"].

Definition sample_config : gmap Z StoreConfig := {[1 := mkConfig 0 0 0 10 1]}.

Abbreviation sample_order := (clear_order last_part (str "/data/") [str "/data/DOM"] (λ _, true) sample_dir).
Abbreviation sample_map := (GetClearMap last_part sample_config (str "/data/") [str "/data/DOM"] (λ _, true) sample_dir (λ _, 600000)).
Abbreviation sample_removed := (clear_type last_part sample_config (λ _, 600000) (λ _, true) 1).

Lemma sample_clear :
  from_option (λ entry, length (sample_removed entry)) 0%nat (sample_map !! 1) = 2%nat ∧
  length (of_type 1 sample_order) = 3%nat ∧ Zlen sample_order < 2 ^ 32 ∧ sum_sizes (λ _, 600000) sample_order < 2 ^ 64.
Proof. by vm_compute. Qed.

Lemma clear_enforces_quota_witness :
  match sample_map !! 1 with
  | Some entry => ∃ kept, length (sample_removed entry) = 2%nat ∧ length kept = 1%nat ∧
      (∀ r k, r ∈ sample_removed entry → k ∈ kept →
        GetFileSeq last_part r <= GetFileSeq last_part k ∨ surplus last_part sample_config 1 sample_order r)
  | None => False
  end.
Proof.
  destruct sample_clear as (E2 & E3 & H1 & H2). assert (bytes → 0 <= 600000 < 2 ^ 64) as Hs by lia.
  pose proof (clear_enforces_quota last_part sample_config (str "/data/") [str "/data/DOM"] (λ _, true) sample_dir
    (λ _, 600000) (λ _, true) Hs 1 H1 H2) as H.
  revert E2 H. generalize (sample_map !! 1). intros o; destruct o as [entry|]; [|intros E2; exfalso; exact (O_S _ E2)]. change (from_option (λ entry, length (sample_removed entry)) 0%nat (Some entry)) with (length (sample_removed entry)).
  intros E2 (kept & HP & _ & _ & _ & Hold). exists kept. split; [exact E2|]. split; [|exact (λ r k Hr Hk, Hold r k Hr Hk eq_refl)].
  apply Permutation_length in HP. rewrite length_app, E2, E3 in HP. injection HP as HP. symmetry. exact HP.
Defined.

(** Files of different events are counted together when domain and name run into
    the same text. *)
Lemma clear_counts_collide :
  clear_info (str "/data/AB/C-1-MINOR-1-0.db") = clear_info (str "/data/A/BC-1-MINOR-2-0.db").
Proof. by vm_compute. Qed.

End Database.
