(* ===== verification/QueryControl.v ===== *)
(** * QueryControl: which queries are let through

    Models base/event_store/dao/sys_event_query_wrapper.cpp and the cache of
    base/event_store/include/sys_event_query_wrapper.h: a query from outside is
    refused when it asks for too much, when four others run, or when its process
    has asked too often; a query from inside is only logged.  The number of
    queries that run is kept by two critical sections, one that checks and one
    that counts, which other threads may come between. *)

From S2P Require Import Prelude.
From stdpp Require Import base gmap list numbers strings sorting.

Local Open Scope Z_scope.

Module QueryControl.

(** ** The cache of the last queries *)

Section Cache.
Context {V : Type} (v0 : V) (capacity : nat).

(** A list iterator is the identity of its node. *)
Record LruCache := mkLru {
  keyToIndex_ : gmap Z (Z * V);
  allKeysCache_ : list (Z * Z);
  nextNode : Z
}.

Definition LruCache_new : LruCache := mkLru ∅ [] 0.

(** The node of an iterator moves to the front and keeps its identity. *)
Definition splice_front (it : Z) (l : list (Z * Z)) : list (Z * Z) :=
  filter (λ x, x.1 = it) l ++ filter (λ x, x.1 ≠ it) l.

Definition cbegin (l : list (Z * Z)) : Z := default 0 (fst <$> head l).

Definition Modify (key : Z) (c : LruCache) : LruCache :=
  match keyToIndex_ c !! key with
  | None => c
  | Some (it, v) =>
      let l := splice_front it (allKeysCache_ c) in
      mkLru (<[key := (cbegin l, v)]> (keyToIndex_ c)) l (nextNode c)
  end.

Definition Get (key : Z) (c : LruCache) : V * LruCache :=
  match keyToIndex_ c !! key with
  | None => (v0, c)
  | Some _ => let c := Modify key c in (default v0 (snd <$> keyToIndex_ c !! key), c)
  end.

Definition Put (key : Z) (value : V) (c : LruCache) : LruCache :=
  match keyToIndex_ c !! key with
  | Some (it, _) => Modify key (mkLru (<[key := (it, value)]> (keyToIndex_ c)) (allKeysCache_ c) (nextNode c))
  | None =>
      let c :=
        if bool_decide (length (allKeysCache_ c) = capacity) then
          match last (allKeysCache_ c) with
          | Some (_, back) => mkLru (delete back (keyToIndex_ c)) (removelast (allKeysCache_ c)) (nextNode c)
          | None => c
          end
        else c in
      mkLru (<[key := (nextNode c, value)]> (keyToIndex_ c)) ((nextNode c, key) :: allKeysCache_ c) (nextNode c + 1)
  end.

End Cache.

(** ** Admission *)

Definition DEFAULT_CACHE_CAPACITY : nat := 30.
Definition QUERY_CONTROL_THRESHOLD : Z := 50.
Definition QUERY_CONTROL_PERIOD_IN_MILLI_SECONDS : Z := 1000.
Definition INVALID_TIME_STAMP : Z := 0.

Inductive DbQueryStatus := SUCCEED | CONCURRENT | OVER_TIME | OVER_LIMIT | TOO_FREQENTLY.

#[global] Instance DbQueryStatus_eq_dec : EqDecision DbQueryStatus.
Proof. solve_decision. Defined.

Record DbQueryTag := mkTag { isInnerQuery : bool; needFrequenceCheck : bool }.

Record QueryRecord := mkRecord { count : Z; begin : Z }.

Definition QueryRecord_new : QueryRecord := mkRecord 0 INVALID_TIME_STAMP.
Definition IsValid (r : QueryRecord) : bool := count r >? 0.

Abbreviation Controller := (@LruCache QueryRecord).
Abbreviation GetRecord := (Get QueryRecord_new).
Abbreviation PutRecord := (Put DEFAULT_CACHE_CAPACITY).

(** Each check answers and says what it reports to the caller. *)
Definition IsQueryCntLimitValid (tag : DbQueryTag) (limit : Z) : bool * option DbQueryStatus :=
  let queryLimit := if isInnerQuery tag then 50 else 1000 in
  if limit >? queryLimit then (isInnerQuery tag, Some OVER_LIMIT) else (true, None).

Definition IsQueryCostTimeValid (tag : DbQueryTag) (before after : Z) : bool * option DbQueryStatus :=
  if after - before <? 20 then (true, None) else (isInnerQuery tag, Some OVER_TIME).

(** [concurrentQueries_]: from inside and from outside. *)
Record ConcurrentQueries := mkConc { inner_cnt : Z; outer_cnt : Z }.

Definition concurrent (tag : DbQueryTag) (c : ConcurrentQueries) : Z :=
  if isInnerQuery tag then inner_cnt c else outer_cnt c.
Definition add_concurrent (tag : DbQueryTag) (n : Z) (c : ConcurrentQueries) : ConcurrentQueries :=
  if isInnerQuery tag then mkConc (inner_cnt c + n) (outer_cnt c) else mkConc (inner_cnt c) (outer_cnt c + n).

Definition conCurrentQueryCntLimit : Z := 4.

Definition IsConcurrentQueryCntValid (tag : DbQueryTag) (c : ConcurrentQueries) : bool * option DbQueryStatus :=
  if concurrent tag c <? conCurrentQueryCntLimit then (true, None) else (isInnerQuery tag, Some CONCURRENT).

Definition IncreaseConcurrentCnt (tag : DbQueryTag) : ConcurrentQueries → ConcurrentQueries := add_concurrent tag 1.
Definition DecreaseConcurrentCnt (tag : DbQueryTag) : ConcurrentQueries → ConcurrentQueries := add_concurrent tag (-1).

(** The record of the process after this query, [None] when it is left as it is, and
    whether the query comes too often. *)
Definition note_query (cur : Z) (r : QueryRecord) : bool * option QueryRecord :=
  if negb (IsValid r) || (begin r >? cur) || (cur - begin r >? QUERY_CONTROL_PERIOD_IN_MILLI_SECONDS)
  then (true, Some (mkRecord 1 cur))
  else if count r + 1 <=? QUERY_CONTROL_THRESHOLD then (true, Some (mkRecord (count r + 1) (begin r)))
  else (false, None).

Definition IsQueryFrequenceValid (tag : DbQueryTag) (queryProcessId cur : Z) (ctl : Controller)
    : bool * option DbQueryStatus * Controller :=
  if negb (needFrequenceCheck tag) then (true, None, ctl) else
  let '(record, ctl) := GetRecord queryProcessId ctl in
  match note_query cur record with
  | (_, Some record) => (true, None, PutRecord queryProcessId record ctl)
  | (_, None) => (isInnerQuery tag, Some TOO_FREQENTLY, ctl)
  end.

(** What the process-wide state is made of. *)
Record Shared := mkShared { queryController_ : Controller; concurrentQueries_ : ConcurrentQueries }.

Definition opt_list {A} (o : option A) : list A := match o with Some a => [a] | None => [] end.

(** The three checks of [Execute] in their order, each made only when the ones
    before it let the query through; [cur] is the clock. *)
Definition Admit (tag : DbQueryTag) (limit pid cur : Z) (s : Shared) : bool * list DbQueryStatus * Shared :=
  let '(ok1, st1) := IsQueryCntLimitValid tag limit in
  if negb ok1 then (false, opt_list st1, s) else
  let '(ok2, st2) := IsConcurrentQueryCntValid tag (concurrentQueries_ s) in
  if negb ok2 then (false, opt_list st1 ++ opt_list st2, s) else
  let '(ok3, st3, ctl) := IsQueryFrequenceValid tag pid cur (queryController_ s) in
  (ok3, opt_list st1 ++ opt_list st2 ++ opt_list st3, mkShared ctl (concurrentQueries_ s)).

(** [Execute] when no other thread interferes: the result of the query behind it, or
    [None] for the result set with the error code; the statuses in the order the
    callback gets them. *)
Definition Execute {R} (query : R) (tag : DbQueryTag) (limit pid cur before after : Z) (s : Shared)
    : option R * list DbQueryStatus * Shared :=
  let '(ok, st, s) := Admit tag limit pid cur s in
  if negb ok then (None, st, s) else
  let s := mkShared (queryController_ s) (DecreaseConcurrentCnt tag (IncreaseConcurrentCnt tag (concurrentQueries_ s))) in
  let '(ok, st') := IsQueryCostTimeValid tag before after in
  if negb ok then (None, st ++ opt_list st', s) else (Some query, st ++ opt_list st' ++ [SUCCEED], s).

(** ** Threads *)

Inductive Pc := Start | Checked | Running | Finished | Refused.

#[global] Instance Pc_eq_dec : EqDecision Pc.
Proof. solve_decision. Defined.

Abbreviation Thread := (DbQueryTag * Pc)%type.

(** One critical section of one thread; the other checks may also refuse. *)
Inductive step : list Thread * ConcurrentQueries → list Thread * ConcurrentQueries → Prop :=
  | step_check i tag ts c : ts !! i = Some (tag, Start) → (IsConcurrentQueryCntValid tag c).1 = true →
      step (ts, c) (<[i := (tag, Checked)]> ts, c)
  | step_refuse i tag pc ts c : ts !! i = Some (tag, pc) → pc = Start ∨ pc = Checked →
      step (ts, c) (<[i := (tag, Refused)]> ts, c)
  | step_increase i tag ts c : ts !! i = Some (tag, Checked) →
      step (ts, c) (<[i := (tag, Running)]> ts, IncreaseConcurrentCnt tag c)
  | step_decrease i tag ts c : ts !! i = Some (tag, Running) →
      step (ts, c) (<[i := (tag, Finished)]> ts, DecreaseConcurrentCnt tag c).

Definition initial (tags : list DbQueryTag) : list Thread * ConcurrentQueries := ((λ t, (t, Start)) <$> tags, mkConc 0 0).

(** ** The cache holds what was put *)

Section CacheFacts.
Context {V : Type} (v0 : V) (capacity : nat).

Abbreviation values c := (snd <$> keyToIndex_ (V:=V) c).
Abbreviation keys c := (snd <$> allKeysCache_ (V:=V) c).

Record cache_ok (c : LruCache) : Prop := {
  ids_unique : NoDup (fst <$> allKeysCache_ c);
  ids_old : ∀ it k, (it, k) ∈ allKeysCache_ c → it < nextNode c;
  index_listed : ∀ k it v, keyToIndex_ c !! k = Some (it, v) → (it, k) ∈ allKeysCache_ c;
  listed_index : ∀ k it, (it, k) ∈ allKeysCache_ c → ∃ v : V, keyToIndex_ c !! k = Some (it, v)
}.

Lemma cache_ok_new : cache_ok LruCache_new.
Proof. split; cbn; [constructor|by intros * ?%elem_of_nil|intros *; by rewrite lookup_empty|by intros * ?%elem_of_nil]. Qed.

Lemma splice_perm it l : splice_front it l ≡ₚ l.
Proof. apply filter_app_complement. Qed.

Lemma splice_begin it k l : NoDup (fst <$> l) → (it, k) ∈ l → cbegin (splice_front it l) = it.
Proof.
  intros _ Hin. unfold splice_front, cbegin.
  assert ((it, k) ∈ filter (λ x : Z * Z, x.1 = it) l) as Hf by by apply list_elem_of_filter.
  destruct (filter (λ x : Z * Z, x.1 = it) l) as [|[it' k'] rest] eqn:E; [by apply elem_of_nil in Hf|].
  assert ((it', k') ∈ filter (λ x : Z * Z, x.1 = it) l) as H by (rewrite E; apply list_elem_of_here).
  apply list_elem_of_filter in H as [H _]. exact H.
Qed.

Lemma Modify_ok k c : cache_ok c →
  cache_ok (Modify k c) ∧ keyToIndex_ (Modify k c) = keyToIndex_ c ∧ keys (Modify k c) ≡ₚ keys c.
Proof.
  intros Hok. unfold Modify. destruct (keyToIndex_ c !! k) as [[it v]|] eqn:E; [|done]. destruct Hok as [H1 H2 H3 H4].
  rewrite (splice_begin it k) by eauto. rewrite insert_id by done. split; [|split; [done|]].
  - split; cbn.
    + by rewrite splice_perm.
    + intros it' k'. rewrite splice_perm. eauto.
    + intros k' it' v'. rewrite splice_perm. eauto.
    + intros k' it'. rewrite splice_perm. eauto.
  - cbn. by rewrite splice_perm.
Qed.

Lemma Get_ok k c : cache_ok c →
  let '(v, c') := Get v0 k c in
  v = default v0 (values c !! k) ∧ cache_ok c' ∧ values c' = values c ∧ keys c' ≡ₚ keys c.
Proof.
  intros Hok. unfold Get. destruct (Modify_ok k c Hok) as (H1 & H2 & H3).
  rewrite lookup_fmap. destruct (keyToIndex_ c !! k) as [[it v]|] eqn:E; [|done]. cbn. rewrite H2, E. done.
Qed.

Lemma keys_unique c : cache_ok c → NoDup (keys c).
Proof.
  intros [H1 _ _ H4]. assert (NoDup (allKeysCache_ c)) as Hn by by eapply NoDup_fmap_1.
  revert H4. generalize (keyToIndex_ c). intros m Hm. clear H1. induction Hn as [|[it k] l Hnin Hn IH]; [constructor|].
  cbn. constructor.
  - intros Hk. apply list_elem_of_fmap in Hk as ([it' k'] & ? & Hin). cbn in *. subst k'. apply Hnin.
    destruct (Hm k it) as [v E]; [apply list_elem_of_here|]. destruct (Hm k it') as [v' E']; [by apply list_elem_of_further|]. by simplify_eq.
  - apply IH. intros k' it' Hin. apply Hm. by apply list_elem_of_further.
Qed.

(** Putting a key that is there, or into a cache with room. *)
Lemma Put_ok k v c : cache_ok c → k ∈ keys c ∨ length (keys c) ≠ capacity →
  let c' := Put capacity k v c in
  cache_ok c' ∧ values c' = <[k := v]> (values c) ∧ (∀ k', k' ∈ keys c' ↔ k' = k ∨ k' ∈ keys c).
Proof.
  intros Hok Hroom. unfold Put. destruct (keyToIndex_ c !! k) as [[it w]|] eqn:E.
  - set (c0 := mkLru _ _ _). assert (cache_ok c0) as H0.
    { destruct Hok as [H1 H2 H3 H4]. split; cbn; [done..| |].
      - intros k' it' v'. rewrite lookup_insert_Some. intros [[<- [= <- <-]]|[_ ?]]; eauto.
      - intros k' it' Hin. destruct (H4 k' it' Hin) as [v' E']. destruct (decide (k' = k)) as [->|].
        + rewrite lookup_insert_eq. simplify_eq. eauto.
        + rewrite lookup_insert_ne by done. eauto. }
    destruct (Modify_ok k c0 H0) as (H1 & H2 & H3). split; [done|]. split.
    + rewrite H2. cbn. by rewrite fmap_insert.
    + intros k'. rewrite H3. cbn. split; [by right|]. intros [->|?]; [|done].
      apply list_elem_of_fmap. exists (it, k). split; [done|]. by eapply index_listed.
  - destruct Hroom as [Hk|Hroom].
    { apply list_elem_of_fmap in Hk as ([it' k'] & -> & Hin). destruct (listed_index c Hok k' it' Hin) as [? ?]. cbn in *. by simplify_eq. }
    rewrite length_fmap in Hroom. rewrite bool_decide_false by done. cbn [allKeysCache_ keyToIndex_].
    destruct Hok as [H1 H2 H3 H4]. split; [split; cbn|split; [by rewrite fmap_insert|]].
    + constructor; [|done]. intros Hin. apply list_elem_of_fmap in Hin as ([it k'] & Hit & Hin). cbn in Hit.
      pose proof (H2 it k' Hin). lia.
    + intros it k'. rewrite elem_of_cons. intros [[= -> ->]|Hin]; [lia|]. pose proof (H2 it k' Hin). lia.
    + intros k' it v'. rewrite lookup_insert_Some, elem_of_cons. intros [[<- [= <- <-]]|[_ ?]]; [by left|right; eauto].
    + intros k' it. rewrite elem_of_cons. intros [[= -> ->]|Hin]; [rewrite lookup_insert_eq; eauto|].
      destruct (H4 k' it Hin) as [v' E']. exists v'. rewrite lookup_insert_ne; [done|]. intros ->. by simplify_eq.
    + intros k'. cbn. by rewrite elem_of_cons.
Qed.

End CacheFacts.

(** ** How often a process is let through *)

Definition outer : DbQueryTag := mkTag false true.

(** Queries from outside, each a process and a time; those let through. *)
Fixpoint run_queries (ctl : Controller) (l : list (Z * Z)) : list (Z * Z) * Controller :=
  match l with
  | [] => ([], ctl)
  | (pid, cur) :: l =>
      let '(ok, _, ctl) := IsQueryFrequenceValid outer pid cur ctl in
      let '(a, ctl) := run_queries ctl l in
      (if ok : bool then (pid, cur) :: a else a, ctl)
  end.

(** One process, seen alone. *)
Fixpoint rate (r : QueryRecord) (ts : list Z) : list Z :=
  match ts with
  | [] => []
  | cur :: ts => match note_query cur r with (_, Some r) => cur :: rate r ts | (_, None) => rate r ts end
  end.

Definition times_of (pid : Z) (l : list (Z * Z)) : list Z := snd <$> filter (λ q, q.1 = pid) l.

Definition record_of (pid : Z) (ctl : Controller) : QueryRecord :=
  default QueryRecord_new (snd <$> keyToIndex_ ctl !! pid).

Definition few (P : list Z) (ctl : Controller) : Prop :=
  cache_ok ctl ∧ (length P <= DEFAULT_CACHE_CAPACITY)%nat ∧ (snd <$> allKeysCache_ ctl) ⊆ P.

Lemma few_room P ctl pid : few P ctl → pid ∈ P →
  pid ∈ (snd <$> allKeysCache_ ctl) ∨ length (snd <$> allKeysCache_ ctl) ≠ DEFAULT_CACHE_CAPACITY.
Proof.
  intros (Hok & Hlen & Hsub) Hp. destruct (decide (pid ∈ (snd <$> allKeysCache_ ctl))) as [|Hn]; [by left|right].
  assert (NoDup (pid :: (snd <$> allKeysCache_ ctl))) as Hnd by (constructor; [done|by apply keys_unique]).
  assert (length (pid :: (snd <$> allKeysCache_ ctl)) <= length P)%nat as Hle.
  { apply submseteq_length, NoDup_submseteq; [done|]. intros x. rewrite elem_of_cons. intros [->|Hx]; [done|by apply Hsub]. }
  cbn in Hle. lia.
Qed.

(** One check: the answer depends on the record of the process, and only that
    record changes. *)
Lemma frequence_step P ctl pid cur : few P ctl → pid ∈ P →
  let '(ok, _, ctl') := IsQueryFrequenceValid outer pid cur ctl in
  few P ctl' ∧ (∀ p, p ≠ pid → record_of p ctl' = record_of p ctl) ∧
  match (note_query cur (record_of pid ctl)).2 with
  | Some r => ok = true ∧ record_of pid ctl' = r
  | None => ok = false ∧ record_of pid ctl' = record_of pid ctl
  end.
Proof.
  intros Hfew Hp. unfold IsQueryFrequenceValid. cbn [outer needFrequenceCheck negb isInnerQuery].
  pose proof (Get_ok QueryRecord_new pid ctl (proj1 Hfew)) as HG.
  destruct (GetRecord pid ctl) as [r ctl1]. destruct HG as (-> & Hok1 & Hv & Hk).
  assert (few P ctl1) as Hfew1.
  { destruct Hfew as (_ & ? & Hs). split_and!; [done..|]. intros x. rewrite Hk. apply Hs. }
  assert (∀ p, record_of p ctl1 = record_of p ctl) as Hr by (intros p; unfold record_of; by rewrite <- !lookup_fmap, Hv).
  rewrite lookup_fmap. fold (record_of pid ctl).
  destruct (note_query cur (record_of pid ctl)) as [? [r|]]; cbn [snd]; [|by rewrite Hr].
  pose proof (Put_ok DEFAULT_CACHE_CAPACITY pid r ctl1 Hok1 (few_room P ctl1 pid Hfew1 Hp)) as (H1 & H2 & H3).
  split_and!; [|intros p Hne; rewrite <- Hr|done|].
  - destruct Hfew1 as (_ & ? & Hs). split_and!; [done..|]. intros x. rewrite H3. intros [->|?]; auto.
  - unfold record_of. rewrite <- !lookup_fmap, H2. by rewrite lookup_insert_ne.
  - unfold record_of. rewrite <- !lookup_fmap, H2. by rewrite lookup_insert_eq.
Qed.

Lemma run_rate P pid : ∀ l ctl, few P ctl → (∀ q, q ∈ l → q.1 ∈ P) →
  times_of pid (run_queries ctl l).1 = rate (record_of pid ctl) (times_of pid l).
Proof.
  induction l as [|[p cur] l IH]; intros ctl Hf Hl; [done|]. cbn [run_queries].
  pose proof (frequence_step P ctl p cur Hf (Hl (p, cur) ltac:(apply list_elem_of_here))) as HS.
  destruct (IsQueryFrequenceValid outer p cur ctl) as [[ok st] ctl']. destruct HS as (Hf' & Hother & Hrec).
  assert (∀ q, q ∈ l → q.1 ∈ P) as Hl' by (intros q Hq; apply Hl; by apply list_elem_of_further).
  specialize (IH ctl' Hf' Hl'). destruct (run_queries ctl' l) as [a ctl'']. cbn [fst] in *. unfold times_of in *.
  destruct (decide (p = pid)) as [->|Hne].
  - rewrite (filter_cons_True _ (pid, cur) l) by done. cbn [fmap list_fmap snd rate].
    destruct (note_query cur (record_of pid ctl)) as [? [r|]]; cbn [snd] in Hrec; destruct Hrec as [-> <-].
    + by rewrite filter_cons_True, fmap_cons, IH by done.
    + exact IH.
  - rewrite (filter_cons_False _ (p, cur) l) by done. rewrite <- (Hother pid) by done. rewrite <- IH.
    destruct ok; [|done]. by rewrite filter_cons_False by done.
Qed.

Inductive noted (cur : Z) (r : QueryRecord) : option QueryRecord → Prop :=
  | noted_fresh : count r <= 0 ∨ cur < begin r ∨ begin r + 1000 < cur → noted cur r (Some (mkRecord 1 cur))
  | noted_counted : 0 < count r < 50 → begin r <= cur <= begin r + 1000 → noted cur r (Some (mkRecord (count r + 1) (begin r)))
  | noted_refused : 50 <= count r → begin r <= cur <= begin r + 1000 → noted cur r None.

Lemma note_query_noted cur r : noted cur r (note_query cur r).2.
Proof.
  unfold note_query, IsValid, QUERY_CONTROL_PERIOD_IN_MILLI_SECONDS, QUERY_CONTROL_THRESHOLD. rewrite !Z.gtb_ltb.
  destruct (Z.ltb_spec 0 (count r)); cbn [negb orb]; [|apply noted_fresh; by left].
  destruct (Z.ltb_spec cur (begin r)); cbn [orb]; [apply noted_fresh; right; by left|].
  destruct (Z.ltb_spec 1000 (cur - begin r)); [apply noted_fresh; right; right; lia|].
  destruct (Z.leb_spec (count r + 1) 50); [apply noted_counted; lia|apply noted_refused; lia].
Qed.

Definition within (t t' : Z) (ts : list Z) : Z := Zlen (filter (λ x, t <= x <= t') ts).

Lemma within_cons t t' x ts : within t t' (x :: ts) = (if decide (t <= x <= t') then 1 else 0) + within t t' ts.
Proof. unfold within. rewrite filter_cons. destruct (decide _); [|lia]. unfold Zlen. cbn [length]. lia. Qed.

Lemma within_none t t' ts : Forall (λ x, t' < x) ts → within t t' ts = 0.
Proof. induction 1 as [|x ts Hx H IH]; [done|]. rewrite within_cons, IH. destruct (decide _); lia. Qed.

Lemma rate_incl r ts x : x ∈ rate r ts → x ∈ ts.
Proof.
  revert r. induction ts as [|y ts IH]; intros r; [done|]. cbn. destruct (note_query y r) as [? [r'|]]; rewrite ?elem_of_cons.
  - intros [?|?]; [by left|right; eauto].
  - right. eauto.
Qed.

Lemma rate_late r ts t : Forall (λ x, t < x) ts → Forall (λ x, t < x) (rate r ts).
Proof. rewrite !Forall_forall. intros H x Hx. apply H. by eapply rate_incl. Qed.

Definition sorted_from (b : Z) (ts : list Z) : Prop := StronglySorted Z.le ts ∧ Forall (Z.le b) ts.

Lemma sorted_next b x ts : sorted_from b (x :: ts) → b <= x ∧ sorted_from x ts ∧ sorted_from b ts.
Proof.
  intros [H1 H2]. apply StronglySorted_inv in H1 as [H1 H3]. apply Forall_cons in H2 as [H2 H4]. done.
Qed.

(** In the window that is open, what is left of its allowance. *)
Lemma rate_window : ∀ ts r t t',
  0 < count r <= 50 → sorted_from (begin r) ts → t' <= begin r + 1000 → within t t' (rate r ts) <= 50 - count r.
Proof.
  induction ts as [|x ts IH]; intros r t t' Hc Hs Ht; [change (within t t' (rate r [])) with 0; lia|]. apply sorted_next in Hs as (Hx & Hsx & Hsb).
  cbn [rate]. pose proof (note_query_noted x r) as HN. destruct (note_query x r) as [? o]. cbn [snd] in HN.
  destruct HN as [Hf|Hc' Hw|Hc' Hw].
  - assert (begin r + 1000 < x) as Hlate by lia. rewrite within_cons.
    rewrite within_none; [destruct (decide _); lia|]. apply rate_late. destruct Hsx as [_ Hsx].
    eapply Forall_impl; [exact Hsx|]. cbn. intros. lia.
  - rewrite within_cons. specialize (IH (mkRecord (count r + 1) (begin r)) t t' ltac:(cbn; lia) Hsb Ht). cbn in IH.
    destruct (decide _); lia.
  - apply IH; done.
Qed.

Lemma rate_open : ∀ ts r t,
  0 < count r <= 50 → sorted_from (begin r) ts → t <= begin r + 1000 → within t (t + 1000) (rate r ts) <= 100 - count r.
Proof.
  induction ts as [|x ts IH]; intros r t Hc Hs Ht; [change (within t (t + 1000) (rate r [])) with 0; lia|]. apply sorted_next in Hs as (Hx & Hsx & Hsb).
  cbn [rate]. pose proof (note_query_noted x r) as HN. destruct (note_query x r) as [? o]. cbn [snd] in HN.
  destruct HN as [Hf|Hc' Hw|Hc' Hw].
  - rewrite within_cons. pose proof (rate_window ts (mkRecord 1 x) t (t + 1000) ltac:(cbn; lia) Hsx ltac:(cbn; lia)) as H.
    cbn in H. destruct (decide _); lia.
  - rewrite within_cons. specialize (IH (mkRecord (count r + 1) (begin r)) t ltac:(cbn; lia) Hsb Ht). cbn in IH.
    destruct (decide _); lia.
  - by apply IH.
Qed.

Lemma rate_bounded : ∀ ts r t,
  count r <= 50 → sorted_from (begin r) ts → within t (t + 1000) (rate r ts) <= 100.
Proof.
  induction ts as [|x ts IH]; intros r t Hc Hs; [change (within t (t + 1000) (rate r [])) with 0; lia|]. pose proof Hs as Hs0. apply sorted_next in Hs as (Hx & Hsx & Hsb).
  cbn [rate]. pose proof (note_query_noted x r) as HN. destruct (note_query x r) as [? o]. cbn [snd] in HN.
  destruct HN as [Hf|Hc' Hw|Hc' Hw].
  - rewrite within_cons. destruct (decide _) as [Hd|Hd].
    + pose proof (rate_open ts (mkRecord 1 x) t ltac:(cbn; lia) Hsx ltac:(cbn; lia)) as H. cbn in H. lia.
    + pose proof (IH (mkRecord 1 x) t ltac:(cbn; lia) Hsx). lia.
  - rewrite within_cons. destruct (decide _) as [Hd|Hd].
    + pose proof (rate_open ts (mkRecord (count r + 1) (begin r)) t ltac:(cbn; lia) Hsb ltac:(cbn; lia)) as H. cbn in H. lia.
    + pose proof (IH (mkRecord (count r + 1) (begin r)) t ltac:(cbn; lia) Hsb). lia.
  - by apply IH.
Qed.

(** A refusal has fifty queries let through behind it. *)
Lemma rate_refusal : ∀ ts r cur h,
  (0 < count r → count r <= within (begin r) cur h) → sorted_from (begin r) (ts ++ [cur]) → Forall (λ x, x <= cur) h →
  rate r (ts ++ [cur]) = rate r ts → 50 <= within (cur - 1000) cur (h ++ rate r ts).
Proof.
  induction ts as [|x ts IH]; intros r cur h Hh Hs Hhc; cbn [app rate].
  - pose proof (note_query_noted cur r) as HN. destruct (note_query cur r) as [? o]. cbn [snd] in HN.
    destruct HN as [Hf|Hc' Hw|Hc' Hw]; [done|done|]. intros _. rewrite app_nil_r.
    specialize (Hh ltac:(lia)). etrans; [exact Hc'|]. etrans; [exact Hh|]. unfold within, Zlen. apply inj_le.
    assert (filter (λ y, begin r <= y <= cur) h = filter (λ y, begin r <= y <= cur) (filter (λ y, cur - 1000 <= y <= cur) h)) as ->.
    { rewrite list_filter_filter. apply list_filter_iff. intros y. lia. }
    apply length_filter.
  - cbn [app] in Hs. apply sorted_next in Hs as (Hx & Hsx & Hsb).
    assert (x <= cur) as Hxc.
    { destruct Hsx as [_ Hsx]. rewrite Forall_app in Hsx. destruct Hsx as [_ Hsx]. by apply Forall_cons in Hsx as [? _]. }
    assert (∀ l, within l cur (h ++ [x]) = within l cur h + if decide (l <= x) then 1 else 0) as Hsnoc.
    { intros l. unfold within, Zlen. rewrite filter_app, length_app, filter_cons, filter_nil.
      destruct (decide (l <= x)), (decide (l <= x <= cur)); cbn; lia. }
    assert (Forall (λ y, y <= cur) (h ++ [x])) as Hhc' by (apply Forall_app; split; [done|by constructor]).
    pose proof (note_query_noted x r) as HN. destruct (note_query x r) as [? o]. cbn [snd] in HN.
    destruct HN as [Hf|Hc' Hw|Hc' Hw].
    + intros [= E]. rewrite cons_middle, app_assoc. apply IH; [|exact Hsx|done|done]. cbn. intros _. rewrite Hsnoc.
      rewrite decide_True by lia. unfold within, Zlen. lia.
    + intros [= E]. rewrite cons_middle, app_assoc. apply IH; [|exact Hsb|done|done]. cbn. intros _. rewrite Hsnoc.
      rewrite decide_True by lia. specialize (Hh ltac:(lia)). lia.
    + intros E. by apply IH.
Qed.

Lemma times_of_sorted pid : ∀ l b, sorted_from b (snd <$> l) → sorted_from b (times_of pid l).
Proof.
  unfold times_of. induction l as [|[p x] l IH]; intros b Hs; [done|]. cbn [fmap list_fmap snd] in Hs.
  apply sorted_next in Hs as (Hx & Hsx & Hsb). destruct (decide (p = pid)) as [->|].
  - rewrite filter_cons_True by done. cbn. destruct (IH x Hsx) as [H1 H2]. split; [by constructor|].
    constructor; [done|]. eapply Forall_impl; [exact H2|]. cbn. lia.
  - rewrite filter_cons_False by done. by apply IH.
Qed.

Lemma times_of_app pid l l' : times_of pid (l ++ l') = times_of pid l ++ times_of pid l'.
Proof. unfold times_of. by rewrite filter_app, fmap_app. Qed.

Lemma few_new P : (length P <= DEFAULT_CACHE_CAPACITY)%nat → few P LruCache_new.
Proof. intros H. split_and!; [apply cache_ok_new|done|]. intros x Hx. by apply elem_of_nil in Hx. Qed.

(** queries from outside with a clock that does not go back, of at most thirty
    processes (the capacity of the cache): in any second a process is let through
    at most a hundred times, whatever the others do; and it is refused only when
    fifty of its queries were let through in the second before. *)
Theorem query_rate_bounded P l pid :
  (length P <= DEFAULT_CACHE_CAPACITY)%nat → (∀ q, q ∈ l → q.1 ∈ P) → pid ∈ P → sorted_from 0 (snd <$> l) →
  (∀ t, within t (t + QUERY_CONTROL_PERIOD_IN_MILLI_SECONDS) (times_of pid (run_queries LruCache_new l).1) <= 100) ∧
  (∀ cur, sorted_from 0 (snd <$> l ++ [(pid, cur)]) →
    times_of pid (run_queries LruCache_new (l ++ [(pid, cur)])).1 = times_of pid (run_queries LruCache_new l).1 →
    QUERY_CONTROL_THRESHOLD <=
      within (cur - QUERY_CONTROL_PERIOD_IN_MILLI_SECONDS) cur (times_of pid (run_queries LruCache_new l).1)).
Proof.
  intros HP Hl Hpid Hs. assert (record_of pid LruCache_new = QueryRecord_new) as Er by done.
  assert (∀ q, q ∈ l ++ [(pid, q.2)] → q.1 ∈ P) as _ by (intros q [?| ->%list_elem_of_singleton]%elem_of_app; auto).
  rewrite (run_rate P) by (done || by apply few_new). rewrite Er. split.
  - intros t. apply rate_bounded; [done|]. by apply times_of_sorted.
  - intros cur Hs' E. rewrite (run_rate P) in E; [|by apply few_new|].
    2:{ intros q [?| ->%list_elem_of_singleton]%elem_of_app; auto. }
    rewrite Er, times_of_app in E. unfold times_of at 2 in E. cbn [filter list_filter] in E.
    rewrite decide_True in E by done. apply times_of_sorted with (pid := pid) in Hs'.
    rewrite times_of_app in Hs'. unfold times_of at 2 in Hs'. cbn [filter list_filter] in Hs'.
    rewrite decide_True in Hs' by done.
    apply (rate_refusal _ QueryRecord_new cur []); [cbn; lia|done|constructor|exact E].
Qed.

(** Sixty queries at once: fifty are let through. *)
Definition burst : list (Z * Z) := replicate 60 (7, 5000).

Lemma query_rate_bounded_witness :
  times_of 7 (run_queries LruCache_new burst).1 = replicate 50 5000 ∧
  within 4500 5500 (times_of 7 (run_queries LruCache_new burst).1) <= 100.
Proof.
  split; [by vm_compute|]. refine (proj1 (query_rate_bounded [7] burst 7 _ _ _ _) 4500).
  - apply (bool_decide_unpack _). by vm_compute.
  - intros q Hq. apply elem_of_replicate in Hq as [-> _]. apply list_elem_of_here.
  - apply list_elem_of_here.
  - unfold burst. rewrite fmap_replicate. cbn [snd]. split.
    + generalize 60%nat. intros n. induction n as [|n IH]; [constructor|]. cbn. constructor; [done|]. apply Forall_replicate. lia.
    + apply Forall_replicate. lia.
Defined.

(** ** How many run *)

Definition running (tag_inner : bool) (ts : list Thread) : Z :=
  Zlen (filter (λ t : Thread, isInnerQuery t.1 = tag_inner ∧ t.2 = Running) ts).

Definition counts_ok (s : list Thread * ConcurrentQueries) : Prop :=
  inner_cnt s.2 = running true s.1 ∧ outer_cnt s.2 = running false s.1.

Lemma running_update b ts i tag pc pc' :
  ts !! i = Some (tag, pc) →
  running b (<[i := (tag, pc')]> ts) = running b ts
    + (if decide (isInnerQuery tag = b ∧ pc' = Running) then 1 else 0)
    - (if decide (isInnerQuery tag = b ∧ pc = Running) then 1 else 0).
Proof.
  intros Hi. unfold running, Zlen. rewrite insert_take_drop by by eapply lookup_lt_Some.
  transitivity (Z.of_nat (length (filter (λ t : Thread, isInnerQuery t.1 = b ∧ t.2 = Running) (take i ts ++ (tag, pc) :: drop (S i) ts)))
    + (if decide (isInnerQuery tag = b ∧ pc' = Running) then 1 else 0)
    - (if decide (isInnerQuery tag = b ∧ pc = Running) then 1 else 0)); [|by rewrite (take_drop_middle ts i (tag, pc) Hi)].
  rewrite !filter_app, !length_app, !filter_cons. cbn [fst snd]. repeat case_decide; cbn [length]; lia.
Qed.

Lemma step_counts s s' : step s s' → counts_ok s → counts_ok s'.
Proof.
  unfold counts_ok. intros Hst. destruct Hst as [i tag ts c Hi _|i tag pc ts c Hi Hpc|i tag ts c Hi|i tag ts c Hi]; cbn [fst snd];
    intros [E1 E2]; rewrite !(running_update _ _ _ _ _ _ Hi);
    [|destruct Hpc as [-> | ->]| |]; unfold IncreaseConcurrentCnt, DecreaseConcurrentCnt, add_concurrent;
    destruct (isInnerQuery tag); cbn [inner_cnt outer_cnt]; repeat case_decide; intuition (congruence || lia).
Qed.

Lemma initial_counts tags : counts_ok (initial tags).
Proof.
  unfold counts_ok, initial, running, Zlen. cbn [fst snd inner_cnt outer_cnt]. split.
  all: induction tags as [|t tags IH]; [done|]; cbn [fmap list_fmap]; rewrite filter_cons_False; [exact IH|by intros []].
Qed.

(** whatever the threads of concurrent queries do and in whatever order, the two
    counters are the numbers of queries that run, from inside and from outside: no
    query is counted twice or forgotten, on any path, and both counters are zero
    whenever no query runs. *)
Theorem concurrent_counts_exact tags s :
  rtc step (initial tags) s → counts_ok s ∧ (Forall (λ t : Thread, t.2 ≠ Running) s.1 → s.2 = mkConc 0 0).
Proof.
  intros Hr. assert (counts_ok s) as Hc.
  { pose proof (initial_counts tags) as H0. revert H0. induction Hr; [done|]. eauto using step_counts. }
  split; [done|]. intros HF. destruct s as [ts [n m]]. destruct Hc as [E1 E2]. cbn [fst snd inner_cnt outer_cnt] in *.
  assert (∀ b, running b ts = 0) as H0.
  { intros b. unfold running. rewrite Forall_forall in HF.
    destruct (filter (λ t : Thread, isInnerQuery t.1 = b ∧ t.2 = Running) ts) as [|t l] eqn:E; first done.
    assert (t ∈ filter (λ t : Thread, isInnerQuery t.1 = b ∧ t.2 = Running) ts) as Ht by (rewrite E; apply list_elem_of_here).
    apply list_elem_of_filter in Ht as [[_ Ht] Hin]. by destruct (HF t Hin). }
  by rewrite E1, E2, !H0.
Qed.

(** The check and the count are separate critical sections: five threads that all
    check before one counts run together although the limit is four. *)
Definition five : list DbQueryTag := replicate 5 outer.

Ltac check_by i := eapply rtc_l; [apply (step_check i outer); reflexivity|cbn].
Ltac count_by i := eapply rtc_l; [apply (step_increase i outer); reflexivity|cbn].

Lemma concurrent_limit_race :
  ∃ s, rtc step (initial five) s ∧ outer_cnt s.2 = 5 ∧ conCurrentQueryCntLimit = 4.
Proof.
  eexists. split; [|split; [|done]].
  - do 5 (first [check_by 0%nat|check_by 1%nat|check_by 2%nat|check_by 3%nat|check_by 4%nat]).
    do 5 (first [count_by 0%nat|count_by 1%nat|count_by 2%nat|count_by 3%nat|count_by 4%nat]).
    apply rtc_refl.
  - done.
Qed.

(** One query that ran. *)
Lemma concurrent_counts_exact_witness :
  ∃ s, rtc step (initial [outer]) s ∧ s.1 = [(outer, Finished)] ∧ s.2 = mkConc 0 0.
Proof.
  set (s := ([(outer, Finished)], mkConc 0 0)). assert (rtc step (initial [outer]) s) as Hr.
  { eapply rtc_l; [by apply (step_check 0 outer)|]. eapply rtc_l; [by apply (step_increase 0 outer)|].
    eapply rtc_l; [by apply (step_decrease 0 outer)|]. apply rtc_refl. }
  exists s. split; [done|]. split; [done|]. apply (proj2 (concurrent_counts_exact [outer] s Hr)). by constructor.
Defined.

End QueryControl.
