(* ===== verification/EventExport.v ===== *)
(** * EventExport: exporting the stored events in order

    Models src/plugins/event_store/event_export: the task of a module
    (task/export/event_export_task.cpp), the handler that reads the events in
    ranges of numbers (event_read_handler.cpp), the handler and the packagers that
    write them to files (event_write_handler.cpp, export_event_packager.cpp), the
    record of the progress (database/export_db_manager.cpp) and the switch
    (event_export_util.cpp).  The query behind a range is a parameter, promised by
    a class; so is whether the n-th file can be written and moved.  A file is known
    by the number of its writing and holds the events themselves: the JSON text is
    printed by cJSON. *)

From S2P Require Import Prelude Text DbFile.
From stdpp Require Import base gmap list numbers strings sorting.

Local Open Scope Z_scope.

Module EventExport.

(** ** Events and files *)

Record EventVersion := mkVersion { systemVersion : bytes; patchVersion : bytes }.

Record CachedEvent := mkCached {
  version : EventVersion;
  domain : bytes;
  name : bytes;
  eventStr : bytes;
  uid : Z
}.

Abbreviation CachedEventMap := (gmap bytes (list (bytes * bytes))).

Record File := mkFile { f_version : EventVersion; f_uid : Z; f_events : CachedEventMap }.

(** Temporary and exported files by number, and the number of the next one. *)
Record World := mkWorld { temps : gmap Z File; finals : gmap Z File; next : Z }.

Section Writing.
Context (write_ok rename_ok : Z → bool).

(** ** Packagers *)

Record Packager := mkPackager {
  eventVersion_ : EventVersion;
  uid_ : Z;
  maxFileSize_ : Z;
  totalJsonStrSize_ : Z;
  packagedEvents_ : CachedEventMap;
  packagedFiles_ : list Z
}.

Definition MB_TO_BYTE : Z := 1024 * 1024.

Definition ExportEventPackager (v : EventVersion) (uid maxFileSize : Z) : Packager :=
  mkPackager v uid (u64 (maxFileSize * MB_TO_BYTE)) 0 ∅ [].

Definition ClearPackagedEvents (p : Packager) : Packager :=
  mkPackager (eventVersion_ p) (uid_ p) (maxFileSize_ p) 0 ∅ (packagedFiles_ p).

Definition set_files (l : list Z) (p : Packager) : Packager :=
  mkPackager (eventVersion_ p) (uid_ p) (maxFileSize_ p) (totalJsonStrSize_ p) (packagedEvents_ p) l.

(** A packaged file is known by a number of its own; the code names it by the time in
    milliseconds and the user, taken to differ. *)
Definition Package (p : Packager) (w : World) : bool * Packager * World :=
  if bool_decide (packagedEvents_ p = ∅) then (true, p, w) else
  let w' := mkWorld (temps w) (finals w) (next w + 1) in
  if write_ok (next w) then
    (true, ClearPackagedEvents (set_files (packagedFiles_ p ++ [next w]) p),
     mkWorld (<[next w := mkFile (eventVersion_ p) (uid_ p) (packagedEvents_ p)]> (temps w)) (finals w) (next w + 1))
  else (false, ClearPackagedEvents p, w').

Definition add_event (domain name eventStr : bytes) (p : Packager) : Packager :=
  mkPackager (eventVersion_ p) (uid_ p) (maxFileSize_ p) (u64 (totalJsonStrSize_ p + Zlen eventStr))
    (<[domain := default [] (packagedEvents_ p !! domain) ++ [(name, eventStr)]]> (packagedEvents_ p)) (packagedFiles_ p).

Definition AppendEvent (domain name eventStr : bytes) (p : Packager) (w : World) : bool * Packager * World :=
  let '(ok, p, w) :=
    if u64 (totalJsonStrSize_ p + Zlen eventStr) >? maxFileSize_ p then Package p w else (true, p, w) in
  if negb ok then (false, p, w) else (true, add_event domain name eventStr p, w).

Definition ClearPackagedFiles (p : Packager) (w : World) : Packager * World :=
  (set_files [] p, mkWorld (foldr delete (temps w) (packagedFiles_ p)) (finals w) (next w)).

Definition move_file (w : World) (n : Z) : World :=
  if negb (rename_ok n) then w else
  match temps w !! n with
  | None => w
  | Some f => mkWorld (delete n (temps w)) (<[n := f]> (finals w)) (next w)
  end.

Definition HandlePackagedFiles (p : Packager) (w : World) : Packager * World :=
  (set_files [] p, foldl move_file w (packagedFiles_ p)).

(** ** The write handler *)

(** [packagers_], a [std::map]: in the order of its keys. *)
Abbreviation Packagers := (list (bytes * Packager)).

Definition GetPackagerKey (e : CachedEvent) : bytes :=
  systemVersion (version e) ++ str "_" ++ patchVersion (version e) ++ str "_" ++ to_string (uid e).

Fixpoint insert_sorted (key : bytes) (p : Packager) (ps : Packagers) : Packagers :=
  match ps with
  | [] => [(key, p)]
  | (k, q) :: rest => if DbFile.bytes_lt key k then (key, p) :: ps else (k, q) :: insert_sorted key p rest
  end.

(** [emplace] leaves a key that is there as it is. *)
Definition emplace (key : bytes) (p : Packager) (ps : Packagers) : Packagers :=
  if bool_decide (key ∈ ps.*1) then ps else insert_sorted key p ps.

Fixpoint find_packager (key : bytes) (ps : Packagers) : option Packager :=
  match ps with
  | [] => None
  | (k, q) :: rest => if bool_decide (k = key) then Some q else find_packager key rest
  end.

Definition store (key : bytes) (p : Packager) (ps : Packagers) : Packagers :=
  (λ kp, if bool_decide (kp.1 = key) then (key, p) else kp) <$> ps.

(** One event: its packager, made if need be, takes it. *)
Definition write_event (maxSingleFileSize : Z) (e : CachedEvent) (ps : Packagers) (w : World) : bool * Packagers * World :=
  let key := GetPackagerKey e in
  let ps := emplace key (ExportEventPackager (version e) (uid e) maxSingleFileSize) ps in
  match find_packager key ps with
  | None => (false, ps, w)
  | Some p =>
      let '(ok, p, w) := AppendEvent (domain e) (name e) (eventStr e) p w in
      (ok, store key p ps, w)
  end.

Fixpoint write_events (maxSingleFileSize : Z) (es : list CachedEvent) (ps : Packagers) (w : World) : bool * Packagers * World :=
  match es with
  | [] => (true, ps, w)
  | e :: es =>
      let '(ok, ps, w) := write_event maxSingleFileSize e ps w in
      if negb ok then (false, ps, w) else write_events maxSingleFileSize es ps w
  end.

(** [Package] of every packager, until one fails. *)
Fixpoint package_all (ps : Packagers) (w : World) : bool * Packagers * World :=
  match ps with
  | [] => (true, [], w)
  | (k, p) :: rest =>
      let '(ok, p, w) := Package p w in
      if negb ok then (false, (k, p) :: rest, w)
      else let '(ok, rest, w) := package_all rest w in (ok, (k, p) :: rest, w)
  end.

Fixpoint for_packagers (f : Packager → World → Packager * World) (ps : Packagers) (w : World) : Packagers * World :=
  match ps with
  | [] => ([], w)
  | (k, p) :: rest =>
      let '(p, w) := f p w in let '(rest, w) := for_packagers f rest w in ((k, p) :: rest, w)
  end.

Definition Rollback : Packagers → World → Packagers * World := for_packagers ClearPackagedFiles.
Definition Finish : Packagers → World → Packagers * World := for_packagers HandlePackagedFiles.

Definition WriteRequest (maxSingleFileSize : Z) (events : list CachedEvent) (isQueryCompleted : bool)
    (ps : Packagers) (w : World) : bool * Packagers * World :=
  let '(ok, ps, w) := write_events maxSingleFileSize events ps w in
  if negb ok then let '(ps, w) := Rollback ps w in (false, ps, w) else
  if negb isQueryCompleted then (true, ps, w) else
  let '(ok, ps, w) := package_all ps w in
  if negb ok then let '(ps, w) := Rollback ps w in (false, ps, w)
  else let '(ps, w) := Finish ps w in (true, ps, w).

(** ** The read handler *)

Definition QUERY_LIMIT : Z := 1000.

Abbreviation ExportEventList := (list (bytes * list bytes)).

(** [Execute] of the query for the names of a domain, numbers from the first up to
    the second, the limit and the task's type: the records in their order, the JSON
    text with them. *)
Context (run_query : bytes → list bytes → Z → Z → Z → Z → list CachedEvent).

(** What a request says. *)
Record EventReadRequest := mkRead {
  beginSeq : Z;
  endSeq : Z;
  maxSize : Z;
  eventList : ExportEventList;
  taskType : Z
}.

(** [cachedSysEvents_], the packagers of the next handler, the files. *)
Record Reading := mkReading { cachedSysEvents_ : list CachedEvent; packagers_ : Packagers; world : World }.

Definition set_cached (l : list CachedEvent) (s : Reading) : Reading := mkReading l (packagers_ s) (world s).

(** The callback of [HandleRequest]: hand on what is cached. *)
Definition hand_on (req : EventReadRequest) (isQueryCompleted : bool) (s : Reading) : bool * Reading :=
  let '(ok, ps, w) := WriteRequest (maxSize req) (cachedSysEvents_ s) isQueryCompleted (packagers_ s) (world s) in
  (ok, mkReading [] ps w).

Fixpoint HandleQueryResult (req : EventReadRequest) (records : list CachedEvent) (queryLimit totalQueryCnt : Z) (s : Reading)
    : bool * Z * Reading :=
  match records with
  | [] => (true, totalQueryCnt, s)
  | r :: records =>
      if negb (totalQueryCnt >? 0) then (true, totalQueryCnt, s) else
      if bool_decide (eventStr r = []) then HandleQueryResult req records queryLimit totalQueryCnt s else
      let '(ok, s) := if Zlen (cachedSysEvents_ s) >=? queryLimit then hand_on req false s else (true, s) in
      if negb ok then (false, totalQueryCnt, s) else
      HandleQueryResult req records queryLimit (totalQueryCnt - 1) (set_cached (cachedSysEvents_ s ++ [r]) s)
  end.

Fixpoint query_domains (req : EventReadRequest) (b e : Z) (l : ExportEventList) (queryCnt : Z) (s : Reading) : bool * Reading :=
  match l with
  | [] => (true, s)
  | (dom, names) :: l =>
      if negb (queryCnt >? 0) then (true, s) else
      let queryLimit := if queryCnt <? QUERY_LIMIT then queryCnt else QUERY_LIMIT in
      let '(ok, queryCnt, s) := HandleQueryResult req (run_query dom names b e queryLimit (taskType req)) queryLimit queryCnt s in
      if negb ok then (false, s) else query_domains req b e l queryCnt s
  end.

Definition QuerySysEvent (req : EventReadRequest) (b e : Z) (s : Reading) : bool * Reading :=
  let '(ok, s) := query_domains req b e (eventList req) (e - b) s in
  if negb ok then (false, s) else hand_on req true s.

(** The attempts of [QuerySysEventInRange]. *)
Fixpoint attempts (retryCnt : nat) (req : EventReadRequest) (b e : Z) (s : Reading) : bool * Reading :=
  match retryCnt with
  | O => (false, s)
  | S retryCnt =>
      let '(ok, s) := QuerySysEvent req b e s in
      if ok : bool then (true, s) else attempts retryCnt req b e (set_cached [] s)
  end.

Fixpoint split_ranges (fuel : nat) (b e : Z) : list (Z * Z) :=
  match fuel with
  | O => [(b, e)]
  | S fuel => if b + QUERY_LIMIT <? e then (b, b + QUERY_LIMIT) :: split_ranges fuel (b + QUERY_LIMIT) e else [(b, e)]
  end.

(** Every range takes some numbers away, so the number of numbers is enough. *)
Definition queryRanges (req : EventReadRequest) : list (Z * Z) :=
  split_ranges (Z.to_nat (endSeq req - beginSeq req)) (beginSeq req) (endSeq req).

(** Range after range; the ends the listener is told, in their order. *)
Fixpoint read_ranges (req : EventReadRequest) (l : list (Z * Z)) (s : Reading) : bool * list Z * Reading :=
  match l with
  | [] => (true, [], s)
  | (b, e) :: l =>
      let '(ok, s) := attempts 3 req b e s in
      if negb ok then (false, [e], s)
      else let '(ok, told, s) := read_ranges req l s in (ok, e :: told, s)
  end.

Definition ReadRequest (req : EventReadRequest) (w : World) : bool * list Z * Reading :=
  read_ranges req (queryRanges req) (mkReading [] [] w).

(** ** The record of the progress *)

Definition INVALID_SEQ_VAL : Z := -1.
Definition EXPORT_MAX_CNT : Z := 1000000.

Record ExportDetailRecord := mkDetail { moduleName : bytes; exportEnabledSeq : Z; exportedMaxSeq : Z }.

(** The rows of the table by module, the modules with an inherit flag file, the
    current and the first sequence number of this run. *)
Record Progress := mkProgress {
  details : gmap bytes (Z * Z);
  inheritFlags : gset bytes;
  GetSequence : Z;
  GetStartSequence : Z
}.

Definition set_details (d : gmap bytes (Z * Z)) (st : Progress) : Progress :=
  mkProgress d (inheritFlags st) (GetSequence st) (GetStartSequence st).

(** The record of a module; the default one when there is none. *)
Definition GetExportDetailRecord (module : bytes) (st : Progress) : ExportDetailRecord :=
  match (if bool_decide (module = []) then None else details st !! module) with
  | Some (en, mx) => mkDetail module en mx
  | None => mkDetail [] INVALID_SEQ_VAL INVALID_SEQ_VAL
  end.

Definition GetExportEnabledSeq (module : bytes) (st : Progress) : Z :=
  let record := GetExportDetailRecord module st in
  if bool_decide (moduleName record = []) then INVALID_SEQ_VAL else exportEnabledSeq record.

Definition GetExportBeginSeq (module : bytes) (st : Progress) : Z :=
  let record := GetExportDetailRecord module st in
  if exportEnabledSeq record =? INVALID_SEQ_VAL then INVALID_SEQ_VAL
  else Z.max (exportEnabledSeq record) (exportedMaxSeq record).

Definition GetExportEndSeq (module : bytes) (st : Progress) : Z := exportedMaxSeq (GetExportDetailRecord module st).

Definition IsUnrecordedModule (module : bytes) (st : Progress) : bool :=
  bool_decide (moduleName (GetExportDetailRecord module st) = []).

Definition HandleExportSwitchChanged (module : bytes) (curSeq : Z) (st : Progress) : Progress :=
  let record := GetExportDetailRecord module st in
  if bool_decide (moduleName record = []) then set_details (<[module := (curSeq, INVALID_SEQ_VAL)]> (details st)) st
  else if (negb (exportEnabledSeq record =? INVALID_SEQ_VAL) && negb (curSeq =? INVALID_SEQ_VAL)) ||
          ((exportEnabledSeq record =? INVALID_SEQ_VAL) && (curSeq =? INVALID_SEQ_VAL)) then st
  else set_details (<[module := (curSeq, exportedMaxSeq record)]> (details st)) st.

Definition HandleExportTaskFinished (module : bytes) (eventSeq : Z) (st : Progress) : Progress :=
  let record := GetExportDetailRecord module st in
  if bool_decide (moduleName record = []) then set_details (<[module := (INVALID_SEQ_VAL, eventSeq)]> (details st)) st
  else set_details (<[module := (exportEnabledSeq record, eventSeq)]> (details st)) st.

(** ** The switch *)

Definition HandleExportSwitchOn (module : bytes) (st : Progress) : Progress :=
  if bool_decide (module ∈ inheritFlags st) then st else HandleExportSwitchChanged module (GetSequence st) st.

Definition HandleExportSwitchOff (module : bytes) (st : Progress) : Progress :=
  let st := HandleExportSwitchChanged module INVALID_SEQ_VAL st in
  mkProgress (details st) (inheritFlags st ∖ {[module]}) (GetSequence st) (GetStartSequence st).

Definition GetModuleExportEnabledSeq (module inheritedModule : bytes) (st : Progress) : Z :=
  if IsUnrecordedModule module st then GetSequence st
  else if bool_decide (inheritedModule = []) || IsUnrecordedModule inheritedModule st then GetStartSequence st
  else GetExportEndSeq inheritedModule st.

Definition SyncDbByExportSwitchStatus (module inheritedModule : bytes) (isSwitchOff : bool) (st : Progress) : Progress :=
  let enabledSeq := GetExportEnabledSeq module st in
  if isSwitchOff then
    if negb (enabledSeq =? INVALID_SEQ_VAL) && negb (bool_decide (module ∈ inheritFlags st))
    then HandleExportSwitchChanged module INVALID_SEQ_VAL st else st
  else if enabledSeq =? INVALID_SEQ_VAL
    then HandleExportSwitchChanged module (GetModuleExportEnabledSeq module inheritedModule st) st else st.

(** [RegisterSettingObserver] once the observer is registered; [upgraded] is what
    the upgrade parameter of the module says. *)
Definition InheritOnUpgrade (module : bytes) (upgraded : bool) (st : Progress) : Progress :=
  if IsUnrecordedModule module st && upgraded then
    let st := HandleExportSwitchChanged module (GetStartSequence st) st in
    mkProgress (details st) ({[module]} ∪ inheritFlags st) (GetSequence st) (GetStartSequence st)
  else st.

(** ** The task *)

Record ExportConfig := mkExportConfig {
  c_moduleName : bytes;
  c_inheritedModule : bytes;
  c_maxSize : Z;
  c_taskType : Z
}.

(** The request, or [None]; [list] is what [ParseExportEventList] found. *)
Definition InitReadRequest (c : ExportConfig) (list : option ExportEventList) (st : Progress) : option EventReadRequest :=
  let begin := GetExportBeginSeq (c_moduleName c) st in
  if begin =? INVALID_SEQ_VAL then None else
  let maxSeq := GetSequence st in
  if maxSeq <? begin then None else
  let expectEndSeq := begin + EXPORT_MAX_CNT in
  let e := if maxSeq >? expectEndSeq then expectEndSeq else maxSeq in
  match list with
  | None | Some [] => None
  | Some l => Some (mkRead begin e (c_maxSize c) l (c_taskType c))
  end.

(** [OnTaskRun]: the state and the files after it, and the range it read with the
    end the listener was told last, if it came to that.  The handlers are new. *)
Definition OnTaskRun (c : ExportConfig) (isSwitchOff dirFull : bool) (list : option ExportEventList) (st : Progress) (w : World)
    : option (Z * Z) * Progress * World :=
  let st := SyncDbByExportSwitchStatus (c_moduleName c) (c_inheritedModule c) isSwitchOff st in
  if isSwitchOff then (None, st, w) else
  if dirFull : bool then (None, st, w) else
  match InitReadRequest c list st with
  | None => (None, st, w)
  | Some req =>
      let '(_, told, s) := ReadRequest req w in
      let st := foldl (λ st e, HandleExportTaskFinished (c_moduleName c) e st) st told in
      (Some (beginSeq req, default (beginSeq req) (last told)), st, world s)
  end.

(** ** Nothing is lost while nothing fails *)

(** What is in a packager or a file, in no particular order. *)
Definition Item : Type := bytes * bytes * bytes.

Definition item (e : CachedEvent) : Item := (domain e, name e, eventStr e).

Definition domain_items (dl : bytes * list (bytes * bytes)) : list Item := (λ ns, (dl.1, ns.1, ns.2)) <$> dl.2.
Definition map_items (m : CachedEventMap) : list Item := map_to_list m ≫= domain_items.
Definition packers_items (ps : list (bytes * Packager)) : list Item := ps ≫= λ kp, map_items (packagedEvents_ kp.2).
Definition files_items (m : gmap Z File) : list Item := map_to_list m ≫= λ nf, map_items (f_events nf.2).
Definition all_files (ps : list (bytes * Packager)) : list Z := ps ≫= λ kp, packagedFiles_ kp.2.

#[local] Instance bind_perm {A B} (f : A → list B) : Proper (Permutation ==> Permutation) (mbind f).
Proof. intros l l' H. induction H; cbn; [done|by f_equiv| |by etrans]. rewrite !app_assoc. f_equiv. apply Permutation_app_comm. Qed.

Lemma map_items_add m d n s :
  map_items (<[d := default [] (m !! d) ++ [(n, s)]]> m) ≡ₚ (d, n, s) :: map_items m.
Proof.
  unfold map_items. destruct (m !! d) as [l|] eqn:E; cbn [default from_option].
  - rewrite <- insert_delete_eq, map_to_list_insert by apply lookup_delete_eq.
    rewrite <- (insert_delete_id m d l E) at 2. rewrite map_to_list_insert by apply lookup_delete_eq.
    cbn. unfold domain_items at 1 2. cbn [fst snd]. rewrite fmap_app. cbn.
    rewrite <- Permutation_middle. by rewrite app_nil_r.
  - rewrite map_to_list_insert by done. cbn. done.
Qed.

Lemma files_items_insert m n f : m !! n = None → files_items (<[n := f]> m) ≡ₚ map_items (f_events f) ++ files_items m.
Proof. intros E. unfold files_items. by rewrite map_to_list_insert. Qed.

Lemma files_items_delete m n f : m !! n = Some f → files_items m ≡ₚ map_items (f_events f) ++ files_items (delete n m).
Proof. intros E. rewrite <- (insert_delete_id m n f E) at 1. apply files_items_insert, lookup_delete_eq. Qed.

Lemma map_items_empty : map_items ∅ = [].
Proof. unfold map_items. by rewrite map_to_list_empty. Qed.

Context (write_fine : ∀ n, write_ok n = true) (rename_fine : ∀ n, rename_ok n = true).

(** Files are numbered in order, the temporary ones are those of the packagers. *)
Record files_ok (ps : list (bytes * Packager)) (w : World) : Prop := {
  keys_nodup : NoDup ps.*1;
  files_nodup : NoDup (all_files ps);
  temps_files : ∀ n, is_Some (temps w !! n) ↔ n ∈ all_files ps;
  temps_old : ∀ n, n ∈ all_files ps → n < next w;
  finals_old : ∀ n, is_Some (finals w !! n) → n < next w;
  finals_temps : ∀ n, n ∈ all_files ps → finals w !! n = None
}.

Definition contents (ps : list (bytes * Packager)) (w : World) : list Item := packers_items ps ++ files_items (temps w).

Lemma bind_middle {A B} (f : A → list B) l1 x l2 : (l1 ++ x :: l2) ≫= f ≡ₚ f x ++ ((l1 ++ l2) ≫= f).
Proof. rewrite <- Permutation_middle. done. Qed.

(** Packaging one of the packagers. *)
Lemma Package_ok l1 k p l2 w :
  files_ok (l1 ++ (k, p) :: l2) w →
  let '(ok, p', w') := Package p w in
  ok = true ∧ files_ok (l1 ++ (k, p') :: l2) w' ∧ contents (l1 ++ (k, p') :: l2) w' ≡ₚ contents (l1 ++ (k, p) :: l2) w ∧
  packagedEvents_ p' = ∅ ∧ finals w' = finals w.
Proof.
  intros Hok. unfold Package. case_bool_decide as He; [done|]. rewrite write_fine.
  destruct Hok as [H1 H2 H3 H4 H5 H6]. set (p' := ClearPackagedEvents _).
  assert (all_files (l1 ++ (k, p') :: l2) ≡ₚ next w :: all_files (l1 ++ (k, p) :: l2)) as Hf.
  { unfold all_files. rewrite !bind_middle. cbn. rewrite <- app_assoc. cbn. by rewrite <- Permutation_middle. }
  assert (next w ∉ all_files (l1 ++ (k, p) :: l2)) as Hn by (intros Hin; pose proof (H4 _ Hin); lia).
  assert (temps w !! next w = None) as Ht.
  { destruct (temps w !! next w) eqn:E; [|done]. destruct Hn. apply H3. eauto. }
  split; [done|]. split_and!; [split; cbn|..].
  - rewrite fmap_app, fmap_cons in *. exact H1.
  - rewrite Hf. by constructor.
  - intros n. rewrite Hf, elem_of_cons, lookup_insert_is_Some, H3. destruct (decide (n = next w)); naive_solver.
  - intros n. rewrite Hf, elem_of_cons. intros [->|Hin]; [lia|]. pose proof (H4 n Hin). lia.
  - intros n Hin. pose proof (H5 n Hin). lia.
  - intros n. rewrite Hf, elem_of_cons. intros [->|Hin]; [|by apply H6].
    destruct (finals w !! next w) eqn:E; [|done]. pose proof (H5 (next w) ltac:(eauto)). lia.
  - unfold contents, packers_items. rewrite !bind_middle. cbn. rewrite files_items_insert by done. cbn.
    rewrite map_items_empty. cbn. rewrite (Permutation_app_comm (map_items _) (_ ≫= _)), <- app_assoc. done.
  - done.
  - done.
Qed.

Lemma add_event_ok l1 k p l2 w d n s :
  files_ok (l1 ++ (k, p) :: l2) w →
  files_ok (l1 ++ (k, add_event d n s p) :: l2) w ∧
  contents (l1 ++ (k, add_event d n s p) :: l2) w ≡ₚ (d, n, s) :: contents (l1 ++ (k, p) :: l2) w.
Proof.
  intros [H1 H2 H3 H4 H5 H6].
  assert (all_files (l1 ++ (k, add_event d n s p) :: l2) = all_files (l1 ++ (k, p) :: l2)) as Hf.
  { unfold all_files. by rewrite !bind_app, !bind_cons. }
  split; [split; rewrite ?Hf; try done; by rewrite fmap_app, fmap_cons in *|].
  unfold contents, packers_items. rewrite !bind_middle. cbn. by rewrite map_items_add.
Qed.

Lemma AppendEvent_ok l1 k p l2 w d n s :
  files_ok (l1 ++ (k, p) :: l2) w →
  let '(ok, p', w') := AppendEvent d n s p w in
  ok = true ∧ files_ok (l1 ++ (k, p') :: l2) w' ∧
  contents (l1 ++ (k, p') :: l2) w' ≡ₚ (d, n, s) :: contents (l1 ++ (k, p) :: l2) w ∧ finals w' = finals w.
Proof.
  intros Hok. unfold AppendEvent. destruct (_ >? _).
  - pose proof (Package_ok l1 k p l2 w Hok) as HP. destruct (Package p w) as [[ok p'] w'].
    destruct HP as (-> & Hok' & HC & _ & HF). cbn [negb]. destruct (add_event_ok l1 k p' l2 w' d n s Hok') as [H1 H2].
    split_and!; [done|done|by rewrite H2, HC|done].
  - cbn [negb]. by destruct (add_event_ok l1 k p l2 w d n s Hok).
Qed.

#[local] Instance all_files_perm : Proper (Permutation ==> Permutation) all_files.
Proof. intros l l' H. unfold all_files. by rewrite H. Qed.

#[local] Instance packers_items_perm : Proper (Permutation ==> Permutation) packers_items.
Proof. intros l l' H. unfold packers_items. by rewrite H. Qed.

Lemma files_ok_perm ps ps' w : ps ≡ₚ ps' → files_ok ps w → files_ok ps' w.
Proof.
  intros HP [H1 H2 H3 H4 H5 H6]. split; [by rewrite <- HP|by rewrite <- HP|..]; intros n; rewrite <- ?HP; auto.
Qed.

Lemma contents_perm ps ps' w : ps ≡ₚ ps' → contents ps w ≡ₚ contents ps' w.
Proof. intros HP. unfold contents. by rewrite HP. Qed.

Lemma insert_sorted_perm key p ps : insert_sorted key p ps ≡ₚ (key, p) :: ps.
Proof.
  induction ps as [|[k q] ps IH]; cbn; [done|]. destruct (DbFile.bytes_lt key k); [done|].
  rewrite IH. apply perm_swap.
Qed.

Lemma emplace_ok key v u m ps w :
  files_ok ps w → let ps' := emplace key (ExportEventPackager v u m) ps in
  files_ok ps' w ∧ contents ps' w ≡ₚ contents ps w ∧ key ∈ ps'.*1.
Proof.
  intros Hok. unfold emplace. case_bool_decide as Hk; [done|]. pose proof (insert_sorted_perm key (ExportEventPackager v u m) ps) as HP.
  split_and!.
  - eapply files_ok_perm; [symmetry; exact HP|]. destruct Hok as [H1 H2 H3 H4 H5 H6]. split; try done. by constructor.
  - rewrite (contents_perm _ _ _ HP). unfold contents, packers_items. rewrite bind_cons. done.
  - rewrite HP. apply list_elem_of_here.
Qed.

Lemma find_store key ps :
  NoDup ps.*1 → key ∈ ps.*1 →
  ∃ l1 p l2, ps = l1 ++ (key, p) :: l2 ∧ find_packager key ps = Some p ∧ ∀ q, store key q ps = l1 ++ (key, q) :: l2.
Proof.
  induction ps as [|[k q] ps IH]; cbn [fmap list_fmap fst find_packager]; intros Hn Hk; [by apply elem_of_nil in Hk|].
  apply NoDup_cons in Hn as [Hnk Hn]. case_bool_decide as E.
  - subst k. exists [], q, ps. split_and!; [done|done|]. intros r. unfold store. cbn. rewrite bool_decide_true by done. f_equal.
    transitivity (id <$> ps); [|apply list_fmap_id]. apply list_fmap_ext. intros i [k' q'] Hi. cbn [fst id].
    rewrite bool_decide_false; [done|]. intros ->. apply Hnk, list_elem_of_fmap. exists (key, q').
    split; [done|by eapply list_elem_of_lookup_2].
  - apply elem_of_cons in Hk as [->|Hk]; [done|]. destruct (IH Hn Hk) as (l1 & p & l2 & -> & Hf & Hst).
    exists ((k, q) :: l1), p, l2. split_and!; [done|done|]. intros r. unfold store in *. cbn. rewrite Hst.
    by rewrite bool_decide_false.
Qed.

Lemma write_event_ok m e ps w :
  files_ok ps w →
  let '(ok, ps', w') := write_event m e ps w in
  ok = true ∧ files_ok ps' w' ∧ contents ps' w' ≡ₚ item e :: contents ps w ∧ finals w' = finals w.
Proof.
  intros Hok. unfold write_event. destruct (emplace_ok (GetPackagerKey e) (version e) (uid e) m ps w Hok) as (Hok' & HC & Hk).
  set (ps0 := emplace _ _ ps) in *. destruct (find_store (GetPackagerKey e) ps0) as (l1 & p & l2 & E & -> & Hst); [by destruct Hok'|done|].
  rewrite E in Hok', HC. pose proof (AppendEvent_ok l1 _ p l2 w (domain e) (name e) (eventStr e) Hok') as HA.
  destruct (AppendEvent _ _ _ p w) as [[ok p'] w']. destruct HA as (-> & H1 & H2 & H3). rewrite Hst.
  split_and!; [done|done| |done]. rewrite H2. unfold item. by rewrite HC.
Qed.

Lemma write_events_ok m es : ∀ ps w,
  files_ok ps w →
  let '(ok, ps', w') := write_events m es ps w in
  ok = true ∧ files_ok ps' w' ∧ contents ps' w' ≡ₚ (item <$> es) ++ contents ps w ∧ finals w' = finals w.
Proof.
  induction es as [|e es IH]; intros ps w Hok; cbn [write_events]; [done|].
  pose proof (write_event_ok m e ps w Hok) as H. destruct (write_event m e ps w) as [[ok ps1] w1].
  destruct H as (-> & H1 & H2 & H3). cbn [negb]. specialize (IH ps1 w1 H1).
  destruct (write_events m es ps1 w1) as [[ok ps2] w2]. destruct IH as (-> & H4 & H5 & H6).
  split_and!; [done|done| |congruence]. rewrite H5, H2. cbn. by rewrite <- Permutation_middle.
Qed.

Lemma package_all_ok ps : ∀ l1 w,
  files_ok (l1 ++ ps) w →
  let '(ok, ps', w') := package_all ps w in
  ok = true ∧ files_ok (l1 ++ ps') w' ∧ contents (l1 ++ ps') w' ≡ₚ contents (l1 ++ ps) w ∧ packers_items ps' = [] ∧ finals w' = finals w.
Proof.
  induction ps as [|[k p] ps IH]; intros l1 w Hok; cbn [package_all]; [done|].
  pose proof (Package_ok l1 k p ps w Hok) as H. destruct (Package p w) as [[ok p'] w1].
  destruct H as (-> & H1 & H2 & H3 & H4). cbn [negb]. rewrite cons_middle, app_assoc in H1.
  specialize (IH (l1 ++ [(k, p')]) w1 H1). destruct (package_all ps w1) as [[ok ps2] w2].
  destruct IH as (-> & H5 & H6 & H7 & H8). rewrite <- !app_assoc in *. cbn [app] in *.
  split_and!; [done|done|by rewrite H6|unfold packers_items in *; cbn; rewrite H3, map_items_empty; exact H7|congruence].
Qed.

Lemma move_files l : ∀ w,
  NoDup l → (∀ n, n ∈ l → is_Some (temps w !! n) ∧ finals w !! n = None) →
  let w' := foldl move_file w l in
  (∀ n, temps w' !! n = if decide (n ∈ l) then None else temps w !! n) ∧
  (∀ n, finals w' !! n = if decide (n ∈ l) then temps w !! n else finals w !! n) ∧ next w' = next w ∧
  files_items (temps w') ++ files_items (finals w') ≡ₚ files_items (temps w) ++ files_items (finals w).
Proof.
  induction l as [|n l IH]; intros w Hn Hl; cbn [foldl]; [done|]. apply NoDup_cons in Hn as [Hnl Hn].
  destruct (Hl n ltac:(apply list_elem_of_here)) as [[f Et] Ef].
  assert (move_file w n = mkWorld (delete n (temps w)) (<[n := f]> (finals w)) (next w)) as E.
  { unfold move_file. by rewrite rename_fine, Et. }
  rewrite E. set (w1 := mkWorld _ _ _). destruct (IH w1 Hn) as (H1 & H2 & H3 & H4).
  { intros n' Hin. destruct (Hl n' ltac:(by apply list_elem_of_further)). assert (n' ≠ n) by congruence. cbn.
    by rewrite lookup_delete_ne, lookup_insert_ne by done. }
  split_and!; [intros n'; rewrite H1|intros n'; rewrite H2|done|].
  - cbn. destruct (decide (n' ∈ l)), (decide (n' ∈ n :: l)) as [|Hx]; try done.
    + destruct Hx. by apply list_elem_of_further.
    + assert (n' = n) as -> by (by apply elem_of_cons in e as [?|?]). by rewrite lookup_delete_eq.
    + rewrite lookup_delete_ne; [done|]. intros ->. apply Hx, list_elem_of_here.
  - cbn. destruct (decide (n' ∈ l)) as [Hy|], (decide (n' ∈ n :: l)) as [|Hx].
    + rewrite lookup_delete_ne; [done|]. by intros ->.
    + destruct Hx. by apply list_elem_of_further.
    + assert (n' = n) as -> by (by apply elem_of_cons in e as [?|?]). by rewrite lookup_insert_eq.
    + rewrite lookup_insert_ne; [done|]. intros ->. apply Hx, list_elem_of_here.
  - rewrite H4. cbn. rewrite (files_items_insert _ _ _ Ef), (files_items_delete _ _ _ Et), !app_assoc. f_equiv.
    apply Permutation_app_comm.
Qed.

Lemma Finish_files ps : ∀ w,
  Finish ps w = ((λ kp, (kp.1, set_files [] kp.2)) <$> ps, foldl move_file w (all_files ps)).
Proof.
  unfold Finish. induction ps as [|[k p] ps IH]; intros w; cbn [for_packagers]; [done|]. cbn. rewrite IH.
  f_equal. unfold all_files. cbn. by rewrite foldl_app.
Qed.

Lemma Finish_ok ps w :
  files_ok ps w → packers_items ps = [] →
  let '(ps', w') := Finish ps w in
  files_ok ps' w' ∧ contents ps' w' = [] ∧ temps w' = ∅ ∧ files_items (finals w') ≡ₚ contents ps w ++ files_items (finals w).
Proof.
  intros [H1 H2 H3 H4 H5 H6] He. rewrite Finish_files.
  destruct (move_files (all_files ps) w H2) as (M1 & M2 & M3 & M4); [intros n Hn; split; [by apply H3|by apply H6]|].
  set (w' := foldl move_file w (all_files ps)) in *. set (ps' := (λ kp, _) <$> ps).
  assert (all_files ps' = []) as Ha by (subst ps'; clear; induction ps; done).
  assert (packers_items ps' = []) as Hp.
  { rewrite <- He. subst ps'. clear. unfold packers_items. induction ps as [|[k p] ps IH]; [done|]. cbn. by rewrite <- IH. }
  assert (temps w' = ∅) as Ht.
  { apply map_empty. intros n. rewrite M1. destruct (decide (n ∈ all_files ps)) as [|Hn]; [done|].
    destruct (temps w !! n) eqn:E; [|done]. destruct Hn. apply H3. eauto. }
  split_and!.
  - split; rewrite ?Ha, ?Ht.
    + subst ps'. rewrite <- list_fmap_compose. exact H1.
    + constructor.
    + intros n. rewrite lookup_empty. split; [by intros []|by intros ?%elem_of_nil].
    + by intros n ?%elem_of_nil.
    + intros n. rewrite M2, M3. destruct (decide (n ∈ all_files ps)); eauto.
    + by intros n ?%elem_of_nil.
  - unfold contents. rewrite Hp, Ht. unfold files_items. by rewrite map_to_list_empty.
  - exact Ht.
  - rewrite Ht in M4. unfold files_items at 1 in M4. rewrite map_to_list_empty in M4. cbn in M4. rewrite M4.
    unfold contents. by rewrite He.
Qed.

Lemma WriteRequest_ok m es done_ ps w :
  files_ok ps w →
  let '(ok, ps', w') := WriteRequest m es done_ ps w in
  ok = true ∧ files_ok ps' w' ∧
  if done_ : bool then contents ps' w' = [] ∧ temps w' = ∅ ∧ files_items (finals w') ≡ₚ (item <$> es) ++ contents ps w ++ files_items (finals w)
  else contents ps' w' ≡ₚ (item <$> es) ++ contents ps w ∧ finals w' = finals w.
Proof.
  intros Hok. unfold WriteRequest. pose proof (write_events_ok m es ps w Hok) as H.
  destruct (write_events m es ps w) as [[ok ps1] w1]. destruct H as (-> & H1 & H2 & H3). cbn [negb].
  destruct done_; cbn [negb]; [|done]. pose proof (package_all_ok ps1 [] w1 H1) as HP.
  destruct (package_all ps1 w1) as [[ok ps2] w2]. cbn [app] in HP. destruct HP as (-> & H4 & H5 & H6 & H7). cbn [negb].
  pose proof (Finish_ok ps2 w2 H4 H6) as HF. destruct (Finish ps2 w2) as [ps3 w3]. destruct HF as (H8 & H9 & H9' & H10).
  split_and!; [done|done|done|done|]. rewrite H10, H5, H2, H7, H3. by rewrite app_assoc.
Qed.

Definition reading_ok (s : Reading) : Prop := files_ok (packagers_ s) (world s).
Definition held (s : Reading) : list Item := (item <$> cachedSysEvents_ s) ++ contents (packagers_ s) (world s).
Definition exported (s : Reading) : list Item := files_items (finals (world s)).

Lemma hand_on_ok req done_ s :
  reading_ok s →
  let '(ok, s') := hand_on req done_ s in
  ok = true ∧ reading_ok s' ∧ cachedSysEvents_ s' = [] ∧
  if done_ : bool then held s' = [] ∧ temps (world s') = ∅ ∧ exported s' ≡ₚ held s ++ exported s
  else held s' ≡ₚ held s ∧ exported s' = exported s.
Proof.
  intros Hok. unfold hand_on. pose proof (WriteRequest_ok (maxSize req) (cachedSysEvents_ s) done_ _ _ Hok) as H.
  destruct (WriteRequest _ _ _ _ _) as [[ok ps] w]. destruct H as (-> & H1 & H2). split_and!; [done|done|done|].
  unfold held, exported. cbn. destruct done_; [destruct H2 as (H2 & H2' & H3)|destruct H2 as [H2 H3]].
  - split; [done|]. split; [done|]. by rewrite H3, app_assoc.
  - split; [done|]. by rewrite H3.
Qed.

(** The records that have a text. *)
Definition shown (l : list CachedEvent) : list CachedEvent := filter (λ r, eventStr r ≠ []) l.

Lemma HandleQueryResult_ok req limit : ∀ records total s,
  reading_ok s → Zlen records <= total →
  let '(ok, total', s') := HandleQueryResult req records limit total s in
  ok = true ∧ total' = total - Zlen (shown records) ∧ reading_ok s' ∧
  held s' ≡ₚ (item <$> shown records) ++ held s ∧ exported s' = exported s.
Proof.
  induction records as [|r records IH]; intros total s Hok Ht; cbn [HandleQueryResult].
  { split_and!; try done. unfold Zlen. cbn. lia. }
  unfold Zlen in Ht. cbn [length] in Ht. rewrite Z.gtb_ltb, (proj2 (Z.ltb_lt 0 total)) by lia. cbn [negb].
  unfold shown. rewrite filter_cons. case_bool_decide as He.
  { rewrite decide_False by (by intros []). apply IH; [done|]. unfold Zlen. lia. }
  rewrite decide_True by done.
  assert (∀ s1, reading_ok s1 → held s1 ≡ₚ held s → exported s1 = exported s →
    let '(ok, total', s') := HandleQueryResult req records limit (total - 1) (set_cached (cachedSysEvents_ s1 ++ [r]) s1) in
    ok = true ∧ total' = total - Zlen (r :: filter (λ r, eventStr r ≠ []) records) ∧ reading_ok s' ∧
    held s' ≡ₚ (item <$> r :: filter (λ r, eventStr r ≠ []) records) ++ held s ∧ exported s' = exported s) as Hnext.
  { intros s1 H1 H2 H3. set (s2 := set_cached _ s1).
    assert (held s2 ≡ₚ item r :: held s1) as Hh.
    { unfold held, s2. cbn. rewrite fmap_app, <- app_assoc. cbn. by rewrite <- Permutation_middle. }
    specialize (IH (total - 1) s2 H1 ltac:(unfold Zlen; lia)). destruct (HandleQueryResult _ _ _ _ s2) as [[ok total'] s'].
    destruct IH as (-> & -> & H4 & H5 & H6). split_and!; [done|unfold Zlen; cbn [length]; unfold shown; lia|done| |by rewrite H6].
    rewrite H5, Hh, H2. cbn. by rewrite <- Permutation_middle. }
  destruct (_ >=? _); [|by apply Hnext].
  pose proof (hand_on_ok req false s Hok) as HH. destruct (hand_on req false s) as [ok s1].
  destruct HH as (-> & H1 & _ & H2 & H3). cbn [negb]. by apply Hnext.
Qed.

(** ** The events of a range *)

(** The events stored, with their numbers, and the task types an event is for. *)
Context (stored : list (Z * CachedEvent)) (of_task : Z → CachedEvent → bool).
Context (stored_nodup : NoDup stored.*1).

Definition wants (tt : Z) (dn : bytes * list bytes) (x : CachedEvent) : Prop :=
  domain x = dn.1 ∧ (dn.2 = [] ∨ name x ∈ dn.2) ∧ of_task tt x = true.

#[local] Instance wants_dec tt dn x : Decision (wants tt dn x).
Proof. unfold wants. apply _. Defined.

Definition matching (dn : bytes * list bytes) (b e tt : Z) : list (Z * CachedEvent) :=
  filter (λ x, b <= x.1 < e ∧ wants tt dn x.2) stored.

Definition selected (l : ExportEventList) (b e tt : Z) : list (Z * CachedEvent) :=
  filter (λ x, b <= x.1 < e ∧ Exists (λ dn, wants tt dn x.2) l) stored.

(** A query whose limit is not below the number of matching events finds them all. *)
Context (query_law : ∀ dom names b e limit tt,
  Zlen (matching (dom, names) b e tt) <= limit → run_query dom names b e limit tt ≡ₚ (matching (dom, names) b e tt).*2).

Lemma filter_or {A} (P Q R : A → Prop) `{∀ x, Decision (P x), ∀ x, Decision (Q x), ∀ x, Decision (R x)} (l : list A) :
  (∀ x, R x ↔ P x ∨ Q x) → (∀ x, P x → Q x → False) → filter R l ≡ₚ filter P l ++ filter Q l.
Proof.
  intros HR HD. induction l as [|x l IH]; [done|]. rewrite !filter_cons.
  pose proof (HR x) as Hx. destruct (decide (P x)) as [Hp|Hp], (decide (Q x)) as [Hq|Hq].
  - destruct (HD x Hp Hq).
  - rewrite decide_True by tauto. by rewrite IH.
  - rewrite decide_True by tauto. rewrite IH. apply Permutation_middle.
  - rewrite decide_False by tauto. done.
Qed.

Lemma selected_cons dn l b e tt : dn.1 ∉ l.*1 → selected (dn :: l) b e tt ≡ₚ matching dn b e tt ++ selected l b e tt.
Proof.
  intros Hn. apply filter_or.
  - intros x. rewrite Exists_cons. naive_solver.
  - intros x [_ [Hd _]] [_ He]. apply Exists_exists in He as ([d ns] & Hin & [Hd' _]). cbn in *.
    apply Hn. apply list_elem_of_fmap. exists (d, ns). split; [cbn; congruence|done].
Qed.

Lemma numbers_bounded (l : list (Z * CachedEvent)) b e :
  NoDup l.*1 → (∀ x, x ∈ l → b <= x.1 < e) → b <= e → Zlen l <= e - b.
Proof.
  intros Hn Hl Hbe. assert (l.*1 ⊆+ seqZ b (e - b)) as Hs.
  { apply NoDup_submseteq; [done|]. intros n Hin. apply list_elem_of_fmap in Hin as (x & -> & Hx). apply elem_of_seqZ.
    pose proof (Hl x Hx). lia. }
  apply submseteq_length in Hs. rewrite length_fmap, length_seqZ in Hs. unfold Zlen. lia.
Qed.

Lemma selected_bounded l b e tt : b <= e → Zlen (selected l b e tt) <= e - b.
Proof.
  intros Hbe. apply numbers_bounded; [|intros x Hx; by apply list_elem_of_filter in Hx as [[? _] _]|done].
  eapply sublist_NoDup; [exact stored_nodup|]. apply fmap_sublist, sublist_filter.
Qed.

Lemma shown_le l : Zlen (shown l) <= Zlen l.
Proof. unfold Zlen, shown. apply inj_le. apply length_filter. Qed.

#[local] Instance shown_perm : Proper (Permutation ==> Permutation) shown.
Proof. intros l l' H. unfold shown. by rewrite H. Qed.

Lemma shown_app l l' : shown (l ++ l') = shown l ++ shown l'.
Proof. apply filter_app. Qed.

Lemma query_domains_ok req b e : ∀ l cnt s,
  reading_ok s → NoDup l.*1 → Zlen (selected l b e (taskType req)) <= cnt → cnt <= QUERY_LIMIT →
  let '(ok, s') := query_domains req b e l cnt s in
  ok = true ∧ reading_ok s' ∧ held s' ≡ₚ (item <$> shown (selected l b e (taskType req)).*2) ++ held s ∧ exported s' = exported s.
Proof.
  induction l as [|[dom names] l IH]; intros cnt s Hok Hn Hc Hq; cbn [query_domains].
  { assert (selected [] b e (taskType req) = []) as ->; [|done].
    unfold selected. clear. induction stored as [|x st IHs]; [done|].
    rewrite filter_cons_False; [exact IHs|]. intros [_ H]. by apply Exists_nil in H. }
  cbn [fmap list_fmap fst] in Hn. apply NoDup_cons in Hn as [Hnd Hn].
  pose proof (selected_cons (dom, names) l b e (taskType req) Hnd) as HP.
  assert (Zlen (matching (dom, names) b e (taskType req)) + Zlen (selected l b e (taskType req)) <= cnt) as Hcc.
  { rewrite <- Zlen_app. unfold Zlen in *. by rewrite HP in Hc. }
  assert (0 <= Zlen (selected l b e (taskType req)) ∧ 0 <= Zlen (matching (dom, names) b e (taskType req))) as [Hs0 Hm0] by (unfold Zlen; lia).
  rewrite Z.gtb_ltb. destruct (Z.ltb_spec 0 cnt) as [Hpos|Hzero]; cbn [negb].
  2:{ assert (selected ((dom, names) :: l) b e (taskType req) = []) as ->; [|done].
      destruct (selected ((dom, names) :: l) b e (taskType req)); [done|]. unfold Zlen in Hc. cbn [length] in Hc. lia. }
  set (limit := if cnt <? QUERY_LIMIT then cnt else QUERY_LIMIT).
  assert (limit = cnt) as Hlim by (unfold limit; destruct (Z.ltb_spec cnt QUERY_LIMIT); lia).
  pose proof (query_law dom names b e limit (taskType req) ltac:(lia)) as HQ.
  set (records := run_query dom names b e limit (taskType req)) in *.
  assert (Zlen records = Zlen (matching (dom, names) b e (taskType req))) as Hlen by (unfold Zlen; by rewrite HQ, length_fmap).
  pose proof (HandleQueryResult_ok req limit records cnt s Hok ltac:(lia)) as HH.
  destruct (HandleQueryResult req records limit cnt s) as [[ok cnt'] s1]. destruct HH as (-> & -> & H1 & H2 & H3). cbn [negb].
  pose proof (shown_le records) as Hsh. specialize (IH (cnt - Zlen (shown records)) s1 H1 Hn ltac:(lia)).
  assert (0 <= Zlen (shown records)) as Hsh0 by (unfold Zlen; lia). specialize (IH ltac:(lia)).
  destruct (query_domains req b e l _ s1) as [ok s2]. destruct IH as (-> & H4 & H5 & H6).
  split_and!; [done|done| |by rewrite H6]. rewrite H5, H2, HQ, HP, fmap_app, shown_app, fmap_app.
  rewrite !app_assoc. f_equiv. apply Permutation_app_comm.
Qed.

Lemma QuerySysEvent_ok req b e s :
  reading_ok s → NoDup (eventList req).*1 → b <= e <= b + QUERY_LIMIT →
  let '(ok, s') := QuerySysEvent req b e s in
  ok = true ∧ reading_ok s' ∧ temps (world s') = ∅ ∧ held s' = [] ∧
  exported s' ≡ₚ (item <$> shown (selected (eventList req) b e (taskType req)).*2) ++ held s ++ exported s.
Proof.
  intros Hok Hn Hbe. unfold QuerySysEvent.
  pose proof (query_domains_ok req b e (eventList req) (e - b) s Hok Hn (selected_bounded _ _ _ _ (proj1 Hbe)) ltac:(lia)) as H.
  destruct (query_domains _ _ _ _ _ s) as [ok s1]. destruct H as (-> & H1 & H2 & H3). cbn [negb].
  pose proof (hand_on_ok req true s1 H1) as HH. destruct (hand_on req true s1) as [ok s2].
  destruct HH as (-> & H4 & _ & H5 & H6 & H7). split_and!; [done|done|done|done|]. by rewrite H7, H2, H3, app_assoc.
Qed.

(** The ranges are one after the other, each of at most a thousand numbers. *)
Inductive ranges : Z → list (Z * Z) → Z → Prop :=
  | ranges_last b e : b <= e <= b + QUERY_LIMIT → ranges b [(b, e)] e
  | ranges_next b l e : b + QUERY_LIMIT < e → ranges (b + QUERY_LIMIT) l e → ranges b ((b, b + QUERY_LIMIT) :: l) e.

Lemma split_ranges_ok : ∀ fuel b e, b <= e → e - b <= Z.of_nat fuel → ranges b (split_ranges fuel b e) e.
Proof.
  induction fuel as [|fuel IH]; intros b e Hbe Hf; cbn [split_ranges]; [apply ranges_last; unfold QUERY_LIMIT; lia|].
  unfold QUERY_LIMIT in *. destruct (Z.ltb_spec (b + 1000) e); [|apply ranges_last; unfold QUERY_LIMIT; lia].
  apply ranges_next; [unfold QUERY_LIMIT; lia|]. apply IH; lia.
Qed.

Lemma ranges_end b l e : ranges b l e → last l.*2 = Some e.
Proof. induction 1 as [|b l e Hlt Hr' IH]; [reflexivity|]. destruct l as [|r l]; [inversion Hr'|]. exact IH. Qed.

Lemma selected_split l b m e tt : b <= m <= e → selected l b e tt ≡ₚ selected l b m tt ++ selected l m e tt.
Proof.
  intros H. apply filter_or; [|intros x [? _] [? _]; lia]. intros x. split.
  - intros [Hx HE]. destruct (Z.lt_ge_cases x.1 m); [left|right]; (split; [lia|done]).
  - intros [[Hx HE]|[Hx HE]]; (split; [lia|done]).
Qed.

Lemma read_ranges_ok req b l e : ranges b l e → ∀ s,
  reading_ok s → held s = [] → NoDup (eventList req).*1 →
  let '(ok, told, s') := read_ranges req l s in
  ok = true ∧ told = l.*2 ∧ reading_ok s' ∧ temps (world s') = ∅ ∧ held s' = [] ∧
  exported s' ≡ₚ (item <$> shown (selected (eventList req) b e (taskType req)).*2) ++ exported s.
Proof.
  induction 1 as [b e Hbe|b l e Hbe Hr IH]; intros s Hok Hh Hn; cbn [read_ranges attempts].
  - pose proof (QuerySysEvent_ok req b e s Hok Hn Hbe) as H. destruct (QuerySysEvent req b e s) as [ok s1].
    destruct H as (-> & H1 & H1' & H2 & H3). cbn [negb]. by rewrite Hh in H3.
  - pose proof (QuerySysEvent_ok req b (b + QUERY_LIMIT) s Hok Hn ltac:(unfold QUERY_LIMIT; lia)) as H.
    destruct (QuerySysEvent req b _ s) as [ok s1]. destruct H as (-> & H1 & _ & H2 & H3). cbn [negb].
    specialize (IH s1 H1 H2 Hn). destruct (read_ranges req l s1) as [[ok told] s2]. destruct IH as (-> & -> & H4 & H4' & H5 & H6).
    split_and!; [done|done|done|done|done|]. rewrite Hh in H3. cbn [app] in H3. rewrite H6, H3.
    rewrite (selected_split (eventList req) b (b + QUERY_LIMIT) e) by (unfold QUERY_LIMIT in *; lia).
    rewrite fmap_app, shown_app, fmap_app, !app_assoc. f_equiv. apply Permutation_app_comm.
Qed.

(** C35: while every file can be written and moved, reading a request exports every
    event stored in its range that the task asks for and that has a text, once and
    nothing else, whatever the ranges it is read in, the sizes at which files are
    closed and the packagers the events fall to: what is in the exported files
    afterwards is what was there before and those events; no temporary file is
    left, and the listener is told the end of each range, the last one the end of
    the request. *)
Theorem export_is_complete req w :
  temps w = ∅ → (∀ n, is_Some (finals w !! n) → n < next w) → NoDup (eventList req).*1 → beginSeq req <= endSeq req →
  let '(ok, told, s) := ReadRequest req w in
  ok = true ∧ last told = Some (endSeq req) ∧ temps (world s) = ∅ ∧
  files_items (finals (world s)) ≡ₚ
    (item <$> shown (selected (eventList req) (beginSeq req) (endSeq req) (taskType req)).*2) ++ files_items (finals w).
Proof.
  intros Ht Hf Hn Hbe. unfold ReadRequest, queryRanges. set (s0 := mkReading [] [] w).
  assert (reading_ok s0) as Hok.
  { split; cbn; [constructor|constructor| |by intros n ?%elem_of_nil|done|by intros n ?%elem_of_nil].
    intros n. rewrite Ht, lookup_empty. split; [by intros []|by intros ?%elem_of_nil]. }
  assert (held s0 = []) as Hh by (unfold held, contents, files_items; cbn; by rewrite Ht, map_to_list_empty).
  pose proof (split_ranges_ok (Z.to_nat (endSeq req - beginSeq req)) (beginSeq req) (endSeq req) Hbe ltac:(lia)) as Hr.
  pose proof (read_ranges_ok req _ _ _ Hr s0 Hok Hh Hn) as H.
  destruct (read_ranges req _ s0) as [[ok told] s]. destruct H as (-> & -> & H1 & H2 & _ & H3). split_and!; [done| |done|exact H3].
  by apply (ranges_end _ _ _ Hr).
Qed.

End Writing.
(** ** Ranges never overlap *)

Section Overlap.
Context (write_ok rename_ok : Z → bool).
Context (run_query : bytes → list bytes → Z → Z → Z → Z → list CachedEvent).

Abbreviation max_of m st := (exportedMaxSeq (GetExportDetailRecord m st)).

Inductive ExportAction :=
  | RunTask (c : ExportConfig) (isSwitchOff dirFull : bool) (lst : option (list (bytes * list bytes)))
  | SwitchOn (module : bytes)
  | SwitchOff (module : bytes)
  | Upgrade (module : bytes) (upgraded : bool)
  | NewEvents (n : nat).

(** The ranges read, with the module, in their order. *)
Fixpoint run_actions (l : list ExportAction) (st : Progress) (w : World) : list (bytes * (Z * Z)) * Progress * World :=
  match l with
  | [] => ([], st, w)
  | a :: l =>
      let '(read, st, w) :=
        match a with
        | RunTask c off full lst =>
            let '(r, st, w) := OnTaskRun write_ok rename_ok run_query c off full lst st w in
            ((λ be, (c_moduleName c, be)) <$> option_list r, st, w)
        | SwitchOn m => ([], HandleExportSwitchOn m st, w)
        | SwitchOff m => ([], HandleExportSwitchOff m st, w)
        | Upgrade m u => ([], InheritOnUpgrade m u st, w)
        | NewEvents n => ([], mkProgress (details st) (inheritFlags st) (GetSequence st + Z.of_nat n) (GetStartSequence st), w)
        end in
      let '(reads, st, w) := run_actions l st w in (read ++ reads, st, w)
  end.

Lemma detail_changed m m' en mx st :
  GetExportDetailRecord m' (set_details (<[m := (en, mx)]> (details st)) st) =
    if decide (m' = m ∧ m ≠ []) then mkDetail m en mx else GetExportDetailRecord m' st.
Proof.
  unfold GetExportDetailRecord, set_details. cbn. case_bool_decide as E.
  - subst m'. destruct (decide ([] = m ∧ m ≠ [])) as [[<- ?]|]; done.
  - destruct (decide (m' = m ∧ m ≠ [])) as [[-> ?]|Hn]; [by rewrite lookup_insert_eq|].
    rewrite lookup_insert_ne; [done|]. intros <-. by apply Hn.
Qed.

Lemma no_record m st : moduleName (GetExportDetailRecord m st) = [] → max_of m st = INVALID_SEQ_VAL.
Proof.
  unfold GetExportDetailRecord. case_bool_decide; [done|]. destruct (details st !! m) as [[]|]; [done|done].
Qed.

(** Switches leave the progress of every module alone. *)
Lemma switch_changed_max m s m' st : max_of m' (HandleExportSwitchChanged m s st) = max_of m' st.
Proof.
  unfold HandleExportSwitchChanged. case_bool_decide as E.
  - rewrite detail_changed. destruct (decide _) as [[-> _]|]; [|done]. cbn. by rewrite no_record.
  - destruct (_ || _); [done|]. rewrite detail_changed. by destruct (decide _) as [[-> _]|].
Qed.

Lemma switch_changed_seq m s st : GetSequence (HandleExportSwitchChanged m s st) = GetSequence st.
Proof. unfold HandleExportSwitchChanged. by repeat case_match. Qed.

Lemma sync_max m inh off m' st : max_of m' (SyncDbByExportSwitchStatus m inh off st) = max_of m' st.
Proof. unfold SyncDbByExportSwitchStatus. destruct off; case_match; try done; apply switch_changed_max. Qed.

Lemma finished_max m e m' st :
  max_of m' (HandleExportTaskFinished m e st) = if decide (m' = m ∧ m ≠ []) then e else max_of m' st.
Proof.
  unfold HandleExportTaskFinished. case_bool_decide as E; rewrite detail_changed; by destruct (decide _).
Qed.

Lemma finished_all_max m told m' : ∀ st, m ≠ [] →
  max_of m' (foldl (λ st e, HandleExportTaskFinished m e st) st told) =
    if decide (m' = m) then default (max_of m' st) (last told) else max_of m' st.
Proof.
  induction told as [|e told IH] using rev_ind; intros st Hm; cbn; [by destruct (decide _)|].
  rewrite foldl_app, last_snoc. cbn. rewrite finished_max, IH by done.
  destruct (decide (m' = m)) as [->|]; [by rewrite decide_True|rewrite decide_False; [done|by intros []]].
Qed.

(** Whatever fails, the listener hears ends of ranges within the request. *)
Lemma told_within req b l e : ranges b l e → ∀ s, b <= e →
  let '(_, told, _) := read_ranges write_ok rename_ok run_query req l s in
  ∃ r, last told = Some r ∧ b <= r <= e.
Proof.
  induction 1 as [b e Hbe|b l e Hlt Hr IH]; intros s Hb; cbn [read_ranges].
  - destruct (attempts _ _ _ 3 req b e s) as [[] s1]; cbn; exists e; (split; [done|lia]).
  - destruct (attempts _ _ _ 3 req b _ s) as [[] s1]; cbn [negb].
    + specialize (IH s1 ltac:(lia)). destruct (read_ranges _ _ _ req l s1) as [[ok told] s2].
      destruct IH as (r & Hl & Hrr). exists r. split; [|unfold QUERY_LIMIT in *; lia]. destruct told; [done|exact Hl].
    + exists (b + QUERY_LIMIT). unfold QUERY_LIMIT in *. split; [done|lia].
Qed.

Lemma OnTaskRun_range c off full lst st w :
  let '(r, st', _) := OnTaskRun write_ok rename_ok run_query c off full lst st w in
  GetSequence st' = GetSequence st ∧
  match r with
  | None => ∀ m, max_of m st' = max_of m st
  | Some (b, e) => c_moduleName c ≠ [] ∧ max_of (c_moduleName c) st <= b ∧ b <= e <= GetSequence st ∧
      ∀ m, max_of m st' = if decide (m = c_moduleName c) then e else max_of m st
  end.
Proof.
  unfold OnTaskRun. set (st0 := SyncDbByExportSwitchStatus _ _ off st).
  assert (GetSequence st0 = GetSequence st) as Hs0.
  { unfold st0, SyncDbByExportSwitchStatus. repeat case_match; rewrite ?switch_changed_seq; done. }
  assert (∀ m, max_of m st0 = max_of m st) as Hm0 by (intros m; apply sync_max). clearbody st0.
  destruct off; [done|]. destruct full; [done|]. unfold InitReadRequest.
  destruct (Z.eqb_spec (GetExportBeginSeq (c_moduleName c) st0) INVALID_SEQ_VAL) as [|Hb]; [done|].
  destruct (Z.ltb_spec (GetSequence st0) (GetExportBeginSeq (c_moduleName c) st0)) as [|Hle]; [done|].
  destruct lst as [[|dn l]|]; [done| |done]. set (e := if _ >? _ then _ else _). set (req := mkRead _ _ _ _ _).
  set (b := GetExportBeginSeq (c_moduleName c) st0) in *.
  assert (b <= e <= GetSequence st0) as Hbe.
  { unfold e. rewrite Z.gtb_ltb. destruct (Z.ltb_spec (b + EXPORT_MAX_CNT) (GetSequence st0)); [unfold EXPORT_MAX_CNT in *; lia|lia]. }
  pose proof (told_within req b _ e (split_ranges_ok (Z.to_nat (e - b)) b e ltac:(lia) ltac:(lia)) (mkReading [] [] w) ltac:(lia)) as HT.
  unfold ReadRequest, queryRanges. cbn [beginSeq endSeq req].
  destruct (read_ranges _ _ _ req _ _) as [[ok told] s]. destruct HT as (r & Hr & Hrr). rewrite Hr. change (default (beginSeq req) (Some r)) with r.
  assert (c_moduleName c ≠ [] ∧ max_of (c_moduleName c) st0 <= b) as [Hne Hmax].
  { unfold b, GetExportBeginSeq in *. unfold GetExportDetailRecord in *.
    destruct (bool_decide_reflect (c_moduleName c = [])) as [E|E]; [done|].
    split; [done|]. destruct (details st0 !! c_moduleName c) as [[en mx]|]; [|done]. cbn in *.
    destruct (Z.eqb_spec en INVALID_SEQ_VAL); [done|lia]. }
  split.
  - rewrite <- Hs0. clear. induction told as [|x told IH] using rev_ind; [done|]. rewrite foldl_app. cbn.
    unfold HandleExportTaskFinished. by case_bool_decide.
  - change (beginSeq req) with b. split; [done|]. rewrite Hm0 in Hmax. split; [done|]. rewrite <- Hs0. split; [cbn; lia|]. intros m. rewrite finished_all_max by done.
    by rewrite Hr, Hm0.
Qed.

(** the ranges the task of a module reads never overlap and go forward, whatever
    fails, however the switch and the other modules behave and however many events
    come in between: a range begins at or after the end the listener was told last,
    and does not go past the numbers given out. *)
Theorem export_ranges_never_overlap l st w :
  let '(reads, st', _) := run_actions l st w in
  StronglySorted (λ x y, x.1 = y.1 → x.2.2 <= y.2.1) reads ∧
  Forall (λ x, max_of x.1 st <= x.2.1 ∧ x.2.1 <= x.2.2 <= GetSequence st') reads.
Proof.
  assert (let '(reads, st', _) := run_actions l st w in
    GetSequence st <= GetSequence st' ∧ StronglySorted (λ x y, x.1 = y.1 → x.2.2 <= y.2.1) reads ∧
    Forall (λ x, max_of x.1 st <= x.2.1 ∧ x.2.1 <= x.2.2 <= GetSequence st') reads) as H;
    [|destruct (run_actions l st w) as [[? ?] ?]; tauto].
  revert st w. induction l as [|a l IH]; intros st w; cbn [run_actions]; [split; [lia|]; split; constructor|].
  assert (∀ st1 w1, GetSequence st <= GetSequence st1 → (∀ m, max_of m st1 = max_of m st) →
    let '(reads, st', _) := let '(reads, st', w') := run_actions l st1 w1 in ([] ++ reads, st', w') in
    GetSequence st <= GetSequence st' ∧ StronglySorted (λ x y, x.1 = y.1 → x.2.2 <= y.2.1) reads ∧
    Forall (λ x, max_of x.1 st <= x.2.1 ∧ x.2.1 <= x.2.2 <= GetSequence st') reads) as Hquiet.
  { intros st1 w1 Hs Hm. specialize (IH st1 w1). destruct (run_actions l st1 w1) as [[reads st'] w'].
    destruct IH as (H1 & H2 & H3). split; [lia|]. split; [done|]. eapply Forall_impl; [exact H3|]. cbn. intros x. by rewrite Hm. }
  destruct a as [c off full lst|m|m|m u|n].
  - pose proof (OnTaskRun_range c off full lst st w) as HR.
    destruct (OnTaskRun _ _ _ c off full lst st w) as [[[[b e]|] st1] w1]; cbn [option_list fmap list_fmap]; destruct HR as [Hs HR];
      [|apply Hquiet; [lia|done]].
    destruct HR as (Hne & Hb & Hbe & Hm). specialize (IH st1 w1). destruct (run_actions l st1 w1) as [[reads st'] w'].
    destruct IH as (H1 & H2 & H3). split; [lia|]. rewrite Forall_forall in H3. split.
    + cbn. constructor; [done|]. apply Forall_forall. intros x Hx E. cbn in E. destruct (H3 x Hx) as [H4 _].
      rewrite Hm, decide_True in H4 by done. done.
    + cbn. constructor; [cbn; lia|]. apply Forall_forall. intros x Hx. destruct (H3 x Hx) as [H4 H5]. split; [|done].
      rewrite Hm in H4. destruct (decide (x.1 = c_moduleName c)) as [E|]; [rewrite E; lia|done].
  - apply Hquiet; unfold HandleExportSwitchOn; case_bool_decide; rewrite ?switch_changed_seq; try lia; try done.
    intros m'. apply switch_changed_max.
  - apply Hquiet; unfold HandleExportSwitchOff; [cbn; rewrite switch_changed_seq; lia|].
    intros m'. apply (switch_changed_max m INVALID_SEQ_VAL m' st).
  - apply Hquiet; unfold InheritOnUpgrade; destruct (_ && _); cbn; rewrite ?switch_changed_seq; try lia; try done.
    intros m'. apply (switch_changed_max m (GetStartSequence st) m' st).
  - apply Hquiet; [cbn; lia|done].
Qed.

End Overlap.

(** ** Concrete runs *)

Definition sample_event (user : Z) (text : bytes) : CachedEvent := mkCached (mkVersion (str "5.0") (str "p1")) (str "DOM") (str "NAME") text user.

Definition sample_stored : list (Z * CachedEvent) :=
  [(1, sample_event 7 (str "a")); (3, sample_event 8 (str "b")); (2500, sample_event 7 (str "c")); (9000, sample_event 7 (str "d"))].

Definition all_tasks (tt : Z) (x : CachedEvent) : bool := true.

(** A query that finds what is stored. *)
Definition sample_query (dom : bytes) (names : list bytes) (b e limit tt : Z) : list CachedEvent :=
  (matching sample_stored all_tasks (dom, names) b e tt).*2.

Definition sample_request : EventReadRequest := mkRead 0 5000 1 [(str "DOM", [])] 0.
Definition sample_world : World := mkWorld ∅ ∅ 0.

Lemma export_is_complete_witness :
  let '(ok, told, s) := ReadRequest (λ _, true) (λ _, true) sample_query sample_request sample_world in
  told = [1000; 2000; 3000; 4000; 5000] ∧
  files_items (finals (world s)) ≡ₚ [(str "DOM", str "NAME", str "a"); (str "DOM", str "NAME", str "b"); (str "DOM", str "NAME", str "c")].
Proof.
  pose proof (export_is_complete (λ _, true) (λ _, true) sample_query (λ _, eq_refl) (λ _, eq_refl) sample_stored all_tasks
    ltac:(by apply (bool_decide_unpack _); vm_compute) (λ _ _ _ _ _ _ _, reflexivity _) sample_request sample_world
    ltac:(done) ltac:(by intros n []) ltac:(by apply (bool_decide_unpack _); vm_compute) ltac:(by vm_compute)) as H.
  assert ((ReadRequest (λ _, true) (λ _, true) sample_query sample_request sample_world).1.2 = [1000; 2000; 3000; 4000; 5000]) as E
    by by vm_compute.
  destruct (ReadRequest _ _ _ _ _) as [[ok told] s]. destruct H as (_ & _ & _ & H). split; [exact E|]. rewrite H. by vm_compute.
Defined.

(** When the file of one packager cannot be written, the events of a packager after
    it stay in it, and the attempt that follows puts them there again: the file
    exported holds the event twice. *)
Lemma retry_duplicates :
  let '(ok, told, s) := ReadRequest (λ n, negb (n =? 0)) (λ _, true) sample_query (mkRead 0 1000 1 [(str "DOM", [])] 0) sample_world in
  ok = true ∧ told = [1000] ∧ files_items (finals (world s)) =
    [(str "DOM", str "NAME", str "b"); (str "DOM", str "NAME", str "b"); (str "DOM", str "NAME", str "a")].
Proof. by vm_compute. Qed.

(** A range that cannot be exported is recorded as exported: the listener is told
    its end although all attempts failed, and the next run begins there. *)
Lemma failed_range_skipped :
  let c := mkExportConfig (str "M") [] 1 0 in
  let st := mkProgress {[str "M" := (0, 0)]} ∅ 500 0 in
  let '(read, st', w) := OnTaskRun (λ _, false) (λ _, true) sample_query c false false (Some [(str "DOM", [])]) st sample_world in
  read = Some (0, 500) ∧ GetExportBeginSeq (str "M") st' = 500 ∧ finals w = ∅ ∧ temps w = ∅.
Proof. by vm_compute. Qed.

End EventExport.
