(* ===== verification/EventLoop.v ===== *)
(** * EventLoop: the work loops of the platform

    Models base/event_loop.cpp, base/include/event_loop.h and
    base/include/event_priority_queue.h: a thread that takes events from a queue
    ordered by target time, runs them, puts periodic ones back and sleeps until
    the next one is due, while other threads add and remove events.

    Each method is a function on the loop's members; [step] interleaves the loop
    thread, cut where it does not hold [queueMutex_], with the methods other
    threads call and with the clock. *)

From S2P Require Import Prelude.
From stdpp Require Import base list numbers relations.

Local Open Scope Z_scope.

Module EventLoop.

Definition LOOP_EVENT_TASK : Z := 0.
Definition LOOP_PACKAGED_TASK : Z := 1.
Definition SEC_TO_NANOSEC : Z := 1000000000.
Definition MILLISEC_TO_NANOSEC : Z := 1000000.
Definition INT_MAX : Z := 2147483647.

(** [LoopEvent]; the shared pointers and functions it holds are identities. *)
Record LoopEvent := mkLoopEvent {
  isRepeat : bool;
  taskType : Z;
  seq : Z;
  interval : Z;
  enqueueTime : Z;
  targetTime : Z;
  event : option Z;
  handler : option Z;
  task : option Z;
  packagedTask : option Z
}.

#[global] Instance LoopEvent_eq_dec : EqDecision LoopEvent.
Proof. solve_decision. Defined.

Definition LoopEvent_default : LoopEvent := mkLoopEvent false 0 0 0 0 0 None None None None.

Definition CreateLoopEvent (now : Z) : LoopEvent :=
  mkLoopEvent false LOOP_EVENT_TASK now 0 now now None None None None.

Definition set_seq (e : LoopEvent) (s : Z) : LoopEvent :=
  mkLoopEvent (isRepeat e) (taskType e) s (interval e) (enqueueTime e) (targetTime e)
    (event e) (handler e) (task e) (packagedTask e).

Definition set_times (e : LoopEvent) (enqueue target : Z) : LoopEvent :=
  mkLoopEvent (isRepeat e) (taskType e) (seq e) (interval e) enqueue target
    (event e) (handler e) (task e) (packagedTask e).

(** ** The queue *)

(** What [std::priority_queue] promises: the top is an element with the smallest
    target time; which one of several, and which of several elements with one
    number [std::find_if] meets first in the underlying vector, is open. *)
Class PriorityQueue := {
  top_index : list LoopEvent → nat;
  find_index : list LoopEvent → Z → option nat;
  top_least q : q ≠ [] →
    ∃ e, q !! top_index q = Some e ∧ Forall (λ x, targetTime e <= targetTime x) q;
  find_sound q s i : find_index q s = Some i → ∃ e, q !! i = Some e ∧ seq e = s;
  find_complete q s : find_index q s = None → Forall (λ x, seq x ≠ s) q
}.

Section Loop.
Context `{PQ : PriorityQueue}.

Definition q_push (q : list LoopEvent) (e : LoopEvent) : list LoopEvent := q ++ [e].
Definition q_top (q : list LoopEvent) : option LoopEvent := q !! top_index q.
Definition q_erase (q : list LoopEvent) (i : nat) : list LoopEvent := take i q ++ drop (S i) q.
Definition q_pop (q : list LoopEvent) : list LoopEvent := q_erase q (top_index q).

(** [EventPriorityQueue::remove]. *)
Definition q_remove (q : list LoopEvent) (s : Z) : bool * list LoopEvent :=
  match find_index q s with
  | Some i => (true, q_erase q i)
  | None => (false, q)
  end.

(** ** The loop *)

(** The members of [EventLoop]; [current] says whether [currentProcessingEvent_]
    points at the loop thread's variable [event], here [local].  [notified]: a
    wake-up was written and not read yet. *)
Record Loop := mkLoop {
  needQuit_ : bool;
  isRunning_ : bool;
  isWaken_ : bool;
  pendingEvents_ : list LoopEvent;
  nextWakeupTime_ : Z;
  current : bool;
  local : LoopEvent;
  notified : bool
}.

Definition set_pending (l : Loop) (q : list LoopEvent) : Loop :=
  mkLoop (needQuit_ l) (isRunning_ l) (isWaken_ l) q (nextWakeupTime_ l) (current l) (local l) (notified l).
Definition set_current (l : Loop) (c : bool) (e : LoopEvent) : Loop :=
  mkLoop (needQuit_ l) (isRunning_ l) (isWaken_ l) (pendingEvents_ l) (nextWakeupTime_ l) c e (notified l).
Definition set_wakeup (l : Loop) (t : Z) : Loop :=
  mkLoop (needQuit_ l) (isRunning_ l) (isWaken_ l) (pendingEvents_ l) t (current l) (local l) (notified l).
Definition set_waken (l : Loop) (w : bool) (n : bool) : Loop :=
  mkLoop (needQuit_ l) (isRunning_ l) w (pendingEvents_ l) (nextWakeupTime_ l) (current l) (local l) n.
Definition set_run (l : Loop) (quit run : bool) : Loop :=
  mkLoop quit run (isWaken_ l) (pendingEvents_ l) (nextWakeupTime_ l) (current l) (local l) (notified l).

Definition WakeUp (l : Loop) : Loop := set_waken l (isWaken_ l) true.

Definition ResetTimerIfNeedLocked (l : Loop) : Loop :=
  match q_top (pendingEvents_ l) with
  | Some e => if nextWakeupTime_ l =? targetTime e then l else WakeUp l
  | None => l
  end.

(** The methods other threads call; [now] is the clock reading they take before
    they lock.  Their unlocked look at [needQuit_] is one step with what they do under
    the lock: a call that is overtaken by [StopLoop] between the two leaves an event
    in a queue nobody serves, as one just before it would. *)
Definition AddEvent (hd ev tk : option Z) (now : Z) (l : Loop) : Z * Loop :=
  if needQuit_ l then (0, l) else
  let e := CreateLoopEvent now in
  let e := mkLoopEvent (isRepeat e) (taskType e) (seq e) (interval e) (enqueueTime e) (targetTime e) ev hd tk None in
  (now, WakeUp (set_pending l (q_push (pendingEvents_ l) e))).

(** [None]: a future that answers false at once. *)
Definition AddEventForResult (hd ev : option Z) (packaged : Z) (now : Z) (l : Loop) : option Z * Loop :=
  if needQuit_ l then (None, l) else
  match hd, ev with
  | Some _, Some _ =>
      let e := CreateLoopEvent now in
      let e := mkLoopEvent (isRepeat e) LOOP_PACKAGED_TASK (seq e) (interval e) (enqueueTime e) (targetTime e)
        ev hd None (Some packaged) in
      (Some packaged, WakeUp (set_pending l (q_push (pendingEvents_ l) e)))
  | _, _ => (None, l)
  end.

Definition timer_event (hd ev tk : option Z) (now intervalMicro : Z) (repeat : bool) : LoopEvent :=
  mkLoopEvent repeat LOOP_EVENT_TASK now intervalMicro now (u64 (now + intervalMicro)) ev hd tk None.

Definition AddTimerEvent (hd ev tk : option Z) (intvl : Z) (repeat : bool) (now : Z) (l : Loop) : Z * Loop :=
  if needQuit_ l then (0, l) else
  let intervalMicro := u64 (intvl * SEC_TO_NANOSEC) in
  if u64 (now + intervalMicro) <? now then (u64 (-1), l) else
  let e := timer_event hd ev tk now intervalMicro repeat in
  (now, ResetTimerIfNeedLocked (set_pending l (q_push (pendingEvents_ l) e))).

Definition RemoveEvent (s : Z) (l : Loop) : bool * Loop :=
  if current l && (seq (local l) =? s) then (false, set_current l true (set_seq (local l) 0))
  else let '(b, q) := q_remove (pendingEvents_ l) s in (b, set_pending l q).

(** [StopLoop]: raise the flag; then, if the loop runs, empty the queue. *)
Definition StopLoop_flag (l : Loop) : Loop := set_run l true (isRunning_ l).
Definition StopLoop_clear (l : Loop) : Loop :=
  if negb (isRunning_ l) then l else WakeUp (set_run (set_pending l []) (needQuit_ l) false).

Definition StartLoop (l : Loop) : Loop := if isRunning_ l then l else set_run l (needQuit_ l) true.

(** The loop thread. *)
Definition FetchNextEvent (now left : Z) (l : Loop) : bool * Z * Loop :=
  if needQuit_ l then (false, left, l) else
  match q_top (pendingEvents_ l) with
  | None => (false, left, l)
  | Some e =>
      if targetTime e >? now then (false, u64 (targetTime e - now), set_wakeup l (targetTime e))
      else (true, left, set_current (set_pending l (q_pop (pendingEvents_ l))) true e)
  end.

Inductive Action :=
  | RunTask (t : Z)
  | OnEventProxy (h e : Z)
  | RunPackaged (p : Z)
  | Nothing.

Definition ProcessEvent (e : LoopEvent) : Action :=
  if taskType e =? LOOP_EVENT_TASK then
    match task e, handler e, event e with
    | Some t, _, _ => RunTask t
    | None, Some h, Some v => OnEventProxy h v
    | _, _, _ => Nothing
    end
  else if taskType e =? LOOP_PACKAGED_TASK then
    match packagedTask e with Some p => RunPackaged p | None => Nothing end
  else Nothing.

Definition ReInsertPeriodicEvent (now : Z) (l : Loop) : Loop :=
  let e := local l in
  let l := set_current l false e in
  if seq e =? 0 then l else
  let e := set_times e now (u64 (now + interval e)) in
  ResetTimerIfNeedLocked (set_pending l (q_push (pendingEvents_ l) e)).

(** The timeout [Run] hands to [epoll_wait], an [int]. *)
Definition wait_ms (leftTimeNanosecond : Z) : Z :=
  s32 (if leftTimeNanosecond =? INT_MAX then INT_MAX else leftTimeNanosecond / MILLISEC_TO_NANOSEC).

(** ** Interleavings *)

(** Where the loop thread is: at the head of [ProcessQueuedEvent]'s loop, before
    [FetchNextEvent] with its clock reading, in [ProcessEvent], before
    [ReInsertPeriodicEvent], before the pointer is cleared, in [WaitNextEvent]
    (with the reading and the time left it started from), or gone. *)
Inductive Pc :=
  | Top
  | Fetch (now : Z)
  | Busy
  | Again (now : Z)
  | Clear
  | Wait (now left : Z)
  | Gone.

(** What happened so far, for the statements below. *)
Record State := mkState {
  loop : Loop;
  pc : Pc;
  clock : Z;
  added : list LoopEvent;
  dispatched : list (Z * LoopEvent);
  removed : list LoopEvent;
  dropped : list LoopEvent
}.

Definition periodic (e : LoopEvent) : bool := isRepeat e && (0 <? interval e).

(** The event a successful call of an adding method put last in the queue. *)
Definition new_events (l l' : Loop) : list LoopEvent := drop (length (pendingEvents_ l)) (pendingEvents_ l').

Definition removed_event (s : Z) (l : Loop) : list LoopEvent :=
  if current l && (seq (local l) =? s) then [] else
  match find_index (pendingEvents_ l) s with
  | Some i => match pendingEvents_ l !! i with Some e => [e] | None => [] end
  | None => []
  end.

Inductive Call :=
  | CAddEvent (hd ev tk : option Z)
  | CAddEventForResult (hd ev : option Z) (packaged : Z)
  | CAddTimerEvent (hd ev tk : option Z) (intvl : Z) (repeat : bool).

Definition run_call (c : Call) (now : Z) (l : Loop) : Loop :=
  match c with
  | CAddEvent hd ev tk => (AddEvent hd ev tk now l).2
  | CAddEventForResult hd ev p => (AddEventForResult hd ev p now l).2
  | CAddTimerEvent hd ev tk intvl repeat => (AddTimerEvent hd ev tk intvl repeat now l).2
  end.

Inductive step : State → State → Prop :=
  | step_tick l p t t' A D R X : t <= t' → t' < 2 ^ 64 →
      step (mkState l p t A D R X) (mkState l p t' A D R X)
  | step_call c now l p t A D R X : 0 <= now <= t →
      step (mkState l p t A D R X)
           (mkState (run_call c now l) p t (A ++ new_events l (run_call c now l)) D R X)
  | step_remove s l p t A D R X :
      step (mkState l p t A D R X)
           (mkState (RemoveEvent s l).2 p t A D (R ++ removed_event s l) X)
  | step_quit l p t A D R X :
      step (mkState l p t A D R X) (mkState (StopLoop_flag l) p t A D R X)
  | step_stop l p t A D R X :
      step (mkState l p t A D R X)
           (mkState (StopLoop_clear l) p t A D R
              (X ++ if isRunning_ l then pendingEvents_ l else []))
  | step_top l t A D R X :
      step (mkState l Top t A D R X)
           (mkState l (match pendingEvents_ l with [] => Wait t INT_MAX | _ => Fetch t end) t A D R X)
  | step_fetch now l l' t A D R X :
      FetchNextEvent now 0 l = (true, 0, l') →
      step (mkState l (Fetch now) t A D R X)
           (mkState l' Busy t A (D ++ [(now, local l')]) R X)
  | step_no_fetch now left l l' t A D R X :
      FetchNextEvent now 0 l = (false, left, l') →
      step (mkState l (Fetch now) t A D R X)
           (mkState (set_waken l' false (notified l')) (Wait now left) t A D R X)
  | step_done l t A D R X :
      step (mkState l Busy t A D R X)
           (mkState l (if periodic (local l) then Again t else Clear) t A D R X)
  | step_again now l t A D R X :
      step (mkState l (Again now) t A D R X)
           (mkState (ReInsertPeriodicEvent now l) Clear t A D R X)
  | step_clear l t A D R X :
      step (mkState l Clear t A D R X) (mkState (set_current l false (local l)) Top t A D R X)
  | step_wake now left l t A D R X :
      step (mkState l (Wait now left) t A D R X)
           (mkState (set_waken l true false) (if needQuit_ l then Gone else Top) t A D R X).

Definition init_loop : Loop := mkLoop false true false [] 0 false LoopEvent_default false.
Definition init (t : Z) : State := mkState init_loop Top t [] [] [] [].

Definition reachable (s : State) : Prop := ∃ t, 0 <= t < 2 ^ 64 ∧ rtc step (init t) s.

(** ** The queue as a bag *)

Lemma q_erase_perm q i e : q !! i = Some e → q ≡ₚ e :: q_erase q i.
Proof. intros H. unfold q_erase. rewrite <- (take_drop_middle q i e H) at 1. by rewrite Permutation_middle. Qed.

Lemma q_top_spec q e :
  q_top q = Some e → q ≡ₚ e :: q_pop q ∧ Forall (λ x, targetTime e <= targetTime x) q.
Proof.
  intros H. split; [by apply q_erase_perm|]. destruct (top_least q) as (e' & E & Hl).
  { intros ->. unfold q_top in H. by rewrite lookup_nil in H. }
  unfold q_top in H. rewrite H in E. by injection E as ->.
Qed.

Lemma q_top_None q : q_top q = None → q = [].
Proof.
  intros H. destruct (decide (q = [])) as [|Hq]; [done|].
  destruct (top_least q Hq) as (e & E & _). unfold q_top in H. congruence.
Qed.

Lemma q_remove_spec q s :
  (∃ e, q_remove q s = (true, (q_remove q s).2) ∧ seq e = s ∧ q ≡ₚ e :: (q_remove q s).2) ∨
  (q_remove q s = (false, q) ∧ Forall (λ x, seq x ≠ s) q).
Proof.
  unfold q_remove. destruct (find_index q s) as [i|] eqn:E.
  - left. destruct (find_sound q s i E) as (e & He & Hs). exists e. split_and!; [done..|]. by apply q_erase_perm.
  - right. split; [done|]. by apply find_complete.
Qed.

Lemma q_remove_sub q s : (q_remove q s).2 ⊆ q.
Proof.
  destruct (q_remove_spec q s) as [(e & _ & _ & Hp)|[-> _]]; [|done].
  intros x Hx. rewrite Hp. by right.
Qed.

(** [ResetTimerIfNeedLocked] at most writes a wake-up. *)
Lemma Reset_cases l : ResetTimerIfNeedLocked l = WakeUp l ∨
  (ResetTimerIfNeedLocked l = l ∧ Forall (λ e, nextWakeupTime_ l <= targetTime e) (pendingEvents_ l)).
Proof.
  unfold ResetTimerIfNeedLocked. destruct (q_top (pendingEvents_ l)) as [e|] eqn:E.
  - destruct (Z.eqb_spec (nextWakeupTime_ l) (targetTime e)) as [->|]; [right|by left].
    split; [done|]. by apply q_top_spec in E as [_ ?].
  - right. split; [done|]. by rewrite (q_top_None _ E).
Qed.

(** ** What a call adds *)

(** A new event: due [interval] after the reading, which no clock passed. *)
Definition timed (t : Z) (e : LoopEvent) : Prop :=
  0 <= enqueueTime e <= t ∧ 0 <= interval e < 2 ^ 64 ∧ targetTime e = u64 (enqueueTime e + interval e).

Lemma run_call_cases c now l :
  run_call c now l = l ∨
  ∃ e l', pendingEvents_ l' = pendingEvents_ l ++ [e] ∧ (run_call c now l = l' ∨ run_call c now l = WakeUp l') ∧
    l' = set_pending l (pendingEvents_ l ++ [e]) ∧
    (notified (run_call c now l) = false → Forall (λ e, nextWakeupTime_ l <= targetTime e) (pendingEvents_ l')) ∧
    (0 <= now < 2 ^ 64 → timed now e ∧ now <= targetTime e).
Proof.
  destruct c as [hd ev tk|hd ev p|hd ev tk intvl repeat]; cbn [run_call].
  - unfold AddEvent. destruct (needQuit_ l); [by left|]. right.
    eexists _, (set_pending l (pendingEvents_ l ++ [_])). split_and!; try done; [by right|].
    intros Hn. unfold timed; cbn. split_and!; try lia. rewrite u64_small; [|split]; lia.
  - unfold AddEventForResult. destruct (needQuit_ l); [by left|]. destruct hd as [h|], ev as [v|]; try by left.
    right. eexists _, (set_pending l (pendingEvents_ l ++ [_])). split_and!; try done; [by right|].
    intros Hn. unfold timed; cbn. split_and!; try lia. rewrite u64_small; [|split]; lia.
  - unfold AddTimerEvent. destruct (needQuit_ l); [by left|]. destruct (Z.ltb_spec (u64 (now + u64 (intvl * SEC_TO_NANOSEC))) now); [by left|].
    right. eexists _, (set_pending l (pendingEvents_ l ++ [_])). split; [done|].
    assert (0 <= now < 2 ^ 64 → timed now (timer_event hd ev tk now (u64 (intvl * SEC_TO_NANOSEC)) repeat)
      ∧ now <= targetTime (timer_event hd ev tk now (u64 (intvl * SEC_TO_NANOSEC)) repeat)).
    { intros Hn. unfold timed; cbn. pose proof (is_u_mod 64 (intvl * SEC_TO_NANOSEC) ltac:(lia)).
      split_and!; try done; try lia; unfold is_u in *; unfold u64; lia. }
    cbn [snd]. unfold q_push. destruct (Reset_cases (set_pending l (pendingEvents_ l ++ [timer_event hd ev tk now (u64 (intvl * SEC_TO_NANOSEC)) repeat]))) as [E|[E HF]];
      rewrite E; split_and!; auto. done.
Qed.

(** ** The invariant *)

Definition one_shot (e : LoopEvent) : Prop := periodic e = false.
#[local] Instance one_shot_dec e : Decision (one_shot e).
Proof. unfold one_shot. apply _. Defined.

Lemma timed_mono t t' e : t <= t' → timed t e → timed t' e.
Proof. unfold timed. intuition lia. Qed.

Lemma timed_all_mono t t' q : t <= t' → Forall (timed t) q → Forall (timed t') q.
Proof. intros Ht HF. eapply Forall_impl; [done|]. intros x. by apply timed_mono. Qed.

Definition processing (p : Pc) : bool := match p with Busy | Again _ => true | _ => false end.

(** A clock reading the loop thread holds. *)
Definition reading (p : Pc) : option Z :=
  match p with Fetch now | Again now | Wait now _ => Some now | _ => None end.

(** What the sleeping loop relies on when nothing woke it. *)
Definition sleep_ok (p : Pc) (l : Loop) : Prop :=
  match p with
  | Wait now rest =>
      needQuit_ l = false → notified l = false →
      Forall (λ e, nextWakeupTime_ l <= targetTime e) (pendingEvents_ l) ∧
      (0 < rest → rest ≠ INT_MAX → nextWakeupTime_ l = now + rest)
  | _ => True
  end.

Record inv (s : State) : Prop := {
  inv_clock : 0 <= clock s < 2 ^ 64;
  inv_ptr : current (loop s) = true → processing (pc s) = true ∨ pc s = Clear;
  inv_again : ∀ now, pc s = Again now → periodic (local (loop s)) = true;
  inv_reading : ∀ now, reading (pc s) = Some now → 0 <= now <= clock s;
  inv_timed : Forall (timed (clock s)) (pendingEvents_ (loop s));
  inv_local : processing (pc s) = true → 0 <= interval (local (loop s)) < 2 ^ 64;
  inv_early : Forall (λ d, targetTime d.2 <= d.1 <= clock s) (dispatched s);
  inv_bag : filter one_shot (added s) ≡ₚ
    filter one_shot (pendingEvents_ (loop s)) ++ filter one_shot (dispatched s).*2 ++
    filter one_shot (removed s) ++ filter one_shot (dropped s);
  inv_sleep : sleep_ok (pc s) (loop s)
}.

Lemma init_inv t : 0 <= t < 2 ^ 64 → inv (init t).
Proof. intros Ht. split; cbn; try done; try constructor. Qed.

Lemma inv_tick l p t t' A D R X :
  t <= t' → t' < 2 ^ 64 → inv (mkState l p t A D R X) → inv (mkState l p t' A D R X).
Proof.
  intros Ht Ht' []. split; cbn in *; try done; try lia.
  - intros now E. specialize (inv_reading0 now E). lia.
  - by eapply timed_all_mono.
  - eapply Forall_impl; [done|]. cbn. lia.
Qed.

Lemma inv_call c now l p t A D R X :
  0 <= now <= t → inv (mkState l p t A D R X) →
  inv (mkState (run_call c now l) p t (A ++ new_events l (run_call c now l)) D R X).
Proof.
  intros Hn [].
  destruct (run_call_cases c now l) as [E|(e & l' & El & Er & Eset & Hsleep & Htimed)].
  { rewrite E. unfold new_events. rewrite drop_all, app_nil_r. by split. }
  assert (pendingEvents_ (run_call c now l) = pendingEvents_ l ++ [e]) as Ep by (destruct Er as [-> | ->]; done).
  assert (current (run_call c now l) = current l ∧ local (run_call c now l) = local l ∧
    needQuit_ (run_call c now l) = needQuit_ l ∧ nextWakeupTime_ (run_call c now l) = nextWakeupTime_ l) as (E1 & E2 & E3 & E4)
    by (destruct Er as [-> | ->]; by rewrite Eset).
  assert (notified (run_call c now l) = false → notified l = false) as E5
    by (destruct Er as [-> | ->]; rewrite Eset; done).
  unfold new_events. rewrite Ep, drop_app_length. cbn in *. split; cbn; rewrite ?E1, ?E2, ?Ep; try done.
  - apply Forall_app. split; [done|]. constructor; [|done]. eapply timed_mono, Htimed; lia.
  - rewrite !filter_app, inv_bag0. solve_Permutation.
  - destruct p; cbn in *; try done. rewrite E3, E4, Ep, <- El. intros Hq Hnot.
    split; [by apply Hsleep|]. by apply inv_sleep0; [|apply E5].
Qed.

Lemma q_sub_timed t q q' : q' ⊆ q → Forall (timed t) q → Forall (timed t) q'.
Proof. intros Hs HF. rewrite Forall_forall in *. auto. Qed.

Lemma removed_event_perm s l :
  current l && (seq (local l) =? s) = false →
  pendingEvents_ l ≡ₚ removed_event s l ++ (q_remove (pendingEvents_ l) s).2.
Proof.
  intros E. unfold removed_event, q_remove. rewrite E.
  destruct (find_index _ s) as [i|] eqn:Ei; [|done].
  destruct (find_sound _ _ _ Ei) as (e & He & _). rewrite He. by apply q_erase_perm.
Qed.

Lemma inv_remove s l p t A D R X :
  inv (mkState l p t A D R X) → inv (mkState (RemoveEvent s l).2 p t A D (R ++ removed_event s l) X).
Proof.
  intros []. unfold RemoveEvent. destruct (current l && (seq (local l) =? s)) eqn:E.
  - unfold removed_event. rewrite E, app_nil_r. cbn in *. split; cbn; try done.
    + intros _. apply inv_ptr0. by apply andb_true_iff in E as [-> _].
  - pose proof (removed_event_perm s l E) as HP. pose proof (q_remove_sub (pendingEvents_ l) s) as Hs.
    destruct (q_remove (pendingEvents_ l) s) as [b q]. cbn in *. split; cbn; try done.
    + by eapply q_sub_timed.
    + rewrite inv_bag0, HP, !filter_app. solve_Permutation.
    + destruct p; cbn in *; try done. intros H1 H2. destruct (inv_sleep0 H1 H2) as [HF Hw].
      split; [|done]. rewrite Forall_forall in *. auto.
Qed.

Lemma inv_stop l p t A D R X :
  inv (mkState l p t A D R X) →
  inv (mkState (StopLoop_clear l) p t A D R (X ++ if isRunning_ l then pendingEvents_ l else [])).
Proof.
  intros []. unfold StopLoop_clear. destruct (isRunning_ l) eqn:E; cbn in *.
  - split; cbn; try done.
    + rewrite inv_bag0, !filter_app. solve_Permutation.
    + destruct p; cbn; done.
  - rewrite app_nil_r. by split.
Qed.

(** What a fetch does. *)
Lemma FetchNextEvent_cases now l :
  (∃ e, FetchNextEvent now 0 l = (true, 0, set_current (set_pending l (q_pop (pendingEvents_ l))) true e) ∧
     needQuit_ l = false ∧ targetTime e <= now ∧ pendingEvents_ l ≡ₚ e :: q_pop (pendingEvents_ l) ∧
     Forall (λ x, targetTime e <= targetTime x) (pendingEvents_ l)) ∨
  (∃ e, FetchNextEvent now 0 l = (false, u64 (targetTime e - now), set_wakeup l (targetTime e)) ∧
     e ∈ pendingEvents_ l ∧ now < targetTime e ∧
     Forall (λ x, targetTime e <= targetTime x) (pendingEvents_ l)) ∨
  (FetchNextEvent now 0 l = (false, 0, l) ∧ (needQuit_ l = true ∨ pendingEvents_ l = [])).
Proof.
  unfold FetchNextEvent. destruct (needQuit_ l) eqn:Eq; [by right; right; auto|].
  destruct (q_top (pendingEvents_ l)) as [e|] eqn:Et; [|right; right; split; [done|right; by apply q_top_None]].
  pose proof (q_top_spec _ _ Et) as [HP HF]. rewrite Z.gtb_ltb. destruct (Z.ltb_spec now (targetTime e)).
  - right. left. exists e. split_and!; try done. rewrite HP. by left.
  - left. exists e. done.
Qed.

Lemma inv_fetch now l l' t A D R X :
  FetchNextEvent now 0 l = (true, 0, l') → inv (mkState l (Fetch now) t A D R X) →
  inv (mkState l' Busy t A (D ++ [(now, local l')]) R X).
Proof.
  intros Hf []. cbn in *. specialize (inv_reading0 now eq_refl).
  destruct (FetchNextEvent_cases now l) as [(e & E & _ & Hd & HP & _)|[(e & E & _)|[E _]]]; rewrite E in Hf; [|done..].
  injection Hf as <-. split; cbn; auto; try done.
  - eapply q_sub_timed; [|done]. intros x Hx. eapply elem_of_Permutation_proper; [exact HP|]. by right.
  - intros _. rewrite HP in inv_timed0. by apply Forall_cons in inv_timed0 as [(_ & ? & _) _].
  - apply Forall_app. split; [done|]. constructor; [cbn; lia|done].
  - generalize dependent (q_pop (pendingEvents_ l)). intros q _ HP. rewrite inv_bag0, HP, fmap_app, filter_app.
    change (e :: q) with ([e] ++ q). rewrite filter_app. cbn [fmap list_fmap snd]. solve_Permutation.
Qed.

Lemma inv_no_fetch now rest l l' t A D R X :
  FetchNextEvent now 0 l = (false, rest, l') → inv (mkState l (Fetch now) t A D R X) →
  inv (mkState (set_waken l' false (notified l')) (Wait now rest) t A D R X).
Proof.
  intros Hf []. cbn in *. pose proof (inv_reading0 now eq_refl).
  destruct (FetchNextEvent_cases now l) as [(e & E & _)|[(e & E & He & Hd & HF)|[E Hl]]]; rewrite E in Hf; [done|..];
    injection Hf as <- <-; split; cbn; auto; try done.
  - intros H1. by destruct (inv_ptr0 H1).
  - intros _ _. split; [done|]. intros _ _. rewrite Forall_forall in inv_timed0.
    destruct (inv_timed0 e He) as (_ & _ & Et). pose proof (is_u_mod 64 (enqueueTime e + interval e) ltac:(lia)) as Hu.
    rewrite u64_small; [lia|]. unfold u64 in *. rewrite <- Et in Hu. unfold is_u in *. lia.
  - intros H1. by destruct (inv_ptr0 H1).
  - intros Hq _. destruct Hl as [Hl|Hl]; [congruence|]. rewrite Hl. split; [done|lia].
Qed.

Lemma periodic_set_times e a b : periodic (set_times e a b) = periodic e.
Proof. done. Qed.

Lemma inv_reinsert now l t A D R X :
  inv (mkState l (Again now) t A D R X) → inv (mkState (ReInsertPeriodicEvent now l) Clear t A D R X).
Proof.
  intros []. cbn in *. specialize (inv_reading0 now eq_refl). specialize (inv_again0 now eq_refl).
  specialize (inv_local0 eq_refl). unfold ReInsertPeriodicEvent.
  destruct (Z.eqb_spec (seq (local l)) 0); [by split|].
  set (e := set_times (local l) now (u64 (now + interval (local l)))).
  set (l' := set_pending (set_current l false (local l)) (q_push (pendingEvents_ (set_current l false (local l))) e)).
  assert (inv (mkState l' Clear t A D R X)) as Hok.
  { split; cbn; try done.
    - apply Forall_app. split; [done|]. constructor; [|done]. unfold timed; cbn. lia.
    - unfold q_push. rewrite inv_bag0, filter_app. cbn. rewrite (decide_False (P := one_shot e)).
      + by rewrite app_nil_r.
      + unfold one_shot, e. by rewrite periodic_set_times, inv_again0. }
  destruct (Reset_cases l') as [E|[E _]]; rewrite E; [|done]. destruct Hok; split; done.
Qed.

Lemma step_inv s s' : step s s' → inv s → inv s'.
Proof.
  intros Hs Hi. destruct Hs.
  - by eapply inv_tick.
  - by apply inv_call.
  - by apply inv_remove.
  - destruct Hi. split; try done. cbn in *. destruct p; cbn in *; done.
  - by apply inv_stop.
  - destruct Hi. cbn in *. split; cbn; try done; destruct (pendingEvents_ l) eqn:E; cbn; try done.
    + intros H1. by destruct (inv_ptr0 H1).
    + intros H1. by destruct (inv_ptr0 H1).
    + injection 1 as <-. lia.
    + injection 1 as <-. lia.
    + intros _ _. rewrite E. done.
  - by eapply inv_fetch.
  - by eapply inv_no_fetch.
  - destruct Hi. cbn in *. specialize (inv_local0 eq_refl).
    destruct (periodic (local l)) eqn:E; split; cbn; auto; try done. injection 1 as <-. lia.
  - by apply inv_reinsert.
  - destruct Hi. split; cbn in *; try done.
  - destruct Hi. cbn in *. destruct (needQuit_ l); split; cbn; try done;
      intros H1; by destruct (inv_ptr0 H1).
Qed.

Lemma loop_reachable_inv s : reachable s → inv s.
Proof.
  intros (t & Ht & Hs). pose proof (init_inv t Ht) as Hi. revert Hi.
  induction Hs; eauto using step_inv.
Qed.

(** C29: In every interleaving of the loop thread with threads that add and remove
    events and stop the loop: a one-shot event is in the queue, or was taken from
    it exactly as often as it was added and not removed; no event runs before its
    target time; and the pointer [RemoveEvent] writes through is set only while
    the variable it points to exists. *)
Theorem event_loop_exactly_once s :
  reachable s →
  filter one_shot (added s) ≡ₚ
    filter one_shot (pendingEvents_ (loop s)) ++ filter one_shot (dispatched s).*2 ++
    filter one_shot (removed s) ++ filter one_shot (dropped s) ∧
  Forall (λ d, targetTime d.2 <= d.1 <= clock s) (dispatched s) ∧
  (current (loop s) = true → processing (pc s) = true ∨ pc s = Clear).
Proof. intros []%loop_reachable_inv. done. Qed.

Lemma wait_ms_bound rest :
  0 <= rest → rest ≠ INT_MAX → rest / MILLISEC_TO_NANOSEC < 2 ^ 31 →
  0 <= wait_ms rest ∧ wait_ms rest * MILLISEC_TO_NANOSEC <= rest.
Proof.
  intros H0 Hm Hlt. unfold wait_ms. destruct (Z.eqb_spec rest INT_MAX); [done|].
  assert (0 <= rest / MILLISEC_TO_NANOSEC) by (apply Z.div_pos; unfold MILLISEC_TO_NANOSEC in *; lia).
  unfold s32. rewrite sgn_small by (try split; lia). split; [done|].
  rewrite Z.mul_comm. apply Z.mul_div_le. done.
Qed.

(** No wake-up is lost: while the loop sleeps because the first event is not
    due, and nothing asked it to wake up, every queued event, those added or
    re-inserted since included, is due no earlier than the end of the sleep. *)
Theorem sleep_covers_pending s now rest e :
  reachable s → pc s = Wait now rest → needQuit_ (loop s) = false → notified (loop s) = false →
  0 < rest → rest ≠ INT_MAX → rest / MILLISEC_TO_NANOSEC < 2 ^ 31 → e ∈ pendingEvents_ (loop s) →
  0 <= wait_ms rest ∧ now + wait_ms rest * MILLISEC_TO_NANOSEC <= targetTime e.
Proof.
  intros Hr Hpc Hq Hn H0 Hm Hlt He. apply loop_reachable_inv in Hr as []. rewrite Hpc in inv_sleep0.
  destruct (inv_sleep0 Hq Hn) as [HF Hw]. rewrite Forall_forall in HF. specialize (HF e He).
  specialize (Hw H0 Hm). pose proof (wait_ms_bound rest ltac:(lia) Hm Hlt). lia.
Qed.

(** ** No starvation *)

Abbreviation queue s := (pendingEvents_ (loop s)).

(** How many queued events are due at [t]. *)
Definition due (t : Z) (q : list LoopEvent) : nat := length (filter (λ e, targetTime e <= t) q).

Arguments due : simpl never.

(** A run into whose queue [n] events come that are due at [t]: [n] counts by how many
    the due events of the queue grow at the steps where they do. *)
Inductive joined (t : Z) : nat → State → State → Prop :=
  | joined_none s : joined t 0 s s
  | joined_step s s1 s' n : step s s1 → joined t n s1 s' →
      joined t (due t (queue s1) - due t (queue s) + n) s s'.

Lemma due_cons t q q' e : q ≡ₚ e :: q' → targetTime e <= t → due t q = S (due t q').
Proof. intros HP He. unfold due. by rewrite HP, filter_cons_True. Qed.

Lemma due_none t q q' e :
  q ≡ₚ e :: q' → t < targetTime e → Forall (λ x, targetTime e <= targetTime x) q → due t q' = 0%nat.
Proof.
  intros HP He HF. rewrite HP in HF. apply Forall_cons in HF as [_ HF]. unfold due.
  clear HP. induction HF as [|x q'' Hx _ IH]; [done|]. rewrite filter_cons_False by lia. exact IH.
Qed.

Lemma due_pos t q e : e ∈ q → targetTime e <= t → due t q ≠ 0%nat.
Proof.
  intros He Ht E. apply nil_length_inv in E.
  assert (e ∈ filter (λ x, targetTime x <= t) q) as Hin by by apply list_elem_of_filter.
  rewrite E in Hin. by apply not_elem_of_nil in Hin.
Qed.

(** A call that reads the clock after [t] adds no event due at [t]. *)
Lemma call_quiet c now l t :
  t < now → 0 <= now < 2 ^ 64 → (due t (pendingEvents_ (run_call c now l)) <= due t (pendingEvents_ l))%nat.
Proof.
  intros Ht Hn. destruct (run_call_cases c now l) as [->|(e & l' & El & Er & _ & _ & He)]; [done|].
  assert (pendingEvents_ (run_call c now l) = pendingEvents_ l ++ [e]) as -> by (destruct Er as [-> | ->]; done).
  destruct (He Hn) as [_ Hle]. unfold due. rewrite filter_app, length_app, (filter_cons_False _ e) by lia. cbn. lia.
Qed.

(** While an event due at [t] waits, a dispatch takes one of the due events. *)
Lemma step_dispatched t s s' e :
  step s s' → e ∈ queue s' → targetTime e <= t →
  (length (dispatched s') + due t (queue s') <=
   length (dispatched s) + due t (queue s) + (due t (queue s') - due t (queue s)))%nat.
Proof.
  intros Hs He Ht.
  assert (dispatched s' = dispatched s → (length (dispatched s') + due t (queue s') <=
    length (dispatched s) + due t (queue s) + (due t (queue s') - due t (queue s)))%nat) as Hsame by (intros ->; lia).
  destruct Hs; try by apply Hsame. clear Hsame.
  destruct (FetchNextEvent_cases now l) as [(x & E & _ & Hd' & HP & HF)|[(x & E & _)|[E _]]]; rewrite E in H; [|done..].
  injection H as <-. cbn in *. rewrite length_app. cbn.
  destruct (decide (targetTime x <= t)) as [Hx|Hx]; [rewrite (due_cons t _ _ x HP Hx); lia|].
  pose proof (due_pos t _ e He Ht) as Hpos. by rewrite (due_none t _ _ x HP ltac:(lia) HF) in Hpos.
Qed.

(** An event leaves the queue by being dispatched, removed or dropped. *)
Lemma step_leaves s s' e :
  step s s' → e ∈ queue s →
  e ∈ queue s' ∨ e ∈ (drop (length (dispatched s)) (dispatched s')).*2 ∨
  e ∈ drop (length (removed s)) (removed s') ∨ e ∈ drop (length (dropped s)) (dropped s').
Proof.
  intros Hs He. destruct Hs; cbn in *; try by left.
  - left. destruct (run_call_cases c now l) as [->|(e' & l' & El & Er & _)]; [done|].
    destruct Er as [-> | ->]; cbn; rewrite El; apply elem_of_app; by left.
  - rewrite drop_app_length. unfold RemoveEvent. destruct (current l && _) eqn:E; [by left|].
    pose proof (removed_event_perm s l E) as HP. destruct (q_remove _ _) as [b q]. cbn in *.
    rewrite HP in He. apply elem_of_app in He as [He|He]; [by right; right; left|by left].
  - rewrite drop_app_length. unfold StopLoop_clear. destruct (isRunning_ l); cbn; [by right; right; right|by left].
  - rewrite drop_app_length. destruct (FetchNextEvent_cases now l) as [(x & E & _ & _ & HP & _)|[(x & E & _)|[E _]]];
      rewrite E in H; [|done..]. injection H as <-. cbn in *.
    eapply elem_of_Permutation_proper in He; [|symmetry; exact HP].
    apply elem_of_cons in He as [-> |He]; [right; left; by left|by left].
  - left. destruct (FetchNextEvent_cases now l) as [(x & E & _)|[(x & E & _)|[E _]]];
      rewrite E in H; [done|..]; by injection H as <- <-.
  - left. unfold ReInsertPeriodicEvent. destruct (_ =? _); [done|].
    match goal with |- context [ResetTimerIfNeedLocked ?l] => destruct (Reset_cases l) as [-> |[-> _]] end;
      cbn; apply elem_of_app; by left.
Qed.

Lemma drop_prefix {A} (l k j : list A) x : l `prefix_of` k → k `prefix_of` j →
  x ∈ drop (length l) k ∨ x ∈ drop (length k) j → x ∈ drop (length l) j.
Proof.
  intros [a ->] [b ->]. rewrite <- app_assoc, !drop_app_length, app_assoc, drop_app_length.
  intros [H|H]; apply elem_of_app; auto.
Qed.

Lemma step_prefix s s' : step s s' →
  dispatched s `prefix_of` dispatched s' ∧ removed s `prefix_of` removed s' ∧ dropped s `prefix_of` dropped s'.
Proof. destruct 1; cbn; split_and!; try done; by eexists. Qed.

Lemma run_prefix t n s s' : joined t n s s' →
  dispatched s `prefix_of` dispatched s' ∧ removed s `prefix_of` removed s' ∧ dropped s `prefix_of` dropped s'.
Proof.
  induction 1 as [s|s s1 s' n Hs _ (H1 & H2 & H3)]; [done|].
  destruct (step_prefix _ _ Hs) as (G1 & G2 & G3). split_and!; by etrans.
Qed.

(** What became of [e] between two states: dispatched, removed or dropped. *)
Definition left_queue (s s' : State) (e : LoopEvent) : Prop :=
  e ∈ (drop (length (dispatched s)) (dispatched s')).*2 ∨
  e ∈ drop (length (removed s)) (removed s') ∨ e ∈ drop (length (dropped s)) (dropped s').

Lemma left_trans t n s s1 s' e : step s s1 → joined t n s1 s' →
  left_queue s s1 e ∨ left_queue s1 s' e → left_queue s s' e.
Proof.
  intros Hs Hr. destruct (step_prefix _ _ Hs) as (P1 & P2 & P3). destruct (run_prefix _ _ _ _ Hr) as (Q1 & Q2 & Q3).
  assert (∀ x, x ∈ (drop (length (dispatched s)) (dispatched s1)).*2 ∨
    x ∈ (drop (length (dispatched s1)) (dispatched s')).*2 →
    x ∈ (drop (length (dispatched s)) (dispatched s')).*2) as HD.
  { intros x [(y & -> & Hy)%list_elem_of_fmap|(y & -> & Hy)%list_elem_of_fmap]; apply list_elem_of_fmap_2;
      eapply drop_prefix; eauto. }
  unfold left_queue. intros [[H|[H|H]]|[H|[H|H]]]; [left; auto|right; left|right; right|left; auto|right; left|right; right];
    eapply drop_prefix; eauto.
Qed.

(** An event due at [t] leaves the queue, or the dispatches are fewer than the events
    due at [t] that were or came before it. *)
Lemma run_waits t n s s' e : joined t n s s' → e ∈ queue s → targetTime e <= t →
  left_queue s s' e ∨
  (length (dispatched s') < length (dispatched s) + due t (queue s) + n)%nat.
Proof.
  intros Hr. induction Hr as [s|s s1 s' n Hs Hr IH]; intros He Ht.
  { right. pose proof (due_pos t _ e He Ht). lia. }
  destruct (step_leaves s s1 e Hs He) as [H|H]; [|left; eapply left_trans; eauto].
  destruct (IH H Ht) as [|Hn]; [left; eapply left_trans; eauto|].
  right. pose proof (step_dispatched t s s1 e Hs H Ht). lia.
Qed.

(** C30: No queued event starves.  While the loop is not stopping, a fetch succeeds
    whenever a queued event is due.  Whatever calls, removals and handlers run, a
    queued event has left the queue, dispatched unless it was removed or the loop was
    stopped, once there were as many dispatches as events due by its target time
    were in the queue and came into it ([joined]); events added with a later target
    time ([call_quiet]) do not count. *)
Theorem event_loop_no_starvation s s' e n :
  joined (targetTime e) n s s' → e ∈ queue s →
  (length (dispatched s) + due (targetTime e) (queue s) + n <= length (dispatched s'))%nat →
  ((∃ now, (now, e) ∈ drop (length (dispatched s)) (dispatched s')) ∨
   e ∈ drop (length (removed s)) (removed s') ∨ e ∈ drop (length (dropped s)) (dropped s')) ∧
  ∀ now l, needQuit_ l = false → e ∈ pendingEvents_ l → targetTime e <= now →
    (FetchNextEvent now 0 l).1.1 = true.
Proof.
  intros Hr He Hlen. split.
  - destruct (run_waits _ _ _ _ e Hr He ltac:(lia)) as [[H|H]|H]; [left|by right|lia].
    apply list_elem_of_fmap in H as ([now x] & -> & H). by exists now.
  - intros now l Hq Hin Ht. destruct (FetchNextEvent_cases now l) as [(x & E & _)|[(x & E & _ & Hx & HF)|[E [Hl|Hl]]]].
    + by rewrite E.
    + rewrite Forall_forall in HF. specialize (HF e Hin). lia.
    + congruence.
    + rewrite Hl in Hin. by apply not_elem_of_nil in Hin.
Qed.

End Loop.

(** ** The loop thread, executed *)

Abbreviation queue s := (pendingEvents_ (loop s)).

Section Run.
Context `{PQ : PriorityQueue}.

(** The next step of the loop thread. *)
Definition advance (s : State) : State :=
  let '(mkState l p t A D R X) := s in
  match p with
  | Top => mkState l (match pendingEvents_ l with [] => Wait t INT_MAX | _ => Fetch t end) t A D R X
  | Fetch now =>
      let '(ok, rest, l') := FetchNextEvent now 0 l in
      if ok : bool then mkState l' Busy t A (D ++ [(now, local l')]) R X
      else mkState (set_waken l' false (notified l')) (Wait now rest) t A D R X
  | Busy => mkState l (if periodic (local l) then Again t else Clear) t A D R X
  | Again now => mkState (ReInsertPeriodicEvent now l) Clear t A D R X
  | Clear => mkState (set_current l false (local l)) Top t A D R X
  | Wait _ _ => mkState (set_waken l true false) (if needQuit_ l then Gone else Top) t A D R X
  | Gone => s
  end.

Lemma advance_step s : pc s ≠ Gone → step s (advance s).
Proof.
  destruct s as [l [] t A D R X]; cbn; intros HG; try by constructor.
  destruct (FetchNextEvent_cases now l) as [(e & E & _)|[(e & E & _)|[E _]]]; rewrite E; by constructor.
Qed.

(** A call at the current time, and time passing. *)
Definition call_now (c : Call) (s : State) : State :=
  let '(mkState l p t A D R X) := s in
  mkState (run_call c t l) p t (A ++ new_events l (run_call c t l)) D R X.

Lemma call_now_step c s : 0 <= clock s → step s (call_now c s).
Proof. destruct s. intros H. apply step_call. cbn in H. lia. Qed.

Definition pass (d : Z) (s : State) : State :=
  let '(mkState l p t A D R X) := s in mkState l p (t + d) A D R X.

Lemma pass_step d s : 0 <= d → clock s + d < 2 ^ 64 → step s (pass d s).
Proof. destruct s. intros H H'. cbn in *. apply step_tick; lia. Qed.

(** Moves: [None] for the loop thread. *)
Inductive Move := Adv | Call_ (c : Call) | Pass (d : Z).

Definition move (m : Move) (s : State) : State :=
  match m with Adv => advance s | Call_ c => call_now c s | Pass d => pass d s end.

Definition move_ok (m : Move) (s : State) : bool :=
  match m with
  | Adv => match pc s with Gone => false | _ => true end
  | Call_ _ => 0 <=? clock s
  | Pass d => (0 <=? d) && (clock s + d <? 2 ^ 64)
  end.

Lemma move_step m s : move_ok m s = true → step s (move m s).
Proof.
  destruct m as [|c|d]; cbn; intros H.
  - apply advance_step. intros E. by rewrite E in H.
  - apply call_now_step. lia.
  - apply andb_true_iff in H as [H1 H2]. apply pass_step; lia.
Qed.

Fixpoint play (ms : list Move) (s : State) : option State :=
  match ms with
  | [] => Some s
  | m :: ms => if move_ok m s then play ms (move m s) else None
  end.

Lemma play_reaches ms s s' : play ms s = Some s' → rtc step s s'.
Proof.
  revert s. induction ms as [|m ms IH]; cbn; intros s E; [injection E as ->; done|].
  destruct (move_ok m s) eqn:Em; [|done]. eapply rtc_l; [by apply move_step|auto].
Qed.

Lemma play_reachable t ms s : 0 <= t < 2 ^ 64 → play ms (init t) = Some s → reachable s.
Proof. intros Ht E. exists t. split; [done|]. by eapply play_reaches. Qed.

(** The run of [ms], and how many events due at [t] come into the queue. *)
Fixpoint play_joined (t : Z) (ms : list Move) (s : State) : option (nat * State) :=
  match ms with
  | [] => Some (0%nat, s)
  | m :: ms =>
      if move_ok m s
      then prod_map (λ n, due t (queue (move m s)) - due t (queue s) + n)%nat id <$> play_joined t ms (move m s)
      else None
  end.

Lemma play_joined_reaches t ms : ∀ s n s', play_joined t ms s = Some (n, s') → joined t n s s'.
Proof.
  induction ms as [|m ms IH]; cbn; intros s n s' E; [injection E as <- <-; constructor|].
  destruct (move_ok m s) eqn:Em; [|done]. apply fmap_Some in E as ([k u] & E & [= -> ->]).
  apply joined_step; [by apply move_step|by apply IH].
Qed.

End Run.

(** ** A queue *)

Fixpoint least (q : list LoopEvent) : option (nat * Z) :=
  match q with
  | [] => None
  | e :: q =>
      match least q with
      | Some (i, t) => if t <? targetTime e then Some (S i, t) else Some (0%nat, targetTime e)
      | None => Some (0%nat, targetTime e)
      end
  end.

Lemma least_spec q : q ≠ [] →
  ∃ i e, least q = Some (i, targetTime e) ∧ q !! i = Some e ∧ Forall (λ x, targetTime e <= targetTime x) q.
Proof.
  induction q as [|x q IH]; intros Hq; [done|]. cbn. destruct (decide (q = [])) as [->|Hne].
  { exists 0%nat, x. cbn. split_and!; try done. by repeat constructor. }
  destruct (IH Hne) as (i & e & -> & Hi & HF). destruct (Z.ltb_spec (targetTime e) (targetTime x)).
  - exists (S i), e. split_and!; try done. constructor; [lia|done].
  - exists 0%nat, x. split_and!; try done. constructor; [lia|]. eapply Forall_impl; [done|]. cbn. lia.
Qed.

(** The first of the least elements, the first with the number. *)
#[export] Program Instance first_queue : PriorityQueue := {|
  top_index q := default 0%nat (fst <$> least q);
  find_index q s := fst <$> list_find (λ e, seq e = s) q
|}.
Next Obligation. intros q Hq. destruct (least_spec q Hq) as (i & e & -> & Hi & HF). by exists e. Qed.
Next Obligation.
  intros q s i H. apply fmap_Some in H as ([j e] & H & ->). apply list_find_Some in H as (H & Hs & _). by exists e.
Qed.
Next Obligation. intros q s H. by apply fmap_None, list_find_None in H. Qed.

(** Two events and a periodic timer; the loop has run both events, and the timer
    once. *)
Definition sample_moves : list Move :=
  [Call_ (CAddEvent (Some 1) (Some 2) None); Call_ (CAddTimerEvent None None (Some 3) 2 true);
   Adv; Adv; Adv; Adv; Adv; Adv; Pass 2000000000; Call_ (CAddEvent None None (Some 4));
   Adv; Adv; Adv; Adv; Adv; Adv; Adv; Adv; Adv; Adv; Adv; Adv].

Definition sample_run : State := default (init 0) (play sample_moves (init 100)).

Example sample_run_log : dispatched sample_run =
  [(100, mkLoopEvent false 0 100 0 100 100 (Some 2) (Some 1) None None);
   (2000000100, mkLoopEvent true 0 100 2000000000 100 2000000100 None None (Some 3) None);
   (2000000100, mkLoopEvent false 0 2000000100 0 2000000100 2000000100 None None (Some 4) None)].
Proof. vm_compute. reflexivity. Qed.

Lemma event_loop_exactly_once_witness :
  filter one_shot (added sample_run) ≡ₚ filter one_shot (dispatched sample_run).*2.
Proof.
  destruct (event_loop_exactly_once sample_run) as (H & _).
  - apply (play_reachable 100 sample_moves); [lia|by vm_compute].
  - etrans; [exact H|]. by vm_compute.
Defined.

(** A timer of five seconds is queued and the loop sleeps; one of seven seconds is
    added meanwhile. *)
Definition sleeping_moves : list Move :=
  [Call_ (CAddTimerEvent None None (Some 1) 5 false); Adv; Adv; Adv; Pass 1000; Adv; Adv;
   Pass 1000; Call_ (CAddTimerEvent None None (Some 2) 7 false)].

Definition sleeping : State := default (init 0) (play sleeping_moves (init 100)).

Lemma sleep_covers_pending_witness :
  Forall (λ e, 1100 + 4999 * MILLISEC_TO_NANOSEC <= targetTime e) (pendingEvents_ (loop sleeping)).
Proof.
  apply Forall_forall. intros e He. change 4999 with (wait_ms 4999999000).
  apply (sleep_covers_pending sleeping 1100 4999999000 e); [|by vm_compute..|done].
  apply (play_reachable 100 sleeping_moves); [lia|by vm_compute].
Defined.

(** A timer of ten seconds in the queue, overtaken by the event before it and by two
    events that are added while it waits. *)
Definition queued : State := default (init 0)
  (play [Call_ (CAddEvent None None (Some 1)); Pass 10; Call_ (CAddTimerEvent None None (Some 2) 10 false); Pass 10] (init 100)).
Definition second : LoopEvent := mkLoopEvent false 0 110 10000000000 110 10000000110 None None (Some 2) None.
Definition busy_moves : list Move :=
  [Adv; Adv; Call_ (CAddEvent None None (Some 3)); Adv; Adv; Adv; Adv; Adv; Adv; Pass 5;
   Call_ (CAddEvent None None (Some 4)); Adv; Adv; Adv; Adv; Adv; Adv; Adv; Pass 10000000000; Adv; Adv; Adv; Adv; Adv; Adv].
Definition busy : State := default (init 0) (play busy_moves queued).

Lemma event_loop_no_starvation_witness :
  ∃ now, (now, second) ∈ drop (length (dispatched queued)) (dispatched busy).
Proof.
  destruct (event_loop_no_starvation queued busy second 2) as [[H|[H|H]] _].
  - apply (play_joined_reaches _ busy_moves). by vm_compute.
  - right. by left.
  - apply Nat.leb_le. by vm_compute.
  - exact H.
  - exfalso. by apply not_elem_of_nil in H.
  - exfalso. by apply not_elem_of_nil in H.
Defined.

(** ** Times at the edge *)

(** [AddTimerEvent] checks that the sum of the clock and the interval fits 64
    bits, but not the product that converts seconds to nanoseconds: an interval of
    585 years is accepted and is due after 290 milliseconds. *)
Theorem timer_interval_wraps `{PQ : PriorityQueue} now l :
  needQuit_ l = false → 0 <= now < 2 ^ 63 →
  (AddTimerEvent None None (Some 1) 18446744074 false now l).1 = now ∧
  ∃ e, pendingEvents_ (AddTimerEvent None None (Some 1) 18446744074 false now l).2 = pendingEvents_ l ++ [e] ∧
    targetTime e = now + 290448384.
Proof.
  intros Hq Hn. unfold AddTimerEvent. rewrite Hq.
  assert (u64 (18446744074 * SEC_TO_NANOSEC) = 290448384) as -> by done.
  rewrite (u64_small (now + 290448384)) by (split; lia). destruct (Z.ltb_spec (now + 290448384) now); [lia|].
  split; [done|]. exists (timer_event None None (Some 1) now 290448384 false). split.
  - cbn [snd]. match goal with |- context [ResetTimerIfNeedLocked ?l] => destruct (Reset_cases l) as [-> |[-> _]] end; done.
  - cbn. rewrite u64_small; [done|split; lia].
Qed.

Lemma timer_interval_wraps_witness :
  (AddTimerEvent None None (Some 1) 18446744074 false 7 init_loop).1 = 7.
Proof. apply (timer_interval_wraps 7 init_loop); [done|lia]. Defined.

(** The state after [ms], started at time 100. *)
Definition played (ms : list Move) : State := default (init 0) (play ms (init 100)).

Definition unlucky_moves : list Move :=
  [Call_ (CAddTimerEvent None None (Some 1) 3 false); Adv; Adv; Adv; Pass 852516353; Adv; Adv].
Definition month_moves : list Move :=
  [Call_ (CAddTimerEvent None None (Some 1) 2592000 false); Adv; Adv; Adv; Adv; Adv].

(** The loop can oversleep: a time left of exactly [INT_MAX] nanoseconds is
    taken for "no event" and becomes a sleep of [INT_MAX] milliseconds, and a time
    left of thirty days overflows the [int] timeout of [epoll_wait] to a negative
    one, which waits for ever; in both states nothing will wake the loop. *)
Theorem event_loop_oversleeps :
  (reachable (played unlucky_moves) ∧ notified (loop (played unlucky_moves)) = false ∧
   ∃ now, pc (played unlucky_moves) = Wait now INT_MAX ∧ wait_ms INT_MAX = INT_MAX ∧
     Forall (λ e, targetTime e = now + INT_MAX) (queue (played unlucky_moves)) ∧
     length (queue (played unlucky_moves)) = 1%nat) ∧
  (reachable (played month_moves) ∧ notified (loop (played month_moves)) = false ∧
   ∃ now rest, pc (played month_moves) = Wait now rest ∧ wait_ms rest < 0 ∧
     length (queue (played month_moves)) = 1%nat).
Proof.
  split.
  all: split; [|split; [by vm_compute|]].
  1: apply (play_reachable 100 unlucky_moves); [lia|by vm_compute].
  2: apply (play_reachable 100 month_moves); [lia|by vm_compute].
  - exists 852516453. split_and!; try by vm_compute. apply (bool_decide_unpack _). by vm_compute.
  - exists 100, 2592000000000000. split_and!; by vm_compute.
Qed.

End EventLoop.
