(* ===== verification/FdWatch.v ===== *)
(** * FdWatch: the file descriptors a work loop watches

    Models [AddFileDescriptorEventCallback], [RemoveFileDescriptorEventCallback]
    and the dispatch of [WaitNextEvent] of base/event_loop.cpp (the epoll build):
    two maps of the loop that have to agree with each other and with the kernel's
    set of watched descriptors. *)

From S2P Require Import Prelude.
From stdpp Require Import base gmap list strings.

Local Open Scope Z_scope.

Module FdWatch.

Definition MAX_WATCHED_FDS : nat := 64.

(** A callback, by identity, with the descriptor it polls. *)
Record Source := mkSource { source_id : Z; GetPollFd : Z }.

#[global] Instance Source_eq_dec : EqDecision Source.
Proof. solve_decision. Defined.

(** The two maps, and the descriptors registered with [epoll_ctl]. *)
Record Watch := mkWatch {
  needQuit_ : bool;
  eventSourceNameMap_ : gmap bytes Z;
  eventSourceMap_ : gmap Z Source;
  registered : gset Z
}.

(** [epoll_ctl(EPOLL_CTL_ADD)]: refuses a descriptor that is registered, and may
    refuse another. *)
Definition epoll_add (allowed : bool) (fd : Z) (w : gset Z) : bool * gset Z :=
  if bool_decide (fd ∈ w) || negb allowed then (false, w) else (true, {[fd]} ∪ w).

Definition AddFileDescriptorEventCallback (allowed : bool) (name : bytes) (source : Source) (w : Watch)
    : bool * Watch :=
  if needQuit_ w then (false, w) else
  if bool_decide (MAX_WATCHED_FDS - 1 <= size (eventSourceNameMap_ w))%nat then (false, w) else
  if bool_decide (is_Some (eventSourceNameMap_ w !! name)) then (false, w) else
  let fd := GetPollFd source in
  if fd <=? 0 then (false, w) else
  let '(ok, reg) := epoll_add allowed fd (registered w) in
  if negb ok then (false, mkWatch (needQuit_ w) (eventSourceNameMap_ w) (eventSourceMap_ w) reg) else
  (true, mkWatch (needQuit_ w) (<[name := fd]> (eventSourceNameMap_ w))
           (<[fd := source]> (eventSourceMap_ w)) reg).

(** Taking a watched descriptor out of the kernel's set succeeds; the code only warns
    when it does not. *)
Definition RemoveFileDescriptorEventCallback (name : bytes) (w : Watch) : bool * Watch :=
  match eventSourceNameMap_ w !! name with
  | None => (false, w)
  | Some fd =>
      (true, mkWatch (needQuit_ w) (delete name (eventSourceNameMap_ w)) (delete fd (eventSourceMap_ w))
               (registered w ∖ {[fd]}))
  end.

(** [WaitNextEvent] on the descriptors [epoll_wait] reports: the callbacks it runs,
    up to the wake-up descriptor. *)
Fixpoint WaitNextEvent (pendingEventQueueFd : Z) (ready : list Z) (w : Watch) : list Source :=
  match ready with
  | [] => []
  | fd :: ready =>
      if fd =? pendingEventQueueFd then [] else
      match eventSourceMap_ w !! fd with
      | Some s => s :: WaitNextEvent pendingEventQueueFd ready w
      | None => WaitNextEvent pendingEventQueueFd ready w
      end
  end.

Definition StopLoop (w : Watch) : Watch :=
  mkWatch true (eventSourceNameMap_ w) (eventSourceMap_ w) (registered w).

Inductive Call :=
  | Add (allowed : bool) (name : bytes) (source : Source)
  | Remove (name : bytes)
  | Stop.

Definition run_call (w : Watch) (c : Call) : Watch :=
  match c with
  | Add allowed name source => (AddFileDescriptorEventCallback allowed name source w).2
  | Remove name => (RemoveFileDescriptorEventCallback name w).2
  | Stop => StopLoop w
  end.

Definition init : Watch := mkWatch false ∅ ∅ ∅.

(** ** The maps agree *)

Record watch_ok (w : Watch) : Prop := {
  ok_names : ∀ name fd, eventSourceNameMap_ w !! name = Some fd →
    0 < fd ∧ ∃ s, eventSourceMap_ w !! fd = Some s ∧ GetPollFd s = fd;
  ok_inj : ∀ n n' fd, eventSourceNameMap_ w !! n = Some fd → eventSourceNameMap_ w !! n' = Some fd → n = n';
  ok_named : ∀ fd s, eventSourceMap_ w !! fd = Some s → ∃ name, eventSourceNameMap_ w !! name = Some fd;
  ok_registered : registered w = dom (eventSourceMap_ w);
  ok_size : (size (eventSourceNameMap_ w) < MAX_WATCHED_FDS)%nat
}.

Lemma add_ok allowed name source w :
  watch_ok w → watch_ok (AddFileDescriptorEventCallback allowed name source w).2.
Proof.
  intros Hok. pose proof Hok as [H1 H2 H3 H4 H5]. unfold AddFileDescriptorEventCallback, epoll_add.
  destruct (needQuit_ w); [done|]. case_bool_decide as Hs; [done|]. case_bool_decide as Hn; [done|].
  destruct (Z.leb_spec (GetPollFd source) 0) as [|Hfd]; [done|].
  apply eq_None_not_Some in Hn. set (fd := GetPollFd source) in *.
  case_bool_decide as Hr; cbn; [by split|]. destruct allowed; cbn; [|by split].
  assert (eventSourceMap_ w !! fd = None) as Hfresh by (rewrite H4 in Hr; by apply not_elem_of_dom).
  assert (∀ n, eventSourceNameMap_ w !! n ≠ Some fd) as Hunused.
  { intros n E. destruct (H1 n fd E) as (_ & s & Es & _). congruence. }
  split; cbn.
  - intros n f [[<- <-]|[Hne E]]%lookup_insert_Some.
    + split; [done|]. exists source. by rewrite lookup_insert_eq.
    + destruct (H1 n f E) as (Hf & s & Es & Eg). split; [done|]. exists s. split; [|done].
      rewrite lookup_insert_ne; [done|]. intros <-. congruence.
  - intros n n' f [[<- <-]|[Hne E]]%lookup_insert_Some [[<- E']|[Hne' E']]%lookup_insert_Some; try done.
    + by apply Hunused in E'.
    + subst f. by apply Hunused in E.
    + by eapply H2.
  - intros f s [[<- <-]|[Hne E]]%lookup_insert_Some.
    + exists name. by rewrite lookup_insert_eq.
    + destruct (H3 f s E) as [n En]. exists n. rewrite lookup_insert_ne; [done|]. intros <-. congruence.
  - by rewrite H4, dom_insert_L.
  - rewrite map_size_insert_None by done. unfold MAX_WATCHED_FDS in *. lia.
Qed.

Lemma remove_ok name w : watch_ok w → watch_ok (RemoveFileDescriptorEventCallback name w).2.
Proof.
  intros Hok. pose proof Hok as [H1 H2 H3 H4 H5]. unfold RemoveFileDescriptorEventCallback.
  destruct (eventSourceNameMap_ w !! name) as [fd|] eqn:En; [|done]. split; cbn.
  - intros n f [Hne E]%lookup_delete_Some. destruct (H1 n f E) as (Hf & s & Es & Eg). split; [done|].
    exists s. split; [|done]. rewrite lookup_delete_ne; [done|]. intros ->. apply Hne. by eapply H2.
  - intros n n' f [_ E]%lookup_delete_Some [_ E']%lookup_delete_Some. by eapply H2.
  - intros f s [Hne E]%lookup_delete_Some. destruct (H3 f s E) as [n E']. exists n.
    rewrite lookup_delete_ne; [done|]. intros <-. congruence.
  - rewrite H4. by rewrite dom_delete_L.
  - rewrite map_size_delete, En. unfold MAX_WATCHED_FDS in *. lia.
Qed.

Lemma watch_init_ok : watch_ok init.
Proof.
  split; cbn.
  - intros ? ? E. by rewrite lookup_empty in E.
  - intros ? ? ? E. by rewrite lookup_empty in E.
  - intros ? ? E. by rewrite lookup_empty in E.
  - by rewrite dom_empty_L.
  - rewrite map_size_empty. unfold MAX_WATCHED_FDS. lia.
Qed.

Lemma calls_ok cs w : watch_ok w → watch_ok (foldl run_call w cs).
Proof.
  revert w. induction cs as [|c cs IH]; intros w Hw; [done|]. cbn. apply IH.
  destruct c; [by apply add_ok|by apply remove_ok|]. by destruct Hw.
Qed.

(** C31: after any sequence of calls, the map from names and the map from
    descriptors describe one set of callbacks, exactly the descriptors registered
    with the kernel, each under one name; there are fewer than 64; and every
    callback runs for its own descriptor. *)
Theorem watched_descriptors_consistent cs efd ready :
  let w := foldl run_call init cs in
  watch_ok w ∧ Forall (λ s, GetPollFd s ∈ ready ∧ GetPollFd s ∈ registered w) (WaitNextEvent efd ready w).
Proof.
  cbn. pose proof (calls_ok cs init watch_init_ok) as Hok. set (w := foldl run_call init cs) in *. clearbody w.
  split; [done|]. destruct Hok as [H1 H2 H3 H4 H5].
  induction ready as [|fd ready IH]; cbn; [done|]. destruct (fd =? efd); [done|].
  assert (Forall (λ s, GetPollFd s ∈ fd :: ready ∧ GetPollFd s ∈ registered w) (WaitNextEvent efd ready w)) as HF.
  { eapply Forall_impl; [done|]. intros s [? ?]. split; [by right|done]. }
  destruct (eventSourceMap_ w !! fd) as [s|] eqn:E; [|done]. constructor; [|done].
  destruct (H3 fd s E) as [n En]. destruct (H1 n fd En) as (_ & s' & Es & Eg).
  assert (s' = s) as -> by congruence. rewrite Eg. split; [by left|]. rewrite H4. by eapply elem_of_dom_2.
Qed.

End FdWatch.
