(* ===== verification/Pipeline.v ===== *)
(** * Pipeline: handing an event from plugin to plugin

    Models base/pipeline.cpp, [EventLogger::CheckEventOnContinue] of
    plugins/eventlogger/event_logger.cpp, [Plugin::OnEventProxy] and [DelayProcessEvent] of
    base/plugin.cpp and [EventSource::PublishPipelineEvent] of
    base/event_source.cpp.  The virtual methods of the plugins are the fields of
    a class; a plugin with a work loop gets the event later, from its loop, so
    the delivery of one event is a sequence of separate runs. *)

From S2P Require Import Prelude.
From stdpp Require Import base list numbers relations strings.

Local Open Scope Z_scope.

Module Pipeline.

(** [PipelineEvent], what delivery looks at; [processors_] holds weak references. *)
Record PipelineEvent := mkEvent {
  isPipeline_ : bool;
  hasFinish_ : bool;
  hasPending_ : bool;
  startDeliver_ : bool;
  hasHandler : bool;
  pipelineName_ : bytes;
  processors_ : list Z
}.

(** What a plugin's [OnEvent] does to the event. *)
Inductive Act := CallOnPending | CallOnFinish | CallOnContinue | CallDelayProcessEvent.

(** What can be observed: an event handed to a plugin by the pipeline, a run of
    [OnEventProxy], and the two calls to the producer. *)
Inductive Effect := Handed (p : Z) | Delivered (p : Z) | PauseDispatch (p : Z) | Recycle.

(** The plugins.  [OnEvent] may depend on all that happened. *)
Class Plugins := {
  GetName : Z → bytes;
  locked : Z → bool;
  CanProcessEvent : Z → PipelineEvent → bool;
  CanProcessMoreEvents : Z → bool;
  IsInterestedPipelineEvent : Z → PipelineEvent → bool;
  GetWorkLoop : Z → bool;
  OnEvent : Z → list Effect → PipelineEvent → list Act
}.

(** The event in transit, what happened, and the plugins in whose work loop it
    waits, at once or for a delay. *)
Record Sys := mkSys {
  ev : PipelineEvent;
  log : list Effect;
  queued : list Z;
  delayed : list Z
}.

(** A run may call [front] on an empty list, or not end within the fuel. *)
Inductive res := Ret (s : Sys) | EmptyFront | OutOfFuel.

Definition rbind (r : res) (f : Sys → res) : res :=
  match r with Ret s => f s | EmptyFront => EmptyFront | OutOfFuel => OutOfFuel end.

Definition note (x : Effect) (s : Sys) : Sys := mkSys (ev s) (log s ++ [x]) (queued s) (delayed s).

Definition on_event (f : PipelineEvent → PipelineEvent) (s : Sys) : Sys :=
  mkSys (f (ev s)) (log s) (queued s) (delayed s).

Definition set_finish (b : bool) (e : PipelineEvent) : PipelineEvent :=
  mkEvent (isPipeline_ e) b (hasPending_ e) (startDeliver_ e) (hasHandler e) (pipelineName_ e) (processors_ e).
Definition set_pending (b : bool) (e : PipelineEvent) : PipelineEvent :=
  mkEvent (isPipeline_ e) (hasFinish_ e) b (startDeliver_ e) (hasHandler e) (pipelineName_ e) (processors_ e).
Definition set_start (b : bool) (e : PipelineEvent) : PipelineEvent :=
  mkEvent (isPipeline_ e) (hasFinish_ e) (hasPending_ e) b (hasHandler e) (pipelineName_ e) (processors_ e).
Definition SetPipelineInfo (name : bytes) (ps : list Z) (e : PipelineEvent) : PipelineEvent :=
  mkEvent (isPipeline_ e) (hasFinish_ e) (hasPending_ e) (startDeliver_ e) (hasHandler e) name ps.
Definition set_processors (ps : list Z) (e : PipelineEvent) : PipelineEvent :=
  SetPipelineInfo (pipelineName_ e) ps e.

Section Delivery.
Context `{PL : Plugins}.

Definition OnFinish (s : Sys) : Sys :=
  on_event (set_finish true) (if hasHandler (ev s) then note Recycle s else s).

Definition OnRepack (s : Sys) : Sys := on_event (set_start false) s.

Definition GetPendingProcessorSize (e : PipelineEvent) : nat := length (processors_ e).

(** [Plugin::OnEventProxy], given what [OnContinue] does. *)
Section Proxy.
Context (continue_ : Sys → res).

Definition run_act (p : Z) (a : Act) (s : Sys) : res :=
  match a with
  | CallOnPending => Ret (on_event (set_pending true) s)
  | CallOnFinish => Ret (OnFinish s)
  | CallOnContinue => continue_ s
  | CallDelayProcessEvent =>
      if negb (GetWorkLoop p) then Ret s else
      let s := on_event (set_pending true) s in
      Ret (mkSys (ev s) (log s) (queued s) (delayed s ++ [p]))
  end.

Fixpoint run_acts (p : Z) (acts : list Act) (s : Sys) : res :=
  match acts with
  | [] => Ret s
  | a :: acts => rbind (run_act p a s) (run_acts p acts)
  end.

Definition OnEventProxy_with (p : Z) (s : Sys) : res :=
  let processorSize := GetPendingProcessorSize (ev s) in
  let s := on_event (set_pending false) s in
  rbind (run_acts p (OnEvent p (log s) (ev s)) (note (Delivered p) s)) (λ s,
  if negb (isPipeline_ (ev s)) then Ret s else
  if (negb (hasFinish_ (ev s)) && negb (hasPending_ (ev s))) &&
     Nat.eqb processorSize (GetPendingProcessorSize (ev s))
  then continue_ s else Ret s).

End Proxy.

Definition Pause (p : Z) (s : Sys) : Sys :=
  if negb (CanProcessMoreEvents p) && hasHandler (ev s) then note (PauseDispatch p) s else s.

Fixpoint OnContinue (fuel : nat) (s : Sys) : res :=
  match fuel with
  | O => OutOfFuel
  | S fuel =>
      if negb (hasFinish_ (ev s)) && bool_decide (processors_ (ev s) = []) then Ret (OnFinish s) else
      let s := on_event (set_start true) s in
      match processors_ (ev s) with
      | [] => EmptyFront
      | p :: ps =>
          let s := on_event (set_processors ps) s in
          if negb (locked p) then OnContinue fuel s else
          let s := Pause p s in
          if negb (IsInterestedPipelineEvent p (ev s)) then
            if negb (hasFinish_ (ev s)) && negb (hasPending_ (ev s)) then OnContinue fuel s else Ret s
          else
            let s := note (Handed p) s in
            if GetWorkLoop p then Ret (mkSys (ev s) (log s) (queued s ++ [p]) (delayed s))
            else OnEventProxy_with (OnContinue fuel) p s
      end
  end.

Definition OnEventProxy (fuel : nat) : Z → Sys → res := OnEventProxy_with (OnContinue fuel).

(** ** Pipelines and sources *)

Record Pipe := mkPipe { name_ : bytes; pipe_processors : list Z }.



Definition AppendProcessor (p : Z) (pl : Pipe) : Pipe := mkPipe (name_ pl) (pipe_processors pl ++ [p]).

Definition RemoveProcessor (p : Z) (pl : Pipe) : Pipe :=
  mkPipe (name_ pl) (filter (λ q, ¬ (locked p = true ∧ locked q = true ∧ p = q)) (pipe_processors pl)).


(** [FillPipelineInfo]: the sequence from the calling plugin on. *)
Fixpoint from_caller (caller : bytes) (seq : list Z) : list Z :=
  match seq with
  | [] => []
  | p :: rest =>
      if locked p && bool_decide (GetName p = caller) then seq else from_caller caller rest
  end.

Definition FillPipelineInfo (caller pipelineName : bytes) (seq : list Z) (deliverFromCurrent : bool)
    (e : PipelineEvent) : PipelineEvent :=
  SetPipelineInfo pipelineName (if deliverFromCurrent then from_caller caller seq else seq) e.

(** [EventLogger::CheckEventOnContinue]: a plugin that kept the event pending goes on
    with it later, from a thread of its own. *)
Definition CheckEventOnContinue (fuel : nat) (s : Sys) : res := OnContinue fuel (on_event (set_pending false) s).

(** ** Runs from the work loops *)

(** A work loop runs a queued event, or one whose delay is over, or a plugin goes on
    with an event it kept; the fuel is the number of processors left and one more. *)
Definition take_queued (i : nat) (s : Sys) : Sys :=
  mkSys (ev s) (log s) (take i (queued s) ++ drop (S i) (queued s)) (delayed s).
Definition take_delayed (i : nat) (s : Sys) : Sys :=
  mkSys (ev s) (log s) (queued s) (take i (delayed s) ++ drop (S i) (delayed s)).

Definition enough (s : Sys) : nat := S (length (processors_ (ev s))).

Inductive sys_step : Sys → Sys → Prop :=
  | run_queued i p s s' : queued s !! i = Some p →
      OnEventProxy (enough s) p (take_queued i s) = Ret s' → sys_step s s'
  | run_delayed i p s s' : delayed s !! i = Some p →
      OnEventProxy (enough s) p (take_delayed i s) = Ret s' → sys_step s s'
  | run_pending s s' : hasPending_ (ev s) = true → hasFinish_ (ev s) = false →
      CheckEventOnContinue (enough s) s = Ret s' → sys_step s s'.

(** ** Every run ends *)

Definition no_fuel_out (r : res) : Prop := r ≠ OutOfFuel.

(** The outcome of a run, if any, satisfies [P]. *)
Definition ends (P : Sys → Prop) (r : res) : Prop :=
  match r with Ret s => P s | EmptyFront => True | OutOfFuel => False end.

Lemma ends_bind P Q r f : ends P r → (∀ s, P s → ends Q (f s)) → ends Q (rbind r f).
Proof. destruct r; cbn; auto. Qed.

Lemma ends_mono (P Q : Sys → Prop) r : (∀ s, P s → Q s) → ends P r → ends Q r.
Proof. destruct r; cbn; auto. Qed.

(** What the pipeline has handed out. *)
Fixpoint handed (l : list Effect) : list Z :=
  match l with
  | [] => []
  | Handed p :: l => p :: handed l
  | _ :: l => handed l
  end.

Lemma handed_app l k : handed (l ++ k) = handed l ++ handed k.
Proof. induction l as [|[] l IH]; cbn; by rewrite ?IH. Qed.

(** [s'] came from [s] by taking processors from the front of the list and handing
    some of them, in order, the event. *)
Definition consumes (s s' : Sys) : Prop :=
  ∃ out, processors_ (ev s) = out ++ processors_ (ev s') ∧
    ∃ given, handed (log s') = handed (log s) ++ given ∧ given `sublist_of` out.

Lemma consumes_refl s : consumes s s.
Proof. exists []. split; [done|]. exists []. by rewrite app_nil_r. Qed.

Lemma consumes_trans s1 s2 s3 : consumes s1 s2 → consumes s2 s3 → consumes s1 s3.
Proof.
  intros (o1 & E1 & g1 & G1 & H1) (o2 & E2 & g2 & G2 & H2).
  exists (o1 ++ o2). rewrite E1, E2, app_assoc. split; [done|].
  exists (g1 ++ g2). rewrite G2, G1, app_assoc. split; [done|]. by apply sublist_app.
Qed.

Lemma consumes_len s s' : consumes s s' → (length (processors_ (ev s')) <= length (processors_ (ev s)))%nat.
Proof. intros (o & -> & _). rewrite length_app. lia. Qed.

Lemma consumes_same s s' :
  processors_ (ev s') = processors_ (ev s) → handed (log s') = handed (log s) → consumes s s'.
Proof. intros E1 E2. exists []. split; [by rewrite E1|]. exists []. by rewrite E2, app_nil_r. Qed.

Section Ends.
Context (n : nat) (continue_ : Sys → res).
Context (Hcont : ∀ s, (length (processors_ (ev s)) <= n)%nat → ends (consumes s) (continue_ s)).

Lemma run_act_ends p a s : (length (processors_ (ev s)) <= n)%nat → ends (consumes s) (run_act continue_ p a s).
Proof.
  intros Hn. destruct a; cbn; [by apply consumes_same| |by apply Hcont|].
  - unfold OnFinish. destruct (hasHandler (ev s)); cbn; apply consumes_same; cbn; rewrite ?handed_app, ?app_nil_r; done.
  - destruct (GetWorkLoop p); cbn; [by apply consumes_same|apply consumes_refl].
Qed.

Lemma run_acts_ends p acts s :
  (length (processors_ (ev s)) <= n)%nat → ends (consumes s) (run_acts continue_ p acts s).
Proof.
  revert s. induction acts as [|a acts IH]; intros s Hn; cbn; [apply consumes_refl|].
  eapply ends_bind; [by apply run_act_ends|]. intros s1 H1. eapply ends_mono; [|apply IH].
  - intros s2. by apply consumes_trans.
  - apply consumes_len in H1. lia.
Qed.

Lemma proxy_ends p s :
  (length (processors_ (ev s)) <= n)%nat → ends (consumes s) (OnEventProxy_with continue_ p s).
Proof.
  intros Hn. unfold OnEventProxy_with.
  set (s1 := note (Delivered p) (on_event (set_pending false) s)).
  assert (consumes s s1) as H1 by (apply consumes_same; cbn; rewrite ?handed_app, ?app_nil_r; done).
  eapply ends_bind; [by apply (run_acts_ends p _ s1)|]. intros s2 H2.
  pose proof (consumes_trans _ _ _ H1 H2) as H12.
  destruct (negb (isPipeline_ (ev s2))); [done|]. destruct (_ && _); [|done].
  eapply ends_mono; [intros s3; by apply consumes_trans|]. apply Hcont. apply consumes_len in H12. lia.
Qed.

End Ends.

Lemma OnContinue_ends fuel s :
  (length (processors_ (ev s)) < fuel)%nat → ends (consumes s) (OnContinue fuel s).
Proof.
  revert s. induction fuel as [|fuel IH]; intros s Hf; [lia|]. cbn [OnContinue].
  destruct (negb (hasFinish_ (ev s)) && _) eqn:Ef.
  { unfold OnFinish. destruct (hasHandler (ev s)); cbn; apply consumes_same; cbn; rewrite ?handed_app, ?app_nil_r; done. }
  clear Ef. destruct (processors_ (ev s)) as [|p ps] eqn:Ep; cbn; rewrite Ep; [done|]. cbn in Hf.
  set (s1 := on_event (set_processors ps) (on_event (set_start true) s)).
  assert (consumes s s1) as H1.
  { exists [p]. split; [done|]. exists []. rewrite app_nil_r. split; [done|]. apply sublist_nil_l. }
  assert (ends (consumes s) (OnContinue fuel s1)) as Hgo.
  { eapply ends_mono; [intros s2; by apply consumes_trans|]. apply IH. cbn. lia. }
  destruct (locked p); cbn; [|done].
  assert (consumes s (Pause p s1) ∧ processors_ (ev (Pause p s1)) = ps ∧
    handed (log (Pause p s1)) = handed (log s)) as (H2 & E2 & L2).
  { unfold Pause. destruct (_ && _); cbn; [|by split_and!]. rewrite handed_app, app_nil_r. split_and!; [|done..].
    eapply consumes_trans; [exact H1|]. apply consumes_same; cbn; rewrite ?handed_app, ?app_nil_r; done. }
  destruct (IsInterestedPipelineEvent p _); cbn.
  - assert (consumes s (note (Handed p) (Pause p s1))) as H3.
    { exists [p]. cbn. rewrite E2. split; [done|]. exists [p]. rewrite handed_app, L2. done. }
    destruct (GetWorkLoop p); cbn; [done|].
    eapply ends_mono; [intros s3; by apply consumes_trans|].
    eapply (proxy_ends (length ps)); [|cbn; rewrite E2; lia]. intros s4 H4. apply IH. lia.
  - destruct (_ && _); [|done]. eapply ends_mono; [intros s3; by apply consumes_trans|]. apply IH. rewrite E2. lia.
Qed.

Lemma OnEventProxy_ends p s : ends (consumes s) (OnEventProxy (enough s) p s).
Proof. apply (proxy_ends (length (processors_ (ev s)))); [|done]. intros s' H'. apply OnContinue_ends. unfold enough. lia. Qed.

Lemma sys_step_consumes s s' : sys_step s s' → consumes s s'.
Proof.
  destruct 1 as [i p s s' _ E|i p s s' _ E|s s' _ _ E].
  - pose proof (OnEventProxy_ends p (take_queued i s)) as He. unfold enough in *. cbn in *.
    rewrite E in He. eapply consumes_trans; [|exact He]. by apply consumes_same.
  - pose proof (OnEventProxy_ends p (take_delayed i s)) as He. unfold enough in *. cbn in *.
    rewrite E in He. eapply consumes_trans; [|exact He]. by apply consumes_same.
  - unfold CheckEventOnContinue in E.
    assert (ends (consumes (on_event (set_pending false) s)) (OnContinue (enough s) (on_event (set_pending false) s))) as He
      by (apply OnContinue_ends; cbn; unfold enough; lia).
    rewrite E in He. eapply consumes_trans; [|exact He]. by apply consumes_same.
Qed.

(** Whatever the plugins do with the event (finish it, keep it pending, delay
    it, continue it themselves, any number of times), every [OnContinue] and every
    [OnEventProxy] ends, within fuel one more than the processors left; and over
    all runs from all work loops the pipeline hands the event to its processors in
    their order, to each at most once. *)
Theorem pipeline_terminates_in_order s s1 s2 p :
  OnContinue (enough s) s ≠ OutOfFuel ∧ OnEventProxy (enough s) p s ≠ OutOfFuel ∧
  (OnContinue (enough s) s = Ret s1 → rtc sys_step s1 s2 → log s = [] →
   handed (log s2) `sublist_of` processors_ (ev s)).
Proof.
  assert (ends (consumes s) (OnContinue (enough s) s)) as H1 by (apply OnContinue_ends; unfold enough; lia).
  split_and!.
  - intros E. by rewrite E in H1.
  - intros E. pose proof (OnEventProxy_ends p s) as H2. by rewrite E in H2.
  - intros E Hr Hl. rewrite E in H1. cbn in H1.
    assert (consumes s s2) as (out & Eo & given & Eg & Hs).
    { clear E. induction Hr as [|s3 s4 s5 Hs _ IH]; [done|]. apply IH.
      eapply consumes_trans; [exact H1|by apply sys_step_consumes]. }
    rewrite Hl in Eg. cbn in Eg. rewrite Eg, Eo. etrans; [exact Hs|]. apply sublist_inserts_r. done.
Qed.

(** ** Plugins that look at the event, finish it or keep it for a while *)

Section WellBehaved.
Context (want : Z → bool).
Context (Hwant : ∀ p e, locked p && IsInterestedPipelineEvent p e = want p).
Context (Hacts : ∀ p l e, OnEvent p l e = [] ∨ OnEvent p l e = [CallOnFinish] ∨ OnEvent p l e = [CallOnPending]).
















(** An event before it is published. *)
Definition fresh : Sys := mkSys (mkEvent true false false false true [] []) [] [] [].




End WellBehaved.

End Delivery.

(** ** Concrete plugins *)

(** Plugins 1 to 5: 2 is gone, 3 is not interested, 1 and 4 have work loops, 5 keeps
    the event for a while, and 4, the last of the pipeline, finishes it itself. *)
#[local] Instance sample_plugins : Plugins := {|
  GetName p := [p];
  locked p := negb (p =? 2);
  CanProcessEvent _ _ := true;
  CanProcessMoreEvents p := negb (p =? 4);
  IsInterestedPipelineEvent p _ := negb (p =? 3);
  GetWorkLoop p := (p =? 1) || (p =? 4);
  OnEvent p _ _ := if p =? 4 then [CallOnFinish] else if p =? 5 then [CallOnPending] else []
|}.



(** A plugin that continues the event twice. *)
Definition eager_plugins : Plugins := {|
  GetName p := [p];
  locked _ := true;
  CanProcessEvent _ _ := true;
  CanProcessMoreEvents _ := true;
  IsInterestedPipelineEvent _ _ := true;
  GetWorkLoop _ := false;
  OnEvent _ _ _ := [CallOnContinue; CallOnContinue]
|}.

(** [OnContinue] checks for an empty list only while the event is unfinished:
    a plugin at the end of a pipeline that continues the event twice makes it take
    the front of an empty list. *)
Theorem continue_after_finish_undefined :
  @OnContinue eager_plugins 5 (on_event (SetPipelineInfo [] [1]) fresh) = EmptyFront.
Proof. reflexivity. Qed.

End Pipeline.
