(* ===== verification/Json.v ===== *)
(** * Json: the values of a JSON parser

    What a [Json::Value] of jsoncpp holds and the calls on it that the components
    reading configuration make: base/dispatch_rule_parser.cpp,
    base/event_json_parser.cpp and base/version_config_parser.cpp.  Reading the
    text itself is the library's work: the values are arguments of the models. *)

From S2P Require Import Prelude.
From stdpp Require Import base list sets strings.

Local Open Scope Z_scope.

Module JsonValue.

(** A number without a fraction or exponent is kept as an integer, another as a
    real, here by its value when it is a whole number.  The members of an object
    are in the order of their keys, which are distinct. *)
Inductive Json :=
  | JNull
  | JBool (b : bool)
  | JInt (n : Z)
  | JReal (whole : option Z)
  | JString (s : bytes)
  | JArray (l : list Json)
  | JObject (members : list (bytes * Json)).

Fixpoint assoc (k : bytes) (l : list (bytes * Json)) : option Json :=
  match l with
  | [] => None
  | (k', v) :: l => if bool_decide (k = k') then Some v else assoc k l
  end.

(** [isMember] needs an object or null; on another value jsoncpp stops the program
    ([None]). *)
Definition isMember (j : Json) (k : bytes) : option bool :=
  match j with
  | JNull => Some false
  | JObject ms => Some (match assoc k ms with Some _ => true | None => false end)
  | _ => None
  end.

(** [operator[]] of an object; null when there is no such member. *)
Definition member (j : Json) (k : bytes) : Json :=
  match j with JObject ms => default JNull (assoc k ms) | _ => JNull end.

(** [getMemberNames]: an empty list for null; another value stops the program. *)
Definition getMemberNames (j : Json) : option (list bytes) :=
  match j with JNull => Some [] | JObject ms => Some ms.*1 | _ => None end.

Definition json_size (j : Json) : nat :=
  match j with JArray l => length l | JObject ms => length ms | _ => 0 end.

Definition isObject (j : Json) : bool := match j with JObject _ => true | _ => false end.

(** [isInt]/[asInt] and [isUInt]/[asUInt]: the integer, when it is one in range. *)
Definition whole_value (j : Json) : option Z :=
  match j with JInt n => Some n | JReal w => w | _ => None end.

Definition int_value (j : Json) : option Z :=
  n ← whole_value j; if (- 2 ^ 31 <=? n) && (n <? 2 ^ 31) then Some n else None.

Definition uint_value (j : Json) : option Z :=
  n ← whole_value j; if (0 <=? n) && (n <? 2 ^ 32) then Some n else None.

Lemma assoc_elem k l v : assoc k l = Some v → (k, v) ∈ l.
Proof.
  induction l as [|[k' v'] l IH]; [done|]. cbn. case_bool_decide as H; [|set_solver].
  intros [= ->]. subst. set_solver.
Qed.

Lemma assoc_none k l : assoc k l = None ↔ k ∉ l.*1.
Proof.
  induction l as [|[k' v'] l IH]; cbn; [set_solver|]. case_bool_decide; [split; set_solver|].
  rewrite IH. set_solver.
Qed.

End JsonValue.
