(* ===== verification/Dispatch.v ===== *)
(** * Dispatch: which plugins and listeners get an event

    Models base/dispatch_rule_parser.cpp (rules read from JSON), the structures
    [DispatchInfo] and [ListenerInfo] of core/include/hiview_platform.h, their
    registration and lookup in core/hiview_platform.cpp, and
    [EventDispatchQueue::ProcessUnorderedEvent] of base/event_dispatch_queue.cpp. *)

From S2P Require Import Prelude Json.
From stdpp Require Import base gmap list strings.

Local Open Scope Z_scope.

Module Dispatch.
Import JsonValue.

(** ** Rules *)

Definition INCLUDE : Z := 0.
Definition EXCLUDE : Z := 1.

(** [filterType] has no initialiser: [None] is an indeterminate value. *)
Record DomainRule := mkDomainRule { filterType : option Z; eventlist : gset bytes }.

Definition DomainRule_new : DomainRule := mkDomainRule None ∅.

(** [None]: the answer depends on an indeterminate value. *)
Definition DomainRule_FindEvent (r : DomainRule) (eventName : bytes) : option bool :=
  match filterType r with
  | None => None
  | Some t =>
      if t =? INCLUDE then Some (bool_decide (eventName ∈ eventlist r))
      else Some (bool_decide (eventName ∉ eventlist r))
  end.

Record DispatchRule := mkRule {
  typeList : gset Z;
  tagList : gset bytes;
  eventList : gset bytes;
  domainRuleMap : gmap bytes DomainRule
}.

Definition DispatchRule_new : DispatchRule := mkRule ∅ ∅ ∅ ∅.

Definition DispatchRule_FindEvent (r : DispatchRule) (domain eventName : bytes) : option bool :=
  if bool_decide (eventName ∈ eventList r) then Some true else
  match domainRuleMap r !! domain with
  | Some d => DomainRule_FindEvent d eventName
  | None => Some false
  end.

(** ** Reading rules *)

Definition strings (l : list Json) : list bytes :=
  omap (λ j, match j with JString s => Some s | _ => None end) l.

(** The array under a key, with the three checks the parsers make: [None] stops
    the program, [Some None] is nothing to parse. *)
Definition array_at (root : Json) (k : bytes) : option (option (list Json)) :=
  match root with
  | JNull => Some None
  | _ =>
      m ← isMember root k;
      if negb m then Some None else
      match member root k with JArray l => Some (Some l) | _ => Some None end
  end.

Definition EVENT_TYPE_MAP (s : bytes) : option Z :=
  if bool_decide (s = str "FAULT") then Some 1
  else if bool_decide (s = str "STATISTIC") then Some 2
  else if bool_decide (s = str "SECURITY") then Some 3
  else if bool_decide (s = str "BEHAVIOR") then Some 4
  else None.

Definition ParseEventTypes (root : Json) (r : DispatchRule) : option DispatchRule :=
  a ← array_at root (str "types");
  match a with
  | None => Some r
  | Some l => Some (mkRule (list_to_set (omap EVENT_TYPE_MAP (strings l)) ∪ typeList r)
                     (tagList r) (eventList r) (domainRuleMap r))
  end.

Definition ParseTagEvents (root : Json) (r : DispatchRule) : option DispatchRule :=
  a ← array_at root (str "tags");
  match a with
  | None => Some r
  | Some l => Some (mkRule (typeList r) (list_to_set (strings l) ∪ tagList r) (eventList r) (domainRuleMap r))
  end.

Definition ParseEvents (root : Json) (r : DispatchRule) : option DispatchRule :=
  a ← array_at root (str "events");
  match a with
  | None => Some r
  | Some l => Some (mkRule (typeList r) (tagList r) (list_to_set (strings l) ∪ eventList r) (domainRuleMap r))
  end.

Definition is_array_member (j : Json) (k : bytes) : option (list Json) :=
  match member j k with JArray l => Some l | _ => None end.

Definition ParseDomains (json : Json) (domainRule : DomainRule) : DomainRule :=
  match is_array_member json (str "include") with
  | Some l => mkDomainRule (Some INCLUDE) (list_to_set (strings l) ∪ eventlist domainRule)
  | None =>
      match is_array_member json (str "exclude") with
      | Some l => mkDomainRule (Some EXCLUDE) (list_to_set (strings l) ∪ eventlist domainRule)
      | None =>
          if Nat.eqb (json_size json) 1 then mkDomainRule (Some EXCLUDE) (eventlist domainRule)
          else domainRule
      end
  end.

(** One element of the array "domains". *)
Definition ParseDomainEntry (j : Json) (m : gmap bytes DomainRule) : option (gmap bytes DomainRule) :=
  match j with
  | JNull => Some m
  | _ =>
      b ← isMember j (str "domain");
      if negb b then Some m else
      match member j (str "domain") with
      | JString domainName => Some (<[domainName := ParseDomains j DomainRule_new]> m)
      | _ => Some m
      end
  end.

Fixpoint ParseDomainEntries (l : list Json) (m : gmap bytes DomainRule) : option (gmap bytes DomainRule) :=
  match l with
  | [] => Some m
  | j :: l => m ← ParseDomainEntry j m; ParseDomainEntries l m
  end.

Definition ParseDomainRule (root : Json) (r : DispatchRule) : option DispatchRule :=
  a ← array_at root (str "domains");
  match a with
  | None => Some r
  | Some l =>
      m ← ParseDomainEntries l (domainRuleMap r);
      Some (mkRule (typeList r) (tagList r) (eventList r) m)
  end.

(** The constructor of [DispatchRuleParser] on a file that parses. *)
Definition DispatchRuleParser (root : Json) : option DispatchRule :=
  r ← ParseEventTypes root DispatchRule_new;
  r ← ParseEvents root r;
  r ← ParseTagEvents root r;
  ParseDomainRule root r.

(** ** Who gets an event *)

(** Plugins and listeners are weak references, by identity. *)
Record DispatchInfo := mkDispatch {
  plugin_ : Z;
  typesInfo_ : gset Z;
  eventsInfo_ : gset bytes;
  tagsInfo_ : gset bytes;
  domainsInfo_ : gmap bytes DomainRule
}.

Definition Dispatch_Match (d : DispatchInfo) (type : Z) (eventName tag domain : bytes) : option bool :=
  if bool_decide (u8 type ∈ typesInfo_ d) then Some true else
  if bool_decide (tag ∈ tagsInfo_ d) then Some true else
  if bool_decide (eventName ∈ eventsInfo_ d) then Some true else
  match domainsInfo_ d !! domain with
  | Some r => DomainRule_FindEvent r eventName
  | None => Some false
  end.

Record ListenerInfo := mkListener {
  listener_ : option Z;
  messageTypes_ : list Z;
  l_eventsInfo_ : gmap Z (gset bytes);
  l_domainsInfo_ : gmap Z (gmap bytes DomainRule)
}.

Definition ListenerInfo_new : ListenerInfo := mkListener None [] ∅ ∅.

Definition Listener_Match (d : ListenerInfo) (type : Z) (eventName domain : bytes) : option bool :=
  if bool_decide (type ∈ messageTypes_ d) then Some true else
  if bool_decide (eventName ∈ default ∅ (l_eventsInfo_ d !! type)) then Some true else
  match l_domainsInfo_ d !! type with
  | Some m =>
      match m !! domain with
      | Some r => DomainRule_FindEvent r eventName
      | None => Some false
      end
  | None => Some false
  end.

(** The tables of [HiviewPlatform], by plugin and listener name. *)
Record Tables := mkTables { dispatchers_ : gmap bytes DispatchInfo; listeners_ : gmap bytes ListenerInfo }.

Definition Tables_new : Tables := mkTables ∅ ∅.

(** A call of [AddDispatchInfo]: the plugin and its name, [None] when the weak
    reference is dead.  [insert] of a range keeps the entries that are there. *)
Record DispatchCall := mkCall {
  c_plugin : Z;
  c_name : option bytes;
  c_types : gset Z;
  c_events : gset bytes;
  c_tags : gset bytes;
  c_domains : gmap bytes DomainRule
}.

Definition AddDispatchInfo (c : DispatchCall) (t : Tables) : Tables :=
  match c_name c with
  | None => t
  | Some name =>
      let data := default (mkDispatch (c_plugin c) ∅ ∅ ∅ ∅) (dispatchers_ t !! name) in
      let data := mkDispatch (plugin_ data) (c_types c ∪ typesInfo_ data) (c_events c ∪ eventsInfo_ data)
        (c_tags c ∪ tagsInfo_ data) (domainsInfo_ data ∪ c_domains c) in
      mkTables (<[name := data]> (dispatchers_ t)) (listeners_ t)
  end.

Definition on_listener (name : bytes) (f : ListenerInfo → ListenerInfo) (t : Tables) : Tables :=
  mkTables (dispatchers_ t) (<[name := f (default ListenerInfo_new (listeners_ t !! name))]> (listeners_ t)).

Definition AddListenerInfo (type : Z) (name : bytes) (eventNames : gset bytes) (domainRulesMap : gmap bytes DomainRule)
    : Tables → Tables :=
  on_listener name (λ d, mkListener (listener_ d) (messageTypes_ d)
    (if bool_decide (eventNames = ∅) then l_eventsInfo_ d
     else <[type := eventNames ∪ default ∅ (l_eventsInfo_ d !! type)]> (l_eventsInfo_ d))
    (if bool_decide (domainRulesMap = ∅) then l_domainsInfo_ d
     else <[type := default ∅ (l_domainsInfo_ d !! type) ∪ domainRulesMap]> (l_domainsInfo_ d))).

Definition AddListenerInfo_type (type : Z) (name : bytes) : Tables → Tables :=
  on_listener name (λ d, mkListener (listener_ d) (messageTypes_ d ++ [type]) (l_eventsInfo_ d) (l_domainsInfo_ d)).

(** [None]: the weak reference is dead. *)
Definition RegisterUnorderedEventListener (listener : option (Z * bytes)) (t : Tables) : Tables :=
  match listener with
  | None => t
  | Some (l, name) =>
      on_listener name (λ d, mkListener (Some l) (messageTypes_ d) (l_eventsInfo_ d) (l_domainsInfo_ d)) t
  end.

(** The lookups go through the table in its order; [None] when a match depends on
    an indeterminate value. *)
Fixpoint collect {A B} (f : A → option bool) (g : A → B) (l : list A) : option (list B) :=
  match l with
  | [] => Some []
  | x :: l => b ← f x; r ← collect f g l; Some (if b : bool then g x :: r else r)
  end.

Definition GetDisPatcherInfo (type : Z) (eventName tag domain : bytes) (t : Tables) : option (list Z) :=
  collect (λ d, Dispatch_Match d type eventName tag domain) plugin_ ((map_to_list (dispatchers_ t)).*2).

Definition GetListenerInfo (type : Z) (eventName domain : bytes) (t : Tables) : option (list (option Z)) :=
  collect (λ d, Listener_Match d type eventName domain) listener_ ((map_to_list (listeners_ t)).*2).

(** [ProcessUnorderedEvent]: the listeners that are alive get the event. *)
Definition ProcessUnorderedEvent (alive : Z → bool) (messageType : Z) (eventName domain : bytes) (t : Tables)
    : option (list Z) :=
  (λ ls : list (option Z), filter (λ l, alive l = true) (omap id ls)) <$> GetListenerInfo messageType eventName domain t.

(** ** Registration as a history *)

(** Whether one call selects the event by type, tag or name. *)
Definition selects (type : Z) (eventName tag : bytes) (c : DispatchCall) : Prop :=
  u8 type ∈ c_types c ∨ tag ∈ c_tags c ∨ eventName ∈ c_events c.

(** The calls of a plugin name, and the first rule they give for a domain. *)
Definition calls_of (name : bytes) (cs : list DispatchCall) : list DispatchCall :=
  filter (λ c, c_name c = Some name) cs.

Definition first_rule (domain : bytes) (cs : list DispatchCall) : option DomainRule :=
  head (omap (λ c, c_domains c !! domain) cs).

(** The table after some calls, entry by entry. *)
Definition entry_ok (name : bytes) (cs : list DispatchCall) (o : option DispatchInfo) : Prop :=
  match calls_of name cs, o with
  | [], None => True
  | c :: cs', Some d =>
      plugin_ d = c_plugin c ∧
      (∀ x, x ∈ typesInfo_ d ↔ Exists (λ c, x ∈ c_types c) (c :: cs')) ∧
      (∀ x, x ∈ tagsInfo_ d ↔ Exists (λ c, x ∈ c_tags c) (c :: cs')) ∧
      (∀ x, x ∈ eventsInfo_ d ↔ Exists (λ c, x ∈ c_events c) (c :: cs')) ∧
      (∀ domain, domainsInfo_ d !! domain = first_rule domain (c :: cs'))
  | _, _ => False
  end.

Definition register (cs : list DispatchCall) : Tables := foldl (λ t c, AddDispatchInfo c t) Tables_new cs.

Lemma first_rule_snoc domain cs c :
  first_rule domain (cs ++ [c]) = match first_rule domain cs with Some r => Some r | None => c_domains c !! domain end.
Proof.
  unfold first_rule. rewrite omap_app. destruct (omap _ cs); cbn; [|done]. by destruct (c_domains c !! domain).
Qed.

Lemma register_entry name cs : entry_ok name cs (dispatchers_ (register cs) !! name).
Proof.
  induction cs as [|c cs IH] using rev_ind; [done|].
  unfold register. rewrite foldl_app. cbn. fold (register cs). unfold AddDispatchInfo.
  unfold entry_ok, calls_of in *. rewrite filter_app.
  destruct (c_name c) as [n|] eqn:Ec.
  2: { rewrite (filter_cons_False _ c) by congruence. by rewrite filter_nil, app_nil_r. }
  cbn [dispatchers_]. destruct (decide (n = name)) as [->|Hn].
  2: { rewrite (filter_cons_False _ c) by congruence. rewrite filter_nil, app_nil_r, lookup_insert_ne; done. }
  rewrite (filter_cons_True _ c) by done. rewrite filter_nil, lookup_insert_eq.
  destruct (filter _ cs) as [|c0 cs0], (dispatchers_ (register cs) !! name) as [d|]; try done; cbn.
  - split_and!; [done|..]; intros x; rewrite ?Exists_cons, ?Exists_nil; try set_solver.
    unfold first_rule. cbn. rewrite lookup_union, lookup_empty, (left_id None _).
    by destruct (c_domains c !! x).
  - destruct IH as (E1 & E2 & E3 & E4 & E5). split_and!; [done|..].
    + intros x. rewrite elem_of_union, E2, !Exists_cons, Exists_app, Exists_cons, Exists_nil. tauto.
    + intros x. rewrite elem_of_union, E3, !Exists_cons, Exists_app, Exists_cons, Exists_nil. tauto.
    + intros x. rewrite elem_of_union, E4, !Exists_cons, Exists_app, Exists_cons, Exists_nil. tauto.
    + intros x. change (c0 :: cs0 ++ [c]) with ((c0 :: cs0) ++ [c]). rewrite first_rule_snoc, <- E5, lookup_union.
      by destruct (domainsInfo_ d !! x), (c_domains c !! x).
Qed.

(** Every rule of a call says what it filters. *)
Definition determinate (m : gmap bytes DomainRule) : Prop := ∀ d r, m !! d = Some r → is_Some (filterType r).

Lemma first_rule_in domain cs r : first_rule domain cs = Some r → ∃ c, c ∈ cs ∧ c_domains c !! domain = Some r.
Proof.
  unfold first_rule. induction cs as [|c cs IH]; cbn; [done|].
  destruct (c_domains c !! domain) as [r'|] eqn:E; cbn.
  - intros [= ->]. exists c. split; [by left|done].
  - intros H. destruct (IH H) as (c' & Hin & E'). exists c'. split; [by right|done].
Qed.

Lemma FindEvent_determinate r e : is_Some (filterType r) → is_Some (DomainRule_FindEvent r e).
Proof. intros [t Ht]. unfold DomainRule_FindEvent. rewrite Ht. destruct (t =? INCLUDE); eauto. Qed.

(** What an entry answers, in terms of its calls. *)
Lemma entry_match type eventName tag domain name cs d :
  Forall (λ c, determinate (c_domains c)) cs → entry_ok name cs (Some d) →
  ∃ b c rest, Dispatch_Match d type eventName tag domain = Some b ∧ calls_of name cs = c :: rest ∧
    plugin_ d = c_plugin c ∧
    (b = true ↔ Exists (selects type eventName tag) (c :: rest) ∨
      ∃ r, first_rule domain (c :: rest) = Some r ∧ DomainRule_FindEvent r eventName = Some true).
Proof.
  intros HF He. unfold entry_ok in He. destruct (calls_of name cs) as [|c rest] eqn:Ec; [done|].
  destruct He as (E1 & E2 & E3 & E4 & E5).
  assert (∀ r, first_rule domain (c :: rest) = Some r → is_Some (DomainRule_FindEvent r eventName)) as Hdet.
  { intros r Hr. apply FindEvent_determinate. apply first_rule_in in Hr as (c' & Hin & Hc').
    rewrite <- Ec in Hin. apply list_elem_of_filter in Hin as [_ Hin].
    rewrite Forall_forall in HF. by eapply HF. }
  assert (Exists (selects type eventName tag) (c :: rest) ↔
    u8 type ∈ typesInfo_ d ∨ tag ∈ tagsInfo_ d ∨ eventName ∈ eventsInfo_ d) as Hsel.
  { rewrite E2, E3, E4. unfold selects. rewrite !Exists_exists. clear. firstorder. }
  enough (∃ b, Dispatch_Match d type eventName tag domain = Some b ∧
    (b = true ↔ (u8 type ∈ typesInfo_ d ∨ tag ∈ tagsInfo_ d ∨ eventName ∈ eventsInfo_ d) ∨
      ∃ r, first_rule domain (c :: rest) = Some r ∧ DomainRule_FindEvent r eventName = Some true)) as (b & Eb & Hb).
  { exists b, c, rest. rewrite Hsel. done. }
  clear Hsel. unfold Dispatch_Match. rewrite E5. clear E1 E2 E3 E4 E5 HF.
  repeat (case_bool_decide; [exists true; tauto|]).
  destruct (first_rule domain (c :: rest)) as [r|] eqn:Er.
  - destruct (Hdet r eq_refl) as [b Hb]. exists b. rewrite Hb. split; [done|]. split.
    + intros ->. right. by exists r.
    + intros [?|(r' & [= <-] & E)]; [tauto|congruence].
  - exists false. split; [done|]. split; [done|]. intros [?|(r' & [=] & _)]. tauto.
Qed.

Lemma collect_spec {A B} (f : A → option bool) (g : A → B) l :
  Forall (λ x, is_Some (f x)) l →
  ∃ r, collect f g l = Some r ∧ ∀ y, y ∈ r ↔ ∃ x, x ∈ l ∧ f x = Some true ∧ g x = y.
Proof.
  induction 1 as [|x l [b Hb] _ (r & E & Hr)]; cbn; [exists []; split; [done|]; set_solver|].
  rewrite Hb, E. cbn. eexists; split; [done|]. intros y. destruct b; set_solver.
Qed.

(** After any sequence of [AddDispatchInfo] calls an event is dispatched to
    exactly the plugins one of whose calls names its type, tag or event name, or
    whose first rule for its domain admits it; later rules of a plugin for a domain
    it has a rule for have no effect. *)
Theorem dispatch_follows_calls cs type eventName tag domain :
  Forall (λ c, determinate (c_domains c)) cs →
  ∃ ps, GetDisPatcherInfo type eventName tag domain (register cs) = Some ps ∧
  ∀ p, p ∈ ps ↔ ∃ name c rest, calls_of name cs = c :: rest ∧ c_plugin c = p ∧
    (Exists (selects type eventName tag) (c :: rest) ∨
     ∃ r, first_rule domain (c :: rest) = Some r ∧ DomainRule_FindEvent r eventName = Some true).
Proof.
  intros HF. unfold GetDisPatcherInfo.
  assert (∀ d, d ∈ (map_to_list (dispatchers_ (register cs))).*2 ↔ ∃ name, dispatchers_ (register cs) !! name = Some d) as Hin.
  { intros d. rewrite list_elem_of_fmap. split.
    - intros ([n d'] & -> & Hn%elem_of_map_to_list). by exists n.
    - intros [n Hn%elem_of_map_to_list]. by exists (n, d). }
  edestruct (collect_spec (λ d, Dispatch_Match d type eventName tag domain) plugin_) as (ps & E & Hps).
  { apply Forall_forall. intros d [name Hd]%Hin. pose proof (register_entry name cs) as He. rewrite Hd in He.
    destruct (entry_match type eventName tag domain name cs d HF He) as (b & c & rest & Eb & _). eauto. }
  exists ps. split; [done|]. intros p. rewrite Hps. split.
  - intros (d & [name Hd]%Hin & Hm & <-). pose proof (register_entry name cs) as He. rewrite Hd in He.
    destruct (entry_match type eventName tag domain name cs d HF He) as (b & c & rest & Eb & Ec & Ep & Hb).
    exists name, c, rest. split; [done|]. split; [done|]. apply Hb. congruence.
  - intros (name & c & rest & Ec & <- & Hsel). pose proof (register_entry name cs) as He.
    destruct (dispatchers_ (register cs) !! name) as [d|] eqn:Hd.
    2: { unfold entry_ok in He. by rewrite Ec in He. }
    destruct (entry_match type eventName tag domain name cs d HF He) as (b & c' & rest' & Eb & Ec' & Ep & Hb).
    rewrite Ec in Ec'. injection Ec' as <- <-. exists d. split; [apply Hin; by exists name|].
    split; [|done]. rewrite Eb. f_equal. by apply Hb.
Qed.

(** ** From configuration to dispatch *)

(** An entry of "domains" the parser understands. *)
Definition entry_wf (j : Json) : Prop :=
  ∃ ms d, j = JObject ms ∧ assoc (str "domain") ms = Some (JString d) ∧
    (is_Some (is_array_member j (str "include")) ∨ is_Some (is_array_member j (str "exclude")) ∨ length ms = 1%nat).

Lemma ParseDomains_determinate j : entry_wf j → is_Some (filterType (ParseDomains j DomainRule_new)).
Proof.
  intros (ms & d & -> & _ & H). unfold ParseDomains.
  destruct (is_array_member _ (str "include")); [by eexists|].
  destruct (is_array_member _ (str "exclude")); [by eexists|].
  destruct H as [[? [=]]|[[? [=]]|H]]. cbn [json_size]. rewrite H. by eexists.
Qed.

Lemma ParseDomainEntries_determinate l m :
  Forall entry_wf l → determinate m → ∃ m', ParseDomainEntries l m = Some m' ∧ determinate m'.
Proof.
  intros HF. revert m. induction HF as [|j l Hj _ IH]; intros m Hm; [by exists m|].
  cbn. pose proof (ParseDomains_determinate j Hj) as Hd. destruct Hj as (ms & d & -> & Ed & _).
  unfold ParseDomainEntry, isMember, member. rewrite Ed. cbn. apply IH.
  intros d' r [[<- <-]|[_ Hr]]%lookup_insert_Some; [done|by eapply Hm].
Qed.

Lemma find_determinate r domain eventName :
  determinate (domainRuleMap r) → is_Some (DispatchRule_FindEvent r domain eventName).
Proof.
  intros Hd. unfold DispatchRule_FindEvent. case_bool_decide; [eauto|].
  destruct (domainRuleMap r !! domain) as [d|] eqn:E; [|eauto]. apply FindEvent_determinate. by eapply Hd.
Qed.

(** A configuration that is an object, and whose domain entries name a domain
    and either list events to include or to exclude or say nothing else, is read
    without fault into rules whose answers are determined. *)
Theorem wellformed_rules_parse ms :
  (∀ l, assoc (str "domains") ms = Some (JArray l) → Forall entry_wf l) →
  ∃ r, DispatchRuleParser (JObject ms) = Some r ∧
    ∀ domain eventName, is_Some (DispatchRule_FindEvent r domain eventName).
Proof.
  intros Hd.
  assert (∀ k, ∃ o, array_at (JObject ms) k = Some o ∧ (∀ l, o = Some l → assoc k ms = Some (JArray l))) as Ha.
  { intros k. unfold array_at, isMember, member. destruct (assoc k ms) as [[]|] eqn:E; cbn; eexists; split; try done.
    all: rewrite ?E; try done. by intros l' [= ->]. }
  assert (∀ k (f : list Json → DispatchRule → DispatchRule) r,
    (∀ l r, domainRuleMap (f l r) = domainRuleMap r) →
    ∃ r', (a ← array_at (JObject ms) k; match a with None => Some r | Some l => Some (f l r) end) = Some r' ∧
      domainRuleMap r' = domainRuleMap r) as Hfield.
  { intros k f r Hf. destruct (Ha k) as ([l|] & -> & _); cbn; eauto. }
  unfold DispatchRuleParser.
  destruct (Hfield (str "types") (λ l r, mkRule (list_to_set (omap EVENT_TYPE_MAP (strings l)) ∪ typeList r)
    (tagList r) (eventList r) (domainRuleMap r)) DispatchRule_new ltac:(done)) as (r1 & E1 & D1).
  destruct (Hfield (str "events") (λ l r, mkRule (typeList r) (tagList r) (list_to_set (strings l) ∪ eventList r)
    (domainRuleMap r)) r1 ltac:(done)) as (r2 & E2 & D2).
  destruct (Hfield (str "tags") (λ l r, mkRule (typeList r) (list_to_set (strings l) ∪ tagList r) (eventList r)
    (domainRuleMap r)) r2 ltac:(done)) as (r3 & E3 & D3).
  unfold ParseEventTypes, ParseEvents, ParseTagEvents. rewrite E1. cbn [mbind option_bind]. rewrite E2.
  cbn [mbind option_bind]. rewrite E3. cbn [mbind option_bind]. unfold ParseDomainRule.
  assert (determinate (domainRuleMap r3)) as Hdet.
  { rewrite D3, D2, D1. intros d x Hx. cbn in Hx. by rewrite lookup_empty in Hx. }
  destruct (Ha (str "domains")) as ([l|] & -> & H4); cbn [mbind option_bind].
  - destruct (ParseDomainEntries_determinate l (domainRuleMap r3) (Hd l (H4 l eq_refl)) Hdet) as (m' & -> & Hm').
    cbn [mbind option_bind]. eexists. split; [done|]. intros d e. by apply find_determinate.
  - exists r3. split; [done|]. intros d e. by apply find_determinate.
Qed.

(** Two entries, and the events they admit. *)
Definition sample_config : list (bytes * Json) :=
  [(str "events", JArray [JString (str "BOOT"); JNull]);
   (str "domains", JArray
     [JObject [(str "domain", JString (str "AAFWK"))];
      JObject [(str "domain", JString (str "KERNEL")); (str "include", JArray [JString (str "PANIC")])]])].

Lemma wellformed_rules_parse_witness :
  ∃ r, DispatchRuleParser (JObject sample_config) = Some r ∧
    ∀ domain eventName, is_Some (DispatchRule_FindEvent r domain eventName).
Proof.
  apply (wellformed_rules_parse sample_config). intros l Hl. vm_compute in Hl. injection Hl as <-.
  repeat constructor; eexists _, _; split_and!; try (by vm_compute); [by right; right|by left; eexists].
Defined.

Definition sample_calls : list DispatchCall :=
  [mkCall 1 (Some (str "A")) {[4]} ∅ ∅ ∅;
   mkCall 2 (Some (str "B")) ∅ ∅ ∅ {[str "AAFWK" := mkDomainRule (Some EXCLUDE) {[str "BOOT"]}]};
   mkCall 2 (Some (str "B")) ∅ ∅ ∅ {[str "AAFWK" := mkDomainRule (Some INCLUDE) {[str "BOOT"]}]};
   mkCall 3 None {[1]} ∅ ∅ ∅].

Lemma sample_calls_determinate : Forall (λ c, determinate (c_domains c)) sample_calls.
Proof.
  repeat apply Forall_cons_2; try apply Forall_nil_2; intros d r Hr; cbn in Hr; try (by rewrite lookup_empty in Hr);
    apply lookup_singleton_Some in Hr as [_ <-]; by eexists.
Qed.

Lemma dispatch_follows_calls_witness :
  ∃ ps, GetDisPatcherInfo 4 (str "BOOT") [] (str "AAFWK") (register sample_calls) = Some ps ∧ 1 ∈ ps.
Proof.
  destruct (dispatch_follows_calls sample_calls 4 (str "BOOT") [] (str "AAFWK") sample_calls_determinate) as (ps & E & H).
  exists ps. split; [exact E|]. apply H. eexists (str "A"), _, _. split; [by vm_compute|].
  split; [done|]. left. left. left. by vm_compute.
Defined.

(** The second rule of plugin B for the domain has no effect. *)
Example second_rule_ignored :
  GetDisPatcherInfo 1 (str "BOOT") [] (str "AAFWK") (register sample_calls) = Some [].
Proof. by vm_compute. Qed.

(** Two configurations the parser does not check: an entry of "domains" that
    is not an object stops the program in [isMember], and one with other members
    but neither list leaves the filter of its rule uninitialised, so that looking
    up an event depends on an indeterminate value. *)
Theorem rule_config_unchecked :
  DispatchRuleParser (JObject [(str "domains", JArray [JString (str "AAFWK")])]) = None ∧
  ∃ r, DispatchRuleParser (JObject [(str "domains",
    JArray [JObject [(str "domain", JString (str "AAFWK")); (str "note", JString [])]])]) = Some r ∧
    DispatchRule_FindEvent r (str "AAFWK") (str "BOOT") = None.
Proof. split; [by vm_compute|]. eexists. split; by vm_compute. Qed.

End Dispatch.
