(* ===== verification/PluginPlatform.v ===== *)
(** * PluginPlatform: loading plugins, pipelines and event sources

    Models the part of core/hiview_platform.cpp that builds and changes the
    platform's tables: creation of plugins and pipelines from a configuration,
    binding of event sources and work loops, bundles, delayed loading, unloading,
    and the lookups other components make; with base/plugin_factory.cpp and the
    loading of proxied plugins in base/plugin_proxy.cpp. *)

From S2P Require Import Prelude.
From stdpp Require Import base gmap list strings.

Local Open Scope Z_scope.

Module PluginPlatform.

(** ** Configuration *)

Record PluginInfo := mkInfo {
  isStatic : bool;
  isEventSource : bool;
  loadDelay : Z;
  pi_name : bytes;
  workHandlerType : bytes;
  workHandlerName : bytes;
  pipelineNameList : list bytes
}.

Record PipelineInfo := mkPipeline { pl_name : bytes; pluginNameList : list bytes }.

Record PluginConfig := mkConfig { pluginInfoList_ : list PluginInfo; pipelineInfoList_ : list PipelineInfo }.

(** ** State *)

Record PluginRegistInfo := mkRegist { needCreateProxy : bool; needStartupLoading : bool }.

(** A plugin object; [p_sources] are the pipelines of an event source, [p_loaded]
    whether a proxy holds its instance. *)
Record Plugin := mkPlugin {
  p_id : Z;
  p_name : bytes;
  p_proxy : bool;
  p_config : option PluginInfo;
  p_loop : option bytes;
  p_sources : list bytes;
  p_loaded : bool
}.

(** Maps may hold null pointers.  A pipeline holds weak references. *)
Record Platform := mkPlatform {
  pluginMap_ : gmap bytes (option Plugin);
  pipelines_ : gmap bytes (option (list Z));
  privateWorkLoopMap_ : gset bytes;
  eventSourceList_ : list Z;
  pluginBundleInfos_ : gset bytes;
  registry : gmap bytes PluginRegistInfo;
  timers : list PluginInfo;
  nextId : Z
}.

Definition set_plugins (st : Platform) (m : gmap bytes (option Plugin)) : Platform :=
  mkPlatform m (pipelines_ st) (privateWorkLoopMap_ st) (eventSourceList_ st) (pluginBundleInfos_ st) (registry st) (timers st) (nextId st).
Definition set_pipelines (st : Platform) (m : gmap bytes (option (list Z))) : Platform :=
  mkPlatform (pluginMap_ st) m (privateWorkLoopMap_ st) (eventSourceList_ st) (pluginBundleInfos_ st) (registry st) (timers st) (nextId st).
Definition set_loops (st : Platform) (s : gset bytes) : Platform :=
  mkPlatform (pluginMap_ st) (pipelines_ st) s (eventSourceList_ st) (pluginBundleInfos_ st) (registry st) (timers st) (nextId st).
Definition set_sources (st : Platform) (l : list Z) : Platform :=
  mkPlatform (pluginMap_ st) (pipelines_ st) (privateWorkLoopMap_ st) l (pluginBundleInfos_ st) (registry st) (timers st) (nextId st).
Definition set_bundles (st : Platform) (s : gset bytes) : Platform :=
  mkPlatform (pluginMap_ st) (pipelines_ st) (privateWorkLoopMap_ st) (eventSourceList_ st) s (registry st) (timers st) (nextId st).
Definition set_registry (st : Platform) (r : gmap bytes PluginRegistInfo) : Platform :=
  mkPlatform (pluginMap_ st) (pipelines_ st) (privateWorkLoopMap_ st) (eventSourceList_ st) (pluginBundleInfos_ st) r (timers st) (nextId st).
Definition set_timers (st : Platform) (l : list PluginInfo) : Platform :=
  mkPlatform (pluginMap_ st) (pipelines_ st) (privateWorkLoopMap_ st) (eventSourceList_ st) (pluginBundleInfos_ st) (registry st) l (nextId st).
Definition set_next (st : Platform) (n : Z) : Platform :=
  mkPlatform (pluginMap_ st) (pipelines_ st) (privateWorkLoopMap_ st) (eventSourceList_ st) (pluginBundleInfos_ st) (registry st) (timers st) n.

(** [map[key]] of a map of pointers: inserts a null pointer when the key is not
    there. *)
Definition at_key {A} (m : gmap bytes (option A)) (k : bytes) : gmap bytes (option A) :=
  match m !! k with Some _ => m | None => <[k := None]> m end.

Section Load.

(** What the library of a dynamic plugin registers when it is opened; and the
    plugins' own check before they are kept. *)
Context (library : bytes → option PluginRegistInfo) (ReadyToLoad : bytes → bool).

Definition RegisterPlugin (name : bytes) (i : PluginRegistInfo) (st : Platform) : Platform :=
  match registry st !! name with
  | None => set_registry st (<[name := i]> (registry st))
  | Some _ => st
  end.

Definition UnregisterPlugin (name : bytes) (st : Platform) : Platform :=
  set_registry st (delete name (registry st)).

Definition LoadDynamicPlugin (name : bytes) (st : Platform) : Platform :=
  match library name with Some i => RegisterPlugin name i st | None => st end.

Definition CreatePlugin (info : PluginInfo) (st : Platform) : Platform :=
  let name := pi_name info in
  if bool_decide (name = []) then st else
  match pluginMap_ st !! name with
  | Some _ => st
  | None =>
      let st := if isStatic info then st else LoadDynamicPlugin name st in
      match registry st !! name with
      | None => st
      | Some regist =>
          let plugin := mkPlugin (nextId st) name (needCreateProxy regist)
            (if needCreateProxy regist then Some info else None) None [] false in
          let st := set_next st (nextId st + 1) in
          if negb (ReadyToLoad name) then st
          else set_plugins st (<[name := Some plugin]> (pluginMap_ st))
      end
  end.

(** The plugins of the names that are there; a null entry is a null reference,
    which no one can lock. *)
Definition processors_of (m : gmap bytes (option Plugin)) (names : list bytes) : list Z :=
  omap (λ n, p ← m !! n; p_id <$> p) names.

Definition CreatePipeline (info : PipelineInfo) (st : Platform) : Platform :=
  match pipelines_ st !! pl_name info with
  | Some _ => st
  | None => set_pipelines st (<[pl_name info := Some (processors_of (pluginMap_ st) (pluginNameList info))]> (pipelines_ st))
  end.

Definition GetAvailableWorkLoop (name : bytes) (st : Platform) : Platform :=
  set_loops st ({[name]} ∪ privateWorkLoopMap_ st).

(** [AddPipeline(pipelines_[name])] for each name: a null pipeline is not added to
    the source, but stays in the map. *)
Fixpoint AddPipelines (names : list bytes) (st : Platform) : list bytes * Platform :=
  match names with
  | [] => ([], st)
  | n :: names =>
      let st := set_pipelines st (at_key (pipelines_ st) n) in
      let added := match pipelines_ st !! n with Some (Some _) => [n] | _ => [] end in
      let '(rest, st) := AddPipelines names st in (added ++ rest, st)
  end.

(** [InstancePluginByProxy]: a new object for the proxy. *)
Definition InstancePluginByProxy (proxy : Plugin) (st : Platform) : bool * Platform :=
  match registry st !! p_name proxy with
  | None => (false, st)
  | Some _ =>
      let id := nextId st in
      let st := set_next st (id + 1) in
      match p_config proxy with
      | Some c =>
          if isEventSource c then
            let '(_, st) := AddPipelines (pipelineNameList c) st in
            (true, set_sources st (eventSourceList_ st ++ [id]))
          else (true, st)
      | None => (true, st)
      end
  end.

(** [PluginProxy::LoadPluginIfNeed] *)
Definition LoadPluginIfNeed (p : Plugin) (st : Platform) : Plugin * Platform :=
  if p_loaded p then (p, st) else
  let '(ok, st) := InstancePluginByProxy p st in
  (mkPlugin (p_id p) (p_name p) (p_proxy p) (p_config p) (p_loop p) (p_sources p) ok, st).

Definition bind_loop (info : PluginInfo) (p : Plugin) (st : Platform) : Plugin * Platform :=
  if bool_decide (workHandlerType info = str "thread") then
    (mkPlugin (p_id p) (p_name p) (p_proxy p) (p_config p) (Some (workHandlerName info)) (p_sources p) (p_loaded p),
     GetAvailableWorkLoop (workHandlerName info) st)
  else (p, st).

(** [None]: a null plugin is dereferenced. *)
Definition InitPlugin (info : PluginInfo) (st : Platform) : option Platform :=
  match pluginMap_ st !! pi_name info with
  | None => Some st
  | Some None => None
  | Some (Some p) =>
      let '(p, st) := bind_loop info p st in
      let '(p, st) :=
        if isEventSource info then
          let '(added, st) := AddPipelines (pipelineNameList info) st in
          (mkPlugin (p_id p) (p_name p) (p_proxy p) (p_config p) (p_loop p) (p_sources p ++ added) (p_loaded p), st)
        else (p, st) in
      let '(p, st) :=
        if p_proxy p && match registry st !! pi_name info with Some r => needStartupLoading r | None => false end
        then LoadPluginIfNeed p st else (p, st) in
      Some (set_plugins st (<[pi_name info := Some p]> (pluginMap_ st)))
  end.

Fixpoint InitPlugins (l : list PluginInfo) (st : Platform) : option Platform :=
  match l with
  | [] => Some st
  | info :: l => st ← InitPlugin info st; InitPlugins l st
  end.

(** Step 4: remember the event sources; [pluginMap_[name]] again. *)
Definition NoteSource (st : Platform) (info : PluginInfo) : Platform :=
  if negb (isEventSource info) then st else
  let st := set_plugins st (at_key (pluginMap_ st) (pi_name info)) in
  match pluginMap_ st !! pi_name info with
  | Some (Some p) => set_sources st (eventSourceList_ st ++ [p_id p])
  | _ => st
  end.

Definition CleanupUnusedResources (st : Platform) : Platform :=
  set_plugins st (filter (λ kv, kv.2 ≠ None) (pluginMap_ st)).

Definition CreateOrSchedule (st : Platform) (info : PluginInfo) : Platform :=
  if loadDelay info >? 0 then set_timers st (timers st ++ [info]) else CreatePlugin info st.

Definition LoadBusinessPlugin (config : PluginConfig) (st : Platform) : option Platform :=
  let st := foldl CreateOrSchedule st (pluginInfoList_ config) in
  let st := foldl (λ st i, CreatePipeline i st) st (pipelineInfoList_ config) in
  st ← InitPlugins (pluginInfoList_ config) st;
  let st := foldl NoteSource st (pluginInfoList_ config) in
  Some (CleanupUnusedResources st).

(** [LoadPluginBundle]; [config] is [None] when it does not parse, [opened] whether
    the bundle's library was found and opened. *)
Definition LoadPluginBundle (bundleName : bytes) (config : option PluginConfig) (opened : bool) (st : Platform)
    : option Platform :=
  match config with
  | None => Some st
  | Some c =>
      if negb opened then Some st else
      st ← LoadBusinessPlugin c st;
      Some (set_bundles st ({[bundleName]} ∪ pluginBundleInfos_ st))
  end.

Definition RequestLoadBundle (bundleName : bytes) (config : option PluginConfig) (opened : bool) (st : Platform)
    : option Platform :=
  if bool_decide (bundleName ∈ pluginBundleInfos_ st) then Some st else LoadPluginBundle bundleName config opened st.

(** The task of [RequestUnloadBundle]. *)
Definition UnloadBundle (bundleName : bytes) (st : Platform) : Platform :=
  set_bundles st (pluginBundleInfos_ st ∖ {[bundleName]}).

(** The timer task of a delayed plugin. *)
Definition ScheduleCreateAndInitPlugin (i : nat) (st : Platform) : option Platform :=
  match timers st !! i with
  | None => Some st
  | Some info =>
      let st := set_timers st (take i (timers st) ++ drop (S i) (timers st)) in
      let st := CreatePlugin info st in
      match pluginMap_ st !! pi_name info with
      | None => Some st
      | Some None => None
      | Some (Some p) =>
          let '(p, st) := bind_loop info p st in
          Some (set_plugins st (<[pi_name info := Some p]> (pluginMap_ st)))
      end
  end.

(** [UnloadPlugin]; the reference counts of the plugin and of its loop. *)
Definition UnloadPlugin (name : bytes) (count loopCount : Z) (st : Platform) : Platform :=
  match pluginMap_ st !! name with
  | None | Some None => st
  | Some (Some target) =>
      if count >? 2 then st else
      let st := set_plugins st (delete name (pluginMap_ st)) in
      let st := UnregisterPlugin (p_name target) st in
      match p_loop target with
      | None => st
      | Some looper =>
          if loopCount <=? 3 then set_loops st (privateWorkLoopMap_ st ∖ {[looper]}) else st
      end
  end.

Definition GetPluginByName (name : bytes) (st : Platform) : option Plugin :=
  match pluginMap_ st !! name with Some p => p | None => None end.

(** [None]: a null pipeline is dereferenced. *)
Definition AppendPluginToPipeline (pluginName pipelineName : bytes) (st : Platform) : option Platform :=
  match pipelines_ st !! pipelineName with
  | None => Some st
  | Some pl =>
      match GetPluginByName pluginName st with
      | None => Some st
      | Some p => ps ← pl; Some (set_pipelines st (<[pipelineName := Some (ps ++ [p_id p])]> (pipelines_ st)))
      end
  end.

Definition GetPipelineSequenceByName (isReady : bool) (name : bytes) (st : Platform) : option (list Z) :=
  if negb isReady then Some [] else
  match pipelines_ st !! name with
  | Some pl => pl
  | None => Some []
  end.

End Load.

Definition Platform_new (r : gmap bytes PluginRegistInfo) : Platform := mkPlatform ∅ ∅ ∅ [] ∅ r [] 0.

(** ** The tables stay sound *)

Section Sound.
Context (library : bytes → option PluginRegistInfo) (ReadyToLoad : bytes → bool).

(** The names of event sources; no source is registered with a proxy ([PROXY_ASSERT]
    refuses such a registration at compile time). *)
Context (sources : gset bytes).
Context (library_ok : ∀ n r, library n = Some r → n ∈ sources → needCreateProxy r = false).

Definition registry_ok (st : Platform) : Prop :=
  ∀ n r, registry st !! n = Some r → n ∈ sources → needCreateProxy r = false.

Definition plugin_ok (st : Platform) (n : bytes) (p : Plugin) : Prop :=
  p_name p = n ∧ 0 <= p_id p < nextId st ∧
  (∀ c, p_config p = Some c → isEventSource c = false).

(** Apart from the null entries step 4 may add and remove again. *)
Record sound (st : Platform) : Prop := {
  so_registry : registry_ok st;
  so_plugins : ∀ n p, pluginMap_ st !! n = Some (Some p) → plugin_ok st n p;
  so_ids : ∀ n n' p p', pluginMap_ st !! n = Some (Some p) → pluginMap_ st !! n' = Some (Some p') →
    p_id p = p_id p' → n = n';
  so_pipes : ∀ n o, pipelines_ st !! n = Some o → o ≠ None;
  so_next : 0 <= nextId st;
  so_timers : Forall (λ i, isEventSource i = true → pi_name i ∈ sources) (timers st)
}.

Definition no_nulls (st : Platform) : Prop := ∀ n, pluginMap_ st !! n ≠ Some None.

(** A configuration whose sources are known and name pipelines it defines. *)
Definition closed (c : PluginConfig) : Prop :=
  Forall (λ i, isEventSource i = true → pi_name i ∈ sources ∧
    Forall (λ n, n ∈ pl_name <$> pipelineInfoList_ c) (pipelineNameList i)) (pluginInfoList_ c).

Lemma LoadDynamicPlugin_same name st :
  pluginMap_ (LoadDynamicPlugin library name st) = pluginMap_ st ∧
  pipelines_ (LoadDynamicPlugin library name st) = pipelines_ st ∧
  nextId (LoadDynamicPlugin library name st) = nextId st ∧
  timers (LoadDynamicPlugin library name st) = timers st.
Proof. unfold LoadDynamicPlugin, RegisterPlugin. destruct (library name); [destruct (registry st !! name)|]; done. Qed.

Lemma LoadDynamicPlugin_sound name st : sound st → sound (LoadDynamicPlugin library name st).
Proof.
  intros Hs. unfold LoadDynamicPlugin, RegisterPlugin. destruct (library name) as [r|] eqn:E; [|done].
  destruct (registry st !! name) eqn:Er; [done|]. destruct Hs. split; try done.
  unfold registry_ok. cbn. intros n r' [[<- <-]|[_ H]]%lookup_insert_Some Hn; eauto.
Qed.

(** A plugin enters the map, or is replaced by itself with other bindings. *)
Lemma put_sound st n p :
  sound st → plugin_ok st n p →
  (∀ n' p', pluginMap_ st !! n' = Some (Some p') → p_id p' = p_id p → n' = n) →
  sound (set_plugins st (<[n := Some p]> (pluginMap_ st))).
Proof.
  intros [] Hp Hid. split; cbn; try done.
  - intros n' p' [[<- [= <-]]|[_ H]]%lookup_insert_Some; [done|by apply so_plugins0].
  - intros n1 n2 p1 p2 [[<- [= <-]]|[? H1]]%lookup_insert_Some [[<- [= <-]]|[? H2]]%lookup_insert_Some E; eauto.
    symmetry. eauto.
Qed.

Lemma next_sound st : sound st → sound (set_next st (nextId st + 1)).
Proof.
  intros []. split; cbn; try done; [|lia]. intros n p H. destruct (so_plugins0 n p H) as (? & ? & ?).
  unfold plugin_ok; cbn. split_and!; [done|lia|lia|done].
Qed.

Lemma CreatePlugin_sound info st :
  (isEventSource info = true → pi_name info ∈ sources) → sound st →
  sound (CreatePlugin library ReadyToLoad info st) ∧
  (no_nulls st → no_nulls (CreatePlugin library ReadyToLoad info st)) ∧
  pipelines_ (CreatePlugin library ReadyToLoad info st) = pipelines_ st.
Proof.
  intros Hi Hs. unfold CreatePlugin. case_bool_decide; [done|].
  destruct (pluginMap_ st !! pi_name info) eqn:Em; [done|].
  set (st1 := if isStatic info then st else _).
  assert (sound st1 ∧ pluginMap_ st1 = pluginMap_ st ∧ pipelines_ st1 = pipelines_ st) as (Hs1 & Em1 & Ep1).
  { unfold st1. destruct (isStatic info); [done|]. destruct (LoadDynamicPlugin_same (pi_name info) st) as (-> & -> & _).
    split; [by apply LoadDynamicPlugin_sound|done]. }
  clearbody st1. destruct (registry st1 !! pi_name info) as [r|] eqn:Er.
  2: { unfold no_nulls. by rewrite Em1, Ep1. }
  destruct (ReadyToLoad (pi_name info)); cbn; unfold no_nulls; cbn; rewrite Em1, Ep1.
  2: { split; [by apply next_sound|done]. }
  split_and!; [|intros Hn n [[_ [=]]|[_ H']]%lookup_insert_Some; by apply (Hn n)|done].
  rewrite <- Em1. apply (put_sound (set_next st1 (nextId st1 + 1))); [by apply next_sound| |].
  - destruct Hs1. unfold plugin_ok; cbn. split_and!; [done|lia|lia|].
    intros c Hc. destruct (needCreateProxy r) eqn:Ep; [|done]. injection Hc as <-.
    destruct (isEventSource info) eqn:Ee; [|done]. rewrite (so_registry0 _ _ Er (Hi eq_refl)) in Ep. done.
  - cbn. intros n' p' H' E. destruct Hs1. destruct (so_plugins0 n' p' H') as (_ & Hlt & _). lia.
Qed.

Lemma create_all_sound l st :
  Forall (λ i, isEventSource i = true → pi_name i ∈ sources) l → sound st →
  sound (foldl (CreateOrSchedule library ReadyToLoad) st l) ∧
  (no_nulls st → no_nulls (foldl (CreateOrSchedule library ReadyToLoad) st l)) ∧
  pipelines_ (foldl (CreateOrSchedule library ReadyToLoad) st l) = pipelines_ st.
Proof.
  intros HF. revert st. induction HF as [|i l Hi _ IH]; intros st Hs; [done|]. cbn.
  assert (sound (CreateOrSchedule library ReadyToLoad st i) ∧
    (no_nulls st → no_nulls (CreateOrSchedule library ReadyToLoad st i)) ∧
    pipelines_ (CreateOrSchedule library ReadyToLoad st i) = pipelines_ st) as (H1 & H2 & H3).
  { unfold CreateOrSchedule. destruct (loadDelay i >? 0); [|by apply CreatePlugin_sound].
    split_and!; [|done..]. destruct Hs. split; cbn; try done. apply Forall_app. split; [done|]. by constructor. }
  destruct (IH _ H1) as (H4 & H5 & H6). split_and!; [done|auto|congruence].
Qed.

Lemma pipelines_all_sound l st :
  sound st →
  let st' := foldl (λ st i, CreatePipeline i st) st l in
  sound st' ∧ pluginMap_ st' = pluginMap_ st ∧ (∀ n, is_Some (pipelines_ st !! n) → is_Some (pipelines_ st' !! n)) ∧
  Forall (λ n, is_Some (pipelines_ st' !! n)) (pl_name <$> l).
Proof.
  cbn. revert st. induction l as [|i l IH]; intros st Hs; [done|]. cbn.
  assert (sound (CreatePipeline i st) ∧ pluginMap_ (CreatePipeline i st) = pluginMap_ st ∧
    (∀ n, is_Some (pipelines_ st !! n) → is_Some (pipelines_ (CreatePipeline i st) !! n)) ∧
    is_Some (pipelines_ (CreatePipeline i st) !! pl_name i)) as (H1 & H2 & H3 & H4).
  { unfold CreatePipeline. destruct (pipelines_ st !! pl_name i) as [o|] eqn:E; [by rewrite E; eauto|].
    split_and!; [|done| |cbn; rewrite lookup_insert_eq; eauto].
    - destruct Hs. split; cbn; try done. intros n o [[_ <-]|[_ H]]%lookup_insert_Some; eauto.
    - cbn. intros n Hn. destruct (decide (n = pl_name i)) as [->|]; [rewrite lookup_insert_eq; eauto|by rewrite lookup_insert_ne]. }
  destruct (IH _ H1) as (H5 & H6 & H7 & H8). split_and!; [done|congruence|auto|]. constructor; auto.
Qed.

Lemma AddPipelines_present names st :
  sound st → Forall (λ n, is_Some (pipelines_ st !! n)) names → (AddPipelines names st).2 = st.
Proof.
  intros Hs HF. induction HF as [|n names Hn _ IH]; [done|]. cbn.
  assert (set_pipelines st (at_key (pipelines_ st) n) = st) as ->.
  { unfold at_key. destruct Hn as [o ->]. by destruct st. }
  destruct (AddPipelines names st) as [rest st'] eqn:E. done.
Qed.

Definition rebound (p p' : Plugin) : Prop := p_id p' = p_id p ∧ p_name p' = p_name p ∧ p_config p' = p_config p.

Lemma loops_sound st s : sound st → sound (set_loops st s).
Proof. intros []. by split. Qed.

Lemma bind_loop_sound info p st :
  sound st → sound (bind_loop info p st).2 ∧ rebound p (bind_loop info p st).1 ∧
  pluginMap_ (bind_loop info p st).2 = pluginMap_ st ∧ pipelines_ (bind_loop info p st).2 = pipelines_ st ∧
  nextId (bind_loop info p st).2 = nextId st.
Proof. intros Hs. unfold bind_loop. case_bool_decide; cbn; split_and!; try done. by apply loops_sound. Qed.

Lemma LoadPluginIfNeed_sound p st :
  sound st → (∀ c, p_config p = Some c → isEventSource c = false) →
  sound (LoadPluginIfNeed p st).2 ∧ rebound p (LoadPluginIfNeed p st).1 ∧
  pluginMap_ (LoadPluginIfNeed p st).2 = pluginMap_ st ∧ pipelines_ (LoadPluginIfNeed p st).2 = pipelines_ st ∧
  nextId st <= nextId (LoadPluginIfNeed p st).2.
Proof.
  intros Hs Hc. unfold LoadPluginIfNeed, InstancePluginByProxy. destruct (p_loaded p); [done|].
  destruct (registry st !! p_name p); [|done].
  destruct (p_config p) as [c|] eqn:Ec; [rewrite (Hc c eq_refl)|]; cbn; (split; [by apply next_sound|]); split_and!; try done; lia.
Qed.

Lemma rebound_ok st n p p' : rebound p p' → plugin_ok st n p → plugin_ok st n p'.
Proof. unfold plugin_ok. intros (-> & -> & ->). done. Qed.

Lemma plugin_ok_mono st st' n p : nextId st <= nextId st' → plugin_ok st n p → plugin_ok st' n p.
Proof. unfold plugin_ok. intros H (? & ? & ?). split_and!; try done; lia. Qed.

(** Writing a plugin back under its name. *)
Lemma write_back st st' n p p' :
  pluginMap_ st !! n = Some (Some p) → sound st → sound st' → pluginMap_ st' = pluginMap_ st →
  nextId st <= nextId st' → rebound p p' → no_nulls st →
  sound (set_plugins st' (<[n := Some p']> (pluginMap_ st'))) ∧
  no_nulls (set_plugins st' (<[n := Some p']> (pluginMap_ st'))).
Proof.
  intros Hp Hs Hs' Em Hn Hr Hnn. split.
  - apply put_sound; [done| |].
    + eapply rebound_ok; [exact Hr|]. eapply plugin_ok_mono; [exact Hn|]. by apply so_plugins.
    + intros n' q Hq E. rewrite Em in Hq. destruct Hr as (Ei & _). rewrite Ei in E. exact (so_ids st Hs _ _ _ _ Hq Hp E).
  - intros m. cbn. intros [[_ [=]]|[_ H]]%lookup_insert_Some. rewrite Em in H. by destruct (Hnn _ H).
Qed.

Lemma InitPlugin_sound info st :
  sound st → no_nulls st →
  (isEventSource info = true → Forall (λ n, is_Some (pipelines_ st !! n)) (pipelineNameList info)) →
  ∃ st', InitPlugin info st = Some st' ∧ sound st' ∧ no_nulls st' ∧ pipelines_ st' = pipelines_ st.
Proof.
  intros Hs Hnn Hp. unfold InitPlugin. destruct (pluginMap_ st !! pi_name info) as [[p|]|] eqn:Em; [|by destruct (Hnn _ Em)|by exists st].
  pose proof (so_plugins st Hs _ _ Em) as Hok.
  destruct (bind_loop_sound info p st Hs) as (B1 & B2 & B3 & B4 & B5).
  destruct (bind_loop info p st) as [p1 st1]. cbn in B1, B2, B3, B4, B5.
  set (r2 := if isEventSource info then _ else _).
  assert (r2.2 = st1 ∧ rebound p1 r2.1) as [E2 R2].
  { unfold r2. destruct (isEventSource info); [|done].
    pose proof (AddPipelines_present (pipelineNameList info) st1 B1) as Ha. rewrite B4 in Ha. specialize (Ha (Hp eq_refl)).
    destruct (AddPipelines _ st1) as [added st2]. cbn in *. done. }
  destruct r2 as [p2 st2]. cbn in E2, R2. subst st2.
  assert (rebound p p2) as R by (destruct B2 as (? & ? & ?), R2 as (? & ? & ?); split_and!; congruence).
  set (r3 := if p_proxy p2 && _ then _ else _).
  assert (sound r3.2 ∧ rebound p r3.1 ∧ pluginMap_ r3.2 = pluginMap_ st ∧ pipelines_ r3.2 = pipelines_ st ∧ nextId st <= nextId r3.2) as (C1 & C2 & C3 & C4 & C5).
  { unfold r3. destruct (p_proxy p2 && _); [|cbn; rewrite B3, B4, B5; done].
    destruct (LoadPluginIfNeed_sound p2 st1 B1) as (D1 & D2 & D3 & D4 & D5).
    { destruct R as (_ & _ & ->). by apply Hok. }
    split_and!; [done| |congruence..|lia]. destruct R as (? & ? & ?), D2 as (? & ? & ?). split_and!; congruence. }
  destruct r3 as [p3 st3]. cbn in C1, C2, C3, C4, C5. eexists; split; [done|].
  destruct (write_back st st3 (pi_name info) p p3 Em Hs C1 C3 C5 C2 Hnn). done.
Qed.

Lemma InitPlugins_sound l st :
  sound st → no_nulls st →
  Forall (λ i, isEventSource i = true → Forall (λ n, is_Some (pipelines_ st !! n)) (pipelineNameList i)) l →
  ∃ st', InitPlugins l st = Some st' ∧ sound st' ∧ no_nulls st' ∧ pipelines_ st' = pipelines_ st.
Proof.
  intros Hs Hn HF. revert st Hs Hn HF. induction l as [|i l IH]; intros st Hs Hn HF; [by exists st|]. cbn.
  apply Forall_cons in HF as [Hi HF]. destruct (InitPlugin_sound i st Hs Hn Hi) as (st1 & -> & H1 & H2 & H3). cbn.
  destruct (IH st1 H1 H2) as (st' & -> & ? & ? & ?); [by rewrite H3|]. exists st'. split_and!; [done..|congruence].
Qed.

Lemma NoteSource_sound st i : sound st → sound (NoteSource st i) ∧ pipelines_ (NoteSource st i) = pipelines_ st.
Proof.
  intros Hs. unfold NoteSource. destruct (isEventSource i); cbn; [|done].
  assert (sound (set_plugins st (at_key (pluginMap_ st) (pi_name i)))) as Hs1.
  { unfold at_key. destruct (pluginMap_ st !! pi_name i) eqn:E; [by destruct st|]. destruct Hs. split; cbn; try done.
    - intros n p [[_ [=]]|[_ H]]%lookup_insert_Some. by apply so_plugins0.
    - intros n n' p p' [[_ [=]]|[_ H]]%lookup_insert_Some [[_ [=]]|[_ H']]%lookup_insert_Some E'. by eapply so_ids0. }
  cbn. destruct (at_key (pluginMap_ st) (pi_name i) !! pi_name i) as [[p|]|]; [|done..].
  split; [|done]. destruct Hs1. by split.
Qed.

Lemma notes_sound l st : sound st → sound (foldl NoteSource st l) ∧ pipelines_ (foldl NoteSource st l) = pipelines_ st.
Proof.
  revert st. induction l as [|i l IH]; intros st Hs; [done|]. cbn.
  destruct (NoteSource_sound st i Hs) as [H1 H2]. destruct (IH _ H1). split; [done|congruence].
Qed.

Lemma Cleanup_sound st : sound st → sound (CleanupUnusedResources st) ∧ no_nulls (CleanupUnusedResources st).
Proof.
  intros []. split.
  - split; cbn; try done.
    + intros n p [H _]%map_lookup_filter_Some. by apply so_plugins0.
    + intros n n' p p' [H _]%map_lookup_filter_Some [H' _]%map_lookup_filter_Some E. by eapply so_ids0.
  - intros n. cbn. intros [_ H]%map_lookup_filter_Some. done.
Qed.

Lemma LoadBusinessPlugin_sound c st :
  closed c → sound st → no_nulls st →
  ∃ st', LoadBusinessPlugin library ReadyToLoad c st = Some st' ∧ sound st' ∧ no_nulls st'.
Proof.
  intros Hc Hs Hn. unfold LoadBusinessPlugin.
  destruct (create_all_sound (pluginInfoList_ c) st) as (H1 & H2 & H3); [|done|].
  { eapply Forall_impl; [exact Hc|]. cbn. intros i Hi Hsrc. by apply Hi. }
  set (st1 := foldl (CreateOrSchedule _ _) st _) in *.
  destruct (pipelines_all_sound (pipelineInfoList_ c) st1 H1) as (P1 & P2 & P3 & P4).
  set (st2 := foldl (λ st i, CreatePipeline i st) st1 _) in *.
  destruct (InitPlugins_sound (pluginInfoList_ c) st2) as (st3 & -> & I1 & I2 & I3); [done| | |].
  - intros n. rewrite P2. by apply H2.
  - eapply Forall_impl; [exact Hc|]. cbn. intros i Hi Hsrc. destruct (Hi Hsrc) as [_ HF].
    eapply Forall_impl; [exact HF|]. cbn. intros n Hin. rewrite Forall_forall in P4. by apply P4.
  - cbn. destruct (notes_sound (pluginInfoList_ c) st3 I1) as [N1 _]. eexists; split; [done|]. by apply Cleanup_sound.
Qed.

(** ** Every sequence of operations *)

Inductive Op :=
  | OLoad (c : PluginConfig)
  | OBundle (name : bytes) (c : option PluginConfig) (opened : bool)
  | OUnloadBundle (name : bytes)
  | ODelayed (i : nat)
  | OUnload (name : bytes) (count loopCount : Z)
  | OAppend (plugin pipeline : bytes).

Definition run_op (o : Op) (st : Platform) : option Platform :=
  match o with
  | OLoad c => LoadBusinessPlugin library ReadyToLoad c st
  | OBundle name c opened => RequestLoadBundle library ReadyToLoad name c opened st
  | OUnloadBundle name => Some (UnloadBundle name st)
  | ODelayed i => ScheduleCreateAndInitPlugin library ReadyToLoad i st
  | OUnload name count loopCount => Some (UnloadPlugin name count loopCount st)
  | OAppend plugin pipeline => AppendPluginToPipeline plugin pipeline st
  end.

Fixpoint run_ops (l : list Op) (st : Platform) : option Platform :=
  match l with
  | [] => Some st
  | o :: l => st ← run_op o st; run_ops l st
  end.

Definition op_closed (o : Op) : Prop :=
  match o with OLoad c | OBundle _ (Some c) _ => closed c | _ => True end.

Lemma Delayed_sound i st :
  sound st → no_nulls st →
  ∃ st', ScheduleCreateAndInitPlugin library ReadyToLoad i st = Some st' ∧ sound st' ∧ no_nulls st'.
Proof.
  intros Hs Hn. unfold ScheduleCreateAndInitPlugin. destruct (timers st !! i) as [info|] eqn:Et; [|by exists st].
  set (st0 := set_timers st _).
  assert (sound st0 ∧ no_nulls st0 ∧ (isEventSource info = true → pi_name info ∈ sources)) as (H0 & N0 & Hi).
  { destruct Hs. split_and!; [split; cbn; try done| |].
    - rewrite <- (take_drop_middle _ _ _ Et) in so_timers0. apply Forall_app in so_timers0 as [? [_ ?]%Forall_cons].
      by apply Forall_app.
    - exact Hn.
    - rewrite Forall_forall in so_timers0. apply so_timers0. by eapply list_elem_of_lookup_2. }
  clearbody st0. destruct (CreatePlugin_sound info st0 Hi H0) as (H1 & N1 & _). specialize (N1 N0).
  set (st1 := CreatePlugin _ _ info st0) in *. clearbody st1.
  destruct (pluginMap_ st1 !! pi_name info) as [[p|]|] eqn:Em; [|by destruct (N1 _ Em)|by exists st1].
  destruct (bind_loop_sound info p st1 H1) as (B1 & B2 & B3 & B4 & B5). destruct (bind_loop info p st1) as [p' st2].
  cbn in *. eexists; split; [done|]. eapply write_back; eauto. lia.
Qed.

Lemma Unload_sound name count loopCount st :
  sound st → no_nulls st → sound (UnloadPlugin name count loopCount st) ∧ no_nulls (UnloadPlugin name count loopCount st).
Proof.
  intros Hs Hn. unfold UnloadPlugin. destruct (pluginMap_ st !! name) as [[p|]|] eqn:Em; [|done..].
  destruct (count >? 2); [done|].
  set (st1 := UnregisterPlugin _ _).
  assert (sound st1 ∧ no_nulls st1) as [H1 N1].
  { destruct Hs. unfold st1. split; [split; cbn; try done|].
    - unfold registry_ok. cbn. intros n r [_ H]%lookup_delete_Some. by apply so_registry0.
    - intros n q [_ H]%lookup_delete_Some. by apply so_plugins0.
    - intros n n' q q' [_ H]%lookup_delete_Some [_ H']%lookup_delete_Some E. by eapply so_ids0.
    - intros n. cbn. intros [_ H]%lookup_delete_Some. by eapply Hn. }
  destruct (p_loop p); [|done]. destruct (loopCount <=? 3); [|done]. split; [by apply loops_sound|exact N1].
Qed.

Lemma Append_sound plugin pipeline st :
  sound st → no_nulls st →
  ∃ st', AppendPluginToPipeline plugin pipeline st = Some st' ∧ sound st' ∧ no_nulls st'.
Proof.
  intros Hs Hn. unfold AppendPluginToPipeline. destruct (pipelines_ st !! pipeline) as [pl|] eqn:E; [|by exists st].
  destruct (GetPluginByName plugin st) as [p|]; [|by exists st].
  pose proof (so_pipes st Hs _ _ E) as Hpl. destruct pl as [ps|]; [|done]. cbn. eexists; split; [done|].
  split; [|exact Hn]. destruct Hs. split; cbn; try done. intros n o [[_ <-]|[_ H]]%lookup_insert_Some; eauto.
Qed.

Lemma run_op_sound o st :
  op_closed o → sound st → no_nulls st → ∃ st', run_op o st = Some st' ∧ sound st' ∧ no_nulls st'.
Proof.
  intros Hc Hs Hn. destruct o as [c|name c opened|name|i|name count lc|plugin pl]; cbn in *.
  - by apply LoadBusinessPlugin_sound.
  - unfold RequestLoadBundle, LoadPluginBundle. case_bool_decide; [by exists st|].
    destruct c as [c|]; [|by exists st]. destruct opened; cbn; [|by exists st].
    destruct (LoadBusinessPlugin_sound c st Hc Hs Hn) as (st' & -> & Hs' & Hn'). cbn. eexists; split; [done|].
    split; [|exact Hn']. destruct Hs'. by split.
  - eexists; split; [done|]. split; [|exact Hn]. destruct Hs. by split.
  - by apply Delayed_sound.
  - eexists; split; [done|]. by apply Unload_sound.
  - by apply Append_sound.
Qed.

(** Through any sequence of loading configurations and bundles, delayed loads,
    unloading and appending to pipelines, the platform never dereferences a null
    plugin or pipeline, if every pipeline an event source names is defined in its
    configuration: plugins are stored under their own names, with distinct
    identities and without null entries, and every pipeline lookup has an answer. *)
Theorem platform_tables_sound ops r :
  (∀ n i, r !! n = Some i → n ∈ sources → needCreateProxy i = false) → Forall op_closed ops →
  ∃ st, run_ops ops (Platform_new r) = Some st ∧ sound st ∧ no_nulls st ∧
    ∀ ready name, is_Some (GetPipelineSequenceByName ready name st).
Proof.
  intros Hr HF. assert (sound (Platform_new r) ∧ no_nulls (Platform_new r)) as [Hs Hn].
  { split; [split; cbn; try done; try (intros; by rewrite lookup_empty in * )|].
    intros n H. cbn in H. by rewrite lookup_empty in H. }
  enough (∃ st, run_ops ops (Platform_new r) = Some st ∧ sound st ∧ no_nulls st) as (st & E & Hs' & Hn').
  { exists st. split_and!; [done..|]. intros ready name. unfold GetPipelineSequenceByName.
    destruct ready; cbn; [|eauto]. destruct (pipelines_ st !! name) as [[ps|]|] eqn:Ep; [eauto| |eauto].
    by apply (so_pipes st Hs') in Ep. }
  revert Hs Hn. generalize (Platform_new r). induction HF as [|o ops Ho _ IH]; intros st Hs Hn; [by exists st|]. cbn.
  destruct (run_op_sound o st Ho Hs Hn) as (st' & -> & Hs' & Hn'). cbn. by apply IH.
Qed.

End Sound.

(** ** Examples *)

Definition src_info (name : bytes) (pipes : list bytes) : PluginInfo :=
  mkInfo true true 0 name (str "thread") (str "loop") pipes.
Definition plain_info (name : bytes) : PluginInfo := mkInfo true false 0 name [] [] [].

Definition sample_registry : gmap bytes PluginRegistInfo :=
  {[str "Source" := mkRegist false true; str "Store" := mkRegist true true; str "Logger" := mkRegist false true]}.

Definition sample_load : PluginConfig :=
  mkConfig [src_info (str "Source") [str "SysEvent"]; plain_info (str "Store")]
    [mkPipeline (str "SysEvent") [str "Store"; str "Gone"]].

Definition sample_ops : list Op :=
  [OLoad sample_load; OAppend (str "Store") (str "SysEvent"); OUnload (str "Store") 2 0].

Lemma platform_tables_sound_witness :
  ∃ st, run_ops (λ _, None) (λ _, true) sample_ops (Platform_new sample_registry) = Some st ∧
    is_Some (GetPipelineSequenceByName true (str "SysEvent") st).
Proof.
  destruct (platform_tables_sound (λ _, None) (λ _, true) {[str "Source"]} ltac:(done) sample_ops sample_registry)
    as (st & E & _ & _ & H).
  - intros n i Hi ->%elem_of_singleton. vm_compute in Hi. by injection Hi as <-.
  - repeat apply Forall_cons_2; try apply Forall_nil_2; cbn; try done.
    repeat apply Forall_cons_2; try apply Forall_nil_2; cbn; try done. intros _. split; [set_solver|].
    repeat constructor.
  - exists st. split; [exact E|]. apply H.
Defined.

(** A source that names a pipeline of a bundle loaded later. *)
Definition early_source : PluginConfig := mkConfig [src_info (str "Source") [str "Later"]] [].
Definition later_bundle : PluginConfig :=
  mkConfig [plain_info (str "Logger")] [mkPipeline (str "Later") [str "Logger"]].

(** An event source that names a pipeline no configuration has defined yet
    leaves a null entry in the pipeline table: when a bundle defines the pipeline
    afterwards it is refused as existing already, and looking it up or appending to
    it dereferences the null pointer. *)
Theorem undefined_pipeline_poisons_table :
  ∃ st, run_ops (λ _, None) (λ _, true) [OLoad early_source; OBundle (str "b") (Some later_bundle) true]
      (Platform_new sample_registry) = Some st ∧
    pipelines_ st !! str "Later" = Some None ∧
    is_Some (GetPluginByName (str "Logger") st) ∧
    GetPipelineSequenceByName true (str "Later") st = None ∧
    AppendPluginToPipeline (str "Logger") (str "Later") st = None.
Proof. eexists. split; [by vm_compute|]. split_and!; try by vm_compute. eexists. by vm_compute. Qed.

End PluginPlatform.
