(* ===== verification/TraceManager.v ===== *)
(** * TraceManager: which scenario owns the system trace

    Models framework/native/unified_collection/trace_manager: the state machine
    of src/trace_state_machine.cpp and include/trace_state_machine.h, the states
    of state/, and the inner telemetry machine of telemetry/.  The machine owns
    its current state object; a state's method runs on the machine.  Calls into
    the hitrace library and callbacks are effects, recorded in order; what the
    library answers to a call is a parameter. *)

From S2P Require Import Prelude.
From stdpp Require Import base list numbers strings.

Local Open Scope Z_scope.

Module Trace.

(** ** Data of include/trace_common.h *)

Inductive ScenarioName :=
  | COMMAND | COMMAND_DROP | COMMON_BETA | COMMON_DROP | TELEMETRY | APP_SYSTEM | APP_DYNAMIC
  | CLOSE | OTHER (s : bytes).

#[global] Instance ScenarioName_eq_dec : EqDecision ScenarioName.
Proof. solve_decision. Defined.

(** [namespace ScenarioLevel] *)
Definition ScenarioLevel (n : ScenarioName) : Z :=
  match n with
  | COMMAND | COMMAND_DROP => 5
  | COMMON_DROP => 4
  | COMMON_BETA => 3
  | TELEMETRY | APP_SYSTEM => 2
  | APP_DYNAMIC => 1
  | CLOSE | OTHER _ => 0
  end.

Inductive TelemetryPolicy := DEFAULT | POWER | MANUAL.

#[global] Instance TelemetryPolicy_eq_dec : EqDecision TelemetryPolicy.
Proof. solve_decision. Defined.

Record TraceArgs := mkArgs { tags : list string; fileSizeLimit : Z; appPid : Z }.

Record Scenario := mkScenario {
  name : ScenarioName;
  level : Z;
  args : TraceArgs;
  tracePolicy : TelemetryPolicy;
  outputPath : bytes
}.

(** The codes of the hitrace library the machine tells apart. *)
Inductive TraceErrorCode := SUCCESS | TRACE_IS_OCCUPIED | WRONG_TRACE_MODE | TRACE_ERROR (n : Z).

#[global] Instance TraceErrorCode_eq_dec : EqDecision TraceErrorCode.
Proof. solve_decision. Defined.

Inductive TraceStateCode :=
  | STATE_SUCCESS | DENY | FAIL | POLICY_ERROR | UPDATE_TIME | NO_TRIGGER.

#[global] Instance TraceStateCode_eq_dec : EqDecision TraceStateCode.
Proof. solve_decision. Defined.

(** [struct TraceRet]; the flow code is set by the flow controller only. *)
Record TraceRet := mkRet { stateError_ : TraceStateCode; codeError_ : TraceErrorCode }.

Definition ok : TraceRet := mkRet STATE_SUCCESS SUCCESS.
Definition state_ret (c : TraceStateCode) : TraceRet := mkRet c SUCCESS.
Definition code_ret (c : TraceErrorCode) : TraceRet := mkRet STATE_SUCCESS c.

Definition IsSuccess (r : TraceRet) : bool :=
  (bool_decide (stateError_ r = STATE_SUCCESS) || bool_decide (stateError_ r = NO_TRIGGER) ||
   bool_decide (stateError_ r = UPDATE_TIME)) && bool_decide (codeError_ r = SUCCESS).

(** ** State *)

(** [TeleMetryStateMachine]: [tcur] is the state [currentState_] points at
    ([None] is null); the count and the end time live in its [TraceOnState]. *)
Inductive TState := InitState | TraceOnState.

Record Telemetry := mkTelemetry {
  tcur : option TState;
  traceOnCount_ : Z;
  postEndTime_ : Z;
  tcallback : bool
}.

(** The state classes with their members. *)
Inductive State :=
  | CloseState
  | CommandState
  | CommandDropState
  | CommonState (totalFileSize sliceMaxDuration : Z)
  | CommonDropState
  | TelemetryState (policy : TelemetryPolicy) (callback : bool) (inner : option Telemetry)
  | AppSystemState (pid : Z)
  | DynamicState (pid taskBeginTime : Z).

Definition GetStateScenario (s : State) : ScenarioName :=
  match s with
  | CloseState => CLOSE
  | CommandState => COMMAND
  | CommandDropState => COMMAND_DROP
  | CommonState _ _ => COMMON_BETA
  | CommonDropState => COMMON_DROP
  | TelemetryState _ _ _ => TELEMETRY
  | AppSystemState _ => APP_SYSTEM
  | DynamicState _ _ => APP_DYNAMIC
  end.

Definition GetStateLevel (s : State) : Z :=
  match s with
  | CloseState => 0
  | CommandState => 5
  | CommandDropState => 5
  | CommonState _ _ => 3
  | CommonDropState => 4
  | TelemetryState _ _ _ => 2
  | AppSystemState _ => 2
  | DynamicState _ _ => 1
  end.

Definition GetCurrentAppInfo (s : State) : Z * Z :=
  match s with
  | AppSystemState pid => (pid, 0)
  | DynamicState pid t => (pid, t)
  | _ => (-1, 0)
  end.

(** Calls to hitrace, clock readings and callbacks, in the order they happen. *)
Inductive effect :=
  | HCloseTrace | HOpenTrace (a : TraceArgs) | HRecordTraceOn (path : bytes) | HRecordTraceOff
  | HDumpTrace (maxDuration happenTime : Z) (path : bytes)
  | HDumpTraceAsync (maxDuration happenTime limit : Z)
  | HCacheTraceOn (size span : Z) | HCacheTraceOff | HSetTraceStatus (on : bool) | HClock
  | OnTelemetryStart | OnTelemetryFinish | OnTelemetryTraceOn | OnTelemetryTraceOff.

Record Machine := mkMachine {
  currentState_ : State;
  cacheSizeLimit_ : Z;
  cacheSliceSpan_ : Z;
  traceSwitchState_ : Z;
  isCommandState_ : bool;
  isCachSwitchOn_ : bool;
  hist : list effect
}.

Definition Machine_new : Machine := mkMachine CloseState 800 10 0 false false [].

(** ** Computations on the machine *)

(** [None] is the dereference of a null pointer. *)
Definition M (A : Type) : Type := Machine → option (A * Machine).

#[global] Instance M_ret : MRet M := λ A a m, Some (a, m).
#[global] Instance M_bind : MBind M := λ A B k c m,
  match c m with Some (a, m') => k a m' | None => None end.

Definition crash {A} : M A := λ _, None.
Definition gets {A} (f : Machine → A) : M A := λ m, Some (f m, m).
Definition modify (f : Machine → Machine) : M unit := λ m, Some (tt, f m).
Definition emit (e : effect) : M unit :=
  modify (λ m, mkMachine (currentState_ m) (cacheSizeLimit_ m) (cacheSliceSpan_ m)
    (traceSwitchState_ m) (isCommandState_ m) (isCachSwitchOn_ m) (hist m ++ [e])).
Definition set_current (s : State) (m : Machine) : Machine :=
  mkMachine s (cacheSizeLimit_ m) (cacheSliceSpan_ m) (traceSwitchState_ m) (isCommandState_ m)
    (isCachSwitchOn_ m) (hist m).
Definition set_switch (v : Z) (m : Machine) : Machine :=
  mkMachine (currentState_ m) (cacheSizeLimit_ m) (cacheSliceSpan_ m) v (isCommandState_ m)
    (isCachSwitchOn_ m) (hist m).
Definition set_command (b : bool) (m : Machine) : Machine :=
  mkMachine (currentState_ m) (cacheSizeLimit_ m) (cacheSliceSpan_ m) (traceSwitchState_ m) b
    (isCachSwitchOn_ m) (hist m).
Definition set_cache_switch (b : bool) (m : Machine) : Machine :=
  mkMachine (currentState_ m) (cacheSizeLimit_ m) (cacheSliceSpan_ m) (traceSwitchState_ m)
    (isCommandState_ m) b (hist m).

(** [SetCacheParams] of the machine. *)
Definition SetCacheParams (totalFileSize sliceMaxDuration : Z) : M unit :=
  modify (λ m, mkMachine (currentState_ m) totalFileSize sliceMaxDuration (traceSwitchState_ m)
    (isCommandState_ m) (isCachSwitchOn_ m) (hist m)).

Section Machine.

(** What hitrace answers to a call and what the clock reads, given everything
    that happened before; whether the device is in developer mode. *)
Context (hitrace : list effect → effect → TraceErrorCode).
Context (clock : list effect → Z).
Context (developerMode : bool).

Definition call (e : effect) : M TraceErrorCode :=
  r ← gets (λ m, hitrace (hist m) e); emit e;; mret r.
Definition read_clock : M Z := t ← gets (λ m, clock (hist m)); emit HClock;; mret t.

Definition when (b : bool) (c : M unit) : M unit := if b then c else mret tt.

(** Assigning [currentState_] destroys the old state object; the destructor of
    [TelemetryState] notifies its callback. *)
Definition TransTo (s : State) : M unit :=
  old ← gets currentState_;
  modify (set_current s);;
  when (match old with TelemetryState _ true _ => true | _ => false end) (emit OnTelemetryFinish).

Definition SetCommandState (b : bool) : M unit := modify (set_command b).

(** The constructor of [CommonState] turns the cache on; its result is ignored. *)
Definition TransToCommonState : M unit :=
  m ← gets id;
  when (isCachSwitchOn_ m)
    (_ ← call (HCacheTraceOn (cacheSizeLimit_ m) (cacheSliceSpan_ m)); mret tt);;
  TransTo (CommonState (cacheSizeLimit_ m) (cacheSliceSpan_ m)).
Definition TransToCommandState : M unit := SetCommandState true;; TransTo CommandState.
Definition TransToCommandDropState : M unit := TransTo CommandDropState.
Definition TransToCommonDropState : M unit := TransTo CommonDropState.
Definition TransToTelemetryState (policy : TelemetryPolicy) : M unit :=
  TransTo (TelemetryState policy false None).
Definition TransToAppSystemState (pid : Z) : M unit := TransTo (AppSystemState pid).
Definition TransToDynamicState (pid : Z) : M unit := t ← read_clock; TransTo (DynamicState pid t).
Definition TransToCloseState : M unit := TransTo CloseState.

(** Run a hitrace call; on an error return it, otherwise go on. *)
Definition call_or (e : effect) (k : M TraceRet) : M TraceRet :=
  r ← call e; if bool_decide (r = SUCCESS) then k else mret (code_ret r).

(** The end of [TraceBaseState::OpenTrace]: move to the scenario's state. *)
Definition EnterScenario (scenario : Scenario) : M TraceRet :=
  when (bool_decide (name scenario = COMMAND)) TransToCommandState;;
  when (bool_decide (name scenario = COMMON_BETA)) TransToCommonState;;
  let rest :=
    when (bool_decide (name scenario = TELEMETRY)) (TransToTelemetryState (tracePolicy scenario));;
    when (bool_decide (name scenario = APP_SYSTEM))
      (TransToAppSystemState (appPid (args scenario)));;
    when (bool_decide (name scenario = APP_DYNAMIC))
      (TransToDynamicState (appPid (args scenario)));;
    mret ok in
  if bool_decide (name scenario = COMMON_DROP) then
    call_or (HRecordTraceOn (outputPath scenario)) (TransToCommonDropState;; rest)
  else rest.

(** [TraceBaseState::OpenTrace]; no state overrides it. *)
Definition State_OpenTrace (scenario : Scenario) : M TraceRet :=
  st ← gets currentState_;
  if level scenario <=? GetStateLevel st then mret (state_ret DENY) else
  call_or HCloseTrace (call_or (HOpenTrace (args scenario)) (EnterScenario scenario)).

(** [TraceBaseState::CloseTrace] *)
Definition Base_CloseTrace (scenarioName : ScenarioName) : M TraceRet :=
  st ← gets currentState_;
  if bool_decide (GetStateScenario st = CLOSE) then mret ok
  else if bool_decide (scenarioName ≠ GetStateScenario st) then mret (state_ret DENY)
  else call_or HCloseTrace (TransToCloseState;; mret ok).

Definition CommandState_CloseTrace (scenarioName : ScenarioName) : M TraceRet :=
  r ← Base_CloseTrace scenarioName;
  when (IsSuccess r) (SetCommandState false);; mret r.

Definition CommandDropState_CloseTrace (scenarioName : ScenarioName) : M TraceRet :=
  if bool_decide (scenarioName ≠ COMMAND_DROP) && bool_decide (scenarioName ≠ COMMAND)
  then mret (state_ret DENY)
  else call_or HCloseTrace (TransToCloseState;; mret ok).

Definition CloseVersionBeta : M unit :=
  modify (λ m, set_switch (u8 (Z.land (traceSwitchState_ m) (Z.lnot 8))) m).

Definition CommonState_CloseTrace (scenarioName : ScenarioName) : M TraceRet :=
  if bool_decide (scenarioName = COMMON_BETA) then Base_CloseTrace scenarioName else
  cmd ← gets isCommandState_;
  if bool_decide (scenarioName = COMMAND) && negb cmd then
    CloseVersionBeta;; Base_CloseTrace COMMON_BETA
  else mret (state_ret DENY).

(** [currentState_->CloseTrace] *)
Definition State_CloseTrace (scenarioName : ScenarioName) : M TraceRet :=
  st ← gets currentState_;
  match st with
  | CommandState => CommandState_CloseTrace scenarioName
  | CommandDropState => CommandDropState_CloseTrace scenarioName
  | CommonState _ _ => CommonState_CloseTrace scenarioName
  | _ => Base_CloseTrace scenarioName
  end.

(** ** The machine *)

Definition FILE_SIZE_LITMIT : Z := 100 * 1024.

Definition COMMON_TAGS (sched : string) : list string := [
  "net"; "dsched"; "graphic"; "multimodalinput"; "dinput"; "ark"; "ace"; "window"; "zaudio";
  "daudio"; "zmedia"; "dcamera"; "zcamera"; "dhfwk"; "app"; "gresource"; "ability"; "power";
  "samgr"; "ffrt"; "nweb"; "hdf"; "virse"; "workq"; "ipa"; sched; "freq"; "disk"; "sync";
  "binder"; "mmc"; "membus"; "load"]%string.

Definition SCENARIO_COMMON_DROP_INFO : Scenario :=
  mkScenario COMMON_DROP 4 (mkArgs (COMMON_TAGS "sched") FILE_SIZE_LITMIT 0) DEFAULT [].
Definition SCENARIO_COMMON_INFO : Scenario :=
  mkScenario COMMON_BETA 3 (mkArgs (COMMON_TAGS "sched") FILE_SIZE_LITMIT 0) DEFAULT [].
Definition SCENARIO_COMMON_SCHEDLT_INFO : Scenario :=
  mkScenario COMMON_BETA 3 (mkArgs (COMMON_TAGS "schedlt") FILE_SIZE_LITMIT 0) DEFAULT [].

Definition RefreshState : M TraceRet :=
  st ← gets currentState_;
  let scenarioName := GetStateScenario st in
  when (bool_decide (scenarioName = COMMON_BETA) || bool_decide (scenarioName = COMMON_DROP))
    (_ ← State_CloseTrace scenarioName; mret tt);;
  sw ← gets traceSwitchState_;
  if sw =? 0 then mret ok
  else if Z.land sw 1 =? 1 then State_OpenTrace SCENARIO_COMMON_DROP_INFO
  else if developerMode then State_OpenTrace SCENARIO_COMMON_INFO
  else State_OpenTrace SCENARIO_COMMON_SCHEDLT_INFO.

Definition OpenTrace (scenario : Scenario) : M TraceRet := State_OpenTrace scenario.

Definition CloseTrace (scenarioName : ScenarioName) : M TraceRet :=
  r ← State_CloseTrace scenarioName;
  if IsSuccess r then RefreshState else mret r.

(** The switches: a bit each, then [RefreshState], whose result is dropped. *)
Definition switch (f : Z → Z) : M unit :=
  modify (λ m, set_switch (u8 (f (traceSwitchState_ m))) m);; _ ← RefreshState; mret tt.

Definition SetTraceVersionBeta : M unit := switch (λ s, Z.lor s 8).
Definition SetTraceSwitchUcOn : M unit := switch (λ s, Z.lor s 4).
Definition SetTraceSwitchUcOff : M unit := switch (λ s, Z.land s (Z.lnot 4)).
Definition SetTraceSwitchFreezeOn : M unit := switch (λ s, Z.lor s 2).
Definition SetTraceSwitchFreezeOff : M unit := switch (λ s, Z.land s (Z.lnot 2)).
Definition SetTraceSwitchDevOn : M unit := switch (λ s, Z.lor s 1).
Definition SetTraceSwitchDevOff : M unit := switch (λ s, Z.land s (Z.lnot 1)).

(** [TraceDropOn] and [TraceDropOff]: only the command states allow them. *)
Definition TraceDropOn (scenarioName : ScenarioName) (path : bytes) : M TraceRet :=
  st ← gets currentState_;
  match st with
  | CommandState =>
      if bool_decide (scenarioName ≠ COMMAND) then mret (state_ret FAIL)
      else call_or (HRecordTraceOn path) (TransToCommandDropState;; mret ok)
  | _ => mret (state_ret FAIL)
  end.

Definition TraceDropOff (scenarioName : ScenarioName) : M TraceRet :=
  st ← gets currentState_;
  match st with
  | CommandDropState =>
      if bool_decide (scenarioName ≠ COMMAND_DROP) then mret (state_ret FAIL)
      else call_or HRecordTraceOff (TransToCommandState;; mret ok)
  | _ => mret (state_ret FAIL)
  end.

(** [Hitrace::DumpTrace] for a scenario the state serves. *)
Definition dump_if (served : bool) (maxDuration happenTime : Z) (path : bytes) : M TraceRet :=
  if served then r ← call (HDumpTrace maxDuration happenTime path); mret (code_ret r)
  else mret (state_ret FAIL).

Definition CommandState_DumpTrace (scenarioName : ScenarioName) :=
  dump_if (bool_decide (scenarioName = COMMAND)).
Definition CommonState_DumpTrace (scenarioName : ScenarioName) :=
  dump_if (bool_decide (scenarioName = COMMON_BETA) || bool_decide (scenarioName = COMMAND)).
Definition AppSystemState_DumpTrace (scenarioName : ScenarioName) :=
  dump_if (bool_decide (scenarioName = APP_SYSTEM)).
Definition DynamicState_DumpTrace (scenarioName : ScenarioName) :=
  dump_if (bool_decide (scenarioName = APP_DYNAMIC)).

(** [currentState_->DumpTrace] *)
Definition State_DumpTrace (scenarioName : ScenarioName) (maxDuration happenTime : Z)
    (path : bytes) : M TraceRet :=
  st ← gets currentState_;
  match st with
  | CommandState => CommandState_DumpTrace scenarioName maxDuration happenTime path
  | CommonState _ _ => CommonState_DumpTrace scenarioName maxDuration happenTime path
  | AppSystemState _ => AppSystemState_DumpTrace scenarioName maxDuration happenTime path
  | DynamicState _ _ => DynamicState_DumpTrace scenarioName maxDuration happenTime path
  | _ => mret (state_ret FAIL)
  end.

Definition State_DumpTraceAsync (scenarioName : ScenarioName) (maxDuration happenTime limit : Z)
    : M TraceRet :=
  st ← gets currentState_;
  match st with
  | CommonState _ _ =>
      if bool_decide (scenarioName ≠ COMMON_BETA) then mret (state_ret FAIL)
      else r ← call (HDumpTraceAsync maxDuration happenTime limit); mret (code_ret r)
  | _ => mret (state_ret FAIL)
  end.

(** After a dump that found the trace taken or in the wrong mode, restore. *)
Definition refresh_on_conflict (r : TraceRet) : M TraceRet :=
  when (bool_decide (codeError_ r = TRACE_IS_OCCUPIED) || bool_decide (codeError_ r = WRONG_TRACE_MODE))
    (_ ← RefreshState; mret tt);; mret r.

Definition DumpTrace (scenarioName : ScenarioName) (maxDuration happenTime : Z) (path : bytes)
    : M TraceRet :=
  r ← State_DumpTrace scenarioName maxDuration happenTime path; refresh_on_conflict r.

Definition DumpTraceAsync (scenarioName : ScenarioName) (maxDuration happenTime limit : Z)
    : M TraceRet :=
  r ← State_DumpTraceAsync scenarioName maxDuration happenTime limit; refresh_on_conflict r.

(** [TraceCacheOn] and [TraceCacheOff] remember the switch for later states. *)
Definition TraceCacheOn : M TraceRet :=
  modify (set_cache_switch true);;
  st ← gets currentState_;
  match st with
  | CommonState size span => r ← call (HCacheTraceOn size span); mret (code_ret r)
  | _ => mret (state_ret FAIL)
  end.

Definition TraceCacheOff : M TraceRet :=
  modify (set_cache_switch false);;
  st ← gets currentState_;
  match st with
  | CommonState _ _ => r ← call HCacheTraceOff; mret (code_ret r)
  | _ => mret (state_ret FAIL)
  end.

(** ** Telemetry *)

(** Run a computation of the inner machine on the current telemetry state, and
    store the inner machine it leaves behind. *)
Definition put_inner (t : Telemetry) : M unit :=
  modify (λ m, match currentState_ m with
               | TelemetryState p cb _ => set_current (TelemetryState p cb (Some t)) m
               | _ => m
               end).

Definition TransToInitState (t : Telemetry) : M (TraceRet * Telemetry) :=
  r ← call (HSetTraceStatus false);
  if bool_decide (r = SUCCESS)
  then mret (ok, mkTelemetry (Some InitState) (traceOnCount_ t) (postEndTime_ t) (tcallback t))
  else mret (code_ret r, t).

Definition TransToTraceOnState (t : Telemetry) (count post : Z) : M (TraceRet * Telemetry) :=
  r ← call (HSetTraceStatus true);
  if bool_decide (r = SUCCESS)
  then mret (ok, mkTelemetry (Some TraceOnState) count post (tcallback t))
  else mret (code_ret r, t).

Definition IsTraceOn (t : Telemetry) : M bool :=
  match tcur t with
  | None => crash
  | Some InitState => mret false
  | Some TraceOnState => mret true
  end.

(** The methods of the inner states, then the machine's dispatch on its
    current state. *)
Definition InitState_TraceOn (t : Telemetry) : M (TraceRet * Telemetry) :=
  '(r, t') ← TransToTraceOnState t 1 0;
  if IsSuccess r then when (tcallback t') (emit OnTelemetryTraceOn);; mret (ok, t')
  else mret (r, t').

Definition InitState_TraceOff (t : Telemetry) : M (TraceRet * Telemetry) := mret (ok, t).

Definition InitState_PostOn (t : Telemetry) (time : Z) : M (TraceRet * Telemetry) :=
  now ← read_clock;
  '(r, t') ← TransToTraceOnState t 0 (u64 (now + time));
  if IsSuccess r
  then when (tcallback t') (emit OnTelemetryTraceOn);; mret (state_ret UPDATE_TIME, t')
  else mret (r, t').

Definition InitState_TimeOut (t : Telemetry) : M (TraceRet * Telemetry) := mret (ok, t).

Definition TraceOnState_TraceOn (t : Telemetry) : M (TraceRet * Telemetry) :=
  mret (ok, mkTelemetry (tcur t) (u32 (traceOnCount_ t + 1)) (postEndTime_ t) (tcallback t)).

Definition TraceOnState_TraceOff (t : Telemetry) : M (TraceRet * Telemetry) :=
  if (postEndTime_ t >? 0) || (traceOnCount_ t >? 1) then
    mret (state_ret NO_TRIGGER,
          if traceOnCount_ t >? 1
          then mkTelemetry (tcur t) (traceOnCount_ t - 1) (postEndTime_ t) (tcallback t) else t)
  else
    '(r, t') ← TransToInitState t;
    if IsSuccess r then when (tcallback t') (emit OnTelemetryTraceOff);; mret (ok, t')
    else mret (r, t').

Definition TraceOnState_PostOn (t : Telemetry) (time : Z) : M (TraceRet * Telemetry) :=
  now ← read_clock;
  let postEndTime := u64 (now + time) in
  if postEndTime <? postEndTime_ t then mret (ok, t)
  else mret (state_ret UPDATE_TIME,
             mkTelemetry (tcur t) (traceOnCount_ t) postEndTime (tcallback t)).

Definition TraceOnState_TimeOut (t : Telemetry) : M (TraceRet * Telemetry) :=
  now ← read_clock;
  if now <? postEndTime_ t then mret (state_ret NO_TRIGGER, t) else
  let t := mkTelemetry (tcur t) (traceOnCount_ t) 0 (tcallback t) in
  if traceOnCount_ t >? 0 then mret (state_ret NO_TRIGGER, t) else
  '(r, t') ← TransToInitState t;
  if IsSuccess r then when (tcallback t') (emit OnTelemetryTraceOff);; mret (ok, t')
  else mret (r, t').

Definition dispatch {A} (onInit onTraceOn : Telemetry → M A) (t : Telemetry) : M A :=
  match tcur t with
  | None => crash
  | Some InitState => onInit t
  | Some TraceOnState => onTraceOn t
  end.

Definition Telemetry_TraceOn := dispatch InitState_TraceOn TraceOnState_TraceOn.
Definition Telemetry_TraceOff := dispatch InitState_TraceOff TraceOnState_TraceOff.
Definition Telemetry_PostOn (t : Telemetry) (time : Z) :=
  dispatch (λ t, InitState_PostOn t time) (λ t, TraceOnState_PostOn t time) t.
Definition Telemetry_TimeOut := dispatch InitState_TimeOut TraceOnState_TimeOut.

(** A telemetry request under the policy it needs. *)
Definition under_policy (policy : TelemetryPolicy)
    (f : Telemetry → M (TraceRet * Telemetry)) : M TraceRet :=
  st ← gets currentState_;
  match st with
  | TelemetryState p _ (Some t) =>
      if bool_decide (p ≠ policy) then mret (state_ret POLICY_ERROR)
      else '(r, t') ← f t; put_inner t';; mret r
  | TelemetryState _ _ None => mret (state_ret POLICY_ERROR)
  | _ => mret (state_ret FAIL)
  end.

Definition TraceTelemetryOn : M TraceRet := under_policy MANUAL Telemetry_TraceOn.
Definition TraceTelemetryOff : M TraceRet := under_policy MANUAL Telemetry_TraceOff.
Definition PostTelemetryOn (time : Z) : M TraceRet :=
  under_policy MANUAL (λ t, Telemetry_PostOn t time).
Definition PostTelemetryTimeOut : M TraceRet := under_policy MANUAL Telemetry_TimeOut.
Definition PowerTelemetryOn : M TraceRet := under_policy POWER (λ t,
  on ← IsTraceOn t; if on : bool then mret (ok, t) else Telemetry_TraceOn t).
Definition PowerTelemetryOff : M TraceRet := under_policy POWER (λ t,
  on ← IsTraceOn t; if on : bool then Telemetry_TraceOff t else mret (ok, t)).

Definition DumpTraceWithFilter (maxDuration happenTime : Z) (path : bytes) : M TraceRet :=
  let dump := r ← call (HDumpTrace maxDuration happenTime path); mret (code_ret r) in
  st ← gets currentState_;
  match st with
  | TelemetryState DEFAULT _ _ => dump
  | TelemetryState _ _ None => dump
  | TelemetryState _ _ (Some t) =>
      on ← IsTraceOn t; if on : bool then dump else mret (state_ret FAIL)
  | _ => mret (state_ret FAIL)
  end.

(** [RegisterTelemetryCallback]; the argument tells whether the pointer is set. *)
Definition RegisterTelemetryCallback (stateCallback : bool) : M bool :=
  st ← gets currentState_;
  match st with
  | TelemetryState p _ inner =>
      if negb stateCallback then mret false else
      modify (set_current (TelemetryState p true inner));;
      emit OnTelemetryStart;;
      when (bool_decide (p = DEFAULT)) (emit OnTelemetryTraceOn);;
      mret true
  | _ => mret false
  end.

Definition InitTelemetryStatus (isStatusOn : bool) : M unit :=
  st ← gets currentState_;
  match st with
  | TelemetryState p cb _ =>
      let t := mkTelemetry None 0 0 cb in
      if isStatusOn then
        '(r, t') ← TransToTraceOnState t 0 0;
        put_inner t';;
        when (IsSuccess r && cb) (emit OnTelemetryTraceOn)
      else
        '(_, t') ← TransToInitState t;
        put_inner t'
  | _ => mret tt
  end.

(** ** Calls *)

(** The public operations of [TraceStateMachine] that change it. *)
Inductive Call :=
  | COpen (s : Scenario) | CClose (n : ScenarioName)
  | CDump (n : ScenarioName) (d t : Z) (p : bytes)
  | CDumpAsync (n : ScenarioName) (d t l : Z)
  | CDumpWithFilter (d t : Z) (p : bytes)
  | CDropOn (n : ScenarioName) (p : bytes) | CDropOff (n : ScenarioName)
  | CCacheOn | CCacheOff | CCacheParams (size span : Z)
  | CBeta | CUcOn | CUcOff | CFreezeOn | CFreezeOff | CDevOn | CDevOff
  | CTelemetryOn | CTelemetryOff | CPostOn (time : Z) | CTimeOut | CPowerOn | CPowerOff
  | CRegister (cb : bool) | CInit (on : bool).

Definition run (c : Call) : M TraceRet :=
  match c with
  | COpen s => OpenTrace s
  | CClose n => CloseTrace n
  | CDump n d t p => DumpTrace n d t p
  | CDumpAsync n d t l => DumpTraceAsync n d t l
  | CDumpWithFilter d t p => DumpTraceWithFilter d t p
  | CDropOn n p => TraceDropOn n p
  | CDropOff n => TraceDropOff n
  | CCacheOn => TraceCacheOn
  | CCacheOff => TraceCacheOff
  | CCacheParams size span => SetCacheParams size span;; mret ok
  | CBeta => SetTraceVersionBeta;; mret ok
  | CUcOn => SetTraceSwitchUcOn;; mret ok
  | CUcOff => SetTraceSwitchUcOff;; mret ok
  | CFreezeOn => SetTraceSwitchFreezeOn;; mret ok
  | CFreezeOff => SetTraceSwitchFreezeOff;; mret ok
  | CDevOn => SetTraceSwitchDevOn;; mret ok
  | CDevOff => SetTraceSwitchDevOff;; mret ok
  | CTelemetryOn => TraceTelemetryOn
  | CTelemetryOff => TraceTelemetryOff
  | CPostOn time => PostTelemetryOn time
  | CTimeOut => PostTelemetryTimeOut
  | CPowerOn => PowerTelemetryOn
  | CPowerOff => PowerTelemetryOff
  | CRegister cb => _ ← RegisterTelemetryCallback cb; mret ok
  | CInit on => InitTelemetryStatus on;; mret ok
  end.

(** One call, and the machines a sequence of calls can reach. *)
Inductive reachable (allowed : Call → Prop) : Machine → Prop :=
  | reach_new : reachable allowed Machine_new
  | reach_call m c r m' :
      reachable allowed m → allowed c → run c m = Some (r, m') → reachable allowed m'.

End Machine.

End Trace.
