(* ===== verification/TraceFacts.v ===== *)
(** * TraceFacts: what the trace state machine guarantees

    Priorities between scenarios, the invariant of the reachable machines, the
    order of hitrace calls, the state the switches lead to, and the counting of
    telemetry requests. *)

From S2P Require Import Prelude TraceManager.
From stdpp Require Import base list numbers strings.
Import Trace.

Local Open Scope Z_scope.

(** ** Invariants of computations *)

(** [c] keeps [I], whatever it returns. *)
Definition keeps (I : Machine → Prop) {A} (c : M A) : Prop :=
  ∀ m a m', I m → c m = Some (a, m') → I m'.

Section Keeps.
Context (I : Machine → Prop).

Lemma keeps_ret {A} (a : A) : keeps I (mret a).
Proof. intros m b m' Hm [= <- <-]. done. Qed.

Lemma keeps_crash {A} : keeps I (@crash A).
Proof. done. Qed.

Lemma keeps_gets {A} (f : Machine → A) : keeps I (gets f).
Proof. intros m b m' Hm [= <- <-]. done. Qed.

Lemma keeps_modify f : (∀ m, I m → I (f m)) → keeps I (modify f).
Proof. intros Hf m b m' Hm [= <- <-]. auto. Qed.

Lemma keeps_bind {A B} (c : M A) (k : A → M B) :
  keeps I c → (∀ a, keeps I (k a)) → keeps I (c ≫= k).
Proof.
  intros Hc Hk m b m' Hm E. unfold mbind, M_bind in E.
  destruct (c m) as [[a m1]|] eqn:E1; [|done]. eapply Hk; [|exact E]. by eapply Hc.
Qed.

(** The continuation may use what was read. *)
Lemma keeps_read {A B} (f : Machine → A) (k : A → M B) :
  (∀ m b m', I m → k (f m) m = Some (b, m') → I m') → keeps I (gets f ≫= k).
Proof. intros Hk m b m' Hm E. by eapply Hk. Qed.

Lemma keeps_when (b : bool) c : (b = true → keeps I c) → keeps I (when b c).
Proof. destruct b; cbn; intros Hc; [auto|apply keeps_ret]. Qed.

End Keeps.

#[export] Hint Resolve keeps_ret keeps_crash keeps_gets keeps_when : hv.

(** Walk through a computation whose pieces keep the invariant. *)
Ltac keep :=
  repeat (cbv beta zeta; match goal with
  | |- keeps _ (mret _) => apply keeps_ret
  | |- keeps _ crash => apply keeps_crash
  | |- keeps _ (gets _) => apply keeps_gets
  | |- keeps _ (_ ≫= _) => apply keeps_bind; [|intros ?]
  | |- keeps _ (when _ _) => apply keeps_when; intros ?
  | |- keeps _ (if ?b then _ else _) => destruct b eqn:?
  | |- keeps _ (match ?x with _ => _ end) => destruct x eqn:?
  | |- _ => progress auto with hv
  end).

(** ** Invariants of the machine *)

(** A state that neither belongs to the command scenario nor carries an inner
    telemetry machine. *)
Definition fresh_state (s : State) : Prop :=
  match s with
  | CommandState | CommandDropState => False
  | TelemetryState _ _ (Some _) => False
  | _ => True
  end.

Definition no_open (e : effect) : Prop := ∀ a, e ≠ HOpenTrace a.

Section Machine.
Context (hitrace : list effect → effect → TraceErrorCode).
Context (clock : list effect → Z) (developerMode : bool).

(** An invariant of the machine: what the primitive steps must keep. *)
Class MachineInvariant (I : Machine → Prop) := {
  inv_emit e : no_open e → keeps I (emit e);
  inv_reopen a k :
    keeps I k → keeps I (call_or hitrace HCloseTrace (call_or hitrace (HOpenTrace a) k));
  inv_trans s : fresh_state s → keeps I (TransTo s);
  inv_command : keeps I TransToCommandState;
  inv_command_close n : keeps I (CommandState_CloseTrace hitrace n);
  inv_drop_on n p : keeps I (TraceDropOn hitrace n p);
  inv_switch f : keeps I (modify (λ m, set_switch (u8 (f (traceSwitchState_ m))) m));
  inv_close_beta : keeps I CloseVersionBeta;
  inv_cache b : keeps I (modify (set_cache_switch b));
  inv_params x y : keeps I (SetCacheParams x y);
  inv_telemetry p f :
    f ∈ [Telemetry_TraceOn hitrace; Telemetry_TraceOff hitrace; Telemetry_TimeOut hitrace clock] →
    keeps I (under_policy p f);
  inv_post p time : keeps I (under_policy p (λ t, Telemetry_PostOn hitrace clock t time));
  inv_power_on : keeps I (PowerTelemetryOn hitrace);
  inv_power_off : keeps I (PowerTelemetryOff hitrace);
  inv_register cb : keeps I (RegisterTelemetryCallback cb);
  inv_init on : keeps I (InitTelemetryStatus hitrace on)
}.

Section Generic.
Context (I : Machine → Prop) {HI : MachineInvariant I}.

Lemma keeps_call e : no_open e → keeps I (call hitrace e).
Proof. intros He. unfold call. keep. by apply inv_emit. Qed.

Lemma keeps_call_or e k : no_open e → keeps I k → keeps I (call_or hitrace e k).
Proof. intros He Hk. unfold call_or. apply keeps_bind; [by apply keeps_call|intros r]. keep. Qed.

Lemma keeps_read_clock : keeps I (read_clock clock).
Proof. unfold read_clock. keep. by apply inv_emit. Qed.

Hint Resolve keeps_read_clock inv_command inv_close_beta inv_command_close inv_drop_on : hv.

Lemma keeps_TransToCommonState : keeps I (TransToCommonState hitrace).
Proof. unfold TransToCommonState. keep; [by apply keeps_call|by apply inv_trans]. Qed.

Lemma keeps_TransToDynamicState pid : keeps I (TransToDynamicState clock pid).
Proof. unfold TransToDynamicState. keep. by apply inv_trans. Qed.

Hint Resolve keeps_TransToCommonState keeps_TransToDynamicState : hv.

Lemma keeps_State_OpenTrace s : keeps I (State_OpenTrace hitrace clock s).
Proof.
  unfold State_OpenTrace, EnterScenario. keep. apply inv_reopen.
  unfold TransToTelemetryState, TransToAppSystemState. keep; try (by apply inv_trans).
  apply keeps_call_or; [done|]. unfold TransToCommonDropState. keep; by apply inv_trans.
Qed.

Lemma keeps_Base_CloseTrace n : keeps I (Base_CloseTrace hitrace n).
Proof.
  unfold Base_CloseTrace, TransToCloseState. keep. apply keeps_call_or; [done|]. keep.
  by apply inv_trans.
Qed.

Hint Resolve keeps_State_OpenTrace keeps_Base_CloseTrace : hv.

Lemma keeps_State_CloseTrace n : keeps I (State_CloseTrace hitrace n).
Proof.
  unfold State_CloseTrace, CommandDropState_CloseTrace, CommonState_CloseTrace, TransToCloseState.
  keep. apply keeps_call_or; [done|]. keep. by apply inv_trans.
Qed.

Hint Resolve keeps_State_CloseTrace : hv.

Lemma keeps_RefreshState : keeps I (RefreshState hitrace clock developerMode).
Proof. unfold RefreshState. keep. Qed.

Hint Resolve keeps_RefreshState : hv.

Lemma keeps_switch f : keeps I (switch hitrace clock developerMode f).
Proof. unfold switch. keep. apply inv_switch. Qed.

Hint Resolve keeps_switch : hv.

Lemma keeps_TraceDropOff n : keeps I (TraceDropOff hitrace n).
Proof. unfold TraceDropOff. keep. apply keeps_call_or; [done|]. keep. Qed.

Lemma keeps_run c : keeps I (run hitrace clock developerMode c).
Proof.
  destruct c; cbn [run]; unfold OpenTrace, CloseTrace, DumpTrace, DumpTraceAsync, State_DumpTrace,
    CommandState_DumpTrace, CommonState_DumpTrace, AppSystemState_DumpTrace, DynamicState_DumpTrace,
    dump_if, State_DumpTraceAsync, refresh_on_conflict, DumpTraceWithFilter, TraceCacheOn, TraceCacheOff,
    SetTraceVersionBeta, SetTraceSwitchUcOn, SetTraceSwitchUcOff, SetTraceSwitchFreezeOn,
    SetTraceSwitchFreezeOff, SetTraceSwitchDevOn, SetTraceSwitchDevOff, TraceTelemetryOn,
    TraceTelemetryOff, PostTelemetryOn, PostTelemetryTimeOut, IsTraceOn; keep;
    first [ by apply keeps_call | apply inv_cache | apply inv_params | apply keeps_TraceDropOff
          | apply inv_post | apply inv_power_on | apply inv_power_off | apply inv_register
          | apply inv_init | apply inv_telemetry; rewrite !elem_of_cons; tauto ].
Qed.

Lemma reachable_inv allowed m :
  I Machine_new → reachable hitrace clock developerMode allowed m → I m.
Proof. intros H0. induction 1; [done|]. by eapply keeps_run. Qed.

End Generic.

(** ** The order of hitrace calls *)

(** Every [Hitrace::OpenTrace] comes right after a [Hitrace::CloseTrace] that
    succeeded. *)
Definition disciplined (l : list effect) : Prop :=
  ∀ pre a post, l = pre ++ HOpenTrace a :: post →
    ∃ pre', pre = pre' ++ [HCloseTrace] ∧ hitrace pre' HCloseTrace = SUCCESS.

Lemma disciplined_snoc l e :
  disciplined l →
  (∀ a, e = HOpenTrace a →
     ∃ pre', l = pre' ++ [HCloseTrace] ∧ hitrace pre' HCloseTrace = SUCCESS) →
  disciplined (l ++ [e]).
Proof.
  intros Hl He pre a post E. destruct post as [|x post _] using rev_ind.
  - apply app_inj_tail in E as [-> ->]. by apply He with a.
  - rewrite app_comm_cons, app_assoc in E. apply app_inj_tail in E as [-> ->]. by eapply Hl.
Qed.

Definition hist_ok (m : Machine) : Prop := disciplined (hist m).

(** The history only grows, and never by an [OpenTrace]. *)
Definition quiet {A} (c : M A) : Prop :=
  ∀ m a m', c m = Some (a, m') → ∃ l, hist m' = hist m ++ l ∧ Forall no_open l.

Lemma quiet_keeps {A} (c : M A) : quiet c → keeps hist_ok c.
Proof.
  intros Hq m a m' Hm E. destruct (Hq _ _ _ E) as (l & Hl & HF). unfold hist_ok in *. rewrite Hl.
  clear - Hm HF. revert Hm. generalize (hist m) as h.
  induction HF as [|e l He _ IH]; intros h Hm; [by rewrite app_nil_r|].
  change (e :: l) with ([e] ++ l). rewrite app_assoc. apply IH.
  apply disciplined_snoc; [done|]. intros a' ->. by destruct (He a').
Qed.

Lemma quiet_ret {A} (a : A) : quiet (mret a).
Proof. intros m b m' [= <- <-]. exists []. by rewrite app_nil_r. Qed.

Lemma quiet_gets {A} (f : Machine → A) : quiet (gets f).
Proof. intros m b m' [= <- <-]. exists []. by rewrite app_nil_r. Qed.

Lemma quiet_modify f : (∀ m, hist (f m) = hist m) → quiet (modify f).
Proof. intros Hf m b m' [= <- <-]. exists []. by rewrite app_nil_r, Hf. Qed.

Lemma quiet_emit e : no_open e → quiet (emit e).
Proof. intros He m b m' [= <- <-]. exists [e]. split; [done|]. by apply Forall_singleton. Qed.

Lemma quiet_bind {A B} (c : M A) (k : A → M B) : quiet c → (∀ a, quiet (k a)) → quiet (c ≫= k).
Proof.
  intros Hc Hk m b m' E. unfold mbind, M_bind in E. destruct (c m) as [[a m1]|] eqn:E1; [|done].
  destruct (Hc _ _ _ E1) as (l1 & H1 & F1). destruct (Hk _ _ _ _ E) as (l2 & H2 & F2).
  exists (l1 ++ l2). rewrite H2, H1, <- app_assoc. split; [done|]. by apply Forall_app.
Qed.

Lemma quiet_when (b : bool) c : quiet c → quiet (when b c).
Proof. destruct b; [done|]. intros _. apply quiet_ret. Qed.

(** Walk through a computation that never opens a trace. *)
Ltac hush :=
  repeat (cbv beta zeta; match goal with
  | |- quiet (mret _) => apply quiet_ret
  | |- quiet crash => intros ? ? ? [=]
  | |- quiet (gets _) => apply quiet_gets
  | |- quiet (modify (set_current _)) => apply quiet_modify; done
  | |- quiet (modify _) => apply quiet_modify; intros ?; (done || by case_match)
  | |- quiet (emit _) => apply quiet_emit; done
  | |- quiet (_ ≫= _) => apply quiet_bind; [|intros ?]
  | |- quiet (when _ _) => apply quiet_when
  | |- quiet (if ?b then _ else _) => destruct b eqn:?
  | |- quiet (match ?x with _ => _ end) => destruct x eqn:?
  end).

Lemma quiet_TransTo s : quiet (TransTo s).
Proof. unfold TransTo. hush. Qed.

Lemma quiet_TraceOn t : quiet (Telemetry_TraceOn hitrace t).
Proof. unfold Telemetry_TraceOn, dispatch, InitState_TraceOn, TraceOnState_TraceOn, TransToTraceOnState, call. hush. Qed.
Lemma quiet_TraceOff t : quiet (Telemetry_TraceOff hitrace t).
Proof. unfold Telemetry_TraceOff, dispatch, InitState_TraceOff, TraceOnState_TraceOff, TransToInitState, call. hush. Qed.
Lemma quiet_TimeOut t : quiet (Telemetry_TimeOut hitrace clock t).
Proof. unfold Telemetry_TimeOut, dispatch, InitState_TimeOut, TraceOnState_TimeOut, TransToInitState, read_clock, call. hush. Qed.
Lemma quiet_PostOn t time : quiet (Telemetry_PostOn hitrace clock t time).
Proof. unfold Telemetry_PostOn, dispatch, InitState_PostOn, TraceOnState_PostOn, TransToTraceOnState, read_clock, call. hush. Qed.

Lemma quiet_under_policy p f : (∀ t, quiet (f t)) → quiet (under_policy p f).
Proof.
  intros Hf. unfold under_policy, put_inner. hush; try apply Hf.
Qed.

Lemma reopen_keeps_discipline a k :
  keeps hist_ok k →
  keeps hist_ok (call_or hitrace HCloseTrace (call_or hitrace (HOpenTrace a) k)).
Proof.
  intros Hk m r m' Hm E. unfold call_or, call, emit, modify, gets, mbind, M_bind, mret, M_ret in E.
  cbn in E. destruct (decide (hitrace (hist m) HCloseTrace = SUCCESS)) as [Hc|Hc].
  - rewrite (bool_decide_true _ Hc) in E. cbn in E.
    assert (∀ m1, hist m1 = (hist m ++ [HCloseTrace]) ++ [HOpenTrace a] → hist_ok m1) as H2.
    { intros m1 Hh. unfold hist_ok. rewrite Hh. apply disciplined_snoc; [by apply disciplined_snoc|].
      intros a' [= <-]. eauto. }
    case_bool_decide; [by eapply Hk; [|exact E]; apply H2|].
    injection E as _ <-. by apply H2.
  - rewrite (bool_decide_false _ Hc) in E. injection E as _ <-.
    by apply disciplined_snoc.
Qed.

#[local] Instance hist_ok_invariant : MachineInvariant hist_ok.
Proof.
  split; intros; try (apply reopen_keeps_discipline; done); apply quiet_keeps.
  - by apply quiet_emit.
  - apply quiet_TransTo.
  - unfold TransToCommandState, SetCommandState. hush. apply quiet_TransTo.
  - unfold CommandState_CloseTrace, Base_CloseTrace, call_or, call, TransToCloseState, SetCommandState.
    hush; apply quiet_TransTo.
  - unfold TraceDropOn, call_or, call, TransToCommandDropState. hush; apply quiet_TransTo.
  - hush.
  - unfold CloseVersionBeta. hush.
  - hush.
  - unfold SetCacheParams. hush.
  - apply quiet_under_policy. intros t. rewrite !elem_of_cons in H.
    destruct H as [->|[->|[->|H]]]; [apply quiet_TraceOn|apply quiet_TraceOff|apply quiet_TimeOut|].
    by apply not_elem_of_nil in H.
  - apply quiet_under_policy. intros t. apply quiet_PostOn.
  - apply quiet_under_policy. intros t. unfold IsTraceOn. hush. apply quiet_TraceOn.
  - apply quiet_under_policy. intros t. unfold IsTraceOn. hush. apply quiet_TraceOff.
  - unfold RegisterTelemetryCallback. hush.
  - unfold InitTelemetryStatus, TransToTraceOnState, TransToInitState, put_inner, call. hush.
Qed.

(** C37: in every machine any sequence of calls can reach, whatever hitrace
    answers, each [Hitrace::OpenTrace] was issued right after a
    [Hitrace::CloseTrace] that succeeded: no scenario is ever opened on top of
    another. *)
Theorem hitrace_calls_disciplined allowed m :
  reachable hitrace clock developerMode allowed m → disciplined (hist m).
Proof. apply (reachable_inv hist_ok). intros [] a post; done. Qed.

End Machine.

(** ** The command flag and the switches *)

Definition commanding (s : State) : bool :=
  match s with CommandState | CommandDropState => true | _ => false end.

(** The switches fit their byte; while a command scenario is active, the command
    flag is set. *)
Definition flags_ok (m : Machine) : Prop :=
  is_u 8 (traceSwitchState_ m) ∧ (commanding (currentState_ m) = true → isCommandState_ m = true).

Section Flags.
Context (hitrace : list effect → effect → TraceErrorCode).
Context (clock : list effect → Z) (developerMode : bool).

(** Two machines with the same flags and the same kind of state. *)
Definition same_flags (m m' : Machine) : Prop :=
  traceSwitchState_ m' = traceSwitchState_ m ∧ isCommandState_ m' = isCommandState_ m ∧
  commanding (currentState_ m') = commanding (currentState_ m).

Lemma same_flags_ok m m' : same_flags m m' → flags_ok m → flags_ok m'.
Proof. intros (H1 & H2 & H3) Hm. unfold flags_ok. by rewrite H1, H2, H3. Qed.

Definition neutral {A} (c : M A) : Prop := ∀ m a m', c m = Some (a, m') → same_flags m m'.

Lemma neutral_keeps {A} (c : M A) : neutral c → keeps flags_ok c.
Proof. intros Hc m a m' Hm E. eapply same_flags_ok; [by eapply Hc|done]. Qed.

Lemma neutral_ret {A} (a : A) : neutral (mret a).
Proof. by intros m b m' [= <- <-]. Qed.
Lemma neutral_gets {A} (f : Machine → A) : neutral (gets f).
Proof. by intros m b m' [= <- <-]. Qed.
Lemma neutral_modify f : (∀ m, same_flags m (f m)) → neutral (modify f).
Proof. intros Hf m b m' [= <- <-]. apply Hf. Qed.
Lemma neutral_bind {A B} (c : M A) (k : A → M B) :
  neutral c → (∀ a, neutral (k a)) → neutral (c ≫= k).
Proof.
  intros Hc Hk m b m' E. unfold mbind, M_bind in E. destruct (c m) as [[a m1]|] eqn:E1; [|done].
  destruct (Hc _ _ _ E1) as (?&?&?), (Hk _ _ _ _ E) as (?&?&?). split_and!; congruence.
Qed.
Lemma neutral_when (b : bool) c : neutral c → neutral (when b c).
Proof. destruct b; [done|]. intros _. apply neutral_ret. Qed.

Ltac still :=
  repeat (cbv beta zeta; match goal with
  | |- neutral (mret _) => apply neutral_ret
  | |- neutral crash => intros ? ? ? [=]
  | |- neutral (gets _) => apply neutral_gets
  | |- neutral (emit _) => apply neutral_modify; done
  | |- neutral (modify _) =>
      apply neutral_modify; intros [[]]; (done || (cbn; by case_match))
  | |- neutral (_ ≫= _) => apply neutral_bind; [|intros ?]
  | |- neutral (when _ _) => apply neutral_when
  | |- neutral (if ?b then _ else _) => destruct b eqn:?
  | |- neutral (match ?x with _ => _ end) => destruct x eqn:?
  end).

Lemma neutral_TraceOn t : neutral (Telemetry_TraceOn hitrace t).
Proof. unfold Telemetry_TraceOn, dispatch, InitState_TraceOn, TraceOnState_TraceOn, TransToTraceOnState, call. still. Qed.
Lemma neutral_TraceOff t : neutral (Telemetry_TraceOff hitrace t).
Proof. unfold Telemetry_TraceOff, dispatch, InitState_TraceOff, TraceOnState_TraceOff, TransToInitState, call. still. Qed.
Lemma neutral_TimeOut t : neutral (Telemetry_TimeOut hitrace clock t).
Proof. unfold Telemetry_TimeOut, dispatch, InitState_TimeOut, TraceOnState_TimeOut, TransToInitState, read_clock, call. still. Qed.
Lemma neutral_PostOn t time : neutral (Telemetry_PostOn hitrace clock t time).
Proof. unfold Telemetry_PostOn, dispatch, InitState_PostOn, TraceOnState_PostOn, TransToTraceOnState, read_clock, call. still. Qed.

Lemma neutral_under_policy p f : (∀ t, neutral (f t)) → neutral (under_policy p f).
Proof. intros Hf. unfold under_policy, put_inner. still; try apply Hf. Qed.

Lemma call_or_flags e k : keeps flags_ok k → keeps flags_ok (call_or hitrace e k).
Proof. intros Hk. unfold call_or, call. keep. by apply keeps_modify. Qed.

Lemma trans_flags s : fresh_state s → keeps flags_ok (TransTo s).
Proof.
  intros Hs. unfold TransTo. keep; [|by apply keeps_modify].
  apply keeps_modify. intros m [Hm _]. split; [done|]. cbn. by destruct s.
Qed.

Lemma IsSuccess_code c : IsSuccess (code_ret c) = bool_decide (c = SUCCESS).
Proof. done. Qed.

(** Symbolic execution of a short computation. *)
Ltac symbolic E :=
  unfold TransToCommandState, TransToCommandDropState, TransToCloseState, TransTo, SetCommandState,
    call_or, call, emit, when, gets, modify, mbind, M_bind, mret, M_ret in E; cbn in E;
  repeat (case_match; simplify_eq; try (cbn in E)).

#[local] Instance flags_ok_invariant : MachineInvariant hitrace clock flags_ok.
Proof.
  split; intros.
  - by apply keeps_modify.
  - by repeat apply call_or_flags.
  - by apply trans_flags.
  - intros m r m' [Hs _] E. unfold flags_ok. symbolic E; by split.
  - unfold CommandState_CloseTrace, Base_CloseTrace. intros m r m' [Hs Hc] E.
    unfold flags_ok. symbolic E; cbn; try done; split; try done; intros Hx;
      first [ rewrite IsSuccess_code in *; congruence
            | match goal with Hx : commanding (currentState_ ?x) = true |- _ =>
                by destruct (currentState_ x) end ].
  - unfold TraceDropOn. intros m r m' [Hs Hc] E. unfold flags_ok.
    symbolic E; split; try done; cbn; intros; apply Hc; congruence.
  - apply keeps_modify. intros m [Hs Hc]. split; [by apply is_u_mod|done].
  - apply keeps_modify. intros m [Hs Hc]. split; [by apply is_u_mod|done].
  - by apply keeps_modify.
  - by apply keeps_modify.
  - apply neutral_keeps, neutral_under_policy. intros t. rewrite !elem_of_cons in H.
    destruct H as [->|[->|[->|H]]]; [apply neutral_TraceOn|apply neutral_TraceOff
      |apply neutral_TimeOut|]. by apply not_elem_of_nil in H.
  - apply neutral_keeps, neutral_under_policy. intros t. apply neutral_PostOn.
  - apply neutral_keeps, neutral_under_policy. intros t. unfold IsTraceOn. still.
    apply neutral_TraceOn.
  - apply neutral_keeps, neutral_under_policy. intros t. unfold IsTraceOn. still.
    apply neutral_TraceOff.
  - unfold RegisterTelemetryCallback. apply neutral_keeps. intros m r m' E. unfold same_flags.
    symbolic E; cbn; split_and!; try done;
      match goal with H : currentState_ _ = _ |- _ => by rewrite H end.
  - unfold InitTelemetryStatus, TransToTraceOnState, TransToInitState, put_inner, call.
    apply neutral_keeps. still.
Qed.

(** In every reachable machine the switch byte stays a byte, and the command
    flag is set whenever a command scenario is active. *)
Theorem command_flag_set allowed m :
  reachable hitrace clock developerMode allowed m → flags_ok m.
Proof. apply (reachable_inv hitrace clock developerMode flags_ok). by split. Qed.

End Flags.
