(* ===== verification/TraceClaims.v ===== *)
(** * TraceClaims: the behaviour of the trace state machine

    Which scenario may take the trace, what the switches restore, how telemetry
    requests are counted, and when the machine is safe from a missing inner
    state. *)

From S2P Require Import Prelude TraceManager TraceFacts.
From stdpp Require Import base list numbers strings.
Import Trace.

Local Open Scope Z_scope.

(** The scenarios that can be opened, each with its level. *)
Definition scenario_ok (s : Scenario) : Prop :=
  name s ∈ [COMMAND; COMMON_BETA; COMMON_DROP; TELEMETRY; APP_SYSTEM; APP_DYNAMIC] ∧
  level s = ScenarioLevel (name s).

Definition add_hist (m : Machine) (l : list effect) : Machine :=
  mkMachine (currentState_ m) (cacheSizeLimit_ m) (cacheSliceSpan_ m) (traceSwitchState_ m)
    (isCommandState_ m) (isCachSwitchOn_ m) (hist m ++ l).

(** Symbolic execution of the goal's computation. *)
Ltac exec :=
  unfold State_OpenTrace, Base_CloseTrace, CommandState_CloseTrace, CommandDropState_CloseTrace,
    CommonState_CloseTrace, CloseVersionBeta, TransToCommandState, TransToCommandDropState,
    TransToCommonDropState, TransToCommonState, TransToTelemetryState, TransToAppSystemState,
    TransToDynamicState, TransToCloseState, TransTo, SetCommandState, read_clock, call_or, call, emit,
    when, gets, modify, mbind, M_bind, mret, M_ret; cbn.

Section Priority.
Context (hitrace : list effect → effect → TraceErrorCode).
Context (clock : list effect → Z) (developerMode : bool).

Lemma mbind_some {A B} (c : M A) (k : A → M B) m a m' :
  c m = Some (a, m') → (c ≫= k) m = k a m'.
Proof. intros E. unfold mbind, M_bind. by rewrite E. Qed.

Lemma call_or_cases e k m :
  call_or hitrace e k m =
    if bool_decide (hitrace (hist m) e = SUCCESS) then k (add_hist m [e])
    else Some (code_ret (hitrace (hist m) e), add_hist m [e]).
Proof. exec. by case_bool_decide. Qed.

(** [c] only moves the machine to state [s] and adds to its history. *)
Definition goes_to (c : M unit) (s : Machine → State) (flag : bool) : Prop :=
  ∀ m, ∃ l, c m = Some (tt, add_hist (set_current (s m)
    (if flag then set_command true m else m)) l).

Lemma goes_TransTo s : goes_to (TransTo s) (λ _, s) false.
Proof.
  intros m. exec.
  destruct (match currentState_ m with TelemetryState _ true _ => true | _ => false end).
  - by exists [OnTelemetryFinish].
  - exists []. unfold add_hist. rewrite app_nil_r. by destruct m.
Qed.

Lemma goes_command : goes_to TransToCommandState (λ _, CommandState) true.
Proof.
  intros m. unfold TransToCommandState, SetCommandState.
  rewrite (mbind_some _ _ m tt (set_command true m)) by done. apply goes_TransTo.
Qed.

Lemma goes_common :
  goes_to (TransToCommonState hitrace) (λ m, CommonState (cacheSizeLimit_ m) (cacheSliceSpan_ m)) false.
Proof.
  intros m. unfold TransToCommonState. rewrite (mbind_some _ _ m m m) by done.
  destruct (isCachSwitchOn_ m) eqn:Hc; cbn [when].
  - rewrite (mbind_some _ _ m tt (add_hist m [HCacheTraceOn (cacheSizeLimit_ m) (cacheSliceSpan_ m)]))
      by done.
    destruct (goes_TransTo (CommonState (cacheSizeLimit_ m) (cacheSliceSpan_ m))
      (add_hist m [HCacheTraceOn (cacheSizeLimit_ m) (cacheSliceSpan_ m)])) as [l ->].
    eexists. unfold add_hist; cbn. by rewrite <- app_assoc.
  - rewrite (mbind_some _ _ m tt m) by done. apply goes_TransTo.
Qed.

Lemma goes_dynamic pid :
  ∀ m, ∃ l, TransToDynamicState clock pid m =
    Some (tt, add_hist (set_current (DynamicState pid (clock (hist m))) m) l).
Proof.
  intros m. unfold TransToDynamicState.
  rewrite (mbind_some _ _ m (clock (hist m)) (add_hist m [HClock])) by done.
  destruct (goes_TransTo (DynamicState pid (clock (hist m))) (add_hist m [HClock])) as [l ->].
  eexists. unfold add_hist; cbn. by rewrite <- app_assoc.
Qed.

(** The state object of a scenario. *)
Definition scenario_state (s : Scenario) (m : Machine) (st : State) : Prop :=
  match name s with
  | COMMAND => st = CommandState
  | COMMON_BETA => st = CommonState (cacheSizeLimit_ m) (cacheSliceSpan_ m)
  | COMMON_DROP => st = CommonDropState
  | TELEMETRY => st = TelemetryState (tracePolicy s) false None
  | APP_SYSTEM => st = AppSystemState (appPid (args s))
  | APP_DYNAMIC => st = DynamicState (appPid (args s)) (clock (hist m))
  | _ => False
  end.

(** Moving to the scenario's state; only the recording of a drop can fail. *)
Lemma EnterScenario_cases s m :
  scenario_ok s →
  ∃ r m', EnterScenario hitrace clock s m = Some (r, m') ∧
    traceSwitchState_ m' = traceSwitchState_ m ∧
    ((r = ok ∧ scenario_state s m (currentState_ m') ∧
      isCommandState_ m' = (bool_decide (name s = COMMAND) || isCommandState_ m)) ∨
     (name s = COMMON_DROP ∧ hitrace (hist m) (HRecordTraceOn (outputPath s)) ≠ SUCCESS ∧
      r = code_ret (hitrace (hist m) (HRecordTraceOn (outputPath s))) ∧
      currentState_ m' = currentState_ m)).
Proof.
  intros [Hn _]. destruct s as [n l a p o]. cbn [name] in Hn. unfold scenario_state. cbn [name args].
  rewrite !elem_of_cons in Hn.
  destruct Hn as [->|[->|[->|[->|[->|[->|Hn]]]]]]; [..|by apply not_elem_of_nil in Hn].
  - destruct (goes_command m) as [h E]. eexists _, _. split; [|split; [|left; split_and!]];
      [unfold EnterScenario; cbn [name]; exact (mbind_some _ _ _ _ _ E)|done..].
  - destruct (goes_common m) as [h E]. eexists _, _. split; [|split; [|left; split_and!]];
      [unfold EnterScenario; cbn [name]; exact (mbind_some _ _ _ _ _ E)|done..].
  - destruct (decide (hitrace (hist m) (HRecordTraceOn o) = SUCCESS)) as [Hs|Hs].
    + destruct (goes_TransTo CommonDropState (add_hist m [HRecordTraceOn o])) as [h E].
      eexists _, _. split; [|split; [|left; split_and!]];
        [transitivity (call_or hitrace (HRecordTraceOn o) (TransToCommonDropState;; mret ok) m);
           [reflexivity|]; rewrite call_or_cases, bool_decide_true by done;
           exact (mbind_some _ _ _ _ _ E)|done..].
    + eexists _, _. split; [|split; [|right; split_and!]];
        [transitivity (call_or hitrace (HRecordTraceOn o) (TransToCommonDropState;; mret ok) m);
           [reflexivity|]; by rewrite call_or_cases, bool_decide_false|done..].
  - destruct (goes_TransTo (TelemetryState p false None) m) as [h E].
    eexists _, _. split; [|split; [|left; split_and!]];
      [unfold EnterScenario; cbn [name]; exact (mbind_some _ _ _ _ _ E)|done..].
  - destruct (goes_TransTo (AppSystemState (appPid a)) m) as [h E].
    eexists _, _. split; [|split; [|left; split_and!]];
      [unfold EnterScenario; cbn [name]; exact (mbind_some _ _ _ _ _ E)|done..].
  - destruct (goes_dynamic (appPid a) m) as [h E].
    eexists _, _. split; [|split; [|left; split_and!]];
      [unfold EnterScenario; cbn [name]; exact (mbind_some _ _ _ _ _ E)|done..].
Qed.

(** a scenario takes the trace only from a scenario of lower level.  At an
    equal or higher level the request is denied without any effect; otherwise
    the machine ends in the state of that scenario if hitrace accepted, and in
    the state it was in if hitrace refused. *)
Theorem open_trace_priority s m :
  scenario_ok s →
  if level s <=? GetStateLevel (currentState_ m)
  then OpenTrace hitrace clock s m = Some (state_ret DENY, m)
  else ∃ r m', OpenTrace hitrace clock s m = Some (r, m') ∧
    (IsSuccess r = true → GetStateScenario (currentState_ m') = name s ∧
                          GetStateLevel (currentState_ m') = level s) ∧
    (IsSuccess r = false → currentState_ m' = currentState_ m).
Proof.
  intros Hs. unfold OpenTrace, State_OpenTrace.
  rewrite (mbind_some _ _ m (currentState_ m) m) by done.
  destruct (level s <=? GetStateLevel (currentState_ m)); [done|].
  rewrite call_or_cases. case_bool_decide as H1.
  2:{ eexists _, _. split; [done|]. rewrite IsSuccess_code, bool_decide_false by done. done. }
  rewrite call_or_cases. case_bool_decide as H2.
  2:{ eexists _, _. split; [done|]. rewrite IsSuccess_code, bool_decide_false by done. done. }
  destruct (EnterScenario_cases s (add_hist (add_hist m [HCloseTrace]) [HOpenTrace (args s)]) Hs)
    as (r & m' & E & _ & [(-> & Hst & _)|(_ & Hf & -> & Hc)]); eexists _, m'; (split; [exact E|]).
  - split; [intros _|done]. destruct Hs as [_ ->]. unfold scenario_state in Hst.
    destruct (name s); try done; by rewrite Hst.
  - rewrite IsSuccess_code, bool_decide_false by done. done.
Qed.

End Priority.

(** ** What the switches restore *)

Section Refresh.
Context (hitrace : list effect → effect → TraceErrorCode).
Context (clock : list effect → Z) (developerMode : bool).
Hypothesis hitrace_success : ∀ h e, hitrace h e = SUCCESS.

(** The scenario after [RefreshState]: a common scenario is closed first; then
    the recording switch asks for [COMMON_DROP], any other switch for
    [COMMON_BETA], and each is granted over a lower level only. *)
Definition refreshed (sw : Z) (current : ScenarioName) : ScenarioName :=
  let base := if bool_decide (current = COMMON_BETA) || bool_decide (current = COMMON_DROP)
              then CLOSE else current in
  if sw =? 0 then base else
  let wanted := if Z.land sw 1 =? 1 then COMMON_DROP else COMMON_BETA in
  if ScenarioLevel wanted <=? ScenarioLevel base then base else wanted.

Lemma call_or_success e k m : call_or hitrace e k m = k (add_hist m [e]).
Proof. by rewrite call_or_cases, bool_decide_true. Qed.

Lemma level_of_state st : GetStateLevel st = ScenarioLevel (GetStateScenario st).
Proof. by destruct st. Qed.

(** Opening a common scenario when hitrace accepts everything. *)
Lemma open_success s m :
  scenario_ok s →
  ∃ r m', State_OpenTrace hitrace clock s m = Some (r, m') ∧
    GetStateScenario (currentState_ m') =
      if ScenarioLevel (name s) <=? ScenarioLevel (GetStateScenario (currentState_ m))
      then GetStateScenario (currentState_ m) else name s.
Proof.
  intros Hs. unfold State_OpenTrace. rewrite (mbind_some _ _ m (currentState_ m) m) by done.
  rewrite level_of_state, (proj2 Hs).
  destruct (ScenarioLevel (name s) <=? _); [by eexists _, _|].
  rewrite !call_or_success.
  destruct (EnterScenario_cases hitrace clock s (add_hist (add_hist m [HCloseTrace])
    [HOpenTrace (args s)]) Hs) as (r & m' & E & _ & [(-> & Hst & _)|(_ & Hf & _)]); [|by destruct Hf].
  eexists _, m'. split; [exact E|]. unfold scenario_state in Hst.
  destruct (name s); try done; by rewrite Hst.
Qed.

(** Closing the common scenario that is active. *)
Lemma close_common m :
  GetStateScenario (currentState_ m) ∈ [COMMON_BETA; COMMON_DROP] →
  ∃ l, State_CloseTrace hitrace (GetStateScenario (currentState_ m)) m =
    Some (ok, add_hist (set_current CloseState m) l).
Proof.
  intros Hc. destruct (goes_TransTo CloseState (add_hist m [HCloseTrace])) as [l E].
  exists ([HCloseTrace] ++ l). destruct m as [st sz sp sw cm ch h]. cbn [currentState_] in *.
  destruct st; cbn [GetStateScenario] in *;
    try (exfalso; rewrite !elem_of_cons in Hc; destruct Hc as [?|[?|Hc]]; [done..|];
         by apply not_elem_of_nil in Hc);
    (etrans; [apply (eq_refl (call_or hitrace HCloseTrace (TransToCloseState;; mret ok) _))|]);
    rewrite call_or_success; (etrans; [exact (mbind_some _ _ _ _ _ E)|]); unfold add_hist; cbn;
    by rewrite <- app_assoc.
Qed.

(** while hitrace accepts every call, refreshing leads to the scenario the
    switches ask for: the recording switch gives [COMMON_DROP], any other
    [COMMON_BETA], no switch closes the common scenarios; a command scenario is
    never displaced and telemetry or app tracing gives way to a common one. *)
Theorem refresh_follows_switches m :
  ∃ r m', RefreshState hitrace clock developerMode m = Some (r, m') ∧
    GetStateScenario (currentState_ m') =
      refreshed (traceSwitchState_ m) (GetStateScenario (currentState_ m)).
Proof.
  unfold RefreshState, refreshed. rewrite (mbind_some _ _ m (currentState_ m) m) by done.
  cbv zeta. set (n := GetStateScenario (currentState_ m)).
  assert (∃ m1, when (bool_decide (n = COMMON_BETA) || bool_decide (n = COMMON_DROP))
      (_ ← State_CloseTrace hitrace n; mret tt) m = Some (tt, m1) ∧
    traceSwitchState_ m1 = traceSwitchState_ m ∧
    GetStateScenario (currentState_ m1) =
      if bool_decide (n = COMMON_BETA) || bool_decide (n = COMMON_DROP) then CLOSE else n)
    as (m1 & E1 & Hsw & Hn1).
  { destruct (bool_decide (n = COMMON_BETA) || bool_decide (n = COMMON_DROP)) eqn:Hb.
    - destruct (close_common m) as [l E].
      { apply orb_true_iff in Hb as [Hb|Hb]; apply bool_decide_eq_true in Hb;
          fold n; rewrite Hb; by apply (bool_decide_unpack _). }
      eexists. split; [exact (mbind_some _ _ _ _ _ E)|done].
    - by exists m. }
  rewrite (mbind_some _ _ _ _ _ E1), (mbind_some _ _ m1 (traceSwitchState_ m) m1)
    by (unfold gets; by rewrite Hsw).
  rewrite <- Hn1. destruct (traceSwitchState_ m =? 0); [by eexists _, m1|].
  destruct (Z.land (traceSwitchState_ m) 1 =? 1).
  - destruct (open_success SCENARIO_COMMON_DROP_INFO m1) as (r & m' & E & Hr);
      [by split; [apply (bool_decide_unpack _)|]|]. by exists r, m'.
  - destruct developerMode.
    + destruct (open_success SCENARIO_COMMON_INFO m1) as (r & m' & E & Hr);
        [by split; [apply (bool_decide_unpack _)|]|]. by exists r, m'.
    + destruct (open_success SCENARIO_COMMON_SCHEDLT_INFO m1) as (r & m' & E & Hr);
        [by split; [apply (bool_decide_unpack _)|]|]. by exists r, m'.
Qed.

End Refresh.

(** ** Telemetry requests *)

(** [c] run [n] times. *)
Fixpoint times (n : nat) (c : M TraceRet) : M unit :=
  match n with O => mret tt | S n => c;; times n c end.

(** A machine whose current state is manual telemetry with this inner machine. *)
Definition telemetry_at (m : Machine) (scb : bool) (cur : TState) (count post : Z) (cb : bool)
    : Machine :=
  set_current (TelemetryState MANUAL scb (Some (mkTelemetry (Some cur) count post cb))) m.

Definition notify (cb : bool) (e : effect) : list effect := if cb then [e] else [].

Section TelemetrySteps.
Context (hitrace : list effect → effect → TraceErrorCode).
Context (clock : list effect → Z).
Context (scb cb : bool).

(** A request under the manual policy, by what the inner machine does. *)
Lemma manual_run f m cur c p r t' l :
  f (mkTelemetry (Some cur) c p cb) (telemetry_at m scb cur c p cb) =
    Some ((r, t'), add_hist (telemetry_at m scb cur c p cb) l) →
  under_policy MANUAL f (telemetry_at m scb cur c p cb) =
    Some (r, set_current (TelemetryState MANUAL scb (Some t')) (add_hist m l)).
Proof.
  intros E. unfold under_policy.
  rewrite (mbind_some _ _ (telemetry_at m scb cur c p cb)
    (TelemetryState MANUAL scb (Some (mkTelemetry (Some cur) c p cb)))
    (telemetry_at m scb cur c p cb)) by done.
  cbv beta iota. rewrite bool_decide_false by auto. by rewrite (mbind_some _ _ _ _ _ E).
Qed.

Lemma no_hist m : add_hist m [] = m.
Proof. unfold add_hist. rewrite app_nil_r. by destruct m. Qed.

Lemma on_again m c p :
  TraceTelemetryOn hitrace (telemetry_at m scb TraceOnState c p cb) =
    Some (ok, telemetry_at m scb TraceOnState (u32 (c + 1)) p cb).
Proof.
  rewrite <- (no_hist m) at 2. apply manual_run. by rewrite no_hist.
Qed.

Lemma off_counted m c :
  1 < c → TraceTelemetryOff hitrace (telemetry_at m scb TraceOnState c 0 cb) =
    Some (state_ret NO_TRIGGER, telemetry_at m scb TraceOnState (c - 1) 0 cb).
Proof.
  intros Hc. rewrite <- (no_hist m) at 2. apply manual_run. rewrite no_hist.
  unfold Telemetry_TraceOff, dispatch, InitState_TraceOff, TraceOnState_TraceOff. cbn. by rewrite gtb_true.
Qed.

Lemma off_pending m p :
  0 < p → TraceTelemetryOff hitrace (telemetry_at m scb TraceOnState 1 p cb) =
    Some (state_ret NO_TRIGGER, telemetry_at m scb TraceOnState 1 p cb).
Proof.
  intros Hp. rewrite <- (no_hist m) at 2. apply manual_run. rewrite no_hist.
  unfold Telemetry_TraceOff, dispatch, InitState_TraceOff, TraceOnState_TraceOff. cbn. by rewrite gtb_true.
Qed.

Lemma timeout_counted m c p :
  0 < c → p <= clock (hist m) →
  PostTelemetryTimeOut hitrace clock (telemetry_at m scb TraceOnState c p cb) =
    Some (state_ret NO_TRIGGER, telemetry_at (add_hist m [HClock]) scb TraceOnState c 0 cb).
Proof.
  intros Hc Hp. apply manual_run. unfold Telemetry_TimeOut, dispatch, InitState_TimeOut, TraceOnState_TimeOut. exec.
  destruct (Z.ltb_spec (clock (hist m)) p); [lia|]. by rewrite gtb_true.
Qed.

(** A [TraceTelemetryOff] that arrives while a timed request is pending is
    lost: with one request counted, neither it nor the later time-out switches
    the trace off. *)
Theorem telemetry_off_lost m p :
  0 < p → p <= clock (hist m) →
  (TraceTelemetryOff hitrace;; PostTelemetryTimeOut hitrace clock)
    (telemetry_at m scb TraceOnState 1 p cb) =
  Some (state_ret NO_TRIGGER, telemetry_at (add_hist m [HClock]) scb TraceOnState 1 0 cb).
Proof.
  intros Hp Hc. rewrite (mbind_some _ _ _ _ _ (off_pending m p Hp)). by apply timeout_counted.
Qed.

Hypothesis hitrace_success : ∀ h e, hitrace h e = SUCCESS.

(** The hitrace call succeeded: finish, with and without a callback. *)
Ltac accepted :=
  rewrite hitrace_success, bool_decide_true by done; cbn; change (IsSuccess ok) with true; cbn;
  unfold add_hist, notify; destruct cb; cbn; by rewrite <- ?app_assoc.

Lemma on_first m c p :
  TraceTelemetryOn hitrace (telemetry_at m scb InitState c p cb) =
    Some (ok, telemetry_at (add_hist m (HSetTraceStatus true :: notify cb OnTelemetryTraceOn))
                scb TraceOnState 1 0 cb).
Proof.
  apply manual_run. unfold Telemetry_TraceOn, dispatch, InitState_TraceOn, TraceOnState_TraceOn, TransToTraceOnState. exec.
  accepted.
Qed.

Lemma off_last m :
  TraceTelemetryOff hitrace (telemetry_at m scb TraceOnState 1 0 cb) =
    Some (ok, telemetry_at (add_hist m (HSetTraceStatus false :: notify cb OnTelemetryTraceOff))
                scb InitState 1 0 cb).
Proof.
  apply manual_run. unfold Telemetry_TraceOff, dispatch, InitState_TraceOff, TraceOnState_TraceOff, TransToInitState. exec.
  accepted.
Qed.

Lemma ons_count k m c :
  0 <= c → c + Z.of_nat k < 2 ^ 32 →
  times k (TraceTelemetryOn hitrace) (telemetry_at m scb TraceOnState c 0 cb) =
    Some (tt, telemetry_at m scb TraceOnState (c + Z.of_nat k) 0 cb).
Proof.
  revert c. induction k as [|k IH]; intros c Hc Hk; [by rewrite Z.add_0_r|].
  cbn [times]. rewrite (mbind_some _ _ _ _ _ (on_again m c 0)), u32_small by (split; lia).
  rewrite IH by lia. do 3 f_equal. lia.
Qed.

Lemma offs_count k m :
  times (S k) (TraceTelemetryOff hitrace) (telemetry_at m scb TraceOnState (Z.of_nat (S k)) 0 cb) =
    Some (tt, telemetry_at (add_hist m (HSetTraceStatus false :: notify cb OnTelemetryTraceOff))
                scb InitState 1 0 cb).
Proof.
  induction k as [|k IH].
  - cbn [times]. exact (mbind_some _ _ _ _ _ (off_last m)).
  - cbn [times] in *. rewrite (mbind_some _ _ _ _ _ (off_counted m (Z.of_nat (S (S k))) ltac:(lia))).
    rewrite <- IH. do 2 f_equal. lia.
Qed.

(** telemetry requests are counted.  From off, [n] requests on and [n] off
    leave telemetry off again; hitrace is switched on once by the first and off
    once by the last, and the callback hears exactly one start and one stop. *)
Theorem telemetry_requests_balanced n m c p :
  (0 < n)%nat → Z.of_nat n < 2 ^ 32 →
  (times n (TraceTelemetryOn hitrace);; times n (TraceTelemetryOff hitrace))
    (telemetry_at m scb InitState c p cb) =
  Some (tt, telemetry_at (add_hist m
    (HSetTraceStatus true :: notify cb OnTelemetryTraceOn ++
     HSetTraceStatus false :: notify cb OnTelemetryTraceOff)) scb InitState 1 0 cb).
Proof.
  intros Hn Hlt. destruct n as [|n]; [lia|].
  set (m1 := add_hist m (HSetTraceStatus true :: notify cb OnTelemetryTraceOn)).
  assert (times (S n) (TraceTelemetryOn hitrace) (telemetry_at m scb InitState c p cb) =
    Some (tt, telemetry_at m1 scb TraceOnState (Z.of_nat (S n)) 0 cb)) as E.
  { cbn [times]. rewrite (mbind_some _ _ _ _ _ (on_first m c p)). fold m1.
    rewrite ons_count by lia. do 3 f_equal. lia. }
  rewrite (mbind_some _ _ _ _ _ E), offs_count. unfold m1, add_hist. cbn.
  by rewrite <- app_assoc.
Qed.

Lemma post_first m c p time :
  is_u 64 (clock (hist m) + time) →
  PostTelemetryOn hitrace clock time (telemetry_at m scb InitState c p cb) =
    Some (state_ret UPDATE_TIME, telemetry_at (add_hist m (HClock :: HSetTraceStatus true ::
      notify cb OnTelemetryTraceOn)) scb TraceOnState 0 (clock (hist m) + time) cb).
Proof.
  intros Hu. unfold PostTelemetryOn. apply manual_run. unfold Telemetry_PostOn, dispatch, InitState_PostOn, TraceOnState_PostOn, TransToTraceOnState.
  exec. rewrite u64_small by done. accepted.
Qed.

Lemma timeout_early m c p :
  clock (hist m) < p →
  PostTelemetryTimeOut hitrace clock (telemetry_at m scb TraceOnState c p cb) =
    Some (state_ret NO_TRIGGER, telemetry_at (add_hist m [HClock]) scb TraceOnState c p cb).
Proof.
  intros Hp. apply manual_run. unfold Telemetry_TimeOut, dispatch, InitState_TimeOut, TraceOnState_TimeOut. exec.
  by destruct (Z.ltb_spec (clock (hist m)) p); [|lia].
Qed.

Lemma timeout_last m p :
  p <= clock (hist m) →
  PostTelemetryTimeOut hitrace clock (telemetry_at m scb TraceOnState 0 p cb) =
    Some (ok, telemetry_at (add_hist m (HClock :: HSetTraceStatus false ::
      notify cb OnTelemetryTraceOff)) scb InitState 0 0 cb).
Proof.
  intros Hp. apply manual_run. unfold Telemetry_TimeOut, dispatch, InitState_TimeOut, TraceOnState_TimeOut, TransToInitState. exec.
  destruct (Z.ltb_spec (clock (hist m)) p); [lia|]. accepted.
Qed.

(** a timed request alone keeps telemetry on until its end time: a time-out
    before it changes nothing, one at or after it switches telemetry off. *)
Theorem telemetry_post_times_out m c p time :
  let m1 := add_hist m (HClock :: HSetTraceStatus true :: notify cb OnTelemetryTraceOn) in
  let postEndTime := clock (hist m) + time in
  is_u 64 postEndTime →
  (PostTelemetryOn hitrace clock time;; PostTelemetryTimeOut hitrace clock)
    (telemetry_at m scb InitState c p cb) =
  if clock (hist m1) <? postEndTime
  then Some (state_ret NO_TRIGGER,
             telemetry_at (add_hist m1 [HClock]) scb TraceOnState 0 postEndTime cb)
  else Some (ok, telemetry_at (add_hist m1 (HClock :: HSetTraceStatus false ::
                   notify cb OnTelemetryTraceOff)) scb InitState 0 0 cb).
Proof.
  intros m1 pe Hu. rewrite (mbind_some _ _ _ _ _ (post_first m c p time Hu)). fold m1 pe.
  destruct (Z.ltb_spec (clock (hist m1)) pe).
  - by apply timeout_early.
  - by apply timeout_last.
Qed.

End TelemetrySteps.

(** ** Null pointers *)

(** The inner machine of a telemetry state, once created, has a current state. *)
Definition inner_ok (t : Telemetry) : Prop := tcur t ≠ None.
Definition state_ok (s : State) : Prop :=
  match s with TelemetryState _ _ (Some t) => inner_ok t | _ => True end.

Section NoCrash.
Context (hitrace : list effect → effect → TraceErrorCode).
Context (clock : list effect → Z) (developerMode : bool).

(** From a machine without null states, [c] returns a value satisfying [Q] and
    leaves no null state. *)
Definition safe {A} (Q : A → Prop) (c : M A) : Prop :=
  ∀ m, state_ok (currentState_ m) → ∃ a m', c m = Some (a, m') ∧ Q a ∧ state_ok (currentState_ m').

Definition any {A} (_ : A) : Prop := True.

Lemma safe_ret {A} (Q : A → Prop) a : Q a → safe Q (mret a).
Proof. intros HQ m Hm. by exists a, m. Qed.

Lemma safe_bind {A B} (P : A → Prop) (Q : B → Prop) (c : M A) (k : A → M B) :
  safe P c → (∀ a, P a → safe Q (k a)) → safe Q (c ≫= k).
Proof.
  intros Hc Hk m Hm. destruct (Hc m Hm) as (a & m1 & E & Ha & H1). rewrite (mbind_some _ _ _ _ _ E).
  by apply Hk.
Qed.

Lemma safe_gets {A} (f : Machine → A) : safe any (gets f).
Proof. intros m Hm. by exists (f m), m. Qed.

Lemma safe_current : safe state_ok (gets currentState_).
Proof. intros m Hm. by exists (currentState_ m), m. Qed.

Lemma safe_modify f :
  (∀ m, state_ok (currentState_ m) → state_ok (currentState_ (f m))) → safe any (modify f).
Proof. intros Hf m Hm. exists tt, (f m). split_and!; [done..|auto]. Qed.

Lemma safe_when (b : bool) c : safe any c → safe any (when b c).
Proof. destruct b; [done|]. intros _. by apply safe_ret. Qed.

Lemma safe_put t : inner_ok t → safe any (put_inner t).
Proof.
  intros Ht. apply safe_modify. intros m Hm. destruct (currentState_ m) eqn:E; cbn; by rewrite ?E.
Qed.

(** Walk through a computation; what is read from the machine is well formed. *)
Ltac walk :=
  repeat (cbv beta zeta; match goal with
  | |- safe _ (mret _) => apply safe_ret; try done
  | |- safe any (gets _) => apply safe_gets
  | |- safe any (emit _) => by apply safe_modify
  | |- safe any (put_inner _) => apply safe_put
  | |- safe any (modify (set_current _)) => apply safe_modify; intros ? ?; try done
  | |- safe any (modify _) => apply safe_modify; done
  | |- safe _ (gets currentState_ ≫= _) => apply (safe_bind state_ok); [apply safe_current|intros ? ?]
  | |- safe _ (_ ≫= _) => apply (safe_bind any); [|intros ? _]
  | |- safe _ (when _ _) => apply safe_when
  | |- safe _ (if ?b then _ else _) => destruct b eqn:?
  | |- safe _ (match ?x with _ => _ end) => destruct x eqn:?
  | |- _ => progress eauto with hv
  end).

Lemma safe_call e : safe any (call hitrace e).
Proof. unfold call. walk. Qed.

Lemma safe_TransTo s : state_ok s → safe any (TransTo s).
Proof. intros Hs. unfold TransTo. walk. Qed.

Hint Resolve safe_call : hv.
Hint Extern 1 (safe any (TransTo _)) => (apply safe_TransTo; exact I) : hv.

Lemma safe_State_OpenTrace s : safe any (State_OpenTrace hitrace clock s).
Proof.
  unfold State_OpenTrace, EnterScenario, call_or, TransToCommandState, TransToCommonState,
    TransToTelemetryState, TransToAppSystemState, TransToDynamicState, TransToCommonDropState,
    SetCommandState, read_clock. walk.
Qed.

Lemma safe_State_CloseTrace n : safe any (State_CloseTrace hitrace n).
Proof.
  unfold State_CloseTrace, CommandState_CloseTrace, CommandDropState_CloseTrace,
    CommonState_CloseTrace, CloseVersionBeta, Base_CloseTrace, call_or, SetCommandState,
    TransToCloseState. walk.
Qed.

Hint Resolve safe_State_OpenTrace safe_State_CloseTrace : hv.

Lemma safe_RefreshState : safe any (RefreshState hitrace clock developerMode).
Proof. unfold RefreshState. walk. Qed.

Hint Resolve safe_RefreshState : hv.

Lemma safe_switch f : safe any (switch hitrace clock developerMode f).
Proof. unfold switch. walk. Qed.

Hint Resolve safe_switch : hv.

(** Telemetry requests leave an inner machine with a current state. *)
Definition result_ok (x : TraceRet * Telemetry) : Prop := inner_ok x.2.

Lemma safe_to_init t : inner_ok t → safe result_ok (TransToInitState hitrace t).
Proof. intros Ht. unfold TransToInitState. walk. Qed.

Lemma safe_to_trace_on t c p : inner_ok t → safe result_ok (TransToTraceOnState hitrace t c p).
Proof. intros Ht. unfold TransToTraceOnState. walk. Qed.

(** The requests bind a transition whose result is well formed. *)
Ltac through L := apply (safe_bind result_ok); [by apply L|]; intros [] ?; walk.

Lemma safe_TraceOn t : inner_ok t → safe result_ok (Telemetry_TraceOn hitrace t).
Proof.
  intros Ht. unfold Telemetry_TraceOn, dispatch, InitState_TraceOn, TraceOnState_TraceOn. destruct (tcur t) as [[]|] eqn:E; [| |by destruct Ht].
  - through safe_to_trace_on.
  - walk.
Qed.

Lemma safe_TraceOff t : inner_ok t → safe result_ok (Telemetry_TraceOff hitrace t).
Proof.
  intros Ht. unfold Telemetry_TraceOff, dispatch, InitState_TraceOff, TraceOnState_TraceOff. destruct (tcur t) as [[]|] eqn:E; [walk| |by destruct Ht].
  destruct ((postEndTime_ t >? 0) || (traceOnCount_ t >? 1)); [|through safe_to_init].
  apply safe_ret. by destruct (traceOnCount_ t >? 1).
Qed.

Lemma safe_PostOn t time : inner_ok t → safe result_ok (Telemetry_PostOn hitrace clock t time).
Proof.
  intros Ht. unfold Telemetry_PostOn, dispatch, InitState_PostOn, TraceOnState_PostOn, read_clock. destruct (tcur t) as [[]|] eqn:E; [| |by destruct Ht].
  - apply (safe_bind any); [walk|intros now _]. through safe_to_trace_on.
  - walk.
Qed.

Lemma safe_TimeOut t : inner_ok t → safe result_ok (Telemetry_TimeOut hitrace clock t).
Proof.
  intros Ht. unfold Telemetry_TimeOut, dispatch, InitState_TimeOut, TraceOnState_TimeOut, read_clock. destruct (tcur t) as [[]|] eqn:E;
    [walk| |by destruct Ht].
  apply (safe_bind any); [walk|intros now _]. destruct (now <? postEndTime_ t); [walk|]. cbv zeta.
  destruct (traceOnCount_ _ >? 0); [walk|]. through safe_to_init.
Qed.

Lemma safe_under_policy p f :
  (∀ t, inner_ok t → safe result_ok (f t)) → safe any (under_policy p f).
Proof.
  intros Hf. unfold under_policy. apply (safe_bind state_ok); [apply safe_current|intros st Hst].
  destruct st as [| | | | |q cb [t|]| |]; try (by apply safe_ret).
  destruct (bool_decide (q ≠ p)); [by apply safe_ret|]. apply (safe_bind result_ok); [by apply Hf|].
  intros [r t'] Ht'. walk.
Qed.

Lemma safe_IsTraceOn t : inner_ok t → safe any (IsTraceOn t).
Proof. intros Ht. unfold IsTraceOn. destruct (tcur t) as [[]|] eqn:E; [walk..|by destruct Ht]. Qed.

Lemma safe_power (t : Telemetry) (on : bool → M (TraceRet * Telemetry)) :
  inner_ok t → (∀ b, safe result_ok (on b)) → safe result_ok (IsTraceOn t ≫= on).
Proof. intros Ht Hon. apply (safe_bind any); [by apply safe_IsTraceOn|auto]. Qed.

Lemma safe_DumpTraceWithFilter d t p : safe any (DumpTraceWithFilter hitrace d t p).
Proof.
  unfold DumpTraceWithFilter. apply (safe_bind state_ok); [apply safe_current|intros st Hst].
  destruct st as [| | | | |q cb [i|]| |]; try (by apply safe_ret); destruct q;
    try (by walk); (apply (safe_bind any); [by apply safe_IsTraceOn|intros [] _]; walk).
Qed.

Hypothesis status_accepted : ∀ h b, hitrace h (HSetTraceStatus b) = SUCCESS.

Lemma safe_InitTelemetryStatus on : safe any (InitTelemetryStatus hitrace on).
Proof.
  unfold InitTelemetryStatus. apply (safe_bind state_ok); [apply safe_current|intros st _].
  destruct st as [| | | | |q cb i| |]; try (by apply safe_ret).
  assert (∀ b, safe (λ r, r = SUCCESS) (call hitrace (HSetTraceStatus b))) as Hcall.
  { intros b m Hm. exec. eexists _, _. split; [done|]. by rewrite status_accepted. }
  unfold TransToTraceOnState, TransToInitState. destruct on; apply (safe_bind result_ok).
  - eapply safe_bind; [apply Hcall|]. intros r ->. by apply safe_ret.
  - intros [r t'] Ht'. walk.
  - eapply safe_bind; [apply Hcall|]. intros r ->. by apply safe_ret.
  - intros [r t'] Ht'. walk.
Qed.

Lemma safe_run c : safe any (run hitrace clock developerMode c).
Proof.
  destruct c; cbn [run]; unfold OpenTrace, CloseTrace, DumpTrace, DumpTraceAsync, State_DumpTrace,
    CommandState_DumpTrace, CommonState_DumpTrace, AppSystemState_DumpTrace, DynamicState_DumpTrace,
    dump_if, State_DumpTraceAsync, refresh_on_conflict, TraceCacheOn, TraceCacheOff, SetTraceVersionBeta,
    SetTraceSwitchUcOn, SetTraceSwitchUcOff, SetTraceSwitchFreezeOn, SetTraceSwitchFreezeOff,
    SetTraceSwitchDevOn, SetTraceSwitchDevOff, TraceTelemetryOn, TraceTelemetryOff, PostTelemetryOn,
    PostTelemetryTimeOut, PowerTelemetryOn, PowerTelemetryOff, TraceDropOn, TraceDropOff, call_or,
    TransToCommandState, TransToCommandDropState, SetCommandState, RegisterTelemetryCallback,
    SetCacheParams; try (apply safe_under_policy; intros t Ht).
  all: try first [ by apply safe_TraceOn | by apply safe_TraceOff | by apply safe_PostOn
                 | by apply safe_TimeOut ].
  all: try (apply safe_power; [done|intros []]); try (by apply safe_ret).
  all: try first [ by apply safe_TraceOn | by apply safe_TraceOff | apply safe_DumpTraceWithFilter ].
  all: walk; try apply safe_InitTelemetryStatus.
Qed.

Lemma reachable_state_ok allowed m :
  reachable hitrace clock developerMode allowed m → state_ok (currentState_ m).
Proof.
  induction 1 as [|m c r m' _ IH _ E]; [done|].
  destruct (safe_run c m IH) as (a & m1 & E' & _ & H'). congruence.
Qed.

(** when hitrace accepts every [SetTraceStatus], no call on a reachable
    machine dereferences a null state: every operation returns. *)
Theorem trace_machine_never_crashes allowed m c :
  reachable hitrace clock developerMode allowed m →
  ∃ r m', run hitrace clock developerMode c m = Some (r, m').
Proof.
  intros Hr. destruct (safe_run c m (reachable_state_ok _ _ Hr)) as (r & m' & E & _). eauto.
Qed.

End NoCrash.

(** ** Concrete runs *)

(** A hitrace that accepts everything, one that refuses a trace status, and a
    clock that reads the number of events so far. *)
Definition accepting (_ : list effect) (_ : effect) : TraceErrorCode := SUCCESS.
Definition refusing_status (_ : list effect) (e : effect) : TraceErrorCode :=
  match e with HSetTraceStatus _ => TRACE_ERROR 1 | _ => SUCCESS end.
Definition event_clock (h : list effect) : Z := Z.of_nat (length h).

Definition command_scenario : Scenario :=
  mkScenario COMMAND 5 (mkArgs ["sched"%string] 0 0) DEFAULT [].
Definition telemetry_scenario (p : TelemetryPolicy) : Scenario :=
  mkScenario TELEMETRY 2 (mkArgs ["sched"%string] 0 0) p [].

(** The machine and the last result after a sequence of calls. *)
Fixpoint runs (hitrace : list effect → effect → TraceErrorCode) (l : list Call) (r : TraceRet)
    : M TraceRet :=
  match l with
  | [] => mret r
  | c :: l => r' ← run hitrace event_clock true c; runs hitrace l r'
  end.

Definition after (hitrace : list effect → effect → TraceErrorCode) (l : list Call)
    : option (TraceRet * Machine) := runs hitrace l ok Machine_new.

Lemma runs_reachable hitrace l r m r' m' :
  reachable hitrace event_clock true any m → runs hitrace l r m = Some (r', m') →
  reachable hitrace event_clock true any m'.
Proof.
  revert r m. induction l as [|c l IH]; intros r m Hm E; [by injection E as _ <-|].
  cbn [runs] in E. unfold mbind, M_bind in E.
  destruct (run hitrace event_clock true c m) as [[r1 m1]|] eqn:E1; [|done].
  eapply IH; [|exact E]. by eapply (reach_call _ _ _ _ m c r1 m1).
Qed.

(** Closing a recording command scenario does not clear the command flag.
    With the beta switch on, a command trace that was switched to recording and
    closed gives way to the common trace again, but the flag stays set and the
    next request of the command line to close that trace is denied; without the
    recording step it is granted. *)
Theorem command_flag_leak :
  (∃ m, after accepting [CBeta; COpen command_scenario; CDropOn COMMAND []; CClose COMMAND]
          = Some (ok, m) ∧
        GetStateScenario (currentState_ m) = COMMON_BETA ∧ isCommandState_ m = true ∧
        CloseTrace accepting event_clock true COMMAND m = Some (state_ret DENY, m)) ∧
  (∃ m m', after accepting [CBeta; COpen command_scenario; CClose COMMAND] = Some (ok, m) ∧
        GetStateScenario (currentState_ m) = COMMON_BETA ∧ isCommandState_ m = false ∧
        CloseTrace accepting event_clock true COMMAND m = Some (ok, m') ∧
        GetStateScenario (currentState_ m') = CLOSE).
Proof.
  split; [eexists|eexists _, _]; (split; [by vm_compute|]); repeat (split; [by vm_compute|]);
    by vm_compute.
Qed.

(** When hitrace refuses the first trace status of a telemetry trace, the
    inner machine is left without a state: every later request under its policy
    and every filtered dump dereferences a null pointer. *)
Theorem telemetry_null_state :
  (∃ m, after refusing_status [COpen (telemetry_scenario MANUAL); CInit true] = Some (ok, m) ∧
        Forall (λ c, run refusing_status event_clock true c m = None)
          [CTelemetryOn; CTelemetryOff; CPostOn 5; CTimeOut; CDumpWithFilter 1 2 []]) ∧
  (∃ m, after refusing_status [COpen (telemetry_scenario POWER); CInit false] = Some (ok, m) ∧
        Forall (λ c, run refusing_status event_clock true c m = None)
          [CPowerOn; CPowerOff; CDumpWithFilter 1 2 []]).
Proof. split; eexists; (split; [by vm_compute|]); repeat constructor. Qed.

(** ** Witnesses *)

(** The machine after beta, a command trace and its recording. *)
Definition recording : Machine :=
  default Machine_new (snd <$> after accepting [CBeta; COpen command_scenario; CDropOn COMMAND []]).

Lemma recording_reachable : reachable accepting event_clock true any recording.
Proof.
  eapply (runs_reachable _ _ ok Machine_new ok recording); [constructor|].
  instantiate (1 := [CBeta; COpen command_scenario; CDropOn COMMAND []]). by vm_compute.
Qed.

Lemma hitrace_calls_disciplined_witness :
  disciplined accepting (hist recording) ∧ HOpenTrace (args command_scenario) ∈ hist recording.
Proof.
  split; [|by vm_compute; repeat constructor].
  exact (hitrace_calls_disciplined accepting event_clock true any recording recording_reachable).
Defined.

Lemma command_flag_set_witness : flags_ok recording ∧ commanding (currentState_ recording) = true.
Proof.
  split; [|by vm_compute].
  exact (command_flag_set accepting event_clock true any recording recording_reachable).
Defined.

Lemma trace_machine_never_crashes_witness :
  ∃ r m', run accepting event_clock true (CDropOff COMMAND_DROP) recording = Some (r, m').
Proof.
  exact (trace_machine_never_crashes accepting event_clock true (λ _ _, eq_refl) any recording
    (CDropOff COMMAND_DROP) recording_reachable).
Defined.

Lemma open_trace_priority_witness :
  OpenTrace accepting event_clock command_scenario recording = Some (state_ret DENY, recording).
Proof.
  refine (open_trace_priority accepting event_clock command_scenario recording _).
  split; [by left|reflexivity].
Defined.

Lemma refresh_follows_switches_witness :
  ∃ r m', RefreshState accepting event_clock true recording = Some (r, m') ∧
    GetStateScenario (currentState_ m') = COMMAND_DROP.
Proof. exact (refresh_follows_switches accepting event_clock true (λ _ _, eq_refl) recording). Defined.

Lemma telemetry_off_lost_witness :
  (TraceTelemetryOff accepting;; PostTelemetryTimeOut accepting (λ _, 9))
    (telemetry_at Machine_new true TraceOnState 1 7 true) =
  Some (state_ret NO_TRIGGER,
        telemetry_at (add_hist Machine_new [HClock]) true TraceOnState 1 0 true).
Proof. refine (telemetry_off_lost accepting (λ _, 9) true true Machine_new 7 _ _); lia. Defined.

Lemma telemetry_requests_balanced_witness :
  (times 2 (TraceTelemetryOn accepting);; times 2 (TraceTelemetryOff accepting))
    (telemetry_at Machine_new true InitState 0 0 true) =
  Some (tt, telemetry_at (add_hist Machine_new
    [HSetTraceStatus true; OnTelemetryTraceOn; HSetTraceStatus false; OnTelemetryTraceOff])
    true InitState 1 0 true).
Proof.
  refine (telemetry_requests_balanced accepting true true (λ _ _, eq_refl) 2 Machine_new 0 0 _ _); lia.
Defined.

Lemma telemetry_post_times_out_witness :
  (PostTelemetryOn accepting event_clock 3;; PostTelemetryTimeOut accepting event_clock)
    (telemetry_at Machine_new true InitState 0 0 true) =
  Some (ok, telemetry_at (add_hist (add_hist Machine_new [HClock; HSetTraceStatus true; OnTelemetryTraceOn])
    [HClock; HSetTraceStatus false; OnTelemetryTraceOff]) true InitState 0 0 true).
Proof.
  refine (telemetry_post_times_out accepting event_clock true true (λ _ _, eq_refl)
    Machine_new 0 0 3 _). split; vm_compute; [discriminate|reflexivity].
Defined.
