(* ===== verification/TraceFlow.v ===== *)
(** * TraceFlow: the daily quotas of traces

    Models src/framework/native/unified_collection/trace_manager: the flow
    controller (src/trace_flow_controller.cpp) and its tables (storage/
    trace_storage.cpp, app_storage.cpp, telemetry_storage.cpp,
    trace_behavior_storage.cpp).  A controller is made for each use and reads its
    record from the table; a table is a list of rows, the quotas come from a
    configuration file and are parameters.  Sizes are far from the bounds of 64
    bits. *)

From S2P Require Import Prelude FloatText.
From stdpp Require Import base gmap list numbers strings sorting.

Local Open Scope Z_scope.

Module TraceFlow.

(** ** Callers: TraceStorage *)

Record TraceFlowRecord := mkFlow { systemTime : bytes; usedIoSize : Z; usedZipSize : Z; dynamicDecrease : Z }.

Definition TraceFlowRecord_new : TraceFlowRecord := mkFlow [] 0 0 0.

(** The row of this caller in the table, if there is one; the constructor copies
    it into [traceFlowRecord_]. *)
Abbreviation CallerTable := (option TraceFlowRecord).

Section Callers.
Context (ioQuota_ zipQuota_ decreaseUnit_ : Z).

Definition InitTableRecord (t : CallerTable) : TraceFlowRecord := default TraceFlowRecord_new t.

(** A row whose date is empty counts as none, and another one is inserted; the
    query goes on finding the first. *)
Definition Store (r : TraceFlowRecord) (t : CallerTable) : CallerTable :=
  match t with
  | Some old => if bool_decide (systemTime old = []) then Some old else Some r
  | None => Some r
  end.

Definition IsDateChange (nowDays : bytes) (r : TraceFlowRecord) : bool * TraceFlowRecord :=
  if bool_decide (nowDays ≠ systemTime r) then (true, mkFlow nowDays 0 0 0) else (false, r).

Definition IsZipOverFlow (nowDays : bytes) (r : TraceFlowRecord) : bool * TraceFlowRecord :=
  if zipQuota_ <=? 0 then (true, r) else
  let '(changed, r) := IsDateChange nowDays r in
  if changed : bool then (false, r) else (zipQuota_ - dynamicDecrease r <? usedZipSize r, r).

Definition IsIoOverFlow (nowDays : bytes) (r : TraceFlowRecord) : bool * TraceFlowRecord :=
  if ioQuota_ <=? 0 then (true, r) else
  let '(changed, r) := IsDateChange nowDays r in
  if changed : bool then (false, r) else (ioQuota_ <? usedIoSize r, r).

Definition DecreaseDynamicThreshold (r : TraceFlowRecord) (t : CallerTable) : TraceFlowRecord * CallerTable :=
  if zipQuota_ <=? 0 then (r, t) else
  let r := mkFlow (systemTime r) (usedIoSize r) (usedZipSize r) (dynamicDecrease r + decreaseUnit_) in (r, Store r t).

Definition StoreTraceSize (traceSize : Z) (r : TraceFlowRecord) (t : CallerTable) : TraceFlowRecord * CallerTable :=
  let r := mkFlow (systemTime r)
    (if ioQuota_ >? 0 then usedIoSize r + traceSize else usedIoSize r)
    (if zipQuota_ >? 0 then usedZipSize r + traceSize else usedZipSize r) (dynamicDecrease r) in
  (r, Store r t).

Definition StoreIoSize (traceSize : Z) (r : TraceFlowRecord) (t : CallerTable) : TraceFlowRecord * CallerTable :=
  if ioQuota_ <=? 0 then (r, t) else
  let r := mkFlow (systemTime r) (usedIoSize r + traceSize) (usedZipSize r) (dynamicDecrease r) in (r, Store r t).

(** [float] of a value [n / 2 ^ 27]: 24 bits, halves to even. *)
Definition to_float (n : Z) : Z :=
  let k := Z.log2 n - 23 in if k <=? 0 then n else round_half_even n (2 ^ k) * 2 ^ k.

(** The [float] nearest to 0.1, in units of [2 ^ -27]. *)
Definition TEN_PERCENT_LIMIT : Z := 13421773.

(** [v + zipQuota_ * TEN_PERCENT_LIMIT] as [float], cut to an integer. *)
Definition plus_ten_percent (v : Z) : Z :=
  to_float (to_float v * 2 ^ 27 + to_float (to_float zipQuota_ * TEN_PERCENT_LIMIT)) / 2 ^ 27.

Definition GetRemainingTraceSize (nowDays : bytes) (r : TraceFlowRecord) : Z * TraceFlowRecord :=
  if zipQuota_ <=? 0 then (0, r) else
  let '(changed, r) := IsDateChange nowDays r in
  if changed : bool then (plus_ten_percent zipQuota_, r)
  else if zipQuota_ <=? usedZipSize r then (0, r) else (plus_ten_percent (zipQuota_ - usedZipSize r), r).

End Callers.

(** ** Applications: AppTraceStorage *)

Record AppRow := mkAppRow { r_uid : Z; r_package : bytes; r_date : bytes; r_duration : Z; r_usedSize : Z }.

Record AppLimits := mkLimits {
  appDurationLimits_ : Z; appFlowLimits_ : Z; totalDurationLimits_ : Z; totalFlowLimits_ : Z
}.

(** What [InitTableAppData] adds up: this application's use and everybody's. *)
Record AppUse := mkUse { appDuration_ : Z; appUsedSize_ : Z; totalDuration_ : Z; totalUsedSize_ : Z }.

(** The loop over the rows; [None] stands for the deletion of every row. *)
Fixpoint add_rows (uid : Z) (todayStr : bytes) (rows : list AppRow) (u : AppUse) : AppUse * bool :=
  match rows with
  | [] => (u, true)
  | r :: rows =>
      if bool_decide (r_date r ≠ todayStr) then (u, false) else
      let '(d, s) := if r_uid r =? uid then (r_duration r, r_usedSize r) else (appDuration_ u, appUsedSize_ u) in
      add_rows uid todayStr rows (mkUse d s (totalDuration_ u + r_duration r) (totalUsedSize_ u + r_usedSize r))
  end.

Definition InitTableAppData (uid : Z) (todayStr : bytes) (rows : list AppRow) : AppUse * list AppRow :=
  let '(u, keep) := add_rows uid todayStr rows (mkUse 0 0 0 0) in (u, if keep : bool then rows else []).

Definition IsAppOverFlow (lim : AppLimits) (uid : Z) (todayStr : bytes) (rows : list AppRow) : bool * list AppRow :=
  let '(u, rows) := InitTableAppData uid todayStr rows in
  ((appDuration_ u >? appDurationLimits_ lim) || (appUsedSize_ u >? appFlowLimits_ lim) ||
   (totalDuration_ u >? totalDurationLimits_ lim) || (totalUsedSize_ u >? totalFlowLimits_ lim), rows).

(** [Update] with the values of the first row of the application changes all its
    rows; there is one. *)
Definition StoreAppTraceInfo (uid : Z) (todayStr packageName : bytes) (traceDuration fileSize : Z) (rows : list AppRow) : list AppRow :=
  match list_find (λ r, r_uid r = uid) rows with
  | Some (_, r) =>
      let r := mkAppRow uid (r_package r) (r_date r) (r_duration r + traceDuration) (r_usedSize r + fileSize) in
      (λ x, if r_uid x =? uid then r else x) <$> rows
  | None => rows ++ [mkAppRow uid packageName todayStr traceDuration fileSize]
  end.

(** ** Traces of applications, one a day: AppEventTaskStorage *)

(** The columns the controller asks for; the others are copied through. *)
Record AppEventTask := mkTask { taskDate_ : Z; uid_ : Z }.

Section Tasks.
(** [TimestampFormatToDate] with "%Y%m%d", read as a number by [from_chars]. *)
Context (date_number : Z → Z).

Definition GetAppEventTask (uid eventDate : Z) (tasks : list AppEventTask) : bool :=
  existsb (λ k, (uid_ k =? uid) && (taskDate_ k =? eventDate)) tasks.

(** The identifier of a row is positive. *)
Definition HasCallOnceToday (uid happenTime : Z) (tasks : list AppEventTask) : bool :=
  GetAppEventTask uid (date_number (happenTime / 1000)) tasks.

Definition RecordCaller (k : AppEventTask) (tasks : list AppEventTask) : list AppEventTask := tasks ++ [k].

Definition RemoveAppEventTask (eventDate : Z) (tasks : list AppEventTask) : list AppEventTask :=
  List.filter (λ k, negb (taskDate_ k <? eventDate)) tasks.

End Tasks.

(** ** Telemetry: TeleMetryStorage *)

Inductive TelemetryRet := T_SUCCESS | T_OVER_FLOW | T_FAILED | T_EMPTY_DATA.

Record TelemetryRow := mkTele { t_id : bytes; t_module : bytes; t_usedSize : Z; t_quotaSize : Z; t_runningTime : Z }.

Definition TOTAL : bytes := str "Total".

Definition QueryTable (module : bytes) (t : list TelemetryRow) : option TelemetryRow :=
  List.find (λ r, bool_decide (t_module r = module)) t.

(** The quotas come in the order of their names. *)
Definition InitTelemetryQuota (telemetryId : bytes) (flowControlQuotas : list (bytes * Z)) (t : list TelemetryRow) : list TelemetryRow :=
  t ++ ((λ kv, mkTele telemetryId kv.1 0 kv.2 0) <$> flowControlQuotas).

Definition NeedTelemetryDump (module : bytes) (t : list TelemetryRow) : TelemetryRet :=
  match QueryTable module t, QueryTable TOTAL t with
  | Some r, Some total =>
      if (t_usedSize r >? t_quotaSize r) || (t_usedSize total >? t_quotaSize total) then T_OVER_FLOW else T_SUCCESS
  | _, _ => T_FAILED
  end.

Definition ClearTelemetryData (t : list TelemetryRow) : list TelemetryRow := [].

Definition QueryRunningTime (telemetryId : bytes) (t : list TelemetryRow) : TelemetryRet * Z :=
  match List.find (λ r, bool_decide (t_module r = TOTAL) && bool_decide (t_id r = telemetryId)) t with
  | Some r => (T_SUCCESS, t_runningTime r)
  | None => (T_EMPTY_DATA, 0)
  end.

Definition UpdateRunningTime (telemetryId : bytes) (runningTime : Z) (t : list TelemetryRow) : list TelemetryRow :=
  (λ r, if bool_decide (t_module r = TOTAL) && bool_decide (t_id r = telemetryId)
        then mkTele (t_id r) (t_module r) (t_usedSize r) (t_quotaSize r) runningTime else r) <$> t.

(** [ok]: whether the store executes the statement. *)
Definition UpdateTable (ok : bool) (module : bytes) (newSize : Z) (t : list TelemetryRow) : bool * list TelemetryRow :=
  if ok then (true, (λ r, if bool_decide (t_module r = module)
    then mkTele (t_id r) (t_module r) newSize (t_quotaSize r) (t_runningTime r) else r) <$> t) else (false, t).

(** The updates go to the store and not through the transaction, so that rolling
    it back undoes none of them. *)
Definition TelemetryStore (ok1 ok2 : bool) (module : bytes) (traceSize : Z) (t : list TelemetryRow) : list TelemetryRow :=
  match QueryTable module t, QueryTable TOTAL t with
  | Some r, Some total =>
      let '(done1, t) := UpdateTable ok1 module (t_usedSize r + traceSize) t in
      if negb done1 then t else (UpdateTable ok2 TOTAL (t_usedSize total + traceSize) t).2
  | _, _ => t
  end.

(** ** Caching: TraceBehaviorStorage *)

Inductive CacheFlow := C_SUCCESS | C_OVER_FLOW | C_EXIT.

Definition HITRACE_CACHE_DURATION_LIMIT_DAILY_TOTAL : Z := 10 * 60.

(** The quota used, by day; [inserted]: whether the store takes a new row. *)
Definition UseCacheTimeQuota (inserted : bool) (day : bytes) (interval : Z) (t : gmap bytes Z) : CacheFlow * gmap bytes Z :=
  let found := match t !! day with Some _ => true | None => false end in
  if negb found && negb inserted then (C_EXIT, t) else
  let t := if found then t else <[day := 0]> t in
  let usedQuota := default 0 (t !! day) in
  if usedQuota >=? HITRACE_CACHE_DURATION_LIMIT_DAILY_TOTAL then (C_OVER_FLOW, t)
  else (C_SUCCESS, <[day := usedQuota + interval]> t).

(** ** What the applications' table knows *)

Inductive AppOp :=
  | CheckFlow (day uid : Z)
  | StoreInfo (day uid : Z) (packageName : bytes) (traceDuration fileSize : Z).

Section Apps.
Context (date : Z → bytes) (lim : AppLimits).

(** Calls on controllers, one each; the answers of [IsAppOverFlow]. *)
Fixpoint app_run (ops : list AppOp) (rows : list AppRow) : list bool :=
  match ops with
  | [] => []
  | CheckFlow day uid :: ops =>
      let '(over, rows) := IsAppOverFlow lim uid (date day) rows in over :: app_run ops rows
  | StoreInfo day uid package duration size :: ops =>
      app_run ops (StoreAppTraceInfo uid (date day) package duration size rows)
  end.

(** Everything stored: day, application, duration, size. *)
Record Stored := mkStored { s_day : Z; s_uid : Z; s_duration : Z; s_size : Z }.

Definition of_day (f : Stored → Z) (day : Z) (h : list Stored) : Z :=
  sum_of (λ s, if s_day s =? day then f s else 0) h.

Definition of_app (f : Stored → Z) (day uid : Z) (h : list Stored) : Z :=
  of_day (λ s, if s_uid s =? uid then f s else 0) day h.

(** What the check has to answer. *)
Definition over_quota (day uid : Z) (h : list Stored) : bool :=
  (of_app s_duration day uid h >? appDurationLimits_ lim) || (of_app s_size day uid h >? appFlowLimits_ lim) ||
  (of_day s_duration day h >? totalDurationLimits_ lim) || (of_day s_size day h >? totalFlowLimits_ lim).

Fixpoint app_spec (ops : list AppOp) (h : list Stored) : list bool :=
  match ops with
  | [] => []
  | CheckFlow day uid :: ops => over_quota day uid h :: app_spec ops h
  | StoreInfo day uid _ duration size :: ops => app_spec ops (h ++ [mkStored day uid duration size])
  end.

(** Days do not go back, and traces are stored on the day of the last check. *)
Fixpoint checked_days (today : Z) (ops : list AppOp) : Prop :=
  match ops with
  | [] => True
  | CheckFlow day _ :: ops => today <= day ∧ checked_days day ops
  | StoreInfo day _ _ _ _ :: ops => day = today ∧ checked_days today ops
  end.

#[global] Instance checked_days_dec today ops : Decision (checked_days today ops).
Proof. revert today; induction ops as [|[] ops IH]; intros; cbn; apply _. Defined.

Definition row_of (f : AppRow → Z) (uid : Z) (rows : list AppRow) : Z :=
  sum_of (λ r, if r_uid r =? uid then f r else 0) rows.

Record Rows (rows : list AppRow) (day : Z) (h : list Stored) : Prop := {
  rows_date : ∀ r, r ∈ rows → r_date r = date day;
  rows_once : NoDup (r_uid <$> rows);
  rows_duration uid : row_of r_duration uid rows = of_app s_duration day uid h;
  rows_size uid : row_of r_usedSize uid rows = of_app s_size day uid h;
  rows_total_duration : sum_of r_duration rows = of_day s_duration day h;
  rows_total_size : sum_of r_usedSize rows = of_day s_size day h;
  rows_past s : s ∈ h → s_day s <= day
}.

Lemma row_of_absent f uid rows : uid ∉ (r_uid <$> rows) → row_of f uid rows = 0.
Proof.
  intros H. apply sum_of_zero. intros r Hr. destruct (Z.eqb_spec (r_uid r) uid) as [<-|]; [|done].
  destruct H. by apply list_elem_of_fmap_2.
Qed.

Lemma add_rows_absent uid today rows u :
  (∀ r, r ∈ rows → r_date r = today) → uid ∉ (r_uid <$> rows) →
  add_rows uid today rows u =
    (mkUse (appDuration_ u) (appUsedSize_ u) (totalDuration_ u + sum_of r_duration rows)
       (totalUsedSize_ u + sum_of r_usedSize rows), true).
Proof.
  revert u. induction rows as [|r rows IH]; intros u Hd Hn; cbn [add_rows].
  - rewrite !sum_of_nil, !Z.add_0_r. by destruct u.
  - rewrite bool_decide_eq_false_2 by (intros E; apply E, Hd; left). rewrite fmap_cons, not_elem_of_cons in Hn.
    rewrite (proj2 (Z.eqb_neq _ _)) by (intros E; by apply (proj1 Hn)).
    rewrite IH; [|by intros; apply Hd; right|tauto]. cbn. rewrite !sum_of_cons. do 2 f_equal; lia.
Qed.

Lemma add_rows_sums uid today rows u :
  appDuration_ u = 0 → appUsedSize_ u = 0 → (∀ r, r ∈ rows → r_date r = today) → NoDup (r_uid <$> rows) →
  add_rows uid today rows u =
    (mkUse (row_of r_duration uid rows) (row_of r_usedSize uid rows) (totalDuration_ u + sum_of r_duration rows)
       (totalUsedSize_ u + sum_of r_usedSize rows), true).
Proof.
  revert u. induction rows as [|r rows IH]; intros u H0 H0' Hd Hn; cbn [add_rows].
  - unfold row_of. rewrite !sum_of_nil, !Z.add_0_r. destruct u; cbn in *. by subst.
  - rewrite bool_decide_eq_false_2 by (intros E; apply E, Hd; left). rewrite fmap_cons, NoDup_cons in Hn.
    unfold row_of. rewrite !sum_of_cons. fold (row_of r_duration uid rows) (row_of r_usedSize uid rows).
    destruct (Z.eqb_spec (r_uid r) uid) as [<-|Hne].
    + rewrite add_rows_absent, !row_of_absent; [|tauto..|by intros; apply Hd; right|tauto]. cbn. do 2 f_equal; lia.
    + rewrite IH; [|done..|by intros; apply Hd; right|tauto]. cbn. do 2 f_equal; lia.
Qed.

Lemma of_day_future f day h : (∀ s, s ∈ h → s_day s < day) → of_day f day h = 0.
Proof. intros H. apply sum_of_zero. intros s Hs. specialize (H s Hs). case_match; zbool; lia. Qed.

Lemma rows_empty day h : (∀ s, s ∈ h → s_day s < day) → Rows [] day h.
Proof.
  intros H. assert (∀ f, of_day f day h = 0) as Z0 by (intros; by apply of_day_future).
  split; unfold of_app; rewrite ?Z0; try done; [by inversion 1|constructor|].
  intros s Hs. specialize (H s Hs). lia.
Qed.

Context `{!Inj (=) (=) date}.

Lemma check_follows_history uid today day rows h :
  Rows rows today h → today <= day →
  ∃ rows', IsAppOverFlow lim uid (date day) rows = (over_quota day uid h, rows') ∧ Rows rows' day h.
Proof.
  intros R Hle. unfold IsAppOverFlow, InitTableAppData. destruct (decide (today = day)) as [<-|Hne].
  - rewrite add_rows_sums; [|done|done|apply R..]. cbn.
    rewrite (rows_duration _ _ _ R), (rows_size _ _ _ R), (rows_total_duration _ _ _ R), (rows_total_size _ _ _ R).
    eexists. split; [done|exact R].
  - assert (∀ s, s ∈ h → s_day s < day) as Hp by (intros s Hs; pose proof (rows_past _ _ _ R s Hs); lia).
    exists []. split; [|by apply rows_empty].
    unfold over_quota, of_app. rewrite !of_day_future by done.
    destruct rows as [|r rows]; [done|]. cbn [add_rows].
    rewrite bool_decide_eq_true_2; [done|]. intros E. apply Hne, (inj date). rewrite <- E. symmetry.
    apply R. left.
Qed.

Lemma of_day_snoc f day h s : of_day f day (h ++ [s]) = of_day f day h + (if s_day s =? day then f s else 0).
Proof. unfold of_day. rewrite sum_of_app, sum_of_cons, sum_of_nil. lia. Qed.

Lemma replace_absent uid (r : AppRow) (l : list AppRow) :
  uid ∉ (r_uid <$> l) → ((λ x, if r_uid x =? uid then r else x) <$> l) = l.
Proof.
  induction l as [|x l IH]; intros Hn; [done|]. rewrite fmap_cons, not_elem_of_cons in Hn.
  rewrite fmap_cons, IH by tauto. case_match; zbool; [|done]. by destruct (proj1 Hn).
Qed.

(** Rows that differ from the old ones by what was stored. *)
Lemma rows_stored rows rows' day uid dur size h :
  Rows rows day h → (∀ r, r ∈ rows' → r_date r = date day) → NoDup (r_uid <$> rows') →
  (∀ u, row_of r_duration u rows' = row_of r_duration u rows + (if uid =? u then dur else 0)) →
  (∀ u, row_of r_usedSize u rows' = row_of r_usedSize u rows + (if uid =? u then size else 0)) →
  sum_of r_duration rows' = sum_of r_duration rows + dur → sum_of r_usedSize rows' = sum_of r_usedSize rows + size →
  Rows rows' day (h ++ [mkStored day uid dur size]).
Proof.
  intros R Hd Hn Hdur Hsize Htd Hts. split; [done|done|..].
  - intros u. unfold of_app. rewrite of_day_snoc, Hdur, (rows_duration _ _ _ R). cbn. by rewrite Z.eqb_refl.
  - intros u. unfold of_app. rewrite of_day_snoc, Hsize, (rows_size _ _ _ R). cbn. by rewrite Z.eqb_refl.
  - rewrite of_day_snoc, Htd, (rows_total_duration _ _ _ R). cbn. by rewrite Z.eqb_refl.
  - rewrite of_day_snoc, Hts, (rows_total_size _ _ _ R). cbn. by rewrite Z.eqb_refl.
  - intros s [Hs| ->%list_elem_of_singleton]%elem_of_app; [by apply R|done].
Qed.

Lemma store_keeps_rows day uid p dur size rows h :
  Rows rows day h → Rows (StoreAppTraceInfo uid (date day) p dur size rows) day (h ++ [mkStored day uid dur size]).
Proof.
  intros R. pose proof (rows_once _ _ _ R) as Hn. unfold StoreAppTraceInfo.
  destruct (list_find _ rows) as [[i r]|] eqn:E.
  - apply list_find_Some in E as (Hr & <- & _). apply list_elem_of_lookup_2, list_elem_of_split in Hr as (l1 & l2 & ->).
    rewrite fmap_app, fmap_cons in Hn. pose proof (proj1 (NoDup_app _ _) Hn) as (N1 & Hd & N3). apply NoDup_cons in N3 as [N3 N4].
    assert (r_uid r ∉ (r_uid <$> l1)) as N1' by (intros H; apply (Hd _ H); left).
    rewrite fmap_app, fmap_cons, Z.eqb_refl, !replace_absent by done.
    apply (rows_stored _ _ _ _ _ _ _ R).
    + intros x Hx. rewrite elem_of_app, elem_of_cons in Hx. destruct Hx as [|[->|]]; cbn; apply R; set_solver.
    + by rewrite fmap_app, fmap_cons.
    + intros u. unfold row_of. rewrite !sum_of_app, !sum_of_cons. cbn. case_match; lia.
    + intros u. unfold row_of. rewrite !sum_of_app, !sum_of_cons. cbn. case_match; lia.
    + rewrite !sum_of_app, !sum_of_cons. cbn. lia.
    + rewrite !sum_of_app, !sum_of_cons. cbn. lia.
  - apply list_find_None in E. rewrite Forall_forall in E. apply (rows_stored _ _ _ _ _ _ _ R).
    + intros x [Hx| ->%list_elem_of_singleton]%elem_of_app; [by apply R|done].
    + rewrite fmap_app. apply NoDup_app. split; [done|split; [|apply NoDup_singleton]].
      intros u Hx ->%list_elem_of_singleton. apply list_elem_of_fmap in Hx as (x & Hu & Hx). symmetry in Hu. by apply (E x).
    + intros u. unfold row_of. rewrite sum_of_app, sum_of_cons. cbn. case_match; rewrite sum_of_nil; lia.
    + intros u. unfold row_of. rewrite sum_of_app, sum_of_cons. cbn. case_match; rewrite sum_of_nil; lia.
    + rewrite sum_of_app, sum_of_cons, sum_of_nil. cbn. lia.
    + rewrite sum_of_app, sum_of_cons, sum_of_nil. cbn. lia.
Qed.

(** the check of an application answers exactly whether what was stored that
    day exceeds one of the four limits, its own duration and size and everybody's,
    whatever calls came before, as long as days do not go back and traces are
    stored on the day of the last check. *)
Theorem app_quota_counts_today today ops :
  checked_days today ops → app_run ops [] = app_spec ops [].
Proof.
  assert (∀ ops today rows h, Rows rows today h → checked_days today ops → app_run ops rows = app_spec ops h) as H.
  { clear ops today. intros ops. induction ops as [|[day uid|day uid p dur size] ops IH]; intros today rows h R Hc; [done|..];
      destruct Hc as [Hd Hc]; cbn [app_run app_spec].
    - destruct (check_follows_history uid _ _ _ _ R Hd) as (rows' & -> & R'). f_equal. by apply (IH day).
    - subst. apply (IH today); [by apply store_keeps_rows|done]. }
  apply H, rows_empty. by inversion 1.
Qed.

End Apps.

Lemma app_quota_counts_today_witness :
  let ops := [CheckFlow 1 7; StoreInfo 1 7 [] 40 100; CheckFlow 1 7; StoreInfo 1 8 [] 30 10; CheckFlow 1 7; CheckFlow 2 7] in
  app_run (λ d, [d]) (mkLimits 50 1000 60 1000) ops [] = [false; false; true; false] ∧
  app_run (λ d, [d]) (mkLimits 50 1000 60 1000) ops [] = app_spec (mkLimits 50 1000 60 1000) ops [].
Proof.
  intros ops. split; [reflexivity|]. apply (app_quota_counts_today (λ d, [d]) (mkLimits 50 1000 60 1000) 1).
  repeat split; lia.
Defined.

(** A trace opened before midnight and stored after it goes to the row of the day
    before, which the next check deletes: it counts on no day. *)
Lemma midnight_store_forgotten :
  let lim := mkLimits 50 1000 60 1000 in
  let ops := [CheckFlow 1 7; StoreInfo 1 7 [] 1 1; StoreInfo 2 7 [] 90 900; CheckFlow 2 7; CheckFlow 2 7] in
  app_run (λ d, [d]) lim ops [] = [false; false; false] ∧ app_spec lim ops [] = [false; true; true].
Proof. split; reflexivity. Qed.

(** ** Telemetry and caching *)

(** What a row counts in the balance of the modules against the total. *)
Definition weight (r : TelemetryRow) : Z :=
  if bool_decide (t_module r = TOTAL) then - t_usedSize r else t_usedSize r.

Record Balanced (t : list TelemetryRow) : Prop := {
  bal_once : NoDup (t_module <$> t);
  bal_sum : sum_of weight t = 0
}.

Definition with_used (newSize : Z) (r : TelemetryRow) : TelemetryRow :=
  mkTele (t_id r) (t_module r) newSize (t_quotaSize r) (t_runningTime r).

Lemma query_table_split module t r :
  QueryTable module t = Some r → ∃ l1 l2, t = l1 ++ r :: l2 ∧ t_module r = module.
Proof.
  intros H. apply List.find_some in H as [H E]. apply bool_decide_eq_true in E.
  apply list_elem_of_In, list_elem_of_split in H as (l1 & l2 & ->). by eexists _, _.
Qed.

Lemma update_table_split l1 l2 r newSize :
  NoDup (t_module <$> l1 ++ r :: l2) →
  UpdateTable true (t_module r) newSize (l1 ++ r :: l2) = (true, l1 ++ with_used newSize r :: l2).
Proof.
  rewrite fmap_app, fmap_cons, NoDup_app, NoDup_cons. intros (_ & Hd & Hn & _).
  assert (∀ l : list TelemetryRow, t_module r ∉ (t_module <$> l) →
    ((λ x, if bool_decide (t_module x = t_module r) then with_used newSize x else x) <$> l) = l) as Hid.
  { intros l. induction l as [|x l IH]; intros Hl; [done|]. rewrite fmap_cons, not_elem_of_cons in Hl.
    rewrite fmap_cons, IH, bool_decide_eq_false_2 by (intuition congruence). done. }
  unfold UpdateTable. f_equal. rewrite fmap_app, fmap_cons.
  rewrite bool_decide_eq_true_2 by done.
  f_equal; [apply Hid|f_equal; by apply Hid]. intros H. apply (Hd _ H). left.
Qed.

Lemma with_used_modules l1 l2 r newSize :
  (t_module <$> l1 ++ with_used newSize r :: l2) = (t_module <$> l1 ++ r :: l2).
Proof. by rewrite !fmap_app, !fmap_cons. Qed.

Lemma query_table_other l1 l2 r newSize module :
  t_module r ≠ module → QueryTable module (l1 ++ with_used newSize r :: l2) = QueryTable module (l1 ++ r :: l2).
Proof.
  intros Hne. unfold QueryTable. induction l1 as [|x l1 IH]; cbn [app List.find].
  - rewrite !bool_decide_eq_false_2 by done. done.
  - case_bool_decide; done.
Qed.

Lemma store_keeps_balance module size t :
  module ≠ TOTAL → Balanced t → Balanced (TelemetryStore true true module size t).
Proof.
  intros Hm B. unfold TelemetryStore. destruct (QueryTable module t) as [r|] eqn:Er; [|done].
  destruct (QueryTable TOTAL t) as [total|] eqn:Et; [|done]. pose proof B as [Hn Hs].
  apply query_table_split in Er as (l1 & l2 & -> & <-). rewrite update_table_split by done. cbn [negb].
  rewrite <- (query_table_other _ _ _ (t_usedSize r + size)) in Et by done.
  apply query_table_split in Et as (k1 & k2 & Ek & Htot).
  assert (sum_of weight (k1 ++ total :: k2) = size) as Hw.
  { rewrite <- Ek. rewrite sum_of_app, sum_of_cons in Hs |- *.
    assert (weight (with_used (t_usedSize r + size) r) = weight r + size) as ->; [|lia].
    unfold weight. cbn. by rewrite !bool_decide_eq_false_2 by done. }
  rewrite <- (with_used_modules _ _ _ (t_usedSize r + size)), Ek in Hn. rewrite Ek, <- Htot, update_table_split by done.
  cbn [snd]. split; [by rewrite with_used_modules|]. rewrite sum_of_app, sum_of_cons in Hw |- *.
  assert (weight (with_used (t_usedSize total + size) total) = weight total - size) as ->; [|lia].
  unfold weight. cbn. rewrite !bool_decide_eq_true_2 by done. lia.
Qed.

(** after any number of stores for the modules, in any order, the total kept
    in the table is the sum of what the modules used. *)
Theorem telemetry_total_is_sum id quotas stores :
  NoDup (quotas.*1) → Forall (λ s, s.1 ≠ TOTAL) stores →
  Balanced (foldl (λ t s, TelemetryStore true true s.1 s.2 t) (InitTelemetryQuota id quotas []) stores).
Proof.
  intros Hn Hs. assert (Balanced (InitTelemetryQuota id quotas [])) as B.
  { unfold InitTelemetryQuota. split; cbn [app].
    - by rewrite <- list_fmap_compose.
    - apply sum_of_zero. intros r (kv & -> & _)%list_elem_of_fmap. unfold weight. cbn. by case_bool_decide. }
  revert B. generalize (InitTelemetryQuota id quotas []) as t. induction Hs as [|[m z] l Hm _ IH]; intros t B; [done|].
  cbn [foldl]. apply IH. by apply store_keeps_balance.
Qed.

Lemma telemetry_total_is_sum_witness :
  let quotas := [(TOTAL, 100); (str "a", 50); (str "b", 50)] in
  let stores := [(str "a", 5); (str "b", 7)] in
  let t := foldl (λ t s, TelemetryStore true true s.1 s.2 t) (InitTelemetryQuota (str "id") quotas []) stores in
  Balanced t ∧ t_usedSize <$> QueryTable TOTAL t = Some 12.
Proof.
  intros quotas stores t. split; [|vm_compute; reflexivity].
  apply (telemetry_total_is_sum (str "id") quotas stores).
  - repeat (constructor; [vm_compute; set_solver|]). constructor.
  - repeat (constructor; [vm_compute; discriminate|]). constructor.
Defined.

(** A failure of the second update leaves the first in place. *)
Lemma telemetry_store_not_atomic :
  let t := InitTelemetryQuota (str "id") [(TOTAL, 100); (str "a", 50)] [] in
  t_usedSize <$> TelemetryStore true false (str "a") 5 t = [0; 5].
Proof. reflexivity. Qed.

(** The time granted to caching on a day. *)
Fixpoint cache_run (ops : list (bytes * Z)) (t : gmap bytes Z) : list (bytes * Z) :=
  match ops with
  | [] => []
  | (day, interval) :: ops =>
      match UseCacheTimeQuota true day interval t with
      | (C_SUCCESS, t) => (day, interval) :: cache_run ops t
      | (_, t) => cache_run ops t
      end
  end.

Definition granted (day : bytes) (l : list (bytes * Z)) : Z :=
  sum_of (λ o, if bool_decide (o.1 = day) then o.2 else 0) l.

(** What is granted on a day is within ten minutes and one interval. *)
Lemma cache_time_bounded K ops t :
  Forall (λ o, 0 <= o.2 <= K) ops → (∀ day, 0 <= default 0 (t !! day)) →
  ∀ day, granted day (cache_run ops t) <= Z.max 0 (HITRACE_CACHE_DURATION_LIMIT_DAILY_TOTAL - 1 + K - default 0 (t !! day)).
Proof.
  intros Ho. revert t. induction Ho as [|[d i] ops [Hi HK] _ IH]; intros t Hp day; [cbn; unfold granted; rewrite sum_of_nil; lia|].
  cbn [cache_run]. unfold UseCacheTimeQuota, HITRACE_CACHE_DURATION_LIMIT_DAILY_TOTAL in *. cbn [snd] in *.
  set (t' := if _ : bool then t else _). assert (∀ k, default 0 (t' !! k) = default 0 (t !! k)) as Ht.
  { intros k. unfold t'. destruct (t !! d) eqn:E; [done|]. destruct (decide (k = d)) as [->|].
    - by rewrite lookup_insert_eq, E.
    - by rewrite lookup_insert_ne. }
  replace (negb _ && negb true) with false by (by destruct (t !! d)). rewrite Ht.
  zcase; [rewrite <- Ht; apply IH; intros; rewrite Ht; apply Hp|].
  unfold granted. rewrite sum_of_cons. fold (granted day (cache_run ops (<[d:=default 0 (t !! d) + i]> t'))). cbn [fst snd].
  pose proof (Hp d). specialize (IH (<[d:=default 0 (t !! d) + i]> t')).
  assert (∀ k, 0 <= default 0 (<[d:=default 0 (t !! d) + i]> t' !! k)) as Hp'.
  { intros k. destruct (decide (k = d)) as [->|]; [rewrite lookup_insert_eq; cbn; lia|].
    rewrite lookup_insert_ne by done. rewrite Ht. apply Hp. }
  specialize (IH Hp' day). case_bool_decide as E.
  - subst. rewrite lookup_insert_eq in IH. cbn in IH. lia.
  - rewrite lookup_insert_ne in IH by done. rewrite Ht in IH. lia.
Qed.

End TraceFlow.
