(* ===== verification/TraceStrategy.v ===== *)
(** * TraceStrategy: dumping traces under a quota

    Models src/framework/native/unified_collection/collector/impl/trace/strategy/
    src/trace_strategy.cpp: the strategies that ask the flow controller before and
    after a trace is dumped, and what the quotas bound in the end.  The dump
    itself is the trace state machine's (TraceManager); here it is its outcome.
    What a strategy only reports (DUMP_TRACE events, logs) and the files the
    handlers write are left out. *)

From S2P Require Import Prelude FloatText TraceFlow.
From stdpp Require Import base gmap list numbers strings.

Local Open Scope Z_scope.

Module TraceStrategy.
Import TraceFlow.

(** What the state machine's dump returns. *)
Record TraceRetInfo := mkRet { success : bool; outputFiles : list bytes; fileSize : Z; isOverflowControl : bool }.

Inductive StrategyRet := SUCCESS | DUMP_ERROR | FAIL | TRACE_DUMP_DENY | TRACE_UPLOAD_DENY | TRACE_HAS_CAPTURED_TRACE.

Section Strategies.
Context (ioQuota_ zipQuota_ decreaseUnit_ : Z).

#[local] Abbreviation IsZipOverFlow := (IsZipOverFlow zipQuota_).
#[local] Abbreviation IsIoOverFlow := (IsIoOverFlow ioQuota_).
#[local] Abbreviation GetRemainingTraceSize := (GetRemainingTraceSize zipQuota_).
#[local] Abbreviation StoreTraceSize := (StoreTraceSize ioQuota_ zipQuota_).
#[local] Abbreviation StoreIoSize := (StoreIoSize ioQuota_).
#[local] Abbreviation DecreaseDynamicThreshold := (DecreaseDynamicThreshold zipQuota_ decreaseUnit_).

(** A strategy has a controller of its own, whose record is read when it is made;
    [day1] and [day2] are the dates the two checks of the quota read.  The result:
    what is returned, the size of the trace if it goes to the directory that is
    uploaded, and the table. *)
Definition Result : Type := StrategyRet * option Z * CallerTable.

Definition TraceFlowControlStrategy_DoDump (traceHandler : bool) (day1 day2 : bytes) (info : TraceRetInfo) (t : CallerTable) : Result :=
  let r := InitTableRecord t in
  if negb traceHandler then (FAIL, None, t) else
  let '(over, r) := IsZipOverFlow day1 r in
  if over : bool then (TRACE_DUMP_DENY, None, t) else
  if negb (success info) then (DUMP_ERROR, None, t) else
  if bool_decide (outputFiles info = []) then (FAIL, None, t) else
  let '(remaining, r) := GetRemainingTraceSize day2 r in
  if remaining <? fileSize info then (TRACE_UPLOAD_DENY, None, (DecreaseDynamicThreshold r t).2)
  else (SUCCESS, Some (fileSize info), (StoreTraceSize (fileSize info) r t).2).

Definition TraceDevStrategy_DoDump (traceHandler zipHandler : bool) (day1 day2 : bytes) (info : TraceRetInfo) (t : CallerTable) : Result :=
  let r := InitTableRecord t in
  let '(over, r) := IsIoOverFlow day1 r in
  if over : bool then (TRACE_DUMP_DENY, None, t) else
  if negb (success info) then (DUMP_ERROR, None, t) else
  if bool_decide (outputFiles info = []) then (FAIL, None, t) else
  if negb traceHandler then (FAIL, None, t) else
  if negb zipHandler then (SUCCESS, None, (StoreIoSize (fileSize info) r t).2) else
  let '(remaining, r) := GetRemainingTraceSize day2 r in
  if remaining <=? fileSize info then (TRACE_UPLOAD_DENY, None, (StoreIoSize (fileSize info) r t).2)
  else (SUCCESS, Some (fileSize info), (StoreTraceSize (fileSize info) r t).2).

(** The remaining size is asked before the dump and given to it: [dump] takes it. *)
Definition TraceAsyncStrategy_DoDump (traceHandler zipHandler : bool) (day1 day2 : bytes) (dump : Z → TraceRetInfo) (t : CallerTable) : Result :=
  let r := InitTableRecord t in
  let '(over, r) := IsIoOverFlow day1 r in
  if over : bool then (TRACE_DUMP_DENY, None, t) else
  let '(remaining, r) := GetRemainingTraceSize day2 r in
  let info := dump remaining in
  if negb (success info) then (DUMP_ERROR, None, t) else
  if bool_decide (outputFiles info = []) then (FAIL, None, t) else
  if negb traceHandler then (SUCCESS, None, t) else
  if negb zipHandler then (SUCCESS, None, (StoreIoSize (fileSize info) r t).2) else
  if isOverflowControl info then (TRACE_UPLOAD_DENY, None, (StoreIoSize (fileSize info) r t).2)
  else (SUCCESS, Some (fileSize info), (StoreTraceSize (fileSize info) r t).2).

End Strategies.

(** The telemetry strategy: the dump comes before the check.  The size is stored
    ([TelemetryStore]) by a callback, when the archive is made. *)
Definition TelemetryStrategy_DoDump (traceHandler : bool) (caller : bytes) (info : TraceRetInfo) (t : list TelemetryRow) : StrategyRet :=
  if negb traceHandler then FAIL else
  if negb (success info) then DUMP_ERROR else
  match NeedTelemetryDump caller t with
  | T_SUCCESS => if bool_decide (outputFiles info = []) then FAIL else SUCCESS
  | _ => TRACE_DUMP_DENY
  end.

(** ** One trace a day for an application: TraceAppStrategy *)

Section AppTrace.
Context (date_number : Z → Z).

Record AppCaller := mkCaller { a_uid : Z; a_pid : Z; happenTime : Z }.

(** The process that holds the trace and since when, as the state machine says. *)
Abbreviation AppInfo := (Z * Z)%type.

Definition MakeAppEventTask (c : AppCaller) : AppEventTask :=
  mkTask (date_number (happenTime c / 1000)) (a_uid c).

Definition CleanOldAppTrace (now : Z) (tasks : list AppEventTask) : list AppEventTask :=
  let timeNow := now / 1000 in
  if timeNow <? 3 * 86400 then tasks else RemoveAppEventTask (date_number (timeNow - 3 * 86400)) tasks.

(** [traceDumpTime], [now]: the clock at the check and at the clean-up, in
    milliseconds. *)
Definition TraceAppStrategy_DoDump (app : AppInfo) (c : AppCaller) (traceDumpTime now : Z) (info : TraceRetInfo) (tasks : list AppEventTask) : StrategyRet * list AppEventTask :=
  if negb (app.1 =? a_pid c) || (app.2 =? 0) then (FAIL, tasks) else
  if HasCallOnceToday date_number (a_uid c) traceDumpTime tasks then (TRACE_HAS_CAPTURED_TRACE, tasks) else
  if negb (success info) then (DUMP_ERROR, tasks) else
  match last (outputFiles info) with
  | None | Some [] => (FAIL, tasks)
  | Some _ => (SUCCESS, CleanOldAppTrace now (RecordCaller (MakeAppEventTask c) tasks))
  end.

End AppTrace.

(** ** What the quota bounds *)

Inductive Attempt :=
  | FlowDump (info : TraceRetInfo)
  | DevDump (zipHandler : bool) (info : TraceRetInfo)
  | AsyncDump (zipHandler : bool) (dump : Z → TraceRetInfo).

(** The size of a trace is not negative, and a dump given a size tells when its
    trace exceeds it. *)
Definition attempt_ok (a : Attempt) : Prop :=
  match a with
  | FlowDump info | DevDump _ info => 0 <= fileSize info
  | AsyncDump _ dump => ∀ remaining, 0 <= fileSize (dump remaining) ∧
      (isOverflowControl (dump remaining) = false → fileSize (dump remaining) <= Z.max 0 remaining)
  end.

Record DumpEntry := mkDumpEntry { e_day : Z; e_ret : StrategyRet; e_uploaded : option Z; e_refused : bool }.

Section Bounds.
Context (ioQuota_ zipQuota_ decreaseUnit_ : Z) (date : Z → bytes) `{!Inj (=) (=) date}.
Context (date_text : ∀ n, date n ≠ []) (quota_positive : 0 < zipQuota_) (unit_nonneg : 0 <= decreaseUnit_).

(** A dump at which the quota is asked on the days [day1] and [day2]; refused: the
    flow control strategy dumped the trace and could not upload it. *)
Definition attempt (day1 day2 : Z) (a : Attempt) (t : CallerTable) : DumpEntry * CallerTable :=
  let '(ret, up, t) := match a with
    | FlowDump info => TraceFlowControlStrategy_DoDump ioQuota_ zipQuota_ decreaseUnit_ true (date day1) (date day2) info t
    | DevDump zip info => TraceDevStrategy_DoDump ioQuota_ zipQuota_ true zip (date day1) (date day2) info t
    | AsyncDump zip dump => TraceAsyncStrategy_DoDump ioQuota_ zipQuota_ true zip (date day1) (date day2) dump t
    end in
  (mkDumpEntry day2 ret up (match a, ret with FlowDump _, TRACE_UPLOAD_DENY => true | _, _ => false end), t).

Fixpoint dump_attempts (l : list (Z * Z * Attempt)) (t : CallerTable) : list DumpEntry :=
  match l with
  | [] => []
  | (day1, day2, a) :: l => let '(e, t) := attempt day1 day2 a t in e :: dump_attempts l t
  end.

Fixpoint forward (today : Z) (l : list (Z * Z * Attempt)) : Prop :=
  match l with
  | [] => True
  | (day1, day2, _) :: l => today <= day1 <= day2 ∧ forward day2 l
  end.

Definition uploaded_on (day : Z) (h : list DumpEntry) : Z :=
  sum_of (λ e, if e_day e =? day then default 0 (e_uploaded e) else 0) h.

Definition refused_on (day : Z) (h : list DumpEntry) : Z :=
  sum_of (λ e, if (e_day e =? day) && e_refused e then 1 else 0) h.

(** A record that says what was uploaded and refused on a day, the last one. *)
Record At (r : TraceFlowRecord) (day : Z) (h : list DumpEntry) : Prop := {
  at_date : systemTime r = date day;
  at_used : usedZipSize r = uploaded_on day h;
  at_dynamic : dynamicDecrease r = decreaseUnit_ * refused_on day h;
  at_last n : day < n → uploaded_on n h = 0 ∧ refused_on n h = 0
}.

Definition bounded (h : list DumpEntry) : Prop := ∀ n,
  0 <= uploaded_on n h ∧ 1000000 * uploaded_on n h <= 1100001 * zipQuota_ ∧
  decreaseUnit_ * refused_on n h <= zipQuota_ + decreaseUnit_.

Definition Known (t : CallerTable) (h : list DumpEntry) (today : Z) : Prop :=
  bounded h ∧
  match t with
  | None => ∀ n, uploaded_on n h = 0 ∧ refused_on n h = 0
  | Some r => ∃ day, day <= today ∧ At r day h
  end.

Lemma uploaded_snoc n h e : uploaded_on n (h ++ [e]) = uploaded_on n h + (if e_day e =? n then default 0 (e_uploaded e) else 0).
Proof. unfold uploaded_on. rewrite sum_of_app, sum_of_cons, sum_of_nil. lia. Qed.

Lemma refused_snoc n h e : refused_on n (h ++ [e]) = refused_on n h + (if (e_day e =? n) && e_refused e then 1 else 0).
Proof. unfold refused_on. rewrite sum_of_app, sum_of_cons, sum_of_nil. lia. Qed.

(** *** Rounding *)

Lemma to_float_bound n : 0 <= n → 0 <= to_float n ∧ to_float n * 2 ^ 24 <= n * (2 ^ 24 + 1).
Proof.
  intros Hn. unfold to_float. zcase; [lia|]. set (k := Z.log2 n - 23) in *.
  assert (0 < n) as Hpos by (destruct (decide (n = 0)) as [->|]; [exfalso; cbn in *; lia|lia]).
  pose proof (Z.log2_spec n Hpos) as [Hlo _]. replace (Z.log2 n) with (k + 23) in Hlo by lia.
  rewrite Z.pow_add_r in Hlo by lia. assert (0 < 2 ^ k) as Hk by (apply Z.pow_pos_nonneg; lia).
  unfold round_half_even. pose proof (Z.div_mod n (2 ^ k) ltac:(lia)) as Hdm.
  pose proof (Z.mod_pos_bound n (2 ^ k) Hk) as Hm. pose proof (Z.div_pos n (2 ^ k) ltac:(lia) Hk).
  set (q := n / 2 ^ k) in *. set (m := n mod 2 ^ k) in *. set (d := 2 ^ k) in *.
  assert (d * q + d <= n + (d - m)) by lia. assert (8388608 * d <= n) by lia.
  destruct (Z.ltb_spec (2 * m) d); [split; nia|]. destruct (Z.ltb_spec d (2 * m)); [split; nia|].
  destruct (Z.even q); split; nia.
Qed.

Lemma remaining_bound used :
  0 <= used < zipQuota_ →
  0 <= plus_ten_percent zipQuota_ (zipQuota_ - used) ∧
  1000000 * (used + plus_ten_percent zipQuota_ (zipQuota_ - used)) <= 1100001 * zipQuota_.
Proof.
  intros H. unfold plus_ten_percent, TEN_PERCENT_LIMIT.
  pose proof (to_float_bound (zipQuota_ - used) ltac:(lia)) as [A0 A1].
  pose proof (to_float_bound zipQuota_ ltac:(lia)) as [B0 B1].
  pose proof (to_float_bound (to_float zipQuota_ * 13421773) ltac:(lia)) as [C0 C1].
  pose proof (to_float_bound (to_float (zipQuota_ - used) * 2 ^ 27 + to_float (to_float zipQuota_ * 13421773)) ltac:(lia)) as [D0 D1].
  set (F := to_float (_ + _)) in *.
  pose proof (Z.mul_div_le F (2 ^ 27) ltac:(lia)). pose proof (Z.div_pos F (2 ^ 27) D0 ltac:(lia)). lia.
Qed.

(** *** The checks *)

Lemma at_date_change r k d h : At r k h → k <= d → At (IsDateChange (date d) r).2 d h.
Proof.
  intros [Hd Hu Hy Hl] Hle. unfold IsDateChange. rewrite Hd. destruct (decide (date d = date k)) as [E|E].
  - rewrite bool_decide_eq_false_2 by (by intros []). apply (inj date) in E as ->. by split.
  - rewrite bool_decide_eq_true_2 by done. assert (k < d) as Hlt by (destruct (decide (k = d)) as [->|]; [done|lia]).
    destruct (Hl d Hlt) as [U R]. split; cbn; [done|lia|rewrite R; lia|intros; apply Hl; lia].
Qed.

Lemma known_date_change t h today d : Known t h today → today <= d → At (IsDateChange (date d) (InitTableRecord t)).2 d h.
Proof.
  intros [_ K] Hle. destruct t as [r|].
  - destruct K as (k & Hk & HA). apply (at_date_change _ _ _ _ HA). lia.
  - unfold IsDateChange. cbn. rewrite bool_decide_eq_true_2 by apply date_text. destruct (K d) as [U R].
    split; cbn; [done|lia|rewrite R; lia|intros; apply K].
Qed.

Lemma date_change_fresh d r r' : IsDateChange (date d) r = (true, r') → usedZipSize r' = 0 ∧ dynamicDecrease r' = 0.
Proof. unfold IsDateChange. case_bool_decide; intros [= <-]. done. Qed.

Lemma io_check t h today d r :
  Known t h today → today <= d → IsIoOverFlow ioQuota_ (date d) (InitTableRecord t) = (false, r) → At r d h.
Proof.
  intros K Hle. pose proof (known_date_change _ _ _ _ K Hle) as HA. unfold IsIoOverFlow. zcase; [done|].
  destruct (IsDateChange _ _) as [[] r'] eqn:E; intros [= ]; subst; done.
Qed.

Lemma zip_check t h today d r :
  Known t h today → today <= d → IsZipOverFlow zipQuota_ (date d) (InitTableRecord t) = (false, r) →
  At r d h ∧ decreaseUnit_ * refused_on d h <= zipQuota_.
Proof.
  intros K Hle. pose proof (known_date_change _ _ _ _ K Hle) as HA. unfold IsZipOverFlow. zcase; [done|].
  destruct (IsDateChange _ _) as [[] r'] eqn:E; intros [= ]; subst; cbn [snd] in HA; split; try done.
  - apply date_change_fresh in E. destruct HA. lia.
  - zbool. destruct HA, K as [HB _]. specialize (HB d). lia.
Qed.

(** What remains, as the code computes it. *)
Definition remaining_on (day : Z) (h : list DumpEntry) : Z :=
  if zipQuota_ <=? uploaded_on day h then 0 else plus_ten_percent zipQuota_ (zipQuota_ - uploaded_on day h).

Lemma remaining_check r k d h :
  At r k h → k <= d →
  ∃ r', GetRemainingTraceSize zipQuota_ (date d) r = (remaining_on d h, r') ∧ At r' d h.
Proof.
  intros HA Hle. pose proof (at_date_change _ _ _ _ HA Hle) as HA'. unfold GetRemainingTraceSize, remaining_on.
  rewrite (proj2 (Z.leb_gt _ _)) by lia. destruct (IsDateChange _ _) as [[] r'] eqn:E; cbn [snd] in HA'; exists r'.
  - apply date_change_fresh in E as [U _]. destruct HA'. rewrite <- at_used0, U, Z.sub_0_r.
    rewrite (proj2 (Z.leb_gt _ _)) by lia. done.
  - rewrite (at_used _ _ _ HA'). by zcase.
Qed.

(** *** The stores *)

Lemma store_row r t h today : Known t h today → Store r t = Some r.
Proof.
  intros [_ K]. destruct t as [old|]; [|done]. destruct K as (k & _ & HA). cbn.
  rewrite bool_decide_eq_false_2; [done|]. rewrite (at_date _ _ _ HA). apply date_text.
Qed.

Lemma known_quiet t h today d e :
  Known t h today → today <= d → default 0 (e_uploaded e) = 0 → e_refused e = false → Known t (h ++ [e]) d.
Proof.
  intros K Hle Hu Hr. assert (∀ n, uploaded_on n (h ++ [e]) = uploaded_on n h ∧ refused_on n (h ++ [e]) = refused_on n h) as Eq.
  { intros n. rewrite uploaded_snoc, refused_snoc, Hu, Hr, andb_false_r. split; [case_match; lia|lia]. }
  destruct K as [HB K]. split; [intros n; destruct (Eq n) as [-> ->]; apply HB|].
  destruct t as [r|]; [|intros n; destruct (Eq n) as [-> ->]; apply K].
  destruct K as (k & Hk & [A1 A2 A3 A4]). exists k. split; [lia|].
  destruct (Eq k) as [Eu Er]. split; [done|by rewrite Eu|by rewrite Er|].
  intros n Hn. destruct (Eq n) as [-> ->]. by apply A4.
Qed.

(** A record of the day stored with what the new entry adds. *)
Lemma known_stored r r' t h today d ret up refused :
  Known t h today → today <= d → At r d h →
  systemTime r' = systemTime r → usedZipSize r' = usedZipSize r + default 0 up →
  dynamicDecrease r' = dynamicDecrease r + (if refused : bool then decreaseUnit_ else 0) →
  0 <= default 0 up → 1000000 * (uploaded_on d h + default 0 up) <= 1100001 * zipQuota_ →
  (refused = true → decreaseUnit_ * refused_on d h <= zipQuota_) →
  Known (Store r' t) (h ++ [mkDumpEntry d ret up refused]) d.
Proof.
  intros K Hle [A1 A2 A3 A4] Ht Hz Hy Hup Hub Href. rewrite (store_row _ _ _ _ K). destruct K as [HB _]. split.
  - intros n. rewrite uploaded_snoc, refused_snoc. cbn [e_day e_uploaded e_refused]. specialize (HB n).
    destruct (Z.eqb_spec d n) as [<-|]; cbn [andb]; [|lia]. destruct refused; [specialize (Href eq_refl)|]; lia.
  - exists d. split; [done|]. split.
    + congruence.
    + rewrite uploaded_snoc. cbn. rewrite Z.eqb_refl. lia.
    + rewrite refused_snoc. cbn. rewrite Z.eqb_refl. destruct refused; cbn; lia.
    + intros n Hn. rewrite uploaded_snoc, refused_snoc. cbn. rewrite (proj2 (Z.eqb_neq _ _)) by lia. cbn.
      destruct (A4 n Hn). lia.
Qed.

Lemma remaining_on_fits d h size :
  bounded h → 0 <= size <= Z.max 0 (remaining_on d h) → 1000000 * (uploaded_on d h + size) <= 1100001 * zipQuota_.
Proof.
  intros HB Hs. specialize (HB d). unfold remaining_on in Hs. destruct (Z.leb_spec zipQuota_ (uploaded_on d h)); [lia|].
  pose proof (remaining_bound (uploaded_on d h) ltac:(lia)). lia.
Qed.

Lemma flow_dump_known d1 d2 info t h today :
  Known t h today → today <= d1 → d1 <= d2 → 0 <= fileSize info →
  let '(e, t') := attempt d1 d2 (FlowDump info) t in Known t' (h ++ [e]) d2.
Proof.
  intros K H1 H2 Hs. unfold attempt, TraceFlowControlStrategy_DoDump. cbn [negb].
  destruct (IsZipOverFlow _ _ _) as [[] r] eqn:E; [apply (known_quiet _ _ _ _ _ K); [lia|done..]|].
  apply (zip_check _ _ _ _ _ K H1) in E as [HA Hy].
  destruct (success info); cbn [negb]; [|apply (known_quiet _ _ _ _ _ K); [lia|done..]].
  case_bool_decide; [apply (known_quiet _ _ _ _ _ K); [lia|done..]|].
  destruct (remaining_check _ _ _ _ HA H2) as (r' & -> & HA').
  destruct (Z.ltb_spec (remaining_on d2 h) (fileSize info)).
  - unfold DecreaseDynamicThreshold. rewrite (proj2 (Z.leb_gt _ _)) by lia. cbn [snd].
    apply (known_stored r' _ t h today); cbn; try done; try lia; [pose proof (proj1 K d2); lia|].
    intros _. destruct (decide (d1 = d2)) as [<-|]; [done|]. destruct HA. destruct (at_last0 d2 ltac:(lia)) as [_ ->]. lia.
  - unfold StoreTraceSize. cbn [snd]. apply (known_stored r' _ t h today); cbn; try done; try lia.
    + rewrite (proj2 (Z.gtb_lt _ _)) by lia. done.
    + apply remaining_on_fits; [apply K|]. unfold remaining_on in *. lia.
Qed.

(** The size of a trace that is uploaded fits in what remained. *)
Lemma stored_upload d r t h today ret size :
  Known t h today → today <= d → At r d h → 0 <= size <= Z.max 0 (remaining_on d h) →
  Known (StoreTraceSize ioQuota_ zipQuota_ size r t).2 (h ++ [mkDumpEntry d ret (Some size) false]) d.
Proof.
  intros K Hle HA Hs. apply (known_stored r _ t h today); cbn; try done; try lia.
  - rewrite (proj2 (Z.gtb_lt _ _)) by lia. done.
  - by apply remaining_on_fits; [apply K|].
Qed.

Lemma stored_io d r t h today size :
  Known t h today → today <= d → At r d h → Known (StoreIoSize ioQuota_ size r t).2 h d.
Proof.
  intros K Hle HA. unfold StoreIoSize. destruct (_ <=? _).
  - destruct K as [HB K]. split; [done|]. destruct t as [old|]; [|done]. destruct K as (k & Hk & Hold). exists k. split; [lia|done].
  - cbn [snd]. rewrite (store_row _ _ _ _ K). split; [apply K|]. exists d. split; [done|]. by destruct HA; split.
Qed.

Lemma dev_dump_known zip d1 d2 info t h today :
  Known t h today → today <= d1 → d1 <= d2 → 0 <= fileSize info →
  let '(e, t') := attempt d1 d2 (DevDump zip info) t in Known t' (h ++ [e]) d2.
Proof.
  intros K H1 H2 Hs. unfold attempt, TraceDevStrategy_DoDump. cbn [negb].
  destruct (IsIoOverFlow _ _ _) as [[] r] eqn:E; [apply (known_quiet _ _ _ _ _ K); [lia|done..]|].
  apply (io_check _ _ _ _ _ K H1) in E as HA.
  destruct (success info); cbn [negb]; [|apply (known_quiet _ _ _ _ _ K); [lia|done..]].
  case_bool_decide; [apply (known_quiet _ _ _ _ _ K); [lia|done..]|].
  destruct zip; cbn [negb].
  - destruct (remaining_check _ _ _ _ HA H2) as (r' & -> & HA').
    destruct (Z.leb_spec (remaining_on d2 h) (fileSize info)).
    + apply (known_quiet _ h d2); try done. apply (stored_io _ _ _ _ today); [done|lia|done].
    + apply (stored_upload _ _ _ _ today); [done|lia|done|lia].
  - apply (known_quiet _ h d1); try done. by apply (stored_io _ _ _ _ today).
Qed.

Lemma async_dump_known zip d1 d2 dump t h today :
  Known t h today → today <= d1 → d1 <= d2 → attempt_ok (AsyncDump zip dump) →
  let '(e, t') := attempt d1 d2 (AsyncDump zip dump) t in Known t' (h ++ [e]) d2.
Proof.
  intros K H1 H2 Hs. unfold attempt, TraceAsyncStrategy_DoDump. cbn [negb].
  destruct (IsIoOverFlow _ _ _) as [[] r] eqn:E; [apply (known_quiet _ _ _ _ _ K); [lia|done..]|].
  apply (io_check _ _ _ _ _ K H1) in E as HA. destruct (remaining_check _ _ _ _ HA H2) as (r' & -> & HA').
  specialize (Hs (remaining_on d2 h)) as [Hs0 Hs].
  destruct (success _); cbn [negb]; [|apply (known_quiet _ _ _ _ _ K); [lia|done..]].
  case_bool_decide; [apply (known_quiet _ _ _ _ _ K); [lia|done..]|]. destruct zip; cbn [negb].
  - destruct (isOverflowControl _).
    + apply (known_quiet _ h d2); try done. apply (stored_io _ _ _ _ today); [done|lia|done].
    + apply (stored_upload _ _ _ _ today); [done|lia|done|]. specialize (Hs eq_refl). lia.
  - apply (known_quiet _ h d2); try done. apply (stored_io _ _ _ _ today); [done|lia|done].
Qed.

Lemma attempt_known a d1 d2 t h today :
  Known t h today → today <= d1 → d1 <= d2 → attempt_ok a →
  let '(e, t') := attempt d1 d2 a t in Known t' (h ++ [e]) d2.
Proof.
  destruct a; intros; [by apply (flow_dump_known _ _ _ _ _ today)|by apply (dev_dump_known _ _ _ _ _ _ today)|
    by apply (async_dump_known _ _ _ _ _ _ today)].
Qed.

Lemma attempts_bounded l t h today :
  Known t h today → forward today l → Forall (λ a, attempt_ok a.2) l → bounded (h ++ dump_attempts l t).
Proof.
  revert t h today. induction l as [|[[d1 d2] a] l IH]; intros t h today K Hf Ho; cbn [dump_attempts].
  - rewrite app_nil_r. apply K.
  - destruct Hf as [[H1 H2] Hf]. inversion Ho; subst. pose proof (attempt_known a d1 d2 _ _ _ K H1 H2 ltac:(done)) as K'.
    destruct (attempt _ _ _ _) as [e t']. rewrite cons_middle, app_assoc. by apply (IH _ _ d2).
Qed.

(** C36: for a caller with a quota, whatever strategies dump its traces, however
    often and with days not going back: on no day is more uploaded than the quota
    and its ten per cent (to one millionth, the rounding of [float]), and the
    dumps that turn out not to be uploadable are at most the quota over the unit
    of the dynamic threshold, and one. *)
Theorem daily_upload_bounded l today day :
  forward today l → Forall (λ a, attempt_ok a.2) l →
  1000000 * uploaded_on day (dump_attempts l None) <= 1100001 * zipQuota_ ∧
  decreaseUnit_ * refused_on day (dump_attempts l None) <= zipQuota_ + decreaseUnit_.
Proof.
  intros Hf Ho. assert (Known None [] today) as K.
  { split; [|done]. intros n. unfold uploaded_on, refused_on. rewrite !sum_of_nil. lia. }
  pose proof (attempts_bounded _ _ _ _ K Hf Ho day). cbn [app] in *. tauto.
Qed.

End Bounds.

Lemma daily_upload_bounded_witness :
  let info n := mkRet true [[1]] n false in
  let l := [(1, 1, FlowDump (info 600)); (1, 1, FlowDump (info 700)); (1, 1, FlowDump (info 500)); (1, 2, FlowDump (info 1090))] in
  let h := dump_attempts 1000 1000 300 (λ n, [n]) l None in
  e_ret <$> h = [SUCCESS; TRACE_UPLOAD_DENY; SUCCESS; TRACE_DUMP_DENY] ∧
  uploaded_on 1 h = 1100 ∧ 1000000 * uploaded_on 1 h <= 1100001 * 1000.
Proof.
  intros info l h. split; [vm_compute; reflexivity|]. split; [vm_compute; reflexivity|].
  refine (proj1 (daily_upload_bounded 1000 1000 300 (λ n, [n]) _ _ _ l 1 1 _ _)); [by intros|lia|lia|cbn; lia|].
  repeat (constructor; [cbn; lia|]). constructor.
Defined.

(** ** One trace a day for an application *)

(** A request: the state machine's holder, the caller, the clock at the check and
    at the clean-up, the outcome of the dump. *)
Record AppRequest := mkRequest { q_app : Z * Z; q_caller : AppCaller; q_time : Z; q_now : Z; q_info : TraceRetInfo }.

Section OncePerDay.
Context (date_number : Z → Z) (date_mono : ∀ a b, a <= b → date_number a <= date_number b).

Fixpoint app_requests (l : list AppRequest) (tasks : list AppEventTask) : list (AppRequest * StrategyRet) :=
  match l with
  | [] => []
  | q :: l =>
      let '(ret, tasks) := TraceAppStrategy_DoDump date_number (q_app q) (q_caller q) (q_time q) (q_now q) (q_info q) tasks in
      (q, ret) :: app_requests l tasks
  end.

Definition day_of (ms : Z) : Z := date_number (ms / 1000).

Fixpoint clock_forward (now : Z) (l : list AppRequest) : Prop :=
  match l with
  | [] => True
  | q :: l => now <= q_time q <= q_now q ∧ clock_forward (q_now q) l
  end.

(** The traces captured for an application on a day. *)
Definition captured (uid day : Z) (h : list (AppRequest * StrategyRet)) : Z :=
  sum_of (λ x, match x.2 with
    | SUCCESS => if (a_uid (q_caller x.1) =? uid) && (day_of (q_time x.1) =? day) then 1 else 0
    | _ => 0
    end) h.

Definition recorded (uid day : Z) (tasks : list AppEventTask) : Prop := mkTask day uid ∈ tasks.

Lemma has_call_once uid time tasks : HasCallOnceToday date_number uid time tasks = true ↔ recorded uid (day_of time) tasks.
Proof.
  unfold HasCallOnceToday, GetAppEventTask, recorded. rewrite existsb_exists. split.
  - intros ([d u] & Hin & [E1%Z.eqb_eq E2%Z.eqb_eq]%andb_true_iff). cbn in *. subst. by apply list_elem_of_In.
  - intros Hin. exists (mkTask (day_of time) uid). rewrite <- list_elem_of_In. cbn. by rewrite !Z.eqb_refl.
Qed.

Lemma day_of_mono a b : a <= b → day_of a <= day_of b.
Proof. intros H. apply date_mono, Z.div_le_mono; lia. Qed.

Lemma clean_keeps_today uid day now tasks :
  day_of now <= day → recorded uid day tasks → recorded uid day (CleanOldAppTrace date_number now tasks).
Proof.
  intros Hle Hin. unfold CleanOldAppTrace, RemoveAppEventTask, recorded in *. zcase; [done|].
  apply list_elem_of_In, filter_In. split; [by apply list_elem_of_In|]. cbn.
  rewrite negb_true_iff, Z.ltb_ge. unfold day_of in Hle. specialize (date_mono (now / 1000 - 3 * 86400) (now / 1000) ltac:(lia)). lia.
Qed.

Lemma captured_cons uid day q ret h :
  captured uid day ((q, ret) :: h) =
  (match ret with SUCCESS => if (a_uid (q_caller q) =? uid) && (day_of (q_time q) =? day) then 1 else 0 | _ => 0 end) + captured uid day h.
Proof. done. Qed.

Lemma captured_past uid day now l tasks :
  clock_forward now l → day < day_of now → captured uid day (app_requests l tasks) = 0.
Proof.
  revert now tasks. induction l as [|q l IH]; intros now tasks Hc Hlt; [done|]. destruct Hc as [[H1 H2] Hc]. cbn [app_requests].
  destruct (TraceAppStrategy_DoDump _ _ _ _ _ _ _) as [ret ts].
  pose proof (day_of_mono _ _ H1). pose proof (day_of_mono _ _ H2).
  rewrite captured_cons, (IH (q_now q)) by (done || lia). rewrite (proj2 (Z.eqb_neq (day_of (q_time q)) day)) by lia.
  rewrite andb_false_r. by destruct ret.
Qed.

(** A dump that succeeds finds no record of the day and leaves one; other requests
    change no record. *)
Lemma app_dump_cases q tasks :
  let '(ret, ts) := TraceAppStrategy_DoDump date_number (q_app q) (q_caller q) (q_time q) (q_now q) (q_info q) tasks in
  (ret ≠ SUCCESS ∧ ts = tasks) ∨
  (ret = SUCCESS ∧ ¬ recorded (a_uid (q_caller q)) (day_of (q_time q)) tasks ∧
   ts = CleanOldAppTrace date_number (q_now q) (RecordCaller (MakeAppEventTask date_number (q_caller q)) tasks)).
Proof.
  unfold TraceAppStrategy_DoDump. destruct (_ || _); [by left|]. destruct (HasCallOnceToday _ _ _ _) eqn:E; [by left|].
  destruct (success _); [|by left]. cbn [negb]. destruct (last _) as [[|c s]|]; [by left| |by left].
  right. split; [done|]. split; [|done]. rewrite <- has_call_once. by rewrite E.
Qed.

(** an application gets at most one trace a day, whatever requests arrive and
    however they are interleaved with others', when each request is for something
    that happened on the day of the dump. *)
Theorem app_captured_once_per_day l tasks now uid day :
  clock_forward now l → Forall (λ q, day_of (happenTime (q_caller q)) = day_of (q_time q)) l →
  captured uid day (app_requests l tasks) <= 1 ∧
  (recorded uid day tasks → captured uid day (app_requests l tasks) = 0).
Proof.
  intros Hc Hh. revert tasks now Hc. induction Hh as [|q l Hq _ IH]; intros tasks now Hc; cbn [app_requests].
  { unfold captured. rewrite sum_of_nil. lia. }
  destruct Hc as [[Ht Hn] Hc]. pose proof (app_dump_cases q tasks) as Hd.
  destruct (TraceAppStrategy_DoDump _ _ _ _ _ _ _) as [ret ts]. rewrite captured_cons. specialize (IH ts (q_now q) Hc).
  destruct Hd as [[Hr ->]|(-> & Hnot & ->)]; [by destruct ret|].
  set (ts := CleanOldAppTrace _ _ _) in *.
  assert (recorded uid day (RecordCaller (MakeAppEventTask date_number (q_caller q)) tasks) → captured uid day (app_requests l ts) = 0) as Hz.
  { intros Hrec. destruct (decide (day_of (q_now q) <= day)) as [Hle|Hgt]; [apply IH; by apply clean_keeps_today|].
    apply (captured_past _ _ (q_now q)); [done|lia]. }
  destruct (andb _ _) eqn:E.
  - apply andb_true_iff in E as [E1%Z.eqb_eq E2%Z.eqb_eq]. subst. rewrite Hz; [split; [lia|by intros Hrec%Hnot]|].
    unfold recorded, RecordCaller, MakeAppEventTask. fold (day_of (happenTime (q_caller q))). rewrite Hq. set_solver.
  - split; [lia|]. intros Hrec. rewrite Hz; [done|]. unfold recorded, RecordCaller in *. set_solver.
Qed.

End OncePerDay.

Definition utc_day (seconds : Z) : Z := seconds / 86400.

Lemma app_captured_once_per_day_witness :
  let info := mkRet true [[1]] 10 false in
  let q t := mkRequest (5, 1) (mkCaller 7 5 t) t t info in
  let l := [q 1000; q 2000; q 90000000] in
  snd <$> app_requests utc_day l [] = [SUCCESS; TRACE_HAS_CAPTURED_TRACE; SUCCESS] ∧
  captured utc_day 7 0 (app_requests utc_day l []) <= 1.
Proof.
  intros info q l. split; [vm_compute; reflexivity|].
  refine (proj1 (app_captured_once_per_day utc_day _ l [] 0 7 0 _ _)).
  - intros a b H. unfold utc_day. apply Z.div_le_mono; lia.
  - cbn. lia.
  - repeat constructor.
Defined.

(** The record is dated by the event and the check by the dump: after an event of
    the day before, a second trace is captured on the same day. *)
Lemma late_event_captured_twice :
  let info := mkRet true [[1]] 10 false in
  let q happen t := mkRequest (5, 1) (mkCaller 7 5 happen) t t info in
  let l := [q 86399000 86400000; q 86401000 86402000] in
  captured utc_day 7 1 (app_requests utc_day l []) = 2.
Proof. reflexivity. Qed.

End TraceStrategy.
