(* ===== verification/SysEvent.v ===== *)
(** * SysEvent: the event of the pipeline

    Models base/sys_event.cpp and base/include/sys_event.h: an event is the raw
    data it came with, a builder made from it when something is read or written,
    and marks the stages of the pipeline set.  The raw data may be shared with
    whoever made the event; [SetId] and [SetLog] write into it in place. *)

From S2P Require Import Prelude Platform RawData Encoder Decoder Params EventHeader Text FloatText.
From S2P Require Import Builder JsonPrint JsonParse DbFile.
From S2P Require DecodedEvent.
From stdpp Require Import base gmap list numbers strings.

Local Open Scope Z_scope.
Local Open Scope hv_scope.

Module SysEvent.
Import DecodedEvent (outcome, Done, Undefined, obind).

(** ** Texts: StringUtil *)

Definition EscapeJsonStringValue (value : bytes) : bytes :=
  value ≫= λ c,
    if c =? 92 then [92; 92] else if c =? 34 then [92; 34] else if c =? 8 then [92; 98]
    else if c =? 12 then [92; 102] else if c =? 10 then [92; 110] else if c =? 13 then [92; 114]
    else if c =? 9 then [92; 116] else [c].

Fixpoint Unescape (isEscaped : bool) (value : bytes) : bytes :=
  match value with
  | [] => []
  | c :: value =>
      if isEscaped then
        (if c =? 98 then 8 else if c =? 102 then 12 else if c =? 110 then 10
         else if c =? 114 then 13 else if c =? 116 then 9 else c) :: Unescape false value
      else if c =? 92 then Unescape true value else c :: Unescape false value
  end.

Definition UnescapeJsonStringValue (value : bytes) : bytes := Unescape false value.

(** ** Doubles as integers *)

(** Sign and magnitude [m * 2 ^ p] of a finite double. *)
Definition double_parts (d : Z) : option (bool * Z * Z) :=
  let e := Z.land (Z.shiftr d 52) 2047 in
  let m := Z.land d (Z.ones 52) in
  if e =? 2047 then None
  else Some (Z.testbit d 63, if e =? 0 then m else m + 2 ^ 52, Z.max e 1 - 1075).

(** Whether [m * 2 ^ p <= n]. *)
Definition magnitude_le (m p n : Z) : bool := if 0 <=? p then m * 2 ^ p <=? n else m <=? n * 2 ^ (- p).

(** [d >= (double) lo && d <= (double) hi]: the bounds given are the doubles the
    limits are converted to. *)
Definition double_within (d lo hi : Z) : bool :=
  match double_parts d with
  | None => false
  | Some (neg, m, p) => if neg : bool then magnitude_le m p (- lo) else magnitude_le m p hi
  end.

(** The conversion to an integer of [min, max], undefined out of range. *)
Definition double_to_int (d min max : Z) : outcome Z :=
  match double_parts d with
  | None => Undefined UB_Conversion
  | Some (neg, m, p) =>
      let t := if 0 <=? p then m * 2 ^ p else m / 2 ^ (- p) in
      let t := if neg : bool then - t else t in
      if (min <=? t) && (t <=? max) then Done t else Undefined UB_Conversion
  end.

(** [static_cast<double>] of an integer. *)
Definition int_to_double (n : Z) : Z :=
  if n =? 0 then 0 else if n <? 0 then 2 ^ 63 + round_double (- n) 1 else round_double n 1.

(** ** Events *)

Definition EventParamInfo : Type := bytes * Z.
Definition UNINIT_REPORT_INTERVAL : Z := -1.
Definition BLOCK_SIZE_OFFSET : Z := 4.
Definition POS_OF_ID_IN_HEADER : Z := 71.
Definition POS_OF_LOG_IN_HEADER : Z := 80.
Definition REPORT_INTERVAL_KEY : bytes := str "reportInterval_".

(** What the constructor reads from the header. *)
Record EventFields := mkFields {
  domain_ : bytes; eventName_ : bytes; eventType_ : Z; happenTime_ : Z; tz_ : Z; pid_ : Z; tid_ : Z; uid_ : Z
}.

(** What the stages of the pipeline set. *)
Record Marks := mkMarks {
  tag_ : bytes; level_ : bytes; privacy_ : Z; preserve_ : bool; collect_ : bool; seq_ : Z; eventSeq_ : Z;
  invalidParams_ : option (list (bytes * option EventParamInfo)); reportInterval_ : Z
}.

Record SysEvent := mkSysEvent {
  fields : EventFields;
  marks : Marks;
  log_ : Z;
  rawData_ : option RawData;
  builder_ : option RawDataBuilder;
  isUpdated_ : bool;
  bundle_ : gmap bytes bytes
}.

Definition set_raw (e : SysEvent) (r : option RawData) : SysEvent :=
  mkSysEvent (fields e) (marks e) (log_ e) r (builder_ e) (isUpdated_ e) (bundle_ e).
Definition set_builder (e : SysEvent) (b : option RawDataBuilder) : SysEvent :=
  mkSysEvent (fields e) (marks e) (log_ e) (rawData_ e) b (isUpdated_ e) (bundle_ e).
Definition set_updated (e : SysEvent) (u : bool) : SysEvent :=
  mkSysEvent (fields e) (marks e) (log_ e) (rawData_ e) (builder_ e) u (bundle_ e).
Definition set_log (e : SysEvent) (l : Z) : SysEvent :=
  mkSysEvent (fields e) (marks e) l (rawData_ e) (builder_ e) (isUpdated_ e) (bundle_ e).
Definition set_marks (e : SysEvent) (m : Marks) : SysEvent :=
  mkSysEvent (fields e) m (log_ e) (rawData_ e) (builder_ e) (isUpdated_ e) (bundle_ e).

Definition fields_empty : EventFields := mkFields [] [] 0 0 0 0 0 0.
Definition marks_new (seq : Z) : Marks := mkMarks [] [] 0 true false seq (-1) None UNINIT_REPORT_INTERVAL.
Definition event_empty (seq : Z) : SysEvent := mkSysEvent fields_empty (marks_new seq) 0 None None false ∅.

(** [InitialMembers]; [now] is the clock. *)
Definition InitialMembers (d : bytes) (now : Z) : outcome (EventFields * Z) :=
  let h := header_of_bytes (take 81 (drop 4 d)) in
  if terminated (domain h) && terminated (name h) then
    Done (mkFields (c_str (domain h)) (c_str (name h)) (type h + 1)
            (if timestamp h =? 0 then now else timestamp h) (timeZone h) (s32 (pid h)) (s32 (tid h)) (s32 (uid h)), log h)
  else Undefined UB_OutOfBounds.

(** The constructor; raw data that is too short is not kept. *)
Definition SysEvent_new (raw : option RawData) (seq now : Z) : outcome SysEvent :=
  match raw with
  | Some r =>
      match GetData r with
      | Some d =>
          if GetDataLength r <? GetValidDataMinimumByteCount then Done (event_empty seq)
          else obind (InitialMembers d now) (λ fl,
                 Done (mkSysEvent fl.1 (marks_new seq) fl.2 raw None false ∅))
      | None => Done (event_empty seq)
      end
  | None => Done (event_empty seq)
  end.

(** The counters over all events: [totalCount_] and [totalSize_]. *)
Record Totals := mkTotals { totalCount_ : Z; totalSize_ : Z }.

Definition block_size (r : RawData) : Z := match GetData r with Some d => s32 (le_value (take 4 d)) | None => 0 end.

Definition count_new (e : SysEvent) (t : Totals) : Totals :=
  match rawData_ e with
  | Some r => mkTotals (u32 (totalCount_ t + 1)) (totalSize_ t + block_size r)
  | None => t
  end.

(** The destructor. *)
Definition count_delete (e : SysEvent) (t : Totals) : Totals :=
  let c := if totalCount_ t >? 0 then totalCount_ t - 1 else totalCount_ t in
  let s := match rawData_ e with Some r => totalSize_ t - block_size r | None => totalSize_ t end in
  mkTotals c (if s <? 0 then 0 else s).

Section Methods.
Context `{HP : Heap} `{SC : Securec}.

(** A builder is made when it is first needed. *)
Definition InitBuilder (e : SysEvent) : outcome (SysEvent * RawDataBuilder) :=
  match builder_ e with
  | Some b => Done (e, b)
  | None => obind (RawDataBuilder_from (rawData_ e)) (λ b, Done (set_builder e (Some b), b))
  end.

Definition SetId (id : Z) (e : SysEvent) : SysEvent :=
  let e := match rawData_ e with
    | Some r => match GetData r with
        | Some _ => set_raw e (Some (Update r (Some (le_bytes 8 id)) 8 (BLOCK_SIZE_OFFSET + POS_OF_ID_IN_HEADER)).2)
        | None => e
        end
    | None => e
    end in
  set_builder e ((λ b, AppendId b id) <$> builder_ e).

Definition SetLog (log : Z) (e : SysEvent) : SysEvent :=
  let e := set_log e (u8 log) in
  let e := match rawData_ e with
    | Some r => match data_ r with
        | Some d => set_raw e (Some (mkRawData
            (Some (<[Z.to_nat (BLOCK_SIZE_OFFSET + POS_OF_LOG_IN_HEADER) := u8 log]> d)) (len_ r) (capacity_ r)))
        | None => e
        end
    | None => e
    end in
  set_builder e ((λ b, AppendLog b log) <$> builder_ e).

Definition SysEvent_RemoveParam (paramName : bytes) (e : SysEvent) : outcome SysEvent :=
  obind (InitBuilder e) (λ eb, Done (set_updated (set_builder eb.1 (Some (RemoveParam eb.2 paramName))) true)).

Definition IsParamExist (paramName : bytes) (e : SysEvent) : outcome (SysEvent * bool) :=
  obind (InitBuilder e) (λ eb, Done (eb.1, bool_decide (is_Some (GetValue eb.2 paramName)))).

(** [SetEventValue<T>]: text is appended to the old text if asked for, and escaped. *)
Definition SetEventValue (key : bytes) (value : CppVal) (appendValue : bool) (e : SysEvent) : outcome SysEvent :=
  obind (InitBuilder e) (λ eb,
    let value := match value with
      | CString s =>
          let s := match appendValue, GetValue eb.2 key with
            | true, Some p => match pval_ p with PString old => UnescapeJsonStringValue old ++ s | _ => s end
            | _, _ => s
            end in
          CString (EscapeJsonStringValue s)
      | v => v
      end in
    Done (set_updated (set_builder eb.1 (Some (AppendValue eb.2 key value))) true)).

(** *** Reading *)

Definition GetEventValue (key : bytes) (e : SysEvent) : outcome (SysEvent * bytes) :=
  obind (InitBuilder e) (λ eb, Done (eb.1, match ParseValueByKey eb.2 key TyString with Some (CString s) => s | _ => [] end)).

(** [(double) INT64_MAX] is [2 ^ 63]. *)
Definition get_int (b : RawDataBuilder) (key : bytes) : outcome Z :=
  match ParseValueByKey b key (TyInt 64) with
  | Some (CInt _ v) => Done v
  | _ => let from_double :=
      match ParseValueByKey b key TyDouble with
      | Some (CFloat _ d) => if double_within d (- 2 ^ 63) (2 ^ 63) then double_to_int d (- 2 ^ 63) (2 ^ 63 - 1) else Done 0
      | _ => Done 0
      end in
    match ParseValueByKey b key (TyUint 64) with
    | Some (CUint _ v) => if v <=? 2 ^ 63 - 1 then Done v else from_double
    | _ => from_double
    end
  end.

Definition GetEventIntValue (key : bytes) (e : SysEvent) : outcome (SysEvent * Z) :=
  obind (InitBuilder e) (λ eb, obind (get_int eb.2 key) (λ v, Done (eb.1, v))).

(** [(double) UINT64_MAX] is [2 ^ 64]. *)
Definition get_uint (b : RawDataBuilder) (key : bytes) : outcome Z :=
  match ParseValueByKey b key (TyUint 64) with
  | Some (CUint _ v) => Done v
  | _ => let from_double :=
      match ParseValueByKey b key TyDouble with
      | Some (CFloat _ d) => if double_within d 0 (2 ^ 64) then double_to_int d 0 (2 ^ 64 - 1) else Done 0
      | _ => Done 0
      end in
    match ParseValueByKey b key (TyInt 64) with
    | Some (CInt _ v) => if 0 <=? v then Done v else from_double
    | _ => from_double
    end
  end.

Definition GetEventUintValue (key : bytes) (e : SysEvent) : outcome (SysEvent * Z) :=
  obind (InitBuilder e) (λ eb, obind (get_uint eb.2 key) (λ v, Done (eb.1, v))).

Definition get_double (b : RawDataBuilder) (key : bytes) : Z :=
  match ParseValueByKey b key TyDouble with
  | Some (CFloat _ d) => d
  | _ => match ParseValueByKey b key (TyInt 64) with
    | Some (CInt _ v) => int_to_double v
    | _ => match ParseValueByKey b key (TyUint 64) with Some (CUint _ v) => int_to_double v | _ => 0 end
    end
  end.

Definition GetEventDoubleValue (key : bytes) (e : SysEvent) : outcome (SysEvent * Z) :=
  obind (InitBuilder e) (λ eb, Done (eb.1, get_double eb.2 key)).

(** [ParseArrayValue<T>]: all items through the handler; [None] when one is refused
    or the parameter is of another kind. *)
Fixpoint all_items {A B} (handler : A → outcome (option B)) (l : list A) : outcome (option (list B)) :=
  match l with
  | [] => Done (Some [])
  | x :: l => obind (handler x) (λ y,
      match y with
      | None => Done None
      | Some y => obind (all_items handler l) (λ ys, Done (cons y <$> ys))
      end)
  end.

(** An array of a kind has a value at that kind only; an array of another kind that
    is empty is taken for an empty one. *)
Definition get_array {B} (b : RawDataBuilder) (key : bytes) (ints uints doubles : Z → outcome (option B))
    (texts : bytes → outcome (option B)) : outcome (option (list B)) :=
  match ParseValueByKey b key TyIntVec, ParseValueByKey b key TyUintVec,
        ParseValueByKey b key TyDoubleVec, ParseValueByKey b key TyStringVec with
  | Some (CIntVec _ l), _, _, _ => all_items ints l
  | _, Some (CUintVec _ l), _, _ => all_items uints l
  | _, _, Some (CFloatVec _ l), _ => all_items doubles l
  | _, _, _, Some (CStringVec l) => all_items texts l
  | _, _, _, _ => Done None
  end.

Definition refuse {A B} (x : A) : outcome (option B) := Done None.
Definition take_item {A} (x : A) : outcome (option A) := Done (Some x).

Definition GetEventIntArrayValue (key : bytes) (e : SysEvent) : outcome (SysEvent * option (list Z)) :=
  obind (InitBuilder e) (λ eb, obind (get_array eb.2 key take_item
    (λ v, Done (if v <=? 2 ^ 63 - 1 then Some v else None))
    (λ d, if double_within d (- 2 ^ 63) (2 ^ 63) then obind (double_to_int d (- 2 ^ 63) (2 ^ 63 - 1)) (λ v, Done (Some v))
          else Done None) refuse) (λ l, Done (eb.1, l))).

Definition GetEventUintArrayValue (key : bytes) (e : SysEvent) : outcome (SysEvent * option (list Z)) :=
  obind (InitBuilder e) (λ eb, obind (get_array eb.2 key
    (λ v, Done (if 0 <=? v then Some v else None)) take_item
    (λ d, if double_within d 0 (2 ^ 64) then obind (double_to_int d 0 (2 ^ 64 - 1)) (λ v, Done (Some v))
          else Done None) refuse) (λ l, Done (eb.1, l))).

Definition GetEventDoubleArrayValue (key : bytes) (e : SysEvent) : outcome (SysEvent * option (list Z)) :=
  obind (InitBuilder e) (λ eb, obind (get_array eb.2 key (λ v, Done (Some (int_to_double v))) (λ v, Done (Some (int_to_double v)))
    take_item refuse) (λ l, Done (eb.1, l))).

Definition GetEventStringArrayValue (key : bytes) (e : SysEvent) : outcome (SysEvent * option (list bytes)) :=
  obind (InitBuilder e) (λ eb, obind (get_array eb.2 key refuse refuse refuse take_item) (λ l, Done (eb.1, l))).

(** *** Writing out *)

(** [TryToUpdateRawData]: false when there is no raw data. *)
Definition TryToUpdateRawData (e : SysEvent) : outcome (SysEvent * bool) :=
  match rawData_ e with
  | None => Done (e, false)
  | Some _ =>
      if negb (isUpdated_ e) then Done (e, true) else
      obind (InitBuilder e) (λ eb,
        let '(raw, b) := Build (AppendLog eb.2 (log_ e)) in
        let e := set_raw (set_builder eb.1 (Some b)) raw in
        match raw with
        | None => Done (e, false)
        | Some _ => Done (set_updated e false, true)
        end)
  end.

Definition AsRawData (e : SysEvent) : outcome (SysEvent * option bytes) :=
  obind (TryToUpdateRawData e) (λ eo,
    Done (eo.1, if eo.2 then match rawData_ eo.1 with Some r => GetData r | None => None end else None)).

Fixpoint contains (pat s : bytes) : bool :=
  bool_decide (take (length pat) s = pat) || match s with [] => false | _ :: s => contains pat s end.

(** [AppendJsonValue]: before the last character, unless the key is in the text. *)
Definition AppendJsonValue (eventJson key : bytes) (val : jval) : bytes :=
  if bool_decide (eventJson = []) then [] else
  if contains (quoted key ++ [COLON]) eventJson then eventJson else
  take (length eventJson - 1) eventJson ++ COMMA :: field_text (key, val) ++ drop (length eventJson - 1) eventJson.

Definition SysEvent_AsJsonStr (e : SysEvent) : outcome (SysEvent * bytes) :=
  obind (TryToUpdateRawData e) (λ eo,
    let e := eo.1 in
    match eo.2, rawData_ e with
    | true, Some r =>
        obind (DecodedEvent.DecodedEvent_new (GetData r) (GetDataLength r)) (λ ev,
          let m := marks e in
          let j := AsJsonStr ev in
          let j := if bool_decide (tag_ m = []) then j else AppendJsonValue j (str "tag_") (JText (tag_ m)) in
          let j := if bool_decide (level_ m = []) then j else AppendJsonValue j (str "level_") (JText (level_ m)) in
          let j := if eventSeq_ m >=? 0 then AppendJsonValue j (str "seq_") (JNumber (to_string (eventSeq_ m))) else j in
          let j := if reportInterval_ m =? UNINIT_REPORT_INTERVAL then j
                   else AppendJsonValue j REPORT_INTERVAL_KEY (JNumber (to_string (reportInterval_ m))) in
          Done (e, j))
    | _, _ => Done (e, [])
    end).

Definition SetReportInterval (reportInterval : Z) (e : SysEvent) : outcome SysEvent :=
  let m := marks e in
  if reportInterval_ m =? reportInterval then Done e else
  SetEventValue REPORT_INTERVAL_KEY (CInt 16 reportInterval) false
    (set_marks e (mkMarks (tag_ m) (level_ m) (privacy_ m) (preserve_ m) (collect_ m) (seq_ m) (eventSeq_ m) (invalidParams_ m) reportInterval)).

Definition GetReportInterval (e : SysEvent) : outcome (SysEvent * Z) :=
  let m := marks e in
  if negb (reportInterval_ m =? UNINIT_REPORT_INTERVAL) then Done (e, reportInterval_ m) else
  obind (GetEventIntValue REPORT_INTERVAL_KEY e) (λ ev,
    let i := sgn 16 ev.2 in
    Done (set_marks ev.1 (mkMarks (tag_ m) (level_ m) (privacy_ m) (preserve_ m) (collect_ m) (seq_ m) (eventSeq_ m) (invalidParams_ m) i), i)).

End Methods.

(** The period an event belongs to, and its number in it. *)
Record EventPeriodSeqInfo := mkPeriodSeq { p_timeStamp : bytes; isNeedExport : bool; periodSeq : Z }.

Definition SetEventPeriodSeqInfo (info : EventPeriodSeqInfo) (e : SysEvent) : SysEvent :=
  mkSysEvent (fields e) (marks e) (log_ e) (rawData_ e) (builder_ e) (isUpdated_ e)
    (<[str "period_seq_" := p_timeStamp info ++ [32] ++ (if isNeedExport info then [49] else [48]) ++ [32] ++ to_string (periodSeq info)]>
       (bundle_ e)).

Definition PERIOD_SEQ_INFO_ITEM_CNT : Z := 3.

Definition GetEventPeriodSeqInfo `{Heap, Securec} (e : SysEvent) : outcome (SysEvent * EventPeriodSeqInfo) :=
  let inBundle := default [] (bundle_ e !! str "period_seq_") in
  obind (if bool_decide (inBundle = []) then GetEventValue (str "period_seq_") e else Done (e, inBundle)) (λ es,
    let allInfo := DbFile.SplitStr es.2 [32] in
    Done (es.1,
      if negb (Zlen allInfo =? PERIOD_SEQ_INFO_ITEM_CNT) then mkPeriodSeq [] false 0
      else mkPeriodSeq (allInfo !!! 0%nat) (negb (DbFile.ConvertStringTo 32 (allInfo !!! 1%nat) 0 =? 0))
             (stream_unsigned 64 10 (allInfo !!! 2%nat)))).

(** ** Making raw data *)

(** [TansJsonStrToRawData]; [signed_char] is whether plain [char] is signed. *)
Definition TansJsonStrToRawData `{Heap, Securec} (signed_char : bool) (jsonStr : bytes) : outcome (option RawData) :=
  obind (JsonParser.Parse signed_char jsonStr) (λ b, Done (Build b).1).

(** [SysEventCreator]: the clock, the zone and the identifiers of the process are
    arguments; [sets] are the calls of [SetKeyValue]. *)
Definition SysEventCreator (domain eventName : bytes) (type now : Z) (zone : bytes) (pid tid uid : Z) : RawDataBuilder :=
  AppendUid (AppendTid (AppendPid (AppendTimeZone (AppendTimeStamp (AppendType (AppendName (AppendDomain
    RawDataBuilder_new domain) eventName) type) now) zone) pid) tid) uid.

Definition SetKeyValue (key : bytes) (value : CppVal) (b : RawDataBuilder) : RawDataBuilder :=
  AppendValue b key (match value with
    | CStringVec ss => CStringVec (EscapeJsonStringValue <$> ss)
    | CString s => CString (EscapeJsonStringValue s)
    | v => v
    end).

End SysEvent.
