(* ===== verification/SysEventFacts.v ===== *)
(** * SysEventFacts: what an event keeps

    The raw data and the builder of an event always say the same: seen as a
    header, a trace and a map from keys to values, every call on the event is the
    corresponding change of that map, and what [AsRawData] returns decodes to it. *)

From S2P Require Import Prelude Platform RawData Encoder Decoder Params EventHeader Text FloatText.
From S2P Require Import Builder BuilderFacts BuilderOps Rebuild JsonPrint JsonParse SysEvent.
From S2P Require DecodedEvent.
From stdpp Require Import base gmap list numbers strings.

Local Open Scope Z_scope.
Local Open Scope hv_scope.

Module SysEventFacts.
Import SysEvent.
Import DecodedEvent (outcome, Done, Undefined, obind).

(** ** The meaning of a builder and of raw data *)

Record Meaning := mkMeaning { m_header : HiSysEventHeader; m_trace : TraceInfo; m_params : gmap bytes PValue }.

Definition meaning (b : RawDataBuilder) : Meaning :=
  mkMeaning (padded_header (header_ b)) (DecodedEvent.opened_trace (header_ b) (traceInfo_ b)) (dict b).

Definition event_size (M : Meaning) : Z :=
  89 + (if isTraceOpened (m_header M) =? 1 then 17 else 0) +
  sum_of (λ kv, Zlen (param_bytes kv.1 kv.2)) (map_to_list (m_params M)).

(** Within what the decoder accepts. *)
Definition M_fits (M : Meaning) : Prop :=
  Z.of_nat (size (m_params M)) <= DecodedEvent.MAX_PARAM_CNT ∧ event_size M <= DecodedEvent.MAX_BLOCK_SIZE.

#[global] Instance M_fits_dec M : Decision (M_fits M).
Proof. unfold M_fits. apply _. Defined.

Definition with_id (v : Z) (h : HiSysEventHeader) : HiSysEventHeader :=
  mkHeader (domain h) (name h) (timestamp h) (timeZone h) (uid h) (pid h) (tid h) v (type h) (isTraceOpened h) (log h).
Definition with_log (v : Z) (h : HiSysEventHeader) : HiSysEventHeader :=
  mkHeader (domain h) (name h) (timestamp h) (timeZone h) (uid h) (pid h) (tid h) (id h) (type h) (isTraceOpened h) v.

Definition M_header (f : HiSysEventHeader → HiSysEventHeader) (M : Meaning) : Meaning :=
  mkMeaning (f (m_header M)) (m_trace M) (m_params M).
Definition M_params (f : gmap bytes PValue → gmap bytes PValue) (M : Meaning) : Meaning :=
  mkMeaning (m_header M) (m_trace M) (f (m_params M)).

Section Sizes.

Lemma params_bytes_sum ps :
  Zlen (DecodedEvent.params_bytes ps) =
  sum_of (λ p, Zlen (param_bytes (DecodedEvent.dkey_ p) (DecodedEvent.dval_ p))) ps.
Proof.
  unfold DecodedEvent.params_bytes. induction ps as [|p ps IH]; [done|].
  rewrite fmap_cons. cbn [concat]. rewrite Zlen_app, sum_of_cons, IH. done.
Qed.

Lemma entries_perm b : builder_ok b → map_to_list (dict b) ≡ₚ entries (allParams_ b).
Proof. intros (_ & _ & _ & Hn). apply map_to_list_to_map. by rewrite entries_fst. Qed.

Lemma builder_block_size b : builder_ok b → Zlen (builder_block b) = event_size (meaning b).
Proof.
  intros Hb. pose proof Hb as (((Hd & Hn & _) & _) & _). unfold builder_block, DecodedEvent.event_block, DecodedEvent.event_body, event_size.
  rewrite !Zlen_app, !Zlen_le_bytes, header_bytes_len, params_bytes_sum by done. cbn [m_header m_params meaning padded_header isTraceOpened].
  rewrite (sum_of_perm _ _ _ (entries_perm b Hb)). unfold builder_params, entries. rewrite !sum_of_fmap.
  cbn [DecodedEvent.dkey_ DecodedEvent.dval_ carried fst snd]. unfold SIZEOF_HEADER.
  destruct (_ =? 1); [rewrite trace_bytes_len; unfold SIZEOF_TRACE_INFO|change (Zlen []) with 0]; lia.
Qed.

Lemma builder_param_cnt b : builder_ok b → GetParamCnt b = Z.of_nat (size (dict b)).
Proof.
  intros Hb. unfold GetParamCnt, Zlen. rewrite <- length_map_to_list, (Permutation_length (entries_perm b Hb)).
  unfold entries. by rewrite length_fmap.
Qed.

Lemma builder_fits b : builder_ok b → M_fits (meaning b) →
  GetParamCnt b <= DecodedEvent.MAX_PARAM_CNT ∧ Zlen (builder_block b) <= DecodedEvent.MAX_BLOCK_SIZE.
Proof. intros Hb [Hc Hs]. by rewrite builder_param_cnt, builder_block_size. Qed.

End Sizes.

(** *** Where identifier and log stand in a block *)

Section Bytes.

Lemma le_bytes_one z : le_bytes 1 z = [z mod 256].
Proof. reflexivity. Qed.

Lemma block_at_id b :
  builder_ok b → ∃ A B, length A = 75%nat ∧ builder_block b = A ++ le_bytes 8 (id (header_ b)) ++ B ∧
    ∀ v, builder_block (AppendId b v) = A ++ le_bytes 8 (u64 v) ++ B.
Proof.
  intros Hb. pose proof Hb as (((Hd & Hn & _) & _) & _). set (h := header_ b) in *.
  assert (∀ v, Zlen (DecodedEvent.event_body (header_ (AppendId b v)) (traceInfo_ b) (builder_params b)) =
               Zlen (DecodedEvent.event_body h (traceInfo_ b) (builder_params b))) as El.
  { intros v. unfold DecodedEvent.event_body. rewrite !Zlen_app, !header_bytes_len by done. done. }
  exists (le_bytes 4 (4 + Zlen (DecodedEvent.event_body h (traceInfo_ b) (builder_params b))) ++
          domain h ++ name h ++ le_bytes 8 (timestamp h) ++ le_bytes 1 (timeZone h) ++
          le_bytes 4 (uid h) ++ le_bytes 4 (pid h) ++ le_bytes 4 (tid h)).
  eexists. split; [|split].
  - rewrite !length_app, !length_le_bytes, Hd, Hn. done.
  - unfold builder_block, DecodedEvent.event_block. fold h. unfold DecodedEvent.event_body at 2, header_bytes. rewrite <- !app_assoc. reflexivity.
  - intros v. unfold builder_block, DecodedEvent.event_block. change (traceInfo_ (AppendId b v)) with (traceInfo_ b).
    change (builder_params (AppendId b v)) with (builder_params b). rewrite El.
    unfold DecodedEvent.event_body at 2, header_bytes. rewrite <- !app_assoc. reflexivity.
Qed.

Lemma block_at_log b :
  builder_ok b → ∃ A B, length A = 84%nat ∧ builder_block b = A ++ le_bytes 1 (log (header_ b)) ++ B ∧
    ∀ v, builder_block (AppendLog b v) = A ++ le_bytes 1 (u8 v) ++ B.
Proof.
  intros Hb. pose proof Hb as (((Hd & Hn & _) & _) & _). set (h := header_ b) in *.
  assert (∀ v, Zlen (DecodedEvent.event_body (header_ (AppendLog b v)) (traceInfo_ b) (builder_params b)) =
               Zlen (DecodedEvent.event_body h (traceInfo_ b) (builder_params b))) as El.
  { intros v. unfold DecodedEvent.event_body. rewrite !Zlen_app, !header_bytes_len by done. done. }
  exists (le_bytes 4 (4 + Zlen (DecodedEvent.event_body h (traceInfo_ b) (builder_params b))) ++
          domain h ++ name h ++ le_bytes 8 (timestamp h) ++ le_bytes 1 (timeZone h) ++
          le_bytes 4 (uid h) ++ le_bytes 4 (pid h) ++ le_bytes 4 (tid h) ++ le_bytes 8 (id h) ++
          [type h mod 4 + 4 * (isTraceOpened h mod 2)]).
  eexists. split; [|split].
  - rewrite !length_app, !length_le_bytes, Hd, Hn. done.
  - unfold builder_block, DecodedEvent.event_block. fold h. unfold DecodedEvent.event_body at 2, header_bytes. rewrite <- !app_assoc. reflexivity.
  - intros v. unfold builder_block, DecodedEvent.event_block. change (traceInfo_ (AppendLog b v)) with (traceInfo_ b).
    change (builder_params (AppendLog b v)) with (builder_params b). rewrite El.
    unfold DecodedEvent.event_body at 2, header_bytes. rewrite <- !app_assoc. reflexivity.
Qed.

End Bytes.


(** ** Escaping *)

(** Texts are escaped when they are set; unescaping gives them back. *)
Lemma unescape_escape s : UnescapeJsonStringValue (EscapeJsonStringValue s) = s.
Proof.
  unfold UnescapeJsonStringValue, EscapeJsonStringValue. induction s as [|c s IH]; [done|].
  rewrite bind_cons. repeat case_match; cbn [app Unescape]; zbool; subst; cbn; try (by rewrite IH).
  rewrite (proj2 (Z.eqb_neq c 92)) by done. by rewrite IH.
Qed.

(** ** Doubles read as integers *)

Section Doubles.

(** The double [2 ^ k]. *)
Definition double_pow2 (k : Z) : Z := (1023 + k) * 2 ^ 52.

Lemma double_parts_bits d :
  is_u 64 d →
  ∃ s e m, 0 <= s <= 1 ∧ 0 <= e < 2048 ∧ 0 <= m < 2 ^ 52 ∧ d = s * 2 ^ 63 + e * 2 ^ 52 + m ∧
    double_parts d = if e =? 2047 then None
      else Some (s =? 1, if e =? 0 then m else m + 2 ^ 52, Z.max e 1 - 1075).
Proof.
  unfold is_u. intros Hd. exists (d / 2 ^ 63), (d / 2 ^ 52 mod 2048), (d mod 2 ^ 52).
  pose proof (Z.div_mod d (2 ^ 52) ltac:(lia)). pose proof (Z.mod_pos_bound d (2 ^ 52) ltac:(lia)).
  pose proof (Z.div_mod (d / 2 ^ 52) 2048 ltac:(lia)). pose proof (Z.mod_pos_bound (d / 2 ^ 52) 2048 ltac:(lia)).
  assert (d / 2 ^ 63 = d / 2 ^ 52 / 2048) as E by (by rewrite Z.div_div by lia).
  assert (0 <= d / 2 ^ 63 <= 1) as Hs by (split; [apply Z.div_pos; lia|apply Z.lt_succ_r, Z.div_lt_upper_bound; lia]).
  split_and!; try lia. unfold double_parts. rewrite Z.shiftr_div_pow2 by lia.
  assert (Z.land (d / 2 ^ 52) 2047 = d / 2 ^ 52 mod 2048) as -> by exact (Z.land_ones _ 11 ltac:(lia)).
  rewrite Z.land_ones by lia. case_match; [done|]. do 3 f_equal.
  rewrite Z.testbit_eqb by lia. by rewrite Z.mod_small by lia.
Qed.

(** A double from [lo] to [2 ^ k] has its integer part there, or is [2 ^ k]. *)
Lemma double_to_int_undefined d lo k :
  is_u 64 d → 53 <= k <= 64 → lo <= 0 → double_within d lo (2 ^ k) = true →
  double_to_int d lo (2 ^ k - 1) = Undefined UB_Conversion ↔ d = double_pow2 k.
Proof.
  intros Hd Hk Hlo. destruct (double_parts_bits d Hd) as (s & e & m & Hs & He & Hm & Ed & Hp).
  unfold double_within, double_to_int. rewrite Hp. destruct (Z.eqb_spec e 2047) as [?|He7]; [done|].
  set (m' := if e =? 0 then m else m + 2 ^ 52). set (p := Z.max e 1 - 1075).
  assert (0 <= m' < 2 ^ 53) as Hm' by (subst m'; case_match; lia).
  assert (d = double_pow2 k ↔ s = 0 ∧ e = 1023 + k ∧ m = 0) as -> by (unfold double_pow2; lia).
  set (t := if 0 <=? p then m' * 2 ^ p else m' / 2 ^ (- p)).
  assert (0 <= t) as Ht0.
  { subst t. destruct (Z.leb_spec 0 p); [apply Z.mul_nonneg_nonneg|apply Z.div_pos]; lia. }
  assert (∀ n, magnitude_le m' p n = true → t <= n) as Hle.
  { intros n. unfold magnitude_le. subst t. destruct (Z.leb_spec 0 p); intros Hn; [lia|].
    apply Z.leb_le in Hn. apply Z.div_le_upper_bound; lia. }
  destruct (Z.eqb_spec s 1) as [Es|Es]; intros Hin; apply Hle in Hin.
  - rewrite (proj2 (Z.leb_le lo (- t))), (proj2 (Z.leb_le (- t) (2 ^ k - 1))) by lia.
    cbn [andb]. split; [done|lia].
  - rewrite (proj2 (Z.leb_le lo t)) by lia. cbn [andb]. destruct (Z.leb_spec t (2 ^ k - 1)) as [Hlt|Hgt].
    + split; [done|]. intros (_ & -> & ->). exfalso.
      assert (t = 2 ^ k); [|lia]. subst t p m'. rewrite (proj2 (Z.eqb_neq (1023 + k) 0)) by lia.
      rewrite Z.max_l by lia. rewrite (proj2 (Z.leb_le _ _)) by lia. rewrite Z.add_0_l, <- Z.pow_add_r by lia. f_equal. lia.
    + split; [intros _|done]. assert (t = 2 ^ k) as Et by lia. clear Hin Hgt Hle Hp.
      assert (2 ^ 53 <= 2 ^ k) as H53 by (apply Z.pow_le_mono_r; lia).
      assert (0 <= p) as Hp0.
      { destruct (Z.leb_spec 0 p); [done|]. exfalso. subst t. assert (m' / 2 ^ (- p) <= m'); [|lia].
        apply Z.div_le_upper_bound; [lia|]. pose proof (Z.pow_pos_nonneg 2 (- p) ltac:(lia) ltac:(lia)). nia. }
      subst t. rewrite (proj2 (Z.leb_le 0 p) Hp0) in Et. assert (e ≠ 0) as He0 by (subst p; lia).
      subst m'. rewrite (proj2 (Z.eqb_neq e 0)) in * by done.
      assert (e - 1075 = p) as Ep by (subst p; lia). clearbody p.
      assert (p = k - 52) as ->.
      { destruct (Z.lt_trichotomy p (k - 52)) as [Hlt|[?|Hgt]]; [|done|]; exfalso.
        - assert (2 ^ k = 2 ^ (k - 53 - p) * (2 ^ 53 * 2 ^ p)) as E2 by (rewrite <- !Z.pow_add_r by lia; f_equal; lia).
          pose proof (Z.pow_pos_nonneg 2 (k - 53 - p) ltac:(lia) ltac:(lia)). pose proof (Z.pow_pos_nonneg 2 p ltac:(lia) ltac:(lia)). nia.
        - assert (2 ^ p = 2 ^ (p - (k - 51)) * 2 ^ (k - 51)) as E2 by (rewrite <- !Z.pow_add_r by lia; f_equal; lia).
          assert (2 ^ k = 2 ^ 51 * 2 ^ (k - 51)) as E3 by (rewrite <- !Z.pow_add_r by lia; f_equal; lia).
          pose proof (Z.pow_pos_nonneg 2 (p - (k - 51)) ltac:(lia) ltac:(lia)). pose proof (Z.pow_pos_nonneg 2 (k - 51) ltac:(lia) ltac:(lia)). nia. }
      assert (2 ^ k = 2 ^ 52 * 2 ^ (k - 52)) as E3 by (rewrite <- !Z.pow_add_r by lia; f_equal; lia).
      pose proof (Z.pow_pos_nonneg 2 (k - 52) ltac:(lia) ltac:(lia)). split_and!; [lia|lia|]. nia.
Qed.

(** A double is not read as an integer before it is read as a double. *)
Lemma double_not_integer b key d w :
  ParseValueByKey b key TyDouble = Some (CFloat TDouble d) →
  ParseValueByKey b key (TyInt w) = None ∧ ParseValueByKey b key (TyUint w) = None.
Proof.
  unfold ParseValueByKey, GetBaseInfoValueByKey, ParseText, ParseInt, ParseTimeZoneFromHeader, ParseAndSetTraceInfo, ParseUnsigned, GetValueByKey.
  destruct (IsBaseInfo key); [repeat case_match; done|].
  destruct (GetValue b key) as [p|]; cbn; [|done]. by destruct (pval_ p).
Qed.

Context `{HP : Heap} `{SC : Securec}.

(** C40: reading a parameter that is a double as an integer is defined except at one
    value: the bound of the type is compared as a double, which rounds it up, so
    [2 ^ 63] passes the check of [GetEventIntValue] and [2 ^ 64] the one of
    [GetEventUintValue], and neither has a conversion to the type. *)
Theorem double_read_undefined e e' b key d :
  InitBuilder e = Done (e', b) → ParseValueByKey b key TyDouble = Some (CFloat TDouble d) → is_u 64 d →
  (GetEventIntValue key e = Undefined UB_Conversion ↔ d = double_pow2 63) ∧
  (GetEventUintValue key e = Undefined UB_Conversion ↔ d = double_pow2 64).
Proof.
  intros HI HD Hd. destruct (double_not_integer b key d 64 HD) as [Ei Eu].
  unfold GetEventIntValue, GetEventUintValue, get_int, get_uint. rewrite HI. cbn [obind fst snd]. rewrite HD, Ei, Eu.
  split.
  - destruct (double_within d (- 2 ^ 63) (2 ^ 63)) eqn:HW.
    + rewrite <- (double_to_int_undefined d (- 2 ^ 63) 63) by (done || lia). destruct double_to_int; cbn; split; congruence.
    + split; [done|]. intros ->. by vm_compute in HW.
  - destruct (double_within d 0 (2 ^ 64)) eqn:HW.
    + rewrite <- (double_to_int_undefined d 0 64) by (done || lia). destruct double_to_int; cbn; split; congruence.
    + split; [done|]. intros ->. by vm_compute in HW.
Qed.

End Doubles.

(** ** Raw data and builder say the same *)

Section Sync.
Context `{HP : Heap} `{SC : Securec} `{!HeapTotal HP}.

Definition Holds (r : RawData) (M : Meaning) : Prop :=
  ∃ b, builder_ok b ∧ meaning b = M ∧ usable r ∧ contents r = builder_block b.

Definition Sync (e : SysEvent) (M : Meaning) : Prop :=
  M_fits M ∧ log_ e = log (m_header M) ∧
  (∃ r M', rawData_ e = Some r ∧ Holds r M' ∧ M_fits M' ∧ (isUpdated_ e = false → M' = M)) ∧
  match builder_ e with
  | Some b => builder_ok b ∧ meaning b = M
  | None => isUpdated_ e = false
  end.

Lemma padded_header_idem h : header_inv h → padded_header (padded_header h) = padded_header h.
Proof.
  intros [(Hd & Hn & _) [Hd0 Hn0]].
  assert (∀ n s, (length s < n)%nat → 0 ∉ s → c_str (padded n s) = s) as Hc.
  { intros n s Hl. unfold padded. assert (∃ k, (n - length s)%nat = S k) as [k ->] by (exists (n - length s - 1)%nat; lia).
    clear Hl. induction s as [|c s IH]; intros H0; [done|]. cbn [c_str app]. apply not_elem_of_cons in H0 as [Hne H0].
    rewrite (proj2 (Z.eqb_neq c 0)) by done. by rewrite IH. }
  pose proof (c_str_short 16 _ Hd Hd0). pose proof (c_str_short 32 _ Hn Hn0).
  unfold padded_header. cbn. rewrite !Hc by (lia || apply c_str_no_nul). done.
Qed.

(** A builder read from raw data, and what the first read or write makes. *)
Lemma holds_rebuild r M : Holds r M → M_fits M → ∃ b, RawDataBuilder_from (Some r) = Done b ∧ builder_ok b ∧ meaning b = M.
Proof.
  intros (b & Hb & <- & Hu & Hc) HF. destruct (builder_fits b Hb HF) as [Hcnt Hsize].
  destruct (rebuild_from_block b r Hb Hcnt Hsize Hu Hc) as (b' & HR & Hb' & Hh & Ht & _ & Hd).
  exists b'. split_and!; [done..|]. unfold meaning. rewrite Hh, Ht, Hd, padded_header_idem by apply Hb.
  f_equal. unfold DecodedEvent.opened_trace, padded_header. cbn. by destruct (_ =? 1).
Qed.

Lemma init_builder e M :
  Sync e M → ∃ b, InitBuilder e = Done (set_builder e (Some b), b) ∧ builder_ok b ∧ meaning b = M.
Proof.
  intros (HF & _ & (r & M' & Hr & HH & HF' & HM) & Hb). unfold InitBuilder. destruct (builder_ e) as [b|] eqn:E.
  - exists b. split; [|done]. destruct e; cbn in *. by subst.
  - rewrite Hr. destruct (holds_rebuild r M' HH HF') as (b & -> & Hok & Hm). exists b.
    split; [done|]. rewrite Hm, HM by done. done.
Qed.

Lemma set_builder_sync e M b : Sync e M → builder_ok b → meaning b = M → Sync (set_builder e (Some b)) M.
Proof. intros (HF & Hl & HR & _) Hb Hm. by split_and!. Qed.

(** A change of the parameters through the builder. *)
Lemma update_sync e M b f :
  Sync e M → builder_ok b → meaning b = M_params f M → M_fits (M_params f M) →
  Sync (set_updated (set_builder e (Some b)) true) (M_params f M).
Proof.
  intros (HF & Hl & (r & M' & Hr & HH & HF' & HM) & _) Hb Hm HF2. split_and!; try done.
  exists r, M'. by split_and!.
Qed.

(** *** Writing in place *)

Lemma usable_block r b : usable r → contents r = builder_block b → len_ r = Zlen (builder_block b).
Proof. intros Hu <-. by apply usable_len. Qed.

Lemma meaning_id b v : is_u 64 v → meaning (AppendId b v) = M_header (with_id v) (meaning b).
Proof. intros Hv. unfold meaning, M_header, AppendId, with_id. cbn. by rewrite u64_small. Qed.

Lemma meaning_log b v : meaning (AppendLog b v) = M_header (with_log (u8 v)) (meaning b).
Proof. done. Qed.

Lemma fits_header f M : isTraceOpened (f (m_header M)) = isTraceOpened (m_header M) → M_fits M → M_fits (M_header f M).
Proof. unfold M_fits, event_size. cbn. intros ->. done. Qed.

Lemma holds_set_id r M v :
  Holds r M → M_fits M → is_u 64 v → Holds (Update r (Some (le_bytes 8 v)) 8 75).2 (M_header (with_id v) M).
Proof.
  intros (b & Hb & <- & Hu & Hc) HF Hv. destruct (block_at_id b Hb) as (A & B & HA & HAB & Hnew).
  destruct (builder_fits b Hb HF) as [_ Hsize]. rewrite HAB in Hsize.
  pose proof (usable_block r b Hu Hc) as Hl. rewrite HAB, !Zlen_app, Zlen_le_bytes in Hl.
  rewrite !Zlen_app, Zlen_le_bytes in Hsize. pose proof (Zlen_nonneg B).
  assert (Zlen A = 75) as HA' by (unfold Zlen; by rewrite HA). unfold DecodedEvent.MAX_BLOCK_SIZE in Hsize.
  destruct (Update_spec r (le_bytes 8 v) 75 Hu) as (r' & HU & Hu' & _ & Hc');
    [by destruct (le_bytes 8 v) eqn:E; [apply (f_equal length) in E; rewrite length_le_bytes in E|]|lia|rewrite Zlen_le_bytes; unfold LEN_MAX; lia|].
  rewrite Zlen_le_bytes in HU. change (Z.of_nat 8) with 8 in HU. rewrite HU. cbn [snd]. exists (AppendId b v).
  split_and!; [by apply AppendId_ok|by apply meaning_id|done|].
  rewrite Hc', Hc, Hnew, HAB, Zlen_le_bytes, u64_small by done. change (Z.of_nat 8) with 8.
  change (Z.to_nat 75) with 75%nat. rewrite <- HA at 1. rewrite take_app_length. do 2 f_equal.
  replace (Z.to_nat (75 + 8)) with (length (A ++ le_bytes 8 (id (header_ b)))) by (by rewrite length_app, length_le_bytes, HA).
  by rewrite (app_assoc A), drop_app_length.
Qed.

Lemma holds_set_log r d M v :
  Holds r M → data_ r = Some d → Holds (mkRawData (Some (<[84%nat := u8 v]> d)) (len_ r) (capacity_ r)) (M_header (with_log (u8 v)) M).
Proof.
  intros (b & Hb & <- & Hu & Hc) Hd. destruct (block_at_log b Hb) as (A & B & HA & HAB & Hnew).
  pose proof (usable_block r b Hu Hc) as Hl. pose proof Hu as [[Hlen Hcap] [_ Hc22]]. rewrite Hd in Hcap.
  unfold contents in Hc. rewrite Hd in Hc. exists (AppendLog b v). split_and!; [by apply AppendLog_ok|done|..].
  - split; [split; [done|]|split; [by eexists|done]]. cbn. unfold Zlen. rewrite length_insert. done.
  - unfold contents. cbn [data_ len_]. rewrite Hnew.
    rewrite <- (take_drop (Z.to_nat (len_ r)) d), Hc, HAB. rewrite HAB, !Zlen_app, Zlen_le_bytes in Hl.
    assert (Zlen A = 84) as HA' by (unfold Zlen; by rewrite HA).
    rewrite !le_bytes_one, <- app_assoc. rewrite <- HA at 1. rewrite <- (Nat.add_0_r (length A)) at 1. rewrite insert_app_r. cbn [app insert list_insert].
    replace (Z.to_nat (len_ r)) with (length (A ++ u8 v :: B)) by (rewrite length_app; cbn [length]; unfold Zlen in *; lia).
    rewrite app_comm_cons, app_assoc, take_app_length. do 2 f_equal.
    unfold u8. change (2 ^ 8) with 256. by rewrite Z.mod_mod.
Qed.

End Sync.

(** ** Operations *)

Inductive EventOp :=
  | OpSetId (id : Z)
  | OpSetLog (log : Z)
  | OpSetValue (key : bytes) (v : CppVal) (append : bool)
  | OpRemove (key : bytes)
  | OpRead
  | OpAsRaw.

(** The value a key gets. *)
Definition new_value (m : gmap bytes PValue) (key : bytes) (v : CppVal) (append : bool) : CppVal :=
  match v with
  | CString s =>
      let s := match append, m !! key with
        | true, Some (PString old) => UnescapeJsonStringValue old ++ s
        | _, _ => s
        end in
      CString (EscapeJsonStringValue s)
  | v => v
  end.

(** What an operation means. *)
Definition spec_op (o : EventOp) (M : Meaning) : Meaning :=
  match o with
  | OpSetId id => M_header (with_id id) M
  | OpSetLog log => M_header (with_log (u8 log)) M
  | OpSetValue key v append => M_params (λ m, <[key := stored_value (new_value m key v append)]> m) M
  | OpRemove key => M_params (delete key) M
  | OpRead | OpAsRaw => M
  end.

Definition op_ok (o : EventOp) (M : Meaning) : Prop :=
  match o with
  | OpSetId id => is_u 64 id
  | OpSetValue key v append =>
      IsBaseInfo key = false ∧ cpp_ok v ∧ fits key (new_value (m_params M) key v append)
  | _ => True
  end.

#[global] Instance op_ok_dec o M : Decision (op_ok o M).
Proof. destruct o; cbn; unfold fits; apply _. Defined.

Fixpoint ops_ok (os : list EventOp) (M : Meaning) : Prop :=
  match os with
  | [] => True
  | o :: os => op_ok o M ∧ M_fits (spec_op o M) ∧ ops_ok os (spec_op o M)
  end.

#[global] Instance ops_ok_dec os M : Decision (ops_ok os M).
Proof. revert M; induction os as [|o os IH]; intros; cbn; apply _. Defined.

Section Operations.
Context `{HP : Heap} `{SC : Securec} `{!HeapTotal HP}.

Definition run_op (o : EventOp) (e : SysEvent) : outcome SysEvent :=
  match o with
  | OpSetId id => Done (SetId id e)
  | OpSetLog log => Done (SetLog log e)
  | OpSetValue key v append => SetEventValue key v append e
  | OpRemove key => SysEvent_RemoveParam key e
  | OpRead => obind (InitBuilder e) (λ eb, Done eb.1)
  | OpAsRaw => obind (AsRawData e) (λ ed, Done ed.1)
  end.

Fixpoint run_ops (os : list EventOp) (e : SysEvent) : outcome SysEvent :=
  match os with [] => Done e | o :: os => obind (run_op o e) (run_ops os) end.

Lemma sync_set_id e M id : Sync e M → is_u 64 id → Sync (SetId id e) (M_header (with_id id) M).
Proof.
  intros (HF & Hl & (r & M' & Hr & HH & HF' & HM) & Hb) Hid. unfold SetId. rewrite Hr.
  pose proof HH as (b0 & _ & _ & [_ [[d Hd] _]] & _). unfold GetData. rewrite Hd.
  split_and!; [by apply fits_header|done| |].
  - eexists _, (M_header (with_id id) M'). split_and!; [done|by apply holds_set_id|by apply fits_header|].
    intros Hu. by rewrite (HM Hu).
  - cbn. destruct (builder_ e) as [b|]; [|done]. destruct Hb as [Hb <-]. split; [by apply AppendId_ok|by apply meaning_id].
Qed.

Lemma sync_set_log e M l : Sync e M → Sync (SetLog l e) (M_header (with_log (u8 l)) M).
Proof.
  intros (HF & Hl & (r & M' & Hr & HH & HF' & HM) & Hb). unfold SetLog. cbn [rawData_ set_log]. rewrite Hr.
  pose proof HH as (b0 & _ & _ & [_ [[d Hd] _]] & _). rewrite Hd.
  split_and!; [by apply fits_header|done| |].
  - eexists _, (M_header (with_log (u8 l)) M'). split_and!; [done|by apply holds_set_log|by apply fits_header|].
    intros Hu. by rewrite (HM Hu).
  - cbn. destruct (builder_ e) as [b|]; [|done]. destruct Hb as [Hb <-]. split; [by apply AppendLog_ok|done].
Qed.

Lemma new_value_ok m key v append : cpp_ok v → cpp_ok (new_value m key v append).
Proof. by destruct v. Qed.

Lemma sync_set_value e M key v append :
  Sync e M → op_ok (OpSetValue key v append) M → M_fits (spec_op (OpSetValue key v append) M) →
  ∃ e', SetEventValue key v append e = Done e' ∧ Sync e' (spec_op (OpSetValue key v append) M).
Proof.
  intros HS (Hk & Hv & Hf) HF. destruct (init_builder e M HS) as (b & HI & Hb & Hm). unfold SetEventValue. rewrite HI. cbn [obind fst snd].
  set (v' := match v with CString _ => _ | v => v end).
  assert (v' = new_value (m_params M) key v append) as ->.
  { subst v'. rewrite <- Hm. cbn [m_params meaning]. destruct v; cbn [new_value]; try done. unfold GetValue, dict.
    rewrite <- FindParam_map. by destruct append, (FindParam key (allParams_ b)) as [[? []]|]. }
  eexists. split; [done|]. set (f := λ m, <[key:=stored_value (new_value m key v append)]> m).
  destruct (AppendValue_param b key (new_value (m_params M) key v append) Hk (new_value_ok _ _ _ _ Hv) Hf) as (p & Ep & Hpk & Hpv & _).
  apply (update_sync (set_builder e (Some b)) M _ f).
  - by apply set_builder_sync.
  - apply AppendValue_ok; [done|by apply new_value_ok|done].
  - rewrite Ep. rewrite <- Hm. unfold meaning, M_params, f. cbn [header_ traceInfo_ upd_params m_header m_trace m_params]. f_equal.
    unfold dict. cbn [allParams_ upd_params]. fold (entries (ReplaceOrAdd p (allParams_ b))) (entries (allParams_ b)).
    rewrite ReplaceOrAdd_map, Hpk, Hpv, <- Hm. done.
  - exact HF.
Qed.

Lemma sync_remove e M key :
  Sync e M → M_fits (M_params (delete key) M) → ∃ e', SysEvent_RemoveParam key e = Done e' ∧ Sync e' (M_params (delete key) M).
Proof.
  intros HS HF. destruct (init_builder e M HS) as (b & HI & Hb & Hm). unfold SysEvent_RemoveParam. rewrite HI. cbn [obind fst snd].
  eexists. split; [done|]. apply (update_sync (set_builder e (Some b)) M).
  - by apply set_builder_sync.
  - by apply RemoveParam_ok.
  - rewrite <- Hm. assert (dict (RemoveParam b key) = delete key (dict b)) as Hd by exact (dict_call_spec b (CallRemove key) Hb I).
    unfold meaning. by rewrite Hd.
  - exact HF.
Qed.

Lemma sync_as_raw e M :
  Sync e M → ∃ e' r, TryToUpdateRawData e = Done (e', true) ∧ rawData_ e' = Some r ∧ Holds r M ∧ Sync e' M.
Proof.
  intros HS. pose proof HS as (HF & Hl & (r & M' & Hr & HH & HF' & HM) & _). unfold TryToUpdateRawData. rewrite Hr.
  destruct (isUpdated_ e) eqn:Hu; cbn [negb].
  - destruct (init_builder e M HS) as (b & HI & Hb & Hm). rewrite HI. cbn [obind fst snd].
    set (b' := AppendLog b (log_ e)). assert (builder_ok b') as Hb' by by apply AppendLog_ok.
    assert (meaning b' = M) as Hm'.
    { subst b'. rewrite meaning_log, Hl, <- Hm. unfold M_header, meaning, with_log, padded_header. cbn.
      pose proof Hb as (((_ & _ & _ & _ & _ & _ & _ & _ & _ & _ & Hlog) & _) & _). by rewrite u8_small. }
    assert (Zlen (builder_block b') <= DecodedEvent.MAX_BLOCK_SIZE) as Hsize by (apply builder_fits; [done|by rewrite Hm']).
    destruct (Build_spec b' Hb') as (r' & HB & Hu' & Hc); [unfold DecodedEvent.MAX_BLOCK_SIZE, LEN_MAX in *; lia|].
    rewrite HB. eexists _, r'. assert (Holds r' M) as HH' by by exists b'. split_and!; [done|done|done|].
    split_and!; [done|done| |done]. exists r', M. by split_and!.
  - exists e, r. rewrite HM in HH by done. by split_and!.
Qed.

Lemma run_op_sync o e M :
  Sync e M → op_ok o M → M_fits (spec_op o M) → ∃ e', run_op o e = Done e' ∧ Sync e' (spec_op o M).
Proof.
  intros HS Ho HF. destruct o as [id|l|key v append|key| |]; cbn [run_op spec_op] in *.
  - eexists. split; [done|]. by apply sync_set_id.
  - eexists. split; [done|]. by apply sync_set_log.
  - by apply sync_set_value.
  - by apply sync_remove.
  - destruct (init_builder e M HS) as (b & -> & Hb & Hm). eexists. split; [done|]. by apply set_builder_sync.
  - destruct (sync_as_raw e M HS) as (e' & r & HT & Hr & _ & HS'). unfold AsRawData. rewrite HT. by eexists.
Qed.

Lemma run_ops_sync os e M :
  Sync e M → ops_ok os M → ∃ e', run_ops os e = Done e' ∧ Sync e' (foldl (λ M o, spec_op o M) M os).
Proof.
  revert e M. induction os as [|o os IH]; intros e M HS Ho; cbn [run_ops foldl]; [by eexists|].
  destruct Ho as (Ho & HF & Hos). destruct (run_op_sync o e M HS Ho HF) as (e' & -> & HS'). cbn [obind]. by apply IH.
Qed.

(** The event made from a builder's block. *)
Lemma new_event_sync b r seq now :
  builder_ok b → M_fits (meaning b) → usable r → contents r = builder_block b →
  ∃ e, SysEvent_new (Some r) seq now = Done e ∧ Sync e (meaning b) ∧
    domain_ (fields e) = GetDomain b ∧ eventName_ (fields e) = GetName b ∧ eventType_ (fields e) = GetEventType b.
Proof.
  intros Hb HF Hu Hc. pose proof (usable_block r b Hu Hc) as Hl. pose proof Hu as [_ [[d Hd] _]].
  assert (GetValidDataMinimumByteCount <= Zlen (builder_block b)) as Hmin.
  { rewrite builder_block_size by done. unfold event_size. change GetValidDataMinimumByteCount with 85.
    assert (0 <= sum_of (λ kv : bytes * PValue, Zlen (param_bytes kv.1 kv.2)) (map_to_list (m_params (meaning b)))) by (apply sum_of_nonneg; intros; apply Zlen_nonneg).
    case_match; lia. }
  unfold SysEvent_new, GetData, GetDataLength. rewrite Hd, Hl. zcase; [lia|].
  unfold contents in Hc. rewrite Hd in Hc. pose proof Hb as ((Hh & Hd0 & Hn0) & _). pose proof Hh as (Hdl & Hnl & _).
  assert (take 81 (drop 4 d) = header_bytes (header_ b)) as Eh.
  { rewrite <- (take_drop (Z.to_nat (len_ r)) d), Hc. unfold builder_block, DecodedEvent.event_block, DecodedEvent.event_body.
    rewrite <- !app_assoc. rewrite drop_app_length' by (by rewrite length_le_bytes).
    assert (length (header_bytes (header_ b)) = 81%nat) as L by (pose proof (header_bytes_len _ Hdl Hnl) as L; unfold Zlen, SIZEOF_HEADER in L; lia).
    by rewrite take_app_length' by done. }
  unfold InitialMembers. rewrite Eh. rewrite <- (app_nil_r (header_bytes _)), header_of_header_bytes by done.
  unfold terminated. rewrite !bool_decide_true by done. cbn [andb obind fst snd].
  eexists. split; [done|]. split; [|done]. split_and!; [done|done| |done].
  exists r, (meaning b). split_and!; [done| |done|done]. exists b. split_and!; try done. unfold contents. by rewrite Hd.
Qed.

(** C6: an event made from a builder's raw data stays in step with it, whatever
    sequence of writes, reads and conversions follows: reads of parameters answer
    from the map the writes make, and [AsRawData] returns bytes that decode to an
    event with the header, the identifier and the log mark set last, the trace and
    exactly the parameters of that map. *)
Theorem sys_event_refines_map b r seq now os :
  builder_ok b → M_fits (meaning b) → usable r → contents r = builder_block b → ops_ok os (meaning b) →
  ∃ e e', SysEvent_new (Some r) seq now = Done e ∧ run_ops os e = Done e' ∧
    let M := foldl (λ M o, spec_op o M) (meaning b) os in
    (∀ key, IsBaseInfo key = false →
      ∃ e2, GetEventValue key e' = Done (e2, match m_params M !! key with Some (PString s) => s | _ => [] end)) ∧
    (∀ key, ∃ e2, IsParamExist key e' = Done (e2, bool_decide (is_Some (m_params M !! key)))) ∧
    ∃ e2 d b', AsRawData e' = Done (e2, Some d) ∧ meaning b' = M ∧
      DecodedEvent.DecodedEvent_new (Some d) (default 0 (GetDataLength <$> rawData_ e2)) =
        Done (DecodedEvent.mkDecodedEvent (Some (builder_block b')) (Zlen (builder_block b')) (header_ b')
          (m_trace M) true (builder_params b')).
Proof.
  intros Hb HF Hu Hc Hos. destruct (new_event_sync b r seq now Hb HF Hu Hc) as (e & HN & HS & _).
  destruct (run_ops_sync os e _ HS Hos) as (e' & HR & HS'). exists e, e'. split_and!; [done|done|].
  set (M := foldl _ _ _) in *. intros M'. destruct (init_builder e' M HS') as (b1 & HI & Hb1 & Hm1).
  split_and!.
  - intros key Hk. unfold GetEventValue. rewrite HI. cbn [obind fst snd]. eexists. do 2 f_equal.
    unfold ParseValueByKey. rewrite Hk, GetValueByKey_dict. subst M'. rewrite <- Hm1. cbn [m_params meaning].
    by destruct (dict b1 !! key) as [[]|].
  - intros key. unfold IsParamExist. rewrite HI. cbn [obind fst snd]. eexists. do 2 f_equal. apply bool_decide_ext.
    unfold GetValue. subst M'. rewrite <- Hm1. cbn [m_params meaning]. unfold dict. fold (entries (allParams_ b1)).
    rewrite <- FindParam_map. by rewrite fmap_is_Some.
  - destruct (sync_as_raw e' M HS') as (e2 & r2 & HT & Hr2 & (b2 & Hb2 & Hm2 & Hu2 & Hc2) & HS2).
    pose proof Hu2 as [_ [[d Hd] _]]. exists e2, d, b2. unfold AsRawData. rewrite HT. cbn [obind fst snd]. rewrite Hr2. cbn [fmap option_fmap option_map default].
    assert (M_fits (meaning b2)) as HF2 by (rewrite Hm2; apply HS2). destruct (builder_fits b2 Hb2 HF2) as [Hcnt Hsize].
    pose proof (block_decode b2 r2 Hb2 Hcnt Hsize Hu2 Hc2) as HD. unfold GetData in *. rewrite Hd in *.
    split_and!; [done|done|]. cbv [Datatypes.id]. rewrite HD. subst M'. by rewrite <- Hm2.
Qed.

End Operations.

(** ** Instances *)

Definition sample_raw : RawData := default (mkRawData None 0 0) (Build sample_builder).1.

Definition sample_ops : list EventOp :=
  [OpSetId 12345; OpSetValue (str "LEVEL") (CString (str "A")) false; OpAsRaw;
   OpSetValue (str "LEVEL") (CString [10]) true; OpRemove (str "TEXT"); OpSetLog 3].

Lemma sample_build : Build sample_builder = (Some sample_raw, sample_builder).
Proof. by vm_compute. Qed.

Lemma sample_fits : M_fits (meaning sample_builder).
Proof. apply (bool_decide_eq_true_1 _). vm_compute. reflexivity. Qed.

Lemma sample_ops_ok : ops_ok sample_ops (meaning sample_builder).
Proof. apply (bool_decide_eq_true_1 _). vm_compute. reflexivity. Qed.

Lemma sys_event_refines_map_witness :
  ∃ e e' e2, SysEvent_new (Some sample_raw) 7 0 = Done e ∧ run_ops sample_ops e = Done e' ∧
    GetEventValue (str "LEVEL") e' = Done (e2, str "A\n").
Proof.
  assert (Zlen (builder_block sample_builder) <= DecodedEvent.MAX_BLOCK_SIZE) as HS by by vm_compute.
  destruct (Build_block sample_builder sample_raw sample_builder_ok HS sample_build) as [Hu Hc].
  destruct (sys_event_refines_map sample_builder sample_raw 7 0 sample_ops sample_builder_ok sample_fits Hu Hc sample_ops_ok)
    as (e & e' & HN & HR & HG & _).
  assert (IsBaseInfo (str "LEVEL") = false) as HL by by vm_compute.
  destruct (HG (str "LEVEL") HL) as [e2 HG']. exists e, e', e2. split; [exact HN|split; [exact HR|]].
  rewrite HG'. by do 2 f_equal.
Defined.

Definition double_event (d : Z) : SysEvent :=
  set_builder (event_empty 0) (Some (AppendValue RawDataBuilder_new (str "D") (CFloat TDouble d))).

Lemma double_read_undefined_witness :
  GetEventIntValue (str "D") (double_event (double_pow2 63)) = Undefined UB_Conversion ∧
  GetEventUintValue (str "D") (double_event (double_pow2 64)) = Undefined UB_Conversion.
Proof.
  split.
  - by apply (proj1 (double_read_undefined (double_event (double_pow2 63)) _ _ (str "D") (double_pow2 63) eq_refl eq_refl
      ltac:(by vm_compute))).
  - by apply (proj2 (double_read_undefined (double_event (double_pow2 64)) _ _ (str "D") (double_pow2 64) eq_refl eq_refl
      ltac:(by vm_compute))).
Defined.

End SysEventFacts.
