(* ===== verification/EventDef.v ===== *)
(** * EventDef: definitions of events

    Models base/event_json_parser.cpp, base/version_config_parser.cpp,
    base/domain_json_parser.cpp and base/privacy_manager.cpp: the definition file
    maps domains to events and events to a level, a tag, a privacy level and
    whether they are kept and reported in this version.  Looking one up reads the
    part of the file of its domain; what is found, or that nothing is, is cached.
    Theorems: answering from the cache is the same as reading the file each time,
    and the cache stays below its limit. *)

From S2P Require Import Prelude Json SysEvent.
From stdpp Require Import base gmap list numbers strings.

Local Open Scope Z_scope.

Module EventDef.
Import JsonValue.
Import SysEvent (EventParamInfo).

(** ** VersionConfigParser *)

Definition DO_NOTHING : Z := 0.
Definition NONE : Z := 0.
Definition ALL : Z := 1.
Definition COMMERCIAL_ONLY : Z := 2.
Definition BETA_ONLY : Z := 3.
Definition BETA_COLLECT : Z := 1.
Definition COMM_COLLECT : Z := 2.
Definition BETA_PRESERVE : Z := 4.
Definition COMM_PRESERVE : Z := 8.
Definition PRESERVE : bytes := str "preserve".
Definition COLLECT : bytes := str "collect".
Definition DEFAULT_PRESERVE_VAL : Z := 1.
Definition DEFAULT_COLLECT_VAL : Z := 0.

Definition GetDefaultConfig (key : bytes) (betaCfg commCfg : Z) : Z :=
  if (bool_decide (key = PRESERVE) && negb (DEFAULT_PRESERVE_VAL =? 0)) ||
     (bool_decide (key = COLLECT) && negb (DEFAULT_COLLECT_VAL =? 0))
  then Z.lor DO_NOTHING (Z.lor betaCfg commCfg) else DO_NOTHING.

Definition GetBoolCfg (enabled : bool) (betaCfg commCfg : Z) : Z :=
  if enabled then Z.lor DO_NOTHING (Z.lor betaCfg commCfg) else DO_NOTHING.

Definition GetNumConfig (cfgVal : Z) (key : bytes) (betaCfg commCfg : Z) : Z :=
  if cfgVal =? ALL then Z.lor DO_NOTHING (Z.lor betaCfg commCfg)
  else if cfgVal =? COMMERCIAL_ONLY then Z.lor DO_NOTHING commCfg
  else if cfgVal =? BETA_ONLY then Z.lor DO_NOTHING betaCfg
  else if cfgVal =? NONE then DO_NOTHING
  else GetDefaultConfig key betaCfg commCfg.

(** [ParseConfig] of one key; the value is an object. *)
Definition ParseConfig_key (jsonValue : Json) (key : bytes) (betaCfg commCfg : Z) : Z :=
  match isMember jsonValue key with
  | Some true =>
      let cfgJson := member jsonValue key in
      match cfgJson with
      | JBool b => GetBoolCfg b betaCfg commCfg
      | _ => match uint_value cfgJson with
             | Some n => GetNumConfig (u8 n) key betaCfg commCfg
             | None => GetDefaultConfig key betaCfg commCfg
             end
      end
  | _ => GetDefaultConfig key betaCfg commCfg
  end.

Definition ParseConfig (jsonValue : Json) : Z :=
  if isObject jsonValue then
    Z.lor (Z.lor DO_NOTHING (ParseConfig_key jsonValue COLLECT BETA_COLLECT COMM_COLLECT))
      (ParseConfig_key jsonValue PRESERVE BETA_PRESERVE COMM_PRESERVE)
  else DO_NOTHING.

Definition ShouldCollect (isBeta : bool) (controlTag_ : Z) : bool :=
  negb (Z.land controlTag_ (if isBeta then BETA_COLLECT else COMM_COLLECT) =? 0).
Definition ShouldPreserve (isBeta : bool) (controlTag_ : Z) : bool :=
  negb (Z.land controlTag_ (if isBeta then BETA_PRESERVE else COMM_PRESERVE) =? 0).

(** ** Privacy *)

(** What the controller that may be registered answers; it is another library's. *)
Record IPrivacyController := mkController {
  pc_IsAllowed : bytes → Z → bytes → Z → bool;
  pc_IsPrivacyAllowed : Z → bool;
  pc_IsBundleNameInList : bytes → bytes → bool;
  pc_IsUeEnabled : bool
}.

Definition PrivacyManager_IsAllowed (g : option IPrivacyController) (domain : bytes) (type : Z) (level : bytes) (privacy : Z) : bool :=
  match g with None => true | Some c => pc_IsAllowed c domain type level privacy end.
Definition PrivacyManager_IsPrivacyAllowed (g : option IPrivacyController) (privacy : Z) : bool :=
  match g with None => true | Some c => pc_IsPrivacyAllowed c privacy end.
Definition PrivacyManager_IsBundleNameInList (g : option IPrivacyController) (bundleName allowListFile : bytes) : bool :=
  match g with None => false | Some c => pc_IsBundleNameInList c bundleName allowListFile end.
Definition PrivacyManager_IsUeEnabled (g : option IPrivacyController) : bool :=
  match g with None => true | Some c => pc_IsUeEnabled c end.

(** ** Definitions *)

Definition MINOR_LEVEL_VAL : Z := 0.
Definition CRITICAL_LEVEL_VAL : Z := 1.
Definition MINOR_LEVEL_STR : bytes := str "MINOR".
Definition CRITICAL_LEVEL_STR : bytes := str "CRITICAL".
Definition SYS_EVENT_DEF_MAP_MAX_SIZE : Z := 3000.
Definition BASE : bytes := str "__BASE".

(** Bit-fields of 2, 1, 3, 1 and 1 bits. *)
Record KeyConfig := mkKeyConfig { k_type : Z; k_level : Z; k_privacy : Z; k_preserve : Z; k_collect : Z }.

Definition KeyConfig_new : KeyConfig := mkKeyConfig 0 MINOR_LEVEL_VAL 4 DEFAULT_PRESERVE_VAL DEFAULT_COLLECT_VAL.

Definition KeyConfig_GetType (k : KeyConfig) : Z := k_type k + 1.
Definition KeyConfig_GetLevel (k : KeyConfig) : bytes :=
  if k_level k =? CRITICAL_LEVEL_VAL then CRITICAL_LEVEL_STR else MINOR_LEVEL_STR.

Record BaseInfo := mkBaseInfo {
  tag : option bytes;
  keyConfig : KeyConfig;
  disallowParams : option (list (bytes * option EventParamInfo));
  reportInterval : Z
}.

Definition BaseInfo_new : BaseInfo := mkBaseInfo None KeyConfig_new None 0.

Definition EVENT_TYPE_MAP (s : bytes) : option Z :=
  if bool_decide (s = str "FAULT") then Some 0
  else if bool_decide (s = str "STATISTIC") then Some 1
  else if bool_decide (s = str "SECURITY") then Some 2
  else if bool_decide (s = str "BEHAVIOR") then Some 3
  else None.

Definition string_member (j : Json) (key : bytes) : option bytes :=
  match member j key with JString s => Some s | _ => None end.
Definition uint_member (j : Json) (key : bytes) : option Z := uint_value (member j key).
Definition int_member (j : Json) (key : bytes) : option Z := int_value (member j key).

Definition maxTagLen : Z := 100.

(** [SetTagOfBaseInfo]. *)
Definition SetTagOfBaseInfo (t : option bytes) : option bytes :=
  match t with Some s => if (Zlen s =? 0) || (Zlen s >=? maxTagLen) then None else Some s | None => None end.

Abbreviation NAME_INFO_MAP := (gmap bytes (option BaseInfo)).
Abbreviation ExportEventList := (gmap bytes (list bytes)).

Section Parsing.
Context (isBeta isOversea : bool) (g : option IPrivacyController).

Definition ParseBaseConfig (eventNameJson : Json) : BaseInfo :=
  let base := member eventNameJson BASE in
  if negb (isObject eventNameJson) || negb (isObject base) then BaseInfo_new else
  match string_member base (str "type") ≫= EVENT_TYPE_MAP with
  | None => BaseInfo_new
  | Some type =>
      let k := KeyConfig_new in
      let k := mkKeyConfig type (k_level k) (k_privacy k) (k_preserve k) (k_collect k) in
      match string_member base (str "level") with
      | None => mkBaseInfo None k None 0
      | Some level =>
          let controlTag := ParseConfig base in
          mkBaseInfo (SetTagOfBaseInfo (string_member base (str "tag")))
            (mkKeyConfig type (if bool_decide (level = CRITICAL_LEVEL_STR) then CRITICAL_LEVEL_VAL else MINOR_LEVEL_VAL)
               (match uint_member base (str "privacy") with Some n => u8 n mod 8 | None => k_privacy k end)
               (Z.b2z (ShouldPreserve isBeta controlTag)) (Z.b2z (ShouldCollect isBeta controlTag)))
            None
            (match int_member base (str "reportInterval") with Some n => sgn 16 n | None => 0 end)
      end
  end.

(** One parameter of an event: whether it is restricted, and by what. *)
Definition param_info (paramContent : Json) : option (option EventParamInfo) :=
  if negb (isObject paramContent) then None else
  match uint_member paramContent (str "privacy") with
  | None => None
  | Some privacy =>
      if PrivacyManager_IsPrivacyAllowed g (u8 privacy) then None else
      Some (match isOversea, string_member paramContent (str "allowlist"), uint_member paramContent (str "throwtype") with
        | true, Some allowListFile, Some throwType => Some (allowListFile, u8 throwType)
        | _, _, _ => None
        end)
  end.

(** [ParseEventParamInfo]; [None] when the library stops the program. *)
Definition ParseEventParamInfo (eventContent : Json) : option (option (list (bytes * option EventParamInfo))) :=
  attrList ← getMemberNames eventContent;
  let infos := omap (λ paramName,
    if bool_decide (paramName = []) || bool_decide (paramName = BASE) then None
    else pair paramName <$> param_info (member eventContent paramName)) attrList in
  Some (match infos with [] => None | _ => Some infos end).

Fixpoint name_config (domain : bytes) (members : list (bytes * Json)) (allNames : NAME_INFO_MAP) : option NAME_INFO_MAP :=
  match members with
  | [] => Some allNames
  | (eventName, eventContent) :: members =>
      if bool_decide (eventName = []) then name_config domain members allNames else
      let baseInfo := ParseBaseConfig eventContent in
      let k := keyConfig baseInfo in
      if PrivacyManager_IsAllowed g domain (KeyConfig_GetType k) (KeyConfig_GetLevel k) (k_privacy k) then
        params ← ParseEventParamInfo eventContent;
        name_config domain members
          (<[eventName := Some (mkBaseInfo (tag baseInfo) k params (reportInterval baseInfo))]> allNames)
      else name_config domain members allNames
  end.

Definition ParseEventNameConfig (domain : bytes) (domainJson : Json) : option NAME_INFO_MAP :=
  match domainJson with JObject members => name_config domain members ∅ | _ => Some ∅ end.

End Parsing.

(** ** DomainJsonParser *)

Record DomainJsonParser := mkDomainParser { domainLocationMap_ : gmap bytes (Z * Z); defFilePath_ : bytes }.

Definition DomainJsonParser_new : DomainJsonParser := mkDomainParser ∅ [].

Section Files.

(** The library: the members of the object a file's text holds, with where their
    text begins and ends, and the value of a text.  The files; legal paths. *)
Context (parse_members : bytes → option (list (bytes * (Z * Z)))) (parse : bytes → option Json)
  (read_file : bytes → option bytes) (IsLegalPath : bytes → bool).

Definition add_location (m : gmap bytes (Z * Z)) (member : bytes * (Z * Z)) : gmap bytes (Z * Z) :=
  let '(key, (start, limit)) := member in
  let jsonValLen := limit - start in
  if jsonValLen <? 0 then m else if bool_decide (is_Some (m !! key)) then m else <[key := (start, jsonValLen)]> m.

Definition location_map (members : list (bytes * (Z * Z))) : gmap bytes (Z * Z) := foldl add_location ∅ members.

Definition CacheDomainJsonLocation (defFilePath : bytes) (p : DomainJsonParser) : bool * DomainJsonParser :=
  if negb (IsLegalPath defFilePath) then (false, p) else
  match read_file defFilePath ≫= parse_members with
  | None => (false, p)
  | Some members => (true, mkDomainParser (location_map members) defFilePath)
  end.

Definition ParseDomainJsonFromFile (p : DomainJsonParser) (domainName : bytes) : option Json :=
  '(start, length) ← domainLocationMap_ p !! domainName;
  file ← read_file (defFilePath_ p);
  let text := take (Z.to_nat length) (drop (Z.to_nat start) file) in
  if Zlen text <? length then None else parse text.

(** ** EventJsonParser *)

Record EventJsonParser := mkParser {
  sysEventDefMap_ : gmap bytes NAME_INFO_MAP;
  domainJsonParser_ : DomainJsonParser;
  sysEventDefMapCap_ : Z
}.

Definition EventJsonParser_new : EventJsonParser := mkParser ∅ DomainJsonParser_new 0.

Context (isBeta isOversea : bool).

Definition GetEventInCache (m : gmap bytes NAME_INFO_MAP) (domain name : bytes) : option (option BaseInfo) :=
  names ← m !! domain; names !! name.

(** What the definition file says of an event; [None] when the program stops. *)
Definition read_definition (g : option IPrivacyController) (p : DomainJsonParser) (domain name : bytes)
    : option (option (option BaseInfo)) :=
  match ParseDomainJsonFromFile p domain with
  | None => Some None
  | Some domainJson =>
      allEvents ← ParseEventNameConfig isBeta isOversea g domain domainJson;
      Some (Some (default None (allEvents !! name)))
  end.

(** [GetDefinedBaseInfoByDomainName]; when the map is full, an event with the
    largest domains is written and the map cleared. *)
Definition GetDefinedBaseInfoByDomainName (g : option IPrivacyController) (domain name : bytes) (s : EventJsonParser)
    : option (EventJsonParser * option BaseInfo) :=
  match GetEventInCache (sysEventDefMap_ s) domain name with
  | Some baseInfo => Some (s, baseInfo)
  | None =>
      found ← read_definition g (domainJsonParser_ s) domain name;
      match found with
      | None => Some (s, None)
      | Some eventItem =>
          let names := default ∅ (sysEventDefMap_ s !! domain) in
          let m := <[domain := <[name := eventItem]> names]> (sysEventDefMap_ s) in
          let cap := (sysEventDefMapCap_ s + 1) mod 2 ^ 16 in
          let s := if cap >=? SYS_EVENT_DEF_MAP_MAX_SIZE then mkParser ∅ (domainJsonParser_ s) 0
                   else mkParser m (domainJsonParser_ s) cap in
          Some (s, eventItem)
      end
  end.

Definition INVALID_EVENT_TYPE : Z := 255.

Definition GetTagByDomainAndName (g : option IPrivacyController) (domain name : bytes) (s : EventJsonParser)
    : option (EventJsonParser * bytes) :=
  '(s, i) ← GetDefinedBaseInfoByDomainName g domain name s; Some (s, default [] (i ≫= tag)).
Definition GetTypeByDomainAndName (g : option IPrivacyController) (domain name : bytes) (s : EventJsonParser)
    : option (EventJsonParser * Z) :=
  '(s, i) ← GetDefinedBaseInfoByDomainName g domain name s;
  Some (s, match i with Some i => KeyConfig_GetType (keyConfig i) | None => INVALID_EVENT_TYPE end).
Definition GetPreserveByDomainAndName (g : option IPrivacyController) (domain name : bytes) (s : EventJsonParser)
    : option (EventJsonParser * bool) :=
  '(s, i) ← GetDefinedBaseInfoByDomainName g domain name s;
  Some (s, negb (match i with Some i => k_preserve (keyConfig i) | None => DEFAULT_PRESERVE_VAL end =? 0)).

(** [ReadDefFile]: the counter is not reset. *)
Definition ReadDefFile (defFilePath : bytes) (s : EventJsonParser) : EventJsonParser :=
  mkParser ∅ (CacheDomainJsonLocation defFilePath (domainJsonParser_ s)).2 (sysEventDefMapCap_ s).

(** *** Events to export *)

Definition EXPORT_ALL_EVENT : Z := -1.
Definition AddEventToExportList (list : ExportEventList) (domain name : bytes) (baseInfo : BaseInfo) (interval : Z) : ExportEventList :=
  let k := keyConfig baseInfo in
  if negb (k_preserve k =? DEFAULT_PRESERVE_VAL) || (k_collect k =? DEFAULT_COLLECT_VAL) then list else
  if negb (interval =? EXPORT_ALL_EVENT) && negb (reportInterval baseInfo =? interval) then list else
  match list !! domain with
  | None => <[domain := [name]]> list
  | Some names => <[domain := names ++ [name]]> list
  end.

(** [GetAllCollectEvents]: the events of all domains; the order within a domain is
    that of an unordered map. *)
Definition GetAllCollectEvents (g : option IPrivacyController) (s : EventJsonParser) (interval : Z) : option ExportEventList :=
  foldl (λ acc domainName,
    list ← acc;
    match ParseDomainJsonFromFile (domainJsonParser_ s) domainName with
    | None => Some list
    | Some domainJson =>
        allEvents ← ParseEventNameConfig isBeta isOversea g domainName domainJson;
        Some (foldl (λ list (nb : bytes * option BaseInfo),
          match nb.2 with Some b => AddEventToExportList list domainName nb.1 b interval | None => list end)
          list (map_to_list allEvents))
    end) (Some ∅) (map_to_list (domainLocationMap_ (domainJsonParser_ s))).*1.

End Files.

(** ** The cache *)

(** The number of entries of the cache. *)
Definition cached (m : gmap bytes NAME_INFO_MAP) : Z := sum_of (λ kv, Z.of_nat (size kv.2)) (map_to_list m).

Lemma cached_insert m d names :
  cached (<[d := names]> m) = cached m - Z.of_nat (size (default ∅ (m !! d))) + Z.of_nat (size names).
Proof.
  unfold cached. rewrite <- insert_delete_eq.
  rewrite (sum_of_perm _ _ _ (map_to_list_insert _ _ _ (lookup_delete_eq m d))), sum_of_cons. cbn [snd].
  destruct (m !! d) as [old|] eqn:E; cbn [default].
  - pose proof (sum_of_perm (λ kv : bytes * NAME_INFO_MAP, Z.of_nat (size kv.2)) _ _ (map_to_list_delete m d old E)) as HP.
    rewrite sum_of_cons in HP. cbn [snd] in HP. unfold from_option, id. lia.
  - rewrite delete_id by done. cbn [from_option]. change (size ∅) with 0%nat. lia.
Qed.

Lemma cached_empty : cached ∅ = 0.
Proof. done. Qed.

Section Cache.
Context (parse_members : bytes → option (list (bytes * (Z * Z)))) (parse : bytes → option Json)
  (IsLegalPath : bytes → bool) (isBeta isOversea : bool).

(** A lookup, or a new configuration: the files, the privacy controller and the
    path of the definition file from then on. *)
Inductive DefOp :=
  | OpLookup (domain name : bytes)
  | OpConfigUpdate (files : bytes → option bytes) (g : option IPrivacyController) (defFilePath : bytes).

Record DefState := mkDefState { d_files : bytes → option bytes; d_controller : option IPrivacyController; d_parser : EventJsonParser }.

Definition DefState_new : DefState := mkDefState (λ _, None) None EventJsonParser_new.

Definition run_def (o : DefOp) (s : DefState) : option (DefState * list (option BaseInfo)) :=
  match o with
  | OpLookup domain name =>
      '(p, i) ← GetDefinedBaseInfoByDomainName parse (d_files s) isBeta isOversea (d_controller s) domain name (d_parser s);
      Some (mkDefState (d_files s) (d_controller s) p, [i])
  | OpConfigUpdate files g path =>
      Some (mkDefState files g (ReadDefFile parse_members files IsLegalPath path (d_parser s)), [])
  end.

Fixpoint run_defs (os : list DefOp) (s : DefState) : option (DefState * list (option BaseInfo)) :=
  match os with
  | [] => Some (s, [])
  | o :: os => '(s, a) ← run_def o s; '(s, b) ← run_defs os s; Some (s, a ++ b)
  end.

(** Without a cache: every lookup reads the file. *)
Fixpoint read_defs (os : list DefOp) (files : bytes → option bytes) (g : option IPrivacyController) (p : DomainJsonParser)
    : option (list (option BaseInfo)) :=
  match os with
  | [] => Some []
  | OpLookup domain name :: os =>
      i ← read_definition parse files isBeta isOversea g p domain name;
      l ← read_defs os files g p; Some (default None i :: l)
  | OpConfigUpdate files g path :: os =>
      read_defs os files g (CacheDomainJsonLocation parse_members files IsLegalPath path p).2
  end.

Definition cache_inv (s : DefState) : Prop :=
  (∀ domain name i, GetEventInCache (sysEventDefMap_ (d_parser s)) domain name = Some i →
     read_definition parse (d_files s) isBeta isOversea (d_controller s) (domainJsonParser_ (d_parser s)) domain name = Some (Some i)) ∧
  cached (sysEventDefMap_ (d_parser s)) <= sysEventDefMapCap_ (d_parser s) < SYS_EVENT_DEF_MAP_MAX_SIZE.

Lemma cached_nonneg m : 0 <= cached m.
Proof. apply sum_of_nonneg. lia. Qed.

Lemma in_cache_insert m d n i d' n' :
  GetEventInCache (<[d := <[n := i]> (default ∅ (m !! d))]> m) d' n' =
  if bool_decide (d = d' ∧ n = n') then Some i else GetEventInCache m d' n'.
Proof.
  unfold GetEventInCache. destruct (decide (d = d')) as [<-|Hd].
  - rewrite lookup_insert_eq. cbn [mbind option_bind]. destruct (decide (n = n')) as [<-|Hn].
    + by rewrite lookup_insert_eq, bool_decide_true.
    + rewrite lookup_insert_ne, bool_decide_false by naive_solver. by destruct (m !! d).
  - by rewrite lookup_insert_ne, bool_decide_false by naive_solver.
Qed.

(** A lookup answers what the file says and keeps the invariant. *)
Lemma lookup_transparent s domain name :
  cache_inv s →
  match read_definition parse (d_files s) isBeta isOversea (d_controller s) (domainJsonParser_ (d_parser s)) domain name with
  | None => run_def (OpLookup domain name) s = None
  | Some i => ∃ p, run_def (OpLookup domain name) s = Some (mkDefState (d_files s) (d_controller s) p, [default None i]) ∧
      domainJsonParser_ p = domainJsonParser_ (d_parser s) ∧ cache_inv (mkDefState (d_files s) (d_controller s) p)
  end.
Proof.
  intros [Hc Hn]. cbn [run_def]. unfold GetDefinedBaseInfoByDomainName.
  destruct (GetEventInCache _ domain name) as [i|] eqn:E.
  { rewrite (Hc _ _ _ E). exists (d_parser s). split_and!; [done|done|split; [exact Hc|exact Hn]]. }
  destruct (read_definition _ _ _ _ _ _ _ _) as [[i|]|] eqn:ER; cbn [mbind option_bind]; [|by exists (d_parser s)|done].
  set (m := sysEventDefMap_ (d_parser s)) in *. set (cap := sysEventDefMapCap_ (d_parser s)) in *.
  pose proof (cached_nonneg m). unfold SYS_EVENT_DEF_MAP_MAX_SIZE in *. rewrite Z.mod_small by lia.
  eexists. split; [done|]. destruct (Z.geb_spec (cap + 1) 3000) as [Hfull|Hroom]; (split; [done|]).
  - split; [intros d n i'; by unfold GetEventInCache; cbn; rewrite lookup_empty|]. cbn [d_parser sysEventDefMap_ sysEventDefMapCap_]. rewrite cached_empty. unfold SYS_EVENT_DEF_MAP_MAX_SIZE. lia.
  - split; cbn [d_parser d_files d_controller sysEventDefMap_ domainJsonParser_ sysEventDefMapCap_].
    + intros d n i'. rewrite in_cache_insert. case_bool_decide as Heq; [|apply Hc]. destruct Heq as [<- <-]. by intros [= <-].
    + rewrite cached_insert. unfold GetEventInCache in E. fold m in E.
      rewrite map_size_insert_None; [|destruct (m !! domain); [exact E|apply lookup_empty]].
      unfold SYS_EVENT_DEF_MAP_MAX_SIZE. lia.
Qed.

Lemma update_inv s files g path a s' :
  cache_inv s → run_def (OpConfigUpdate files g path) s = Some (s', a) → cache_inv s'.
Proof.
  intros [_ Hn] [= <- <-]. pose proof (cached_nonneg (sysEventDefMap_ (d_parser s))).
  split; [intros d n i; by unfold GetEventInCache; cbn; rewrite lookup_empty|]. cbn [d_parser sysEventDefMap_ sysEventDefMapCap_ ReadDefFile]. rewrite cached_empty. lia.
Qed.

Lemma run_defs_transparent os s :
  cache_inv s →
  match read_defs os (d_files s) (d_controller s) (domainJsonParser_ (d_parser s)) with
  | None => run_defs os s = None
  | Some l => ∃ s', run_defs os s = Some (s', l) ∧ cache_inv s'
  end.
Proof.
  revert s. induction os as [|[domain name|files g path] os IH]; intros s HI; cbn [read_defs run_defs]; [by exists s|..].
  - pose proof (lookup_transparent s domain name HI) as HL.
    destruct (read_definition _ _ _ _ _ _ _ _) as [i|]; cbn [mbind option_bind]; [|by rewrite HL].
    destruct HL as (p & -> & Hp & HI'). cbn [mbind option_bind]. specialize (IH _ HI'). cbn [d_files d_controller d_parser] in IH.
    rewrite Hp in IH. destruct (read_defs _ _ _ _) as [l|]; cbn [mbind option_bind].
    + destruct IH as (s' & -> & HI''). by eexists.
    + by rewrite IH.
  - specialize (IH _ (update_inv s files g path _ _ HI eq_refl)). cbn [run_def mbind option_bind d_files d_controller d_parser domainJsonParser_ ReadDefFile] in *.
    destruct (read_defs _ _ _ _) as [l|]; cbn [mbind option_bind].
    + destruct IH as (s' & -> & HI''). by eexists.
    + by rewrite IH.
Qed.

(** C25: looking definitions up through the cache is the same as reading the
    definition file every time, in every order of lookups and configuration updates,
    definitions that stop the program included; and the cache, which also keeps
    that an event is not defined, never has as many entries as its limit. *)
Theorem definition_cache_transparent os :
  match read_defs os (λ _, None) None DomainJsonParser_new with
  | None => run_defs os DefState_new = None
  | Some answers => ∃ s, run_defs os DefState_new = Some (s, answers) ∧
      cached (sysEventDefMap_ (d_parser s)) < SYS_EVENT_DEF_MAP_MAX_SIZE
  end.
Proof.
  assert (cache_inv DefState_new) as HI.
  { split; [intros d n i; by unfold GetEventInCache; cbn; rewrite lookup_empty|by vm_compute]. }
  pose proof (run_defs_transparent os DefState_new HI) as H. cbn in H. destruct (read_defs _ _ _ _); [|done].
  destruct H as (s & HR & _ & Hn). exists s. split; [done|]. lia.
Qed.

End Cache.

(** ** Finding the text of a domain *)

Section Locations.
Context (parse_members : bytes → option (list (bytes * (Z * Z)))) (parse : bytes → option Json)
  (read_file : bytes → option bytes) (IsLegalPath : bytes → bool).

Lemma location_map_lookup members acc key :
  NoDup members.*1 → (∀ k, k ∈ members.*1 → acc !! k = None) → (∀ k s l, (k, (s, l)) ∈ members → s <= l) →
  foldl add_location acc members !! key =
  match list_to_map (M := gmap bytes (Z * Z)) members !! key with
  | Some (s, l) => Some (s, l - s)
  | None => acc !! key
  end.
Proof.
  revert acc. induction members as [|[k [s l]] members IH]; intros acc Hn Ha Hs; [done|]. cbn [foldl]. unfold add_location at 2. cbv beta iota zeta.
  inversion_clear Hn as [|? ? Hk Hn']. rewrite (proj2 (Z.ltb_ge _ _)) by (specialize (Hs k s l ltac:(left)); lia).
  rewrite bool_decide_false by (rewrite (Ha k) by left; by intros [? [=]]). rewrite IH; [|done| |].
  - cbn [list_to_map fst snd]. cbn. destruct (decide (k = key)) as [<-|Hne].
    + rewrite !lookup_insert_eq. by rewrite not_elem_of_list_to_map_1.
    + by rewrite !lookup_insert_ne.
  - intros k' Hk'. rewrite lookup_insert_ne by (intros ->; done). apply Ha. by right.
  - intros k' s' l' Hm. apply (Hs k'). by right.
Qed.

(** Once the locations are cached, a domain's value is read from where the whole
    file has it. *)
Lemma domain_text_found path p text members key s l :
  IsLegalPath path = true → read_file path = Some text → parse_members text = Some members →
  NoDup members.*1 → (∀ k s l, (k, (s, l)) ∈ members → 0 <= s <= l ∧ l <= Zlen text) → (key, (s, l)) ∈ members →
  ParseDomainJsonFromFile parse read_file (CacheDomainJsonLocation parse_members read_file IsLegalPath path p).2 key =
    parse (take (Z.to_nat (l - s)) (drop (Z.to_nat s) text)).
Proof.
  intros Hp Hf Hm Hn Hs Hk. unfold CacheDomainJsonLocation. rewrite Hp, Hf. cbn [negb mbind option_bind]. rewrite Hm.
  unfold ParseDomainJsonFromFile. cbn [snd domainLocationMap_ defFilePath_]. unfold location_map.
  rewrite location_map_lookup; [|done|set_solver|intros k' s' l' H; apply Hs in H; lia].
  rewrite (proj1 (elem_of_list_to_map members key (s, l) Hn) Hk). cbn [mbind option_bind]. rewrite Hf. cbn [mbind option_bind].
  destruct (Hs _ _ _ Hk) as [? ?]. rewrite (proj2 (Z.ltb_ge _ _)); [done|]. unfold Zlen in *. rewrite length_take, length_drop. lia.
Qed.

End Locations.

(** ** Versions *)

(** Whether events are kept in the beta version and in the commercial one. *)
Lemma preserve_by_version ms isBeta :
  ShouldPreserve isBeta (ParseConfig (JObject ms)) =
  match assoc PRESERVE ms with
  | None => true
  | Some (JBool b) => b
  | Some j => match uint_value j with
      | Some n => if u8 n =? 1 then true else if u8 n =? 2 then negb isBeta else if u8 n =? 3 then isBeta
                  else if u8 n =? 0 then false else true
      | None => true
      end
  end.
Proof.
  unfold ShouldPreserve, ParseConfig. cbn [isObject]. rewrite Z.lor_0_l, Z.land_lor_distr_l.
  replace (Z.land (ParseConfig_key _ COLLECT _ _) _) with 0.
  2: { unfold ParseConfig_key, GetBoolCfg, GetNumConfig. repeat case_match; by destruct isBeta. }
  rewrite Z.lor_0_l. unfold ParseConfig_key, isMember, member. destruct (assoc PRESERVE ms) as [j|]; [|by destruct isBeta].
  change (default JNull (Some j)) with j.
  assert (∀ n, negb (Z.land (GetNumConfig n PRESERVE BETA_PRESERVE COMM_PRESERVE) (if isBeta then BETA_PRESERVE else COMM_PRESERVE) =? 0) =
    (if n =? 1 then true else if n =? 2 then negb isBeta else if n =? 3 then isBeta else if n =? 0 then false else true)) as Hnum.
  { intros n. unfold GetNumConfig, ALL, COMMERCIAL_ONLY, BETA_ONLY, NONE. repeat case_match; by destruct isBeta. }
  destruct j as [|[]| | | | |]; try (by destruct isBeta); (destruct (uint_value _); [apply Hnum|by destruct isBeta]).
Qed.

(** ** What the definitions cannot say *)

(** An event's definition that is not an object stops the program as soon as any
    event of its domain is looked up. *)
Lemma definition_not_object_stops isBeta isOversea domain ms name :
  ParseEventNameConfig isBeta isOversea None domain (JObject ((name, JInt 1) :: ms)) = None ∨ name = [].
Proof. cbn. case_bool_decide; [by right|by left]. Qed.

(** A privacy level of 8 is kept as 0. *)
Lemma privacy_level_wraps :
  k_privacy (keyConfig (ParseBaseConfig true
    (JObject [(BASE, JObject [(str "level", JString (str "MINOR")); (str "privacy", JInt 8); (str "type", JString (str "FAULT"))])]))) = 0.
Proof. done. Qed.

End EventDef.
