(* ===== verification/Privacy.v ===== *)
(** * Privacy: removing what may not be reported

    Models plugins/privacy_controller/privacy_controller.cpp, the stage of the
    pipeline that hides the values of restricted parameters: an event's definition
    lists the restricted parameters, each perhaps with a list of the bundle names
    that may be reported.  Theorem: afterwards no value that is not allowed is left
    and every other parameter is as it was. *)

From S2P Require Import Prelude Platform RawData Encoder Decoder Params EventHeader Text.
From S2P Require Import Builder BuilderFacts BuilderOps SysEvent EventDef.
From S2P Require DecodedEvent.
From stdpp Require Import base gmap list numbers strings.

Local Open Scope Z_scope.
Local Open Scope hv_scope.

Module Privacy.
Import SysEvent EventDef.
Import DecodedEvent (outcome, Done, Undefined, obind).

Definition THROW_TYPE_EVENT : Z := 1.
Definition DROPPED_PARAM : bytes := str "DroppedParam".
Definition STAR : bytes := [42].

Definition EndWith (s sub : bytes) : bool := bool_decide (sub `suffix_of` s).

Section Controller.
Context `{HP : Heap} `{SC : Securec}.

(** The registered controller and the bundle manager. *)
Context (g : option IPrivacyController) (IsPreInstallApp : bytes → bool).

Definition IsBundleNameAllow (bundleName allowListFile : bytes) : bool :=
  if bool_decide (bundleName = []) then true else
  if PrivacyManager_IsBundleNameInList g bundleName allowListFile then true else
  IsPreInstallApp bundleName.

(** The names that are not allowed are replaced in an array. *)
Definition hide_names (values : list bytes) (allowListFile : bytes) : bool * list bytes :=
  (existsb (λ v, negb (IsBundleNameAllow v allowListFile)) values,
   (λ v, if IsBundleNameAllow v allowListFile then v else STAR) <$> values).

Definition IsValidParam (paramName allowListFile : bytes) (e : SysEvent) : outcome (SysEvent * bool) :=
  obind (GetEventStringArrayValue paramName e) (λ ev,
    match ev.2 with
    | Some values =>
        let '(isNeedHideParam, values) := hide_names values allowListFile in
        if isNeedHideParam : bool
        then obind (SetEventValue paramName (CStringVec values) false ev.1) (λ e, Done (e, true))
        else Done (ev.1, true)
    | None => obind (GetEventValue paramName ev.1) (λ ev, Done (ev.1, IsBundleNameAllow ev.2 allowListFile))
    end).

(** What becomes of the event: it goes on, or is finished here. *)
Inductive Verdict := GoesOn | Finished.

(** Removing a parameter and recording it. *)
Definition drop_param (paramName droppedParam : bytes) (e : SysEvent) : outcome (SysEvent * bytes) :=
  obind (SysEvent_RemoveParam paramName e) (λ e,
    Done (e, (if bool_decide (droppedParam = []) then [] else droppedParam ++ [44]) ++ paramName)).

Fixpoint check_params (invalidParams : list (bytes * option EventParamInfo)) (droppedParam : bytes) (e : SysEvent)
    : outcome (SysEvent * (Verdict * bytes)) :=
  match invalidParams with
  | [] => Done (e, (GoesOn, droppedParam))
  | (name, info) :: rest =>
      obind (IsParamExist name e) (λ ee,
        let drop e := obind (drop_param name droppedParam e) (λ ed, check_params rest ed.2 ed.1) in
        if negb ee.2 then check_params rest droppedParam ee.1 else
        match info with
        | None => drop ee.1
        | Some (allowListFile, throwType) =>
            obind (IsValidParam name allowListFile ee.1) (λ ev,
              if ev.2 : bool then check_params rest droppedParam ev.1
              else if throwType =? THROW_TYPE_EVENT then Done (ev.1, (Finished, droppedParam))
              else drop ev.1)
        end)
  end.

Definition set_preserve (p : bool) (e : SysEvent) : SysEvent :=
  let m := marks e in
  set_marks e (mkMarks (tag_ m) (level_ m) (privacy_ m) p (collect_ m) (seq_ m) (eventSeq_ m) (invalidParams_ m) (reportInterval_ m)).

Definition PrivacyController_OnEvent (e : SysEvent) : outcome (SysEvent * Verdict) :=
  let e := if negb (PrivacyManager_IsUeEnabled g) && EndWith (domain_ (fields e)) (str "_UE") then set_preserve false e else e in
  match invalidParams_ (marks e) with
  | None | Some [] => Done (e, GoesOn)
  | Some invalidParams =>
      obind (check_params invalidParams [] e) (λ ed,
        match ed.2 with
        | (Finished, _) => Done (ed.1, Finished)
        | (GoesOn, droppedParam) =>
            if bool_decide (droppedParam = []) then Done (ed.1, GoesOn)
            else obind (SetEventValue DROPPED_PARAM (CString droppedParam) false ed.1) (λ e, Done (e, GoesOn))
        end)
  end.

End Controller.

(** ** Reading and writing the builder *)

Section Built.
Context `{HP : Heap} `{SC : Securec} `{!HeapTotal HP}.

(** An event whose builder, made now or before, is [b]. *)
Definition Built (e : SysEvent) (b : RawDataBuilder) : Prop :=
  ∃ e1, InitBuilder e = Done (e1, b) ∧ builder_ e1 = Some b ∧ builder_ok b.

Lemma Built_intro e b : builder_ e = Some b → builder_ok b → Built e b.
Proof. intros He Hb. exists e. unfold InitBuilder. by rewrite He. Qed.

Lemma built_exists e b k :
  Built e b → ∃ e', IsParamExist k e = Done (e', bool_decide (is_Some (dict b !! k))) ∧ Built e' b.
Proof.
  intros (e1 & HI & He & Hb). exists e1. split; [|by apply Built_intro]. unfold IsParamExist. rewrite HI. cbn [obind fst snd].
  do 2 f_equal. apply bool_decide_ext. unfold GetValue, dict. fold (entries (allParams_ b)). rewrite <- FindParam_map. by rewrite fmap_is_Some.
Qed.

Lemma built_remove e b k :
  Built e b → ∃ e' b', SysEvent_RemoveParam k e = Done e' ∧ Built e' b' ∧ dict b' = delete k (dict b).
Proof.
  intros (e1 & HI & He & Hb). unfold SysEvent_RemoveParam. rewrite HI. cbn [obind fst snd]. eexists _, _. split; [done|].
  split; [apply Built_intro; [done|by apply RemoveParam_ok]|]. exact (dict_call_spec b (CallRemove k) Hb I).
Qed.

Lemma built_set e b k v :
  Built e b → IsBaseInfo k = false → cpp_ok v → fits k v → (∀ s, v ≠ CString s) →
  ∃ e' b', SetEventValue k v false e = Done e' ∧ Built e' b' ∧ dict b' = <[k := stored_value v]> (dict b).
Proof.
  intros (e1 & HI & He & Hb) Hk Hv Hf Hs. unfold SetEventValue. rewrite HI. cbn [obind fst snd].
  assert (∀ T (x : T) (f : bytes → T), match v with CString s => f s | _ => x end = x) as Hm by (intros; destruct v; naive_solver).
  replace (match v with CString _ => _ | _ => v end) with v by (destruct v; naive_solver). eexists _, _. split; [done|].
  split; [apply Built_intro; [done|by apply AppendValue_ok]|].
  pose proof (dict_call_spec b (CallValue k v) Hb (conj Hv (λ _, Hf))) as Hd. cbn [run_call dict_call] in Hd. by rewrite Hk in Hd.
Qed.

Lemma built_set_text e b k s :
  Built e b → IsBaseInfo k = false → fits k (CString (EscapeJsonStringValue s)) →
  ∃ e' b', SetEventValue k (CString s) false e = Done e' ∧ Built e' b' ∧
    dict b' = <[k := PString (EscapeJsonStringValue s)]> (dict b).
Proof.
  intros (e1 & HI & He & Hb) Hk Hf. unfold SetEventValue. rewrite HI. cbn [obind fst snd]. eexists _, _. split; [done|].
  split; [apply Built_intro; [done|by apply AppendValue_ok]|].
  pose proof (dict_call_spec b (CallValue k (CString (EscapeJsonStringValue s))) Hb (conj I (λ _, Hf))) as Hd.
  cbn [run_call dict_call] in Hd. by rewrite Hk in Hd.
Qed.

Definition as_texts (v : option PValue) : option (list bytes) :=
  match v with
  | Some (PStringArray ss) => Some ss
  | Some (PUnsignedArray [] | PSignedArray [] | PFloatingArray _ []) => Some []
  | _ => None
  end.

Lemma all_items_take {A} (l : list A) : all_items take_item l = Done (Some l).
Proof. induction l as [|x l IH]; [done|]. cbn [all_items]. unfold take_item at 1. cbn [obind]. by rewrite IH. Qed.

Lemma all_items_refuse {A B} (l : list A) : all_items (@refuse A B) l = Done (match l with [] => Some [] | _ => None end).
Proof. by destruct l. Qed.

Lemma built_texts e b k :
  Built e b → IsBaseInfo k = false →
  ∃ e', GetEventStringArrayValue k e = Done (e', as_texts (dict b !! k)) ∧ Built e' b.
Proof.
  intros (e1 & HI & He & Hb) Hk. unfold GetEventStringArrayValue. rewrite HI. cbn [obind fst snd]. exists e1.
  split; [|by apply Built_intro]. unfold get_array, ParseValueByKey. rewrite Hk, !GetValueByKey_dict.
  destruct (dict b !! k) as [[]|] eqn:E; cbn [mbind option_bind read_stored AsDoubleVec fmap option_fmap option_map];
    rewrite ?all_items_take, ?all_items_refuse; try done.
  - by destruct vals_.
  - by destruct vals_.
  - by destruct T, vals_.
Qed.

Lemma built_text e b k :
  Built e b → IsBaseInfo k = false →
  ∃ e', GetEventValue k e = Done (e', match dict b !! k with Some (PString s) => s | _ => [] end) ∧ Built e' b.
Proof.
  intros (e1 & HI & He & Hb) Hk. unfold GetEventValue. rewrite HI. cbn [obind fst snd]. exists e1. split; [|by apply Built_intro].
  do 2 f_equal. unfold ParseValueByKey. rewrite Hk, GetValueByKey_dict. by destruct (dict b !! k) as [[]|].
Qed.

End Built.

(** ** What becomes of the parameters *)

Section Filter.
Context `{HP : Heap} `{SC : Securec} `{!HeapTotal HP}.
Context (g : option IPrivacyController) (IsPreInstallApp : bytes → bool).

Notation Allow := (IsBundleNameAllow g IsPreInstallApp).

(** What becomes of a restricted parameter with a value. *)
Inductive Fate := Keep (v : PValue) | Drop | Finish.

Definition fate (info : option EventParamInfo) (v : PValue) : Fate :=
  match info with
  | None => Drop
  | Some (allowListFile, throwType) =>
      match v with
      | PString s => if Allow s allowListFile then Keep v else if throwType =? THROW_TYPE_EVENT then Finish else Drop
      | PStringArray ss => Keep (PStringArray (hide_names g IsPreInstallApp ss allowListFile).2)
      | _ => Keep v
      end
  end.

Definition add_dropped (droppedParam name : bytes) : bytes :=
  (if bool_decide (droppedParam = []) then [] else droppedParam ++ [44]) ++ name.

Fixpoint filtered (l : list (bytes * option EventParamInfo)) (droppedParam : bytes) (m : gmap bytes PValue)
    : Verdict * bytes * gmap bytes PValue :=
  match l with
  | [] => (GoesOn, droppedParam, m)
  | (name, info) :: l =>
      match m !! name with
      | None => filtered l droppedParam m
      | Some v =>
          match fate info v with
          | Keep v => filtered l droppedParam (<[name := v]> m)
          | Drop => filtered l (add_dropped droppedParam name) (delete name m)
          | Finish => (Finished, droppedParam, m)
          end
      end
  end.

Lemma hidden_shorter ss file : Zlen (concat (lstring <$> (hide_names g IsPreInstallApp ss file).2)) <= Zlen (concat (lstring <$> ss)).
Proof.
  unfold hide_names. cbn [snd]. induction ss as [|s ss IH]; [done|]. rewrite !fmap_cons. cbn [concat]. rewrite !Zlen_app.
  assert (Zlen (lstring (if Allow s file then s else STAR)) <= Zlen (lstring s)); [|lia].
  destruct (Allow s file) eqn:E; [lia|]. change (Zlen (lstring STAR)) with 2.
  unfold lstring. rewrite Zlen_app. pose proof (uvarint_len LENGTH_DELIMITED (Zlen s)).
  destruct s as [|c s]; [done|]. rewrite (Zlen_cons c) in *. pose proof (Zlen_nonneg s). lia.
Qed.

(** No parameter is larger than a buffer. *)
Definition sized (m : gmap bytes PValue) : Prop := map_Forall (λ k v, Zlen (param_bytes k v) <= LEN_MAX) m.

(** Hiding names makes no array larger. *)
Lemma hidden_size k ss file :
  Zlen (param_bytes k (PStringArray (hide_names g IsPreInstallApp ss file).2)) <= Zlen (param_bytes k (PStringArray ss)).
Proof.
  pose proof (hidden_shorter ss file) as Hs.
  assert (Zlen (hide_names g IsPreInstallApp ss file).2 = Zlen ss) as Hl by (unfold Zlen, hide_names; cbn [snd]; by rewrite length_fmap).
  unfold param_bytes. rewrite !Zlen_app. cbn [value_bytes]. unfold array_bytes. rewrite !Zlen_app, Hl.
  change (type_bytes (PStringArray (hide_names g IsPreInstallApp ss file).2)) with (type_bytes (PStringArray ss)). lia.
Qed.

Lemma dict_value_ok b k v : builder_ok b → dict b !! k = Some v → value_ok v.
Proof.
  intros (_ & _ & HF & _) Hk. unfold dict in Hk. fold (entries (allParams_ b)) in Hk. rewrite <- FindParam_map in Hk.
  destruct (FindParam k (allParams_ b)) as [p|] eqn:E; [|done]. injection Hk as <-. rewrite Forall_forall in HF. apply HF.
  revert E. clear. induction (allParams_ b) as [|q ps IH]; [done|]. cbn [FindParam]. case_bool_decide; [intros [= ->]; left|right; by apply IH].
Qed.

Lemma hidden_fits b k ss file :
  builder_ok b → sized (dict b) → dict b !! k = Some (PStringArray ss) →
  fits k (CStringVec (hide_names g IsPreInstallApp ss file).2) ∧
  stored_value (CStringVec (hide_names g IsPreInstallApp ss file).2) = PStringArray (hide_names g IsPreInstallApp ss file).2.
Proof.
  intros Hb Hs Hk. pose proof (dict_value_ok b k _ Hb Hk) as Hv. cbn [value_ok] in Hv.
  assert (stored_value (CStringVec (hide_names g IsPreInstallApp ss file).2) = PStringArray (hide_names g IsPreInstallApp ss file).2) as E.
  { cbn [stored_value]. rewrite take_ge; [done|]. unfold hide_names. cbn [snd]. rewrite length_fmap. unfold Zlen in Hv. lia. }
  split; [|done]. unfold fits. rewrite E. etrans; [apply hidden_size|]. exact (Hs k _ Hk).
Qed.

Lemma hide_none ss file : existsb (λ v, negb (Allow v file)) ss = false → (hide_names g IsPreInstallApp ss file).2 = ss.
Proof.
  unfold hide_names. cbn [snd]. induction ss as [|s ss IH]; [done|]. cbn [existsb]. intros H. apply orb_false_iff in H as [Hs H].
  rewrite fmap_cons, IH by done. apply negb_false_iff in Hs. by rewrite Hs.
Qed.

Lemma valid_param_fate e b k (info : EventParamInfo) v :
  Built e b → sized (dict b) → IsBaseInfo k = false → dict b !! k = Some v →
  ∃ e' b', Built e' b' ∧
    match fate (Some info) v with
    | Keep v' => IsValidParam g IsPreInstallApp k info.1 e = Done (e', true) ∧ dict b' = <[k := v']> (dict b)
    | Drop => IsValidParam g IsPreInstallApp k info.1 e = Done (e', false) ∧ info.2 ≠ THROW_TYPE_EVENT ∧ dict b' = dict b
    | Finish => IsValidParam g IsPreInstallApp k info.1 e = Done (e', false) ∧ info.2 = THROW_TYPE_EVENT ∧ dict b' = dict b
    end.
Proof.
  destruct info as [file t].
  intros HB Hsz Hk Hv. unfold IsValidParam. destruct (built_texts e b k HB Hk) as (e1 & -> & HB1). cbn [obind fst snd].
  assert (<[k := v]> (dict b) = dict b) as Hid by by apply insert_id.
  destruct (built_text e1 b k HB1 Hk) as (e2 & HG & HB2). rewrite Hv in HG |- *.
  destruct v as [|vs| |vs| |T vs|s|ss]; cbn [as_texts fate fst snd].
  all: try (rewrite HG; cbn [obind fst snd]; by exists e2, b).
  1-3: destruct vs as [|x vs]; [by exists e1, b|rewrite HG; cbn [obind fst snd]; by exists e2, b].
  - rewrite HG. cbn [obind fst snd]. exists e2, b. split; [done|]. destruct (Allow s file); [by rewrite Hid|].
    by destruct (Z.eqb_spec t THROW_TYPE_EVENT).
  - destruct (hide_names g IsPreInstallApp ss file) as [hide ss'] eqn:EH. destruct hide.
    + pose proof HB1 as (_ & _ & _ & Hb). destruct (hidden_fits b k ss file Hb Hsz Hv) as [Hf Hs]. rewrite EH in Hf, Hs. cbn [snd] in *.
      destruct (built_set e1 b k (CStringVec ss') HB1 Hk I Hf ltac:(done)) as (e3 & b3 & -> & HB3 & Hd).
      exists e3, b3. split; [done|]. cbn [obind]. rewrite Hd, Hs. done.
    + exists e1, b. assert (ss' = ss) as ->.
      { pose proof (hide_none ss file) as Hn. rewrite EH in Hn. cbn [snd] in Hn. apply Hn.
        unfold hide_names in EH. by injection EH. }
      cbn [snd]. by rewrite Hid.
Qed.

Lemma fate_size info v v' k : fate info v = Keep v' → Zlen (param_bytes k v') <= Zlen (param_bytes k v).
Proof.
  destruct info as [[file t]|]; [|done]. destruct v as [| | | | | |s|ss]; cbn [fate]; try (by intros [= <-]).
  - destruct (Allow s file); [by intros [= <-]|by destruct (t =? THROW_TYPE_EVENT)].
  - intros [= <-]. apply hidden_size.
Qed.

Lemma check_params_filtered l d e b :
  Built e b → sized (dict b) → Forall (λ ki, IsBaseInfo ki.1 = false) l →
  ∃ e' b', Built e' b' ∧ check_params g IsPreInstallApp l d e = Done (e', (filtered l d (dict b)).1) ∧
    dict b' = (filtered l d (dict b)).2.
Proof.
  revert d e b. induction l as [|[k info] l IH]; intros d e b HB Hsz HF; [by exists e, b|].
  inversion_clear HF as [|? ? Hk HF']. cbn [check_params filtered fst] in *.
  destruct (built_exists e b k HB) as (e1 & -> & HB1). cbn [obind fst snd].
  destruct (dict b !! k) as [v|] eqn:E; [rewrite bool_decide_true by by eexists|rewrite bool_decide_false by (by intros [? [=]]); by apply IH].
  cbn [negb]. assert (∀ e b, Built e b → sized (dict b) → ∃ e' b', Built e' b' ∧
    obind (drop_param k d e) (λ ed, check_params g IsPreInstallApp l ed.2 ed.1) =
      Done (e', (filtered l (add_dropped d k) (delete k (dict b))).1) ∧ dict b' = (filtered l (add_dropped d k) (delete k (dict b))).2) as Hdrop.
  { intros e2 b2 HB2 Hsz2. unfold drop_param. destruct (built_remove e2 b2 k HB2) as (e3 & b3 & -> & HB3 & Hd). cbn [obind fst snd].
    rewrite <- Hd. apply IH; [done| |done]. rewrite Hd. by apply map_Forall_delete. }
  destruct info as [info|]; [|by apply Hdrop].
  destruct (valid_param_fate e1 b k info v HB1 Hsz Hk E) as (e2 & b2 & HB2 & Hfate). destruct info as [file t]. cbn [fst snd] in Hfate.
  match type of Hfate with context [fate ?i v] => destruct (fate i v) as [v'| |] eqn:EF end.
  - destruct Hfate as [-> Hd]. cbn [obind fst snd]. rewrite <- Hd. apply IH; [done| |done]. rewrite Hd.
    apply map_Forall_insert_2; [|done]. etrans; [by eapply fate_size|]. exact (Hsz k v E).
  - destruct Hfate as (-> & Ht & Hd). cbn [obind fst snd]. rewrite (proj2 (Z.eqb_neq _ _) Ht), <- Hd.
    apply Hdrop; [done|by rewrite Hd].
  - destruct Hfate as (-> & -> & Hd). cbn [obind fst snd]. rewrite Z.eqb_refl. by exists e2, b2.
Qed.

(** *** What the checks leave, key by key *)

Definition left_over (info : option (option EventParamInfo)) (v : PValue) : option PValue :=
  match info with
  | None => Some v
  | Some info => match fate info v with Keep v => Some v | _ => None end
  end.

Definition dropped_names (l : list (bytes * option EventParamInfo)) (m : gmap bytes PValue) : list bytes :=
  omap (λ ki, v ← m !! ki.1; match fate ki.2 v with Drop => Some ki.1 | _ => None end) l.

Lemma filtered_spec l d m :
  NoDup l.*1 →
  match filtered l d m with
  | (Finished, _, _) => ∃ k info v, (k, info) ∈ l ∧ m !! k = Some v ∧ fate info v = Finish
  | (GoesOn, d', m') =>
      (∀ k info v, (k, info) ∈ l → m !! k = Some v → fate info v ≠ Finish) ∧
      (∀ k, m' !! k = m !! k ≫= left_over (list_to_map (M := gmap bytes (option EventParamInfo)) l !! k)) ∧
      d' = foldl add_dropped d (dropped_names l m)
  end.
Proof.
  revert d m. induction l as [|[k info] l IH]; intros d m Hn; cbn [filtered].
  { split_and!; [set_solver| |done]. intros k. cbn. by destruct (m !! k). }
  inversion_clear Hn as [|? ? Hk Hn'].
  assert (∀ d2 m2, (∀ k', k' ≠ k → m2 !! k' = m !! k') →
    (m2 !! k = m !! k ≫= left_over (Some info)) →
    (∀ v, m !! k = Some v → fate info v ≠ Finish) →
    d2 = foldl add_dropped d (omap (λ ki : bytes * option EventParamInfo, v ← m !! ki.1; match fate ki.2 v with Drop => Some ki.1 | _ => None end) [(k, info)]) →
    match filtered l d2 m2 with
    | (Finished, _, _) => ∃ k0 info0 v, (k0, info0) ∈ (k, info) :: l ∧ m !! k0 = Some v ∧ fate info0 v = Finish
    | (GoesOn, d', m') =>
        (∀ k0 info0 v, (k0, info0) ∈ (k, info) :: l → m !! k0 = Some v → fate info0 v ≠ Finish) ∧
        (∀ k0, m' !! k0 = m !! k0 ≫= left_over (list_to_map (M := gmap bytes (option EventParamInfo)) ((k, info) :: l) !! k0)) ∧
        d' = foldl add_dropped d (dropped_names ((k, info) :: l) m)
    end) as Hstep.
  { intros d2 m2 Hne Hkk Hfin Hd. specialize (IH d2 m2 Hn'). destruct (filtered l d2 m2) as [[[] d'] m'].
    - destruct IH as (Hnf & Hmap & Hd'). split_and!.
      + intros k0 info0 v [[= -> ->]|Hin]%elem_of_cons Hv; [by apply Hfin|]. apply (Hnf k0 info0 v Hin). rewrite Hne; [done|].
        intros ->. apply Hk. apply list_elem_of_fmap. by exists (k, info0).
      + intros k0. rewrite Hmap. cbn. destruct (decide (k0 = k)) as [->|Hk0].
        * rewrite lookup_insert_eq, Hkk, not_elem_of_list_to_map_1 by done. by destruct (m !! k ≫= _).
        * by rewrite lookup_insert_ne, Hne.
      + rewrite Hd', Hd. unfold dropped_names. change ((k, info) :: l) with ([(k, info)] ++ l). rewrite omap_app, foldl_app. f_equal.
        clear -Hne Hk. induction l as [|[k1 i1] l IH]; [done|]. cbn [omap list_omap] in *. rewrite Hne by set_solver.
        rewrite IH by set_solver. done.
    - destruct IH as (k0 & info0 & v & Hin & Hv & Hf). exists k0, info0, v. split_and!; [by right| |done]. rewrite <- Hne; [done|].
      intros ->. apply Hk. apply list_elem_of_fmap. by exists (k, info0). }
  destruct (m !! k) as [v|] eqn:E; [destruct (fate info v) as [v'| |] eqn:EF|]; try apply Hstep.
  - intros. by rewrite lookup_insert_ne.
  - rewrite lookup_insert_eq. cbn. by rewrite EF.
  - intros ? [= ->]. by rewrite EF.
  - cbn. rewrite E. cbn. by rewrite EF.
  - intros. by rewrite lookup_delete_ne.
  - rewrite lookup_delete_eq. cbn. by rewrite EF.
  - intros ? [= ->]. by rewrite EF.
  - cbn. rewrite E. cbn. by rewrite EF.
  - exists k, info, v. split_and!; [by left|done|done].
  - done.
  - done.
  - done.
  - cbn. by rewrite E.
Qed.

Lemma built_preserve e b p : Built e b → Built (set_preserve p e) b.
Proof.
  intros (e1 & HI & He & Hb). unfold InitBuilder in HI. destruct (builder_ e) as [b'|] eqn:E.
  - injection HI as <- <-. by apply Built_intro.
  - exists (set_builder (set_preserve p e) (Some b)). split_and!; [|done|done]. unfold InitBuilder. cbn. rewrite E.
    destruct (RawDataBuilder_from (rawData_ e)); [|done]. by injection HI as <- <-.
Qed.

(** The text of [DroppedParam]. *)
Definition dropped_text (l : list (bytes * option EventParamInfo)) (m : gmap bytes PValue) : bytes :=
  foldl add_dropped [] (dropped_names l m).

Lemma privacy_outcome e b l :
  Built e b → sized (dict b) → invalidParams_ (marks e) = Some l → NoDup l.*1 → Forall (λ ki, IsBaseInfo ki.1 = false) l →
  fits DROPPED_PARAM (CString (EscapeJsonStringValue (dropped_text l (dict b)))) →
  ∃ e' b', Built e' b' ∧
  ((PrivacyController_OnEvent g IsPreInstallApp e = Done (e', Finished) ∧
    ∃ k info v, (k, info) ∈ l ∧ dict b !! k = Some v ∧ fate info v = Finish) ∨
   (PrivacyController_OnEvent g IsPreInstallApp e = Done (e', GoesOn) ∧
    (∀ k info v, (k, info) ∈ l → dict b !! k = Some v → fate info v ≠ Finish) ∧
    ∃ M, (∀ k, M !! k = dict b !! k ≫= left_over (list_to_map (M := gmap bytes (option EventParamInfo)) l !! k)) ∧
      dict b' = if bool_decide (dropped_text l (dict b) = []) then M
                else <[DROPPED_PARAM := PString (EscapeJsonStringValue (dropped_text l (dict b)))]> M)).
Proof.
  intros HB Hsz Hl Hn HF Hfit. unfold PrivacyController_OnEvent.
  set (e0 := if _ && _ then _ else e).
  assert (Built e0 b ∧ invalidParams_ (marks e0) = Some l) as [HB0 Hl0].
  { subst e0. destruct (_ && _); [split; [by apply built_preserve|done]|done]. }
  rewrite Hl0. destruct l as [|ki l].
  { exists e0, b. split; [done|]. right. split; [done|]. split; [set_solver|]. exists (dict b). split; [|done].
    intros k. cbn. by destruct (dict b !! k). }
  set (l' := ki :: l) in *. destruct (check_params_filtered l' [] e0 b HB0 Hsz HF) as (e1 & b1 & HB1 & HC & Hd).
  pose proof (filtered_spec l' [] (dict b) Hn) as HS. rewrite HC. cbn [obind fst snd].
  destruct (filtered l' [] (dict b)) as [[v d] m]. cbn [fst snd] in *. destruct v.
  - destruct HS as (Hnf & Hmap & ->). fold (dropped_text l' (dict b)) in *. case_bool_decide.
    + exists e1, b1. split; [done|]. right. split_and!; [done|done|]. exists m. by rewrite Hd.
    + destruct (built_set_text e1 b1 DROPPED_PARAM (dropped_text l' (dict b)) HB1 ltac:(by vm_compute) Hfit) as (e2 & b2 & -> & HB2 & Hd2).
      exists e2, b2. split; [done|]. right. split_and!; [done|done|]. exists m. by rewrite Hd2, Hd.
  - exists e1, b1. split; [done|]. by left.
Qed.

Lemma left_over_allowed file t v v' :
  left_over (Some (Some (file, t))) v = Some v' →
  match v' with
  | PString s => Allow s file = true
  | PStringArray ss => ∀ s, s ∈ ss → s = STAR ∨ Allow s file = true
  | _ => v' = v
  end.
Proof.
  cbn [left_over]. destruct v as [| | | | | |s|ss]; cbn [fate]; try (by intros [= <-]).
  - destruct (Allow s file) eqn:E; [by intros [= <-]|by destruct (t =? THROW_TYPE_EVENT)].
  - intros [= <-]. unfold hide_names. cbn [snd]. intros s (s0 & -> & _)%list_elem_of_fmap. destruct (Allow s0 file) eqn:E; [by right|by left].
Qed.

(** C24: after the privacy stage an event that goes on has no restricted value left:
    a parameter restricted outright is gone, a text with a list of allowed names is
    an allowed name, an array of texts holds only allowed names and stars; every other
    parameter is as it was, and the names of the removed ones are in
    [DroppedParam].  The event is finished instead only if a parameter's definition
    says so and its value is not allowed. *)
Theorem no_restricted_value_left e b l :
  Built e b → sized (dict b) → invalidParams_ (marks e) = Some l → NoDup l.*1 → Forall (λ ki, IsBaseInfo ki.1 = false) l →
  fits DROPPED_PARAM (CString (EscapeJsonStringValue (dropped_text l (dict b)))) →
  ∃ e' b', Built e' b' ∧
  ((PrivacyController_OnEvent g IsPreInstallApp e = Done (e', Finished) ∧
    ∃ k file s, (k, Some (file, THROW_TYPE_EVENT)) ∈ l ∧ dict b !! k = Some (PString s) ∧ Allow s file = false) ∨
   (PrivacyController_OnEvent g IsPreInstallApp e = Done (e', GoesOn) ∧
    (∀ k, k ∉ l.*1 → k ≠ DROPPED_PARAM → dict b' !! k = dict b !! k) ∧
    (∀ k, (k, None) ∈ l → k ≠ DROPPED_PARAM → dict b' !! k = None) ∧
    (∀ k file t v, (k, Some (file, t)) ∈ l → k ≠ DROPPED_PARAM → dict b' !! k = Some v →
       match v with
       | PString s => Allow s file = true
       | PStringArray ss => ∀ s, s ∈ ss → s = STAR ∨ Allow s file = true
       | _ => dict b !! k = Some v
       end) ∧
    (dropped_text l (dict b) ≠ [] → dict b' !! DROPPED_PARAM = Some (PString (EscapeJsonStringValue (dropped_text l (dict b))))))).
Proof.
  intros HB Hsz Hl Hn HF Hfit. destruct (privacy_outcome e b l HB Hsz Hl Hn HF Hfit) as (e' & b' & HB' & [[HO Hf]|(HO & _ & M & HM & Hd)]);
    exists e', b'; (split; [exact HB'|]).
  - left. split; [done|]. destruct Hf as (k & info & v & Hin & Hv & Hfin). destruct info as [[file t]|]; [|done].
    destruct v as [| | | | | |s|]; cbn [fate] in Hfin; try done. destruct (Allow s file) eqn:E; [done|].
    destruct (Z.eqb_spec t THROW_TYPE_EVENT) as [->|]; [|done]. by exists k, file, s.
  - right. split; [done|].
    assert (∀ k, k ≠ DROPPED_PARAM → dict b' !! k = dict b !! k ≫= left_over (list_to_map (M := gmap bytes (option EventParamInfo)) l !! k)) as Hk.
    { intros k Hne. rewrite Hd. case_bool_decide; [apply HM|]. rewrite lookup_insert_ne by done. apply HM. }
    assert (∀ k info, (k, info) ∈ l → list_to_map (M := gmap bytes (option EventParamInfo)) l !! k = Some info) as Hin
      by (intros; by apply elem_of_list_to_map).
    split_and!.
    + intros k Hnk Hne. rewrite Hk by done. rewrite not_elem_of_list_to_map_1 by done. by destruct (dict b !! k).
    + intros k Hl0 Hne. rewrite Hk, (Hin k None) by done. by destruct (dict b !! k).
    + intros k file t v Hl0 Hne. rewrite Hk, (Hin k (Some (file, t))) by done. destruct (dict b !! k) as [v0|]; [|done].
      cbn [mbind option_bind]. intros H0. apply left_over_allowed in H0. by destruct v; try (subst; done).
    + intros Hne. rewrite Hd, bool_decide_false by done. by rewrite lookup_insert_eq.
Qed.

End Filter.

(** ** An instance *)

Definition sample_restricted : list (bytes * option EventParamInfo) :=
  [(str "APPS", Some (str "apps.list", 0)); (str "SECRET", None); (str "APP", Some (str "apps.list", 0))].

Definition privacy_builder : RawDataBuilder :=
  AppendValue (AppendValue (AppendValue (AppendValue RawDataBuilder_new (str "APPS") (CStringVec [str "known"; str "other"]))
    (str "NUM") (CUint 64 5)) (str "SECRET") (CUint 64 1)) (str "APP") (CString (str "other")).

Definition privacy_event : SysEvent :=
  set_builder (set_marks (event_empty 0) (mkMarks [] [] 0 true false 0 (-1) (Some sample_restricted) UNINIT_REPORT_INTERVAL))
    (Some privacy_builder).

Definition only_known (name : bytes) : bool := bool_decide (name = str "known").

Lemma privacy_builder_ok : builder_ok privacy_builder.
Proof.
  unfold privacy_builder. repeat (apply AppendValue_ok; [|by vm_compute|intros _; by vm_compute]). apply builder_new_ok.
Qed.

Lemma privacy_builder_sized : sized (dict privacy_builder).
Proof. apply map_Forall_to_list, (bool_decide_eq_true_1 _). vm_compute. reflexivity. Qed.

Lemma sample_restricted_keys : NoDup sample_restricted.*1.
Proof.
  repeat (apply NoDup_cons_2; [intros H; repeat (apply elem_of_cons in H as [H|H]; [done|]); by apply elem_of_nil in H|]).
  apply NoDup_nil_2.
Qed.

Lemma no_restricted_value_left_witness :
  ∃ e' b', Built e' b' ∧ PrivacyController_OnEvent None only_known privacy_event = Done (e', GoesOn) ∧
    dict b' !! str "NUM" = Some (PUnsigned 5) ∧ dict b' !! str "SECRET" = None ∧
    dict b' !! DROPPED_PARAM = Some (PString (str "SECRET,APP")).
Proof.
  destruct (no_restricted_value_left None only_known privacy_event privacy_builder sample_restricted
    (Built_intro privacy_event privacy_builder eq_refl privacy_builder_ok)
    privacy_builder_sized eq_refl
    sample_restricted_keys
    ltac:(repeat constructor) ltac:(by vm_compute))
    as (e' & b' & HB & [[HO _]|(HO & Hk & Hn & _ & Hd)]).
  - vm_compute in HO. discriminate.
  - exists e', b'. split; [exact HB|]. split; [exact HO|]. split; [|split].
    + rewrite Hk; [by vm_compute|by apply (bool_decide_unpack _); vm_compute|done].
    + apply Hn; [by apply (bool_decide_unpack _); vm_compute|done].
    + rewrite Hd; by vm_compute.
Defined.

End Privacy.
