(* ===== verification/DailyFacts.v ===== *)
(** * DailyFacts: the daily counts are exact

    The controller of DailyControl refines plain counters: one per event and day,
    compared with the event's threshold.  The cache, when it is written back and
    the change of the day do not show in any answer, and the tables that are
    uploaded hold the counts of their day. *)

From S2P Require Import Prelude DailyControl.
From stdpp Require Import base gmap list sets numbers strings.

Local Open Scope Z_scope.

Module DailyFacts.
Import DailyControl.

(** ** Tables as maps *)

Definition row_of (l : list EventInfo) : gmap CacheKey (Z * Z) :=
  list_to_map ((λ r, (r_key r, (r_count r, r_exceedTime r))) <$> l).

Lemma row_of_cons r l : row_of (r :: l) = <[r_key r := (r_count r, r_exceedTime r)]> (row_of l).
Proof. done. Qed.

Lemma row_of_app l r key :
  row_of (l ++ [r]) !! key = match row_of l !! key with Some x => Some x | None => row_of [r] !! key end.
Proof.
  induction l as [|q l IH]; [done|]. cbn [app]. rewrite !(row_of_cons q). destruct (decide (r_key q = key)) as [<-|Hne].
  - by rewrite !lookup_insert_eq.
  - by rewrite !lookup_insert_ne, IH.
Qed.

Lemma row_of_query l key :
  (λ r, (r_count r, r_exceedTime r)) <$> head (filter (λ row, r_key row = key) l) = row_of l !! key.
Proof.
  induction l as [|q l IH]; [done|]. rewrite row_of_cons, filter_cons. case_decide as H.
  - subst key. by rewrite lookup_insert_eq.
  - by rewrite lookup_insert_ne, IH.
Qed.

(** What an update makes of a row. *)
Definition updated (n e : Z) (x : Z * Z) : Z * Z := (n, if e =? 0 then x.2 else e).

Lemma row_of_update key n e l k :
  row_of (update_row (mkRow key n e) <$> l) !! k = if bool_decide (k = key) then updated n e <$> row_of l !! k else row_of l !! k.
Proof.
  induction l as [|q l IH]; [by case_bool_decide|]. rewrite fmap_cons, !row_of_cons. unfold update_row at 1 2 3. cbn [r_key r_count r_exceedTime].
  destruct (decide (r_key q = k)) as [<-|Hne].
  - case_bool_decide as Hk; cbn [r_key r_count r_exceedTime].
    + rewrite !lookup_insert_eq. unfold updated. cbn. done.
    + by rewrite !lookup_insert_eq.
  - rewrite (lookup_insert_ne (row_of l)) by done. rewrite lookup_insert_ne; [exact IH|]. by destruct (bool_decide (r_key q = key)).
Qed.

(** *** Writing the cache back *)

Definition merged (i : option ControlInfo) (x : option (Z * Z)) : option (Z * Z) :=
  match i with
  | Some i => if count i =? COUNT_OF_INIT then x else updated (count i) (exceedTime i) <$> x
  | None => x
  end.

Definition opened (d : Z) (l : list EventInfo) (h : DailyDbHelper) : Prop :=
  dbPath_ h = Some d ∧ dbStore_ h = true ∧ tables h = {[d := l]}.

Lemma opened_table d l h : opened d l h → table h = Some l.
Proof. intros (Hp & Hs & Ht). unfold table. rewrite Hp, Hs, Ht. apply lookup_singleton_eq. Qed.

Lemma opened_set d l l' h : opened d l h → opened d l' (set_table l' h) ∧ uploads (set_table l' h) = uploads h.
Proof.
  intros (Hp & Hs & Ht). unfold set_table. rewrite Hp. split; [|done]. split_and!; [done|done|]. cbn. rewrite Ht. apply insert_singleton_eq.
Qed.

Lemma flush_one_spec d l h key i :
  opened d l h →
  ∃ l', opened d l' (flush_one key i h) ∧ uploads (flush_one key i h) = uploads h ∧
    ∀ k, row_of l' !! k = if bool_decide (k = key) then merged (Some i) (row_of l !! k) else row_of l !! k.
Proof.
  intros HO. unfold flush_one, merged. destruct (count i =? COUNT_OF_INIT).
  - exists l. split_and!; [done|done|]. intros k. by case_bool_decide.
  - unfold UpdateEventInfo. rewrite (opened_table d l h HO). cbn [snd]. eexists. destruct (opened_set d l (update_row (mkRow key (count i) (exceedTime i)) <$> l) h HO).
    split_and!; [done|done|]. intros k. apply row_of_update.
Qed.

Lemma flush_spec d l h kvs :
  opened d l h → NoDup kvs.*1 →
  ∃ l', opened d l' (flush kvs h) ∧ uploads (flush kvs h) = uploads h ∧
    ∀ k, row_of l' !! k = merged (list_to_map (M := gmap CacheKey ControlInfo) kvs !! k) (row_of l !! k).
Proof.
  revert l h. induction kvs as [|[key i] kvs IH]; intros l h HO Hn; [by exists l|].
  inversion_clear Hn as [|? ? Hk Hn']. destruct (flush_one_spec d l h key i HO) as (l1 & HO1 & Hu1 & H1).
  destruct (IH l1 (flush_one key i h) HO1 Hn') as (l2 & HO2 & Hu2 & H2). exists l2. split_and!; [done|by rewrite <- Hu1|].
  intros k. rewrite H2, H1. cbn. case_bool_decide as E.
  - subst k. rewrite lookup_insert_eq. by rewrite not_elem_of_list_to_map_1.
  - by rewrite lookup_insert_ne.
Qed.
(** ** Plain counters *)

Section Counters.
Context (date : Z → Z) (typ : CacheKey → Z).

(** The limit of an event; every event has one type. *)
Definition limit_of (config : DailyConfig) (key : CacheKey) : Z :=
  let t := Config_GetThreshold config key (typ key) in if t <? 0 then 0 else t.

(** The day, the count of each event with when it was first over its limit, and the
    counts of the days before. *)
Record Counters := mkCounters { day : Z; counts : gmap CacheKey (Z * Z); conf : DailyConfig; reported : list (Z * gmap CacheKey (Z * Z)) }.

Inductive DailyOp :=
  | OpCheck (t : Times) (key : CacheKey)
  | OpConfig (config : DailyConfig).

Definition next_day (t : Times) (s : Counters) : Counters :=
  if bool_decide (day s = date (nowTime t)) then s
  else mkCounters (date (openTime t)) ∅ (conf s) (age (add_upload (day s) (counts s) (reported s))).

Definition spec_check (t : Times) (key : CacheKey) (s : Counters) : bool * Counters :=
  let s := next_day t s in
  let '(n, e) := default (0, 0) (counts s !! key) in
  (if isValid_ (conf s) then n + 1 <=? limit_of (conf s) key else true,
   mkCounters (day s) (<[key := (n + 1, if n =? limit_of (conf s) key then overTime t else e)]> (counts s)) (conf s) (reported s)).

Definition spec_daily (o : DailyOp) (s : Counters) : list bool * Counters :=
  match o with
  | OpCheck t key => let '(a, s) := spec_check t key s in ([a], s)
  | OpConfig config => ([], mkCounters (day s) (counts s) config (reported s))
  end.

Definition run_daily (o : DailyOp) (c : DailyController) : list bool * DailyController :=
  match o with
  | OpCheck t key => let '(a, c) := CheckThreshold date true true true t key (typ key) c in ([a], c)
  | OpConfig config => ([], OnConfigUpdate config c)
  end.

Fixpoint run_all {S} (step : DailyOp → S → list bool * S) (os : list DailyOp) (s : S) : list bool * S :=
  match os with
  | [] => ([], s)
  | o :: os => let '(a, s) := step o s in let '(b, s) := run_all step os s in (a ++ b, s)
  end.

(** Thresholds a signed 32-bit count can pass; the clock is past its origin. *)
Definition config_ok (config : DailyConfig) : Prop := ∀ key type, Config_GetThreshold config key type < 2 ^ 31 - 1.

Definition op_fine (o : DailyOp) : Prop :=
  match o with OpCheck t _ => overTime t ≠ 0 | OpConfig config => config_ok config end.

(** *** The relation *)

Definition as_counts (p : Z * list EventInfo) : Z * gmap CacheKey (Z * Z) := (p.1, row_of p.2).

Definition sim (N : Z) (s : Counters) (c : DailyController) : Prop :=
  0 <= N ∧ config_ok (conf s) ∧ config_ c = conf s ∧ reported s = as_counts <$> uploads (dbHelper_ c) ∧
  (∀ k n e, counts s !! k = Some (n, e) → 1 <= n <= N) ∧
  ∃ rows, opened (day s) rows (dbHelper_ c) ∧
    (∀ k, counts s !! k = merged (cache_ c !! k) (row_of rows !! k)) ∧
    (∀ k i, cache_ c !! k = Some i → threshold i = limit_of (conf s) k ∧
       ∃ x, row_of rows !! k = Some x ∧ counts s !! k = Some (updated (count i) (exceedTime i) x)).

Lemma sim_time N s c x : sim N s c → sim N s (mkController (config_ c) (dbHelper_ c) (cache_ c) x).
Proof. done. Qed.

Lemma sim_flush N s c : sim N s c → sim N s (UpdateCacheToDb c) ∧ cache_ (UpdateCacheToDb c) = ∅.
Proof.
  intros (HN0 & Hcfg & Hc & Hr & Hn & rows & HO & Hm & _). split; [|done].
  destruct (flush_spec _ _ _ (map_to_list (cache_ c)) HO (NoDup_fst_map_to_list _)) as (rows' & HO' & Hu & Hrow).
  split_and!; [done|done|done|by cbn; rewrite Hu|done|]. exists rows'. split_and!; [done| |done].
  intros k. cbn [UpdateCacheToDb cache_]. rewrite lookup_empty. cbn [merged]. rewrite Hrow, Hm. by rewrite list_to_map_to_list.
Qed.

Lemma sim_config N s c config : sim N s c → config_ok config →
  sim N (mkCounters (day s) (counts s) config (reported s)) (OnConfigUpdate config c).
Proof.
  intros HS Hok. destruct (sim_flush N s c HS) as [(HN0 & _ & _ & Hr & Hn & rows & HO & Hm & _) He].
  split_and!; [done|done|done|done|done|]. exists rows. split_and!; [done|exact Hm|]. intros k i. unfold OnConfigUpdate. cbn [cache_]. by rewrite He, lookup_empty.
Qed.

Lemma sim_flush_if_due N s c now start : sim N s c → sim N s (TryToUpdateCacheToDb now start c).
Proof.
  intros HS. unfold TryToUpdateCacheToDb, CheckTimeOfCache. repeat case_match; simplify_eq; try done; try (by apply sim_flush).
  all: by apply (sim_flush N s (mkController _ _ _ _)).
Qed.

Lemma add_upload_counts d l us : add_upload d (row_of l) (as_counts <$> us) = as_counts <$> add_upload d l us.
Proof. induction us as [|[d' l'] us IH]; [done|]. cbn [fmap list_fmap add_upload as_counts fst snd]. repeat case_match; [done|done|]. by rewrite fmap_cons, <- IH. Qed.

Lemma report_spec d rows h now :
  opened d rows h →
  uploads (Report date true true true now h) = age (add_upload d rows (uploads h)) ∧ opened (date now) [] (Report date true true true now h).
Proof.
  intros (Hp & _ & Ht). unfold Report. cbn [dbPath_]. rewrite Hp. rewrite bool_decide_true by by eexists. cbn [andb].
  unfold MoveDbFilesToUploadDir, TryToAgeUploadDbFiles, InitDb. cbn [negb dbPath_ dbStore_ tables uploads]. rewrite Ht, map_to_list_singleton. done.
Qed.

Lemma sim_day N s c t :
  sim N s c → sim N (next_day t s) (TryToReportDb date true true true (nowTime t) (openTime t) c).
Proof.
  intros HS. unfold next_day, TryToReportDb, NeedReport. pose proof HS as (_ & _ & _ & _ & _ & rows0 & (Hp0 & _) & _). rewrite Hp0.
  case_bool_decide as Hd; [rewrite bool_decide_true by congruence; done|]. rewrite bool_decide_false by congruence. cbn [negb].
  destruct (sim_flush N s c HS) as [(HN0 & Hcfg & Hc & Hr & Hn & rows & (Hp & Hs & Ht) & Hm & _) He].
  destruct (report_spec (day s) rows (dbHelper_ (UpdateCacheToDb c)) (openTime t) (conj Hp (conj Hs Ht))) as [Hu HO].
  split_and!; [done|done|done| |done|].
  - cbn [reported dbHelper_]. rewrite Hu, Hr. assert (counts s = row_of rows) as -> by (apply map_eq; intros k; rewrite Hm, He, lookup_empty; done).
    rewrite add_upload_counts. unfold age. by rewrite length_fmap, fmap_drop.
  - exists []. split_and!; [exact HO|intros k; cbn [cache_ counts]; by rewrite He, !lookup_empty|intros k i; cbn [cache_]; by rewrite He, lookup_empty].
Qed.

Lemma sim_count N s c key :
  sim N s c → GetCount c key = (default (0, 0) (counts s !! key)).1 ∧ GetThreshold c key (typ key) = limit_of (conf s) key.
Proof.
  intros (_ & _ & Hc & _ & Hn & rows & HO & Hm & Hi). unfold GetCount, GetThreshold.
  destruct (cache_ c !! key) as [i|] eqn:E.
  - destruct (Hi key i E) as (Ht & x & _ & Hx). by rewrite Hx.
  - rewrite Hc. split; [|done]. unfold QueryEventInfo. rewrite (opened_table _ _ _ HO). specialize (Hm key). rewrite E in Hm. cbn [merged] in Hm.
    specialize (Hn key). rewrite Hm, <- row_of_query in *. destruct (head _) as [r|]; [|done]. cbn [fmap option_fmap option_map default fst] in *.
    specialize (Hn _ _ eq_refl). rewrite (proj2 (Z.ltb_ge (r_count r) 0)) by lia. done.
Qed.

Lemma opened_insert d l h r : opened d l h → opened d (l ++ [r]) (InsertEventInfo r h).2 ∧ uploads (InsertEventInfo r h).2 = uploads h.
Proof. intros HO. unfold InsertEventInfo. rewrite (opened_table d l h HO). by apply (opened_set d l). Qed.

Lemma limit_range s key : config_ok (conf s) → 0 <= limit_of (conf s) key < 2 ^ 31 - 1.
Proof. intros Hc. specialize (Hc key (typ key)). unfold limit_of. destruct (Z.ltb_spec (Config_GetThreshold (conf s) key (typ key)) 0); lia. Qed.

(** Recording a count. *)
Lemma sim_record N s c key n e over :
  sim N s c → counts s !! key = Some (n, e) ∨ counts s !! key = None ∧ n = 0 ∧ e = 0 → over ≠ 0 → N + 1 < 2 ^ 31 →
  sim (N + 1) (mkCounters (day s) (<[key := (n + 1, if n =? limit_of (conf s) key then over else e)]> (counts s)) (conf s) (reported s))
    (UpdateCacheAndDb key (limit_of (conf s) key) (n + 1) over c).
Proof.
  intros (HN0 & Hcfg & Hc & Hr & Hn & rows & HO & Hm & Hi) Hkey Hover HN.
  pose proof (limit_range s key Hcfg). set (lim := limit_of (conf s) key) in *.
  assert (0 <= n <= N) as Hn0 by (destruct Hkey as [Hs|(_ & -> & _)]; [specialize (Hn key n e Hs)|]; lia).
  unfold UpdateCacheAndDb, s32. rewrite (sgn_small 32) by (unfold is_s; lia).
  assert ((n + 1 =? lim + 1) = (n =? lim)) as -> by (destruct (Z.eqb_spec (n + 1) (lim + 1)), (Z.eqb_spec n lim); lia).
  set (over' := if n =? lim then over else 0).
  assert (∀ x, (if n =? lim then over else x) = if over' =? 0 then x else over') as Eover.
  { intros x. subst over'. destruct (n =? lim); [|done]. by rewrite (proj2 (Z.eqb_neq over 0)). }
  assert (∀ k n' e', <[key := (n + 1, if n =? lim then over else e)]> (counts s) !! k = Some (n', e') → 1 <= n' <= N + 1) as Hrange.
  { intros k n' e'. destruct (decide (k = key)) as [->|Hne].
    - rewrite lookup_insert_eq. intros [= <- <-]. lia.
    - rewrite lookup_insert_ne by done. intros Hk. specialize (Hn k n' e' Hk). lia. }
  assert (∃ i rows', opened (day s) rows' (dbHelper_ (UpdateDb key (n + 1) over' (UpdateCache key lim (n + 1) over' c))) ∧
    uploads (dbHelper_ (UpdateDb key (n + 1) over' (UpdateCache key lim (n + 1) over' c))) = uploads (dbHelper_ c) ∧
    config_ (UpdateDb key (n + 1) over' (UpdateCache key lim (n + 1) over' c)) = config_ c ∧
    cache_ (UpdateDb key (n + 1) over' (UpdateCache key lim (n + 1) over' c)) = <[key := i]> (cache_ c) ∧
    (∀ k, k ≠ key → row_of rows' !! k = row_of rows !! k) ∧ threshold i = lim ∧
    Some (n + 1, if n =? lim then over else e) = merged (Some i) (row_of rows' !! key) ∧
    ∃ x, row_of rows' !! key = Some x ∧ (n + 1, if n =? lim then over else e) = updated (count i) (exceedTime i) x)
    as (i & rows' & HO' & Hu' & Hc' & Hcache & Hrows & Ht & Hmg & x & Hx & Hux).
  { unfold UpdateCache, UpdateDb, COUNT_OF_INIT. destruct (cache_ c !! key) as [i|] eqn:E.
    - destruct (Hi key i E) as (Ht & x & Hx & Hcx). destruct Hkey as [Hs|[Hs _]]; [|congruence].
      rewrite Hs in Hcx. injection Hcx as -> ->. specialize (Hn key _ _ Hs). rewrite (proj2 (Z.eqb_neq _ 1)) by lia.
      eexists _, rows. split_and!; [done|done|done|done|done|exact Ht| |].
      + rewrite Hx. cbn [merged count exceedTime]. unfold COUNT_OF_INIT. rewrite (proj2 (Z.eqb_neq _ 1)) by lia.
        cbn. unfold updated. do 2 f_equal. rewrite Eover. by destruct (over' =? 0) eqn:E0; [|rewrite E0].
      + exists x. split; [done|]. unfold updated. cbn. f_equal. rewrite Eover. by destruct (over' =? 0) eqn:E0; [|rewrite E0].
    - specialize (Hm key). rewrite E in Hm. cbn [merged] in Hm. destruct Hkey as [Hs|(Hs & -> & ->)].
      + specialize (Hn key _ _ Hs). rewrite (proj2 (Z.eqb_neq _ 1)) by lia.
        eexists _, rows. split_and!; [done|done|done|done|done|done| |].
        * rewrite <- Hm, Hs. cbn [merged count exceedTime]. unfold COUNT_OF_INIT. rewrite (proj2 (Z.eqb_neq _ 1)) by lia. cbn. by rewrite Eover.
        * exists (n, e). split; [congruence|]. unfold updated. cbn. by rewrite Eover.
      + cbn [Z.add Z.eqb Pos.eqb]. change (0 + 1) with 1. destruct (opened_insert (day s) rows (dbHelper_ c) (mkRow key 1 over') HO) as [HO' Hu'].
        exists (mkControl lim 1 over'), (rows ++ [mkRow key 1 over']).
        assert (row_of (rows ++ [mkRow key 1 over']) !! key = Some (1, over')) as Hrow.
        { rewrite row_of_app, <- Hm, Hs. apply lookup_insert_eq. }
        split_and!; [done|done|done|done| |done|by rewrite Hrow|].
        * intros k Hne. rewrite row_of_app. destruct (row_of rows !! k); [done|]. by rewrite row_of_cons, lookup_insert_ne by done.
        * exists (1, over'). split; [done|]. unfold updated. cbn. by destruct (over' =? 0). }
  split_and!; [lia|done|by rewrite Hc'|by rewrite Hu'|exact Hrange|]. exists rows'. split_and!; [exact HO'| |].
  - intros k. cbn [counts]. rewrite Hcache. destruct (decide (k = key)) as [->|Hne]; [by rewrite !lookup_insert_eq|].
    rewrite !lookup_insert_ne by done. by rewrite Hrows, Hm.
  - intros k i'. cbn [counts conf]. rewrite Hcache. destruct (decide (k = key)) as [->|Hne].
    + rewrite !lookup_insert_eq. intros [= <-]. split; [done|]. exists x. split; [done|]. by rewrite Hux.
    + rewrite !lookup_insert_ne by done. intros Hk. rewrite Hrows by done. by apply Hi.
Qed.

Lemma sim_check N s c t key :
  sim N s c → overTime t ≠ 0 → N + 1 < 2 ^ 31 →
  ∃ c', CheckThreshold date true true true t key (typ key) c = ((spec_check t key s).1, c') ∧ sim (N + 1) (spec_check t key s).2 c'.
Proof.
  intros HS Hover HN. unfold CheckThreshold, spec_check.
  apply (sim_flush_if_due N s c (nowTime t) (startTime t)) in HS. apply (sim_day N s _ t) in HS.
  set (s1 := next_day t s) in *. set (c1 := TryToReportDb _ _ _ _ _ _ _) in *.
  destruct (sim_count N s1 c1 key HS) as [-> ->].
  destruct (default (0, 0) (counts s1 !! key)) as [n e] eqn:E. cbn [fst snd].
  assert (counts s1 !! key = Some (n, e) ∨ counts s1 !! key = None ∧ n = 0 ∧ e = 0) as Hkey.
  { destruct (counts s1 !! key) as [[]|]; cbn in E; injection E as <- <-; [by left|by right]. }
  assert (0 <= n <= N) as Hn.
  { destruct HS as (HN0 & _ & _ & _ & Hn & _). destruct Hkey as [Hs|(_ & -> & _)]; [specialize (Hn key n e Hs)|]; lia. }
  rewrite !(sgn_small 32) by (unfold is_s; lia).
  pose proof (sim_record N s1 c1 key n e (overTime t) HS Hkey Hover HN) as HS'. eexists. split; [|exact HS'].
  destruct HS' as (_ & _ & -> & _). done.
Qed.

Lemma run_all_sim N os s c :
  sim N s c → Forall op_fine os → N + Zlen os < 2 ^ 31 →
  ∃ c', run_all run_daily os c = ((run_all spec_daily os s).1, c') ∧ ∃ N', sim N' (run_all spec_daily os s).2 c'.
Proof.
  revert N s c. induction os as [|o os IH]; intros N s c HS Hf HN; cbn [run_all]; [exists c; split; [done|by exists N]|].
  inversion_clear Hf as [|? ? Ho Hos]. rewrite Zlen_cons in HN. pose proof (Zlen_nonneg os).
  destruct o as [t key|config]; cbn [run_daily spec_daily op_fine] in *.
  - destruct (sim_check N s c t key HS Ho ltac:(lia)) as (c1 & -> & HS1). destruct (spec_check t key s) as [a s1]. cbn [fst snd] in *.
    destruct (IH (N + 1) s1 c1 HS1 Hos ltac:(lia)) as (c' & -> & HS'). destruct (run_all spec_daily os s1) as [b s2]. by exists c'.
  - destruct (IH N _ _ (sim_config N s c config HS Ho) Hos ltac:(lia)) as (c' & -> & HS').
    destruct (run_all spec_daily os _) as [b s2]. by exists c'.
Qed.

(** C8: through every sequence of checks and configuration updates, whenever the
    cache is written back and whenever the day changes, an event is let through
    exactly while the number of its checks of the day, this one included, is within
    its threshold; when the controller writes its cache back the table of the day
    holds each event's number and the time it first went over its threshold, and the
    tables kept for upload are those of the last days. *)
Theorem daily_counts_exact now config os :
  config_ok config → Forall op_fine os → Zlen os < 2 ^ 31 →
  ∃ c, run_all run_daily os (DailyController_new date true true now ∅ [] config) =
      ((run_all spec_daily os (mkCounters (date now) ∅ config [])).1, c) ∧
    let s := (run_all spec_daily os (mkCounters (date now) ∅ config [])).2 in
    (∃ rows, table (dbHelper_ (UpdateCacheToDb c)) = Some rows ∧ row_of rows = counts s) ∧
    dbPath_ (dbHelper_ c) = Some (day s) ∧
    as_counts <$> uploads (dbHelper_ c) = reported s.
Proof.
  intros Hc Hf HN.
  assert (sim 0 (mkCounters (date now) ∅ config []) (DailyController_new date true true now ∅ [] config)) as HS.
  { split_and!; [done|done|done|done|intros k n e; cbn [counts]; by rewrite lookup_empty|]. exists []. split_and!; [done|done|].
    intros k i. cbn. by rewrite lookup_empty. }
  destruct (run_all_sim 0 os _ _ HS Hf ltac:(lia)) as (c & HR & N & HS'). exists c. split; [done|]. intros s. fold s in HS'.
  destruct (sim_flush N s c HS') as [(_ & _ & _ & _ & _ & rows & HO & Hm & _) He]. split_and!.
  - exists rows. split; [by eapply opened_table|]. apply map_eq. intros k. by rewrite Hm, He, lookup_empty.
  - destruct HS' as (_ & _ & _ & _ & _ & rows' & (Hp & _) & _). done.
  - by destruct HS' as (_ & _ & _ & -> & _).
Qed.

End Counters.

(** ** Thresholds *)

(** Common thresholds are read as 64-bit integers and kept in 32 bits: a large one
    wraps around. *)
Lemma common_threshold_wraps :
  (λ c, Config_GetThreshold c (str "D", str "E") 1) <$>
    DailyConfig_Parse (Some (CObject [(str "Beta", CObject [(str "Common", CObject [(str "FAULT", CNumber (2 ^ 32 + 5));
      (str "STATISTIC", CNumber 9); (str "SECURITY", CNumber 9); (str "BEHAVIOR", CNumber 9)]); (str "Custom", CObject [])])])) (str "beta")
  = Some 5.
Proof. by vm_compute. Qed.

(** ** An instance *)

Definition sample_thresholds : CJson :=
  CObject [(str "Beta", CObject [
    (str "Common", CObject [(str "FAULT", CNumber 100); (str "STATISTIC", CNumber 100); (str "SECURITY", CNumber 100); (str "BEHAVIOR", CNumber 2000)]);
    (str "Custom", CObject [(str "TEST_DOMAIN1", CObject [(str "FAULT_EVENT", CNumber 2)])])])].

Definition sample_daily_config : DailyConfig := default DailyConfig_new (DailyConfig_Parse (Some sample_thresholds) (str "Beta")).

Definition sample_daily : list DailyOp :=
  let check t := OpCheck (mkTimes t t t t) (str "TEST_DOMAIN1", str "FAULT_EVENT") in
  [check 1000; check 2000; check 2100; OpConfig sample_daily_config; check 2200; check 90000].

Lemma sample_config_ok : config_ok sample_daily_config.
Proof.
  intros key type. unfold Config_GetThreshold.
  destruct (customThresholds_ sample_daily_config !! key) as [t|] eqn:E.
  - assert (map_Forall (λ _ t, t < 2 ^ 31 - 1) (customThresholds_ sample_daily_config)) as H.
    { apply map_Forall_to_list, (bool_decide_eq_true_1 _). vm_compute. reflexivity. }
    exact (H key t E).
  - destruct (commonThresholds_ sample_daily_config !! type) as [t|] eqn:E'; cbn [default]; [|done].
    assert (map_Forall (λ _ t, t < 2 ^ 31 - 1) (commonThresholds_ sample_daily_config)) as H.
    { apply map_Forall_to_list, (bool_decide_eq_true_1 _). vm_compute. reflexivity. }
    exact (H type t E').
Qed.

Lemma daily_counts_exact_witness :
  ∃ c, run_all (run_daily (λ t, t / 86400) (λ _, 1)) sample_daily
      (DailyController_new (λ t, t / 86400) true true 1000 ∅ [] sample_daily_config) = ([true; true; false; false; true], c) ∧
    fst <$> uploads (dbHelper_ c) = [0].
Proof.
  destruct (daily_counts_exact (λ t, t / 86400) (λ _, 1) 1000 sample_daily_config sample_daily sample_config_ok) as (c & HR & _ & _ & HU).
  - repeat constructor; try done; apply sample_config_ok.
  - done.
  - exists c. split; [etrans; [exact HR|by vm_compute]|].
    assert (fst <$> uploads (dbHelper_ c) = fst <$> (as_counts <$> uploads (dbHelper_ c))) as -> by (by rewrite <- list_fmap_compose).
    rewrite HU. by vm_compute.
Defined.

End DailyFacts.
