(* ===== verification/EventValidator.v ===== *)
(** * EventValidator: which events enter the pipeline

    Models plugins/event_validator: event_validator.cpp (the stage itself),
    event_verify_util.cpp (definition, type and duplicates; what is set on an event
    that is let through), event_period_info_util.cpp with
    base/running_status_logger/period_file_operator.cpp (numbers within an hour),
    event_delayed_util.cpp and event_param_watcher.cpp.  The daily thresholds are
    DailyControl, the definitions EventDef. *)

From S2P Require Import Prelude Platform RawData Encoder Decoder Params EventHeader Text.
From S2P Require Import Builder DbFile Json SysEvent EventDef DailyControl.
From S2P Require DecodedEvent.
From stdpp Require Import base gmap list numbers strings.

Local Open Scope Z_scope.
Local Open Scope hv_scope.

Module EventValidator.
Import JsonValue SysEvent EventDef.
Import DecodedEvent (outcome, Done, Undefined, obind).

(** ** Late events *)

Definition delayDetectLimit : Z := 5000.

(** [CheckIfEventDelayed]: whether the last event was late, and what is logged when
    that changes. *)
Definition CheckIfEventDelayed (happenTime createTime_us : Z) (isLastEventDelayed : bool) : bool * list (bool * Z * Z) :=
  let createTime := createTime_us / 1000 in
  let isCurEventDelayed :=
    if createTime <? happenTime then false
    else if u64 (createTime - happenTime) >? delayDetectLimit then true else false in
  if Bool.eqb isLastEventDelayed isCurEventDelayed then (isLastEventDelayed, [])
  else (isCurEventDelayed, [(isCurEventDelayed, happenTime, createTime)]).

(** ** The test type *)

Definition maxLen : Z := 256.

(** [ParameterWatchCallback]. *)
Definition ParameterWatchCallback (value testType : bytes) : bytes := if Zlen value >? maxLen then testType else value.

(** ** Duplicates *)

Definition infoLenLimit : Z := 256.

(** [GenerateHash]: FNV-1a over the first bytes of the raw data. *)
Definition hash_step (ret c : Z) : Z := u64 (Z.lxor ret c * 0x100000001B3).

Definition GenerateHash (r : RawData) : Z :=
  foldl hash_step 0xCBF29CE484222325 (take (Z.to_nat (Z.min (GetDataLength r) infoLenLimit)) (default [] (GetData r))).

Definition maxIds : Z := 25.

(** [IsDuplicateEvent]. *)
Definition IsDuplicateEvent (eventId : Z) (eventIdList_ : list Z) : bool * list Z :=
  if existsb (Z.eqb eventId) (reverse eventIdList_) then (true, eventIdList_)
  else (false, (if Zlen eventIdList_ >=? maxIds then drop 1 eventIdList_ else eventIdList_) ++ [eventId]).

(** ** Numbers within an hour *)

Record EventPeriodInfo := mkPeriod { timeStamp : bytes; preserveCnt : Z; exportCnt : Z }.

Definition DEFAULT_PERIOD_SEQ : Z := 1.
Definition PERIOD_FILE_WROTE_STEP : Z := 100.
Definition SOURCE_PERIOD_INFO_ITEM_CNT : nat := 3.

(** The file's lines are [None] in a version that keeps no file. *)
Record PeriodInfo := mkPeriodInfo { periodSeq_ : Z; periodInfoList_ : list EventPeriodInfo; optCnt_ : Z; period_file : option (list bytes) }.

Fixpoint read_periods (lines : list bytes) : list EventPeriodInfo :=
  match lines with
  | [] => []
  | line :: lines =>
      let infoDetails := DbFile.SplitStr line [32] in
      if negb (Nat.eqb (length infoDetails) SOURCE_PERIOD_INFO_ITEM_CNT) then []
      else mkPeriod (infoDetails !!! 0%nat) (stream_unsigned 64 10 (infoDetails !!! 1%nat)) (stream_unsigned 64 10 (infoDetails !!! 2%nat))
             :: read_periods lines
  end.

(** [Init]. *)
Definition PeriodInfo_Init (isBeta : bool) (file : list bytes) : PeriodInfo :=
  if isBeta then mkPeriodInfo DEFAULT_PERIOD_SEQ (read_periods file) 0 (Some file) else mkPeriodInfo DEFAULT_PERIOD_SEQ [] 0 None.

Definition period_line (i : EventPeriodInfo) : bytes := timeStamp i ++ [32] ++ to_string (preserveCnt i) ++ [32] ++ to_string (exportCnt i).

(** [RecordEventPeriodInfo]: every hundredth time. *)
Definition RecordEventPeriodInfo (p : PeriodInfo) : PeriodInfo :=
  match period_file p with
  | None => p
  | Some file =>
      let n := u64 (optCnt_ p + 1) in
      mkPeriodInfo (periodSeq_ p) (periodInfoList_ p) n
        (Some (if negb (n mod PERIOD_FILE_WROTE_STEP =? 0) then file else (period_line <$> periodInfoList_ p) ++ [[]]))
  end.

(** [UpdatePeriodInfo] in the hour [curTimeStamp]: also what is logged of the hours
    that are over. *)
Definition UpdatePeriodInfo (isBeta : bool) (curTimeStamp : bytes) (e : SysEvent) (p : PeriodInfo)
    : SysEvent * PeriodInfo * list EventPeriodInfo :=
  if negb isBeta then (e, p, []) else
  let m := marks e in
  match last (periodInfoList_ p) with
  | Some recent =>
      if bool_decide (timeStamp recent = curTimeStamp) then
        let seq := u64 (periodSeq_ p + 1) in
        let recent := mkPeriod (timeStamp recent)
          (if preserve_ m then u64 (preserveCnt recent + 1) else preserveCnt recent)
          (if collect_ m then u64 (exportCnt recent + 1) else exportCnt recent) in
        (SetEventPeriodSeqInfo (mkPeriodSeq curTimeStamp (collect_ m) seq) e,
         RecordEventPeriodInfo (mkPeriodInfo seq (removelast (periodInfoList_ p) ++ [recent]) (optCnt_ p) (period_file p)), [])
      else
        (SetEventPeriodSeqInfo (mkPeriodSeq curTimeStamp (collect_ m) DEFAULT_PERIOD_SEQ) e,
         RecordEventPeriodInfo (mkPeriodInfo DEFAULT_PERIOD_SEQ
           [mkPeriod curTimeStamp (Z.b2z (preserve_ m)) (Z.b2z (collect_ m))] (optCnt_ p) (period_file p)), periodInfoList_ p)
  | None =>
      (SetEventPeriodSeqInfo (mkPeriodSeq curTimeStamp (collect_ m) DEFAULT_PERIOD_SEQ) e,
       RecordEventPeriodInfo (mkPeriodInfo DEFAULT_PERIOD_SEQ
         [mkPeriod curTimeStamp (Z.b2z (preserve_ m)) (Z.b2z (collect_ m))] (optCnt_ p) (period_file p)), [])
  end.

(** ** What is set on an event *)

Definition TEST_TYPE_KEY : bytes := str "test_type_".

Section Marking.
Context `{HP : Heap} `{SC : Securec}.

(** The marks of the definition. *)
Definition mark (baseInfo : BaseInfo) (e : SysEvent) : SysEvent :=
  let m := marks e in let k := keyConfig baseInfo in
  set_marks e (mkMarks (match tag baseInfo with Some t => t | None => tag_ m end) (KeyConfig_GetLevel k) (k_privacy k)
    (negb (k_preserve k =? 0)) (negb (k_collect k =? 0)) (seq_ m) (eventSeq_ m) (disallowParams baseInfo) (reportInterval_ m)).

Definition DecorateSysEvent (baseInfo : BaseInfo) (id : Z) (testType : bytes) (e : SysEvent) : outcome SysEvent :=
  let e := mark baseInfo e in
  obind (if bool_decide (testType = []) then Done e else SetEventValue TEST_TYPE_KEY (CString testType) false e) (λ e,
    SetReportInterval (reportInterval baseInfo) (SetId id e)).

End Marking.

(** ** The stage *)

Record EventVerifyUtil := mkVerify { eventIdList_ : list Z; periodInfo : PeriodInfo; testType_ : bytes }.

Record EventValidator := mkValidator {
  isLastEventDelayed_ : bool;
  eventVerifyUtil_ : EventVerifyUtil;
  controller_ : option DailyControl.DailyController;
  definitions : EventJsonParser;
  isConfigUpdated_ : bool
}.

(** The world during one event: the clock at each reading, the hour, the privacy
    controller, the version; and what a pending configuration update would read. *)
Record World := mkWorld {
  w_date : Z → Z;
  w_times : DailyControl.Times;
  w_hour : bytes;
  w_isBeta : bool;
  w_isOversea : bool;
  w_privacy : option IPrivacyController;
  w_parse : bytes → option Json;
  w_parse_members : bytes → option (list (bytes * (Z * Z)));
  w_files : bytes → option bytes;
  w_legal : bytes → bool;
  w_def_path : bytes;
  w_daily_config : DailyControl.DailyConfig;
  w_dirs : bool * bool * bool
}.

Section Stage.
Context `{HP : Heap} `{SC : Securec}.
Context (w : World).

(** Why an event is refused. *)
Inductive Refusal := OverThreshold | NoNames | NotDefined | WrongType | Duplicate.

(** [IsValidSysEvent]; [None] when reading the definition stops the program. *)
Definition IsValidSysEvent (e : SysEvent) (v : EventVerifyUtil) (defs : EventJsonParser)
    : option (outcome (SysEvent * EventVerifyUtil * EventJsonParser * option Refusal)) :=
  let f := fields e in
  if bool_decide (domain_ f = []) || bool_decide (eventName_ f = []) then Some (Done (e, v, defs, Some NoNames)) else
  '(defs, baseInfo) ← GetDefinedBaseInfoByDomainName (w_parse w) (w_files w) (w_isBeta w) (w_isOversea w) (w_privacy w)
    (domain_ f) (eventName_ f) defs;
  match baseInfo with
  | None => Some (Done (e, v, defs, Some NotDefined))
  | Some baseInfo =>
      if negb (eventType_ f =? KeyConfig_GetType (keyConfig baseInfo)) then Some (Done (e, v, defs, Some WrongType)) else
      match rawData_ e with
      | None => Some (Undefined UB_OutOfBounds) (* a null pointer *)
      | Some r =>
          let eventId := GenerateHash r in
          let '(dup, ids) := IsDuplicateEvent eventId (eventIdList_ v) in
          let v := mkVerify ids (periodInfo v) (testType_ v) in
          if dup : bool then Some (Done (e, v, defs, Some Duplicate))
          else Some (obind (DecorateSysEvent baseInfo eventId (testType_ v) e) (λ e, Done (e, v, defs, None)))
      end
  end.

Definition IsValidEvent (e : SysEvent) (v : EventVerifyUtil) (defs : EventJsonParser)
    : option (outcome (SysEvent * EventVerifyUtil * EventJsonParser * option Refusal)) :=
  o ← IsValidSysEvent e v defs;
  Some (obind o (λ evd,
    let '(e, v, defs, refusal) := evd in
    match refusal with
    | Some _ => Done (e, v, defs, refusal)
    | None =>
        let '(e, p, _) := UpdatePeriodInfo (w_isBeta w) (w_hour w) e (periodInfo v) in
        Done (e, mkVerify (eventIdList_ v) p (testType_ v), defs, None)
    end)).

Definition CheckEvent (createTime : Z) (e : SysEvent) (s : EventValidator)
    : option (outcome (SysEvent * EventValidator * option Refusal)) :=
  let f := fields e in
  let '(delayed, _) := CheckIfEventDelayed (happenTime_ f) createTime (isLastEventDelayed_ s) in
  let '(ok, c) := match controller_ s with
    | None => (true, None)
    | Some c =>
        let '(up_ok, dir_ok, open_ok) := w_dirs w in
        let '(ok, c) := DailyControl.CheckThreshold (w_date w) up_ok dir_ok open_ok (w_times w)
          (domain_ f, eventName_ f) (eventType_ f) c in (ok, Some c)
    end in
  let s := mkValidator delayed (eventVerifyUtil_ s) c (definitions s) (isConfigUpdated_ s) in
  if negb ok then Some (Done (e, s, Some OverThreshold)) else
  o ← IsValidEvent e (eventVerifyUtil_ s) (definitions s);
  Some (obind o (λ evd, let '(e, v, defs, refusal) := evd in
    Done (e, mkValidator (isLastEventDelayed_ s) v (controller_ s) defs (isConfigUpdated_ s), refusal))).

(** [UpdateConfig]. *)
Definition UpdateConfig (s : EventValidator) : EventValidator :=
  mkValidator (isLastEventDelayed_ s) (eventVerifyUtil_ s) (DailyControl.OnConfigUpdate (w_daily_config w) <$> controller_ s)
    (ReadDefFile (w_parse_members w) (w_files w) (w_legal w) (w_def_path w) (definitions s)) false.

(** [OnEvent] of a system event: refused events are finished. *)
Definition EventValidator_OnEvent (createTime : Z) (e : SysEvent) (s : EventValidator)
    : option (outcome (SysEvent * EventValidator * option Refusal)) :=
  CheckEvent createTime e (if isConfigUpdated_ s then UpdateConfig s else s).

End Stage.

(** [OnConfigUpdate] and the message that the privacy configuration changed. *)
Definition EventValidator_OnConfigUpdate (s : EventValidator) : EventValidator :=
  mkValidator (isLastEventDelayed_ s) (eventVerifyUtil_ s) (controller_ s) (definitions s) true.

End EventValidator.
