(* ===== verification/ValidatorFacts.v ===== *)
(** * ValidatorFacts: what the validator lets through

    The decision of EventValidator in terms of the definition file, the daily counts
    and the last identifiers, what an event that is let through carries, and the
    numbers within an hour. *)

From S2P Require Import Prelude Platform RawData Encoder Decoder Params EventHeader Text.
From S2P Require Import Builder BuilderFacts BuilderOps Json SysEvent SysEventFacts EventDef DailyControl EventValidator.
From S2P Require DecodedEvent.
From stdpp Require Import base gmap list numbers strings.

Local Open Scope Z_scope.
Local Open Scope hv_scope.

Module ValidatorFacts.
Import SysEvent SysEventFacts EventDef EventValidator.
Import DecodedEvent (outcome, Done, Undefined, obind).

(** ** Identifiers *)

(** The last [n] of a list. *)
Definition lastn {A} (n : nat) (l : list A) : list A := drop (length l - n) l.

Lemma lastn_snoc {A} n (l : list A) x : (0 < n)%nat → lastn n (l ++ [x]) = drop (length (lastn n l) + 1 - n) (lastn n l) ++ [x].
Proof.
  intros Hn. unfold lastn. rewrite length_app, length_drop, drop_drop. cbn [length].
  destruct (decide (length l + 1 <= n)%nat).
  - replace (length l + 1 - n)%nat with 0%nat by lia. replace (length l - n)%nat with 0%nat by lia.
    replace (length l - 0 + 1 - n)%nat with 0%nat by lia. done.
  - rewrite drop_app_le by lia. do 2 f_equal. lia.
Qed.

(** The identifiers let through so far, in order. *)
Fixpoint accept_ids (ids : list Z) (accepted : list Z) : list bool * list Z :=
  match ids with
  | [] => ([], accepted)
  | id :: ids =>
      let dup := bool_decide (id ∈ lastn 25 accepted) in
      let '(l, accepted) := accept_ids ids (if dup then accepted else accepted ++ [id]) in (dup :: l, accepted)
  end.

Fixpoint check_ids (ids : list Z) (kept : list Z) : list bool * list Z :=
  match ids with
  | [] => ([], kept)
  | id :: ids => let '(dup, kept) := IsDuplicateEvent id kept in let '(l, kept) := check_ids ids kept in (dup :: l, kept)
  end.

Lemma is_duplicate_spec id accepted :
  IsDuplicateEvent id (lastn 25 accepted) =
  (bool_decide (id ∈ lastn 25 accepted),
   lastn 25 (if bool_decide (id ∈ lastn 25 accepted) then accepted else accepted ++ [id])).
Proof.
  unfold IsDuplicateEvent. assert (existsb (Z.eqb id) (reverse (lastn 25 accepted)) = bool_decide (id ∈ lastn 25 accepted)) as ->.
  { apply eq_bool_prop_intro. rewrite bool_decide_spec, Is_true_true, existsb_exists. setoid_rewrite <- list_elem_of_In. setoid_rewrite elem_of_reverse.
    setoid_rewrite Z.eqb_eq. naive_solver. }
  case_bool_decide; [done|]. f_equal. rewrite lastn_snoc by lia. f_equal.
  assert (length (lastn 25 accepted) <= 25)%nat as Hl by (unfold lastn; rewrite length_drop; lia).
  unfold maxIds, Zlen. destruct (Z.geb_spec (Z.of_nat (length (lastn 25 accepted))) 25) as [H25|H25].
  - f_equal. lia.
  - replace (length (lastn 25 accepted) + 1 - 25)%nat with 0%nat by lia. done.
Qed.

(** An event is dropped as a duplicate exactly when its identifier is among the
    last 25 that were not. *)
Lemma duplicates_last_25 ids accepted :
  check_ids ids (lastn 25 accepted) = ((accept_ids ids accepted).1, lastn 25 (accept_ids ids accepted).2).
Proof.
  revert accepted. induction ids as [|id ids IH]; intros accepted; [done|]. cbn [check_ids accept_ids].
  rewrite is_duplicate_spec, IH. by destruct (accept_ids ids _).
Qed.

Lemma hash_range r : is_u 64 (GenerateHash r).
Proof.
  unfold GenerateHash. generalize (take (Z.to_nat (Z.min (GetDataLength r) infoLenLimit)) (default [] (GetData r))).
  intros l. assert (∀ h, is_u 64 h → is_u 64 (foldl hash_step h l)) as H; [|by apply H].
  induction l as [|c l IH]; intros h Hh; [done|]. cbn [foldl]. apply IH. unfold hash_step. by apply is_u_mod.
Qed.

(** Events that agree in their first 256 bytes have the same identifier. *)
Lemma same_prefix_same_id r r' :
  infoLenLimit <= GetDataLength r → infoLenLimit <= GetDataLength r' →
  take 256 (default [] (GetData r)) = take 256 (default [] (GetData r')) → GenerateHash r = GenerateHash r'.
Proof. intros Hr Hr' Heq. unfold GenerateHash. rewrite !Z.min_r by done. unfold infoLenLimit. change (Z.to_nat 256) with 256%nat. by rewrite Heq. Qed.

(** ** The decision *)

Section Decision.
Context `{HP : Heap} `{SC : Securec} `{!HeapTotal HP}.
Context (w : World).

(** The cached definitions are those of a file; of the current one unless a
    configuration update is pending. *)
Definition Valid (s : EventValidator) : Prop :=
  ∃ files g, cache_inv (w_parse w) (w_isBeta w) (w_isOversea w) (mkDefState files g (definitions s)) ∧
    (isConfigUpdated_ s = false → files = w_files w ∧ g = w_privacy w) ∧
    (length (eventIdList_ (eventVerifyUtil_ s)) <= 25)%nat.

(** After a pending update. *)
Definition current (s : EventValidator) : EventValidator := if isConfigUpdated_ s then UpdateConfig w s else s.

Lemma valid_current s :
  Valid s → isConfigUpdated_ (current s) = false ∧
    cache_inv (w_parse w) (w_isBeta w) (w_isOversea w) (mkDefState (w_files w) (w_privacy w) (definitions (current s))).
Proof.
  intros (files & g & HI & Hc & _). unfold current. destruct (isConfigUpdated_ s) eqn:E.
  - split; [done|]. exact (update_inv (w_parse_members w) (w_parse w) (w_legal w) (w_isBeta w) (w_isOversea w) _
      (w_files w) (w_privacy w) (w_def_path w) _ _ HI eq_refl).
  - destruct (Hc eq_refl) as [-> ->]. done.
Qed.

(** What the current file says of an event. *)
Definition defined (s : EventValidator) (e : SysEvent) : option (option (option BaseInfo)) :=
  read_definition (w_parse w) (w_files w) (w_isBeta w) (w_isOversea w) (w_privacy w)
    (domainJsonParser_ (definitions (current s))) (domain_ (fields e)) (eventName_ (fields e)).

(** Whether the daily controller lets it through. *)
Definition within_threshold (s : EventValidator) (e : SysEvent) : bool :=
  match controller_ (current s) with
  | None => true
  | Some c => (DailyControl.CheckThreshold (w_date w) (w_dirs w).1.1 (w_dirs w).1.2 (w_dirs w).2 (w_times w)
      (domain_ (fields e), eventName_ (fields e)) (eventType_ (fields e)) c).1
  end.

Definition event_id (e : SysEvent) : Z := match rawData_ e with Some r => GenerateHash r | None => 0 end.

(** The decision; [None]: the program stops. *)
Definition decide_event (s : EventValidator) (e : SysEvent) : option (Refusal + BaseInfo) :=
  if negb (within_threshold s e) then Some (inl OverThreshold) else
  if bool_decide (domain_ (fields e) = []) || bool_decide (eventName_ (fields e) = []) then Some (inl NoNames) else
  match defined s e with
  | None => None
  | Some (Some (Some info)) =>
      if negb (eventType_ (fields e) =? KeyConfig_GetType (keyConfig info)) then Some (inl WrongType)
      else if bool_decide (event_id e ∈ eventIdList_ (eventVerifyUtil_ s)) then Some (inl Duplicate)
      else Some (inr info)
  | _ => Some (inl NotDefined)
  end.

(** What is set on an event that is let through. *)
Definition decorations (info : BaseInfo) (testType : bytes) (e : SysEvent) : list EventOp :=
  (if bool_decide (testType = []) then [] else [OpSetValue TEST_TYPE_KEY (CString testType) false]) ++ [OpSetId (event_id e)] ++
  (if reportInterval_ (marks e) =? reportInterval info then [] else [OpSetValue REPORT_INTERVAL_KEY (CInt 16 (reportInterval info)) false]).

Definition decorated_marks (info : BaseInfo) (m : Marks) : Marks :=
  let k := keyConfig info in
  mkMarks (default (tag_ m) (tag info)) (KeyConfig_GetLevel k) (k_privacy k) (negb (k_preserve k =? 0)) (negb (k_collect k =? 0))
    (seq_ m) (eventSeq_ m) (disallowParams info) (reportInterval info).

Lemma set_value_keeps key v append e e' :
  SetEventValue key v append e = Done e' → marks e' = marks e ∧ fields e' = fields e ∧ bundle_ e' = bundle_ e.
Proof.
  unfold SetEventValue, InitBuilder. destruct (builder_ e) as [b|]; cbn [obind fst snd]; [by intros [= <-]|].
  destruct (RawDataBuilder_from (rawData_ e)); cbn [obind fst snd]; [by intros [= <-]|done].
Qed.

Lemma set_id_keeps id e : marks (SetId id e) = marks e ∧ fields (SetId id e) = fields e ∧ bundle_ (SetId id e) = bundle_ e.
Proof. unfold SetId. destruct (rawData_ e) as [r|]; [destruct (GetData r)|]; done. Qed.

Lemma sync_marks e M m : Sync e M → Sync (set_marks e m) M.
Proof. done. Qed.

Lemma decorate_spec info testType id e M r :
  Sync e M → rawData_ e = Some r → id = event_id e → ops_ok (decorations info testType e) M →
  ∃ e', DecorateSysEvent info id testType e = Done e' ∧ Sync e' (foldl (λ M o, spec_op o M) M (decorations info testType e)) ∧
    marks e' = decorated_marks info (marks e) ∧ fields e' = fields e ∧ bundle_ e' = bundle_ e.
Proof.
  intros HS Hr -> Hops. unfold DecorateSysEvent, decorations in *.
  assert (Sync (mark info e) M) as HS0 by by apply sync_marks.
  (* the test type *)
  assert (∃ e1, (if bool_decide (testType = []) then Done (mark info e) else SetEventValue TEST_TYPE_KEY (CString testType) false (mark info e)) = Done e1 ∧
    Sync e1 (foldl (λ M o, spec_op o M) M (if bool_decide (testType = []) then [] else [OpSetValue TEST_TYPE_KEY (CString testType) false])) ∧
    marks e1 = marks (mark info e) ∧ fields e1 = fields e ∧ bundle_ e1 = bundle_ e) as (e1 & -> & HS1 & Hm1 & Hf1 & Hb1).
  { case_bool_decide; [by exists (mark info e)|]. destruct Hops as (Ho & HF & _).
    destruct (sync_set_value (mark info e) M _ _ _ HS0 Ho HF) as (e1 & HE & HS1). exists e1. split; [done|]. split; [done|].
    by destruct (set_value_keeps _ _ _ _ _ HE) as (-> & -> & ->). }
  cbn [obind]. rewrite foldl_app. set (M1 := foldl (λ M o, spec_op o M) M (if bool_decide (testType = []) then [] else [OpSetValue TEST_TYPE_KEY (CString testType) false])) in *.
  assert (ops_ok ([OpSetId (event_id e)] ++ (if reportInterval_ (marks e) =? reportInterval info then []
    else [OpSetValue REPORT_INTERVAL_KEY (CInt 16 (reportInterval info)) false])) M1) as Hops1.
  { subst M1. case_bool_decide; [exact Hops|]. exact (proj2 (proj2 Hops)). }
  destruct Hops1 as (Hid & HF2 & Hops2). cbn [foldl app]. pose proof (sync_set_id e1 M1 _ HS1 Hid) as HS2.
  destruct (set_id_keeps (event_id e) e1) as (Hm2 & Hf2 & Hb2). unfold SetReportInterval.
  assert (reportInterval_ (marks (SetId (event_id e) e1)) = reportInterval_ (marks e)) as Hri by (rewrite Hm2, Hm1; done).
  rewrite Hri. destruct (Z.eqb_spec (reportInterval_ (marks e)) (reportInterval info)) as [Heq|Hne].
  - eexists. split; [done|]. split; [exact HS2|]. rewrite Hm2, Hm1, Hf2, Hb2. split; [|done].
    unfold mark, decorated_marks. cbn. rewrite Heq. by destruct (tag info).
  - destruct Hops2 as (Ho3 & HF3 & _).
    destruct (sync_set_value _ _ _ _ _ (sync_marks _ _ (mkMarks (tag_ (marks (SetId (event_id e) e1))) (level_ (marks (SetId (event_id e) e1)))
      (privacy_ (marks (SetId (event_id e) e1))) (preserve_ (marks (SetId (event_id e) e1))) (collect_ (marks (SetId (event_id e) e1)))
      (seq_ (marks (SetId (event_id e) e1))) (eventSeq_ (marks (SetId (event_id e) e1))) (invalidParams_ (marks (SetId (event_id e) e1)))
      (reportInterval info)) HS2) Ho3 HF3) as (e3 & HE & HS3).
    exists e3. split; [exact HE|]. split; [exact HS3|]. destruct (set_value_keeps _ _ _ _ _ HE) as (-> & -> & ->). cbn [marks set_marks fields bundle_].
    rewrite Hm2, Hm1, Hf2, Hb2. split; [|done]. unfold mark, decorated_marks. cbn. by destruct (tag info).
Qed.

Lemma current_ids s : eventVerifyUtil_ (current s) = eventVerifyUtil_ s.
Proof. unfold current. by destruct (isConfigUpdated_ s). Qed.

(** C7: the validator lets an event through exactly if its count of the day is within
    the threshold, it has a domain and a name, the definition file (as the privacy
    policy reads it) defines it with its type, and its identifier is not among the
    last 25.  A refused event is left as it was; one that goes on carries the level,
    tag, privacy, storage and report settings of its definition, and its header and
    parameters are those it had with the identifier, the test type and the report
    interval set.  When reading the definition stops the program, so does the stage. *)
Theorem event_validator_decides s e M createTime :
  Valid s → Sync e M →
  (∀ info, decide_event s e = Some (inr info) → ops_ok (decorations info (testType_ (eventVerifyUtil_ s)) e) M) →
  match decide_event s e with
  | None => EventValidator_OnEvent w createTime e s = None
  | Some (inl why) => ∃ s', EventValidator_OnEvent w createTime e s = Some (Done (e, s', Some why)) ∧ Valid s' ∧
      eventIdList_ (eventVerifyUtil_ s') = eventIdList_ (eventVerifyUtil_ s)
  | Some (inr info) => ∃ e' s', EventValidator_OnEvent w createTime e s = Some (Done (e', s', None)) ∧ Valid s' ∧
      eventIdList_ (eventVerifyUtil_ s') = lastn 25 (eventIdList_ (eventVerifyUtil_ s) ++ [event_id e]) ∧
      Sync e' (foldl (λ M o, spec_op o M) M (decorations info (testType_ (eventVerifyUtil_ s)) e)) ∧
      marks e' = decorated_marks info (marks e) ∧ fields e' = fields e
  end.
Proof.
  intros HV HS Hops. destruct (valid_current s HV) as [Hcu HI]. pose proof HV as (_ & _ & _ & _ & Hlen).
  unfold EventValidator_OnEvent. change (if isConfigUpdated_ s then UpdateConfig w s else s) with (current s).
  unfold CheckEvent. destruct (CheckIfEventDelayed _ _ _) as [delayed lg].
  assert (∃ c, (match controller_ (current s) with
    | None => (true, None)
    | Some c => let '(up_ok, dir_ok, open_ok) := w_dirs w in
        let '(ok, c) := DailyControl.CheckThreshold (w_date w) up_ok dir_ok open_ok (w_times w)
          (domain_ (fields e), eventName_ (fields e)) (eventType_ (fields e)) c in (ok, Some c)
    end) = (within_threshold s e, c)) as [c ->].
  { unfold within_threshold. destruct (controller_ (current s)) as [c|]; [|by eexists]. destruct (w_dirs w) as [[up dir] op]. cbn [fst snd].
    destruct (DailyControl.CheckThreshold _ _ _ _ _ _ _ c) as [ok c']. by eexists. }
  unfold decide_event in *. destruct (within_threshold s e); cbn [negb] in *.
  2: { eexists. split; [done|]. split; [|cbn; by rewrite current_ids]. exists (w_files w), (w_privacy w). split_and!; [exact HI|done|cbn; by rewrite current_ids]. }
  unfold IsValidEvent, IsValidSysEvent. cbn [eventVerifyUtil_ definitions controller_ isLastEventDelayed_ isConfigUpdated_].
  rewrite current_ids. destruct (bool_decide (domain_ (fields e) = []) || bool_decide (eventName_ (fields e) = [])) eqn:EN.
  { cbn [mbind option_bind obind]. eexists. split; [done|]. split; [|done]. exists (w_files w), (w_privacy w). split_and!; [exact HI|done|done]. }
  pose proof (lookup_transparent (w_parse_members w) (w_parse w) (w_legal w) (w_isBeta w) (w_isOversea w) _ (domain_ (fields e)) (eventName_ (fields e)) HI) as HL.
  cbn [d_files d_controller d_parser run_def] in HL. unfold defined in *.
  destruct (read_definition (w_parse w) (w_files w) (w_isBeta w) (w_isOversea w) (w_privacy w)
    (domainJsonParser_ (definitions (current s))) (domain_ (fields e)) (eventName_ (fields e))) as [found|].
  2: { destruct (GetDefinedBaseInfoByDomainName (w_parse w) (w_files w) (w_isBeta w) (w_isOversea w) (w_privacy w) (domain_ (fields e))
         (eventName_ (fields e)) (definitions (current s))) as [[defs i]|]; [by cbn in HL|done]. }
  destruct HL as (defs & HG & _ & HI').
  destruct (GetDefinedBaseInfoByDomainName (w_parse w) (w_files w) (w_isBeta w) (w_isOversea w) (w_privacy w) (domain_ (fields e))
    (eventName_ (fields e)) (definitions (current s))) as [[defs' i]|]; [|done].
  cbn [mbind option_bind] in HG |- *. injection HG as -> ->.
  assert (∀ ids p t, (length ids <= 25)%nat → Valid (mkValidator delayed (mkVerify ids p t) c defs (isConfigUpdated_ (current s)))) as HV'.
  { intros ids p t Hids. exists (w_files w), (w_privacy w). split_and!; [exact HI'|done|exact Hids]. }
  destruct (eventVerifyUtil_ s) as [ids p t] eqn:EV. cbn [eventIdList_ periodInfo testType_] in *.
  destruct found as [[info|]|]; cbn [default Datatypes.id].
  2-3: cbn [mbind option_bind obind]; eexists; (split; [done|]); split; [by apply HV'|done].
  destruct (eventType_ (fields e) =? KeyConfig_GetType (keyConfig info)); cbn [negb] in *.
  2: { cbn [mbind option_bind obind]. eexists. split; [done|]. split; [by apply HV'|done]. }
  pose proof HS as (_ & _ & (r & M' & Hr & _) & _). rewrite Hr. assert (GenerateHash r = event_id e) as -> by (unfold event_id; by rewrite Hr).
  assert (lastn 25 ids = ids) as Hids by (unfold lastn; by replace (length ids - 25)%nat with 0%nat by lia).
  pose proof (is_duplicate_spec (event_id e) ids) as HD. rewrite Hids in HD. rewrite HD. case_bool_decide as Hin.
  { cbn [mbind option_bind obind]. rewrite Hids. eexists. split; [done|]. split; [by apply HV'|done]. }
  destruct (decorate_spec info t (event_id e) e M r HS Hr eq_refl (Hops info eq_refl)) as (e1 & -> & HS1 & Hm1 & Hf1 & _).
  cbn [mbind option_bind obind eventIdList_ periodInfo testType_].
  destruct (UpdatePeriodInfo (w_isBeta w) (w_hour w) e1 p) as [[e2 p2] l2] eqn:EP.
  assert (Sync e2 (foldl (λ M o, spec_op o M) M (decorations info t e)) ∧ marks e2 = marks e1 ∧ fields e2 = fields e1) as (HS2 & Hm2 & Hf2).
  { unfold UpdatePeriodInfo in EP. destruct (w_isBeta w); cbn [negb] in EP; [|by simplify_eq].
    destruct (last (periodInfoList_ p)); [case_bool_decide|]; by simplify_eq. }
  exists e2. eexists. split; [done|]. split; [apply HV'; unfold lastn; rewrite length_drop; lia|].
  split_and!; [done|exact HS2|by rewrite Hm2|by rewrite Hf2].
Qed.

End Decision.

(** ** Numbers within an hour *)

Section Periods.

(** The events of a beta version, each in the hour it is let through. *)
Fixpoint update_periods (es : list (bytes * SysEvent)) (p : PeriodInfo) : list SysEvent * PeriodInfo :=
  match es with
  | [] => ([], p)
  | (hour, e) :: es =>
      let '(e, p, _) := UpdatePeriodInfo true hour e p in
      let '(l, p) := update_periods es p in (e :: l, p)
  end.

(** Each event's number: one more than the last in the same hour, else one. *)
Fixpoint number_events (es : list (bytes * SysEvent)) (lastHour : option bytes) (n : Z) : list SysEvent :=
  match es with
  | [] => []
  | (hour, e) :: es =>
      let n := if bool_decide (lastHour = Some hour) then n + 1 else 1 in
      SetEventPeriodSeqInfo (mkPeriodSeq hour (collect_ (marks e)) n) e :: number_events es (Some hour) n
  end.

Lemma record_keeps p : periodSeq_ (RecordEventPeriodInfo p) = periodSeq_ p ∧ periodInfoList_ (RecordEventPeriodInfo p) = periodInfoList_ p.
Proof. unfold RecordEventPeriodInfo. by destruct (period_file p). Qed.

(** Within one run of the service the events of an hour are numbered from one
    without a gap. *)
Lemma events_numbered es p :
  0 <= periodSeq_ p → periodSeq_ p + Zlen es < 2 ^ 64 →
  (update_periods es p).1 = number_events es (timeStamp <$> last (periodInfoList_ p)) (periodSeq_ p).
Proof.
  revert p. induction es as [|[hour e] es IH]; intros p H0 HN; [done|]. cbn [update_periods number_events].
  rewrite Zlen_cons in HN. pose proof (Zlen_nonneg es). unfold UpdatePeriodInfo. cbn [negb].
  assert (∀ seq l n f, 0 <= seq <= periodSeq_ p + 1 → timeStamp <$> last l = Some hour →
    (update_periods es (RecordEventPeriodInfo (mkPeriodInfo seq l n f))).1 = number_events es (Some hour) seq) as Hnext.
  { intros seq l n f Hs Hl. destruct (record_keeps (mkPeriodInfo seq l n f)) as [E1 E2].
    rewrite IH by (rewrite E1; cbn [periodSeq_]; lia). by rewrite E1, E2; cbn [periodSeq_ periodInfoList_]; rewrite Hl. }
  destruct (last (periodInfoList_ p)) as [recent|] eqn:EL; cbn [fmap option_fmap option_map].
  - case_bool_decide as Hh; [rewrite bool_decide_true by congruence|rewrite bool_decide_false by congruence].
    + rewrite u64_small by (unfold is_u; lia). destruct (update_periods es _) as [l p'] eqn:EU. cbn [fst]. f_equal.
      change l with (l, p').1. rewrite <- EU. apply Hnext; [lia|]. rewrite last_snoc. cbn. by rewrite Hh.
    + destruct (update_periods es _) as [l p'] eqn:EU. cbn [fst]. f_equal. change l with (l, p').1. rewrite <- EU.
      apply (Hnext 1); [lia|done].
  - rewrite bool_decide_false by done. destruct (update_periods es _) as [l p'] eqn:EU. cbn [fst]. f_equal. change l with (l, p').1. rewrite <- EU.
    apply (Hnext 1); [lia|done].
Qed.

(** After a restart within the hour the numbers are given again: the list of hours is
    read back, the number is not. *)
Lemma numbers_repeat_after_restart :
  let hour := str "2024010112" in let e := event_empty 0 in
  (update_periods [(hour, e); (hour, e)] (PeriodInfo_Init true [])).1 !! 1%nat =
  (update_periods [(hour, e)] (PeriodInfo_Init true [str "2024010112 2 0"])).1 !! 0%nat.
Proof. by vm_compute. Qed.

End Periods.

(** ** An instance *)

Definition validator_definition : JsonValue.Json :=
  JsonValue.JObject [(str "SAMPLE", JsonValue.JObject [(BASE, JsonValue.JObject
    [(str "level", JsonValue.JString (str "CRITICAL")); (str "type", JsonValue.JString (str "FAULT"))])])].

Definition validator_world : World :=
  mkWorld (λ t, t / 86400) (DailyControl.mkTimes 1000 1000 1000 1000) (str "1970010100") true false None
    (λ _, Some validator_definition) (λ _, Some [(str "HIVIEW", (0, 1))]) (λ _, Some [0]) (λ _, true) (str "hisysevent.def")
    (DailyControl.mkConfig true {[ 1 := 1 ]} ∅) (true, true, true).

Definition sample_validator : EventValidator :=
  mkValidator false (mkVerify [1; 2] (PeriodInfo_Init true []) [])
    (Some (DailyControl.DailyController_new (λ t, t / 86400) true true 1000 ∅ [] DailyControl.DailyConfig_new)) EventJsonParser_new true.

Lemma sample_validator_valid : Valid validator_world sample_validator.
Proof.
  exists (λ _, None), None. split_and!; [|done|cbn; lia].
  split; [intros d n i; by unfold GetEventInCache; cbn; rewrite lookup_empty|by vm_compute].
Qed.

Definition validator_event : SysEvent :=
  match SysEvent_new (Some sample_raw) 7 0 with Done e => e | Undefined _ => event_empty 0 end.

Definition sample_info : BaseInfo := mkBaseInfo None (mkKeyConfig 0 CRITICAL_LEVEL_VAL 4 1 0) None 0.

Lemma validator_event_sync : Sync validator_event (meaning sample_builder).
Proof.
  assert (Zlen (builder_block sample_builder) <= DecodedEvent.MAX_BLOCK_SIZE) as HS by by vm_compute.
  destruct (Build_block sample_builder sample_raw sample_builder_ok HS sample_build) as [Hu Hc].
  destruct (new_event_sync sample_builder sample_raw 7 0 sample_builder_ok sample_fits Hu Hc) as (e & HN & HSy & _).
  unfold validator_event. by rewrite HN.
Qed.

Lemma sample_decorations_ok : ops_ok (decorations sample_info [] validator_event) (meaning sample_builder).
Proof. exact (bool_decide_eq_true_1 (ops_ok (decorations sample_info [] validator_event) (meaning sample_builder)) ltac:(by vm_compute)). Qed.

Lemma event_validator_decides_witness :
  ∃ e' s', EventValidator_OnEvent validator_world 0 validator_event sample_validator = Some (Done (e', s', None)) ∧
    level_ (marks e') = str "CRITICAL" ∧ preserve_ (marks e') = true.
Proof.
  assert (decide_event validator_world sample_validator validator_event = Some (inr sample_info)) as HD by by vm_compute.
  pose proof (event_validator_decides validator_world sample_validator validator_event (meaning sample_builder) 0
    sample_validator_valid validator_event_sync) as H.
  rewrite HD in H. destruct H as (e' & s' & HO & _ & _ & _ & Hm & _).
  - intros info Hi. assert (sample_info = info) as <- by congruence. exact sample_decorations_ok.
  - exists e', s'. split; [exact HO|]. rewrite Hm. split; vm_compute; reflexivity.
Defined.

End ValidatorFacts.
