(* ===== verification/EventServer.v ===== *)
(** * EventServer: events received from the sockets and the kernel device

    Models plugins/sysevent_source/event_server.cpp and the receiver of
    sysevent_source.cpp.  What [recvmsg], [read], [open] and [epoll_ctl] answer is
    data of the model: [RecvResult] is one answer of [recvmsg], and the memory a
    datagram is read into is kept whole, so that bytes left by an earlier
    datagram stay where they are. *)

From S2P Require Import Prelude Platform RawData Decoder Params EventHeader Builder BuilderFacts BuilderOps DecodedEvent SysEvent SysEventFacts.
From stdpp Require Import base gmap list numbers strings.

Local Open Scope Z_scope.
Local Open Scope hv_scope.

Module EventServer.
Import SysEvent SysEventFacts.

Definition BUFFER_SIZE : Z := 384 * 1024.
Definition EVENT_READ_BUFFER : Z := 2048.
(** [sizeof(struct Header)]: two 16-bit fields. *)
Definition SIZEOF_KERNEL_HEADER : Z := 4.
Definition POS_OF_UID_IN_HEADER : Z := 17 + 33 + 8 + 1.
Definition POS_OF_PID_IN_HEADER : Z := POS_OF_UID_IN_HEADER + 4.

(** [*(reinterpret_cast<uint32_t*>(p + pos))] *)
Definition ReadUint32 (d : bytes) (pos : Z) : outcome Z :=
  let* s := ReadAt d pos 4 in Done (le_value s).

(** *** One answer of [recvmsg]: no data, or a datagram with the sender's
    process and user, if the control message carries them *)
Inductive RecvResult :=
  | RecvFailed
  | Received (data : bytes) (cred : option (Z * Z)).

(** The memory after a datagram was written at its start; what does not fit is cut. *)
Definition read_into (buffer data : bytes) : bytes :=
  let d := take (length buffer) data in d ++ drop (length d) buffer.

Record SocketDevice := mkSocketDevice {
  socketId_ : Z;
  uCredPid_ : Z;
  uCredUid_ : Z;
  socketName_ : bytes;
  eventCountPerCycle_ : Z
}.

Definition SocketDevice_new (name : bytes) (perCycle : Z) : SocketDevice := mkSocketDevice (-1) 0 0 name perCycle.
Definition set_cred (d : SocketDevice) (pid uid : Z) : SocketDevice :=
  mkSocketDevice (socketId_ d) pid uid (socketName_ d) (eventCountPerCycle_ d).
Definition set_socket (d : SocketDevice) (fd : Z) : SocketDevice :=
  mkSocketDevice fd (uCredPid_ d) (uCredUid_ d) (socketName_ d) (eventCountPerCycle_ d).

(** [controlSocket] is the answer of [GetControlSocket]. *)
Definition SocketDevice_Open (controlSocket : Z) (d : SocketDevice) : Z * SocketDevice :=
  (controlSocket, set_socket d controlSocket).
Definition SocketDevice_Close (d : SocketDevice) : SocketDevice :=
  if socketId_ d >? 0 then set_socket d (-1) else d.

Definition SocketDevice_IsValidMsg (d : SocketDevice) (msg : bytes) (len : Z) : outcome bool :=
  if len <? GetValidDataMinimumByteCount then Done false else
  let* dataByteCnt := ReadInt32 msg 0 in
  if dataByteCnt >? BUFFER_SIZE then Done false else
  if negb (dataByteCnt =? len) then Done false else
  let* uid := ReadUint32 msg (4 + POS_OF_UID_IN_HEADER) in
  if negb (uid =? uCredUid_ d) then Done false else
  let* pid := ReadUint32 msg (4 + POS_OF_PID_IN_HEADER) in
  Done (s32 pid =? uCredPid_ d).

Record BBoxDevice := mkBBoxDevice { fd_ : Z; hasBbox_ : bool }.
Definition BBoxDevice_new : BBoxDevice := mkBBoxDevice (-1) false.

(** [sysevent] and [bbox] are what opening the two device nodes gives. *)
Definition BBoxDevice_Open (sysevent bbox : Z) (d : BBoxDevice) : Z * BBoxDevice :=
  let d := if sysevent <? 0 then mkBBoxDevice bbox (hasBbox_ d) else mkBBoxDevice sysevent true in
  if fd_ d <? 0 then (-1, d) else (fd_ d, d).
Definition BBoxDevice_Close (d : BBoxDevice) : BBoxDevice :=
  if fd_ d >? 0 then mkBBoxDevice (-1) (hasBbox_ d) else d.

(** The length is compared as a [size_t] when the kernel wrote extra bytes. *)
Definition BBoxDevice_IsValidMsg (d : BBoxDevice) (msg : bytes) (len : Z) : outcome bool :=
  if len <? GetValidDataMinimumByteCount then Done false else
  let* dataByteCnt := ReadInt32 msg 0 in
  Done (negb ((hasBbox_ d && negb (dataByteCnt =? len)) ||
              (negb (hasBbox_ d) && negb (u64 dataByteCnt =? u64 (len - SIZEOF_KERNEL_HEADER - 1))))).

Section Receive.
Context `{HP : Heap} `{SC : Securec}.

(** [ConverRawData]: [None] is a null pointer.  The log byte is put back into the
    header, which the sender leaves out. *)
Definition ConverRawData (source : option bytes) : outcome (option RawData) :=
  match source with
  | None => Done None
  | Some src =>
      let* sourceLen := ReadUint32 src 0 in
      let desLen := u32 (sourceLen + 1) in
      match new_bytes desLen with
      | None => Done None
      | Some des =>
          let sourceHeaderLen := 4 + SIZEOF_HEADER - 1 in
          let '(ok, des) := memcpy_s des desLen (Some src) sourceHeaderLen in
          if negb ok then Done None else
          if Zlen des <=? sourceHeaderLen then Undefined UB_OutOfBounds else
          let des := <[Z.to_nat sourceHeaderLen := 0]> des in
          let desPos := sourceHeaderLen + 1 in
          let '(ok, rest) :=
            memcpy_s (drop (Z.to_nat desPos) des) (u32 (desLen - desPos))
              (Some (drop (Z.to_nat sourceHeaderLen) src)) (u32 (sourceLen - sourceHeaderLen)) in
          if negb ok then Done None else
          let des := take (Z.to_nat desPos) des ++ rest in
          let des := le_bytes 4 desLen ++ drop 4 des in
          Done (Some (RawData_new_from (Some des) desLen))
      end
  end.

(** Every receiver is given its own copy, in order: the calls of [HandlerEvent]
    made for one message, each with the receiver's position. *)
Definition Deliver (receivers : nat) (buffer : bytes) : outcome (list (nat * option RawData)) :=
  foldr (λ i k, let* r := ConverRawData (Some buffer) in let* l := k in Done ((i, r) :: l)) (Done [])
    (seq 0 receivers).

(** The loop of [SocketDevice::ReceiveMsg]; the answers of [recvmsg] end with a
    failure.  The result is the device, the calls made and the answers not asked for. *)
Fixpoint ReceiveLoop (d : SocketDevice) (receivers : nat) (buffer : bytes) (eventCount : Z) (answers : list RecvResult)
    : outcome (SocketDevice * list (nat * option RawData) * list RecvResult) :=
  match answers with
  | [] => Done (d, [], [])
  | RecvFailed :: rest => Done (d, [], rest)
  | Received data cred :: rest =>
      let ret := Zlen (take (length buffer) data) in
      if ret <=? 0 then Done (d, [], rest) else
      let buffer := read_into buffer data in
      match cred with
      | None => Done (d, [], rest)
      | Some (pid, uid) =>
          let d := set_cred d pid uid in
          let* ok := SocketDevice_IsValidMsg d buffer ret in
          if negb ok then Done (d, [], rest) else
          let* calls := Deliver receivers buffer in
          let eventCount := u8 (eventCount + 1) in
          if negb (eventCountPerCycle_ d =? 0) && (eventCountPerCycle_ d <=? eventCount)
          then Done (d, calls, rest)
          else let* r := ReceiveLoop d receivers buffer eventCount rest in
               Done (r.1.1, calls ++ r.1.2, r.2)
      end
  end.

Definition SocketDevice_ReceiveMsg (d : SocketDevice) (receivers : nat) (answers : list RecvResult)
    : outcome (SocketDevice * list (nat * option RawData) * list RecvResult) :=
  ReceiveLoop d receivers (replicate (Z.to_nat BUFFER_SIZE) 0) 0 answers.

(** [answer] is what [read] gave, [None] for an error; the result is the returned
    code and the calls. *)
Definition BBoxDevice_ReceiveMsg (d : BBoxDevice) (receivers : nat) (answer : option bytes)
    : outcome (Z * list (nat * option RawData)) :=
  let zeros := replicate (Z.to_nat EVENT_READ_BUFFER) 0 in
  let '(buffer, ret) := match answer with
    | Some data => (read_into zeros data, Zlen (take (length zeros) data))
    | None => (zeros, -1)
    end in
  let* ok := BBoxDevice_IsValidMsg d buffer ret in
  if negb ok then Done (-1, []) else
  let* calls := Deliver receivers buffer in Done (0, calls).

End Receive.

(** [SysEventReceiver::HandlerEvent]: the event that is published, if any. *)
Definition HandlerEvent (rawData : option RawData) (seq now : Z) : option (outcome SysEvent) :=
  match rawData with
  | Some r => match GetData r with Some _ => Some (SysEvent_new (Some r) seq now) | None => None end
  | None => None
  end.

(** *** The server *)

Inductive DeviceNode := DSocket (d : SocketDevice) | DBBox (d : BBoxDevice).

Record EventServer := mkEventServer { devs_ : gmap Z DeviceNode; receivers_ : nat; isStart_ : bool }.
Definition EventServer_new : EventServer := mkEventServer ∅ 0 false.

Definition Close (dev : DeviceNode) : DeviceNode :=
  match dev with DSocket d => DSocket (SocketDevice_Close d) | DBBox d => DBBox (BBoxDevice_Close d) end.

Definition AddDev (opened : Z * DeviceNode) (s : EventServer) : EventServer :=
  if opened.1 <? 0 then s else mkEventServer (<[opened.1 := opened.2]> (devs_ s)) (receivers_ s) (isStart_ s).

(** What the operating system answers when the devices are opened. *)
Record Nodes := mkNodes { ctl_event : Z; ctl_fast : Z; dev_sysevent : Z; dev_bbox : Z }.

Definition open_socket (fd : Z) (name : bytes) (perCycle : Z) : Z * DeviceNode :=
  let '(r, d) := SocketDevice_Open fd (SocketDevice_new name perCycle) in (r, DSocket d).
Definition open_bbox (n : Nodes) : Z * DeviceNode :=
  let '(r, d) := BBoxDevice_Open (dev_sysevent n) (dev_bbox n) BBoxDevice_new in (r, DBBox d).

Definition OpenDevs (n : Nodes) (s : EventServer) : Z * EventServer :=
  let s := AddDev (open_socket (ctl_event n) (str "hisysevent") 20) s in
  let s := AddDev (open_socket (ctl_fast n) (str "hisysevent_fast") 0) s in
  let s := AddDev (open_bbox n) s in
  (if bool_decide (devs_ s = ∅) then -1 else 0, s).

(** [accepted fd] is whether [epoll_ctl] takes the descriptor. *)
Definition AddToMonitor (accepted : Z → bool) (s : EventServer) : Z * EventServer :=
  let kept := filter (λ kv, accepted kv.1 = true) (devs_ s) in
  (if bool_decide (kept = ∅) then -1 else 0, mkEventServer kept (receivers_ s) (isStart_ s)).

Definition CloseDevs (s : EventServer) : EventServer :=
  mkEventServer (Close <$> devs_ s) (receivers_ s) (isStart_ s).
Definition Stop (s : EventServer) : EventServer := mkEventServer (devs_ s) (receivers_ s) false.
Definition AddReceiver (s : EventServer) : EventServer := mkEventServer (devs_ s) (S (receivers_ s)) (isStart_ s).

(** [Start] up to the event loop; [pollFd] is the answer of [epoll_create1]. *)
Definition StartServer (n : Nodes) (pollFd : Z) (accepted : Z → bool) (s : EventServer) : EventServer :=
  let '(ret, s) := OpenDevs n s in
  if ret <? 0 then s else
  if pollFd <? 0 then CloseDevs s else
  let '(ret, s) := AddToMonitor accepted s in
  if ret <? 0 then CloseDevs s else mkEventServer (devs_ s) (receivers_ s) true.

Section Cycle.
Context `{HP : Heap} `{SC : Securec}.

(** What arrives on a descriptor. *)
Inductive Arrival := OnSocket (answers : list RecvResult) | OnBBox (answer : option bytes).

(** One descriptor of one answer of [epoll_wait]. *)
Definition HandleReady (fd : Z) (a : Arrival) (s : EventServer) : outcome (EventServer * list (nat * option RawData)) :=
  match devs_ s !! fd, a with
  | Some (DSocket d), OnSocket answers =>
      let* r := SocketDevice_ReceiveMsg d (receivers_ s) answers in
      Done (mkEventServer (<[fd := DSocket r.1.1]> (devs_ s)) (receivers_ s) (isStart_ s), r.1.2)
  | Some (DBBox d), OnBBox answer =>
      let* r := BBoxDevice_ReceiveMsg d (receivers_ s) answer in Done (s, r.2)
  | _, _ => Done (s, [])
  end.

End Cycle.

End EventServer.
