(* ===== verification/EventServerFacts.v ===== *)
(** * EventServerFacts: what was sent is what is received

    A process sends an event's block without the log byte of the header;
    [ConverRawData] puts the byte back, and the socket device hands every
    accepted message to every receiver, in order, up to the number of a cycle.
    No datagram makes the socket path leave its buffers; the kernel device's
    weaker length check does. *)

From S2P Require Import Prelude Platform RawData Decoder Params EventHeader Builder BuilderFacts BuilderOps SysEvent SysEventFacts EventServer.
From S2P Require DecodedEvent.
From stdpp Require Import base gmap list numbers strings.

Local Open Scope Z_scope.
Local Open Scope hv_scope.

Module EventServerFacts.
Import SysEvent SysEventFacts EventServer.
Import DecodedEvent (outcome, Done, Undefined, obind).

Section Convert.
Context `{HP : Heap} `{SC : Securec}.

Lemma ReadUint32_at d pos : 0 <= pos → pos + 4 <= Zlen d → ReadUint32 d pos = Done (le_value (take 4 (drop (Z.to_nat pos) d))).
Proof.
  intros Hp Hd. unfold ReadUint32, DecodedEvent.ReadAt. change (Z.to_nat 4) with 4%nat.
  rewrite (proj2 (Z.ltb_ge _ _)); [done|]. unfold Zlen in *. rewrite length_take, length_drop. lia.
Qed.

(** No size above the header's leaves the buffer, memory or not. *)
Lemma conver_safe src n :
  4 <= Zlen src → le_value (take 4 src) = n → 84 <= n → u32 (n + 1) = n + 1 → ∃ o, ConverRawData (Some src) = Done o.
Proof.
  intros Hs Hn H84 Hu. unfold ConverRawData. rewrite ReadUint32_at by lia. change (Z.to_nat 0) with 0%nat. rewrite drop_0; cbn [obind].
  rewrite Hn, Hu.
  destruct (new_bytes (n + 1)) as [des|] eqn:E; [|by eexists]. apply new_bytes_len in E.
  destruct (memcpy_s des (n + 1) (Some src) (4 + SIZEOF_HEADER - 1)) as [[] des1] eqn:E1; cbn [negb]; [|by eexists].
  apply Zlen_memcpy_s in E1. unfold SIZEOF_HEADER. zcase; [lia|]. destruct (memcpy_s (drop _ _) _ _ _) as [[] ?]; cbn [negb]; by eexists.
Qed.

Context `{!HeapTotal HP}.

Lemma RawData_new_from_spec d :
  0 < Zlen d <= 2 ^ 22 → ∃ r, RawData_new_from (Some d) (Zlen d) = r ∧ usable r ∧ contents r = d.
Proof.
  intros Hd. unfold RawData_new_from. zcase; [lia|]. destruct (new_bytes_total (Zlen d)) as [b Hb]; [unfold MEM_MAX; lia|].
  rewrite Hb. apply new_bytes_len in Hb. rewrite memcpy_s_copies by (unfold MEM_MAX; lia).
  rewrite take_Zlen_id, drop_ge, app_nil_r by (unfold Zlen in *; lia). eexists. split; [done|].
  split; [unfold usable, rd_wf; cbn; split_and!; [lia..|by eexists|lia]|]. unfold contents. cbn. by rewrite take_Zlen_id.
Qed.

(** The header is copied up to the log byte, a zero is put in its place, the
    rest follows, and the size is one more. *)
Lemma conver_spec n H B junk :
  length H = 80%nat → n = 84 + Zlen B → 84 < n < 2 ^ 22 →
  ∃ r, ConverRawData (Some (le_bytes 4 n ++ H ++ B ++ junk)) = Done (Some r) ∧ usable r ∧
    contents r = le_bytes 4 (n + 1) ++ H ++ [0] ++ B.
Proof.
  intros HH Hn Hb. pose proof (Zlen_nonneg junk). set (src := le_bytes 4 n ++ H ++ B ++ junk).
  assert (Zlen src = n + Zlen junk) as Hs by (unfold src, Zlen in *; rewrite !length_app, length_le_bytes; lia).
  unfold ConverRawData. rewrite ReadUint32_at by lia. change (Z.to_nat 0) with 0%nat. rewrite drop_0; cbn [obind].
  assert (take 4 src = le_bytes 4 n) as H4 by (by unfold src; rewrite take_app_le by (by rewrite length_le_bytes); rewrite take_ge by (by rewrite length_le_bytes)).
  rewrite H4, le_value_bytes_small by lia. rewrite (u32_small (n + 1)) by (split; lia).
  destruct (new_bytes_total (n + 1)) as [des Hd]; [unfold MEM_MAX; lia|]. rewrite Hd. apply new_bytes_len in Hd.
  change (4 + SIZEOF_HEADER - 1) with 84. rewrite memcpy_s_copies by (unfold MEM_MAX; lia). cbn [negb].
  assert (take (Z.to_nat 84) src = le_bytes 4 n ++ H) as H84.
  { unfold src. rewrite app_assoc, take_app_le by (rewrite length_app, length_le_bytes, HH; lia).
    apply take_ge. rewrite length_app, length_le_bytes, HH. lia. }
  rewrite H84. zcase; [rewrite Zlen_app in *; unfold Zlen in *; rewrite length_app, length_le_bytes, length_drop in *; lia|].
  change (84 + 1) with 85. rewrite (u32_small (n + 1 - 85)), (u32_small (n - 84)) by (split; lia).
  assert (∃ x t, drop (Z.to_nat 84) des = x :: t ∧ Zlen t = Zlen B) as (x & t & Hxt & Ht).
  { assert (Zlen (drop (Z.to_nat 84) des) = 1 + Zlen B) by (rewrite Zlen_drop; lia).
    destruct (drop _ des) as [|x t]; [pose proof (Zlen_nonneg B); unfold Zlen in *; cbn in *; lia|]. exists x, t. split; [done|]. rewrite Zlen_cons in *. lia. }
  rewrite Hxt. assert (<[Z.to_nat 84 := 0]> ((le_bytes 4 n ++ H) ++ x :: t) = (le_bytes 4 n ++ H ++ [0]) ++ t) as ->.
  { rewrite <- app_assoc at 1. rewrite (app_assoc (le_bytes 4 n)), insert_app_r_alt by (rewrite length_app, length_le_bytes, HH; lia).
    rewrite length_app, length_le_bytes, HH. cbn [Nat.add]. change (Z.to_nat 84 - _)%nat with 0%nat. cbn. by rewrite <- !app_assoc. }
  assert (length (le_bytes 4 n ++ H ++ [0]) = Z.to_nat 85) as H85 by (rewrite !length_app, length_le_bytes, HH; done).
  rewrite <- H85, drop_app_length, take_app_length.
  assert (drop (Z.to_nat 84) src = B ++ junk) as ->.
  { unfold src. rewrite (app_assoc (le_bytes 4 n)). replace (Z.to_nat 84) with (length (le_bytes 4 n ++ H)) by (rewrite length_app, length_le_bytes, HH; done).
    apply drop_app_length. }
  rewrite memcpy_s_copies by (unfold MEM_MAX; rewrite ?Zlen_app; lia). cbn [negb].
  replace (take (Z.to_nat (n - 84)) (B ++ junk)) with B by (replace (Z.to_nat (n - 84)) with (length B) by (unfold Zlen in *; lia); by rewrite take_app_length).
  rewrite (drop_ge t), app_nil_r by (unfold Zlen in *; lia).
  replace (drop 4 ((le_bytes 4 n ++ H ++ [0]) ++ B)) with (H ++ [0] ++ B)
    by (rewrite <- !app_assoc; by rewrite drop_app_ge by (by rewrite length_le_bytes); rewrite length_le_bytes).
  assert (Zlen (le_bytes 4 (n + 1) ++ H ++ [0] ++ B) = n + 1) as HL by (rewrite !Zlen_app, Zlen_le_bytes; unfold Zlen in *; rewrite HH; cbn; lia).
  destruct (RawData_new_from_spec (le_bytes 4 (n + 1) ++ H ++ [0] ++ B)) as (r & Hr & Hu & Hc); [lia|].
  rewrite HL in Hr. exists r. by rewrite Hr.
Qed.

End Convert.

(** ** What a process sends *)

Section Socket.
Context `{HP : Heap} `{SC : Securec}.

(** The block of a builder without the log byte, its size one less. *)
Definition sent_bytes (b : RawDataBuilder) : bytes :=
  le_bytes 4 (Zlen (builder_block b) - 1) ++ take 80 (drop 4 (builder_block b)) ++ drop 85 (builder_block b).

(** The datagram, with the process and the user the header names. *)
Definition sent (b : RawDataBuilder) : RecvResult :=
  Received (sent_bytes b) (Some (s32 (pid (header_ b)), uid (header_ b))).

Definition sendable (b : RawDataBuilder) : Prop := builder_ok b ∧ M_fits (meaning b).

Lemma block_fields b :
  builder_ok b → ∃ H1 H2 B, let H := H1 ++ le_bytes 4 (uid (header_ b)) ++ le_bytes 4 (pid (header_ b)) ++ H2 in
    length H1 = 59%nat ∧ length H = 80%nat ∧ 4 <= Zlen B ∧
    builder_block b = le_bytes 4 (Zlen (builder_block b)) ++ H ++ le_bytes 1 (log (header_ b)) ++ B ∧
    builder_block (AppendLog b 0) = le_bytes 4 (Zlen (builder_block b)) ++ H ++ [0] ++ B.
Proof.
  intros Hb. pose proof Hb as (((Hd & Hn & _) & _) & _). set (h := header_ b) in *.
  assert (∀ v, Zlen (DecodedEvent.event_body (header_ (AppendLog b v)) (traceInfo_ b) (builder_params b)) =
               Zlen (DecodedEvent.event_body h (traceInfo_ b) (builder_params b))) as El.
  { intros v. unfold DecodedEvent.event_body. rewrite !Zlen_app, !header_bytes_len by done. done. }
  assert (Zlen (builder_block b) = 4 + Zlen (DecodedEvent.event_body h (traceInfo_ b) (builder_params b))) as EL.
  { unfold builder_block, DecodedEvent.event_block. fold h. by rewrite Zlen_app, Zlen_le_bytes. }
  exists (domain h ++ name h ++ le_bytes 8 (timestamp h) ++ le_bytes 1 (timeZone h)),
    (le_bytes 4 (tid h) ++ le_bytes 8 (id h) ++ [type h mod 4 + 4 * (isTraceOpened h mod 2)]),
    ((if isTraceOpened h =? 1 then trace_bytes (traceInfo_ b) else []) ++
     le_bytes 4 (Zlen (builder_params b)) ++ DecodedEvent.params_bytes (builder_params b)).
  split_and!.
  - rewrite !length_app, !length_le_bytes, Hd, Hn. done.
  - rewrite !length_app, !length_le_bytes, Hd, Hn. done.
  - rewrite !Zlen_app, Zlen_le_bytes. pose proof (Zlen_nonneg (if isTraceOpened h =? 1 then trace_bytes (traceInfo_ b) else [])).
    pose proof (Zlen_nonneg (DecodedEvent.params_bytes (builder_params b))). lia.
  - rewrite EL. unfold builder_block, DecodedEvent.event_block. fold h.
    unfold DecodedEvent.event_body at 2, header_bytes. rewrite <- !app_assoc. reflexivity.
  - rewrite EL. unfold builder_block, DecodedEvent.event_block. change (traceInfo_ (AppendLog b 0)) with (traceInfo_ b).
    change (builder_params (AppendLog b 0)) with (builder_params b). rewrite El.
    unfold DecodedEvent.event_body at 2, header_bytes. rewrite <- !app_assoc. reflexivity.
Qed.

(** Both ends of the conversion, for what is sent. *)
Lemma sent_layout b :
  sendable b → ∃ H1 H2 (B : bytes), let H := H1 ++ le_bytes 4 (uid (header_ b)) ++ le_bytes 4 (pid (header_ b)) ++ H2 in
    length H1 = 59%nat ∧ length H = 80%nat ∧ 4 <= Zlen B ∧ 85 + Zlen B <= BUFFER_SIZE ∧
    sent_bytes b = le_bytes 4 (84 + Zlen B) ++ H ++ B ∧
    builder_block (AppendLog b 0) = le_bytes 4 (85 + Zlen B) ++ H ++ [0] ++ B.
Proof.
  intros [Hb HF]. destruct (builder_fits b Hb HF) as [_ Hsize].
  destruct (block_fields b Hb) as (H1 & H2 & B & HL1 & HL & HB & E & E0). exists H1, H2, B. intros H. fold H in HL, E, E0.
  assert (Zlen (builder_block b) = 85 + Zlen B) as EL.
  { rewrite E. rewrite !Zlen_app, !Zlen_le_bytes. unfold Zlen at 1. rewrite HL. change (Z.of_nat 80) with 80. lia. }
  split_and!; [done..|by rewrite <- EL| |by rewrite E0, EL].
  unfold sent_bytes. rewrite EL. replace (85 + Zlen B - 1) with (84 + Zlen B) by lia. f_equal. rewrite E.
  rewrite drop_app_ge by (by rewrite length_le_bytes). rewrite length_le_bytes. change (4 - 4)%nat with 0%nat. rewrite drop_0.
  rewrite take_app_le, take_ge by lia. f_equal. rewrite !app_assoc.
  rewrite drop_app_ge by (rewrite !length_app, !length_le_bytes, HL; lia). rewrite !length_app, !length_le_bytes, HL. done.
Qed.

Lemma read_field X v Y n : length X = n → is_u 32 v → ReadUint32 (X ++ le_bytes 4 v ++ Y) (Z.of_nat n) = Done v.
Proof.
  intros HX Hv. rewrite ReadUint32_at by (rewrite ?Zlen_app, ?Zlen_le_bytes; unfold Zlen; lia).
  rewrite Nat2Z.id, <- HX, drop_app_length, take_app_le, take_ge by (by rewrite length_le_bytes).
  by rewrite le_value_bytes_small.
Qed.

Lemma sent_accepted d b junk :
  sendable b → SocketDevice_IsValidMsg (set_cred d (s32 (pid (header_ b))) (uid (header_ b))) (sent_bytes b ++ junk) (Zlen (sent_bytes b)) = Done true.
Proof.
  intros Hb. destruct (sent_layout b Hb) as (H1 & H2 & B & HL1 & HL & HB & Hsize & -> & _).
  destruct Hb as [Hb _]. pose proof Hb as (((_ & _ & _ & _ & Hu & Hp & _) & _) & _). unfold BUFFER_SIZE in Hsize.
  set (H := H1 ++ _) in *.
  assert (Zlen (le_bytes 4 (84 + Zlen B) ++ H ++ B) = 84 + Zlen B) as EL.
  { rewrite !Zlen_app, Zlen_le_bytes. unfold Zlen at 1. rewrite HL. lia. }
  unfold SocketDevice_IsValidMsg. rewrite EL. change GetValidDataMinimumByteCount with 85.
  rewrite (proj2 (Z.ltb_ge _ _)) by lia. unfold DecodedEvent.ReadInt32, DecodedEvent.ReadAt.
  change (Z.to_nat 0) with 0%nat. rewrite drop_0. change (Z.to_nat SIZEOF_INT32) with 4%nat. rewrite <- !app_assoc.
  rewrite take_app_le, take_ge by (by rewrite length_le_bytes). rewrite Zlen_le_bytes. cbn [obind].
  rewrite (proj2 (Z.ltb_ge _ _)) by done. cbn [obind]. rewrite le_value_bytes_small by lia.
  unfold s32. rewrite sgn_small by (done || split; lia). rewrite gtb_false by (unfold BUFFER_SIZE; lia). rewrite Z.eqb_refl. cbn [negb].
  unfold H. rewrite <- !app_assoc. change (4 + POS_OF_UID_IN_HEADER) with (Z.of_nat 63).
  rewrite (app_assoc (le_bytes 4 _) H1), read_field by (done || rewrite length_app, length_le_bytes, HL1; done).
  cbn [obind uCredUid_ set_cred]. rewrite Z.eqb_refl. cbn [negb]. change (4 + POS_OF_PID_IN_HEADER) with (Z.of_nat 67).
  rewrite (app_assoc (_ ++ H1)), read_field by (done || rewrite !length_app, !length_le_bytes, HL1; done).
  cbn [obind uCredPid_ set_cred]. by rewrite Z.eqb_refl.
Qed.

Lemma read_into_short buffer data :
  (length data <= length buffer)%nat →
  take (length buffer) data = data ∧ read_into buffer data = data ++ drop (length data) buffer ∧ length (read_into buffer data) = length buffer.
Proof.
  intros Hl. unfold read_into. rewrite take_ge by done. split_and!; [done..|]. rewrite length_app, length_drop. lia.
Qed.

End Socket.

(** ** The claims *)

Section Claims.
Context `{HP : Heap} `{SC : Securec}.

(** The calls that hand [r] to [k] receivers. *)
Definition calls_of (k : nat) (r : RawData) : list (nat * option RawData) := (λ i, (i, Some r)) <$> seq 0 k.

Lemma Deliver_all k buffer r :
  ConverRawData (Some buffer) = Done (Some r) → Deliver k buffer = Done (calls_of k r).
Proof.
  intros Hr. unfold Deliver, calls_of. induction (seq 0 k) as [|i l IH]; [done|]. cbn [foldr]. rewrite IH, Hr. done.
Qed.

Lemma Deliver_safe k buffer : (∃ o, ConverRawData (Some buffer) = Done o) → ∃ l, Deliver k buffer = Done l.
Proof.
  intros [o Ho]. unfold Deliver. induction (seq 0 k) as [|i l [l' IH]]; [by eexists|]. cbn [foldr]. rewrite IH, Ho. by eexists.
Qed.

(** An accepted message has its true size at its start. *)
Lemma accepted_size d msg len :
  SocketDevice_IsValidMsg d msg len = Done true → 4 <= Zlen msg → bytes_ok msg →
  85 <= len <= BUFFER_SIZE ∧ le_value (take 4 msg) = len.
Proof.
  intros HV Hm Hb. unfold SocketDevice_IsValidMsg in HV. change GetValidDataMinimumByteCount with 85 in HV.
  destruct (Z.ltb_spec len 85); [done|]. unfold DecodedEvent.ReadInt32, DecodedEvent.ReadAt in HV.
  change (Z.to_nat 0) with 0%nat in HV. rewrite drop_0 in HV. change (Z.to_nat SIZEOF_INT32) with 4%nat in HV.
  assert (Zlen (take 4 msg) = 4) as E4 by (unfold Zlen in *; rewrite length_take; lia).
  rewrite E4 in HV. cbn [obind] in HV. change (4 <? SIZEOF_INT32) with false in HV. cbn [obind] in HV.
  destruct (s32 _ >? BUFFER_SIZE) eqn:E1; [done|]. destruct (s32 _ =? len) eqn:E2; [|done]. clear HV.
  pose proof (le_value_bound (take 4 msg)) as Hv. rewrite E4 in Hv.
  assert (bytes_ok (take 4 msg)) as Ht by (by apply Forall_take). specialize (Hv Ht). change (8 * 4) with 32 in Hv.
  apply Z.eqb_eq in E2. rewrite E2 in E1. rewrite Z.gtb_ltb in E1. apply Z.ltb_ge in E1. unfold BUFFER_SIZE in *. split; [lia|].
  unfold s32, sgn in E2. rewrite Z.mod_small in E2 by lia. revert E2. zcase; lia.
Qed.

Lemma receive_safe answers k : ∀ d buffer cnt,
  Zlen buffer = BUFFER_SIZE → bytes_ok buffer → Forall (λ a, match a with Received m _ => bytes_ok m | RecvFailed => True end) answers →
  ∃ res, ReceiveLoop d k buffer cnt answers = Done res.
Proof.
  induction answers as [|a answers IH]; intros d buffer cnt HL HB HA; [by eexists|]. apply Forall_cons in HA as [Ha HA].
  destruct a as [|data cred]; [by eexists|]. cbn [ReceiveLoop]. zcase; [by eexists|]. destruct cred as [[p u]|]; [|by eexists].
  set (buf := read_into buffer data). set (d1 := set_cred d p u).
  assert (Zlen buf = BUFFER_SIZE) as HL'.
  { rewrite <- HL. unfold buf, read_into, Zlen. rewrite length_app, length_drop, length_take. lia. }
  assert (bytes_ok buf) as HB' by (apply Forall_app; split; [by apply Forall_take|by apply Forall_drop]).
  assert (4 <= Zlen buf) as H4 by (rewrite HL'; unfold BUFFER_SIZE; lia).
  assert (∃ v, SocketDevice_IsValidMsg d1 buf (Zlen (take (length buffer) data)) = Done v) as [v Hv].
  { unfold SocketDevice_IsValidMsg. zcase; [by eexists|]. unfold DecodedEvent.ReadInt32, DecodedEvent.ReadAt.
    change (Z.to_nat 0) with 0%nat. rewrite drop_0. change (Z.to_nat SIZEOF_INT32) with 4%nat.
    assert (Zlen (take 4 buf) = 4) as -> by (unfold Zlen in *; rewrite length_take; lia). change (4 <? SIZEOF_INT32) with false. cbn [obind].
    destruct (_ >? _); [by eexists|]. destruct (negb _); [by eexists|]. unfold BUFFER_SIZE in HL'. unfold POS_OF_PID_IN_HEADER, POS_OF_UID_IN_HEADER.
    rewrite ReadUint32_at by lia. cbn [obind]. destruct (negb _); [by eexists|]. rewrite ReadUint32_at by lia. by eexists. }
  rewrite Hv. cbn [obind]. destruct v; cbn [negb]; [|by eexists].
  destruct (accepted_size _ _ _ Hv H4 HB') as [Hlen Hval]. unfold BUFFER_SIZE in Hlen.
  destruct (Deliver_safe k buf) as [calls Hc]; [eapply conver_safe; [done|exact Hval|lia|apply u32_small; split; lia]|].
  rewrite Hc. cbn [obind]. case_match; [by eexists|].
  destruct (IH d1 buf (u8 (cnt + 1)) HL' HB' HA) as [res ->]. by eexists.
Qed.

(** whatever datagrams arrive on a socket, and whether or not memory can be
    allocated, receiving never reads or writes outside its buffers: a message is
    converted only when its first four bytes say exactly how long it is. *)
Theorem socket_receive_safe d k answers :
  Forall (λ a, match a with Received m _ => bytes_ok m | RecvFailed => True end) answers →
  ∃ res, SocketDevice_ReceiveMsg d k answers = Done res.
Proof.
  intros HA. apply receive_safe; [apply Zlen_replicate; unfold BUFFER_SIZE; lia| |done].
  apply Forall_replicate. split; lia.
Qed.

(** ... the kernel device has no such check when [/dev/sysevent] is missing: a
    message of 83 bytes is accepted and one byte is written past the copy. *)
Definition bbox_message : bytes := le_bytes 4 83 ++ replicate 84 0.

Context `{!HeapTotal HP}.

(** What the receivers get of the [i]-th message. *)
Definition arrived (b : RawDataBuilder) (r : RawData) : Prop :=
  contents r = builder_block (AppendLog b 0) ∧
  ∀ seq now, ∃ e, HandlerEvent (Some r) seq now = Some (Done e) ∧ Sync e (M_header (with_log 0) (meaning b)).

Lemma conver_sent b junk :
  sendable b → ∃ r, ConverRawData (Some (sent_bytes b ++ junk)) = Done (Some r) ∧ arrived b r.
Proof.
  intros Hb. destruct (sent_layout b Hb) as (H1 & H2 & B & HL1 & HL & HB & Hsize & -> & E0). unfold BUFFER_SIZE in Hsize.
  set (H := H1 ++ _) in *. destruct (conver_spec (84 + Zlen B) H B junk) as (r & Hr & Hu & Hc); [done|lia..|].
  exists r. rewrite <- !app_assoc. split; [exact Hr|]. replace (84 + Zlen B + 1) with (85 + Zlen B) in Hc by lia.
  rewrite <- E0 in Hc. split; [done|]. intros seq now. destruct Hb as [Hb HF].
  destruct (new_event_sync (AppendLog b 0) r seq now) as (e & He & HS & _); [by apply AppendLog_ok|by rewrite meaning_log; apply fits_header|done..|].
  exists e. split; [|exact HS]. unfold HandlerEvent, GetData. pose proof Hu as [_ [[dd Hd] _]]. rewrite Hd. by rewrite He.
Qed.

(** How many messages one call takes. *)
Definition taken (d : SocketDevice) (cnt : Z) (n : nat) : nat :=
  if eventCountPerCycle_ d =? 0 then n else (n `min` Z.to_nat (eventCountPerCycle_ d - cnt))%nat.

Lemma receive_sent k rest : ∀ bs d buffer cnt,
  Zlen buffer = BUFFER_SIZE → Forall sendable bs → is_u 8 (eventCountPerCycle_ d) →
  0 <= cnt → eventCountPerCycle_ d = 0 ∨ cnt < eventCountPerCycle_ d →
  ∃ d' raws, let m := taken d cnt (length bs) in
    ReceiveLoop d k buffer cnt ((sent <$> bs) ++ RecvFailed :: rest) =
      Done (d', raws ≫= calls_of k,
        if (eventCountPerCycle_ d =? 0) || (Z.of_nat (length bs) <? eventCountPerCycle_ d - cnt) then rest
        else (sent <$> drop m bs) ++ RecvFailed :: rest) ∧
    Forall2 arrived (take m bs) raws.
Proof.
  induction bs as [|b bs IH]; intros d buffer cnt HL HS H8 H0 Hc.
  { exists d, []. cbn. split; [|by rewrite take_nil].
    destruct (_ =? 0) eqn:E0; [done|]. apply Z.eqb_neq in E0. rewrite (proj2 (Z.ltb_lt _ _)) by lia. done. }
  apply Forall_cons in HS as [Hb HS]. cbn [fmap list_fmap app ReceiveLoop sent].
  destruct (sent_layout b Hb) as (H1 & H2 & B & HL1 & HLH & HB & Hsize & Esent & _).
  set (H := H1 ++ _) in *.
  assert (Zlen (sent_bytes b) = 84 + Zlen B) as Elen.
  { rewrite Esent, !Zlen_app, Zlen_le_bytes. unfold Zlen at 1. rewrite HLH. lia. }
  unfold BUFFER_SIZE in *. clear Esent.
  destruct (read_into_short buffer (sent_bytes b)) as (Et & Er & El); [unfold Zlen in *; lia|].
  rewrite Et. rewrite (proj2 (Z.leb_gt _ _)) by lia. rewrite Er, sent_accepted by done. cbn [obind negb].
  destruct (conver_sent b (drop (length (sent_bytes b)) buffer) Hb) as (r & Hr & Ha).
  rewrite (Deliver_all k _ r Hr). cbn [obind eventCountPerCycle_ set_cred].
  destruct (Z.eqb_spec (eventCountPerCycle_ d) 0) as [E0|E0]; cbn [negb andb orb].
  - destruct (IH (set_cred d (s32 (pid (header_ b))) (uid (header_ b))) (read_into buffer (sent_bytes b)) (u8 (cnt + 1)))
      as (d' & raws & HR & HA); [unfold Zlen in *; lia|done|done|apply Z.mod_pos_bound; lia|by left|].
    rewrite Er in HR. rewrite HR. cbn [obind fst snd eventCountPerCycle_ set_cred]. exists d', (r :: raws).
    unfold taken in *. cbn [eventCountPerCycle_ set_cred] in *. rewrite (proj2 (Z.eqb_eq _ _) E0) in *. cbn [orb] in *. split; [done|]. by constructor.
  - destruct Hc as [?|Hc]; [done|]. unfold is_u in H8. change (2 ^ 8) with 256 in H8. rewrite (u8_small (cnt + 1)) by (split; lia).
    destruct (Z.leb_spec (eventCountPerCycle_ d) (cnt + 1)).
    + assert (eventCountPerCycle_ d - cnt = 1) as E1 by lia. exists (set_cred d (s32 (pid (header_ b))) (uid (header_ b))), [r].
      unfold taken. rewrite (proj2 (Z.eqb_neq _ _) E0), E1. cbn [length]. change (Z.to_nat 1) with 1%nat.
      replace (S (length bs) `min` 1)%nat with 1%nat by lia. rewrite (proj2 (Z.ltb_ge _ _)) by lia. cbn. rewrite drop_0, take_0, app_nil_r.
      split; [done|by constructor].
    + destruct (IH (set_cred d (s32 (pid (header_ b))) (uid (header_ b))) (read_into buffer (sent_bytes b)) (cnt + 1))
        as (d' & raws & HR & HA); [unfold Zlen in *; lia|done|done|lia|by right|].
      rewrite Er in HR. rewrite HR. cbn [obind fst snd eventCountPerCycle_ set_cred]. exists d', (r :: raws).
      unfold taken in *. cbn [eventCountPerCycle_ set_cred] in *. rewrite (proj2 (Z.eqb_neq _ _) E0) in *. cbn [orb length] in *.
      replace (S (length bs) `min` Z.to_nat (eventCountPerCycle_ d - cnt))%nat
        with (S (length bs `min` Z.to_nat (eventCountPerCycle_ d - (cnt + 1))))%nat by lia. cbn [drop take mbind list_bind].
      split; [|by constructor]. do 2 f_equal. do 2 zcase; (done || lia).
Qed.

(** C5: every event a process sends arrives as it was built: of the messages
    waiting on a socket, each with the credentials of its header, one call of
    ReceiveMsg takes as many as the device's cycle allows (all, when that is
    zero), hands each of them to every receiver in the order sent, and leaves the
    others where they are; the raw data handed over is the builder's block with
    the log byte put back, and the event made of it means what the builder meant. *)
Theorem sent_events_arrive d k bs rest :
  Forall sendable bs → is_u 8 (eventCountPerCycle_ d) →
  ∃ d' raws, let m := taken d 0 (length bs) in
    SocketDevice_ReceiveMsg d k ((sent <$> bs) ++ RecvFailed :: rest) =
      Done (d', raws ≫= calls_of k,
        if (eventCountPerCycle_ d =? 0) || (Z.of_nat (length bs) <? eventCountPerCycle_ d) then rest
        else (sent <$> drop m bs) ++ RecvFailed :: rest) ∧
    Forall2 arrived (take m bs) raws.
Proof.
  intros HS H8. destruct (receive_sent k rest bs d (replicate (Z.to_nat BUFFER_SIZE) 0) 0) as (d' & raws & HR & HA);
    [apply Zlen_replicate; unfold BUFFER_SIZE; lia|done..|destruct H8; lia|].
  exists d', raws. rewrite Z.sub_0_r in HR. split; [exact HR|exact HA].
Qed.

End Claims.

(** ** The kernel device *)

(** When only [/dev/bbox] exists, the length the message names need not reach
    the end of the header: one of 83 bytes is accepted, and [ConverRawData]
    writes the log byte behind the 84 bytes it allocated. *)
Lemma bbox_short_message_undefined :
  BBoxDevice_ReceiveMsg (mkBBoxDevice 5 false) 1 (Some bbox_message) = Undefined UB_OutOfBounds.
Proof. vm_compute. reflexivity. Qed.

(** ** Witnesses *)

Lemma socket_receive_safe_witness :
  let answers := [Received (replicate 100 7) (Some (1, 2)); RecvFailed] in
  ∃ res, SocketDevice_ReceiveMsg (SocketDevice_new (str "hisysevent") 20) 2 answers = Done res.
Proof. apply socket_receive_safe. repeat constructor; try lia. Defined.

Lemma sample_sendable : sendable sample_builder.
Proof. split; [apply sample_builder_ok|]. apply (bool_decide_unpack _). vm_compute. exact I. Qed.

Lemma sent_events_arrive_witness :
  let d := SocketDevice_new (str "hisysevent") 2 in
  let bs := [sample_builder; sample_builder; sample_builder] in
  ∃ d' raws, SocketDevice_ReceiveMsg d 1 ((sent <$> bs) ++ [RecvFailed]) =
      Done (d', raws ≫= calls_of 1, (sent <$> drop 2 bs) ++ [RecvFailed]) ∧
    Forall2 arrived (take 2 bs) raws.
Proof.
  apply (sent_events_arrive (SocketDevice_new (str "hisysevent") 2) 1 [sample_builder; sample_builder; sample_builder] []).
  - apply (Forall_replicate sendable 3 sample_builder), sample_sendable.
  - split; cbn; lia.
Defined.

End EventServerFacts.
