(* ===== verification/FoldUsage.v ===== *)
(** * FoldUsage: how long an application was used in each state of a foldable screen

    Models plugins/usage_event_report/fold, in the build without
    FOLD_PC_COUNT_DURATION_ENABLE: the cacher that turns window and screen events
    into rows (cache/fold_event_cacher.cpp), the table of rows
    (cache/fold_app_usage_db_helper.cpp) with its queries as functions of a list of
    rows, and the factory that makes the report of a day
    (cache/fold_app_usage_event_factory.cpp).  Every event comes with what the
    clocks say when it is processed.  The table is there; rows that cannot be
    written are not modelled. *)

From S2P Require Import Prelude DbFile Database.
From stdpp Require Import base gmap list numbers strings.

Local Open Scope Z_scope.

Module FoldUsage.
Import DbFile.DbFile.
Import Database.Database (Sorter, std_sort, sort_perm, sort_sorted).


(** ** The states of the screen *)

Definition UNKNOWN_STATUS : Z := 9.
Definition THE_TENS_DIGIT : Z := 10.

Definition EXPAND : Z := 1.
Definition FOLD : Z := 2.
Definition G : Z := 3.
Definition N : Z := 5.
Definition LM : Z := 6.
Definition TENT : Z := 7.
Definition LANDSCAPE : Z := 1.
Definition PORTRAIT : Z := 2.
Definition FULL : Z := 0.
Definition SPLIT : Z := 1.
Definition FLOATING : Z := 2.
Definition MIDSCENE : Z := 3.

Definition WINDOW_MODE_FULL : Z := 0.
Definition WINDOW_MODE_FLOATING : Z := 1.
Definition WINDOW_MODE_SPLIT_PRIMARY : Z := 2.
Definition WINDOW_MODE_SPLIT_SECONDARY : Z := 3.
Definition WINDOW_MODE_MIDSCENE : Z := 4.

Definition ConvertFoldStatus (foldStatus : Z) (isTent : bool) : Z :=
  if isTent then TENT else
  if foldStatus =? 1 then EXPAND else
  if foldStatus =? 2 then FOLD else
  if foldStatus =? 5 then G else
  if foldStatus =? 7 then N else
  if foldStatus =? 8 then LM else UNKNOWN_STATUS.

Definition ConvertVhMode (vhMode : Z) : Z :=
  if vhMode =? 0 then PORTRAIT else if vhMode =? 1 then LANDSCAPE else UNKNOWN_STATUS.

Definition ConvertWindowMode (windowMode : Z) : Z :=
  if windowMode =? WINDOW_MODE_FULL then FULL else
  if windowMode =? WINDOW_MODE_FLOATING then FLOATING else
  if (windowMode =? WINDOW_MODE_SPLIT_PRIMARY) || (windowMode =? WINDOW_MODE_SPLIT_SECONDARY) then SPLIT else
  if windowMode =? WINDOW_MODE_MIDSCENE then MIDSCENE else UNKNOWN_STATUS.

Definition GetScreenFoldStatus (foldStatus : Z) (isTent : bool) (vhMode windowMode : Z) : Z :=
  let combineFoldStatus := ConvertFoldStatus foldStatus isTent in
  let combineVhMode := if combineFoldStatus =? TENT then LANDSCAPE else ConvertVhMode vhMode in
  let combineWindowMode := ConvertWindowMode windowMode in
  (combineFoldStatus * THE_TENS_DIGIT + combineVhMode) * THE_TENS_DIGIT + combineWindowMode.

(** [namespace ScreenFoldStatus] *)
Definition status (fold vh window : Z) : Z := fold * 100 + vh * 10 + window.

(** The states that have a column of their own, in the order of [BASE_FIELDS]. *)
Definition BASE_FIELDS : list Z :=
  [status FOLD PORTRAIT FULL; status FOLD LANDSCAPE FULL; status EXPAND PORTRAIT FULL; status EXPAND LANDSCAPE FULL;
   status FOLD PORTRAIT SPLIT; status FOLD PORTRAIT FLOATING; status FOLD PORTRAIT MIDSCENE;
   status FOLD LANDSCAPE SPLIT; status FOLD LANDSCAPE FLOATING; status FOLD LANDSCAPE MIDSCENE;
   status EXPAND PORTRAIT SPLIT; status EXPAND PORTRAIT FLOATING; status EXPAND PORTRAIT MIDSCENE;
   status EXPAND LANDSCAPE SPLIT; status EXPAND LANDSCAPE FLOATING; status EXPAND LANDSCAPE MIDSCENE;
   status G PORTRAIT FULL; status G PORTRAIT SPLIT; status G PORTRAIT FLOATING; status G PORTRAIT MIDSCENE;
   status G LANDSCAPE FULL; status G LANDSCAPE SPLIT; status G LANDSCAPE FLOATING; status G LANDSCAPE MIDSCENE;
   status N PORTRAIT FULL; status N PORTRAIT SPLIT; status N PORTRAIT FLOATING;
   status N LANDSCAPE FULL; status N LANDSCAPE SPLIT; status N LANDSCAPE FLOATING;
   status LM PORTRAIT FULL; status LM PORTRAIT SPLIT; status LM PORTRAIT FLOATING; status LM PORTRAIT MIDSCENE;
   status LM LANDSCAPE FULL; status LM LANDSCAPE SPLIT; status LM LANDSCAPE FLOATING; status LM LANDSCAPE MIDSCENE;
   status TENT LANDSCAPE FULL; status TENT LANDSCAPE SPLIT; status TENT LANDSCAPE FLOATING].

(** ** The table *)

Definition EVENT_APP_START : Z := 1101.
Definition EVENT_APP_EXIT : Z := 1102.
Definition EVENT_SCREEN_STATUS_CHANGED : Z := 1103.
Definition EVENT_COUNT_DURATION : Z := 1104.

(** Durations by state. *)
Abbreviation Durations := (gmap Z Z).

Record AppEventRecord := mkRecord {
  rawid : Z; ts : Z; bundleName : bytes; preFoldStatus : Z; foldStatus : Z; versionName : bytes; happenTime : Z
}.

(** A row: the automatic identifier, the record, and the duration columns. *)
Record Row := mkRow { row_id : Z; row : AppEventRecord; columns : Durations }.

(** The rows in the order of their identifiers, and the last identifier given:
    the identifiers of deleted rows are not given again. *)
Record Table := mkTable { lastId : Z; rows : list Row }.
Definition Table_new : Table := mkTable 0 [].

Definition GetDuration (foldStatus : Z) (durations : Durations) : Z :=
  match durations !! foldStatus with Some d => s64 d | None => 0 end.

Definition SetValuesBucket (durations : Durations) : Durations :=
  list_to_map ((λ s, (s, GetDuration s durations)) <$> BASE_FIELDS).

Definition AddAppEvent (r : AppEventRecord) (durations : Durations) (t : Table) : Table :=
  mkTable (lastId t + 1) (rows t ++ [mkRow (lastId t + 1) r (SetValuesBucket durations)]).

Definition QueryRawEventIndex (bundle : bytes) (rawId : Z) (t : Table) : Z :=
  default 0 (row_id <$> last (filter (λ r, bundleName (row r) = bundle ∧ rawid (row r) = rawId) (rows t))).

(** The rows read one after the other: a count ends what was read before. *)
Definition read_records (l : list Row) : list AppEventRecord :=
  foldl (λ acc r, if rawid (row r) =? EVENT_COUNT_DURATION then [] else acc ++ [row r]) [] l.

Definition QueryAppEventRecords (startIndex dayStartTime : Z) (bundle : bytes) (t : Table) : list AppEventRecord :=
  read_records (filter (λ r, bundleName (row r) = bundle ∧ startIndex <= row_id r ∧ dayStartTime <= happenTime (row r)) (rows t)).

Definition DeleteEventsByTime (clearDataTime : Z) (t : Table) : Table :=
  mkTable (lastId t) (filter (λ r, ¬ (0 <= happenTime (row r) <= clearDataTime)) (rows t)).

(** ** FoldEventCacher *)

(** What the clocks say: the time since boot and the time of the day in
    milliseconds, and the last midnight ([Get0ClockStampMs]). *)
Record Clock := mkClock { boot : Z; wall : Z; zero : Z }.

(** The events the cacher looks at, with the parameters it reads. *)
Inductive ScreenEvent :=
  | FocusWindow (windowType : Z) (bundle : bytes)
  | FoldState (next : option Z)
  | TentMode (value : Z)
  | VhModeChange (mode : Z)
  | MultiWindow (num : Z) (windows : bytes)
  | OtherEvent.

Record FoldEventCacher := mkCacher {
  focusedApp : bytes;
  focusedCounts : bool;
  multiWindowInfos_ : gmap bytes Z;
  foldStatus_ : Z;
  isTentStatus_ : bool;
  vhMode_ : Z;
  db : Table
}.

Definition SYSTEM_WINDOW_BASE : Z := 2000.

(** The constructor: what the window manager and the display say is kept. *)
Definition FoldEventCacher_new (displayMode vhMode : Z) (focused : bytes * bool) (windows : gmap bytes Z) (t : Table) : FoldEventCacher :=
  mkCacher focused.1 focused.2 windows displayMode false vhMode t.

Definition set_db (c : FoldEventCacher) (t : Table) : FoldEventCacher :=
  mkCacher (focusedApp c) (focusedCounts c) (multiWindowInfos_ c) (foldStatus_ c) (isTentStatus_ c) (vhMode_ c) t.
Definition set_focus (c : FoldEventCacher) (app : bytes) (counts : bool) : FoldEventCacher :=
  mkCacher app counts (multiWindowInfos_ c) (foldStatus_ c) (isTentStatus_ c) (vhMode_ c) (db c).
Definition UpdateFoldStatus (status : Z) (c : FoldEventCacher) : FoldEventCacher :=
  mkCacher (focusedApp c) (focusedCounts c) (multiWindowInfos_ c) status (isTentStatus_ c) (vhMode_ c) (db c).
Definition set_tent (tent : bool) (c : FoldEventCacher) : FoldEventCacher :=
  mkCacher (focusedApp c) (focusedCounts c) (multiWindowInfos_ c) (foldStatus_ c) tent (vhMode_ c) (db c).
Definition UpdateVhMode (mode : Z) (c : FoldEventCacher) : FoldEventCacher :=
  mkCacher (focusedApp c) (focusedCounts c) (multiWindowInfos_ c) (foldStatus_ c) (isTentStatus_ c) mode (db c).
Definition set_windows (w : gmap bytes Z) (c : FoldEventCacher) : FoldEventCacher :=
  mkCacher (focusedApp c) (focusedCounts c) w (foldStatus_ c) (isTentStatus_ c) (vhMode_ c) (db c).

Definition GetMidSubstr (input begin_ end_ : bytes) : bytes :=
  match find_sub begin_ input with
  | None => []
  | Some b =>
      let rest := drop (b + length begin_) input in
      match find_sub end_ rest with None => [] | Some e => take e rest end
  end.

Definition GetRightSubstr (input split : bytes) : bytes :=
  match find_sub split input with None => str "none" | Some p => drop (p + length split) input end.

Definition add_window (w : gmap bytes Z) (info : bytes) : gmap bytes Z :=
  let bundle := TrimStr (GetMidSubstr info (str "PKG:") (str ",")) in
  let mode := ConvertStringTo 32 (TrimStr (GetRightSubstr info (str "MODE:"))) 0 in
  if negb (bool_decide (bundle = [])) && (mode >? 0) then <[bundle := mode]> w else w.

Definition UpdateMultiWindowInfos (multiNum : Z) (multiWindow : bytes) (c : FoldEventCacher) : FoldEventCacher :=
  let infos := SplitStr multiWindow (str ";") in
  if negb (Zlen infos =? multiNum) then c else set_windows (foldl add_window ∅ infos) c.

Definition GetWindowModeOfFocusedApp (c : FoldEventCacher) : Z :=
  default WINDOW_MODE_FULL (multiWindowInfos_ c !! focusedApp c).

Definition screen_status (c : FoldEventCacher) : Z :=
  GetScreenFoldStatus (foldStatus_ c) (isTentStatus_ c) (vhMode_ c) (GetWindowModeOfFocusedApp c).

Definition ProcessForegroundEvent (ck : Clock) (eventTime : Z) (c : FoldEventCacher) : FoldEventCacher :=
  let s := screen_status c in
  set_db c (AddAppEvent (mkRecord EVENT_APP_START (boot ck) (focusedApp c) s s [] eventTime) ∅ (db c)).

(** *** Counting a session *)

Definition Accumulative (foldStatus duration : Z) (durations : Durations) : Durations :=
  match durations !! foldStatus with
  | None => <[foldStatus := duration]> durations
  | Some d => <[foldStatus := u64 (d + duration)]> durations
  end.

Definition CanCalcDuration (preId id : Z) : bool :=
  ((id =? EVENT_APP_EXIT) && (preId =? EVENT_APP_START)) ||
  ((id =? EVENT_SCREEN_STATUS_CHANGED) && (preId =? EVENT_APP_START)) ||
  ((id =? EVENT_SCREEN_STATUS_CHANGED) && (preId =? EVENT_SCREEN_STATUS_CHANGED)) ||
  ((id =? EVENT_APP_EXIT) && (preId =? EVENT_SCREEN_STATUS_CHANGED)).

Fixpoint CalcLoop (pre : AppEventRecord) (records : list AppEventRecord) (durations : Durations) : Durations :=
  match records with
  | [] => durations
  | it :: records =>
      let durations :=
        if CanCalcDuration (rawid pre) (rawid it)
        then Accumulative (foldStatus pre) (if ts it >? ts pre then ts it - ts pre else 0) durations
        else durations in
      CalcLoop it records durations
  end.

Definition CalCulateDuration (dayStartTime : Z) (records : list AppEventRecord) : Durations :=
  match records with
  | [] => ∅
  | it :: records =>
      let durations :=
        if (rawid it =? EVENT_APP_EXIT) || (rawid it =? EVENT_SCREEN_STATUS_CHANGED)
        then Accumulative (if rawid it =? EVENT_APP_EXIT then foldStatus it else preFoldStatus it)
               (u64 (happenTime it - dayStartTime)) ∅
        else ∅ in
      CalcLoop it records durations
  end.

Definition ProcessCountDurationEvent (ck : Clock) (r : AppEventRecord) (durations : Durations) (t : Table) : Table :=
  AddAppEvent (mkRecord EVENT_COUNT_DURATION (boot ck) (bundleName r) (preFoldStatus r) (foldStatus r) [] (wall ck)) durations t.

Definition CountLifeCycleDuration (ck : Clock) (r : AppEventRecord) (t : Table) : Table :=
  let startIndex := QueryRawEventIndex (bundleName r) EVENT_APP_START t in
  let records := QueryAppEventRecords startIndex (zero ck) (bundleName r) t in
  ProcessCountDurationEvent ck r (CalCulateDuration (zero ck) records) t.

Definition ProcessBackgroundEvent (ck : Clock) (eventTime : Z) (c : FoldEventCacher) : FoldEventCacher :=
  let s := screen_status c in
  let r := mkRecord EVENT_APP_EXIT (boot ck) (focusedApp c) s s [] eventTime in
  set_db c (CountLifeCycleDuration ck r (AddAppEvent r ∅ (db c))).

Definition ProcessFocusWindowEvent (ck : Clock) (eventTime windowType : Z) (bundle : bytes) (c : FoldEventCacher) : FoldEventCacher :=
  let c := if focusedCounts c then ProcessBackgroundEvent ck eventTime c else c in
  let shouldCount := windowType <? SYSTEM_WINDOW_BASE in
  let c := set_focus c bundle shouldCount in
  if shouldCount then ProcessForegroundEvent ck eventTime c else c.

(** What a screen event changes; [None] when it is not valid. *)
Definition screen_change (e : ScreenEvent) (c : FoldEventCacher) : option FoldEventCacher :=
  match e with
  | FoldState None => None
  | FoldState (Some next) => Some (UpdateFoldStatus (s32 next) c)
  | TentMode v => Some (set_tent (s32 v =? 1) c)
  | VhModeChange m => Some (UpdateVhMode (s32 m) c)
  | MultiWindow n w => Some (UpdateMultiWindowInfos (u8 n) w c)
  | _ => None
  end.

Definition ProcessSceenStatusChangedEvent (ck : Clock) (eventTime : Z) (e : ScreenEvent) (c : FoldEventCacher) : FoldEventCacher :=
  let pre := screen_status c in
  match screen_change e c with
  | None => c
  | Some c =>
      if negb (focusedCounts c) then c else
      let post := screen_status c in
      if pre =? post then c
      else set_db c (AddAppEvent (mkRecord EVENT_SCREEN_STATUS_CHANGED (boot ck) (focusedApp c) pre post [] eventTime) ∅ (db c))
  end.

(** [ProcessEvent]; [eventTime] is the event's own time. *)
Definition ProcessEvent (ck : Clock) (eventTime : Z) (e : ScreenEvent) (c : FoldEventCacher) : FoldEventCacher :=
  match e with
  | FocusWindow w b => ProcessFocusWindowEvent ck eventTime w b c
  | FoldState _ | TentMode _ | VhModeChange _ | MultiWindow _ _ => ProcessSceenStatusChangedEvent ck eventTime e c
  | OtherEvent => c
  end.

(** ** The report of a day *)

(** The fields of durations by state, each a [uint32_t]. *)
Record FoldAppUsageInfo := mkInfo { package : bytes; version : bytes; fields : Durations; startNum : Z; usage : Z }.

Definition info_new (p v : bytes) : FoldAppUsageInfo := mkInfo p v ∅ 1 0.
Definition field (s : Z) (i : FoldAppUsageInfo) : Z := default 0 (fields i !! s).

(** Only a state with a column has a handler. *)
Definition UpdateScreenStatInfo (i : FoldAppUsageInfo) (time s : Z) : FoldAppUsageInfo :=
  if bool_decide (s ∈ BASE_FIELDS)
  then mkInfo (package i) (version i) (<[s := u32 (field s i + time)]> (fields i)) (startNum i) (usage i)
  else i.

Definition info_add (a b : FoldAppUsageInfo) : FoldAppUsageInfo :=
  mkInfo (package a) (version a) (list_to_map ((λ s, (s, u32 (field s a + field s b))) <$> BASE_FIELDS))
    (u32 (startNum a + startNum b)) (usage a).

Definition GetAppUsage (i : FoldAppUsageInfo) : Z := u32 (sum_of (λ s, field s i) BASE_FIELDS).

(** One group of [GROUP BY bundle_name, version_name]. *)
Definition group_info (l : list Row) (p v : bytes) : FoldAppUsageInfo :=
  let g := filter (λ r, bundleName (row r) = p ∧ versionName (row r) = v) l in
  mkInfo p v (list_to_map ((λ s, (s, u32 (sum_of (λ r, default 0 (columns r !! s)) g))) <$> BASE_FIELDS))
    (u32 (Zlen g)) 0.

Definition QueryStatisticEventsInPeriod (startTime endTime : Z) (t : Table) : gmap bytes FoldAppUsageInfo :=
  let l := filter (λ r, rawid (row r) = EVENT_COUNT_DURATION ∧ startTime <= happenTime (row r) <= endTime) (rows t) in
  foldl (λ m k, <[k.1 ++ k.2 := group_info l k.1 k.2]> m) ∅
    (remove_dups ((λ r, (bundleName (row r), versionName (row r))) <$> l)).

Definition QueryFinalAppInfo (endTime : Z) (t : Table) : option Row :=
  last (filter (λ r, 0 <= happenTime (row r) <= endTime) (rows t)).

(** The loop over the rows, the newest first: [None] when a row that is neither a
    start nor a change of the screen is met. *)
Fixpoint read_foreground (l : list Row) : option (list AppEventRecord) :=
  match l with
  | [] => Some []
  | r :: l =>
      if negb (rawid (row r) =? EVENT_APP_START) && negb (rawid (row r) =? EVENT_SCREEN_STATUS_CHANGED) then None else
      if rawid (row r) =? EVENT_APP_START then Some [row r]
      else (row r ::.) <$> read_foreground l
  end.

(** The periods between the events, which are listed the newest first. *)
Fixpoint add_periods (info : FoldAppUsageInfo) (oldest_first : list AppEventRecord) : FoldAppUsageInfo :=
  match oldest_first with
  | a :: ((b :: _) as rest) =>
      add_periods (if ts b >? ts a then UpdateScreenStatInfo info (u32 (ts b - ts a)) (foldStatus a) else info) rest
  | _ => info
  end.

Definition CaculateForegroundAppUsage (events : list AppEventRecord) (startTime endTime : Z) (appName : bytes) (screenStatus : Z)
    : FoldAppUsageInfo :=
  let info := info_new appName [] in
  match events with
  | [] => UpdateScreenStatInfo info (u32 (endTime - startTime)) screenStatus
  | newest :: _ =>
      let oldest := List.last events newest in
      let info := if rawid oldest =? EVENT_SCREEN_STATUS_CHANGED
                  then UpdateScreenStatInfo info (u32 (happenTime oldest - startTime)) (preFoldStatus oldest) else info in
      let info := add_periods info (reverse events) in
      UpdateScreenStatInfo info (u32 (endTime - happenTime newest)) (foldStatus newest)
  end.

Definition QueryForegroundAppsInfo (startTime endTime screenStatus : Z) (info : FoldAppUsageInfo) (t : Table) : FoldAppUsageInfo :=
  match read_foreground (reverse (filter (λ r, bundleName (row r) = package info ∧ startTime <= happenTime (row r) <= endTime) (rows t))) with
  | None => info
  | Some events => CaculateForegroundAppUsage events startTime endTime (package info) screenStatus
  end.

(** The application in the foreground when the period ended. *)
Definition foreground_info (startTime endTime : Z) (t : Table) : option FoldAppUsageInfo :=
  match QueryFinalAppInfo endTime t with
  | None => None
  | Some e =>
      if negb ((rawid (row e) =? EVENT_APP_START) || (rawid (row e) =? EVENT_SCREEN_STATUS_CHANGED)) then None else
      if bool_decide (bundleName (row e) = []) then None else
      Some (QueryForegroundAppsInfo startTime endTime (foldStatus (row e)) (info_new (bundleName (row e)) []) t)
  end.

(** The first half of [GetAppUsageInfo]: what was counted and what was still in
    the foreground, put together. *)
Definition merge_infos (startTime endTime : Z) (t : Table) : gmap bytes FoldAppUsageInfo :=
  let m := QueryStatisticEventsInPeriod startTime endTime t in
  match foreground_info startTime endTime t with
  | None => m
  | Some f =>
      let k := package f ++ version f in
      <[k := match m !! k with Some i => info_add i f | None => f end]> m
  end.

Section Report.
Context `{SO : Sorter} (GetAppVersion : bytes → bytes).

Definition MAX_APP_USAGE_SIZE : nat := 100.

Definition finish_info (i : FoldAppUsageInfo) : FoldAppUsageInfo :=
  mkInfo (package i) (GetAppVersion (package i)) (fields i) (startNum i) (GetAppUsage i).

Definition GetAppUsageInfo (startTime endTime : Z) (t : Table) : list FoldAppUsageInfo :=
  let infos := finish_info <$> (map_to_list (merge_infos startTime endTime t)).*2 in
  take MAX_APP_USAGE_SIZE (std_sort (λ a b, usage a >? usage b) infos).

Definition MILLISECS_PER_DAY : Z := 86400000.
Definition DATA_KEEP_DAY : Z := 3.

(** [Create]: the infos that are reported and the table afterwards; [today] is the
    last midnight. *)
Definition Create (today : Z) (t : Table) : list FoldAppUsageInfo * Table :=
  let startTime := if today >? MILLISECS_PER_DAY then today - MILLISECS_PER_DAY else 0 in
  let endTime := if today >? 1 then today - 1 else 0 in
  let clearDataTime := if today >? MILLISECS_PER_DAY * DATA_KEEP_DAY then today - MILLISECS_PER_DAY * DATA_KEEP_DAY else 0 in
  (filter (λ i, usage i ≠ 0) (GetAppUsageInfo startTime endTime t), DeleteEventsByTime clearDataTime t).

End Report.
End FoldUsage.
