(* ===== verification/FoldFacts.v ===== *)
(** * FoldFacts: the reported use of an application is the time it had the focus

    The rows, the counts made when an application loses the focus and the report
    of a day, which adds what was still in the foreground at its end, give for
    every application and every state of the screen exactly the time of the day
    during which the application had the focus in that state.  Hypotheses: an event
    is processed when it happens, and the boot clock and the clock of the day run
    alike. *)

From S2P Require Import Prelude FoldUsage.
From stdpp Require Import base gmap list numbers strings.
From Stdlib Require Import Sorted.

Local Open Scope Z_scope.

Module FoldFacts.
Import FoldUsage.
Import Database.Database (Sorter, std_sort, sort_perm, sort_sorted).

(** ** Time spent

    A log lists, in order, from when on something held. *)

Section Spent.
Context {A : Type} `{EqDecision A}.

(** How much of [a, b] lies in the period. *)
Definition overlap (S E a b : Z) : Z := Z.max 0 (Z.min b E - Z.max a S).

(** How long, within the period and up to [now], [v] held. *)
Fixpoint spent (v : A) (S E : Z) (log : list (Z * A)) (now : Z) : Z :=
  match log with
  | [] => 0
  | (t, w) :: rest =>
      (if bool_decide (w = v) then overlap S E t (match rest with [] => now | (t', _) :: _ => t' end) else 0) +
      spent v S E rest now
  end.

(** Times do not decrease and are at most [now]. *)
Fixpoint in_order (log : list (Z * A)) (now : Z) : Prop :=
  match log with
  | [] => True
  | (t, _) :: rest => t <= match rest with [] => now | (t', _) :: _ => t' end ∧ in_order rest now
  end.

Lemma in_order_later log now now' : in_order log now → now <= now' → in_order log now'.
Proof. induction log as [|[t w] [|[t' w'] log] IH]; cbn; [done|lia|]. intros [? ?] ?. split; [done|]. by apply IH. Qed.

Lemma in_order_snoc log now w : in_order log now → in_order (log ++ [(now, w)]) now.
Proof. induction log as [|[t x] [|[t' x'] log] IH]; cbn; [lia|lia|]. intros [? ?]. split; [done|]. by apply IH. Qed.

Lemma in_order_le log now t w : in_order log now → (t, w) ∈ log → t <= now.
Proof.
  induction log as [|[t0 w0] log IH]; [by intros _ ?%elem_of_nil|]. intros [H1 H2] [[= -> ->]|Hin]%elem_of_cons; [|by apply IH].
  destruct log as [|[t' w'] log]; [done|]. etrans; [exact H1|]. clear -H2. revert t' w' H2.
  induction log as [|[t2 w2] log IH]; cbn; intros t' w' [? ?]; [lia|]. etrans; [done|]. by apply (IH t2 w2).
Qed.

Lemma spent_snoc v S E log now w :
  in_order log now → spent v S E (log ++ [(now, w)]) now = spent v S E log now.
Proof.
  assert (overlap S E now now = 0) as H0 by (unfold overlap; lia).
  induction log as [|[t x] [|[t' x'] log] IH]; cbn [app spent in_order].
  - rewrite H0. intros _. by destruct (bool_decide _).
  - rewrite H0. intros _. destruct (bool_decide (w = v)); lia.
  - intros [? ?]. cbn [app spent] in IH. by rewrite IH.
Qed.

Lemma overlap_split S E a b c : a <= b <= c → overlap S E a c = overlap S E a b + overlap S E b c.
Proof. unfold overlap. lia. Qed.

Lemma spent_extend v S E log now now' t w :
  in_order log now → now <= now' → last log = Some (t, w) →
  spent v S E log now' = spent v S E log now + (if bool_decide (w = v) then overlap S E now now' else 0).
Proof.
  intros Ho Hn Hl. induction log as [|[t1 w1] [|[t2 w2] log] IH]; [done| |].
  - cbn in *. injection Hl as -> ->. destruct (bool_decide _); [|lia]. rewrite (overlap_split S E t now now'); lia.
  - destruct Ho as [? Ho]. cbn [spent] in *. rewrite IH by done. lia.
Qed.

Lemma spent_bounds v S E log now : in_order log now →
  0 <= spent v S E log now <= match log with [] => 0 | (t, _) :: _ => overlap S E t now end.
Proof.
  induction log as [|[t1 w1] [|[t2 w2] log] IH]; cbn [in_order]; [done| |].
  - cbn. intros _. destruct (bool_decide _); unfold overlap; lia.
  - intros [H1 H2]. specialize (IH H2). cbn [spent] in *.
    assert (t2 <= now) by (apply (in_order_le ((t2, w2) :: log) _ _ w2 H2); left).
    rewrite (overlap_split S E t1 t2 now) by lia.
    assert (0 <= overlap S E t1 t2) by (unfold overlap; lia). destruct (bool_decide (w1 = v)); lia.
Qed.

Lemma spent_bound v S E log now : S <= E → in_order log now → 0 <= spent v S E log now <= E - S.
Proof.
  intros HSE Ho. pose proof (spent_bounds v S E log now Ho). destruct log as [|[t w] log]; [cbn in *; lia|]. unfold overlap in *. lia.
Qed.

(** Before the period nothing counts, and after it nothing more. *)
Lemma spent_before v S E log now : in_order log now → now <= S → spent v S E log now = 0.
Proof.
  intros Ho Hn. pose proof (spent_bounds v S E log now Ho). destruct log as [|[t w] log]; [done|]. unfold overlap in *. lia.
Qed.

Lemma spent_after v S E log now now' :
  in_order log now → E <= now → now <= now' → spent v S E log now' = spent v S E log now.
Proof.
  intros Ho HE Hn. destruct (last log) as [[t w]|] eqn:Hl; [|by apply last_None in Hl as ->].
  rewrite (spent_extend v S E log now now' t w) by done. unfold overlap. destruct (bool_decide _); lia.
Qed.

Lemma spent_cut v S E log t w now :
  in_order log t → E <= t → t <= now → spent v S E (log ++ [(t, w)]) now = spent v S E log t.
Proof.
  intros Ho HE Hn. rewrite (spent_after v S E _ t now), spent_snoc; [done|done|by apply in_order_snoc|done|done].
Qed.

End Spent.

(** ** The durations of a session *)

Definition dur (s : Z) (d : Durations) : Z := default 0 (d !! s).

Lemma dur_accumulative s x t d :
  dur s (Accumulative x t d) = if bool_decide (x = s) then match d !! s with Some v => u64 (v + t) | None => t end else dur s d.
Proof.
  unfold dur, Accumulative. case_bool_decide as Hx; [subst x|]; destruct (d !! _) eqn:E; simplify_map_eq; done.
Qed.

Lemma lookup_table {V} (f : Z → V) l s : s ∈ l → (list_to_map ((λ s, (s, f s)) <$> l) : gmap Z V) !! s = Some (f s).
Proof.
  induction l as [|x l IH]; [by intros ?%elem_of_nil|]. intros Hs. rewrite fmap_cons. cbn [list_to_map foldr].
  destruct (decide (x = s)) as [->|Hne]; [by rewrite lookup_insert_eq|]. rewrite lookup_insert_ne by done.
  apply IH. apply elem_of_cons in Hs as [|]; [congruence|done].
Qed.

Section Session.
Context (off tz : Z) (p : bytes).

Definition rec_start (m : Z * Z) : AppEventRecord := mkRecord EVENT_APP_START (m.1 - off) p m.2 m.2 [] m.1.
Definition rec_exit (m : Z * Z) : AppEventRecord := mkRecord EVENT_APP_EXIT (m.1 - off) p m.2 m.2 [] m.1.
Definition rec_change (pre : Z) (m : Z * Z) : AppEventRecord := mkRecord EVENT_SCREEN_STATUS_CHANGED (m.1 - off) p pre m.2 [] m.1.

(** The records of a session: from when on the screen was in which state. *)
Fixpoint changes (pre : Z) (marks : list (Z * Z)) : list AppEventRecord :=
  match marks with [] => [] | m :: marks => rec_change pre m :: changes m.2 marks end.

Definition session (marks : list (Z * Z)) : list AppEventRecord :=
  match marks with [] => [] | m :: marks => rec_start m :: changes m.2 marks end.

Fixpoint final_state (pre : Z) (marks : list (Z * Z)) : Z :=
  match marks with [] => pre | m :: marks => final_state m.2 marks end.

Lemma changes_snoc pre marks m : changes pre (marks ++ [m]) = changes pre marks ++ [rec_change (final_state pre marks) m].
Proof. revert pre. induction marks as [|x l IH]; intros pre; cbn; [done|]. by rewrite IH. Qed.

Lemma final_snoc pre marks m : final_state pre (marks ++ [m]) = m.2.
Proof. revert pre. induction marks as [|x l IH]; intros pre; cbn; [done|]. by rewrite IH. Qed.

Lemma last_final pre x0 marks : ∃ t, last ((x0, pre) :: marks) = Some (t, final_state pre marks).
Proof.
  revert pre x0. induction marks as [|[t s] l IH]; intros pre x0; [by exists x0|]. rewrite last_cons_cons. apply IH.
Qed.

Lemma keep_late S marks : ∀ b y now, S <= b → in_order ((b, y) :: marks) now →
  filter (λ r, S <= happenTime r) (changes y marks ++ [rec_exit (now, final_state y marks)]) =
    changes y marks ++ [rec_exit (now, final_state y marks)].
Proof.
  induction marks as [|[c z] marks IH]; intros b y now HSb [Hbc Ho]; cbn [changes app final_state snd].
  - by rewrite filter_cons_True by (cbn; lia).
  - rewrite filter_cons_True by (cbn; lia). f_equal. apply (IH c z); [lia|done].
Qed.

(** Counting from a start or a change within the period. *)
Lemma CalcLoop_spec S E now s : ∀ marks a x pre d,
  now <= E → E - S < 2 ^ 63 → S <= a → in_order ((a, x) :: marks) now →
  rawid pre = EVENT_APP_START ∨ rawid pre = EVENT_SCREEN_STATUS_CHANGED → ts pre = a - off → foldStatus pre = x →
  (∀ s v, d !! s = Some v → 0 <= v <= a - S) →
  dur s (CalcLoop pre (changes x marks ++ [rec_exit (now, final_state x marks)]) d) = dur s d + spent s S E ((a, x) :: marks) now.
Proof.
  assert (∀ a b x d s, S <= a <= b → b <= E → E - S < 2 ^ 63 → (∀ s v, d !! s = Some v → 0 <= v <= a - S) →
    let d' := Accumulative x (b - a) d in
    dur s d' = dur s d + (if bool_decide (x = s) then b - a else 0) ∧ (∀ s v, d' !! s = Some v → 0 <= v <= b - S)) as Hstep.
  { intros a b x d s' Hab HbE Hbig Hd. split.
    - rewrite dur_accumulative. case_bool_decide as Hx; [subst|lia]. unfold dur. destruct (d !! s') as [v|] eqn:Ev; cbn; [|lia].
      specialize (Hd _ _ Ev). rewrite u64_small by (split; lia). lia.
    - intros s2 v. unfold Accumulative. destruct (d !! x) as [v0|] eqn:Ev; intros [[<- <-]|[_ Hv]]%lookup_insert_Some;
        try pose proof (Hd _ _ Ev); try pose proof (Hd _ _ Hv); rewrite ?u64_small by (split; lia); lia. }
  intros marks. induction marks as [|[b y] marks IH]; intros a x pre d HnE Hbig Ha Ho Hpre Hts Hx Hd; cbn [changes app CalcLoop final_state snd rawid rec_exit rec_change].
  - destruct Ho as [Han _]. assert (CanCalcDuration (rawid pre) EVENT_APP_EXIT = true) as -> by (by destruct Hpre as [-> | ->]).
    rewrite Hts, Hx. cbn [rawid rec_exit ts fst].
    replace (if now - off >? a - off then now - off - (a - off) else 0) with (now - a) by (rewrite Z.gtb_ltb; zcase; lia).
    destruct (Hstep a now x d s) as [-> _]; [lia|done..|]. cbn [spent]. unfold overlap. destruct (bool_decide _); lia.
  - destruct Ho as [Hab Ho]. assert (b <= now) by (apply (in_order_le _ _ _ y Ho); left).
    assert (CanCalcDuration (rawid pre) EVENT_SCREEN_STATUS_CHANGED = true) as -> by (by destruct Hpre as [-> | ->]).
    rewrite Hts, Hx. cbn [rawid rec_change ts fst].
    replace (if b - off >? a - off then b - off - (a - off) else 0) with (b - a) by (rewrite Z.gtb_ltb; zcase; lia).
    destruct (Hstep a b x d s) as [Hs Hd']; [lia..|done|].
    rewrite (IH b y) by (done || lia || by right). rewrite Hs. cbn [spent]. unfold overlap at 2. destruct (bool_decide (x = s)); lia.
Qed.

(** The records of the day of a session that ends. *)
Lemma CalCulateDuration_late S E now s : ∀ marks a x,
  now <= E → S <= now → E - S < 2 ^ 63 → a < S → in_order ((a, x) :: marks) now →
  dur s (CalCulateDuration S (filter (λ r, S <= happenTime r) (changes x marks ++ [rec_exit (now, final_state x marks)]))) =
    spent s S E ((a, x) :: marks) now.
Proof.
  intros marks. induction marks as [|[b y] marks IH]; intros a x HnE HSn Hbig Ha Ho; cbn [changes app final_state snd].
  - rewrite filter_cons_True by (cbn; lia). rewrite filter_nil. cbn [CalCulateDuration rawid rec_exit CalcLoop foldStatus happenTime fst snd].
    change (EVENT_APP_EXIT =? EVENT_APP_EXIT) with true. cbn [orb]. rewrite dur_accumulative, lookup_empty. cbn [spent].
    unfold overlap. rewrite u64_small by (split; lia). change (dur s ∅) with 0. destruct (bool_decide _); lia.
  - destruct Ho as [Hab Ho]. assert (b <= now) by (apply (in_order_le _ _ _ y Ho); left).
    destruct (decide (S <= b)) as [HSb|HSb].
    + rewrite filter_cons_True by (cbn; lia).
      rewrite (keep_late S marks b) by done.
      cbn [CalCulateDuration rawid rec_change]. change (EVENT_SCREEN_STATUS_CHANGED =? EVENT_APP_EXIT) with false.
      change (EVENT_SCREEN_STATUS_CHANGED =? EVENT_SCREEN_STATUS_CHANGED) with true. cbn [orb preFoldStatus happenTime rec_change fst snd].
      assert (u64 (b - S) = b - S) as Hu by (apply u64_small; split; lia). rewrite Hu.
      rewrite (CalcLoop_spec S E now s marks b y) by
        (done || lia || (by right) || (intros s' v; unfold Accumulative; rewrite lookup_empty; intros [[<- <-]|[_ ?]]%lookup_insert_Some; [lia|done])).
      rewrite dur_accumulative, lookup_empty. change (dur s ∅) with 0. cbn [spent]. unfold overlap at 2. destruct (bool_decide (x = s)); lia.
    + rewrite filter_cons_False by (cbn; lia). rewrite (IH b y) by (done || lia). cbn [spent].
      unfold overlap at 2. destruct (bool_decide (x = s)); lia.
Qed.

Lemma CalCulateDuration_session S E now s a x marks :
  now <= E → S <= now → E - S < 2 ^ 63 → in_order ((a, x) :: marks) now →
  dur s (CalCulateDuration S (filter (λ r, S <= happenTime r) (session ((a, x) :: marks) ++ [rec_exit (now, final_state x marks)]))) =
    spent s S E ((a, x) :: marks) now.
Proof.
  intros HnE HSn Hbig Ho. cbn [session app snd]. destruct (decide (S <= a)) as [HSa|HSa].
  - rewrite filter_cons_True by (cbn; lia). rewrite (keep_late S marks a) by done.
    cbn [CalCulateDuration rawid rec_start]. change (EVENT_APP_START =? EVENT_APP_EXIT) with false.
    change (EVENT_APP_START =? EVENT_SCREEN_STATUS_CHANGED) with false. cbn [orb].
    rewrite (CalcLoop_spec S E now s marks a x) by (done || lia || by left). done.
  - rewrite filter_cons_False by (cbn; lia). by apply CalCulateDuration_late; [..|lia|].
Qed.

End Session.

(** ** The rows and the time spent *)

Lemma filter_fmap_row (P : AppEventRecord → Prop) `{!∀ r, Decision (P r)} (l : list Row) :
  row <$> filter (λ r, P (row r)) l = filter P (row <$> l).
Proof.
  induction l as [|r l IH]; [done|]. rewrite fmap_cons. destruct (decide (P (row r))).
  - rewrite !filter_cons_True by done. by rewrite fmap_cons, IH.
  - by rewrite !filter_cons_False by done.
Qed.

Lemma read_records_all l : Forall (λ r, rawid (row r) ≠ EVENT_COUNT_DURATION) l → read_records l = row <$> l.
Proof.
  intros Hl. unfold read_records. set (f := λ _ _, _). assert (∀ acc, foldl f acc l = acc ++ (row <$> l)) as H by
    (induction Hl as [|r l Hr Hl IH]; intros acc; [by rewrite app_nil_r|]; cbn [foldl]; unfold f at 2;
     rewrite (proj2 (Z.eqb_neq _ _)) by done; rewrite IH, fmap_cons; by rewrite <- app_assoc).
  apply (H []).
Qed.

Section Run.
Context (off tz : Z).

Definition midnight (t : Z) : Z := t - (t - tz) mod MILLISECS_PER_DAY.
Definition clock (t : Z) : Clock := mkClock (t - off) t (midnight t).

(** A moment: when something happened, and what. *)
Definition step (c : FoldEventCacher) (m : Z * ScreenEvent) : FoldEventCacher := ProcessEvent (clock m.1) m.1 m.2 c.
Definition run (c : FoldEventCacher) (ms : list (Z * ScreenEvent)) : FoldEventCacher := foldl step c ms.

(** Which application has the focus, in which state of the screen. *)
Definition view (c : FoldEventCacher) : option (bytes * Z) :=
  if focusedCounts c then Some (focusedApp c, screen_status c) else None.

Fixpoint views (c : FoldEventCacher) (ms : list (Z * ScreenEvent)) : list (Z * option (bytes * Z)) :=
  match ms with [] => [] | m :: ms => let c := step c m in (m.1, view c) :: views c ms end.

Definition day_end (S : Z) : Z := S + MILLISECS_PER_DAY - 1.

Lemma midnight_unique S now : midnight S = S → S <= now <= day_end S → midnight now = S.
Proof.
  unfold midnight, day_end, MILLISECS_PER_DAY. intros HS Hn. assert ((S - tz) mod 86400000 = 0) as H0 by lia.
  replace (now - tz) with ((S - tz) + (now - S)) by lia. rewrite <- Z.add_mod_idemp_l, H0 by done. rewrite Z.mod_small by lia. lia.
Qed.

(** What the counts of a day say. *)
Definition is_count (p : bytes) (S E : Z) (r : Row) : Prop :=
  bundleName (row r) = p ∧ rawid (row r) = EVENT_COUNT_DURATION ∧ S <= happenTime (row r) <= E.
#[global] Instance is_count_dec p S E r : Decision (is_count p S E r).
Proof. unfold is_count. apply _. Defined.

Definition counted (p : bytes) (s S E : Z) (l : list Row) : Z := sum_of (λ r, dur s (columns r)) (filter (is_count p S E) l).

Lemma counted_app p s S E l l' : counted p s S E (l ++ l') = counted p s S E l + counted p s S E l'.
Proof. unfold counted. by rewrite filter_app, sum_of_app. Qed.

Lemma counted_other p s S E r : rawid (row r) ≠ EVENT_COUNT_DURATION → counted p s S E [r] = 0.
Proof. intros Hr. unfold counted. rewrite filter_cons_False; [done|]. by intros (_ & ? & _). Qed.

Definition closed (l : list Row) : Prop := match last l with Some r => rawid (row r) = EVENT_COUNT_DURATION | None => True end.

Definition row_ok (now lastId : Z) (r : Row) : Prop :=
  row_id r <= lastId ∧ 0 <= happenTime (row r) <= now ∧ versionName (row r) = [].

(** The rows of the session that is open, from its marks. *)
Definition open_rows (c : FoldEventCacher) (marks : list (Z * Z)) (now : Z) : Prop :=
  if focusedCounts c then
    ∃ tab0 r0 srows a x rest, marks = (a, x) :: rest ∧ rows (db c) = tab0 ++ r0 :: srows ∧ closed tab0 ∧
      Forall (λ r, row_id r < row_id r0 ∧ happenTime (row r) <= a) tab0 ∧ Forall (λ r, row_id r0 <= row_id r) (r0 :: srows) ∧
      row <$> (r0 :: srows) = session off (focusedApp c) marks ∧ in_order marks now ∧ final_state x rest = screen_status c
  else marks = [] ∧ closed (rows (db c)).

Definition last_view (c : FoldEventCacher) (log : list (Z * option (bytes * Z))) : Prop :=
  match last log with Some (_, w) => w = view c | None => focusedCounts c = false end.

Definition accounted (c : FoldEventCacher) (log : list (Z * option (bytes * Z))) (now : Z) (marks : list (Z * Z)) : Prop :=
  ∀ p s S, midnight S = S → now <= day_end S → s ∈ BASE_FIELDS →
    spent (Some (p, s)) S (day_end S) log now =
      counted p s S (day_end S) (rows (db c)) + (if bool_decide (p = focusedApp c) then spent s S (day_end S) marks now else 0).

Definition Inv (c : FoldEventCacher) (log : list (Z * option (bytes * Z))) (now : Z) (marks : list (Z * Z)) : Prop :=
  Forall (row_ok now (lastId (db c))) (rows (db c)) ∧ in_order log now ∧ last_view c log ∧ open_rows c marks now ∧ accounted c log now marks.

(** Time passes. *)
Lemma Inv_later c log now now' marks : Inv c log now marks → now <= now' → Inv c log now' marks.
Proof.
  intros (HR & HL & HV & HO & HA) Hn. split_and!.
  - eapply Forall_impl; [exact HR|]. unfold row_ok. intros; cbv beta in *; naive_solver lia.
  - by eapply in_order_later.
  - done.
  - unfold open_rows in *. destruct (focusedCounts c); [|done].
    destruct HO as (tab0 & r0 & sr & a & x & rest & ? & ? & ? & ? & ? & ? & ? & ?). exists tab0, r0, sr, a, x, rest.
    split_and!; try done. by eapply in_order_later.
  - intros p s S HS HnE Hs. pose proof (HA p s S HS ltac:(lia) Hs) as HJ. unfold last_view, view, open_rows in HV, HO.
    destruct (focusedCounts c).
    + destruct HO as (tab0 & r0 & sr & a & x & rest & -> & _ & _ & _ & _ & _ & Ho & Hf).
      destruct (last log) as [[t w]|] eqn:El; [|done]. subst w.
      rewrite (spent_extend _ _ _ log now now' t _ HL Hn El).
      destruct (last_final x a rest) as [t' Hlast]. rewrite Hf in Hlast. rewrite (spent_extend s _ _ _ now now' t' _ Ho Hn Hlast), HJ.
      destruct (decide (p = focusedApp c)) as [->|Hp].
      * rewrite (bool_decide_true (focusedApp c = focusedApp c)) by done.
        destruct (decide (screen_status c = s)) as [->|Hne]; [rewrite !bool_decide_true by done; lia|].
        rewrite !bool_decide_false by congruence. lia.
      * rewrite !bool_decide_false by congruence. lia.
    + destruct HO as [-> _]. cbn [spent] in *.
      destruct (last log) as [[t w]|] eqn:El.
      * subst w. rewrite (spent_extend _ _ _ log now now' t _ HL Hn El), HJ, (bool_decide_false (None = Some (p, s))) by done. lia.
      * apply last_None in El as ->. cbn [spent] in *. exact HJ.
Qed.
(** *** The invariant without the last entry of the log *)

Definition Core (c : FoldEventCacher) (log : list (Z * option (bytes * Z))) (now : Z) (marks : list (Z * Z)) : Prop :=
  Forall (row_ok now (lastId (db c))) (rows (db c)) ∧ in_order log now ∧ open_rows c marks now ∧ accounted c log now marks.

Lemma Inv_core c log now marks : Inv c log now marks → Core c log now marks.
Proof. intros (? & ? & _ & ? & ?). by split_and!. Qed.

Lemma Core_log c log now marks : Core c log now marks → Inv c (log ++ [(now, view c)]) now marks.
Proof.
  intros (HR & HL & HO & HA). split_and!; try done.
  - by apply in_order_snoc.
  - unfold last_view. by rewrite last_snoc.
  - intros p s S HS Hn Hs. rewrite spent_snoc by done. by apply HA.
Qed.

Lemma Core_screen c c' log now marks :
  Core c log now marks → db c' = db c → focusedApp c' = focusedApp c → focusedCounts c' = focusedCounts c →
  (focusedCounts c = true → screen_status c' = screen_status c) → Core c' log now marks.
Proof.
  intros (HR & HL & HO & HA) Hdb Hf Hc Hst. unfold Core, accounted, open_rows in *. rewrite Hdb, Hf, Hc. split_and!; try done.
  destruct (focusedCounts c); [|done]. by rewrite Hst.
Qed.

Lemma row_ok_append now t r d : 0 <= now → happenTime r = now → versionName r = [] →
  Forall (row_ok now (lastId t)) (rows t) → Forall (row_ok now (lastId (AddAppEvent r d t))) (rows (AddAppEvent r d t)).
Proof.
  intros Hn Hr Hv Ht. cbn. apply Forall_app. split.
  - eapply Forall_impl; [exact Ht|]. unfold row_ok. intros; cbv beta in *; naive_solver lia.
  - apply Forall_singleton. unfold row_ok. cbn. rewrite Hr, Hv. split_and!; (done || lia).
Qed.

Lemma session_snoc bundle marks a x rest t s :
  marks = (a, x) :: rest → session off bundle (marks ++ [(t, s)]) = session off bundle marks ++ [rec_change off bundle (final_state x rest) (t, s)].
Proof. intros ->. cbn [app session]. by rewrite changes_snoc. Qed.

Lemma Core_change c c1 log now marks :
  Core c log now marks → 0 <= now → focusedCounts c = true → db c1 = db c → focusedApp c1 = focusedApp c → focusedCounts c1 = true →
  Core (set_db c1 (AddAppEvent (rec_change off (focusedApp c1) (screen_status c) (now, screen_status c1)) ∅ (db c1))) log now
    (marks ++ [(now, screen_status c1)]).
Proof.
  intros (HR & HL & HO & HA) Hn Hfc Hdb Hfa Hc1. set (r := rec_change _ _ _ _).
  unfold open_rows in HO. rewrite Hfc in HO. destruct HO as (tab0 & r0 & sr & a & x & rest & Hm & Hrows & Hcl & H0 & H1 & Hse & Ho & Hf).
  split_and!.
  - cbn [set_db db]. rewrite Hdb. by apply row_ok_append.
  - done.
  - unfold open_rows. cbn [focusedCounts set_db]. rewrite Hc1. cbn [db].
    exists tab0, r0, (sr ++ [mkRow (lastId (db c1) + 1) r (SetValuesBucket ∅)]), a, x, (rest ++ [(now, screen_status c1)]).
    split_and!; try done.
    + by rewrite Hm.
    + cbn. rewrite Hdb, Hrows, <- app_assoc. done.
    + rewrite app_comm_cons. apply Forall_app. split; [done|]. apply Forall_singleton. cbn. rewrite Hdb.
      rewrite Hrows in HR. apply Forall_app in HR as [_ HR]. apply Forall_cons in HR as [[? _] _]. lia.
    + rewrite app_comm_cons, fmap_app, Hse. rewrite (session_snoc _ marks a x rest) by done. cbn [focusedApp set_db]. rewrite Hfa. f_equal.
      cbn. unfold r. by rewrite Hf, Hfa.
    + by apply in_order_snoc.
    + by rewrite final_snoc.
  - intros p s S HS HnE Hs. cbn [set_db db focusedApp]. cbn [AddAppEvent rows]. rewrite Hdb, Hfa, counted_app, counted_other, Z.add_0_r by done.
    rewrite spent_snoc by done. by apply HA.
Qed.

Lemma Core_start c b log now :
  Core c log now [] → 0 <= now → focusedCounts c = false →
  let c' := set_focus c b true in Core (ProcessForegroundEvent (clock now) now c') log now [(now, screen_status c')].
Proof.
  intros (HR & HL & HO & HA) Hn Hfc c'. unfold open_rows in HO. rewrite Hfc in HO. destruct HO as [_ Hcl].
  set (r := mkRecord EVENT_APP_START (now - off) b (screen_status c') (screen_status c') [] now).
  split_and!.
  - cbn. by apply (row_ok_append now (db c) r ∅).
  - done.
  - unfold open_rows. cbn [ProcessForegroundEvent set_db focusedCounts set_focus c' db].
    exists (rows (db c)), (mkRow (lastId (db c) + 1) r (SetValuesBucket ∅)), [], now, (screen_status c'), [].
    split_and!; try done.
    + eapply Forall_impl; [exact HR|]. unfold row_ok. cbn. intros; cbv beta in *; naive_solver lia.
    + by apply Forall_singleton.
  - intros p s S HS HnE Hs. cbn [ProcessForegroundEvent set_db db focusedApp set_focus c' AddAppEvent rows].
    rewrite counted_app, counted_other, Z.add_0_r by done. rewrite (HA p s S HS HnE Hs). cbn [spent].
    replace (overlap S (day_end S) now now) with 0 by (unfold overlap; lia). repeat case_bool_decide; lia.
Qed.

(** *** The focus is lost *)

Lemma last_filter_app {A} (P : A → Prop) `{!∀ x, Decision (P x)} l x l' :
  P x → Forall (λ y, ¬ P y) l' → last (filter P (l ++ x :: l')) = Some x.
Proof.
  intros Hx Hl'. rewrite filter_app, filter_cons_True by done.
  assert (filter P l' = []) as -> by (apply filter_none; intros y Hy; by eapply Forall_forall in Hl'). by rewrite last_snoc.
Qed.

Lemma session_fields bundle marks r : r ∈ session off bundle marks →
  bundleName r = bundle ∧ (rawid r = EVENT_APP_START ∨ rawid r = EVENT_SCREEN_STATUS_CHANGED).
Proof.
  destruct marks as [|[a x] rest]; [by intros ?%elem_of_nil|]. cbn [session]. intros [->|Hin]%elem_of_cons; [by split; [|left]|].
  revert Hin. generalize ((a, x).2). induction rest as [|m rest IH]; intros pre; [by intros ?%elem_of_nil|].
  cbn [changes]. intros [->|Hin]%elem_of_cons; [by split; [|right]|]. by eapply IH.
Qed.

Lemma changes_fields bundle pre marks r : r ∈ changes off bundle pre marks → rawid r = EVENT_SCREEN_STATUS_CHANGED.
Proof.
  revert pre. induction marks as [|m rest IH]; intros pre; [by intros ?%elem_of_nil|].
  cbn [changes]. intros [->|Hin]%elem_of_cons; [done|]. by eapply IH.
Qed.

(** What is counted when the focus is lost: the time of the day in each state. *)
Lemma exit_counts c now marks S :
  open_rows c marks now → focusedCounts c = true → Forall (row_ok now (lastId (db c))) (rows (db c)) →
  midnight S = S → S <= now <= day_end S →
  let r := rec_exit off (focusedApp c) (now, screen_status c) in
  let t := AddAppEvent r ∅ (db c) in
  ∀ s, dur s (CalCulateDuration S (QueryAppEventRecords (QueryRawEventIndex (focusedApp c) EVENT_APP_START t) S (focusedApp c) t)) =
    spent s S (day_end S) marks now.
Proof.
  intros HO Hfc HR HS Hn r t s. unfold open_rows in HO. rewrite Hfc in HO.
  destruct HO as (tab0 & r0 & sr & a & x & rest & Hm & Hrows & Hcl & H0 & H1 & Hse & Ho & Hf).
  set (er := mkRow (lastId (db c) + 1) r (SetValuesBucket ∅)).
  assert (rows t = tab0 ++ r0 :: sr ++ [er]) as Ht by (unfold t; cbn; by rewrite Hrows, <- app_assoc).
  assert (∀ q, q ∈ r0 :: sr → bundleName (row q) = focusedApp c ∧ (rawid (row q) = EVENT_APP_START ∨ rawid (row q) = EVENT_SCREEN_STATUS_CHANGED)) as Hq.
  { intros q Hin. eapply (session_fields _ marks). rewrite <- Hse. by apply list_elem_of_fmap_2. }
  assert (QueryRawEventIndex (focusedApp c) EVENT_APP_START t = row_id r0) as ->.
  { unfold QueryRawEventIndex. rewrite Ht, last_filter_app; [done| |].
    - split; [apply Hq; left|]. rewrite Hm in Hse. injection Hse as Hr0 _. by rewrite Hr0.
    - apply Forall_app. split; [|apply Forall_singleton; by intros [_ ?]]. apply Forall_forall. intros q Hin [_ Hst].
      rewrite Hm in Hse. injection Hse as _ Hsr. assert (rawid (row q) = EVENT_SCREEN_STATUS_CHANGED) as Hch.
      { eapply changes_fields. rewrite <- Hsr. by apply list_elem_of_fmap_2. }
      by rewrite Hch in Hst. }
  unfold QueryAppEventRecords. rewrite Ht, filter_app.
  assert (filter (λ q, bundleName (row q) = focusedApp c ∧ row_id r0 <= row_id q ∧ S <= happenTime (row q)) tab0 = []) as ->.
  { apply filter_none. intros q Hin (_ & Hid & _). eapply Forall_forall in H0 as [? _]; [|done]. lia. }
  cbn [app]. assert (row_id r0 <= row_id er) as Hier.
  { rewrite Hrows in HR. apply Forall_app in HR as [_ HR]. apply Forall_cons in HR as [[? _] _]. cbn. lia. }
  rewrite (filter_same _ (λ q, S <= happenTime (row q)) (r0 :: sr ++ [er])); cycle 1.
  { intros q Hin. rewrite app_comm_cons in Hin. split; [by intros (_ & _ & ?)|]. intros HSq.
    apply elem_of_app in Hin as [Hin| ->%list_elem_of_singleton]; [|by split_and!].
    split_and!; [by apply Hq| |done]. by eapply Forall_forall in H1. }
  rewrite read_records_all; cycle 1.
  { apply Forall_forall. intros q [_ Hin]%list_elem_of_filter. rewrite app_comm_cons in Hin.
    apply elem_of_app in Hin as [Hin| ->%list_elem_of_singleton]; [|done]. by destruct (Hq q Hin) as [_ [-> | ->]]. }
  assert (row <$> filter (λ q, S <= happenTime (row q)) (r0 :: sr ++ [er]) =
    filter (λ q, S <= happenTime q) (row <$> (r0 :: sr ++ [er]))) as -> by exact (@filter_fmap_row (λ q, S <= happenTime q) _ (r0 :: sr ++ [er])).
  rewrite app_comm_cons, fmap_app, Hse, Hm.
  cbn [fmap list_fmap row er]. unfold r. rewrite <- Hf. subst marks.
  apply CalCulateDuration_session; [lia|lia|unfold day_end, MILLISECS_PER_DAY; lia|done].
Qed.

Lemma Core_exit c b log now marks :
  Core c log now marks → 0 <= now → focusedCounts c = true →
  Core (set_focus (ProcessBackgroundEvent (clock now) now c) b false) log now [].
Proof.
  intros (HR & HL & HO & HA) Hn Hfc.
  set (r := rec_exit off (focusedApp c) (now, screen_status c)). set (t := AddAppEvent r ∅ (db c)).
  set (d := CalCulateDuration (midnight now) (QueryAppEventRecords (QueryRawEventIndex (focusedApp c) EVENT_APP_START t) (midnight now) (focusedApp c) t)).
  set (cr := mkRecord EVENT_COUNT_DURATION (now - off) (focusedApp c) (screen_status c) (screen_status c) [] now).
  assert (db (ProcessBackgroundEvent (clock now) now c) = AddAppEvent cr d t) as Hdb by done.
  split_and!.
  - cbn [set_focus db]. rewrite Hdb. by apply row_ok_append, row_ok_append.
  - done.
  - unfold open_rows. cbn [focusedCounts set_focus db]. rewrite Hdb. split; [done|]. unfold closed. cbn. by rewrite last_snoc.
  - intros p s S HS HnE Hs. cbn [set_focus db focusedApp]. rewrite Hdb. cbn [AddAppEvent rows t].
    rewrite !counted_app, counted_other, Z.add_0_r by done. rewrite (HA p s S HS HnE Hs). cbn [spent].
    replace (if bool_decide (p = b) then 0 else 0) with 0 by (by destruct (bool_decide _)).
    assert (in_order marks now) as Hmo by (unfold open_rows in HO; rewrite Hfc in HO; by destruct HO as (?&?&?&?&?&?&?&?&?&?&?&?&?&?)).
    unfold counted at 3. destruct (decide (S <= now)) as [HSn|HSn].
    + destruct (decide (p = focusedApp c)) as [->|Hp].
      * rewrite bool_decide_true, filter_cons_True by done. rewrite filter_nil, sum_of_cons, sum_of_nil. cbn [columns].
        unfold dur, SetValuesBucket. rewrite lookup_table by done. cbn [default Datatypes.id].
        pose proof (exit_counts c now marks S HO Hfc HR HS ltac:(lia) s) as Hc. cbn zeta in Hc. fold r t in Hc.
        assert (midnight now = S) as Hmid by (by apply midnight_unique). unfold d. rewrite Hmid. unfold GetDuration. unfold dur in Hc.
        assert (0 <= spent s S (day_end S) marks now < MILLISECS_PER_DAY) as Hb.
        { pose proof (spent_bound s S (day_end S) marks now ltac:(unfold day_end, MILLISECS_PER_DAY; lia) Hmo). unfold day_end in *. lia. }
        unfold MILLISECS_PER_DAY in Hb.
        destruct (_ !! s) as [v|]; cbn [default Datatypes.id] in Hc; clear -Hc Hb; [|lia]. unfold s64.
        rewrite sgn_small by (done || (split; lia)). lia.
      * rewrite bool_decide_false by done. rewrite filter_cons_False by (by intros [? _]). rewrite filter_nil, sum_of_nil. lia.
    + rewrite filter_cons_False by (intros (_ & _ & ?); cbn in *; lia). rewrite filter_nil, sum_of_nil.
      rewrite (spent_before s S _ marks now) by (done || lia). destruct (bool_decide _); lia.
Qed.

(** *** Every event keeps the invariant *)

Lemma Core_step c e log now marks : Core c log now marks → 0 <= now → ∃ marks', Core (step c (now, e)) log now marks'.
Proof.
  intros HC Hn. unfold step. cbn [fst snd].
  assert (∀ e', ∃ marks', Core (ProcessSceenStatusChangedEvent (clock now) now e' c) log now marks') as Hscreen.
  { intros e'. unfold ProcessSceenStatusChangedEvent. destruct (screen_change e' c) as [c1|] eqn:E1; [|by eexists].
    assert (db c1 = db c ∧ focusedApp c1 = focusedApp c ∧ focusedCounts c1 = focusedCounts c) as (Hdb & Hfa & Hfc).
    { destruct e' as [| [?|] | | | |]; cbn in E1; try done; injection E1 as <-; try done.
      unfold UpdateMultiWindowInfos. by destruct (negb _). }
    rewrite Hfc. destruct (focusedCounts c) eqn:Ef; cbn [negb].
    - zcase; [eexists; eapply Core_screen; [exact HC|congruence..|intros _; lia]|].
      eexists. exact (Core_change c c1 log now marks HC Hn Ef Hdb Hfa Hfc).
    - eexists. eapply Core_screen; [exact HC|congruence..|congruence]. }
  destruct e as [w b| | | | |]; cbn [ProcessEvent]; [|apply Hscreen..|by eexists].
  unfold ProcessFocusWindowEvent. set (c1 := if focusedCounts c then _ else c).
  assert (∃ m, Core (set_focus c1 b false) log now m ∧ focusedCounts (set_focus c1 b false) = false ∧ m = []) as (m & HC1 & _ & ->).
  { exists []. split; [|done]. unfold c1. destruct (focusedCounts c) eqn:Ef; [by apply (Core_exit c b log now marks)|].
    destruct HC as (HR & HL & HO & HA). unfold open_rows in HO. rewrite Ef in HO. destruct HO as [-> HO]. split_and!; try done.
    intros p s S HS HnE Hs. rewrite (HA p s S HS HnE Hs). cbn. by destruct (bool_decide _), (bool_decide _). }
  destruct (w <? SYSTEM_WINDOW_BASE); [|by eexists].
  eexists. by apply (Core_start (set_focus c1 b false) b).
Qed.

Lemma Inv_step c e log now now' marks :
  Inv c log now marks → 0 <= now' → now <= now' → ∃ marks', Inv (step c (now', e)) (log ++ [(now', view (step c (now', e)))]) now' marks'.
Proof.
  intros HI H0 Hn. apply (Inv_later c log now now' marks) in HI; [|done]. apply Inv_core in HI.
  destruct (Core_step c e log now' marks HI H0) as [marks' HC]. exists marks'. by apply Core_log.
Qed.

(** Moments in order, none before [t]. *)
Fixpoint from (t : Z) (ms : list (Z * ScreenEvent)) : Prop :=
  match ms with [] => True | m :: ms => t <= m.1 ∧ from m.1 ms end.

Lemma Inv_run ms : ∀ c log now marks,
  Inv c log now marks → 0 <= now → from now ms → ∃ marks' now', Inv (run c ms) (log ++ views c ms) now' marks' ∧ now <= now' ∧
    (∀ t, now <= t → Forall (λ m, m.1 <= t) ms → now' <= t).
Proof.
  induction ms as [|[t e] ms IH]; intros c log now marks HI H0 Hf.
  - exists marks, now. rewrite app_nil_r. by split_and!.
  - destruct Hf as [Hle Hf]. cbn [fst] in *. destruct (Inv_step c e log now t marks HI ltac:(lia) Hle) as [m1 HI1].
    destruct (IH _ _ _ _ HI1 ltac:(lia) Hf) as (m2 & n2 & HI2 & Hn2 & Hb). exists m2, n2. cbn [views run foldl fst].
    rewrite <- app_assoc in HI2. split_and!; [exact HI2|lia|]. intros u Hu [Hu2 HF]%Forall_cons. apply Hb; [exact Hu2|done].
Qed.

End Run.
(** ** The report *)

(** *** What was counted *)

Definition used (p : bytes) (s : Z) (m : gmap bytes FoldAppUsageInfo) : Z := default 0 (field s <$> m !! p).

Lemma fold_groups_lookup (g : bytes → bytes → FoldAppUsageInfo) keys p : ∀ m : gmap bytes FoldAppUsageInfo,
  Forall (λ k, k.2 = []) keys →
  foldl (λ m k, <[k.1 ++ k.2 := g k.1 k.2]> m) m keys !! p =
    if bool_decide ((p, []) ∈ keys) then Some (g p []) else m !! p.
Proof.
  induction keys as [|[q v] keys IH]; intros m Hk; [by rewrite bool_decide_false by apply not_elem_of_nil|].
  apply Forall_cons in Hk as [Hv Hk]. cbn in Hv. subst v. cbn [foldl fst snd]. rewrite IH by done. rewrite app_nil_r.
  case_bool_decide as H1; [by rewrite bool_decide_true by by right|]. destruct (decide (q = p)) as [->|Hne].
  - rewrite lookup_insert_eq, bool_decide_true by left. done.
  - rewrite lookup_insert_ne by done. rewrite bool_decide_false; [done|]. intros [[= ->]|]%elem_of_cons; done.
Qed.

Definition stat_rows (S E : Z) (l : list Row) : list Row :=
  filter (λ r, rawid (row r) = EVENT_COUNT_DURATION ∧ S <= happenTime (row r) <= E) l.

Lemma stat_lookup S E t p :
  Forall (λ r, versionName (row r) = []) (rows t) →
  QueryStatisticEventsInPeriod S E t !! p =
    if bool_decide ((p, []) ∈ (λ r, (bundleName (row r), versionName (row r))) <$> stat_rows S E (rows t)) then Some (group_info (stat_rows S E (rows t)) p []) else None.
Proof.
  intros Hv. unfold QueryStatisticEventsInPeriod. fold (stat_rows S E (rows t)).
  assert (∀ r, r ∈ stat_rows S E (rows t) → versionName (row r) = []) as Hv2.
  { intros r [_ Hr]%list_elem_of_filter. by eapply Forall_forall in Hv. }
  rewrite fold_groups_lookup; cycle 1.
  { apply Forall_forall. intros k (r & -> & Hr)%elem_of_remove_dups%list_elem_of_fmap. by apply Hv2. }
  rewrite lookup_empty. apply (f_equal (λ b : bool, if b then _ else _)). apply bool_decide_ext.
  by rewrite elem_of_remove_dups.
Qed.

Lemma field_group l p v s : s ∈ BASE_FIELDS →
  field s (group_info l p v) = u32 (sum_of (λ r, dur s (columns r)) (filter (λ r, bundleName (row r) = p ∧ versionName (row r) = v) l)).
Proof. intros Hs. unfold field, group_info. cbn [fields]. rewrite lookup_table by done. reflexivity. Qed.

Lemma stat_used S E t p s : Forall (λ r, versionName (row r) = []) (rows t) → s ∈ BASE_FIELDS →
  used p s (QueryStatisticEventsInPeriod S E t) = u32 (counted p s S E (rows t)).
Proof.
  intros Hv Hs. unfold used. rewrite stat_lookup by done.
  assert (∀ v, v = [] → filter (λ r, bundleName (row r) = p ∧ versionName (row r) = v) (stat_rows S E (rows t)) = filter (is_count p S E) (rows t)) as E1.
  { intros v ->. unfold stat_rows. rewrite list_filter_filter. apply filter_same. intros r Hr. eapply Forall_forall in Hv; [|done]. unfold is_count. naive_solver. }
  unfold counted. case_bool_decide as Hex; cbn [fmap option_fmap option_map default Datatypes.id]; [rewrite field_group, (E1 []) by done; done|].
  rewrite <- (E1 [] eq_refl), filter_none; [done|]. intros r Hr [Hb Hvr]. apply Hex, list_elem_of_fmap. exists r. by rewrite Hb, Hvr.
Qed.

(** *** What was still in the foreground *)

Lemma field_update s i t x : s ∈ BASE_FIELDS →
  field s (UpdateScreenStatInfo i t x) = if bool_decide (x = s) then u32 (field s i + t) else field s i.
Proof.
  intros Hs. unfold UpdateScreenStatInfo, field. destruct (decide (x = s)) as [->|Hne].
  - rewrite !bool_decide_true by done. cbn [fields]. by rewrite lookup_insert_eq.
  - rewrite (bool_decide_false (x = s)) by done. case_bool_decide; [|done]. cbn [fields]. by rewrite lookup_insert_ne.
Qed.

Lemma update_key i t x : package (UpdateScreenStatInfo i t x) = package i ∧ version (UpdateScreenStatInfo i t x) = version i.
Proof. unfold UpdateScreenStatInfo. by case_bool_decide. Qed.

Lemma periods_key l : ∀ i, package (add_periods i l) = package i ∧ version (add_periods i l) = version i.
Proof.
  induction l as [|a [|b l] IH]; intros i; [done..|]. cbn [add_periods] in *. destruct (IH (if ts b >? ts a then UpdateScreenStatInfo i (u32 (ts b - ts a)) (foldStatus a) else i)) as [-> ->].
  destruct (ts b >? ts a); [apply update_key|done].
Qed.

Lemma foreground_key events S E p x :
  package (CaculateForegroundAppUsage events S E p x) = p ∧ version (CaculateForegroundAppUsage events S E p x) = [].
Proof.
  unfold CaculateForegroundAppUsage. destruct events as [|n events]; [apply update_key|].
  destruct (update_key (add_periods (if rawid (List.last (n :: events) n) =? EVENT_SCREEN_STATUS_CHANGED
      then UpdateScreenStatInfo (info_new p []) (u32 (happenTime (List.last (n :: events) n) - S)) (preFoldStatus (List.last (n :: events) n))
      else info_new p []) (reverse (n :: events))) (u32 (E - happenTime n)) (foldStatus n)) as [-> ->].
  edestruct periods_key as [-> ->]. destruct (_ =? _); [apply update_key|done].
Qed.

Section Foreground.
Context (off : Z) (p : bytes) (S E : Z) (HSE : S <= E) (Hbig : E - S < 2 ^ 32) (s : Z) (Hs : s ∈ BASE_FIELDS).

(** From a start or a change within the period to its end. *)
Lemma add_periods_spec : ∀ rest a x pre i n,
  S <= a → in_order ((a, x) :: rest) E → ts pre = a - off → foldStatus pre = x → happenTime pre = a →
  0 <= field s i <= a - S → last (pre :: changes off p x rest) = Some n →
  field s (UpdateScreenStatInfo (add_periods i (pre :: changes off p x rest)) (u32 (E - happenTime n)) (foldStatus n)) =
    field s i + spent s S E ((a, x) :: rest) E.
Proof.
  induction rest as [|[b y] rest IH]; intros a x pre i n Ha Ho Hts Hx Hh Hi Hn.
  - injection Hn as <-. destruct Ho as [Hao _]. cbn [changes add_periods spent]. rewrite field_update, Hx, Hh by done.
    unfold overlap. rewrite (u32_small (E - a)) by (split; lia). destruct (bool_decide (x = s)); [rewrite u32_small by (split; lia)|]; lia.
  - destruct Ho as [Hab Ho]. assert (b <= E) by (apply (in_order_le _ _ _ y Ho); left).
    cbn [changes] in *. change (last (pre :: rec_change off p x (b, y) :: changes off p (b, y).2 rest)) with
      (last (rec_change off p x (b, y) :: changes off p (b, y).2 rest)) in Hn.
    change (add_periods i (pre :: rec_change off p x (b, y) :: changes off p (b, y).2 rest)) with
      (add_periods (if b - off >? ts pre then UpdateScreenStatInfo i (u32 (b - off - ts pre)) (foldStatus pre) else i)
         (rec_change off p x (b, y) :: changes off p y rest)).
    rewrite Hts, Hx. set (i1 := if _ >? _ then _ else i).
    assert (field s i1 = field s i + (if bool_decide (x = s) then b - a else 0)) as Hi1.
    { unfold i1. rewrite Z.gtb_ltb. zcase.
      - rewrite field_update by done. rewrite (u32_small (b - off - (a - off))) by (split; lia).
        destruct (bool_decide (x = s)); [rewrite u32_small by (split; lia)|]; lia.
      - assert (b = a) as -> by lia. destruct (bool_decide _); lia. }
    pose proof (IH b y (rec_change off p x (b, y)) i1 n ltac:(lia) Ho eq_refl eq_refl eq_refl) as HIH.
    rewrite HIH; [|destruct (bool_decide (x = s)); lia|done]. rewrite Hi1.
    cbn [spent]. unfold overlap at 2. destruct (bool_decide (x = s)); lia.
Qed.

(** What [CaculateForegroundAppUsage] makes of events, the oldest first. *)
Lemma foreground_of o l n screen : last (o :: l) = Some n →
  CaculateForegroundAppUsage (reverse (o :: l)) S E p screen =
    UpdateScreenStatInfo
      (add_periods (if rawid o =? EVENT_SCREEN_STATUS_CHANGED then UpdateScreenStatInfo (info_new p []) (u32 (happenTime o - S)) (preFoldStatus o)
                    else info_new p []) (o :: l))
      (u32 (E - happenTime n)) (foldStatus n).
Proof.
  intros Hn. unfold CaculateForegroundAppUsage. rewrite <- head_reverse in Hn. destruct (reverse (o :: l)) as [|n' r] eqn:Er; [done|].
  injection Hn as ->. rewrite <- Er, reverse_involutive.
  assert (List.last (reverse (o :: l)) n = o) as -> by (rewrite reverse_cons; apply List.last_last). done.
Qed.

Lemma session_foreground_late : ∀ rest a x,
  a < S → in_order ((a, x) :: rest) E →
  field s (CaculateForegroundAppUsage (reverse (filter (λ r, S <= happenTime r) (changes off p x rest))) S E p (final_state x rest)) =
    spent s S E ((a, x) :: rest) E.
Proof.
  assert (field s (info_new p []) = 0) as H0 by done.
  induction rest as [|[b y] rest IH]; intros a x Ha Ho.
  - cbn [changes final_state]. rewrite filter_nil. cbn [CaculateForegroundAppUsage reverse rev_append spent]. unfold reverse, rev_append.
    cbn [CaculateForegroundAppUsage]. rewrite field_update, H0 by done. rewrite (u32_small (E - S)) by (split; lia). unfold overlap.
    destruct (bool_decide (x = s)); [rewrite u32_small by (split; lia)|]; lia.
  - destruct Ho as [Hab Ho]. assert (b <= E) by (apply (in_order_le _ _ _ y Ho); left). cbn [changes final_state snd].
    destruct (decide (S <= b)) as [HSb|HSb].
    + rewrite filter_cons_True by done.
      assert (filter (λ r, S <= happenTime r) (changes off p y rest) = changes off p y rest) as ->.
      { clear IH. revert b y HSb Ho Hab H. induction rest as [|[c z] rest IH]; intros b y HSb [Hbc Ho] _ _; [done|]. cbn [changes].
        assert (c <= E) by (apply (in_order_le _ _ _ z Ho); left). rewrite filter_cons_True by (cbn; lia). f_equal. by apply (IH c z); lia || done. }
      destruct (last (rec_change off p x (b, y) :: changes off p y rest)) as [n|] eqn:El; [|by apply last_None in El].
      rewrite (foreground_of _ _ n) by done. cbn [rawid rec_change]. change (EVENT_SCREEN_STATUS_CHANGED =? EVENT_SCREEN_STATUS_CHANGED) with true.
      cbn [happenTime rec_change preFoldStatus fst].
      assert (field s (UpdateScreenStatInfo (info_new p []) (u32 (b - S)) x) = if bool_decide (x = s) then b - S else 0) as Hf.
      { rewrite field_update, H0 by done. rewrite (u32_small (b - S)) by (split; lia). destruct (bool_decide _); [rewrite u32_small by (split; lia)|]; lia. }
      rewrite (add_periods_spec rest b y (rec_change off p x (b, y)) _ n) by (done || lia || (rewrite Hf; destruct (bool_decide _); lia)).
      rewrite Hf. cbn [spent]. unfold overlap at 2. destruct (bool_decide (x = s)); lia.
    + rewrite filter_cons_False by done. rewrite (IH b y) by (done || lia). cbn [spent]. unfold overlap at 2. destruct (bool_decide (x = s)); lia.
Qed.

Lemma session_foreground a x rest screen :
  S <= a → in_order ((a, x) :: rest) E →
  field s (CaculateForegroundAppUsage (reverse (session off p ((a, x) :: rest))) S E p screen) = spent s S E ((a, x) :: rest) E.
Proof.
  intros Ha Ho. cbn [session snd]. destruct (last (rec_start off p (a, x) :: changes off p x rest)) as [n|] eqn:El; [|by apply last_None in El].
  rewrite (foreground_of _ _ n) by done. cbn [rawid rec_start]. change (EVENT_APP_START =? EVENT_SCREEN_STATUS_CHANGED) with false.
  rewrite (add_periods_spec rest a x (rec_start off p (a, x)) _ n) by (done || lia || (change (field s (info_new p [])) with 0; lia)). done.
Qed.

(** The rows read backwards. *)
Lemma read_foreground_changes l : Forall (λ r, rawid (row r) = EVENT_SCREEN_STATUS_CHANGED) l → read_foreground l = Some (row <$> l).
Proof. induction 1 as [|r l Hr Hl IH]; [done|]. cbn [read_foreground]. by rewrite Hr, IH. Qed.

Lemma read_foreground_start l r0 rest :
  Forall (λ r, rawid (row r) = EVENT_SCREEN_STATUS_CHANGED) l → rawid (row r0) = EVENT_APP_START →
  read_foreground (l ++ r0 :: rest) = Some (row <$> (l ++ [r0])).
Proof. intros Hl H0. induction Hl as [|r l Hr Hl IH]; cbn [app read_foreground]; [by rewrite H0|]. by rewrite Hr, IH. Qed.

End Foreground.

(** *** A day's report *)

Section Day.
Context (off tz : Z).

Lemma session_last bundle a x rest : ∃ n, last (session off bundle ((a, x) :: rest)) = Some n ∧ foldStatus n = final_state x rest.
Proof.
  cbn [session snd]. assert (∀ rest x pre, foldStatus pre = x → ∃ n, last (pre :: changes off bundle x rest) = Some n ∧ foldStatus n = final_state x rest) as HG.
  { clear. induction rest as [|m rest IH]; intros x pre Hp; [by exists pre|]. cbn [changes final_state].
    change (last (pre :: rec_change off bundle x m :: changes off bundle m.2 rest)) with (last (rec_change off bundle x m :: changes off bundle m.2 rest)).
    by apply IH. }
  by apply HG.
Qed.

Lemma session_times bundle a x rest now r : in_order ((a, x) :: rest) now → r ∈ session off bundle ((a, x) :: rest) → a <= happenTime r.
Proof.
  cbn [session snd]. intros Ho [->|Hin]%elem_of_cons; [done|]. revert a x Ho Hin. induction rest as [|[b y] rest IH]; intros a x [Hab Ho]; [by intros ?%elem_of_nil|].
  cbn [changes]. intros [->|Hin]%elem_of_cons; [done|]. etrans; [exact Hab|]. by apply (IH b y).
Qed.

Lemma closed_foreground S E t :
  closed (rows t) → Forall (λ r, 0 <= happenTime (row r) <= E) (rows t) → foreground_info S E t = None.
Proof.
  intros Hc Hr. unfold foreground_info, QueryFinalAppInfo. rewrite filter_all by (by apply Forall_forall). unfold closed in Hc.
  destruct (last (rows t)) as [e|]; [|done]. by rewrite Hc.
Qed.

Lemma open_foreground c marks S :
  open_rows off c marks (day_end S) → focusedCounts c = true → Forall (row_ok (day_end S) (lastId (db c))) (rows (db c)) →
  focusedApp c ≠ [] →
  ∃ f, foreground_info S (day_end S) (db c) = Some f ∧ package f = focusedApp c ∧ version f = [] ∧
    ∀ s, s ∈ BASE_FIELDS → field s f = spent s S (day_end S) marks (day_end S).
Proof.
  intros HO Hfc HR Hne. unfold open_rows in HO. rewrite Hfc in HO.
  destruct HO as (tab0 & r0 & sr & a & x & rest & Hm & Hrows & Hcl & H0 & H1 & Hse & Ho & Hf). set (E := day_end S) in *.
  pose proof Ho as Ho2. rewrite Hm in Ho2.
  assert (∀ q, q ∈ r0 :: sr → row q ∈ session off (focusedApp c) marks) as Hin by (intros q Hq; rewrite <- Hse; by apply list_elem_of_fmap_2).
  assert (∀ q, q ∈ rows (db c) → 0 <= happenTime (row q) <= E) as Htime by (intros q Hq; by eapply Forall_forall in HR as (_ & ? & _)).
  destruct (session_last (focusedApp c) a x rest) as (n & Hlast & Hn). rewrite <- Hm, <- Hse, fmap_last in Hlast.
  destruct (last (r0 :: sr)) as [e|] eqn:El; [|done]. injection Hlast as He.
  assert (e ∈ r0 :: sr) as Hein by (by apply last_Some_elem_of).
  destruct (session_fields off (focusedApp c) marks (row e) (Hin e Hein)) as [Hb Hraw].
  assert (HSE : S <= E) by (unfold E, day_end, MILLISECS_PER_DAY; lia).
  assert (Hbig : E - S < 2 ^ 32) by (unfold E, day_end, MILLISECS_PER_DAY; lia).
  unfold foreground_info, QueryFinalAppInfo. rewrite filter_all by exact Htime. rewrite Hrows, last_app, El.
  assert ((rawid (row e) =? EVENT_APP_START) || (rawid (row e) =? EVENT_SCREEN_STATUS_CHANGED) = true) as -> by (by destruct Hraw as [-> | ->]).
  cbn [negb]. rewrite Hb, bool_decide_false by done. unfold QueryForegroundAppsInfo. cbn [package info_new]. rewrite Hrows, filter_app.
  set (F0 := filter _ tab0).
  rewrite (filter_same _ (λ q, S <= happenTime (row q)) (r0 :: sr)); cycle 1.
  { intros q Hq. split; [by intros (_ & ? & _)|]. intros HSq. split_and!; [by eapply session_fields, Hin|done|].
    apply Htime. rewrite Hrows. apply elem_of_app. by right. }
  assert (Forall (λ r, rawid (row r) = EVENT_SCREEN_STATUS_CHANGED) sr) as Hch.
  { apply Forall_forall. intros q Hq. rewrite Hm in Hse. injection Hse as _ Hsr. eapply changes_fields. rewrite <- Hsr. by apply list_elem_of_fmap_2. }
  assert (row r0 = rec_start off (focusedApp c) (a, x) ∧ row <$> sr = changes off (focusedApp c) x rest) as [Hr0 Hsr]
    by (rewrite Hm in Hse; injection Hse as ? ?; done).
  rewrite He, Hn. destruct (decide (S <= a)) as [HSa|HSa].
  - rewrite filter_all; cycle 1.
    { intros q Hq. etrans; [exact HSa|]. eapply session_times; [exact Ho2|]. rewrite <- Hm. by apply Hin. }
    rewrite reverse_app, reverse_cons, <- app_assoc. cbn [app].
    rewrite read_foreground_start; [|by apply Forall_reverse|by rewrite Hr0].
    rewrite <- reverse_cons, fmap_reverse, Hse, Hm. eexists. split; [done|].
    destruct (foreground_key (reverse (session off (focusedApp c) ((a, x) :: rest))) S E (focusedApp c) (final_state x rest)) as [-> ->].
    split_and!; [done..|]. intros s Hs. by apply (session_foreground off (focusedApp c) S E).
  - assert (F0 = []) as ->.
    { apply filter_none. intros q Hq (_ & ? & _). eapply Forall_forall in H0 as [_ ?]; [|done]. lia. }
    rewrite filter_cons_False by (rewrite Hr0; done). cbn [app].
    rewrite read_foreground_changes by (apply Forall_reverse, Forall_forall; intros q [_ Hq]%list_elem_of_filter; by eapply Forall_forall in Hch).
    assert (row <$> filter (λ q, S <= happenTime (row q)) sr = filter (λ q, S <= happenTime q) (row <$> sr)) as Hff
      by exact (@filter_fmap_row (λ q, S <= happenTime q) _ sr).
    rewrite fmap_reverse, Hff, Hsr. eexists. split; [done|].
    destruct (foreground_key (reverse (filter (λ q, S <= happenTime q) (changes off (focusedApp c) x rest))) S E (focusedApp c) (final_state x rest)) as [-> ->].
    split_and!; [done..|]. intros s Hs. rewrite Hm. apply (session_foreground_late off (focusedApp c) S E); (done || lia).
Qed.

Lemma field_add a b s : s ∈ BASE_FIELDS → field s (info_add a b) = u32 (field s a + field s b).
Proof. intros Hs. unfold field at 1, info_add. cbn [fields]. rewrite lookup_table by done. reflexivity. Qed.

(** The report of a day, from the state at its end. *)
Lemma report_of_day c log marks p s S :
  Inv off tz c log (day_end S) marks → midnight tz S = S → p ≠ [] → s ∈ BASE_FIELDS →
  used p s (merge_infos S (day_end S) (db c)) = spent (Some (p, s)) S (day_end S) log (day_end S).
Proof.
  intros (HR & HL & HV & HO & HA) HS Hp Hs. set (E := day_end S) in *.
  assert (Forall (λ r, versionName (row r) = []) (rows (db c))) as Hver by (eapply Forall_impl; [exact HR|]; by intros r (_ & _ & ?)).
  pose proof (stat_used S E (db c) p s Hver Hs) as Hst. pose proof (HA p s S HS ltac:(unfold E; lia) Hs) as HJ. fold E in HJ.
  assert (0 <= spent (Some (p, s)) S E log E < 2 ^ 32) as Hb.
  { pose proof (spent_bound (Some (p, s)) S E log E ltac:(unfold E, day_end, MILLISECS_PER_DAY; lia) HL). unfold E, day_end, MILLISECS_PER_DAY in *. lia. }
  unfold merge_infos. set (m := QueryStatisticEventsInPeriod S E (db c)) in *.
  assert ((if bool_decide (p = focusedApp c) then spent s S E marks E else 0) = 0 → used p s m = spent (Some (p, s)) S E log E) as Hno.
  { intros H0. rewrite Hst. rewrite H0, Z.add_0_r in HJ. rewrite <- HJ. by apply u32_small. }
  destruct (focusedCounts c) eqn:Hfc.
  - destruct (decide (focusedApp c = [])) as [H0|H0].
    { assert (p ≠ focusedApp c) by congruence. unfold foreground_info.
      assert (∀ e, QueryFinalAppInfo E (db c) = Some e → bundleName (row e) = []) as Hfin.
      { intros e He. pose proof HO as HO'. unfold open_rows in HO'. rewrite Hfc in HO'.
        destruct HO' as (tab0 & r0 & sr & a & x & rest & Hm & Hrows & _ & _ & _ & Hse & _).
        unfold QueryFinalAppInfo in He. rewrite filter_all in He by (intros q Hq; by eapply Forall_forall in HR as (_ & ? & _)).
        rewrite Hrows, last_app in He. destruct (last (r0 :: sr)) as [e'|] eqn:El; [|by apply last_None in El]. injection He as ->.
        rewrite <- H0. eapply (session_fields off _ marks). rewrite <- Hse. apply list_elem_of_fmap_2. by apply last_Some_elem_of. }
      destruct (QueryFinalAppInfo E (db c)) as [e|]; [|apply Hno; by rewrite bool_decide_false].
      rewrite (Hfin e eq_refl). destruct (negb _); apply Hno; by rewrite bool_decide_false. }
    destruct (open_foreground c marks S HO Hfc HR H0) as (f & Hf & Hpf & Hvf & Hff). fold E in Hf, Hff. rewrite Hf, Hpf, Hvf, app_nil_r.
    unfold used. destruct (decide (p = focusedApp c)) as [->|Hne].
    + rewrite lookup_insert_eq. cbn [fmap option_fmap option_map default Datatypes.id]. rewrite bool_decide_true in HJ by done.
      unfold used in Hst. destruct (m !! focusedApp c) as [i|]; cbn [fmap option_fmap option_map default Datatypes.id] in Hst.
      * rewrite field_add, Hst, Hff by done. rewrite HJ in Hb |- *. unfold u32. rewrite Z.add_mod_idemp_l by done. by apply Z.mod_small.
      * rewrite Hff by done. pose proof (spent_bound s S E marks E ltac:(unfold E, day_end, MILLISECS_PER_DAY; lia)) as Hbm.
        assert (in_order marks E) as Hmo by (unfold open_rows in HO; rewrite Hfc in HO; by destruct HO as (?&?&?&?&?&?&?&?&?&?&?&?&?&?)).
        specialize (Hbm Hmo). unfold u32 in Hst. assert (0 <= counted (focusedApp c) s S E (rows (db c)) + spent s S E marks E < 2 ^ 32) as H2 by lia.
        rewrite HJ. symmetry in Hst. apply Z.mod_divide in Hst as [k Hk]; [|done].
        assert (E - S < 2 ^ 31) by (unfold E, day_end, MILLISECS_PER_DAY; lia). nia.
    + rewrite lookup_insert_ne by done. apply Hno. by rewrite bool_decide_false.
  - pose proof HO as HO'. unfold open_rows in HO'. rewrite Hfc in HO'. destruct HO' as [-> Hcl].
    rewrite closed_foreground; [|done|eapply Forall_impl; [exact HR|]; by intros r (_ & ? & _)]. apply Hno. by destruct (bool_decide _).
Qed.

(** *** What happens after the day does not change its report *)

Lemma spent_late {A} `{EqDecision A} (v : A) S E late : Forall (λ e, E < e.1) late → spent v S E late E = 0.
Proof.
  induction 1 as [|[t w] late Ht Hl IH]; [done|]. cbn [spent]. rewrite IH. cbn in Ht. destruct (bool_decide _); [|done].
  unfold overlap. lia.
Qed.

Lemma spent_cut_late {A} `{EqDecision A} (v : A) S E log late :
  Forall (λ e, E < e.1) late → spent v S E (log ++ late) E = spent v S E log E.
Proof.
  intros Hl. induction log as [|[t w] log IH]; cbn [app spent]; [by apply spent_late|]. rewrite IH. destruct (bool_decide _); [|done].
  destruct log as [|[t' w'] log]; [|done]. destruct late as [|[t' w'] late]; [done|]. apply Forall_cons in Hl as [Ht _]. cbn in *.
  unfold overlap. lia.
Qed.

Lemma late_rows c m : ∃ new, rows (db (step off tz c m)) = rows (db c) ++ new ∧ Forall (λ r, happenTime (row r) = m.1) new.
Proof.
  destruct m as [t e]. unfold step. cbn [fst snd].
  assert (∃ new, rows (db (ProcessSceenStatusChangedEvent (clock off tz t) t e c)) = rows (db c) ++ new ∧ Forall (λ r, happenTime (row r) = t) new) as Hs.
  { unfold ProcessSceenStatusChangedEvent. destruct (screen_change e c) as [c1|] eqn:E1; [|exists []; by rewrite app_nil_r].
    assert (db c1 = db c) as Hdb.
    { destruct e as [| [?|] | | | |]; cbn in E1; try done; injection E1 as <-; try done. unfold UpdateMultiWindowInfos. by destruct (negb _). }
    destruct (negb _); [exists []; by rewrite Hdb, app_nil_r|]. destruct (_ =? _); [exists []; by rewrite Hdb, app_nil_r|].
    cbn [set_db db AddAppEvent rows]. rewrite Hdb. eexists. split; [done|]. by apply Forall_singleton. }
  destruct e as [w b| | | | |]; cbn [ProcessEvent]; [|exact Hs..|exists []; by rewrite app_nil_r].
  unfold ProcessFocusWindowEvent. set (c1 := if focusedCounts c then _ else c).
  assert (∃ new, rows (db c1) = rows (db c) ++ new ∧ Forall (λ r, happenTime (row r) = t) new) as (new & Hr & Hn).
  { unfold c1. destruct (focusedCounts c); [|exists []; by rewrite app_nil_r]. cbn. rewrite <- app_assoc. eexists. split; [done|]. by repeat constructor. }
  destruct (w <? _); cbn; rewrite Hr; [rewrite <- app_assoc|]; eexists; (split; [done|]); [|done].
  apply Forall_app. split; [done|]. by apply Forall_singleton.
Qed.

Lemma merge_late S E t t' new :
  rows t' = rows t ++ new → Forall (λ r, E < happenTime (row r)) new → merge_infos S E t' = merge_infos S E t.
Proof.
  intros Ht Hn. rewrite Forall_forall in Hn.
  assert (QueryStatisticEventsInPeriod S E t' = QueryStatisticEventsInPeriod S E t) as E1.
  { unfold QueryStatisticEventsInPeriod. rewrite Ht, filter_app, (filter_none _ new), app_nil_r; [done|].
    intros r Hr (_ & _ & ?). specialize (Hn r Hr). lia. }
  unfold merge_infos. rewrite E1.
  assert (foreground_info S E t' = foreground_info S E t) as ->; [|done].
  unfold foreground_info, QueryFinalAppInfo. rewrite Ht, filter_app, (filter_none _ new), app_nil_r; cycle 1.
  { intros r Hr (_ & ?). specialize (Hn r Hr). lia. }
  destruct (last _) as [e|]; [|done]. destruct (negb _); [done|]. destruct (bool_decide _); [done|]. f_equal.
  unfold QueryForegroundAppsInfo. rewrite Ht, filter_app, (filter_none _ new), app_nil_r; [done|].
  intros r Hr (_ & _ & ?). specialize (Hn r Hr). lia.
Qed.

Lemma run_late S E ms : ∀ c, Forall (λ m, E < m.1) ms →
  merge_infos S E (db (run off tz c ms)) = merge_infos S E (db c) ∧ Forall (λ e, E < e.1) (views off tz c ms).
Proof.
  induction ms as [|m ms IH]; intros c Hm; [done|]. apply Forall_cons in Hm as [Hm Hms]. cbn [run foldl views].
  destruct (IH (step off tz c m) Hms) as [H1 H2]. destruct (late_rows c m) as (new & Hr & Hn). split; [|by constructor].
  unfold run in H1. rewrite H1. eapply merge_late; [exact Hr|]. eapply Forall_impl; [exact Hn|]. cbn. intros r ->. done.
Qed.

Lemma run_app c l l' : run off tz c (l ++ l') = run off tz (run off tz c l) l'.
Proof. unfold run. apply foldl_app. Qed.

Lemma views_app l l' : ∀ c, views off tz c (l ++ l') = views off tz c l ++ views off tz (run off tz c l) l'.
Proof. induction l as [|m l IH]; intros c; [done|]. cbn [app views run foldl]. by rewrite IH. Qed.

Lemma from_split E ms : ∀ t, from t ms → ∃ l l', ms = l ++ l' ∧ from t l ∧ Forall (λ m, m.1 <= E) l ∧ Forall (λ m, E < m.1) l'.
Proof.
  induction ms as [|m ms IH]; intros t Hf; [by exists [], []|]. destruct Hf as [Ht Hf]. destruct (decide (m.1 <= E)) as [Hm|Hm].
  - destruct (IH _ Hf) as (l & l' & -> & Hl & HF & HF'). exists (m :: l), l'. split_and!; [done|by split|by constructor|done].
  - exists [], (m :: ms). split_and!; [done..|]. constructor; [lia|]. clear IH Ht. assert (E < m.1) as HE by lia. clear Hm t. revert m Hf HE.
    induction ms as [|m' ms IH]; intros m Hf HE; [done|]. destruct Hf as [Hm' Hf]. constructor; [lia|]. apply (IH m'); [done|lia].
Qed.

(** The state in which nothing was recorded yet and no application that counts has the focus. *)
Definition fresh (displayMode vhMode : Z) (focus : bytes) (windows : gmap bytes Z) : FoldEventCacher :=
  FoldEventCacher_new displayMode vhMode (focus, false) windows Table_new.

Lemma Inv_fresh dm vh b w : Inv off tz (fresh dm vh b w) [] 0 [].
Proof.
  split_and!; try done. intros p s S HS Hn Hs. cbn. by destruct (bool_decide _).
Qed.

Lemma merged_key S E t k i : Forall (λ r, versionName (row r) = []) (rows t) → merge_infos S E t !! k = Some i → package i = k.
Proof.
  intros Hv. unfold merge_infos.
  assert (∀ k i, QueryStatisticEventsInPeriod S E t !! k = Some i → package i = k) as Hk.
  { intros k' i'. rewrite stat_lookup by done. case_bool_decide; [|done]. by intros [= <-]. }
  destruct (foreground_info S E t) as [f|] eqn:Ef; [|apply Hk].
  assert (version f = []) as Hvf.
  { unfold foreground_info in Ef. destruct (QueryFinalAppInfo E t) as [e|]; [|done]. destruct (negb _); [done|]. destruct (bool_decide _); [done|].
    injection Ef as <-. unfold QueryForegroundAppsInfo. destruct (read_foreground _) as [ev|]; [|done]. apply foreground_key. }
  rewrite Hvf, app_nil_r. intros [[<- <-]|[_ ?]]%lookup_insert_Some; [|by apply Hk].
  destruct (_ !! package f) as [i'|] eqn:Ei; [|done]. cbn. by apply Hk.
Qed.

End Day.
(** ** The claims *)

Section Claims.
Context (off tz : Z).

(** How long, on the day that begins at [S], an application had the focus with
    the screen in state [s]. *)
Definition focus_time (c : FoldEventCacher) (ms : list (Z * ScreenEvent)) (S : Z) (p : bytes) (s : Z) : Z :=
  spent (Some (p, s)) S (day_end S) (views off tz c ms) (day_end S).

Lemma merged_exact dm vh b w ms S :
  from 0 ms → midnight tz S = S → 0 <= S →
  let c := fresh dm vh b w in let m := merge_infos S (day_end S) (db (run off tz c ms)) in
  (∀ p s, p ≠ [] → s ∈ BASE_FIELDS → used p s m = focus_time c ms S p s) ∧
  (∀ k i, m !! k = Some i → package i = k).
Proof.
  intros Hf HS HS0 c m. destruct (from_split (day_end S) ms 0 Hf) as (l & l' & -> & Hfl & Hle & Hlate).
  destruct (Inv_run off tz l c [] 0 [] (Inv_fresh off tz dm vh b w) ltac:(lia) Hfl) as (marks & now & HI & Hn & Hbound).
  assert (0 <= day_end S) as HE by (unfold day_end, MILLISECS_PER_DAY; lia).
  apply (Inv_later off tz _ _ now (day_end S)) in HI; [|by apply Hbound].
  destruct (run_late off tz S (day_end S) l' (run off tz c l) Hlate) as [Hm Hv]. subst m. rewrite run_app, Hm. split.
  - intros p s Hp Hs. rewrite (report_of_day off tz _ _ marks p s S HI HS Hp Hs). unfold focus_time. rewrite views_app.
    symmetry. by apply spent_cut_late.
  - intros k i. apply merged_key. destruct HI as (HR & _). eapply Forall_impl; [exact HR|]. by intros r (_ & _ & ?).
Qed.

Context `{SO : Sorter} (GetAppVersion : bytes → bytes).

(** C9: the report of a day is exact over the states of the screen the report
    knows ([BASE_FIELDS]), for a cacher that began with an empty database and no
    counted application in focus ([fresh]; otherwise
    [restart_counts_from_midnight]) and whose events are processed at the time
    they carry, in order ([from], [run]; otherwise [late_exit_not_counted]):
    whatever windows took the focus and however the screen was folded, turned and
    divided, on that day, before and after, every application in the report is
    given, for each known state of the screen, the time of the day during which
    it had the focus in that state, and their sum as its use; an application
    whose sum is not zero is in the report, unless more than a hundred were used.
    Time in a state outside [BASE_FIELDS] is in no column and not in the sum. *)
Theorem usage_report_exact dm vh b w ms S :
  from 0 ms → midnight tz S = S → 0 <= S →
  let c := fresh dm vh b w in
  let t := db (run off tz c ms) in
  let report := (Create GetAppVersion (S + MILLISECS_PER_DAY) t).1 in
  let total p := u32 (sum_of (focus_time c ms S p) BASE_FIELDS) in
  (∀ i, i ∈ report → package i ≠ [] →
    (∀ s, s ∈ BASE_FIELDS → field s i = focus_time c ms S (package i) s) ∧ usage i = total (package i) ∧ version i = GetAppVersion (package i)) ∧
  (∀ p, p ≠ [] → total p ≠ 0 → (size (merge_infos S (day_end S) t) <= 100)%nat → ∃ i, i ∈ report ∧ package i = p).
Proof.
  intros Hf HS HS0 c t report total. destruct (merged_exact dm vh b w ms S Hf HS HS0) as [Hex Hkey]. fold c t in Hex, Hkey.
  set (m := merge_infos S (day_end S) t) in *. set (infos := finish_info GetAppVersion <$> (map_to_list m).*2).
  assert (report = filter (λ i, usage i ≠ 0) (take MAX_APP_USAGE_SIZE (std_sort (λ a b, usage a >? usage b) infos))) as Hrep.
  { unfold report, Create. cbn [fst]. unfold GetAppUsageInfo. unfold MILLISECS_PER_DAY.
    replace (if S + 86400000 >? 86400000 then S + 86400000 - 86400000 else 0) with S by (rewrite Z.gtb_ltb; zcase; lia).
    replace (if S + 86400000 >? 1 then S + 86400000 - 1 else 0) with (day_end S) by (rewrite Z.gtb_ltb; unfold day_end, MILLISECS_PER_DAY; zcase; lia). done. }
  assert (∀ i, i ∈ infos ↔ ∃ k i0, m !! k = Some i0 ∧ i = finish_info GetAppVersion i0) as Hin.
  { intros i. unfold infos. rewrite <- list_fmap_compose, list_elem_of_fmap. split.
    - intros ([k i0] & -> & Hk). apply elem_of_map_to_list in Hk. by exists k, i0.
    - intros (k & i0 & Hk & ->). exists (k, i0). split; [done|]. by apply elem_of_map_to_list. }
  assert (∀ k i0, m !! k = Some i0 → k ≠ [] → (∀ s, s ∈ BASE_FIELDS → field s i0 = focus_time c ms S k s) ∧ GetAppUsage i0 = total k) as Hone.
  { intros k i0 Hk Hne. assert (∀ s, s ∈ BASE_FIELDS → field s i0 = focus_time c ms S k s) as Hfs.
    { intros s Hs. rewrite <- (Hex k s Hne Hs). unfold used. by rewrite Hk. }
    split; [done|]. unfold GetAppUsage, total. f_equal. by apply sum_of_ext. }
  rewrite Hrep. split.
  - intros i [_ Hi]%list_elem_of_filter Hne. apply (sublist_elem_of _ _ _ Hi) in Hi || apply elem_of_take in Hi as (j & Hj & _).
    apply list_elem_of_lookup_2 in Hj. rewrite sort_perm in Hj. apply Hin in Hj as (k & i0 & Hk & ->).
    cbn [package finish_info usage version] in *. pose proof (Hkey _ _ Hk) as Hpk. rewrite Hpk in Hne |- *. destruct (Hone _ _ Hk Hne) as [Hfs Hu].
    split_and!; [exact Hfs|exact Hu|done].
  - intros p Hp Ht Hsz. destruct (m !! p) as [i0|] eqn:Em.
    + destruct (Hone _ _ Em Hp) as [Hfs Hu]. exists (finish_info GetAppVersion i0). split; [|by cbn; apply Hkey].
      apply list_elem_of_filter. split; [cbn; by rewrite Hu|]. rewrite take_ge.
      * rewrite sort_perm. apply Hin. by exists p, i0.
      * rewrite (Permutation_length (sort_perm _ _)). unfold infos. rewrite !length_fmap, length_map_to_list. exact Hsz.
    + exfalso. apply Ht. unfold total. rewrite sum_of_zero; [done|]. intros s Hs. rewrite <- (Hex p s Hp Hs). unfold used. by rewrite Em.
Qed.

End Claims.

(** ** Where the counts are wrong *)

(** An application that had the focus when the cacher was made has no start: when
    it loses the focus a minute later, at 10:01, the ten hours since midnight are
    counted as its use. *)
Lemma restart_counts_from_midnight :
  let c := FoldEventCacher_new 2 0 (str "com.a", true) ∅ Table_new in
  let ten := 10 * 3600000 in
  (λ r, (rawid (row r), dur (status FOLD PORTRAIT FULL) (columns r))) <$>
    rows (db (step 0 0 c (ten + 60000, FocusWindow 2001 (str "launcher")))) =
  [(EVENT_APP_EXIT, 0); (EVENT_COUNT_DURATION, ten + 60000)].
Proof. vm_compute. reflexivity. Qed.

(** A session that ends just before midnight and whose end is processed after it
    is not counted at all. *)
Lemma late_exit_not_counted :
  let c := ProcessEvent (mkClock 0 82800000 0) 82800000 (FocusWindow 1 (str "com.a")) (FoldEventCacher_new 2 0 (str "x", false) ∅ Table_new) in
  let c := ProcessEvent (mkClock 3600001 86400001 86400000) 86399999 (FocusWindow 2001 (str "launcher")) c in
  (λ r, (rawid (row r), dur (status FOLD PORTRAIT FULL) (columns r))) <$> rows (db c) =
  [(EVENT_APP_START, 0); (EVENT_APP_EXIT, 0); (EVENT_COUNT_DURATION, 0)].
Proof. vm_compute. reflexivity. Qed.

(** ** Witness *)

(** Across midnight: the application has the focus from 23:00 to 02:00, and the
    screen is opened at 01:00. *)
Definition sample_moments : list (Z * ScreenEvent) :=
  [(82800000, FocusWindow 1 (str "com.a")); (90000000, FoldState (Some 1)); (93600000, FocusWindow 2001 (str "launcher"))].

Lemma usage_report_exact_witness :
  let t := db (run 0 0 (fresh 2 0 (str "x") ∅) sample_moments) in
  ∃ i, i ∈ (Create (SO := Database.Database.merge_sorter) (λ _, str "1.0") (86400000 + MILLISECS_PER_DAY) t).1 ∧ package i = str "com.a" ∧
    field (status FOLD PORTRAIT FULL) i = 3600000 ∧ field (status EXPAND PORTRAIT FULL) i = 3600000 ∧ usage i = 7200000.
Proof.
  destruct (usage_report_exact 0 0 (SO := Database.Database.merge_sorter) (λ _, str "1.0") 2 0 (str "x") ∅ sample_moments 86400000) as [H1 H2];
    [cbn; lia|done|lia|].
  destruct (H2 (str "com.a")) as (i & Hi & Hp); [done|by vm_compute|vm_compute; lia|].
  exists i. assert (package i ≠ []) as Hne by by rewrite Hp. destruct (H1 i Hi Hne) as (Hf & Hu & _).
  split_and!; [exact Hi|exact Hp| | |].
  - rewrite Hf by (vm_compute; repeat (left + right)). rewrite Hp. by vm_compute.
  - rewrite Hf by (vm_compute; repeat (left + right)). rewrite Hp. by vm_compute.
  - rewrite Hu, Hp. by vm_compute.
Defined.

End FoldFacts.
