(* ===== verification/LogStore.v ===== *)
(** * LogStore: a folder of log files with a quota

    Models base/logstore/log_store_ex.cpp and log_file.h: files are listed in an
    order chosen by the owner of the store and removed from its end, half of them
    or all above a number to keep, when the folder has reached its size before a
    new file is made. *)

From S2P Require Import Prelude Text DbFile Database.
From stdpp Require Import base gmap list numbers strings sorting.

Local Open Scope Z_scope.

Module LogStore.
Import Database.Database (Sorter, std_sort, sort_perm, sort_sorted, key_order).
Import DbFile.DbFile.

(** ** Files *)

Record File := mkFile { content : bytes; mtime : Z }.

(** The regular files by their paths. *)
Abbreviation Files := (gmap bytes File).

(** A folder with one slash at its end, as the system takes any number of them. *)
Definition IncludeTrailingPathDelimiter (dir : bytes) : bytes := if bool_decide (last dir = Some 47) then dir else dir ++ str "/".
Definition in_folder (dir path : bytes) : bool := bool_decide (IncludeTrailingPathDelimiter dir `prefix_of` path).

(** [FileUtil::GetDirFiles], in no order, and [FileUtil::GetFolderSize], where every
    file has one name (the code counts a file with several names once). *)
Definition GetDirFiles (dir : bytes) (d : Files) : list bytes := filter (λ p, in_folder dir p = true) (map_to_list d).*1.
Definition size_of (d : Files) (path : bytes) : Z := default 0 ((λ f, Zlen (content f)) <$> d !! path).
Definition GetFolderSize (dir : bytes) (d : Files) : Z := u64 (sum_of (size_of d) (GetDirFiles dir d)).

(** ** The store *)

Record LogFile := mkLogFile { path_ : bytes; mtime_ : Z; size_ : Z }.
Definition LogFile_of (d : Files) (path : bytes) : LogFile := mkLogFile path (default 0 (mtime <$> d !! path)) (size_of d path).

(** [LogFile::operator<]. *)
Definition LogFile_lt (a b : LogFile) : bool := mtime_ a <? mtime_ b.

Definition DEFAULT_LOGSTORE_SIZE : Z := 1024 * 1024 * 10.
Definition DEFAULT_LOGSTORE_MIN_KEEP_FILE_COUNT : Z := 100.

Record LogStoreEx := mkLogStore {
  autoDeleteFiles_ : bool; maxSize_ : Z; minKeepingNumberOfFiles_ : Z;
  comparator_ : option (LogFile → LogFile → bool); dir_ : bytes
}.

Definition LogStoreEx_new (path : bytes) (autoDeleteFiles : bool) : LogStoreEx :=
  mkLogStore autoDeleteFiles DEFAULT_LOGSTORE_SIZE DEFAULT_LOGSTORE_MIN_KEEP_FILE_COUNT None path.
Definition SetLogFileComparator (c : LogFile → LogFile → bool) (s : LogStoreEx) : LogStoreEx :=
  mkLogStore (autoDeleteFiles_ s) (maxSize_ s) (minKeepingNumberOfFiles_ s) (Some c) (dir_ s).
Definition SetMaxSize (size : Z) (s : LogStoreEx) : LogStoreEx :=
  mkLogStore (autoDeleteFiles_ s) (u32 size) (minKeepingNumberOfFiles_ s) (comparator_ s) (dir_ s).
Definition SetMinKeepingFileNumber (number : Z) (s : LogStoreEx) : LogStoreEx :=
  mkLogStore (autoDeleteFiles_ s) (maxSize_ s) (u32 number) (comparator_ s) (dir_ s).

Section Store.
Context `{SO : Sorter}.

Definition GetLogFiles (s : LogStoreEx) (d : Files) : list LogFile :=
  std_sort (default LogFile_lt (comparator_ s)) (LogFile_of d <$> GetDirFiles (dir_ s) d).

Definition GetLogFiles_filtered (keep : LogFile → bool) (s : LogStoreEx) (d : Files) : list LogFile :=
  filter (λ f, keep f = true) (GetLogFiles s d).

(** [DoDeleteLogFiles]: from the end of the list. *)
Fixpoint delete_loop (reversed : list LogFile) (removeFileNums deleteCount : Z) (d : Files) : Files :=
  match reversed with
  | [] => d
  | it :: reversed =>
      if deleteCount >=? removeFileNums then d
      else delete_loop reversed removeFileNums (deleteCount + 1) (delete (path_ it) d)
  end.

Definition DoDeleteLogFiles (fileList : list LogFile) (removeFileNums : Z) (d : Files) : Files :=
  delete_loop (reverse fileList) removeFileNums 0 d.

Definition ClearOldestFilesIfNeeded (s : LogStoreEx) (d : Files) : Files :=
  if GetFolderSize (dir_ s) d <? maxSize_ s then d else
  let fileList := GetLogFiles s d in
  let n := Zlen fileList in
  let removeFileNumber := if n <? minKeepingNumberOfFiles_ s then u32 (n / 2) else u32 (n - minKeepingNumberOfFiles_ s) in
  DoDeleteLogFiles fileList removeFileNumber d.

Definition ClearSameLogFilesIfNeeded (keep : LogFile → bool) (maxCount : Z) (s : LogStoreEx) (d : Files) : Files :=
  let fileList := GetLogFiles_filtered keep s d in
  DoDeleteLogFiles fileList (if Zlen fileList >? maxCount then u32 (Zlen fileList - maxCount) else 0) d.

(** [CreateLogFile]: [opened] is the descriptor, negative when the file cannot be
    made; [now] is the clock. *)
Definition CreateLogFile (opened now : Z) (name : bytes) (s : LogStoreEx) (d : Files) : Z * Files :=
  let d := if autoDeleteFiles_ s then ClearOldestFilesIfNeeded s d else d in
  (opened, if opened <? 0 then d else <[IncludeTrailingPathDelimiter (dir_ s) ++ name := mkFile [] now]> d).

(** [RemoveLogFile], given the real path. *)
Definition RemoveLogFile (realPath : option bytes) (name : bytes) (s : LogStoreEx) (d : Files) : bool * Files :=
  match realPath with None => (false, d) | Some _ => (true, delete (IncludeTrailingPathDelimiter (dir_ s) ++ name) d) end.

(** [FreezeManager::ReduceLogFileListSize]: half of a list that is too long. *)
Definition ReduceLogFileListSize (fileList : list LogFile) (maxNum : Z) (d : Files) : Files :=
  if (maxNum <? 0) || (Zlen fileList <=? maxNum) then d
  else delete_loop (reverse fileList) (u32 (Zlen fileList / 2)) 0 d.

End Store.

(** ** Removing from the end *)

Section Facts.

Lemma delete_loop_spec (l : list LogFile) (n k : Z) (d : Files) :
  0 <= k <= n → delete_loop l n k d = foldl (λ d f, delete (path_ f) d) d (take (Z.to_nat (n - k)) l).
Proof.
  revert k d. induction l as [|f l IH]; intros k d Hk; cbn [delete_loop]; [by rewrite take_nil|].
  destruct (Z.geb_spec k n).
  - by replace (Z.to_nat (n - k)) with 0%nat by lia.
  - rewrite IH by lia. replace (Z.to_nat (n - k)) with (S (Z.to_nat (n - (k + 1)))) by lia. done.
Qed.

Lemma foldl_delete_lookup (l : list LogFile) (p : bytes) (d : Files) :
  foldl (λ d f, delete (path_ f) d) d l !! p = if decide (p ∈ path_ <$> l) then None else d !! p.
Proof.
  revert d. induction l as [|f l IH]; intros d; [done|]. cbn [foldl fmap list_fmap]. rewrite IH.
  destruct (decide (p ∈ path_ <$> l)) as [H|H].
  - rewrite decide_True; [done|]. by apply elem_of_cons; right.
  - destruct (decide (p = path_ f)) as [->|Hp].
    + rewrite lookup_delete_eq, decide_True; [done|]. apply elem_of_cons. by left.
    + rewrite lookup_delete_ne by done. rewrite decide_False; [done|]. intros [?|?]%elem_of_cons; done.
Qed.

(** What is left is the front of the list. *)
Lemma delete_from_end (fileList : list LogFile) (n : Z) (d : Files) (p : bytes) :
  0 <= n <= Zlen fileList → NoDup (path_ <$> fileList) → p ∈ path_ <$> fileList →
  DoDeleteLogFiles fileList n d !! p =
    if decide (p ∈ path_ <$> take (Z.to_nat (Zlen fileList - n)) fileList) then d !! p else None.
Proof.
  intros Hn Hd Hp. unfold DoDeleteLogFiles. rewrite delete_loop_spec, Z.sub_0_r, foldl_delete_lookup by lia.
  set (m := Z.to_nat (Zlen fileList - n)).
  assert (take (Z.to_nat n) (reverse fileList) = reverse (drop m fileList)) as ->.
  { rewrite <- (take_drop m fileList) at 1. rewrite reverse_app, take_app_length'; [done|].
    rewrite length_reverse, length_drop. unfold m, Zlen in *. lia. }
  rewrite <- (take_drop m fileList), fmap_app in Hd, Hp. apply NoDup_app in Hd as (_ & Hdis & _).
  rewrite fmap_reverse. destruct (decide (p ∈ path_ <$> take m fileList)) as [H|H].
  - rewrite decide_False; [done|]. rewrite elem_of_reverse. intros H'. by eapply Hdis.
  - rewrite decide_True; [done|]. apply elem_of_app in Hp as [?|?]; [done|]. by apply elem_of_reverse.
Qed.

Lemma delete_keeps_others (fileList : list LogFile) (n : Z) (d : Files) (p : bytes) :
  0 <= n → p ∉ path_ <$> fileList → DoDeleteLogFiles fileList n d !! p = d !! p.
Proof.
  intros Hn Hp. unfold DoDeleteLogFiles. rewrite delete_loop_spec, foldl_delete_lookup by lia.
  rewrite decide_False; [done|]. intros H. apply Hp. apply list_elem_of_fmap in H as (f & -> & Hf).
  apply list_elem_of_fmap. exists f. split; [done|]. apply elem_of_take in Hf as (i & Hi & _).
  apply elem_of_reverse. by eapply list_elem_of_lookup_2.
Qed.

Context `{SO : Sorter}.

Lemma elem_of_dir_files (dir : bytes) (d : Files) (p : bytes) : p ∈ GetDirFiles dir d ↔ in_folder dir p = true ∧ is_Some (d !! p).
Proof.
  unfold GetDirFiles. rewrite list_elem_of_filter, list_elem_of_fmap. split.
  - intros [Hi ([q f] & -> & Hq)]. apply elem_of_map_to_list in Hq. split; [done|by eexists].
  - intros [Hi [f Hf]]. split; [done|]. exists (p, f). split; [done|by apply elem_of_map_to_list].
Qed.

Lemma dir_files_nodup (dir : bytes) (d : Files) : NoDup (GetDirFiles dir d).
Proof. apply NoDup_filter, NoDup_fst_map_to_list. Qed.

Lemma log_files_paths (s : LogStoreEx) (d : Files) : path_ <$> GetLogFiles s d ≡ₚ GetDirFiles (dir_ s) d.
Proof.
  unfold GetLogFiles. rewrite sort_perm. assert (∀ l, path_ <$> (LogFile_of d <$> l) = l) as ->; [|done].
  intros l. induction l as [|x l IH]; [done|]. cbn. by f_equal.
Qed.

Lemma log_files_of (s : LogStoreEx) (d : Files) (f : LogFile) : f ∈ GetLogFiles s d → f = LogFile_of d (path_ f).
Proof. unfold GetLogFiles. rewrite sort_perm. intros (p & -> & _)%list_elem_of_fmap. done. Qed.

(** The order of a store. *)
Definition order_of (s : LogStoreEx) : LogFile → LogFile → bool := default LogFile_lt (comparator_ s).

Lemma log_files_sorted (s : LogStoreEx) (d : Files) :
  key_order (order_of s) → StronglySorted (λ a b, order_of s b a = false) (GetLogFiles s d).
Proof. intros Ho. exact (sort_sorted _ _ Ho). Qed.

(** The freeze and warning stores: the latest written file first. *)
Definition newest_first (s : LogStoreEx) : Prop := comparator_ s = Some (λ lhs rhs, LogFile_lt rhs lhs).

Lemma newest_order : key_order (λ lhs rhs, LogFile_lt rhs lhs).
Proof.
  exists (λ f, - mtime_ f). intros a b. unfold LogFile_lt.
  destruct (Z.ltb_spec (mtime_ b) (mtime_ a)), (Z.ltb_spec (- mtime_ a) (- mtime_ b)); lia.
Qed.

Lemma newest_first_order (s : LogStoreEx) : newest_first s → key_order (order_of s).
Proof. unfold order_of. intros ->. exact newest_order. Qed.

(** The order the default is. *)
Lemma default_order : key_order LogFile_lt.
Proof. by exists mtime_. Qed.

(** How many files stay. *)
Definition kept (s : LogStoreEx) (n : Z) : Z :=
  if n <? minKeepingNumberOfFiles_ s then n - n / 2 else minKeepingNumberOfFiles_ s.

Lemma kept_range (s : LogStoreEx) (n : Z) : 0 <= minKeepingNumberOfFiles_ s → 0 <= n → 0 <= kept s n <= n ∧ 0 <= n / 2 <= n.
Proof.
  intros Hm Hn. assert (0 <= n / 2 <= n) by (split; [apply Z.div_pos|apply Z.div_le_upper_bound]; lia).
  unfold kept. zcase; lia.
Qed.

Lemma log_files_count (s : LogStoreEx) (d : Files) : Zlen (GetLogFiles s d) = Zlen (GetDirFiles (dir_ s) d).
Proof. unfold Zlen. rewrite <- (log_files_paths s d). by rewrite length_fmap. Qed.

Lemma log_files_nodup (s : LogStoreEx) (d : Files) : NoDup (path_ <$> GetLogFiles s d).
Proof. rewrite log_files_paths. apply dir_files_nodup. Qed.

Lemma elem_of_log_files (s : LogStoreEx) (d : Files) (p : bytes) :
  p ∈ path_ <$> GetLogFiles s d ↔ in_folder (dir_ s) p = true ∧ is_Some (d !! p).
Proof. rewrite log_files_paths. apply elem_of_dir_files. Qed.

(** A folder at its size keeps the front of the list. *)
Lemma clear_lookup (s : LogStoreEx) (d : Files) :
  0 <= minKeepingNumberOfFiles_ s → maxSize_ s <= GetFolderSize (dir_ s) d → Zlen (GetLogFiles s d) < 2 ^ 32 →
  let k := kept s (Zlen (GetLogFiles s d)) in
  ∀ p, ClearOldestFilesIfNeeded s d !! p = if decide (p ∈ path_ <$> drop (Z.to_nat k) (GetLogFiles s d)) then None else d !! p.
Proof.
  intros Hm Hsz Hbig k p. unfold ClearOldestFilesIfNeeded. rewrite (proj2 (Z.ltb_ge _ _)) by done.
  set (files := GetLogFiles s d) in *. pose proof (Zlen_nonneg files) as Hn. destruct (kept_range s _ Hm Hn) as [Hk Hh].
  assert ((if Zlen files <? minKeepingNumberOfFiles_ s then u32 (Zlen files / 2) else u32 (Zlen files - minKeepingNumberOfFiles_ s)) =
    Zlen files - k) as -> by (unfold k, kept in *; zcase; rewrite u32_small by (unfold is_u; lia); lia).
  pose proof (log_files_nodup s d) as Hnd. fold files in Hnd. destruct (decide (p ∈ path_ <$> files)) as [Hp|Hp].
  - rewrite delete_from_end by (done || lia). replace (Zlen files - (Zlen files - k)) with k by lia.
    rewrite <- (take_drop (Z.to_nat k) files), fmap_app in Hnd, Hp. apply NoDup_app in Hnd as (_ & Hdis & _).
    apply elem_of_app in Hp. do 2 case_decide; naive_solver.
  - rewrite delete_keeps_others by (done || lia). rewrite decide_False; [done|]. intros H'. apply Hp.
    rewrite <- (take_drop (Z.to_nat k) files), fmap_app. apply elem_of_app. by right.
Qed.

(** A file of the front is not after one of the rest in the store's order. *)
Lemma front_first (s : LogStoreEx) (d : Files) (k : nat) (p p' : bytes) :
  key_order (order_of s) → p ∈ path_ <$> drop k (GetLogFiles s d) → p' ∈ path_ <$> take k (GetLogFiles s d) →
  order_of s (LogFile_of d p) (LogFile_of d p') = false.
Proof.
  intros Hs Hp Hp'. pose proof (log_files_sorted s d Hs) as HS.
  pose proof (log_files_of s d) as Hm.
  rewrite <- (take_drop k (GetLogFiles s d)) in HS, Hm.
  apply list_elem_of_fmap in Hp as (g & -> & Hg), Hp' as (g' & -> & Hg').
  apply StronglySorted_app in HS as (HS & _ & _). specialize (HS g' g Hg' Hg).
  by rewrite <- !Hm by (apply elem_of_app; auto).
Qed.

(** C33: clearing a store, when files can be removed.  Nothing is removed from a folder
    below its size; otherwise the number of files to keep stays of a folder that has
    at least so many, and of fewer files the greater half ([kept]); no file that is
    removed comes before one that stays in the store's order, whichever it is, so that
    of a store kept newest first none removed is newer than one that stays; nothing is
    changed and nothing outside the folder is touched. *)
Theorem oldest_logs_cleared (s : LogStoreEx) (d : Files) :
  key_order (order_of s) → 0 <= minKeepingNumberOfFiles_ s → Zlen (GetDirFiles (dir_ s) d) < 2 ^ 32 →
  let d' := ClearOldestFilesIfNeeded s d in
  (GetFolderSize (dir_ s) d < maxSize_ s → d' = d) ∧
  (maxSize_ s <= GetFolderSize (dir_ s) d →
     Zlen (GetDirFiles (dir_ s) d') = kept s (Zlen (GetDirFiles (dir_ s) d))) ∧
  (∀ p f, d' !! p = Some f → d !! p = Some f) ∧
  (∀ p, in_folder (dir_ s) p = false → d' !! p = d !! p) ∧
  (∀ p f p' f', d !! p = Some f → d' !! p = None → in_folder (dir_ s) p' = true → d' !! p' = Some f' →
     order_of s (LogFile_of d p) (LogFile_of d p') = false ∧ (newest_first s → mtime f <= mtime f')).
Proof.
  intros Hs Hmin Hbig d'. rewrite <- (log_files_count s d) in *.
  destruct (Z.lt_ge_cases (GetFolderSize (dir_ s) d) (maxSize_ s)) as [Hlt|Hge].
  { assert (d' = d) as -> by (unfold d', ClearOldestFilesIfNeeded; by rewrite (proj2 (Z.ltb_lt _ _))).
    split_and!; [done|lia|done|done|congruence]. }
  pose proof (clear_lookup s d Hmin Hge Hbig) as HD. cbv zeta in HD. fold d' in HD.
  destruct (kept_range s _ Hmin (Zlen_nonneg (GetLogFiles s d))) as [Hk _]. set (k := kept s _) in *.
  pose proof (elem_of_log_files s d) as Hfiles. pose proof (log_files_nodup s d) as Hnd.
  rewrite <- (take_drop (Z.to_nat k) (GetLogFiles s d)), fmap_app in Hnd. apply NoDup_app in Hnd as (Hnd & Hdis & _).
  assert (∀ p, in_folder (dir_ s) p = true ∧ is_Some (d !! p) ↔
    p ∈ path_ <$> take (Z.to_nat k) (GetLogFiles s d) ∨ p ∈ path_ <$> drop (Z.to_nat k) (GetLogFiles s d)) as Hparts.
  { intros p. rewrite <- Hfiles. rewrite <- (take_drop (Z.to_nat k) (GetLogFiles s d)) at 1. by rewrite fmap_app, elem_of_app. }
  split_and!.
  - lia.
  - intros _. assert (GetDirFiles (dir_ s) d' ≡ₚ path_ <$> take (Z.to_nat k) (GetLogFiles s d)) as HP.
    { apply NoDup_Permutation; [apply dir_files_nodup|done|]. intros p. rewrite elem_of_dir_files, HD.
      specialize (Hparts p). specialize (Hdis p). case_decide; naive_solver. }
    unfold Zlen in *. rewrite HP, length_fmap, length_take. lia.
  - intros p f. rewrite HD. by case_decide.
  - intros p Hp. rewrite HD, decide_False; [done|]. intros Hin. destruct (proj2 (Hparts p) (or_intror Hin)) as [Hi _].
    by rewrite Hp in Hi.
  - intros p f p' f' Hp Hp0 Hin Hp'. rewrite HD in Hp0. case_decide as Hd1; [|congruence]. rewrite HD in Hp'. case_decide as Hd2; [done|].
    destruct (proj1 (Hparts p')) as [Hp2|]; [by split|..|done].
    pose proof (front_first s d _ p p' Hs Hd1 Hp2) as HT. split; [done|]. intros Hnew. revert HT.
    unfold order_of, LogFile_lt, LogFile_of. rewrite Hnew, Hp, Hp'. cbn. apply Z.ltb_ge.
Qed.

(** A store whose folder holds the number to keep is not reduced, whatever its size. *)
Lemma full_store_not_cleared (s : LogStoreEx) (d : Files) :
  Zlen (GetDirFiles (dir_ s) d) = minKeepingNumberOfFiles_ s → ClearOldestFilesIfNeeded s d = d.
Proof.
  rewrite <- (log_files_count s d). intros Hn. unfold ClearOldestFilesIfNeeded. rewrite Hn, Z.ltb_irrefl, Z.sub_diag.
  case_match; [done|]. unfold DoDeleteLogFiles. by rewrite delete_loop_spec.
Qed.

End Facts.

Definition sample_store : LogStoreEx :=
  SetMinKeepingFileNumber 2 (SetMaxSize 3 (SetLogFileComparator (λ lhs rhs, LogFile_lt rhs lhs) (LogStoreEx_new (str "/l") true))).
Definition sample_files : Files :=
  <[str "/l/a" := mkFile [1] 5]> (<[str "/l/b" := mkFile [1] 9]> (<[str "/l/c" := mkFile [1] 7]> (<[str "/m" := mkFile [] 1]> ∅))).

Lemma oldest_logs_cleared_witness :
  let d' := ClearOldestFilesIfNeeded (SO := Database.Database.merge_sorter) sample_store sample_files in
  d' !! str "/l/a" = None ∧ Zlen (GetDirFiles (dir_ sample_store) d') = 2 ∧ mtime <$> d' !! str "/l/b" = Some 9.
Proof.
  intros d'. destruct (oldest_logs_cleared (SO := Database.Database.merge_sorter) sample_store sample_files) as (_ & Hn & _).
  - exact newest_order.
  - vm_compute. discriminate.
  - by vm_compute.
  - split_and!; [by vm_compute| |by vm_compute]. unfold d'. rewrite Hn by by vm_compute. by vm_compute.
Defined.

End LogStore.
