(* ===== verification/FreezeRules.v ===== *)
(** * FreezeRules: the rules of the freeze detector

    Models plugins/freeze_detector/rule_cluster.cpp and the predicates of
    freeze_common.cpp: the rule file is read into rules, each a set of linked
    events, and into four tables that say of which kind an event is.  The parsed
    XML document is given; everything the detector does with it is defined here. *)

From S2P Require Import Prelude Text DbFile.
From stdpp Require Import base list numbers strings.

Local Open Scope Z_scope.

Module FreezeRules.
Import DbFile.DbFile.

(** ** The document *)

(** A node: whether it is an element, its name, its attributes and its children. *)
Inductive xmlNode := XNode (element : bool) (name : bytes) (props : list (bytes * bytes)) (children : list xmlNode).

Definition element (n : xmlNode) : bool := let '(XNode e _ _ _) := n in e.
Definition xml_name (n : xmlNode) : bytes := let '(XNode _ n _ _) := n in n.
Definition props (n : xmlNode) : list (bytes * bytes) := let '(XNode _ _ p _) := n in p.
Definition children (n : xmlNode) : list xmlNode := let '(XNode _ _ _ c) := n in c.

Definition xmlGetProp (n : xmlNode) (attr : bytes) : option bytes :=
  (λ found, found.2.2) <$> list_find (λ kv, kv.1 = attr) (props n).

(** [GetAttributeValue<T>]: what [istr >> value] reads of the attribute, a zero or
    an empty text when that fails. *)
Fixpoint word (bs : bytes) : bytes :=
  match bs with c :: rest => if is_space c then [] else c :: word rest | [] => [] end.

Definition attr_text (n : xmlNode) (attr : bytes) : bytes := word (skip_space (default [] (xmlGetProp n attr))).

Definition attr_long (n : xmlNode) (attr : bytes) : Z :=
  let '(neg, bs) := take_sign (skip_space (default [] (xmlGetProp n attr))) in
  let v := value_of 10 (take_digits 10 bs) in
  let v := if neg : bool then - v else v in
  if (- 2 ^ 63 <=? v) && (v <=? 2 ^ 63 - 1) then v else 0.

Definition attr_ulong (n : xmlNode) (attr : bytes) : Z :=
  let '(neg, bs) := take_sign (skip_space (default [] (xmlGetProp n attr))) in
  let v := value_of 10 (take_digits 10 bs) in
  if 2 ^ 64 - 1 <? v then 0 else if neg : bool then (- v) mod 2 ^ 64 else v.

(** ** Ordered maps *)

(** [std::map<std::string, V>]: the entries in the order of their keys. *)
Abbreviation smap V := (list (bytes * V)).

Fixpoint smap_get {V} (k : bytes) (m : smap V) : option V :=
  match m with
  | [] => None
  | (k', v) :: m => if bool_decide (k' = k) then Some v else smap_get k m
  end.

(** [m[k] = v]. *)
Fixpoint smap_set {V} (k : bytes) (v : V) (m : smap V) : smap V :=
  match m with
  | [] => [(k, v)]
  | (k', v') :: m' =>
      if bool_decide (k' = k) then (k, v) :: m'
      else if bytes_lt k k' then (k, v) :: m else (k', v') :: smap_set k v m'
  end.

(** ** Rules *)

Record FreezeResult := mkResult {
  window_ : Z; delay_ : Z; code_ : Z; scope_ : bytes; samePackage_ : bytes; r_domain : bytes; r_stringId : bytes; action_ : bytes
}.

Definition FreezeResult_new (window : Z) (domain stringId : bytes) : FreezeResult :=
  mkResult window 0 0 [] [] domain stringId (str "and").

Record FreezeRule := mkRule { rule_domain : bytes; rule_stringId : bytes; results_ : smap FreezeResult }.

Definition FreezeRule_new (domain stringId : bytes) : FreezeRule := mkRule domain stringId [].

(** The first event of a key stays. *)
Definition AddResult (domain stringId : bytes) (result : FreezeResult) (rule : FreezeRule) : FreezeRule :=
  match smap_get (domain ++ stringId) (results_ rule) with
  | Some _ => rule
  | None => mkRule (rule_domain rule) (rule_stringId rule) (smap_set (domain ++ stringId) result (results_ rule))
  end.

Definition FreezeRule_GetResult (domain stringId : bytes) (rule : FreezeRule) : option FreezeResult :=
  smap_get (domain ++ stringId) (results_ rule).

(** The tables from event names to a domain and whether the event has the rule. *)
Record Pairs := mkPairs {
  applicationPairs_ : smap (bytes * bool);
  systemPairs_ : smap (bytes * bool);
  sysWarningPairs_ : smap (bytes * bool);
  appFreezeWarningPairs_ : smap (bytes * bool)
}.

Record FreezeRuleCluster := mkCluster { rules_ : smap FreezeRule; pairs_ : Pairs }.

Definition FreezeRuleCluster_new : FreezeRuleCluster := mkCluster [] (mkPairs [] [] [] []).

Definition HandleScopePair (result : FreezeResult) (stringId domain : bytes) (principalPoint : bool) (p : Pairs) : Pairs :=
  let set := smap_set stringId (domain, principalPoint) in
  if bool_decide (scope_ result = str "app")
  then mkPairs (set (applicationPairs_ p)) (systemPairs_ p) (sysWarningPairs_ p) (appFreezeWarningPairs_ p)
  else if bool_decide (scope_ result = str "sys")
  then mkPairs (applicationPairs_ p) (set (systemPairs_ p)) (sysWarningPairs_ p) (appFreezeWarningPairs_ p)
  else if bool_decide (scope_ result = str "sysWarning")
  then mkPairs (applicationPairs_ p) (systemPairs_ p) (set (sysWarningPairs_ p)) (appFreezeWarningPairs_ p)
  else if bool_decide (scope_ result = str "appFreezeWarning")
  then mkPairs (applicationPairs_ p) (systemPairs_ p) (sysWarningPairs_ p) (set (appFreezeWarningPairs_ p))
  else p.

(** ** Reading the rule file *)

Definition named (tag : string) (n : xmlNode) : bool := bool_decide (str tag = xml_name n).

Definition ParseTagResult (tag : xmlNode) (result : FreezeResult) : FreezeResult :=
  mkResult (window_ result) (attr_long tag (str "delay")) (attr_ulong tag (str "code")) (attr_text tag (str "scope"))
    (attr_text tag (str "samePackage")) (r_domain result) (r_stringId result) (attr_text tag (str "action")).

(** The first result tag counts. *)
Definition ParseTagEvent (tag : xmlNode) (result : FreezeResult) : FreezeResult :=
  match list_find (λ n, named "result" n = true) (children tag) with
  | Some (_, n) => ParseTagResult n result
  | None => result
  end.

(** [ParseTagLinks]: an event without domain or name ends the reading of the links. *)
Fixpoint links_loop (nodes : list xmlNode) (rule : FreezeRule) (p : Pairs) : FreezeRule * Pairs :=
  match nodes with
  | [] => (rule, p)
  | node :: nodes =>
      if negb (named "event" node) then links_loop nodes rule p else
      let domain := attr_text node (str "domain") in
      let stringId := attr_text node (str "stringid") in
      if bool_decide (domain = []) then (rule, p) else
      if bool_decide (stringId = []) then (rule, p) else
      let result := ParseTagEvent node (FreezeResult_new (attr_long node (str "window")) domain stringId) in
      let rule := AddResult domain stringId result rule in
      let principalPoint := bool_decide (rule_domain rule = domain) && bool_decide (rule_stringId rule = stringId) in
      links_loop nodes rule (HandleScopePair result stringId domain principalPoint p)
  end.

Definition ParseTagLinks (tag : xmlNode) (rule : FreezeRule) (p : Pairs) : FreezeRule * Pairs := links_loop (children tag) rule p.

(** [ParseTagRule]: the links are read, tables included, before a second rule of the
    same event is skipped. *)
Definition ParseTagRule (tag : xmlNode) (c : FreezeRuleCluster) : FreezeRuleCluster :=
  let domain := attr_text tag (str "domain") in
  let stringId := attr_text tag (str "stringid") in
  if bool_decide (domain = []) then c else
  if bool_decide (stringId = []) then c else
  let '(rule, p) :=
    foldl (λ rp node, if named "links" node then ParseTagLinks node rp.1 rp.2 else rp)
      (FreezeRule_new domain stringId, pairs_ c) (children tag) in
  match smap_get (domain ++ stringId) (rules_ c) with
  | Some _ => mkCluster (rules_ c) p
  | None => mkCluster (smap_set (domain ++ stringId) rule (rules_ c)) p
  end.

Definition ParseTagRules (tag : xmlNode) (c : FreezeRuleCluster) : FreezeRuleCluster :=
  foldl (λ c node, if named "rule" node then ParseTagRule node c else c) c (children tag).

Definition ParseTagFreeze (tag : xmlNode) (c : FreezeRuleCluster) : FreezeRuleCluster :=
  foldl (λ c node, if named "rules" node then ParseTagRules node c else c) c (children tag).

(** [ParseRuleFile]: the document's root and what follows it, [None] when it cannot be
    read or has no root. *)
Definition ParseRuleFile (doc : option (list xmlNode)) (c : FreezeRuleCluster) : bool * FreezeRuleCluster :=
  match doc with
  | None | Some [] => (false, c)
  | Some roots =>
      (true, match list_find (λ n, element n && named "freeze" n = true) roots with
             | Some (_, n) => ParseTagFreeze n c
             | None => c
             end)
  end.

Definition MAX_FILE_SIZE : Z := 512 * 1024.

(** [Init]: whether the file can be read, and its size when it has one. *)
Definition FreezeRuleCluster_Init (readable : bool) (size : option Z) (doc : option (list xmlNode)) (c : FreezeRuleCluster)
    : bool * FreezeRuleCluster :=
  if negb readable then (false, c) else
  if match size with Some s => s >? MAX_FILE_SIZE | None => true end then (false, c) else
  let '(ok, c) := ParseRuleFile doc c in
  (ok && negb (bool_decide (rules_ c = [])), c).

(** ** FreezeCommon *)

Definition in_pairs (domain stringId : bytes) (pairs : smap (bytes * bool)) : bool :=
  existsb (λ pair, bool_decide (stringId = pair.1) && bool_decide (domain = pair.2.1)) pairs.

Definition IsApplicationEvent (c : FreezeRuleCluster) (domain stringId : bytes) := in_pairs domain stringId (applicationPairs_ (pairs_ c)).
Definition IsSystemEvent (c : FreezeRuleCluster) (domain stringId : bytes) := in_pairs domain stringId (systemPairs_ (pairs_ c)).
Definition IsSysWarningEvent (c : FreezeRuleCluster) (domain stringId : bytes) := in_pairs domain stringId (sysWarningPairs_ (pairs_ c)).
Definition IsAppFreezeWarningEvent (c : FreezeRuleCluster) (domain stringId : bytes) :=
  in_pairs domain stringId (appFreezeWarningPairs_ (pairs_ c)).

Definition IsFreezeEvent (c : FreezeRuleCluster) (domain stringId : bytes) : bool :=
  IsApplicationEvent c domain stringId || IsSystemEvent c domain stringId ||
  IsSysWarningEvent c domain stringId || IsAppFreezeWarningEvent c domain stringId.

(** The names of the events that have a rule of their own. *)
Definition GetPrincipalStringIds (c : FreezeRuleCluster) : list bytes :=
  let principal (pairs : smap (bytes * bool)) := fst <$> filter (λ pair, pair.2.2 = true) pairs in
  let p := pairs_ c in
  remove_dups (principal (applicationPairs_ p) ++ principal (systemPairs_ p) ++ principal (sysWarningPairs_ p) ++
    principal (appFreezeWarningPairs_ p)).

Definition WARNING_EVENTS : list bytes := [str "THREAD_BLOCK_6S"; str "LIFECYCLE_TIMEOUT"].
Definition IsReportAppFreezeEvent (stringId : bytes) : bool := bool_decide (stringId ∈ WARNING_EVENTS).

End FreezeRules.
