(* ===== verification/Freeze.v ===== *)
(** * Freeze: from an event to the events that belong to it

    Models plugins/freeze_detector/watch_point.cpp, db_helper.cpp and the search of
    resolver.cpp: an event becomes a watch point; for each event its rule links to,
    the store is asked for records in a window around it and the nearest record of
    the same process is taken; the number found decides whether it is a freeze. *)

From S2P Require Import Prelude Platform RawData Decoder Params EventHeader Text DbFile Database.
From S2P Require Import Builder SysEvent FreezeRules.
From S2P Require DecodedEvent.
From stdpp Require Import base gmap list numbers strings.

Local Open Scope Z_scope.
Local Open Scope hv_scope.

Module Freeze.
Import Database.Database (Sorter, std_sort, sort_perm, sort_sorted).
Import DbFile.DbFile SysEvent FreezeRules.
Import DecodedEvent (outcome, Done, Undefined, obind).

(** ** Reading an event *)

(** A computation that reads parameters of an event, which makes its builder. *)
Definition Read (A : Type) : Type := SysEvent → outcome (SysEvent * A).
Definition rret {A} (x : A) : Read A := λ e, Done (e, x).
Definition rbind {A B} (m : Read A) (k : A → Read B) : Read B := λ e, obind (m e) (λ ea, k ea.2 ea.1).
Definition event : Read SysEvent := λ e, Done (e, e).

Notation "'read' x := m 'in' k" := (rbind m (λ x, k))
  (at level 10, x name, m at level 100, k at level 200) : hv_scope.

(** ** WatchPoint *)

Record WatchPoint := mkWatchPoint {
  w_seq : Z; w_timestamp : Z; w_pid : Z; w_tid : Z; w_uid : Z; w_sysuid : Z;
  w_terminalThreadStack : bytes; w_telemetryId : bytes; w_domain : bytes; w_stringId : bytes; w_msg : bytes;
  w_packageName : bytes; w_processName : bytes; w_processLifetime : Z; w_foreGround : bytes; w_logPath : bytes;
  w_hitraceTime : bytes; w_sysrqTime : bytes; w_hitraceIdInfo : bytes; w_procStatm : bytes;
  w_hostResourceWarning : bytes; w_freezeExtFile : bytes; w_enableMainThreadSample : bool;
  w_applicationInfo : bytes; w_applicationGCInfo : bytes; w_applicationIOInfo : bytes; w_appRunningUniqueId : bytes;
  w_taskName : bytes; w_clusterRaw : bytes; w_timeoutEventId : bytes; w_lastDispatchEventId : bytes;
  w_lastProcessEventId : bytes; w_lastMarkedEventId : bytes; w_thermalLevel : bytes; w_externalLog : bytes;
  w_isHicollie : bool; w_reportLifecycleToFreeze : bool; w_isBlockInGC : bool; w_renderPid : Z; w_renderUid : Z
}.

Definition WatchPoint_new : WatchPoint :=
  mkWatchPoint 0 0 0 0 0 0 [] [] [] [] [] [] [] 0 [] [] [] [] [] [] [] [] false [] [] [] [] [] [] [] [] [] [] [] []
    false false false 0 0.

(** The process an event is about. *)
Definition own_name (w : WatchPoint) : bytes :=
  if bool_decide (w_packageName w = []) then w_processName w else w_packageName w.

(** ** DBHelper *)

Record WatchParams := mkParams { p_pid : Z; p_tid : Z; p_timestamp : Z; p_packageName : bytes; p_stringId : bytes }.

(** [StringUtil::ReplaceStr]: every occurrence of a non-empty text, from the left. *)
Fixpoint ReplaceLoop (fuel : nat) (src dst s : bytes) : bytes :=
  match fuel with
  | O => s
  | S fuel =>
      match find_sub src s with
      | None => s
      | Some pos => take pos s ++ dst ++ ReplaceLoop fuel src dst (drop (pos + length src) s)
      end
  end.

Definition ReplaceStr (s src dst : bytes) : bytes := if bool_decide (src = []) then s else ReplaceLoop (length s) src dst s.

(** Up to the next comma. *)
Definition before_comma (s : bytes) : bytes := take (default (length s) (find_sub [44] s)) s.

(** [DBHelper::SearchLogFile]. *)
Definition SearchLogFile (info : bytes) : bytes :=
  match find_sub (str "logPath:") info with
  | Some pos => before_comma (drop (pos + 8) info)
  | None => []
  end.

Definition UINT64_MAX : Z := 2 ^ 64 - 1.

Section Select.
Context `{HP : Heap} `{SC : Securec}.

Definition text (key : string) : Read bytes := GetEventValue (str key).
Definition int (key : string) : Read Z := GetEventIntValue (str key).

(** A name, or another when it is empty; a number, or another when it is zero. *)
Definition text_or (k1 k2 : string) : Read bytes :=
  read v := text k1 in if bool_decide (v = []) then text k2 else rret v.
Definition int_or (k : string) (other : EventFields → Z) : Read Z :=
  read v := int k in if v =? 0 then (read e := event in rret (other (fields e))) else rret v.

(** Whether a record is about the process asked for. *)
Definition same_process (p : WatchParams) (packageName : bytes) (pid tid : Z) : bool :=
  let packageNameSame := bool_decide (p_stringId p = str "RENDER_JS_FREEZE") || bool_decide (p_packageName p = packageName) in
  negb (negb packageNameSame || negb (p_pid p =? pid) || ((p_tid p >? 0) && (tid >? 0) && negb (p_tid p =? tid))).

(** The watch point made of a record. *)
Definition of_record (result : FreezeResult) (packageName : bytes) (pid tid : Z) : Read WatchPoint :=
  read uid := int_or "UID" uid_ in
  read e := event in
  read processName := text "PROCESS_NAME" in
  read msg := text "MSG" in
  read freezeExtFile := text "FREEZE_INFO_PATH" in
  read externalLog := text "EXTERNAL_LOG" in
  read info := text "info_" in
  rret (mkWatchPoint (seq_ (marks e)) (happenTime_ (fields e)) pid tid uid 0 [] [] (r_domain result) (r_stringId result)
    (ReplaceStr msg (str "\n") [10]) packageName processName 0 [] (SearchLogFile info) [] [] [] [] [] freezeExtFile false
    [] [] [] [] [] [] [] [] [] [] [] externalLog false false false 0 0).

(** What the loop keeps: the distances of the record taken, and its watch point. *)
Record Nearest := mkNearest { frontInterval : Z; rearInterval : Z; resultWatchPoint : WatchPoint }.
Definition Nearest_new : Nearest := mkNearest UINT64_MAX UINT64_MAX WatchPoint_new.

(** One round of the loop of [GetResultWatchPoint]: the nearest earlier record is
    preferred, then the nearest later one. *)
Definition visit (p : WatchParams) (result : FreezeResult) (n : Nearest) : Read Nearest :=
  read packageName := text_or "PACKAGE_NAME" "PROCESS_NAME" in
  read pid := int_or "PID" pid_ in
  read tid := int "TID" in
  if bool_decide (samePackage_ result = str "true") && negb (same_process p packageName pid tid) then rret n else
  read e := event in
  let t := happenTime_ (fields e) in
  let front := u64 (p_timestamp p - t) in
  let rear := u64 (t - p_timestamp p) in
  if (t <? p_timestamp p) && (front <? frontInterval n) then
    read w := of_record result packageName pid tid in rret (mkNearest front (rearInterval n) w)
  else if frontInterval n =? UINT64_MAX then
    if rear >=? rearInterval n then rret n
    else read w := of_record result packageName pid tid in rret (mkNearest (frontInterval n) rear w)
  else rret n.

Fixpoint GetResultWatchPoint (p : WatchParams) (result : FreezeResult) (set : list SysEvent) (n : Nearest) : outcome Nearest :=
  match set with
  | [] => Done n
  | record :: set => obind (visit p result n record) (λ en, GetResultWatchPoint p result set en.2)
  end.

(** The store: the records of a domain and name within two times and below a limit,
    [None] on an error. *)
Context (run_query : bytes → bytes → Z → Z → Z → option (list SysEvent)).

(** The limit of [SysEventQuery::Execute] when none is given. *)
Definition QUERY_LIMIT : Z := 100.

Definition SelectEventFromDB (start end_ : Z) (l : list WatchPoint) (p : WatchParams) (result : FreezeResult)
    : outcome (list WatchPoint) :=
  if start >? end_ then Done l else
  match run_query (r_domain result) (r_stringId result) (s64 start) (s64 end_) QUERY_LIMIT with
  | None => Done l
  | Some set =>
      obind (GetResultWatchPoint p result set Nearest_new) (λ n,
        let w := resultWatchPoint n in
        if bool_decide (w_domain w = []) then Done l else Done (l ++ [w]))
  end.

(** ** FreezeResolver *)

Definition MILLISECOND : Z := 1000.

(** [x * MILLISECOND] of type [long]. *)
Definition in_milliseconds (x : Z) : outcome Z :=
  if x * MILLISECOND <=? 2 ^ 63 - 1 then Done (x * MILLISECOND) else Undefined UB_Overflow.

(** The search for one linked event. *)
Definition resolve_one (w : WatchPoint) (l : list WatchPoint) (i : FreezeResult) : outcome (list WatchPoint) :=
  let timestamp := w_timestamp w in
  let p := mkParams (w_pid w) (w_tid w) timestamp (own_name w) (w_stringId w) in
  let window := window_ i in
  if window =? 0 then Done (l ++ [w]) else
  obind (in_milliseconds (Z.abs window)) (λ timeInterval,
    let start := if window >? 0 then timestamp else u64 (timestamp - timeInterval) in
    let end_ := if window >? 0 then u64 (timestamp + timeInterval) else timestamp in
    obind (in_milliseconds (Z.max (delay_ i) 0)) (λ delay,
      SelectEventFromDB start (u64 (end_ + delay)) l p i)).

Fixpoint resolve_all (w : WatchPoint) (result : list FreezeResult) (l : list WatchPoint) : outcome (list WatchPoint) :=
  match result with
  | [] => Done l
  | i :: result => obind (resolve_one w l i) (resolve_all w result)
  end.

Context `{SO : Sorter}.

(** [FreezeRuleCluster::GetResult]: the linked events by their windows. *)
Definition GetResult (c : FreezeRuleCluster) (domain stringId : bytes) : option (list FreezeResult) :=
  match smap_get (domain ++ stringId) (rules_ c) with
  | None => None
  | Some rule =>
      match results_ rule with
      | [] => None
      | map => Some (std_sort (λ a b, window_ a <? window_ b) (snd <$> map))
      end
  end.

(** [ResolveEvent]: the events found and the events linked, [None] without a rule. *)
Definition ResolveEvent (c : FreezeRuleCluster) (w : WatchPoint) : outcome (option (list WatchPoint * list FreezeResult)) :=
  match GetResult c (w_domain w) (w_stringId w) with
  | None => Done None
  | Some result => obind (resolve_all w result []) (λ l, Done (Some (l, result)))
  end.

End Select.

Definition MIN_MATCH_NUM : Z := 2.
Definition SYS_MATCH_NUM : Z := 1.
Definition APP_MATCH_NUM : Z := 1.

Section Judge.
Context (w : WatchPoint) (l : list WatchPoint) (result : list FreezeResult).

Definition IsReportWarning : bool :=
  IsReportAppFreezeEvent (w_stringId w) && (Zlen l =? u64 (Zlen result - APP_MATCH_NUM)).
Definition IsSysWarning : bool :=
  bool_decide (w_stringId w = str "SERVICE_WARNING") && (Zlen l =? u64 (Zlen result - SYS_MATCH_NUM)).
Definition IsAppFreezeWarning : bool :=
  (bool_decide (w_stringId w = str "THREAD_BLOCK_3S") || bool_decide (w_stringId w = str "LIFECYCLE_HALF_TIMEOUT")) &&
  (Zlen l =? u64 (Zlen result - APP_MATCH_NUM)).

Definition JudgmentResult : bool :=
  if bool_decide (w_domain w = str "ACE") && bool_decide (w_stringId w = str "UI_BLOCK_6S") then
    if Zlen l =? Zlen result then false else
    if negb (Zlen l + 1 =? Zlen result) then false else
    negb (existsb (λ i, bool_decide (w_stringId i = str "UI_BLOCK_RECOVERED")) l)
  else if existsb (λ r, bool_decide (action_ r = str "or")) result then Zlen l >=? MIN_MATCH_NUM
  else if IsSysWarning || IsReportWarning then true
  else if IsAppFreezeWarning then true
  else if Zlen l =? Zlen result then true
  else bool_decide (w_stringId w = str "APP_INPUT_BLOCK") && (Zlen l >=? u64 (Zlen result - APP_MATCH_NUM)).

End Judge.

End Freeze.
