(* ===== verification/FreezeValidator.v ===== *)
(** * FreezeValidator: which events the freeze detector believes

    Models plugins/freeze_detector/event_field_validator.cpp: an event is checked
    against the senders its domain may have; what an application sends must name
    the application itself and hold only harmless names, paths and texts. *)

From S2P Require Import Prelude Platform RawData Encoder Decoder Params EventHeader Text DbFile.
From S2P Require Import Builder JsonPrint SysEvent FreezeRules Freeze.
From S2P Require DecodedEvent.
From stdpp Require Import base gmap list numbers strings.

Local Open Scope Z_scope.
Local Open Scope hv_scope.

Module FreezeValidator.
Import DbFile.DbFile SysEvent Freeze.
Import DecodedEvent (outcome, Done, Undefined, obind).

Definition TRUSTED_SENDER_UID_MAX : Z := 10000.
Definition MAX_NAME_LEN : Z := 256.
Definition MAX_PATH_LEN : Z := 512.
Definition MAX_SMALL_CONTENT_LEN : Z := 8192.
Definition MAX_LARGE_CONTENT_LEN : Z := 256 * 1024.
Definition MAX_EVENT_JSON_LEN : Z := 2 * 1024 * 1024.

Definition KERNEL_UID : Z := 0.
Definition GRAPHICS_UID : Z := 1003.
Definition HIVIEW_UID : Z := 1201.
Definition FOUNDATION_UID : Z := 5523.
Definition POWERMGR_UID : Z := 5528.
Definition INPUT_UID : Z := 6696.

(** ** Senders *)

Record SenderPolicy := mkPolicy { wholeDomainAllowed : bool; allowedEvents : list bytes; allowedSystemUids : list Z }.

Definition GetDomainSenderPolicies : gmap bytes SenderPolicy := list_to_map [
  (str "AAFWK", mkPolicy false [str "BUSSINESS_THREAD_BLOCK_3S"; str "BUSSINESS_THREAD_BLOCK_6S";
    str "BUSINESS_INPUT_BLOCK"; str "FREEZE_HALF_HIVIEW_LOG"] [FOUNDATION_UID]);
  (str "ACE", mkPolicy true [] []);
  (str "FFRT", mkPolicy true [] []);
  (str "FRAMEWORK", mkPolicy false [str "APP_HICOLLIE"; str "HIT_EMPTY_WARNING"] []);
  (str "GRAPHIC", mkPolicy false [str "NO_DRAW"; str "JANK_FRAME_SKIP"] [GRAPHICS_UID]);
  (str "GRAPHICS_GAME", mkPolicy true [] []);
  (str "WEBVIEW", mkPolicy true [] []);
  (str "KERNEL_VENDOR", mkPolicy false [] [KERNEL_UID; HIVIEW_UID]);
  (str "MULTIMODALINPUT", mkPolicy false [] [INPUT_UID]);
  (str "POWER", mkPolicy false [] [POWERMGR_UID]);
  (str "RELIABILITY", mkPolicy false [] [HIVIEW_UID; FOUNDATION_UID]);
  (str "THP", mkPolicy false [] []);
  (str "WINDOWMANAGER", mkPolicy false [] [FOUNDATION_UID])].

Definition IsSenderAllowed (domain eventName : bytes) (senderUid : Z) : bool :=
  match GetDomainSenderPolicies !! domain with
  | None => true
  | Some policy =>
      if senderUid >? TRUSTED_SENDER_UID_MAX
      then wholeDomainAllowed policy || bool_decide (eventName ∈ allowedEvents policy)
      else negb (negb (bool_decide (allowedSystemUids policy = [])) && negb (bool_decide (senderUid ∈ allowedSystemUids policy)))
  end.

(** ** Texts *)

(** [find_first_not_of(chars) == npos]. *)
Definition only (chars s : bytes) : bool := forallb (λ c, bool_decide (c ∈ chars)) s.

Definition DIGITS : bytes := str "0123456789".
Definition LETTERS_DIGITS : bytes := str "abcdefghijklmnopqrstuvwxyzABCDEFGHIJKLMNOPQRSTUVWXYZ0123456789".

Definition IsDecimalValue (value : bytes) : bool :=
  negb (bool_decide (value = []) || (Zlen value >? 10)) && only DIGITS value.

(** [None] when it is not accepted. *)
Definition ToInt32Value (value : bytes) : option Z :=
  if negb (IsDecimalValue value) then None else
  let result := value_of 10 (take_digits 10 value) in
  if (result <=? 0) || (result >? 2 ^ 31 - 1) then None else Some result.

Definition IsSafeName (value : bytes) : bool :=
  negb (bool_decide (value = []) || (Zlen value >? MAX_NAME_LEN)) && only (LETTERS_DIGITS ++ str "._:-") value.

(** ** Paths *)

Definition PATH_FIELD_ALLOWED_PREFIX : list bytes := [str "/data/log/"; str "/data/service/el2/"].
Definition READ_PATH_ALLOWED_PREFIX : list bytes := [str "/data/log/"; str "/data/app/el2/"].
Definition FREEZE_LOG_PATH_PREFIX : bytes := str "/data/log/eventlog/freeze/".

Definition has (sub s : bytes) : bool := bool_decide (is_Some (find_sub sub s)).

(** What the two checks of a path share. *)
Definition harmless (path : bytes) : bool :=
  negb ((Zlen path >? MAX_PATH_LEN) || negb (bool_decide (head path = Some 47))) &&
  negb (has (str "..") path || negb (only (LETTERS_DIGITS ++ str "._/-") path)).

Definition under (prefixes : list bytes) (path : bytes) : bool := existsb (λ p, bool_decide (p `prefix_of` path)) prefixes.

Definition IsAcceptedReadPath (path : bytes) : bool :=
  bool_decide (path = []) || (harmless path && under READ_PATH_ALLOWED_PREFIX path).

Definition ContainPathTraversal (path : bytes) : bool := has (str "..") path || bool_decide (92 ∈ path) || bool_decide (0 ∈ path).

(** [rfind], and [s.rfind(suffix) != s.size() - suffix_length]. *)
Definition rfind (sub s : bytes) : Z :=
  match find_sub (reverse sub) (reverse s) with
  | Some n => Zlen s - Zlen sub - Z.of_nat n
  | None => 2 ^ 64 - 1
  end.
Definition not_at_end (suffix s : bytes) : bool := negb (rfind suffix s =? u64 (Zlen s - Zlen suffix)).

Section World.

(** The owner of a file, [None] when there is none; whether a path exists, links
    followed. *)
Context (lstat : bytes → option Z) (FileExists : bytes → bool).

Definition IsOwnerOfPath (path : bytes) (senderUid : Z) : bool :=
  match lstat path with None => true | Some uid => s32 uid =? senderUid end.

Definition IsAcceptedPath (path : bytes) (senderUid : Z) : bool :=
  bool_decide (path = []) || (harmless path && under PATH_FIELD_ALLOWED_PREFIX path && IsOwnerOfPath path senderUid).

(** ** Fields *)

Section Fields.
Context `{HP : Heap} `{SC : Securec}.

(** A check that goes on only when it holds. *)
Definition check (b : bool) (k : Read bool) : Read bool := if b then k else rret false.

Definition set_text (key : string) (value : bytes) : Read unit :=
  λ e, obind (SetEventValue (str key) (CString value) false e) (λ e, Done (e, tt)).

Definition clear_binder_path : Read bool :=
  read binderInfo := text "BINDER_INFO" in
  let binderPath := match find_sub [44] binderInfo with Some pos => take pos binderInfo | None => [] end in
  if negb (bool_decide (binderPath = [])) && FileExists binderPath &&
     (ContainPathTraversal binderPath || negb (bool_decide (find_sub FREEZE_LOG_PATH_PREFIX binderPath = Some 0%nat)) ||
      not_at_end (str "_binder") binderPath)
  then read u := set_text "BINDER_INFO" [] in rret true
  else rret true.

Definition CheckStackAndBinderPaths : Read bool :=
  read stack := text "STACK" in
  check (bool_decide (stack = []) || negb (FileExists stack) ||
         (negb (ContainPathTraversal stack) &&
          negb (negb (bool_decide (find_sub FREEZE_LOG_PATH_PREFIX stack = Some 0%nat)) || not_at_end (str "_stack") stack)))
  (read mainStack := text "MAIN_STACK" in
  check (negb (bool_decide (head mainStack = Some 47))) clear_binder_path).

Definition IsTrustedSource (e : SysEvent) : bool := uid_ (fields e) <=? TRUSTED_SENDER_UID_MAX.

(** A numeric parameter, or its text, must be the sender's. *)
Definition binds (key : string) (sender : Z) (k : Read bool) : Read bool :=
  read body := int key in
  read s := text key in
  check (if negb (body =? 0) then body =? sender
         else if negb (bool_decide (s = [])) then bool_decide (ToInt32Value s = Some sender) else true) k.

Definition CheckIdentityFields : Read bool :=
  read e := event in
  check (pid_ (fields e) >? 0)
  (binds "PID" (pid_ (fields e))
  (binds "UID" (uid_ (fields e))
  (read tidStr := text "TID" in
   rret (bool_decide (tidStr = []) || bool_decide (is_Some (ToInt32Value tidStr)))))).

(** [for (field : fields) ...]: all texts accepted. *)
Fixpoint all_fields (fields : list string) (ok : bytes → bool) (k : Read bool) : Read bool :=
  match fields with
  | [] => k
  | field :: fields => read value := text field in check (ok value) (all_fields fields ok k)
  end.

Definition GetNumericFields : list string :=
  ["PID"; "UID"; "TID"; "INPUT_ID"; "REMOTE_PID"; "LAST_DISPATCH_EVENTID"; "LAST_PROCESS_EVENTID"; "LAST_MARKED_EVENTID"]%string.
Definition GetNameFields : list string :=
  ["PACKAGE_NAME"; "PROCESS_NAME"; "SPECIFICSTACK_NAME"; "TASK_NAME"; "MODULE_NAME"; "PNAMEID"]%string.
Definition GetSmallContentFields : list string := ["HITRACE_ID"; "APP_RUNNING_UNIQUE_ID"; "FAULT_TIME"; "EVENT_TYPE"]%string.
Definition GetLargeContentFields : list string :=
  ["MSG"; "STACK"; "MAIN_STACK"; "EXTERNAL_LOG"; "APPLICATION_HEAP_INFO"; "APPLICATION_GC_INFO"; "APPLICATION_IO_INFO";
   "PROCESS_LIFECYCLE_INFO"]%string.
Definition GetPathFields : list string := ["FREEZE_INFO_PATH"]%string.

Definition CheckNumericFields (k : Read bool) : Read bool :=
  all_fields GetNumericFields (λ v, bool_decide (v = []) || bool_decide (is_Some (ToInt32Value v))) k.

Definition CheckNameFields (k : Read bool) : Read bool :=
  all_fields GetNameFields (λ v, bool_decide (v = []) || IsSafeName v) k.

Definition CheckPathFields (k : Read bool) : Read bool :=
  read e := event in
  all_fields GetPathFields (λ v, bool_decide (v = []) || IsAcceptedPath v (uid_ (fields e))) k.

Definition CheckContentFields (k : Read bool) : Read bool :=
  read json := SysEvent_AsJsonStr in
  check (Zlen json <=? MAX_EVENT_JSON_LEN)
  (all_fields GetSmallContentFields (λ v, Zlen v <=? MAX_SMALL_CONTENT_LEN)
  (all_fields GetLargeContentFields (λ v, Zlen v <=? MAX_LARGE_CONTENT_LEN)
  (read appRunningUniqueId := text "APP_RUNNING_UNIQUE_ID" in
   check (only DIGITS appRunningUniqueId) k))).

Definition StripUntrustedBinderInfo : Read bool :=
  read info := text "HICOLLIE_BINDER_INFO" in
  if bool_decide (info = []) then rret true
  else read u := set_text "HICOLLIE_BINDER_INFO" [] in rret true.

Definition ValidateUntrustedEvent : Read bool :=
  read identity := CheckIdentityFields in
  check identity (CheckNumericFields (CheckNameFields (CheckPathFields (CheckContentFields StripUntrustedBinderInfo)))).

Definition ValidateEvent : Read bool :=
  read e := event in
  check (IsSenderAllowed (domain_ (fields e)) (eventName_ (fields e)) (uid_ (fields e)))
  (read paths := CheckStackAndBinderPaths in
   check paths (if IsTrustedSource e then rret true else ValidateUntrustedEvent)).

End Fields.
End World.
End FreezeValidator.
