(* ===== verification/FreezeVendor.v ===== *)
(** * FreezeVendor: from the events of a freeze to the report

    Models plugins/freeze_detector/vendor.cpp and the parts of freeze_manager.cpp it
    calls: the kind of the report is decided, the logs of the events are merged into
    one file and the fault logger is told; then resolver.cpp's ProcessEvent and
    freeze_detector_plugin.cpp, from the arrival of an event to its processing. *)

From S2P Require Import Prelude Platform RawData Decoder Params EventHeader Text DbFile Database LogStore.
From S2P Require Import Builder SysEvent FreezeRules Freeze FreezeValidator.
From S2P Require DecodedEvent.
From stdpp Require Import base gmap list numbers strings.

Local Open Scope Z_scope.
Local Open Scope hv_scope.

Module FreezeVendor.
Import Database.Database (Sorter).
Import LogStore.LogStore (File, mkFile, content, Files).
Import DbFile.DbFile SysEvent FreezeRules Freeze FreezeValidator.
Import DecodedEvent (outcome, Done, Undefined, obind).

(** ** The kind of the report *)

Inductive FreezeType := APPFREEZE | SYSFREEZE | SYSWARNING | APPFREEZEWARNING.
#[global] Instance FreezeType_eq_dec : EqDecision FreezeType.
Proof. solve_decision. Defined.

Definition type_text (t : FreezeType) : bytes :=
  match t with
  | APPFREEZE => str "appfreeze" | SYSFREEZE => str "sysfreeze" | SYSWARNING => str "syswarning"
  | APPFREEZEWARNING => str "appfreezewarning"
  end.

(** [FaultLogType]. *)
Definition faultLogType_of (t : FreezeType) : Z :=
  match t with APPFREEZE => 4 | SYSFREEZE => 5 | SYSWARNING => 6 | APPFREEZEWARNING => 7 end.

Definition SCB_PRO_FLAG : bytes := str "com.ohos.sceneboard".
Definition KEY_PROCESS : list bytes := [str "foundation"; str "com.ohos.sceneboard"; str "render_service"].
Definition ARKWEB_UID_START : Z := 20100000.
Definition ARKWEB_UID_END : Z := 20109999.

(** [StringUtil::FormatCmdLine] and [FormatProcessName]: the last part of a path, up to
    a terminator, with every other character replaced. *)
Fixpoint last_part (part s : bytes) : bytes :=
  match s with
  | [] => part
  | c :: s => if c =? 47 then last_part [] s else if c =? 0 then part else last_part (part ++ [c]) s
  end.

Definition FormatCmdLine (cmdLine : bytes) : bytes := last_part [] cmdLine.

Definition FormatProcessName (processName : bytes) : bytes :=
  (λ c, if bool_decide (c ∈ LETTERS_DIGITS ++ str ".-_") then c else 95) <$> FormatCmdLine processName.

(** Up to the first and from the last letter nothing is kept. *)
Fixpoint from_alpha (s : bytes) : bytes := match s with c :: rest => if is_alpha c then s else from_alpha rest | [] => [] end.
Definition alpha_span (s : bytes) : bytes :=
  match from_alpha s with
  | c :: rest => c :: reverse (from_alpha (reverse rest))
  | [] => []
  end.

(** [CheckProcessName] gives the name and whether it is of the desktop process.  Of an
    empty name, whose last character the code looks at, nothing is cut. *)
Definition CheckProcessName (processName : bytes) : bytes * bytes :=
  let '(processName, isScbPro) :=
    match find_sub SCB_PRO_FLAG processName with
    | Some scbIndex =>
        if Z.of_nat scbIndex + Zlen SCB_PRO_FLAG + 1 <=? Zlen processName
        then ((λ c, if c =? 47 then 95 else c) <$> drop (scbIndex + length SCB_PRO_FLAG) processName, str "Yes")
        else (processName, str "No")
    | None => (processName, str "No")
    end in
  (FormatProcessName (alpha_span processName), isScbPro).

Record LogInfo := mkLogInfo { i_type : FreezeType; i_pubLogPathName : bytes; i_processName : bytes; i_isScbPro : bytes }.

Section Kind.
Context (c : FreezeRuleCluster).

(** Local time as [%Y%m%d%H%M%S] of a time in milliseconds. *)
Context (GetTimeString : Z → bytes).

Definition InitLogInfo (w : WatchPoint) : LogInfo :=
  let stringId := w_stringId w in
  let packageName := TrimStr (w_packageName w) in
  let processName := TrimStr (w_processName w) in
  let processName := if bool_decide (processName = []) then (if bool_decide (packageName = []) then stringId else packageName)
                     else processName in
  let '(processName, isScbPro) := if bool_decide (stringId = str "SCREEN_ON") then (stringId, []) else CheckProcessName processName in
  let type :=
    if bool_decide (w_foreGround w = str "No") && bool_decide (stringId = str "THREAD_BLOCK_6S") &&
       negb (bool_decide (processName = SCB_PRO_FLAG))
    then SYSWARNING
    else if IsApplicationEvent c (w_domain w) stringId then APPFREEZE
    else if IsSystemEvent c (w_domain w) stringId then SYSFREEZE
    else if IsSysWarningEvent c (w_domain w) stringId then SYSWARNING else APPFREEZEWARNING in
  mkLogInfo type
    (processName ++ str "-" ++ to_string (w_uid w) ++ str "-" ++ GetTimeString (w_timestamp w) ++ str "-" ++ to_string (w_timestamp w))
    processName isScbPro.

(** [JudgeSysWarningEvent]: [None] when nothing is to be reported. *)
Definition JudgeSysWarningEvent (stringId : bytes) (type : FreezeType) (processName : bytes) (l : list WatchPoint)
    : option FreezeType :=
  let isAppHalfEvent := bool_decide (stringId = str "THREAD_BLOCK_3S") || bool_decide (stringId = str "LIFECYCLE_HALF_TIMEOUT") in
  let isSysHalfEvent := bool_decide (stringId = str "SERVICE_WARNING") in
  if negb isAppHalfEvent && negb isSysHalfEvent then Some type else
  if negb (Zlen l =? APP_MATCH_NUM) then None else
  if isAppHalfEvent then Some APPFREEZEWARNING else
  if bool_decide (processName ∈ KEY_PROCESS) then Some SYSWARNING else None.

Definition CovertFreezeType (type : FreezeType) (w : WatchPoint) (l : list WatchPoint) : FreezeType :=
  let stringId := w_stringId w in
  if bool_decide (stringId = []) then type else
  let type := if IsReportAppFreezeEvent stringId && (Zlen l =? APP_MATCH_NUM) then SYSWARNING else type in
  if negb (bool_decide (stringId = str "LIFECYCLE_TIMEOUT")) then type else
  if Zlen l <=? APP_MATCH_NUM then type else
  if existsb w_reportLifecycleToFreeze l then APPFREEZE else type.

Definition CovertHighLoadToWarning (type : FreezeType) (w : WatchPoint) : option FreezeType :=
  if bool_decide (w_hostResourceWarning w = str "TRUE") then
    (if bool_decide (type = APPFREEZEWARNING) then None
     else Some (if bool_decide (type = SYSWARNING) then SYSWARNING else SYSFREEZE))
  else Some (if w_isHicollie w then SYSWARNING else type).

Definition ValidateAndInitType (w : WatchPoint) (l : list WatchPoint) : option LogInfo :=
  let i := InitLogInfo w in
  match JudgeSysWarningEvent (w_stringId w) (i_type i) (i_processName i) l with
  | None => None
  | Some type =>
      match CovertHighLoadToWarning (CovertFreezeType type w l) w with
      | None => None
      | Some type => Some (mkLogInfo type (i_pubLogPathName i) (i_processName i) (i_isScbPro i))
      end
  end.

End Kind.

(** ** Texts *)

Definition TRIGGER_HEADER : bytes := replicate 43 62.
Definition HEADER : bytes := replicate 43 42.
Definition NOTE_INFO : bytes := str "NOTE: ".
Definition HOST_RESOURCE_WARNING_INFO : bytes :=
  str "Current fault may be caused by the system's low memory or thermal throttling, you may ignore it and analysis other faults.".
Definition LEAK_INFO : bytes :=
  str "Current process has encountered leak which may lead to appfreeze, you may refer to resource overlimit event from hiAppEvent for further analysis.".
Definition GC_INFO : bytes :=
  str "Main thread is blocked by GC, which may be caused by high memory usage or system resource overload.".

(** An output stream: after an insertion has failed the others are ignored. *)
Record Stream := mkStream { s_text : bytes; failed : bool }.
Definition put (t : bytes) (s : Stream) : Stream := if failed s then s else mkStream (s_text s ++ t) false.
(** [os << file.rdbuf()]: inserting no characters is a failure. *)
Definition put_file (t : bytes) (s : Stream) : Stream :=
  if failed s then s else if bool_decide (t = []) then mkStream (s_text s) true else put t s.

Definition lower (t : bytes) : bytes := (λ c, if (65 <=? c) && (c <=? 90) then c + 32 else c) <$> t.

Section Merge.
Context `{HP : Heap} `{SC : Securec}.
Context (c : FreezeRuleCluster) (GetTimeString_ TimestampFormatToDate : Z → bytes).

(** The latest leak event of a process, newest first, [None] on an error. *)
Context (leak_records : Z → Z → option (list SysEvent)).

Definition CheckNoteInfo (w : WatchPoint) : outcome bytes :=
  let processName := if bool_decide (w_processName w = []) then w_packageName w else w_processName w in
  match leak_records (w_pid w) (w_uid w) with
  | None | Some [] => Done []
  | Some (record :: _) =>
      obind (text_or "PROCESS_NAME" "PACKAGE_NAME" record) (λ en,
        Done (if bool_decide (en.2 = processName) && (happenTime_ (fields en.1) >? 0) then eventName_ (fields en.1) else []))
  end.

Definition line (key value : bytes) : bytes := key ++ str ":" ++ value ++ [10].

(** [DumpEventInfo]: the text it inserts. *)
Definition DumpEventInfo (header : bytes) (w : WatchPoint) : outcome bytes :=
  obind (CheckNoteInfo w) (λ leakEvent,
    let t := w_timestamp w in
    let isNote := bool_decide (w_hostResourceWarning w = str "TRUE") in
    let note1 := if isNote : bool then NOTE_INFO ++ HOST_RESOURCE_WARNING_INFO else [] in
    let has_leak := negb (bool_decide (leakEvent = [])) in
    let note2 := if has_leak then (if isNote : bool then [] else NOTE_INFO) ++
        ReplaceStr LEAK_INFO (str "leak") (ReplaceStr (lower leakEvent) (str "_") (str " ")) else [] in
    let note3 := if w_isBlockInGC w then (if isNote || has_leak then [] else NOTE_INFO) ++ GC_INFO else [] in
    Done (header ++ [10] ++ line (str "DOMAIN") (w_domain w) ++ line (str "STRINGID") (w_stringId w) ++
      line (str "TIMESTAMP") (TimestampFormatToDate (t / 1000) ++ str ":" ++ to_string (t mod 1000)) ++
      line (str "PID") (to_string (w_pid w)) ++ line (str "UID") (to_string (w_uid w)) ++
      line (str "PACKAGE_NAME") (w_packageName w) ++ line (str "PROCESS_NAME") (w_processName w) ++
      note1 ++ note2 ++ note3 ++ [10])).

(** ** The logs *)

(** Where a path leads, links followed, and whether a file can be opened. *)
Context (resolve : bytes → bytes) (readable : bytes → bool).

Definition exists_ (path : bytes) (d : Files) : bool := bool_decide (is_Some (d !! resolve path)).
Definition PathToRealPath (path : bytes) (d : Files) : option bytes := if exists_ path d then Some (resolve path) else None.
Definition GetFileSize (path : bytes) (d : Files) : Z := default 0 ((λ f, Zlen (content f)) <$> d !! path).
(** The contents of a file that can be opened. *)
Definition open_file (path : bytes) (d : Files) : option bytes := if readable path then content <$> d !! path else None.
Definition MAX_MERGE_FILE_SIZE : Z := 10 * 1024 * 1024.

(** [GetIfStreamByFilePath]: the contents, and the header it inserts when the file
    cannot be opened. *)
Definition GetIfStreamByFilePath (d : Files) (filePath : bytes) (node : WatchPoint) (body : Stream) : outcome (Stream * option bytes) :=
  match PathToRealPath filePath d with
  | None => Done (body, None)
  | Some realPath =>
      if negb (IsAcceptedReadPath realPath) then Done (body, None) else
      if GetFileSize realPath d >? MAX_MERGE_FILE_SIZE then Done (body, None) else
      match open_file realPath d with
      | None => obind (DumpEventInfo HEADER node) (λ t, Done (put t body, None))
      | Some log => Done (body, Some log)
      end
  end.

Definition THREAD_STACK_START : bytes := [10] ++ str "Thread stack start:" ++ [10].
Definition THREAD_STACK_END : bytes := str "Thread stack end" ++ [10].
Definition PB_EVENTS : list bytes :=
  [str "UI_BLOCK_3S"; str "THREAD_BLOCK_3S"; str "BUSSNESS_THREAD_BLOCK_3S"; str "LIFECYCLE_HALF_TIMEOUT";
   str "LIFECYCLE_HALF_TIMEOUT_WARNING"; str "SERVICE_WARNING"].

Definition set_thread_stack (t : bytes) (w : WatchPoint) : WatchPoint :=
  mkWatchPoint (w_seq w) (w_timestamp w) (w_pid w) (w_tid w) (w_uid w) (w_sysuid w) t (w_telemetryId w) (w_domain w)
    (w_stringId w) (w_msg w) (w_packageName w) (w_processName w) (w_processLifetime w) (w_foreGround w) (w_logPath w)
    (w_hitraceTime w) (w_sysrqTime w) (w_hitraceIdInfo w) (w_procStatm w) (w_hostResourceWarning w) (w_freezeExtFile w)
    (w_enableMainThreadSample w) (w_applicationInfo w) (w_applicationGCInfo w) (w_applicationIOInfo w)
    (w_appRunningUniqueId w) (w_taskName w) (w_clusterRaw w) (w_timeoutEventId w) (w_lastDispatchEventId w)
    (w_lastProcessEventId w) (w_lastMarkedEventId w) (w_thermalLevel w) (w_externalLog w) (w_isHicollie w)
    (w_reportLifecycleToFreeze w) (w_isBlockInGC w) (w_renderPid w) (w_renderUid w).

Definition set_external_log (t : bytes) (w : WatchPoint) : WatchPoint :=
  mkWatchPoint (w_seq w) (w_timestamp w) (w_pid w) (w_tid w) (w_uid w) (w_sysuid w) (w_terminalThreadStack w) (w_telemetryId w)
    (w_domain w) (w_stringId w) (w_msg w) (w_packageName w) (w_processName w) (w_processLifetime w) (w_foreGround w) (w_logPath w)
    (w_hitraceTime w) (w_sysrqTime w) (w_hitraceIdInfo w) (w_procStatm w) (w_hostResourceWarning w) (w_freezeExtFile w)
    (w_enableMainThreadSample w) (w_applicationInfo w) (w_applicationGCInfo w) (w_applicationIOInfo w)
    (w_appRunningUniqueId w) (w_taskName w) (w_clusterRaw w) (w_timeoutEventId w) (w_lastDispatchEventId w)
    (w_lastProcessEventId w) (w_lastMarkedEventId w) (w_thermalLevel w) t (w_isHicollie w)
    (w_reportLifecycleToFreeze w) (w_isBlockInGC w) (w_renderPid w) (w_renderUid w).

Definition set_freeze_ext (t : bytes) (w : WatchPoint) : WatchPoint :=
  mkWatchPoint (w_seq w) (w_timestamp w) (w_pid w) (w_tid w) (w_uid w) (w_sysuid w) (w_terminalThreadStack w) (w_telemetryId w)
    (w_domain w) (w_stringId w) (w_msg w) (w_packageName w) (w_processName w) (w_processLifetime w) (w_foreGround w) (w_logPath w)
    (w_hitraceTime w) (w_sysrqTime w) (w_hitraceIdInfo w) (w_procStatm w) (w_hostResourceWarning w) t
    (w_enableMainThreadSample w) (w_applicationInfo w) (w_applicationGCInfo w) (w_applicationIOInfo w)
    (w_appRunningUniqueId w) (w_taskName w) (w_clusterRaw w) (w_timeoutEventId w) (w_lastDispatchEventId w)
    (w_lastProcessEventId w) (w_lastMarkedEventId w) (w_thermalLevel w) (w_externalLog w) (w_isHicollie w)
    (w_reportLifecycleToFreeze w) (w_isBlockInGC w) (w_renderPid w) (w_renderUid w).

(** The stack of the blocked thread in a log, and the log without it. *)
Definition cut_thread_stack (logContent : bytes) : option (bytes * bytes) :=
  match find_sub THREAD_STACK_START logContent with
  | None => None
  | Some startPos =>
      match find_sub THREAD_STACK_END (drop startPos logContent) with
      | None => None
      | Some len =>
          if bool_decide (len = 0%nat) then None else
          (* the length of [substr] wraps when the end is inside the start *)
          let from := drop (startPos + length THREAD_STACK_START) logContent in
          let n := u64 (Z.of_nat len - Zlen THREAD_STACK_START) in
          Some (take (Z.to_nat (Z.min n (Zlen from))) from,
                take startPos logContent ++ drop (startPos + len + length THREAD_STACK_END) logContent)
      end
  end.

(** What [InitLogBody] makes. *)
Record Body := mkBody { body : Stream; mergedLogPath : bytes; b_watchPoint : WatchPoint; halfFreezeExtFile : bytes }.

(** The log of one event. *)
Definition merge_log (name log : bytes) (b : Body) : Body :=
  let s := put (HEADER ++ [10]) (body b) in
  if bool_decide (name ∈ PB_EVENTS) && bool_decide (w_terminalThreadStack (b_watchPoint b) = []) then
    match cut_thread_stack log with
    | Some (threadStack, rest) => mkBody (put (rest ++ [10]) s) (mergedLogPath b) (set_thread_stack threadStack (b_watchPoint b)) (halfFreezeExtFile b)
    | None => mkBody (put (log ++ [10]) s) (mergedLogPath b) (b_watchPoint b) (halfFreezeExtFile b)
    end
  else mkBody (put_file log s) (mergedLogPath b) (b_watchPoint b) (halfFreezeExtFile b).

Definition set_body (s : Stream) (b : Body) : Body := mkBody s (mergedLogPath b) (b_watchPoint b) (halfFreezeExtFile b).

(** [InitLogBody]: [None] when a log does not exist. *)
Fixpoint InitLogBody (d : Files) (l : list WatchPoint) (b : Body) : outcome (option Body) :=
  match l with
  | [] => Done (Some (mkBody (body b) (mergedLogPath b) (set_external_log (mergedLogPath b) (b_watchPoint b)) (halfFreezeExtFile b)))
  | node :: l =>
      let name := w_stringId node in
      let half := if bool_decide (name = str "THREAD_BLOCK_3S") || bool_decide (name = str "LIFECYCLE_HALF_TIMEOUT")
                  then w_freezeExtFile node else halfFreezeExtFile b in
      let b := mkBody (body b) (mergedLogPath b ++ name ++ str ":" ++ w_externalLog node ++ [10]) (b_watchPoint b) half in
      let filePath := w_logPath node in
      if bool_decide (filePath = str "nolog") || bool_decide (filePath = []) then
        obind (DumpEventInfo HEADER node) (λ t, InitLogBody d l (set_body (put t (body b)) b))
      else if negb (exists_ filePath d) then Done None else
      obind (GetIfStreamByFilePath d filePath node (body b)) (λ sf,
        match sf.2 with
        | None => InitLogBody d l (set_body sf.1 b)
        | Some log => InitLogBody d l (merge_log name log b)
        end)
  end.

(** *** Samples the application left *)

(** Everything the report depends on besides the events and the files: the clock, the
    descriptors that are obtained, texts of other services. *)
Record Env := mkEnv {
  now : Z; boot_ms : Z; time_milli : bytes; json_fd : Z; log_fd : Z; ext_fd : Z;
  power_info : bytes; timeoutThresholdNormal : Z; proc_statm : Z → option bytes; traceNameMap_ : gmap Z bytes
}.

(** [InsertTraceName]: a new time pushes the earliest ones out. *)
Definition TRACE_NAME_MAP_CAPACITY : nat := 6.

Definition begin_key (m : gmap Z bytes) : option Z :=
  match (map_to_list m).*1 with [] => None | k :: ks => Some (foldr Z.min k ks) end.

Fixpoint evict (fuel : nat) (m : gmap Z bytes) : gmap Z bytes :=
  match fuel with
  | O => m
  | S fuel =>
      if bool_decide (TRACE_NAME_MAP_CAPACITY <= size m)%nat
      then match begin_key m with Some k => evict fuel (delete k m) | None => m end
      else m
  end.

Definition InsertTraceName (t : Z) (traceName : bytes) (m : gmap Z bytes) : gmap Z bytes :=
  match m !! t with
  | Some _ => <[t := traceName]> m
  | None => <[t := traceName]> (evict (size m) m)
  end.

Definition FREEZE_DETECTOR_PATH : bytes := str "/data/log/faultlog/freeze/".
Definition FREEZE_EXT_LOG_PATH : bytes := str "/data/log/faultlog/freeze_ext/".
Definition FAULT_LOGGER_PATH : bytes := str "/data/log/faultlog/faultlogger/".
Definition EVENTLOG_PATH_PREFIX : bytes := str "/data/log/eventlog/".
Definition FREEZE_CPUINFO_PREFIX : bytes := str "freeze-cpuinfo-ext-".
Definition TRACE_GET_ERROR_MESSAGE : bytes := str "Trace not needed, already dumping, or not found".

Import LogStore.LogStore (LogFile, LogFile_lt, LogStoreEx, LogStoreEx_new, SetMaxSize, SetMinKeepingFileNumber, SetLogFileComparator,
  CreateLogFile, GetLogFiles, GetLogFiles_filtered, ReduceLogFileListSize, path_).

Definition freeze_store (dir : bytes) (maxSize keep : Z) : LogStoreEx :=
  SetLogFileComparator (λ lhs rhs, LogFile_lt rhs lhs) (SetMinKeepingFileNumber keep (SetMaxSize maxSize (LogStoreEx_new dir true))).
Definition freezeExtLogStore_ : LogStoreEx := freeze_store FREEZE_EXT_LOG_PATH (10 * 1024 * 1024) 5.
Definition freezeDetectorLogStore_ : LogStoreEx := freeze_store FREEZE_DETECTOR_PATH (10 * 1024 * 1024) 5.

Definition write_at (path text : bytes) (t : Z) (d : Files) : Files :=
  <[path := mkFile (default [] (content <$> d !! path) ++ text) t]> d.

(** [CheckFreezePathPrefix]: the real path, empty when it leaves the prefix. *)
Definition CheckFreezePathPrefix (path prefix : bytes) (d : Files) : bytes :=
  match PathToRealPath path d with
  | Some realPath => if bool_decide (prefix `prefix_of` realPath) then realPath else []
  | None => []
  end.

(** [GetAppFreezeFile]: the contents; the file is removed, perhaps a second later. *)
Definition GetAppFreezeFile (stackPath : bytes) (isNeedRealPath : bool) (d : Files) : bytes * Files :=
  if negb (IsAcceptedReadPath stackPath) then ([], d) else
  match (if isNeedRealPath then PathToRealPath stackPath d else Some stackPath) with
  | None => ([], d)
  | Some filePath =>
      if isNeedRealPath && negb (IsAcceptedReadPath filePath) then ([], d)
      else (default [] (open_file filePath d), delete filePath d)
  end.

Definition GetStackInfo (uid : Z) (bundleName stackFile : bytes) (d : Files) : bytes * Files :=
  if bool_decide (stackFile = []) then ([], d) else
  if bool_decide (47 ∈ stackFile) || ContainPathTraversal stackFile then ([], d) else
  let userId := s32 (Z.quot uid 200000) in
  let stackPrefix := str "/data/app/el2/" ++ to_string userId ++ str "/log/" ++ bundleName ++ str "/watchdog/freeze/" in
  let realStackPath := CheckFreezePathPrefix (stackPrefix ++ stackFile) stackPrefix d in
  if bool_decide (realStackPath = []) then ([], d) else GetAppFreezeFile realStackPath false d.

Definition GetCpuInfo (cpuFile : bytes) (d : Files) : bytes * Files :=
  if bool_decide (cpuFile = []) then ([], d) else
  if ContainPathTraversal cpuFile then ([], d) else
  let realCpuPath := CheckFreezePathPrefix cpuFile EVENTLOG_PATH_PREFIX d in
  if bool_decide (realCpuPath = []) then ([], d) else GetAppFreezeFile realCpuPath false d.

(** [GetUidFromFileName], given the last part of a path. *)
Definition GetUidFromFileName (fileName : bytes) : Z :=
  let splitStr := SplitStr fileName (str "-") in
  if Zlen splitStr =? 6 then ConvertStringTo 32 (default [] (splitStr !! 4%nat)) 0 else 0.

Context `{SO : Sorter}.

Definition SaveFreezeExtInfoToFile (e : Env) (uid : Z) (bundleName stackFile cpuFile : bytes) (d : Files) : bytes * Files :=
  let '(stackInfo, d) := GetStackInfo uid bundleName stackFile d in
  let '(cpuInfo, d) := GetCpuInfo cpuFile d in
  if bool_decide (stackInfo = []) && bool_decide (cpuInfo = []) then ([], d) else
  let freezeFile := FREEZE_CPUINFO_PREFIX ++ bundleName ++ str "-" ++ to_string uid ++ str "-" ++ time_milli e in
  if exists_ (FREEZE_EXT_LOG_PATH ++ freezeFile) d then ([], d) else
  let '(fd, d) := CreateLogFile (ext_fd e) (now e) freezeFile freezeExtLogStore_ d in
  if fd <? 0 then ([], d) else
  let d := write_at (FREEZE_EXT_LOG_PATH ++ freezeFile) (cpuInfo ++ stackInfo) (now e) d in
  let d := ReduceLogFileListSize (GetLogFiles freezeExtLogStore_ d) 20 d in
  let same (f : LogFile) := negb (bool_decide (find_sub FREEZE_CPUINFO_PREFIX (FormatCmdLine (path_ f)) = None)) &&
                            (GetUidFromFileName (FormatCmdLine (path_ f)) =? s32 uid) in
  (FREEZE_EXT_LOG_PATH ++ freezeFile, ReduceLogFileListSize (GetLogFiles_filtered same freezeExtLogStore_ d) 10 d).

Definition FOUNDATION : Z := 5523.

Definition MergeFreezeExtFile (e : Env) (w : WatchPoint) (halfFreezeExtFile : bytes) (d : Files) : bytes * Files :=
  if negb (w_sysuid w =? FOUNDATION) then ([], d) else
  let fileList := SplitStr (w_freezeExtFile w) (str ",") in
  if Zlen fileList >? 2 then ([], d) else
  let '(stackFile, cpuFile) :=
    match fileList with
    | [freezeExtFile; cpuFile] => ((if bool_decide (freezeExtFile = []) then halfFreezeExtFile else freezeExtFile), cpuFile)
    | _ => ([], [])
    end in
  if bool_decide (stackFile = []) && bool_decide (cpuFile = []) then ([], d)
  else SaveFreezeExtInfoToFile e (w_uid w) (own_name w) stackFile cpuFile d.

(** *** The file for the application *)

Definition GetFilePath (pid uid timestamp : Z) : bytes :=
  str "/data/log/freezejson/" ++ to_string pid ++ str "-" ++ to_string uid ++ str "-" ++ to_string timestamp.

Definition key_value (key : string) (value : bytes) : bytes := str key ++ str " = " ++ value ++ [10].

Fixpoint merge_json (l : list WatchPoint) (oss : Stream) (d : Files) : Stream * Files :=
  match l with
  | [] => (oss, d)
  | node :: l =>
      match PathToRealPath (GetFilePath (w_pid node) (w_uid node) (w_timestamp node)) d with
      | None => merge_json l oss d
      | Some realPath =>
          let oss := match open_file realPath d with Some t => put_file t oss | None => oss end in
          merge_json l oss (delete realPath d)
      end
  end.

Definition RENDER_JS_FREEZE : bytes := str "RENDER_JS_FREEZE".

Definition MergeFreezeJsonFile (e : Env) (w : WatchPoint) (l : list WatchPoint) (d : Files) : Files :=
  let '(oss, d) := merge_json l (mkStream [] false) d in
  let render := bool_decide (w_stringId w = RENDER_JS_FREEZE) in
  let jsonPid := if render then w_renderPid w else w_pid w in
  let jsonUid := if render then w_renderUid w else w_uid w in
  if json_fd e <? 0 then d else
  write_at (resolve (GetFilePath jsonPid jsonUid (w_timestamp w)))
    (s_text oss ++ key_value "domain" (w_domain w) ++ key_value "stringId" (w_stringId w) ++
     key_value "timestamp" (to_string (w_timestamp w)) ++ key_value "pid" (to_string jsonPid) ++
     key_value "uid" (to_string jsonUid) ++ key_value "package_name" (w_packageName w) ++
     key_value "process_name" (w_processName w)) (now e) d.

(** *** The report *)

Record FaultLogInfoInner := mkInfo {
  info_time : Z; info_id : Z; info_pid : Z; info_faultLogType : Z; info_module : bytes; info_reason : bytes; info_summary : bytes;
  info_logPath : bytes;
  sectionMaps : gmap bytes bytes
}.

Definition FillSummary (e : Env) (w : WatchPoint) (type : FreezeType) (processName stringId : bytes) : bytes :=
  let paren t := str "(" ++ t ++ str ")" in
  type_text type ++ str ": " ++ processName ++ str " " ++ stringId ++ str " at " ++ GetTimeString_ (w_timestamp w) ++ [10] ++
  (if bool_decide (stringId = str "APP_INPUT_BLOCK") then
     str "Wait Event" ++ paren (w_timeoutEventId w) ++ str " to be marked exceed " ++ to_string (timeoutThresholdNormal e) ++
     str "ms, lastDispatchEvent" ++ paren (w_lastDispatchEventId w) ++ str ", lastProcessEvent" ++ paren (w_lastProcessEventId w) ++
     str ", lastMarkedEvent" ++ paren (w_lastMarkedEventId w) ++ [10]
   else []) ++
  str "DisplayPowerInfo:" ++ power_info e ++
  (if bool_decide (w_hitraceIdInfo w = []) then [] else str "HitraceIdInfo: " ++ w_hitraceIdInfo w ++ [10]).

(** [ParseLogEntry]: [getline] at commas drops what an ending comma is followed by. *)
Fixpoint pieces (sep : Z) (part s : bytes) : list bytes :=
  match s with
  | [] => if bool_decide (part = []) then [] else [part]
  | c :: s => if c =? sep then part :: pieces sep [] s else pieces sep (part ++ [c]) s
  end.

Definition ParseLogEntry (input : bytes) (sections : gmap bytes bytes) : gmap bytes bytes :=
  foldl (λ m content,
    match find_sub (str ":") content with
    | Some colonPos => <[take colonPos content := drop (colonPos + 1) content]> m
    | None => m
    end) sections (pieces 44 [] input).

(** [GetDightStrArr]: the runs of digits, and a zero. *)
Definition is_digit (c : Z) : bool := (48 <=? c) && (c <=? 57).
Fixpoint digit_runs (run s : bytes) : list bytes :=
  let flush := if bool_decide (run = []) then [] else [run] in
  match s with
  | [] => flush
  | c :: s => if is_digit c then digit_runs (run ++ [c]) s else flush ++ digit_runs [] s
  end.
Definition GetDightStrArr (target : bytes) : list bytes := digit_runs [] target ++ [str "0"].

(** [4 * static_cast<uint64_t>(atoll(s))]. *)
Definition pages_kb (s : bytes) : Z := u64 (4 * u64 (stream_signed s)).

Definition FillProcMemory (e : Env) (procStatm : bytes) (pid : Z) (sections : gmap bytes bytes) : gmap bytes bytes :=
  match (if bool_decide (procStatm = []) then proc_statm e pid else Some procStatm) with
  | None => sections
  | Some statmLine =>
      let '(vss, rss) := match GetDightStrArr statmLine with a :: b :: _ => (pages_kb a, pages_kb b) | _ => (0, 0) end in
      <[str "PROCESS_VSS_MEMINFO" := to_string vss]> (<[str "PROCESS_RSS_MEMINFO" := to_string rss]> sections)
  end.

(** [GetFaultTime], given the time a date stands for. *)
Context (StrToTimeStamp : bytes → Z).

Definition GetFaultTime (msg : bytes) : Z :=
  match find_sub (str "Fault time:") msg with
  | None => 0
  | Some startIndex =>
      let faultTimeStartPos := (startIndex + 11)%nat in
      if Zlen msg <? Z.of_nat faultTimeStartPos + 19 then 0 else
      let t := take 19 (drop faultTimeStartPos msg) in
      if bool_decide (t !! 4%nat = Some 47) && bool_decide (t !! 7%nat = Some 47) && bool_decide (t !! 10%nat = Some 45) &&
         bool_decide (t !! 13%nat = Some 58) && bool_decide (t !! 16%nat = Some 58)
      then StrToTimeStamp t else 0
  end.

Definition GetTraceName (e : Env) (t : Z) : bytes := default TRACE_GET_ERROR_MESSAGE (traceNameMap_ e !! t).

Definition sections1 (e : Env) (w : WatchPoint) (isScbPro : bytes) : list (bytes * bytes) := [
  (str "PROCESS_LIFETIME", to_string (w_processLifetime w)); (str "DEVICE_RUNNING_TIME", to_string (boot_ms e));
  (str "HOST_RESOURCE_WARNING", w_hostResourceWarning w); (str "HITRACE_TIME", w_hitraceTime w);
  (str "SYSRQ_TIME", w_sysrqTime w); (str "FOREGROUND", w_foreGround w); (str "SCBPROCESS", isScbPro);
  (str "TERMINAL_THREAD_STACK", w_terminalThreadStack w); (str "TELEMETRY_ID", w_telemetryId w);
  (str "TRACE_NAME", GetTraceName e (GetFaultTime (w_msg w))); (str "PROC_STATM", w_procStatm w);
  (str "FREEZE_INFO_PATH", w_freezeExtFile w);
  (str "ENABLE_MAINTHREAD_SAMPLE", if w_enableMainThreadSample w then str "1" else str "0");
  (str "THERMAL_LEVEL", w_thermalLevel w)].

Definition sections2 (w : WatchPoint) : list (bytes * bytes) := [
  (str "APP_RUNNING_UNIQUE_ID", w_appRunningUniqueId w); (str "TASK_NAME", w_taskName w);
  (str "CLUSTER_RAW", w_clusterRaw w); (str "EXTERNAL_LOG", w_externalLog w)].

Definition set_sections (l : list (bytes * bytes)) (m : gmap bytes bytes) : gmap bytes bytes :=
  foldl (λ m kv, <[kv.1 := kv.2]> m) m l.

Definition FillSectionMaps (e : Env) (w : WatchPoint) (isScbPro : bytes) (pid : Z) : gmap bytes bytes :=
  let m := set_sections (sections1 e w isScbPro) ∅ in
  let m := ParseLogEntry (w_applicationIOInfo w) (ParseLogEntry (w_applicationGCInfo w) (ParseLogEntry (w_applicationInfo w) m)) in
  set_sections (sections2 w) (FillProcMemory e (w_procStatm w) pid m).

(** [SendFaultLog] with [FillSummaryInfo]: what the fault logger is told. *)
Definition SendFaultLog (e : Env) (w : WatchPoint) (path : bytes) (type : FreezeType) (processName isScbPro : bytes) : FaultLogInfoInner :=
  let uid := s32 (w_uid w) in
  let stringId := if w_isHicollie w && negb ((uid >=? ARKWEB_UID_START) && (uid <=? ARKWEB_UID_END)) then str "APP_HICOLLIE"
                  else w_stringId w in
  let '(id, pid) :=
    if bool_decide (stringId = RENDER_JS_FREEZE) then (u32 (w_renderUid w), s32 (w_renderPid w))
    else ((if uid >=? 0 then uid else 0), s32 (w_pid w)) in
  mkInfo (w_timestamp w) id pid (faultLogType_of type) processName stringId (FillSummary e w type processName stringId) path
    (FillSectionMaps e w isScbPro pid).

(** What became of a freeze: nothing, a report made before, or a report. *)
Inductive Merged := NotReported | ReportedBefore (retPath : bytes) | Reported (info : FaultLogInfoInner).

Definition APPHICOLLIE_TYPE_LIST : list bytes := [str "APP_HICOLLIE"].

Definition MergeEventLog (e : Env) (w : WatchPoint) (l : list WatchPoint) (d : Files) : outcome (Merged * Files) :=
  match ValidateAndInitType c GetTimeString_ w l with
  | None => Done (NotReported, d)
  | Some i =>
      let pubLogPathName := type_text (i_type i) ++ str "-" ++ i_pubLogPathName i in
      let retPath := FAULT_LOGGER_PATH ++ pubLogPathName in
      let tmpLogName := pubLogPathName ++ str ".tmp" in
      let tmpLogPath := FREEZE_DETECTOR_PATH ++ tmpLogName in
      if exists_ retPath d then Done (ReportedBefore retPath, d) else
      obind (DumpEventInfo TRIGGER_HEADER w) (λ header,
      obind (InitLogBody d l (mkBody (mkStream [] false) [] w [])) (λ b,
        match b with
        | None => Done (NotReported, d)
        | Some b =>
            let w := b_watchPoint b in
            let json := bool_decide (i_type i = APPFREEZE) || bool_decide (w_stringId w ∈ APPHICOLLIE_TYPE_LIST) ||
                        bool_decide (i_type i = APPFREEZEWARNING) in
            let d := if json then MergeFreezeJsonFile e w l d else d in
            let '(fd, d) := CreateLogFile (log_fd e) (now e) tmpLogName freezeDetectorLogStore_ d in
            if fd <? 0 then Done (NotReported, d) else
            let d := write_at tmpLogPath (header ++ s_text (body b)) (now e) d in
            let '(freezeExtFile, d) := MergeFreezeExtFile e w (halfFreezeExtFile b) d in
            Done (Reported (SendFaultLog e (set_freeze_ext freezeExtFile w) tmpLogPath (i_type i) (i_processName i) (i_isScbPro i)), d)
        end))
  end.

(** ** FreezeResolver and the plugin *)

Context (run_query : bytes → bytes → Z → Z → Z → option (list SysEvent)).

(** [FreezeResolver::ProcessEvent]: [None] when it returns -1. *)
Definition ProcessEvent (e : Env) (w : WatchPoint) (d : Files) : outcome (option Merged * Files) :=
  obind (ResolveEvent run_query c w) (λ found,
    match found with
    | None => Done (None, d)
    | Some (l, result) =>
        if JudgmentResult w l result
        then obind (MergeEventLog e w l d) (λ md, Done (Some md.1, md.2))
        else Done (None, d)
    end).

(** [FreezeDetectorPlugin::SearchLogFile]: without a log path the whole text. *)
Definition Plugin_SearchLogFile (info : bytes) : bytes :=
  let logFile := SearchLogFile info in if bool_decide (logFile = []) then info else logFile.

(** [MakeWatchPoint] with [ExtractWatchPointParams]. *)
Definition MakeWatchPoint : Read WatchPoint :=
  read e := event in
  read pid := int_or "PID" pid_ in
  read tid := int "TID" in
  read uid := int_or "UID" uid_ in
  read sysuid := int "uid_" in
  read appRunningUniqueId := text "APP_RUNNING_UNIQUE_ID" in
  read packageName := text "PACKAGE_NAME" in
  read processName := text "PROCESS_NAME" in
  read processLifetime := int "PROCESS_LIFETIME" in
  read hitraceTime := text "HITRACE_TIME" in
  read sysrqTime := text "SYSRQ_TIME" in
  read terminalThreadStack := text "TERMINAL_THREAD_STACK" in
  read telemetryId := text "TELEMETRY_ID" in
  read info := text "info_" in
  read hitraceIdInfo := text "HITRACE_ID" in
  read procStatm := text "PROC_STATM" in
  read hostResourceWarning := text "HOST_RESOURCE_WARNING" in
  read enableMainThreadSample := int "ENABLE_MAINTHREAD_SAMPLE" in
  read freezeExtFile := text "FREEZE_INFO_PATH" in
  read heapInfo := text "APPLICATION_HEAP_INFO" in
  read lifecycleInfo := text "PROCESS_LIFECYCLE_INFO" in
  read applicationGCInfo := text "APPLICATION_GC_INFO" in
  read applicationIOInfo := text "APPLICATION_IO_INFO" in
  read taskName := text "TASK_NAME" in
  read qname := text "QNAME" in
  read qos := int "QOS" in
  read timeoutEventId := int "INPUT_ID" in
  read lastDispatchEventId := text "LAST_DISPATCH_EVENTID" in
  read lastProcessEventId := text "LAST_PROCESS_EVENTID" in
  read lastMarkedEventId := text "LAST_MARKED_EVENTID" in
  read thermalLevel := text "THERMAL_LEVEL" in
  read foreGround := int "FOREGROUND" in
  read msg := text "MSG" in
  read externalLog := text "EXTERNAL_LOG" in
  read isHicollie := int "IS_HICOLLIE" in
  read reportLifecycle := int "report_lifecycle_as_appfreeze" in
  read isBlockInGC := int "IS_BLOCK_IN_GC" in
  read renderPid := int "pid_" in
  read renderUid := int "uid_" in
  rret (mkWatchPoint (seq_ (marks e)) (happenTime_ (fields e)) pid tid uid sysuid terminalThreadStack telemetryId
    (domain_ (fields e)) (eventName_ (fields e)) msg packageName processName processLifetime
    (if foreGround =? 0 then str "No" else str "Yes") (Plugin_SearchLogFile info) hitraceTime sysrqTime hitraceIdInfo procStatm
    hostResourceWarning freezeExtFile (negb (enableMainThreadSample =? 0)) (heapInfo ++ [44] ++ lifecycleInfo)
    applicationGCInfo applicationIOInfo appRunningUniqueId taskName (qname ++ to_string qos) (to_string timeoutEventId)
    lastDispatchEventId lastProcessEventId lastMarkedEventId thermalLevel externalLog (s32 isHicollie =? 1)
    (negb (reportLifecycle =? 0)) (negb (isBlockInGC =? 0)) renderPid renderUid).

Definition HALF_EVENT_TIME : Z := 60.
Definition MULTIPLE_DELAY_TIME : Z := 10.
Definition SINGLE_DELAY_TIME : Z := 3.
Definition TO_NANO_SECOND_MULTPLE : Z := 1000000.

(** [ScheduleEventProcessing]: the queue and the delay in microseconds. *)
Inductive Queue := WarningQueue | DefaultQueue.

Definition ScheduleEventProcessing (w : WatchPoint) (freezeResultList : list FreezeResult) : Queue * Z :=
  let delayTime := if Zlen freezeResultList >? 1 then MULTIPLE_DELAY_TIME else SINGLE_DELAY_TIME in
  let delayTime :=
    if (u64 (w_uid w) =? FreezeValidator.HIVIEW_UID) && bool_decide (w_stringId w = str "IPC_FULL") then 0
    else foldl (λ t i, Z.max t (window_ i)) delayTime freezeResultList in
  if bool_decide (w_stringId w = str "THREAD_BLOCK_3S") || bool_decide (w_stringId w = str "LIFECYCLE_HALF_TIMEOUT")
  then (WarningQueue, u64 (HALF_EVENT_TIME * TO_NANO_SECOND_MULTPLE))
  else (DefaultQueue, u64 (u64 delayTime * TO_NANO_SECOND_MULTPLE)).

Context (lstat : bytes → option Z).

(** Whether the raw data of an event decodes. *)
Definition decodes (ev : SysEvent) : outcome bool :=
  match rawData_ ev with
  | None => Done false
  | Some r => obind (DecodedEvent.DecodedEvent_new (GetData r) (GetDataLength r)) (λ x, Done (DecodedEvent.isValid_ x))
  end.

(** [OnEventListeningCallback]: the event as it is left, and the task submitted. *)
Definition OnEventListeningCallback (d : Files) (ev : SysEvent) : outcome (SysEvent * option (WatchPoint * (Queue * Z))) :=
  obind (decodes ev) (λ valid,
  if negb valid then Done (ev, None) else
  if negb (IsFreezeEvent c (domain_ (fields ev)) (eventName_ (fields ev))) then Done (ev, None) else
  obind (ValidateEvent lstat (λ path, exists_ path d) ev) (λ eb,
    if negb eb.2 then Done (eb.1, None) else
    obind (MakeWatchPoint eb.1) (λ ew,
      let w := ew.2 in
      if bool_decide (w_logPath w = []) then Done (ew.1, None) else
      match GetResult c (w_domain w) (w_stringId w) with
      | None => Done (ew.1, None)
      | Some l => Done (ew.1, Some (w, ScheduleEventProcessing w l))
      end))).

End Merge.
End FreezeVendor.
