(* ===== verification/FreezeFacts.v ===== *)
(** * FreezeFacts: what the freeze detector finds

    Theorems about Freeze and FreezeVendor: for every linked event the nearest
    record of the same process among those the store answers with is found; a freeze is judged by
    how many are missing; a warning is reported only when the freeze it warns of
    did not follow. *)

From S2P Require Import Prelude Platform RawData Encoder Decoder Params EventHeader Text DbFile Database LogStore.
From S2P Require Import Builder BuilderFacts BuilderOps SysEvent SysEventFacts FreezeRules Freeze FreezeValidator FreezeVendor.
From S2P Require DecodedEvent.
From stdpp Require Import base gmap list numbers strings sorting.

Local Open Scope Z_scope.
Local Open Scope hv_scope.

Module FreezeFacts.
Import Database.Database (Sorter, std_sort, sort_perm, sort_sorted, key_order).
Import DbFile.DbFile SysEvent.SysEvent SysEventFacts.SysEventFacts FreezeRules Freeze FreezeValidator FreezeVendor.
Import DecodedEvent (outcome, Done, Undefined, obind).

(** ** Reading an event *)

Section Reads.
Context `{HP : Heap} `{SC : Securec} `{!HeapTotal HP}.

(** The integer [GetEventIntValue] makes of a stored value. *)
Definition stored_int (v : option PValue) : outcome Z :=
  match v ≫= λ v, read_stored v (TyInt 64) with
  | Some (CInt _ x) => Done x
  | _ => let from_double :=
      match v ≫= λ v, read_stored v TyDouble with
      | Some (CFloat _ d) => if double_within d (- 2 ^ 63) (2 ^ 63) then double_to_int d (- 2 ^ 63) (2 ^ 63 - 1) else Done 0
      | _ => Done 0
      end in
    match v ≫= λ v, read_stored v (TyUint 64) with
    | Some (CUint _ x) => if x <=? 2 ^ 63 - 1 then Done x else from_double
    | _ => from_double
    end
  end.

Definition text_in (M : Meaning) (k : string) : bytes := match m_params M !! str k with Some (PString s) => s | _ => [] end.
Definition int_in (M : Meaning) (k : string) : outcome Z := stored_int (m_params M !! str k).

(** An event in step with [M], with these fields and marks. *)
Definition at_event (M : Meaning) (F : EventFields) (K : Marks) (e : SysEvent) : Prop := Sync e M ∧ fields e = F ∧ marks e = K.

Definition Reads {A} (M : Meaning) (F : EventFields) (K : Marks) (m : Read A) (v : A) : Prop :=
  ∀ e, at_event M F K e → ∃ e', m e = Done (e', v) ∧ at_event M F K e'.

Context (M : Meaning) (F : EventFields) (K : Marks).

Lemma reading_ret {A} (v : A) : Reads M F K (rret v) v.
Proof. intros e He. by exists e. Qed.

Lemma reading_bind {A B} (m : Read A) (k : A → Read B) v w :
  Reads M F K m v → Reads M F K (k v) w → Reads M F K (rbind m k) w.
Proof.
  intros Hm Hk e He. destruct (Hm e He) as (e1 & E1 & He1). unfold rbind. rewrite E1. cbn [obind fst snd]. by apply Hk.
Qed.

Lemma reads_event {B} (k : SysEvent → Read B) w :
  (∀ e, at_event M F K e → Reads M F K (k e) w) → Reads M F K (rbind event k) w.
Proof. intros Hk e He. unfold rbind, event. cbn [obind fst snd]. by apply Hk. Qed.

Lemma at_builder e : at_event M F K e → ∃ e' b, InitBuilder e = Done (e', b) ∧ at_event M F K e' ∧ builder_ok b ∧ meaning b = M.
Proof.
  intros (HS & HF & HK). destruct (init_builder e M HS) as (b & HI & Hb & Hm). eexists _, b.
  split; [done|]. split; [|done]. split; [by apply set_builder_sync|done].
Qed.

Lemma reads_text k : IsBaseInfo (str k) = false → Reads M F K (text k) (text_in M k).
Proof.
  intros Hk e He. destruct (at_builder e He) as (e' & b & HI & He' & Hb & Hm). exists e'. split; [|done].
  unfold text, GetEventValue. rewrite HI. cbn [obind fst snd]. do 2 f_equal.
  unfold ParseValueByKey. rewrite Hk, GetValueByKey_dict. unfold text_in. rewrite <- Hm. cbn [m_params meaning].
  by destruct (dict b !! str k) as [[]|].
Qed.

Lemma get_int_stored b key : IsBaseInfo key = false → get_int b key = stored_int (dict b !! key).
Proof. intros Hk. unfold get_int, stored_int, ParseValueByKey. rewrite Hk, !GetValueByKey_dict. done. Qed.

Lemma reads_int k v : IsBaseInfo (str k) = false → int_in M k = Done v → Reads M F K (int k) v.
Proof.
  intros Hk Hv e He. destruct (at_builder e He) as (e' & b & HI & He' & Hb & Hm). exists e'. split; [|done].
  unfold int, GetEventIntValue. rewrite HI. cbn [obind fst snd]. rewrite get_int_stored by done.
  unfold int_in in Hv. rewrite <- Hm in Hv. cbn [m_params meaning] in Hv. by rewrite Hv.
Qed.

Lemma reads_text_or k1 k2 : IsBaseInfo (str k1) = false → IsBaseInfo (str k2) = false →
  Reads M F K (text_or k1 k2) (if bool_decide (text_in M k1 = []) then text_in M k2 else text_in M k1).
Proof.
  intros H1 H2. eapply reading_bind; [by apply reads_text|]. case_bool_decide; [by apply reads_text|by apply reading_ret].
Qed.

Lemma reads_int_or k f v : IsBaseInfo (str k) = false → int_in M k = Done v → Reads M F K (int_or k f) (if v =? 0 then f F else v).
Proof.
  intros Hk Hv. eapply reading_bind; [by apply reads_int|]. zcase; [|by apply reading_ret].
  apply reads_event. intros ev (_ & HF & _). rewrite HF. apply reading_ret.
Qed.

End Reads.

(** ** Records of the store *)

(** What a record says. *)
Record View := mkView {
  v_package : bytes; v_pid : Z; v_tid : Z; v_uid : Z; v_process : bytes; v_msg : bytes; v_ext : bytes; v_external : bytes;
  v_info : bytes; v_time : Z; v_seq : Z
}.

(** The integers a record is asked for can be read. *)
Definition view_in (M : Meaning) (F : EventFields) (K : Marks) : outcome View :=
  obind (int_in M "PID") (λ pid, obind (int_in M "TID") (λ tid, obind (int_in M "UID") (λ uid,
    Done (mkView (if bool_decide (text_in M "PACKAGE_NAME" = []) then text_in M "PROCESS_NAME" else text_in M "PACKAGE_NAME")
      (if pid =? 0 then pid_ F else pid) tid (if uid =? 0 then uid_ F else uid) (text_in M "PROCESS_NAME") (text_in M "MSG")
      (text_in M "FREEZE_INFO_PATH") (text_in M "EXTERNAL_LOG") (text_in M "info_") (happenTime_ F) (seq_ K))))).

(** The watch point of a record. *)
Definition watch_of (r : FreezeResult) (v : View) : WatchPoint :=
  mkWatchPoint (v_seq v) (v_time v) (v_pid v) (v_tid v) (v_uid v) 0 [] [] (r_domain r) (r_stringId r)
    (ReplaceStr (v_msg v) (str "\n") [10]) (v_package v) (v_process v) 0 [] (SearchLogFile (v_info v)) [] [] [] [] [] (v_ext v) false
    [] [] [] [] [] [] [] [] [] [] [] (v_external v) false false false 0 0.

(** Whether a record is of the process asked for. *)
Definition matches (p : WatchParams) (r : FreezeResult) (v : View) : bool :=
  negb (bool_decide (samePackage_ r = str "true")) || same_process p (v_package v) (v_pid v) (v_tid v).

Definition pick (p : WatchParams) (r : FreezeResult) (n : Nearest) (v : View) : Nearest :=
  if negb (matches p r v) then n else
  let front := u64 (p_timestamp p - v_time v) in
  let rear := u64 (v_time v - p_timestamp p) in
  if (v_time v <? p_timestamp p) && (front <? frontInterval n) then mkNearest front (rearInterval n) (watch_of r v)
  else if frontInterval n =? UINT64_MAX then
    (if rear >=? rearInterval n then n else mkNearest (frontInterval n) rear (watch_of r v))
  else n.

Section Records.
Context `{HP : Heap} `{SC : Securec} `{!HeapTotal HP}.

Definition shows (e : SysEvent) (v : View) : Prop := ∃ M, Sync e M ∧ view_in M (fields e) (marks e) = Done v.

Lemma view_parts M F K v : view_in M F K = Done v →
  ∃ pid uid, int_in M "PID" = Done pid ∧ int_in M "TID" = Done (v_tid v) ∧ int_in M "UID" = Done uid ∧
    v_pid v = (if pid =? 0 then pid_ F else pid) ∧ v_uid v = (if uid =? 0 then uid_ F else uid) ∧
    v_package v = (if bool_decide (text_in M "PACKAGE_NAME" = []) then text_in M "PROCESS_NAME" else text_in M "PACKAGE_NAME") ∧
    v_process v = text_in M "PROCESS_NAME" ∧ v_msg v = text_in M "MSG" ∧ v_ext v = text_in M "FREEZE_INFO_PATH" ∧
    v_external v = text_in M "EXTERNAL_LOG" ∧ v_info v = text_in M "info_" ∧ v_time v = happenTime_ F ∧ v_seq v = seq_ K.
Proof.
  unfold view_in. destruct (int_in M "PID") as [pid|]; cbn [obind]; [|done]. destruct (int_in M "TID") as [tid|]; cbn [obind]; [|done].
  destruct (int_in M "UID") as [uid|]; cbn [obind]; [|done]. intros [= <-]. by exists pid, uid.
Qed.

Lemma reads_record M F K v r : view_in M F K = Done v →
  Reads M F K (of_record r (v_package v) (v_pid v) (v_tid v)) (watch_of r v).
Proof.
  intros (pid & uid & Hpid & Htid & Huid & Ep & Eu & _ & E1 & E2 & E3 & E4 & E5 & E6 & E7)%view_parts. unfold of_record, watch_of.
  rewrite Eu, E1, E2, E3, E4, E5, E6, E7.
  eapply reading_bind; [by apply reads_int_or|]. apply reads_event. intros e (_ & -> & ->).
  do 5 (eapply reading_bind; [by apply reads_text|]). apply reading_ret.
Qed.

Lemma reads_visit M F K v p r n : view_in M F K = Done v → Reads M F K (visit p r n) (pick p r n v).
Proof.
  intros Hv. pose proof (reads_record M F K v r Hv) as HR.
  destruct (view_parts M F K v Hv) as (pid & uid & Hpid & Htid & _ & Ep & _ & Ek & _ & _ & _ & _ & _ & Et & _).
  unfold visit, pick, matches. eapply reading_bind; [by apply reads_text_or|]. rewrite <- Ek.
  eapply reading_bind; [by apply reads_int_or|]. rewrite <- Ep. eapply reading_bind; [by apply reads_int|].
  rewrite negb_orb, negb_involutive. destruct (bool_decide (samePackage_ r = str "true") && _) eqn:Hs; [by apply reading_ret|].
  apply reads_event. intros e (_ & -> & _). rewrite <- Et.
  repeat case_match; try apply reading_ret; (eapply reading_bind; [exact HR|apply reading_ret]).
Qed.

Lemma get_result_views p r set vs : ∀ n,
  Forall2 shows set vs → GetResultWatchPoint p r set n = Done (foldl (pick p r) n vs).
Proof.
  intros n H. revert n. induction H as [|e v set vs (M & HS & Hv) _ IH]; intros n; [done|]. cbn [GetResultWatchPoint foldl].
  destruct (reads_visit M _ _ v p r n Hv e) as (e' & -> & _); [done|]. cbn [obind fst snd]. apply IH.
Qed.

End Records.

(** ** The nearest record *)

Section Nearest.
Context (p : WatchParams) (r : FreezeResult).

(** Of the records of the process: the latest before the event or, when there is none,
    the earliest from it on. *)
Definition nearest (vs : list View) (v : View) : Prop :=
  v ∈ vs ∧ matches p r v = true ∧
  ((v_time v < p_timestamp p ∧ ∀ u, u ∈ vs → matches p r u = true → v_time u < p_timestamp p → v_time u <= v_time v) ∨
   (p_timestamp p <= v_time v ∧ ∀ u, u ∈ vs → matches p r u = true → p_timestamp p <= v_time u ∧ v_time v <= v_time u)).

Definition none_matches (vs : list View) : Prop := ∀ u, u ∈ vs → matches p r u = false.

Definition in_time (t : Z) : Prop := 0 <= t < 2 ^ 63.

(** What the loop has found among the records seen. *)
Definition found (vs : list View) (n : Nearest) : Prop :=
  (none_matches vs ∧ n = Nearest_new) ∨
  (∃ v, nearest vs v ∧ resultWatchPoint n = watch_of r v ∧
    ((v_time v < p_timestamp p ∧ frontInterval n = p_timestamp p - v_time v) ∨
     (p_timestamp p <= v_time v ∧ frontInterval n = UINT64_MAX ∧ rearInterval n = v_time v - p_timestamp p))).

Lemma elem_of_snoc {A} (l : list A) (x u : A) : u ∈ l ++ [x] ↔ u ∈ l ∨ u = x.
Proof. by rewrite elem_of_app, list_elem_of_singleton. Qed.

(** The last record becomes the nearest, or leaves the nearest as it is. *)
Lemma nearest_front vs v : matches p r v = true → v_time v < p_timestamp p →
  (∀ u, u ∈ vs → matches p r u = true → v_time u < p_timestamp p → v_time u <= v_time v) → nearest (vs ++ [v]) v.
Proof.
  intros Hm Hlt Hu. split; [apply elem_of_snoc; by right|]. split; [done|]. left. split; [done|].
  intros u [Hin|Hin]%elem_of_snoc Hmu Hut; [by apply Hu|]. subst u. lia.
Qed.

Lemma nearest_rear vs v : matches p r v = true → p_timestamp p <= v_time v →
  (∀ u, u ∈ vs → matches p r u = true → p_timestamp p <= v_time u ∧ v_time v <= v_time u) → nearest (vs ++ [v]) v.
Proof.
  intros Hm Hlt Hu. split; [apply elem_of_snoc; by right|]. split; [done|]. right. split; [done|].
  intros u [Hin|Hin]%elem_of_snoc Hmu; [by apply Hu|]. subst u. lia.
Qed.

Lemma nearest_stays vs v w : nearest vs w →
  (matches p r v = true → (v_time w < p_timestamp p ∧ (v_time v < p_timestamp p → v_time v <= v_time w)) ∨
     (p_timestamp p <= v_time w ∧ p_timestamp p <= v_time v ∧ v_time w <= v_time v)) →
  nearest (vs ++ [v]) w.
Proof.
  intros (Hin & Hm & Hn) Hv. split; [apply elem_of_snoc; by left|]. split; [done|].
  destruct Hn as [[Hw Hn]|[Hw Hn]]; [left|right]; (split; [done|]); intros u [Hu|Hu]%elem_of_snoc Hmu; try by apply Hn.
  - subst u. destruct (Hv Hmu) as [[_ H]|[H _]]; [done|lia].
  - subst u. destruct (Hv Hmu) as [[H _]|[_ H]]; [lia|done].
Qed.

Lemma found_pick vs n v :
  in_time (p_timestamp p) → in_time (v_time v) → (∀ u, u ∈ vs → in_time (v_time u)) →
  found vs n → found (vs ++ [v]) (pick p r n v).
Proof.
  intros Ht Hv Hvs Hn. unfold in_time in *. unfold pick. destruct (matches p r v) eqn:Em; cbn [negb].
  2: { destruct Hn as [[Hnone ->]|(w & Hw & Hres)]; [left|right].
    - split; [|done]. by intros u [Hu| ->]%elem_of_snoc; [apply Hnone|].
    - exists w. split; [|done]. apply nearest_stays; [done|]. congruence. }
  assert (v_time v < p_timestamp p → u64 (p_timestamp p - v_time v) = p_timestamp p - v_time v) as Efront by (intros; apply u64_small; unfold is_u; lia).
  assert (p_timestamp p <= v_time v → u64 (v_time v - p_timestamp p) = v_time v - p_timestamp p) as Erear by (intros; apply u64_small; unfold is_u; lia).
  unfold found, UINT64_MAX in *. destruct (Z.ltb_spec (v_time v) (p_timestamp p)) as [Hlt|Hge]; cbn [andb].
  - rewrite Efront by done. destruct Hn as [[Hnone ->]|(w & Hw & Hres & Hpos)].
    + rewrite (proj2 (Z.ltb_lt _ _)) by (cbn; unfold UINT64_MAX; lia). right. exists v. split; [|cbn; auto].
      apply nearest_front; [done..|]. intros u Hu Hmu. by rewrite Hnone in Hmu.
    + pose proof Hw as (Hin & _ & Hcmp). specialize (Hvs w Hin).
      destruct (Z.ltb_spec (p_timestamp p - v_time v) (frontInterval n)).
      * right. exists v. split; [|cbn; auto]. apply nearest_front; [done..|]. intros u Hu Hmu Hut.
        destruct Hcmp as [[? Hn]|[? Hn]]; [specialize (Hn u Hu Hmu Hut)|specialize (Hn u Hu Hmu)]; lia.
      * rewrite (proj2 (Z.eqb_neq _ _)) by lia. right. exists w. split; [|done]. apply nearest_stays; [done|]. lia.
  - rewrite Erear by done. destruct Hn as [[Hnone ->]|(w & Hw & Hres & Hpos)].
    + cbn [frontInterval rearInterval Nearest_new]. unfold UINT64_MAX. rewrite Z.eqb_refl. zcase; [lia|].
      right. exists v. split; [|cbn; auto]. apply nearest_rear; [done..|]. intros u Hu Hmu. by rewrite Hnone in Hmu.
    + pose proof Hw as (Hin & _ & Hcmp). specialize (Hvs w Hin).
      destruct (Z.eqb_spec (frontInterval n) (2 ^ 64 - 1)); [destruct (Z.geb_spec (v_time v - p_timestamp p) (rearInterval n))|].
      * right. exists w. split; [|done]. apply nearest_stays; [done|]. lia.
      * right. exists v. split; [|cbn; auto]. apply nearest_rear; [done..|]. intros u Hu Hmu.
        destruct Hcmp as [[? Hn]|[? Hn]]; [lia|]. specialize (Hn u Hu Hmu). lia.
      * right. exists w. split; [|done]. apply nearest_stays; [done|]. lia.
Qed.

Lemma found_all vs : in_time (p_timestamp p) → (∀ u, u ∈ vs → in_time (v_time u)) → found vs (foldl (pick p r) Nearest_new vs).
Proof.
  intros Ht. induction vs as [|v vs IH] using rev_ind; intros Hvs.
  - left. split; [|done]. intros u Hu. by apply not_elem_of_nil in Hu.
  - rewrite foldl_snoc. apply found_pick; [done|apply Hvs, elem_of_app; right; by left|..].
    + intros u Hu. apply Hvs, elem_of_app. by left.
    + apply IH. intros u Hu. apply Hvs, elem_of_app. by left.
Qed.

End Nearest.

(** ** The events linked to an event *)

Section Links.
Context `{HP : Heap} `{SC : Securec} `{!HeapTotal HP}.

(** The store: events and what they say. *)
Context (store : list (SysEvent * View)) (run_query : bytes → bytes → Z → Z → Z → option (list SysEvent)).

Definition asked (domain stringId : bytes) (a b : Z) (ev : SysEvent * View) : Prop :=
  domain_ (fields ev.1) = domain ∧ eventName_ (fields ev.1) = stringId ∧ a <= v_time ev.2 <= b.
#[local] Instance asked_dec domain stringId a b ev : Decision (asked domain stringId a b ev).
Proof. unfold asked. apply _. Defined.

Definition stored (domain stringId : bytes) (a b : Z) : list View := (filter (asked domain stringId a b) store).*2.

Context (shown : Forall (λ ev, shows ev.1 ev.2) store).
(** A query answers with events stored that match, each once; with all of them when
    they are fewer than its limit. *)
Definition query_law : Prop := ∀ domain stringId a b set,
  run_query domain stringId a b QUERY_LIMIT = Some set →
  ∃ rest, set ++ rest ≡ₚ (filter (asked domain stringId a b) store).*1 ∧
    (Zlen (stored domain stringId a b) < QUERY_LIMIT → rest = []).

(** What is known of the events of an answer: they are stored ones that match; all of
    them unless the query fails or a hundred match. *)
Definition answer (domain stringId : bytes) (a b : Z) (vs : list View) : Prop :=
  (∃ rest, vs ++ rest ≡ₚ stored domain stringId a b) ∧
  (run_query domain stringId a b QUERY_LIMIT ≠ None → Zlen (stored domain stringId a b) < QUERY_LIMIT →
   vs ≡ₚ stored domain stringId a b).

Context (law : query_law).

Lemma queried domain stringId a b : ∃ vs, answer domain stringId a b vs ∧
  match run_query domain stringId a b QUERY_LIMIT with None => vs = [] | Some set => Forall2 shows set vs end.
Proof.
  unfold answer. destruct (run_query domain stringId a b QUERY_LIMIT) as [set|] eqn:E; cycle 1.
  { exists []. split_and!; [by exists (stored domain stringId a b)|done..]. }
  destruct (law _ _ _ _ _ E) as (rest & HP0 & Hall). apply Permutation_map_inv in HP0 as (l & El & Hl).
  symmetry in El. apply map_eq_app in El as (l1 & l2 & -> & <- & <-).
  exists l1.*2. split_and!.
  - exists l2.*2. unfold stored. by rewrite Hl, fmap_app.
  - intros _ Hn. specialize (Hall Hn). destruct l2; [|done]. rewrite app_nil_r in Hl. unfold stored. by rewrite Hl.
  - apply Forall2_fmap, Forall_Forall2_diag. apply Forall_forall. intros x Hx.
    assert (x ∈ filter (asked domain stringId a b) store) as Hx' by (rewrite Hl, elem_of_app; by left).
    apply list_elem_of_filter in Hx' as [_ Hx']. by eapply (proj1 (Forall_forall _ _) shown).
Qed.

Definition params_of (w : WatchPoint) : WatchParams := mkParams (w_pid w) (w_tid w) (w_timestamp w) (own_name w) (w_stringId w).

(** The times searched for a linked event. *)
Definition range (w : WatchPoint) (i : FreezeResult) : Z * Z :=
  let t := w_timestamp w in
  ((if window_ i >? 0 then t else t - Z.abs (window_ i) * 1000),
   (if window_ i >? 0 then t + window_ i * 1000 else t) + Z.max (delay_ i) 0 * 1000).

Definition link_ok (w : WatchPoint) (i : FreezeResult) : Prop :=
  r_domain i ≠ [] ∧ 0 <= (range w i).1 ∧ (range w i).2 < 2 ^ 63.

(** What is found for a linked event: the event itself, or the nearest event of the
    answer. *)
Definition linked (w : WatchPoint) (i : FreezeResult) (o : option WatchPoint) : Prop :=
  if window_ i =? 0 then o = Some w else
  ∃ vs, answer (r_domain i) (r_stringId i) (range w i).1 (range w i).2 vs ∧
  match o with
  | None => none_matches (params_of w) i vs
  | Some x => ∃ v, nearest (params_of w) i vs v ∧ x = watch_of i v
  end.

Lemma stored_times domain stringId a b v : v ∈ stored domain stringId a b → a <= v_time v <= b.
Proof. unfold stored. intros ([e u] & -> & [(_ & _ & H) _]%list_elem_of_filter)%list_elem_of_fmap. exact H. Qed.

Lemma nearest_perm p r vs vs' v : vs ≡ₚ vs' → nearest p r vs v → nearest p r vs' v.
Proof.
  intros HP0 (Hin & Hm & Hn). split; [by rewrite <- HP0|]. split; [done|].
  destruct Hn as [[? H]|[? H]]; [left|right]; (split; [done|]); intros u Hu; apply H; by rewrite HP0.
Qed.

Lemma answer_times domain stringId a b vs v : answer domain stringId a b vs → v ∈ vs → a <= v_time v <= b.
Proof. intros [[rest HP0] _] Hv. apply (stored_times domain stringId). rewrite <- HP0, elem_of_app. by left. Qed.

Lemma select_spec w i l a b :
  r_domain i ≠ [] → 0 <= a <= b → b < 2 ^ 63 → in_time (w_timestamp w) →
  ∃ o, SelectEventFromDB run_query a b l (params_of w) i = Done (l ++ option_list o) ∧
    ∃ vs, answer (r_domain i) (r_stringId i) a b vs ∧
    match o with None => none_matches (params_of w) i vs | Some x => ∃ v, nearest (params_of w) i vs v ∧ x = watch_of i v end.
Proof.
  intros Hd Hab Hb Ht. unfold SelectEventFromDB. rewrite gtb_false by lia.
  rewrite !(sgn_small 64) by (unfold is_s; lia). destruct (queried (r_domain i) (r_stringId i) a b) as (us & Hus & H2).
  destruct (run_query _ _ _ _ _) as [set|]; cycle 1.
  { exists None. cbn [option_list]. rewrite app_nil_r. split; [done|]. exists us. subst us. split; [done|].
    intros u Hu. by apply not_elem_of_nil in Hu. }
  rewrite (get_result_views _ _ _ us) by done. cbn [obind].
  destruct (found_all (params_of w) i us Ht) as [[Hnone ->]|(v & Hv & -> & _)].
  - intros u Hu. eapply answer_times in Hu; [|done]. unfold in_time. lia.
  - exists None. cbn [option_list]. rewrite app_nil_r. split; [done|]. by exists us.
  - exists (Some (watch_of i v)). cbn [w_domain watch_of]. rewrite bool_decide_false by done. split; [done|].
    exists us. split; [done|]. by exists v.
Qed.

(** Below the limit the nearest stored event is found. *)
Lemma linked_nearest w i o : linked w i o → window_ i ≠ 0 →
  let vs := stored (r_domain i) (r_stringId i) (range w i).1 (range w i).2 in
  run_query (r_domain i) (r_stringId i) (range w i).1 (range w i).2 QUERY_LIMIT ≠ None → Zlen vs < QUERY_LIMIT →
  match o with
  | None => none_matches (params_of w) i vs
  | Some x => ∃ v, nearest (params_of w) i vs v ∧ x = watch_of i v
  end.
Proof.
  intros H Hw vs Hq Hn. unfold linked in H. rewrite (proj2 (Z.eqb_neq _ _)) in H by done. destruct H as (us & [_ Hall] & Ho).
  specialize (Hall Hq Hn). destruct o as [x|].
  - destruct Ho as (v & Hv & ->). exists v. split; [by eapply nearest_perm|done].
  - intros u Hu. apply Ho. by rewrite Hall.
Qed.

Lemma resolve_one_spec w i l : in_time (w_timestamp w) → link_ok w i →
  ∃ o, linked w i o ∧ resolve_one run_query w l i = Done (l ++ option_list o).
Proof.
  intros Ht (Hd & Ha & Hb). unfold linked, resolve_one. fold (params_of w). unfold in_time in Ht. unfold range in *. cbn [fst snd] in *.
  destruct (Z.eqb_spec (window_ i) 0) as [H0|H0]; [by eexists|].
  assert (∀ x, 0 <= x → x * 1000 < 2 ^ 63 → in_milliseconds x = Done (x * 1000)) as Hms
    by (intros x Hx Hx'; unfold in_milliseconds, MILLISECOND; by rewrite (proj2 (Z.leb_le _ _)) by lia).
  revert Ha Hb. destruct (Z.gtb_spec (window_ i) 0) as [Hw|Hw]; intros Ha Hb.
  - rewrite Z.abs_eq, !Hms by lia. cbn [obind]. rewrite (u64_small (w_timestamp w + _)), u64_small by (unfold is_u; lia).
    edestruct (select_spec w i l (w_timestamp w)) as (o & HS & Ho); [done| |exact Hb|done|]; [lia|]. by exists o.
  - rewrite !Hms by lia. cbn [obind]. rewrite (u64_small (w_timestamp w - _)), u64_small by (unfold is_u; lia).
    edestruct (select_spec w i l (w_timestamp w - Z.abs (window_ i) * 1000)) as (o & HS & Ho); [done| |exact Hb|done|]; [lia|]. by exists o.
Qed.

(** The events found. *)
Definition present (os : list (option WatchPoint)) : list WatchPoint := omap (λ o, o) os.

Lemma resolve_all_spec w result : in_time (w_timestamp w) → (∀ i, i ∈ result → link_ok w i) → ∀ l,
  ∃ os, Forall2 (linked w) result os ∧ resolve_all run_query w result l = Done (l ++ present os).
Proof.
  intros Ht. induction result as [|i result IH]; intros Hok l.
  - exists []. split; [constructor|]. cbn. by rewrite app_nil_r.
  - destruct (resolve_one_spec w i l Ht (Hok i ltac:(by left))) as (o & Ho & HR).
    destruct (IH (λ j Hj, Hok j ltac:(by right)) (l ++ option_list o)) as (os & Hos & HR').
    exists (o :: os). split; [by constructor|]. cbn [resolve_all]. rewrite HR. cbn [obind]. rewrite HR', <- app_assoc. by destruct o.
Qed.

End Links.

(** ** The verdict *)

(** The events that are judged although one linked event is missing. *)
Definition ONE_MAY_MISS : list bytes :=
  [str "SERVICE_WARNING"; str "THREAD_BLOCK_6S"; str "LIFECYCLE_TIMEOUT"; str "THREAD_BLOCK_3S"; str "LIFECYCLE_HALF_TIMEOUT";
   str "APP_INPUT_BLOCK"].

(** When an event with these linked events found is a freeze. *)
Definition is_freeze (w : WatchPoint) (l : list WatchPoint) (result : list FreezeResult) : Prop :=
  let missing := Zlen result - Zlen l in
  if decide (w_domain w = str "ACE" ∧ w_stringId w = str "UI_BLOCK_6S")
  then missing = 1 ∧ Forall (λ x, w_stringId x ≠ str "UI_BLOCK_RECOVERED") l
  else if decide (Exists (λ i, action_ i = str "or") result) then 2 <= Zlen l
  else missing = 0 ∨ (missing = 1 ∧ w_stringId w ∈ ONE_MAY_MISS).

Lemma existsb_decide {A} (f : A → bool) (P : A → Prop) `{!∀ x, Decision (P x)} l :
  (∀ x, f x = bool_decide (P x)) → existsb f l = bool_decide (Exists P l).
Proof.
  intros Hf. induction l as [|x l IH]; [symmetry; apply bool_decide_false; by intros ?%Exists_nil|]. cbn [existsb].
  rewrite Hf, IH, <- bool_decide_or. apply bool_decide_ext. by rewrite Exists_cons.
Qed.

Lemma judged w l result : result ≠ [] → Zlen result < 2 ^ 64 → Zlen l <= Zlen result →
  JudgmentResult w l result = true ↔ is_freeze w l result.
Proof.
  intros Hne Hbig Hle. assert (0 < Zlen result) as Hpos by (destruct result; [done|]; rewrite Zlen_cons; pose proof (Zlen_nonneg result); lia).
  assert (u64 (Zlen result - 1) = Zlen result - 1) as Hu by (apply u64_small; unfold is_u; lia).
  unfold JudgmentResult, is_freeze. rewrite <- bool_decide_and.
  destruct (decide (w_domain w = str "ACE" ∧ w_stringId w = str "UI_BLOCK_6S")) as [Ha|Ha].
  { rewrite (bool_decide_true _ Ha), (existsb_decide _ (λ i, w_stringId i = str "UI_BLOCK_RECOVERED")) by done.
    destruct (Z.eqb_spec (Zlen l) (Zlen result)); [split; [done|intros [? _]; lia]|].
    destruct (Z.eqb_spec (Zlen l + 1) (Zlen result)); cbn [negb]; [|split; [done|intros [? _]; lia]].
    rewrite negb_true_iff, bool_decide_eq_false, <- Forall_Exists_neg. split; [split; [lia|done]|naive_solver]. }
  rewrite (bool_decide_false _ Ha), (existsb_decide _ (λ i, action_ i = str "or")) by done.
  destruct (decide (Exists (λ i, action_ i = str "or") result)) as [Ho|Ho].
  { rewrite bool_decide_true by done. unfold MIN_MATCH_NUM. rewrite Z.geb_le. done. }
  rewrite bool_decide_false by done. unfold IsSysWarning, IsReportWarning, IsAppFreezeWarning, IsReportAppFreezeEvent, SYS_MATCH_NUM, APP_MATCH_NUM.
  rewrite Hu. 
  assert (w_stringId w ∈ ONE_MAY_MISS ↔ w_stringId w = str "SERVICE_WARNING" ∨ w_stringId w ∈ WARNING_EVENTS ∨
    w_stringId w = str "THREAD_BLOCK_3S" ∨ w_stringId w = str "LIFECYCLE_HALF_TIMEOUT" ∨ w_stringId w = str "APP_INPUT_BLOCK") as ->
    by (unfold ONE_MAY_MISS, WARNING_EVENTS; rewrite !elem_of_cons, elem_of_nil; tauto).
  destruct (Z.eq_dec (Zlen result - Zlen l) 0) as [H0|H0]; [|destruct (Z.eq_dec (Zlen result - Zlen l) 1) as [H1|H1]].
  - rewrite (proj2 (Z.eqb_neq (Zlen l) (Zlen result - 1))), (proj2 (Z.eqb_eq _ _)) by lia. rewrite !andb_false_r. cbn. tauto.
  - rewrite (proj2 (Z.eqb_eq _ (Zlen result - 1))), (proj2 (Z.eqb_neq _ (Zlen result))) by lia.
    rewrite (proj2 (Z.geb_le _ _)) by lia. rewrite !andb_true_r.
    repeat case_bool_decide; cbn; (split; [intros; try done; right; (split; [done|]); tauto|intros [?|[_ ?]]; [lia|tauto]]).
  - rewrite (proj2 (Z.eqb_neq (Zlen l) (Zlen result - 1))), (proj2 (Z.eqb_neq _ (Zlen result))) by lia.
    rewrite !andb_false_r. cbn. destruct (Z.geb_spec (Zlen l) (Zlen result - 1)); [lia|]. rewrite andb_false_r. split; [done|intros [?|[? _]]; lia].
Qed.

(** ** From an event to its report *)

Section Process.
Context `{HP : Heap} `{SC : Securec} `{!HeapTotal HP} `{SO : Sorter}.
Context (c : FreezeRuleCluster) (GetTimeString_ TimestampFormatToDate : Z → bytes) (leak_records : Z → Z → option (list SysEvent))
  (resolve : bytes → bytes) (readable : bytes → bool) (StrToTimeStamp : bytes → Z).

Abbreviation merge_event_log := (MergeEventLog c GetTimeString_ TimestampFormatToDate leak_records resolve readable StrToTimeStamp).
Abbreviation process_event := (ProcessEvent c GetTimeString_ TimestampFormatToDate leak_records resolve readable StrToTimeStamp).

Lemma full_is_freeze w l result : ¬ (w_domain w = str "ACE" ∧ w_stringId w = str "UI_BLOCK_6S") →
  ¬ Exists (λ i, action_ i = str "or") result → Zlen l = Zlen result → is_freeze w l result.
Proof. intros Ha Ho Hl. unfold is_freeze. rewrite decide_False, decide_False by done. left. lia. Qed.

Lemma window_order : key_order (λ a b : FreezeResult, window_ a <? window_ b).
Proof. by exists window_. Qed.

Lemma sort_nil {A} (less : A → A → bool) l : std_sort less l = [] → l = [].
Proof. intros H. pose proof (sort_perm less l) as HP0. rewrite H in HP0. by apply Permutation_nil. Qed.

Lemma get_result_sorted domain stringId result : GetResult c domain stringId = Some result →
  ∃ rule, smap_get (domain ++ stringId) (rules_ c) = Some rule ∧ result ≠ [] ∧ result ≡ₚ (results_ rule).*2 ∧
    StronglySorted (λ a b, window_ a <= window_ b) result.
Proof.
  unfold GetResult. destruct (smap_get _ _) as [rule|]; [|done]. destruct (results_ rule) as [|r rs] eqn:E; [done|]. intros [= <-].
  exists rule. rewrite E. split; [done|]. split; [by intros ?%sort_nil|]. split; [refine (sort_perm _ _)|].
  apply (sorted_weaken (λ a b, (window_ b <? window_ a) = false)); [intros a b; by rewrite Z.ltb_ge|].
  refine (sort_sorted _ _ window_order).
Qed.

Lemma linked_length w store run_query result os : Forall2 (linked store run_query w) result os → Zlen (present os) <= Zlen result.
Proof.
  intros H. assert (length result = length os) as E by by eapply Forall2_length. unfold Zlen. rewrite E. clear H E.
  induction os as [|[x|] os IH]; cbn [present omap list_omap length] in *; unfold present in *; lia.
Qed.

Lemma process_spec store run_query e w d result :
  Forall (λ ev, shows ev.1 ev.2) store → query_law store run_query →
  GetResult c (w_domain w) (w_stringId w) = Some result → Zlen result < 2 ^ 64 →
  in_time (w_timestamp w) → (∀ i, i ∈ result → link_ok w i) →
  ∃ os, Forall2 (linked store run_query w) result os ∧
    (is_freeze w (present os) result → process_event run_query e w d =
      obind (merge_event_log e w (present os) d) (λ md, Done (Some md.1, md.2))) ∧
    (¬ is_freeze w (present os) result → process_event run_query e w d = Done (None, d)).
Proof.
  intros Hs Hq Hr Hbig Ht Hok. destruct (get_result_sorted _ _ _ Hr) as (rule & _ & Hne & _).
  destruct (resolve_all_spec store run_query Hs Hq w result Ht Hok []) as (os & Hos & HR). exists os. split; [done|].
  pose proof (judged w (present os) result Hne Hbig (linked_length _ _ _ _ _ Hos)) as HJ.
  unfold ProcessEvent, ResolveEvent. rewrite Hr, HR. cbn [obind app].
  split; intros Hf.
  - by rewrite (proj2 HJ Hf).
  - destruct (JudgmentResult _ _ _); [by destruct Hf; apply HJ|done].
Qed.

(** C10: an event is processed as its rule says.  For every event the rule links to,
    sorted by window, what is found is the nearest, among the stored events of that
    name and window the query answers with, of the same process where the rule asks
    for it, an earlier one before a later one, or nothing when there is none; exactly
    when what was found makes it a freeze the events found are merged into a report,
    and otherwise nothing is done.  A query that succeeds answers with all such events
    when fewer than a hundred are stored ([query_law], which [Database.Execute] has by
    [query_returns_every_match]); then the nearest of all stored events is found
    ([linked_nearest]), and only then ([crowded_window_misses_nearest]). *)
Theorem freeze_matched_and_judged store run_query e w d result :
  Forall (λ ev, shows ev.1 ev.2) store → query_law store run_query →
  GetResult c (w_domain w) (w_stringId w) = Some result → Zlen result < 2 ^ 64 →
  in_time (w_timestamp w) → (∀ i, i ∈ result → link_ok w i) →
  (∃ rule, smap_get (w_domain w ++ w_stringId w) (rules_ c) = Some rule ∧ result ≡ₚ (results_ rule).*2 ∧
    StronglySorted (λ a b, window_ a <= window_ b) result) ∧
  ∃ os, Forall2 (linked store run_query w) result os ∧
    (is_freeze w (present os) result → process_event run_query e w d =
      obind (merge_event_log e w (present os) d) (λ md, Done (Some md.1, md.2))) ∧
    (¬ is_freeze w (present os) result → process_event run_query e w d = Done (None, d)).
Proof.
  intros Hs Hq Hr Hbig Ht Hok. split; [|by apply process_spec].
  destruct (get_result_sorted _ _ _ Hr) as (rule & Hg & _ & HP0 & HS). by exists rule.
Qed.

End Process.

(** ** The kind of a report *)

(** The events that warn of a freeze half way. *)
Definition HALF_EVENTS : list bytes := [str "THREAD_BLOCK_3S"; str "LIFECYCLE_HALF_TIMEOUT"].

(** What the kind of a report says of its event and the events found. *)
Definition kind_law (c : FreezeRuleCluster) (w : WatchPoint) (l : list WatchPoint) (processName : bytes) (t : FreezeType) : Prop :=
  (w_stringId w ∈ HALF_EVENTS →
    Zlen l = 1 ∧ w_hostResourceWarning w ≠ str "TRUE" ∧ t = if w_isHicollie w then SYSWARNING else APPFREEZEWARNING) ∧
  (w_stringId w = str "SERVICE_WARNING" → Zlen l = 1 ∧ processName ∈ KEY_PROCESS ∧ t = SYSWARNING) ∧
  (w_stringId w ∈ WARNING_EVENTS → Zlen l = 1 → t = SYSWARNING) ∧
  (t = APPFREEZE → w_hostResourceWarning w ≠ str "TRUE" ∧ w_isHicollie w = false ∧
    (IsApplicationEvent c (w_domain w) (w_stringId w) = true ∨
     (w_stringId w = str "LIFECYCLE_TIMEOUT" ∧ Exists (λ x, w_reportLifecycleToFreeze x = true) l))).

Section Kinds.
Context (c : FreezeRuleCluster) (GetTimeString_ : Z → bytes).

Lemma half_names s : s ∈ HALF_EVENTS ↔ s = str "THREAD_BLOCK_3S" ∨ s = str "LIFECYCLE_HALF_TIMEOUT".
Proof. unfold HALF_EVENTS. rewrite !elem_of_cons, elem_of_nil. tauto. Qed.

Lemma initial_app_freeze w : i_type (InitLogInfo c GetTimeString_ w) = APPFREEZE → IsApplicationEvent c (w_domain w) (w_stringId w) = true.
Proof. unfold InitLogInfo. case_match. cbn [i_type]. repeat case_match; done. Qed.

Lemma judged_warning stringId type processName l t : JudgeSysWarningEvent stringId type processName l = Some t →
  (stringId ∈ HALF_EVENTS → Zlen l = 1 ∧ t = APPFREEZEWARNING) ∧
  (stringId = str "SERVICE_WARNING" → Zlen l = 1 ∧ processName ∈ KEY_PROCESS ∧ t = SYSWARNING) ∧
  (t = APPFREEZE → type = APPFREEZE).
Proof.
  unfold JudgeSysWarningEvent, APP_MATCH_NUM. rewrite half_names.
  destruct (decide (stringId = str "SERVICE_WARNING")) as [->|Hs].
  { assert (¬ (str "SERVICE_WARNING" = str "THREAD_BLOCK_3S" ∨ str "SERVICE_WARNING" = str "LIFECYCLE_HALF_TIMEOUT")) as Hn
      by (apply (bool_decide_eq_false_1 _); by vm_compute).
    rewrite <- bool_decide_or, (bool_decide_false _ Hn), bool_decide_true by done. cbn [negb andb].
    destruct (Z.eqb_spec (Zlen l) 1); cbn [negb]; [|done]. case_bool_decide; [|done]. intros [= <-]. by split_and!. }
  rewrite (bool_decide_false (stringId = str "SERVICE_WARNING")) by done. cbn [negb andb]. rewrite andb_true_r.
  rewrite <- bool_decide_or. case_bool_decide as Hh; cbn [negb].
  - destruct (Z.eqb_spec (Zlen l) 1); cbn [negb]; [|done]. intros [= <-]. by split_and!.
  - intros [= <-]. by split_and!.
Qed.

Lemma half_not_warning s : s ∈ HALF_EVENTS → s ∉ WARNING_EVENTS ∧ s ≠ str "LIFECYCLE_TIMEOUT" ∧ s ≠ [].
Proof. rewrite half_names. intros [-> | ->]; by split_and!; apply (bool_decide_eq_true_1 _); vm_compute. Qed.

Lemma converted w l type : w_stringId w ≠ [] →
  CovertFreezeType type w l =
    (if decide (w_stringId w = str "LIFECYCLE_TIMEOUT" ∧ 1 < Zlen l ∧ Exists (λ x, w_reportLifecycleToFreeze x = true) l) then APPFREEZE
     else if decide (w_stringId w ∈ WARNING_EVENTS ∧ Zlen l = 1) then SYSWARNING else type).
Proof.
  intros Hne. unfold CovertFreezeType, IsReportAppFreezeEvent, APP_MATCH_NUM. rewrite (bool_decide_false (w_stringId w = [])) by done.
  rewrite (existsb_decide _ (λ x, w_reportLifecycleToFreeze x = true)) by (intros x; by destruct (w_reportLifecycleToFreeze x)).
  assert ((bool_decide (w_stringId w ∈ WARNING_EVENTS) && (Zlen l =? 1)) = bool_decide (w_stringId w ∈ WARNING_EVENTS ∧ Zlen l = 1)) as ->
    by (rewrite bool_decide_and; f_equal; apply Bool.eq_iff_eq_true; rewrite Z.eqb_eq, bool_decide_eq_true; done).
  rewrite !decide_bool_decide. rewrite !bool_decide_and.
  case_bool_decide as Hl; cbn [negb andb]; [|done]. destruct (Z.leb_spec (Zlen l) 1).
  - rewrite (bool_decide_false (1 < Zlen l)) by lia. done.
  - rewrite (bool_decide_true (1 < Zlen l)) by lia. done.
Qed.

Lemma loaded type w t : CovertHighLoadToWarning type w = Some t →
  (w_hostResourceWarning w ≠ str "TRUE" ∧ t = (if w_isHicollie w then SYSWARNING else type)) ∨
  (w_hostResourceWarning w = str "TRUE" ∧ type ≠ APPFREEZEWARNING ∧ t = if decide (type = SYSWARNING) then SYSWARNING else SYSFREEZE).
Proof.
  unfold CovertHighLoadToWarning. case_bool_decide; [|intros [= <-]; by left].
  case_bool_decide; [done|]. intros [= <-]. right. split_and!; [done..|]. by rewrite decide_bool_decide.
Qed.

Lemma kind_lawful w l i : ValidateAndInitType c GetTimeString_ w l = Some i → kind_law c w l (i_processName i) (i_type i).
Proof.
  unfold ValidateAndInitType. destruct (JudgeSysWarningEvent _ _ _ _) as [t1|] eqn:E1; [|done].
  destruct (CovertHighLoadToWarning _ _) as [t|] eqn:E2; [|done]. intros [= <-]. cbn [i_processName i_type].
  apply judged_warning in E1 as (Hh & Hs & Ha). pose proof (loaded _ _ _ E2) as HL. split_and!.
  - intros H. destruct (Hh H) as [? ->]. destruct (half_not_warning _ H) as (Hn & Hl & Hz). rewrite converted in HL by done.
    rewrite !decide_False in HL by tauto. destruct HL as [[? ->]|(? & ? & _)]; done.
  - intros H. destruct (Hs H) as (? & ? & ->). rewrite converted in HL by (by rewrite H).
    rewrite decide_False in HL by (by rewrite H; intros [?%(f_equal length) _]).
    assert ((if decide (w_stringId w ∈ WARNING_EVENTS ∧ Zlen l = 1) then SYSWARNING else SYSWARNING) = SYSWARNING) as Hif by by case_decide.
    rewrite Hif in HL. split_and!; [done..|]. destruct HL as [[_ ->]|(_ & _ & ->)]; [by destruct (w_isHicollie w)|by rewrite decide_True].
  - intros H H1. assert (w_stringId w ≠ []) as Hz by (intros E; rewrite E in H; revert H; apply (bool_decide_eq_false_1 ([] ∈ WARNING_EVENTS)); by vm_compute).
    rewrite converted in HL by done. rewrite decide_False, decide_True in HL by (done || lia).
    destruct HL as [[_ ->]|(_ & _ & ->)]; [by destruct (w_isHicollie w)|by rewrite decide_True].
  - intros ->. destruct HL as [[? Ht]|(_ & _ & Ht)]; [|by case_decide]. split; [done|]. destruct (w_isHicollie w); [done|]. split; [done|].
    destruct (decide (w_stringId w = [])) as [Hz|Hz].
    + left. apply (initial_app_freeze w), Ha. unfold CovertFreezeType in Ht. rewrite bool_decide_true in Ht by done. done.
    + rewrite converted in Ht by done. case_decide as Hd; [right; tauto|]. case_decide; [done|]. left. apply (initial_app_freeze w), Ha. done.
Qed.

End Kinds.

Section Reports.
Context `{HP : Heap} `{SC : Securec} `{SO : Sorter}.
Context (c : FreezeRuleCluster) (GetTimeString_ TimestampFormatToDate : Z → bytes) (leak_records : Z → Z → option (list SysEvent))
  (resolve : bytes → bytes) (readable : bytes → bool) (StrToTimeStamp : bytes → Z).

Lemma merged_kind e w l d info d' :
  MergeEventLog c GetTimeString_ TimestampFormatToDate leak_records resolve readable StrToTimeStamp e w l d = Done (Reported info, d') →
  ∃ i, ValidateAndInitType c GetTimeString_ w l = Some i ∧ info_faultLogType info = faultLogType_of (i_type i) ∧
    info_module info = i_processName i.
Proof.
  unfold MergeEventLog. destruct (ValidateAndInitType _ _ _ _) as [i|]; [|done]. case_match; [done|].
  destruct (DumpEventInfo _ _ _ _); cbn [obind]; [|done]. destruct (InitLogBody _ _ _ _ _ _ _) as [[b|]|]; cbn [obind]; [|done..].
  destruct (LogStore.LogStore.CreateLogFile _ _ _ _ _) as [fd d1]. case_match; [done|]. destruct (MergeFreezeExtFile _ _ _ _ _) as [f d2].
  intros [= <- <-]. exists i. unfold SendFaultLog. case_match. by cbn.
Qed.

(** C12: the kind of a report agrees with what was found.  An event that warns of a
    freeze half way ([HALF_EVENTS]) is reported only when one event, and no other, was
    found, so not when the freeze came after it, only without high load, and as a
    warning, of the system for a watched task and of the application otherwise; a
    SERVICE_WARNING is reported only when found alone, only for a key process, and as
    a system warning; a freeze of [WARNING_EVENTS] (THREAD_BLOCK_6S and
    LIFECYCLE_TIMEOUT) found alone is a system warning; and a report of any event is
    an application's freeze only without high load, not for a watched task, and only
    for an application's event or a lifecycle timeout with an event found that asks
    for it.  Other events found alone keep their kind. *)
Theorem reported_kind_lawful run_query e w d info d' :
  ProcessEvent c GetTimeString_ TimestampFormatToDate leak_records resolve readable StrToTimeStamp run_query e w d =
    Done (Some (Reported info), d') →
  ∃ l result t, ResolveEvent run_query c w = Done (Some (l, result)) ∧ JudgmentResult w l result = true ∧
    info_faultLogType info = faultLogType_of t ∧ kind_law c w l (info_module info) t.
Proof.
  unfold ProcessEvent. destruct (ResolveEvent run_query c w) as [[[l result]|]|] eqn:ER; cbn [obind]; [|done..].
  destruct (JudgmentResult w l result) eqn:EJ; [|done].
  destruct (MergeEventLog _ _ _ _ _ _ _ _ _ _ _) as [[m d1]|] eqn:EM; cbn [obind fst snd]; [|done]. intros [= -> ->].
  apply merged_kind in EM as (i & EV & -> & ->). exists l, result, (i_type i). split_and!; [done..|].
  by apply (kind_lawful c GetTimeString_).
Qed.

End Reports.

(** ** Instances *)

(** The sample event in the store, and an event half a second later whose rule links
    it and itself. *)
Definition sample_event : SysEvent :=
  match SysEvent_new (Some sample_raw) 7 0 with Done e => e | Undefined _ => event_empty 0 end.

Definition sample_view : View := mkView [] (pid_ (fields sample_event)) 0 (uid_ (fields sample_event)) [] [] [] [] []
  (happenTime_ (fields sample_event)) (seq_ (marks sample_event)).

Definition sample_store : list (SysEvent * View) := [(sample_event, sample_view)].

Definition sample_watch (domain stringId : bytes) (t : Z) : WatchPoint :=
  mkWatchPoint 1 t 77 77 20010043 20010043 [] [] domain stringId (str "msg") (str "com.demo") [] 12 (str "Yes") (str "nolog")
    [] [] [] [] [] [] false [] [] [] [] [] [] [] [] [] [] [] [] false false false 0 0.

Definition sample_link (window : Z) (domain stringId : bytes) : FreezeResult :=
  mkResult window 0 1 (str "app") [] domain stringId (str "and").

Definition sample_rules (domain stringId : bytes) (links : list FreezeResult) : FreezeRuleCluster :=
  mkCluster [(domain ++ stringId, mkRule domain stringId ((λ i, (r_domain i ++ r_stringId i, i)) <$> links))]
    (mkPairs [(stringId, (domain, true))] [] [] []).

Definition sample_block : WatchPoint := sample_watch (str "AAFWK") (str "THREAD_BLOCK_6S") (happenTime_ (fields sample_event) + 500).
Definition sample_links : list FreezeResult :=
  [sample_link (-10) (str "HIVIEW") (str "SAMPLE"); sample_link 0 (str "AAFWK") (str "THREAD_BLOCK_6S")].

(** The first records are answered, one more than the limit. *)
Definition sample_query (store : list (SysEvent * View)) (domain stringId : bytes) (a b limit : Z) : option (list SysEvent) :=
  Some (take (Z.to_nat (limit + 1)) (filter (asked domain stringId a b) store).*1).

Lemma sample_query_law store : query_law store (sample_query store).
Proof.
  intros domain stringId a b set [= <-]. unfold stored. set (l := filter (asked domain stringId a b) store).
  exists (drop (Z.to_nat (QUERY_LIMIT + 1)) l.*1). split; [by rewrite take_drop|].
  unfold Zlen. rewrite length_fmap. intros Hn. apply drop_ge. rewrite length_fmap. lia.
Qed.

Lemma sample_shown : Forall (λ ev, shows ev.1 ev.2) sample_store.
Proof.
  assert (Zlen (builder_block sample_builder) <= DecodedEvent.MAX_BLOCK_SIZE) as HS by by vm_compute.
  destruct (Build_block sample_builder sample_raw sample_builder_ok HS sample_build) as [Hu Hc].
  destruct (new_event_sync sample_builder sample_raw 7 0 sample_builder_ok sample_fits Hu Hc) as (e & HN & HY & _).
  constructor; [|constructor]. exists (meaning sample_builder). unfold sample_event. cbn [fst snd].
  replace (SysEvent_new (Some sample_raw) 7 0) with (Done e). split; [exact HY|].
  assert (e = sample_event) as -> by (unfold sample_event; by rewrite HN). by vm_compute.
Qed.

(** No report needs a second service: the environment of the instances. *)
Definition sample_env : Env := mkEnv 100 200 (str "300") 3 4 5 [] 5000 (λ _, None) ∅.

#[local] Abbreviation sample_process run_query c w d :=
  (ProcessEvent (SO := Database.Database.merge_sorter) c (λ _, str "20231114221320") (λ _, str "2023/11/14-22:13:20") (λ _ _, None)
    (λ p, p) (λ _, true) (λ _, 0) run_query sample_env w d).
#[local] Abbreviation sample_merge c w l d :=
  (MergeEventLog (SO := Database.Database.merge_sorter) c (λ _, str "20231114221320") (λ _, str "2023/11/14-22:13:20") (λ _ _, None)
    (λ p, p) (λ _, true) (λ _, 0) sample_env w l d).

Lemma sample_link_ok i : i ∈ sample_links → link_ok sample_block i.
Proof.
  assert (Forall (link_ok sample_block) sample_links) as H by (repeat constructor; vm_compute; congruence).
  intros Hi. exact (proj1 (Forall_forall _ _) H i Hi).
Qed.

(** The sample event is found for the event that links it, and both are merged. *)
Lemma freeze_matched_and_judged_witness :
  let c := sample_rules (str "AAFWK") (str "THREAD_BLOCK_6S") sample_links in
  sample_process (sample_query sample_store) c sample_block ∅ =
    obind (sample_merge c sample_block [watch_of (sample_link (-10) (str "HIVIEW") (str "SAMPLE")) sample_view; sample_block] ∅)
      (λ md, Done (Some md.1, md.2)).
Proof.
  intros c.
  destruct (freeze_matched_and_judged (SO := Database.Database.merge_sorter) c (λ _, str "20231114221320") (λ _, str "2023/11/14-22:13:20")
    (λ _ _, None) (λ p, p) (λ _, true) (λ _, 0) sample_store (sample_query sample_store) sample_env sample_block ∅ sample_links)
    as (_ & os & Hos & HY & _); [apply sample_shown|apply sample_query_law|by vm_compute|done|by vm_compute|apply sample_link_ok|].
  assert (stored sample_store (str "HIVIEW") (str "SAMPLE") (range sample_block (sample_link (-10) (str "HIVIEW") (str "SAMPLE"))).1
    (range sample_block (sample_link (-10) (str "HIVIEW") (str "SAMPLE"))).2 = [sample_view]) as Hst by by vm_compute.
  inversion Hos as [|? o1 ? ? H1 H2]. subst. inversion H2 as [|? o2 ? ? H3 H4]. subst. inversion H4. subst.
  change (o2 = Some sample_block) in H3. subst o2. apply linked_nearest in H1; [|done|done|by vm_compute].
  change (r_domain (sample_link (-10) (str "HIVIEW") (str "SAMPLE"))) with (str "HIVIEW") in H1.
  change (r_stringId (sample_link (-10) (str "HIVIEW") (str "SAMPLE"))) with (str "SAMPLE") in H1.
  rewrite Hst in H1. destruct o1 as [x|].
  - destruct H1 as (v & (Hv%list_elem_of_singleton & _) & ->). subst v. apply HY.
    apply full_is_freeze; [by apply (bool_decide_eq_false_1 _); vm_compute..|done].
  - specialize (H1 sample_view ltac:(by apply list_elem_of_singleton)). by vm_compute in H1.
Defined.

(** The same event two tenths of a second later. *)
Definition later_event : SysEvent :=
  let F := fields sample_event in
  mkSysEvent (mkFields (domain_ F) (eventName_ F) (eventType_ F) (happenTime_ F + 200) (tz_ F) (pid_ F) (tid_ F) (uid_ F))
    (marks sample_event) (log_ sample_event) (rawData_ sample_event) (builder_ sample_event) (isUpdated_ sample_event)
    (bundle_ sample_event).

Definition later_view : View := mkView [] (pid_ (fields sample_event)) 0 (uid_ (fields sample_event)) [] [] [] [] []
  (happenTime_ (fields sample_event) + 200) (seq_ (marks sample_event)).

(** With more events in the window than a query answers the nearest can be missed: a
    hundred and one are before it. *)
Lemma crowded_window_misses_nearest :
  let i := sample_link (-10) (str "HIVIEW") (str "SAMPLE") in
  let store := replicate 101 (sample_event, sample_view) ++ [(later_event, later_view)] in
  let resolved store := resolve_one (sample_query store) sample_block [] i in
  resolved [(sample_event, sample_view); (later_event, later_view)] = Done [watch_of i later_view] ∧
  resolved store = Done [watch_of i sample_view].
Proof. split; vm_compute; reflexivity. Qed.

(** Half of the time of a freeze is over and nothing else was recorded. *)
Definition sample_half : WatchPoint := sample_watch (str "AAFWK") (str "THREAD_BLOCK_3S") 1700000500.
Definition sample_half_links : list FreezeResult :=
  [sample_link 0 (str "AAFWK") (str "THREAD_BLOCK_3S"); sample_link 10 (str "AAFWK") (str "THREAD_BLOCK_6S")].
Definition sample_half_rules : FreezeRuleCluster := sample_rules (str "AAFWK") (str "THREAD_BLOCK_3S") sample_half_links.

Lemma reported_kind_lawful_witness :
  match sample_process (λ _ _ _ _ _, Some []) sample_half_rules sample_half ∅ with
  | Done (Some (Reported info), d) => info_faultLogType info = 7
  | _ => False
  end.
Proof.
  assert (match sample_process (λ _ _ _ _ _, Some []) sample_half_rules sample_half ∅ with
          | Done (Some (Reported _), _) => True | _ => False end) as HR by (vm_compute; exact I).
  destruct (sample_process _ _ _ _) as [[[[| |info]|] d]|] eqn:E; [contradiction..| |contradiction|contradiction].
  destruct (reported_kind_lawful (SO := Database.Database.merge_sorter) _ _ _ _ _ _ _ _ _ _ _ _ _ E) as (l & result & t & _ & _ & -> & Hh & _).
  destruct Hh as (_ & _ & ->); [apply list_elem_of_here|]. by vm_compute.
Defined.

End FreezeFacts.
