(* ===== verification/FreezeTrust.v ===== *)
(** * FreezeTrust: what the freeze detector takes from an application

    Theorems about FreezeValidator and FreezeVendor: what an accepted event of an
    application makes the detector believe is about that application and harmless,
    and a report holds nothing of files outside the log folders. *)

From S2P Require Import Prelude Platform RawData Encoder Decoder Params EventHeader Text DbFile Database LogStore JsonPrint.
From S2P Require Import Builder BuilderFacts BuilderOps SysEvent SysEventFacts FreezeRules Freeze FreezeValidator FreezeVendor FreezeFacts.
From S2P Require DecodedEvent.
From stdpp Require Import base gmap list numbers strings.

Local Open Scope Z_scope.
Local Open Scope hv_scope.

Module FreezeTrust.
Import Database.Database (Sorter).
Import LogStore.LogStore (Files).
Import DbFile.DbFile SysEvent.SysEvent SysEventFacts.SysEventFacts FreezeRules Freeze FreezeValidator FreezeVendor FreezeFacts.
Import DecodedEvent (outcome, Done, Undefined, obind).

(** ** Emptying a text *)

Definition emptied (k : string) (M : Meaning) : Meaning := M_params (λ m, <[str k := PString []]> m) M.

Lemma text_bytes_shrink k s : Zlen (param_bytes k (PString [])) <= Zlen (param_bytes k (PString s)).
Proof.
  unfold param_bytes. rewrite !Zlen_app. cbn [value_bytes]. unfold lstring. rewrite !Zlen_app.
  pose proof (uvarint_len LENGTH_DELIMITED (Zlen s)). pose proof (Zlen_nonneg s).
  change (Zlen (uvarint LENGTH_DELIMITED (Zlen (@nil Z)))) with 1. change (Zlen (@nil Z)) with 0.
  change (type_bytes (PString s)) with (type_bytes (PString [])). lia.
Qed.

Lemma emptied_size (k s : bytes) (m : gmap bytes PValue) : m !! k = Some (PString s) →
  sum_of (λ kv : bytes * PValue, Zlen (param_bytes kv.1 kv.2)) (map_to_list (<[k := PString []]> m)) <=
  sum_of (λ kv, Zlen (param_bytes kv.1 kv.2)) (map_to_list m).
Proof.
  intros Hk. assert (m = <[k := PString s]> (delete k m)) as Em by (by rewrite insert_delete_eq, insert_id).
  rewrite <- insert_delete_eq. rewrite Em at 2.
  assert (delete k m !! k = None) as Hd by apply lookup_delete_eq.
  rewrite !(sum_of_perm _ _ _ (map_to_list_insert _ _ _ Hd)), !sum_of_cons. cbn [fst snd]. pose proof (text_bytes_shrink k s). lia.
Qed.

Lemma emptied_fits k M s : m_params M !! str k = Some (PString s) → M_fits M → M_fits (emptied k M).
Proof.
  intros Hk [Hn Hs]. split.
  - cbn [m_params emptied M_params]. rewrite map_size_insert_Some by (by eexists). done.
  - unfold event_size in *. cbn [m_params emptied M_params m_header]. pose proof (emptied_size (str k) s (m_params M) Hk). lia.
Qed.

(** ** What holds when a reading returns *)

Section Ensures.
Context `{HP : Heap} `{SC : Securec} `{!HeapTotal HP}.
Context (F : EventFields) (K : Marks).

Definition Ens {A} (M : Meaning) (m : Read A) (Q : A → Meaning → Prop) : Prop :=
  ∀ e e' v, at_event M F K e → m e = Done (e', v) → ∃ M', at_event M' F K e' ∧ Q v M'.

Lemma ens_reads {A} M (m : Read A) v (Q : A → Meaning → Prop) : Reads M F K m v → Q v M → Ens M m Q.
Proof. intros Hm HQ e e' v' He E. destruct (Hm e He) as (e1 & E1 & He1). rewrite E1 in E. injection E as -> ->. by exists M. Qed.

Lemma ens_ret {A} M (v : A) (Q : A → Meaning → Prop) : Q v M → Ens M (rret v) Q.
Proof. apply ens_reads, reading_ret. Qed.

Lemma ens_bind {A B} M (m : Read A) (k : A → Read B) (Q : B → Meaning → Prop) :
  Ens M m (λ v M', Ens M' (k v) Q) → Ens M (rbind m k) Q.
Proof.
  intros Hm e e' v He. unfold rbind. destruct (m e) as [[e1 v1]|] eqn:E; cbn [obind fst snd]; [|done].
  destruct (Hm e e1 v1 He E) as (M1 & He1 & Hk). by apply Hk.
Qed.

Lemma ens_event {B} M (k : SysEvent → Read B) (Q : B → Meaning → Prop) :
  (∀ e, at_event M F K e → Ens M (k e) Q) → Ens M (rbind event k) Q.
Proof. intros Hk e e' v He. unfold rbind, event. cbn [obind fst snd]. by apply Hk. Qed.

Lemma ens_text M k (Q : bytes → Meaning → Prop) : IsBaseInfo (str k) = false → Q (text_in M k) M → Ens M (text k) Q.
Proof. intros Hk. by apply ens_reads, reads_text. Qed.

(** An integer of any key; the one stored when the key is a parameter's. *)
Lemma ens_int M k (Q : Z → Meaning → Prop) :
  (∀ v, (IsBaseInfo (str k) = false → int_in M k = Done v) → Q v M) → Ens M (int k) Q.
Proof.
  intros HQ e e' v He. unfold int, GetEventIntValue. destruct (at_builder M F K e He) as (e1 & b & -> & He1 & Hb & Hm).
  cbn [obind fst snd]. destruct (get_int b (str k)) as [x|] eqn:E; cbn [obind]; [|done]. intros [= <- <-]. exists M. split; [done|].
  apply HQ. intros Hk. rewrite get_int_stored in E by done. unfold int_in. by rewrite <- Hm.
Qed.

Lemma ens_int_or M k f (Q : Z → Meaning → Prop) : IsBaseInfo (str k) = false →
  (∀ v, int_in M k = Done v → Q (if v =? 0 then f F else v) M) → Ens M (int_or k f) Q.
Proof.
  intros Hk HQ. apply ens_bind, ens_int. intros v Hv. specialize (HQ v (Hv Hk)). destruct (v =? 0).
  - apply ens_event. intros e (_ & HF & _). rewrite HF. by apply ens_ret.
  - by apply ens_ret.
Qed.

(** *** Checks *)

Abbreviation Accepts M m P := (Ens M m (λ (b : bool) M', b = true → P M')).

Lemma accepts_check M b (k : Read bool) (P : Meaning → Prop) : (b = true → Accepts M k P) → Accepts M (check b k) P.
Proof. intros Hk. destruct b; cbn [check]; [by apply Hk|by apply ens_ret]. Qed.

Lemma accepts_then M (m k : Read bool) (P P' : Meaning → Prop) :
  Accepts M m P' → (∀ M', P' M' → Accepts M' k P) → Accepts M (rbind m (λ b, check b k)) P.
Proof.
  intros Hm Hk. apply ens_bind. intros e e' v He E. destruct (Hm e e' v He E) as (M' & He' & HP'). exists M'. split; [done|].
  apply accepts_check. intros Hv. by apply Hk, HP'.
Qed.

Lemma accepts_ret M b (P : Meaning → Prop) : (b = true → P M) → Accepts M (rret b) P.
Proof. intros H. by apply ens_ret. Qed.

Lemma accepts_fields M fields ok (k : Read bool) (P : Meaning → Prop) : Forall (λ f, IsBaseInfo (str f) = false) fields →
  (Forall (λ f, ok (text_in M f) = true) fields → Accepts M k P) → Accepts M (all_fields fields ok k) P.
Proof.
  induction fields as [|f fields IH]; intros Hf Hk; [by apply Hk|]. inversion Hf. subst. cbn [all_fields].
  apply ens_bind, ens_text; [done|]. apply accepts_check. intros Hok. apply IH; [done|]. intros H. apply Hk. by constructor.
Qed.

Lemma accepts_binds M key sender (k : Read bool) (P : Meaning → Prop) : IsBaseInfo (str key) = false →
  ((∀ v, int_in M key = Done v → v = 0 ∨ v = sender) → Accepts M k P) → Accepts M (binds key sender k) P.
Proof.
  intros Hb Hk. apply ens_bind, ens_int. intros v Hv. apply ens_bind, ens_text; [done|]. apply accepts_check. intros Hc. apply Hk.
  rewrite (Hv Hb). intros x [= <-]. destruct (Z.eqb_spec v 0); [by left|]. right. cbn in Hc. by apply Z.eqb_eq in Hc.
Qed.

Lemma ens_clear M k (Q : () → Meaning → Prop) : IsBaseInfo (str k) = false → text_in M k ≠ [] →
  Zlen (param_bytes (str k) (PString [])) <= LEN_MAX → Q tt (emptied k M) → Ens M (set_text k []) Q.
Proof.
  intros Hk Ht Hl HQ e e' v (HS & HF & HK). unfold text_in in Ht.
  destruct (m_params M !! str k) as [[| | | | | |s|]|] eqn:Hs; try done.
  assert (spec_op (OpSetValue (str k) (CString []) false) M = emptied k M) as Hop by done.
  destruct (sync_set_value e M (str k) (CString []) false HS) as (e1 & E1 & HS1).
  - split; [done|]. split; [exact I|done].
  - rewrite Hop. by apply (emptied_fits _ _ s), HS.
  - unfold set_text. rewrite E1. cbn [obind]. intros [= <- _]. exists (emptied k M). split; [|by destruct v].
    rewrite Hop in HS1. split; [done|]. revert E1. unfold SetEventValue.
    destruct (init_builder e M HS) as (b & -> & _). cbn [obind fst snd]. by intros [= <-].
Qed.

Lemma ens_json M (Q : bytes → Meaning → Prop) : (∀ j, Q j M) → Ens M SysEvent_AsJsonStr Q.
Proof.
  intros HQ e e' v (HS & HF & HK). destruct (sync_as_raw e M HS) as (e1 & r & E & Hr & _ & HS1). unfold SysEvent_AsJsonStr.
  rewrite E. cbn [obind fst snd]. rewrite Hr. destruct (DecodedEvent.DecodedEvent_new _ _); cbn [obind]; [|done].
  intros [= <- <-]. exists M. split; [|apply HQ]. split; [done|]. revert E. unfold TryToUpdateRawData.
  destruct (rawData_ e); [|done]. destruct (isUpdated_ e); cbn [negb]; [|by intros [= <-]].
  destruct (init_builder e M HS) as (b & -> & _). cbn [obind fst snd]. destruct (Build _) as [[raw|] b1]; by intros [= <-].
Qed.

End Ensures.

(** ** The validator *)

Section Trust.
Context `{HP : Heap} `{SC : Securec} `{!HeapTotal HP}.
Context (lstat : bytes → option Z) (FileExists : bytes → bool) (F : EventFields) (K : Marks).

(** What an application may say of itself. *)
Definition Tame (M : Meaning) : Prop :=
  0 < pid_ F ∧
  (∀ v, int_in M "PID" = Done v → v = 0 ∨ v = pid_ F) ∧
  (∀ v, int_in M "UID" = Done v → v = 0 ∨ v = uid_ F) ∧
  Forall (λ f, text_in M f = [] ∨ IsSafeName (text_in M f) = true) GetNameFields ∧
  Forall (λ f, text_in M f = [] ∨ IsAcceptedPath lstat (text_in M f) (uid_ F) = true) GetPathFields ∧
  Forall (λ f, Zlen (text_in M f) <= MAX_SMALL_CONTENT_LEN) GetSmallContentFields ∧
  Forall (λ f, Zlen (text_in M f) <= MAX_LARGE_CONTENT_LEN) GetLargeContentFields ∧
  only DIGITS (text_in M "APP_RUNNING_UNIQUE_ID") = true.

Lemma text_emptied k k' M : str k ≠ str k' → text_in (emptied k M) k' = text_in M k'.
Proof. intros H. unfold text_in. cbn [m_params emptied M_params]. by rewrite lookup_insert_ne. Qed.

Lemma int_emptied k k' M : str k ≠ str k' → int_in (emptied k M) k' = int_in M k'.
Proof. intros H. unfold int_in. cbn [m_params emptied M_params]. by rewrite lookup_insert_ne. Qed.

Lemma fields_emptied k M fields (P : bytes → Prop) : Forall (λ f, str k ≠ str f) fields →
  Forall (λ f, P (text_in M f)) fields → Forall (λ f, P (text_in (emptied k M) f)) fields.
Proof. intros Hn Hf. rewrite Forall_forall in Hn, Hf |- *. intros f Hin. rewrite text_emptied by auto. auto. Qed.

#[local] Ltac differ := apply (bool_decide_eq_true_1 _); vm_compute; reflexivity.

Lemma tame_emptied M : Tame M → Tame (emptied "HICOLLIE_BINDER_INFO" M).
Proof.
  unfold Tame. intros (H1 & H2 & H3 & H4 & H5 & H6 & H7 & H8). rewrite !int_emptied, text_emptied by differ.
  split_and!; [done|done|done| | | | |done].
  - apply (fields_emptied _ _ _ (λ t, t = [] ∨ IsSafeName t = true)); [differ|done].
  - apply (fields_emptied _ _ _ (λ t, t = [] ∨ IsAcceptedPath lstat t (uid_ F) = true)); [differ|done].
  - apply (fields_emptied _ _ _ (λ t, Zlen t <= MAX_SMALL_CONTENT_LEN)); [differ|done].
  - apply (fields_emptied _ _ _ (λ t, Zlen t <= MAX_LARGE_CONTENT_LEN)); [differ|done].
Qed.

Lemma forall_bool {A} (f : A → bool) (P : A → Prop) l : (∀ x, f x = true → P x) → Forall (λ x, f x = true) l → Forall P l.
Proof. intros H Hf. eapply Forall_impl; [exact Hf|exact H]. Qed.

Lemma empty_or (b1 : bool) (P : Prop) `{!Decision P} : bool_decide P || b1 = true → P ∨ b1 = true.
Proof. rewrite orb_true_iff, bool_decide_eq_true. done. Qed.

Abbreviation Accepts M m P := (Ens F K M m (λ (b : bool) M', b = true → P M')).

Lemma stripped M : Tame M →
  Accepts M StripUntrustedBinderInfo (λ M', Tame M' ∧ text_in M' "HICOLLIE_BINDER_INFO" = []).
Proof.
  intros HT. apply ens_bind, ens_text; [by vm_compute|]. case_bool_decide as Hi; [by apply ens_ret|].
  apply ens_bind, ens_clear; [by vm_compute|done|by vm_compute|]. apply ens_ret. intros _. split; [by apply tame_emptied|].
  unfold text_in. cbn [m_params emptied M_params]. by rewrite lookup_insert_eq.
Qed.

Lemma identity M :
  Accepts M CheckIdentityFields (λ M', M' = M ∧ 0 < pid_ F ∧
    (∀ v, int_in M "PID" = Done v → v = 0 ∨ v = pid_ F) ∧ (∀ v, int_in M "UID" = Done v → v = 0 ∨ v = uid_ F)).
Proof.
  unfold CheckIdentityFields. apply ens_event. intros e (_ & HF & _). rewrite HF. apply accepts_check. intros Hp%Z.gtb_lt.
  apply accepts_binds; [by vm_compute|]. intros Hpid. apply accepts_binds; [by vm_compute|]. intros Huid.
  apply ens_bind, ens_text; [by vm_compute|]. by apply accepts_ret.
Qed.

Lemma contents M (k : Read bool) (P : Meaning → Prop) :
  (Forall (λ f, Zlen (text_in M f) <= MAX_SMALL_CONTENT_LEN) GetSmallContentFields →
   Forall (λ f, Zlen (text_in M f) <= MAX_LARGE_CONTENT_LEN) GetLargeContentFields →
   only DIGITS (text_in M "APP_RUNNING_UNIQUE_ID") = true → Accepts M k P) → Accepts M (CheckContentFields k) P.
Proof.
  intros Hk. apply ens_bind, ens_json. intros j. apply accepts_check. intros _.
  apply accepts_fields; [differ|]. intros H1. apply accepts_fields; [differ|]. intros H2.
  apply ens_bind, ens_text; [by vm_compute|]. apply accepts_check. intros H3.
  apply Hk; [eapply forall_bool; [|exact H1]|eapply forall_bool; [|exact H2]|done]; intros f; apply Z.leb_le.
Qed.

Lemma untrusted_tame M :
  Accepts M (ValidateUntrustedEvent lstat) (λ M', Tame M' ∧ text_in M' "HICOLLIE_BINDER_INFO" = []).
Proof.
  eapply accepts_then; [apply identity|]. intros M' (-> & Hp & Hpid & Huid).
  apply accepts_fields; [differ|]. intros _. apply accepts_fields; [differ|]. intros Hnames.
  apply ens_event. intros e (_ & HF & _). rewrite HF. apply accepts_fields; [differ|]. intros Hpaths.
  apply contents. intros Hs Hl Hd. apply stripped. split_and!; [done..| | |done|done|done].
  - eapply forall_bool; [|exact Hnames]. intros f. cbv beta. by intros ?%empty_or.
  - eapply forall_bool; [|exact Hpaths]. intros f. cbv beta. by intros ?%empty_or.
Qed.

(** The paths of stacks change nothing but the binder information. *)
Lemma paths_kept M : Accepts M (CheckStackAndBinderPaths FileExists) (λ _, True).
Proof.
  apply ens_bind, ens_text; [by vm_compute|]. apply accepts_check. intros _.
  apply ens_bind, ens_text; [by vm_compute|]. apply accepts_check. intros _.
  unfold clear_binder_path. apply ens_bind, ens_text; [by vm_compute|]. cbv zeta. match goal with |- context [if ?b then _ else _] => destruct b eqn:Hb end; [|by apply ens_ret].
  apply ens_bind, ens_clear; [by vm_compute| |by vm_compute|by apply ens_ret].
  intros Ht. rewrite Ht in Hb. cbn in Hb. done.
Qed.

Lemma accepted_tame M :
  uid_ F > TRUSTED_SENDER_UID_MAX →
  Accepts M (ValidateEvent lstat FileExists) (λ M', IsSenderAllowed (domain_ F) (eventName_ F) (uid_ F) = true ∧ Tame M' ∧
    text_in M' "HICOLLIE_BINDER_INFO" = []).
Proof.
  intros Hu. apply ens_event. intros e (_ & HF & _). unfold IsTrustedSource. rewrite HF. apply accepts_check. intros Hs.
  eapply accepts_then; [apply paths_kept|]. intros M' _. rewrite (proj2 (Z.leb_gt _ _)) by lia.
  intros e1 e2 v He E. destruct (untrusted_tame M' e1 e2 v He E) as (M2 & He2 & H2). exists M2. split; [done|].
  intros Hv. split; [done|by apply H2].
Qed.

End Trust.

(** ** The watch point of an application's event *)

Section Watch.
Context `{HP : Heap} `{SC : Securec} `{!HeapTotal HP} `{SO : Sorter}.
Context (lstat : bytes → option Z).

Definition tame_watch (F : EventFields) (w : WatchPoint) : Prop :=
  w_domain w = domain_ F ∧ w_stringId w = eventName_ F ∧ w_timestamp w = happenTime_ F ∧
  w_pid w = pid_ F ∧ 0 < w_pid w ∧ w_uid w = uid_ F ∧
  Forall (λ t, t = [] ∨ IsSafeName t = true) [w_packageName w; w_processName w; w_taskName w] ∧
  (w_freezeExtFile w = [] ∨ IsAcceptedPath lstat (w_freezeExtFile w) (w_uid w) = true) ∧
  Forall (λ t, Zlen t <= MAX_LARGE_CONTENT_LEN)
    [w_msg w; w_externalLog w; w_applicationGCInfo w; w_applicationIOInfo w] ∧
  Forall (λ t, Zlen t <= MAX_SMALL_CONTENT_LEN) [w_hitraceIdInfo w; w_appRunningUniqueId w] ∧
  only DIGITS (w_appRunningUniqueId w) = true.

Lemma field_of {P : bytes → Prop} M f fields : f ∈ fields → Forall (λ f, P (text_in M f)) fields → P (text_in M f).
Proof. intros Hin H. rewrite Forall_forall in H. by apply H. Qed.

#[local] Ltac member := apply (bool_decide_eq_true_1 _); vm_compute; reflexivity.
#[local] Ltac step :=
  first [ apply ens_bind, ens_text; [by vm_compute|]
        | apply ens_bind, ens_int; intros ? _ ].

Lemma make_watch_point_tame F K M : Tame lstat F M → Ens F K M MakeWatchPoint (λ w M', M' = M ∧ tame_watch F w).
Proof.
  intros (Hp & Hpid & Huid & Hn & Hpath & Hs & Hl & Hd). unfold MakeWatchPoint. apply ens_event. intros e (_ & HF & _). rewrite HF.
  apply ens_bind, ens_int_or; [by vm_compute|]. intros pid Hpid'. step.
  apply ens_bind, ens_int_or; [by vm_compute|]. intros uid Huid'.
  assert ((if pid =? 0 then pid_ F else pid) = pid_ F) as -> by (destruct (Z.eqb_spec pid 0); [done|by destruct (Hpid _ Hpid')]).
  assert ((if uid =? 0 then uid_ F else uid) = uid_ F) as -> by (destruct (Z.eqb_spec uid 0); [done|by destruct (Huid _ Huid')]).
  repeat step. apply ens_ret. split; [done|]. unfold tame_watch. cbn [w_domain w_stringId w_timestamp w_pid w_uid w_packageName w_processName w_taskName
    w_freezeExtFile w_msg w_externalLog w_applicationGCInfo w_applicationIOInfo w_hitraceIdInfo w_appRunningUniqueId].
  split_and!; try done.
  - repeat (apply Forall_cons_2; [refine (field_of (P := λ t, t = [] ∨ IsSafeName t = true) _ _ _ _ Hn); member|]); apply Forall_nil_2.
  - refine (field_of (P := λ t, t = [] ∨ IsAcceptedPath lstat t (uid_ F) = true) _ _ _ _ Hpath); member.
  - repeat (apply Forall_cons_2; [refine (field_of (P := λ t, Zlen t <= MAX_LARGE_CONTENT_LEN) _ _ _ _ Hl); member|]); apply Forall_nil_2.
  - repeat (apply Forall_cons_2; [refine (field_of (P := λ t, Zlen t <= MAX_SMALL_CONTENT_LEN) _ _ _ _ Hs); member|]); apply Forall_nil_2.
Qed.

(** C11: what an application makes the freeze detector believe is about itself.  When
    the event of an application is taken up, its sender may send it, and the watch
    point made of it carries the sender's own process and user, names of harmless
    characters, a path only inside the log folders and of a file it owns, and texts
    within their limits; the binder information of a watchdog is dropped. *)
Theorem application_event_about_itself (c : FreezeRuleCluster) (resolve : bytes → bytes) d ev M ev' w task :
  Sync ev M → uid_ (fields ev) > TRUSTED_SENDER_UID_MAX →
  OnEventListeningCallback c resolve lstat d ev = Done (ev', Some (w, task)) →
  IsSenderAllowed (domain_ (fields ev)) (eventName_ (fields ev)) (uid_ (fields ev)) = true ∧
  IsFreezeEvent c (w_domain w) (w_stringId w) = true ∧ tame_watch (fields ev) w ∧
  ∃ M', Sync ev' M' ∧ text_in M' "HICOLLIE_BINDER_INFO" = [].
Proof.
  intros HS Hu. unfold OnEventListeningCallback. destruct (decodes ev) as [[]|]; cbn [obind negb]; [|done..].
  destruct (IsFreezeEvent c _ _) eqn:HI; cbn [negb]; [|done].
  destruct (ValidateEvent _ _ ev) as [[e1 ok]|] eqn:EV; cbn [obind fst snd]; [|done]. destruct ok; cbn [negb]; [|done].
  destruct (accepted_tame lstat _ (fields ev) (marks ev) M Hu ev e1 true (conj HS (conj eq_refl eq_refl)) EV)
    as (M1 & He1 & (Hallow & HT & Hb)); [done|].
  pose proof (make_watch_point_tame (fields ev) (marks ev) M1 HT e1) as HM.
  destruct (MakeWatchPoint e1) as [[e2 w2]|] eqn:EM; cbn [obind fst snd]; [|done]. case_bool_decide; [done|].
  destruct (GetResult _ _ _); [|done]. intros [= <- <- _]. destruct (HM e2 w2 He1 eq_refl) as (M2 & (HS2 & _) & -> & Hw).
  pose proof Hw as (-> & -> & _). split_and!; [done..|]. by exists M1.
Qed.

End Watch.

(** ** What a report can hold *)

Section Interference.
Context `{HP : Heap} `{SC : Securec} `{SO : Sorter}.
Context (TimestampFormatToDate : Z → bytes) (leak_records : Z → Z → option (list SysEvent)) (resolve : bytes → bytes) (readable : bytes → bool).

(** Two states of the disk with the same files, alike in the log folders. *)
Definition alike (d d' : Files) : Prop :=
  ∀ p : bytes, (is_Some (d !! p) ↔ is_Some (d' !! p)) ∧ (IsAcceptedReadPath p = true → d !! p = d' !! p).

Lemma alike_exists (d d' : Files) p : alike d d' → exists_ resolve p d = exists_ resolve p d'.
Proof. intros H. unfold exists_. apply bool_decide_ext, H. Qed.

Lemma alike_real (d d' : Files) p : alike d d' → PathToRealPath resolve p d = PathToRealPath resolve p d'.
Proof. intros H. unfold PathToRealPath. by rewrite (alike_exists d d'). Qed.

Lemma alike_open (d d' : Files) p : alike d d' → IsAcceptedReadPath p = true → open_file readable p d = open_file readable p d'.
Proof. intros H Hp. unfold open_file. by rewrite (proj2 (H p) Hp). Qed.

Lemma alike_stream (d d' : Files) p node body : alike d d' →
  GetIfStreamByFilePath TimestampFormatToDate leak_records resolve readable d p node body =
  GetIfStreamByFilePath TimestampFormatToDate leak_records resolve readable d' p node body.
Proof.
  intros H. unfold GetIfStreamByFilePath. rewrite (alike_real d d' p H). destruct (PathToRealPath _ _ d') as [r|]; [|done].
  destruct (IsAcceptedReadPath r) eqn:Hr; cbn [negb]; [|done]. unfold FreezeVendor.GetFileSize.
  by rewrite (proj2 (H r) Hr), (alike_open d d' r H Hr).
Qed.

Lemma alike_file (d d' : Files) p : alike d d' →
  (GetAppFreezeFile resolve readable p false d).1 = (GetAppFreezeFile resolve readable p false d').1.
Proof.
  intros H. unfold GetAppFreezeFile. destruct (IsAcceptedReadPath p) eqn:Hp; cbn [negb andb]; [|done].
  cbn [fst]. by rewrite (alike_open d d' p H Hp).
Qed.

Lemma alike_prefix (d d' : Files) p prefix : alike d d' → CheckFreezePathPrefix resolve p prefix d = CheckFreezePathPrefix resolve p prefix d'.
Proof. intros H. unfold CheckFreezePathPrefix. by rewrite (alike_real d d'). Qed.

(** C20: reports hold nothing of files outside the log folders.  Whatever paths the
    events name and wherever their links lead, the merged logs, the samples of the
    application and the processor information are the same for two disks that hold
    the same files and differ in the contents of files outside /data/log and
    /data/app/el2 only. *)
Theorem report_reads_log_folders_only (d d' : Files) l b uid bundleName stackFile cpuFile :
  alike d d' →
  InitLogBody TimestampFormatToDate leak_records resolve readable d l b =
    InitLogBody TimestampFormatToDate leak_records resolve readable d' l b ∧
  (GetStackInfo resolve readable uid bundleName stackFile d).1 = (GetStackInfo resolve readable uid bundleName stackFile d').1 ∧
  (GetCpuInfo resolve readable cpuFile d).1 = (GetCpuInfo resolve readable cpuFile d').1.
Proof.
  intros H. split_and!.
  - revert b. induction l as [|node l IH]; intros b; [done|]. cbn [InitLogBody]. cbv zeta. rewrite (alike_exists d d'), (alike_stream d d') by done.
    destruct (_ || _).
    + destruct (DumpEventInfo _ _ _ _); cbn [obind]; [apply IH|done].
    + destruct (exists_ _ _ d'); cbn [negb]; [|done]. destruct (GetIfStreamByFilePath _ _ _ _ _ _ _ _) as [[s [log|]]|]; cbn [obind fst snd]; [apply IH..|done].
  - unfold GetStackInfo. case_match; [done|]. case_match; [done|]. cbv zeta. rewrite (alike_prefix d d') by done.
    case_match; [done|]. by apply alike_file.
  - unfold GetCpuInfo. case_match; [done|]. case_match; [done|]. cbv zeta. rewrite (alike_prefix d d') by done.
    case_match; [done|]. by apply alike_file.
Qed.

End Interference.

(** ** The names of traces *)

Lemma begin_key_in m k : begin_key m = Some k → is_Some (m !! k).
Proof.
  unfold begin_key. destruct (map_to_list m).*1 as [|x xs] eqn:E; [done|]. intros [= <-].
  assert (∀ y, y ∈ x :: xs → is_Some (m !! y)) as Hin.
  { intros y Hy. rewrite <- E in Hy. apply list_elem_of_fmap in Hy as ([y' v] & -> & Hy). apply elem_of_map_to_list in Hy. by eexists. }
  apply Hin. clear. induction xs as [|y xs IH]; cbn [foldr]; [by left|].
  destruct (Z.min_spec y (foldr Z.min x xs)) as [[_ ->]|[_ ->]]; [right; by left|].
  apply elem_of_cons in IH as [IH|IH]; [rewrite IH; by left|right; by right].
Qed.

Lemma evict_room fuel : ∀ m, (size m <= fuel)%nat → (size (evict fuel m) < TRACE_NAME_MAP_CAPACITY)%nat.
Proof.
  unfold TRACE_NAME_MAP_CAPACITY. induction fuel as [|fuel IH]; intros m Hm; cbn [evict]; [lia|]. unfold TRACE_NAME_MAP_CAPACITY.
  case_bool_decide; [|lia]. destruct (begin_key m) as [k|] eqn:E.
  - apply IH. rewrite map_size_delete_Some by by apply begin_key_in. lia.
  - unfold begin_key in E. destruct (map_to_list m) as [|[k v] l] eqn:El; [|done]. apply map_to_list_empty_iff in El as ->.
    rewrite map_size_empty in *. lia.
Qed.

(** The table never holds more names than its capacity, and the name put in last. *)
Lemma trace_names_bounded t traceName m : (size m <= TRACE_NAME_MAP_CAPACITY)%nat →
  (size (InsertTraceName t traceName m) <= TRACE_NAME_MAP_CAPACITY)%nat ∧ InsertTraceName t traceName m !! t = Some traceName.
Proof.
  intros Hm. unfold InsertTraceName. destruct (m !! t) as [v|] eqn:E; (split; [|by rewrite lookup_insert_eq]).
  - rewrite map_size_insert_Some by by eexists. done.
  - pose proof (evict_room (size m) m ltac:(lia)). rewrite map_size_insert. case_match; unfold Datatypes.id; lia.
Qed.

(** ** Instances *)

(** A fault of a page, sent by the application itself. *)
Definition sample_fault_calls : list BuilderCall := [
  CallDomain (str "ACE"); CallName (str "UI_BLOCK_6S"); CallType 1; CallTimeStamp 1700000000; CallUid 20010043; CallPid 77; CallTid 78;
  CallValue (str "PID") (CInt 32 77); CallValue (str "PACKAGE_NAME") (CString (str "com.demo"));
  CallValue (str "HICOLLIE_BINDER_INFO") (CString (str "1:2 to 3:4")); CallValue (str "info_") (CString (str "nolog"))].

Definition sample_fault : RawDataBuilder := foldl run_call RawDataBuilder_new sample_fault_calls.

Lemma sample_fault_ok : builder_ok sample_fault.
Proof. apply run_calls_ok; [apply builder_new_ok|]. repeat constructor; vm_compute; congruence. Qed.

Lemma sample_fault_fits : M_fits (meaning sample_fault).
Proof. apply (bool_decide_eq_true_1 _). vm_compute. reflexivity. Qed.

Definition sample_fault_raw : RawData := default (mkRawData None 0 0) (Build sample_fault).1.
Definition sample_fault_event : SysEvent :=
  match SysEvent_new (Some sample_fault_raw) 7 0 with Done e => e | Undefined _ => event_empty 0 end.

Lemma sample_fault_sync : Sync sample_fault_event (meaning sample_fault).
Proof.
  assert (Zlen (builder_block sample_fault) <= DecodedEvent.MAX_BLOCK_SIZE) as HS by by vm_compute.
  assert (Build sample_fault = (Some sample_fault_raw, sample_fault)) as HB by by vm_compute.
  destruct (Build_block sample_fault sample_fault_raw sample_fault_ok HS HB) as [Hu Hc].
  destruct (new_event_sync sample_fault sample_fault_raw 7 0 sample_fault_ok sample_fault_fits Hu Hc) as (e & HN & HY & _).
  assert (e = sample_fault_event) as <- by (unfold sample_fault_event; by rewrite HN). done.
Qed.

Definition sample_fault_rules : FreezeRuleCluster :=
  sample_rules (str "ACE") (str "UI_BLOCK_6S") [sample_link 0 (str "ACE") (str "UI_BLOCK_6S")].

#[local] Abbreviation sample_callback :=
  (OnEventListeningCallback (SO := Database.Database.merge_sorter) sample_fault_rules (λ p, p) (λ _, None) ∅ sample_fault_event).

Lemma application_event_about_itself_witness :
  match sample_callback with
  | Done (_, Some (w, _)) => w_pid w = 77 ∧ w_uid w = 20010043 ∧ Forall (λ t, t = [] ∨ IsSafeName t = true) [w_packageName w; w_processName w; w_taskName w]
  | _ => False
  end.
Proof.
  assert (match sample_callback with Done (_, Some _) => True | _ => False end) as HR by (vm_compute; exact I).
  destruct sample_callback as [[ev' [[w task]|]]|] eqn:E; [|contradiction..].
  destruct (application_event_about_itself (SO := Database.Database.merge_sorter) (λ _, None) sample_fault_rules (λ p, p) ∅ sample_fault_event
    (meaning sample_fault) ev' w task sample_fault_sync ltac:(by vm_compute) E) as (_ & _ & (_ & _ & _ & Hp & _ & Hu & Hn & _) & _).
  split; [rewrite Hp; vm_compute; reflexivity|]. split; [rewrite Hu; vm_compute; reflexivity|exact Hn].
Defined.


(** Two disks with another secret each; an event whose log path is a link to it. *)
Definition sample_disk (secret : bytes) : Files := {[str "/data/secret" := LogStore.LogStore.mkFile secret 0]}.
Definition sample_spy : WatchPoint := 
  mkWatchPoint 1 5 77 77 20010043 20010043 [] [] (str "ACE") (str "UI_BLOCK_6S") [] [] [] 0 [] (str "/data/log/link")
    [] [] [] [] [] [] false [] [] [] [] [] [] [] [] [] [] [] [] false false false 0 0.

Lemma report_reads_log_folders_only_witness :
  let merged secret := InitLogBody (λ _, []) (λ _ _, None) (λ _, str "/data/secret") (λ _, true) (sample_disk secret) [sample_spy]
    (mkBody (mkStream [] false) [] sample_spy []) in
  merged (str "one") = merged (str "two") ∧ match merged (str "one") with Done (Some _) => True | _ => False end.
Proof.
  intros merged. split; [|vm_compute; exact I].
  refine (proj1 (report_reads_log_folders_only (λ _, []) (λ _ _, None) (λ _, str "/data/secret") (λ _, true) (sample_disk (str "one"))
    (sample_disk (str "two")) [sample_spy] (mkBody (mkStream [] false) [] sample_spy []) 0 [] [] [] _)).
  intros p. unfold sample_disk. destruct (decide (p = str "/data/secret")) as [->|Hp].
  - rewrite !lookup_singleton_eq. split; [done|by vm_compute].
  - by rewrite !lookup_singleton_ne.
Defined.

End FreezeTrust.
