(* ===== verification/FreezeJson.v ===== *)
(** * FreezeJson: the file that hands a freeze to the fault logger

    Models base/utility/freeze_json_util.cpp and .h, and of plugins/faultlogger
    freeze_json_generator.cpp and the parts of faultlog_freeze.cpp that use them:
    the freeze detector leaves a file of keys and values, the fault logger collects
    it, adds what it knows and prints the event for the application. *)

From S2P Require Import Prelude Text DbFile Database LogStore FreezeRules Freeze FreezeVendor.
From stdpp Require Import base gmap list numbers strings.

Local Open Scope Z_scope.

Module FreezeJson.
Import DbFile.DbFile FreezeRules.
Import Freeze.Freeze (WatchPoint, w_domain, w_stringId, w_packageName, w_processName, w_timestamp, w_pid, w_uid, w_renderPid, w_renderUid).
Import LogStore.LogStore (File, mkFile, content, Files).
Import FreezeVendor.FreezeVendor.

(** ** Printing *)

Definition COMMON_COMMA : bytes := str ", ".
Definition COMMON_COLON : bytes := str " : ".
Definition COMMON_EQUAL : bytes := str " = ".
Definition QUOTE : Z := 34.
Definition wrapped (l : Z) (s : bytes) (r : Z) : bytes := l :: s ++ [r].
Definition WrapByParenthesis (s : bytes) : bytes := wrapped 40 s 41.
Definition WrapBySquareBracket (s : bytes) : bytes := wrapped 91 s 93.
Definition WrapByBrace (s : bytes) : bytes := wrapped 123 s 125.

(** A text that begins and ends like a value is taken for one. *)
Definition HasBeenWrapped (target : bytes) : bool :=
  match target, last target with
  | head :: _ :: _, Some foot => ((head =? QUOTE) && (foot =? QUOTE)) || ((head =? 123) && (foot =? 125)) || ((head =? 91) && (foot =? 93))
  | _, _ => false
  end.

(** The types [WrapByQuote] is used at. *)
Inductive JsonArg := ArgText (s : bytes) | ArgBool (b : bool) | ArgNumber (n : Z).

Definition quote (s : bytes) : bytes := if HasBeenWrapped s then s else wrapped QUOTE s QUOTE.

Definition WrapByQuote (a : JsonArg) : bytes :=
  match a with ArgText s => quote s | ArgBool b => if b then str "true" else str "false" | ArgNumber n => to_string n end.

Definition GetStrByKeyValue (key : bytes) (value : JsonArg) : bytes := quote key ++ COMMON_COLON ++ WrapByQuote value.

(** What is printed between the elements of a list. *)
Fixpoint joined (sep : bytes) (l : list bytes) : bytes :=
  match l with [] => [] | [x] => x | x :: l => x ++ sep ++ joined sep l end.

Definition GetStrByList (l : list bytes) : bytes := WrapBySquareBracket (joined COMMON_COMMA (quote <$> l)).

(** [GetStrByMap], the entries in the order of their keys. *)
Definition GetStrByMap (m : smap JsonArg) : bytes :=
  WrapByBrace (joined COMMON_COMMA ((λ kv, GetStrByKeyValue kv.1 kv.2) <$> m)).

Definition MergeKeyValueList (l : list bytes) : bytes := WrapByBrace (joined COMMON_COMMA l).

(** ** The file *)

Definition KEY_IN_LOGFILE : list bytes := [
  str "timestamp"; str "pid"; str "uid"; str "appRunningUniqueId"; str "uuid"; str "foreground"; str "domain"; str "stringId";
  str "version"; str "package_name"; str "process_name"; str "message"; str "hilog"; str "exception"; str "peer_binder";
  str "event_handler"; str "event_handler_3s_size"; str "event_handler_6s_size"; str "stack"; str "memory"].

Record FreezeJsonCollector := mkCollector {
  c_timestamp : Z; c_pid : Z; c_uid : Z; c_appRunningUniqueId : bytes; c_uuid : bytes; c_domain : bytes; c_stringId : bytes;
  c_foreground : bool; c_isSystemApp : bool; c_cpuAbi : bytes; c_releaseType : bytes; c_version : bytes; c_package_name : bytes;
  c_process_name : bytes; c_message : bytes; c_exception : bytes; c_hilog : bytes; c_peer_binder : bytes; c_event_handler : bytes;
  c_event_handler_3s_size : bytes; c_event_handler_6s_size : bytes; c_stack : bytes; c_memory : bytes; c_thermal_Level : bytes;
  c_external_callback_log : bytes; c_version_code : bytes
}.

Definition FreezeJsonCollector_new : FreezeJsonCollector :=
  mkCollector 0 0 0 [] [] [] [] false false [] [] (str "unknown") [] [] [] (str "{}") (str "[]") (str "[]") (str "[]") [] [] (str "[]")
    (str "{}") [] [] [].

(** [std::stoull] and [std::stol]: [None] when they throw. *)
Definition stoull (s : bytes) : option Z :=
  let '(neg, ds) := take_sign (skip_space (c_str s)) in
  let digits := take_digits 10 ds in
  if bool_decide (digits = []) then None else
  let v := value_of 10 digits in
  if v >? 2 ^ 64 - 1 then None else Some (if neg : bool then u64 (- v) else v).

Definition stol (s : bytes) : option Z :=
  let '(neg, ds) := take_sign (skip_space (c_str s)) in
  let digits := take_digits 10 ds in
  if bool_decide (digits = []) then None else
  let v := if neg : bool then - value_of 10 digits else value_of 10 digits in
  if (- 2 ^ 63 <=? v) && (v <=? 2 ^ 63 - 1) then Some v else None.

(** [CountSubStr]: occurrences that do not overlap. *)
Fixpoint count_loop (fuel : nat) (s sub : bytes) : Z :=
  match fuel with
  | O => 0
  | S fuel => match find_sub sub s with Some pos => 1 + count_loop fuel (drop (pos + length sub) s) sub | None => 0 end
  end.

Definition CountSubStr (s sub : bytes) : Z := count_loop (length s) s sub.

(** The values found for each key, in the order of the lines. *)
Abbreviation CollectMap := (gmap bytes (list bytes)).
Definition values (m : CollectMap) (key : string) : list bytes := default [] (m !! str key).
Definition first_value (m : CollectMap) (key : string) (old : bytes) : bytes := default old (head (values m key)).
Definition last_value (m : CollectMap) (key : string) (old : bytes) : bytes := default old (last (values m key)).

Definition first_number (read : bytes → option Z) (m : CollectMap) (key : string) (old : Z) : option Z :=
  match values m key with v :: _ => read v | [] => Some old end.

Definition FormatCollect (m : CollectMap) (c : FreezeJsonCollector) : option FreezeJsonCollector :=
  timestamp ← first_number stoull m "timestamp" (c_timestamp c);
  pid ← first_number stol m "pid" (c_pid c);
  uid ← first_number stol m "uid" (c_uid c);
  let stringId := first_value m "stringId" (c_stringId c) in
  let handlers := values m "event_handler" in
  let two := bool_decide (1 < length handlers)%nat && bool_decide (stringId = str "THREAD_BLOCK_6S") in
  let size h old := if two then to_string (CountSubStr (default [] h) (str "Event {")) else old in
  Some (mkCollector timestamp pid uid (first_value m "appRunningUniqueId" (c_appRunningUniqueId c)) (c_uuid c)
    (first_value m "domain" (c_domain c)) stringId (c_foreground c) (c_isSystemApp c) (c_cpuAbi c) (c_releaseType c) (c_version c)
    (first_value m "package_name" (c_package_name c)) (first_value m "process_name" (c_process_name c))
    (first_value m "message" (c_message c)) (c_exception c) (last_value m "hilog" (c_hilog c))
    (first_value m "peer_binder" (c_peer_binder c)) (last_value m "event_handler" (c_event_handler c))
    (size (head handlers) (c_event_handler_3s_size c)) (size (last handlers) (c_event_handler_6s_size c))
    (first_value m "stack" (c_stack c)) (c_memory c) (c_thermal_Level c) (c_external_callback_log c) (c_version_code c)).

(** The key and the value of a line. *)
Definition line_entry (lineStr : bytes) : option (bytes * bytes) :=
  match find_sub COMMON_EQUAL lineStr with
  | None => None
  | Some pos =>
      let key := take pos lineStr in
      if bool_decide (key ∈ KEY_IN_LOGFILE) then Some (key, drop (pos + length COMMON_EQUAL) lineStr) else None
  end.

Definition collect_line (m : CollectMap) (lineStr : bytes) : CollectMap :=
  match line_entry lineStr with
  | Some (key, value) => <[key := default [] (m !! key) ++ [value]]> m
  | None => m
  end.

Definition collect (text : bytes) : CollectMap := foldl collect_line ∅ (pieces 10 [] text).

Section Disk.
Context (resolve : bytes → bytes) (readable : bytes → bool).

Definition LoadCollectorFromFile (filePath : bytes) (d : Files) (c : FreezeJsonCollector) : option FreezeJsonCollector :=
  match PathToRealPath resolve filePath d with
  | None => Some c
  | Some realPath => FormatCollect (collect (default [] (open_file readable realPath d))) c
  end.

(** ** The event *)

Definition JsonStr_exception (name message : bytes) : bytes :=
  GetStrByMap [(str "message", ArgText message); (str "name", ArgText name)].

Record Memory := mkMemory {
  rss : Z; vss : Z; pss : Z; sysFreeMem : Z; sysAvailMem : Z; sysTotalMem : Z; vmHeapTotalSize : Z; vmHeapUsedSize : Z; vmHeapSharedSize : Z
}.

Definition JsonStr_memory (y : Memory) : bytes :=
  let m := foldl (λ m kv, smap_set kv.1 (ArgNumber kv.2) m) [] [
    (str "rss", rss y); (str "vss", vss y); (str "sys_free_mem", sysFreeMem y); (str "sys_avail_mem", sysAvailMem y);
    (str "sys_total_mem", sysTotalMem y); (str "vm_heap_total_size", vmHeapTotalSize y); (str "vm_heap_used_size", vmHeapUsedSize y);
    (str "vm_heap_shared_size", vmHeapSharedSize y)] in
  GetStrByMap (if pss y =? 2 ^ 64 - 1 then m else smap_set (str "pss") (ArgNumber (pss y)) m).

(** [FaultLogInfo], what is used here. *)
Record FaultLogInfo := mkFaultLogInfo {
  f_time : Z; f_id : Z; f_pid : Z; f_faultLogType : Z; f_module : bytes; f_reason : bytes; f_logPath : bytes;
  f_sectionMap : gmap bytes bytes; f_reportToAppEvent : bool
}.

Definition GetStrValFromMap (m : gmap bytes bytes) (key : string) : bytes := default [] (m !! str key).

(** [strtoull] of a section. *)
Definition GetProcessInfo (m : gmap bytes bytes) (key : string) : Z :=
  match m !! str key with
  | Some s =>
      let '(neg, ds) := take_sign (skip_space (c_str s)) in
      let v := value_of 10 (take_digits 10 ds) in
      if v >? 2 ^ 64 - 1 then 2 ^ 64 - 1 else if neg : bool then u64 (- v) else v
  | None => 0
  end.

Definition GetMemoryStrByPid (rss_ : Z) (m : gmap bytes bytes) (includePss : bool) : bytes :=
  JsonStr_memory (mkMemory rss_ (GetProcessInfo m "PROCESS_VSS_MEMINFO") (if includePss then 0 else 2 ^ 64 - 1)
    (GetProcessInfo m "SYS_FREE_MEM") (GetProcessInfo m "SYS_AVAIL_MEM") (GetProcessInfo m "SYS_TOTAL_MEM")
    (GetProcessInfo m "HEAP_TOTAL_SIZE") (GetProcessInfo m "HEAP_OBJECT_SIZE") (GetProcessInfo m "HEAP_SHARED_SIZE")).

Definition APP_FREEZE : Z := 4.
Definition APPFREEZE_WARNING : Z := 7.

(** [GetFreezeJsonCollector]: the file is removed; [None] when a number in it throws. *)
Definition GetFreezeJsonCollector (rss_ : Z) (info : FaultLogInfo) (d : Files) : option (FreezeJsonCollector * Files) :=
  let jsonFilePath := GetFilePath (f_pid info) (f_id info) (u64 (f_time info)) in
  if negb (exists_ resolve jsonFilePath d) then Some (FreezeJsonCollector_new, d) else
  c ← LoadCollectorFromFile jsonFilePath d FreezeJsonCollector_new;
  let s := f_sectionMap info in
  Some (mkCollector (c_timestamp c) (c_pid c) (c_uid c) (c_appRunningUniqueId c) (GetStrValFromMap s "FINGERPRINT") (c_domain c)
      (c_stringId c) (bool_decide (GetStrValFromMap s "FOREGROUND" = str "Yes")) (c_isSystemApp c) (GetStrValFromMap s "CPU_ABI")
      (GetStrValFromMap s "RELEASE_TYPE") (GetStrValFromMap s "VERSION") (c_package_name c) (c_process_name c) (c_message c)
      (JsonStr_exception (c_stringId c) (c_message c)) (c_hilog c) (c_peer_binder c) (c_event_handler c) (c_event_handler_3s_size c)
      (c_event_handler_6s_size c) (c_stack c) (GetMemoryStrByPid rss_ s (negb (f_faultLogType info =? APPFREEZE_WARNING)))
      (GetStrValFromMap s "THERMAL_LEVEL") (GetStrValFromMap s "EXTERNAL_LOG") (GetStrValFromMap s "VERSION_CODE"),
    delete (resolve jsonFilePath) d).

Definition GetFreezeType (faultLogType : Z) (isAppHicollie : bool) : bytes :=
  if isAppHicollie then str "AppHicollie"
  else if faultLogType =? APP_FREEZE then str "AppFreeze"
  else if faultLogType =? APPFREEZE_WARNING then str "AppFreezeWarning" else [].

Definition GetEventType (faultLogType : Z) (isAppHicollie : bool) : bytes :=
  if isAppHicollie then str "APP_HICOLLIE"
  else if faultLogType =? APPFREEZE_WARNING then str "APPFREEZE_WARNING" else str "APP_FREEZE".

(** [InitBundleVersionCode]: a text that is no number is zero. *)
Definition bundle_version_code (s : bytes) : Z :=
  let '(neg, ds) := take_sign (skip_space (c_str s)) in
  let digits := take_digits 10 ds in
  let v := if neg : bool then - value_of 10 digits else value_of 10 digits in
  if bool_decide (drop (length digits) ds = []) && negb (bool_decide (digits = [])) && bool_decide (c_str s = s) &&
     (- 2 ^ 63 <=? v) && (v <=? 2 ^ 63 - 1) then v else 0.

(** [FreezeJsonParams::JsonStr] of what [PublishAppFreezeJson] puts in; the two texts
    about garbage collection and files come from another library. *)
Definition JsonStr (c : FreezeJsonCollector) (externalLog : bytes) (versionCode lifeTime : Z) (gcInfo ioInfo : bytes) : bytes :=
  let kv (key : string) (a : JsonArg) := GetStrByKeyValue (str key) a in
  MergeKeyValueList [
    kv "time" (ArgNumber (c_timestamp c)); kv "uuid" (ArgText (c_uuid c)); kv "foreground" (ArgBool (c_foreground c));
    kv "bundle_version" (ArgText (c_version c)); kv "bundle_version_code" (ArgNumber versionCode);
    kv "bundle_name" (ArgText (c_package_name c)); kv "process_name" (ArgText (c_process_name c));
    kv "process_life_time" (ArgNumber lifeTime); kv "external_log" (ArgText externalLog); kv "cpu_abi" (ArgText (c_cpuAbi c));
    kv "release_type" (ArgText (c_releaseType c)); kv "pid" (ArgNumber (c_pid c)); kv "uid" (ArgNumber (c_uid c));
    kv "app_running_unique_id" (ArgText (c_appRunningUniqueId c)); kv "exception" (ArgText (c_exception c));
    kv "hilog" (ArgText (c_hilog c)); kv "event_handler" (ArgText (c_event_handler c));
    kv "event_handler_size_3s" (ArgText (c_event_handler_3s_size c)); kv "event_handler_size_6s" (ArgText (c_event_handler_6s_size c));
    kv "peer_binder" (ArgText (c_peer_binder c)); kv "threads" (ArgText (c_stack c)); kv "memory" (ArgText (c_memory c));
    kv "thermal_Level" (ArgText (c_thermal_Level c)); kv "external_callback_log" (ArgText (c_external_callback_log c));
    kv "application_gc_info" (ArgText gcInfo); kv "application_io_info" (ArgText ioInfo)].

(** [strtoull] of the first run of digits. *)
Definition life_time (lifeTime : bytes) : Z :=
  match GetDightStrArr lifeTime with s :: _ => Z.min (value_of 10 (take_digits 10 s)) (2 ^ 64 - 1) | [] => 0 end.

(** [PublishAppFreezeJson]: the kind of the event and its text. *)
Definition PublishAppFreezeJson (rss_ : Z) (gcInfo ioInfo : bytes) (info : FaultLogInfo) (isAppHicollie : bool)
    (externalLogList : list bytes) (d : Files) : option ((bytes * bytes) * Files) :=
  cd ← GetFreezeJsonCollector rss_ info d;
  let c := cd.1 in
  let warning := bool_decide (GetFreezeType (f_faultLogType info) isAppHicollie = str "AppFreezeWarning") in
  Some ((GetEventType (f_faultLogType info) isAppHicollie,
         JsonStr c (if warning then str "[]" else GetStrByList externalLogList)
           (if warning then bundle_version_code (c_version_code c) else 0)
           (life_time (GetStrValFromMap (f_sectionMap info) "PROCESS_LIFETIME")) gcInfo ioInfo), cd.2).

(** *** The logs that go with it *)

Definition FAULTLOG_BASE_FOLDER : bytes := str "/data/log/faultlog/".

Definition IsValidExtPath (path : bytes) (uid : Z) (d : Files) : bool :=
  match PathToRealPath resolve path d with
  | None => false
  | Some realPath =>
      bool_decide (FAULTLOG_BASE_FOLDER `prefix_of` realPath) &&
      bool_decide (is_Some (find_sub (str "-" ++ to_string uid ++ str "-") realPath))
  end.

(** The contents of a file, when it can be read. *)
Definition load_file (path : bytes) (d : Files) : option bytes :=
  match PathToRealPath resolve path d with Some realPath => open_file readable realPath d | None => None end.

(** [MergeFreezeExtToLog], given the clock and whether files can be written: the path
    of the merged file. *)
Definition MergeFreezeExtToLog (now : Z) (writable : bool) (logPath freezeExtPath : bytes) (pid id : Z) (d : Files) : bytes * Files :=
  match load_file logPath d, load_file freezeExtPath d with
  | Some logContent, Some freezeExtContent =>
      let tmpPath := str "/data/log/faultlog/freeze/appfreeze-merged-" ++ to_string pid ++ str "-" ++ to_string id ++ str "-" ++ to_string now in
      if writable
      then (tmpPath, <[tmpPath := mkFile (logContent ++ [10] ++ str "==========FREEZE_EXT_INFO==========" ++ [10] ++ freezeExtContent) now]> d)
      else ([], d)
  | _, _ => ([], d)
  end.

Definition BuildExternalLogList (now : Z) (writable : bool) (info : FaultLogInfo) (d : Files) : list bytes * Files :=
  let freezeExtPath := GetStrValFromMap (f_sectionMap info) "FREEZE_INFO_PATH" in
  let sample := GetStrValFromMap (f_sectionMap info) "ENABLE_MAINTHREAD_SAMPLE" in
  if bool_decide (freezeExtPath = []) then ([f_logPath info], d) else
  if negb (IsValidExtPath freezeExtPath (f_id info) d) then ([f_logPath info], d) else
  if bool_decide (sample = str "1") then ([f_logPath info; freezeExtPath], d) else
  let '(mergedFile, d) := MergeFreezeExtToLog now writable (f_logPath info) freezeExtPath (f_pid info) (f_id info) d in
  if bool_decide (mergedFile = []) then ([f_logPath info], d) else ([mergedFile], d).

Definition RemoveMergedTempIfNeeded (info : FaultLogInfo) (externalLogList : list bytes) (d : Files) : Files :=
  let freezeExtPath := GetStrValFromMap (f_sectionMap info) "FREEZE_INFO_PATH" in
  if bool_decide (GetStrValFromMap (f_sectionMap info) "ENABLE_MAINTHREAD_SAMPLE" = str "1") || bool_decide (freezeExtPath = []) then d else
  match externalLogList with
  | [mergedFile] => if bool_decide (mergedFile = []) || bool_decide (mergedFile = f_logPath info) then d else delete mergedFile d
  | _ => d
  end.

(** [ReportAppFreezeToAppEvent]: what is handed to the publisher. *)
Definition ReportAppFreezeToAppEvent (now : Z) (writable : bool) (rss_ : Z) (gcInfo ioInfo : bytes) (info : FaultLogInfo)
    (isAppHicollie : bool) (d : Files) : option ((bytes * bytes) * Files) :=
  let '(externalLogList, d) := BuildExternalLogList now writable info d in
  ed ← PublishAppFreezeJson rss_ gcInfo ioInfo info isAppHicollie externalLogList d;
  Some (ed.1, RemoveMergedTempIfNeeded info externalLogList ed.2).

Definition MIN_APP_USERID : Z := 10000.

Definition IsSystemProcess (processName : bytes) (uid : Z) : bool :=
  (uid <? MIN_APP_USERID) || bool_decide (str "/system/bin" `prefix_of` processName) || bool_decide (str "/vendor/bin" `prefix_of` processName).

(** [ReportEventToAppEvent]: whether it reports and the events handed on, one after
    the other; [None] when a number of the file throws. *)
Definition ReportEventToAppEvent (now : Z) (writable : bool) (rss_ : Z) (gcInfo ioInfo : bytes) (info : FaultLogInfo) (d : Files)
    : option (bool * list (bytes * bytes) * Files) :=
  if IsSystemProcess (f_module info) (f_id info) || negb (f_reportToAppEvent info) then Some (false, [], d) else
  let report (cond isAppHicollie : bool) (ed : list (bytes * bytes) * Files) :=
    if cond then r ← ReportAppFreezeToAppEvent now writable rss_ gcInfo ioInfo info isAppHicollie ed.2; Some (ed.1 ++ [r.1], r.2)
    else Some ed in
  ed ← report (bool_decide (f_reason info = str "APP_HICOLLIE")) true ([], d);
  ed ← report (f_faultLogType info =? APP_FREEZE) false ed;
  ed ← report (f_faultLogType info =? APPFREEZE_WARNING) false ed;
  Some (true, ed.1, ed.2).

End Disk.

(** ** Facts *)

(** *** Numbers *)

Lemma c_str_plain s : 0 ∉ s → c_str s = s.
Proof.
  induction s as [|c s IH]; intros H; [done|]. cbn [c_str]. apply not_elem_of_cons in H as [Hc H].
  rewrite (proj2 (Z.eqb_neq _ _)) by done. by rewrite IH.
Qed.

Lemma decimal_digits n : 0 <= n → take_digits 10 (print_base 10 n) ≠ [] ∧ value_of 10 (take_digits 10 (print_base 10 n)) = n.
Proof.
  intros Hn. pose proof (read_print_base 10 ltac:(lia) n [] Hn I) as HV. rewrite app_nil_r in HV. split; [|done].
  destruct (print_base_cons 10 ltac:(lia) n Hn) as (d & ds & -> & Hd). cbn [take_digits]. rewrite digit_val_char by lia. done.
Qed.

Lemma sign_of_number n : take_sign (skip_space (c_str (to_string n))) = (n <? 0, print_base 10 (Z.abs n)).
Proof.
  assert (∀ k, 0 <= k → 0 ∉ print_base 10 k) as H0.
  { intros k Hk Hin. assert (0 ∈ to_string k) as H by (unfold to_string; by rewrite (proj2 (Z.ltb_ge _ _))).
    apply to_string_chars in H; lia. }
  unfold to_string. destruct (Z.ltb_spec n 0).
  - rewrite c_str_plain by (apply not_elem_of_cons; split; [lia|apply H0; lia]). rewrite take_sign_minus. by rewrite Z.abs_neq by lia.
  - rewrite c_str_plain by (apply H0; lia). destruct (print_base_cons 10 ltac:(lia) n) as (d & ds & E & Hd); [lia|].
    rewrite Z.abs_eq, E, (digit_char_front 10) by lia. done.
Qed.

Lemma stoull_number n : 0 <= n < 2 ^ 64 → stoull (to_string n) = Some n.
Proof.
  intros Hn. unfold stoull. rewrite sign_of_number, Z.abs_eq by lia. destruct (decimal_digits n) as [Hne ->]; [lia|].
  rewrite bool_decide_false by done. rewrite gtb_false by lia. by rewrite (proj2 (Z.ltb_ge n 0)) by lia.
Qed.

Lemma stol_number n : - 2 ^ 63 <= n < 2 ^ 63 → stol (to_string n) = Some n.
Proof.
  intros Hn. unfold stol. rewrite sign_of_number. destruct (decimal_digits (Z.abs n)) as [Hne ->]; [lia|].
  rewrite bool_decide_false by done. assert ((if n <? 0 then - Z.abs n else Z.abs n) = n) as -> by (destruct (Z.ltb_spec n 0); lia).
  by rewrite !(proj2 (Z.leb_le _ _)) by lia.
Qed.

(** *** Lines *)

Lemma pieces_line sep part l r : sep ∉ l → pieces sep part (l ++ sep :: r) = (part ++ l) :: pieces sep [] r.
Proof.
  revert part. induction l as [|c l IH]; intros part H; cbn [app pieces].
  - by rewrite Z.eqb_refl, app_nil_r.
  - apply not_elem_of_cons in H as [Hc H]. rewrite (proj2 (Z.eqb_neq c sep)) by done. rewrite IH by done.
    by rewrite <- app_assoc.
Qed.

(** A text of whole lines. *)
Definition whole_lines (t : bytes) : Prop := t = [] ∨ ∃ u, t = u ++ [10].

Lemma pieces_closed u part r : pieces 10 part (u ++ 10 :: r) = pieces 10 part (u ++ [10]) ++ pieces 10 [] r.
Proof.
  revert part. induction u as [|c u IH]; intros part; cbn [app pieces]; [done|]. destruct (c =? 10); [|apply IH]. by rewrite IH.
Qed.

Lemma pieces_whole t r : whole_lines t → pieces 10 [] (t ++ r) = pieces 10 [] t ++ pieces 10 [] r.
Proof. intros [->|[u ->]]; [done|]. rewrite <- app_assoc. apply pieces_closed. Qed.

Lemma find_sub_first x sub a b : x ∉ a → find_sub (x :: sub) (a ++ x :: sub ++ b) = Some (length a).
Proof.
  induction a as [|y a IH]; intros H; cbn [app find_sub length].
  - by rewrite bool_decide_true by (rewrite app_comm_cons; apply prefix_app_r; done).
  - apply not_elem_of_cons in H as [Hy H]. rewrite bool_decide_false by (intros ?%prefix_cons_inv_1; congruence). by rewrite IH.
Qed.

(** *** The collected values *)

(** The lines written for keys and values. *)
Definition kv_lines (kvs : list (string * bytes)) : bytes := concat ((λ kv, key_value kv.1 kv.2) <$> kvs).
Definition kv_line (kv : string * bytes) : bytes := str kv.1 ++ COMMON_EQUAL ++ kv.2.

Definition good_entry (kv : string * bytes) : Prop := str kv.1 ∈ KEY_IN_LOGFILE ∧ (10 ∉ kv.2).

Lemma key_plain (k : bytes) : k ∈ KEY_IN_LOGFILE → (32 ∉ k) ∧ (10 ∉ k).
Proof.
  assert (Forall (λ k : bytes, (32 ∉ k) ∧ (10 ∉ k)) KEY_IN_LOGFILE) as H by (apply (bool_decide_eq_true_1 _); vm_compute; reflexivity).
  intros Hk. exact (proj1 (Forall_forall _ _) H k Hk).
Qed.

Lemma line_entry_kv kv : str kv.1 ∈ KEY_IN_LOGFILE → line_entry (kv_line kv) = Some (str kv.1, kv.2).
Proof.
  intros Hk. destruct (key_plain _ Hk) as [Hs _]. unfold line_entry, kv_line.
  change (find_sub COMMON_EQUAL (str kv.1 ++ COMMON_EQUAL ++ kv.2)) with (find_sub (32 :: str "= ") (str kv.1 ++ 32 :: str "= " ++ kv.2)).
  rewrite find_sub_first by done. rewrite take_app_length, bool_decide_true by done.
  rewrite <- drop_drop. by rewrite drop_app_length, drop_app_length.
Qed.

Lemma pieces_kvs kvs : Forall good_entry kvs → pieces 10 [] (kv_lines kvs) = kv_line <$> kvs.
Proof.
  induction 1 as [|kv kvs [Hk Hv] _ IH]; [done|]. unfold kv_lines. cbn [fmap list_fmap concat]. fold (kv_lines kvs).
  assert (key_value kv.1 kv.2 ++ kv_lines kvs = kv_line kv ++ 10 :: kv_lines kvs) as ->.
  { unfold key_value, kv_line, COMMON_EQUAL. by rewrite <- !app_assoc. }
  rewrite pieces_line, IH; [done|]. unfold kv_line. rewrite !elem_of_app. destruct (key_plain _ Hk) as [_ Hn].
  intros [?|[H|?]]; [done| |done]. revert H. apply (bool_decide_eq_true_1 (10 ∉ COMMON_EQUAL)). by vm_compute.
Qed.

Lemma collect_kvs kvs m k : Forall good_entry kvs →
  foldl collect_line m (kv_line <$> kvs) !! k =
    (match (λ kv : string * bytes, kv.2) <$> filter (λ kv : string * bytes, str kv.1 = k) kvs with [] => m !! k | vs => Some (default [] (m !! k) ++ vs) end).
Proof.
  intros H. revert m. induction H as [|kv kvs [Hk Hv] _ IH]; intros m; [done|]. cbn [fmap list_fmap foldl].
  fold (fmap (M := list) kv_line kvs). rewrite IH. unfold collect_line. rewrite line_entry_kv by done. rewrite filter_cons.
  destruct (decide (str kv.1 = k)) as [->|Hne].
  - rewrite lookup_insert_eq. cbn [fmap list_fmap from_option]. unfold Datatypes.id. destruct (filter _ kvs); cbn [fmap list_fmap]; [done|].
    by rewrite <- app_assoc.
  - by rewrite lookup_insert_ne.
Qed.

(** *** From the freeze detector to the fault logger *)

(** What [MergeFreezeJsonFile] writes at the end of the file. *)
Definition verdict_entries (domain stringId timestamp pid uid package process : bytes) : list (string * bytes) :=
  [("domain"%string, domain); ("stringId"%string, stringId); ("timestamp"%string, timestamp); ("pid"%string, pid); ("uid"%string, uid);
   ("package_name"%string, package); ("process_name"%string, process)].

Definition VERDICT_KEYS : list string := ["domain"; "stringId"; "timestamp"; "pid"; "uid"; "package_name"; "process_name"]%string.

Lemma verdict_found v1 v2 v3 v4 v5 v6 v7 k v :
  (k, v) ∈ verdict_entries v1 v2 v3 v4 v5 v6 v7 →
  ((λ kv : string * bytes, kv.2) <$> filter (λ kv : string * bytes, str kv.1 = str k) (verdict_entries v1 v2 v3 v4 v5 v6 v7)) = [v].
Proof.
  unfold verdict_entries. rewrite !elem_of_cons, elem_of_nil. intros H.
  destruct H as [[= -> ->]|[[= -> ->]|[[= -> ->]|[[= -> ->]|[[= -> ->]|[[= -> ->]|[[= -> ->]|[]]]]]]]]; vm_compute; reflexivity.
Qed.

Lemma verdict_other v1 v2 v3 v4 v5 v6 v7 k :
  str k ∉ str <$> VERDICT_KEYS →
  ((λ kv : string * bytes, kv.2) <$> filter (λ kv : string * bytes, str kv.1 = str k) (verdict_entries v1 v2 v3 v4 v5 v6 v7)) = [].
Proof.
  unfold VERDICT_KEYS. cbn [fmap list_fmap]. rewrite !not_elem_of_cons. intros (H1 & H2 & H3 & H4 & H5 & H6 & H7 & _). unfold verdict_entries.
  rewrite !filter_cons_False; [done|..]; cbn [fst]; congruence.
Qed.

Section Handover.
Context (before v1 v2 v3 v4 v5 v6 v7 : bytes).
Context (Hwhole : whole_lines before) (Hkeys : Forall (λ k, collect before !! str k = None) VERDICT_KEYS).
Context (Hgood : Forall good_entry (verdict_entries v1 v2 v3 v4 v5 v6 v7)).

Let m := collect (before ++ kv_lines (verdict_entries v1 v2 v3 v4 v5 v6 v7)).

Lemma handover_map : m = foldl collect_line (collect before) (kv_line <$> verdict_entries v1 v2 v3 v4 v5 v6 v7).
Proof. unfold m, collect. by rewrite pieces_whole, foldl_app, pieces_kvs. Qed.

Lemma handover_new k v : (k, v) ∈ verdict_entries v1 v2 v3 v4 v5 v6 v7 → values m k = [v].
Proof.
  intros Hin. unfold values. rewrite handover_map, collect_kvs, (verdict_found _ _ _ _ _ _ _ k v) by done.
  assert (k ∈ VERDICT_KEYS) as Hk.
  { change VERDICT_KEYS with ((verdict_entries v1 v2 v3 v4 v5 v6 v7).*1). apply list_elem_of_fmap. by exists (k, v). }
  by rewrite (proj1 (Forall_forall _ _) Hkeys k Hk).
Qed.

Lemma handover_old k : str k ∉ str <$> VERDICT_KEYS → values m k = values (collect before) k.
Proof. intros Hk. unfold values. by rewrite handover_map, collect_kvs, verdict_other. Qed.

End Handover.

Section Claim.
Context (resolve : bytes → bytes) (readable : bytes → bool).

(** Whose file it is: the process that renders when the page is rendered elsewhere. *)
Definition json_pid (w : WatchPoint) : Z := if bool_decide (w_stringId w = RENDER_JS_FREEZE) then w_renderPid w else w_pid w.
Definition json_uid (w : WatchPoint) : Z := if bool_decide (w_stringId w = RENDER_JS_FREEZE) then w_renderUid w else w_uid w.
Definition json_path (w : WatchPoint) : bytes := GetFilePath (json_pid w) (json_uid w) (w_timestamp w).

(** What the file holds before the verdict is added: what was in it and the logs of
    the events. *)
Definition json_before (w : WatchPoint) (l : list WatchPoint) (d : Files) : bytes :=
  let merged := merge_json resolve readable l (mkStream [] false) d in
  default [] (content <$> merged.2 !! resolve (json_path w)) ++ s_text merged.1.

(** C13: the fault logger collects what the freeze detector found.  The file left for
    the process, read by the fault logger under the process, user and time of the
    report, gives the event's domain, name, time, process, user and names, and the
    message, the calls waited for, the handlers and the stack of the first (for the
    handlers the last) line of the logs merged into it; then the file is gone. *)
Theorem freeze_handed_over e w l d rss_ info :
  0 <= json_fd e → readable (resolve (json_path w)) = true →
  whole_lines (json_before w l d) → Forall (λ k, collect (json_before w l d) !! str k = None) VERDICT_KEYS →
  Forall (λ t : bytes, 10 ∉ t) [w_domain w; w_stringId w; w_packageName w; w_processName w] →
  0 <= w_timestamp w < 2 ^ 63 → - 2 ^ 63 <= json_pid w < 2 ^ 63 → - 2 ^ 63 <= json_uid w < 2 ^ 63 →
  f_time info = w_timestamp w → f_pid info = json_pid w → f_id info = json_uid w →
  let d' := MergeFreezeJsonFile resolve readable e w l d in
  let old := collect (json_before w l d) in
  ∃ c, GetFreezeJsonCollector resolve readable rss_ info d' = Some (c, delete (resolve (json_path w)) d') ∧
    c_domain c = w_domain w ∧ c_stringId c = w_stringId w ∧ c_timestamp c = w_timestamp w ∧ c_pid c = json_pid w ∧
    c_uid c = json_uid w ∧ c_package_name c = w_packageName w ∧ c_process_name c = w_processName w ∧
    c_message c = first_value old "message" [] ∧ c_peer_binder c = first_value old "peer_binder" (str "[]") ∧
    c_stack c = first_value old "stack" (str "[]") ∧ c_event_handler c = last_value old "event_handler" (str "[]") ∧
    c_exception c = JsonStr_exception (w_stringId w) (first_value old "message" []).
Proof.
  intros Hfd Hread Hwhole Hkeys Htexts Ht Hp Hu Et Ep Eu d' old.
  set (path := resolve (json_path w)) in *.
  set (entries := verdict_entries (w_domain w) (w_stringId w) (to_string (w_timestamp w)) (to_string (json_pid w)) (to_string (json_uid w))
    (w_packageName w) (w_processName w)).
  assert (content <$> d' !! path = Some (json_before w l d ++ kv_lines entries)) as Hd.
  { subst d' path. unfold MergeFreezeJsonFile, json_before, json_path, json_pid, json_uid. destruct (merge_json _ _ _ _ _) as [oss d1].
    rewrite (proj2 (Z.ltb_ge (json_fd e) 0)) by lia. unfold write_at. rewrite lookup_insert_eq. cbn [fmap option_fmap option_map content fst snd].
    f_equal. rewrite <- app_assoc. f_equal. f_equal. unfold kv_lines. cbn [fmap list_fmap concat entries verdict_entries fst snd].
    by rewrite app_nil_r. }
  assert (Forall good_entry entries) as Hgood.
  { inversion_clear Htexts as [|? ? T1 Ts]. inversion_clear Ts as [|? ? T2 Ts']. inversion_clear Ts' as [|? ? T3 Ts]. inversion_clear Ts as [|? ? T4 _].
    assert (∀ n, 10 ∉ to_string n) as Hn.
    { intros n. unfold to_string. destruct (Z.ltb_spec n 0); [apply not_elem_of_cons; split; [done|]|];
        intros H10; assert (10 ∈ to_string (Z.abs n)) as H' by (unfold to_string; rewrite (proj2 (Z.ltb_ge _ _)) by lia;
          rewrite ?Z.abs_neq, ?Z.abs_eq by lia; done); apply to_string_chars in H'; lia. }
    assert (Forall (λ k, str k ∈ KEY_IN_LOGFILE) VERDICT_KEYS) as HK by (apply (bool_decide_eq_true_1 _); vm_compute; reflexivity).
    subst entries. unfold verdict_entries. unfold VERDICT_KEYS in HK. rewrite !Forall_cons in HK. destruct HK as (K1 & K2 & K3 & K4 & K5 & K6 & K7 & _).
    repeat apply Forall_cons_2; try apply Forall_nil_2; split; cbn [fst snd]; done. }
  set (m := collect (json_before w l d ++ kv_lines entries)).
  assert (∀ k v, (k, v) ∈ entries → values m k = [v]) as Hnew by (intros k v; by apply handover_new).
  assert (∀ k, str k ∉ str <$> VERDICT_KEYS → values m k = values old k) as Hold by (intros k; by apply handover_old).
  assert (∃ c, FormatCollect m FreezeJsonCollector_new = Some c ∧ c_domain c = w_domain w ∧ c_stringId c = w_stringId w ∧
    c_timestamp c = w_timestamp w ∧ c_pid c = json_pid w ∧ c_uid c = json_uid w ∧ c_package_name c = w_packageName w ∧
    c_process_name c = w_processName w ∧ c_message c = first_value old "message" [] ∧
    c_peer_binder c = first_value old "peer_binder" (str "[]") ∧ c_stack c = first_value old "stack" (str "[]") ∧
    c_event_handler c = last_value old "event_handler" (str "[]")) as (c & HF & H1 & H2 & H3 & H4 & H5 & H6 & H7 & H8 & H9 & H10 & H11).
  { unfold FormatCollect, first_number, first_value, last_value.
    rewrite (Hnew "timestamp"%string (to_string (w_timestamp w))), stoull_number by (lia || set_solver).
    rewrite (Hnew "pid"%string (to_string (json_pid w))), stol_number by (done || set_solver).
    rewrite (Hnew "uid"%string (to_string (json_uid w))), stol_number by (done || set_solver).
    rewrite (Hnew "domain"%string (w_domain w)), (Hnew "stringId"%string (w_stringId w)), (Hnew "package_name"%string (w_packageName w)),
      (Hnew "process_name"%string (w_processName w)) by set_solver.
    rewrite (Hold "message"%string), (Hold "peer_binder"%string), (Hold "stack"%string), (Hold "event_handler"%string)
      by (apply (bool_decide_eq_true_1 _); vm_compute; reflexivity).
    eexists. split; [done|]. cbn. done. }
  unfold GetFreezeJsonCollector. rewrite Et, Ep, Eu, (u64_small (w_timestamp w)) by (unfold is_u; lia).
  change (GetFilePath (json_pid w) (json_uid w) (w_timestamp w)) with (json_path w).
  destruct (d' !! path) as [f|] eqn:Ef; [|done]. cbn [fmap option_fmap option_map] in Hd. injection Hd as Hd.
  assert (exists_ resolve (json_path w) d' = true) as Hex.
  { unfold exists_. fold path. rewrite Ef. apply bool_decide_eq_true. by eexists. }
  rewrite Hex. cbn [negb]. unfold LoadCollectorFromFile, PathToRealPath. rewrite Hex. fold path. unfold open_file. rewrite Hread, Ef.
  cbn [fmap option_fmap option_map from_option]. unfold Datatypes.id. rewrite Hd. fold m. rewrite HF. cbn [mbind option_bind].
  eexists. split; [done|]. cbn. rewrite H2, H8. split_and!; done.
Qed.

End Claim.

(** *** Instances *)

Definition sample_verdict : WatchPoint :=
  Freeze.Freeze.mkWatchPoint 1 1700000500 77 77 20010043 20010043 [] [] (str "ACE") (str "UI_BLOCK_6S") (str "msg") (str "com.demo") (str "com.demo")
    12 (str "Yes") (str "nolog") [] [] [] [] [] [] false [] [] [] [] [] [] [] [] [] [] [] [] false false false 0 0.

Definition sample_json_path : bytes := str "/data/log/freezejson/77-20010043-1700000500".
Definition sample_json_disk : Files := {[sample_json_path := mkFile (str "message = stuck" ++ [10] ++ str "peer_binder = []" ++ [10]) 5]}.
Definition sample_json_env : Env := mkEnv 100 200 (str "300") 3 4 5 [] 5000 (λ _, None) ∅.
Definition sample_fault_info : FaultLogInfo := mkFaultLogInfo 1700000500 20010043 77 4 (str "com.demo") (str "UI_BLOCK_6S") (str "log") ∅ true.

Lemma freeze_handed_over_witness :
  ∃ c, GetFreezeJsonCollector (λ p, p) (λ _, true) 0 sample_fault_info
      (MergeFreezeJsonFile (λ p, p) (λ _, true) sample_json_env sample_verdict [sample_verdict] sample_json_disk) =
      Some (c, delete sample_json_path
        (MergeFreezeJsonFile (λ p, p) (λ _, true) sample_json_env sample_verdict [sample_verdict] sample_json_disk)) ∧
    c_domain c = str "ACE" ∧ c_pid c = 77 ∧ c_message c = str "stuck".
Proof.
  destruct (freeze_handed_over (λ p, p) (λ _, true) sample_json_env sample_verdict [sample_verdict] sample_json_disk 0 sample_fault_info)
    as (c & E & Hd & _ & _ & Hp & _ & _ & _ & Hm & _).
  - by vm_compute.
  - done.
  - right. eexists (str "message = stuck" ++ [10] ++ str "peer_binder = []"). by vm_compute.
  - apply (bool_decide_eq_true_1 _). vm_compute. reflexivity.
  - apply (bool_decide_eq_true_1 _). vm_compute. reflexivity.
  - by vm_compute.
  - by vm_compute.
  - by vm_compute.
  - done.
  - done.
  - done.
  - exists c. split; [exact E|]. split; [exact Hd|]. split; [exact Hp|]. rewrite Hm. by vm_compute.
Defined.

End FreezeJson.
