(* ===== verification/Binder.v ===== *)
(** * Binder: which processes a frozen process waits for

    Models plugins/eventlogger/log_catcher/peer_binder_catcher.cpp: the kernel's
    list of binder transactions is read into a table from a process to the calls it
    waits for, the processes it waits for, directly or through others, are collected,
    and their stacks are taken.  The kernel's file, the processes' names, users and
    groups are given. *)

From S2P Require Import Prelude Text DbFile Database SysEvent FreezeVendor FreezeJson.
From stdpp Require Import base gmap list numbers strings relations sorting.

Local Open Scope Z_scope.

Module Binder.
Import Database.Database (Sorter, std_sort, sort_perm, sort_sorted, key_order).
Import DbFile.DbFile.
Import SysEvent.SysEvent (UnescapeJsonStringValue).
Import FreezeVendor.FreezeVendor (FormatProcessName, pieces).
Import FreezeJson.FreezeJson (GetStrByList, WrapByParenthesis).

(** ** Numbers *)

(** [strtol] and [strtoll] of a whole text, [None] when [StrToInt] refuses it. *)
Definition parse_long (s : bytes) : option Z :=
  match s with
  | [] => None
  | c :: _ =>
      if negb (is_digit c || (c =? 45)) then None else
      let '(neg, ds) := take_sign (c_str s) in
      let digits := take_digits 10 ds in
      if bool_decide (digits = []) || negb (bool_decide (drop (length digits) ds = [])) then None else
      let v := if neg then - value_of 10 digits else value_of 10 digits in
      if (- 2 ^ 63 <=? v) && (v <=? 2 ^ 63 - 1) then Some v else None
  end.

(** [StrToInt(s, value)]: the value stays when the text is refused. *)
Definition StrToInt_or (value : Z) (s : bytes) : Z := from_option s32 value (parse_long s).
Definition StrToInt (s : bytes) : Z := StrToInt_or (-1) s.
Definition StrToInt64 (s : bytes) : Z := default 0 (parse_long s).

(** ** Transactions *)

Record BinderInfo := mkBinder { clientPid : Z; clientTid : Z; serverPid : Z; serverTid : Z; wait : Z }.

Definition ARR_SIZE : Z := 7.
Definition FREE_ASYNC_INDEX : nat := 6.
Definition FREE_ASYNC_MAX : Z := 1000.
Definition MIN_APP_UID : Z := 20000.

(** [GetFileToList]: [lineStream >> tmpstr] until it fails. *)
Fixpoint words (part s : bytes) : list bytes :=
  let flush := if bool_decide (part = []) then [] else [part] in
  match s with
  | [] => flush
  | c :: s => if is_space c then flush ++ words [] s else words (part ++ [c]) s
  end.

Definition GetFileToList (line : bytes) : list bytes := words [] line.

Definition StrSplit (s : bytes) (index : nat) : bytes := default [] (SplitStr s (str ":") !! index).

Definition word_at (strList : list bytes) (index : nat) : bytes := default [] (strList !! index).

Definition contains (sub s : bytes) : bool := bool_decide (is_Some (find_sub sub s)).

(** What the parser keeps. *)
Record Parsed := mkParsed {
  manager : gmap Z (list BinderInfo);
  outputBinderInfoList : list (bytes * Z);
  asyncBinderMap : gmap Z Z;
  freeAsyncSpacePairs : list (Z * Z);
  isBinderMatchup : bool;
  written : bytes
}.

Definition Parsed_new : Parsed := mkParsed ∅ [] ∅ [] false [].

Definition edges (m : gmap Z (list BinderInfo)) (pid : Z) : list BinderInfo := default [] (m !! pid).

Section Parser.
Context (oversea : bool).

Definition SaveBinderLineToFd (line : bytes) (p : Parsed) : Parsed :=
  mkParsed (manager p) (outputBinderInfoList p) (asyncBinderMap p) (freeAsyncSpacePairs p)
    (if negb (isBinderMatchup p) && contains (str "free_async_space") line then true else isBinderMatchup p)
    (if oversea then written p else written p ++ line ++ [10]).

(** The transaction a line of seven or more words shows. *)
Definition transaction (strList : list bytes) : option BinderInfo :=
  let client := word_at strList 0 in
  let server := word_at strList 2 in
  let clientPid := StrSplit client 0 in
  let clientTid := StrSplit client 1 in
  let serverPid := StrSplit server 0 in
  let serverTid := StrSplit server 1 in
  let wait := StrSplit (word_at strList 5) 1 in
  if bool_decide (clientPid = []) || bool_decide (clientTid = []) || bool_decide (serverPid = []) ||
     bool_decide (serverTid = []) || bool_decide (wait = []) then None
  else Some (mkBinder (StrToInt clientPid) (StrToInt clientTid) (StrToInt serverPid) (StrToInt serverTid) (StrToInt wait)).

Definition add_transaction (line : bytes) (i : BinderInfo) (p : Parsed) : Parsed :=
  mkParsed (<[clientPid i := edges (manager p) (clientPid i) ++ [i]]> (manager p))
    (outputBinderInfoList p ++ [(TrimStr line, serverPid i)]) (asyncBinderMap p) (freeAsyncSpacePairs p) (isBinderMatchup p) (written p).

Definition is_async (line : bytes) (strList : list bytes) : bool :=
  contains (str "async" ++ [9]) line && (Zlen strList >? ARR_SIZE).

(** One round of the loop; [None] when the loop is left. *)
Definition parse_line (line : bytes) (p : Parsed) : option Parsed :=
  let p := SaveBinderLineToFd line p in
  let strList := GetFileToList line in
  if isBinderMatchup p then
    if oversea then None else
    if negb (contains (str "free_async_space") line) && (Zlen strList =? ARR_SIZE) &&
       (StrToInt64 (word_at strList FREE_ASYNC_INDEX) <? FREE_ASYNC_MAX)
    then Some (mkParsed (manager p) (outputBinderInfoList p) (asyncBinderMap p)
           (freeAsyncSpacePairs p ++ [(u32 (StrToInt (word_at strList 0)), u64 (StrToInt64 (word_at strList FREE_ASYNC_INDEX)))])
           true (written p))
    else Some p
  else if is_async line strList then
    let serverPid := StrSplit (word_at strList 3) 0 in
    let serverTid := StrSplit (word_at strList 3) 1 in
    if negb (bool_decide (serverPid = [])) && negb (bool_decide (serverTid = [])) && (StrToInt serverTid =? 0) && negb oversea
    then let k := u32 (StrToInt serverPid) in
         Some (mkParsed (manager p) (outputBinderInfoList p) (<[k := u32 (default 0 (asyncBinderMap p !! k) + 1)]> (asyncBinderMap p))
           (freeAsyncSpacePairs p) (isBinderMatchup p) (written p))
    else Some p
  else if Zlen strList >=? ARR_SIZE then
    match transaction strList with
    | Some i => Some (add_transaction line i p)
    | None => Some p
    end
  else Some p.

(** [BinderInfoLineParser]. *)
Fixpoint parse_lines (lines : list bytes) (p : Parsed) : Parsed :=
  match lines with
  | [] => p
  | line :: lines => match parse_line line p with Some p => parse_lines lines p | None => SaveBinderLineToFd line p end
  end.

Definition BinderInfoLineParser (content : bytes) : Parsed := parse_lines (pieces 10 [] content) Parsed_new.

Context `{SO : Sorter}.

Definition individualMaxSize : nat := 2.

(** The processes with the least free space and with most asynchronous calls. *)
Definition async_pids (p : Parsed) : gset Z :=
  if oversea then ∅ else
  let free := std_sort (λ a b : Z * Z, a.2 <? b.2) (freeAsyncSpacePairs p) in
  let busy := std_sort (λ a b : Z * Z, b.2 <? a.2) (map_to_list (asyncBinderMap p)) in
  list_to_set (s32 <$> ((take individualMaxSize free).*1 ++ (take individualMaxSize busy).*1)).

End Parser.

(** ** The processes waited for *)

Inductive Layer := LOGGER_BINDER_STACK_ONE | LOGGER_BINDER_STACK_ALL | OtherLayer.

Record Terminal := mkTerminal { t_pid : Z; t_tid : Z }.

(** The processes found and the end of the chain of the frozen thread. *)
Definition Found : Type := gset Z * Terminal.

Section Chain.
Context (m : gmap Z (list BinderInfo)) (eventPid eventTid : Z).

Definition on_chain (e : BinderInfo) (t : Terminal) : bool :=
  ((clientPid e =? eventPid) && (clientTid e =? eventTid)) || ((clientPid e =? t_pid t) && (clientTid e =? t_tid t)).

(** The loop of [ParseBinderCallChain], given the calls of itself. *)
Fixpoint chain_loop (rec : Z → bool → Found → option Found) (getTerminal : bool) (es : list BinderInfo) (f : Found) : option Found :=
  match es with
  | [] => Some f
  | each :: es =>
      if bool_decide (serverPid each ∈ f.1) then chain_loop rec getTerminal es f else
      let f := ({[serverPid each]} ∪ f.1, f.2) in
      match (if getTerminal && on_chain each f.2
             then rec (serverPid each) true (f.1, mkTerminal (serverPid each) (serverTid each)) else Some f) with
      | None => None
      | Some f =>
          match rec (serverPid each) false f with
          | None => None
          | Some f => chain_loop rec getTerminal es f
          end
      end
  end.

Fixpoint ParseBinderCallChain (fuel : nat) (pid : Z) (getTerminal : bool) (f : Found) : option Found :=
  match fuel with
  | O => None
  | S fuel => chain_loop (ParseBinderCallChain fuel) getTerminal (edges m pid) f
  end.

End Chain.

(** The processes that serve a call: each deepens the recursion once. *)
Definition servers (m : gmap Z (list BinderInfo)) : gset Z :=
  list_to_set (concat ((λ pl : Z * list BinderInfo, serverPid <$> pl.2) <$> map_to_list m)).

(** The first entry of the frozen thread ends its chain. *)
Definition first_terminal (pid tid : Z) (es : list BinderInfo) (t : Terminal) : Terminal :=
  match list_find (λ e, clientPid e = pid ∧ clientTid e = tid) es with
  | Some (_, e) => mkTerminal (serverPid e) (serverTid e)
  | None => t
  end.

(** [GetBinderPeerPids], given what was parsed and the thread of the event. *)
Definition GetBinderPeerPids (oversea : bool) (layer : Layer) (pid_ : Z) (TID : Z) (m : gmap Z (list BinderInfo)) (t : Terminal)
    : option Found :=
  if oversea || bool_decide (m = ∅) || bool_decide (m !! pid_ = None) then Some (∅, t) else
  let tid := if TID >? 0 then TID else pid_ in
  match layer with
  | LOGGER_BINDER_STACK_ONE => Some (list_to_set (serverPid <$> edges m pid_), first_terminal pid_ tid (edges m pid_) t)
  | LOGGER_BINDER_STACK_ALL => ParseBinderCallChain m pid_ tid (S (size (servers m))) pid_ true (∅, t)
  | OtherLayer => Some (∅, t)
  end.

(** ** The lines for the application *)

(** [AddBinderJsonInfo], given the command line of a process that can be read. *)
Definition AddBinderJsonInfo (cmdline : Z → option bytes) (output : list (bytes * Z)) : bytes :=
  let name pid := from_option (λ t, FormatProcessName (default [] (head (pieces 10 [] t)))) [] (cmdline pid) in
  GetStrByList ((λ o : bytes * Z, o.1 ++ str "    " ++ to_string o.2 ++ WrapByParenthesis (name o.2)) <$> output).

(** ** What a watchdog collected itself *)

(** [substr(start, end - start)]: a negative length goes to the end. *)
Definition substr (start end_ : nat) (s : bytes) : bytes :=
  if bool_decide (start <= end_)%nat then take (end_ - start) (drop start s) else drop start s.

(** The number in front of a name in parentheses. *)
Definition sync_item (item : bytes) : list Z :=
  match find_sub (str "(") item, find_sub (str ")") item with
  | Some nameStart, Some nameEnd =>
      if bool_decide (nameStart < nameEnd)%nat then [StrToInt_or 0 (take nameStart item)] else []
  | _, _ => []
  end.

Section Hicollie.
Context (info : bytes).

Definition syncPos : option nat := find_sub (str "syncPids:") info.
Definition asyncPos : option nat := find_sub (str "asyncPids:") info.
Definition terminalPos : option nat := find_sub (str "terminalBinder:") info.

Definition ParseSyncPidsFromHicollie : list Z :=
  match syncPos with
  | None => []
  | Some pos => concat (sync_item <$> pieces 59 [] (substr (pos + 9) (default (length info) asyncPos) info))
  end.

Definition ParseAsyncPidsFromHicollie : list Z :=
  match asyncPos with
  | None => []
  | Some pos => StrToInt_or 0 <$> pieces 44 [] (substr (pos + 10) (default (length info) terminalPos) info)
  end.

Definition ParseTerminalFromHicollie (t : Terminal) : Terminal :=
  match terminalPos with
  | None => t
  | Some pos =>
      let terminalStr := drop (pos + 15) info in
      match find_sub (str ",") terminalStr with
      | Some (S _ as commaPos) =>
          mkTerminal (StrToInt_or (t_pid t) (take commaPos terminalStr)) (StrToInt_or (t_tid t) (drop (commaPos + 1) terminalStr))
      | _ => t
      end
  end.

Definition WriteBinderProcNameToFd : bytes :=
  match syncPos with
  | None => []
  | Some pos =>
      let end_ := length info in
      let end_ := match asyncPos with Some a => if bool_decide (a < end_)%nat then a else end_ | None => end_ end in
      let end_ := match terminalPos with Some a => if bool_decide (a < end_)%nat then a else end_ | None => end_ end in
      str "BINDER_PROC_NAME: " ++ UnescapeJsonStringValue (substr (pos + 9) end_ info) ++ [10]
  end.

End Hicollie.

(** ** The catcher *)

(** What the catcher asks for, in order: texts for the log, stacks of processes and
    of their tasks. *)
Inductive Action := Save (text : bytes) | Stack (pid : Z) (sync : bool) | Ffrt (pid : Z).

Record Catcher := mkCatcher { pid_ : Z; layer_ : Layer; catchedPids_ : gset Z; terminalBinder_ : Terminal }.

Section Catch.
Context (oversea : bool) `{SO : Sorter}.
(** Of the processes: the first line of their group and their status, when it can be
    read; of the event: its type and its thread. *)
Context (cgroup : Z → bytes) (status : Z → option bytes) (EVENT_TYPE : bytes) (TID : Z).

Definition IsAncoProc (pid : Z) : bool := contains (str "isulad") (cgroup pid).
Definition IsSysFreezeEvent : bool := bool_decide (EVENT_TYPE = str "sys").

Fixpoint uid_line (lines : list bytes) : Z :=
  match lines with
  | [] => -1
  | infoLine :: lines =>
      if bool_decide (str "Uid:" `prefix_of` infoLine)
      then match drop 4 infoLine with [] => uid_line lines | rest => ConvertStringTo 32 rest (-1) end
      else uid_line lines
  end.

Definition GetUidByPid (pid : Z) : Z := uid_line (pieces 10 [] (default [] (status pid))).

(** A set of integers in increasing order. *)
Definition ascending (s : gset Z) : list Z := merge_sort Z.le (elements s).

Definition CatcherStacktrace (pid : Z) (sync : bool) : list Action :=
  [Save (str "Binder catcher stacktrace, type is " ++ (if sync then str "peer" else str "async") ++ str ", pid : " ++ to_string pid ++ [13; 10]);
   Stack pid sync].

Definition CatcherFfrtStack (pid : Z) : list Action :=
  [Save (str "PeerBinder catcher ffrt stacktrace for pid : " ++ to_string pid ++ [13; 10]); Ffrt pid].

Definition skipped_anco (pid : Z) : bool := IsAncoProc pid && negb IsSysFreezeEvent.

Definition sync_actions (c : Catcher) (pid : Z) : list Action :=
  if pid =? pid_ c then [] else if skipped_anco pid then [] else
  (if bool_decide (pid ∈ catchedPids_ c) then [] else CatcherStacktrace pid true) ++ CatcherFfrtStack pid.

Definition sync_text (c : Catcher) (pid : Z) : bytes :=
  if (pid =? pid_ c) || skipped_anco pid || bool_decide (pid ∈ catchedPids_ c) then [] else str "," ++ to_string pid.

Definition async_actions (c : Catcher) (syncPids : gset Z) (pid : Z) : list Action :=
  let uid := GetUidByPid pid in
  if (uid <? 0) || (uid >=? MIN_APP_UID) then [] else
  if (pid =? pid_ c) || bool_decide (pid ∈ syncPids) || bool_decide (pid ∈ catchedPids_ c) then [] else
  if skipped_anco pid then [] else CatcherStacktrace pid false.

Definition CatchSyncPid (c : Catcher) (asyncPids syncPids : gset Z) : list Action * bytes :=
  (concat (sync_actions c <$> ascending syncPids) ++ concat (async_actions c syncPids <$> ascending asyncPids),
   concat (sync_text c <$> ascending syncPids)).

(** [TrimStr(s, ',')]. *)
Definition trim_commas (s : bytes) : bytes := reverse (trim_front 44 (reverse (trim_front 44 s))).

Definition set_terminal (t : Terminal) (c : Catcher) : Catcher := mkCatcher (pid_ c) (layer_ c) (catchedPids_ c) t.

(** What [Catch] does. *)
Record Caught := mkCaught { catcher : Catcher; actions : list Action; json : option bytes; peerBinder : option bytes }.

(** [Catch] with a log that can be written, given what the watchdog collected, the
    kernel's file when it exists (and can be opened), and the command lines.  On the
    left what is saved before -1 is returned. *)
Definition Catch (binderPath_ hicollieBinderInfo : bytes) (binderFile : option (option bytes)) (cmdline : Z → option bytes) (c : Catcher)
    : list Action + Caught :=
  let finish (c : Catcher) (head : list Action) (json : option bytes) (asyncPids syncPids : gset Z) :=
    let empty := if bool_decide (syncPids = ∅) && negb oversea then [Save (str "PeerBinder pids is empty" ++ [13; 10])] else [] in
    let '(acts, pidStr) := CatchSyncPid c asyncPids syncPids in
    inr (mkCaught c (head ++ empty ++ acts) json (Some (trim_commas pidStr))) in
  if pid_ c <=? 0 then inl [] else
  if negb (bool_decide (hicollieBinderInfo = [])) then
    let processNamePos := find_sub (str "PROCESS_NAME:") hicollieBinderInfo in
    let raw := match processNamePos with Some pos => take pos hicollieBinderInfo | None => hicollieBinderInfo end in
    let head := [Save (UnescapeJsonStringValue raw ++ [10]); Save ([10; 10] ++ str "PeerBinder Stacktrace --" ++ [10; 10])] in
    match processNamePos with
    | None => finish c head None ∅ ∅
    | Some pos =>
        let info := drop (pos + 13) hicollieBinderInfo in
        finish (set_terminal (ParseTerminalFromHicollie info (terminalBinder_ c)) c) (head ++ [Save (WriteBinderProcNameToFd info)]) None
          (list_to_set (ParseAsyncPidsFromHicollie info)) (list_to_set (ParseSyncPidsFromHicollie info))
    end
  else
    match binderFile with
    | None => inl [Save (binderPath_ ++ str " : file isn't exists" ++ [13; 10])]
    | Some None => finish c [Save (str "open binder file failed :" ++ binderPath_ ++ [13; 10])] None ∅ ∅
    | Some (Some content) =>
        let p := BinderInfoLineParser oversea content in
        match GetBinderPeerPids oversea (layer_ c) (pid_ c) TID (manager p) (terminalBinder_ c) with
        | None => inl []
        | Some (syncPids, t) =>
            let note (t : bytes) := if oversea then [] else [Save t] in
            finish (set_terminal t c)
              (note ([10] ++ str "BinderCatcher --" ++ [10; 10]) ++ [Save (written p)] ++
               note ([10; 10] ++ str "PeerBinder Stacktrace --" ++ [10; 10]))
              (Some (AddBinderJsonInfo cmdline (outputBinderInfoList p))) (async_pids oversea p) syncPids
        end
    end.

End Catch.

End Binder.
