(* ===== verification/BinderFacts.v ===== *)
(** * BinderFacts: the processes found are the ones waited for

    Theorems about Binder: the search through the calls ends and finds exactly the
    processes the frozen one waits for, and no stack is taken twice. *)

From S2P Require Import Prelude Text DbFile Database SysEvent FreezeVendor FreezeJson Binder.
From stdpp Require Import base gmap sets fin_sets list numbers strings relations sorting.

Local Open Scope Z_scope.

Module BinderFacts.
Import Database.Database (Sorter, std_sort, sort_perm).
Import FreezeVendor.FreezeVendor (pieces).
Import Binder.

(** ** The search *)

Section Search.
Context (m : gmap Z (list BinderInfo)) (eventPid eventTid : Z).

Definition waits (p q : Z) : Prop := q ∈ serverPid <$> edges m p.

Lemma edge_server p e : e ∈ edges m p → serverPid e ∈ servers m.
Proof.
  intros H. unfold servers. apply elem_of_list_to_set, list_elem_of_In, in_concat. unfold edges in H.
  destruct (m !! p) as [l|] eqn:E; cbn in H; [|by apply elem_of_nil in H].
  exists (serverPid <$> l). split.
  - apply list_elem_of_In, list_elem_of_fmap. exists (p, l). split; [done|]. by apply elem_of_map_to_list.
  - apply list_elem_of_In, list_elem_of_fmap. by exists e.
Qed.

(** What a search from some processes adds: all of them, and with every process all
    those it waits for. *)
Record Grown (from : list Z) (V V' : gset Z) : Prop := mkGrown {
  g_kept : V ⊆ V';
  g_from : ∀ q, q ∈ from → q ∈ V';
  g_new : ∀ x, x ∈ V' → x ∉ V → (∃ q, q ∈ from ∧ rtc waits q x) ∧ ∀ y, waits x y → y ∈ V'
}.

Lemma grown_skip V : Grown [] V V.
Proof. split; [done|by intros ? ?%elem_of_nil|done]. Qed.

(** A process, what it waits for, once or twice, and the rest. *)
Lemma grown_cons s rest V V1 V2 V3 :
  V1 = {[s]} ∪ V ∨ Grown (serverPid <$> edges m s) ({[s]} ∪ V) V1 →
  Grown (serverPid <$> edges m s) V1 V2 → Grown rest V2 V3 → Grown (s :: rest) V V3.
Proof.
  intros H1 [K2 F2 N2] [K3 F3 N3].
  assert ({[s]} ∪ V ⊆ V1) as K1 by (destruct H1 as [->|[? _ _]]; done).
  split; [set_solver|intros q [->|Hq]%elem_of_cons; [set_solver|by apply F3]|].
  intros x Hx HV. destruct (decide (x ∈ V2)) as [Hx2|Hx2].
  - assert (∀ q, q ∈ serverPid <$> edges m s → rtc waits q x → ∃ q, q ∈ s :: rest ∧ rtc waits q x) as Hstart.
    { intros q Hq Hr. exists s. split; [by left|]. eapply rtc_l; [exact Hq|exact Hr]. }
    destruct (decide (x ∈ V1)) as [Hx1|Hx1].
    + destruct (decide (x ∈ {[s]} ∪ V)) as [Hx0|Hx0].
      * assert (x = s) as -> by set_solver. split; [exists s; split; [by left|done]|]. intros y Hy. by apply K3, F2.
      * destruct H1 as [->|[_ _ N1]]; [done|]. destruct (N1 x Hx1 Hx0) as [(q & Hq & Hr) Hs]. split; [by eapply Hstart|].
        intros y Hy. by apply K3, K2, Hs.
    + destruct (N2 x Hx2 Hx1) as [(q & Hq & Hr) Hs]. split; [by eapply Hstart|]. intros y Hy. by apply K3, Hs.
  - destruct (N3 x Hx Hx2) as [(q & Hq & Hr) Hs]. split; [|done]. exists q. split; [by right|done].
Qed.

Lemma grown_seen s rest V V' : s ∈ V → Grown rest V V' → Grown (s :: rest) V V'.
Proof.
  intros Hs [K F N]. split; [done|intros q [->|Hq]%elem_of_cons; [by apply K|by apply F]|].
  intros x Hx HV. destruct (N x Hx HV) as [(q & Hq & Hr) Hy]. split; [|done]. exists q. split; [by right|done].
Qed.

Definition left_over (V : gset Z) : nat := size (servers m ∖ V).

Lemma left_over_less V V' : V ⊆ V' → (left_over V' <= left_over V)%nat.
Proof. intros H. apply (subseteq_size (H6 := gset_fin_set)). set_solver. Qed.

Lemma left_over_new V s : s ∈ servers m → s ∉ V → (left_over ({[s]} ∪ V) < left_over V)%nat.
Proof. intros Hs HV. apply (subset_size (H6 := gset_fin_set)). set_solver. Qed.

Lemma chain_loop_grown fuel g es :
  (∀ pid g f, (left_over f.1 < fuel)%nat →
    ∃ f', ParseBinderCallChain m eventPid eventTid fuel pid g f = Some f' ∧ Grown (serverPid <$> edges m pid) f.1 f'.1) →
  (∀ e, e ∈ es → serverPid e ∈ servers m) → ∀ f, (left_over f.1 <= fuel)%nat →
  ∃ f', chain_loop eventPid eventTid (ParseBinderCallChain m eventPid eventTid fuel) g es f = Some f' ∧ Grown (serverPid <$> es) f.1 f'.1.
Proof.
  intros Hrec. induction es as [|e es IH]; intros Hes f Hf; [exists f; split; [done|by apply grown_skip]|].
  assert (∀ e, e ∈ es → serverPid e ∈ servers m) as Hes' by (intros; apply Hes; by right). specialize (IH Hes').
  cbn [chain_loop fmap list_fmap]. set (s := serverPid e). case_bool_decide as Hs.
  { destruct (IH f Hf) as (f' & -> & HG). exists f'. split; [done|by apply grown_seen]. }
  pose proof (left_over_new f.1 s (Hes e ltac:(by left)) Hs) as Hlt. cbn [fst snd].
  assert (∃ f1, (if g && on_chain eventPid eventTid e f.2
      then ParseBinderCallChain m eventPid eventTid fuel s true ({[s]} ∪ f.1, mkTerminal s (serverTid e)) else Some ({[s]} ∪ f.1, f.2)) = Some f1 ∧
    (f1.1 = {[s]} ∪ f.1 ∨ Grown (serverPid <$> edges m s) ({[s]} ∪ f.1) f1.1)) as (f1 & -> & H1).
  { destruct (g && _).
    - destruct (Hrec s true ({[s]} ∪ f.1, mkTerminal s (serverTid e))) as (f1 & -> & HG); [cbn [fst]; lia|]. exists f1. split; [done|by right].
    - eexists. split; [done|by left]. }
  assert ({[s]} ∪ f.1 ⊆ f1.1) as K1 by (destruct H1 as [->|[? _ _]]; done).
  pose proof (left_over_less _ _ K1). destruct (Hrec s false f1) as (f2 & -> & HG2); [lia|].
  pose proof (left_over_less _ _ (g_kept _ _ _ HG2)). destruct (IH f2) as (f3 & -> & HG3); [lia|].
  exists f3. split; [done|by eapply grown_cons].
Qed.

(** The search ends: each level finds a process. *)
Lemma chain_grown fuel : ∀ pid g f, (left_over f.1 < fuel)%nat →
  ∃ f', ParseBinderCallChain m eventPid eventTid fuel pid g f = Some f' ∧ Grown (serverPid <$> edges m pid) f.1 f'.1.
Proof.
  induction fuel as [|fuel IH]; intros pid g f Hf; [lia|]. cbn [ParseBinderCallChain].
  apply chain_loop_grown; [exact IH|intros e; apply edge_server|lia].
Qed.

Lemma reached pid V : Grown (serverPid <$> edges m pid) ∅ V → ∀ q, q ∈ V ↔ tc waits pid q.
Proof.
  intros [_ HF HN] q. split.
  - intros Hq. destruct (HN q Hq) as [(p & Hp & Hr) _]; [set_solver|]. eapply tc_rtc_r; [by apply tc_once|done].
  - intros H. assert (∀ a b, tc waits a b → (∀ y, waits a y → y ∈ V) → b ∈ V) as Hall.
    { intros a b Hab. induction Hab as [a b Hab|a b' b Hab _ IH]; intros Ha; [by apply Ha|]. apply IH.
      intros y Hy. destruct (HN b' (Ha _ Hab)) as [_ Hs]; [set_solver|]. by apply Hs. }
    apply (Hall pid q H). intros y Hy. by apply HF.
Qed.

End Search.
(** ** From the kernel's list to the calls *)

(** The lines before the table of free space. *)
Fixpoint before_free (lines : list bytes) : list bytes :=
  match lines with
  | [] => []
  | line :: lines => if contains (str "free_async_space") line then [] else line :: before_free lines
  end.

(** The synchronous call a line shows. *)
Definition shown_call (line : bytes) : option BinderInfo :=
  let strList := GetFileToList line in
  if is_async line strList then None else if Zlen strList >=? ARR_SIZE then transaction strList else None.

Definition calls (content : bytes) : list BinderInfo := omap shown_call (before_free (pieces 10 [] content)).

Lemma matched_line oversea line p p' : isBinderMatchup p = true → parse_line oversea line p = Some p' →
  manager p' = manager p ∧ isBinderMatchup p' = true.
Proof.
  intros Hm. unfold parse_line. cbn [SaveBinderLineToFd isBinderMatchup]. rewrite Hm. cbn [negb andb].
  repeat case_match; try done; intros [= <-]; cbn [SaveBinderLineToFd isBinderMatchup manager]; by rewrite ?Hm.
Qed.

Lemma matched_lines oversea lines p : isBinderMatchup p = true → manager (parse_lines oversea lines p) = manager p.
Proof.
  revert p. induction lines as [|line lines IH]; intros p Hm; [done|]. cbn [parse_lines].
  destruct (parse_line oversea line p) as [p'|] eqn:E; [|done]. destruct (matched_line oversea line p p' Hm E) as [<- H]. by apply IH.
Qed.

Lemma unmatched_line oversea line p : isBinderMatchup p = false → contains (str "free_async_space") line = false →
  ∃ p', parse_line oversea line p = Some p' ∧ isBinderMatchup p' = false ∧
    manager p' = match shown_call line with
                 | Some i => <[clientPid i := edges (manager p) (clientPid i) ++ [i]]> (manager p)
                 | None => manager p
                 end.
Proof.
  intros Hm Hf. unfold parse_line, shown_call. cbn [SaveBinderLineToFd isBinderMatchup manager]. rewrite Hm, Hf. cbn [negb andb].
  destruct (is_async _ _); [case_match|destruct (_ >=? _); [destruct (transaction _)|]]; 
    (eexists; split; [reflexivity|]); cbn [SaveBinderLineToFd add_transaction isBinderMatchup manager]; rewrite ?Hm, ?Hf; cbn [negb andb]; done.
Qed.

Lemma parsed_calls oversea lines p q : isBinderMatchup p = false →
  edges (manager (parse_lines oversea lines p)) q = edges (manager p) q ++ filter (λ i, clientPid i = q) (omap shown_call (before_free lines)).
Proof.
  revert p. induction lines as [|line lines IH]; intros p Hm; [by rewrite app_nil_r|]. cbn [parse_lines before_free].
  destruct (contains (str "free_async_space") line) eqn:Hf.
  - cbn [omap list_omap]. rewrite app_nil_r. apply (f_equal (λ m, edges m q)).
    destruct (parse_line oversea line p) as [p'|] eqn:E; [|done]. revert E. unfold parse_line. cbn [SaveBinderLineToFd isBinderMatchup].
    rewrite Hm, Hf. cbn [negb andb].
    destruct oversea; [intros ?; discriminate|]. intros [= <-]. 
    rewrite matched_lines by (cbn [SaveBinderLineToFd isBinderMatchup]; by rewrite Hm, Hf). done.
  - destruct (unmatched_line oversea line p Hm Hf) as (p' & -> & Hm' & Hman). rewrite IH by done. cbn [omap list_omap]. rewrite Hman.
    destruct (shown_call line) as [i|]; [|done]. rewrite filter_cons. unfold edges at 1. case_decide as Hq.
    + subst q. rewrite lookup_insert_eq. cbn [from_option]. unfold Datatypes.id. by rewrite <- app_assoc.
    + by rewrite lookup_insert_ne.
Qed.

Lemma file_calls oversea content q : edges (manager (BinderInfoLineParser oversea content)) q = filter (λ i, clientPid i = q) (calls content).
Proof. unfold BinderInfoLineParser. by rewrite parsed_calls. Qed.

(** ** The claims *)

(** [p] waits for an answer of [q]. *)
Definition calls_to (shown : list BinderInfo) (p q : Z) : Prop := ∃ i, i ∈ shown ∧ clientPid i = p ∧ serverPid i = q.

Lemma waits_calls oversea content p q : waits (manager (BinderInfoLineParser oversea content)) p q ↔ calls_to (calls content) p q.
Proof.
  unfold waits, calls_to. rewrite list_elem_of_fmap. setoid_rewrite file_calls. setoid_rewrite list_elem_of_filter. naive_solver.
Qed.

Lemma tc_iff {A} (R S : A → A → Prop) : (∀ x y, R x y ↔ S x y) → ∀ x y, tc R x y ↔ tc S x y.
Proof. intros H x y. split; induction 1; [apply tc_once|eapply tc_l|apply tc_once|eapply tc_l]; eauto; by apply H. Qed.

Lemma nothing_waits m (pid : Z) : m !! pid = None → ∀ q, ¬ waits m pid q.
Proof. intros H q. unfold waits, edges. rewrite H. by intros ?%elem_of_nil. Qed.

(** C14: the processes found are the ones the frozen process waits for.  Reading the
    kernel's list ends, whatever calls it holds and however they lead back, and finds
    exactly the processes that are reached from the process over one or more of the
    synchronous calls shown before the table of free space; with a single layer,
    over exactly one. *)
Theorem peers_are_waited_for content pid TID t :
  let m := manager (BinderInfoLineParser false content) in
  (∃ f, GetBinderPeerPids false LOGGER_BINDER_STACK_ALL pid TID m t = Some f ∧
    ∀ q, q ∈ f.1 ↔ tc (calls_to (calls content)) pid q) ∧
  (∃ f, GetBinderPeerPids false LOGGER_BINDER_STACK_ONE pid TID m t = Some f ∧ ∀ q, q ∈ f.1 ↔ calls_to (calls content) pid q).
Proof.
  intros m. unfold GetBinderPeerPids. cbn [orb].
  assert (∀ q, tc (calls_to (calls content)) pid q ↔ tc (waits m) pid q) as Htc
    by (apply tc_iff; intros x y; symmetry; apply waits_calls).
  destruct (bool_decide (m = ∅) || bool_decide (m !! pid = None)) eqn:Hskip.
  - assert (m !! pid = None) as Hnone.
    { apply orb_true_iff in Hskip as [->%bool_decide_eq_true|H%bool_decide_eq_true]; [by rewrite lookup_empty|done]. }
    split; (eexists; split; [done|]; intros q; cbn [fst]; (split; [intros H; set_solver|])).
    + rewrite Htc. intros H. exfalso. assert (∀ a b, tc (waits m) a b → a = pid → False) as Hno.
      { intros a b Hab. induction Hab; intros ->; by eapply nothing_waits. }
      by eapply Hno.
    + rewrite <- (waits_calls false content). intros H. by apply nothing_waits in H.
  - split.
    + destruct (chain_grown m pid (if TID >? 0 then TID else pid) (S (size (servers m))) pid true (∅, t)) as (f & -> & HG).
      * unfold left_over. cbn [fst]. rewrite difference_empty_L. lia.
      * exists f. split; [done|]. intros q. rewrite Htc. by apply reached.
    + eexists. split; [done|]. intros q. cbn [fst]. rewrite elem_of_list_to_set. apply (waits_calls false content).
Qed.

(** ** Whose stacks are taken *)

(** The processes whose stacks are taken, in order. *)
Definition stacked (acts : list Action) : list Z := omap (λ a, match a with Stack p _ => Some p | _ => None end) acts.

Lemma stacked_concat {A} (f : A → list Action) (P : A → Prop) `{∀ x, Decision (P x)} (g : A → Z) l :
  (∀ x, stacked (f x) = if decide (P x) then [g x] else []) → stacked (concat (f <$> l)) = g <$> filter P l.
Proof.
  intros Hf. unfold stacked in *. induction l as [|x l IH]; [done|]. cbn [fmap list_fmap concat]. rewrite omap_app, Hf, filter_cons.
  destruct (decide (P x)); [|exact IH]. cbn. by f_equal.
Qed.

Lemma elem_of_ascending (s : gset Z) q : q ∈ ascending s ↔ q ∈ s.
Proof. unfold ascending. by rewrite merge_sort_Permutation, elem_of_elements. Qed.

Lemma NoDup_ascending (s : gset Z) : NoDup (ascending s).
Proof. unfold ascending. rewrite merge_sort_Permutation. apply NoDup_elements. Qed.

Section Stacks.
Context (cgroup : Z → bytes) (status : Z → option bytes) (EVENT_TYPE : bytes) (c : Catcher).

(** Neither the frozen process, nor a container's outside a system freeze, nor one
    whose stack was taken before. *)
Definition to_stack (q : Z) : Prop := q ≠ pid_ c ∧ skipped_anco cgroup EVENT_TYPE q = false ∧ q ∉ catchedPids_ c.

(** A service, and none of those the process waits for. *)
Definition async_stack (syncPids : gset Z) (q : Z) : Prop := to_stack q ∧ 0 <= GetUidByPid status q < MIN_APP_UID ∧ q ∉ syncPids.

#[local] Instance to_stack_dec q : Decision (to_stack q).
Proof. unfold to_stack. apply _. Defined.

#[local] Instance async_stack_dec syncPids q : Decision (async_stack syncPids q).
Proof. unfold async_stack. apply _. Defined.

Lemma stacked_sync q : stacked (sync_actions cgroup EVENT_TYPE c q) = if decide (to_stack q) then [q] else [].
Proof.
  unfold sync_actions. destruct (decide (to_stack q)) as [(H1 & H2 & H3)|H].
  - by rewrite (proj2 (Z.eqb_neq q _)), H2, bool_decide_false.
  - destruct (Z.eqb_spec q (pid_ c)); [done|]. destruct (skipped_anco _ _ _) eqn:E; [done|].
    case_bool_decide; [done|]. by destruct H.
Qed.

Lemma stacked_async syncPids q :
  stacked (async_actions cgroup status EVENT_TYPE c syncPids q) = if decide (async_stack syncPids q) then [q] else [].
Proof.
  unfold async_actions. destruct (decide (async_stack syncPids q)) as [((H1 & H2 & H3) & H4 & H5)|H].
  - assert ((GetUidByPid status q <? 0) || (GetUidByPid status q >=? MIN_APP_UID) = false) as -> by lia.
    by rewrite (proj2 (Z.eqb_neq q _)), H2, !bool_decide_false.
  - destruct ((_ <? 0) || _) eqn:E1; [done|]. destruct (Z.eqb_spec q (pid_ c)); [done|].
    repeat (case_bool_decide; [done|]). cbn [orb]. destruct (skipped_anco _ _ _) eqn:E; [done|].
    destruct H. split_and!; [done..|lia|lia|done].
Qed.

(** C15: no stack is taken twice.  The processes whose stacks are taken are pairwise
    different, whatever was found; they are exactly the ones waited for and, of the
    ones with most asynchronous work, the services not among them, without the frozen
    process, the processes whose stacks the report already has and, outside a system
    freeze, those of a container. *)
Theorem stacks_taken_once (asyncPids syncPids : gset Z) :
  let taken := stacked (CatchSyncPid cgroup status EVENT_TYPE c asyncPids syncPids).1 in
  NoDup taken ∧ ∀ q, q ∈ taken ↔ q ∈ syncPids ∧ to_stack q ∨ q ∈ asyncPids ∧ async_stack syncPids q.
Proof.
  assert (stacked (CatchSyncPid cgroup status EVENT_TYPE c asyncPids syncPids).1 =
    filter to_stack (ascending syncPids) ++ filter (async_stack syncPids) (ascending asyncPids)) as E.
  { unfold CatchSyncPid, stacked. cbn [fst]. rewrite omap_app. f_equal.
    - rewrite <- (list_fmap_id (filter to_stack _)). by apply (stacked_concat _ to_stack id), stacked_sync.
    - rewrite <- (list_fmap_id (filter (async_stack _) _)). apply (stacked_concat _ (async_stack syncPids) id), stacked_async. }
  rewrite E. split.
  - apply NoDup_app. split_and!; [apply NoDup_filter, NoDup_ascending| |apply NoDup_filter, NoDup_ascending].
    intros q [_ Hq]%list_elem_of_filter [(_ & _ & Hn) _]%list_elem_of_filter. by apply Hn, elem_of_ascending.
  - intros q. rewrite elem_of_app, !list_elem_of_filter, !elem_of_ascending. naive_solver.
Qed.

End Stacks.

(** ** A case the search misses *)

(** Two threads of the frozen process wait for the same server; the frozen thread's
    call comes second, its server has been visited, and the end of its chain is not
    noted: the terminal binder stays what it was. *)
Definition two_threads : bytes :=
  str "100:101 to 200:0 code 1 wait:9 s" ++ [10] ++ str "100:100 to 200:201 code 1 wait:9 s" ++ [10].

Example terminal_missed :
  GetBinderPeerPids false LOGGER_BINDER_STACK_ALL 100 100 (manager (BinderInfoLineParser false two_threads)) (mkTerminal 0 0) =
    Some ({[200]}, mkTerminal 0 0).
Proof. vm_compute. reflexivity. Qed.

End BinderFacts.
