(* ===== verification/ProcFs.v ===== *)
(** * ProcFs: what the leak detector reads from the kernel

    Models plugins/reliability/leak_detectors/fault_detector_util.cpp, the thresholds
    of native_leak/native_leak_config.cpp and native_leak_util.cpp, and the parsing
    of smaps_rollup in native_leak/native_leak_state.cpp.  The files' texts are given;
    a number that [std::stoi] and the like refuse makes the whole call throw
    ([None]). *)

From S2P Require Import Prelude Text DbFile FreezeVendor FreezeJson.
From stdpp Require Import base gmap list numbers strings sorting.
From Stdlib Require Import Floats.SpecFloat.

Local Open Scope Z_scope.

Module ProcFs.
Import DbFile.DbFile (find_sub, is_alpha, is_digit).
Import FreezeVendor.FreezeVendor (pieces, GetDightStrArr).
Import FreezeJson.FreezeJson (stoull, stol).

(** [std::stoi]. *)
Definition stoi (s : bytes) : option Z := v ← stol s; if (- 2 ^ 31 <=? v) && (v <=? 2 ^ 31 - 1) then Some v else None.

Definition UNKNOWN_PROCESS : bytes := str "unknown_process".
Definition RESOURCE_LEAK_PATH : bytes := str "/data/log/reliability/resource_leak".
Definition MEMORY_LEAK_PATH : bytes := str "/data/log/reliability/resource_leak/memory_leak".

(** [Split]: the parts between delimiters that are not empty. *)
Definition Split (s : bytes) (delim : Z) : list bytes := filter (λ item, item ≠ []) (pieces delim [] s).

(** What is left of [s] without the spaces, line ends and tabs at its end; all of it
    when there is nothing else. *)
Definition cut_end (s : bytes) : bytes :=
  let blank c := (c =? 32) || (c =? 10) || (c =? 13) || (c =? 9) in
  if forallb blank s then s else reverse (let fix cut r := match r with c :: r' => if blank c then cut r' else r | [] => [] end in cut (reverse s)).

(** [name.substr(name.find_last_of("/") + 1)]. *)
Definition after_slash (s : bytes) : bytes := default [] (last (pieces 47 [] (s ++ [47]))).

Definition starts_digit (s : bytes) : bool := match s with c :: _ => is_digit c | [] => false end.

(** [GetAllPids]: the directories of processes. *)
Definition GetAllPids (dirs : list bytes) : option (list Z) :=
  mapM stoi (filter (λ d, starts_digit d = true) dirs).

Section Files.
(** The files that can be opened, and what [char c] holds before it is read. *)
Context (file : bytes → option bytes) (junk : Z).

(** The loop of [ReadFileByChar]: reading at the end fails and leaves [c] as it is. *)
Fixpoint read_chars (c : Z) (s : bytes) : bytes :=
  let stop x := (x =? 0) || (x =? 10) in
  match s with
  | [] => if stop c then [] else [c]
  | x :: s => if stop x then [] else x :: read_chars x s
  end.

Definition ReadFileByChar (path : bytes) : bytes := from_option (read_chars junk) UNKNOWN_PROCESS (file path).

Definition proc_path (pid : Z) (name : string) : bytes := str "/proc/" ++ to_string pid ++ str "/" ++ str name.

Definition MAX_INDEX : nat := 22.
Definition START_TIME_INDEX : nat := 19.
Definition PPID_INDEX : nat := 1.
Definition PID_KTHREADD : Z := 2.

Definition GetStatInfo (path : bytes) : list bytes :=
  let statInfo := ReadFileByChar path in
  Split (match find_sub (str ")") statInfo with Some pos => drop (pos + 1) statInfo | None => statInfo end) 32.

Definition GetProcessName (pid : Z) : bytes :=
  let name := ReadFileByChar (proc_path pid "cmdline") in
  let name := if Zlen name <? 2 then ReadFileByChar (proc_path pid "comm") else name in
  after_slash (cut_end name).

(** A number of the stat file: [d] when there is none. *)
Definition stat_number (read : bytes → option Z) (d : Z) (index : nat) (pid : Z) : option Z :=
  let statInfo := GetStatInfo (proc_path pid "stat") in
  if bool_decide (length statInfo < MAX_INDEX)%nat then Some d else
  let s := default [] (statInfo !! index) in
  if starts_digit s then read s else Some d.

Definition GetProcessStartTime (pid : Z) : option Z := stat_number stol (-1) START_TIME_INDEX pid.
Definition GetParentPid (pid : Z) : option Z := stat_number stoi 0 PPID_INDEX pid.
Definition IsKernelProcess (pid : Z) : option bool := ppid ← GetParentPid pid; Some (ppid =? PID_KTHREADD).

Definition GetProcessRss (pid : Z) : option Z :=
  match filter (λ c, is_digit c = true) (ReadFileByChar (proc_path pid "rss")) with
  | [] => Some 0
  | rss => stoull rss
  end.

(** [GetStatm]: the two sizes, as they were when the file cannot be read; a line
    without a number is undefined. *)
Definition GetStatm (pid : Z) : option (option (Z * Z)) :=
  match file (proc_path pid "statm") with
  | None => Some None
  | Some text =>
      match GetDightStrArr (default [] (head (pieces 10 [] text))) with
      | v :: r :: _ => vss ← stoull v; rss ← stoull r; Some (Some (u64 (4 * vss), u64 (4 * rss)))
      | _ => None
      end
  end.

(** [GetMeminfo]: total, free and available memory, from the first three lines. *)
Definition GetMeminfo : option (option (Z * Z * Z)) :=
  match file (str "/proc/meminfo") with
  | None => Some None
  | Some text =>
      let lines := pieces 10 [] text in
      let number (n : nat) := stoull (default [] (head (GetDightStrArr (default [] (lines !! n))))) in
      total ← number 0%nat; free ← number 1%nat; available ← number 2%nat; Some (Some (total, free, available))
  end.

(** ** The proportional size *)

(** What ["\s*(.+) kB$"] makes of the end of a line: the group. *)
Definition size_match (rest : bytes) : option bytes :=
  let n := (length rest - 3)%nat in
  if negb (bool_decide (drop n rest = str " kB")) then None else
  let body := take n rest in
  let size := match skip_space body with [] => from_option (λ c, [c]) [] (last body) | t => t end in
  if bool_decide (size = []) || bool_decide (13 ∈ size) then None else Some size.

(** ["^(.+):\s*(.+) kB$"]: the first group takes as much as it can. *)
Fixpoint item_match (item rest : bytes) : option (bytes * bytes) :=
  match rest with
  | [] => None
  | c :: rest =>
      match item_match (item ++ [c]) rest with
      | Some m => Some m
      | None =>
          if (c =? 58) && negb (bool_decide (item = [])) && negb (bool_decide (13 ∈ item))
          then pair item <$> size_match rest else None
      end
  end.

Definition add_pss (pss : option Z) (line : bytes) : option Z :=
  p ← pss;
  match item_match [] line with
  | Some (item, size) => if bool_decide (item = str "Pss") || bool_decide (item = str "SwapPss") then v ← stoull size; Some (u64 (p + v)) else Some p
  | None => Some p
  end.

(** The proportional size of a process: nothing when the file cannot be opened. *)
Definition process_pss (pid : Z) : option (option Z) :=
  match file (proc_path pid "smaps_rollup") with
  | None => Some None
  | Some text => Some <$> foldl add_pss (Some 0) (pieces 10 [] text)
  end.

End Files.

(** ** Thresholds *)

Definition is_name (c : Z) : bool := is_alpha c || is_digit c || (c =? 95) || (c =? 46).

Fixpoint span (p : Z → bool) (s : bytes) : bytes * bytes :=
  match s with
  | c :: r => if p c then let '(a, b) := span p r in (c :: a, b) else ([], s)
  | [] => ([], [])
  end.

(** ["^\s*([\w._]+)\s+(\d+)\s*$"]. *)
Definition threshold_match (line : bytes) : option (bytes * bytes) :=
  let '(name, r) := span is_name (skip_space line) in
  let '(gap, r) := span is_space r in
  let '(value, r) := span is_digit r in
  if bool_decide (name = []) || bool_decide (gap = []) || bool_decide (value = []) || negb (bool_decide (skip_space r = [])) then None
  else Some (name, value).

Definition threshold_line (list_ : option (gmap bytes Z)) (line : bytes) : option (gmap bytes Z) :=
  l ← list_;
  if match line with [] => true | c :: _ => c =? 35 end then Some l else
  match threshold_match line with
  | None => Some l
  | Some (name, value) => v ← stoull value; Some (match l !! name with Some _ => l | None => <[name := v]> l end)
  end.

(** [GetThresholdList], from the text of the file when it can be opened. *)
Definition GetThresholdList (text : option bytes) : option (gmap bytes Z) :=
  match text with None => Some ∅ | Some t => foldl threshold_line (Some ∅) (pieces 10 [] t) end.

(** *** Floating-point arithmetic *)

(** A finite number cut to an integer. *)
Definition truncated (x : spec_float) : Z :=
  match x with
  | S754_finite s m e => let v := if 0 <=? e then Zpos m * 2 ^ e else Zpos m / 2 ^ (- e) in if s then - v else v
  | _ => 0
  end.

Definition float_of (n : Z) : spec_float := binary_normalize 24 128 n 0 false.
Definition double_of (n : Z) : spec_float := binary_normalize 53 1024 n 0 false.

(** The factors, as the nearest [float]. *)
Definition g_rssthresholdTimes : list (Z * spec_float) := [
  (2048000, S754_finite false 9227469 (-23)); (1024000, S754_finite false 10905190 (-23)); (512000, S754_finite false 12582912 (-23));
  (307200, float_of 2); (102400, float_of 3); (51200, float_of 4); (10240, float_of 6); (0, float_of 10)].

(** [GetRSSMemoryThreshold]: a product that fits in no [uint64_t] is undefined. *)
Definition GetRSSMemoryThreshold (threshold : Z) : option Z :=
  match list_find (λ t : Z * spec_float, t.1 < threshold) g_rssthresholdTimes with
  | Some (_, t) => let v := truncated (SFmul 24 128 (float_of threshold) t.2) in if v <? 2 ^ 64 then Some v else None
  | None => Some threshold
  end.

Example default_threshold : GetRSSMemoryThreshold 819200 = Some 1228800.
Proof. vm_compute. reflexivity. Qed.

(** A file that does not end its line has its last character read twice. *)
Example last_digit_doubled :
  GetProcessRss (λ p, if bool_decide (p = str "/proc/7/rss") then Some (str "1234") else None) 0 7 = Some 12344.
Proof. vm_compute. reflexivity. Qed.

(** ** Facts *)

Lemma Split_nonempty s delim item : item ∈ Split s delim → item ≠ [].
Proof. intros [H _]%list_elem_of_filter. done. Qed.

End ProcFs.
