(* ===== verification/NativeLeak.v ===== *)
(** * NativeLeak: finding processes that leak native memory

    Models plugins/reliability/leak_detectors: the information about a process
    (base/fault_info_base.h, native_leak/native_leak_info.cpp), the states
    (native_leak/native_leak_state.cpp) and the detector
    (native_leak/native_leak_detector.cpp), which watches processes with much memory
    and hands those that leak to tasks of their own.  A task runs in phases, between
    which the detector and other tasks run; [None] is an exception that leaves a
    task. *)

From S2P Require Import Prelude Text DbFile FreezeVendor FreezeJson ProcFs.
From stdpp Require Import base gmap list numbers strings sorting.
From Stdlib Require Import Floats.SpecFloat.

Local Open Scope Z_scope.

Module NativeLeak.
Import DbFile.DbFile (find_sub).
Import ProcFs.

(** ** A process that is watched *)

Inductive FaultStateType :=
  PROC_IDLE_STATE | PROC_SAMPLE_STATE | PROC_JUDGE_STATE | PROC_DUMP_STATE | PROC_REPORT_STATE | PROC_REMOVAL_STATE | PROC_FINISHED_STATE.

#[global] Instance FaultStateType_eq_dec : EqDecision FaultStateType.
Proof. solve_decision. Defined.

(** What is sampled: the sizes, when and when in words. *)
Record Samples := mkSamples { sampleMemory_ : list Z; cpuTime_ : list Z; realTime_ : list bytes; topMemory_ : Z }.

Record Info := mkInfo {
  state_ : FaultStateType;
  processName_ : bytes;
  leakedTime_ : bytes;
  hapVersion_ : bytes;
  i_pid : Z;
  isMonitored_ : bool;
  memoryLimit_ : Z;
  eventMsg_ : bytes;
  samples : Samples;
  pidStartTime_ : Z;
  debugStartTime_ : Z;
  actualRssThreshold_ : Z;
  isInThresholdList_ : bool;
  isProcessDied_ : bool;
  isAppendSmapsFile_ : bool;
  leakGrade_ : bytes
}.

Definition Samples_new : Samples := mkSamples [] [] [] 0.

Definition SetState (s : FaultStateType) (i : Info) : Info :=
  mkInfo s (processName_ i) (leakedTime_ i) (hapVersion_ i) (i_pid i) (isMonitored_ i) (memoryLimit_ i) (eventMsg_ i) (samples i)
    (pidStartTime_ i) (debugStartTime_ i) (actualRssThreshold_ i) (isInThresholdList_ i) (isProcessDied_ i) (isAppendSmapsFile_ i) (leakGrade_ i).
Definition SetIsMonitoredStat (m : bool) (i : Info) : Info :=
  mkInfo (state_ i) (processName_ i) (leakedTime_ i) (hapVersion_ i) (i_pid i) m (memoryLimit_ i) (eventMsg_ i) (samples i)
    (pidStartTime_ i) (debugStartTime_ i) (actualRssThreshold_ i) (isInThresholdList_ i) (isProcessDied_ i) (isAppendSmapsFile_ i) (leakGrade_ i).
Definition SetIsProcessDied (d : bool) (i : Info) : Info :=
  mkInfo (state_ i) (processName_ i) (leakedTime_ i) (hapVersion_ i) (i_pid i) (isMonitored_ i) (memoryLimit_ i) (eventMsg_ i) (samples i)
    (pidStartTime_ i) (debugStartTime_ i) (actualRssThreshold_ i) (isInThresholdList_ i) d (isAppendSmapsFile_ i) (leakGrade_ i).
Definition SetSamples (s : Samples) (i : Info) : Info :=
  mkInfo (state_ i) (processName_ i) (leakedTime_ i) (hapVersion_ i) (i_pid i) (isMonitored_ i) (memoryLimit_ i) (eventMsg_ i) s
    (pidStartTime_ i) (debugStartTime_ i) (actualRssThreshold_ i) (isInThresholdList_ i) (isProcessDied_ i) (isAppendSmapsFile_ i) (leakGrade_ i).
Definition SetEventMsg (m : bytes) (i : Info) : Info :=
  mkInfo (state_ i) (processName_ i) (leakedTime_ i) (hapVersion_ i) (i_pid i) (isMonitored_ i) (memoryLimit_ i) m (samples i)
    (pidStartTime_ i) (debugStartTime_ i) (actualRssThreshold_ i) (isInThresholdList_ i) (isProcessDied_ i) (isAppendSmapsFile_ i) (leakGrade_ i).
Definition SetDebugStartTime (t : Z) (i : Info) : Info :=
  mkInfo (state_ i) (processName_ i) (leakedTime_ i) (hapVersion_ i) (i_pid i) (isMonitored_ i) (memoryLimit_ i) (eventMsg_ i) (samples i)
    (pidStartTime_ i) t (actualRssThreshold_ i) (isInThresholdList_ i) (isProcessDied_ i) (isAppendSmapsFile_ i) (leakGrade_ i).
Definition SetIsAppendSmapsFile (a : bool) (i : Info) : Info :=
  mkInfo (state_ i) (processName_ i) (leakedTime_ i) (hapVersion_ i) (i_pid i) (isMonitored_ i) (memoryLimit_ i) (eventMsg_ i) (samples i)
    (pidStartTime_ i) (debugStartTime_ i) (actualRssThreshold_ i) (isInThresholdList_ i) (isProcessDied_ i) a (leakGrade_ i).
Definition SetLeakGrade (g : bytes) (i : Info) : Info :=
  mkInfo (state_ i) (processName_ i) (leakedTime_ i) (hapVersion_ i) (i_pid i) (isMonitored_ i) (memoryLimit_ i) (eventMsg_ i) (samples i)
    (pidStartTime_ i) (debugStartTime_ i) (actualRssThreshold_ i) (isInThresholdList_ i) (isProcessDied_ i) (isAppendSmapsFile_ i) g.
(** [RecordLeakedTime] and [SetHapVersion]. *)
Definition SetLeaked (time version : bytes) (i : Info) : Info :=
  mkInfo (state_ i) (processName_ i) time version (i_pid i) (isMonitored_ i) (memoryLimit_ i) (eventMsg_ i) (samples i)
    (pidStartTime_ i) (debugStartTime_ i) (actualRssThreshold_ i) (isInThresholdList_ i) (isProcessDied_ i) (isAppendSmapsFile_ i) (leakGrade_ i).

Definition leak_file (kind : string) (i : Info) (rest : bytes) : bytes :=
  MEMORY_LEAK_PATH ++ str "/memleak-" ++ str kind ++ str "-" ++ processName_ i ++ str "-" ++ to_string (i_pid i) ++ rest.

Definition GetSampleFilePath (i : Info) : bytes := leak_file "native" i (str "-sample.txt").
Definition GetSmapsPath (i : Info) : bytes := leak_file "native" i (str "-smaps.txt").
Definition GetLogFilePath (i : Info) : bytes := leak_file "temp" i (str "-" ++ leakedTime_ i ++ str ".txt").

(** *** Sampling *)

Definition ABANDON_PROPORTION : nat := 5.
Definition MAX_RECORD_NUM : nat := 30.
Definition JUDGE_RECORD_NUM : nat := 8.
Definition HARD_THRESHOLD : Z := 4 * 1024 * 1024.

(** [AddCpuTime], [AddRealTime] and [AddMemory]. *)
Definition add_sample (mono : Z) (real : bytes) (memory : Z) (s : Samples) : Samples :=
  mkSamples (sampleMemory_ s ++ [memory]) (cpuTime_ s ++ [mono]) (realTime_ s ++ [real]) (topMemory_ s).

Definition set_top (pss : Z) (s : Samples) : Samples :=
  if topMemory_ s <? pss then mkSamples (sampleMemory_ s) (cpuTime_ s) (realTime_ s) pss else s.

Definition RemoveData (s : Samples) : Samples :=
  if bool_decide (length (cpuTime_ s) < MAX_RECORD_NUM)%nat then s
  else mkSamples (drop ABANDON_PROPORTION (sampleMemory_ s)) (drop ABANDON_PROPORTION (cpuTime_ s)) (drop ABANDON_PROPORTION (realTime_ s))
         (topMemory_ s).

(** [CollectBaseInfo], given the resident size and the proportional one. *)
Definition CollectBaseInfo (mono : Z) (real : bytes) (rss : Z) (pss : option Z) (s : Samples) : Samples :=
  let s := add_sample mono real rss s in
  RemoveData match pss with Some p => set_top p (add_sample mono real p s) | None => s end.

(** *** Judging *)

Definition IsMemoryLeak (memoryLimit : Z) (s : Samples) : bool :=
  if topMemory_ s >=? HARD_THRESHOLD then true else
  let memorySize := length (sampleMemory_ s) in
  if bool_decide (memorySize < JUDGE_RECORD_NUM)%nat then false else
  forallb (λ m, negb (m <? memoryLimit)) (drop (memorySize - JUDGE_RECORD_NUM) (sampleMemory_ s)).

Definition MEMORY_RATING_LINE : Z := 20 * 1024.
Definition MEMORY_WARNING_GRADE : Z := 6 * 1024.
Definition MEMORY_ERROR_GRADE : Z := 10 * 1024.
Definition MEMORY_WARNING_RATIO_GRADE : Z := 50 * 1024.
Definition MEMORY_ERROR_RATIO_GRADE : Z := 100 * 1024.
Definition MEMORY_WARNING_RATIO : spec_float := S754_finite false 10066330 (-25).
Definition MEMORY_ERROR_RATIO : spec_float := S754_finite false 8388608 (-24).
Definition MEMORY_LEAK_ERROR : bytes := str "ERROR".
Definition MEMORY_LEAK_WARNING : bytes := str "WARNING".
Definition MEMORY_LEAK_INFO : bytes := str "INFO".

Definition JudgeSmallMemoryLeakGrade (memoryLimit top : Z) : bytes :=
  let diff := u64 (top - memoryLimit) in
  if diff <=? MEMORY_WARNING_GRADE then MEMORY_LEAK_INFO else if diff <=? MEMORY_ERROR_GRADE then MEMORY_LEAK_WARNING else MEMORY_LEAK_ERROR.

(** The excess in hundredths of the limit, rounded down, as a [double]. *)
Definition diff_ratio (diff memoryLimit : Z) : spec_float :=
  let ratio := SFdiv 53 1024 (double_of diff) (double_of memoryLimit) in
  SFdiv 53 1024 (double_of (truncated (SFmul 53 1024 ratio (double_of 100)))) (double_of 100).

Definition JudgeMemoryLeakGradeByRatio (memoryLimit top : Z) : bytes :=
  let diff := u64 (top - memoryLimit) in
  if memoryLimit =? 0 then MEMORY_LEAK_ERROR else
  let diffRatio := diff_ratio diff memoryLimit in
  if SFleb diffRatio MEMORY_WARNING_RATIO && (diff <? MEMORY_WARNING_RATIO_GRADE) then MEMORY_LEAK_INFO
  else if SFleb diffRatio MEMORY_ERROR_RATIO && (diff <? MEMORY_ERROR_RATIO_GRADE) then MEMORY_LEAK_WARNING
  else MEMORY_LEAK_ERROR.

Definition JudgeMemoryLeakGrade (memoryLimit top : Z) : bytes :=
  if memoryLimit >? MEMORY_RATING_LINE then JudgeMemoryLeakGradeByRatio memoryLimit top else JudgeSmallMemoryLeakGrade memoryLimit top.

(** The judging state: nothing when there is no leak. *)
Definition Judge (i : Info) : option Info :=
  if IsMemoryLeak (memoryLimit_ i) (samples i)
  then Some (SetLeakGrade (JudgeMemoryLeakGrade (memoryLimit_ i) (topMemory_ (samples i))) i) else None.

(** *** The texts *)

(** [setw(16)] with [left]. *)
Definition padded (s : bytes) : bytes := s ++ replicate (16 - length s) 32.

Fixpoint sample_rows (row : Z → Z → bytes → bytes) (cpu memory : list Z) (real : list bytes) : bytes :=
  match cpu, memory, real with
  | c :: cpu, m :: memory, r :: real => row c m r ++ sample_rows row cpu memory real
  | _, _, _ => []
  end.

(** The rows: none when there are not as many sizes as times. *)
Definition rows (row : Z → Z → bytes → bytes) (s : Samples) : bytes :=
  if bool_decide (length (cpuTime_ s) = length (sampleMemory_ s)) then sample_rows row (cpuTime_ s) (sampleMemory_ s) (realTime_ s) else [].

(** What [DumpUserMemInfo] writes. *)
Definition sample_text (i : Info) : bytes :=
  str "pid:" ++ [9] ++ to_string (i_pid i) ++ [9; 10] ++
  str "processName:" ++ [9] ++ processName_ i ++ [10] ++
  str "threshold:" ++ [9] ++ to_string (memoryLimit_ i) ++ str "(KB)" ++ [10] ++
  str "actualRss:" ++ [9] ++ to_string (actualRssThreshold_ i) ++ str "(KB)" ++ [10] ++
  str "TopPssMemory:" ++ [9] ++ to_string (topMemory_ (samples i)) ++ str "(KB)" ++ [10] ++ [10] ++
  padded (str "time(s)") ++ padded (str "PssMemory(KB)") ++ padded (str "realtime") ++ [10] ++
  rows (λ c m r, padded (to_string c) ++ padded (to_string m) ++ padded r ++ [10]) (samples i).

(** What [DumpUserMemInfoToSmapsFile] writes, when there are as many sizes as times. *)
Definition smaps_text (i : Info) : bytes :=
  let longWeight := replicate 16 32 in
  str "pid:" ++ [9] ++ to_string (i_pid i) ++ [10] ++ str "processName:" ++ [9] ++ processName_ i ++ [10] ++
  str "threshold:" ++ [9] ++ to_string (memoryLimit_ i) ++ [10] ++ str "TopPssMemory:" ++ [9] ++ to_string (topMemory_ (samples i)) ++ [10; 10] ++
  str "time(s)" ++ longWeight ++ str "PssMemory(KB)" ++ longWeight ++ str "realtime" ++ [10] ++
  rows (λ c m r, to_string c ++ longWeight ++ to_string m ++ longWeight ++ r ++ [10]) (samples i).

(** What [DumpGeneralInfo] writes, given the memory file when it can be opened. *)
Definition general_text (meminfo : option bytes) (i : Info) : bytes :=
  [10] ++ str "Generated by HivewDFX @OpenHarmony" ++ [10] ++ str "LOGGER_MEMCHECK_GERNAL_INFO" ++ [10] ++
  [9] ++ str "pidNumber: " ++ to_string (i_pid i) ++ [10] ++ [9] ++ str "processName: " ++ processName_ i ++ [10] ++
  [9] ++ str "PidStartTime: " ++ to_string (pidStartTime_ i) ++ [10] ++ [9] ++ str "TopPssMemory: " ++ to_string (topMemory_ (samples i)) ++ [10; 10] ++
  match meminfo with
  | None => []
  | Some t => str "******************************" ++ [10] ++ str "LOGGER_MEMCHECK_MEMINFO" ++ [10] ++ t ++ [10]
  end.

(** ** The system *)

(** What the system answers during one call. *)
Record Sys := mkSys {
  s_now : Z;                       (* time(nullptr) *)
  s_mono : Z;                      (* the monotonic clock *)
  s_real : bytes;                  (* GetRealTime *)
  s_stamp : bytes;                 (* GetRealTimeStampStr *)
  s_file : bytes → option bytes;
  s_junk : Z;
  s_dirs : list bytes;             (* the directories of /proc *)
  s_logs : list bytes;             (* the files of the leak folder *)
  s_version : Z → bytes;           (* GetApplicationVersion *)
  s_uid : Z → Z;
  s_writable : bool;
  s_command : bool                 (* whether the kernel accepts a command *)
}.

Definition start_time (s : Sys) (pid : Z) : option Z := GetProcessStartTime (s_file s) (s_junk s) pid.

(** The clock, zero when it fails. *)
Definition now_or_zero (s : Sys) : Z := if s_now s =? -1 then 0 else s_now s.

(** What leaves the detector. *)
Record ResourceOverLimitInfo := mkOverLimit {
  o_pid : Z; o_uid : Z; o_bundleName : bytes; o_bundleVersion : bytes; o_pss : Z; o_statm : option (Z * Z); o_meminfo : option (Z * Z * Z)
}.

Inductive MemCmd := MEMCMD_ENABLE | MEMCMD_CLEAR_LOG.

Inductive Effect :=
  | Rename (from to : bytes)
  | WriteFile (append : bool) (path text : bytes)
  | ReadDetail (path : bytes) (pid : Z)
  | Profile (path : bytes) (pid : Z)
  | Smaps (path : bytes) (pid : Z)
  | SendCmd (cmd : MemCmd) (pid start : Z)
  | PostEvent (info : ResourceOverLimitInfo).

(** [RemoveInvalidFile]: the sample file of a process that has died. *)
Definition RemoveInvalidFile (s : Sys) (i : Info) : list Effect :=
  concat ((λ each, if bool_decide (each = GetSampleFilePath i)
                   then [Rename (MEMORY_LEAK_PATH ++ str "/" ++ each) (MEMORY_LEAK_PATH ++ str "/" ++ processName_ i ++ str "_died")] else [])
          <$> filter (λ f, starts_digit f = true) (s_logs s)).

Definition DumpUserMemInfo (s : Sys) (i : Info) : list Effect :=
  if s_writable s then [WriteFile false (GetSampleFilePath i) (sample_text i)] else [].

(** ** The detector *)

(** How far the task of a process is. *)
Inductive Phase := ToDump | ToDetail | ToStack | ToReport | ToFinish | ToRemove.

#[global] Instance Phase_eq_dec : EqDecision Phase.
Proof. solve_decision. Defined.

Record Detector := mkDetector {
  loopCnt_ : Z; funcLoopCnt_ : Z; sampleInterval_ : Z; updateInterval_ : Z; defaultThreshold_ : Z;
  thresholdLists_ : gmap bytes Z;
  grayList_ : gmap Z Info;
  monitoredPidsList_ : gmap Z bytes;
  monitoredPidsInfo_ : gmap Z Info;
  processedPids_ : gmap bytes Z;
  tasks : gmap Z Phase;
  effects : list Effect
}.

Definition set_counts (l f : Z) (d : Detector) : Detector :=
  mkDetector l f (sampleInterval_ d) (updateInterval_ d) (defaultThreshold_ d) (thresholdLists_ d) (grayList_ d) (monitoredPidsList_ d)
    (monitoredPidsInfo_ d) (processedPids_ d) (tasks d) (effects d).
Definition set_gray (g : gmap Z Info) (d : Detector) : Detector :=
  mkDetector (loopCnt_ d) (funcLoopCnt_ d) (sampleInterval_ d) (updateInterval_ d) (defaultThreshold_ d) (thresholdLists_ d) g (monitoredPidsList_ d)
    (monitoredPidsInfo_ d) (processedPids_ d) (tasks d) (effects d).
Definition set_monitored (l : gmap Z bytes) (m : gmap Z Info) (d : Detector) : Detector :=
  mkDetector (loopCnt_ d) (funcLoopCnt_ d) (sampleInterval_ d) (updateInterval_ d) (defaultThreshold_ d) (thresholdLists_ d) (grayList_ d) l m
    (processedPids_ d) (tasks d) (effects d).
Definition set_info (pid : Z) (i : Info) (d : Detector) : Detector :=
  set_monitored (monitoredPidsList_ d) (<[pid := i]> (monitoredPidsInfo_ d)) d.
Definition set_processed (p : gmap bytes Z) (d : Detector) : Detector :=
  mkDetector (loopCnt_ d) (funcLoopCnt_ d) (sampleInterval_ d) (updateInterval_ d) (defaultThreshold_ d) (thresholdLists_ d) (grayList_ d)
    (monitoredPidsList_ d) (monitoredPidsInfo_ d) p (tasks d) (effects d).
Definition set_tasks (t : gmap Z Phase) (d : Detector) : Detector :=
  mkDetector (loopCnt_ d) (funcLoopCnt_ d) (sampleInterval_ d) (updateInterval_ d) (defaultThreshold_ d) (thresholdLists_ d) (grayList_ d)
    (monitoredPidsList_ d) (monitoredPidsInfo_ d) (processedPids_ d) t (effects d).
Definition emit (es : list Effect) (d : Detector) : Detector :=
  mkDetector (loopCnt_ d) (funcLoopCnt_ d) (sampleInterval_ d) (updateInterval_ d) (defaultThreshold_ d) (thresholdLists_ d) (grayList_ d)
    (monitoredPidsList_ d) (monitoredPidsInfo_ d) (processedPids_ d) (tasks d) (effects d ++ es).

Definition PROCESSED_UPLOAD_INTERVAL : Z := 18000.
Definition UPDATE_INTERVAL : Z := 400.
Definition SAMPLE_INTERVAL : Z := 200.
Definition TEST_UPDATE_INTERVAL : Z := 50.
Definition TEST_SAMPLE_INTERVAL : Z := 5.
Definition TASK_LOOP_INTERVAL : Z := 5.
Definition NATIVE_MAX_MONITOR_NUMS : nat := 4.
Definition DEFAULT_THRESHOLD : Z := 800 * 1024.

(** [map::insert], which changes nothing when the key is there. *)
Definition insert_new `{Countable K} {A} (k : K) (a : A) (m : gmap K A) : gmap K A := match m !! k with Some _ => m | None => <[k := a]> m end.

Definition sorted_keys {A} (m : gmap Z A) : list Z := merge_sort Z.le (elements (dom m)).

(** The loops over a list of processes, which an exception ends. *)
Fixpoint for_pids (f : Z → Detector → option Detector) (pids : list Z) (d : Detector) : option Detector :=
  match pids with [] => Some d | p :: pids => d ← f p d; for_pids f pids d end.

Definition mark_processed (s : Sys) (name : bytes) (d : Detector) : Detector :=
  set_processed (insert_new name (now_or_zero s) (processedPids_ d)) d.

Definition UpdateProcessedPidsList (s : Sys) (d : Detector) : Detector :=
  set_processed (filter (λ nt : bytes * Z, s_now s <= nt.2 + PROCESSED_UPLOAD_INTERVAL) (processedPids_ d)) d.

Definition new_info (s : Sys) (pid : Z) (name : bytes) (start limit rss : Z) (listed : bool) : Info :=
  mkInfo PROC_IDLE_STATE name [] [] (u32 pid) false limit [] Samples_new start (s_mono s) rss listed false false [].

(** One process of [UpdateUserMonitorInfo]. *)
Definition consider (s : Sys) (pid : Z) (d : Detector) : option Detector :=
  kernel ← IsKernelProcess (s_file s) (s_junk s) pid;
  if kernel : bool then Some d else
  let name := GetProcessName (s_file s) (s_junk s) pid in
  if bool_decide (is_Some (processedPids_ d !! name)) || bool_decide (is_Some (grayList_ d !! pid)) ||
     bool_decide (is_Some (monitoredPidsList_ d !! pid)) then Some d else
  let threshold := default (defaultThreshold_ d) (thresholdLists_ d !! name) in
  rssThreshold ← GetRSSMemoryThreshold threshold;
  rssNum ← GetProcessRss (s_file s) (s_junk s) pid;
  if rssNum >? rssThreshold then
    start ← start_time s pid;
    Some (set_gray (<[pid := new_info s pid name start threshold rssNum (bool_decide (is_Some (thresholdLists_ d !! name)))]> (grayList_ d)) d)
  else Some d.

Definition UpdateUserMonitorInfo (s : Sys) (d : Detector) : option Detector :=
  pids ← GetAllPids (s_dirs s);
  for_pids (consider s) pids (UpdateProcessedPidsList s d).

Definition RecordNativeInfo (s : Sys) (d : Detector) : Detector :=
  emit (concat ((λ p, from_option (DumpUserMemInfo s) [] (grayList_ d !! p)) <$> sorted_keys (grayList_ d))) d.

(** Whether a process has ended, or another one has its number. *)
Definition gone (s : Sys) (i : Info) : option bool :=
  t ← start_time s (s32 (i_pid i)); Some ((t =? -1) || negb (pidStartTime_ i =? t)).

Definition check_monitored (s : Sys) (pid : Z) (d : Detector) : option Detector :=
  match monitoredPidsInfo_ d !! pid with
  | None => Some d
  | Some i =>
      if isProcessDied_ i then Some d else
      g ← gone s i;
      Some (if g : bool then emit (RemoveInvalidFile s i) (set_info pid (SetIsProcessDied true i) d) else d)
  end.

Definition check_gray (s : Sys) (pid : Z) (d : Detector) : option Detector :=
  match grayList_ d !! pid with
  | None => Some d
  | Some i =>
      g ← gone s i;
      Some (if g : bool then set_gray (delete pid (grayList_ d)) (mark_processed s (processName_ i) (emit (RemoveInvalidFile s i) d)) else d)
  end.

Definition RemoveInvalidUserInfo (s : Sys) (d : Detector) : option Detector :=
  d ← for_pids (check_monitored s) (sorted_keys (monitoredPidsInfo_ d)) d;
  for_pids (check_gray s) (sorted_keys (grayList_ d)) d.

(** [AddMonitorToList]. *)
Definition AddMonitorToList (s : Sys) (i : Info) (d : Detector) : Detector :=
  let pid := s32 (i_pid i) in
  let i := SetState PROC_JUDGE_STATE (SetLeaked (s_stamp s) (s_version s pid) i) in
  set_monitored (insert_new pid (leakedTime_ i) (monitoredPidsList_ d)) (insert_new pid i (monitoredPidsInfo_ d)) d.

(** The sampling state. *)
Definition Sample (s : Sys) (i : Info) : option Info :=
  rss ← GetProcessRss (s_file s) (s_junk s) (s32 (i_pid i));
  pss ← process_pss (s_file s) (s32 (i_pid i));
  Some (SetSamples (CollectBaseInfo (s_mono s) (s_real s) rss pss (samples i)) i).

(** One process of [DoProcessNativeLeak]: on the right when the loop is left. *)
Definition do_process (s : Sys) (pid : Z) (d : Detector) : option (Detector + Detector) :=
  if bool_decide (NATIVE_MAX_MONITOR_NUMS <= size (monitoredPidsInfo_ d))%nat then Some (inr d) else
  match grayList_ d !! pid with
  | None => Some (inl d)
  | Some i =>
      if bool_decide (is_Some (processedPids_ d !! processName_ i)) || bool_decide (is_Some (monitoredPidsList_ d !! pid)) then Some (inl d) else
      i ← Sample s i;
      Some (inl match Judge i with
                | Some i => set_gray (delete pid (grayList_ d)) (AddMonitorToList s i d)
                | None => set_gray (<[pid := i]> (grayList_ d)) d
                end)
  end.

Fixpoint process_loop (s : Sys) (pids : list Z) (d : Detector) : option Detector :=
  match pids with
  | [] => Some d
  | p :: pids =>
      r ← do_process s p d;
      match r with inl d => process_loop s pids d | inr d => Some d end
  end.

Definition DoProcessNativeLeak (s : Sys) (d : Detector) : option Detector :=
  let d := UpdateProcessedPidsList s d in process_loop s (sorted_keys (grayList_ d)) d.

(** A task for every process found to leak. *)
Definition submit (pid : Z) (d : Detector) : Detector :=
  match monitoredPidsInfo_ d !! pid with
  | Some i =>
      if isMonitored_ i || negb (bool_decide (state_ i = PROC_JUDGE_STATE)) then d
      else set_tasks (<[pid := ToDump]> (tasks d)) (set_info pid (SetIsMonitoredStat true i) d)
  | None => d
  end.

(** [MainProcess]. *)
Definition MainProcess (s : Sys) (d : Detector) : option Detector :=
  let loop := u32 (loopCnt_ d + 1) in
  let func := u32 (funcLoopCnt_ d + 1) in
  if loop <? sampleInterval_ d / TASK_LOOP_INTERVAL then Some (set_counts loop func d) else
  let d := set_counts 0 func d in
  d ← RemoveInvalidUserInfo s d;
  d ← DoProcessNativeLeak s d;
  d ← (if func >? updateInterval_ d / TASK_LOOP_INTERVAL
       then d ← UpdateUserMonitorInfo s d; Some (set_counts (loopCnt_ d) 0 (RecordNativeInfo s d)) else Some d);
  Some (foldr submit d (sorted_keys (monitoredPidsInfo_ d))).

(** *** The task of a process *)

(** [OnChangeState]. *)
Definition OnChangeState (t : FaultStateType) (i : Info) : Info := if bool_decide (state_ i = t) then i else SetState t i.

(** What [ExeNextStateProcess] does first, for a process that lives. *)
Definition before_next (s : Sys) (i : Info) (d : Detector) : Detector :=
  if bool_decide (state_ i = PROC_REPORT_STATE) then mark_processed s (processName_ i) d else d.

(** [GetMemoryLeakLog], with the part asked for. *)
Definition leak_log_general (s : Sys) (i : Info) : Info * list Effect :=
  if s_writable s
  then let path := GetSmapsPath i in
       (SetIsAppendSmapsFile true i,
        WriteFile (isAppendSmapsFile_ i) path
          (general_text (s_file s (if bool_decide (is_Some (s_file s (str "/proc/memview"))) then str "/proc/memview" else str "proc/meminfo")) i)
        :: DumpUserMemInfo s i)
  else (i, []).

Definition leak_log_detail (s : Sys) (i : Info) : list Effect :=
  if s_writable s
  then WriteFile (isAppendSmapsFile_ i) (GetSmapsPath i) ([10] ++ str "******************************" ++ [10] ++ str "LOGGER_MEMCHECK_DETAIL_INFO" ++ [10])
         :: ReadDetail (GetSmapsPath i) (i_pid i) :: DumpUserMemInfo s i
  else [].

Definition leak_log_stack (s : Sys) (i : Info) : list Effect :=
  if s_writable s then WriteFile (isAppendSmapsFile_ i) (GetSmapsPath i) [] :: Profile (GetLogFilePath i) (i_pid i) :: DumpUserMemInfo s i else [].

(** [DumpExtraInfo]. *)
Definition DumpExtraInfo (s : Sys) (i : Info) : list Effect :=
  if s_writable s
  then [WriteFile true (GetSmapsPath i) (smaps_text i);
        WriteFile true (GetSmapsPath i) (str "******************************" ++ [10] ++ str "LOGGER_MEMCHECK_SMAPS_INFO" ++ [10] ++
          str "get info realtime:" ++ [9] ++ s_real s ++ [10]);
        Smaps (GetSmapsPath i) (i_pid i)]
  else [].

(** [NativeLeakReportState::PostEvent]. *)
Definition Post (s : Sys) (handler : bool) (i : Info) : option (list Effect) :=
  if negb handler then Some [] else
  let pid := s32 (i_pid i) in
  statm ← GetStatm (s_file s) pid;
  meminfo ← GetMeminfo (s_file s);
  Some [PostEvent (mkOverLimit pid (s_uid s pid) (processName_ i) (hapVersion_ i) (topMemory_ (samples i)) statm meminfo)].

Definition goto (pid : Z) (p : Phase) (d : Detector) : Detector := set_tasks (<[pid := p]> (tasks d)) d.

(** One phase of the task of a process. *)
Definition run_task (s : Sys) (handler : bool) (pid : Z) (d : Detector) : option Detector :=
  match tasks d !! pid, monitoredPidsInfo_ d !! pid with
  | Some ToDump, Some i =>
      if isProcessDied_ i then Some (goto pid ToRemove d) else
      let d := before_next s i d in
      let '(i, e1) := leak_log_general s (OnChangeState PROC_DUMP_STATE i) in
      let i := SetDebugStartTime (s_mono s) i in
      Some (goto pid (if s_command s then ToDetail else ToStack)
              (emit (e1 ++ DumpExtraInfo s i ++ [SendCmd MEMCMD_ENABLE (i_pid i) (pidStartTime_ i)]) (set_info pid i d)))
  | Some ToDetail, Some i =>
      Some (goto pid ToStack (emit (leak_log_detail s i ++ [SendCmd MEMCMD_CLEAR_LOG (i_pid i) (pidStartTime_ i)]) d))
  | Some ToStack, Some i => Some (goto pid ToReport (emit (leak_log_stack s i) d))
  | Some ToReport, Some i =>
      if isProcessDied_ i then Some (goto pid ToRemove d) else
      let d := before_next s i d in
      let i := OnChangeState PROC_REPORT_STATE i in
      e ← Post s handler i;
      Some (goto pid ToFinish (emit e (set_info pid i d)))
  | Some ToFinish, Some i =>
      if isProcessDied_ i then Some (goto pid ToRemove d) else Some (goto pid ToRemove (before_next s i d))
  | Some ToRemove, Some i =>
      (* RemoveFinishedInfo(GetPid()): the number is taken without its sign *)
      Some (set_tasks (delete pid (tasks d))
              (set_monitored (delete (s32 (i_pid i)) (monitoredPidsList_ d)) (delete (i_pid i) (monitoredPidsInfo_ d)) d))
  | _, _ => Some d
  end.

(** [ProcessUserEvent]. *)
Definition ProcessUserEvent (s : Sys) (name msg : bytes) (pid : Z) (d : Detector) : option Detector :=
  let fullName := GetProcessName (s_file s) (s_junk s) (s32 pid) in
  if negb (bool_decide (is_Some (find_sub name fullName))) then Some d else
  if bool_decide (is_Some (monitoredPidsList_ d !! s32 pid)) then Some d else
  if bool_decide (is_Some (processedPids_ d !! fullName)) then Some d else
  match list_find (λ p, processName_ <$> grayList_ d !! p = Some name) (sorted_keys (grayList_ d)) with
  | Some (_, p) =>
      match grayList_ d !! p with
      | Some i => Some (set_gray (delete p (grayList_ d)) (AddMonitorToList s (SetEventMsg msg i) d))
      | None => Some d
      end
  | None =>
      start ← start_time s (s32 pid);
      Some (AddMonitorToList s
              (mkInfo PROC_IDLE_STATE fullName [] [] (u32 pid) false 0 msg Samples_new start 0 0 false false false []) d)
  end.

(** [PrepareNativeLeakEnv], given the text of the thresholds and whether tests run. *)
Definition PrepareNativeLeakEnv (s : Sys) (thresholds : option bytes) (test : bool) : option Detector :=
  list_ ← GetThresholdList thresholds;
  let d := mkDetector 0 0 (if test then TEST_SAMPLE_INTERVAL else SAMPLE_INTERVAL) (if test then TEST_UPDATE_INTERVAL else UPDATE_INTERVAL)
    (default DEFAULT_THRESHOLD (list_ !! str "DEFAULT")) list_ ∅ ∅ ∅ ∅ ∅ [] in
  d ← UpdateUserMonitorInfo s d;
  Some (RecordNativeInfo s d).

(** *** Runs *)

Inductive Call := Tick (s : Sys) | UserEvent (s : Sys) (name msg : bytes) (pid : Z) | Task (s : Sys) (handler : bool) (pid : Z).

Definition run_call (c : Call) (d : Detector) : option Detector :=
  match c with
  | Tick s => MainProcess s d
  | UserEvent s name msg pid => ProcessUserEvent s name msg pid d
  | Task s handler pid => run_task s handler pid d
  end.

Inductive run : Detector → list Call → Detector → Prop :=
  | run_nil d : run d [] d
  | run_cons d c d1 cs d2 : run_call c d = Some d1 → run d1 cs d2 → run d (c :: cs) d2.

End NativeLeak.
