(* ===== verification/LeakFacts.v ===== *)
(** * LeakFacts: which processes are found to leak, and how often that is reported

    Theorems about NativeLeak: judging the window of samples is judging the whole
    history; the tables of the detector and the tasks agree in every run; a task that
    has begun comes to its end; a process that was reported rests for five hours. *)

From S2P Require Import Prelude Text DbFile FreezeVendor FreezeJson ProcFs NativeLeak.
From stdpp Require Import base gmap sets fin_sets fin_maps list numbers strings sorting.

Local Open Scope Z_scope.

Module LeakFacts.
Import DbFile.DbFile (find_sub, is_digit).
Import FreezeJson.FreezeJson (stoull, stol).
Import ProcFs NativeLeak.

(** ** The window of samples *)

(** One sampling: the clocks, the resident size and, when it can be read, the
    proportional one. *)
Record Round := mkRound { r_mono : Z; r_real : bytes; r_rss : Z; r_pss : option Z }.

Definition collect_round (s : Samples) (r : Round) : Samples := CollectBaseInfo (r_mono r) (r_real r) (r_rss r) (r_pss r) s.

Definition records (r : Round) : list Z := r_rss r :: option_list (r_pss r).

(** All sizes ever recorded, and the proportional ones. *)
Definition history (rs : list Round) : list Z := concat (records <$> rs).
Definition pss_sizes (rs : list Round) : list Z := omap r_pss rs.

(** The window [s] against the history [h] it is the end of. *)
Record window_of (h : list Z) (s : Samples) : Prop := mkWindow {
  w_suffix : ∃ old, h = old ++ sampleMemory_ s ∧ (old = [] ∨ JUDGE_RECORD_NUM <= length (sampleMemory_ s))%nat;
  w_short : (length (sampleMemory_ s) < MAX_RECORD_NUM)%nat;
  w_cpu : length (cpuTime_ s) = length (sampleMemory_ s);
  w_real : length (realTime_ s) = length (sampleMemory_ s)
}.

Lemma collect_memory r s :
  let m := sampleMemory_ s ++ records r in
  length (cpuTime_ s) = length (sampleMemory_ s) →
  sampleMemory_ (collect_round s r) = if decide (length m < MAX_RECORD_NUM)%nat then m else drop ABANDON_PROPORTION m.
Proof.
  intros m Hc. unfold collect_round, CollectBaseInfo, RemoveData.
  assert (length (cpuTime_ match r_pss r with Some p => set_top p (add_sample (r_mono r) (r_real r) p (add_sample (r_mono r) (r_real r) (r_rss r) s))
    | None => add_sample (r_mono r) (r_real r) (r_rss r) s end) = length m ∧
    sampleMemory_ match r_pss r with Some p => set_top p (add_sample (r_mono r) (r_real r) p (add_sample (r_mono r) (r_real r) (r_rss r) s))
    | None => add_sample (r_mono r) (r_real r) (r_rss r) s end = m) as [H1 H2].
  { unfold m, records, set_top. destruct (r_pss r); cbn; [case_match; cbn|]; rewrite ?length_app, <- ?app_assoc; cbn; (split; [lia|done]). }
  rewrite <- H1. case_bool_decide; [by rewrite decide_True|]. rewrite decide_False by done. cbn. by rewrite H2.
Qed.

Lemma collect_lengths r s :
  length (cpuTime_ s) = length (sampleMemory_ s) → length (realTime_ s) = length (sampleMemory_ s) →
  length (cpuTime_ (collect_round s r)) = length (sampleMemory_ (collect_round s r)) ∧
  length (realTime_ (collect_round s r)) = length (sampleMemory_ (collect_round s r)).
Proof.
  intros Hc Hr. unfold collect_round, CollectBaseInfo, RemoveData, set_top.
  destruct (r_pss r); cbn; repeat (case_match; cbn); rewrite ?length_drop, ?length_app; cbn; lia.
Qed.

Lemma collect_window h r s : window_of h s → window_of (h ++ records r) (collect_round s r).
Proof.
  intros [(old & -> & Hold) Hs Hc Hr]. destruct (collect_lengths r s Hc Hr) as [Hc' Hr'].
  pose proof (collect_memory r s Hc) as Hm. cbn zeta in Hm.
  assert (length (records r) <= 2)%nat as H2 by (unfold records; destruct (r_pss r); cbn; lia).
  unfold MAX_RECORD_NUM, ABANDON_PROPORTION, JUDGE_RECORD_NUM in *. constructor; unfold MAX_RECORD_NUM, JUDGE_RECORD_NUM; [|rewrite Hm|done|done].
  - rewrite Hm. case_decide as Hd.
    + exists old. split; [by rewrite app_assoc|]. destruct Hold as [->|Hold]; [by left|]. right. rewrite length_app. lia.
    + exists (old ++ take 5 (sampleMemory_ s ++ records r)). split.
      * by rewrite <- (app_assoc old (take _ _)), take_drop, app_assoc.
      * right. rewrite length_drop. lia.
  - case_decide as Hd; [done|]. rewrite length_drop, length_app. lia.
Qed.

Lemma collect_top r s : topMemory_ (collect_round s r) = match r_pss r with Some p => Z.max (topMemory_ s) p | None => topMemory_ s end.
Proof.
  unfold collect_round, CollectBaseInfo, RemoveData, set_top.
  destruct (r_pss r); cbn; repeat (case_match; cbn); try done; lia.
Qed.

Lemma history_snoc rs r : history (rs ++ [r]) = history rs ++ records r.
Proof. unfold history. rewrite fmap_app, concat_app. cbn. by rewrite app_nil_r. Qed.

Lemma rounds_window rs : window_of (history rs) (foldl collect_round Samples_new rs).
Proof.
  induction rs as [|r rs IH] using rev_ind.
  - constructor; cbn; [exists []; split; [done|by left]|unfold MAX_RECORD_NUM; lia|done|done].
  - rewrite foldl_snoc, history_snoc. by apply collect_window.
Qed.

Lemma rounds_top rs t : 0 < t → t <= topMemory_ (foldl collect_round Samples_new rs) ↔ ∃ p, p ∈ pss_sizes rs ∧ t <= p.
Proof.
  intros Ht. unfold pss_sizes. induction rs as [|r rs IH] using rev_ind.
  - cbn. split; [lia|]. intros (p & Hp & _). by apply elem_of_nil in Hp.
  - rewrite foldl_snoc, collect_top, omap_app. setoid_rewrite elem_of_app. destruct (r_pss r) as [p|] eqn:E; cbn; rewrite ?E.
    + setoid_rewrite list_elem_of_singleton. split.
      * intros H. destruct (Z.le_gt_cases t (topMemory_ (foldl collect_round Samples_new rs))) as [H'|H'].
        -- apply IH in H' as (q & ? & ?). eauto.
        -- exists p. split; [by right|lia].
      * intros (q & [Hq| ->] & Hle); [|lia]. enough (t <= topMemory_ (foldl collect_round Samples_new rs)) by lia. apply IH. eauto.
    + rewrite IH. setoid_rewrite elem_of_nil. naive_solver.
Qed.

(** C16: a process is judged on all that was recorded of it, though only a window of
    the records is kept.  Whatever was sampled, and however often the oldest records
    were dropped, it is found to leak exactly when its proportional size has ever
    reached 4 GB or the last eight sizes recorded, resident and proportional alike,
    all reach its limit; fewer than thirty records are kept, each with its times. *)
Theorem leak_judged_on_history limit rs :
  let s := foldl collect_round Samples_new rs in
  let h := history rs in
  (IsMemoryLeak limit s = true ↔
    (∃ p, p ∈ pss_sizes rs ∧ HARD_THRESHOLD <= p) ∨
    (JUDGE_RECORD_NUM <= length h)%nat ∧ ∀ m, m ∈ drop (length h - JUDGE_RECORD_NUM) h → limit <= m) ∧
  (length (sampleMemory_ s) < MAX_RECORD_NUM)%nat ∧ length (cpuTime_ s) = length (sampleMemory_ s) ∧
  length (realTime_ s) = length (sampleMemory_ s).
Proof.
  intros s h. destruct (rounds_window rs) as [(old & Eh & Hold) Hs Hc Hr]. fold s in Eh, Hold, Hs, Hc, Hr. fold h in Eh.
  split; [|done]. rewrite <- (rounds_top rs HARD_THRESHOLD) by done. fold s. unfold IsMemoryLeak.
  destruct (Z.geb_spec (topMemory_ s) HARD_THRESHOLD) as [Ht|Ht]; [naive_solver|].
  case_bool_decide as Hn.
  - split; [done|]. intros [?|[Hl _]]; [lia|]. destruct Hold as [->|?]; [|lia]. rewrite Eh in Hl. cbn in Hl. lia.
  - assert (drop (length h - JUDGE_RECORD_NUM) h = drop (length (sampleMemory_ s) - JUDGE_RECORD_NUM) (sampleMemory_ s)) as ->.
    { rewrite Eh, length_app, drop_app_ge by lia. f_equal. lia. }
    rewrite forallb_forall. setoid_rewrite <- list_elem_of_In. split.
    + intros H. right. split; [rewrite Eh, length_app; lia|]. intros m Hm%H. lia.
    + intros [?|[_ H]]; [lia|]. intros m Hm%H. lia.
Qed.

(** ** The tables and the tasks *)

(** A process number, as a [pid_t] that is no error. *)
Definition pid_ok (p : Z) : Prop := 0 <= p < 2 ^ 31.

Lemma pid_u32 p : pid_ok p → u32 p = p.
Proof. intros H. apply u32_small. unfold is_u, pid_ok in *. lia. Qed.

Lemma pid_s32 p : pid_ok p → s32 p = p.
Proof. intros H. apply sgn_small; [done|]. unfold is_s, pid_ok in *. lia. Qed.

(** The state that goes with the phase of the task. *)
Definition phase_ok (st : FaultStateType) (ph : option Phase) : Prop :=
  match ph with
  | None | Some ToDump => st = PROC_JUDGE_STATE
  | Some ToDetail | Some ToStack | Some ToReport => st = PROC_DUMP_STATE
  | Some ToFinish => st = PROC_REPORT_STATE
  | Some ToRemove => True
  end.

Definition gray_ok (p : Z) (i : Info) : Prop := i_pid i = p ∧ pid_ok p ∧ isMonitored_ i = false ∧ isProcessDied_ i = false.
Definition info_ok (t : gmap Z Phase) (p : Z) (i : Info) : Prop :=
  i_pid i = p ∧ pid_ok p ∧ (isMonitored_ i = true ↔ is_Some (t !! p)) ∧ phase_ok (state_ i) (t !! p).

Record tables_ok (g : gmap Z Info) (l : gmap Z bytes) (m : gmap Z Info) (t : gmap Z Phase) : Prop := mkTables {
  t_gray : map_Forall gray_ok g;
  t_info : map_Forall (info_ok t) m;
  t_list : dom l = dom m;
  t_tasks : dom t ⊆ dom m
}.

Definition det_ok (d : Detector) : Prop := tables_ok (grayList_ d) (monitoredPidsList_ d) (monitoredPidsInfo_ d) (tasks d).

Section Tables.
Context (g : gmap Z Info) (l : gmap Z bytes) (m : gmap Z Info) (t : gmap Z Phase) (H : tables_ok g l m t).

Lemma gray_insert p i : gray_ok p i → tables_ok (<[p := i]> g) l m t.
Proof. intros Hi. destruct H. constructor; [by apply map_Forall_insert_2|done..]. Qed.

Lemma gray_delete p : tables_ok (delete p g) l m t.
Proof. destruct H. constructor; [by apply map_Forall_delete|done..]. Qed.

Lemma no_task p : m !! p = None → t !! p = None.
Proof. intros Hp. apply not_elem_of_dom. apply not_elem_of_dom in Hp. pose proof (t_tasks _ _ _ _ H). set_solver. Qed.

Lemma monitor_add p i time :
  gray_ok p i → state_ i = PROC_JUDGE_STATE → tables_ok g (insert_new p time l) (insert_new p i m) t.
Proof.
  intros (Hp & Hr & Hm & _) Hs. destruct H as [H1 H2 H3 H4]. unfold insert_new.
  destruct (m !! p) as [i0|] eqn:Em.
  - assert (is_Some (l !! p)) as [x ->] by (apply elem_of_dom; rewrite H3; by eapply elem_of_dom_2). done.
  - assert (l !! p = None) as -> by (apply not_elem_of_dom; rewrite H3; by apply not_elem_of_dom).
    assert (t !! p = None) as Ht by (by apply no_task). constructor; [done| |rewrite !dom_insert_L; by rewrite H3|].
    + apply map_Forall_insert_2; [|done]. unfold info_ok. rewrite Ht. split_and!; try done. rewrite Hm. split; [done|by intros [? ?]].
    + rewrite dom_insert_L. set_solver.
Qed.

Lemma info_update p i i' :
  m !! p = Some i → i_pid i' = i_pid i → isMonitored_ i' = isMonitored_ i → phase_ok (state_ i') (t !! p) → tables_ok g l (<[p := i']> m) t.
Proof.
  intros Ei Hp Hm Hs. destruct H as [H1 H2 H3 H4]. destruct (H2 p i Ei) as (? & ? & Hi & _).
  assert (dom (<[p := i']> m) = dom m) as Hd by (apply dom_insert_lookup_L; by eexists).
  constructor; [done| |by rewrite Hd|by rewrite Hd].
  apply map_Forall_insert_2; [|done]. unfold info_ok. rewrite Hp, Hm. done.
Qed.

Lemma task_update p i i' ph :
  m !! p = Some i → i_pid i' = i_pid i → isMonitored_ i' = true → phase_ok (state_ i') (Some ph) → tables_ok g l (<[p := i']> m) (<[p := ph]> t).
Proof.
  intros Ei Hp Hm Hs. destruct H as [H1 H2 H3 H4]. destruct (H2 p i Ei) as (? & ? & _ & _).
  assert (dom (<[p := i']> m) = dom m) as Hd by (apply dom_insert_lookup_L; by eexists).
  constructor; [done| |by rewrite Hd|].
  - intros q j. destruct (decide (p = q)) as [<-|Hne].
    + rewrite lookup_insert_eq. intros [= <-]. unfold info_ok. rewrite lookup_insert_eq, Hp, Hm. by split_and!.
    + rewrite lookup_insert_ne by done. intros Ej. unfold info_ok. rewrite lookup_insert_ne by done. by apply H2.
  - rewrite Hd, dom_insert_L. apply elem_of_dom_2 in Ei. set_solver.
Qed.

Lemma finish p : tables_ok g (delete p l) (delete p m) (delete p t).
Proof.
  destruct H as [H1 H2 H3 H4]. constructor; [done| |rewrite !dom_delete_L; by rewrite H3|rewrite !dom_delete_L; set_solver].
  intros q j [Hne Ej]%lookup_delete_Some. unfold info_ok. rewrite lookup_delete_ne by done. by apply H2.
Qed.

End Tables.

(** *** The operations keep them *)

Lemma for_pids_keep (P : Detector → Prop) f pids d d' :
  for_pids f pids d = Some d' → P d → (∀ p d d', p ∈ pids → P d → f p d = Some d' → P d') → P d'.
Proof.
  revert d. induction pids as [|p pids IH]; intros d; cbn; [by intros [= <-]|].
  destruct (f p d) as [d1|] eqn:E; cbn; [|done]. intros H Hd Hf. apply (IH d1 H); [by eapply Hf; [left| |]|].
  intros q e e' Hq. apply Hf. by right.
Qed.

Lemma digits_start c r : is_digit c = true → take_sign (skip_space (c_str (c :: r))) = (false, c_str (c :: r)).
Proof.
  intros Hc. unfold is_digit in Hc. cbn. destruct (Z.eqb_spec c 0); [lia|]. cbn. unfold is_space.
  assert ((c =? 32) || ((9 <=? c) && (c <=? 13)) = false) as -> by lia. cbn.
  by rewrite (proj2 (Z.eqb_neq c 45)), (proj2 (Z.eqb_neq c 43)) by lia.
Qed.

Lemma value_of_nonneg ds : Forall (λ d, 0 <= d) ds → 0 <= value_of 10 ds.
Proof.
  unfold value_of. assert (∀ a, 0 <= a → Forall (λ d, 0 <= d) ds → 0 <= foldl (λ a d, a * 10 + d) a ds) as H; [|by apply H].
  induction ds as [|d ds IH]; intros a Ha Hd; cbn; [done|]. inversion_clear Hd. apply IH; [lia|done].
Qed.

Lemma take_digits_nonneg s : Forall (λ d, 0 <= d) (take_digits 10 s).
Proof.
  induction s as [|c s IH]; cbn; [done|]. destruct (digit_val 10 c) as [d|] eqn:E; [|done]. constructor; [|done].
  revert E. unfold digit_val. repeat case_match; intros [= <-]; lia.
Qed.

Lemma stoi_pid s p : starts_digit s = true → stoi s = Some p → pid_ok p.
Proof.
  destruct s as [|c r]; [done|]. intros Hc. unfold stoi, stol. rewrite digits_start by done.
  pose proof (value_of_nonneg _ (take_digits_nonneg (c_str (c :: r)))) as Hv.
  case_bool_decide; [done|]. case_match; [|done]. cbn [mbind option_bind]. case_match; [|done]. intros [= <-]. unfold pid_ok. change (if c =? 0 then [] else c :: c_str r) with (c_str (c :: r)). lia.
Qed.

Lemma all_pids_ok dirs pids : GetAllPids dirs = Some pids → Forall pid_ok pids.
Proof.
  unfold GetAllPids. intros E%mapM_Some. assert (Forall (λ s, starts_digit s = true) (filter (λ d, starts_digit d = true) dirs)) as Hs.
  { apply Forall_forall. by intros s [? _]%list_elem_of_filter. }
  induction E as [|s p ? ? Es E IH]; [done|]. inversion_clear Hs. constructor; [by eapply stoi_pid|by apply IH].
Qed.

Lemma consider_ok s p d d' : pid_ok p → det_ok d → consider s p d = Some d' → det_ok d'.
Proof.
  intros Hp Hd. unfold consider. destruct (IsKernelProcess _ _ _) as [[]|]; cbn [mbind option_bind]; [by intros [= <-]| |done].
  case_match; [by intros [= <-]|]. destruct (GetRSSMemoryThreshold _) as [th|]; cbn [mbind option_bind]; [|done].
  destruct (GetProcessRss _ _ _) as [rss|]; cbn [mbind option_bind]; [|done]. case_match; [|by intros [= <-]].
  destruct (start_time s p) as [st|]; cbn [mbind option_bind]; [|done]. intros [= <-].
  unfold det_ok. cbn. apply gray_insert; [done|]. unfold gray_ok, new_info. cbn. by rewrite pid_u32.
Qed.

Lemma update_ok s d d' : det_ok d → UpdateUserMonitorInfo s d = Some d' → det_ok d'.
Proof.
  intros Hd. unfold UpdateUserMonitorInfo. destruct (GetAllPids _) as [pids|] eqn:E; cbn [mbind option_bind]; [|done].
  apply all_pids_ok in E. intros H. apply (for_pids_keep det_ok _ _ _ _ H); [exact Hd|].
  intros p e e' Hp. apply consider_ok. by eapply Forall_forall in E.
Qed.

Lemma check_monitored_ok s p d d' : det_ok d → check_monitored s p d = Some d' → det_ok d'.
Proof.
  intros Hd. unfold check_monitored. destruct (_ !! p) as [i|] eqn:Ei; [|by intros [= <-]]. case_match; [by intros [= <-]|].
  destruct (gone s i) as [[]|]; cbn [mbind option_bind]; intros [= <-]; [|done]. unfold det_ok. cbn. eapply info_update; [done..|].
  destruct (t_info _ _ _ _ Hd p i Ei) as (_ & _ & _ & Hs). done.
Qed.

Lemma check_gray_ok s p d d' : det_ok d → check_gray s p d = Some d' → det_ok d'.
Proof.
  intros Hd. unfold check_gray. destruct (_ !! p) as [i|] eqn:Ei; [|by intros [= <-]].
  destruct (gone s i) as [[]|]; cbn [mbind option_bind]; intros [= <-]; [|done]. by apply gray_delete.
Qed.

Lemma remove_invalid_ok s d d' : det_ok d → RemoveInvalidUserInfo s d = Some d' → det_ok d'.
Proof.
  intros Hd. unfold RemoveInvalidUserInfo. destruct (for_pids (check_monitored s) _ d) as [d1|] eqn:E; cbn [mbind option_bind]; [|done].
  intros H. assert (det_ok d1) as H1 by (apply (for_pids_keep det_ok _ _ _ _ E Hd); intros ? ? ? _; apply check_monitored_ok).
  apply (for_pids_keep det_ok _ _ _ _ H H1). intros ? ? ? _. apply check_gray_ok.
Qed.

Lemma monitor_list_ok s p i d : gray_ok p i → det_ok d → det_ok (AddMonitorToList s i d).
Proof.
  intros (Hp & Hr & Hm & Hdied) Hd. unfold AddMonitorToList. rewrite Hp, pid_s32 by done.
  apply (monitor_add _ _ _ _ Hd p); [|done]. by split_and!.
Qed.

Lemma judge_same i i' : Judge i = Some i' →
  i_pid i' = i_pid i ∧ isMonitored_ i' = isMonitored_ i ∧ isProcessDied_ i' = isProcessDied_ i ∧ processName_ i' = processName_ i.
Proof. unfold Judge. case_match; [|done]. by intros [= <-]. Qed.

Lemma sample_same s i i' : Sample s i = Some i' →
  i_pid i' = i_pid i ∧ isMonitored_ i' = isMonitored_ i ∧ isProcessDied_ i' = isProcessDied_ i ∧ processName_ i' = processName_ i.
Proof.
  unfold Sample. destruct (GetProcessRss _ _ _); cbn [mbind option_bind]; [|done].
  destruct (process_pss _ _); cbn [mbind option_bind]; [|done]. by intros [= <-].
Qed.

Lemma gray_ok_same p i i' : gray_ok p i → i_pid i' = i_pid i → isMonitored_ i' = isMonitored_ i → isProcessDied_ i' = isProcessDied_ i → gray_ok p i'.
Proof. unfold gray_ok. intros (-> & ? & -> & ->) -> -> ->. done. Qed.

Lemma do_process_ok s p d r : det_ok d → do_process s p d = Some r → det_ok (match r with inl d' | inr d' => d' end).
Proof.
  intros Hd. unfold do_process. case_bool_decide; [by intros [= <-]|]. destruct (grayList_ d !! p) as [i|] eqn:Ei; [|by intros [= <-]].
  case_match; [by intros [= <-]|]. destruct (Sample s i) as [i1|] eqn:Es; cbn [mbind option_bind]; [|done]. intros [= <-].
  destruct (sample_same _ _ _ Es) as (S1 & S2 & S3 & _).
  assert (gray_ok p i1) as H1 by (eapply gray_ok_same; [exact (t_gray _ _ _ _ Hd p i Ei)|done..]).
  destruct (Judge i1) as [i2|] eqn:Ej.
  - destruct (judge_same _ _ Ej) as (J1 & J2 & J3 & _). unfold det_ok. cbn. apply gray_delete.
    apply (monitor_list_ok s p); [|done]. by eapply gray_ok_same.
  - by apply gray_insert.
Qed.

Lemma process_loop_ok s pids d d' : det_ok d → process_loop s pids d = Some d' → det_ok d'.
Proof.
  revert d. induction pids as [|p pids IH]; intros d Hd; cbn; [by intros [= <-]|].
  destruct (do_process s p d) as [[d1|d1]|] eqn:E; cbn; [| |done]; apply do_process_ok in E; try done; [by apply IH|by intros [= <-]].
Qed.

Lemma submit_ok p d : det_ok d → det_ok (submit p d).
Proof.
  intros Hd. unfold submit. destruct (monitoredPidsInfo_ d !! p) as [i|] eqn:Ei; [|done]. case_match eqn:E; [done|].
  apply orb_false_iff in E as [_ E]. apply negb_false_iff, bool_decide_eq_true in E. unfold det_ok. cbn. eapply task_update; done.
Qed.

Lemma main_ok s d d' : det_ok d → MainProcess s d = Some d' → det_ok d'.
Proof.
  intros Hd. unfold MainProcess. case_match; [by intros [= <-]|].
  destruct (RemoveInvalidUserInfo s _) as [d1|] eqn:E1; cbn [mbind option_bind]; [|done].
  apply remove_invalid_ok in E1; [|exact Hd]. destruct (DoProcessNativeLeak s d1) as [d2|] eqn:E2; cbn [mbind option_bind]; [|done].
  apply process_loop_ok in E2; [|exact E1].
  assert (∀ e ps, det_ok e → det_ok (foldr submit e ps)) as Hsub.
  { intros e ps He. induction ps as [|p ps IH]; cbn; [done|]. by apply submit_ok. }
  case_match; [|intros [= <-]; by apply Hsub].
  destruct (UpdateUserMonitorInfo s d2) as [d3|] eqn:E3; cbn [mbind option_bind]; [|done]. apply update_ok in E3; [|exact E2]. intros [= <-]. apply Hsub. exact E3.

Qed.

Lemma before_ok s i d : det_ok d → det_ok (before_next s i d).
Proof. unfold before_next. by case_match. Qed.

Lemma before_tables s i d :
  grayList_ (before_next s i d) = grayList_ d ∧ monitoredPidsList_ (before_next s i d) = monitoredPidsList_ d ∧
  monitoredPidsInfo_ (before_next s i d) = monitoredPidsInfo_ d ∧ tasks (before_next s i d) = tasks d ∧
  effects (before_next s i d) = effects d.
Proof. unfold before_next. by case_match. Qed.

Lemma info_keep p i d : det_ok d → monitoredPidsInfo_ d !! p = Some i → info_ok (tasks d) p i.
Proof. intros Hd. apply (t_info _ _ _ _ Hd). Qed.

(** A task that goes on without a change of its process. *)
Lemma goto_ok p ph d i : det_ok d → monitoredPidsInfo_ d !! p = Some i → is_Some (tasks d !! p) → phase_ok (state_ i) (Some ph) → det_ok (goto p ph d).
Proof.
  intros Hd Ei Ht Hs. destruct (info_keep p i d Hd Ei) as (_ & _ & Hm & _). unfold det_ok, goto. cbn.
  rewrite <- (insert_id (monitoredPidsInfo_ d) p i) by done. eapply task_update; try done. by apply Hm.
Qed.

Lemma task_is_monitored p i d : det_ok d → monitoredPidsInfo_ d !! p = Some i → is_Some (tasks d !! p) → isMonitored_ i = true.
Proof. intros Hd Ei. destruct (info_keep p i d Hd Ei) as (_ & _ & Hm & _). apply Hm. Qed.

(** A task that changes its process and goes on. *)
Lemma task_step_ok p i i' ph d : det_ok d → monitoredPidsInfo_ d !! p = Some i → is_Some (tasks d !! p) →
  i_pid i' = i_pid i → isMonitored_ i' = isMonitored_ i → phase_ok (state_ i') (Some ph) → det_ok (goto p ph (set_info p i' d)).
Proof.
  intros Hd Ei Ht Hp Hm Hs. eapply task_update; try done. rewrite Hm. by eapply task_is_monitored.
Qed.

Lemma change_state st i : i_pid (OnChangeState st i) = i_pid i ∧ isMonitored_ (OnChangeState st i) = isMonitored_ i ∧
  state_ (OnChangeState st i) = st ∧ processName_ (OnChangeState st i) = processName_ i.
Proof. unfold OnChangeState. by case_bool_decide. Qed.

Lemma general_same s i i' es : leak_log_general s i = (i', es) →
  i_pid i' = i_pid i ∧ isMonitored_ i' = isMonitored_ i ∧ state_ i' = state_ i ∧ processName_ i' = processName_ i.
Proof. unfold leak_log_general. by case_match; intros [= <- <-]. Qed.

Lemma run_task_ok s h p d d' : det_ok d → run_task s h p d = Some d' → det_ok d'.
Proof.
  intros Hd. unfold run_task. destruct (tasks d !! p) as [ph|] eqn:Et; [|by intros [= <-]].
  destruct (monitoredPidsInfo_ d !! p) as [i|] eqn:Ei; [|by destruct ph; intros [= <-]].
  destruct (info_keep p i d Hd Ei) as (Hp & Hr & _ & Hs). rewrite Et in Hs.
  assert (is_Some (tasks d !! p)) as Ht by by eexists.
  pose proof (before_tables s i d) as (B1 & B2 & B3 & B4 & _).
  assert (det_ok (before_next s i d)) as Hb by by apply before_ok.
  assert (det_ok (goto p ToRemove d)) as Hend by by eapply goto_ok.
  destruct ph.
  - case_match; [by intros [= <-]|]. destruct (leak_log_general s _) as [i1 e1] eqn:Eg.
    destruct (general_same _ _ _ _ Eg) as (G1 & G2 & G3 & _). destruct (change_state PROC_DUMP_STATE i) as (C1 & C2 & C3 & _).
    intros [= <-]. apply (task_step_ok p i (SetDebugStartTime (s_mono s) i1) _ (before_next s i d)).
    + done.
    + by rewrite B3.
    + by rewrite B4.
    + cbn. congruence.
    + cbn. congruence.
    + cbn. destruct (s_command s); cbn; congruence.
  - intros [= <-]. by eapply goto_ok.
  - intros [= <-]. by eapply goto_ok.
  - case_match; [by intros [= <-]|]. destruct (Post _ _ _) as [es|]; cbn [mbind option_bind]; [|done]. intros [= <-].
    destruct (change_state PROC_REPORT_STATE i) as (C1 & C2 & C3 & _).
    apply (task_step_ok p i (OnChangeState PROC_REPORT_STATE i) ToFinish (before_next s i d)); try done; [by rewrite B3|by rewrite B4].
  - case_match; [by intros [= <-]|]. intros [= <-]. eapply goto_ok; [done| |by rewrite B4|done]. by rewrite B3.
  - intros [= <-]. rewrite Hp, pid_s32 by done. unfold det_ok. cbn. by apply finish.
Qed.

(** The events that name a process that can be. *)
Definition call_ok (c : Call) : Prop := match c with UserEvent _ _ _ pid => pid_ok pid | _ => True end.

Lemma user_event_ok s name msg pid d d' : pid_ok pid → det_ok d → ProcessUserEvent s name msg pid d = Some d' → det_ok d'.
Proof.
  intros Hp Hd. unfold ProcessUserEvent. repeat (case_match; [by intros [= <-]|]). case_match.
  - destruct p as [k p]. destruct (grayList_ d !! p) as [i|] eqn:Ei; intros [= <-]; [|done].
    refine (gray_delete _ _ _ _ (monitor_list_ok s p (SetEventMsg msg i) d _ Hd) p). exact (gray_ok_same p i _ (t_gray _ _ _ _ Hd p i Ei) eq_refl eq_refl eq_refl).
  - destruct (start_time s (s32 pid)) as [st|]; cbn [mbind option_bind]; intros [= <-].
    refine (monitor_list_ok s pid _ d _ Hd). unfold gray_ok. cbn. by rewrite pid_u32.
Qed.

Lemma leak_call_ok c d d' : call_ok c → det_ok d → run_call c d = Some d' → det_ok d'.
Proof.
  destruct c as [s|s name msg pid|s h pid]; cbn; intros Hc Hd; [by apply main_ok|by apply user_event_ok|by apply run_task_ok].
Qed.

Lemma prepare_ok s thresholds test d : PrepareNativeLeakEnv s thresholds test = Some d → det_ok d ∧ monitoredPidsInfo_ d = ∅.
Proof.
  unfold PrepareNativeLeakEnv. destruct (GetThresholdList _) as [l|]; cbn [mbind option_bind]; [|done].
  set (d0 := mkDetector _ _ _ _ _ _ _ _ _ _ _ _). destruct (UpdateUserMonitorInfo s d0) as [d1|] eqn:E; cbn [mbind option_bind]; [|done].
  intros [= <-]. assert (det_ok d0) as H0 by (constructor; cbn; [apply map_Forall_empty|apply map_Forall_empty|by rewrite !dom_empty_L|by rewrite !dom_empty_L]).
  split; [exact (update_ok s _ _ H0 E)|]. cbn. change (monitoredPidsInfo_ d1 = monitoredPidsInfo_ d0).
  revert E. unfold UpdateUserMonitorInfo. destruct (GetAllPids _); cbn [mbind option_bind]; [|done]. intros E.
  apply (for_pids_keep (λ d, monitoredPidsInfo_ d = monitoredPidsInfo_ d0) _ _ _ _ E); [done|]. intros p e e' _ He.
  unfold consider. destruct (IsKernelProcess _ _ _) as [[]|]; cbn [mbind option_bind]; [by intros [= <-]| |done]. case_match; [by intros [= <-]|].
  destruct (GetRSSMemoryThreshold _); cbn [mbind option_bind]; [|done]. destruct (GetProcessRss _ _ _); cbn [mbind option_bind]; [|done].
  case_match; [|by intros [= <-]]. destruct (start_time _ _); cbn [mbind option_bind]; [|done]. by intros [= <-].
Qed.

(** *** How many are monitored *)

Lemma size_insert_new `{Countable K} {A} (k : K) (a : A) (m : gmap K A) : (size (insert_new k a m) <= S (size m))%nat.
Proof. unfold insert_new. destruct (m !! k) eqn:E; [lia|]. by rewrite map_size_insert_None. Qed.

Definition monitored (d : Detector) : nat := size (monitoredPidsInfo_ d).

Lemma set_info_size p i i' d : monitoredPidsInfo_ d !! p = Some i → monitored (set_info p i' d) = monitored d.
Proof. intros E. unfold monitored. cbn. eapply map_size_insert_Some. by rewrite E. Qed.

Lemma before_next_size s i d : monitored (before_next s i d) = monitored d.
Proof. unfold monitored. by destruct (before_tables s i d) as (_ & _ & -> & _). Qed.

Lemma remove_size s d d' : RemoveInvalidUserInfo s d = Some d' → monitored d' = monitored d ∧ tasks d' = tasks d.
Proof.
  unfold RemoveInvalidUserInfo. destruct (for_pids (check_monitored s) _ d) as [d1|] eqn:E; cbn [mbind option_bind]; [|done]. intros E'.
  assert (monitored d1 = monitored d ∧ tasks d1 = tasks d) as H1.
  { apply (for_pids_keep (λ e, monitored e = monitored d ∧ tasks e = tasks d) _ _ _ _ E); [done|]. intros p e e' _ [<- <-]. unfold check_monitored.
    destruct (_ !! p) as [i|] eqn:Ei; [|by intros [= <-]]. case_match; [by intros [= <-]|].
    destruct (gone s i) as [[]|]; cbn [mbind option_bind]; intros [= <-]; [|done]. split; [|done]. exact (set_info_size p i _ e Ei). }
  apply (for_pids_keep (λ e, monitored e = monitored d ∧ tasks e = tasks d) _ _ _ _ E'); [done|]. intros p e e' _ [<- <-]. unfold check_gray.
  destruct (_ !! p) as [i|] eqn:Ei; [|by intros [= <-]]. destruct (gone s i) as [[]|]; cbn [mbind option_bind]; by intros [= <-].
Qed.

Lemma process_size s pids d d' : process_loop s pids d = Some d' →
  (monitored d' <= monitored d `max` NATIVE_MAX_MONITOR_NUMS)%nat ∧ tasks d' = tasks d.
Proof.
  revert d. induction pids as [|p pids IH]; intros d; cbn [process_loop]; [intros [= <-]; split; [lia|done]|].
  unfold do_process at 1. fold (monitored d). case_bool_decide as Hn; [cbn; intros [= <-]; split; [lia|done]|].
  destruct (grayList_ d !! p) as [i|] eqn:Ei; [|apply IH]. case_match; [apply IH|].
  destruct (Sample s i) as [i1|]; cbn [mbind option_bind]; [|done]. intros E%IH. destruct E as [E1 E2]. destruct (Judge i1) as [i2|].
  - split; [|exact E2]. unfold monitored at 2 in E1. cbn in E1.
    pose proof (size_insert_new (s32 (i_pid i2)) (SetState PROC_JUDGE_STATE (SetLeaked (s_stamp s) (s_version s (s32 (i_pid i2))) i2))
      (monitoredPidsInfo_ d)). unfold monitored in *. lia.
  - split; [exact E1|exact E2].
Qed.

Lemma update_size s d d' : UpdateUserMonitorInfo s d = Some d' → monitoredPidsInfo_ d' = monitoredPidsInfo_ d ∧ tasks d' = tasks d.
Proof.
  unfold UpdateUserMonitorInfo. destruct (GetAllPids _); cbn [mbind option_bind]; [|done]. intros E.
  apply (for_pids_keep (λ e, monitoredPidsInfo_ e = monitoredPidsInfo_ d ∧ tasks e = tasks d) _ _ _ _ E); [done|]. intros p e e' _ [<- <-].
  unfold consider. destruct (IsKernelProcess _ _ _) as [[]|]; cbn [mbind option_bind]; [by intros [= <-]| |done]. case_match; [by intros [= <-]|].
  destruct (GetRSSMemoryThreshold _); cbn [mbind option_bind]; [|done]. destruct (GetProcessRss _ _ _); cbn [mbind option_bind]; [|done].
  case_match; [|by intros [= <-]]. destruct (start_time _ _); cbn [mbind option_bind]; [|done]. by intros [= <-].
Qed.

Lemma submit_size ps d : monitored (foldr submit d ps) = monitored d.
Proof.
  induction ps as [|p ps IH]; cbn; [done|]. rewrite <- IH. generalize (foldr submit d ps). intros e. unfold submit.
  destruct (_ !! p) as [i|] eqn:Ei; [|done]. case_match; [done|]. exact (set_info_size p i _ e Ei).
Qed.

(** [MainProcess] up to the new tasks. *)
Lemma main_split s d d' : MainProcess s d = Some d' → det_ok d →
  ∃ e ps, d' = foldr submit e ps ∧ det_ok e ∧ tasks e = tasks d ∧ (monitored e <= monitored d `max` NATIVE_MAX_MONITOR_NUMS)%nat.
Proof.
  unfold MainProcess. case_match.
  { intros [= <-] Hd. exists (set_counts (u32 (loopCnt_ d + 1)) (u32 (funcLoopCnt_ d + 1)) d), []. split_and!; [done|exact Hd|done|].
    unfold monitored. cbn. lia. }
  destruct (RemoveInvalidUserInfo s _) as [d1|] eqn:E1; cbn [mbind option_bind]; [|done].
  destruct (DoProcessNativeLeak s d1) as [d2|] eqn:E2; cbn [mbind option_bind]; [|done].
  destruct (remove_size _ _ _ E1) as [R1 R2]. destruct (process_size _ _ _ _ E2) as [P1 P2]. intros E Hd.
  apply remove_invalid_ok in E1; [|exact Hd]. apply process_loop_ok in E2; [|exact E1].
  change (monitored (set_counts _ _ d)) with (monitored d) in R1. change (tasks (set_counts _ _ d)) with (tasks d) in R2.
  change (tasks (UpdateProcessedPidsList s d1)) with (tasks d1) in P2.
  change (monitored (UpdateProcessedPidsList s d1)) with (monitored d1) in P1.
  destruct (_ >? _).
  - destruct (UpdateUserMonitorInfo s d2) as [d3|] eqn:E3; cbn [mbind option_bind] in E; [|done]. destruct (update_size _ _ _ E3) as [U1 U2].
    apply update_ok in E3; [|exact E2]. injection E as <-. eexists (set_counts (loopCnt_ d3) 0 (RecordNativeInfo s d3)), _.
    split_and!; [reflexivity|exact E3| |].
    + change (tasks d3 = tasks d). congruence.
    + change (monitored (set_counts _ _ (RecordNativeInfo s d3))) with (monitored d3). unfold monitored in *. rewrite U1. lia.
  - cbn [mbind option_bind] in E. injection E as <-. eexists d2, _. split_and!; [reflexivity|exact E2|congruence|lia].
Qed.

Lemma task_size s h p d d' : run_task s h p d = Some d' → (monitored d' <= monitored d)%nat.
Proof.
  unfold run_task. destruct (tasks d !! p) as [ph|]; [|by intros [= <-]]. destruct (monitoredPidsInfo_ d !! p) as [i|] eqn:Ei; [|by destruct ph; intros [= <-]].
  assert (∀ i' ph es, monitored (goto p ph (emit es (set_info p i' (before_next s i d)))) = monitored d) as Hset.
  { intros i' ph' es. change (monitored (set_info p i' (before_next s i d)) = monitored d). rewrite <- (before_next_size s i d).
    eapply set_info_size. destruct (before_tables s i d) as (_ & _ & -> & _). done. }
  destruct ph.
  - case_match; [intros [= <-]; unfold monitored; cbn; lia|]. destruct (leak_log_general _ _) as [i1 e1]. intros [= <-]. by rewrite Hset.
  - intros [= <-]. unfold monitored. cbn. lia.
  - intros [= <-]. unfold monitored. cbn. lia.
  - case_match; [intros [= <-]; unfold monitored; cbn; lia|]. destruct (Post _ _ _); cbn [mbind option_bind]; [|done]. intros [= <-]. by rewrite Hset.
  - case_match; intros [= <-]; [unfold monitored; cbn; lia|]. change (monitored (before_next s i d) <= monitored d)%nat. by rewrite before_next_size.
  - intros [= <-]. change (size (delete (i_pid i) (monitoredPidsInfo_ d)) <= size (monitoredPidsInfo_ d))%nat.
    rewrite map_size_delete. destruct (monitoredPidsInfo_ d !! i_pid i); cbn; lia.
Qed.

Definition is_user_event (c : Call) : Prop := match c with UserEvent _ _ _ _ => True | _ => False end.
#[local] Instance is_user_event_dec c : Decision (is_user_event c).
Proof. destruct c; apply _. Defined.

Lemma user_size s name msg pid d d' : ProcessUserEvent s name msg pid d = Some d' → (monitored d' <= S (monitored d))%nat ∧ tasks d' = tasks d.
Proof.
  unfold ProcessUserEvent. repeat (case_match; [intros [= <-]; split; [lia|done]|]).
  case_match.
  - destruct p as [k p]. destruct (grayList_ d !! p); intros [= <-]; (split; [|done]); unfold monitored; [|lia]. cbn. apply size_insert_new.
  - destruct (start_time _ _); cbn [mbind option_bind]; intros [= <-]. split; [|done]. unfold monitored. cbn. apply size_insert_new.
Qed.

Lemma run_ok d cs d' : run d cs d' → Forall call_ok cs → det_ok d → det_ok d'.
Proof. induction 1 as [|d c d1 cs d2 Hc _ IH]; [done|]. intros [Hok Hcs]%Forall_cons Hd. apply IH; [done|]. by eapply leak_call_ok. Qed.

Lemma run_size d cs d' : run d cs d' → Forall call_ok cs → det_ok d →
  (monitored d' <= (monitored d `max` NATIVE_MAX_MONITOR_NUMS) + length (filter is_user_event cs))%nat.
Proof.
  induction 1 as [d|d c d1 cs d2 Hc _ IH]; [intros; cbn; lia|]. intros [Hok Hcs]%Forall_cons Hd.
  assert (det_ok d1) as Hd1 by by eapply leak_call_ok. specialize (IH Hcs Hd1). rewrite filter_cons.
  case_decide as Hu; destruct c as [s|s name msg pid|s h pid]; cbn in Hc, Hu; try done.
  - apply user_size in Hc as [Hc _]. cbn [length]. lia.
  - destruct (main_split _ _ _ Hc Hd) as (e & ps & -> & _ & _ & Hle). rewrite submit_size in IH. lia.
  - apply task_size in Hc. lia.
Qed.

(** C17: in every run of the detector its tables and its tasks agree.  Whatever the
    system answers, however samplings, events and the phases of the tasks interleave:
    the same processes are in both tables of those monitored; a process has a task
    exactly when it is marked as monitored; its state is the one the task has
    reached; those only watched have no task; and beyond four, processes are only
    monitored because an event named them. *)
Theorem monitoring_lawful s0 thresholds test d0 cs d :
  PrepareNativeLeakEnv s0 thresholds test = Some d0 → Forall call_ok cs → run d0 cs d →
  det_ok d ∧ (size (monitoredPidsInfo_ d) <= NATIVE_MAX_MONITOR_NUMS + length (filter is_user_event cs))%nat.
Proof.
  intros H0 Hcs Hrun. destruct (prepare_ok _ _ _ _ H0) as [Hd0 Hm]. split; [by eapply run_ok|].
  pose proof (run_size _ _ _ Hrun Hcs Hd0) as Hs. unfold monitored in Hs. rewrite Hm, map_size_empty in Hs. lia.
Qed.

(** *** A task comes to its end *)

Definition rank (ph : Phase) : nat :=
  match ph with ToDump => 6 | ToDetail => 5 | ToStack => 4 | ToReport => 3 | ToFinish => 2 | ToRemove => 1 end.

(** Forgotten: no task, and in neither table. *)
Definition forgotten (p : Z) (d : Detector) : Prop :=
  tasks d !! p = None ∧ monitoredPidsInfo_ d !! p = None ∧ monitoredPidsList_ d !! p = None.

Definition of_task (p : Z) (c : Call) : Prop := match c with Task _ _ q => q = p | _ => False end.
#[local] Instance of_task_dec p c : Decision (of_task p c).
Proof. destruct c; cbn; apply _. Defined.

Lemma submit_task p ph ps d : det_ok d → tasks d !! p = Some ph → tasks (foldr submit d ps) !! p = Some ph.
Proof.
  intros Hd Ht. enough (det_ok (foldr submit d ps) ∧ tasks (foldr submit d ps) !! p = Some ph) as [_ ?] by done.
  induction ps as [|q ps [IH1 IH2]]; cbn; [done|]. split; [by apply submit_ok|]. revert IH1 IH2. generalize (foldr submit d ps). intros e He Hte.
  unfold submit. destruct (monitoredPidsInfo_ e !! q) as [i|] eqn:Ei; [|done]. case_match eqn:E; [done|]. cbn.
  destruct (decide (q = p)) as [->|Hne]; [|by rewrite lookup_insert_ne].
  assert (isMonitored_ i = true) as Hm by (eapply task_is_monitored; [exact He|done|by eexists]). by rewrite Hm in E.
Qed.

(** One phase: the task is nearer to its end, or at it. *)
Lemma phase_done s h p ph d d' : det_ok d → tasks d !! p = Some ph → run_task s h p d = Some d' →
  forgotten p d' ∨ ∃ ph', tasks d' !! p = Some ph' ∧ (rank ph' < rank ph)%nat.
Proof.
  intros Hd Ht. unfold run_task. rewrite Ht.
  assert (is_Some (monitoredPidsInfo_ d !! p)) as [i Ei].
  { apply elem_of_dom. apply (t_tasks _ _ _ _ Hd). by eapply elem_of_dom_2. }
  rewrite Ei. destruct (info_keep p i d Hd Ei) as (Hp & Hr & _ & _).
  assert (∀ e ph', Some (goto p ph' e) = Some d' → (rank ph' < rank ph)%nat → forgotten p d' ∨ ∃ ph', tasks d' !! p = Some ph' ∧ (rank ph' < rank ph)%nat)
    as Hgo by (intros e ph' [= <-] Hlt; right; exists ph'; cbn; by rewrite lookup_insert_eq).
  destruct ph; cbn [rank] in Hgo.
  - case_match; [intros E; eapply Hgo; [exact E|cbn; lia]|]. destruct (leak_log_general _ _). intros E. eapply Hgo; [exact E|]. case_match; cbn; lia.
  - intros E. eapply Hgo; [exact E|cbn; lia].
  - intros E. eapply Hgo; [exact E|cbn; lia].
  - case_match; [intros E; eapply Hgo; [exact E|cbn; lia]|]. destruct (Post _ _ _); cbn [mbind option_bind]; [|done].
    intros E. eapply Hgo; [exact E|cbn; lia].
  - case_match; intros E; (eapply Hgo; [exact E|cbn; lia]).
  - intros [= <-]. left. rewrite Hp, pid_s32 by done. unfold forgotten. cbn. by rewrite !lookup_delete_eq.
Qed.

Lemma other_call c p ph d d' : ¬ of_task p c → det_ok d → tasks d !! p = Some ph → run_call c d = Some d' → tasks d' !! p = Some ph.
Proof.
  intros Hc Hd Ht. destruct c as [s|s name msg pid|s h q]; cbn in Hc |- *.
  - intros E. destruct (main_split _ _ _ E Hd) as (e & ps & -> & He & Hte & _). apply submit_task; [done|by rewrite Hte].
  - intros E. apply user_size in E as [_ ->]. done.
  - unfold run_task. destruct (tasks d !! q) as [ph'|] eqn:Eq; [|by intros [= <-]].
    destruct (monitoredPidsInfo_ d !! q) as [i|] eqn:Ei; [|by destruct ph'; intros [= <-]].
    destruct (before_tables s i d) as (_ & _ & _ & B4 & _).
    destruct ph'; repeat (case_match; [by intros [= <-]; cbn; rewrite ?lookup_insert_ne|]).
    + destruct (leak_log_general _ _). intros [= <-]. cbn. rewrite lookup_insert_ne by done. by rewrite B4.
    + intros [= <-]. cbn. by rewrite lookup_insert_ne.
    + intros [= <-]. cbn. by rewrite lookup_insert_ne.
    + destruct (Post _ _ _); cbn [mbind option_bind]; [|done]. intros [= <-]. cbn. rewrite lookup_insert_ne by done. by rewrite B4.
    + intros [= <-]. cbn. rewrite lookup_insert_ne by done. by rewrite B4.
    + intros [= <-]. cbn. by rewrite lookup_delete_ne.
Qed.

(** The files read for a report can be read. *)
Definition report_readable (s : Sys) (p : Z) : Prop := is_Some (GetStatm (s_file s) p) ∧ is_Some (GetMeminfo (s_file s)).

Lemma task_runs s h p d : det_ok d → h = false ∨ report_readable s p → is_Some (run_task s h p d).
Proof.
  intros Hd Hr. unfold run_task. destruct (tasks d !! p) as [ph|]; [|by eexists].
  destruct (monitoredPidsInfo_ d !! p) as [i|] eqn:Ei; [|destruct ph; by eexists]. destruct (info_keep p i d Hd Ei) as (Hp & Hpr & _ & _).
  destruct ph; repeat (case_match; [by eexists|]); try by eexists.
  - destruct (leak_log_general _ _). by eexists.
  - unfold Post. destruct Hr as [->|[[x Hx] [y Hy]]]; [by eexists|]. destruct h; cbn [negb]; [|by eexists].
    destruct (change_state PROC_REPORT_STATE i) as (-> & _). rewrite Hp, pid_s32, Hx by done. cbn [mbind option_bind]. rewrite Hy. by eexists.
Qed.

(** C19: a task that has begun comes to its end.  However samplings, events and other
    tasks come between, six runs of the task of a process are enough: at the end of
    one of them the process is out of both tables and its task is gone.  And a run of
    the task is never refused when the two files of the report can be read. *)
Theorem leak_task_ends p ph d cs d' :
  det_ok d → tasks d !! p = Some ph → Forall call_ok cs → run d cs d' → (6 <= length (filter (of_task p) cs))%nat →
  (∃ cs1 cs2 e, cs = cs1 ++ cs2 ∧ run d cs1 e ∧ run e cs2 d' ∧ forgotten p e) ∧
  ∀ s h, h = false ∨ report_readable s p → is_Some (run_task s h p d).
Proof.
  intros Hd Ht Hcs Hrun Hn. split; [|by intros; apply task_runs].
  assert (rank ph <= length (filter (of_task p) cs))%nat as Hrank by (destruct ph; cbn; lia). clear Hn. revert ph Hd Ht Hcs Hrank.
  induction Hrun as [d|d c d1 cs d2 Hc Hrun IH]; intros ph Hd Ht Hcs Hrank; [destruct ph; cbn in Hrank; lia|].
  apply Forall_cons in Hcs as [Hok Hcs]. assert (det_ok d1) as Hd1 by by eapply leak_call_ok.
  assert (∀ ph1, tasks d1 !! p = Some ph1 → (rank ph1 <= length (filter (of_task p) cs))%nat →
    ∃ cs1 cs2 e, c :: cs = cs1 ++ cs2 ∧ run d cs1 e ∧ run e cs2 d2 ∧ forgotten p e) as Hnext.
  { intros ph1 Ht1 Hr1. destruct (IH ph1 Hd1 Ht1 Hcs Hr1) as (cs1 & cs2 & e & -> & R1 & R2 & HF).
    exists (c :: cs1), cs2, e. split_and!; [done|by econstructor|done|done]. }
  rewrite filter_cons in Hrank. destruct (decide (of_task p c)) as [Hp|Hp].
  - destruct c as [s|s name msg pid|s h q]; cbn in Hp; try done. subst q. cbn in Hc.
    destruct (phase_done _ _ _ _ _ _ Hd Ht Hc) as [HF|(ph1 & Ht1 & Hlt)]; [|apply (Hnext ph1 Ht1); cbn in Hrank; lia].
    exists [Task s h p], cs, d1. split_and!; [done|econstructor; [done|constructor]|done|done].
  - apply (Hnext ph); [exact (other_call c p ph d d1 Hp Hd Ht Hc)|done].
Qed.

(** ** Rest after a report *)

Section Rest.
Context (n : bytes) (t : Z).

Definition named (d : Detector) (p : Z) : Prop := ∃ i, monitoredPidsInfo_ d !! p = Some i ∧ processName_ i = n.

(** From [d] to [d']: the name stays among those processed, no process of the name is
    added to those monitored, and only of those that were are reports posted. *)
Record Calm (d d' : Detector) : Prop := mkCalm {
  c_rest : processedPids_ d' !! n = Some t;
  c_named : ∀ p, named d' p → named d p;
  c_posts : ∃ es, effects d' = effects d ++ es ∧ ∀ o, PostEvent o ∈ es → o_bundleName o = n → named d (o_pid o)
}.

Lemma calm_refl d : processedPids_ d !! n = Some t → Calm d d.
Proof. intros H. constructor; [done|done|]. exists []. rewrite app_nil_r. split; [done|]. by intros o ?%elem_of_nil. Qed.

Lemma calm_trans d1 d2 d3 : Calm d1 d2 → Calm d2 d3 → Calm d1 d3.
Proof.
  intros [_ N1 (es1 & E1 & P1)] [R2 N2 (es2 & E2 & P2)]. constructor; [done|by intros p Hp%N2%N1|].
  exists (es1 ++ es2). rewrite E2, E1, app_assoc. split; [done|]. intros o [Ho|Ho]%elem_of_app Hn; [by apply P1|by apply N1, P2].
Qed.

(** A step that posts nothing. *)
Lemma calm_silent d d' es :
  processedPids_ d' !! n = Some t → (∀ p, named d' p → named d p) → effects d' = effects d ++ es →
  Forall (λ e, match e with PostEvent _ => False | _ => True end) es → Calm d d'.
Proof. intros H1 H2 H3 H4. constructor; [done|done|]. exists es. split; [done|]. intros o Ho. by rewrite Forall_forall in H4; apply H4 in Ho. Qed.

Lemma insert_new_keeps `{Countable K} {A} (k k' : K) (a b : A) (m : gmap K A) : m !! k = Some a → insert_new k' b m !! k = Some a.
Proof. unfold insert_new. intros E. destruct (m !! k') eqn:E'; [done|]. rewrite lookup_insert_ne by congruence. done. Qed.

Lemma insert_new_cases `{Countable K} {A} (k k' : K) (a b : A) (m : gmap K A) :
  insert_new k' b m !! k = Some a → m !! k = Some a ∨ k = k' ∧ a = b.
Proof. unfold insert_new. destruct (m !! k'); [by left|]. intros [[<- <-]|[_ ?]]%lookup_insert_Some; [by right|by left]. Qed.

Lemma named_set_info d p i i' q : monitoredPidsInfo_ d !! p = Some i → processName_ i' = processName_ i → named (set_info p i' d) q → named d q.
Proof.
  intros Ei Hn (j & Ej & Hj). cbn in Ej. apply lookup_insert_Some in Ej as [[<- <-]|[_ Ej]]; [|by exists j]. exists i. by rewrite <- Hn.
Qed.

Lemma for_pids_calm f pids d d' :
  for_pids f pids d = Some d' → processedPids_ d !! n = Some t →
  (∀ p e e', processedPids_ e !! n = Some t → f p e = Some e' → Calm e e') → Calm d d'.
Proof.
  intros E H Hf. apply (for_pids_keep (Calm d) _ _ _ _ E); [by apply calm_refl|].
  intros p e e' _ He Hp. eapply calm_trans; [exact He|]. eapply Hf; [|exact Hp]. by destruct He.
Qed.

Lemma update_processed_calm s d : s_now s <= t + PROCESSED_UPLOAD_INTERVAL → processedPids_ d !! n = Some t → Calm d (UpdateProcessedPidsList s d).
Proof.
  intros Hs H. eapply (calm_silent _ _ []); [|done|by rewrite app_nil_r|done]. cbn. by apply map_lookup_filter_Some.
Qed.

Lemma consider_calm s p d d' : processedPids_ d !! n = Some t → consider s p d = Some d' → Calm d d'.
Proof.
  intros H. unfold consider. destruct (IsKernelProcess _ _ _) as [[]|]; cbn [mbind option_bind]; [intros [= <-]; by apply calm_refl| |done].
  case_match; [intros [= <-]; by apply calm_refl|]. destruct (GetRSSMemoryThreshold _); cbn [mbind option_bind]; [|done].
  destruct (GetProcessRss _ _ _); cbn [mbind option_bind]; [|done]. case_match; [|intros [= <-]; by apply calm_refl].
  destruct (start_time _ _); cbn [mbind option_bind]; [|done]. intros [= <-]. by apply (calm_silent _ _ []); [| |cbn; rewrite app_nil_r|].
Qed.

Lemma emit_calm es d : processedPids_ d !! n = Some t → Forall (λ e, match e with PostEvent _ => False | _ => True end) es → Calm d (emit es d).
Proof. intros H He. by apply (calm_silent _ _ es). Qed.

Lemma invalid_silent s i : Forall (λ e, match e with PostEvent _ => False | _ => True end) (RemoveInvalidFile s i).
Proof. unfold RemoveInvalidFile. induction (filter _ (s_logs s)) as [|f fs IH]; cbn; [done|]. case_bool_decide; [by constructor|done]. Qed.

Lemma dump_silent s i : Forall (λ e, match e with PostEvent _ => False | _ => True end) (DumpUserMemInfo s i).
Proof. unfold DumpUserMemInfo. case_match; by repeat constructor. Qed.

Lemma record_calm s d : processedPids_ d !! n = Some t → Calm d (RecordNativeInfo s d).
Proof.
  intros H. apply emit_calm; [done|]. induction (sorted_keys (grayList_ d)) as [|p ps IH]; cbn; [done|].
  apply Forall_app. split; [|exact IH]. destruct (grayList_ d !! p); [apply dump_silent|done].
Qed.

Lemma check_monitored_calm s p d d' : processedPids_ d !! n = Some t → check_monitored s p d = Some d' → Calm d d'.
Proof.
  intros H. unfold check_monitored. destruct (_ !! p) as [i|] eqn:Ei; [|intros [= <-]; by apply calm_refl].
  case_match; [intros [= <-]; by apply calm_refl|].
  destruct (gone s i) as [[]|]; cbn [mbind option_bind]; intros [= <-]; [|by apply calm_refl].
  apply (calm_silent _ _ (RemoveInvalidFile s i)); [done| |done|apply invalid_silent].
  intros q. by apply (named_set_info d p i).
Qed.

Lemma check_gray_calm s p d d' : processedPids_ d !! n = Some t → check_gray s p d = Some d' → Calm d d'.
Proof.
  intros H. unfold check_gray. destruct (_ !! p) as [i|] eqn:Ei; [|intros [= <-]; by apply calm_refl].
  destruct (gone s i) as [[]|]; cbn [mbind option_bind]; intros [= <-]; [|by apply calm_refl].
  apply (calm_silent _ _ (RemoveInvalidFile s i)); [by apply insert_new_keeps|done|done|apply invalid_silent].
Qed.

(** A process of another name is added. *)
Lemma add_calm s i d : processedPids_ d !! n = Some t → processName_ i ≠ n → Calm d (AddMonitorToList s i d).
Proof.
  intros H Hn. apply (calm_silent _ _ []); [done| |by rewrite app_nil_r|done].
  intros p (j & Ej & Hj). cbn in Ej. apply insert_new_cases in Ej as [Ej|[-> ->]]; [by exists j|]. by cbn in Hj.
Qed.

Lemma calm_gray g d d' : Calm d d' → Calm d (set_gray g d').
Proof. by intros []. Qed.

Lemma do_process_calm s p d r : processedPids_ d !! n = Some t → do_process s p d = Some r → Calm d (match r with inl d' | inr d' => d' end).
Proof.
  intros H. unfold do_process. case_bool_decide; [intros [= <-]; by apply calm_refl|].
  destruct (grayList_ d !! p) as [i|] eqn:Ei; [|intros [= <-]; by apply calm_refl]. case_match eqn:Eskip; [intros [= <-]; by apply calm_refl|].
  apply orb_false_iff in Eskip as [Hnew%bool_decide_eq_false _].
  destruct (Sample s i) as [i1|] eqn:Es; cbn [mbind option_bind]; [|done]. destruct (sample_same _ _ _ Es) as (_ & _ & _ & S).
  intros [= <-]. destruct (Judge i1) as [i2|] eqn:Ej; [|by apply calm_gray, calm_refl].
  destruct (judge_same _ _ Ej) as (_ & _ & _ & J). apply calm_gray, add_calm; [done|]. rewrite J, S. intros Heq. apply Hnew. rewrite Heq. by eexists.
Qed.

Lemma process_calm s pids d d' : processedPids_ d !! n = Some t → process_loop s pids d = Some d' → Calm d d'.
Proof.
  revert d. induction pids as [|p pids IH]; intros d H; cbn [process_loop]; [intros [= <-]; by apply calm_refl|].
  destruct (do_process s p d) as [[d1|d1]|] eqn:E; cbn [mbind option_bind]; [| |done]; apply do_process_calm in E; try done.
  - intros E1. eapply calm_trans; [exact E|]. apply IH; [by destruct E|done].
  - by intros [= <-].
Qed.

Lemma submit_calm ps d : processedPids_ d !! n = Some t → Calm d (foldr submit d ps).
Proof.
  intros H. induction ps as [|p ps IH]; cbn; [by apply calm_refl|]. eapply calm_trans; [exact IH|]. destruct IH as [H' _ _]. revert H'.
  generalize (foldr submit d ps). intros e He. unfold submit. destruct (_ !! p) as [i|] eqn:Ei; [|by apply calm_refl].
  case_match; [by apply calm_refl|]. apply (calm_silent _ _ []); [done| |by rewrite app_nil_r|done]. intros q. by apply (named_set_info e p i).
Qed.

Lemma main_calm s d d' : s_now s <= t + PROCESSED_UPLOAD_INTERVAL → processedPids_ d !! n = Some t → MainProcess s d = Some d' → Calm d d'.
Proof.
  intros Hs H. unfold MainProcess. set (dc := set_counts 0 _ d). case_match.
  { intros [= <-]. apply (calm_silent _ _ []); [done|done|by rewrite app_nil_r|done]. }
  assert (Calm d dc) as C0 by (apply (calm_silent _ _ []); [done|done|by rewrite app_nil_r|done]).
  destruct (RemoveInvalidUserInfo s dc) as [d1|] eqn:E1; cbn [mbind option_bind]; [|done].
  assert (Calm dc d1) as C1.
  { revert E1. unfold RemoveInvalidUserInfo. destruct (for_pids (check_monitored s) _ dc) as [e|] eqn:Ee; cbn [mbind option_bind]; [|done].
    intros E1. assert (Calm dc e) as Ce by (apply (for_pids_calm _ _ _ _ Ee H), check_monitored_calm).
    eapply calm_trans; [exact Ce|]. apply (for_pids_calm _ _ _ _ E1 (c_rest _ _ Ce)), check_gray_calm. }
  destruct (DoProcessNativeLeak s d1) as [d2|] eqn:E2; cbn [mbind option_bind]; [|done].
  assert (Calm d1 d2) as C2.
  { pose proof (update_processed_calm s d1 Hs (c_rest _ _ C1)) as Cu. eapply calm_trans; [exact Cu|].
    exact (process_calm s _ _ _ (c_rest _ _ Cu) E2). }
  pose proof (calm_trans _ _ _ (calm_trans _ _ _ C0 C1) C2) as C3.
  assert (∀ e ps, Calm d2 e → Calm d (foldr submit e ps)) as Hend.
  { intros e ps He. eapply calm_trans; [exact C3|]. eapply calm_trans; [exact He|]. by apply submit_calm; destruct He. }
  case_match; [|intros [= <-]; apply Hend, calm_refl; by destruct C2].
  destruct (UpdateUserMonitorInfo s d2) as [d3|] eqn:E3; cbn [mbind option_bind]; [|done]. intros [= <-]. apply Hend.
  assert (Calm d2 d3) as C4.
  { revert E3. unfold UpdateUserMonitorInfo. destruct (GetAllPids _) as [pids|]; cbn [mbind option_bind]; [|done]. intros E3.
    pose proof (update_processed_calm s d2 Hs (c_rest _ _ C2)) as Cu. eapply calm_trans; [exact Cu|].
    apply (for_pids_calm _ _ _ _ E3 (c_rest _ _ Cu)), consider_calm. }
  eapply calm_trans; [exact C4|]. destruct (record_calm s d3 (c_rest _ _ C4)). done.
Qed.

Lemma before_calm s i d : processedPids_ d !! n = Some t → processedPids_ (before_next s i d) !! n = Some t.
Proof. intros H. unfold before_next. case_bool_decide; [by apply insert_new_keeps|done]. Qed.

Lemma goto_calm p ph d : processedPids_ d !! n = Some t → Calm d (goto p ph d).
Proof. intros H. apply (calm_silent _ _ []); [done|done|by rewrite app_nil_r|done]. Qed.

(** A phase that changes its process. *)
Lemma step_calm s p ph i i' es d :
  processedPids_ d !! n = Some t → monitoredPidsInfo_ d !! p = Some i → processName_ i' = processName_ i →
  (∀ o, PostEvent o ∈ es → o_bundleName o = n → o_pid o = p ∧ processName_ i = n) →
  Calm d (goto p ph (emit es (set_info p i' (before_next s i d)))).
Proof.
  intros H Ei Hn Hes. destruct (before_tables s i d) as (_ & _ & B3 & _ & B5). constructor; [by apply before_calm| |].
  - intros q Hq. apply (named_set_info d p i i'); [done|done|]. destruct Hq as (j & Ej & Hj). exists j. split; [|done]. cbn in Ej |- *. by rewrite <- B3.
  - exists es. cbn. rewrite B5. split; [done|]. intros o Ho Hb. destruct (Hes o Ho Hb) as [-> Hi]. by exists i.
Qed.

Lemma no_posts (P : ResourceOverLimitInfo → Prop) es :
  Forall (λ e, match e with PostEvent _ => False | _ => True end) es → ∀ o, PostEvent o ∈ es → P o.
Proof. intros H o Ho. by rewrite Forall_forall in H; apply H in Ho. Qed.

Lemma task_calm s h p d d' : det_ok d → processedPids_ d !! n = Some t → run_task s h p d = Some d' → Calm d d'.
Proof.
  intros Hd H. unfold run_task. destruct (tasks d !! p) as [ph|]; [|intros [= <-]; by apply calm_refl].
  destruct (monitoredPidsInfo_ d !! p) as [i|] eqn:Ei; [|destruct ph; intros [= <-]; by apply calm_refl].
  destruct (info_keep p i d Hd Ei) as (Hp & Hr & _ & _).
  destruct ph; repeat (case_match; [intros [= <-]; by apply goto_calm|]).
  - destruct (leak_log_general _ _) as [i1 e1] eqn:Eg. destruct (general_same _ _ _ _ Eg) as (_ & _ & _ & G).
    destruct (change_state PROC_DUMP_STATE i) as (_ & _ & _ & C). intros [= <-].
    apply (step_calm s p _ i (SetDebugStartTime (s_mono s) i1)); [done|done|cbn; congruence|]. intros o Ho _. revert o Ho. apply no_posts.
    assert (Forall (λ e, match e with PostEvent _ => False | _ => True end) e1) as He1.
    { revert Eg. unfold leak_log_general. case_match; intros [= <- <-]; [|done]. constructor; [done|apply dump_silent]. }
    apply Forall_app. split; [done|]. apply Forall_app. split; [unfold DumpExtraInfo; case_match; by repeat constructor|by repeat constructor].
  - intros [= <-]. eapply calm_trans; [|apply goto_calm; done]. apply emit_calm; [done|]. apply Forall_app. split; [|by repeat constructor].
    unfold leak_log_detail. case_match; [|done]. repeat (constructor; [done|]). apply dump_silent.
  - intros [= <-]. eapply calm_trans; [|apply goto_calm; done]. apply emit_calm; [done|].
    unfold leak_log_stack. case_match; [|done]. repeat (constructor; [done|]). apply dump_silent.
  - destruct (change_state PROC_REPORT_STATE i) as (C1 & _ & _ & C). destruct (Post _ _ _) as [es|] eqn:Ep; cbn [mbind option_bind]; [|done].
    intros [= <-]. apply (step_calm s p _ i (OnChangeState PROC_REPORT_STATE i)); [done..|]. revert Ep. unfold Post. case_match; [intros [= <-] o Ho; by apply elem_of_nil in Ho|].
    destruct (GetStatm _ _); cbn [mbind option_bind]; [|done]. destruct (GetMeminfo _); cbn [mbind option_bind]; [|done]. intros [= <-].
    intros o' [= ->]%list_elem_of_singleton Hb. cbn in Hb |- *. rewrite C1, Hp, pid_s32 by done. split; [done|]. by rewrite <- C.
  - intros [= <-]. destruct (before_tables s i d) as (_ & _ & B3 & _ & B5). apply (calm_silent _ _ []).
    + cbn. by apply before_calm.
    + intros q (j & Ej & Hj). exists j. cbn in Ej. rewrite B3 in Ej. done.
    + cbn. by rewrite B5, app_nil_r.
    + done.
  - intros [= <-]. apply (calm_silent _ _ []); [done| |by rewrite app_nil_r|done].
    intros q (j & Ej & Hj). cbn in Ej. apply lookup_delete_Some in Ej as [_ Ej]. by exists j.
Qed.

(** The time, and an event that gives the name that rests: it is the whole name of its
    process.  Any other part of a name may be given. *)
Definition calm_call (c : Call) : Prop :=
  match c with
  | Tick s => s_now s <= t + PROCESSED_UPLOAD_INTERVAL
  | UserEvent s name _ pid => name = n → GetProcessName (s_file s) (s_junk s) (s32 pid) = n
  | Task _ _ _ => True
  end.

Lemma user_calm s name msg pid d d' : (name = n → GetProcessName (s_file s) (s_junk s) (s32 pid) = n) →
  processedPids_ d !! n = Some t → ProcessUserEvent s name msg pid d = Some d' → Calm d d'.
Proof.
  intros Hname H. unfold ProcessUserEvent. repeat (case_match; [intros [= <-]; by apply calm_refl|]).
  match goal with E : bool_decide (is_Some (processedPids_ d !! _)) = false |- _ => apply bool_decide_eq_false in E; rename E into Hnew end.
  assert (GetProcessName (s_file s) (s_junk s) (s32 pid) ≠ n) as Hn by (intros E; rewrite E in Hnew; apply Hnew; by eexists).
  case_match eqn:Ef.
  - destruct p as [k p]. apply list_find_Some in Ef as (_ & Ep & _). destruct (grayList_ d !! p) as [i|]; intros [= <-]; [|by apply calm_refl].
    injection Ep as Ep. apply calm_gray, add_calm; [done|]. cbn. rewrite Ep. by auto.
  - destruct (start_time _ _); cbn [mbind option_bind]; intros [= <-]. by apply add_calm.
Qed.

Lemma run_calm d cs d' : run d cs d' → det_ok d → Forall call_ok cs → Forall calm_call cs → processedPids_ d !! n = Some t → Calm d d'.
Proof.
  induction 1 as [d|d c d1 cs d2 Hc _ IH]; intros Hd Hok Hcalm H; [by apply calm_refl|].
  apply Forall_cons in Hok as [Ho Hok]. apply Forall_cons in Hcalm as [Hq Hcalm].
  assert (det_ok d1) as Hd1 by by eapply leak_call_ok.
  assert (Calm d d1) as C1.
  { destruct c as [s|s name msg pid|s h p]; cbn in Hc, Hq; [by eapply main_calm|by eapply user_calm|by eapply task_calm]. }
  eapply calm_trans; [exact C1|]. apply IH; [done..|by destruct C1].
Qed.

End Rest.

(** C18: a process that was reported rests.  When the task of a process that lives
    ends after its report, the name is noted; and while the clock of the samplings
    stays within five hours of the time noted, whatever the system answers and
    whatever comes between, the name stays noted, no process of that name is added to
    those monitored, and none of that name is reported again but those that were
    monitored already, as long as no event gives the name that rests for a process of
    a longer name ([calm_call]; otherwise [rest_broken]). *)
Theorem reported_process_rests s h p i d0 d cs d' :
  det_ok d0 → tasks d0 !! p = Some ToFinish → monitoredPidsInfo_ d0 !! p = Some i → isProcessDied_ i = false → run_task s h p d0 = Some d →
  ∃ t, processedPids_ d !! processName_ i = Some t ∧ (processedPids_ d0 !! processName_ i = None → t = now_or_zero s) ∧
    (Forall call_ok cs → Forall (calm_call (processName_ i) t) cs → run d cs d' → Calm (processName_ i) t d d').
Proof.
  intros Hd0 Ht Ei Hlive Hrun. assert (det_ok d) as Hd by by eapply run_task_ok. revert Hrun. unfold run_task. rewrite Ht, Ei, Hlive.
  destruct (info_keep p i d0 Hd0 Ei) as (_ & _ & _ & Hs). rewrite Ht in Hs. cbn in Hs. intros [= <-].
  unfold before_next in *. rewrite bool_decide_true in * by done. cbn. unfold insert_new.
  destruct (processedPids_ d0 !! processName_ i) as [t|] eqn:Et.
  - exists t. split; [done|]. split; [done|]. intros Hok Hcalm Hr. apply (run_calm _ _ _ _ _ Hr); [done..|]. cbn. unfold insert_new. by rewrite Et.
  - exists (now_or_zero s). rewrite lookup_insert_eq. split; [done|]. split; [done|]. intros Hok Hcalm Hr. apply (run_calm _ _ _ _ _ Hr); [done..|].
    cbn. unfold insert_new. by rewrite Et, lookup_insert_eq.
Qed.

(** ** Instances *)

Fixpoint run_all (cs : list Call) (d : Detector) : option Detector :=
  match cs with [] => Some d | c :: cs => d ← run_call c d; run_all cs d end.

Lemma run_all_run cs d d' : run_all cs d = Some d' → run d cs d'.
Proof.
  revert d. induction cs as [|c cs IH]; intros d; cbn [run_all]; [intros [= <-]; constructor|].
  destruct (run_call c d) as [d1|] eqn:E; cbn [mbind option_bind]; [|done]. intros H. econstructor; [exact E|by apply IH].
Qed.

Ltac solve_calls := repeat apply Forall_cons_2; try apply Forall_nil_2; first [exact I|unfold call_ok, pid_ok; lia|cbn; by vm_compute].

Definition sample_files (name : bytes) (pid : Z) (path : bytes) : option bytes :=
  let line s := Some (s ++ [10]) in
  if bool_decide (path = proc_path pid "cmdline") then Some (name ++ [0])
  else if bool_decide (path = proc_path pid "stat") then line (str "7 (app) S 1 1 1 1 1 1 1 1 1 1 1 1 1 1 1 1 1 1 4711 1 1 1")
  else if bool_decide (path = proc_path pid "rss") then line (str "2000000")
  else if bool_decide (path = proc_path pid "smaps_rollup") then line (str "Pss:    1900000 kB")
  else if bool_decide (path = proc_path pid "statm") then line (str "600000 500000 1 1")
  else if bool_decide (path = str "/proc/meminfo") then Some (str "MemTotal: 8 kB" ++ [10] ++ str "MemFree: 2 kB" ++ [10] ++ str "MemAvailable: 3 kB" ++ [10])
  else None.

Definition sample_sys (name : bytes) (pid now : Z) : Sys :=
  mkSys now now (str "2024/01/01") (str "20240101") (sample_files name pid) 0 [] [] (λ _, str "1.0") (λ _, 20010043) true true.

Definition no_detector : Detector := mkDetector 0 0 0 0 0 ∅ ∅ ∅ ∅ ∅ ∅ [].
Definition app_sys : Z → Sys := sample_sys (str "app") 7.
Definition app_task : Call := Task (app_sys 1000) true 7.
Definition app_found : list Call := [UserEvent (app_sys 1000) (str "app") (str "low") 7; Tick (app_sys 1000)].

Definition sample_start : Detector := default no_detector (PrepareNativeLeakEnv (app_sys 1000) None true).
Definition sample_found : Detector := default no_detector (run_all app_found sample_start).
Definition sample_reported : Detector := default no_detector (run_all [app_task; app_task; app_task; app_task] sample_found).
Definition sample_finished : Detector := default no_detector (run_call app_task sample_reported).
Definition later : list Call := [app_task; UserEvent (app_sys 9000) (str "app") (str "low") 7; Tick (app_sys 9000)].

Lemma monitoring_lawful_witness :
  PrepareNativeLeakEnv (app_sys 1000) None true = Some sample_start ∧ det_ok sample_found ∧ size (monitoredPidsInfo_ sample_found) = 1%nat.
Proof.
  assert (PrepareNativeLeakEnv (app_sys 1000) None true = Some sample_start) as H0 by (vm_compute; reflexivity).
  split; [exact H0|]. split; [|vm_compute; reflexivity].
  apply (monitoring_lawful (app_sys 1000) None true sample_start app_found sample_found H0).
  - solve_calls.
  - apply run_all_run. vm_compute. reflexivity.
Defined.

Lemma sample_found_ok : det_ok sample_found.
Proof.
  apply (run_ok sample_start app_found); [apply run_all_run; vm_compute; reflexivity|solve_calls|].
  apply (prepare_ok (app_sys 1000) None true). vm_compute. reflexivity.
Qed.

Definition six_tasks : list Call := [app_task; app_task; Tick (app_sys 1001); app_task; app_task; app_task; app_task].

Lemma leak_task_ends_witness :
  tasks sample_found !! 7 = Some ToDump ∧
  (∃ cs1 cs2 e, six_tasks = cs1 ++ cs2 ∧ run sample_found cs1 e ∧ run e cs2 (default no_detector (run_all six_tasks sample_found)) ∧ forgotten 7 e) ∧
  ∀ s h, h = false ∨ report_readable s 7 → is_Some (run_task s h 7 sample_found).
Proof.
  assert (tasks sample_found !! 7 = Some ToDump) as Ht by (vm_compute; reflexivity).
  split; [exact Ht|]. apply (leak_task_ends 7 ToDump sample_found six_tasks _ sample_found_ok Ht).
  - solve_calls.
  - apply run_all_run. vm_compute. reflexivity.
  - vm_compute. lia.
Defined.

Lemma sample_reported_ok : det_ok sample_reported.
Proof.
  apply (run_ok sample_found [app_task; app_task; app_task; app_task]); [apply run_all_run; vm_compute; reflexivity|solve_calls|].
  exact sample_found_ok.
Qed.

Lemma reported_process_rests_witness :
  ∃ t, processedPids_ sample_finished !! str "app" = Some t ∧ t = 1000 ∧
    Calm (str "app") t sample_finished (default no_detector (run_all later sample_finished)).
Proof.
  destruct (monitoredPidsInfo_ sample_reported !! 7) as [i|] eqn:Ei; [|exfalso; revert Ei; by vm_compute].
  assert (processName_ i = str "app") as Hn by (revert Ei; vm_compute; by intros [= <-]).
  destruct (reported_process_rests (app_sys 1000) true 7 i sample_reported sample_finished later (default no_detector (run_all later sample_finished)))
    as (t & Ht & Hnew & Hcalm).
  - exact sample_reported_ok.
  - by vm_compute.
  - exact Ei.
  - revert Ei. vm_compute. by intros [= <-].
  - by vm_compute.
  - rewrite Hn in Ht, Hnew, Hcalm. assert (t = 1000) as -> by (apply Hnew; by vm_compute). exists 1000. split; [exact Ht|]. split; [done|].
    apply Hcalm; [solve_calls|solve_calls|apply run_all_run; by vm_compute].
Defined.

(** *** What the code does besides *)

(** The sample file of a process that has died keeps its name: a folder's entry, which
    starts with a digit, is compared with the whole path. *)
Lemma never_renamed s i : RemoveInvalidFile s i = [].
Proof.
  unfold RemoveInvalidFile. induction (s_logs s) as [|f fs IH]; [done|]. rewrite filter_cons. case_decide as Hf; [|done]. rewrite fmap_cons. cbn [concat].
  rewrite bool_decide_false; [exact IH|]. intros ->. done.
Qed.

(** Without the proportional size the excess wraps around: every leak is graded as
    an error. *)
Example graded_without_pss : JudgeMemoryLeakGrade 819200 0 = MEMORY_LEAK_ERROR.
Proof. vm_compute. reflexivity. Qed.

Example graded_just_above : JudgeMemoryLeakGrade 819200 819201 = MEMORY_LEAK_INFO.
Proof. vm_compute. reflexivity. Qed.

(** An event that gives the name that rests for a process of a longer name reaches the
    process that rests. *)
Example rest_broken :
  let d := set_processed {[str "app" := 1000]}
    (set_gray {[8 := new_info (app_sys 1000) 8 (str "app") 1 0 0 false]} no_detector) in
  from_option (λ d, elements (dom (monitoredPidsInfo_ d))) []
    (ProcessUserEvent (sample_sys (str "myapp") 9 1001) (str "app") (str "low") 9 d) = [8].
Proof. vm_compute. reflexivity. Qed.

(** A number that is no process, as an event may carry it, is never let go. *)
Example never_forgotten :
  let s := app_sys 1000 in
  let cs := [UserEvent s [] (str "low") (2 ^ 32 - 5); Tick s; Task s false (-5); Task s false (-5); Task s false (-5); Task s false (-5);
    Task s false (-5); Task s false (-5)] in
  from_option (λ d, (elements (dom (monitoredPidsInfo_ d)), elements (dom (tasks d)))) ([], []) (run_all cs sample_start) = ([-5], []).
Proof. vm_compute. reflexivity. Qed.

(** The processes to watch are sought every 120 rounds, which is ten minutes. *)
Definition rounds_until_update (n : nat) : list Z :=
  omap (λ k, match Nat.iter k (λ o, d ← o; MainProcess (app_sys 1000) d) (PrepareNativeLeakEnv (app_sys 1000) None false) with
             | Some d => if bool_decide (k ≠ 0)%nat && (funcLoopCnt_ d =? 0) then Some (Z.of_nat k) else None
             | None => None
             end) (seq 0 n).

Example update_rounds : rounds_until_update 125 = [120].
Proof. vm_compute. reflexivity. Qed.

End LeakFacts.
