(* ===== verification/EventPublish.v ===== *)
(** * EventPublish: handing events to the applications that listen

    Models base/event_publish: event_publish.cpp (the path of an application's
    sandbox, copying the logs of an event into it, writing the event there, at once
    or after a delay), log_file_name_converter.cpp (the names of copied logs) and
    user_data_size_reporter.cpp (reporting the size of what was written once a day).
    A file may have several names, since the copied logs get links.  The bundle
    manager's answers, extended attributes, clocks, where links lead, the order a
    folder is listed in and jsoncpp's reader and writer are given. *)

From S2P Require Import Prelude Text DbFile Json LogStore FreezeRules Freeze Binder.
From stdpp Require Import base gmap list numbers strings.

Local Open Scope Z_scope.

Module EventPublish.
Import DbFile.DbFile (find_sub, is_digit).
Import JsonValue.
Import LogStore.LogStore (in_folder, IncludeTrailingPathDelimiter).
Import FreezeRules (smap_set).
Import Freeze.Freeze (ReplaceStr).
Import Binder.Binder (StrToInt).

(** ** Files *)

(** Files by their numbers, and the names they have. *)
Record Store := mkStore { nodes : gmap nat bytes; names : gmap bytes nat; next_node : nat }.

Definition read (path : bytes) (d : Store) : option bytes := n ← names d !! path; nodes d !! n.

(** A file is written anew, or made. *)
Definition put (path text : bytes) (d : Store) : Store :=
  match names d !! path with
  | Some n => mkStore (<[n := text]> (nodes d)) (names d) (next_node d)
  | None => mkStore (<[next_node d := text]> (nodes d)) (<[path := next_node d]> (names d)) (S (next_node d))
  end.

Definition unlink (path : bytes) (d : Store) : Store := mkStore (nodes d) (delete path (names d)) (next_node d).

(** [link]: another name for the file, unless the name is taken. *)
Definition link (path new : bytes) (d : Store) : Store :=
  match names d !! path, names d !! new with
  | Some n, None => mkStore (nodes d) (<[new := n]> (names d)) (next_node d)
  | _, _ => d
  end.

Definition node_size (d : Store) (n : nat) : Z := Zlen (default [] (nodes d !! n)).
Definition size_of (d : Store) (path : bytes) : Z := from_option (node_size d) 0 (names d !! path).

(** [GetFolderSize] counts a file once, however many names it has. *)
Definition folder_names (dir : bytes) (d : Store) : list (bytes * nat) := filter (λ pn, in_folder dir pn.1 = true) (map_to_list (names d)).
Definition folder_nodes (dir : bytes) (d : Store) : gset nat := list_to_set (folder_names dir d).*2.
Definition folder_size (dir : bytes) (d : Store) : Z := sum_of (node_size d) (elements (folder_nodes dir d)).
Definition GetFolderSize (dir : bytes) (d : Store) : Z := u64 (folder_size dir d).

(** The files in a folder itself. *)
Definition DirFiles (dir : bytes) (d : Store) : list bytes :=
  filter (λ p, 47 ∉ drop (length (IncludeTrailingPathDelimiter dir)) p) (folder_names dir d).*1.

(** ** Names of logs *)

(** The patterns of the file names: literal text, characters other than a dash,
    digits, fourteen digits, any character but a line end. *)
Inductive Piece := Lit (s : string) | NoDash | Digits | Stamp | AnyChar.

Definition take_while (p : Z → bool) (s : bytes) : bytes * bytes :=
  (fix go s := match s with c :: r => if p c then let '(a, b) := go r in (c :: a, b) else ([], s) | [] => ([], []) end) s.

(** [regex_match]: a run is followed by a character it does not take. *)
Fixpoint matches (p : list Piece) (s : bytes) : bool :=
  match p with
  | [] => bool_decide (s = [])
  | Lit l :: p => bool_decide (str l `prefix_of` s) && matches p (drop (length (str l)) s)
  | NoDash :: p => let '(a, r) := take_while (λ c, negb (c =? 45)) s in negb (bool_decide (a = [])) && matches p r
  | Digits :: p => let '(a, r) := take_while is_digit s in negb (bool_decide (a = [])) && matches p r
  | Stamp :: p => bool_decide (14 <= length s)%nat && forallb is_digit (take 14 s) && matches p (drop 14 s)
  | AnyChar :: p => match s with c :: r => negb ((c =? 10) || (c =? 13)) && matches p r | [] => false end
  end.

Record LogFileTypeInfo := mkLogType { pattern : list Piece; resourceType : bytes; suffix : bytes }.

Definition leak_type (p : list Piece) (resource suffix : string) : LogFileTypeInfo := mkLogType p (str resource) (str suffix).

Definition js_heap_pattern : list Piece := [Lit "memleak-js-"; NoDash; Lit "-"; Digits; Lit "-"; Digits; Lit "-"; Stamp; Lit ".rawheap"].
Definition js_pattern : list Piece := [Lit "memleak-js-"; NoDash; Lit "-"; Digits; Lit "-"; Stamp; Lit ".rawheap"].
Definition named_pattern (kind ext : string) : list Piece := [Lit ("memleak-" ++ kind ++ "-"); NoDash; Lit "-"; Digits; Lit "-"; Stamp; Lit ext].
Definition kernel_pattern : list Piece := [Lit "memleak-kernel-"; NoDash; Lit "-0-"; Stamp; Lit ".txt"].
Definition kernel_of (what : string) : list Piece := [Lit ("memleak-kernel-" ++ what ++ "-0-"); Stamp; Lit ".txt"].

(** [LOG_FILE_TYPE_MAP], in the order of its keys. *)
Definition LOG_FILE_TYPE_MAP : list LogFileTypeInfo := [
  leak_type js_heap_pattern "js_heap" "_js_heap.rawheap";
  leak_type kernel_pattern "rss_memory" "_rss_smaps.log";
  leak_type js_pattern "rss_memory" "_rss_jsheap.rawheap";
  leak_type [Lit "memleak-native-hiapp-"; NoDash; Lit "-"; Digits; Lit "-smaps"; AnyChar; Lit "txt"] "rss_memory" "_rss_smaps.log";
  leak_type [Lit "memleak-kernel-hiapp-"; NoDash; Lit "-0-"; Stamp; Lit ".txt"] "rss_memory" "_rss_ashmem.htrace";
  leak_type (named_pattern "kotlin" ".kdump") "rss_memory" "_rss_kotlin.kdump";
  leak_type (named_pattern "jsvm" ".rawheap") "rss_memory" "_rss_jsvm.rawheap";
  leak_type (named_pattern "arkweb_v8" ".rawheap") "rss_memory" "_rss_arkwebv8.rawheap";
  leak_type [Lit "memleak-native-"; NoDash; Lit "-"; Digits; Lit "-smaps.txt"] "pss_memory" "_extpss_smaps.log";
  leak_type [Lit "memleak-kernel-hiapp-"; NoDash; Lit "-0-"; Stamp; Lit ".txt"] "pss_memory" "_extpss_procinfo.log";
  leak_type (named_pattern "native" ".txt") "pss_memory" "_extpss_native.htrace";
  leak_type (kernel_of "gpu") "pss_memory" "_extpss_gpu.htrace";
  leak_type (kernel_of "ion") "pss_memory" "_extpss_dma.htrace";
  leak_type js_pattern "pss_memory" "_extpss_jsheap.rawheap";
  leak_type (kernel_of "ashmem") "pss_memory" "_extpss_ashmem.htrace";
  leak_type (named_pattern "kotlin" ".kdump") "pss_memory" "_extpss_kotlin.kdump";
  leak_type (named_pattern "jsvm" ".rawheap") "pss_memory" "_extpss_jsvm.rawheap";
  leak_type (named_pattern "arkweb_v8" ".rawheap") "pss_memory" "_extpss_arkwebv8.rawheap";
  leak_type kernel_pattern "ion_memory" "_dma.log";
  leak_type (named_pattern "kernel" ".txt") "ion_memory" "_dma.htrace";
  leak_type kernel_pattern "gpu_memory" "_gpu.log";
  leak_type (named_pattern "kernel" ".txt") "gpu_memory" "_gpu.htrace";
  leak_type [Lit "fdleak-"; NoDash; Lit "-"; Digits; Lit "-log-"; Stamp; Lit ".txt"] "fd" "_fd.log";
  leak_type [Lit "fdleak-hiapp-"; NoDash; Lit "-"; Digits; Lit "-profiler-"; Stamp; Lit ".txt"] "fd" "_fd.htrace";
  leak_type [Lit "threadleak-"; NoDash; Lit "-"; Digits; Lit "-log-"; Stamp; Lit ".txt"] "thread" "_thread.log";
  leak_type [Lit "threadleak-hiapp-"; NoDash; Lit "-"; Digits; Lit "-profiler-"; Stamp; Lit ".txt"] "thread" "_thread.htrace"].

Definition MatchLogFileType (fileName resource : bytes) : option LogFileTypeInfo :=
  if bool_decide (fileName = []) then None
  else snd <$> list_find (λ t, matches (pattern t) fileName = true ∧ resource = resourceType t) LOG_FILE_TYPE_MAP.

(** [ExtractTimestampFromFileName]: the first fourteen digits in a row. *)
Fixpoint ExtractTimestampFromFileName (s : bytes) : bytes :=
  match s with
  | [] => []
  | c :: r => if bool_decide (14 <= length s)%nat && forallb is_digit (take 14 s) then take 14 s else ExtractTimestampFromFileName r
  end.

(** ** What is known of an application *)

(** The bundle manager's answers about a user. *)
Record Bundle := mkBundle {
  nameAndIndex : option (bytes * Z);
  info : option (bool * bool);       (* an input method among its extensions, free of installation *)
  bundleDir : option bytes
}.

Record Env := mkEnv {
  e_ms : Z;                                  (* the clock, in milliseconds *)
  e_log_ms : nat → Z;                        (* the clock when the n-th log is named *)
  e_bundle : Z → Bundle;
  e_dir : bytes → bool;                      (* the directories there are *)
  e_xattr : bytes → bytes → option bytes;
  e_stamp : bytes → Z;                       (* the time a stamp of fourteen digits is *)
  e_readable : bytes → bool;
  e_writable : bytes → bool;
  e_room : option nat;                       (* how much room the disk has, when it is not enough *)
  e_order : list bytes → list bytes;         (* the order a folder is listed in *)
  e_chown : bool;
  e_create : bool;                           (* whether the folder of delayed events can be made *)
  e_beta : bool
}.

Section Publish.
(** c_utils' function and the real path of a path. *)
Context (ExtractFileName : bytes → bytes) (resolve : bytes → bytes).
(** jsoncpp's strict reader and its writer. *)
Context (parse : bytes → option Json) (write : Json → bytes).

Definition PATH_DIR : bytes := str "/data/log/hiview/system_event_db/events/temp".
Definition SANDBOX_DIR : bytes := str "/data/storage/el2/log".
Definition LOG_PATH_PREFIX : bytes := str "/data/log/".
Definition FILE_PREFIX : bytes := str "/hiappevent_".
Definition FILE_SUFFIX : bytes := str ".evt".
Definition VALUE_MOD : Z := 200000.
Definition MAX_LINK_FILE_NUM : Z := 10.
Definition MAX_FILE_SIZE : Z := 5 * 1024 * 1024.
Definition DMP_MAX_FILE_SIZE : Z := 35 * 1024 * 1024.
Definition WATCHDOG_MAX_FILE_SIZE : Z := 10 * 1024 * 1024.
Definition RESOURCE_OVERLIMIT_MAX_FILE_SIZE : Z := 2048 * 1024 * 1024.

(** [BundleUtil::GetSandBoxPath]; the division goes toward zero. *)
Definition GetSandBoxPath (uid : Z) (mainDir pathHolder subDir : bytes) : bytes :=
  if bool_decide (pathHolder = []) || bool_decide (mainDir = []) then []
  else str "/data/app/el2/" ++ to_string (Z.quot uid VALUE_MOD) ++ str "/" ++ mainDir ++ str "/" ++ pathHolder ++ str "/" ++ subDir.

(** [FileUtil::FileExists], of a file or a directory; nothing has the empty path. *)
Definition FileExists (e : Env) (d : Store) (path : bytes) : bool :=
  negb (bool_decide (path = [])) && (e_dir e path || bool_decide (is_Some (names d !! resolve path))).

(** A file opened for reading. *)
Definition open_file (e : Env) (path : bytes) (d : Store) : option bytes := if e_readable e path then read (resolve path) d else None.

(** What of a text the disk has room for. *)
Definition fit (e : Env) (text : bytes) : bytes := from_option (λ n, take n text) text (e_room e).

Definition GetInputMethodPathHolder (e : Env) (d : Store) (bundleName : bytes) (uid : Z) : bytes :=
  let tmpHolder := str "+extension-entry-InputMethodExtensionAbility+" ++ bundleName in
  if FileExists e d (GetSandBoxPath uid (str "base") tmpHolder (str "cache/hiappevent")) then tmpHolder else bundleName.

Definition GetPathPlaceHolder (e : Env) (d : Store) (uid : Z) : bytes :=
  let b := e_bundle e uid in
  match nameAndIndex b with
  | None => []
  | Some (bundleName, appIndex) =>
      if bool_decide (bundleName = []) then [] else
      if appIndex >? 0 then str "+clone-" ++ to_string appIndex ++ str "+" ++ bundleName else
      match info b with
      | None => []
      | Some (inputMethod, free) =>
          if inputMethod : bool then GetInputMethodPathHolder e d bundleName uid
          else if free : bool then default [] (bundleDir b)
          else bundleName
      end
  end.

(** ** Copying logs *)

Record ExternalLogInfo := mkLogInfo { extensionType : bytes; subPath : bytes; sandBoxLogPath : bytes; maxFileSize : Z; observerNum : Z }.

Definition eventConfigDir (uid : Z) (pathHolder : bytes) : bytes := GetSandBoxPath uid (str "base") pathHolder (str "cache/eventConfig").

(** An attribute of the folder of an application's configuration. *)
Definition config (e : Env) (uid : Z) (pathHolder : bytes) (name : bytes) : option bytes :=
  let dir := eventConfigDir uid pathHolder in
  if bool_decide (dir = []) then None else e_xattr e dir (str "user.event_config." ++ name).

Definition GetEventObserverNum (e : Env) (eventName : bytes) (uid : Z) (pathHolder : bytes) : Z :=
  from_option StrToInt MAX_LINK_FILE_NUM (config e uid pathHolder eventName).

Definition EVENT_MAIN_THREAD_JANK : bytes := str "MAIN_THREAD_JANK".
Definition EVENT_RESOURCE_OVERLIMIT : bytes := str "RESOURCE_OVERLIMIT".
Definition EVENT_SCROLL_JANK : bytes := str "SCROLL_JANK".
Definition EVENT_BATTERY_USAGE : bytes := str "BATTERY_USAGE".

Definition GetExternalLogInfo (e : Env) (eventName : bytes) (uid : Z) (pathHolder : bytes) : ExternalLogInfo :=
  let n := GetEventObserverNum e eventName uid pathHolder in
  let make ext sub max := mkLogInfo (str ext) (str sub) (GetSandBoxPath uid (str "log") pathHolder (str sub)) max n in
  if bool_decide (eventName = EVENT_MAIN_THREAD_JANK) then make ".trace"%string "watchdog"%string WATCHDOG_MAX_FILE_SIZE
  else if bool_decide (eventName = EVENT_RESOURCE_OVERLIMIT) then make ".log"%string "resourcelimit"%string RESOURCE_OVERLIMIT_MAX_FILE_SIZE
  else make ".log"%string "hiappevent"%string
    (if bool_decide (config e uid pathHolder (str "minidump") = Some (str "true")) then DMP_MAX_FILE_SIZE else MAX_FILE_SIZE).

(** Up to the last of a character, and from it. *)
Definition cut_last (c : Z) (s : bytes) : option (bytes * bytes) :=
  match find_sub [c] (reverse s) with
  | Some n => Some (take (length s - n - 1) s, drop (length s - n - 1) s)
  | None => None
  end.

Definition GetLinkFileName (desFileName : bytes) (observerNum : Z) : list bytes :=
  let '(name, ext) := default (desFileName, []) (cut_last 46 desFileName) in
  (λ i, name ++ str "_" ++ to_string (Z.of_nat i) ++ ext) <$> seq 0 (Z.to_nat observerNum).

(** The folder of a path. *)
Definition folder (path : bytes) : bytes := from_option fst path (cut_last 47 path).

Definition CreateLinkFile (destPath : bytes) (links : list bytes) (d : Store) : Store :=
  foldl (λ d l, link (resolve destPath) (folder destPath ++ str "/" ++ l) d) d links.

(** [CopyFileFast]: of an older file what is longer stays behind. *)
Definition CopyFileFast (e : Env) (src des : bytes) (truncatedFileSize : Z) (d : Store) : bool * Store :=
  match open_file e src d with
  | None => (false, d)
  | Some text =>
      if negb (e_writable e des) then (false, d) else
      let cut := negb (truncatedFileSize =? 0) && (Zlen text >? truncatedFileSize) in
      let copied := if cut then take (Z.to_nat truncatedFileSize) text else text in
      let new := fit e (copied ++ (if cut then [10] ++ str "[truncated]" else [])) in
      let old := default [] (read (resolve des) d) in
      (bool_decide (fit e copied = copied), put (resolve des) (new ++ drop (length new) old) d)
  end.

Definition CopyExternalLog (e : Env) (curLogPath destPath : bytes) (maxFileSizeByte : Z) (links : list bytes) (d : Store) : bool * Store :=
  let '(ok, d) := CopyFileFast e curLogPath destPath maxFileSizeByte d in
  if negb ok then (false, d) else
  let d := CreateLinkFile destPath links d in
  if e_chown e then (true, d) else (false, foldl (λ d l, unlink (folder destPath ++ str "/" ++ l) d) (unlink destPath d) links).

Definition IsDmpFile (path : bytes) : bool := bool_decide (str ".dmp" `suffix_of` path).

Definition VerifyPathSecurity (d : Store) (path : bytes) : bool :=
  bool_decide (is_Some (names d !! resolve path)) && bool_decide (LOG_PATH_PREFIX `prefix_of` resolve path).

(** [StringUtil::ContainsPathTraversal]; of a text of one character the comparison
    is of [npos] with itself. *)
Definition ContainsPathTraversal (path : bytes) : bool :=
  bool_decide (length path = 1%nat) ||
  bool_decide (is_Some (find_sub (str "../") path)) || bool_decide (is_Some (find_sub (str "..\") path)) ||
  bool_decide (str ".." `prefix_of` path) || bool_decide (str ".." `suffix_of` path).

Definition ShouldRefinedLogFileName (e : Env) (uid : Z) (pathHolder : bytes) : bool :=
  if ContainsPathTraversal (eventConfigDir uid pathHolder) then false
  else bool_decide (config e uid pathHolder (str "useRefinedLogFileName") = Some (str "true")).

Definition json_int (j : Json) : Z := default 0 (int_value j).
Definition json_string (j : Json) : bytes := match j with JString s => s | _ => [] end.

(** [ConvertLogFileName]: the name stays when the file has none. *)
Definition ConvertLogFileName (e : Env) (oldFileName newFileName : bytes) (ms pid : Z) (resource : bytes) : bytes :=
  if bool_decide (oldFileName = []) then newFileName else
  match MatchLogFileType oldFileName resource with
  | None => []
  | Some t =>
      let stamp := ExtractTimestampFromFileName oldFileName in
      let timeStr := to_string (if bool_decide (stamp = []) then ms else e_stamp e stamp * 1000) in
      str "RESOURCE_OVERLIMIT_" ++ timeStr ++ str "_" ++ to_string pid ++ suffix t
  end.

Definition RefineLogFilePaths (e : Env) (params : Json) (oldLogPath newFileName : bytes) (ms : Z) (needRefined : bool) : bytes :=
  if negb needRefined || bool_decide (oldLogPath = []) then newFileName
  else ConvertLogFileName e (ExtractFileName oldLogPath) newFileName ms (json_int (member params (str "pid"))) (json_string (member params (str "resource_type"))).

Definition GetDesFileName (params : Json) (eventName : bytes) (i : ExternalLogInfo) (ms : Z) : bytes :=
  (match member params (str "is_business_jank") with JBool true => str "BUSINESS_THREAD_JANK" | _ => eventName end) ++
  str "_" ++ to_string ms ++ str "_" ++ to_string (json_int (member params (str "pid"))) ++ extensionType i.

(** What the loop over the logs keeps. *)
Record Copying := mkCopying { dirSize : Z; logOverLimit : bool; logs : list Json; links : list Json; disk : Store; stopped : bool }.

(** One log of [CopyExternalLogsToSandBox]. *)
Definition copy_log (e : Env) (i : ExternalLogInfo) (params : Json) (eventName : bytes) (maxFileSizeBytes : Z) (needRefined : bool)
    (k : Copying) (nl : nat * Json) : Copying :=
  if stopped k then k else
  let cur := json_string nl.2 in
  let d := disk k in
  if bool_decide (SANDBOX_DIR `prefix_of` cur) then
    if FileExists e d (sandBoxLogPath i ++ str "/" ++ ExtractFileName cur)
    then mkCopying (dirSize k) (logOverLimit k) (logs k ++ [JString cur]) (links k) d false
    else mkCopying (dirSize k) true (logs k) (links k) d false
  else if bool_decide (cur = []) || negb (VerifyPathSecurity d cur) then k
  else
    let fileSize := size_of d (resolve cur) in
    if fileSize <=? u64 (maxFileSize i - dirSize k) then
      let ms := e_log_ms e nl.1 in
      let des := RefineLogFilePaths e params cur (GetDesFileName params eventName i ms) ms needRefined in
      let des := if IsDmpFile cur then ReplaceStr des (str ".log") (str ".dmp") else des in
      let destPath := sandBoxLogPath i ++ str "/" ++ des in
      let linkNames := GetLinkFileName des (observerNum i) in
      if bool_decide (des = []) then k else
      let '(ok, d) := CopyExternalLog e cur destPath maxFileSizeBytes linkNames d in
      if ok then
        let path := str "/data/storage/el2/log/" ++ subPath i in
        mkCopying (u64 (dirSize k + fileSize)) (logOverLimit k) (logs k ++ [JString (path ++ str "/" ++ des)])
          (links k ++ [JArray ((λ l, JString (path ++ str "/" ++ l)) <$>
             filter (λ l, FileExists e d (sandBoxLogPath i ++ str "/" ++ l) = true) linkNames)]) d false
      else mkCopying (dirSize k) (logOverLimit k) (logs k) (links k) d false
    else mkCopying (dirSize k) true (logs k) (links k) d true.

Definition set_member (k : string) (v : Json) (j : Json) : Json :=
  match j with JObject ms => JObject (smap_set (str k) v ms) | _ => JObject [(str k, v)] end.

Definition array (j : Json) : list Json := match j with JArray l => l | _ => [] end.

Definition CopyExternalLogsToSandBox (e : Env) (i : ExternalLogInfo) (event : Json) (maxFileSizeBytes : Z) (needRefined : bool) (d : Store)
    : Json * Store :=
  let params := member event (str "params") in
  let eventName := json_string (member event (str "name")) in
  let items := array (member params (str "external_log")) in
  let k := foldl (copy_log e i params eventName maxFileSizeBytes needRefined)
    (mkCopying (GetFolderSize (sandBoxLogPath i) d) false [] [] d false) (zip (seq 0 (length items)) items) in
  let event := if bool_decide (links k = []) then event
               else set_member "link_external_log" (JArray (array (member event (str "link_external_log")) ++ links k)) event in
  (set_member "params" (set_member "external_log" (JArray (logs k)) (set_member "log_over_limit" (JBool (logOverLimit k)) params)) event, disk k).

(** [SaveLogToSandBox]. *)
Definition SaveLogToSandBox (e : Env) (uid : Z) (pathHolder : bytes) (event : Json) (maxFileSizeBytes : Z) (needRefined : bool) (d : Store)
    : Json * Store :=
  match member (member event (str "params")) (str "external_log") with
  | JArray (_ :: _) =>
      CopyExternalLogsToSandBox e (GetExternalLogInfo e (json_string (member event (str "name"))) uid pathHolder) event maxFileSizeBytes needRefined d
  | _ => (event, d)
  end.

(** ** Writing the event *)

Definition GetTempFilePath (uid : Z) : bytes := PATH_DIR ++ FILE_PREFIX ++ to_string uid ++ FILE_SUFFIX.

(** What happened, for the rest of the system and for the theorems. *)
Inductive Effect :=
  | Wrote (path text : bytes)
  | Moved (src des text : bytes)
  | Dropped (path : bytes)
  | SentEvent (bundleName bundleVersion crashType : bytes) (crash hasLog : bool)
  | DataSize (sizes : list (bytes * Z)).

Definition remove_member (k : string) (j : Json) : Json :=
  match j with JObject ms => JObject (filter (λ kv : bytes * Json, kv.1 ≠ str k) ms) | _ => j end.

Definition RemoveEventInternalField (event : Json) : Json :=
  set_member "params" (remove_member "is_business_jank" (member event (str "params"))) event.

Definition ReportAppEventSend (e : Env) (event : Json) : list Effect :=
  let eventName := json_string (member event (str "name")) in
  let params := member event (str "params") in
  if negb (e_beta e) then [] else
  if negb (bool_decide (eventName = str "APP_FREEZE")) && negb (bool_decide (eventName = str "APP_CRASH")) then [] else
  match member params (str "external_log") with
  | JArray l =>
      [SentEvent (json_string (member params (str "bundle_name"))) (json_string (member params (str "bundle_version")))
         (json_string (member params (str "crash_type"))) (bool_decide (eventName = str "APP_CRASH")) (negb (bool_decide (l = [])))]
  | _ => []
  end.

(** [WriteEventJson]: the text is added to the file. *)
Definition WriteEventJson (e : Env) (event : Json) (path : bytes) (d : Store) : list Effect * Store :=
  let event := RemoveEventInternalField event in
  let text := write event in
  if e_writable e path
  then (Wrote path text :: ReportAppEventSend e event, put (resolve path) (default [] (read (resolve path) d) ++ text) d)
  else ([], d).

Definition event_file (e : Env) (dir : bytes) : bytes := dir ++ FILE_PREFIX ++ to_string (e_ms e) ++ str ".txt".

Definition SaveEventToSandBox (e : Env) (uid : Z) (pathHolder : bytes) (event : Json) (d : Store) : list Effect * Store :=
  WriteEventJson e event (event_file e (GetSandBoxPath uid (str "base") pathHolder (str "cache/hiappevent"))) d.

(** The bit of every event an application may listen to. *)
Definition OS_EVENT_POS_INFOS : list (string * Z) := [
  ("APP_CRASH", 0); ("APP_FREEZE", 1); ("APP_LAUNCH", 2); ("SCROLL_JANK", 3); ("CPU_USAGE_HIGH", 4); ("BATTERY_USAGE", 5);
  ("RESOURCE_OVERLIMIT", 6); ("ADDRESS_SANITIZER", 7); ("MAIN_THREAD_JANK", 8); ("APP_HICOLLIE", 10); ("APP_KILLED", 11);
  ("AUDIO_JANK_FRAME", 12); ("APPFREEZE_WARNING", 14)]%string.

Definition event_bit (eventName : bytes) : option Z := (λ p : nat * (string * Z), p.2.2) <$> list_find (λ p : string * Z, str p.1 = eventName) OS_EVENT_POS_INFOS.

(** [strtoull(value, nullptr, 0)]. *)
Definition parse_mask (value : bytes) : Z :=
  let '(neg, ds) := take_sign (skip_space (c_str value)) in
  let v := match ds with
           | 48 :: x :: r =>
               if ((x =? 120) || (x =? 88)) && negb (bool_decide (take_digits 16 r = [])) then value_of 16 (take_digits 16 r)
               else value_of 8 (take_digits 8 (x :: r))
           | _ => value_of 10 (take_digits 10 ds)
           end in
  if v >? 2 ^ 64 - 1 then 2 ^ 64 - 1 else if neg : bool then u64 (- v) else v.

Definition CheckAppListenedEvents (e : Env) (path eventName : bytes) : bool :=
  match event_bit eventName with
  | None => false
  | Some bit =>
      match e_xattr e path (str "user.appevent") with
      | None | Some [] => false
      | Some value => Z.testbit (parse_mask value) bit
      end
  end.

(** ** Reporting sizes once a day *)

Definition REPORT_LIMIT_MS : Z := 24 * (3600 * 1000).
Definition RECORD_MAX_CNT : nat := 128.

Abbreviation Records := (list (bytes * Z)).

(** [ClearOverTimeRecord]: the oldest are first. *)
Fixpoint drop_old (now : Z) (r : Records) : Records :=
  match r with
  | [] => []
  | (k, t) :: r' => if u64 (t + REPORT_LIMIT_MS) >? now then r else drop_old now r'
  end.

Definition ClearOverTimeRecord (now : Z) (r : Records) : Records :=
  match r with
  | [] => []
  | (_, earliest) :: _ => if earliest >? now then [] else drop_old now r
  end.

Definition ShouldReport (key : bytes) (r : Records) : bool := bool_decide (key ∉ r.*1).

Definition GetReportPath (e : Env) (uid : Z) (pathHolder eventName : bytes) (d : Store) : list bytes :=
  filter (λ p, FileExists e d p = true)
    (GetSandBoxPath uid (str "log") pathHolder (str "hiappevent") ::
     (if bool_decide (eventName = EVENT_MAIN_THREAD_JANK) || bool_decide (eventName = str "APP_FREEZE")
      then [GetSandBoxPath uid (str "log") pathHolder (str "watchdog")] else []) ++
     (if bool_decide (eventName = EVENT_RESOURCE_OVERLIMIT) then [GetSandBoxPath uid (str "log") pathHolder (str "resourcelimit")] else [])).

Definition ReportUserDataSize (e : Env) (uid : Z) (pathHolder eventName : bytes) (d : Store) (r : Records) : list Effect * Records :=
  let key := pathHolder ++ str "_" ++ eventName in
  let r := ClearOverTimeRecord (e_ms e) r in
  if negb (ShouldReport key r) then ([], r)
  else ([DataSize ((λ dir, (dir, GetFolderSize dir d)) <$> GetReportPath e uid pathHolder eventName d)], if bool_decide (length r < RECORD_MAX_CNT)%nat then r ++ [(key, e_ms e)] else r).

(** ** The publisher *)

(** The thread for events over the limits: what it was started with. *)
Record Job := mkJob { j_uid : Z; j_holder : bytes; j_event : Json; j_max : Z }.

Record Publisher := mkPublisher { files : Store; sendingThread_ : bool; sendingOverlimitThread_ : option Job; records : Records; log : list Effect }.

Definition IsAppListenedEvent (e : Env) (uid : Z) (eventName : bytes) (d : Store) : bool :=
  let basePath := GetSandBoxPath uid (str "base") (GetPathPlaceHolder e d uid) (str "cache/hiappevent") in
  if FileExists e d basePath then CheckAppListenedEvents e basePath eventName else false.

Definition specialEvents : list bytes := [EVENT_RESOURCE_OVERLIMIT; EVENT_SCROLL_JANK; EVENT_BATTERY_USAGE].

(** The event's object. *)
Definition event_json (eventName : bytes) (eventType : Z) (params : Json) : Json :=
  set_member "params" params (set_member "eventType" (JInt eventType) (set_member "name" (JString eventName) (set_member "domain" (JString (str "OS")) JNull))).

(** [PushEvent]. *)
Definition PushEvent (e : Env) (uid : Z) (eventName : bytes) (eventType : Z) (paramJson : bytes) (maxFileSizeBytes : Z) (p : Publisher) : Publisher :=
  if bool_decide (eventName = []) || bool_decide (paramJson = []) || (uid <? 0) then p else
  let d := files p in
  let pathHolder := GetPathPlaceHolder e d uid in
  let basePath := GetSandBoxPath uid (str "base") pathHolder (str "cache/hiappevent") in
  if negb (FileExists e d basePath)
  then mkPublisher (unlink (GetTempFilePath uid) d) (sendingThread_ p) (sendingOverlimitThread_ p) (records p) (log p ++ [Dropped (GetTempFilePath uid)])
  else if negb (CheckAppListenedEvents e basePath eventName) then p else
  match parse paramJson with
  | Some (JObject ms) =>
      let event := event_json eventName eventType (JObject ms) in
      if negb (e_dir e PATH_DIR) && negb (e_create e) then p else
      if negb (bool_decide (eventName ∈ specialEvents)) then
        let '(event, d) := SaveLogToSandBox e uid pathHolder event maxFileSizeBytes false d in
        let '(es, d) := SaveEventToSandBox e uid pathHolder event d in
        let '(es', r) := ReportUserDataSize e uid pathHolder eventName d (records p) in
        mkPublisher d (sendingThread_ p) (sendingOverlimitThread_ p) r (log p ++ es ++ es')
      else if bool_decide (eventName = EVENT_RESOURCE_OVERLIMIT) then
        mkPublisher d (sendingThread_ p)
          (match sendingOverlimitThread_ p with Some j => Some j | None => Some (mkJob uid pathHolder event maxFileSizeBytes) end) (records p) (log p)
      else
        let '(es, d) := WriteEventJson e event (GetTempFilePath uid) d in
        mkPublisher d true (sendingOverlimitThread_ p) (records p) (log p ++ es)
  | _ => p
  end.

(** [SendOverLimitEventToSandBox], when its thread runs. *)
Definition SendOverLimitEventToSandBox (e : Env) (p : Publisher) : Publisher :=
  match sendingOverlimitThread_ p with
  | None => p
  | Some j =>
      let needRefined := ShouldRefinedLogFileName e (j_uid j) (j_holder j) in
      let '(event, d) := SaveLogToSandBox e (j_uid j) (j_holder j) (j_event j) (j_max j) needRefined (files p) in
      let '(es, d) := SaveEventToSandBox e (j_uid j) (j_holder j) event d in
      let '(es', r) := ReportUserDataSize e (j_uid j) (j_holder j) EVENT_RESOURCE_OVERLIMIT d (records p) in
      mkPublisher d (sendingThread_ p) None r (log p ++ es ++ es')
  end.

(** [StringUtil::GetMidSubstr]. *)
Definition GetMidSubstr (input begin end_ : bytes) : bytes :=
  match find_sub begin input with
  | None => []
  | Some beginPos =>
      let rest := drop (beginPos + length begin) input in
      match find_sub end_ rest with None => [] | Some n => take n rest end
  end.

(** [FileUtil::CopyFile]: the new file is emptied first, and a disk that is full is
    no failure. *)
Definition CopyFile (e : Env) (src des : bytes) (d : Store) : option bytes * Store :=
  if negb (e_writable e des) then (None, d) else
  let emptied := put (resolve des) [] d in
  match open_file e src emptied with
  | None => (None, emptied)
  | Some text => (Some (fit e text), put (resolve des) (fit e text) emptied)
  end.

(** One file of [SendEventToSandBox]. *)
Definition send_file (e : Env) (p : Publisher) (srcPath : bytes) : Publisher :=
  let uidStr := GetMidSubstr srcPath FILE_PREFIX FILE_SUFFIX in
  if bool_decide (uidStr = []) then p else
  let uid := StrToInt uidStr in
  let d := files p in
  let desPath := GetSandBoxPath uid (str "base") (GetPathPlaceHolder e d uid) (str "cache/hiappevent") in
  let with_files d es := mkPublisher d (sendingThread_ p) (sendingOverlimitThread_ p) (records p) (log p ++ es) in
  if negb (FileExists e d desPath) then with_files (unlink srcPath d) [Dropped srcPath] else
  let '(copied, d) := CopyFile e srcPath (event_file e desPath) d in
  match copied with
  | None => with_files d []
  | Some text => with_files (unlink srcPath d) [Moved srcPath (event_file e desPath) text]
  end.

(** [SendEventToSandBox], when the thread has slept. *)
Definition SendEventToSandBox (e : Env) (p : Publisher) : Publisher :=
  if negb (sendingThread_ p) then p else
  let p := foldl (send_file e) p (e_order e (DirFiles PATH_DIR (files p))) in
  mkPublisher (files p) false (sendingOverlimitThread_ p) (records p) (log p).

Inductive Call :=
  | Push (e : Env) (uid : Z) (eventName : bytes) (eventType : Z) (paramJson : bytes) (maxFileSizeBytes : Z)
  | RunOverLimit (e : Env)
  | RunSending (e : Env).

Definition call_env (c : Call) : Env := match c with Push e _ _ _ _ _ | RunOverLimit e | RunSending e => e end.

Definition run_call (c : Call) (p : Publisher) : Publisher :=
  match c with
  | Push e uid name type text max => PushEvent e uid name type text max p
  | RunOverLimit e => SendOverLimitEventToSandBox e p
  | RunSending e => SendEventToSandBox e p
  end.

End Publish.

End EventPublish.
