(* ===== verification/PublishFacts.v ===== *)
(** * PublishFacts: what applications get of the events they listen to

    The files with several names and the sizes of folders; then the quota of the
    folder for logs, the accounting of delayed events, and that publishing for one
    application depends on no other files than the logs and the application's own. *)

From S2P Require Import Prelude Text DbFile Json LogStore FreezeRules Freeze Binder FreezeJson EventPublish.
From stdpp Require Import base gmap sets list numbers strings.

Local Open Scope Z_scope.

Module PublishFacts.
Import DbFile.DbFile (find_sub, is_digit).
Import JsonValue.
Import LogStore.LogStore (in_folder, IncludeTrailingPathDelimiter).
Import Binder.Binder (StrToInt).
Import EventPublish.EventPublish.

(** ** Sums over sets *)

Section Totals.
Context (f : nat → Z).

Definition total (g : nat → Z) (X : gset nat) : Z := sum_of g (elements X).

Lemma total_add g n (X : gset nat) : n ∉ X → total g ({[n]} ∪ X) = g n + total g X.
Proof. intros H. unfold total. rewrite (sum_of_perm _ _ _ (elements_union_singleton X n H)). apply sum_of_cons. Qed.

Lemma total_change g n k (X : gset nat) : (∀ m, m ≠ n → g m = f m) → g n <= f n + k → 0 <= k → total g X <= total f X + k.
Proof.
  intros Ho Hn Hk. assert (Hr : ∀ Y : gset nat, n ∉ Y → total g Y = total f Y).
  { intros Y HY. apply sum_of_ext. intros m Hm. apply Ho. intros ->. apply elem_of_elements in Hm. done. }
  destruct (decide (n ∈ X)) as [H|H].
  - rewrite (union_difference_singleton_L n X H), !total_add by set_solver. rewrite Hr by set_solver. lia.
  - rewrite Hr by done. lia.
Qed.

Lemma total_subset (X Y : gset nat) : (∀ n, 0 <= f n) → X ⊆ Y → total f X <= total f Y.
Proof.
  intros f_nonneg H. rewrite (union_difference_L X Y H). unfold total.
  rewrite (sum_of_perm _ _ _ (elements_disj_union X (Y ∖ X) ltac:(set_solver))), sum_of_app.
  pose proof (sum_of_nonneg f (elements (Y ∖ X)) ltac:(auto)). lia.
Qed.

End Totals.

(** ** Files and their names *)

(** Every name is of a file there is, and the next number is free. *)
Definition sound (d : Store) : Prop := ∀ path n, names d !! path = Some n → is_Some (nodes d !! n) ∧ (n < next_node d)%nat.

Lemma elem_of_folder_nodes n dir d : n ∈ folder_nodes dir d ↔ ∃ path, in_folder dir path = true ∧ names d !! path = Some n.
Proof.
  unfold folder_nodes, folder_names. rewrite elem_of_list_to_set, list_elem_of_fmap. split.
  - intros ([p m] & -> & H). apply list_elem_of_filter in H as [Hf Hm]. apply elem_of_map_to_list in Hm. eauto.
  - intros (p & Hf & Hm). exists (p, n). split; [done|]. apply list_elem_of_filter. split; [done|]. by apply elem_of_map_to_list.
Qed.

Lemma node_size_nonneg d n : 0 <= node_size d n.
Proof. unfold node_size, Zlen. lia. Qed.
#[export] Hint Resolve node_size_nonneg : core.

Lemma size_nonneg d path : 0 <= size_of d path.
Proof. unfold size_of. destruct (names d !! path); cbn; [auto|lia]. Qed.

Lemma folder_size_nonneg dir d : 0 <= folder_size dir d.
Proof. apply sum_of_nonneg. auto. Qed.

Lemma put_stays_sound path text d : sound d → sound (put path text d).
Proof.
  intros H p n. unfold put. destruct (names d !! path) as [m|] eqn:E; cbn [names nodes next_node].
  - intros Hp. destruct (H p n Hp). split; [|done]. destruct (decide (m = n)) as [->|]; [by simplify_map_eq|by rewrite lookup_insert_ne by done].
  - destruct (decide (path = p)) as [->|]; [rewrite lookup_insert_eq; intros [= <-]; split; [by simplify_map_eq|lia]|].
    rewrite lookup_insert_ne by done. intros Hp. destruct (H p n Hp) as [? Hn]. split; [|lia]. rewrite lookup_insert_ne by lia. done.
Qed.

Lemma link_sound a b d : sound d → sound (link a b d).
Proof.
  intros H. unfold link. destruct (names d !! a) as [m|] eqn:E; [|done]. destruct (names d !! b); [done|].
  intros p n. cbn [names nodes next_node]. destruct (decide (b = p)) as [->|]; [rewrite lookup_insert_eq; intros [= <-]; eauto|].
  rewrite lookup_insert_ne by done. eauto.
Qed.

Lemma unlink_sound a d : sound d → sound (unlink a d).
Proof. intros H p n. cbn [unlink names nodes next_node]. rewrite lookup_delete_Some. intros [_ Hp]. eauto. Qed.

Lemma folder_shrinks dir d d' :
  nodes d' = nodes d → (∀ path n, in_folder dir path = true → names d' !! path = Some n → n ∈ folder_nodes dir d) → folder_size dir d' <= folder_size dir d.
Proof.
  intros Hn Hs. unfold folder_size, node_size. rewrite Hn. apply (total_subset (node_size d)); [auto|].
  intros n (p & Hf & Hp)%elem_of_folder_nodes. eauto.
Qed.

Lemma unlink_size dir a d : folder_size dir (unlink a d) <= folder_size dir d.
Proof.
  apply folder_shrinks; [done|]. intros p n Hf. cbn [unlink names]. rewrite lookup_delete_Some. intros [_ Hp].
  apply elem_of_folder_nodes. eauto.
Qed.

Lemma link_size dir a b d : in_folder dir a = true → folder_size dir (link a b d) <= folder_size dir d.
Proof.
  intros Ha. unfold link. destruct (names d !! a) as [m|] eqn:E; [|lia]. destruct (names d !! b); [lia|].
  apply folder_shrinks; [done|]. cbn [names]. intros p n Hf Hp. apply elem_of_folder_nodes.
  destruct (decide (b = p)) as [->|]; [rewrite lookup_insert_eq in Hp; injection Hp as <-; eauto|].
  rewrite lookup_insert_ne in Hp by done. eauto.
Qed.

(** A file written anew makes the folder larger by what it is longer. *)
Lemma put_size dir path text d k :
  sound d → Zlen text <= size_of d path + k → 0 <= k → folder_size dir (put path text d) <= folder_size dir d + k.
Proof.
  intros Hs Hl Hk. unfold put, size_of in *. destruct (names d !! path) as [n|] eqn:E; cbn [from_option] in Hl.
  - unfold folder_size, folder_nodes, folder_names. cbn [names nodes].
    refine (total_change (node_size d) _ n k _ _ _ Hk).
    + intros m Hm. unfold node_size. cbn [nodes]. by rewrite lookup_insert_ne.
    + unfold node_size at 1. cbn [nodes]. rewrite lookup_insert_eq. exact Hl.
  - set (d' := mkStore _ _ _). set (n := next_node d) in *.
    assert (Hf : ∀ X : gset nat, n ∉ X → total (node_size d') X = total (node_size d) X).
    { intros X HX. apply sum_of_ext. intros m Hm%elem_of_elements. unfold node_size, d'. cbn [nodes].
      rewrite lookup_insert_ne; [done|]. intros <-. done. }
    assert (Hfree : n ∉ folder_nodes dir d) by (intros (p & _ & Hp)%elem_of_folder_nodes; apply Hs in Hp as [_ ?]; lia).
    transitivity (total (node_size d') ({[n]} ∪ folder_nodes dir d)).
    + apply total_subset; [auto|]. intros m (p & Hp & Hm)%elem_of_folder_nodes. cbn [d' names] in Hm.
      destruct (decide (path = p)) as [->|]; [rewrite lookup_insert_eq in Hm; injection Hm as <-; set_solver|].
      rewrite lookup_insert_ne in Hm by done. apply elem_of_union_r, elem_of_folder_nodes. eauto.
    + rewrite total_add, Hf by done. unfold node_size at 1, d'. cbn [nodes]. rewrite lookup_insert_eq.
      unfold folder_size. fold (total (node_size d) (folder_nodes dir d)). cbn in *. lia.
Qed.

(** ** The quota *)

Section Quota.
Context (ExtractFileName : bytes → bytes) (resolve : bytes → bytes).
Context (e : Env) (has_room : e_room e = None) (owner_set : e_chown e = true).

Lemma fit_all text : fit e text = text.
Proof. unfold fit. by rewrite has_room. Qed.

(** What a log may take beyond its size: the note that it was cut. *)
Definition note_size (maxFileSizeBytes : Z) : Z := if maxFileSizeBytes =? 0 then 0 else 11.

Lemma note_nonneg cap : 0 <= note_size cap.
Proof. unfold note_size. destruct (cap =? 0); lia. Qed.

Lemma open_size path text d : open_file resolve e path d = Some text → size_of d (resolve path) = Zlen text.
Proof.
  unfold open_file, read, size_of. destruct (e_readable e path); [|done]. destruct (names d !! resolve path) as [n|]; [|done]. cbn.
  unfold node_size. by intros ->.
Qed.

Lemma read_size path d : Zlen (default [] (read path d)) <= size_of d path.
Proof. unfold read, size_of, node_size. destruct (names d !! path); cbn; unfold Zlen; cbn; lia. Qed.

Lemma cut_size text cap : 0 <= cap → 
  let cut := negb (cap =? 0) && (Zlen text >? cap) in
  Zlen ((if cut then take (Z.to_nat cap) text else text) ++ (if cut then [10] ++ str "[truncated]" else [])) <= Zlen text + note_size cap.
Proof.
  intros Hc cut. unfold note_size, cut. destruct (Z.eqb_spec cap 0) as [->|H0]; cbn [negb andb].
  - rewrite app_nil_r. lia.
  - destruct (Zlen text >? cap) eqn:E; rewrite Zlen_app; [|change (Zlen []) with 0; lia].
    apply Z.gtb_lt in E. change (Zlen ([10] ++ str "[truncated]")) with 12. unfold Zlen in *. rewrite length_take. lia.
Qed.

Context (dir : bytes) (stays : ∀ path, in_folder dir path = true → in_folder dir (resolve path) = true).

Lemma in_dir name : in_folder dir (dir ++ str "/" ++ name) = true.
Proof.
  unfold in_folder, IncludeTrailingPathDelimiter. apply bool_decide_eq_true. case_bool_decide; [by exists (str "/" ++ name)|].
  exists name. by rewrite <- app_assoc.
Qed.

Lemma copy_size src name cap d ok d' :
  sound d → 0 <= cap → CopyFileFast resolve e src (dir ++ str "/" ++ name) cap d = (ok, d') →
  sound d' ∧ folder_size dir d' <= folder_size dir d + size_of d (resolve src) + note_size cap ∧
  (ok = false → folder_size dir d' <= folder_size dir d) ∧ (ok = true → is_Some (names d' !! resolve (dir ++ str "/" ++ name))).
Proof.
  intros Hs Hc. unfold CopyFileFast. destruct (open_file resolve e src d) as [text|] eqn:E.
  - destruct (e_writable e _); cbn [negb].
    + rewrite !fit_all, (open_size _ _ _ E), bool_decide_true by done. intros [= <- <-]. set (des := resolve _). match goal with |- context [put des (?n ++ _) d] => set (new := n) end.
      split; [by apply put_stays_sound|]. split; [|split; [done|]].
      * rewrite <- Z.add_assoc. apply put_size; [done| |pose proof (cut_size text cap Hc); unfold note_size, Zlen in *; destruct (cap =? 0); lia].
        assert (Hl : Zlen new <= Zlen text + note_size cap) by exact (cut_size text cap Hc). pose proof (read_size des d) as Hr. pose proof (size_nonneg d des). 
        rewrite Zlen_app. unfold Zlen in *. rewrite length_drop. clearbody new. lia.
      * intros _. unfold put. destruct (names d !! des) eqn:En; cbn [names]; [by rewrite En|]. by rewrite lookup_insert_eq.
    + intros [= <- <-]. pose proof (size_nonneg d (resolve src)). unfold note_size. split; [done|]. split; [destruct (cap =? 0); lia|]. by split; [lia|].
  - intros [= <- <-]. pose proof (size_nonneg d (resolve src)). unfold note_size. split; [done|]. split; [destruct (cap =? 0); lia|]. by split; [lia|].
Qed.

Lemma links_size dest links d :
  in_folder dir (resolve dest) = true → sound d →
  sound (CreateLinkFile resolve dest links d) ∧ folder_size dir (CreateLinkFile resolve dest links d) <= folder_size dir d.
Proof.
  intros Hd. unfold CreateLinkFile. revert d. induction links as [|l links IH]; intros d Hs; cbn [foldl]; [split; [done|lia]|].
  destruct (IH (link (resolve dest) (folder dest ++ str "/" ++ l) d) (link_sound _ _ _ Hs)) as [? ?].
  pose proof (link_size dir (resolve dest) (folder dest ++ str "/" ++ l) d Hd). split; [done|lia].
Qed.

(** The folder holds no more than what was counted, and the notes. *)
Definition within (i : ExternalLogInfo) (k : Copying) (done slack : Z) : Prop :=
  sound (disk k) ∧ 0 <= dirSize k <= maxFileSize i ∧ folder_size dir (disk k) <= dirSize k + done * slack.

Context (i : ExternalLogInfo) (its_dir : sandBoxLogPath i = dir) (limit : 0 <= maxFileSize i < 2 ^ 64).

Lemma copy_log_within params eventName cap refined k nl n :
  0 <= cap → 0 <= n → within i k n (note_size cap) →
  within i (copy_log ExtractFileName resolve e i params eventName cap refined k nl) (n + 1) (note_size cap).
Proof.
  intros Hcap Hn W. assert (Hk : ∀ a b l lk, within i (mkCopying (dirSize k) a l lk (disk k) b) (n + 1) (note_size cap)).
  { intros. destruct W as (? & ? & ?). split; [done|]. cbn [dirSize disk]. split; [done|]. pose proof (note_nonneg cap). nia. }
  assert (Hsame : within i k (n + 1) (note_size cap)) by (destruct k; apply Hk).
  destruct W as (Hs & Hd & Hf). unfold copy_log. destruct (stopped k); [done|].
  case_bool_decide; [by case_match; apply Hk|]. destruct (bool_decide (json_string nl.2 = []) || _); [done|].
  set (size := size_of (disk k) _). assert (Hz : 0 <= size) by apply size_nonneg.
  rewrite (u64_small (maxFileSize i - dirSize k)) by (unfold is_u; lia). destruct (Z.leb_spec size (maxFileSize i - dirSize k)) as [Hle|]; [|apply Hk].
  cbv zeta. set (des := if IsDmpFile _ then _ else _). case_bool_decide; [done|]. rewrite its_dir. unfold CopyExternalLog.
  destruct (CopyFileFast resolve e (json_string nl.2) (dir ++ str "/" ++ des) cap (disk k)) as [ok d] eqn:E.
  destruct (copy_size _ _ _ _ _ _ Hs Hcap E) as (Hs' & Hu & Hfail & _). fold size in Hu.
  destruct ok; cbn [negb].
  - rewrite owner_set. destruct (links_size (dir ++ str "/" ++ des) (GetLinkFileName des (observerNum i)) d (stays _ (in_dir _)) Hs') as [? Hl].
    split; [done|]. cbn [dirSize disk]. rewrite u64_small by (unfold is_u; lia). split; [lia|]. nia.
  - specialize (Hfail eq_refl). split; [done|]. cbn [dirSize disk]. split; [done|]. pose proof (note_nonneg cap). nia.
Qed.

Lemma copy_logs_within params eventName cap refined l : 0 <= cap → ∀ k n, 0 <= n → within i k n (note_size cap) →
  within i (foldl (copy_log ExtractFileName resolve e i params eventName cap refined) k l) (n + Zlen l) (note_size cap).
Proof.
  intros Hc. induction l as [|x l IH]; intros k n Hn W; cbn [foldl]; [by rewrite Z.add_0_r|].
  rewrite Zlen_cons, Z.add_assoc. apply IH; [lia|]. by apply copy_log_within.
Qed.

End Quota.

(** C23: The folder for logs in an application's sandbox keeps its quota.  If it holds no
    more than the quota, a file with several names counted once, then after the logs
    of an event were copied into it, with all their links, it holds no more than the
    quota and, where logs are cut to a size, eleven bytes for every log that was to
    be copied (the note that it was cut is longer than what the cut may save) -
    as long as the disk has room, owners can be set, and no link leads out of it. *)
Theorem sandbox_quota_kept (ExtractFileName resolve : bytes → bytes) (e : Env) (uid : Z) (pathHolder : bytes) (event event' : Json)
    (maxFileSizeBytes : Z) (needRefined : bool) (d d' : Store) :
  let i := GetExternalLogInfo e (json_string (member event (str "name"))) uid pathHolder in
  let dir := sandBoxLogPath i in
  sound d → e_room e = None → e_chown e = true → 0 <= maxFileSizeBytes →
  (∀ path, in_folder dir path = true → in_folder dir (resolve path) = true) →
  folder_size dir d <= maxFileSize i →
  SaveLogToSandBox ExtractFileName resolve e uid pathHolder event maxFileSizeBytes needRefined d = (event', d') →
  sound d' ∧
  folder_size dir d' <= maxFileSize i +
    Zlen (array (member (member event (str "params")) (str "external_log"))) * (if maxFileSizeBytes =? 0 then 0 else 11).
Proof.
  intros i dir Hs Hroom Hown Hcap Hstay Hq. unfold SaveLogToSandBox.
  assert (Hi : 0 <= maxFileSize i < 2 ^ 64).
  { unfold i, GetExternalLogInfo. repeat case_bool_decide; cbn [maxFileSize];
      unfold WATCHDOG_MAX_FILE_SIZE, RESOURCE_OVERLIMIT_MAX_FILE_SIZE, DMP_MAX_FILE_SIZE, MAX_FILE_SIZE; lia. }
  assert (Hend : sound d ∧ ∀ n, 0 <= n → folder_size dir d <= maxFileSize i + n * note_size maxFileSizeBytes)
    by (split; [done|]; intros n Hn; pose proof (note_nonneg maxFileSizeBytes); nia).
  destruct (member (member event (str "params")) (str "external_log")) as [| | | | |items|] eqn:E;
    try (intros [= _ <-]; split; [apply Hend|]; apply Hend; unfold Zlen; lia).
  destruct items as [|item items]; [intros [= _ <-]; split; [apply Hend|]; apply Hend; unfold Zlen; lia|].
  fold i. unfold CopyExternalLogsToSandBox. rewrite E. cbn [array]. set (all := item :: items). set (l := zip _ _).
  assert (Hl : Zlen l = Zlen all) by (unfold l, Zlen; rewrite length_zip_with, length_seq; lia).
  set (k0 := mkCopying _ _ _ _ _ _). set (k := foldl _ _ _). intros [= _ <-].
  assert (W : within dir i k (0 + Zlen l) (note_size maxFileSizeBytes)).
  { apply copy_logs_within; try done. unfold within, k0. cbn [disk dirSize]. pose proof (folder_size_nonneg dir d).
    unfold GetFolderSize. fold dir. rewrite u64_small by (unfold is_u; lia). split; [done|]. lia. }
  rewrite Hl in W. destruct W as (Hs' & Hd & Hf). split; [done|]. fold (note_size maxFileSizeBytes). lia.
Qed.
(** ** Delayed events *)

Lemma StrToInt_number n : 0 <= n < 2 ^ 31 → StrToInt (to_string n) = n.
Proof.
  intros Hn. unfold StrToInt, Binder.Binder.StrToInt_or. assert (Binder.Binder.parse_long (to_string n) = Some n) as ->.
  2: { cbn [from_option]. apply sgn_small; [lia|]. unfold is_s. lia. }
  assert (Hd : ∃ ds, to_string n = digit_char <$> ds ∧ take_digits 10 (to_string n) = ds ∧ value_of 10 ds = n).
  { unfold to_string. rewrite (proj2 (Z.ltb_ge n 0)) by lia. pose proof (read_print_base 10 ltac:(lia) n [] ltac:(lia) I) as HV.
    rewrite app_nil_r in HV. unfold print_base in *. eexists. split; [reflexivity|]. split; [|].
    - rewrite <- (app_nil_r (_ <$> _)). apply take_digits_chars; [lia| |done]. apply digs_range; lia.
    - revert HV. rewrite <- (app_nil_r (_ <$> _)) at 1. rewrite take_digits_chars; [done|lia|apply digs_range; lia|done]. }
  destruct (DbFile.DbFile.to_string_cons n ltac:(lia)) as (c & l & E & Hc). destruct Hd as (ds & E1 & E2 & E3).
  assert (c_str (to_string n) = to_string n) as Hs.
  { apply FreezeJson.FreezeJson.c_str_plain. intros H0%to_string_chars; lia. }
  unfold Binder.Binder.parse_long. rewrite E in *. rewrite Hs. unfold is_digit. rewrite (proj2 (Z.leb_le 48 c)), (proj2 (Z.leb_le c 57)) by lia. cbn [andb orb negb].
  unfold take_sign. rewrite (proj2 (Z.eqb_neq c 45)), (proj2 (Z.eqb_neq c 43)) by lia. rewrite E2, E3.
  assert (length (c :: l) = length ds) as Hl by (by rewrite E1, length_fmap). rewrite <- Hl, drop_all.
  rewrite bool_decide_false by (intros ->; done). rewrite bool_decide_true by done. cbn [negb orb].
  by rewrite (proj2 (Z.leb_le _ _)), (proj2 (Z.leb_le _ _)) by lia.
Qed.

Lemma to_string_inj n m : 0 <= n → 0 <= m → to_string n = to_string m → n = m.
Proof.
  intros Hn Hm E%(f_equal (λ s, value_of 10 (take_digits 10 s))). unfold to_string in E.
  rewrite !(proj2 (Z.ltb_ge _ _)) in E by lia.
  destruct (FreezeJson.FreezeJson.decimal_digits n Hn) as [_ E1], (FreezeJson.FreezeJson.decimal_digits m Hm) as [_ E2]. congruence.
Qed.

(** The parts of the temporary file's name. *)
Lemma temp_uid uid : 0 <= uid → GetMidSubstr (GetTempFilePath uid) FILE_PREFIX FILE_SUFFIX = to_string uid.
Proof.
  intros Hu. unfold GetMidSubstr, GetTempFilePath.
  assert (∀ r, find_sub FILE_PREFIX (PATH_DIR ++ FILE_PREFIX ++ r) = Some (length PATH_DIR)) as -> by (intros r; reflexivity).
  rewrite <- length_app, app_assoc, drop_app_length. change FILE_SUFFIX with (46 :: str "evt").
  pose proof (FreezeJson.FreezeJson.find_sub_first 46 (str "evt") (to_string uid) []) as HF. rewrite app_nil_r in HF.
  rewrite HF; [by rewrite take_app_length|]. intros H%to_string_chars; lia.
Qed.

(** *** Paths of applications *)

Definition APP_DIR : bytes := str "/data/app/el2/".
Definition in_app (path : bytes) : Prop := APP_DIR `prefix_of` path.

Lemma in_app_app path rest : in_app path → in_app (path ++ rest).
Proof. apply prefix_app_r. Qed.

Lemma sandbox_in_app uid dir holder sub : holder ≠ [] → dir ≠ [] → in_app (GetSandBoxPath uid dir holder sub).
Proof. intros. unfold GetSandBoxPath. rewrite !bool_decide_false by done. apply prefix_app_r. done. Qed.

Lemma app_not_temp path uid : in_app path → path ≠ GetTempFilePath uid.
Proof. intros [r ->]. discriminate. Qed.

Lemma find_char c a b : ∃ n, find_sub [c] (a ++ c :: b) = Some n ∧ (n <= length a)%nat.
Proof.
  induction a as [|x a (n & IH & Hn)]; cbn [app find_sub].
  - exists 0%nat. rewrite bool_decide_true by (by exists b). split; [done|lia].
  - case_bool_decide; [exists 0%nat; split; [done|lia]|]. rewrite IH. exists (S n). split; [done|]. cbn. lia.
Qed.

Lemma folder_in_app path rest : in_app path → in_app (folder (path ++ str "/" ++ rest)).
Proof.
  intros H. unfold folder, cut_last. change (str "/" ++ rest) with (47 :: rest). rewrite reverse_app, reverse_cons, <- app_assoc.
  destruct (find_char 47 (reverse rest) (reverse path)) as (n & E & Hn). cbn [app] in *. rewrite E. cbn [from_option fst].
  rewrite length_app. cbn [length]. rewrite length_reverse in Hn.
  replace (length path + S (length rest) - n - 1)%nat with (length path + (length rest - n))%nat by lia.
  rewrite take_app_add. by apply in_app_app.
Qed.

(** *** Changes that leave a file alone *)

Section Delayed.
Context (ExtractFileName resolve : bytes → bytes) (parse : bytes → option Json) (write : Json → bytes).
Context (uid : Z) (uid_range : 0 <= uid < 2 ^ 31).
Let T : bytes := GetTempFilePath uid.
Context (plain : resolve T = T) (no_link : ∀ path, resolve path = T → path = T).

(** No other name is of the same file. *)
Definition alone (d : Store) : Prop := ∀ path n, names d !! path = Some n → names d !! T = Some n → path = T.

Definition apart (d d' : Store) : Prop :=
  sound d → alone d → sound d' ∧ alone d' ∧ names d' !! T = names d !! T ∧ read T d' = read T d.

Lemma apart_refl d : apart d d.
Proof. done. Qed.

Lemma apart_trans d1 d2 d3 : apart d1 d2 → apart d2 d3 → apart d1 d3.
Proof. intros H1 H2 Hs Ha. destruct (H1 Hs Ha) as (Hs2 & Ha2 & E1 & E2), (H2 Hs2 Ha2) as (Hs3 & Ha3 & E3 & E4). split; [exact Hs3|]. split; [exact Ha3|]. by rewrite E3, E4. Qed.

Lemma apart_foldl {A} (f : Store → A → Store) l : (∀ d x, apart d (f d x)) → ∀ d, apart d (foldl f d l).
Proof. intros H. induction l as [|x l IH]; intros d; [apply apart_refl|]. cbn. eapply apart_trans; [apply H|apply IH]. Qed.

Lemma put_apart path text d : path ≠ T → apart d (put path text d).
Proof.
  intros Hp Hs Ha. split; [by apply put_stays_sound|]. unfold put. destruct (names d !! path) as [n|] eqn:E.
  - split; [done|]. split; [done|]. unfold read. cbn [names nodes]. destruct (names d !! T) as [m|] eqn:ET; [|done]. cbn.
    rewrite lookup_insert_ne; [done|]. intros ->. apply Hp. by apply (Ha path m).
  - cbn [names]. rewrite lookup_insert_ne by done. split; [|split; [done|]].
    + intros q n. cbn [names]. rewrite (lookup_insert_ne _ path T) by done. intros Hq HT. destruct (decide (path = q)) as [->|].
      * rewrite lookup_insert_eq in Hq. injection Hq as <-. apply Hs in HT as [_ ?]. lia.
      * rewrite lookup_insert_ne in Hq by done. by apply (Ha q n).
    + unfold read. cbn [names nodes]. rewrite lookup_insert_ne by done. destruct (names d !! T) as [m|] eqn:ET; [|done]. cbn.
      apply Hs in ET as [_ ?]. by rewrite lookup_insert_ne by lia.
Qed.

Lemma link_apart a b d : a ≠ T → b ≠ T → apart d (link a b d).
Proof.
  intros Hna Hb Hs Ha. split; [by apply link_sound|]. unfold link. destruct (names d !! a) as [n|] eqn:E; [|done].
  destruct (names d !! b); [done|]. unfold read. cbn [names nodes]. rewrite lookup_insert_ne by done. split; [|done].
  intros q m. cbn [names]. rewrite (lookup_insert_ne _ b T) by done. intros Hq HT. destruct (decide (b = q)) as [->|].
  - rewrite lookup_insert_eq in Hq. injection Hq as <-. destruct Hna. by apply (Ha a n).
  - rewrite lookup_insert_ne in Hq by done. by apply (Ha q m).
Qed.

Lemma unlink_apart a d : a ≠ T → apart d (unlink a d).
Proof.
  intros Hn Hs Ha. split; [by apply unlink_sound|]. unfold read. cbn [unlink names nodes]. rewrite lookup_delete_ne by done. split; [|done].
  intros q m. cbn [unlink names]. rewrite (lookup_delete_ne _ a T) by done. intros [_ Hq]%lookup_delete_Some HT. by apply (Ha q m).
Qed.

Lemma resolved path : path ≠ T → resolve path ≠ T.
Proof. intros H E. by apply H, no_link. Qed.

Lemma app_apart path : in_app path → path ≠ T.
Proof. apply app_not_temp. Qed.

Lemma copy_apart e src dir des cap lks d :
  in_app dir → apart d (CopyExternalLog resolve e src (dir ++ str "/" ++ des) cap lks d).2.
Proof.
  intros H. unfold CopyExternalLog, CopyFileFast.
  pose proof (resolved _ (app_apart _ (in_app_app _ (str "/" ++ des) H))) as Hr.
  destruct (open_file resolve e src d) as [text|]; [|apply apart_refl]. destruct (e_writable e _); cbn [negb]; [|apply apart_refl].
  set (d1 := put _ _ d). assert (H1 : apart d d1) by by apply put_apart.
  assert (Hl : ∀ l, folder (dir ++ str "/" ++ des) ++ str "/" ++ l ≠ T) by (intros l; by apply app_apart, in_app_app, folder_in_app).
  destruct (bool_decide _); cbn [negb]; [|done].
  assert (H2 : apart d (CreateLinkFile resolve (dir ++ str "/" ++ des) lks d1)).
  { eapply apart_trans; [exact H1|]. apply apart_foldl. intros. by apply link_apart. }
  destruct (e_chown e); [done|]. cbn [snd]. eapply apart_trans; [exact H2|]. eapply apart_trans; [apply unlink_apart, app_apart, in_app_app, H|].
  apply apart_foldl. intros. by apply unlink_apart.
Qed.

Lemma copy_log_apart e i params eventName cap refined k nl :
  in_app (sandBoxLogPath i) → apart (disk k) (disk (copy_log ExtractFileName resolve e i params eventName cap refined k nl)).
Proof.
  intros H. unfold copy_log. destruct (stopped k); [apply apart_refl|]. case_bool_decide; [case_match; apply apart_refl|].
  destruct (bool_decide _ || _); [apply apart_refl|]. destruct (_ <=? _); [|apply apart_refl]. cbv zeta.
  set (des := if IsDmpFile _ then _ else _). case_bool_decide; [apply apart_refl|].
  pose proof (copy_apart e (json_string nl.2) _ des cap (GetLinkFileName des (observerNum i)) (disk k) H) as HC.
  destruct (CopyExternalLog _ _ _ _ _ _ _) as [ok d]. by destruct ok.
Qed.

Lemma log_dir_in_app e name holder u : holder ≠ [] → in_app (sandBoxLogPath (GetExternalLogInfo e name u holder)).
Proof. intros. unfold GetExternalLogInfo. repeat case_bool_decide; by apply sandbox_in_app. Qed.

Lemma save_log_apart e u holder event cap refined d :
  holder ≠ [] → apart d (SaveLogToSandBox ExtractFileName resolve e u holder event cap refined d).2.
Proof.
  intros H. unfold SaveLogToSandBox. destruct (member (member event _) _) as [| | | | |[|]|]; try apply apart_refl.
  unfold CopyExternalLogsToSandBox. cbn [snd]. set (f := copy_log _ _ _ _ _ _ _ _). set (l0 := zip _ _).
  assert (∀ q k, apart (disk k) (disk (foldl f k q))) as HF.
  { induction q as [|x q IH]; intros k; [apply apart_refl|]. cbn. eapply apart_trans; [|apply IH]. by apply copy_log_apart, log_dir_in_app. }
  exact (HF l0 (mkCopying (GetFolderSize _ d) false [] [] d false)).
Qed.


(** *** The account *)

Definition text_of (path : bytes) (x : Effect) : option bytes :=
  match x with Wrote p text => if bool_decide (p = path) then Some text else None | _ => None end.
Definition moved_of (path : bytes) (x : Effect) : option bytes :=
  match x with Moved p _ text => if bool_decide (p = path) then Some text else None | _ => None end.

(** What was written to a file, what was moved from it, and what is there. *)
Definition written (path : bytes) (l : list Effect) : bytes := mjoin (omap (text_of path) l).
Definition moved (path : bytes) (l : list Effect) : bytes := mjoin (omap (moved_of path) l).
Definition waiting (path : bytes) (d : Store) : bytes := default [] (read path d).

Lemma written_app path l l' : written path (l ++ l') = written path l ++ written path l'.
Proof. unfold written. by rewrite omap_app, join_app. Qed.
Lemma moved_app path l l' : moved path (l ++ l') = moved path l ++ moved path l'.
Proof. unfold moved. by rewrite omap_app, join_app. Qed.

(** Effects that neither write nor move the file. *)
Definition silent (l : list Effect) : Prop := omap (text_of T) l = [] ∧ omap (moved_of T) l = [].

Lemma silent_app l l' : silent l → silent l' → silent (l ++ l').
Proof. intros [H1 H2] [H3 H4]. split; rewrite omap_app; [by rewrite H1, H3|by rewrite H2, H4]. Qed.

Lemma report_silent e event : silent (ReportAppEventSend e event).
Proof. unfold ReportAppEventSend. repeat case_match; done. Qed.

Lemma size_silent e u h n d r : silent (ReportUserDataSize resolve e u h n d r).1.
Proof. unfold ReportUserDataSize. case_match; done. Qed.

Record account (p : Publisher) : Prop := {
  acc_sound : sound (files p);
  acc_alone : alone (files p);
  acc_texts : written T (log p) = moved T (log p) ++ waiting T (files p);
  acc_thread : is_Some (names (files p) !! T) → sendingThread_ p = true;
  acc_job : ∀ j, sendingOverlimitThread_ p = Some j → j_holder j ≠ []
}.

Lemma account_step p d th job r l :
  account p → apart (files p) d → silent l → (sendingThread_ p = true → th = true) → (∀ j, job = Some j → j_holder j ≠ []) →
  account (mkPublisher d th job r (log p ++ l)).
Proof.
  intros A Hd [Hw Hm] Ht Hj. destruct (Hd (acc_sound p A) (acc_alone p A)) as (Hs & Ha & En & Er).
  constructor; cbn [files log sendingThread_ sendingOverlimitThread_]; [done|done| | |done].
  - assert (written T l = []) as El by (unfold written; by rewrite Hw). assert (moved T l = []) as Em by (unfold moved; by rewrite Hm).
    rewrite written_app, moved_app, El, Em, !app_nil_r. unfold waiting. rewrite Er. apply (acc_texts p A).
  - rewrite En. intros H. by apply Ht, (acc_thread p A).
Qed.

Lemma event_file_apart e dir : event_file e dir ≠ T.
Proof.
  intros E%(f_equal (λ s, take 4 (reverse s))). revert E. unfold event_file, T, GetTempFilePath.
  change FILE_SUFFIX with (str ".evt"). rewrite !app_assoc, !(reverse_app _ (str _)).
  assert (∀ x, take 4 (reverse (str ".txt") ++ x) = reverse (str ".txt")) as -> by done.
  assert (∀ x, take 4 (reverse (str ".evt") ++ x) = reverse (str ".evt")) as -> by done.
  intros E. vm_compute in E. discriminate.
Qed.

Lemma write_event_apart e event path d :
  path ≠ T → apart d (WriteEventJson resolve write e event path d).2 ∧ silent (WriteEventJson resolve write e event path d).1.
Proof.
  intros Hp. unfold WriteEventJson. destruct (e_writable e path); [|split; [apply apart_refl|done]]. cbn [fst snd].
  split; [by apply put_apart, resolved|]. apply (silent_app [_]); [|apply report_silent]. split; cbn; [|done]. by rewrite bool_decide_false.
Qed.

(** The application's sandbox is there. *)
Definition ready (e : Env) : Prop :=
  ∀ d, FileExists resolve e d (GetSandBoxPath uid (str "base") (GetPathPlaceHolder resolve e d uid) (str "cache/hiappevent")) = true.

Definition fine (c : Call) : Prop :=
  match c with
  | Push e u _ _ _ _ => u = uid → ready e
  | RunOverLimit e => True
  | RunSending e => ready e ∧ e_readable e T = true ∧ e_room e = None ∧ (∀ path, e_writable e path = true) ∧ (∀ l, e_order e l ≡ₚ l)
  end.

Lemma holder_there e d u h : FileExists resolve e d (GetSandBoxPath u (str "base") h (str "cache/hiappevent")) = true → h ≠ [].
Proof. intros H ->. discriminate. Qed.


Lemma save_event_apart e u holder event d :
  let r := SaveEventToSandBox resolve write e u holder event d in apart d r.2 ∧ silent r.1.
Proof. apply write_event_apart, event_file_apart. Qed.

Lemma temp_differs u : 0 <= u → u ≠ uid → GetTempFilePath u ≠ T.
Proof.
  intros Hu Hne E%(f_equal (λ x, GetMidSubstr x FILE_PREFIX FILE_SUFFIX)). cbv beta in E. unfold T in E.
  rewrite !temp_uid in E by lia. apply Hne. apply to_string_inj in E; [done|lia|lia].
Qed.

Lemma put_self text d : sound d → alone d → alone (put T text d) ∧ read T (put T text d) = Some text ∧ is_Some (names (put T text d) !! T).
Proof.
  intros Hs Ha. unfold put, read. destruct (names d !! T) as [n|] eqn:E; cbn [names nodes].
  - rewrite E. cbn. rewrite lookup_insert_eq. done.
  - rewrite lookup_insert_eq. cbn. rewrite lookup_insert_eq. split; [|eauto]. intros q m. cbn [names].
    destruct (decide (T = q)) as [<-|]; [done|]. rewrite lookup_insert_ne by done. rewrite lookup_insert_eq. intros Hq [= <-].
    apply Hs in Hq as [_ ?]. lia.
Qed.

(** Writing the event into the file. *)
Lemma write_temp_account e event p th :
  account p → th = true → let r := WriteEventJson resolve write e event T (files p) in
  account (mkPublisher r.2 th (sendingOverlimitThread_ p) (records p) (log p ++ r.1)).
Proof.
  intros A ->. unfold WriteEventJson. set (text := write _). rewrite plain.
  destruct (e_writable e T); cbn [fst snd]; [|apply account_step; [done|apply apart_refl|done|done|apply (acc_job p A)]].
  fold (waiting T (files p)). destruct (put_self (waiting T (files p) ++ text) (files p) (acc_sound p A) (acc_alone p A)) as (Ha & Er & _).
  constructor; cbn [files log sendingThread_ sendingOverlimitThread_]; [apply put_stays_sound, (acc_sound p A)|done| |done|apply (acc_job p A)].
  destruct (report_silent e (RemoveEventInternalField event)) as [Hw Hm].
  set (rep := ReportAppEventSend _ _) in *. change (Wrote T text :: rep) with ([Wrote T text] ++ rep).
  assert (written T rep = []) as E1 by (unfold written; by rewrite Hw). assert (moved T rep = []) as E2 by (unfold moved; by rewrite Hm).
  rewrite !written_app, !moved_app, E1, E2, (acc_texts p A). unfold waiting at 2. rewrite Er.
  assert (written T [Wrote T text] = text) as -> by (unfold written; cbn; rewrite bool_decide_true by done; cbn; apply app_nil_r).
  assert (moved T [Wrote T text] = []) as -> by done. cbn [default]. by rewrite !app_nil_r, <- app_assoc.
Qed.

Lemma push_account e u name type text cap p :
  (u = uid → ready e) → account p → account (PushEvent ExtractFileName resolve parse write e u name type text cap p).
Proof.
  intros Hr A. unfold PushEvent. destruct (_ || _ || (u <? 0)) eqn:Ea; [done|]. apply orb_false_iff in Ea as [_ Hu].
  set (h := GetPathPlaceHolder resolve e (files p) u). destruct (FileExists resolve e (files p) _) eqn:Ef; cbn [negb].
  2: { assert (u ≠ uid) as Hne by (intros ->; specialize (Hr eq_refl (files p)); unfold h in Ef; congruence).
       assert (GetTempFilePath u ≠ T) as Ht by (apply temp_differs; lia).
       apply account_step; [done|by apply unlink_apart|done|done|apply (acc_job p A)]. }
  apply holder_there in Ef. destruct (CheckAppListenedEvents _ _ _); cbn [negb]; [|done].
  destruct (parse text) as [[| | | | | |ms]|]; try done. destruct (negb _ && negb _); [done|].
  set (event := event_json _ _ _).
  case_bool_decide; cbn [negb].
  - case_bool_decide.
    + rewrite <- (app_nil_r (log p)). apply account_step; [done|apply apart_refl|done|done|].
      intros j. destruct (sendingOverlimitThread_ p) as [j0|] eqn:Ej; intros [= <-]; [by apply (acc_job p A)|done].
    + destruct (decide (u = uid)) as [->|Hne].
      * pose proof (write_temp_account e event p true A eq_refl) as HW. by destruct (WriteEventJson _ _ _ _ _ _) as [es d].
      * assert (GetTempFilePath u ≠ T) as Ht by (apply temp_differs; lia).
        destruct (write_event_apart e event _ (files p) Ht) as [H1 H2]. destruct (WriteEventJson _ _ _ _ _ _) as [es d]. cbn [fst snd] in *.
        apply account_step; [done..|apply (acc_job p A)].
  - destruct (SaveLogToSandBox _ _ _ _ _ _ _ _ _) as [event' d1] eqn:E1.
    pose proof (save_log_apart e u h event cap false (files p) Ef) as H1. rewrite E1 in H1. cbn [snd] in H1.
    destruct (save_event_apart e u h event' d1) as [H2 H3]. destruct (SaveEventToSandBox _ _ _ _ _ _ _) as [es d2]. cbn [fst snd] in H2, H3.
    pose proof (size_silent e u h name d2 (records p)) as H4. destruct (ReportUserDataSize _ _ _ _ _ _ _) as [es' r]. cbn [fst] in H4.
    apply account_step; [done|by eapply apart_trans|by apply silent_app|done|apply (acc_job p A)].
Qed.

(** Copying another file away. *)
Lemma send_other e p src : src ≠ T → account p → account (send_file resolve e p src) ∧ names (files (send_file resolve e p src)) !! T = names (files p) !! T ∧ sendingThread_ (send_file resolve e p src) = sendingThread_ p.
Proof.
  intros Hn A. assert (∀ d l, apart (files p) d → silent l →
    let q := mkPublisher d (sendingThread_ p) (sendingOverlimitThread_ p) (records p) (log p ++ l) in
    account q ∧ names (files q) !! T = names (files p) !! T ∧ sendingThread_ q = sendingThread_ p) as HS.
  { intros d l Hd Hl q. split; [apply account_step; try done; apply (acc_job p A)|]. split; [|done].
    by destruct (Hd (acc_sound p A) (acc_alone p A)) as (_ & _ & ? & _). }
  unfold send_file. case_bool_decide; [done|]. set (des := GetSandBoxPath _ _ _ _). destruct (FileExists _ _ _ des); cbn [negb].
  2: { apply HS; [by apply unlink_apart|]. split; [done|]. by cbn. }
  assert (resolve (event_file e des) ≠ T) as Hr by apply resolved, event_file_apart.
  unfold CopyFile. destruct (e_writable e _); cbn [negb]; [|apply HS; [apply apart_refl|done]].
  assert (H1 : apart (files p) (put (resolve (event_file e des)) [] (files p))) by by apply put_apart.
  destruct (open_file resolve e src _) as [text|]; [|by apply HS].
  apply HS; [eapply apart_trans; [exact H1|]; eapply apart_trans; [by apply put_apart|by apply unlink_apart]|].
  split; [done|]. cbn. by rewrite bool_decide_false.
Qed.

(** Copying the file away. *)
Lemma send_self e p : fine (RunSending e) → is_Some (names (files p) !! T) → account p →
  account (send_file resolve e p T) ∧ names (files (send_file resolve e p T)) !! T = None ∧ sendingThread_ (send_file resolve e p T) = sendingThread_ p.
Proof.
  intros (Hready & Hread & Hroom & Hwrite & _) HT A. unfold send_file. assert (GetMidSubstr T FILE_PREFIX FILE_SUFFIX = to_string uid) as -> by (apply temp_uid; lia).
  rewrite bool_decide_false by (destruct (DbFile.DbFile.to_string_cons uid ltac:(lia)) as (? & ? & -> & _); done).
  cbv zeta. rewrite StrToInt_number by lia. rewrite Hready. cbn [negb]. set (des := GetSandBoxPath _ _ _ _). unfold CopyFile. rewrite Hwrite. cbn [negb].
  assert (resolve (event_file e des) ≠ T) as Hr by apply resolved, event_file_apart.
  set (d1 := put _ [] _). assert (H1 : apart (files p) d1) by by apply put_apart.
  destruct (H1 (acc_sound p A) (acc_alone p A)) as (Hs1 & Ha1 & En1 & Er1).
  assert (open_file resolve e T d1 = Some (waiting T (files p))) as ->.
  { unfold open_file. rewrite Hread, plain, Er1. unfold waiting, read. destruct HT as [n Hn]. rewrite Hn. cbn.
    by destruct (acc_sound p A _ _ Hn) as [[t ->] _]. }
  unfold fit. rewrite Hroom. cbn [from_option]. unfold id. set (text := waiting T (files p)). set (d2 := put _ text d1).
  destruct (put_apart _ text d1 Hr Hs1 Ha1) as (Hs2 & Ha2 & En2 & Er2). fold d2 in Hs2, Ha2, En2, Er2.
  assert (Hgone : names (unlink T d2) !! T = None) by (cbn [unlink names]; apply lookup_delete_eq).
  split; [|done]. constructor; cbn [files log sendingThread_ sendingOverlimitThread_].
  - by apply unlink_sound.
  - intros q n. rewrite Hgone. done.
  - rewrite written_app, moved_app. assert (written T [Moved T (event_file e des) text] = []) as -> by done.
    assert (moved T [Moved T (event_file e des) text] = text) as -> by (unfold moved; cbn; rewrite bool_decide_true by done; cbn; apply app_nil_r).
    unfold waiting at 1, read. rewrite Hgone. cbn. rewrite !app_nil_r. apply (acc_texts p A).
  - rewrite Hgone. by intros [].
  - apply (acc_job p A).
Qed.


Lemma send_others e l : T ∉ l → ∀ p, account p → let q := foldl (send_file resolve e) p l in
  account q ∧ names (files q) !! T = names (files p) !! T ∧ sendingThread_ q = sendingThread_ p.
Proof.
  induction l as [|x l IH]; intros Hn p A; [done|]. apply not_elem_of_cons in Hn as [Hx Hl]. cbn [foldl].
  destruct (send_other e p x (not_eq_sym Hx) A) as (A' & En & Et). destruct (IH Hl _ A') as (A'' & En' & Et').
  split; [done|]. by rewrite En', Et'.
Qed.

Lemma temp_listed d : T ∈ DirFiles PATH_DIR d ↔ is_Some (names d !! T).
Proof.
  unfold DirFiles, folder_names. rewrite list_elem_of_filter, list_elem_of_fmap. split.
  - intros (_ & [q n] & -> & H). apply list_elem_of_filter in H as [_ H%elem_of_map_to_list]. by exists n.
  - intros [n Hn]. split.
    + assert (T = IncludeTrailingPathDelimiter PATH_DIR ++ str "hiappevent_" ++ to_string uid ++ FILE_SUFFIX) as -> by done.
      rewrite drop_app_length, !not_elem_of_app. split; [by apply (bool_decide_eq_true_1 (47 ∉ str _))|].
      split; [intros H%to_string_chars; lia|]. by apply (bool_decide_eq_true_1 (47 ∉ FILE_SUFFIX)).
    + exists (T, n). split; [done|]. apply list_elem_of_filter. split; [|by apply elem_of_map_to_list].
      cbn [fst]. unfold in_folder. apply bool_decide_eq_true. by exists (str "hiappevent_" ++ to_string uid ++ FILE_SUFFIX).
Qed.

Lemma listed_once dir d : NoDup (DirFiles dir d).
Proof.
  unfold DirFiles, folder_names. apply NoDup_filter. assert (∀ l : list (bytes * nat), NoDup l.*1 → NoDup (filter (λ pn, in_folder dir pn.1 = true) l).*1) as HF.
  { intros l H. eapply sublist_NoDup; [exact H|]. apply fmap_sublist, sublist_filter. }
  apply HF, NoDup_fst_map_to_list.
Qed.

Lemma send_account e p : fine (RunSending e) → account p → account (SendEventToSandBox resolve e p).
Proof.
  intros Hf A. unfold SendEventToSandBox. destruct (sendingThread_ p) eqn:Et; cbn [negb]; [|done].
  destruct Hf as (Hready & Hread & Hroom & Hwrite & Hperm). set (l := e_order e _).
  assert (Hl : l ≡ₚ DirFiles PATH_DIR (files p)) by apply Hperm.
  assert (Hnd : NoDup l) by (rewrite Hl; apply listed_once).
  assert (∃ q, q = foldl (send_file resolve e) p l ∧ account q ∧ names (files q) !! T = None) as (q & <- & Aq & Eq).
  { destruct (names (files p) !! T) as [n|] eqn:En.
    - assert (T ∈ l) as Hin by (rewrite Hl; apply temp_listed; eauto). apply list_elem_of_split in Hin as (l1 & l2 & El).
      rewrite El in Hnd. apply NoDup_app in Hnd as (_ & Hd & H2). apply NoDup_cons in H2 as [H2 _].
      eexists. split; [reflexivity|]. rewrite El, foldl_app. cbn [foldl].
      destruct (send_others e l1) with (p := p) as (A1 & E1 & _); [intros H; by apply (Hd T H); left|done|].
      destruct (send_self e (foldl (send_file resolve e) p l1)) as (A2 & E2 & _); [done|by rewrite E1, En|done|].
      destruct (send_others e l2 H2 _ A2) as (A3 & E3 & _). split; [done|]. by rewrite E3.
    - assert (T ∉ l) as Hin by (rewrite Hl, temp_listed, En; by intros []).
      destruct (send_others e l Hin p A) as (A1 & E1 & _). eexists. split; [reflexivity|]. split; [done|]. by rewrite E1. }
  constructor; cbn [files log sendingThread_ sendingOverlimitThread_]; try apply Aq. rewrite Eq. by intros [].
Qed.

Lemma over_limit_account e p : account p → account (SendOverLimitEventToSandBox ExtractFileName resolve write e p).
Proof.
  intros A. unfold SendOverLimitEventToSandBox. destruct (sendingOverlimitThread_ p) as [j|] eqn:Ej; [|done].
  pose proof (acc_job p A j Ej) as Hh. set (refined := ShouldRefinedLogFileName _ _ _).
  destruct (SaveLogToSandBox _ _ _ _ _ _ _ _ _) as [event' d1] eqn:E1.
  pose proof (save_log_apart e (j_uid j) (j_holder j) (j_event j) (j_max j) refined (files p) Hh) as H1. rewrite E1 in H1. cbn [snd] in H1.
  destruct (save_event_apart e (j_uid j) (j_holder j) event' d1) as [H2 H3]. destruct (SaveEventToSandBox _ _ _ _ _ _ _) as [es d2]. cbn [fst snd] in H2, H3.
  pose proof (size_silent e (j_uid j) (j_holder j) EVENT_RESOURCE_OVERLIMIT d2 (records p)) as H4. destruct (ReportUserDataSize _ _ _ _ _ _ _) as [es' r]. cbn [fst] in H4.
  apply account_step; [done|by eapply apart_trans|by apply silent_app|done|done].
Qed.

Lemma calls_account calls : Forall fine calls → ∀ p, account p →
  account (foldl (λ p c, run_call ExtractFileName resolve parse write c p) p calls).
Proof.
  induction 1 as [|c calls Hc _ IH]; intros p A; [done|]. cbn [foldl]. apply IH.
  destruct c; cbn [run_call]; [by apply push_account|by apply over_limit_account|by apply send_account].
Qed.

(** Where the file goes. *)
Definition own_sandbox (es : list Env) (x : Effect) : Prop :=
  match x with
  | Moved src des _ => src = T → ∃ e d, e ∈ es ∧ des = event_file e (GetSandBoxPath uid (str "base") (GetPathPlaceHolder resolve e d uid) (str "cache/hiappevent"))
  | _ => True
  end.

Lemma report_own es e event : Forall (own_sandbox es) (ReportAppEventSend e event).
Proof. unfold ReportAppEventSend. repeat case_match; try done. by repeat constructor. Qed.

Lemma write_own es e event path d : Forall (own_sandbox es) (WriteEventJson resolve write e event path d).1.
Proof. unfold WriteEventJson. destruct (e_writable e path); cbn [fst]; [|constructor]. constructor; [done|apply report_own]. Qed.

Lemma size_own es e u h n d r : Forall (own_sandbox es) (ReportUserDataSize resolve e u h n d r).1.
Proof. unfold ReportUserDataSize. case_match; cbn [fst]; [constructor|by repeat constructor]. Qed.

Lemma send_own e p src es : e ∈ es → Forall (own_sandbox es) (log p) → Forall (own_sandbox es) (log (send_file resolve e p src)).
Proof.
  intros He H. unfold send_file. case_bool_decide; [done|]. cbv zeta. destruct (FileExists _ _ _ _); cbn [negb].
  - unfold CopyFile. destruct (e_writable e _); cbn [negb]; [destruct (open_file _ _ _ _)|]; cbn [log]; apply Forall_app; split; try done;
      repeat constructor. intros ->. assert (GetMidSubstr T FILE_PREFIX FILE_SUFFIX = to_string uid) as -> by (apply temp_uid; lia).
    rewrite StrToInt_number by lia. eauto.
  - cbn [log]. apply Forall_app. by split; [|repeat constructor].
Qed.

Lemma call_own c p es : call_env c ∈ es → Forall (own_sandbox es) (log p) →
  Forall (own_sandbox es) (log (run_call ExtractFileName resolve parse write c p)).
Proof.
  intros He H. destruct c as [e u name type text cap|e|e]; cbn [run_call call_env] in *.
  - unfold PushEvent. destruct (_ || _ || _); [done|]. destruct (FileExists _ _ _ _); cbn [negb]; [|apply Forall_app; by split; [|repeat constructor]].
    destruct (CheckAppListenedEvents _ _ _); cbn [negb]; [|done]. destruct (parse text) as [[]|]; try done. destruct (_ && _); [done|].
    set (event := event_json _ _ _). case_bool_decide; cbn [negb]; [case_bool_decide; [done|]|].
    + pose proof (write_own es e event (GetTempFilePath u) (files p)) as HW. destruct (WriteEventJson _ _ _ _ _ _). by apply Forall_app.
    + destruct (SaveLogToSandBox _ _ _ _ _ _ _ _ _) as [event' d1]. unfold SaveEventToSandBox.
      match goal with |- context [WriteEventJson ?a ?b ?c ?x ?y ?z] => pose proof (write_own es c x y z) as HW; destruct (WriteEventJson a b c x y z) as [l1 d2] end.
      match goal with |- context [ReportUserDataSize ?a ?b ?c ?x ?y ?z ?t] => pose proof (size_own es b c x y z t) as HS; destruct (ReportUserDataSize a b c x y z t) as [l2 r] end.
      cbn [log]. rewrite !Forall_app. done.
  - unfold SendOverLimitEventToSandBox. destruct (sendingOverlimitThread_ p) as [j|]; [|done].
    destruct (SaveLogToSandBox _ _ _ _ _ _ _ _ _) as [event' d1]. unfold SaveEventToSandBox.
    match goal with |- context [WriteEventJson ?a ?b ?c ?x ?y ?z] => pose proof (write_own es c x y z) as HW; destruct (WriteEventJson a b c x y z) as [l1 d2] end.
    match goal with |- context [ReportUserDataSize ?a ?b ?c ?x ?y ?z ?t] => pose proof (size_own es b c x y z t) as HS; destruct (ReportUserDataSize a b c x y z t) as [l2 r] end.
    cbn [log]. rewrite !Forall_app. done.
  - unfold SendEventToSandBox. destruct (sendingThread_ p); cbn [negb]; [|done]. cbn [log]. generalize (e_order e (DirFiles PATH_DIR (files p))).
    intros l. revert p H. induction l as [|x l IH]; intros p H; [done|]. cbn [foldl]. by apply IH, send_own.
Qed.

End Delayed.

(** C22: A delayed event reaches its application exactly once and in order.  Whatever is
    pushed for whomever, and however often the two threads run between: as long as
    the application's sandbox is there and files can be copied, what was written to
    the temporary file of a user is what was moved to a file of that user's sandbox
    followed by what waits in it, and something waits only while the sending thread
    is to run. *)
Theorem delayed_events_delivered (ExtractFileName resolve : bytes → bytes) (parse : bytes → option Json) (write : Json → bytes)
    (uid : Z) (d : Store) (calls : list Call) :
  let T := GetTempFilePath uid in
  let p := foldl (λ p c, run_call ExtractFileName resolve parse write c p) (mkPublisher d false None [] []) calls in
  0 <= uid < 2 ^ 31 → resolve T = T → (∀ path, resolve path = T → path = T) →
  sound d → names d !! T = None → Forall (fine resolve uid) calls →
  written T (log p) = moved T (log p) ++ waiting T (files p) ∧
  (waiting T (files p) ≠ [] → sendingThread_ p = true) ∧
  (∀ des text, Moved T des text ∈ log p → ∃ e d, e ∈ call_env <$> calls ∧
     des = event_file e (GetSandBoxPath uid (str "base") (GetPathPlaceHolder resolve e d uid) (str "cache/hiappevent"))).
Proof.
  intros T p Hu Hplain Hlink Hs Hnone Hf.
  assert (A : account uid p).
  { apply calls_account; [done..|]. constructor; cbn [files log sendingThread_ sendingOverlimitThread_].
    - done.
    - intros q n _. fold T. by rewrite Hnone.
    - unfold waiting, read. fold T. by rewrite Hnone.
    - fold T. rewrite Hnone. by intros [].
    - done. }
  split; [apply A|]. split.
  - intros Hw. apply A. unfold waiting, read in Hw. fold T. destruct (names (files p) !! T); [eauto|done].
  - intros des text Hin. assert (HO : ∀ cs q, (∀ c, c ∈ cs → call_env c ∈ call_env <$> calls) → Forall (own_sandbox resolve uid (call_env <$> calls)) (log q) →
      Forall (own_sandbox resolve uid (call_env <$> calls)) (log (foldl (λ p c, run_call ExtractFileName resolve parse write c p) q cs))).
    { induction cs as [|c cs IH]; intros q Hc Hq; [done|]. cbn [foldl]. apply IH; [set_solver|]. apply call_own; [done|apply Hc; left|done]. }
    specialize (HO calls (mkPublisher d false None [] []) ltac:(set_solver) (Forall_nil_2 _)).
    rewrite Forall_forall in HO. by apply (HO _ Hin).
Qed.

(** ** One application at a time *)

Section Own.
Context (ExtractFileName resolve : bytes → bytes) (write : Json → bytes).
Context (uid : Z) (holder : bytes).

(** The sandboxes of the application; the logs of the system and they. *)
Definition in_sandboxes (path : bytes) : Prop :=
  in_folder (GetSandBoxPath uid (str "base") holder (str "cache/hiappevent")) path = true ∨
  ∃ sub, sub ∈ [str "watchdog"; str "resourcelimit"; str "hiappevent"] ∧ in_folder (GetSandBoxPath uid (str "log") holder sub) path = true.
Definition own (path : bytes) : Prop := LOG_PATH_PREFIX `prefix_of` path ∨ in_sandboxes path.
(** Where files are written. *)
Definition target (path : bytes) : Prop := path = GetTempFilePath uid ∨ in_sandboxes path.

Context (stays : ∀ path, target path → own (resolve path)).
Context (n : nat) (x : bytes).

(** None of the names of the file is the application's or a log's. *)
Definition foreign (d : Store) : Prop := (n < next_node d)%nat ∧ ∀ path, names d !! path = Some n → ¬ own path.

(** The file with other content. *)
Definition alter (d : Store) : Store := mkStore (<[n := x]> (nodes d)) (names d) (next_node d).

Lemma read_alter path d : foreign d → own path → read path (alter d) = read path d.
Proof.
  intros [_ H] Ho. unfold read. cbn [alter names nodes]. destruct (names d !! path) as [m|] eqn:E; [|done]. cbn.
  rewrite lookup_insert_ne; [done|]. intros <-. by apply (H path).
Qed.

Lemma size_alter path d : foreign d → own path → size_of (alter d) path = size_of d path.
Proof.
  intros [_ H] Ho. unfold size_of. cbn [alter names]. destruct (names d !! path) as [m|] eqn:E; [|done]. cbn. unfold node_size. cbn [alter nodes].
  rewrite lookup_insert_ne; [done|]. intros <-. by apply (H path).
Qed.

Lemma put_alter path text d : foreign d → own path → put path text (alter d) = alter (put path text d) ∧ foreign (put path text d).
Proof.
  intros [Hn H] Ho. unfold put, alter, foreign. cbn [names nodes next_node]. destruct (names d !! path) as [m|] eqn:E; cbn [names nodes next_node].
  - rewrite insert_insert_ne; [done|]. intros ->. by apply (H path).
  - split; [rewrite insert_insert_ne; [done|lia]|]. split; [lia|]. intros q. destruct (decide (path = q)) as [<-|].
    + rewrite lookup_insert_eq. intros [= Hq]. lia.
    + rewrite lookup_insert_ne by done. apply H.
Qed.

Lemma link_alter a b d : foreign d → own a → link a b (alter d) = alter (link a b d) ∧ foreign (link a b d).
Proof.
  intros [Hn H] Ho. unfold link, alter, foreign. cbn [names nodes next_node]. destruct (names d !! a) as [m|] eqn:E; [|done].
  destruct (names d !! b); [done|]. cbn [names nodes next_node]. split; [done|]. split; [done|]. intros q.
  destruct (decide (b = q)) as [<-|]; [rewrite lookup_insert_eq; intros [= Hq]; subst m; by destruct (H a E)|].
  rewrite lookup_insert_ne by done. apply H.
Qed.

Lemma unlink_alter a d : foreign d → unlink a (alter d) = alter (unlink a d) ∧ foreign (unlink a d).
Proof. intros [Hn H]. split; [done|]. split; [done|]. cbn [unlink names]. intros q [_ Hq]%lookup_delete_Some. by apply H. Qed.

(** A step of the disk that commutes with the change. *)
Definition blind (f : Store → Store) : Prop := ∀ d, foreign d → f (alter d) = alter (f d) ∧ foreign (f d).

Lemma blind_foldl {A} (f : Store → A → Store) l : (∀ y, blind (λ d, f d y)) → blind (λ d, foldl f d l).
Proof.
  intros H. induction l as [|y l IH]; intros d Hd; [done|]. cbn [foldl]. destruct (H y d Hd) as [-> Hf]. by apply IH.
Qed.

(** A step with a result that does not depend on it. *)
Definition blind_op {R} (f : Store → R * Store) : Prop :=
  ∀ d, foreign d → f (alter d) = ((f d).1, alter (f d).2) ∧ foreign (f d).2.

Lemma exists_alter e path d : FileExists resolve e (alter d) path = FileExists resolve e d path.
Proof. done. Qed.

Lemma open_alter e path d : foreign d → own (resolve path) → open_file resolve e path (alter d) = open_file resolve e path d.
Proof. intros Hd Ho. unfold open_file. by rewrite read_alter. Qed.

Lemma in_sandbox dir name : in_folder dir (dir ++ str "/" ++ name) = true.
Proof. apply in_dir. Qed.

Lemma copy_alter e src dest cap lks :
  own (resolve src) → target dest → blind_op (CopyExternalLog resolve e src dest cap lks).
Proof.
  intros Hsrc Hd d Hf. pose proof (stays _ Hd) as Hr. unfold CopyExternalLog, CopyFileFast. rewrite open_alter by done.
  destruct (open_file resolve e src d) as [text|]; [|done]. destruct (e_writable e dest); cbn [negb]; [|done].
  rewrite read_alter by done. destruct (put_alter (resolve dest) (fit e ((if negb (cap =? 0) && (Zlen text >? cap) then take (Z.to_nat cap) text else text) ++
    (if negb (cap =? 0) && (Zlen text >? cap) then [10] ++ str "[truncated]" else [])) ++
    drop (length (fit e ((if negb (cap =? 0) && (Zlen text >? cap) then take (Z.to_nat cap) text else text) ++
    (if negb (cap =? 0) && (Zlen text >? cap) then [10] ++ str "[truncated]" else [])))) (default [] (read (resolve dest) d))) d Hf Hr) as [-> Hf1].
  set (d1 := put _ _ d) in *. destruct (bool_decide _); cbn [negb]; [|done].
  assert (blind (CreateLinkFile resolve dest lks)) as HL by (apply blind_foldl; intros l d' Hd'; by apply link_alter).
  destruct (HL d1 Hf1) as [-> Hf2]. destruct (e_chown e); [done|]. cbn [fst snd].
  assert (blind (λ d, foldl (λ d l, unlink (folder dest ++ str "/" ++ l) d) d lks)) as HU by (apply blind_foldl; intros l d' Hd'; by apply unlink_alter).
  destruct (unlink_alter dest _ Hf2) as [-> Hf3]. destruct (HU _ Hf3) as [-> Hf4]. done.
Qed.

Lemma log_dir_own e name : ∃ sub, sub ∈ [str "watchdog"; str "resourcelimit"; str "hiappevent"] ∧
  sandBoxLogPath (GetExternalLogInfo e name uid holder) = GetSandBoxPath uid (str "log") holder sub.
Proof. unfold GetExternalLogInfo. repeat case_bool_decide; cbn [sandBoxLogPath]; eexists; (split; [|reflexivity]); set_solver. Qed.

(** The loop over the logs, with the change. *)
Definition alter_copying (k : Copying) : Copying := mkCopying (dirSize k) (logOverLimit k) (logs k) (links k) (alter (disk k)) (stopped k).

Lemma copy_log_alter e name params eventName cap refined k nl :
  let f := copy_log ExtractFileName resolve e (GetExternalLogInfo e name uid holder) params eventName cap refined in
  foreign (disk k) → f (alter_copying k) nl = alter_copying (f k nl) ∧ foreign (disk (f k nl)).
Proof.
  intros f Hf. unfold f, copy_log. cbn [alter_copying stopped disk dirSize logOverLimit logs links].
  destruct (stopped k); [done|]. rewrite exists_alter. case_bool_decide; [by case_match|].
  set (cur := json_string nl.2). unfold VerifyPathSecurity. cbn [alter names].
  destruct (bool_decide (cur = [])); cbn [orb]; [done|]. destruct (bool_decide (is_Some _)); cbn [andb negb]; [|done].
  case_bool_decide as Hp; cbn [negb]; [|done]. assert (Ho : own (resolve cur)) by by left.
  fold (alter (disk k)). rewrite size_alter by done. destruct (_ <=? _); [|done]. set (des := if IsDmpFile cur then _ else _).
  case_bool_decide; [done|]. destruct (log_dir_own e name) as (sub & Hsub & Ed).
  assert (Hdest : target (sandBoxLogPath (GetExternalLogInfo e name uid holder) ++ str "/" ++ des)).
  { right. right. exists sub. split; [done|]. rewrite Ed. apply in_sandbox. }
  destruct (copy_alter e cur _ cap (GetLinkFileName des (observerNum (GetExternalLogInfo e name uid holder))) Ho Hdest (disk k) Hf) as [-> Hf'].
  destruct (CopyExternalLog _ _ _ _ _ _ (disk k)) as [ok d]. cbn [fst snd] in *. by destruct ok.
Qed.

Lemma folder_size_alter dir d : foreign d → (∀ path, in_folder dir path = true → own path) → GetFolderSize dir (alter d) = GetFolderSize dir d.
Proof.
  intros [_ H] Ho. unfold GetFolderSize. f_equal. apply sum_of_ext. intros m Hm%elem_of_elements%elem_of_folder_nodes.
  destruct Hm as (p & Hp & Em). unfold node_size. cbn [alter nodes]. rewrite lookup_insert_ne; [done|]. intros <-. by apply (H p Em), Ho.
Qed.

Lemma save_log_alter e event cap refined : blind_op (SaveLogToSandBox ExtractFileName resolve e uid holder event cap refined).
Proof.
  intros d Hf. unfold SaveLogToSandBox. destruct (member (member event _) _) as [| | | | |[|? ?]|]; try done.
  unfold CopyExternalLogsToSandBox. set (i := GetExternalLogInfo _ _ _ _). set (l0 := zip _ _).
  destruct (log_dir_own e (json_string (member event (str "name")))) as (sub & Hsub & Ed). fold i in Ed.
  rewrite folder_size_alter; [|done|]. 2: { intros p Hp. right. right. exists sub. by rewrite Ed in Hp. }
  set (f := copy_log _ _ _ _ _ _ _ _). set (k0 := mkCopying _ _ _ _ d _).
  assert (∀ q k, foreign (disk k) → foldl f (alter_copying k) q = alter_copying (foldl f k q) ∧ foreign (disk (foldl f k q))) as HF.
  { induction q as [|y q IH]; intros k Hk; [done|]. cbn [foldl]. destruct (copy_log_alter e (json_string (member event (str "name"))) (member event (str "params"))
      (json_string (member event (str "name"))) cap refined k y Hk) as [E Hk']. fold i f in E, Hk'. rewrite E. by apply IH. }
  destruct (HF l0 k0 Hf) as [E Hk]. change (mkCopying _ _ _ _ (alter d) _) with (alter_copying k0). rewrite E. done.
Qed.

Lemma write_alter e event path : target path → blind_op (WriteEventJson resolve write e event path).
Proof.
  intros Ho d Hf. unfold WriteEventJson. pose proof (stays _ Ho) as Hr. rewrite read_alter by done. destruct (e_writable e path); [|done]. cbn [fst snd].
  by destruct (put_alter (resolve path) (default [] (read (resolve path) d) ++ write (RemoveEventInternalField event)) d Hf Hr) as [-> ?].
Qed.

Lemma event_file_own e : target (event_file e (GetSandBoxPath uid (str "base") holder (str "cache/hiappevent"))).
Proof. right. left. unfold event_file. change FILE_PREFIX with (str "/" ++ str "hiappevent_"). rewrite <- app_assoc. apply in_sandbox. Qed.

Lemma report_alter e name d r : foreign d → ReportUserDataSize resolve e uid holder name (alter d) r = ReportUserDataSize resolve e uid holder name d r.
Proof.
  intros Hf. unfold ReportUserDataSize. case_match; [done|]. f_equal. f_equal. f_equal.
  change (GetReportPath resolve e uid holder name (alter d)) with (GetReportPath resolve e uid holder name d).
  apply list_fmap_ext. intros k dir Hk%list_elem_of_lookup_2. f_equal. apply folder_size_alter; [done|]. intros p Hp. right. right.
  unfold GetReportPath in Hk. apply list_elem_of_filter in Hk as [_ Hk]. revert Hk.
  repeat case_match; rewrite ?elem_of_cons, ?elem_of_app, ?elem_of_cons, ?elem_of_nil; intros; destruct_or?; subst; try done; eexists; (split; [|exact Hp]); set_solver.
Qed.

Definition alter_files (p : Publisher) : Publisher :=
  mkPublisher (alter (files p)) (sendingThread_ p) (sendingOverlimitThread_ p) (records p) (log p).

(** Logs, the event and the report. *)
Lemma publish_alter e event cap refined name d r :
  foreign d →
  let f d := let '(event, d) := SaveLogToSandBox ExtractFileName resolve e uid holder event cap refined d in
             let '(es, d) := SaveEventToSandBox resolve write e uid holder event d in
             let '(es', r) := ReportUserDataSize resolve e uid holder name d r in (d, r, es ++ es') in
  f (alter d) = (alter (f d).1.1, (f d).1.2, (f d).2) ∧ foreign (f d).1.1.
Proof.
  intros Hf f. unfold f. destruct (save_log_alter e event cap refined d Hf) as [-> H1].
  destruct (SaveLogToSandBox _ _ _ _ _ _ _ _ d) as [event' d1]. cbn [fst snd] in *. unfold SaveEventToSandBox.
  destruct (write_alter e event' _ (event_file_own e) d1 H1) as [-> H2]. destruct (WriteEventJson _ _ _ _ _ d1) as [es d2]. cbn [fst snd] in *.
  rewrite report_alter by done. by destruct (ReportUserDataSize _ _ _ _ _ d2 r).
Qed.

End Own.

(** C21: Publishing for one application depends on no other file than the logs of the
    system and the sandboxes of the application, and changes no other.  If no link
    leads out of what is written - links among the logs may lead anywhere - and no name of
    a file is among them, then pushing an event, or running the thread for events over
    the limits, with other content in that file gives the same, with that content.  And
    nothing is written for an application that does not listen to the event: at most
    what waited for it is dropped. *)
Theorem publishing_stays_within (ExtractFileName resolve : bytes → bytes) (parse : bytes → option Json) (write : Json → bytes)
    (e : Env) (uid : Z) (name : bytes) (type : Z) (text : bytes) (cap : Z) (p : Publisher) (n : nat) (x : bytes) :
  let h := GetPathPlaceHolder resolve e (files p) uid in
  (∀ path, target uid h path → own uid h (resolve path)) → foreign uid h n (files p) →
  PushEvent ExtractFileName resolve parse write e uid name type text cap (alter_files n x p) =
    alter_files n x (PushEvent ExtractFileName resolve parse write e uid name type text cap p) ∧
  ((∀ j, sendingOverlimitThread_ p = Some j → j_uid j = uid ∧ j_holder j = h) →
   SendOverLimitEventToSandBox ExtractFileName resolve write e (alter_files n x p) =
     alter_files n x (SendOverLimitEventToSandBox ExtractFileName resolve write e p)) ∧
  (IsAppListenedEvent resolve e uid name (files p) = false →
   let q := PushEvent ExtractFileName resolve parse write e uid name type text cap p in
   q = p ∨ q = mkPublisher (unlink (GetTempFilePath uid) (files p)) (sendingThread_ p) (sendingOverlimitThread_ p) (records p) (log p ++ [Dropped (GetTempFilePath uid)])).
Proof.
  intros h Hstay Hf. split; [|split].
  - unfold PushEvent. destruct (_ || _ || _); [done|]. cbn [alter_files files sendingThread_ sendingOverlimitThread_ records log].
    change (GetPathPlaceHolder resolve e (alter n x (files p)) uid) with h. fold h. rewrite exists_alter.
    destruct (FileExists _ _ _ _); cbn [negb]; [|done]. destruct (CheckAppListenedEvents _ _ _); cbn [negb]; [|done].
    destruct (parse text) as [[| | | | | |ms]|]; try done. destruct (_ && _); [done|]. set (event := event_json _ _ _).
    case_bool_decide; cbn [negb]; [case_bool_decide; [done|]|].
    + assert (Ht : target uid h (GetTempFilePath uid)) by by left.
      destruct (write_alter resolve write uid h Hstay n x e event _ Ht (files p) Hf) as [-> _]. by destruct (WriteEventJson _ _ _ _ _ (files p)).
    + pose proof (publish_alter ExtractFileName resolve write uid h Hstay n x e event cap false name (files p) (records p) Hf) as [E _].
      cbv zeta in E. destruct (SaveLogToSandBox _ _ _ _ _ _ _ _ (alter _ _ _)) as [ev1 d1], (SaveLogToSandBox _ _ _ _ _ _ _ _ (files p)) as [ev2 d2].
      destruct (SaveEventToSandBox _ _ _ _ _ ev1 d1) as [es1 d1'], (SaveEventToSandBox _ _ _ _ _ ev2 d2) as [es2 d2'].
      destruct (ReportUserDataSize _ _ _ _ _ d1' _) as [l1 r1], (ReportUserDataSize _ _ _ _ _ d2' _) as [l2 r2]. cbn [fst snd] in E.
      injection E as -> -> E. unfold alter_files. cbn. by rewrite E.
  - intros Hj. unfold SendOverLimitEventToSandBox. cbn [alter_files sendingOverlimitThread_]. destruct (sendingOverlimitThread_ p) as [j|] eqn:Ej; [|done].
    destruct (Hj j eq_refl) as [-> ->]. cbn [alter_files files records].
    pose proof (publish_alter ExtractFileName resolve write uid h Hstay n x e (j_event j) (j_max j) (ShouldRefinedLogFileName e uid h) EVENT_RESOURCE_OVERLIMIT (files p) (records p) Hf) as [E _].
    cbv zeta in E. destruct (SaveLogToSandBox _ _ _ _ _ _ _ _ (alter _ _ _)) as [ev1 d1], (SaveLogToSandBox _ _ _ _ _ _ _ _ (files p)) as [ev2 d2].
    destruct (SaveEventToSandBox _ _ _ _ _ ev1 d1) as [es1 d1'], (SaveEventToSandBox _ _ _ _ _ ev2 d2) as [es2 d2'].
    destruct (ReportUserDataSize _ _ _ _ _ d1' _) as [l1 r1], (ReportUserDataSize _ _ _ _ _ d2' _) as [l2 r2]. cbn [fst snd] in E.
    injection E as -> -> E. unfold alter_files. cbn. by rewrite E.
  - unfold IsAppListenedEvent, PushEvent. fold h. intros HN. destruct (_ || _ || _); [by left|].
    destruct (FileExists _ _ _ _); cbn [negb]; [rewrite HN; by left|by right].
Qed.

(** *** Examples *)

Definition app_uid : Z := 20010001.
Definition app_base : bytes := str "/data/app/el2/100/base/com.app/cache/hiappevent".
Definition app_log : bytes := str "/data/app/el2/100/log/com.app/hiappevent".
Definition app_env : Env :=
  mkEnv 5 (λ _, 6) (λ _, mkBundle (Some (str "com.app", 0)) (Some (false, false)) None) (λ p, bool_decide (p = app_base))
    (λ _ a, if bool_decide (a = str "user.appevent") then Some (str "65535") else if bool_decide (a = str "user.event_config.APP_CRASH") then Some (str "1") else None)
    (λ _, 0) (λ _, true) (λ _, true) None (λ l, l) true true false.
Definition same (s : bytes) : bytes := s.
Definition crash_params : Json := JObject [(str "external_log", JArray [JString (str "/data/log/a")]); (str "pid", JInt 7)].
Definition read_params (s : bytes) : option Json := if bool_decide (s = str "{}") then Some (JObject []) else Some crash_params.
Definition print_json (j : Json) : bytes := json_string (member j (str "name")).
(** A log, and a file of another application. *)
Definition a_disk : Store :=
  mkStore {[0%nat := str "stack"; 1%nat := str "secret"]} {[str "/data/log/a" := 0%nat; str "/data/app/el2/100/base/other/f" := 1%nat]} 2.
Definition fresh_publisher : Publisher := mkPublisher a_disk false None [] [].

(** The log of a crash and a link to it arrive, and the event. *)
Example crash_published :
  let q := PushEvent same same read_params print_json app_env app_uid (str "APP_CRASH") 1 (str "x") 0 fresh_publisher in
  read (app_log ++ str "/APP_CRASH_6_7.log") (files q) = Some (str "stack") ∧
  names (files q) !! (app_log ++ str "/APP_CRASH_6_7_0.log") = names (files q) !! (app_log ++ str "/APP_CRASH_6_7.log") ∧
  read (app_base ++ str "/hiappevent_5.txt") (files q) = Some (str "APP_CRASH").
Proof. vm_compute. done. Qed.

(** A folder that holds more than its quota takes any log: the room left is computed
    without sign. *)
Example quota_bypassed :
  let i := mkLogInfo (str ".log") (str "hiappevent") app_log MAX_FILE_SIZE 0 in
  let k := mkCopying (MAX_FILE_SIZE + 1) false [] [] a_disk false in
  let k' := copy_log same same app_env i crash_params (str "APP_CRASH") 0 false k (0%nat, JString (str "/data/log/a")) in
  read (app_log ++ str "/APP_CRASH_6_7.log") (disk k') = Some (str "stack") ∧ logOverLimit k' = false.
Proof. vm_compute. done. Qed.

(** A name of one character is taken to contain a traversal. *)
Example short_path_refused : ContainsPathTraversal (str "a") = true.
Proof. done. Qed.

Lemma publishing_stays_within_witness :
  PushEvent same same read_params print_json app_env app_uid (str "APP_CRASH") 1 (str "x") 0 (alter_files 1 (str "other") fresh_publisher) =
    alter_files 1 (str "other") (PushEvent same same read_params print_json app_env app_uid (str "APP_CRASH") 1 (str "x") 0 fresh_publisher) ∧
  read (str "/data/app/el2/100/base/other/f") (files (PushEvent same same read_params print_json app_env app_uid (str "APP_CRASH") 1 (str "x") 0 fresh_publisher)) = Some (str "secret").
Proof.
  split; [|vm_compute; reflexivity].
  refine (proj1 (publishing_stays_within same same read_params print_json app_env app_uid (str "APP_CRASH") 1 (str "x") 0 fresh_publisher 1 (str "other") _ _)).
  - intros path [->|H]; [left; by apply (bool_decide_eq_true_1 (LOG_PATH_PREFIX `prefix_of` _))|by right].
  - split; [cbn; lia|]. intros path Hp.
    assert (path = str "/data/app/el2/100/base/other/f") as ->.
    { cbn [fresh_publisher files a_disk names] in Hp. apply lookup_insert_Some in Hp as [[<- Hp]|[_ Hp]]; [discriminate|].
      by apply lookup_singleton_Some in Hp as [<- _]. }
    assert (GetPathPlaceHolder same app_env (files fresh_publisher) app_uid = str "com.app") as -> by (vm_compute; reflexivity).
    intros [H|[H|(sub & Hsub & H)]].
    + by apply (bool_decide_eq_true_2 _) in H; vm_compute in H.
    + vm_compute in H. discriminate.
    + apply list_elem_of_In in Hsub. cbn [In] in Hsub. destruct Hsub as [<-|[<-|[<-|[]]]]; vm_compute in H; discriminate.
Defined.

Lemma sandbox_quota_kept_witness :
  let event := event_json (str "APP_CRASH") 1 crash_params in
  let r := SaveLogToSandBox same same app_env app_uid (str "com.app") event 3 false a_disk in
  sound r.2 ∧ folder_size app_log r.2 <= MAX_FILE_SIZE + Zlen (array (member crash_params (str "external_log"))) * 11.
Proof.
  set (event := event_json (str "APP_CRASH") 1 crash_params).
  refine (sandbox_quota_kept same same app_env app_uid (str "com.app") event (SaveLogToSandBox same same app_env app_uid (str "com.app") event 3 false a_disk).1
    3 false a_disk (SaveLogToSandBox same same app_env app_uid (str "com.app") event 3 false a_disk).2 _ eq_refl eq_refl _ _ _ _).
  - intros path m. cbn [a_disk names nodes next_node]. intros [[_ <-]|[_ Hp]]%lookup_insert_Some; [split; [vm_compute; eauto|lia]|].
    apply lookup_singleton_Some in Hp as [_ <-]. split; [vm_compute; eauto|lia].
  - lia.
  - intros path H. exact H.
  - vm_compute. discriminate.
  - by destruct (SaveLogToSandBox same same app_env app_uid (str "com.app") event 3 false a_disk).
Defined.

Definition jank_calls : list Call :=
  [Push app_env app_uid (str "SCROLL_JANK") 1 (str "{}") 0; Push app_env app_uid (str "SCROLL_JANK") 1 (str "{}") 0; RunSending app_env;
   Push app_env app_uid (str "BATTERY_USAGE") 1 (str "{}") 0].

Lemma delayed_events_delivered_witness :
  let T := GetTempFilePath app_uid in
  let p := foldl (λ p c, run_call same same read_params print_json c p) (mkPublisher a_disk false None [] []) jank_calls in
  written T (log p) = moved T (log p) ++ waiting T (files p) ∧
  (moved T (log p), waiting T (files p)) = (str "SCROLL_JANKSCROLL_JANK", str "BATTERY_USAGE").
Proof.
  split; [|vm_compute; reflexivity].
  assert (Hready : ready same app_uid app_env) by (intros d; reflexivity).
  refine (proj1 (delayed_events_delivered same same read_params print_json app_uid a_disk jank_calls _ eq_refl _ _ _ _)).
  - unfold app_uid. lia.
  - intros path H. exact H.
  - intros path m. cbn [a_disk names nodes next_node]. intros [[_ <-]|[_ Hp]]%lookup_insert_Some; [split; [vm_compute; eauto|lia]|].
    apply lookup_singleton_Some in Hp as [_ <-]. split; [vm_compute; eauto|lia].
  - vm_compute. reflexivity.
  - repeat constructor; try (intros _; exact Hready); try exact Hready; try reflexivity.
Defined.

End PublishFacts.
