(* ===== verification/FaultLog.v ===== *)
(** * FaultLog: the files of faults

    Models the fault logger's files: utils/faultlog_util.cpp (the names of logs and
    what is read back from them), fault_file/faultlog_formatter.cpp (the sections of a
    log, writing and parsing them, crash records in JSON), fault_file/faultlog_manager.cpp
    (the stores of logs) and the parts of event/cpp_crash/faultlog_cppcrash.cpp that cut
    logs and keep memory dumps, all of src/plugins/faultlogger/service/bdfr_base.  Local
    time, reading dates and the file name of a path are given. *)

From S2P Require Import Prelude Text DbFile Json Database LogStore Binder ProcFs.
From stdpp Require Import base gmap list numbers strings.

Local Open Scope Z_scope.

Module FaultLog.
Import DbFile.DbFile (find_sub, is_digit, SplitStr, ConvertStringTo, bytes_lt).
Import Database.Database (Sorter).
Import JsonValue.
Import LogStore.LogStore.
Import Binder.Binder (contains).
Import ProcFs.ProcFs (after_slash).

(** ** Faults *)

Definition ALL : Z := 0.
Definition CPP_CRASH : Z := 2.
Definition JS_CRASH : Z := 3.
Definition APP_FREEZE : Z := 4.
Definition SYS_FREEZE : Z := 5.
Definition SYS_WARNING : Z := 6.
Definition APPFREEZE_WARNING : Z := 7.
Definition RUST_PANIC : Z := 8.
Definition CJ_ERROR : Z := 9.
Definition ADDR_SANITIZER : Z := 10.
Definition PROCESS_PAGE_INFO : Z := 11.
Definition MINIDUMP : Z := 12.

(** What is known of a fault; [time] has 64 bits, [id], [pid] and the type 32. *)
Record FaultLogInfo := mkFault {
  time : Z; id : Z; pid : Z; faultLogType : Z; module : bytes; reason : bytes; summary : bytes; logPath : bytes;
  registers : bytes; otherThreadInfo : bytes; sanitizerType : bytes; sectionMap : gmap bytes bytes
}.

Definition no_fault : FaultLogInfo := mkFault 0 0 0 0 [] [] [] [] [] [] [] ∅.

(** ** Names of logs *)

Section Files.
Context `{SO : Sorter}.
(** The file name of a path; a date of fourteen digits as seconds. *)
Context (ExtractFileName : bytes → bytes) (StrToTimeStamp : bytes → Z).
(** Local time as fourteen digits, and the clock. *)
Context (date_of : Z → option bytes) (now : Z).

Definition TIME_RATIO : Z := 1000.
Definition MIN_APP_USERID : Z := 10000.

Definition GetFormatedTime (target : Z) : bytes :=
  default (str "00000000000000") (date_of (s64 (if target >? u64 now then target / TIME_RATIO else target))).

(** ["%03lu"]. *)
Definition pad3 (n : Z) : bytes := (if n <? 10 then str "00" else if n <? 100 then str "0" else []) ++ to_string n.

Definition GetFormatedTimeWithMillsec (time : Z) : bytes := GetFormatedTime time ++ pad3 (time `mod` TIME_RATIO).

Definition GetFaultNameByType (faultType : Z) (asFileName : bool) : bytes :=
  let name (file event : string) := str (if asFileName then file else event) in
  if faultType =? JS_CRASH then name "jscrash" "JS_ERROR"
  else if faultType =? CPP_CRASH then name "cppcrash" "CPP_CRASH"
  else if faultType =? APP_FREEZE then name "appfreeze" "APP_FREEZE"
  else if faultType =? SYS_FREEZE then name "sysfreeze" "SYS_FREEZE"
  else if faultType =? SYS_WARNING then name "syswarning" "SYS_WARNING"
  else if faultType =? APPFREEZE_WARNING then name "appfreezewarning" "APPFREEZE_WARNING"
  else if faultType =? RUST_PANIC then name "rustpanic" "RUST_PANIC"
  else if faultType =? ADDR_SANITIZER then name "sanitizer" "ADDR_SANITIZER"
  else if faultType =? CJ_ERROR then name "cjerror" "CJ_ERROR"
  else str "Unknown".

Definition sanitizer_name (sanitizerType : bytes) : bytes :=
  if bool_decide (sanitizerType = str "TSAN") then str "tsan"
  else if bool_decide (sanitizerType = str "UBSAN") then str "ubsan"
  else if bool_decide (sanitizerType = str "GWP-ASAN") then str "gwpasan"
  else if bool_decide (sanitizerType = str "HWASAN") then str "hwasan"
  else if bool_decide (sanitizerType = str "ASAN") then str "asan"
  else if bool_decide (sanitizerType = str "FDSAN") then str "fdsan"
  else if bool_decide (sanitizerType = str "ARKTS_ENVSAN") then str "arktsenvsan"
  else str "sanitizer".

Definition log_type_name (i : FaultLogInfo) : bytes :=
  if faultLogType i =? ADDR_SANITIZER then sanitizer_name (sanitizerType i) else GetFaultNameByType (faultLogType i) true.

Definition GetFaultLogName (i : FaultLogInfo) : bytes :=
  log_type_name i ++ str "-" ++ after_slash (module i) ++ str "-" ++ to_string (id i) ++ str "-" ++
  GetFormatedTimeWithMillsec (u64 (time i)) ++ str ".log".

Definition GetLogTypeByName (type : bytes) : Z :=
  let is_name (s : string) := bool_decide (type = str s) in
  if is_name "jscrash"%string then JS_CRASH
  else if is_name "cppcrash"%string then CPP_CRASH
  else if is_name "appfreeze"%string then APP_FREEZE
  else if is_name "sysfreeze"%string then SYS_FREEZE
  else if is_name "syswarning"%string then SYS_WARNING
  else if is_name "appfreezewarning"%string then APPFREEZE_WARNING
  else if contains (str "san") type then ADDR_SANITIZER
  else if is_name "cjerror"%string then CJ_ERROR
  else if is_name "minidump"%string then MINIDUMP
  else if is_name "all"%string || is_name "ALL"%string then ALL
  else -1.

Definition GetLogTypeByEventName (eventName : bytes) : Z :=
  let is_name (s : string) := bool_decide (eventName = str s) in
  if is_name "JS_ERROR"%string then JS_CRASH
  else if is_name "CPP_CRASH"%string then CPP_CRASH
  else if is_name "APP_FREEZE"%string then APP_FREEZE
  else if is_name "SYS_FREEZE"%string then SYS_FREEZE
  else if is_name "SYS_WARNING"%string then SYS_WARNING
  else if is_name "APPFREEZE_WARNING"%string then APPFREEZE_WARNING
  else if is_name "ADDR_SANITIZER"%string then ADDR_SANITIZER
  else if is_name "CJ_ERROR"%string then CJ_ERROR
  else if is_name "RUST_PANIC"%string then RUST_PANIC
  else if is_name "PROCESS_PAGE_INFO"%string then PROCESS_PAGE_INFO
  else ALL.

(** What the name of a log tells: its type, module, user and time. *)
Definition ExtractInfoFromFileName (fileName : bytes) : FaultLogInfo :=
  match SplitStr fileName (str "-") with
  | [type; name; uid; stamp] =>
      let n := length stamp in
      let stamp := if bool_decide (7 < n)%nat && bool_decide (drop (n - 4) stamp = str ".log") then take (n - 7) stamp else stamp in
      mkFault (StrToTimeStamp stamp) (ConvertStringTo 32 uid 0) 0 (GetLogTypeByName type) name [] [] [] [] [] [] ∅
  | _ => no_fault
  end.

(** The name of a crash record of the system: its type, process and time. *)
Definition ExtractInfoFromTempFile (fileName : bytes) : FaultLogInfo :=
  match SplitStr fileName (str "-") with
  | [type; pid; stamp] => mkFault (ConvertStringTo 64 stamp 0) 0 (ConvertStringTo 32 pid 0) (GetLogTypeByName type) [] [] [] [] [] [] [] ∅
  | _ => no_fault
  end.

Definition RegulateModuleNameIfNeed (name : bytes) : bytes := default name (last (SplitStr name (str "/"))).

Definition FAULTLOG_TEMP_FOLDER : bytes := str "/data/log/faultlog/temp/".
Definition FAULTLOG_WARNING_LOG_FOLDER : bytes := str "/data/log/warninglog/".
Definition FAULTLOG_FAULT_LOGGER_FOLDER : bytes := str "/data/log/faultlog/faultlogger/".

Definition GetDebugSignalTempLogName (i : FaultLogInfo) : bytes :=
  FAULTLOG_TEMP_FOLDER ++ str "stacktrace-" ++ to_string (pid i) ++ str "-" ++ to_string (time i).

Definition GetCppCrashTempLogName (i : FaultLogInfo) (isJsonFile : bool) : bytes :=
  FAULTLOG_TEMP_FOLDER ++ str "cppcrash-" ++ to_string (pid i) ++ str "-" ++ to_string (time i) ++ (if isJsonFile then str ".json" else []).

Definition is_letter (c : Z) : bool := ((65 <=? c) && (c <=? 90)) || ((97 <=? c) && (c <=? 122)).

Fixpoint drop_others (s : bytes) : bytes :=
  match s with c :: r => if is_letter c then s else drop_others r | [] => [] end.

(** [ExtractSubMoudleName], with the module afterwards. *)
Definition ExtractSubMoudleName (m : bytes) : bool * bytes :=
  let sceneboard := str "com.ohos.sceneboard:" in
  if bool_decide (sceneboard `prefix_of` m) then
    let m := (λ c, if c =? 47 then 95 else c) <$> drop (length sceneboard) m in
    let cut := reverse (drop_others (reverse (drop_others m))) in
    if bool_decide (cut = []) then (false, m) else (true, cut)
  else (false, m).

Definition IsSystemProcess (processName : bytes) (uid : Z) : bool :=
  (uid <? MIN_APP_USERID) || bool_decide (str "/system/bin" `prefix_of` processName) || bool_decide (str "/vendor/bin" `prefix_of` processName).

Definition GetSummaryFromSectionMap (type : Z) (maps : gmap bytes bytes) : bytes :=
  if type =? CPP_CRASH then default [] (maps !! str "KEY_THREAD_INFO") else [].

(** [GetDigtStrArr]: the numbers of a text and a zero. *)
Fixpoint digit_runs (temp s : bytes) : list bytes :=
  match s with
  | [] => if bool_decide (temp = []) then [] else [temp]
  | c :: s => if is_digit c then digit_runs (temp ++ [c]) s else (if bool_decide (temp = []) then [] else [temp]) ++ digit_runs [] s
  end.
Definition GetDigtStrArr (target : bytes) : list bytes := digit_runs [] target ++ [str "0"].

(** ** Sections *)

(** The key of a section and its head. *)
Record SectionLog := mkSection { sectionName : bytes; logName : bytes }.

(** A value on the line of its head, or on lines of its own. *)
Definition one (key head : string) : SectionLog := mkSection (str key) (str head).
Definition many (key head : string) : SectionLog := mkSection (str key) (str head ++ [10]).

Definition APPEND_ORIGIN_LOG : SectionLog := one "APPEND_ORIGIN_LOG" "".
Definition APP_RUNNING_UNIQUE_ID : SectionLog := one "APP_RUNNING_UNIQUE_ID" "App running unique id:".
Definition APP_VM_TYPE : SectionLog := one "APPVMTYPE" "APPVMTYPE:".
Definition BINDER_TRANSACTION_INFO : SectionLog := many "BINDER_TRANSACTION_INFO" "Binder transaction info:".
Definition BUILD_INFO : SectionLog := one "BUILD_INFO" "Build info:".
Definition CPU_ABI : SectionLog := one "CPU_ABI" "CpuAbi:".
Definition CPU_USAGE : SectionLog := one "FAULTCPU" "CPU Usage:".
Definition DEVICE_DEBUGABLE : SectionLog := one "DEVICE_DEBUGABLE" "DeviceDebuggable:".
Definition DEVICE_INFO : SectionLog := one "DEVICE_INFO" "Device info:".
Definition DEVICE_MEMINFO : SectionLog := one "DEVICE_MEMINFO" "".
Definition DEVICE_RUNNING_TIME : SectionLog := one "DEVICE_RUNNING_TIME" "Device running time:".
Definition ENABLED_APP_LOG_CONFIG : SectionLog := many "ENABLED_APP_LOG_CONFIG" "Enabled app log configs:".
Definition ENABLE_MINIDUMP_LOG : SectionLog := one "ENABLE_MINIDUMP_LOG" "Enable minidump log:".
Definition EXTEND_PC_LR_PRINTING : SectionLog := one "EXTEND_PC_LR_PRINTING" "Extend pc lr printing:".
Definition EXTRA_CRASH_INFO : SectionLog := one "EXTRA_CRASH_INFO" "".
Definition FAULT_MESSAGE : SectionLog := one "FAULT_MESSAGE" "Fault message:".
Definition FAULT_STACK : SectionLog := many "FAULT_STACK" "FaultStack:".
Definition FAULT_TYPE : SectionLog := one "FAULT_TYPE" "Fault type:".
Definition FINGERPRINT : SectionLog := one "FINGERPRINT" "Fingerprint:".
Definition FOREGROUND : SectionLog := one "FOREGROUND" "Foreground:".
Definition HITRACEID : SectionLog := one "HITRACEID" "HiTraceId:".
Definition IS_SYSTEM_APP : SectionLog := one "IS_SYSTEM_APP" "IsSystemApp:".
Definition KEY_THREAD_INFO : SectionLog := many "KEY_THREAD_INFO" "Fault thread info:".
Definition KEY_THREAD_REGISTERS : SectionLog := many "KEY_THREAD_REGISTERS" "Registers:".
Definition LAST_FATAL_MESSAGE : SectionLog := one "LAST_FATAL_MESSAGE" "LastFatalMessage:".
Definition LIFETIME : SectionLog := one "LIFETIME" "Up time:".
Definition LOG_CUT_OFF_SIZE : SectionLog := one "LOG_CUT_OFF_SIZE" "Log cut off size:".
Definition LOG_SOURCE : SectionLog := one "LOG_SOURCE" "Log source:".
Definition MEMORY_NEAR_REGISTERS : SectionLog := many "MEMORY_NEAR_REGISTERS" "Memory near registers:".
Definition MEMORY_USAGE : SectionLog := many "MEM_USAGE" "Memory Usage:".
Definition MERGE_APP_LOG_PRINTING : SectionLog := one "MERGE_APP_LOG_PRINTING" "Merge app log printing:".
Definition MODULE_NAME : SectionLog := one "MODULE" "Module name:".
Definition MODULE_PID : SectionLog := one "PID" "Pid:".
Definition MODULE_UID : SectionLog := one "UID" "Uid:".
Definition MODULE_VERSION : SectionLog := one "VERSION" "Version:".
Definition MSG_QUEUE_INFO : SectionLog := many "MSG_QUEUE_INFO" "Message queue info:".
Definition OPEN_FILES : SectionLog := many "OPEN_FILES" "OpenFiles:".
Definition OTHER_THREAD_INFO : SectionLog := many "OTHER_THREAD_INFO" "Other thread info:".
Definition PAGE_SWITCH_HISTORY : SectionLog := many "PAGE_SWITCH_HISTORY" "Page switch history:".
Definition PRE_INSTALL : SectionLog := one "PRE_INSTALL" "PreInstalled:".
Definition PROCESS_LIFETIME : SectionLog := one "PROCESS_LIFETIME" "Process life time:".
Definition PROCESS_MAPS : SectionLog := many "PROCESS_MAPS" "Maps:".
Definition PROCESS_NAME : SectionLog := one "PNAME" "Process name:".
Definition PROCESS_RSS_MEMINFO : SectionLog := one "PROCESS_RSS_MEMINFO" "Process Memory(kB): ".
Definition PROCESS_STACKTRACE : SectionLog := many "PROCESS_STACKTRACE" "Process stacktrace:".
Definition REASON : SectionLog := one "REASON" "Reason:".
Definition RELEASE_TYPE : SectionLog := one "RELEASE_TYPE" "ReleaseType:".
Definition ROOT_CAUSE : SectionLog := many "BINDERMAX" "Blocked chain:".
Definition SIMPLIFY_MAPS_PRINTING : SectionLog := one "SIMPLIFY_MAPS_PRINTING" "Simplify maps printing:".
Definition STACKTRACE : SectionLog := many "TRUSTSTACK" "Selected stacktrace:".
Definition SUBMITTER_STACKTRACE : SectionLog := one "SUBMITTER_STACKTRACE" "".
Definition SUMMARY : SectionLog := many "SUMMARY" "Summary:".
Definition SYS_VM_TYPE : SectionLog := one "SYSVMTYPE" "SYSVMTYPE:".
Definition TIMESTAMP : SectionLog := one "TIMESTAMP" "Timestamp:".
Definition TRACE_ID : SectionLog := one "TRACEID" "Trace-Id:".
Definition VERSION_CODE : SectionLog := one "VERSION_CODE" "VersionCode:".

Definition GetCppCrashSectionLogs : list SectionLog := [
  DEVICE_INFO; BUILD_INFO; DEVICE_DEBUGABLE; FINGERPRINT; MODULE_NAME; RELEASE_TYPE; CPU_ABI; MODULE_VERSION; VERSION_CODE; IS_SYSTEM_APP; PRE_INSTALL;
  FOREGROUND; PAGE_SWITCH_HISTORY; APPEND_ORIGIN_LOG; ENABLED_APP_LOG_CONFIG; TIMESTAMP; MODULE_PID; MODULE_UID; HITRACEID; PROCESS_NAME; FAULT_TYPE;
  SYS_VM_TYPE; APP_VM_TYPE; APP_RUNNING_UNIQUE_ID; PROCESS_LIFETIME; PROCESS_RSS_MEMINFO; DEVICE_MEMINFO; LOG_SOURCE; REASON; FAULT_MESSAGE;
  LAST_FATAL_MESSAGE; TRACE_ID; KEY_THREAD_INFO; SUBMITTER_STACKTRACE; KEY_THREAD_REGISTERS; EXTRA_CRASH_INFO; OTHER_THREAD_INFO; MEMORY_NEAR_REGISTERS;
  FAULT_STACK; PROCESS_MAPS; OPEN_FILES].

Definition GetJsCrashSectionLogs : list SectionLog := [
  DEVICE_INFO; BUILD_INFO; DEVICE_DEBUGABLE; FINGERPRINT; TIMESTAMP; MODULE_NAME; RELEASE_TYPE; CPU_ABI; MODULE_VERSION; VERSION_CODE; IS_SYSTEM_APP;
  PRE_INSTALL; FOREGROUND; MODULE_PID; MODULE_UID; PROCESS_NAME; FAULT_TYPE; FAULT_MESSAGE; SYS_VM_TYPE; APP_VM_TYPE; APP_RUNNING_UNIQUE_ID; LIFETIME;
  PROCESS_LIFETIME; PROCESS_RSS_MEMINFO; DEVICE_MEMINFO; PAGE_SWITCH_HISTORY; REASON; TRACE_ID; SUMMARY].

Definition GetCjCrashSectionLogs : list SectionLog := [
  DEVICE_INFO; BUILD_INFO; FINGERPRINT; TIMESTAMP; MODULE_NAME; MODULE_VERSION; VERSION_CODE; PRE_INSTALL; FOREGROUND; MODULE_PID; MODULE_UID;
  FAULT_TYPE; FAULT_MESSAGE; SYS_VM_TYPE; APP_VM_TYPE; APP_RUNNING_UNIQUE_ID; LIFETIME; PROCESS_RSS_MEMINFO; DEVICE_MEMINFO; REASON; TRACE_ID; SUMMARY].

Definition GetAppFreezeSectionLogs : list SectionLog := [
  DEVICE_INFO; BUILD_INFO; DEVICE_DEBUGABLE; FINGERPRINT; TIMESTAMP; MODULE_NAME; RELEASE_TYPE; CPU_ABI; MODULE_VERSION; VERSION_CODE; IS_SYSTEM_APP;
  PRE_INSTALL; FOREGROUND; MODULE_PID; MODULE_UID; FAULT_TYPE; SYS_VM_TYPE; APP_VM_TYPE; APP_RUNNING_UNIQUE_ID; PROCESS_LIFETIME; PROCESS_RSS_MEMINFO;
  DEVICE_MEMINFO; REASON; TRACE_ID; CPU_USAGE; MEMORY_USAGE; ROOT_CAUSE; STACKTRACE; MSG_QUEUE_INFO; BINDER_TRANSACTION_INFO; PROCESS_STACKTRACE;
  SUMMARY; PAGE_SWITCH_HISTORY].

Definition GetSysFreezeSectionLogs : list SectionLog := [
  DEVICE_INFO; BUILD_INFO; FINGERPRINT; TIMESTAMP; MODULE_NAME; MODULE_VERSION; FOREGROUND; MODULE_PID; MODULE_UID; FAULT_TYPE; SYS_VM_TYPE;
  APP_VM_TYPE; APP_RUNNING_UNIQUE_ID; PROCESS_LIFETIME; DEVICE_RUNNING_TIME; REASON; TRACE_ID; CPU_USAGE; MEMORY_USAGE; ROOT_CAUSE; STACKTRACE;
  MSG_QUEUE_INFO; BINDER_TRANSACTION_INFO; PROCESS_STACKTRACE; SUMMARY].

Definition GetSysWarningSectionLogs : list SectionLog := [
  DEVICE_INFO; BUILD_INFO; FINGERPRINT; TIMESTAMP; MODULE_NAME; MODULE_VERSION; FOREGROUND; MODULE_PID; MODULE_UID; FAULT_TYPE; SYS_VM_TYPE;
  APP_VM_TYPE; REASON; TRACE_ID; CPU_USAGE; MEMORY_USAGE; ROOT_CAUSE; STACKTRACE; MSG_QUEUE_INFO; BINDER_TRANSACTION_INFO; PROCESS_STACKTRACE; SUMMARY].

Definition GetAppFreezeWarningSectionLogs : list SectionLog := [
  DEVICE_INFO; BUILD_INFO; FINGERPRINT; TIMESTAMP; MODULE_NAME; MODULE_VERSION; FOREGROUND; MODULE_PID; MODULE_UID; FAULT_TYPE; SYS_VM_TYPE;
  APP_VM_TYPE; REASON; TRACE_ID; CPU_USAGE; MEMORY_USAGE; ROOT_CAUSE; STACKTRACE; MSG_QUEUE_INFO; BINDER_TRANSACTION_INFO; PROCESS_STACKTRACE; SUMMARY].

Definition GetRustPanicSectionLogs : list SectionLog := [
  DEVICE_INFO; BUILD_INFO; FINGERPRINT; TIMESTAMP; MODULE_NAME; MODULE_VERSION; MODULE_PID; MODULE_UID; FAULT_TYPE; FAULT_MESSAGE; APP_VM_TYPE; REASON;
  SUMMARY].

Definition GetAddrSanitizerSectionLogs : list SectionLog := [
  DEVICE_INFO; BUILD_INFO; FINGERPRINT; APPEND_ORIGIN_LOG; TIMESTAMP; MODULE_NAME; MODULE_VERSION; MODULE_PID; MODULE_UID; APP_RUNNING_UNIQUE_ID;
  FAULT_TYPE; FAULT_MESSAGE; APP_VM_TYPE; REASON; SUMMARY].

Definition GetLogParseSections (logType : Z) : list SectionLog :=
  if logType =? CPP_CRASH then GetCppCrashSectionLogs
  else if logType =? JS_CRASH then GetJsCrashSectionLogs
  else if logType =? CJ_ERROR then GetCjCrashSectionLogs
  else if logType =? APP_FREEZE then GetAppFreezeSectionLogs
  else if logType =? SYS_FREEZE then GetSysFreezeSectionLogs
  else if logType =? SYS_WARNING then GetSysWarningSectionLogs
  else if logType =? APPFREEZE_WARNING then GetAppFreezeWarningSectionLogs
  else if logType =? RUST_PANIC then GetRustPanicSectionLogs
  else if logType =? ADDR_SANITIZER then GetAddrSanitizerSectionLogs
  else [].

(** *** Parsing *)

(** The lines [getline] gives while the stream is good: the ended ones. *)
Fixpoint ended_lines (part s : bytes) : list bytes :=
  match s with
  | [] => []
  | c :: s => if c =? 10 then part :: ended_lines [] s else ended_lines (part ++ [c]) s
  end.

Definition section_head (item : SectionLog) : bytes :=
  if bool_decide (last (logName item) = Some 10) then take (length (logName item) - 1) (logName item) else logName item.

(** [line.substr(line.find_first_of(":") + 1)]. *)
Definition after_colon (line : bytes) : bytes := match find_sub (str ":") line with Some n => drop (n + 1) line | None => line end.

Record Parsing := mkParsing { multline : bytes; multlineName : bytes; parsed : gmap bytes bytes }.

(** Whether a line has the head of a section. *)
Definition heads (line : bytes) (item : SectionLog) : bool := bool_decide (1 < length (logName item))%nat && contains (section_head item) line.

(** A line of the text, [ParseFaultLogLine] included. *)
Definition parse_line (parseList : list SectionLog) (p : Parsing) (line : bytes) : Parsing :=
  if bool_decide (line = []) then p else
  match list_find (λ item, heads line item = true) parseList with
  | None => mkParsing (multline p ++ line ++ [10]) (multlineName p) (parsed p)
  | Some (_, item) =>
      let m := if bool_decide (sectionName item ≠ multlineName p) && bool_decide (multline p ≠ [])
               then <[multlineName p := multline p]> (parsed p) else parsed p in
      if bool_decide (line = section_head item) then mkParsing [] (sectionName item) m
      else mkParsing [] (multlineName p) (<[sectionName item := after_colon line]> m)
  end.

(** [ParseCppCrashFromTextFile], of the text of the file. *)
Definition parse_text (parseList : list SectionLog) (text : bytes) (m : gmap bytes bytes) : gmap bytes bytes :=
  let p := foldl (parse_line parseList) (mkParsing [] [] m) (ended_lines [] text) in
  if bool_decide (multline p ≠ []) && bool_decide (multlineName p ≠ []) then <[multlineName p := multline p]> (parsed p) else parsed p.

Definition ParseCppCrashFromTextFile (text : bytes) (i : FaultLogInfo) : FaultLogInfo :=
  mkFault (time i) (id i) (pid i) (faultLogType i) (module i) (reason i) (summary i) (logPath i) (registers i) (otherThreadInfo i) (sanitizerType i)
    (parse_text (GetLogParseSections (faultLogType i)) text (sectionMap i)).

Definition NEW_LINE : Z := 10.

Definition to_line_end (s : bytes) : bytes * bytes :=
  (fix go s := match s with c :: r => if c =? NEW_LINE then ([], s) else let '(a, b) := go r in (c :: a, b) | [] => ([], []) end) s.

(** The number and the digits in the name of the thread are taken out of the summary;
    [None] when its text is shorter than where the thread began, which stops the
    program. *)
Definition hide_thread (s : bytes) : option bytes :=
  match find_sub (str "Tid:") s, find_sub (str "Name:") s with
  | Some start, Some stop =>
      let '(line, rest) := to_line_end (drop stop s) in
      let s := take stop s ++ filter (λ c, is_digit c = false) line ++ rest in
      if bool_decide (length s < start)%nat then None
      else Some (take start s ++ str "Thread n" ++ (if bool_decide (stop + 1 < start)%nat then [] else drop (stop + 1) s))
  | _, _ => Some s
  end.

(** The keys a map was asked for, by an operation that puts in what is missing. *)
Definition asked (keys : list SectionLog) (m : gmap bytes bytes) : gmap bytes bytes :=
  foldl (λ m k, if decide (is_Some (m !! sectionName k)) then m else <[sectionName k := []]> m) m keys.

(** [UpdateFaultLogInfoFromTempFile]. *)
Definition UpdateFaultLogInfoFromTempFile (i : FaultLogInfo) : option FaultLogInfo :=
  if negb (bool_decide (module i = [])) then Some i else
  let get (k : SectionLog) := default [] (sectionMap i !! sectionName k) in
  summary ← hide_thread (get KEY_THREAD_INFO);
  let fatal := get LAST_FATAL_MESSAGE in
  let summary := if bool_decide (fatal = []) then summary else logName LAST_FATAL_MESSAGE ++ fatal ++ [10] ++ summary in
  Some (mkFault (time i) (ConvertStringTo 32 (get MODULE_UID) (id i)) (pid i) (faultLogType i) (get PROCESS_NAME) (get REASON) summary (logPath i)
    (get KEY_THREAD_REGISTERS) (get OTHER_THREAD_INFO) (sanitizerType i)
    (asked [MODULE_UID; PROCESS_NAME; REASON; KEY_THREAD_INFO; KEY_THREAD_REGISTERS; OTHER_THREAD_INFO; LAST_FATAL_MESSAGE] (sectionMap i))).

(** *** Crash records in JSON *)

Definition is_string (j : Json) : bool := match j with JString _ => true | _ => false end.
Definition as_string (j : Json) : bytes := match j with JString s => s | _ => [] end.
Definition is_int (j : Json) : bool := bool_decide (is_Some (int_value j)).
Definition as_int (j : Json) : Z := default 0 (int_value j).

Definition FormatFrameIndex (index : nat) : bytes := (if bool_decide (index < 10)%nat then str "0" else []) ++ to_string (Z.of_nat index).

(** One frame; a value that is no object stops the program. *)
Definition frame_text (index : nat) (frame : Json) : option bytes :=
  match frame with
  | JObject _ | JNull =>
      let field (k : string) := member frame (str k) in
      Some (
        if is_string (field "packageName") && is_string (field "symbol") && is_string (field "file") && is_int (field "line") && is_int (field "column") then
          str "#" ++ FormatFrameIndex index ++ str " at " ++ as_string (field "symbol") ++ str " " ++ as_string (field "packageName") ++
          str " (" ++ as_string (field "file") ++ str ":" ++ to_string (as_int (field "line")) ++ str ":" ++ to_string (as_int (field "column")) ++
          str ")" ++ [10]
        else if is_string (field "pc") && is_string (field "file") then
          let symbolStr := as_string (field "symbol") in
          let buildIdStr := as_string (field "buildId") in
          str "#" ++ FormatFrameIndex index ++ str " pc " ++ as_string (field "pc") ++ str " " ++ as_string (field "file") ++
          (if negb (bool_decide (symbolStr = [])) && is_int (field "offset")
           then str "(" ++ symbolStr ++ str "+" ++ to_string (as_int (field "offset")) ++ str ")" else []) ++
          (if negb (bool_decide (buildIdStr = [])) then str "(" ++ buildIdStr ++ str ")" else []) ++ [10]
        else [])
  | _ => None
  end.

Definition FormatThreadInfo (threadInfo : Json) : option bytes :=
  if negb (isObject threadInfo) then Some [] else
  let tid := member threadInfo (str "tid") in
  let name := member threadInfo (str "thread_name") in
  match is_int tid && is_string name, member threadInfo (str "frames") with
  | true, JArray ((_ :: _) as frames) =>
      texts ← mapM (λ f : nat * Json, frame_text f.1 f.2) (zip (seq 0 (length frames)) frames);
      let frameResult := mjoin texts in
      Some (if bool_decide (frameResult = []) then [] else
        str "Tid:" ++ to_string (as_int tid) ++ str ", Name:" ++ as_string name ++ [10] ++ frameResult)
  | _, _ => Some []
  end.

Definition FormatOtherThreadInfo (threads : Json) : option bytes :=
  match threads with JArray l => mjoin <$> mapM FormatThreadInfo l | _ => Some [] end.

Definition configTabs : list SectionLog := [EXTEND_PC_LR_PRINTING; LOG_CUT_OFF_SIZE; SIMPLIFY_MAPS_PRINTING; MERGE_APP_LOG_PRINTING; ENABLE_MINIDUMP_LOG].

(** A number or a text as it is written. *)
Definition number_text (v : Json) : option bytes :=
  match int_value v with Some n => Some (to_string n) | None => to_string <$> uint_value v end.

Definition FormatAppLogConfig (appLogConfig : Json) : bytes :=
  match appLogConfig with
  | JObject ms =>
      foldl (λ result tab,
        match assoc (sectionName tab) ms with
        | None => result
        | Some value =>
            let result := result ++ logName tab ++
              match value with
              | JString s => s
              | JBool b => if b then str "true" else str "false"
              | _ => default [] (number_text value)
              end in
            if bool_decide (last result = Some 10) then result else result ++ [10]
        end) [] configTabs
  | _ => []
  end.

(** The value of a section: [None] stops the program, [Some None] leaves it out. *)
Definition section_value (key : bytes) (value : Json) : option (option bytes) :=
  match value with
  | JObject _ | JArray _ =>
      if bool_decide (key = sectionName KEY_THREAD_INFO) then Some <$> FormatThreadInfo value
      else if bool_decide (key = sectionName OTHER_THREAD_INFO) then Some <$> FormatOtherThreadInfo value
      else if bool_decide (key = sectionName ENABLED_APP_LOG_CONFIG) then Some (Some (FormatAppLogConfig value))
      else Some None
  | JString s => Some (Some (if bool_decide (s = []) then [10] else s))
  | _ => Some (number_text value)
  end.

Definition FillSectionMapFromJson (root : Json) (m : gmap bytes bytes) : option (gmap bytes bytes) :=
  foldl (λ m it, m ← m; there ← isMember root (sectionName it);
    if there : bool then v ← section_value (sectionName it) (member root (sectionName it)); Some (from_option (λ v, <[sectionName it := v]> m) m v)
    else Some m) (Some m) GetCppCrashSectionLogs.

(** [ParseCppCrashFromFile]; [json] is what the strict reader makes of a file whose
    name ends in .json and that is not over 50 MB. *)
Definition ParseCppCrashFromFile (path text : bytes) (json : option Json) : option FaultLogInfo :=
  let i := ExtractInfoFromTempFile (ExtractFileName path) in
  match (if bool_decide (str ".json" `suffix_of` path) && (Zlen text <=? 50 * 1024 * 1024) then json else None) with
  | Some root =>
      m ← FillSectionMapFromJson root (sectionMap i);
      UpdateFaultLogInfoFromTempFile (mkFault (time i) (id i) (pid i) (faultLogType i) (module i) (reason i) (summary i) (logPath i)
        (registers i) (otherThreadInfo i) (sanitizerType i) m)
  | None => UpdateFaultLogInfoFromTempFile (ParseCppCrashFromTextFile text i)
  end.

(** *** Writing *)

(** The first line is left out when it tells the build; of a file that is not there
    an empty line is written. *)
Definition JumpBuildInfo (text : bytes) : bytes * bytes :=
  let '(line, rest) := to_line_end text in
  (if contains (str "Build info:") line then [] else line ++ [10], drop 1 rest).

Fixpoint copy_lines (meminfo : option bytes) (lines : list bytes) : bytes :=
  match lines with
  | [] => []
  | line :: lines =>
      match meminfo with
      | Some m => if contains (str "Process Memory(kB):") line then line ++ [10] ++ m ++ [10] ++ copy_lines None lines
                  else line ++ [10] ++ copy_lines meminfo lines
      | None => line ++ [10] ++ copy_lines None lines
      end
  end.

(** [WriteLogToFile]: the log of another file, if a path is given. *)
Definition WriteLogToFile (path : bytes) (sections : gmap bytes bytes) (d : Files) : option bytes :=
  if bool_decide (path = []) then None else
  let '(first, rest) := JumpBuildInfo (default [] (content <$> d !! path)) in
  Some (first ++ copy_lines (sections !! str "DEVICE_MEMINFO") (ended_lines [] rest)).

Fixpoint write_sections (l : list SectionLog) (sections : gmap bytes bytes) (d : Files) : bytes :=
  match l with
  | [] => []
  | item :: l =>
      match sections !! sectionName item with
      | None | Some [] => write_sections l sections d
      | Some value =>
          match (if contains (sectionName APPEND_ORIGIN_LOG) (sectionName item) then WriteLogToFile value sections d else None) with
          | Some text => text
          | None =>
              (if contains (sectionName SUMMARY) (sectionName item) then [] else logName item) ++
              (if bool_decide (last value = Some 10) then value else value ++ [10]) ++ write_sections l sections d
          end
      end
  end.

Definition WriteFaultLogToFile (logType : Z) (sections : gmap bytes bytes) (d : Files) : bytes :=
  write_sections (GetLogParseSections logType) sections d.

Definition WriteDfxLogToFile : bytes :=
  str "Generated by HiviewDFX@OpenHarmony" ++ [10] ++ str "================================================================" ++ [10].

(** ** The stores *)

Definition MAX_FAULT_LOG_PER_HAP : Z := 10.
Definition WARNING_LOG_MAX_SIZE : Z := 3 * 1024 * 1024.
Definition WARNING_LOG_MIN_KEEP_NUM : Z := 15.
Definition FAULT_LOG_MAX_SIZE : Z := 20 * 1024 * 1024.

(** What the name of a file of the store tells. *)
Definition info_of (f : LogFile) : FaultLogInfo := ExtractInfoFromFileName (ExtractFileName (path_ f)).

Definition CreateLogFileFilter (after uid type : Z) (name : bytes) (f : LogFile) : bool :=
  let i := info_of f in
  negb (time i <=? after) && ((uid =? -1) || (id i =? uid)) && ((type =? 0) || (faultLogType i =? type)) &&
  (bool_decide (name = []) || bool_decide (module i = name)).

Definition store_ : LogStoreEx :=
  SetLogFileComparator (λ lhs rhs, time (info_of lhs) >? time (info_of rhs)) (SetMaxSize FAULT_LOG_MAX_SIZE (LogStoreEx_new FAULTLOG_FAULT_LOGGER_FOLDER true)).

Definition warningLogStore_ : LogStoreEx :=
  SetLogFileComparator (λ lhs rhs, LogFile_lt rhs lhs)
    (SetMinKeepingFileNumber WARNING_LOG_MIN_KEEP_NUM (SetMaxSize WARNING_LOG_MAX_SIZE (LogStoreEx_new FAULTLOG_WARNING_LOG_FOLDER true))).

Definition is_warning (type : Z) : bool := (type =? SYS_WARNING) || (type =? APPFREEZE_WARNING).
Definition store_of (type : Z) : LogStoreEx := if is_warning type then warningLogStore_ else store_.

Definition GetFaultLogFilePath (type : Z) (fileName : bytes) : bytes :=
  (if is_warning type then FAULTLOG_WARNING_LOG_FOLDER else FAULTLOG_FAULT_LOGGER_FOLDER) ++ fileName.

(** [RemoveOldFile]. *)
Definition RemoveOldFile (i : FaultLogInfo) (d : Files) : Files :=
  let d := if bool_decide (logPath i = []) then d else delete (logPath i) d in
  ClearSameLogFilesIfNeeded (CreateLogFileFilter 0 (id i) (faultLogType i) (module i)) MAX_FAULT_LOG_PER_HAP store_ d.

(** The text of a log. *)
Definition log_text (i : FaultLogInfo) (d : Files) : bytes :=
  WriteDfxLogToFile ++ WriteFaultLogToFile (faultLogType i) (sectionMap i) d ++ default [] (WriteLogToFile (logPath i) (sectionMap i) d) ++
  from_option (λ t, [10] ++ str "HiLog:" ++ [10] ++ t) [] (sectionMap i !! str "HILOG") ++
  from_option (λ t, [10] ++ str "MergeLog:" ++ [10] ++ t) [] (sectionMap i !! str "MERGE_LOG").

(** [SaveFaultLogToFile]; [opened] is the descriptor of the new file. *)
Definition SaveFaultLogToFile (opened : Z) (i : FaultLogInfo) (d : Files) : bytes * FaultLogInfo * Files :=
  let fileName := GetFaultLogName i in
  let filePath := GetFaultLogFilePath (faultLogType i) fileName in
  if bool_decide (is_Some (d !! filePath)) then ([], i, d) else
  let '(fd, d) := CreateLogFile opened now fileName (store_of (faultLogType i)) d in
  if fd <? 0 then ([], i, d) else
  let d := <[filePath := mkFile (log_text i d) now]> d in
  let d := RemoveOldFile i d in
  (fileName, mkFault (time i) (id i) (pid i) (faultLogType i) (module i) (reason i) (summary i) filePath (registers i) (otherThreadInfo i) (sanitizerType i) (sectionMap i), d).

(** [GetFaultLogFileList]; a list that is too long is cut. *)
Definition GetFaultLogFileList (name : bytes) (after uid type maxNum : Z) (d : Files) : list bytes :=
  let l := path_ <$> GetLogFiles_filtered (CreateLogFileFilter after uid type name) store_ d in
  if (maxNum <? 0) || (Zlen l <=? u32 maxNum) then l else take (Z.to_nat maxNum) l.

(** [GetFaultLogContent]: the greatest of the names that contain the text. *)
Definition GetFaultLogContent (name : bytes) (d : Files) : option bytes :=
  let matchName := foldl (λ best p, let f := drop (length FAULTLOG_FAULT_LOGGER_FOLDER) p in if contains name f && bytes_lt best f then f else best) []
    (filter (λ p, 47 ∉ drop (length FAULTLOG_FAULT_LOGGER_FOLDER) p) (GetDirFiles FAULTLOG_FAULT_LOGGER_FOLDER d)) in
  if bool_decide (matchName = []) then None else content <$> d !! (FAULTLOG_FAULT_LOGGER_FOLDER ++ matchName).

(** ** Limits of crash logs *)

Definition MAX_MINIDUMP_LOG_PER_HAP : Z := 5.
Definition MAX_FILE_READ_SIZE : Z := 10 * 1024 * 1024.

(** [FindTargetOffset] and [TruncateAppCrashLog], of the text of the log. *)
Definition FindTargetOffset (text target : bytes) : option nat :=
  if bool_decide (target = []) || bool_decide (text = []) then None else find_sub target (take (Z.to_nat MAX_FILE_READ_SIZE) text).
Definition TruncateAppCrashLog (text target : bytes) : bytes := from_option (λ n, take n text) text (FindTargetOffset text target).

Definition MAX_LOG_SIZE : Z := 2 * 1024 * 1024.
Definition TruncateLogIfExceedsLimit (text : bytes) : bytes :=
  if Zlen text <=? MAX_LOG_SIZE then text else take (Z.to_nat MAX_LOG_SIZE) text ++ [10] ++ str "[truncated]".

Definition IsFaultLogLimit (developermode versiontype : bytes) : bool :=
  negb (bool_decide (developermode = str "true") || bool_decide (versiontype = str "beta")).

(** [DoFaultLogLimit], of the text of the log. *)
Definition DoFaultLogLimit (beta developer : bool) (developermode versiontype : bytes) (text : bytes) : bytes :=
  let text := if negb beta && negb developer then TruncateAppCrashLog text (str "MergeLog:") else text in
  if IsFaultLogLimit developermode versiontype then TruncateLogIfExceedsLimit text else text.

(** [DealMiniDumpEvent]; [source] is the dump that was waited for. *)
Definition DealMiniDumpEvent (source : option bytes) (copied : bool) (i : FaultLogInfo) (d : Files) : bytes * Files :=
  match source with
  | None => ([], d)
  | Some src =>
      let dest := FAULTLOG_FAULT_LOGGER_FOLDER ++ str "minidump-" ++ module i ++ str "-" ++ to_string (id i) ++ str "-" ++
                  GetFormatedTimeWithMillsec (u64 (time i)) ++ str ".dmp" in
      if copied then
        let d := <[dest := mkFile (default [] (content <$> d !! src)) now]> d in
        (dest, ClearSameLogFilesIfNeeded (CreateLogFileFilter 0 (id i) MINIDUMP (module i)) MAX_MINIDUMP_LOG_PER_HAP store_ d)
      else ([], d)
  end.

End Files.

End FaultLog.
