(* ===== verification/FaultFacts.v ===== *)
(** * FaultFacts: the files of faults

    What is read back from the name of a log, how many logs of an application stay,
    and that the sections of a log are parsed as they were written. *)

From S2P Require Import Prelude Text DbFile Json Database LogStore Binder ProcFs FaultLog.
From stdpp Require Import base gmap list sorting numbers strings.

Local Open Scope Z_scope.

Module FaultFacts.
Import DbFile.DbFile (find_sub, is_digit, SplitStr, ConvertStringTo, word, Split_word, Split_next, TrimStr_id).
Import Database.Database (Sorter, std_sort, sort_perm, sort_sorted, key_order).
Import LogStore.LogStore.
Import Binder.Binder (contains).
Import ProcFs.ProcFs (after_slash).
Import FaultLog.FaultLog.

(** ** Names *)

Section Names.
Context `{SO : Sorter} (StrToTimeStamp : bytes → Z) (date_of : Z → option bytes) (now : Z).

(** The types of faults whose logs are told from their names. *)
Definition named_types : list Z := [CPP_CRASH; JS_CRASH; APP_FREEZE; SYS_FREEZE; SYS_WARNING; APPFREEZE_WARNING; CJ_ERROR; ADDR_SANITIZER].

Lemma word_by_check s : bool_decide (s ≠ []) && bool_decide (45 ∉ s) && bool_decide (32 ∉ s) = true → word s.
Proof. rewrite !andb_true_iff, !bool_decide_eq_true. intros [[? ?] ?]. done. Qed.

Lemma type_name i : faultLogType i ∈ named_types → word (log_type_name i) ∧ GetLogTypeByName (log_type_name i) = faultLogType i.
Proof.
  intros H. unfold log_type_name. destruct (Z.eqb_spec (faultLogType i) ADDR_SANITIZER) as [->|Hne].
  - unfold sanitizer_name. repeat case_bool_decide; split; done || by apply word_by_check.
  - unfold named_types in H. rewrite !elem_of_cons, elem_of_nil in H. destruct_or?; rewrite ?H; try done; split; done || by apply word_by_check.
Qed.

Lemma digits_word s rest : s ≠ [] → forallb is_digit s = true → 45 ∉ rest → 32 ∉ rest → word (s ++ rest).
Proof.
  intros Hne Hd H1 H2. rewrite forallb_forall in Hd.
  assert (∀ c, c ∈ s → 48 <= c <= 57) as Hr.
  { intros c Hc%list_elem_of_In. specialize (Hd c Hc). unfold is_digit in Hd. lia. }
  split; [by destruct s|]. rewrite !not_elem_of_app. split; (split; [intros Hc%Hr; lia|done]).
Qed.

Lemma pad3_digits n : 0 <= n < 1000 → length (pad3 n) = 3%nat ∧ forallb is_digit (pad3 n) = true.
Proof.
  intros Hn. assert (Forall (λ k, length (pad3 (Z.of_nat k)) = 3%nat ∧ forallb is_digit (pad3 (Z.of_nat k)) = true) (seq 0 1000)) as HF.
  { apply (bool_decide_unpack _). by vm_compute. }
  rewrite Forall_forall in HF. specialize (HF (Z.to_nat n)). rewrite Z2Nat.id in HF by lia. apply HF. apply elem_of_seq. lia.
Qed.

Lemma split_log_name a b c s : word a → word b → word c → word s →
  SplitStr (a ++ str "-" ++ b ++ str "-" ++ c ++ str "-" ++ s) (str "-") = [a; b; c; s].
Proof.
  intros Ha Hb Hc Hs. unfold SplitStr. rewrite TrimStr_id.
  2: { destruct Ha as (_ & _ & ?), Hb as (_ & _ & ?), Hc as (_ & _ & ?), Hs as (_ & _ & ?).
       rewrite !not_elem_of_app. split_and!; try done; by apply (bool_decide_unpack _). }
  rewrite !length_app. change (length (str "-")) with 1%nat.
  replace (S _) with (S (S (S (S (length a + (length b + (length c + length s))))))) by lia.
  by rewrite !Split_next, Split_word.
Qed.

End Names.

(** The name of a log tells its fault: reading back the name made for a fault gives its
    type, its user, its module without the folders and its time in seconds - for all
    types but panics of Rust programs, modules without dash or blank, users that are no
    negative number, and a date that reads back as the time it was printed for. *)
Theorem fault_name_roundtrip (StrToTimeStamp : bytes → Z) (date_of : Z → option bytes) (now : Z) (i : FaultLogInfo) (t : Z) (s : bytes) :
  t = s64 (if u64 (time i) >? u64 now then u64 (time i) / 1000 else u64 (time i)) →
  date_of t = Some s → length s = 14%nat → forallb is_digit s = true → StrToTimeStamp s = t →
  faultLogType i ∈ named_types → word (after_slash (module i)) → 0 <= id i < 2 ^ 31 →
  ExtractInfoFromFileName StrToTimeStamp (GetFaultLogName date_of now i) =
    mkFault t (id i) 0 (faultLogType i) (after_slash (module i)) [] [] [] [] [] [] ∅.
Proof.
  intros Ht Hs Hlen Hdig Hback Htype Hmod Hid. destruct (type_name i Htype) as [Hw Hn]. set (ms := u64 (time i) `mod` 1000).
  assert (Hms : 0 <= ms < 1000) by (apply Z.mod_pos_bound; lia). destruct (pad3_digits ms Hms) as [Hl3 Hd3].
  assert (Hstamp : GetFormatedTimeWithMillsec date_of now (u64 (time i)) ++ str ".log" = s ++ pad3 ms ++ str ".log").
  { unfold GetFormatedTimeWithMillsec, GetFormatedTime, TIME_RATIO. by rewrite <- Ht, Hs, <- app_assoc. }
  unfold ExtractInfoFromFileName, GetFaultLogName. rewrite Hstamp, split_log_name; [|done|done|apply DbFile.DbFile.word_to_string; lia|].
  2: { rewrite app_assoc. apply digits_word; [by destruct s|by rewrite forallb_app, Hdig, Hd3|by apply (bool_decide_unpack _)..]. }
  rewrite DbFile.DbFile.ConvertStringTo_plain by lia. rewrite Hn.
  assert (Hn21 : length (s ++ pad3 ms ++ str ".log") = 21%nat) by (rewrite !length_app, Hlen, Hl3; done). rewrite Hn21.
  rewrite bool_decide_true by lia. change (21 - 4)%nat with 17%nat. change (21 - 7)%nat with 14%nat.
  rewrite bool_decide_true; [|rewrite app_assoc; apply drop_app_length'; rewrite length_app, Hlen, Hl3; done]. cbn [andb].
  rewrite take_app_length' by done. by rewrite Hback.
Qed.

(** ** The stores *)

Section Stores.
Context `{SO : Sorter} (ExtractFileName : bytes → bytes) (StrToTimeStamp : bytes → Z) (date_of : Z → option bytes) (now : Z).

Abbreviation store := (store_ ExtractFileName StrToTimeStamp).

(** The time and the fault a path tells. *)
Definition time_of (p : bytes) : Z := time (ExtractInfoFromFileName StrToTimeStamp (ExtractFileName p)).
Definition same_fault (i : FaultLogInfo) (p : bytes) : bool :=
  CreateLogFileFilter ExtractFileName StrToTimeStamp 0 (id i) (faultLogType i) (module i) (mkLogFile p 0 0).

Lemma store_sorted d : StronglySorted (λ a b, time_of (path_ b) <= time_of (path_ a)) (GetLogFiles store d).
Proof.
  unfold GetLogFiles. eapply sorted_weaken, sort_sorted.
  - intros a b. cbn [store_ SetLogFileComparator comparator_ default from_option]. unfold Datatypes.id. fold (time_of (path_ a)) (time_of (path_ b)).
    unfold info_of. fold (time_of (path_ a)) (time_of (path_ b)). rewrite Z.gtb_ltb, Z.ltb_ge. done.
  - exists (λ f, - time_of (path_ f)). intros a b. cbn [store_ SetLogFileComparator comparator_ default from_option]. unfold Datatypes.id, info_of.
    fold (time_of (path_ a)) (time_of (path_ b)). rewrite Z.gtb_ltb.
    destruct (Z.ltb_spec (time_of (path_ b)) (time_of (path_ a))), (Z.ltb_spec (- time_of (path_ a)) (- time_of (path_ b))); lia.
Qed.

Lemma sorted_filter {A} (R : A → A → Prop) (P : A → Prop) `{!∀ x, Decision (P x)} l : StronglySorted R l → StronglySorted R (filter P l).
Proof.
  induction 1 as [|x l Hl IH Hx]; [constructor|]. rewrite filter_cons. case_decide; [|done]. constructor; [done|].
  apply Forall_forall. intros y [_ Hy]%list_elem_of_filter. rewrite Forall_forall in Hx. auto.
Qed.

(** What is cut off a sorted list is no newer than what is left. *)
Lemma cut_older (l : list LogFile) k p q :
  StronglySorted (λ a b, time_of (path_ b) <= time_of (path_ a)) l → NoDup (path_ <$> l) →
  p ∈ path_ <$> take k l → q ∈ path_ <$> l → q ∉ path_ <$> take k l → time_of q <= time_of p.
Proof.
  intros HS Hnd Hp Hq Hnq. rewrite <- (take_drop k l) in HS, Hq. rewrite fmap_app, elem_of_app in Hq. destruct Hq as [|Hq]; [done|].
  apply StronglySorted_app in HS as (HS & _ & _). apply list_elem_of_fmap in Hp as (f & -> & Hf), Hq as (g & -> & Hg). by apply HS.
Qed.

(** Clearing the store leaves the newest. *)
Lemma store_cleared d p q :
  Zlen (GetDirFiles FAULTLOG_FAULT_LOGGER_FOLDER d) < 2 ^ 32 → let d' := ClearOldestFilesIfNeeded store d in
  in_folder FAULTLOG_FAULT_LOGGER_FOLDER p = true → in_folder FAULTLOG_FAULT_LOGGER_FOLDER q = true →
  is_Some (d' !! p) → is_Some (d !! q) → d' !! q = None → time_of q <= time_of p.
Proof.
  intros Hbig d' Hp Hq Hp' Hq' Hnq. assert (Hcount : Zlen (GetLogFiles store d) < 2 ^ 32) by by rewrite (log_files_count store d).
  destruct (Z.lt_ge_cases (GetFolderSize (dir_ store) d) (maxSize_ store)) as [Hlt|Hge].
  { assert (d' = d) as E by (unfold d', ClearOldestFilesIfNeeded; by rewrite (proj2 (Z.ltb_lt _ _))). rewrite E in Hnq. destruct Hq'; congruence. }
  pose proof (clear_lookup store d ltac:(done) Hge Hcount) as HD. cbv zeta in HD. fold d' in HD. set (k := Z.to_nat _) in HD.
  assert (Hall : ∀ x, in_folder FAULTLOG_FAULT_LOGGER_FOLDER x = true → is_Some (d !! x) → x ∈ path_ <$> GetLogFiles store d)
    by (intros x Hx Hs; apply elem_of_log_files; done).
  rewrite HD in Hp'. case_decide as Hdp; [by destruct Hp'|]. rewrite HD in Hnq. case_decide as Hdq; [|destruct Hq'; congruence].
  specialize (Hall p Hp Hp'). pose proof (log_files_nodup store d) as Hnd. rewrite <- (take_drop k (GetLogFiles store d)), fmap_app in Hall, Hnd.
  apply NoDup_app in Hnd as (_ & Hdis & _). apply elem_of_app in Hall as [Hall|]; [|done].
  apply (cut_older (GetLogFiles store d) k); [apply store_sorted|apply log_files_nodup|done| |intros H; by apply (Hdis q H)].
  rewrite <- (take_drop k (GetLogFiles store d)), fmap_app. by apply elem_of_app; right.
Qed.

Lemma filtered_paths i d p :
  p ∈ path_ <$> GetLogFiles_filtered (CreateLogFileFilter ExtractFileName StrToTimeStamp 0 (id i) (faultLogType i) (module i)) store d ↔
  same_fault i p = true ∧ in_folder FAULTLOG_FAULT_LOGGER_FOLDER p = true ∧ is_Some (d !! p).
Proof.
  unfold GetLogFiles_filtered. rewrite list_elem_of_fmap. change FAULTLOG_FAULT_LOGGER_FOLDER with (dir_ store). rewrite <- elem_of_log_files, list_elem_of_fmap. split.
  - intros (f & -> & [Hf Hin]%list_elem_of_filter). split; [exact Hf|]. by exists f.
  - intros (Hf & f & -> & Hin). exists f. split; [done|]. by apply list_elem_of_filter.
Qed.

(** Clearing what is of the same fault leaves the newest, at most as many as asked. *)
Lemma same_cleared i d n :
  0 <= n → Zlen (GetDirFiles FAULTLOG_FAULT_LOGGER_FOLDER d) < 2 ^ 32 →
  let d' := ClearSameLogFilesIfNeeded (CreateLogFileFilter ExtractFileName StrToTimeStamp 0 (id i) (faultLogType i) (module i)) n store d in
  let same d := filter (λ p, same_fault i p = true) (GetDirFiles FAULTLOG_FAULT_LOGGER_FOLDER d) in
  Zlen (same d') <= n ∧
  (∀ p, d' !! p = d !! p ∨ d' !! p = None ∧ p ∈ same d) ∧
  (∀ p q, p ∈ same d' → q ∈ same d → d' !! q = None → time_of q <= time_of p).
Proof.
  intros Hn Hbig d' same. unfold ClearSameLogFilesIfNeeded in d'. set (l := GetLogFiles_filtered _ store d) in d'. match goal with d' := DoDeleteLogFiles _ ?x d |- _ => set (m := x) in d' end.
  assert (Hl : ∀ p, p ∈ path_ <$> l ↔ p ∈ same d).
  { intros p. unfold l, same. rewrite filtered_paths, list_elem_of_filter, elem_of_dir_files. done. }
  assert (Hnd : NoDup (path_ <$> l)).
  { eapply sublist_NoDup; [apply (log_files_nodup store d)|]. apply fmap_sublist, sublist_filter. }
  assert (Hlen : Zlen l <= Zlen (GetDirFiles FAULTLOG_FAULT_LOGGER_FOLDER d)).
  { unfold Zlen. rewrite <- (length_fmap path_ l). apply inj_le, submseteq_length, NoDup_submseteq; [done|]. intros p Hp%Hl.
    by apply list_elem_of_filter in Hp as [_ ?]. }
  assert (Hm : m = Z.max 0 (Zlen l - n)).
  { pose proof (Zlen_nonneg l). unfold m. destruct (Zlen l >? n) eqn:E; [apply Z.gtb_lt in E; rewrite u32_small by (unfold is_u; lia); lia|].
    rewrite Z.gtb_ltb, Z.ltb_ge in E. lia. }
  set (k := Z.to_nat (Zlen l - m)). pose proof (Zlen_nonneg l) as H0.
  assert (Hd : ∀ p, d' !! p = if decide (p ∈ path_ <$> l) then (if decide (p ∈ path_ <$> take k l) then d !! p else None) else d !! p).
  { intros p. unfold d'. case_decide as Hp; [apply delete_from_end; try done; lia|apply delete_keeps_others; [lia|done]]. }
  assert (Htake : ∀ p, p ∈ same d' → p ∈ path_ <$> take k l).
  { intros p [Hs [Hf Hi]%elem_of_dir_files]%list_elem_of_filter. rewrite Hd in Hi. case_decide as H1; [by case_decide; [|destruct Hi]|].
    destruct H1. apply Hl, list_elem_of_filter. split; [done|]. by apply elem_of_dir_files. }
  split; [|split].
  - assert (Zlen (same d') <= Z.of_nat k) as Hk; [|lia].
    transitivity (Z.of_nat (length (path_ <$> take k l))); [|rewrite length_fmap, length_take; lia].
    apply inj_le, submseteq_length, NoDup_submseteq; [|exact Htake]. apply NoDup_filter, dir_files_nodup.
  - intros p. rewrite Hd. case_decide as H1; [|by left]. case_decide; [by left|]. right. split; [done|]. by apply Hl.
  - intros p q Hp%Htake Hq%Hl Hnq. apply (cut_older l k); try done; [apply sorted_filter, store_sorted|].
    intros H. rewrite Hd, decide_True, decide_True in Hnq by done. apply Hl, list_elem_of_filter in Hq as [_ [_ Hi]%elem_of_dir_files].
    rewrite Hnq in Hi. by destruct Hi.
Qed.

Lemma clear_oldest_subset (s : LogStoreEx) d p : is_Some (ClearOldestFilesIfNeeded s d !! p) → is_Some (d !! p).
Proof.
  unfold ClearOldestFilesIfNeeded. case_match; [done|]. unfold DoDeleteLogFiles. generalize (reverse (GetLogFiles s d)). intros l.
  assert (∀ l n k d, is_Some (delete_loop l n k d !! p) → is_Some (d !! p)) as HL; [|apply HL].
  clear. induction l as [|f l IH]; intros n k d; cbn [delete_loop]; [done|]. case_match; [done|]. intros [x Hx]%IH.
  apply lookup_delete_Some in Hx as [_ Hx]. eauto.
Qed.

Lemma clear_oldest_elsewhere (s : LogStoreEx) d p : in_folder (dir_ s) p = false → ClearOldestFilesIfNeeded s d !! p = d !! p.
Proof.
  intros Hp. unfold ClearOldestFilesIfNeeded. case_match; [done|]. apply delete_keeps_others.
  - case_match; unfold u32; apply Z.mod_pos_bound; lia.
  - rewrite elem_of_log_files. intros [Hin _]. congruence.
Qed.

End Stores.

(** Of the faults of one kind, user and module at most ten logs stay, and they are the
    newest: when the log of a fault was saved, no more than ten files of the folder of
    faults tell its type, its user and its module, and no file of the same fault that
    is gone - the log that was collected apart - nor the new log itself, if it went at
    once, is newer than one that is left. *)
Theorem newest_faults_kept `{SO : Sorter} (ExtractFileName : bytes → bytes) (StrToTimeStamp : bytes → Z) (date_of : Z → option bytes) (now opened : Z)
    (i i' : FaultLogInfo) (name : bytes) (d d' : Files) :
  Zlen (GetDirFiles FAULTLOG_FAULT_LOGGER_FOLDER d) < 2 ^ 32 - 1 → name ≠ [] →
  SaveFaultLogToFile ExtractFileName StrToTimeStamp date_of now opened i d = (name, i', d') →
  let same d := filter (λ p, same_fault ExtractFileName StrToTimeStamp i p = true) (GetDirFiles FAULTLOG_FAULT_LOGGER_FOLDER d) in
  let age := time_of ExtractFileName StrToTimeStamp in
  Zlen (same d') <= 10 ∧
  ∀ p q, p ∈ same d' → p ≠ logPath i' → q ∈ same d ∨ q ∈ same (<[logPath i' := mkFile [] 0]> d) → d' !! q = None → q ≠ logPath i → age q <= age p.
Proof.
  intros Hbig Hname. unfold SaveFaultLogToFile. set (path := GetFaultLogFilePath _ _). case_bool_decide as Hnew; [congruence|].
  unfold CreateLogFile. assert (autoDeleteFiles_ (store_of ExtractFileName StrToTimeStamp (faultLogType i)) = true) as -> by (unfold store_of; by case_match).
  set (d1 := ClearOldestFilesIfNeeded _ d). destruct (Z.ltb_spec opened 0); [congruence|].
  assert (IncludeTrailingPathDelimiter (dir_ (store_of ExtractFileName StrToTimeStamp (faultLogType i))) ++ GetFaultLogName date_of now i = path) as ->
    by (unfold path, store_of, GetFaultLogFilePath; by case_match).
  set (text := log_text _ _). rewrite insert_insert_eq. set (d2 := <[path := _]> d1). intros E. injection E as Hn Hi' Hd'.
  unfold RemoveOldFile in Hd'. set (d3 := if bool_decide _ then _ else _) in Hd'. rewrite <- Hi'. cbn [logPath]. set (age := time_of ExtractFileName StrToTimeStamp).
  assert (H1 : ∀ q, is_Some (d1 !! q) → is_Some (d !! q)) by (intros q; apply clear_oldest_subset).
  assert (H3 : ∀ q, is_Some (d3 !! q) → q = path ∨ is_Some (d1 !! q)).
  { intros q. unfold d3, d2. destruct (decide (q = path)) as [->|Hq]; [by left|]. intros Hs. right. case_bool_decide.
    - by rewrite lookup_insert_ne in Hs by done.
    - destruct Hs as [x Hx]. apply lookup_delete_Some in Hx as [_ Hx]. rewrite lookup_insert_ne in Hx by done. eauto. }
  assert (H3' : ∀ q, q ≠ logPath i → q = path ∨ is_Some (d1 !! q) → is_Some (d3 !! q)).
  { intros q Hq Hs. assert (is_Some (d2 !! q)) as H2.
    { unfold d2. destruct (decide (path = q)) as [<-|]; [rewrite lookup_insert_eq; eauto|]. rewrite lookup_insert_ne by done. by destruct Hs as [->|]. }
    unfold d3. case_bool_decide; [done|]. by rewrite lookup_delete_ne. }
  assert (Hbig3 : Zlen (GetDirFiles FAULTLOG_FAULT_LOGGER_FOLDER d3) < 2 ^ 32).
  { assert (Zlen (GetDirFiles FAULTLOG_FAULT_LOGGER_FOLDER d3) <= Zlen (path :: GetDirFiles FAULTLOG_FAULT_LOGGER_FOLDER d)) as Hle; [|rewrite Zlen_cons in Hle; lia].
    apply inj_le, submseteq_length, NoDup_submseteq; [apply dir_files_nodup|]. intros q [Hf Hs]%elem_of_dir_files. apply elem_of_cons.
    destruct (H3 q Hs) as [|?%H1]; [by left|right]. by apply elem_of_dir_files. }
  destruct (same_cleared ExtractFileName StrToTimeStamp i d3 MAX_FAULT_LOG_PER_HAP ltac:(done) Hbig3) as (Hcount & Hsame & Hage). rewrite Hd' in Hcount, Hsame, Hage.
  split; [exact Hcount|]. intros p q Hp Hpnew Hq Hgone Hqlog. pose proof Hp as [Hsp [Hfp Hip]%elem_of_dir_files]%list_elem_of_filter.
  assert (is_Some (d1 !! p)) as Hp1.
  { destruct (Hsame p) as [Ep|[Ep _]]; rewrite Ep in Hip; [|by destruct Hip]. destruct (H3 p Hip); done. }
  assert (Hq3 : is_Some (d3 !! q) → same_fault ExtractFileName StrToTimeStamp i q = true → in_folder FAULTLOG_FAULT_LOGGER_FOLDER q = true → age q <= age p).
  { intros. apply Hage; [done| |done]. apply list_elem_of_filter. split; [done|]. by apply elem_of_dir_files. }
  assert (same_fault ExtractFileName StrToTimeStamp i q = true ∧ in_folder FAULTLOG_FAULT_LOGGER_FOLDER q = true ∧ (q = path ∨ is_Some (d !! q))) as (Hsq & Hfq & Hqs).
  { destruct Hq as [[? [? ?]%elem_of_dir_files]%list_elem_of_filter|[? [? Hi]%elem_of_dir_files]%list_elem_of_filter]; [by auto|].
    split; [done|]. split; [done|]. destruct (decide (path = q)) as [|]; [by left|right]. by rewrite lookup_insert_ne in Hi. }
  destruct (decide (q = path ∨ is_Some (d1 !! q))) as [Hthere|Hnot]; [apply Hq3; [by apply H3'|done|done]|].
  destruct Hqs as [|Hqs]; [by destruct Hnot; left|]. assert (d1 !! q = None) as Eq1 by (apply eq_None_not_Some; tauto).
  unfold d1, store_of in Eq1, Hp1. destruct (is_warning (faultLogType i)).
  - exfalso. rewrite clear_oldest_elsewhere in Eq1; [rewrite Eq1 in Hqs; by destruct Hqs|].
    apply bool_decide_eq_true in Hfq as [r ->]. apply bool_decide_eq_false_2. intros [r' E]. vm_compute in E. discriminate E.
  - apply (store_cleared ExtractFileName StrToTimeStamp d p q); try done. lia.
Qed.

(** ** Sections *)

(** A text whose last line is ended. *)
Definition closed (v : bytes) : bytes := if bool_decide (last v = Some 10) then v else v ++ [10].

Lemma last_closed v : last (closed v) = Some 10.
Proof. unfold closed. case_bool_decide; [done|]. by rewrite last_snoc. Qed.

Lemma ended_line part l r : 10 ∉ l → ended_lines part (l ++ 10 :: r) = (part ++ l) :: ended_lines [] r.
Proof.
  revert part. induction l as [|c l IH]; intros part H; cbn [app ended_lines]; [by rewrite app_nil_r|].
  apply not_elem_of_cons in H as [Hc H]. rewrite (proj2 (Z.eqb_neq c 10)) by done. rewrite IH by done. by rewrite <- app_assoc.
Qed.

Lemma ended_lines_app part s r : last s = Some 10 → ended_lines part (s ++ r) = ended_lines part s ++ ended_lines [] r.
Proof.
  revert part. induction s as [|c s IH]; intros part H; [done|]. cbn [app ended_lines]. destruct (decide (s = [])) as [->|Hs].
  - injection H as ->. done.
  - assert (last s = Some 10) as Hl by (destruct s; [done|exact H]). rewrite !IH by done. by case_match.
Qed.

Lemma ended_lines_join part s : last s = Some 10 → mjoin ((λ l, l ++ [10]) <$> ended_lines part s) = part ++ s.
Proof.
  revert part. induction s as [|c s IH]; intros part H; [done|]. cbn [ended_lines]. destruct (decide (s = [])) as [->|Hs].
  - injection H as ->. cbn. by rewrite app_nil_r.
  - assert (last s = Some 10) as Hl by (destruct s; [done|exact H]). destruct (Z.eqb_spec c 10) as [->|].
    + cbn [fmap list_fmap mjoin list_join]. fold (mjoin (M := list) (A := Z)). rewrite IH by done. by rewrite <- app_assoc.
    + rewrite IH by done. by rewrite <- app_assoc.
Qed.

Lemma find_char_app c s v : c ∈ s → ∃ n, find_sub [c] s = Some n ∧ find_sub [c] (s ++ v) = Some n ∧ (n < length s)%nat.
Proof.
  induction s as [|x s IH]; intros H; [by apply elem_of_nil in H|]. cbn [app find_sub length]. destruct (decide (x = c)) as [->|Hx].
  - exists 0%nat. rewrite !bool_decide_true by (eexists; reflexivity). split; [done|]. split; [done|lia].
  - destruct IH as (n & E1 & E2 & Hn); [by apply elem_of_cons in H as [|]|]. exists (S n).
    rewrite !bool_decide_false by (intros ?%prefix_cons_inv_1; congruence). rewrite E1, E2. split; [done|]. split; [done|lia].
Qed.

Lemma after_colon_app s v : 58 ∈ s → after_colon (s ++ v) = after_colon s ++ v.
Proof.
  intros H. destruct (find_char_app 58 s v H) as (n & E1 & E2 & Hn). unfold after_colon. change (str ":") with [58]. rewrite E1, E2.
  by rewrite drop_app_le by lia.
Qed.

Section Sections.
Context (L : list SectionLog).

(** A section with lines of its own. *)
Definition multi (item : SectionLog) : bool := bool_decide (last (logName item) = Some 10).

Definition first_head (line : bytes) : option SectionLog := snd <$> list_find (λ it, heads line it = true) L.
Definition no_head (line : bytes) : bool := forallb (λ it, negb (heads line it)) L.

(** The value of a section can be told from what is around it: the section has a head
    and is no other file's text nor the summary, which has none; no line of the value
    has a head, and on the line of its head no other comes first. *)
Definition readable (item : SectionLog) (v : bytes) : bool :=
  bool_decide (1 < length (logName item))%nat && negb (contains (sectionName APPEND_ORIGIN_LOG) (sectionName item)) &&
  negb (contains (sectionName SUMMARY) (sectionName item)) &&
  (if multi item then forallb (λ l, negb (bool_decide (l = [])) && no_head l) (ended_lines [] (closed v))
   else bool_decide (10 ∉ v) && bool_decide (sectionName <$> first_head (logName item ++ v) = Some (sectionName item))).

(** What is read back: the lines, or the value, after a blank where the head has one. *)
Definition stored (item : SectionLog) (v : bytes) : bytes := if multi item then closed v else after_colon (logName item) ++ v.

(** What the tables of sections have in common. *)
Definition good_item (item : SectionLog) : bool :=
  negb (bool_decide (sectionName item = [])) &&
  (negb (bool_decide (1 < length (logName item))%nat) ||
   (bool_decide (10 ∉ section_head item) && bool_decide (section_head item ≠ []) && bool_decide (58 ∈ logName item) &&
    (negb (multi item) || bool_decide (sectionName <$> first_head (section_head item) = Some (sectionName item))))).
Definition good_table : bool := forallb good_item L && bool_decide (NoDup (sectionName <$> L)).

Context (good : good_table = true).

Lemma good_items item : item ∈ L → good_item item = true.
Proof. apply andb_true_iff in good as [H _]. rewrite forallb_forall in H. intros Hi%list_elem_of_In. auto. Qed.

Lemma same_name a b : a ∈ L → b ∈ L → sectionName a = sectionName b → a = b.
Proof.
  apply andb_true_iff in good as [_ H%bool_decide_eq_true]. intros Ha Hb E. apply list_elem_of_lookup in Ha as [i Hi], Hb as [j Hj].
  assert (i = j) as ->; [|congruence]. eapply NoDup_lookup; [exact H|rewrite list_lookup_fmap, Hi; done|]. rewrite list_lookup_fmap, Hj. cbn. by rewrite E.
Qed.

Lemma first_head_is line item : item ∈ L → sectionName <$> first_head line = Some (sectionName item) →
  ∃ n, list_find (λ it, heads line it = true) L = Some (n, item).
Proof.
  intros Hi H. unfold first_head in H. destruct (list_find _ L) as [[n x]|] eqn:E; [|done]. cbn in H. injection H as H. exists n.
  apply list_find_Some in E as (Hx%list_elem_of_lookup_2 & _). by rewrite (same_name x item Hx Hi H).
Qed.

Lemma no_head_find line : no_head line = true → list_find (λ it, heads line it = true) L = None.
Proof.
  intros H. apply list_find_None, Forall_forall. intros x Hx%list_elem_of_In Hh. unfold no_head in H. rewrite forallb_forall in H.
  specialize (H x Hx). by rewrite Hh in H.
Qed.

(** What is parsed when the text ends. *)
Definition finish (p : Parsing) : gmap bytes bytes :=
  if bool_decide (multline p ≠ []) && bool_decide (multlineName p ≠ []) then <[multlineName p := multline p]> (parsed p) else parsed p.

(** Lines without a head are gathered. *)
Lemma parse_lines p ls : forallb (λ l, negb (bool_decide (l = [])) && no_head l) ls = true →
  foldl (parse_line L) p ls = mkParsing (multline p ++ mjoin ((λ l, l ++ [10]) <$> ls)) (multlineName p) (parsed p).
Proof.
  revert p. induction ls as [|l ls IH]; intros p H; [destruct p; cbn; by rewrite app_nil_r|]. cbn [forallb] in H.
  apply andb_true_iff in H as [[Hl Hn]%andb_true_iff H]. cbn [foldl]. rewrite IH by done. unfold parse_line.
  apply negb_true_iff, bool_decide_eq_false in Hl. rewrite bool_decide_false by done. rewrite no_head_find by done. cbn. by rewrite <- !app_assoc.
Qed.

(** A pending value belongs to a section that does not come again. *)
Definition pending_ok (keys : list bytes) (p : Parsing) : Prop := multline p = [] ∨ multlineName p ≠ [] ∧ multlineName p ∉ keys.

Lemma flush_pending p key : pending_ok [key] p →
  (if bool_decide (key ≠ multlineName p) && bool_decide (multline p ≠ []) then <[multlineName p := multline p]> (parsed p) else parsed p) = finish p.
Proof.
  intros [H|[H1 H2]]; unfold finish.
  - rewrite H. rewrite (bool_decide_false ([] ≠ [])) by naive_solver. by rewrite andb_false_r.
  - rewrite (bool_decide_true (key ≠ _)) by set_solver. rewrite (bool_decide_true (multlineName p ≠ [])) by done. by rewrite andb_true_r.
Qed.

(** The lines of one section. *)
Lemma parse_section item v p :
  item ∈ L → readable item v = true → v ≠ [] → pending_ok [sectionName item] p →
  ∃ q, (∀ r, foldl (parse_line L) p (ended_lines [] (logName item ++ closed v ++ r)) = foldl (parse_line L) q (ended_lines [] r)) ∧
    finish q = <[sectionName item := stored item v]> (finish p) ∧ (multline q = [] ∨ multlineName q = sectionName item).
Proof.
  intros Hi Hr Hv Hp. pose proof (good_items item Hi) as Hg. unfold readable, good_item in Hr, Hg.
  rewrite !andb_true_iff in Hr. destruct Hr as [[[Hlen _] _] Hr]. rewrite Hlen in Hg. cbn [negb orb] in Hg. rewrite !andb_true_iff in Hg.
  destruct Hg as [Hkey [[[Hnl%bool_decide_eq_true Hne%bool_decide_eq_true] Hcol%bool_decide_eq_true] Hfirst]].
  apply negb_true_iff, bool_decide_eq_false in Hkey. unfold stored. destruct (multi item) eqn:Em; cbn [negb orb] in Hfirst.
  - apply bool_decide_eq_true in Hfirst, Em. destruct (first_head_is _ item Hi Hfirst) as [n Hn].
    assert (logName item = section_head item ++ [10]) as Hlog.
    { unfold section_head. rewrite bool_decide_true by done. apply last_Some in Em as [l El]. rewrite El, length_app. cbn.
      replace (length l + 1 - 1)%nat with (length l) by lia. by rewrite take_app_length. }
    set (ls := ended_lines [] (closed v)) in *.
    exists (mkParsing (mjoin ((λ l, l ++ [10]) <$> ls)) (sectionName item) (finish p)). split; [|split].
    + intros r. rewrite Hlog, <- app_assoc. cbn [app]. rewrite ended_line by done. cbn [app foldl].
      rewrite ended_lines_app by apply last_closed. rewrite foldl_app. fold ls. f_equal. rewrite parse_lines by done.
      unfold parse_line. rewrite bool_decide_false, Hn by done. rewrite flush_pending by done. by rewrite bool_decide_true.
    + unfold ls. rewrite ended_lines_join by apply last_closed. cbn [app]. unfold finish at 1. cbn [multline multlineName parsed].
      pose proof (last_closed v). rewrite !bool_decide_true; [done|done|by intros E; rewrite E in *].
    + by right.
  - apply andb_true_iff in Hr as [Hv10%bool_decide_eq_true Hh%bool_decide_eq_true]. destruct (first_head_is _ item Hi Hh) as [n Hn].
    assert (closed v = v ++ [10]) as ->.
    { unfold closed. rewrite bool_decide_false; [done|]. intros (l & ->)%last_Some. apply Hv10. rewrite elem_of_app. right. by left. }
    assert (section_head item = logName item) as Hsh by (unfold section_head, multi in *; by rewrite Em).
    exists (mkParsing [] (multlineName p) (<[sectionName item := after_colon (logName item ++ v)]> (finish p))). split; [|split].
    + intros r. rewrite <- app_assoc. cbn [app]. rewrite (app_assoc (logName item)). rewrite ended_line by (rewrite <- Hsh, not_elem_of_app; done).
      cbn [app foldl]. f_equal. unfold parse_line. rewrite bool_decide_false by (destruct v; [done|intros [_ [=]]%app_eq_nil]).
      rewrite Hn, flush_pending by done. rewrite bool_decide_false; [done|]. rewrite Hsh. intros E%(f_equal length). rewrite length_app in E.
      destruct v; [done|cbn in E; lia].
    + unfold finish at 1. cbn [multline multlineName parsed]. rewrite bool_decide_false by naive_solver. cbn [andb]. f_equal. apply after_colon_app, Hcol.
    + by left.
Qed.

End Sections.

(** What is read back from the sections of a table. *)
Definition add_section (sections : gmap bytes bytes) (m : gmap bytes bytes) (item : SectionLog) : gmap bytes bytes :=
  match sections !! sectionName item with
  | Some ((_ :: _) as v) => <[sectionName item := stored item v]> m
  | _ => m
  end.

Lemma parse_sections L sections d l p :
  good_table L = true → l ⊆ L → NoDup (sectionName <$> l) → pending_ok (sectionName <$> l) p →
  (∀ item v, item ∈ l → sections !! sectionName item = Some v → v ≠ [] → readable L item v = true) →
  finish (foldl (parse_line L) p (ended_lines [] (write_sections l sections d))) = foldl (add_section sections) (finish p) l.
Proof.
  intros HL. revert p. induction l as [|item l IH]; intros p Hsub Hnd Hp Hr; [done|]. cbn [foldl write_sections].
  apply NoDup_cons in Hnd as [Hnew Hnd]. assert (Hsub' : l ⊆ L) by set_solver.
  assert (Hp' : pending_ok (sectionName <$> l) p) by (destruct Hp as [|[? ?]]; [by left|right; set_solver]).
  assert (Hr' : ∀ item v, item ∈ l → sections !! sectionName item = Some v → v ≠ [] → readable L item v = true) by (intros; apply Hr; [by right|done..]).
  unfold add_section at 2. destruct (sections !! sectionName item) as [v|] eqn:Ev; [|by apply IH]. destruct v as [|c v]; [by apply IH|].
  pose proof (Hr item (c :: v) ltac:(left) Ev ltac:(done)) as Hit. pose proof Hit as Hflags. unfold readable in Hflags. rewrite !andb_true_iff in Hflags.
  destruct Hflags as [[[_ Horigin%negb_true_iff] Hsum%negb_true_iff] _]. rewrite Horigin, Hsum. fold (closed (c :: v)).
  destruct (parse_section L HL item (c :: v) p) as (q & Hq & Hf & Hname); [set_solver|done|done|destruct Hp as [|[? ?]]; [by left|right; set_solver]|].
  rewrite Hq, <- Hf. apply IH; try done. destruct Hname as [|Hname]; [by left|]. right. rewrite Hname. split; [|done].
  assert (item ∈ L) as Hin by set_solver. pose proof (good_items L HL item Hin) as Hg. unfold good_item in Hg. apply andb_true_iff in Hg as [Hg _].
  by apply negb_true_iff, bool_decide_eq_false in Hg.
Qed.

Lemma added_other sections l m k : k ∉ sectionName <$> l → foldl (add_section sections) m l !! k = m !! k.
Proof.
  revert m. induction l as [|item l IH]; intros m H; [done|]. cbn [fmap list_fmap] in H. apply not_elem_of_cons in H as [Hk H]. cbn [foldl].
  rewrite IH by done. unfold add_section. repeat case_match; try done. by rewrite lookup_insert_ne.
Qed.

Lemma added_own sections l m item : NoDup (sectionName <$> l) → item ∈ l → m !! sectionName item = None →
  foldl (add_section sections) m l !! sectionName item = v ← sections !! sectionName item; if bool_decide (v = []) then None else Some (stored item v).
Proof.
  revert m. induction l as [|x l IH]; intros m Hnd Hi Hm; [by apply elem_of_nil in Hi|]. cbn [fmap list_fmap] in Hnd. apply NoDup_cons in Hnd as [Hnew Hnd].
  cbn [foldl]. apply elem_of_cons in Hi as [->|Hi].
  - rewrite added_other by done. unfold add_section. destruct (sections !! sectionName x) as [[|c v]|]; cbn; [done| |done]. by rewrite lookup_insert_eq.
  - apply IH; [done..|]. unfold add_section. repeat case_match; try done. rewrite lookup_insert_ne; [done|]. intros E. apply Hnew. rewrite E. apply list_elem_of_fmap. eauto.
Qed.

Lemma tables_good type : good_table (GetLogParseSections type) = true.
Proof. unfold GetLogParseSections. repeat case_match; vm_compute; reflexivity. Qed.

(** The sections of a log are parsed as they were written.  Whatever the type of the
    fault: if the values of its sections can be told apart - each section has a head,
    no line of a value has the head of any section, and a value on the line of its
    head has one line whose first head is its own - then parsing the text that is
    written gives every section that has a value its value back, lines ended, and
    nothing else. *)
Theorem sections_roundtrip (type : Z) (sections : gmap bytes bytes) (d : Files) :
  let L := GetLogParseSections type in
  (∀ item v, item ∈ L → sections !! sectionName item = Some v → v ≠ [] → readable L item v = true) →
  let parsed := parse_text L (WriteFaultLogToFile type sections d) ∅ in
  (∀ item, item ∈ L → parsed !! sectionName item = v ← sections !! sectionName item; if bool_decide (v = []) then None else Some (stored item v)) ∧
  (∀ k, k ∉ sectionName <$> L → parsed !! k = None).
Proof.
  intros L Hr parsed. pose proof (tables_good type) as HL. fold L in HL. pose proof HL as [_ Hnd%bool_decide_eq_true]%andb_true_iff.
  assert (parsed = foldl (add_section sections) ∅ L) as ->.
  { unfold parsed, parse_text. apply (parse_sections L sections d L (mkParsing [] [] ∅)); try done. by left. }
  split; [intros item Hi; by apply added_own|intros k Hk; by rewrite added_other].
Qed.

(** Only the head of the resident size ends with a blank. *)
Example blanks_after_heads :
  filter (λ item, negb (bool_decide (logName item = [])) && negb (multi item) && negb (bool_decide (after_colon (logName item) = [])) = true) GetCppCrashSectionLogs
    = [PROCESS_RSS_MEMINFO] ∧ after_colon (logName PROCESS_RSS_MEMINFO) = str " ".
Proof. vm_compute. done. Qed.

#[export] Instance SectionLog_eq : EqDecision SectionLog := ltac:(solve_decision).

Definition crash_sections : gmap bytes bytes :=
  <[str "PNAME" := str "app"]> (<[str "REASON" := str "Signal:SIGSEGV(SEGV_MAPERR)@0x0"]>
    (<[str "KEY_THREAD_INFO" := str "Tid:7, Name:app" ++ [10] ++ str "#00 pc 01 /lib/a.so" ++ [10]]> (<[str "PROCESS_RSS_MEMINFO" := str "3"]> ∅))).

Lemma sections_roundtrip_witness :
  let parsed := parse_text GetCppCrashSectionLogs (WriteFaultLogToFile CPP_CRASH crash_sections ∅) ∅ in
  parsed !! str "PNAME" = Some (str "app") ∧ parsed !! str "REASON" = Some (str "Signal:SIGSEGV(SEGV_MAPERR)@0x0") ∧
  parsed !! str "KEY_THREAD_INFO" = crash_sections !! str "KEY_THREAD_INFO" ∧ parsed !! str "PROCESS_RSS_MEMINFO" = Some (str " 3").
Proof.
  assert (Hr : ∀ item v, item ∈ GetLogParseSections CPP_CRASH → crash_sections !! sectionName item = Some v → v ≠ [] → readable (GetLogParseSections CPP_CRASH) item v = true).
  { assert (Forall (λ item, (match crash_sections !! sectionName item with Some v => readable (GetLogParseSections CPP_CRASH) item v | None => true end) = true)
      (GetLogParseSections CPP_CRASH)) as HF by (apply (bool_decide_eq_true_1 (Forall _ _)); vm_compute; reflexivity).
    rewrite Forall_forall in HF. intros item v Hi Hv _. specialize (HF item Hi). by rewrite Hv in HF. }
  destruct (sections_roundtrip CPP_CRASH crash_sections ∅ Hr) as [H _].
  split_and!.
  - refine (eq_trans (H PROCESS_NAME _) _); [|by vm_compute]. by apply (bool_decide_eq_true_1 (PROCESS_NAME ∈ _)).
  - refine (eq_trans (H REASON _) _); [|by vm_compute]. by apply (bool_decide_eq_true_1 (REASON ∈ _)).
  - refine (eq_trans (H KEY_THREAD_INFO _) _); [|by vm_compute]. by apply (bool_decide_eq_true_1 (KEY_THREAD_INFO ∈ _)).
  - refine (eq_trans (H PROCESS_RSS_MEMINFO _) _); [|by vm_compute]. by apply (bool_decide_eq_true_1 (PROCESS_RSS_MEMINFO ∈ _)).
Defined.

(** *** Examples *)

(** Panics of Rust programs are named so that the name does not tell them: their logs are
    never counted, and never removed for their number. *)
Example rust_panics_unnamed : GetLogTypeByName (GetFaultNameByType RUST_PANIC true) = -1.
Proof. done. Qed.

(** When the log to be taken in is not there, the sections after it are lost. *)
Example sections_lost :
  WriteFaultLogToFile ADDR_SANITIZER {[str "APPEND_ORIGIN_LOG" := str "/gone"; str "REASON" := str "heap-use-after-free"]} ∅ = [10].
Proof. vm_compute. done. Qed.

Definition digits_time (s : bytes) : Z := value_of 10 (take_digits 10 s).
Definition a_date : bytes := str "00000000000099".
Definition js_fault : FaultLogInfo := mkFault 99001 20010001 7 JS_CRASH (str "/system/app") [] [] [] [] [] [] {[str "REASON" := str "Error"]}.

Lemma fault_name_roundtrip_witness :
  ExtractInfoFromFileName digits_time (GetFaultLogName (λ t, if t =? 99 then Some a_date else None) 99 js_fault) =
    mkFault 99 20010001 0 JS_CRASH (str "app") [] [] [] [] [] [] ∅.
Proof.
  refine (fault_name_roundtrip digits_time (λ t, if t =? 99 then Some a_date else None) 99 js_fault 99 a_date _ _ _ _ _ _ _ _); try reflexivity.
  - unfold named_types. cbn. set_solver.
  - apply word_by_check. vm_compute. reflexivity.
  - cbn. lia.
Defined.

Definition old_log (k : nat) : bytes :=
  FAULTLOG_FAULT_LOGGER_FOLDER ++ str "jscrash-app-20010001-000000000000" ++ to_string (Z.of_nat k + 10) ++ str "000.log".
Definition ten_logs : Files := list_to_map ((λ k, (old_log k, mkFile [] 1)) <$> seq 0 10).
Definition app_fault : FaultLogInfo := mkFault 99001 20010001 7 JS_CRASH (str "app") [] [] [] [] [] [] {[str "REASON" := str "Error"]}.

Lemma newest_faults_kept_witness :
  let r := SaveFaultLogToFile (SO := Database.Database.merge_sorter) after_slash digits_time (λ _, Some a_date) 99 3 app_fault ten_logs in
  Zlen (filter (λ p, same_fault after_slash digits_time app_fault p = true) (GetDirFiles FAULTLOG_FAULT_LOGGER_FOLDER r.2)) <= 10 ∧
  r.2 !! old_log 0 = None ∧ is_Some (r.2 !! old_log 1) ∧ is_Some (r.2 !! (FAULTLOG_FAULT_LOGGER_FOLDER ++ str "jscrash-app-20010001-00000000000099001.log")).
Proof.
  split; [|vm_compute; split_and!; eauto].
  assert (E : ∀ x : bytes * FaultLogInfo * Files, x = (x.1.1, x.1.2, x.2)) by by intros [[? ?] ?].
  set (r := SaveFaultLogToFile (SO := Database.Database.merge_sorter) after_slash digits_time (λ _, Some a_date) 99 3 app_fault ten_logs).
  refine (proj1 (newest_faults_kept (SO := Database.Database.merge_sorter) after_slash digits_time (λ _, Some a_date) 99 3 app_fault
    r.1.2 r.1.1 ten_logs r.2 _ _ (E r))).
  - by vm_compute.
  - unfold r. vm_compute. discriminate.
Defined.

End FaultFacts.
